(* ===== verification/_CoqProject ===== *)
-Q . S2P
Prelude.v
Containers.v
Endian.v
ByteBuffer.v
ByteBufferFacts.v
Strings.v
Utf8.v
Huffman.v
Hpack.v
HpackFacts.v
Http2Frame.v
Http2Session.v
Http2SessionFacts.v
Http2ReceiveFacts.v
Http2Bridge.v
Http2BridgeFacts.v
Http2System.v
WsProtocol.v
WsParser.v
WsReference.v
WsParserFacts.v
WsStreamFacts.v
WsHandshake.v
WsConnection.v
WsConnectionFacts.v
WsServer.v
WsServerFacts.v
WsServerTheorems.v
WsTheorems.v
RpcTypes.v
RpcWire.v
RpcWireFacts.v
RpcRegistry.v
RpcRegistryFacts.v
RpcSession.v
RpcSessionFacts.v
RpcCallFacts.v
MqttProtocol.v
MqttProperties.v
MqttPropertiesFacts.v
MqttCodec.v
MqttCodecFacts.v
MqttDecodeSound.v
MqttTopicTree.v
MqttRetainedStore.v
MqttTopicTreeFacts.v
MqttSession.v
Json.v
MqttPersistence.v
MqttPersistenceFacts.v
MqttBroker.v
MqttBrokerFacts.v
MqttDispatcher.v
MqttDispatcherFacts.v
MqttServer.v
MqttServerFacts.v
MqttDeliveryFacts.v
MqttSubscribeFacts.v
MqttConnectFacts.v
MqttSystem.v
MqttConnectionFacts.v
BrokerTheorems.v
CodecTheorems.v
SystemTheorems.v
TopicTheorems.v
RpcTheorems.v
Http1.v
Http1Facts.v
Http1MultipartFacts.v
Http1BodyFacts.v
Http1Theorems.v
Http2Theorems.v
Dns.v
DnsFacts.v
DnsTextFacts.v
DnsTheorems.v
