(* ===== verification/Prelude.v ===== *)
(** * server-lib: a verification development

    The repository is a C++ library of network servers: byte buffers and a base library
    under [src/core], protocols under [src/protocol], and libraries over them under
    [src/libs]. This development models the buffer and the byte order conversions, the
    MQTT broker, the RPC library, the WebSocket server, HTTP/2 (with HPACK), the requests of
    HTTP/1 and DNS, each from its bytes on the wire to the behaviour of a whole session, and
    proves what makes them correct.

    ** Conventions
    A C++ function is a Rocq function of the same name in a Module of its class. State is
    a record that is passed along, or the state of a small monad where a component shares
    much of it. An unsigned integer is a [Z], and [u8], [u16], [u32], [u64] are applied
    where the code converts or wraps; a byte string is a list of bytes. The type [outcome]
    of this file tells apart a result, a failure that the code returns, a memory access
    outside its object, and a loop whose fuel ran out; theorems show that the last two do
    not happen, but for the bodies of multipart requests, where [http1_total] says what may
    happen. A coroutine is cut at its suspension points, and what runs in between is
    an argument or a step of a relation. A clock is a function from the number of the
    reading, or an argument; so are random numbers. Calls to the outside (writes, closes,
    callbacks of the application) are a trace of events.

    ** Files
    Shared:
    - [Prelude]: integers, outcomes, bounds-checked reads, tactics and hints;
      [Containers]: [std::map] in key order, with the class [OrdKey] of its keys;
      [Strings]: strings, with the Module [StringUtil] (string_util.h).
    - [Endian] (endian.hpp), [ByteBuffer] (byte_buffer.h): the class [ByteSink] is what a
      buffer promises to a writer, and the codecs are written against it;
      [ByteBufferFacts] has the view of a buffer as the list of its unread bytes and the
      rules for sequences of writes.
    - [Utf8]: the Modules [Utf8] (utf.cpp) and [Base64] (base64.cpp), with their lemmas.

    WebSocket (src/protocol/websocket):
    - [WsProtocol] (websocket_protocol.h, close_code.h) and [WsParser]
      (websocket_packet_parser.cpp): frames and messages on buffers. [WsReference] decodes
      a stream as a list, without buffers or chunks; [WsParserFacts] and [WsStreamFacts]
      relate the two and say what packing writes.
    - [WsConnection] (websocket_connection.cpp) and [WsServer] (entry/server.cpp):
      sending, dispatching, the close handshake, timers; a session from the end of its
      handshake, and the rate limits. [WsConnectionFacts] and [WsServerFacts] have the
      invariant and the steps.
    - [WsHandshake] (handshake.cpp, websocket_utils.cpp, websocket_config.cpp), with its
      lemmas.
    - [WsTheorems], [WsServerTheorems]: the properties.

    HTTP/1 (src/protocol/http):
    - [Http1] (packet_parser.cpp, request_parser.cpp, packet.cpp, request.cpp, context.cpp,
      the content parsers, the rounds of http_server.cpp, and url.cpp): from the bytes of a
      connection to the request that is dispatched, in the Modules [Url], [Headers],
      [Http1], [Chunked], [Multipart], [Http1Content] and [Http1Connection]. The disk, the
      JSON library and the limits are the fields of a record [Env]. A read at or behind the
      end of a multipart body is a fault, an exception of [std::stoul] a rejection.
    - [Http1Facts] has the grammar of a request's head on lists and that a stage of the
      parser may be cut anywhere; [Http1MultipartFacts] that the multipart parsers end, and
      what they make of a form; [Http1BodyFacts] chunked bodies, and how a round may end.
    - [Http1Theorems]: the properties.

    HTTP/2 (src/protocol/http):
    - [Huffman] (huffman_codec.cpp) and [Hpack] (hpack_encoder.cpp, hpack_decoder.cpp):
      header compression, with its lemmas in [Huffman] and [HpackFacts]: the code words of
      a byte string, and tables that agree up to the case of names.
    - [Http2Frame] (frame_codec.cpp, types.h): frames, and those of a stream as a function
      of its bytes.
    - [Http2Session] (session.cpp): a session; what it does to its connection and to the
      application is a trace, and the application is a function from the trace to the
      calls that it makes in return. [Http2SessionFacts] has the invariant and what each
      call writes, [Http2ReceiveFacts] what each frame may come to.
    - [Http2Bridge] (http_server.cpp, 744 to 1100 and 2421 to 2565): the server as that
      application, and the rounds of its connection loop. [Http2BridgeFacts] follows a
      request from the client's encoder to the reply; [Http2System] has the reachable
      sessions, input in pieces and the violations.
    - [Http2Theorems]: the properties.

    DNS (src/protocol/dns):
    - [Dns] (dns_packet.cpp, dns_server.cpp, dns_client.cpp): the text forms of addresses
      (Module [DnsText]), packets ([Dns]), the server ([DnsServer]) and the client
      ([DnsClient]). [DnsFacts] has the format of names with pointers, and packets that are
      written and read; [DnsTextFacts] the text of the data of records.
    - [DnsTheorems]: the records as a table, a query and its answer, and the properties.

    RPC (src/libs/rpc):
    - [RpcTypes] (types.h), [RpcWire] (wire.cpp, frame_stream.cpp, security.cpp),
      [RpcRegistry] (pending_call_registry.cpp, local_bus.cpp, server.cpp), [RpcSession]
      (session.cpp, transport.cpp, client.cpp, in_process_channel.h): two endpoints, with
      a loopback delivery as a nested call. [RpcWireFacts], [RpcRegistryFacts],
      [RpcSessionFacts], [RpcCallFacts], and the properties in
      [RpcTheorems].

    MQTT (src/protocol/mqtt):
    - [MqttProtocol] (mqtt_protocol.h, mqtt_packet.h), [MqttProperties]
      (mqtt_properties.cpp), [MqttCodec] (mqtt_codec.cpp): packets and their bytes, with
      [MqttPropertiesFacts], [MqttCodecFacts], [MqttDecodeSound].
    - [MqttTopicTree] (mqtt_topic_tree.cpp), [MqttRetainedStore]
      (mqtt_retained_store.cpp), [MqttSession] (mqtt_session.cpp, a
      Module for the sessions and one for their manager): the broker's data, with [MqttTopicTreeFacts]. [MqttPersistence]
      is their files, over a JSON library: the class [JsonLibrary] of [Json], which has an
      instance of it.
    - [MqttBroker] (mqtt_config.h, mqtt_handler.h) has the shared state and the monad;
      [MqttDispatcher] (mqtt_dispatcher.cpp) every packet handler, [MqttServer]
      (mqtt_server.cpp) the coroutine of a connection. [MqttSystem] is the step relation
      of a whole broker. The other files named Mqtt... hold lemmas, a group of handlers each.
    - [CodecTheorems], [TopicTheorems], [BrokerTheorems], [SystemTheorems]: the properties
      ([CodecTheorems] has those of the byte buffer too).

    ** What is shown
    Codecs: what is encoded is decoded, however a stream is cut into reads; decoders end,
    stay within their input and accept exactly what their format says ([CodecTheorems],
    [RpcTheorems], [WsTheorems], [Http2Theorems], [DnsTheorems]). Data: the subscription tree is a table
    of filters and its matching is MQTT's; routes are a map; files are read back; the
    records of a DNS server are a table ([TopicTheorems],
    [DnsTheorems]). Exchanges: who is sent what for each packet,
    QoS 2 once, wills, takeovers; each call answered once; pings answered and data
    delivered in order, up to a close frame that is the only one; an HTTP/2 request decoded,
    dispatched and answered, and bodies sent within the windows; HTTP/1 requests served as
    they were sent, in any pieces, and bad lengths refused; DNS queries answered from the
    records ([BrokerTheorems], [RpcTheorems], [WsServerTheorems], [Http2Theorems],
    [Http1Theorems], [DnsTheorems]). Systems: an invariant of every reachable state and
    that every step ends without a fault, whatever peers and applications do
    ([SystemTheorems], [RpcTheorems], [WsServerTheorems], [Http2Theorems],
    [Http1Theorems], [DnsTheorems]).

    ** Bounds and fuel
    Loops that consume input take the number of bytes that are left, plus one, as fuel,
    and each round consumes a byte; the theorems on them do not mention the fuel, since
    they say that the function returns. [Transport.depth] is 2: a request and its response
    are the only nested deliveries, for a handler does not call back. [MESSAGE_MAX] in the
    MQTT theorems keeps a packet below the 2^28 bytes that its length field can say, and
    [READ_MAX] is the 2^32 of a buffer's read. Where a map of the code is a hash table,
    the order of its walk is the parameter [order], any permutation.

    ** What is not modelled
    The event loop, the sockets, TLS and the coroutine scheduler are the environment: their
    effects are arguments, steps or events. A write to a connection is an event that neither
    fails nor calls back, except in the broker's [publish], whose argument [flush] is what
    the flush of a write does: the broker's system has it do nothing, and its progress
    theorem also takes flushes that keep the sessions of the publication; the code does not
    ensure that they do. Logging is left out. The responses of HTTP/1,
    its files, routing, middleware and proxying, and its client, RTP and RTCP, RTSP, WebRTC,
    BitTorrent, FTP, SSH, SMB, SOCKS5, Shadowsocks, WebDAV, the Redis and MySQL clients, the
    application framework and the servers under [src/server], and the client and the proxy
    of WebSocket, are not modelled yet. SHA-1 and the JSON library are third-party code:
    parameters, with what their documentation promises as named laws. *)
From Stdlib Require Export ZArith Lia List ZifyBool.
From Stdlib Require Import String Ascii.
From stdpp Require Export base tactics list gmap sets fin_sets.
#[export] Set Default Goal Selector "!".
Open Scope Z_scope.

Abbreviation bytes := (list Z) (only parsing).

(** * Machine integers

    A C++ unsigned integer of width [w] is a [Z]; every place where the code
    converts or lets an operation wrap applies the matching function. *)
Definition u8 (z : Z) : Z := z mod 256.
Definition u16 (z : Z) : Z := z mod 65536.
Definition u32 (z : Z) : Z := z mod 4294967296.
Definition u64 (z : Z) : Z := z mod 18446744073709551616.

Definition is_u8 (z : Z) : Prop := 0 <= z < 256.
Definition is_u16 (z : Z) : Prop := 0 <= z < 65536.
Definition is_u32 (z : Z) : Prop := 0 <= z < 4294967296.
Definition is_u64 (z : Z) : Prop := 0 <= z < 18446744073709551616.

#[export] Instance is_u8_dec z : Decision (is_u8 z).
Proof. unfold is_u8. apply _. Defined.

(** * Outcomes

    [Ok] is a normal result, [Reject] the code's own failure value
    ([std::nullopt], [false], [return 0]), [Fault] a memory access outside the
    object it addresses (undefined behaviour in the source), and [Diverge] marks
    a loop whose fuel ran out. *)
Inductive outcome (A : Type) : Type :=
| Ok (a : A)
| Reject
| Fault
| Diverge.
Arguments Ok {A} a.
Arguments Reject {A}.
Arguments Fault {A}.
Arguments Diverge {A}.

#[export] Instance outcome_ret : MRet outcome := fun A a => Ok a.
#[export] Instance outcome_bind : MBind outcome :=
  fun A B f m => match m with Ok a => f a | Reject => Reject | Fault => Fault | Diverge => Diverge end.

(** An outcome that the program may really produce. *)
Definition safe {A} (m : outcome A) : Prop :=
  match m with Ok _ | Reject => True | Fault | Diverge => False end.

(** What the code's caller sees of an [std::optional] result. *)
Definition has_value {A} (m : outcome A) : bool := match m with Ok _ => true | _ => false end.

(** * Byte strings *)

(** The length of an object in memory, as a [size_t]. *)
Definition zlen {A} (l : list A) : Z := Z.of_nat (length l).

(** [data[i]] *)
Definition rd (data : bytes) (i : Z) : outcome Z :=
  if i <? 0 then Fault else match data !! Z.to_nat i with Some b => Ok b | None => Fault end.

(** The [n] bytes from [data + i], as the range constructors of [std::string] and
    [std::vector] read them. *)
Definition rd_range (data : bytes) (i n : Z) : outcome bytes :=
  if (i <? 0) || (n <? 0) || (zlen data <? i + n) then Fault
  else Ok (take (Z.to_nat n) (drop (Z.to_nat i) data)).

(** String literals of the source. *)
Fixpoint str (s : string) : bytes :=
  match s with
  | EmptyString => []
  | String c s => Z.of_nat (nat_of_ascii c) :: str s
  end.

Arguments str s%_string.
Export StringSyntax.

(** Big-endian (network order) encodings. *)
Definition be16 (v : Z) : bytes := [u8 (Z.shiftr v 8); u8 v].
Definition be32 (v : Z) : bytes := [u8 (Z.shiftr v 24); u8 (Z.shiftr v 16); u8 (Z.shiftr v 8); u8 v].

#[global] Arguments be16 : simpl never.
#[global] Arguments be32 : simpl never.

(** * Lemmas *)

Create HintDb s2p.
Create Rewrite HintDb zlen.

Lemma outcome_bind_ok {A B} (a : A) (f : A -> outcome B) : (Ok a ≫= f) = f a.
Proof. reflexivity. Qed.

Lemma outcome_bind_inv {A B} (m : outcome A) (f : A -> outcome B) b :
  (m ≫= f) = Ok b -> exists a, m = Ok a /\ f a = Ok b.
Proof. destruct m; simpl; intros H; try discriminate. eauto. Qed.

(** Safety of a sequence: the second step may use that the first one succeeded. *)
Lemma safe_bind {A B} (m : outcome A) (f : A -> outcome B) :
  safe m -> (forall a, m = Ok a -> safe (f a)) -> safe (m ≫= f).
Proof. destruct m; simpl; auto. Qed.

Lemma safe_reject {A} : safe (Reject : outcome A).
Proof. exact I. Qed.
Lemma safe_ok {A} (a : A) : safe (Ok a).
Proof. exact I. Qed.
#[export] Hint Resolve safe_reject safe_ok : s2p.

Lemma zlen_nil {A} : zlen ([] : list A) = 0.
Proof. reflexivity. Qed.
Lemma zlen_cons {A} (x : A) l : zlen (x :: l) = 1 + zlen l.
Proof. unfold zlen. rewrite length_cons. lia. Qed.
Lemma zlen_app {A} (l k : list A) : zlen (l ++ k) = zlen l + zlen k.
Proof. unfold zlen. rewrite length_app. lia. Qed.
Lemma zlen_nonneg {A} (l : list A) : 0 <= zlen l.
Proof. unfold zlen. lia. Qed.
Lemma zlen_be16 v : zlen (be16 v) = 2.
Proof. reflexivity. Qed.
Lemma zlen_be32 v : zlen (be32 v) = 4.
Proof. reflexivity. Qed.
#[export] Hint Rewrite @zlen_nil @zlen_cons @zlen_app zlen_be16 zlen_be32 : zlen.
#[export] Hint Resolve zlen_nonneg : s2p.

(** [zlia]: linear arithmetic after normalising the lengths of explicit lists and
    recording that lengths are not negative. *)
Ltac zlen_pos :=
  repeat match goal with
  | |- context [zlen ?l] =>
      lazymatch goal with
      | _ : 0 <= zlen l |- _ => fail
      | _ => pose proof (zlen_nonneg l)
      end
  | _ : context [zlen ?l] |- _ =>
      lazymatch goal with
      | _ : 0 <= zlen l |- _ => fail
      | _ => pose proof (zlen_nonneg l)
      end
  end.
Ltac zlia := autorewrite with zlen in *; zlen_pos; lia.

(** One step of a bind whose first computation has returned. *)
Ltac mstep := cbn [mbind outcome_bind mret outcome_ret].

(** Case analysis on the first [if] of the goal, keeping the condition. *)
Ltac case_if :=
  match goal with
  | |- context [if ?b then _ else _] =>
      match type of b with bool => let Hif := fresh "Hif" in destruct b eqn:Hif end
  end.
Ltac case_if_in H :=
  match type of H with
  | context [if ?b then _ else _] =>
      match type of b with bool => let Hif := fresh "Hif" in destruct b eqn:Hif end
  end.

Lemma rd_app pre b post : rd (pre ++ b :: post) (zlen pre) = Ok b.
Proof.
  unfold rd, zlen. case_if; [lia|].
  rewrite Nat2Z.id, list_lookup_middle by reflexivity. reflexivity.
Qed.

Lemma rd_ok data i : 0 <= i < zlen data -> exists b, rd data i = Ok b.
Proof.
  unfold rd, zlen. intros. case_if; [lia|].
  destruct (lookup_lt_is_Some_2 data (Z.to_nat i)) as [b Hb]; [lia|].
  rewrite Hb. eauto.
Qed.

Lemma rd_safe data i : 0 <= i < zlen data -> safe (rd data i).
Proof. intros H. destruct (rd_ok data i H) as [b ->]. exact I. Qed.

Lemma rd_inv data i b : rd data i = Ok b -> 0 <= i < zlen data /\ data !! Z.to_nat i = Some b.
Proof.
  unfold rd, zlen. case_if; [discriminate|].
  destruct (data !! _) eqn:Hl; intros [= ->].
  apply lookup_lt_Some in Hl as ?. split; [lia|done].
Qed.

Lemma rd_is_u8 data i b : Forall is_u8 data -> rd data i = Ok b -> is_u8 b.
Proof. intros HF [_ Hl]%rd_inv. eapply Forall_lookup_1 in HF; eauto. Qed.

Lemma rd_range_app pre c post : rd_range (pre ++ c ++ post) (zlen pre) (zlen c) = Ok c.
Proof.
  unfold rd_range. case_if; [zlia|].
  unfold zlen. rewrite !Nat2Z.id, drop_app_length, take_app_length. reflexivity.
Qed.

Lemma rd_range_safe data i n : 0 <= i -> 0 <= n -> i + n <= zlen data -> safe (rd_range data i n).
Proof. unfold rd_range. intros. case_if; [lia|exact I]. Qed.

Lemma rd_range_len data i n s : rd_range data i n = Ok s -> zlen s = n.
Proof.
  unfold rd_range. case_if; [discriminate|]. intros [= <-].
  unfold zlen in *. rewrite length_take, length_drop. lia.
Qed.

(** Bit operations of the codecs, as arithmetic. *)
Lemma land_127 x : Z.land x 127 = x mod 128.
Proof. change 127 with (Z.ones 7). rewrite Z.land_ones by lia. reflexivity. Qed.
Lemma shiftr_7 x : Z.shiftr x 7 = x / 128.
Proof. rewrite Z.shiftr_div_pow2 by lia. reflexivity. Qed.
Lemma shiftr_8 x : Z.shiftr x 8 = x / 256.
Proof. rewrite Z.shiftr_div_pow2 by lia. reflexivity. Qed.

(** An [|] of disjoint parts is a sum. *)
Lemma lor_shiftl_add a b n : 0 <= n -> 0 <= b < 2 ^ n -> Z.lor (Z.shiftl a n) b = a * 2 ^ n + b.
Proof.
  intros Hn Hb. rewrite <- Z.shiftl_mul_pow2 by lia. rewrite <- Z.add_lor_land.
  enough (Z.land (Z.shiftl a n) b = 0) as -> by lia.
  apply Z.bits_inj'. intros m Hm. rewrite Z.land_spec, Z.bits_0.
  destruct (Z.lt_ge_cases m n).
  - rewrite Z.shiftl_spec_low by lia. reflexivity.
  - rewrite <- (Z.mod_small b (2 ^ n)) by lia.
    rewrite Z.mod_pow2_bits_high by lia. apply andb_false_r.
Qed.

Lemma be16_combine hi lo : is_u8 hi -> is_u8 lo -> u16 (Z.lor (Z.shiftl hi 8) lo) = hi * 256 + lo.
Proof.
  unfold is_u8, u16. intros. rewrite lor_shiftl_add by (change (2 ^ 8) with 256; lia).
  change (2 ^ 8) with 256. apply Z.mod_small. lia.
Qed.

(** Reading back what [be16] wrote. *)
Lemma be16_decode v : is_u16 v -> u16 (Z.lor (Z.shiftl (u8 (Z.shiftr v 8)) 8) (u8 v)) = v.
Proof.
  unfold is_u16. intros Hv. rewrite shiftr_8.
  rewrite be16_combine; unfold is_u8, u8; Z.to_euclidean_division_equations; lia.
Qed.

Lemma shiftr_div a n : 0 <= n -> Z.shiftr a n = a / 2 ^ n.
Proof. intros. apply Z.shiftr_div_pow2. lia. Qed.

Lemma be32_combine a b c d : is_u8 a -> is_u8 b -> is_u8 c -> is_u8 d ->
  u32 (Z.lor (Z.lor (Z.lor (Z.shiftl a 24) (Z.shiftl b 16)) (Z.shiftl c 8)) d)
  = ((a * 256 + b) * 256 + c) * 256 + d.
Proof.
  unfold is_u8, u32. intros.
  rewrite <- !Z.lor_assoc.
  rewrite (lor_shiftl_add c d 8) by lia.
  rewrite (lor_shiftl_add b _ 16) by lia.
  rewrite (lor_shiftl_add a _ 24) by lia.
  rewrite Z.mod_small by lia. lia.
Qed.

Lemma be32_decode v : is_u32 v ->
  u32 (Z.lor (Z.lor (Z.lor (Z.shiftl (u8 (Z.shiftr v 24)) 24) (Z.shiftl (u8 (Z.shiftr v 16)) 16))
                    (Z.shiftl (u8 (Z.shiftr v 8)) 8)) (u8 v)) = v.
Proof.
  unfold is_u32. intros Hv. rewrite !shiftr_div by lia.
  rewrite be32_combine; unfold is_u8, u8;
    change (2 ^ 24) with 16777216; change (2 ^ 16) with 65536; change (2 ^ 8) with 256;
    Z.to_euclidean_division_equations; lia.
Qed.

(** Membership in the [List] functions the models use. *)
Lemma elem_of_map {A B} (f : A -> B) l y : y ∈ map f l <-> exists x, y = f x /\ x ∈ l.
Proof.
  rewrite list_elem_of_In, in_map_iff. setoid_rewrite <- list_elem_of_In.
  by split; intros (x & Hx & ?); exists x.
Qed.
Lemma elem_of_flat_map {A B} (f : A -> list B) l y : y ∈ flat_map f l <-> exists x, x ∈ l /\ y ∈ f x.
Proof. rewrite list_elem_of_In, in_flat_map. by setoid_rewrite <- list_elem_of_In. Qed.
Lemma elem_of_filter {A} (p : A -> bool) l x : x ∈ List.filter p l <-> p x = true /\ x ∈ l.
Proof. rewrite list_elem_of_In, filter_In, <- list_elem_of_In. tauto. Qed.

(** * Readers with an offset

    A reader returns its result with the offset it advanced to. [in_bounds lo hi]:
    it never faults nor diverges, and an offset it returns lies in [lo, hi]. *)
Definition in_bounds {A} (lo hi : Z) (m : outcome (A * Z)) : Prop :=
  match m with Ok (_, o) => lo <= o <= hi | Reject => True | Fault | Diverge => False end.

Lemma in_bounds_safe {A} lo hi (m : outcome (A * Z)) : in_bounds lo hi m -> safe m.
Proof. destruct m as [[]| | |]; simpl; auto. Qed.

Lemma in_bounds_weaken {A} lo hi lo' hi' (m : outcome (A * Z)) :
  in_bounds lo hi m -> lo' <= lo -> hi <= hi' -> in_bounds lo' hi' m.
Proof. destruct m as [[]| | |]; simpl; auto. lia. Qed.

Lemma in_bounds_bind {A C} lo hi lo' hi' (m : outcome (A * Z)) (f : A -> Z -> outcome (C * Z)) :
  in_bounds lo' hi' m -> (forall a o, m = Ok (a, o) -> lo' <= o <= hi' -> in_bounds lo hi (f a o)) ->
  in_bounds lo hi ('(a, o) ← m; f a o).
Proof. destruct m as [[a o]| | |]; simpl; auto. Qed.

Lemma in_bounds_read {A C} lo hi (m : outcome A) (f : A -> outcome (C * Z)) :
  safe m -> (forall a, m = Ok a -> in_bounds lo hi (f a)) -> in_bounds lo hi (a ← m; f a).
Proof. destruct m; simpl; auto. Qed.

Lemma safe_bind_in {A C} lo hi (m : outcome (A * Z)) (f : A -> Z -> outcome C) :
  in_bounds lo hi m -> (forall a o, m = Ok (a, o) -> lo <= o <= hi -> safe (f a o)) ->
  safe ('(a, o) ← m; f a o).
Proof. destruct m as [[a o]| | |]; simpl; auto. Qed.

Lemma in_bounds_reject {A} lo hi : in_bounds lo hi (Reject : outcome (A * Z)).
Proof. exact I. Qed.
#[export] Hint Resolve in_bounds_reject : s2p.

(** A reader that meets its encoding [c] at [pre] returns [a] and stops after it. *)
Definition decodes {A} (read : bytes -> Z -> Z -> outcome (A * Z)) (c : bytes) (a : A) : Prop :=
  forall pre post hi, zlen pre + zlen c <= hi ->
    read (pre ++ c ++ post) hi (zlen pre) = Ok (a, zlen pre + zlen c).

(** The integer operations never produce values outside their width. *)
Lemma u8_range z : is_u8 (u8 z).
Proof. apply Z.mod_pos_bound. lia. Qed.
Lemma u16_range z : is_u16 (u16 z).
Proof. apply Z.mod_pos_bound. lia. Qed.
Lemma u32_range z : is_u32 (u32 z).
Proof. apply Z.mod_pos_bound. lia. Qed.
Lemma u8_id z : is_u8 z -> u8 z = z.
Proof. apply Z.mod_small. Qed.
Lemma u16_id z : is_u16 z -> u16 z = z.
Proof. apply Z.mod_small. Qed.
Lemma u32_id z : is_u32 z -> u32 z = z.
Proof. apply Z.mod_small. Qed.
#[export] Hint Resolve u8_range u16_range u32_range : s2p.
