(* ===== verification/Containers.v ===== *)
(** [std::map]: a map iterated in ascending key order, as a list of bindings.

    The program iterates several of its maps and the order is observable (which
    session is found first, in which order retained messages are delivered), so a
    map is kept as the sorted list that an iteration walks. [OrdKey] is what
    [std::less] promises of a key type; the instances are unsigned integers and
    [std::string] (lexicographic on unsigned bytes). *)
From S2P Require Import Prelude.

(** * Key order *)
Class OrdKey (K : Type) := {
  kcmp : K -> K -> comparison;
  kcmp_eq a b : kcmp a b = Eq <-> a = b;
  kcmp_antisym a b : kcmp b a = CompOpp (kcmp a b);
  kcmp_trans a b c : kcmp a b = Lt -> kcmp b c = Lt -> kcmp a c = Lt
}.

Fixpoint bytes_cmp (a b : bytes) : comparison :=
  match a, b with
  | [], [] => Eq
  | [], _ :: _ => Lt
  | _ :: _, [] => Gt
  | x :: a', y :: b' => match x ?= y with Eq => bytes_cmp a' b' | c => c end
  end.

(** * The map *)
Section OMap.
Context {K V : Type} `{OrdKey K}.

(** [m.find(k)] *)
Fixpoint map_find (k : K) (m : list (K * V)) : option V :=
  match m with
  | [] => None
  | (k', v) :: m' => match kcmp k k' with Eq => Some v | _ => map_find k m' end
  end.

(** [m[k] = v] *)
Fixpoint map_insert (k : K) (v : V) (m : list (K * V)) : list (K * V) :=
  match m with
  | [] => [(k, v)]
  | (k', v') :: m' =>
      match kcmp k k' with
      | Lt => (k, v) :: m
      | Eq => (k, v) :: m'
      | Gt => (k', v') :: map_insert k v m'
      end
  end.

(** [m.erase(k)] *)
Fixpoint map_erase (k : K) (m : list (K * V)) : list (K * V) :=
  match m with
  | [] => []
  | (k', v') :: m' =>
      match kcmp k k' with Eq => map_erase k m' | _ => (k', v') :: map_erase k m' end
  end.

(** Every key of [m] is above [k]. *)
Definition keys_above (k : K) (m : list (K * V)) : Prop := Forall (fun kv => kcmp k kv.1 = Lt) m.

(** The invariant of the container: strictly ascending keys. *)
Fixpoint map_sorted (m : list (K * V)) : Prop :=
  match m with
  | [] => True
  | (k, _) :: m' => keys_above k m' /\ map_sorted m'
  end.
End OMap.

(** * Laws *)
#[export] Instance OrdKey_Z : OrdKey Z.
Proof.
  refine {| kcmp := Z.compare |}.
  - apply Z.compare_eq_iff.
  - intros. apply Z.compare_antisym.
  - intros a b c ??. rewrite !Z.compare_lt_iff in *. lia.
Defined.

Lemma bytes_cmp_eq a b : bytes_cmp a b = Eq <-> a = b.
Proof.
  revert b; induction a as [|x a IH]; intros [|y b]; simpl; try (split; congruence).
  destruct (x ?= y) eqn:E; try (split; [discriminate|intros [= -> ->]; rewrite Z.compare_refl in E; discriminate]).
  apply Z.compare_eq_iff in E as ->. rewrite IH. split; congruence.
Qed.

Lemma bytes_cmp_antisym a b : bytes_cmp b a = CompOpp (bytes_cmp a b).
Proof.
  revert b; induction a as [|x a IH]; intros [|y b]; simpl; try reflexivity.
  rewrite (Z.compare_antisym x y). destruct (x ?= y); simpl; auto.
Qed.

Lemma bytes_cmp_trans a b c : bytes_cmp a b = Lt -> bytes_cmp b c = Lt -> bytes_cmp a c = Lt.
Proof.
  revert b c; induction a as [|x a IH]; intros [|y b] [|z c]; simpl; try congruence.
  destruct (Z.compare_spec x y), (Z.compare_spec y z), (Z.compare_spec x z);
    subst; try congruence; try lia; eauto.
Qed.

#[export] Instance OrdKey_bytes : OrdKey bytes := {|
  kcmp := bytes_cmp;
  kcmp_eq := bytes_cmp_eq;
  kcmp_antisym := bytes_cmp_antisym;
  kcmp_trans := bytes_cmp_trans |}.

Section Laws.
Context {K V : Type} `{OrdKey K}.
Implicit Types (k : K) (v : V) (m : list (K * V)).

Lemma kcmp_refl k : kcmp k k = Eq.
Proof. apply kcmp_eq. reflexivity. Qed.

Lemma kcmp_ne k k' : k <> k' -> kcmp k k' <> Eq.
Proof. intros ? ?%kcmp_eq. contradiction. Qed.

Lemma kcmp_gt_lt k k' : kcmp k k' = Gt -> kcmp k' k = Lt.
Proof. intros E. rewrite kcmp_antisym, E. reflexivity. Qed.

Lemma map_find_insert_eq k v m : map_find k (map_insert k v m) = Some v.
Proof.
  induction m as [|[k' v'] m IH]; simpl; [by rewrite kcmp_refl|].
  destruct (kcmp k k') eqn:E; simpl; rewrite ?kcmp_refl, ?E; auto.
Qed.

Lemma map_find_insert_ne k k' v m : k <> k' -> map_find k' (map_insert k v m) = map_find k' m.
Proof.
  intros Hne. induction m as [|[k2 v2] m IH]; simpl.
  - destruct (kcmp k' k) eqn:E; auto. apply kcmp_eq in E. congruence.
  - destruct (kcmp k k2) eqn:E; simpl.
    + apply kcmp_eq in E as <-. destruct (kcmp k' k) eqn:E; auto. apply kcmp_eq in E. congruence.
    + destruct (kcmp k' k) eqn:E'; auto. apply kcmp_eq in E'. congruence.
    + destruct (kcmp k' k2); auto.
Qed.

Lemma map_find_erase_eq k m : map_find k (map_erase k m) = None.
Proof. induction m as [|[k' v'] m IH]; simpl; auto. destruct (kcmp k k') eqn:E; simpl; rewrite ?E; auto. Qed.

Lemma map_find_erase_ne k k' m : k <> k' -> map_find k' (map_erase k m) = map_find k' m.
Proof.
  intros Hne. induction m as [|[k2 v2] m IH]; simpl; auto.
  destruct (kcmp k k2) eqn:E; simpl; rewrite ?IH; auto.
  apply kcmp_eq in E as <-. destruct (kcmp k' k) eqn:E; auto. apply kcmp_eq in E. congruence.
Qed.

Lemma map_find_elem k v m : map_find k m = Some v -> (k, v) ∈ m.
Proof.
  induction m as [|[k' v'] m IH]; simpl; [discriminate|].
  destruct (kcmp k k') eqn:E; [apply kcmp_eq in E as <-; intros [= ->]; left|right; auto|right; auto].
Qed.

Lemma map_insert_elem k v m kv : kv ∈ map_insert k v m -> kv = (k, v) \/ kv ∈ m.
Proof.
  induction m as [|[k' v'] m IH]; simpl; [by intros ->%list_elem_of_singleton; left|].
  destruct (kcmp k k') eqn:E; rewrite ?elem_of_cons in *; intuition.
Qed.

Lemma map_erase_elem k m kv : kv ∈ map_erase k m -> kv ∈ m.
Proof.
  induction m as [|[k' v'] m IH]; simpl; auto.
  destruct (kcmp k k') eqn:E; rewrite ?elem_of_cons in *; intuition.
Qed.

Lemma keys_above_trans k k' m : kcmp k k' = Lt -> keys_above k' m -> keys_above k m.
Proof. unfold keys_above. intros ??. eapply Forall_impl; [eassumption|]. intros [? ?]; simpl. eauto using kcmp_trans. Qed.

Lemma keys_above_insert k k' v m : kcmp k k' = Lt -> keys_above k m -> keys_above k (map_insert k' v m).
Proof.
  unfold keys_above. rewrite !Forall_forall. intros ?? kv [->|]%map_insert_elem; auto.
Qed.

Lemma keys_above_erase k k' m : keys_above k m -> keys_above k (map_erase k' m).
Proof. unfold keys_above. rewrite !Forall_forall. intros ? kv ?%map_erase_elem; auto. Qed.

Lemma map_sorted_insert k v m : map_sorted m -> map_sorted (map_insert k v m).
Proof.
  induction m as [|[k' v'] m IH]; simpl; [repeat constructor|]. intros [Ha Hs].
  destruct (kcmp k k') eqn:E; simpl.
  - apply kcmp_eq in E as ->. auto.
  - split; [|simpl; auto]. constructor; [done|]. eapply keys_above_trans; eauto.
  - apply kcmp_gt_lt in E. split; auto using keys_above_insert.
Qed.

Lemma map_sorted_erase k m : map_sorted m -> map_sorted (map_erase k m).
Proof.
  induction m as [|[k' v'] m IH]; simpl; auto. intros [Ha Hs].
  destruct (kcmp k k'); simpl; auto using keys_above_erase.
Qed.

Lemma keys_above_find k m : keys_above k m -> map_find k m = None.
Proof.
  induction 1 as [|[k' v'] m E _ IH]; simpl in *; auto. rewrite E. done.
Qed.

Lemma map_sorted_find k v m : map_sorted m -> (k, v) ∈ m -> map_find k m = Some v.
Proof.
  induction m as [|[k' v'] m IH]; simpl; [intros _ []%not_elem_of_nil|].
  intros [Ha Hs] [[= -> ->]|Hin]%elem_of_cons; [by rewrite kcmp_refl|].
  destruct (kcmp k k') eqn:E; auto.
  apply kcmp_eq in E as ->. unfold keys_above in Ha. rewrite Forall_forall in Ha.
  apply Ha in Hin. simpl in Hin. rewrite kcmp_refl in Hin. discriminate.
Qed.

Lemma map_sorted_filter (P : K * V -> Prop) `{!forall kv, Decision (P kv)} m :
  map_sorted m -> map_sorted (filter P m).
Proof.
  induction m as [|[k v] m IH]; [done|]. intros [Ha Hs]. rewrite filter_cons.
  case_decide; simpl; auto. split; auto. unfold keys_above in *.
  rewrite Forall_forall in *. intros kv [_ ?]%list_elem_of_filter. auto.
Qed.

(** [find_none]: no binding under the key, and conversely. *)
Lemma map_find_none k m : map_find k m = None <-> forall v, (k, v) ∉ m.
Proof.
  induction m as [|[k' v'] m IH]; simpl.
  - split; [intros _ v []%not_elem_of_nil|done].
  - destruct (kcmp k k') eqn:E.
    + apply kcmp_eq in E as ->. split; [discriminate|]. intros Hn. destruct (Hn v'). left.
    + rewrite IH. split; intros Hn v; [|intros ?; apply (Hn v); by right].
      intros [[= -> ->]|?]%elem_of_cons; [by rewrite kcmp_refl in E|by apply (Hn v)].
    + rewrite IH. split; intros Hn v; [|intros ?; apply (Hn v); by right].
      intros [[= -> ->]|?]%elem_of_cons; [by rewrite kcmp_refl in E|by apply (Hn v)].
Qed.

(** A key above all others goes last, so filing the bindings of a sorted map one by one
    rebuilds it. *)
Lemma map_insert_last k v m : Forall (fun e => kcmp e.1 k = Lt) m -> map_insert k v m = m ++ [(k, v)].
Proof.
  induction 1 as [|[k' v'] m E _ IH]; simpl in *; [done|]. by rewrite kcmp_antisym, E, IH.
Qed.
Lemma foldl_insert_sorted m acc : map_sorted m -> Forall (fun e => keys_above e.1 m) acc ->
  foldl (fun m kv => map_insert kv.1 kv.2 m) acc m = acc ++ m.
Proof.
  revert acc; induction m as [|[k v] m IH]; intros acc Hs Hacc; [by rewrite app_nil_r|].
  destruct Hs as [Ha Hs]. cbn [foldl fst snd]. unfold keys_above in Hacc at 1.
  rewrite map_insert_last.
  - rewrite IH; [by rewrite <- app_assoc|done|]. apply Forall_app. split; [|by repeat constructor].
    eapply Forall_impl; [exact Hacc|]. by intros e [_ He]%Forall_cons.
  - eapply Forall_impl; [exact Hacc|]. by intros e [He _]%Forall_cons.
Qed.
End Laws.
#[export] Hint Resolve map_sorted_insert map_sorted_erase map_sorted_filter : s2p.
