(* ===== verification/Endian.v ===== *)
(** Byte order: [core/core/include/endian/endian.hpp].

    The platform's byte order ([isLittleEndian()], a compile-time constant) is the
    parameter [little]. [host_bytes] is how an integer object lies in memory, which
    is what [memcpy] of that object copies; the network conversions are the
    functions of the header, [htons]/[htonl] being the C library's. *)
From S2P Require Import Prelude.

(** The [n] bytes of an unsigned integer, least significant first. *)
Fixpoint le_bytes (n : nat) (v : Z) : bytes :=
  match n with O => [] | S n => u8 v :: le_bytes n (Z.shiftr v 8) end.

Fixpoint le_value (l : bytes) : Z :=
  match l with [] => 0 | b :: l => b + 256 * le_value l end.

(** The bytes of an integer object in memory, and the integer that bytes in
    memory represent. *)
Definition host_bytes (little : bool) (n : nat) (v : Z) : bytes :=
  if little then le_bytes n v else rev (le_bytes n v).
Definition host_value (little : bool) (l : bytes) : Z :=
  if little then le_value l else le_value (rev l).

(** The value of a two's-complement integer of [w] bits. *)
Definition signed (w v : Z) : Z :=
  let v := v mod 2 ^ w in if v <? 2 ^ (w - 1) then v else v - 2 ^ w.

Definition byteSwap16 (value : Z) : Z := le_value (rev (le_bytes 2 value)).
Definition byteSwap32 (value : Z) : Z := le_value (rev (le_bytes 4 value)).
Definition byteSwap64 (value : Z) : Z := le_value (rev (le_bytes 8 value)).

Section Conversions.
Variable little : bool.

Definition isLittleEndian : bool := little.

Definition htons (v : Z) : Z := if little then byteSwap16 v else v.
Definition htonl (v : Z) : Z := if little then byteSwap32 v else v.
Definition ntohs (v : Z) : Z := if little then byteSwap16 v else v.
Definition ntohl (v : Z) : Z := if little then byteSwap32 v else v.
Definition htonll (value : Z) : Z := if isLittleEndian then byteSwap64 value else value.
Definition ntohll (value : Z) : Z := htonll value.

Definition hostToNetwork64 (host64 : Z) : Z := htonll host64.
Definition hostToNetwork32 (host32 : Z) : Z := htonl host32.
Definition hostToNetwork16 (host16 : Z) : Z := htons host16.
Definition networkToHost64 (net64 : Z) : Z := ntohll net64.
Definition networkToHost32 (net32 : Z) : Z := ntohl net32.
Definition networkToHost16 (net16 : Z) : Z := ntohs net16.
End Conversions.

(** * Lemmas *)
Lemma le_bytes_length n v : length (le_bytes n v) = n.
Proof. revert v; induction n; simpl; intros; f_equal; auto. Qed.

Lemma le_bytes_u8 n v : Forall is_u8 (le_bytes n v).
Proof.
  revert v; induction n; simpl; intros; constructor; auto.
  unfold is_u8, u8. apply Z.mod_pos_bound. lia.
Qed.

Lemma le_value_bytes l : Forall is_u8 l -> le_bytes (length l) (le_value l) = l.
Proof.
  induction 1 as [|b l Hb _ IH]; [reflexivity|]. cbn [length le_bytes le_value].
  unfold is_u8 in Hb. f_equal.
  - unfold u8. rewrite Z.mul_comm, Z_mod_plus_full. apply Z.mod_small. lia.
  - rewrite shiftr_8. rewrite Z.mul_comm, Z_div_plus by lia.
    rewrite Z.div_small by lia. exact IH.
Qed.

Lemma le_bytes_value n v : 0 <= v < 256 ^ Z.of_nat n -> le_value (le_bytes n v) = v.
Proof.
  revert v; induction n as [|n IH]; intros v Hv.
  - simpl in *. lia.
  - cbn [le_bytes le_value]. rewrite Nat2Z.inj_succ, Z.pow_succ_r in Hv by lia.
    rewrite IH, shiftr_8; unfold u8; [|rewrite shiftr_8];
      Z.to_euclidean_division_equations; nia.
Qed.

(** Swapping and storing in a little-endian machine stores the reverse. *)
Lemma swap_bytes n v : le_bytes n (le_value (rev (le_bytes n v))) = rev (le_bytes n v).
Proof.
  rewrite <- (le_bytes_length n v) at 1. rewrite <- length_rev.
  apply le_value_bytes. apply Forall_rev, le_bytes_u8.
Qed.

(** Whatever the byte order of the host, the object [hostToNetwork16(v)] lies in
    memory as the two bytes of [v], most significant first. *)
Lemma network_bytes16 little v : host_bytes little 2 (hostToNetwork16 little v) = be16 v.
Proof.
  destruct little; cbn [host_bytes hostToNetwork16 htons byteSwap16];
    [unfold hostToNetwork16, htons, byteSwap16; rewrite swap_bytes|]; reflexivity.
Qed.

Lemma network_bytes32 little v : host_bytes little 4 (hostToNetwork32 little v) = be32 v.
Proof.
  assert (rev (le_bytes 4 v) = be32 v) as E.
  { cbn [le_bytes rev app]. unfold be32. rewrite !Z.shiftr_shiftr by lia. reflexivity. }
  destruct little; unfold host_bytes, hostToNetwork32, htonl, byteSwap32; [rewrite swap_bytes|]; exact E.
Qed.

(** Swapping twice gives the integer back. *)
Lemma swap_involutive n v : 0 <= v < 256 ^ Z.of_nat n ->
  le_value (rev (le_bytes n (le_value (rev (le_bytes n v))))) = v.
Proof. intros Hv. rewrite swap_bytes, rev_involutive. by apply le_bytes_value. Qed.

(** Reading network-order bytes back gives the integer, on either host. *)
Lemma network_value16 little v : is_u16 v -> networkToHost16 little (host_value little (be16 v)) = v.
Proof.
  unfold is_u16. intros Hv. rewrite <- (network_bytes16 little).
  destruct little; cbv [host_value host_bytes networkToHost16 ntohs hostToNetwork16 htons byteSwap16].
  - rewrite swap_bytes. apply swap_involutive. lia.
  - rewrite rev_involutive. apply le_bytes_value. lia.
Qed.

Lemma network_value32 little v : is_u32 v -> networkToHost32 little (host_value little (be32 v)) = v.
Proof.
  unfold is_u32. intros Hv. rewrite <- (network_bytes32 little).
  destruct little; cbv [host_value host_bytes networkToHost32 ntohl hostToNetwork32 htonl byteSwap32].
  - rewrite swap_bytes. apply swap_involutive. lia.
  - rewrite rev_involutive. apply le_bytes_value. lia.
Qed.

Lemma le_value_range l : Forall is_u8 l -> 0 <= le_value l < 256 ^ Z.of_nat (length l).
Proof.
  induction 1 as [|b l Hb _ IH]; [simpl; lia|]. cbn [length le_value]. rewrite Nat2Z.inj_succ, Z.pow_succ_r by lia.
  unfold is_u8 in Hb. lia.
Qed.

Lemma le_bytes_mod n v : le_bytes n (v mod 256 ^ Z.of_nat n) = le_bytes n v.
Proof.
  revert v; induction n as [|n IH]; intros v; [done|]. cbn [le_bytes]. rewrite Nat2Z.inj_succ, Z.pow_succ_r by lia.
  assert (0 < 256 ^ Z.of_nat n) by (apply Z.pow_pos_nonneg; lia). f_equal.
  - unfold u8. rewrite Z.rem_mul_r, (Z.mul_comm 256 (_ mod _)), Z.mod_add by lia. by rewrite Z.mod_mod by lia.
  - rewrite <- (IH (Z.shiftr v 8)). f_equal. rewrite !Z.shiftr_div_pow2 by lia. change (2 ^ 8) with 256.
    rewrite Z.rem_mul_r, Z.add_comm, Z.mul_comm, Z.div_add_l, (Z.div_small (v mod 256)) by lia || (apply Z.mod_pos_bound; lia).
    lia.
Qed.

(** The conversions to the unsigned type and back are inverse on the values of either. *)
Lemma signed_id w v : 0 < w -> - 2 ^ (w - 1) <= v < 2 ^ (w - 1) -> signed w (v mod 2 ^ w) = v.
Proof.
  intros Hw Hv. unfold signed. cbv zeta. rewrite Z.mod_mod by lia.
  assert (2 ^ w = 2 * 2 ^ (w - 1)) as E by (rewrite <- Z.pow_succ_r by lia; f_equal; lia).
  destruct (Z.le_gt_cases 0 v).
  - rewrite Z.mod_small by lia. case_match; lia.
  - replace (v mod 2 ^ w) with (v + 2 ^ w) by (rewrite <- (Z.mod_add v 1), Z.mod_small; lia). case_match; lia.
Qed.

Lemma signed_mod w v : 0 < w -> 0 <= v < 2 ^ w -> signed w v mod 2 ^ w = v.
Proof.
  intros Hw Hv. unfold signed. cbv zeta. rewrite (Z.mod_small v) by lia. case_match; [by rewrite Z.mod_small|].
  rewrite <- (Z.mod_add (v - 2 ^ w) 1), Z.mod_small by lia. lia.
Qed.

(** Eight bytes, most significant first. *)
Definition be64 (v : Z) : bytes := rev (le_bytes 8 v).
#[global] Arguments be64 : simpl never.

Lemma zlen_be64 v : zlen (be64 v) = 8.
Proof. unfold zlen, be64. by rewrite length_rev, le_bytes_length. Qed.
Lemma be64_u8 v : Forall is_u8 (be64 v).
Proof. apply Forall_rev, le_bytes_u8. Qed.

Lemma network_bytes64 little v : host_bytes little 8 (hostToNetwork64 little v) = be64 v.
Proof. destruct little; unfold host_bytes, hostToNetwork64, htonll, isLittleEndian, byteSwap64; [by rewrite swap_bytes|done]. Qed.

(** The value of bytes that are read most significant first. *)
Definition be_value (l : bytes) : Z := le_value (rev l).

Lemma le_value_app l k : le_value (l ++ k) = le_value l + 256 ^ Z.of_nat (length l) * le_value k.
Proof.
  induction l as [|b l IH]; [cbn [app length le_value]; lia|]. cbn [app length le_value].
  rewrite Nat2Z.inj_succ, Z.pow_succ_r by lia. rewrite IH. lia.
Qed.

Lemma be_value_cons b l : be_value (b :: l) = b * 256 ^ Z.of_nat (length l) + be_value l.
Proof. unfold be_value. cbn [rev]. rewrite le_value_app, length_rev. cbn [le_value]. lia. Qed.

Lemma be_value_range l : Forall is_u8 l -> 0 <= be_value l < 256 ^ Z.of_nat (length l).
Proof. intros Hl. unfold be_value. rewrite <- (length_rev l). by apply le_value_range, Forall_rev. Qed.

Lemma be_value_be64 v : is_u64 v -> be_value (be64 v) = v.
Proof. unfold is_u64, be_value, be64. intros Hv. rewrite rev_involutive. apply le_bytes_value. lia. Qed.

Lemma be64_be_value l : Forall is_u8 l -> length l = 8%nat -> be64 (be_value l) = l.
Proof.
  intros Hl E. unfold be64, be_value. rewrite <- E, <- length_rev, le_value_bytes by by apply Forall_rev.
  apply rev_involutive.
Qed.
