(* ===== verification/ByteBuffer.v ===== *)
(** The growable byte buffer: [core/core/include/buffer/byte_buffer.h].

    A [ByteBuffer] is its storage vector and the two cursors. Every [memcpy] and
    [memmove] is a bounds-checked copy into the storage, so that writing past the
    end is a [Fault] of the model. [ByteSink] is the interface the codecs use: it
    is what the buffer promises to a writer that only appends. *)
From S2P Require Import Prelude Endian.

(** * The interface of an append-only writer *)
Class ByteSink (B : Type) := {
  (** [ByteBuffer buf(capacity)] *)
  sink_new : Z -> B;
  sink_append : bytes -> B -> outcome B;
  sink_u8 : Z -> B -> outcome B;
  sink_u16 : Z -> B -> outcome B;
  sink_u32 : Z -> B -> outcome B;
  sink_write_offset : B -> Z;
  (** [readable_span()] *)
  sink_contents : B -> bytes;
  (** the states an append-only writer reaches *)
  sink_ok : B -> Prop;

  sink_new_ok c : 0 <= c -> sink_ok (sink_new c) /\ sink_contents (sink_new c) = [];
  sink_write_offset_ok b : sink_ok b -> sink_write_offset b = zlen (sink_contents b);
  sink_append_ok x b : sink_ok b ->
    exists b', sink_append x b = Ok b' /\ sink_ok b' /\ sink_contents b' = sink_contents b ++ x;
  sink_u8_ok v b : sink_ok b ->
    exists b', sink_u8 v b = Ok b' /\ sink_ok b' /\ sink_contents b' = sink_contents b ++ [u8 v];
  sink_u16_ok v b : sink_ok b ->
    exists b', sink_u16 v b = Ok b' /\ sink_ok b' /\ sink_contents b' = sink_contents b ++ be16 v;
  sink_u32_ok v b : sink_ok b ->
    exists b', sink_u32 v b = Ok b' /\ sink_ok b' /\ sink_contents b' = sink_contents b ++ be32 v
}.

(** * The buffer *)
Module ByteBuffer.

Record t : Type := mk {
  storage_ : bytes;
  read_offset_ : Z;
  write_offset_ : Z
}.

Definition kDefaultCapacity : Z := 8192.

(** [std::vector<char>(capacity)]: zero-filled. *)
Definition zeros (n : Z) : bytes := replicate (Z.to_nat n) 0.

Definition with_capacity (capacity : Z) : t := mk (zeros capacity) 0 0.
Definition default : t := with_capacity kDefaultCapacity.

(** [memcpy(storage.data() + off, src, n)] *)
Definition copy_into (storage : bytes) (off : Z) (src : bytes) : outcome bytes :=
  if (off <? 0) || (zlen storage <? off + zlen src) then Fault
  else Ok (take (Z.to_nat off) storage ++ src ++ drop (Z.to_nat (off + zlen src)) storage).

Definition capacity (b : t) : Z := zlen (storage_ b).
Definition readable_bytes (b : t) : Z := write_offset_ b - read_offset_ b.
Definition writable_bytes (b : t) : Z := zlen (storage_ b) - write_offset_ b.
Definition empty (b : t) : bool := readable_bytes b =? 0.

(** [readable_span()]: the readable bytes, read from the storage. *)
Definition readable_span (b : t) : outcome bytes :=
  rd_range (storage_ b) (read_offset_ b) (readable_bytes b).

Definition clear (b : t) : t := mk (storage_ b) 0 0.

Definition compact (b : t) : outcome t :=
  if read_offset_ b =? 0 then Ok b
  else if read_offset_ b =? write_offset_ b then Ok (clear b)
  else
    src ← readable_span b;
    storage ← copy_into (storage_ b) 0 src;
    Ok (mk storage 0 (write_offset_ b - read_offset_ b)).

Definition reserve (capacity : Z) (b : t) : outcome t :=
  if capacity <=? zlen (storage_ b) then Ok b
  else
    let new_storage := zeros capacity in
    let readable := readable_bytes b in
    if 0 <? readable then
      src ← readable_span b;
      new_storage ← copy_into new_storage 0 src;
      Ok (mk new_storage 0 readable)
    else Ok (mk new_storage 0 readable).

Definition ensure_writable (n : Z) (b : t) : outcome t :=
  if n <=? writable_bytes b then Ok b
  else if (0 <? read_offset_ b) && (n <=? read_offset_ b + writable_bytes b) then
    b ← compact b;
    if n <=? writable_bytes b then Ok b else reserve (readable_bytes b + n) b
  else reserve (readable_bytes b + n) b.

Definition commit (n : Z) (b : t) : t :=
  mk (storage_ b) (read_offset_ b) (Z.min (u64 (write_offset_ b + n)) (zlen (storage_ b))).

Definition shrink_to_fit (b : t) : outcome t :=
  b ← compact b;
  if zlen (storage_ b) =? write_offset_ b then Ok b
  else Ok (mk (take (Z.to_nat (write_offset_ b)) (storage_ b)) (read_offset_ b) (write_offset_ b)).

Definition consume (n : Z) (b : t) : t :=
  mk (storage_ b) (Z.min (u64 (read_offset_ b + n)) (write_offset_ b)) (write_offset_ b).

Definition set_read_offset (offset : Z) (b : t) : t :=
  if offset <=? write_offset_ b then mk (storage_ b) offset (write_offset_ b) else b.

Definition set_write_offset (offset : Z) (b : t) : t :=
  if (read_offset_ b <=? offset) && (offset <=? zlen (storage_ b))
  then mk (storage_ b) (read_offset_ b) offset else b.

Definition append (src : bytes) (b : t) : outcome t :=
  b ← ensure_writable (zlen src) b;
  storage ← copy_into (storage_ b) (write_offset_ b) src;
  Ok (mk storage (read_offset_ b) (write_offset_ b + zlen src)).

Definition append_buffer (other : t) (b : t) : outcome t :=
  src ← readable_span other; append src b.

(** [read_trivial<T>()]: [n = sizeof(T)] bytes; an underflow throws, which is [Reject]. *)
Definition read_trivial (n : Z) (b : t) : outcome (bytes * t) :=
  if readable_bytes b <? n then Reject
  else
    value ← rd_range (storage_ b) (read_offset_ b) n;
    Ok (value, mk (storage_ b) (read_offset_ b + n) (write_offset_ b)).

Section Integers.
Variable little : bool.

Definition append_u8 (value : Z) (b : t) : outcome t := append (host_bytes little 1 value) b.
Definition append_u16 (value : Z) (b : t) : outcome t :=
  let network := hostToNetwork16 little value in append (host_bytes little 2 network) b.
Definition append_u32 (value : Z) (b : t) : outcome t :=
  let network := hostToNetwork32 little value in append (host_bytes little 4 network) b.
Definition append_u64 (value : Z) (b : t) : outcome t :=
  let network := hostToNetwork64 little value in append (host_bytes little 8 network) b.

Definition read_u8 (b : t) : outcome (Z * t) :=
  '(v, b) ← read_trivial 1 b; Ok (host_value little v, b).
Definition read_u16 (b : t) : outcome (Z * t) :=
  '(v, b) ← read_trivial 2 b; Ok (networkToHost16 little (host_value little v), b).
Definition read_u32 (b : t) : outcome (Z * t) :=
  '(v, b) ← read_trivial 4 b; Ok (networkToHost32 little (host_value little v), b).
Definition read_u64 (b : t) : outcome (Z * t) :=
  '(v, b) ← read_trivial 8 b; Ok (networkToHost64 little (host_value little v), b).

(** The signed integers: [static_cast] to the unsigned type of the width, and back. *)
Definition append_char (ch : Z) (b : t) : outcome t := append (host_bytes little 1 ch) b.
Definition append_i8 (value : Z) (b : t) : outcome t := append (host_bytes little 1 value) b.
Definition append_i16 (value : Z) (b : t) : outcome t :=
  let network := hostToNetwork16 little (u16 value) in append (host_bytes little 2 network) b.
Definition append_i32 (value : Z) (b : t) : outcome t :=
  let network := hostToNetwork32 little (u32 value) in append (host_bytes little 4 network) b.
Definition append_i64 (value : Z) (b : t) : outcome t :=
  let network := hostToNetwork64 little (u64 value) in append (host_bytes little 8 network) b.

Definition read_i8 (b : t) : outcome (Z * t) :=
  '(v, b) ← read_trivial 1 b; Ok (signed 8 (host_value little v), b).
Definition read_i16 (b : t) : outcome (Z * t) :=
  '(v, b) ← read_trivial 2 b; Ok (signed 16 (networkToHost16 little (u16 (signed 16 (host_value little v)))), b).
Definition read_i32 (b : t) : outcome (Z * t) :=
  '(v, b) ← read_trivial 4 b; Ok (signed 32 (networkToHost32 little (u32 (signed 32 (host_value little v)))), b).
Definition read_i64 (b : t) : outcome (Z * t) :=
  '(v, b) ← read_trivial 8 b; Ok (signed 64 (networkToHost64 little (u64 (signed 64 (host_value little v)))), b).
End Integers.

(** [copy_readable()], through the [std::span] constructor. *)
Definition of_span (src : bytes) : outcome t := append src (with_capacity (zlen src)).
Definition copy_readable (b : t) : outcome t := src ← readable_span b; of_span src.

(** * The invariant and the abstraction *)

(** The cursors stay ordered and inside the storage. *)
Definition wf (b : t) : Prop := 0 <= read_offset_ b <= write_offset_ b /\ write_offset_ b <= zlen (storage_ b).

(** What the buffer holds. *)
Definition contents (b : t) : bytes :=
  take (Z.to_nat (readable_bytes b)) (drop (Z.to_nat (read_offset_ b)) (storage_ b)).

(** * Lemmas *)
Lemma zlen_zeros n : 0 <= n -> zlen (zeros n) = n.
Proof. intros. unfold zlen, zeros. rewrite length_replicate. lia. Qed.

Lemma zlen_contents b : wf b -> zlen (contents b) = readable_bytes b.
Proof.
  intros [? ?]. unfold zlen, contents, readable_bytes, zlen in *.
  rewrite length_take, length_drop. lia.
Qed.

(** A well-formed buffer is consumed bytes, contents and free space. *)
Lemma wf_split b : wf b ->
  exists p s, storage_ b = p ++ contents b ++ s /\ zlen p = read_offset_ b.
Proof.
  intros [? ?]. exists (take (Z.to_nat (read_offset_ b)) (storage_ b)).
  exists (drop (Z.to_nat (readable_bytes b)) (drop (Z.to_nat (read_offset_ b)) (storage_ b))).
  unfold contents. rewrite take_drop, take_drop. split; [done|].
  unfold zlen in *. rewrite length_take. lia.
Qed.

Lemma contents_of p c s : contents (mk (p ++ c ++ s) (zlen p) (zlen p + zlen c)) = c.
Proof.
  unfold contents, readable_bytes, zlen; simpl.
  replace (Z.to_nat (_ + _ - _)) with (length c) by lia.
  rewrite Nat2Z.id, drop_app_length, take_app_length. done.
Qed.

Lemma contents_wf p c s : wf (mk (p ++ c ++ s) (zlen p) (zlen p + zlen c)).
Proof. unfold wf; simpl. zlia. Qed.

(** The bytes a buffer holds, as a record with its storage split. *)
Lemma split_eq b : wf b -> exists p s,
  b = mk (p ++ contents b ++ s) (zlen p) (zlen p + zlen (contents b)).
Proof.
  intros Hwf. destruct (wf_split b Hwf) as (p & s & E & Hp). exists p, s.
  pose proof (zlen_contents b Hwf) as Hc. rewrite <- E, Hc, Hp. unfold readable_bytes.
  destruct b; simpl. f_equal. lia.
Qed.

Lemma copy_into_app p old s src : zlen src = zlen old ->
  copy_into (p ++ old ++ s) (zlen p) src = Ok (p ++ src ++ s).
Proof.
  intros El. unfold copy_into. case_if; [zlia|]. rewrite El.
  unfold zlen. rewrite Nat2Z.id, take_app_length.
  replace (Z.to_nat _) with (length (p ++ old)) by (rewrite length_app; lia).
  rewrite (app_assoc p old s), drop_app_length. done.
Qed.

Lemma readable_span_ok b : wf b -> readable_span b = Ok (contents b).
Proof.
  intros (p & s & E)%split_eq. rewrite E at 1. unfold readable_span, readable_bytes; simpl.
  replace (_ + _ - _) with (zlen (contents b)) by lia. apply rd_range_app.
Qed.

(** [spec]: what an operation may do to a buffer: it succeeds, keeps the invariant,
    and holds [c] afterwards. *)
Definition holds (m : outcome t) (c : bytes) (room : Z) : Prop :=
  exists b, m = Ok b /\ wf b /\ contents b = c /\ room <= writable_bytes b.

Lemma clear_wf b : wf b -> wf (clear b).
Proof. unfold wf, clear; simpl. zlia. Qed.

Lemma compact_ok b : wf b -> holds (compact b) (contents b) (read_offset_ b + writable_bytes b).
Proof.
  intros Hwf. unfold compact. case_if.
  { exists b. repeat split; try apply Hwf. unfold readable_bytes, writable_bytes. lia. }
  case_if.
  { exists (clear b). pose proof (zlen_contents b Hwf) as Hc. unfold readable_bytes in Hc.
    split; [done|]. split; [by apply clear_wf|]. split.
    - destruct (contents b); [unfold contents, readable_bytes; reflexivity|zlia].
    - unfold writable_bytes, clear; simpl. lia. }
  rewrite readable_span_ok by done. simpl.
  pose proof (zlen_contents b Hwf) as Hc. unfold readable_bytes in Hc.
  destruct (wf_split b Hwf) as (p & s & E & Hp).
  (* the destination is the first [readable] bytes of the storage *)
  set (c := contents b) in *. clearbody c.
  set (st := storage_ b) in *.
  assert (exists old rest, st = old ++ rest /\ zlen old = zlen c) as (old & rest & Est & Hold).
  { exists (take (length c) st), (drop (length c) st). rewrite take_drop. split; [done|].
    unfold zlen. rewrite length_take. rewrite E, !length_app. lia. }
  rewrite Est. pose proof (copy_into_app [] old rest c) as Hcp. simpl in Hcp.
  change (zlen []) with 0 in Hcp. rewrite Hcp by congruence. simpl.
  exists (mk (c ++ rest) 0 (write_offset_ b - read_offset_ b)). rewrite <- Hc.
  split; [done|]. split; [apply (contents_wf [] c rest)|]. split; [apply (contents_of [] c rest)|].
  unfold writable_bytes; simpl. fold st. rewrite Est. destruct Hwf. zlia.
Qed.

Lemma reserve_ok n b : wf b -> zlen (storage_ b) < n ->
  holds (reserve n b) (contents b) (n - readable_bytes b).
Proof.
  intros Hwf Hn. pose proof (zlen_contents b Hwf) as Hc. unfold reserve. case_if; [lia|].
  assert (0 <= n) by zlia.
  case_if.
  - rewrite readable_span_ok by done. simpl. destruct Hwf as [? ?].
    assert (exists rest, zeros n = zeros (zlen (contents b)) ++ rest) as (rest & Ez).
    { exists (zeros (n - zlen (contents b))). unfold zeros. rewrite <- replicate_add. f_equal.
      unfold readable_bytes in *. lia. }
    rewrite Ez. pose proof (copy_into_app [] (zeros (zlen (contents b))) rest (contents b)) as Hcp.
    simpl in Hcp. change (zlen []) with 0 in Hcp. rewrite Hcp by (rewrite zlen_zeros; zlia). simpl.
    exists (mk (contents b ++ rest) 0 (readable_bytes b)). rewrite <- Hc.
    split; [done|]. split; [apply (contents_wf [] _ rest)|]. split; [apply (contents_of [] _ rest)|].
    unfold writable_bytes; simpl. apply (f_equal zlen) in Ez.
    rewrite zlen_app, !zlen_zeros in Ez by zlia. zlia.
  - destruct Hwf as [? ?]. exists (mk (zeros n) 0 (readable_bytes b)).
    assert (readable_bytes b = 0) as E0 by zlia. rewrite E0 in *.
    split; [done|]. split; [|split].
    + unfold wf; simpl. rewrite zlen_zeros by done. lia.
    + destruct (contents b); [reflexivity|zlia].
    + unfold writable_bytes; simpl. rewrite zlen_zeros by done. lia.
Qed.

(** [ensure_writable] makes the room it promises and keeps the contents. *)
Lemma ensure_writable_ok n b : wf b -> 0 <= n -> holds (ensure_writable n b) (contents b) n.
Proof.
  intros Hwf Hn. unfold ensure_writable. case_if.
  { exists b. repeat split; try apply Hwf. lia. }
  pose proof Hwf as [? ?].
  case_if.
  - destruct (compact_ok b Hwf) as (b' & -> & Hwf' & <- & Hroom). simpl.
    case_if; [|lia]. exists b'. repeat split; try apply Hwf'. lia.
  - destruct (reserve_ok (readable_bytes b + n) b Hwf) as (b' & -> & Hwf' & <- & Hroom).
    + unfold readable_bytes, writable_bytes in *. lia.
    + exists b'. repeat split; try apply Hwf'. lia.
Qed.

(** Appending never writes outside the storage, and appends. *)
Lemma append_holds src b : wf b -> holds (append src b) (contents b ++ src) 0.
Proof.
  intros Hwf. unfold append.
  destruct (ensure_writable_ok (zlen src) b Hwf (zlen_nonneg _)) as (b' & -> & Hwf' & <- & Hroom).
  simpl. destruct (wf_split b' Hwf') as (p & s & E & Hp).
  pose proof (zlen_contents b' Hwf') as Hc. unfold readable_bytes, writable_bytes in *.
  assert (exists old rest, s = old ++ rest /\ zlen old = zlen src) as (old & rest & -> & Hold).
  { exists (take (length src) s), (drop (length src) s). rewrite take_drop. split; [done|].
    rewrite E in Hroom. autorewrite with zlen in Hroom. unfold zlen in *. rewrite length_take. lia. }
  set (c := contents b') in *. clearbody c.
  rewrite E. replace (write_offset_ b') with (zlen (p ++ c)) by zlia.
  rewrite (app_assoc p c). rewrite copy_into_app by done. simpl.
  rewrite <- (app_assoc p c), (app_assoc c src). rewrite <- Hp.
  replace (zlen (p ++ c) + zlen src) with (zlen p + zlen (c ++ src)) by zlia.
  eexists. split; [done|]. split; [apply contents_wf|]. split; [apply contents_of|].
  unfold writable_bytes; simpl. zlia.
Qed.

Lemma consume_ok n b : wf b -> 0 <= n -> read_offset_ b + n <= write_offset_ b ->
  write_offset_ b < 18446744073709551616 ->
  wf (consume n b) /\ contents (consume n b) = drop (Z.to_nat n) (contents b).
Proof.
  intros Hwf ? ? ?. unfold wf, consume, contents, readable_bytes, u64 in *. simpl.
  rewrite Z.mod_small by lia. split; [lia|].
  rewrite Z.min_l by lia. rewrite skipn_firstn_comm, drop_drop. f_equal; [lia|].
  f_equal. lia.
Qed.

Lemma with_capacity_wf n : 0 <= n -> wf (with_capacity n) /\ contents (with_capacity n) = [].
Proof.
  intros. unfold wf, contents, with_capacity, readable_bytes; simpl.
  rewrite zlen_zeros by lia. split; [lia|done].
Qed.

Lemma append_read_offset src b b' : append src b = Ok b' -> read_offset_ b = 0 -> read_offset_ b' = 0.
Proof.
  unfold append, ensure_writable. intros H E.
  assert (forall n b2, reserve n b = Ok b2 -> read_offset_ b2 = 0) as Hres.
  { unfold reserve. intros n b2. case_if; [by intros [= ->]|]. case_if; [|by intros [= <-]].
    intros (? & _ & (? & _ & [= <-])%outcome_bind_inv)%outcome_bind_inv. done. }
  rewrite E in H. simpl in H. apply outcome_bind_inv in H as (b2 & H2 & H).
  apply outcome_bind_inv in H as (st & _ & [= <-]). simpl.
  case_if_in H2; [by injection H2 as <-|]. by apply Hres in H2.
Qed.

(** An append-only buffer starts reading at zero. *)
Definition appending (b : t) : Prop := wf b /\ read_offset_ b = 0.

Lemma append_appending src b : appending b ->
  exists b', append src b = Ok b' /\ appending b' /\ contents b' = contents b ++ src.
Proof.
  intros [Hwf E]. destruct (append_holds src b Hwf) as (b' & Hb & Hwf' & Hc & _).
  exists b'. unfold appending. eauto using append_read_offset.
Qed.
End ByteBuffer.

(** * The buffer implements the interface, on hosts of either byte order *)
#[refine, export] Instance ByteBuffer_sink (little : bool) : ByteSink ByteBuffer.t := {|
  sink_new := ByteBuffer.with_capacity;
  sink_append := ByteBuffer.append;
  sink_u8 := ByteBuffer.append_u8 little;
  sink_u16 := ByteBuffer.append_u16 little;
  sink_u32 := ByteBuffer.append_u32 little;
  sink_write_offset := ByteBuffer.write_offset_;
  sink_contents := ByteBuffer.contents;
  sink_ok := ByteBuffer.appending
|}.
Proof.
  - intros c Hc. destruct (ByteBuffer.with_capacity_wf c Hc). repeat split; auto; apply H.
  - intros b [Hwf E]. rewrite ByteBuffer.zlen_contents by done.
    unfold ByteBuffer.readable_bytes. lia.
  - intros. by apply ByteBuffer.append_appending.
  - intros v b Hb. unfold ByteBuffer.append_u8.
    replace (host_bytes little 1 v) with [u8 v] by (by destruct little).
    by apply ByteBuffer.append_appending.
  - intros v b Hb. unfold ByteBuffer.append_u16. rewrite network_bytes16.
    by apply ByteBuffer.append_appending.
  - intros v b Hb. unfold ByteBuffer.append_u32. rewrite network_bytes32.
    by apply ByteBuffer.append_appending.
Defined.
