(* ===== verification/ByteBufferFacts.v ===== *)
(** Reading a byte buffer through its contents: the steps that parsers take. *)
From S2P Require Import Prelude Endian ByteBuffer.
Import ByteBuffer.

(** The buffer is well formed and holds [c]. *)
Definition view (b : t) (c : bytes) : Prop := wf b /\ contents b = c.

(** [n] bytes have been read. *)
Definition advance (n : Z) (b : t) : t := mk (storage_ b) (read_offset_ b + n) (write_offset_ b).

Lemma view_split b c : view b c -> exists p s, b = mk (p ++ c ++ s) (zlen p) (zlen p + zlen c).
Proof. intros [Hwf <-]. by apply split_eq. Qed.
Lemma view_mk p c s : view (mk (p ++ c ++ s) (zlen p) (zlen p + zlen c)) c.
Proof. split; [apply contents_wf|apply contents_of]. Qed.

Lemma view_readable b c : view b c -> readable_bytes b = zlen c.
Proof. intros (p & s & ->)%view_split. unfold readable_bytes. cbn. lia. Qed.
Lemma view_write b c : view b c -> write_offset_ b = read_offset_ b + zlen c.
Proof. intros (p & s & ->)%view_split. done. Qed.
Lemma view_empty b c : view b c -> empty b = bool_decide (c = []).
Proof.
  intros H. unfold empty. rewrite (view_readable b c H). destruct c; [done|]. rewrite zlen_cons.
  pose proof (zlen_nonneg c). case_bool_decide; [done|lia].
Qed.
Lemma view_span b c : view b c -> readable_span b = Ok c.
Proof. intros [Hwf <-]. by apply readable_span_ok. Qed.

Lemma view_new n : 0 <= n -> view (with_capacity n) [].
Proof. intros. split; apply with_capacity_wf; lia. Qed.
Lemma view_default : view default [].
Proof. by apply view_new. Qed.

(** A window of the contents, read from the storage. *)
Lemma view_window b x y z : view b (x ++ y ++ z) -> rd_range (storage_ b) (read_offset_ b + zlen x) (zlen y) = Ok y.
Proof.
  intros (p & s & ->)%view_split. cbn [storage_ read_offset_].
  replace (p ++ (x ++ y ++ z) ++ s) with ((p ++ x) ++ y ++ z ++ s) by by rewrite <- !app_assoc.
  rewrite <- zlen_app. apply rd_range_app.
Qed.
Lemma view_rd b x c z : view b (x ++ c :: z) -> rd (storage_ b) (read_offset_ b + zlen x) = Ok c.
Proof.
  intros (p & s & ->)%view_split. cbn [storage_ read_offset_].
  replace (p ++ (x ++ c :: z) ++ s) with ((p ++ x) ++ c :: z ++ s) by by rewrite <- !app_assoc.
  rewrite <- zlen_app. apply rd_app.
Qed.

Lemma view_advance b x y : view b (x ++ y) -> view (advance (zlen x) b) y.
Proof.
  intros (p & s & ->)%view_split. unfold advance. cbn [storage_ read_offset_ write_offset_].
  replace (p ++ (x ++ y) ++ s) with ((p ++ x) ++ y ++ s) by by rewrite <- !app_assoc.
  replace (zlen p + zlen (x ++ y)) with (zlen (p ++ x) + zlen y) by zlia. rewrite <- zlen_app. apply view_mk.
Qed.
Lemma advance_advance n m b : advance n (advance m b) = advance (m + n) b.
Proof. unfold advance. cbn. by rewrite Z.add_assoc. Qed.
Lemma advance_write n b : write_offset_ (advance n b) = write_offset_ b.
Proof. done. Qed.

(** Reading is undone by setting the offset back. *)
Lemma set_back n b : wf b -> set_read_offset (read_offset_ b) (advance n b) = b.
Proof. intros [Hr _]. unfold set_read_offset, advance. cbn. case_if; [by destruct b|lia]. Qed.
Lemma set_here b : wf b -> set_read_offset (read_offset_ b) b = b.
Proof. intros [Hr _]. unfold set_read_offset. case_if; [by destruct b|lia]. Qed.

Lemma consume_advance b x y : view b (x ++ y) -> write_offset_ b < 18446744073709551616 ->
  consume (zlen x) b = advance (zlen x) b.
Proof.
  intros H Hw. pose proof (view_write _ _ H) as Hwr. destruct (proj1 H). unfold consume, advance, u64.
  rewrite zlen_app in Hwr. pose proof (zlen_nonneg x). pose proof (zlen_nonneg y).
  rewrite Z.mod_small, Z.min_l by lia. done.
Qed.

Lemma read_trivial_view b x y n : view b (x ++ y) -> zlen x = n -> read_trivial n b = Ok (x, advance n b).
Proof.
  intros H <-. unfold read_trivial. rewrite (view_readable _ _ H), zlen_app. pose proof (zlen_nonneg y).
  case_if; [lia|]. pose proof (view_window b [] x y H) as Hw. change (zlen []) with 0 in Hw. rewrite Z.add_0_r in Hw.
  by rewrite Hw.
Qed.

Section Integers.
Variable little : bool.

Lemma read_u8_view b v y : view b (v :: y) -> is_u8 v -> read_u8 little b = Ok (v, advance 1 b) /\ view (advance 1 b) y.
Proof.
  intros H Hv. split; [|exact (view_advance b [v] y H)]. unfold read_u8. rewrite (read_trivial_view b [v] y 1) by done. mstep.
  destruct little; cbn; do 2 f_equal; lia.
Qed.
Lemma read_u16_view b hi lo y : view b (hi :: lo :: y) -> is_u8 hi -> is_u8 lo ->
  read_u16 little b = Ok (hi * 256 + lo, advance 2 b) /\ view (advance 2 b) y.
Proof.
  intros H Hh Hl. split; [|exact (view_advance b [hi; lo] y H)].
  unfold read_u16. rewrite (read_trivial_view b [hi; lo] y 2) by done. mstep.
  assert ([hi; lo] = be16 (hi * 256 + lo)) as ->.
  { unfold be16, u8, is_u8 in *. rewrite shiftr_8. repeat f_equal; Z.to_euclidean_division_equations; lia. }
  rewrite network_value16; [done|]. unfold is_u16, is_u8 in *. lia.
Qed.

Lemma network_value64 v : is_u64 v -> networkToHost64 little (host_value little (be64 v)) = v.
Proof.
  unfold is_u64. intros Hv. rewrite <- (network_bytes64 little).
  destruct little; cbv [host_value host_bytes networkToHost64 ntohll hostToNetwork64 htonll isLittleEndian byteSwap64].
  - rewrite swap_bytes. apply swap_involutive. lia.
  - rewrite rev_involutive. apply le_bytes_value. lia.
Qed.
Lemma read_u64_view b x y : view b (x ++ y) -> length x = 8%nat -> Forall is_u8 x ->
  read_u64 little b = Ok (be_value x, advance 8 b) /\ view (advance 8 b) y.
Proof.
  intros H Hx Hu. assert (zlen x = 8) as Hz by (unfold zlen; lia).
  split; [|rewrite <- Hz; by apply view_advance].
  unfold read_u64. rewrite (read_trivial_view b x y 8) by done. mstep.
  rewrite <- (be64_be_value x) at 1 by done. rewrite network_value64; [done|].
  unfold is_u64. pose proof (be_value_range x Hu) as Hr. rewrite Hx in Hr. lia.
Qed.

(** Appending. *)
Lemma append_view b c x : view b c -> exists b', append x b = Ok b' /\ view b' (c ++ x)
  /\ (read_offset_ b = 0 -> read_offset_ b' = 0).
Proof.
  intros [Hwf <-]. destruct (append_holds x b Hwf) as (b' & E & Hwf' & Hc & _). exists b'. split; [done|].
  split; [done|]. by apply append_read_offset with x.
Qed.
Lemma append_buffer_view b c o x : view b c -> view o x -> exists b', append_buffer o b = Ok b' /\ view b' (c ++ x)
  /\ (read_offset_ b = 0 -> read_offset_ b' = 0).
Proof. intros Hb Ho. unfold append_buffer. rewrite (view_span _ _ Ho). mstep. by apply append_view. Qed.
Lemma append_u8_view b c v : view b c -> is_u8 v -> exists b', append_u8 little v b = Ok b' /\ view b' (c ++ [v]).
Proof.
  intros Hb Hv. destruct (append_view b c [v] Hb) as (b' & E & Hv' & _). exists b'. split; [|done]. rewrite <- E.
  unfold append_u8. f_equal. destruct little; cbn; by rewrite u8_id.
Qed.
Lemma append_u16_view b c v : view b c -> exists b', append_u16 little v b = Ok b' /\ view b' (c ++ be16 v).
Proof.
  intros Hb. destruct (append_view b c (be16 v) Hb) as (b' & E & Hv' & _). exists b'. split; [|done].
  unfold append_u16. by rewrite network_bytes16.
Qed.
Lemma append_u64_view b c v : view b c -> exists b', append_u64 little v b = Ok b' /\ view b' (c ++ be64 v).
Proof.
  intros Hb. destruct (append_view b c (be64 v) Hb) as (b' & E & Hv' & _). exists b'. split; [|done].
  unfold append_u64. by rewrite network_bytes64.
Qed.
End Integers.

Lemma of_span_view x : exists b, of_span x = Ok b /\ view b x.
Proof.
  unfold of_span. destruct (append_view (with_capacity (zlen x)) [] x) as (b & E & Hb & _);
    [apply view_new, zlen_nonneg|]. by exists b.
Qed.
Lemma compact_view b c : view b c -> exists b', compact b = Ok b' /\ view b' c /\ read_offset_ b' = 0.
Proof.
  intros [Hwf <-]. destruct (compact_ok b Hwf) as (b' & E & Hwf' & Hc & _). exists b'. split; [done|]. split; [done|].
  unfold compact in E. case_if_in E; [injection E as <-; lia|]. case_if_in E; [by injection E as <-|].
  apply outcome_bind_inv in E as (src & _ & (st & _ & [= <-])%outcome_bind_inv). done.
Qed.

(** * Writers: sequences of appends to a byte sink, with their specification.

    The encoders of the program build a buffer by a sequence of appends. Such a
    sequence is a [writer]; [emits w x] says that from any state of an append-only
    sink it succeeds and adds exactly the bytes [x]. The hints of the [emits]
    database follow the structure of a writer, so that an encoder's specification
    is found by [eauto]. *)
Section Writer.
Context {B : Type} `{ByteSink B}.

Definition writer : Type := B -> outcome B.

Definition w_skip : writer := Ok.
Definition w_seq (w1 w2 : writer) : writer := fun b => b ← w1 b; w2 b.
(** [if (cond) w] *)
Definition w_if (cond : bool) (w : writer) : writer := if cond then w else w_skip.
(** [if (opt) w(opt.value())] *)
Definition w_opt {A} (o : option A) (w : A -> writer) : writer :=
  match o with Some a => w a | None => w_skip end.
(** [for (const auto &x : l) w(x)] *)
Fixpoint w_for {A} (l : list A) (w : A -> writer) : writer :=
  match l with [] => w_skip | a :: l => w_seq (w a) (w_for l w) end.

(** [ByteBuffer buf(capacity); w] *)
Definition w_run (capacity : Z) (w : writer) : outcome B := w (sink_new capacity).

Definition emits (w : writer) (x : bytes) : Prop :=
  forall b, sink_ok b ->
    exists b', w b = Ok b' /\ sink_ok b' /\ sink_contents b' = sink_contents b ++ x.

(** What a finished encoding is: a buffer that holds [x] and nothing else. *)
Definition encodes (m : outcome B) (x : bytes) : Prop :=
  exists b, m = Ok b /\ sink_ok b /\ sink_contents b = x.

Lemma emits_skip : emits w_skip [].
Proof. intros b Hb. exists b. by rewrite app_nil_r. Qed.

Lemma emits_seq w1 w2 x1 x2 : emits w1 x1 -> emits w2 x2 -> emits (w_seq w1 w2) (x1 ++ x2).
Proof.
  intros H1 H2 b Hb. destruct (H1 b Hb) as (b1 & E1 & Hb1 & C1).
  destruct (H2 b1 Hb1) as (b2 & E2 & Hb2 & C2). exists b2. unfold w_seq. rewrite E1. simpl.
  split; [done|]. split; [done|]. by rewrite C2, C1, app_assoc.
Qed.

Lemma emits_append x : emits (sink_append x) x.
Proof. intros b Hb. by apply sink_append_ok. Qed.
Lemma emits_u8 v : emits (sink_u8 v) [u8 v].
Proof. intros b Hb. by apply sink_u8_ok. Qed.
Lemma emits_u16 v : emits (sink_u16 v) (be16 v).
Proof. intros b Hb. by apply sink_u16_ok. Qed.
Lemma emits_u32 v : emits (sink_u32 v) (be32 v).
Proof. intros b Hb. by apply sink_u32_ok. Qed.

Lemma emits_if (c : bool) w x : emits w x -> emits (w_if c w) (if c then x else []).
Proof. intros. destruct c; [done|apply emits_skip]. Qed.

Lemma emits_opt {A} (o : option A) (w : A -> writer) (x : A -> bytes) :
  (forall a, emits (w a) (x a)) -> emits (w_opt o w) (match o with Some a => x a | None => [] end).
Proof. intros Hw. destruct o; [apply Hw|apply emits_skip]. Qed.

Lemma emits_for {A} (l : list A) (w : A -> writer) (x : A -> bytes) :
  (forall a, emits (w a) (x a)) -> emits (w_for l w) (concat (map x l)).
Proof. intros Hw. induction l; [apply emits_skip|apply emits_seq; auto]. Qed.

Lemma emits_eq w x y : emits w x -> x = y -> emits w y.
Proof. by intros ? <-. Qed.

Lemma encodes_run c w x : 0 <= c -> emits w x -> encodes (w_run c w) x.
Proof.
  intros Hc Hw. destruct (sink_new_ok c Hc) as [Hok Hnil].
  destruct (Hw _ Hok) as (b & E & Hb & C). exists b. unfold w_run. rewrite E.
  split; [done|]. split; [done|]. by rewrite C, Hnil.
Qed.

(** What a finished encoding gives its consumer. *)
Lemma encodes_inv m x : encodes m x ->
  exists b, m = Ok b /\ sink_ok b /\ sink_contents b = x /\ sink_write_offset b = zlen x.
Proof. intros (b & -> & Hb & <-). exists b. auto using sink_write_offset_ok. Qed.

Lemma encodes_bytes m x : encodes m x -> (b ← m; Ok (sink_contents b)) = Ok x.
Proof. by intros (b & -> & _ & <-). Qed.
End Writer.

Arguments writer B : clear implicits.
Declare Scope writer_scope.
Delimit Scope writer_scope with W.
Notation "w1 ;; w2" := (w_seq w1 w2) (at level 100, right associativity) : writer_scope.

Create HintDb emits.
#[export] Hint Resolve emits_skip emits_seq emits_append emits_u8 emits_u16 emits_u32
  emits_if emits_opt emits_for : emits.
