(* ===== verification/Strings.v ===== *)
(** [std::string] operations and topic levels.

    The [find]/[substr] members the program uses on topics, with positions as
    [nat] ([size_t] positions into an object in memory), and the reference
    definitions of splitting and joining; Module [StringUtil] is the string utilities of
    the base library. *)
From S2P Require Import Prelude.

(** [s.find(c, start)]; [None] is [npos]. *)
Fixpoint index_of (c : Z) (s : bytes) : option nat :=
  match s with
  | [] => None
  | x :: s => if x =? c then Some O else S <$> index_of c s
  end.
Definition find (c : Z) (s : bytes) (start : nat) : option nat :=
  (fun i => (start + i)%nat) <$> index_of c (drop start s).

(** [s.find(c) != npos] *)
Definition contains (c : Z) (s : bytes) : bool :=
  match find c s 0 with Some _ => true | None => false end.

(** [s.substr(pos, n)] and [s.substr(pos)] *)
Definition substr (s : bytes) (pos n : nat) : bytes := take n (drop pos s).
Definition substr_from (s : bytes) (pos : nat) : bytes := drop pos s.

(** [s == t] *)
Definition str_eqb (s t : bytes) : bool := bool_decide (s = t).

(** Characters of the topic syntax. *)
Definition chr_slash : Z := 47.
Definition chr_plus : Z := 43.
Definition chr_hash : Z := 35.
Definition chr_dollar : Z := 36.

(** * Reference splitting and joining *)
Fixpoint split_on (c : Z) (s : bytes) : list bytes :=
  match s with
  | [] => [[]]
  | x :: s =>
      if x =? c then [] :: split_on c s
      else match split_on c s with l :: ls => (x :: l) :: ls | [] => [[x]] end
  end.

Fixpoint join_with (c : Z) (ls : list bytes) : bytes :=
  match ls with
  | [] => []
  | [l] => l
  | l :: ls => l ++ c :: join_with c ls
  end.

(** * Lemmas *)
Lemma split_on_ne c s : split_on c s <> [].
Proof. destruct s; simpl; [done|]. case_if; [done|]. by destruct (split_on c s). Qed.

Lemma split_on_index_none c s : index_of c s = None -> split_on c s = [s].
Proof.
  induction s as [|x s IH]; [done|]. simpl. case_if; [done|].
  destruct (index_of c s); [done|]. intros _. by rewrite IH.
Qed.

Lemma split_on_index_some c s i : index_of c s = Some i ->
  split_on c s = take i s :: split_on c (drop (S i) s).
Proof.
  revert i; induction s as [|x s IH]; intros i; simpl; [done|].
  case_if; [by intros [= <-]|].
  destruct (index_of c s) as [j|]; [|done]. intros [= <-]. by rewrite (IH j).
Qed.

Lemma index_of_lt c s i : index_of c s = Some i -> (i < length s)%nat.
Proof.
  revert i; induction s as [|x s IH]; intros i; simpl; [done|].
  case_if; [intros [= <-]; lia|]. destruct (index_of c s); [|done]. intros [= <-].
  specialize (IH _ eq_refl). lia.
Qed.

Lemma index_of_none c s : index_of c s = None <-> c ∉ s.
Proof.
  induction s as [|x s IH]; simpl; [split; [intros _ []%not_elem_of_nil|done]|].
  rewrite elem_of_cons. case_if.
  - split; [done|]. intros []. left. lia.
  - destruct (index_of c s); simpl; [split; [done|]; intros Hn; exfalso|split; [|done]].
    + assert (Some n = None) by (apply IH; intros ?; apply Hn; by right). done.
    + intros _ [->|?]; [lia|]. by apply IH.
Qed.

Lemma contains_spec c s : contains c s = true <-> c ∈ s.
Proof.
  unfold contains, find. rewrite drop_0.
  destruct (index_of c s) eqn:E; simpl; split; try done.
  - intros _. destruct (decide (c ∈ s)) as [|Hn]; [done|]. apply index_of_none in Hn. congruence.
  - intros Hin. apply index_of_none in E. contradiction.
Qed.

(** No level holds the separator. *)
Lemma split_on_free c s : Forall (fun l => c ∉ l) (split_on c s).
Proof.
  induction s as [|x s IH]; simpl; [repeat constructor; apply not_elem_of_nil|].
  case_if; [constructor; [apply not_elem_of_nil|done]|].
  destruct (split_on c s) as [|l ls]; inversion IH; subst.
  - repeat constructor. rewrite elem_of_cons. intros [->|[]%not_elem_of_nil]; lia.
  - constructor; [|done]. rewrite elem_of_cons. intros [->|?]; [lia|done].
Qed.

Lemma join_split c s : join_with c (split_on c s) = s.
Proof.
  induction s as [|x s IH]; [done|]. simpl.
  pose proof (split_on_ne c s) as Hne.
  destruct (split_on c s) as [|l ls] eqn:E; [done|].
  case_if.
  - assert (x = c) as -> by lia. cbn [join_with app]. f_equal. exact IH.
  - destruct ls; cbn [join_with app] in *; by f_equal.
Qed.

Lemma split_on_app_free c l s : c ∉ l -> split_on c (l ++ c :: s) = l :: split_on c s.
Proof.
  induction l as [|x l IH]; simpl.
  - intros _. by rewrite Z.eqb_refl.
  - rewrite elem_of_cons. intros Hn. case_if; [destruct Hn; left; lia|]. rewrite IH by tauto. done.
Qed.

Lemma split_on_free_id c l : c ∉ l -> split_on c l = [l].
Proof. intros. apply split_on_index_none. by apply index_of_none. Qed.

Lemma split_join c ls : ls <> [] -> Forall (fun l => c ∉ l) ls -> split_on c (join_with c ls) = ls.
Proof.
  induction ls as [|l ls IH]; [done|]. intros _ [Hl Hls]%Forall_cons.
  destruct ls as [|l' ls]; [by apply split_on_free_id|].
  change (join_with c (l :: l' :: ls)) with (l ++ c :: join_with c (l' :: ls)).
  rewrite split_on_app_free by done. by rewrite IH.
Qed.

(** Splitting is injective: two topics with the same levels are the same. *)
Lemma split_on_inj c s t : split_on c s = split_on c t -> s = t.
Proof. intros E. rewrite <- (join_split c s), <- (join_split c t). by rewrite E. Qed.

(** Characters of the levels are characters of the string. *)
Lemma split_on_chars c s l x : l ∈ split_on c s -> x ∈ l -> x ∈ s.
Proof.
  revert l; induction s as [|y s IH]; intros l Hl Hx; simpl in Hl.
  - apply list_elem_of_singleton in Hl as ->. by apply not_elem_of_nil in Hx.
  - apply elem_of_cons. case_if_in Hl.
    + apply elem_of_cons in Hl as [->|Hl]; [by apply not_elem_of_nil in Hx|right; eauto].
    + pose proof (split_on_ne c s). destruct (split_on c s) as [|l' ls]; [done|].
      apply elem_of_cons in Hl as [->|Hl]; [|right; apply (IH l); [by apply elem_of_cons; right|done]].
      apply elem_of_cons in Hx as [->|Hx]; [by left|right; apply (IH l'); [by apply elem_of_cons; left|done]].
Qed.

(** * [std::to_string] of an unsigned integer *)
Fixpoint to_string_loop (fuel : nat) (n : Z) (acc : bytes) : bytes :=
  match fuel with
  | O => acc
  | S fuel =>
      let acc := (48 + n mod 10) :: acc in
      if n <? 10 then acc else to_string_loop fuel (n / 10) acc
  end.

(** Twenty digits are enough for 64 bits. *)
Definition to_string (n : Z) : bytes := to_string_loop 20 n [].

Lemma to_string_loop_len fuel n acc : (length (to_string_loop fuel n acc) <= fuel + length acc)%nat.
Proof.
  revert n acc; induction fuel as [|fuel IH]; intros n acc; simpl; [lia|].
  case_if; [simpl; lia|]. specialize (IH (n / 10) ((48 + n mod 10) :: acc)). simpl in IH. lia.
Qed.
Lemma to_string_len n : zlen (to_string n) <= 20.
Proof. unfold zlen, to_string. pose proof (to_string_loop_len 20 n []) as Hl.
  change (length []) with O in Hl. lia. Qed.

(** * String utilities: [core/base/include/base/utils/string_util.h].

    Characters are bytes ([char] compared after conversion to [unsigned char]: the
    ranges the functions test lie below 128). Positions are [nat]. The functions that
    take a pair of C pointers are not modelled, nor [to_hex_string], a stream
    formatting. *)
Module StringUtil.

Definition is_ascii_space (ch : Z) : bool :=
  (ch =? 32) || (ch =? 9) || (ch =? 13) || (ch =? 10) || (ch =? 12) || (ch =? 11).

Definition lower_ascii_char (ch : Z) : Z := if (65 <=? ch) && (ch <=? 90) then ch - 65 + 97 else ch.
Definition upper_ascii_char (ch : Z) : Z := if (97 <=? ch) && (ch <=? 122) then ch - 97 + 65 else ch.

(** [remove_prefix(1)] while the first character is a space, then [remove_suffix(1)]. *)
Fixpoint trim_front (value : bytes) : bytes :=
  match value with
  | ch :: rest => if is_ascii_space ch then trim_front rest else value
  | [] => []
  end.
Fixpoint trim_back (value : bytes) : bytes :=
  match value with
  | [] => []
  | ch :: rest =>
      match trim_back rest with
      | [] => if is_ascii_space ch then [] else [ch]
      | rest => ch :: rest
      end
  end.
Definition trim_ascii (value : bytes) : bytes := trim_back (trim_front value).

Definition lower_ascii (value : bytes) : bytes := map lower_ascii_char value.
Definition upper_ascii (value : bytes) : bytes := map upper_ascii_char value.

Fixpoint iequals_loop (lhs rhs : bytes) : bool :=
  match lhs, rhs with
  | l :: lhs, r :: rhs =>
      if lower_ascii_char l =? lower_ascii_char r then iequals_loop lhs rhs else false
  | _, _ => true
  end.
Definition iequals_ascii (lhs rhs : bytes) : bool :=
  if zlen lhs =? zlen rhs then iequals_loop lhs rhs else false.

Definition starts_with (value prefix : bytes) : bool :=
  (zlen prefix <=? zlen value) && str_eqb (substr value 0 (length prefix)) prefix.
Definition ends_with (value suffix : bytes) : bool :=
  (zlen suffix <=? zlen value) && str_eqb (substr_from value (length value - length suffix)) suffix.
Definition starts_with_ascii_ci (value prefix : bytes) : bool :=
  (zlen prefix <=? zlen value) && iequals_ascii (substr value 0 (length prefix)) prefix.
Definition ends_with_ascii_ci (value suffix : bytes) : bool :=
  (zlen suffix <=? zlen value) && iequals_ascii (substr_from value (length value - length suffix)) suffix.

(** [for (i = 0; i + needle.size() <= haystack.size(); ++i)]; [n] rounds are left. *)
Fixpoint contains_loop (n i : nat) (haystack needle : bytes) : bool :=
  match n with
  | O => false
  | S n =>
      if iequals_ascii (substr haystack i (length needle)) needle then true
      else contains_loop n (S i) haystack needle
  end.
Definition contains_ascii_ci (haystack needle : bytes) : bool :=
  match needle with
  | [] => true
  | _ :: _ =>
      if zlen haystack <? zlen needle then false
      else contains_loop (S (length haystack - length needle)) 0 haystack needle
  end.

(** The loop of [split_view] from [start]; a string has fewer parts than fuel. *)
Fixpoint split_view_loop (fuel : nat) (value : bytes) (delimiter : Z) (keep_empty : bool) (start : nat)
  : list bytes :=
  match fuel with
  | O => []
  | S fuel =>
      if (start <=? length value)%nat then
        let pos := find delimiter value start in
        let stop := match pos with None => length value | Some pos => pos end in
        let part := substr value start (stop - start) in
        let more := match pos with
                    | None => []
                    | Some pos => split_view_loop fuel value delimiter keep_empty (pos + 1)
                    end in
        if keep_empty || negb (bool_decide (part = [])) then part :: more else more
      else []
  end.
Definition split_view (value : bytes) (delimiter : Z) (keep_empty : bool) : list bytes :=
  split_view_loop (S (length value)) value delimiter keep_empty 0.
Definition split (value : bytes) (delimiter : Z) (keep_empty : bool) : list bytes :=
  split_view value delimiter keep_empty.

Fixpoint join_loop (parts : list bytes) (delimiter out : bytes) (first : bool) : bytes :=
  match parts with
  | [] => out
  | part :: parts => join_loop parts delimiter ((if first then out else out ++ delimiter) ++ part) false
  end.
Definition join (parts : list bytes) (delimiter : bytes) : bytes := join_loop parts delimiter [] true.

(** [kHex[n]] *)
Definition kHex (n : Z) : Z := if n <? 10 then 48 + n else 97 + (n - 10).
Fixpoint to_hex (data : bytes) : bytes :=
  match data with
  | [] => []
  | byte :: data => kHex (Z.land (Z.shiftr byte 4) 15) :: kHex (Z.land byte 15) :: to_hex data
  end.

Definition from_hex_digit (ch : Z) : Z :=
  if (48 <=? ch) && (ch <=? 57) then ch - 48
  else if (97 <=? ch) && (ch <=? 102) then 10 + (ch - 97)
  else if (65 <=? ch) && (ch <=? 70) then 10 + (ch - 65)
  else -1.
Fixpoint from_hex (hex : bytes) : bytes :=
  match hex with
  | h :: l :: hex =>
      let hi := from_hex_digit h in
      let lo := from_hex_digit l in
      if (hi <? 0) || (lo <? 0) then from_hex hex
      else u8 (Z.lor (Z.shiftl hi 4) lo) :: from_hex hex
  | _ => []
  end.

(** * Lemmas *)
Lemma from_hex_digit_kHex n : 0 <= n < 16 -> from_hex_digit (kHex n) = n.
Proof. intros Hn. unfold kHex. destruct (n <? 10) eqn:E; unfold from_hex_digit; repeat case_if; lia. Qed.

Lemma from_to_hex data : Forall is_u8 data -> from_hex (to_hex data) = data.
Proof.
  induction 1 as [|b data Hb _ IH]; [done|]. cbn [to_hex from_hex].
  change 15 with (Z.ones 4). rewrite !Z.land_ones by lia. rewrite shiftr_div by lia.
  change (2 ^ 4) with 16. unfold is_u8 in Hb.
  rewrite !from_hex_digit_kHex by (Z.to_euclidean_division_equations; lia).
  case_if; [Z.to_euclidean_division_equations; lia|]. rewrite IH. f_equal.
  rewrite lor_shiftl_add by (change (2 ^ 4) with 16; Z.to_euclidean_division_equations; lia).
  unfold u8. change (2 ^ 4) with 16. Z.to_euclidean_division_equations; lia.
Qed.

Lemma from_hex_u8 hex : Forall is_u8 (from_hex hex).
Proof.
  assert (Hn : forall n hex, (length hex <= n)%nat -> Forall is_u8 (from_hex hex)); [|by eapply Hn].
  induction n as [|n IH]; intros [|h [|l h']]; simpl; intros; try constructor; try lia.
  case_if; [apply IH; lia|]. constructor; [apply u8_range|apply IH; lia].
Qed.

Lemma split_view_spec fuel value c keep start :
  (S (length value) - start <= fuel)%nat -> (start <= length value)%nat ->
  split_view_loop fuel value c keep start
  = List.filter (fun part => keep || negb (bool_decide (part = []))) (split_on c (drop start value)).
Proof.
  revert start; induction fuel as [|fuel IH]; intros start Hf Hs; [lia|]. cbn [split_view_loop].
  destruct (Nat.leb_spec start (length value)); [|lia].
  unfold find. destruct (index_of c (drop start value)) as [i|] eqn:E;
    cbn [fmap option_fmap option_map].
  - pose proof (index_of_lt _ _ _ E) as Hi. rewrite length_drop in Hi.
    rewrite (split_on_index_some _ _ _ E), drop_drop. unfold substr.
    rewrite IH by lia. replace (start + i - start)%nat with i by lia.
    replace (start + i + 1)%nat with (start + S i)%nat by lia. cbn [List.filter]. by case_if.
  - rewrite (split_on_index_none _ _ E). unfold substr.
    rewrite take_ge by (rewrite length_drop; lia). cbn [List.filter]. by case_if.
Qed.

Lemma split_view_eq value c keep :
  split_view value c keep
  = List.filter (fun part => keep || negb (bool_decide (part = []))) (split_on c value).
Proof. unfold split_view. rewrite split_view_spec by lia. by rewrite drop_0. Qed.

Lemma split_keep value c : split value c true = split_on c value.
Proof.
  unfold split. rewrite split_view_eq. cbn [orb].
  induction (split_on c value) as [|p l IH]; simpl; by f_equal.
Qed.

Lemma join_loop_spec parts c out :
  join_loop parts [c] out false = out ++ match parts with [] => [] | _ => c :: join_with c parts end.
Proof.
  revert out; induction parts as [|p parts IH]; intros out; [by rewrite app_nil_r|].
  cbn [join_loop]. rewrite IH, <- !app_assoc. cbn [app].
  destruct parts; [by rewrite app_nil_r|done].
Qed.

Lemma join_eq parts c : join parts [c] = join_with c parts.
Proof.
  destruct parts as [|p parts]; [done|]. unfold join. cbn [join_loop app]. rewrite join_loop_spec.
  destruct parts; [by rewrite app_nil_r|done].
Qed.

Lemma iequals_spec lhs rhs : iequals_ascii lhs rhs = true <-> lower_ascii lhs = lower_ascii rhs.
Proof.
  unfold iequals_ascii, zlen. revert rhs; induction lhs as [|l lhs IH]; intros [|r rhs]; [done..|].
  specialize (IH rhs). revert IH. cbn [iequals_loop length lower_ascii map].
  destruct (Z.eqb_spec (lower_ascii_char l) (lower_ascii_char r)) as [->|Hne].
  - intros IH. replace (Z.of_nat (S (length lhs)) =? Z.of_nat (S (length rhs)))
        with (Z.of_nat (length lhs) =? Z.of_nat (length rhs)) by lia. cbn [andb].
      rewrite IH. unfold lower_ascii. split; [by intros ->|by intros [=]].
  - intros _. split; [by case_if|]. by intros [= ?].
Qed.

(** The scan finds the needle iff it occurs, whatever the case of its letters. *)
Lemma contains_loop_spec n i haystack needle :
  contains_loop n i haystack needle = true
  <-> exists j, (i <= j < i + n)%nat /\ iequals_ascii (substr haystack j (length needle)) needle = true.
Proof.
  revert i; induction n as [|n IH]; intros i; cbn [contains_loop]; [split; [done|]; intros (?&?&?); lia|].
  destruct (iequals_ascii (substr haystack i (length needle)) needle) eqn:E.
  - split; [|done]. intros _. exists i. split; [lia|done].
  - rewrite IH. split; intros (j & Hj & Hm); exists j; (split; [|done]); [lia|].
    assert (i <> j) by congruence. lia.
Qed.

Lemma contains_ascii_ci_spec haystack needle :
  contains_ascii_ci haystack needle = true
  <-> exists pre mid post, haystack = pre ++ mid ++ post /\ lower_ascii mid = lower_ascii needle.
Proof.
  split.
  - destruct needle as [|c needle]; [by exists [], [], haystack|]. unfold contains_ascii_ci. case_if; [done|].
    intros (j & Hj & Hm)%contains_loop_spec. unfold zlen in *. apply iequals_spec in Hm.
    exists (take j haystack), (substr haystack j (length (c :: needle))), (drop (j + length (c :: needle)) haystack).
    split; [|done]. unfold substr. by rewrite <- drop_drop, !take_drop.
  - intros (pre & mid & post & -> & Hm). destruct needle as [|c needle]; [done|].
    assert (Hl : length mid = length (c :: needle)).
    { unfold lower_ascii in Hm. apply (f_equal length) in Hm. by rewrite !length_map in Hm. }
    unfold contains_ascii_ci. case_if; [unfold zlen in *; rewrite !length_app in *; lia|].
    apply contains_loop_spec. exists (length pre). split; [rewrite !length_app; lia|].
    apply iequals_spec. unfold substr. by rewrite drop_app_length, <- Hl, take_app_length.
Qed.

End StringUtil.
