(* ===== verification/Utf8.v ===== *)
(** UTF-8 and Base64. Module [Utf8] is validation ([core/base/src/base/utils/utf.cpp]), and
    that it accepts exactly the encodings of Unicode scalar values; Module [Base64] is
    [base64.cpp], with its round trip. *)
From S2P Require Import Prelude Strings.

Module Utf8.

(** The [for] loop over the continuation bytes; [None] is its [return false]. *)
Fixpoint continuation_loop (n : nat) (data : bytes) (p codepoint : Z) : outcome (option Z) :=
  match n with
  | O => Ok (Some codepoint)
  | S n =>
      continuation ← rd data p;
      if negb (Z.land continuation 192 =? 128) then Ok None
      else continuation_loop n data (p + 1) (Z.lor (u32 (Z.shiftl codepoint 6)) (Z.land continuation 63))
  end.

(** The leading byte of a sequence: payload bits, continuation bytes, least code point. *)
Definition leading (byte : Z) : option (Z * Z * Z) :=
  if Z.land byte 224 =? 192 then Some (Z.land byte 31, 1, 128)
  else if Z.land byte 240 =? 224 then Some (Z.land byte 15, 2, 2048)
  else if Z.land byte 248 =? 240 then Some (Z.land byte 7, 3, 65536)
  else None.

Definition codepoint_ok (codepoint min_codepoint : Z) : bool :=
  negb ((codepoint <? min_codepoint) || (1114111 <? codepoint) || ((55296 <=? codepoint) && (codepoint <=? 57343))).

(** One round of the [while] loop: the next index, or [None] for [return false]. *)
Definition utf8_step (data : bytes) (i : Z) : outcome (option Z) :=
  byte ← rd data i;
  if byte <=? 127 then Ok (Some (i + 1))
  else
    match leading byte with
    | None => Ok None
    | Some (codepoint, needed, min_codepoint) =>
        if zlen data <=? i + needed then Ok None
        else
          r ← continuation_loop (Z.to_nat needed) data (i + 1) codepoint;
          match r with
          | None => Ok None
          | Some codepoint => Ok (if codepoint_ok codepoint min_codepoint then Some (i + needed + 1) else None)
          end
    end.

Fixpoint utf8_loop (fuel : nat) (data : bytes) (i : Z) : outcome bool :=
  match fuel with
  | O => Diverge
  | S fuel =>
      if i <? zlen data then
        r ← utf8_step data i;
        match r with Some i => utf8_loop fuel data i | None => Ok false end
      else Ok true
  end.

Definition is_valid_utf8 (data : bytes) : outcome bool := utf8_loop (S (length data)) data 0.

(** * The reference *)
(** Unicode scalar values and their encodings. *)
Definition scalar (cp : Z) : Prop := 0 <= cp <= 1114111 /\ ~ 55296 <= cp <= 57343.

Definition trailing (v : Z) : Z := 128 + v mod 64.
Definition encode (cp : Z) : bytes :=
  if cp <? 128 then [cp]
  else if cp <? 2048 then [192 + cp / 64; trailing cp]
  else if cp <? 65536 then [224 + cp / 4096; trailing (cp / 64); trailing cp]
  else [240 + cp / 262144; trailing (cp / 4096); trailing (cp / 64); trailing cp].

Definition utf8_of (cps : list Z) (data : bytes) : Prop := Forall scalar cps /\ data = concat (map encode cps).

(** * Bytes *)
(** A boolean property of bytes holds when it holds of the 256 of them. *)
Lemma u8_forall (P : Z -> bool) :
  forallb P (map Z.of_nat (seq 0 256)) = true -> forall b, is_u8 b -> P b = true.
Proof.
  rewrite forallb_forall. intros H b Hb. unfold is_u8 in Hb. apply H. rewrite in_map_iff. exists (Z.to_nat b).
  rewrite in_seq. lia.
Qed.

Lemma leading_spec b : is_u8 b -> 128 <= b ->
  leading b = if (192 <=? b) && (b <? 224) then Some (b - 192, 1, 128)
              else if (224 <=? b) && (b <? 240) then Some (b - 224, 2, 2048)
              else if (240 <=? b) && (b <? 248) then Some (b - 240, 3, 65536) else None.
Proof.
  intros Hb H. pose proof (u8_forall (fun b => (b <? 128) || bool_decide (leading b =
              if (192 <=? b) && (b <? 224) then Some (b - 192, 1, 128)
              else if (224 <=? b) && (b <? 240) then Some (b - 224, 2, 2048)
              else if (240 <=? b) && (b <? 248) then Some (b - 240, 3, 65536) else None)) ltac:(by vm_compute) b Hb) as Hc.
  cbn beta in Hc. apply orb_true_iff in Hc as [|Hc]; [lia|]. by apply bool_decide_eq_true in Hc.
Qed.

Lemma continuation_spec b : is_u8 b -> (Z.land b 192 =? 128) = (128 <=? b) && (b <? 192).
Proof.
  intros Hb. pose proof (u8_forall (fun b => eqb (Z.land b 192 =? 128) ((128 <=? b) && (b <? 192)))
    ltac:(by vm_compute) b Hb) as Hc. by apply eqb_prop.
Qed.

Lemma land_63 b : Z.land b 63 = b mod 64.
Proof. change 63 with (Z.ones 6). by rewrite Z.land_ones. Qed.

Lemma accumulate cp b : 0 <= cp < 67108864 -> Z.lor (u32 (Z.shiftl cp 6)) (Z.land b 63) = cp * 64 + b mod 64.
Proof.
  intros. rewrite land_63. assert (u32 (Z.shiftl cp 6) = Z.shiftl cp 6) as ->.
  { rewrite Z.shiftl_mul_pow2 by lia. apply Z.mod_small. lia. }
  rewrite lor_shiftl_add; [done|lia|]. change (2 ^ 6) with 64. pose proof (Z.mod_pos_bound b 64). lia.
Qed.

(** * Steps *)
Lemma rd_next pre x l : rd (pre ++ x :: l) (zlen pre) = Ok x.
Proof. apply rd_app. Qed.

(** Reading [n] continuation bytes after [pre]. *)
Lemma continuation_loop_app n pre l cp : Forall is_u8 l -> length l = n -> forall rest, 0 <= cp -> (cp + 1) * 64 ^ Z.of_nat n <= 67108864 ->
  continuation_loop n (pre ++ l ++ rest) (zlen pre) cp
  = Ok (if forallb (fun b => (128 <=? b) && (b <? 192)) l
        then Some (fold_left (fun cp b => cp * 64 + b mod 64) l cp) else None).
Proof.
  intros Hl. revert n pre cp. induction Hl as [|b l Hb Hl IH]; intros n pre cp <- rest Hcp Hlt; [done|].
  cbn [length continuation_loop app]. rewrite rd_app. mstep. rewrite continuation_spec by done. cbn [forallb].
  destruct ((128 <=? b) && (b <? 192)) eqn:E; cbn [negb andb]; [|done].
  assert (0 <= cp < 67108864) by (pose proof (Z.pow_pos_nonneg 64 (Z.of_nat (length (b :: l))) ltac:(lia) ltac:(lia)); nia).
  rewrite accumulate by done. replace (zlen pre + 1) with (zlen (pre ++ [b])) by zlia.
  replace (pre ++ b :: l ++ rest) with ((pre ++ [b]) ++ l ++ rest) by by rewrite <- app_assoc.
  pose proof (Z.mod_pos_bound b 64).
  apply IH; [done|lia|]. rewrite length_cons, Nat2Z.inj_succ, Z.pow_succ_r in Hlt by lia.
  pose proof (Z.pow_pos_nonneg 64 (Z.of_nat (length l)) ltac:(lia) ltac:(lia)). nia.
Qed.

Lemma encode_ne cp : encode cp <> [].
Proof. unfold encode. by repeat case_if. Qed.

(** Codes of two to four bytes, from their payload bits. *)
Lemma encode_two a c : 128 <= a * 64 + c < 2048 -> 0 <= c < 64 -> encode (a * 64 + c) = [192 + a; 128 + c].
Proof.
  intros. unfold encode, trailing. case_if; [lia|]. case_if; [|lia].
  repeat f_equal; Z.to_euclidean_division_equations; lia.
Qed.
Lemma encode_three a c d : 2048 <= (a * 64 + c) * 64 + d < 65536 -> 0 <= c < 64 -> 0 <= d < 64 ->
  encode ((a * 64 + c) * 64 + d) = [224 + a; 128 + c; 128 + d].
Proof.
  intros. unfold encode, trailing. case_if; [lia|]. case_if; [lia|]. case_if; [|lia].
  repeat f_equal; Z.to_euclidean_division_equations; lia.
Qed.
Lemma encode_four a c d e : 65536 <= ((a * 64 + c) * 64 + d) * 64 + e -> 0 <= c < 64 -> 0 <= d < 64 -> 0 <= e < 64 ->
  encode (((a * 64 + c) * 64 + d) * 64 + e) = [240 + a; 128 + c; 128 + d; 128 + e].
Proof.
  intros. unfold encode, trailing. case_if; [lia|]. case_if; [lia|]. case_if; [lia|].
  repeat f_equal; Z.to_euclidean_division_equations; lia.
Qed.

Lemma mod_64 c : (128 <=? c) && (c <? 192) = true -> c mod 64 = c - 128 /\ 0 <= c - 128 < 64.
Proof. intros. split; [|lia]. symmetry. apply (Z.mod_unique _ _ 2); lia. Qed.

(** What [leading] and the continuation bytes of a sequence say together. *)
Lemma sequence_encode b l a n m cp : is_u8 b -> 128 <= b -> leading b = Some (a, Z.of_nat n, m) -> length l = n ->
  forallb (fun b => (128 <=? b) && (b <? 192)) l = true -> fold_left (fun cp b => cp * 64 + b mod 64) l a = cp ->
  codepoint_ok cp m = true -> scalar cp /\ encode cp = b :: l.
Proof.
  intros Hb H128 Hl Hn Hall Hcp Hok. rewrite leading_spec in Hl by done. unfold codepoint_ok in Hok. unfold scalar.
  assert (Hs : (0 <= cp <= 1114111 /\ ~ 55296 <= cp <= 57343) <-> 0 <= cp) by lia. rewrite Hs. clear Hs.
  repeat (case_if_in Hl; [injection Hl as <- Hn' <-|]); [..|done].
  all: destruct l as [|c [|d [|e [|]]]]; cbn [length] in Hn; try lia; cbn [forallb] in Hall; cbn [fold_left] in Hcp;
    rewrite ?andb_true_r in Hall.
  - apply mod_64 in Hall as [E1 ?]. rewrite E1 in Hcp. subst cp. split; [lia|]. rewrite encode_two by lia.
    repeat f_equal; lia.
  - apply andb_true_iff in Hall as [[E1 ?]%mod_64 [E2 ?]%mod_64]. rewrite E1, E2 in Hcp. subst cp.
    split; [lia|]. rewrite encode_three by lia. repeat f_equal; lia.
  - apply andb_true_iff in Hall as [[E1 ?]%mod_64 [[E2 ?]%mod_64 [E3 ?]%mod_64]%andb_true_iff].
    rewrite E1, E2, E3 in Hcp. subst cp. split; [lia|]. rewrite encode_four by lia. repeat f_equal; lia.
Qed.

(** One round, on the bytes from the index on. *)
Lemma utf8_step_inv pre b l : Forall is_u8 (b :: l) ->
  exists r, utf8_step (pre ++ b :: l) (zlen pre) = Ok r
  /\ match r with
     | Some j => exists cp rest, scalar cp /\ b :: l = encode cp ++ rest /\ j = zlen pre + zlen (encode cp)
     | None => True
     end.
Proof.
  intros [Hb Hl]%Forall_cons. unfold utf8_step. rewrite rd_app. mstep. destruct (Z.leb_spec b 127).
  { eexists. split; [done|]. exists b, l. unfold is_u8 in Hb. unfold scalar, encode. case_if; [|lia].
    split; [lia|done]. }
  destruct (leading b) as [[[a n] m]|] eqn:E; [|by eexists].
  case_if; [by eexists|]. pose proof E as E'. rewrite leading_spec in E' by (done || lia).
  assert (exists k, n = Z.of_nat k /\ (k <= 3)%nat /\ 0 <= a /\ (a + 1) * 64 ^ Z.of_nat k <= 67108864) as (k & -> & Hk & Ha & Hm).
  { repeat (case_if_in E'; [injection E' as <- <- <-|]); [exists 1%nat|exists 2%nat|exists 3%nat|done];
      split_and!; try done; try lia. }
  assert (exists conts rest, l = conts ++ rest /\ length conts = k) as (conts & rest & -> & Hlen).
  { exists (take k l), (drop k l). rewrite take_drop. split; [done|]. rewrite length_take. autorewrite with zlen in *.
    unfold zlen in *. lia. }
  apply Forall_app in Hl as [Hc _]. rewrite Nat2Z.id.
  replace (zlen pre + 1) with (zlen (pre ++ [b])) by zlia.
  replace (pre ++ b :: conts ++ rest) with ((pre ++ [b]) ++ conts ++ rest) by by rewrite <- app_assoc.
  rewrite continuation_loop_app by done. mstep. destruct (forallb _ conts) eqn:Hall; [|by eexists].
  eexists. split; [done|]. destruct (codepoint_ok _ m) eqn:Hok; [|done].
  destruct (sequence_encode b conts a k m _ Hb ltac:(lia) E Hlen Hall eq_refl Hok) as [Hs He].
  eexists _, rest. split; [exact Hs|]. rewrite He. split; [done|]. rewrite zlen_cons. unfold zlen. lia.
Qed.

Lemma trailing_ok v : (128 <=? trailing v) && (trailing v <? 192) = true.
Proof. unfold trailing. pose proof (Z.mod_pos_bound v 64). lia. Qed.
Lemma trailing_mod v : trailing v mod 64 = v mod 64.
Proof. unfold trailing. Z.to_euclidean_division_equations; lia. Qed.
Lemma trailing_u8 v : is_u8 (trailing v).
Proof. unfold trailing, is_u8. pose proof (Z.mod_pos_bound v 64). lia. Qed.

Lemma encode_u8 cp : scalar cp -> Forall is_u8 (encode cp).
Proof.
  unfold scalar, encode. intros [H _]. repeat case_if; repeat constructor; try apply trailing_u8; unfold is_u8;
    Z.to_euclidean_division_equations; lia.
Qed.

(** The codes are leading byte, bits and continuation bytes. *)
Lemma encode_sequence cp : scalar cp -> 128 <= cp ->
  exists b l a m, encode cp = b :: l /\ 128 <= b /\ leading b = Some (a, zlen l, m)
  /\ forallb (fun b => (128 <=? b) && (b <? 192)) l = true /\ fold_left (fun cp b => cp * 64 + b mod 64) l a = cp
  /\ codepoint_ok cp m = true /\ 0 <= a /\ (a + 1) * 64 ^ zlen l <= 67108864.
Proof.
  intros Hs H. pose proof (encode_u8 cp Hs) as Hu. unfold scalar in Hs. unfold encode in *. case_if; [lia|].
  repeat case_if; apply Forall_cons in Hu as [Hb _].
  - exists (192 + cp / 64), [trailing cp], (cp / 64), 128. split; [done|].
    rewrite leading_spec by (done || (Z.to_euclidean_division_equations; lia)).
    unfold is_u8 in Hb. cbn [forallb fold_left]. rewrite trailing_ok, trailing_mod. unfold codepoint_ok.
    assert (0 <= cp / 64 < 32) by (Z.to_euclidean_division_equations; lia).
    case_if; [|lia]. split; [lia|]. split; [by rewrite Z.add_simpl_l|]. split; [done|].
    split; [Z.to_euclidean_division_equations; lia|]. split; [lia|]. split; [lia|]. change (64 ^ zlen _) with 64. lia.
  - exists (224 + cp / 4096), [trailing (cp / 64); trailing cp], (cp / 4096), 2048. split; [done|].
    assert (0 <= cp / 4096 < 16) by (Z.to_euclidean_division_equations; lia).
    rewrite leading_spec by (done || lia).
    unfold is_u8 in Hb. cbn [forallb fold_left]. rewrite !trailing_ok, !trailing_mod. unfold codepoint_ok.
    case_if; [lia|]. case_if; [|lia]. split; [lia|]. split; [by rewrite Z.add_simpl_l|]. split; [done|].
    split; [Z.to_euclidean_division_equations; lia|]. split; [lia|]. split; [lia|]. change (64 ^ zlen _) with 4096. lia.
  - exists (240 + cp / 262144), [trailing (cp / 4096); trailing (cp / 64); trailing cp], (cp / 262144), 65536.
    split; [done|].
    assert (0 <= cp / 262144 < 5) by (Z.to_euclidean_division_equations; lia).
    rewrite leading_spec by (done || lia).
    unfold is_u8 in Hb. cbn [forallb fold_left]. rewrite !trailing_ok, !trailing_mod. unfold codepoint_ok.
    case_if; [lia|]. case_if; [lia|]. case_if; [|lia]. split; [lia|]. split; [by rewrite Z.add_simpl_l|]. split; [done|].
    split; [Z.to_euclidean_division_equations; lia|]. split; [lia|]. split; [lia|]. change (64 ^ zlen _) with 262144. lia.
Qed.

Lemma utf8_step_encode pre cp rest : scalar cp ->
  utf8_step (pre ++ encode cp ++ rest) (zlen pre) = Ok (Some (zlen pre + zlen (encode cp))).
Proof.
  intros Hs. destruct (Z.lt_ge_cases cp 128) as [Hlt|Hge].
  { assert (encode cp = [cp]) as -> by (unfold encode; case_if; [done|lia]). unfold utf8_step. cbn [app].
    rewrite rd_app. mstep. case_if; [done|lia]. }
  destruct (encode_sequence cp Hs Hge) as (b & l & a & m & He & Hb & Hl & Hall & Hf & Hok & Ha & Hm).
  pose proof (encode_u8 cp Hs) as Hu. rewrite He in *. apply Forall_cons in Hu as [_ Hu].
  unfold utf8_step. cbn [app]. rewrite rd_app. mstep. case_if; [lia|]. rewrite Hl. case_if; [zlia|].
  replace (Z.to_nat (zlen l)) with (length l) by (unfold zlen; lia).
  replace (zlen pre + 1) with (zlen (pre ++ [b])) by zlia.
  replace (pre ++ b :: l ++ rest) with ((pre ++ [b]) ++ l ++ rest) by by rewrite <- app_assoc.
  rewrite continuation_loop_app by done. mstep. rewrite Hall, Hf, Hok. do 2 f_equal. zlia.
Qed.

(** * The whole string *)
Lemma utf8_loop_total fuel pre l : Forall is_u8 l -> (length l < fuel)%nat ->
  exists b, utf8_loop fuel (pre ++ l) (zlen pre) = Ok b /\ (b = true -> exists cps, utf8_of cps l).
Proof.
  revert pre l. induction fuel as [|fuel IH]; [lia|]. intros pre l Hl Hlen. cbn [utf8_loop]. case_if.
  - destruct l as [|b l]; [zlia|]. destruct (utf8_step_inv pre b l Hl) as (r & -> & Hr). mstep.
    destruct r as [j|]; [|by eexists]. destruct Hr as (cp & rest & Hs & E & ->). rewrite E in *.
    rewrite app_assoc, <- zlen_app. apply Forall_app in Hl as [_ Hl].
    pose proof (encode_ne cp). destruct (encode cp) as [|c e] eqn:Ee; [done|].
    destruct (IH (pre ++ c :: e) rest Hl) as (ok & -> & Hok). { rewrite length_app in Hlen. cbn [length] in Hlen. lia. }
    exists ok. split; [done|]. intros Ht. destruct (Hok Ht) as (cps & Hc & ->). exists (cp :: cps).
    split; [by constructor|]. cbn. by rewrite Ee.
  - exists true. split; [done|]. intros _. exists []. split; [constructor|]. destruct l; [done|zlia].
Qed.

Lemma utf8_loop_encode fuel pre cps : Forall scalar cps -> (length (concat (map encode cps)) < fuel)%nat ->
  utf8_loop fuel (pre ++ concat (map encode cps)) (zlen pre) = Ok true.
Proof.
  intros Hc. revert fuel pre. induction Hc as [|cp cps Hs Hc IH]; intros [|fuel] pre Hlen; try lia; cbn [utf8_loop].
  - case_if; [cbn in Hif; zlia|done].
  - cbn [map concat] in *. pose proof (encode_ne cp). assert (0 < zlen (encode cp)) by (destruct (encode cp); [done|zlia]).
    case_if; [|zlia]. rewrite utf8_step_encode by done. mstep. rewrite app_assoc, <- zlen_app.
    apply IH. rewrite length_app in Hlen. unfold zlen in *. lia.
Qed.

Lemma is_valid_utf8_total data : Forall is_u8 data -> exists b, is_valid_utf8 data = Ok b.
Proof. intros H. destruct (utf8_loop_total (S (length data)) [] data H) as (b & E & _); [lia|by exists b]. Qed.

Lemma is_valid_utf8_spec data : Forall is_u8 data -> is_valid_utf8 data = Ok true <-> exists cps, utf8_of cps data.
Proof.
  intros H. split.
  - intros E. destruct (utf8_loop_total (S (length data)) [] data H) as (b & E' & Hb); [lia|].
    apply Hb. unfold is_valid_utf8 in E. cbn [app] in E'. change (zlen []) with 0 in E'. congruence.
  - intros (cps & Hc & ->). apply (utf8_loop_encode _ [] cps Hc). lia.
Qed.
End Utf8.

(** * Base64: [core/base/src/base/utils/base64.cpp], and that decoding undoes encoding,
    also when characters outside the alphabet are put between. *)
Module Base64.

Definition base64_chars : bytes := str "ABCDEFGHIJKLMNOPQRSTUVWXYZabcdefghijklmnopqrstuvwxyz0123456789+/".
(** ['='] *)
Definition pad : Z := 61.

(** [base64_chars[i]]; the indices are below 64. *)
Definition char_at (i : Z) : Z := default 0 (base64_chars !! Z.to_nat i).

(** The four indices of three bytes. *)
Definition sextets (a b c : Z) : Z * Z * Z * Z :=
  (Z.shiftr (Z.land a 252) 2,
   Z.shiftl (Z.land a 3) 4 + Z.shiftr (Z.land b 240) 4,
   Z.shiftl (Z.land b 15) 2 + Z.shiftr (Z.land c 192) 6,
   Z.land c 63).

(** The loop over the data, with the bytes of [char_array_3] that are set. *)
Fixpoint encode_loop (data pending : bytes) : bytes :=
  match data with
  | [] =>
      match pending with
      | [a] => let '(s0, s1, _, _) := sextets a 0 0 in [char_at s0; char_at s1; pad; pad]
      | [a; b] => let '(s0, s1, s2, _) := sextets a b 0 in [char_at s0; char_at s1; char_at s2; pad]
      | _ => []
      end
  | byte :: data =>
      match pending with
      | [a; b] =>
          let '(s0, s1, s2, s3) := sextets a b byte in
          char_at s0 :: char_at s1 :: char_at s2 :: char_at s3 :: encode_loop data []
      | _ => encode_loop data (pending ++ [byte])
      end
  end.
Definition base64_encode (data : bytes) : bytes := encode_loop data [].

(** [base64_chars.find(byte)] *)
Definition find_char (byte : Z) : option Z := Z.of_nat <$> index_of byte base64_chars.

(** The bytes of a full [char_array_4]. *)
Definition group_bytes (p0 p1 p2 p3 padding : Z) : bytes :=
  u8 (Z.shiftl p0 2 + Z.shiftr (Z.land p1 48) 4)
  :: (if padding <? 2 then [u8 (Z.shiftl (Z.land p1 15) 4 + Z.shiftr (Z.land p2 60) 2)] else [])
  ++ (if padding <? 1 then [u8 (Z.shiftl (Z.land p2 3) 6 + p3)] else []).

(** The loop over the text, with the entries of [char_array_4] that are set. *)
Fixpoint decode_loop (data pending : bytes) (padding : Z) : bytes :=
  match data with
  | [] => []
  | byte :: data =>
      match (if byte =? pad then Some (0, padding + 1) else (fun p => (p, padding)) <$> find_char byte) with
      | None => decode_loop data pending padding
      | Some (value, padding) =>
          match pending with
          | [p0; p1; p2] => group_bytes p0 p1 p2 value padding ++ decode_loop data [] 0
          | _ => decode_loop data (pending ++ [value]) padding
          end
      end
  end.
Definition base64_decode (data : bytes) : bytes := decode_loop data [] 0.

(** * Characters *)
Definition alphabet (byte : Z) : bool := (byte =? pad) || bool_decide (byte ∈ base64_chars).

Lemma sextet_forall (P : Z -> bool) :
  forallb P (map Z.of_nat (seq 0 64)) = true -> forall b, 0 <= b < 64 -> P b = true.
Proof.
  rewrite forallb_forall. intros H b Hb. apply H. rewrite in_map_iff. exists (Z.to_nat b). rewrite in_seq. lia.
Qed.

Lemma find_char_at i : 0 <= i < 64 -> (char_at i =? pad) = false /\ find_char (char_at i) = Some i.
Proof.
  intros Hi. pose proof (sextet_forall (fun i => negb (char_at i =? pad) && bool_decide (find_char (char_at i) = Some i))
    ltac:(by vm_compute) i Hi) as H. cbn beta in H. apply andb_true_iff in H as [H1 H2%bool_decide_eq_true].
  split; [|done]. by destruct (char_at i =? pad).
Qed.

Lemma find_char_none c : alphabet c = false -> (c =? pad) = false /\ find_char c = None.
Proof.
  unfold alphabet, find_char. intros [-> H%bool_decide_eq_false]%orb_false_iff. split; [done|].
  by apply index_of_none in H as ->.
Qed.

(** * Sextets *)
Lemma land_shiftr_high a k m : is_u8 a -> m = Z.shiftl (Z.ones (8 - k)) k -> 0 <= k <= 8 -> Z.shiftr (Z.land a m) k = a / 2 ^ k.
Proof.
  intros Ha -> Hk. rewrite Z.shiftr_land, Z.shiftr_shiftl_l, Z.sub_diag by lia. rewrite Z.shiftl_0_r.
  rewrite Z.land_ones, Z.shiftr_div_pow2 by lia. apply Z.mod_small. unfold is_u8 in Ha.
  split; [apply Z.div_pos; lia|]. apply Z.div_lt_upper_bound; [lia|]. rewrite <- Z.pow_add_r by lia.
  replace (k + (8 - k)) with 8 by lia. change (2 ^ 8) with 256. lia.
Qed.
Lemma land_shiftl_low a k m : 0 <= k -> m = Z.ones k -> Z.land a m = a mod 2 ^ k.
Proof. intros ? ->. by apply Z.land_ones. Qed.

(** The arithmetic of [sextets]. *)
Lemma sextets_eq a b c : is_u8 a -> is_u8 b -> is_u8 c ->
  sextets a b c = (a / 4, a mod 4 * 16 + b / 16, b mod 16 * 4 + c / 64, c mod 64).
Proof.
  intros Ha Hb Hc. unfold sextets.
  rewrite (land_shiftr_high a 2), (land_shiftr_high b 4), (land_shiftr_high c 6) by (done || lia).
  rewrite (land_shiftl_low a 2), (land_shiftl_low b 4), (land_shiftl_low c 6) by (done || lia).
  by rewrite !Z.shiftl_mul_pow2 by lia.
Qed.

Lemma middle_bits p k m : 0 <= p < 64 -> 0 <= k <= 6 -> m = Z.shiftl (Z.ones (6 - k)) k -> Z.shiftr (Z.land p m) k = p / 2 ^ k.
Proof.
  intros Hp Hk ->. rewrite Z.shiftr_land, Z.shiftr_shiftl_l, Z.sub_diag by lia. rewrite Z.shiftl_0_r.
  rewrite Z.land_ones, Z.shiftr_div_pow2 by lia. apply Z.mod_small.
  split; [apply Z.div_pos; lia|]. apply Z.div_lt_upper_bound; [lia|]. rewrite <- Z.pow_add_r by lia.
  replace (k + (6 - k)) with 6 by lia. change (2 ^ 6) with 64. lia.
Qed.

Lemma group_bytes_eq p0 p1 p2 p3 padding : 0 <= p0 < 64 -> 0 <= p1 < 64 -> 0 <= p2 < 64 -> 0 <= p3 < 64 ->
  group_bytes p0 p1 p2 p3 padding
  = (p0 * 4 + p1 / 16) :: (if padding <? 2 then [p1 mod 16 * 16 + p2 / 4] else [])
    ++ (if padding <? 1 then [p2 mod 4 * 64 + p3] else []).
Proof.
  intros H0 H1 H2 H3. unfold group_bytes.
  rewrite (middle_bits p1 4), (middle_bits p2 2) by (done || lia).
  rewrite (land_shiftl_low p1 4), (land_shiftl_low p2 2) by (done || lia). rewrite !Z.shiftl_mul_pow2 by lia.
  rewrite !u8_id; [done|unfold is_u8; change (2 ^ 6) with 64; change (2 ^ 2) with 4; change (2 ^ 4) with 16;
    Z.to_euclidean_division_equations; lia..].
Qed.

(** One group of four characters. *)
Lemma decode_char i rest pending padding : 0 <= i < 64 ->
  decode_loop (char_at i :: rest) pending padding
  = match pending with
    | [p0; p1; p2] => group_bytes p0 p1 p2 i padding ++ decode_loop rest [] 0
    | _ => decode_loop rest (pending ++ [i]) padding
    end.
Proof. intros Hi. destruct (find_char_at i Hi) as [Hp Hf]. cbn [decode_loop]. by rewrite Hp, Hf. Qed.

Lemma three_bytes a b c : is_u8 a -> is_u8 b -> is_u8 c ->
  (a / 4) * 4 + (a mod 4 * 16 + b / 16) / 16 = a
  /\ (a mod 4 * 16 + b / 16) mod 16 * 16 + (b mod 16 * 4 + c / 64) / 4 = b
  /\ (b mod 16 * 4 + c / 64) mod 4 * 64 + c mod 64 = c.
Proof. unfold is_u8. intros. split_and!; Z.to_euclidean_division_equations; lia. Qed.

Lemma sextets_range a b c : is_u8 a -> is_u8 b -> is_u8 c ->
  0 <= a / 4 < 64 /\ 0 <= a mod 4 * 16 + b / 16 < 64 /\ 0 <= b mod 16 * 4 + c / 64 < 64 /\ 0 <= c mod 64 < 64.
Proof. unfold is_u8. intros. split_and!; Z.to_euclidean_division_equations; lia. Qed.

Lemma decode_pad rest pending padding :
  decode_loop (pad :: rest) pending padding
  = match pending with
    | [p0; p1; p2] => group_bytes p0 p1 p2 0 (padding + 1) ++ decode_loop rest [] 0
    | _ => decode_loop rest (pending ++ [0]) (padding + 1)
    end.
Proof. done. Qed.

Lemma encode_decode data : Forall is_u8 data -> base64_decode (base64_encode data) = data.
Proof.
  unfold base64_decode, base64_encode. induction data as [data IH] using (induction_ltof1 _ (@length Z)). unfold ltof in IH.
  intros Hd. destruct data as [|a [|b [|c data]]]; [done|..].
  - apply Forall_cons in Hd as [Ha _]. cbn [encode_loop app]. rewrite sextets_eq by done.
    destruct (sextets_range a 0 0) as (H0 & H1 & _); [done..|].
    rewrite !decode_char by done. cbn [app]. rewrite !decode_pad. cbn [app]. rewrite group_bytes_eq by (done || lia).
    destruct (three_bytes a 0 0) as (E & _); [done..|]. cbn [decode_loop Z.add Z.ltb Z.compare Pos.compare app]. by rewrite E.
  - apply Forall_cons in Hd as [Ha [Hb _]%Forall_cons]. cbn [encode_loop app]. rewrite sextets_eq by done.
    destruct (sextets_range a b 0) as (H0 & H1 & H2 & _); [done..|].
    rewrite !decode_char by done. cbn [app]. rewrite !decode_pad. cbn [app]. rewrite group_bytes_eq by (done || lia).
    destruct (three_bytes a b 0) as (E & E' & _); [done..|]. change (0 + 1 <? 2) with true. change (0 + 1 <? 1) with false.
    cbn [decode_loop app]. by rewrite E, E'.
  - apply Forall_cons in Hd as [Ha [Hb [Hc Hd]%Forall_cons]%Forall_cons]. cbn [encode_loop app]. rewrite sextets_eq by done.
    destruct (sextets_range a b c) as (H0 & H1 & H2 & H3); [done..|].
    rewrite decode_char by done. cbn [app]. rewrite decode_char by done. cbn [app]. rewrite decode_char by done.
    cbn [app]. rewrite decode_char by done. cbn [app]. rewrite group_bytes_eq by done.
    destruct (three_bytes a b c) as (E & E' & E''); [done..|]. change (0 <? 2) with true. change (0 <? 1) with true.
    cbn [app]. rewrite E, E', E''. do 3 f_equal. apply IH; [cbn; lia|done].
Qed.

(** Characters outside the alphabet are skipped. *)
Lemma decode_skips data : base64_decode (List.filter alphabet data) = base64_decode data.
Proof.
  unfold base64_decode. generalize (@nil Z) as pending, 0 as padding.
  induction data as [|c data IH]; intros pending padding; [done|]. cbn [List.filter].
  destruct (alphabet c) eqn:E.
  - cbn [decode_loop]. destruct (if c =? pad then _ else _) as [[v k]|]; [|apply IH].
    destruct pending as [|? [|? [|? [|]]]]; rewrite IH; done.
  - apply find_char_none in E as [E1 E2]. cbn [decode_loop]. rewrite E1, E2. apply IH.
Qed.
(** The size of an encoding. *)
Lemma encode_length data : zlen (base64_encode data) = 4 * ((zlen data + 2) / 3).
Proof.
  unfold base64_encode. induction data as [data IH] using (induction_ltof1 _ (@length Z)). unfold ltof in IH.
  destruct data as [|a [|b [|c data]]]; [done..|]. cbn [encode_loop app]. destruct (sextets a b c) as [[[? ?] ?] ?].
  rewrite !zlen_cons, IH by (cbn; lia).
  Z.to_euclidean_division_equations; lia.
Qed.

End Base64.
