(* ===== verification/Huffman.v ===== *)
(** The Huffman code of HPACK: [protocol/http/src/http2/huffman_codec.cpp].

    The table of codes, the decoding tree that is built from it, and both directions. The
    array of 4096 nodes is the list of the nodes that are in use, whose number is [count];
    an index outside it is a [Fault]. The encoder collects bits in a 64-bit accumulator. *)
From S2P Require Import Prelude.
Module Huffman.

Record HuffSym : Type := mkSym { code : Z; bits : Z; symbol : Z }.

Definition kHuffRows : list (Z * Z * Z) :=
  [(0x1ff8, 13, 0); (0x7fffd8, 23, 1); (0xfffffe2, 28, 2); (0xfffffe3, 28, 3); (0xfffffe4, 28, 4);
   (0xfffffe5, 28, 5); (0xfffffe6, 28, 6); (0xfffffe7, 28, 7); (0xfffffe8, 28, 8); (0xffffea, 24, 9);
   (0x3ffffffc, 30, 10); (0xfffffe9, 28, 11); (0xfffffea, 28, 12); (0x3ffffffd, 30, 13); (0xfffffeb, 28, 14);
   (0xfffffec, 28, 15); (0xfffffed, 28, 16); (0xfffffee, 28, 17); (0xfffffef, 28, 18); (0xffffff0, 28, 19);
   (0xffffff1, 28, 20); (0xffffff2, 28, 21); (0x3ffffffe, 30, 22); (0xffffff3, 28, 23); (0xffffff4, 28, 24);
   (0xffffff5, 28, 25); (0xffffff6, 28, 26); (0xffffff7, 28, 27); (0xffffff8, 28, 28); (0xffffff9, 28, 29);
   (0xffffffa, 28, 30); (0xffffffb, 28, 31); (0x14, 6, 32); (0x3f8, 10, 33); (0x3f9, 10, 34);
   (0xffa, 12, 35); (0x1ff9, 13, 36); (0x15, 6, 37); (0xf8, 8, 38); (0x7fa, 11, 39); (0x3fa, 10, 40);
   (0x3fb, 10, 41); (0xf9, 8, 42); (0x7fb, 11, 43); (0xfa, 8, 44); (0x16, 6, 45); (0x17, 6, 46);
   (0x18, 6, 47); (0x0, 5, 48); (0x1, 5, 49); (0x2, 5, 50); (0x19, 6, 51); (0x1a, 6, 52); (0x1b, 6, 53);
   (0x1c, 6, 54); (0x1d, 6, 55); (0x1e, 6, 56); (0x1f, 6, 57); (0x5c, 7, 58); (0xfb, 8, 59);
   (0x7ffc, 15, 60); (0x20, 6, 61); (0xffb, 12, 62); (0x3fc, 10, 63); (0x1ffa, 13, 64); (0x21, 6, 65);
   (0x5d, 7, 66); (0x5e, 7, 67); (0x5f, 7, 68); (0x60, 7, 69); (0x61, 7, 70); (0x62, 7, 71); (0x63, 7, 72);
   (0x64, 7, 73); (0x65, 7, 74); (0x66, 7, 75); (0x67, 7, 76); (0x68, 7, 77); (0x69, 7, 78); (0x6a, 7, 79);
   (0x6b, 7, 80); (0x6c, 7, 81); (0x6d, 7, 82); (0x6e, 7, 83); (0x6f, 7, 84); (0x70, 7, 85); (0x71, 7, 86);
   (0x72, 7, 87); (0xfc, 8, 88); (0x73, 7, 89); (0xfd, 8, 90); (0x1ffb, 13, 91); (0x7fff0, 19, 92);
   (0x1ffc, 13, 93); (0x3ffc, 14, 94); (0x22, 6, 95); (0x7ffd, 15, 96); (0x3, 5, 97); (0x23, 6, 98);
   (0x4, 5, 99); (0x24, 6, 100); (0x5, 5, 101); (0x25, 6, 102); (0x26, 6, 103); (0x27, 6, 104);
   (0x6, 5, 105); (0x74, 7, 106); (0x75, 7, 107); (0x28, 6, 108); (0x29, 6, 109); (0x2a, 6, 110);
   (0x7, 5, 111); (0x2b, 6, 112); (0x76, 7, 113); (0x2c, 6, 114); (0x8, 5, 115); (0x9, 5, 116);
   (0x2d, 6, 117); (0x77, 7, 118); (0x78, 7, 119); (0x79, 7, 120); (0x7a, 7, 121); (0x7b, 7, 122);
   (0x7ffe, 15, 123); (0x7fc, 11, 124); (0x3ffd, 14, 125); (0x1ffd, 13, 126); (0xffffffc, 28, 127);
   (0xfffe6, 20, 128); (0x3fffd2, 22, 129); (0xfffe7, 20, 130); (0xfffe8, 20, 131); (0x3fffd3, 22, 132);
   (0x3fffd4, 22, 133); (0x3fffd5, 22, 134); (0x7fffd9, 23, 135); (0x3fffd6, 22, 136); (0x7fffda, 23, 137);
   (0x7fffdb, 23, 138); (0x7fffdc, 23, 139); (0x7fffdd, 23, 140); (0x7fffde, 23, 141); (0xffffeb, 24, 142);
   (0x7fffdf, 23, 143); (0xffffec, 24, 144); (0xffffed, 24, 145); (0x3fffd7, 22, 146); (0x7fffe0, 23, 147);
   (0xffffee, 24, 148); (0x7fffe1, 23, 149); (0x7fffe2, 23, 150); (0x7fffe3, 23, 151); (0x7fffe4, 23, 152);
   (0x1fffdc, 21, 153); (0x3fffd8, 22, 154); (0x7fffe5, 23, 155); (0x3fffd9, 22, 156); (0x7fffe6, 23, 157);
   (0x7fffe7, 23, 158); (0xffffef, 24, 159); (0x3fffda, 22, 160); (0x1fffdd, 21, 161); (0xfffe9, 20, 162);
   (0x3fffdb, 22, 163); (0x3fffdc, 22, 164); (0x7fffe8, 23, 165); (0x7fffe9, 23, 166); (0x1fffde, 21, 167);
   (0x7fffea, 23, 168); (0x3fffdd, 22, 169); (0x3fffde, 22, 170); (0xfffff0, 24, 171); (0x1fffdf, 21, 172);
   (0x3fffdf, 22, 173); (0x7fffeb, 23, 174); (0x7fffec, 23, 175); (0x1fffe0, 21, 176); (0x1fffe1, 21, 177);
   (0x3fffe0, 22, 178); (0x1fffe2, 21, 179); (0x7fffed, 23, 180); (0x3fffe1, 22, 181); (0x7fffee, 23, 182);
   (0x7fffef, 23, 183); (0xfffea, 20, 184); (0x3fffe2, 22, 185); (0x3fffe3, 22, 186); (0x3fffe4, 22, 187);
   (0x7ffff0, 23, 188); (0x3fffe5, 22, 189); (0x3fffe6, 22, 190); (0x7ffff1, 23, 191); (0x3ffffe0, 26, 192);
   (0x3ffffe1, 26, 193); (0xfffeb, 20, 194); (0x7fff1, 19, 195); (0x3fffe7, 22, 196); (0x7ffff2, 23, 197);
   (0x3fffe8, 22, 198); (0x1ffffec, 25, 199); (0x3ffffe2, 26, 200); (0x3ffffe3, 26, 201);
   (0x3ffffe4, 26, 202); (0x7ffffde, 27, 203); (0x7ffffdf, 27, 204); (0x3ffffe5, 26, 205);
   (0xfffff1, 24, 206); (0x1ffffed, 25, 207); (0x7fff2, 19, 208); (0x1fffe3, 21, 209); (0x3ffffe6, 26, 210);
   (0x7ffffe0, 27, 211); (0x7ffffe1, 27, 212); (0x3ffffe7, 26, 213); (0x7ffffe2, 27, 214);
   (0xfffff2, 24, 215); (0x1fffe4, 21, 216); (0x1fffe5, 21, 217); (0x3ffffe8, 26, 218); (0x3ffffe9, 26, 219);
   (0xffffffd, 28, 220); (0x7ffffe3, 27, 221); (0x7ffffe4, 27, 222); (0x7ffffe5, 27, 223);
   (0xfffec, 20, 224); (0xfffff3, 24, 225); (0xfffed, 20, 226); (0x1fffe6, 21, 227); (0x3fffe9, 22, 228);
   (0x1fffe7, 21, 229); (0x1fffe8, 21, 230); (0x7ffff3, 23, 231); (0x3fffea, 22, 232); (0x3fffeb, 22, 233);
   (0x1ffffee, 25, 234); (0x1ffffef, 25, 235); (0xfffff4, 24, 236); (0xfffff5, 24, 237);
   (0x3ffffea, 26, 238); (0x7ffff4, 23, 239); (0x3ffffeb, 26, 240); (0x7ffffe6, 27, 241);
   (0x3ffffec, 26, 242); (0x3ffffed, 26, 243); (0x7ffffe7, 27, 244); (0x7ffffe8, 27, 245);
   (0x7ffffe9, 27, 246); (0x7ffffea, 27, 247); (0x7ffffeb, 27, 248); (0xffffffe, 28, 249);
   (0x7ffffec, 27, 250); (0x7ffffed, 27, 251); (0x7ffffee, 27, 252); (0x7ffffef, 27, 253);
   (0x7fffff0, 27, 254); (0x3ffffee, 26, 255); (0x3fffffff, 30, -1)].
Definition kHuffTable : list HuffSym := map (fun '(c, b, s) => mkSym c b s) kHuffRows.

(** * The decoding tree *)
Record HuffNode : Type := mkNode { child0 : Z; child1 : Z; node_symbol : Z }.

Definition kNoSymbol : Z := -1.
Definition kEosSymbol : Z := -2.
Definition kMaxNodes : Z := 4096.
Definition new_node : HuffNode := mkNode (-1) (-1) kNoSymbol.

Definition HuffTree : Type := list HuffNode.
Definition init : HuffTree := [new_node].

(** [None] is the result -1. *)
Definition add_node (tree : HuffTree) : option (Z * HuffTree) :=
  if kMaxNodes <=? zlen tree then None else Some (zlen tree, tree ++ [new_node]).

Definition node (tree : HuffTree) (i : Z) : outcome HuffNode :=
  if i <? 0 then Fault else match tree !! Z.to_nat i with Some n => Ok n | None => Fault end.
Definition set_node (tree : HuffTree) (i : Z) (n : HuffNode) : HuffTree := <[Z.to_nat i := n]> tree.

Definition child (n : HuffNode) (bit : Z) : Z := if bit =? 0 then child0 n else child1 n.
Definition set_child (n : HuffNode) (bit v : Z) : HuffNode :=
  if bit =? 0 then mkNode v (child1 n) (node_symbol n) else mkNode (child0 n) v (node_symbol n).

(** [for (int i = bits - 1; i >= 0; --i)], with [n] rounds left, so that [i = n - 1]. *)
Fixpoint insert_loop (n : nat) (tree : HuffTree) (code cur symbol : Z) : outcome HuffTree :=
  match n with
  | O =>
      here ← node tree cur;
      Ok (set_node tree cur (mkNode (child0 here) (child1 here) (if symbol =? -1 then kEosSymbol else symbol)))
  | S n =>
      let bit := Z.land (Z.shiftr code (Z.of_nat n)) 1 in
      here ← node tree cur;
      if child here bit <? 0 then
        match add_node tree with
        | None => Ok tree
        | Some (next, tree) => insert_loop n (set_node tree cur (set_child here bit next)) code next symbol
        end
      else insert_loop n tree code (child here bit) symbol
  end.
Definition insert (tree : HuffTree) (code bits symbol : Z) : outcome HuffTree :=
  insert_loop (Z.to_nat bits) tree code 0 symbol.

Fixpoint build_loop (table : list HuffSym) (tree : HuffTree) : outcome HuffTree :=
  match table with
  | [] => Ok tree
  | e :: table => tree ← insert tree (code e) (bits e) (symbol e); build_loop table tree
  end.
Definition build_tree : outcome HuffTree := build_loop kHuffTable init.

(** * Decoding *)
Definition bit_at (data : bytes) (bit_offset : Z) : outcome Z :=
  let byte_idx := bit_offset / 8 in
  let bit_idx := 7 - bit_offset mod 8 in
  byte ← rd data byte_idx;
  Ok (Z.land (Z.shiftr byte bit_idx) 1).

(** [while (bit_offset < total_bits)] with [n] bits left; the state and what was decoded. *)
Fixpoint decode_loop (tree : HuffTree) (n : nat) (data : bytes) (bit_offset state : Z) (out : bytes)
  : outcome (Z * bytes) :=
  match n with
  | O => Ok (state, out)
  | S n =>
      bit ← bit_at data bit_offset;
      let bit_offset := bit_offset + 1 in
      here ← node tree state;
      let next := child here bit in
      if next <? 0 then Reject
      else
        there ← node tree next;
        if 0 <=? node_symbol there then decode_loop tree n data bit_offset 0 (out ++ [u8 (node_symbol there)])
        else if node_symbol there =? kEosSymbol then Reject
        else if (0 <=? child0 there) || (0 <=? child1 there) then decode_loop tree n data bit_offset next out
        else Reject
  end.

(** The walk along the ones of the padding; [fuel] nodes are enough, for it goes down a tree. *)
Fixpoint padding_loop (fuel : nat) (tree : HuffTree) (cur : Z) : outcome unit :=
  match fuel with
  | O => Diverge
  | S fuel =>
      here ← node tree cur;
      if node_symbol here =? kEosSymbol then Ok tt
      else if 0 <=? node_symbol here then Reject
      else if 0 <=? child1 here then padding_loop fuel tree (child1 here)
      else Reject
  end.

(** [huffman_decode(data, len, out)], which appends to [out]; [Reject] is the result false. *)
Definition huffman_decode (data out : bytes) : outcome bytes :=
  if zlen data =? 0 then Ok out
  else
    tree ← build_tree;
    '(state, out) ← decode_loop tree (8 * length data) data 0 0 out;
    if negb (state =? 0) then _ ← padding_loop (length tree) tree state; Ok out
    else Ok out.

(** * Encoding *)
Record HuffEncodeEntry : Type := mkEntry { entry_code : Z; entry_bits : Z }.

Fixpoint fill_encode_table (rows : list HuffSym) (table : list HuffEncodeEntry) : list HuffEncodeEntry :=
  match rows with
  | [] => table
  | e :: rows =>
      fill_encode_table rows
        (if (0 <=? symbol e) && (symbol e <? 256) then <[Z.to_nat (symbol e) := mkEntry (code e) (bits e)]> table
         else table)
  end.
Definition get_encode_table : list HuffEncodeEntry := fill_encode_table kHuffTable (replicate 256 (mkEntry 0 0)).

(** [while (nbits >= 8)]: [nbits] is below 64, so eight rounds are enough. *)
Fixpoint flush_bits (fuel : nat) (bits nbits : Z) (out : bytes) : outcome (Z * bytes) :=
  if nbits <? 8 then Ok (nbits, out)
  else
    match fuel with
    | O => Diverge
    | S fuel =>
        let nbits := nbits - 8 in
        flush_bits fuel bits nbits (out ++ [Z.land (Z.shiftr bits nbits) 255])
    end.

Fixpoint encode_loop (table : list HuffEncodeEntry) (data : bytes) (bits nbits : Z) (out : bytes)
  : outcome (Z * Z * bytes) :=
  match data with
  | [] => Ok (bits, nbits, out)
  | b :: data =>
      match table !! Z.to_nat b with
      | None => Fault
      | Some entry =>
          let bits := Z.lor (u64 (Z.shiftl bits (entry_bits entry))) (entry_code entry) in
          let nbits := nbits + entry_bits entry in
          '(nbits, out) ← flush_bits 8 bits nbits out;
          encode_loop table data bits nbits out
      end
  end.

(** [huffman_encode(data, len, out)], which appends to [out]. *)
Definition huffman_encode (data out : bytes) : outcome bytes :=
  if zlen data =? 0 then Ok out
  else
    '(bits, nbits, out) ← encode_loop get_encode_table data 0 0 out;
    if 0 <? nbits then
      let bits := Z.lor (u64 (Z.shiftl bits (8 - nbits))) (Z.shiftr 255 nbits) in
      Ok (out ++ [Z.land bits 255])
    else Ok out.

End Huffman.

(** * Lemmas on the Huffman code: the decoder accepts the concatenations of code words that
    end in ones, and the encoder writes such a concatenation.

    The tree that the code builds is computed once; what its walks do is checked on each
    of its nodes by evaluation, and carried to whole inputs by induction. *)
Import Huffman.

(** * Bits *)
(** The low [n] bits of a number, the highest first. *)
Fixpoint zbits (n : nat) (v : Z) : list bool :=
  match n with
  | O => []
  | S n => Z.testbit v (Z.of_nat n) :: zbits n v
  end.
Definition bits_of (data : bytes) : list bool := flat_map (zbits 8) data.

(** The code word of a byte. *)
Definition code_bits (s : Z) : list bool :=
  match kHuffTable !! Z.to_nat s with Some e => zbits (Z.to_nat (bits e)) (code e) | None => [] end.
Definition code_of (data : bytes) : list bool := flat_map code_bits data.

Lemma length_zbits n v : length (zbits n v) = n.
Proof. induction n; simpl; congruence. Qed.
Lemma length_bits_of data : length (bits_of data) = (8 * length data)%nat.
Proof. unfold bits_of. induction data; cbn [flat_map]; [done|]. rewrite length_app, IHdata, length_zbits. simpl. lia. Qed.
Lemma bits_of_app x y : bits_of (x ++ y) = bits_of x ++ bits_of y.
Proof. apply flat_map_app. Qed.
Lemma code_of_app x y : code_of (x ++ y) = code_of x ++ code_of y.
Proof. apply flat_map_app. Qed.

Lemma zbits_ext n v w : (forall i, 0 <= i < Z.of_nat n -> Z.testbit v i = Z.testbit w i) -> zbits n v = zbits n w.
Proof. induction n as [|n IH]; intros H; simpl; [done|]. rewrite (H (Z.of_nat n)) by lia. f_equal. apply IH. intros. apply H. lia. Qed.
Lemma zbits_u64 n v : (n <= 64)%nat -> zbits n (u64 v) = zbits n v.
Proof.
  intros. apply zbits_ext. intros i Hi. unfold u64. change 18446744073709551616 with (2 ^ 64).
  apply Z.mod_pow2_bits_low. lia.
Qed.
(** A shift and an [|] put [m] bits behind the [n] that are there. *)
Lemma zbits_join n m a c : 0 <= c < 2 ^ Z.of_nat m ->
  zbits (n + m) (Z.lor (Z.shiftl a (Z.of_nat m)) c) = zbits n a ++ zbits m c.
Proof.
  intros Hc. induction n as [|n IH]; simpl.
  - apply zbits_ext. intros i Hi. rewrite Z.lor_spec, Z.shiftl_spec_low by lia. done.
  - rewrite IH. f_equal. rewrite Z.lor_spec, Z.shiftl_spec by lia.
    replace (Z.of_nat (n + m) - Z.of_nat m) with (Z.of_nat n) by lia.
    rewrite <- (Z.mod_small c (2 ^ Z.of_nat m)) by done.
    rewrite Z.mod_pow2_bits_high by lia. apply orb_false_r.
Qed.
Lemma zbits_split n m v : zbits (n + m) v = zbits n (Z.shiftr v (Z.of_nat m)) ++ zbits m v.
Proof.
  induction n as [|n IH]; simpl; [done|]. rewrite IH. f_equal. rewrite Z.shiftr_spec by lia. f_equal. lia.
Qed.
Lemma zbits_land_255 v : zbits 8 (Z.land v 255) = zbits 8 v.
Proof.
  apply zbits_ext. intros i Hi. rewrite Z.land_spec. change 255 with (Z.ones 8).
  rewrite Z.ones_spec_low by lia. apply andb_true_r.
Qed.
Lemma land_255_u8 v : is_u8 (Z.land v 255).
Proof. change 255 with (Z.ones 8). rewrite Z.land_ones by lia. apply Z.mod_pos_bound. lia. Qed.

(** * The tree *)
Definition the_tree : HuffTree := Eval vm_compute in match build_tree with Ok t => t | _ => [] end.
Lemma build_tree_eq : build_tree = Ok the_tree.
Proof. vm_compute. reflexivity. Qed.

Definition nodes : list Z := map Z.of_nat (seq 0 (length the_tree)).
Definition valid (st : Z) : Prop := 0 <= st < zlen the_tree.
Lemma valid_in st : valid st -> st ∈ nodes.
Proof.
  unfold valid, nodes, zlen. intros. apply elem_of_map. exists (Z.to_nat st). split; [lia|].
  apply elem_of_seq. lia.
Qed.

(** A property of all the nodes, by evaluation. *)
Lemma on_nodes (p : Z -> bool) : forallb p nodes = true -> forall st, valid st -> p st = true.
Proof. intros H st Hv. rewrite forallb_forall in H. apply H. rewrite <- list_elem_of_In. by apply valid_in. Qed.

Definition step (st : Z) (b : bool) : option (bytes * Z) :=
  match node the_tree st with
  | Ok here =>
      let next := child here (Z.b2z b) in
      if next <? 0 then None
      else
        match node the_tree next with
        | Ok there =>
            if 0 <=? node_symbol there then Some ([u8 (node_symbol there)], 0)
            else if node_symbol there =? kEosSymbol then None
            else if (0 <=? child0 there) || (0 <=? child1 there) then Some ([], next)
            else None
        | _ => None
        end
  | _ => None
  end.
Fixpoint run (st : Z) (bs : list bool) : option (bytes * Z) :=
  match bs with
  | [] => Some ([], st)
  | b :: bs =>
      match step st b with
      | None => None
      | Some (o, st) => match run st bs with None => None | Some (o', st) => Some (o ++ o', st) end
      end
  end.

Lemma run_app st x y : run st (x ++ y) =
  match run st x with
  | None => None
  | Some (o, st) => match run st y with None => None | Some (o', st) => Some (o ++ o', st) end
  end.
Proof.
  revert st. induction x as [|b x IH]; intros st; simpl; [by destruct (run st y) as [[]|]|].
  destruct (step st b) as [[o st']|]; [|done]. rewrite IH.
  destruct (run st' x) as [[o1 st1]|]; [|done]. destruct (run st1 y) as [[o2 st2]|]; [|done]. by rewrite app_assoc.
Qed.

(** Every node and every child that is followed is a node of the tree. *)
Definition node_children_ok (st : Z) : bool :=
  match node the_tree st with
  | Ok here => (child0 here <? zlen the_tree) && (child1 here <? zlen the_tree)
  | _ => false
  end.
Lemma children_ok : forallb node_children_ok nodes = true.
Proof. vm_compute. reflexivity. Qed.

Lemma node_ok st : valid st -> exists here, node the_tree st = Ok here /\
  child0 here < zlen the_tree /\ child1 here < zlen the_tree.
Proof.
  intros Hv. pose proof (on_nodes _ children_ok st Hv) as H. unfold node_children_ok in H.
  destruct (node the_tree st) as [here| | |]; try discriminate. apply andb_true_iff in H as [H0 H1].
  exists here. split; [done|]. split; [by apply Z.ltb_lt|by apply Z.ltb_lt].
Qed.
Lemma valid_0 : valid 0.
Proof. split; [lia|reflexivity]. Qed.
Lemma child_valid here b : child0 here < zlen the_tree -> child1 here < zlen the_tree -> 0 <= child here b -> valid (child here b).
Proof. unfold child, valid. case_if; lia. Qed.

Lemma step_valid st b o st' : valid st -> step st b = Some (o, st') -> valid st'.
Proof.
  intros Hv. unfold step. destruct (node_ok st Hv) as (here & -> & H0 & H1). cbv zeta.
  destruct (Z.ltb_spec (child here (Z.b2z b)) 0); [done|].
  pose proof (child_valid here (Z.b2z b) H0 H1 H) as Hc. destruct (node_ok _ Hc) as (there & -> & _ & _).
  repeat case_if; intros [= _ <-]; done || apply valid_0.
Qed.

(** * The decoder runs the tree on the bits of the data *)
Lemma testbit_land v i : 0 <= i -> Z.land (Z.shiftr v i) 1 = Z.b2z (Z.testbit v i).
Proof. intros. change 1 with (Z.ones 1). rewrite Z.land_ones by lia. by rewrite Z.testbit_spec', Z.shiftr_div_pow2. Qed.

Lemma bits_of_lookup data i : (i < 8 * length data)%nat ->
  exists b, data !! (i / 8)%nat = Some b /\ bits_of data !! i = Some (Z.testbit b (7 - Z.of_nat (i mod 8))).
Proof.
  revert i. induction data as [|d data IH]; simpl length; intros i Hi; [lia|].
  unfold bits_of. cbn [flat_map]. fold (bits_of data).
  destruct (Nat.lt_ge_cases i 8) as [Hlt|Hge].
  - exists d. rewrite Nat.div_small, Nat.mod_small by lia. split; [done|].
    do 8 (destruct i as [|i]; [done|]). lia.
  - destruct (IH (i - 8)%nat) as (b & Hb & Hbit); [lia|].
    replace i with (i - 8 + 1 * 8)%nat by lia.
    rewrite Nat.div_add, Nat.Div0.mod_add by lia. rewrite Nat.add_1_r. exists b. split; [done|].
    rewrite lookup_app_r by (rewrite length_zbits; lia). rewrite length_zbits.
    by replace (i - 8 + 1 * 8 - 8)%nat with (i - 8)%nat by lia.
Qed.

Lemma bit_at_ok data i : (i < 8 * length data)%nat ->
  exists b, bits_of data !! i = Some b /\ bit_at data (Z.of_nat i) = Ok (Z.b2z b).
Proof.
  intros Hi. destruct (bits_of_lookup data i Hi) as (v & Hv & Hb). eexists. split; [exact Hb|].
  unfold bit_at, rd. change 8 with (Z.of_nat 8). rewrite <- Nat2Z.inj_div, <- Nat2Z.inj_mod.
  case_if; [lia|]. rewrite Nat2Z.id, Hv. mstep. rewrite testbit_land; [done|].
  pose proof (Nat.mod_upper_bound i 8). lia.
Qed.

Lemma decode_loop_run n data off st out : valid st -> (off + n = 8 * length data)%nat ->
  decode_loop the_tree n data (Z.of_nat off) st out =
  match run st (drop off (bits_of data)) with Some (o, st) => Ok (st, out ++ o) | None => Reject end.
Proof.
  revert off st out. induction n as [|n IH]; intros off st out Hv Hn.
  - rewrite drop_ge by (rewrite length_bits_of; lia). simpl. by rewrite app_nil_r.
  - destruct (bit_at_ok data off) as (b & Hb & Hbit); [lia|]. cbn [decode_loop]. rewrite Hbit. mstep.
    rewrite (drop_S _ b off Hb). cbn [run]. unfold step.
    destruct (node_ok st Hv) as (here & -> & H0 & H1). mstep. cbv zeta.
    destruct (Z.ltb_spec (child here (Z.b2z b)) 0); [done|].
    pose proof (child_valid here (Z.b2z b) H0 H1 H) as Hc. destruct (node_ok _ Hc) as (there & -> & _ & _). mstep.
    replace (Z.of_nat off + 1) with (Z.of_nat (S off)) by lia.
    case_if.
    { rewrite IH by (apply valid_0 || lia). destruct (run 0 _) as [[]|]; [|done]. by rewrite <- app_assoc. }
    case_if; [done|]. case_if; [|done].
    rewrite IH by (done || lia). by destruct (run _ _) as [[]|].
Qed.

(** * Code words and padding *)
Definition all_bytes : list Z := map Z.of_nat (seq 0 256).
Lemma on_bytes_all (p : Z -> bool) : forallb p all_bytes = true -> forall s, is_u8 s -> p s = true.
Proof.
  intros H s Hs. rewrite forallb_forall in H. apply H. rewrite <- list_elem_of_In. apply elem_of_map.
  exists (Z.to_nat s). unfold is_u8 in Hs. split; [lia|]. apply elem_of_seq. lia.
Qed.

Lemma code_runs : forallb (fun s => bool_decide (run 0 (code_bits s) = Some ([s], 0))) all_bytes = true.
Proof. vm_compute. reflexivity. Qed.
Lemma run_code s : is_u8 s -> run 0 (code_bits s) = Some ([s], 0).
Proof. intros Hs. by apply (on_bytes_all _ code_runs), bool_decide_eq_true in Hs. Qed.
Lemma run_code_of data bs : Forall is_u8 data ->
  run 0 (code_of data ++ bs) = match run 0 bs with Some (o, st) => Some (data ++ o, st) | None => None end.
Proof.
  induction 1 as [|s data Hs _ IH]; [change (code_of []) with (@nil bool); simpl; by destruct (run 0 bs) as [[]|]|].
  unfold code_of. cbn [flat_map]. fold (code_of data). rewrite <- app_assoc, run_app, run_code, IH by done.
  by destruct (run 0 bs) as [[]|].
Qed.

(** What follows the loop: nothing, or the walk along the padding. *)
Definition pad_ok (st : Z) : bool :=
  (st =? 0) || match padding_loop (length the_tree) the_tree st with Ok _ => true | _ => false end.
Definition pad_fails (st : Z) : bool :=
  (st =? 0) || match padding_loop (length the_tree) the_tree st with Ok _ | Reject => true | _ => false end.
Lemma pad_total : forallb pad_fails nodes = true.
Proof. vm_compute. reflexivity. Qed.

(** Up to 29 ones are a padding. *)
Definition ones_ok (k : nat) : bool :=
  match run 0 (replicate k true) with Some ([], st) => pad_ok st | _ => false end.
Lemma ones_run : forallb ones_ok (seq 0 30) = true.
Proof. vm_compute. reflexivity. Qed.

(** The path from the root to each node. *)
Fixpoint paths_loop (t : HuffTree) (i : nat) (ps : list (list bool)) : list (list bool) :=
  match t with
  | [] => ps
  | n :: t =>
      let here := match ps !! i with Some p => p | None => [] end in
      let put c b ps := if c <? 0 then ps else <[Z.to_nat c := here ++ [b]]> ps in
      paths_loop t (S i) (put (child1 n) true (put (child0 n) false ps))
  end.
Definition paths : list (list bool) :=
  Eval vm_compute in paths_loop the_tree 0 (replicate (length the_tree) []).
Definition path (st : Z) : list bool := match paths !! Z.to_nat st with Some p => p | None => [] end.

(** Decoding never rests on the node of the end-of-string symbol. *)
Definition is_eos (st : Z) : bool :=
  match node the_tree st with Ok here => node_symbol here =? kEosSymbol | _ => false end.

(** A step follows the path, and a symbol is found at the end of its code word. *)
Definition step_follows (st : Z) (b : bool) : bool :=
  match step st b with
  | None => true
  | Some ([], st') => negb (is_eos st') && bool_decide (path st' = path st ++ [b])
  | Some ([s], st') => (st' =? 0) && (0 <=? s) && (s <? 256) && bool_decide (code_bits s = path st ++ [b])
  | Some _ => false
  end.
Lemma steps_follow : forallb (fun st => step_follows st false && step_follows st true) nodes = true.
Proof. vm_compute. reflexivity. Qed.
Definition pad_is_ones (st : Z) : bool :=
  if pad_ok st && negb (is_eos st) then (length (path st) <? 30)%nat && bool_decide (path st = replicate (length (path st)) true) else true.
Lemma pads_are_ones : forallb pad_is_ones nodes = true.
Proof. vm_compute. reflexivity. Qed.

Lemma run_sound bs : forall st o st', valid st -> is_eos st = false -> run st bs = Some (o, st') ->
  valid st' /\ is_eos st' = false /\ Forall is_u8 o /\ path st ++ bs = code_of o ++ path st'.
Proof.
  induction bs as [|b bs IH]; intros st o st' Hv Heos; simpl.
  { intros [= <- <-]. by rewrite app_nil_r. }
  destruct (step st b) as [[o1 st1]|] eqn:Hs; [|done].
  destruct (run st1 bs) as [[o2 st2]|] eqn:Hr; [|done]. intros [= <- <-].
  assert (step_follows st b = true) as H.
  { pose proof (on_nodes _ steps_follow st Hv) as [Hf Ht]%andb_true_iff. by destruct b. }
  unfold step_follows in H. rewrite Hs in H.
  assert (is_eos st1 = false) as Heos1.
  { destruct o1 as [|s [|]]; [| |done].
    - apply andb_true_iff in H as [H _]. by destruct (is_eos st1).
    - apply andb_true_iff in H as [H _]. apply andb_true_iff in H as [H _]. apply andb_true_iff in H as [H _].
      by apply Z.eqb_eq in H as ->. }
  destruct (IH _ _ _ (step_valid _ _ _ _ Hv Hs) Heos1 Hr) as (Hv2 & He2 & Ho & E).
  replace (path st ++ b :: bs) with ((path st ++ [b]) ++ bs) by by rewrite <- app_assoc.
  destruct o1 as [|s [|]]; [| |done].
  - apply andb_true_iff in H as [_ H]. apply bool_decide_eq_true in H. by rewrite <- H.
  - apply andb_true_iff in H as [H Hc]. apply andb_true_iff in H as [H Hlt]. apply andb_true_iff in H as [H0 Hge].
    apply bool_decide_eq_true in Hc. apply Z.eqb_eq in H0 as ->. change (path 0) with (@nil bool) in E. simpl in E.
    split; [done|]. split; [done|]. split; [constructor; [unfold is_u8; lia|done]|].
    rewrite <- Hc, E. unfold code_of. cbn [flat_map app]. by rewrite app_assoc.
Qed.

(** * What the decoder accepts *)
Lemma huffman_decode_run data out : huffman_decode data out =
  match run 0 (bits_of data) with Some (o, st) => if pad_ok st then Ok (out ++ o) else Reject | None => Reject end.
Proof.
  unfold huffman_decode. case_if.
  { apply Z.eqb_eq in Hif. destruct data; [|zlia]. simpl. by rewrite app_nil_r. }
  rewrite build_tree_eq. mstep.
  pose proof (decode_loop_run (8 * length data) data 0 0 out valid_0 eq_refl) as Hrun.
  change (Z.of_nat 0) with 0 in Hrun. rewrite Hrun, drop_0.
  destruct (run 0 (bits_of data)) as [[o st]|] eqn:Hr; [|done]. mstep.
  destruct (run_sound _ _ _ _ valid_0 eq_refl Hr) as (Hv & _).
  pose proof (on_nodes _ pad_total st Hv) as Ht. unfold pad_ok, pad_fails in *.
  destruct (st =? 0); [done|]. cbn [negb orb] in *. by destruct (padding_loop _ _ _).
Qed.

Lemma huffman_decode_iff data out r : huffman_decode data out = Ok r <->
  exists s k, r = out ++ s /\ Forall is_u8 s /\ (k < 30)%nat /\ bits_of data = code_of s ++ replicate k true.
Proof.
  rewrite huffman_decode_run. split.
  - destruct (run 0 (bits_of data)) as [[o st]|] eqn:Hr; [|done]. destruct (pad_ok st) eqn:Hp; [|done]. intros [= <-].
    destruct (run_sound _ _ _ _ valid_0 eq_refl Hr) as (Hv & Heos & Ho & E). change (path 0) with (@nil bool) in E. simpl in E.
    pose proof (on_nodes _ pads_are_ones st Hv) as H. unfold pad_is_ones in H. rewrite Hp, Heos in H.
    apply andb_true_iff in H as [Hk Hrep]. apply bool_decide_eq_true in Hrep.
    exists o, (length (path st)). rewrite <- Hrep. split; [done|]. split; [done|]. split; [by apply Nat.ltb_lt|done].
  - intros (s & k & -> & Hs & Hk & E). rewrite E, run_code_of by done.
    pose proof ones_run as H. rewrite forallb_forall in H. specialize (H k). rewrite in_seq in H. specialize (H ltac:(lia)).
    unfold ones_ok in H. destruct (run 0 (replicate k true)) as [[[|] st]|]; try done. by rewrite H, app_nil_r.
Qed.

Lemma huffman_decode_total data out : safe (huffman_decode data out).
Proof. rewrite huffman_decode_run. destruct (run _ _) as [[]|]; [|done]. by case_if. Qed.
Lemma huffman_decode_bytes data out r : Forall is_u8 out -> huffman_decode data out = Ok r -> Forall is_u8 r.
Proof. intros Ho (s & k & -> & Hs & _)%huffman_decode_iff. by apply Forall_app. Qed.

(** * The encoder *)
Lemma encode_table_ok : forallb (fun s =>
  match get_encode_table !! Z.to_nat s with
  | Some e => (0 <? entry_bits e) && (entry_bits e <=? 30) && (0 <=? entry_code e) && (entry_code e <? 2 ^ entry_bits e)
              && bool_decide (code_bits s = zbits (Z.to_nat (entry_bits e)) (entry_code e))
  | None => false
  end) all_bytes = true.
Proof. vm_compute. reflexivity. Qed.

Lemma encode_entry s : is_u8 s -> exists n c, get_encode_table !! Z.to_nat s = Some (mkEntry c (Z.of_nat n))
  /\ (0 < n <= 30)%nat /\ 0 <= c < 2 ^ Z.of_nat n /\ code_bits s = zbits n c.
Proof.
  intros Hs. pose proof (on_bytes_all _ encode_table_ok s Hs) as H. cbv beta in H.
  destruct (get_encode_table !! Z.to_nat s) as [[c n]|]; [|done]. cbn [entry_bits entry_code] in H.
  apply andb_true_iff in H as [H Hc]. apply andb_true_iff in H as [H H2]. apply andb_true_iff in H as [H H1].
  apply andb_true_iff in H as [Hn0 Hn]. apply bool_decide_eq_true in Hc.
  exists (Z.to_nat n), c. rewrite Z2Nat.id by lia. split; [done|]. split; [lia|]. split; [lia|done].
Qed.

Lemma flush_bits_ok fuel n bs out : (n < 8 * S fuel)%nat ->
  exists x m, flush_bits fuel bs (Z.of_nat n) out = Ok (Z.of_nat m, out ++ x) /\ (m < 8)%nat
    /\ Forall is_u8 x /\ zbits n bs = bits_of x ++ zbits m bs.
Proof.
  revert n out. induction fuel as [|fuel IH]; intros n out Hn; cbn [flush_bits].
  - case_if; [|lia]. exists [], n. rewrite app_nil_r. split; [done|]. split; [lia|]. done.
  - case_if; [exists [], n; rewrite app_nil_r; split; [done|]; split; [lia|done]|].
    replace (Z.of_nat n - 8) with (Z.of_nat (n - 8)) by lia.
    destruct (IH (n - 8)%nat (out ++ [Z.land (Z.shiftr bs (Z.of_nat (n - 8))) 255])) as (x & m & E & Hm & Hx & Hb); [lia|].
    eexists (_ :: x), m. rewrite E, <- app_assoc. split; [done|]. split; [done|].
    split; [constructor; [apply land_255_u8|done]|].
    replace n with (8 + (n - 8))%nat at 1 by lia. rewrite zbits_split, Hb.
    unfold bits_of. cbn [flat_map]. rewrite zbits_land_255. by rewrite <- app_assoc.
Qed.

Lemma encode_loop_ok data : Forall is_u8 data -> forall n bs out, (n < 8)%nat ->
  exists x m bs', encode_loop get_encode_table data bs (Z.of_nat n) out = Ok (bs', Z.of_nat m, out ++ x)
    /\ (m < 8)%nat /\ Forall is_u8 x /\ zbits n bs ++ code_of data = bits_of x ++ zbits m bs'.
Proof.
  induction 1 as [|s data Hs _ IH]; intros n bs out Hn.
  { exists [], n, bs. simpl. by rewrite !app_nil_r. }
  cbn [encode_loop]. destruct (encode_entry s Hs) as (k & c & -> & Hk & Hc & Ecode). cbn [entry_bits entry_code].
  rewrite <- Nat2Z.inj_add. set (bs1 := Z.lor _ _).
  assert (zbits (n + k) bs1 = zbits n bs ++ code_bits s) as E1.
  { rewrite Ecode, <- (zbits_join n k bs c Hc). subst bs1. apply zbits_ext. intros i Hi. rewrite !Z.lor_spec. f_equal.
    unfold u64. change 18446744073709551616 with (2 ^ 64). apply Z.mod_pow2_bits_low. lia. }
  destruct (flush_bits_ok 8 (n + k) bs1 out) as (x1 & m1 & E & Hm1 & Hx1 & Hb1); [lia|].
  cbv zeta. rewrite E. mstep.
  destruct (IH m1 bs1 (out ++ x1) Hm1) as (x2 & m2 & bs2 & E2 & Hm2 & Hx2 & Hb2).
  exists (x1 ++ x2), m2, bs2. rewrite E2, <- app_assoc. split; [done|]. split; [done|].
  split; [by apply Forall_app|]. unfold code_of. cbn [flat_map]. fold (code_of data).
  rewrite app_assoc, <- E1, Hb1, <- app_assoc, Hb2, bits_of_app. by rewrite app_assoc.
Qed.

Lemma zbits_ones n : zbits n (Z.ones (Z.of_nat n)) = replicate n true.
Proof.
  assert (forall m, (m <= n)%nat -> zbits m (Z.ones (Z.of_nat n)) = replicate m true) as H; [|by apply H].
  induction m as [|m IH]; intros; simpl; [done|]. rewrite IH by lia. by rewrite Z.ones_spec_low by lia.
Qed.

Lemma huffman_encode_ok data out : Forall is_u8 data ->
  exists x k, huffman_encode data out = Ok (out ++ x) /\ (k < 8)%nat /\ Forall is_u8 x
    /\ bits_of x = code_of data ++ replicate k true.
Proof.
  intros Hd. unfold huffman_encode. case_if.
  { apply Z.eqb_eq in Hif. destruct data; [|zlia]. exists [], 0%nat. rewrite app_nil_r. split; [done|]. split; [lia|done]. }
  destruct (encode_loop_ok data Hd 0 0 out) as (x & m & bs & E & Hm & Hx & Hb); [lia|].
  change (Z.of_nat 0) with 0 in E. cbn [zbits app] in Hb. rewrite E. mstep.
  case_if.
  - set (last := Z.land _ 255). exists (x ++ [last]), (8 - m)%nat. rewrite <- app_assoc. split; [done|]. split; [lia|].
    split; [apply Forall_app; split; [done|constructor; [apply land_255_u8|done]]|].
    rewrite bits_of_app, Hb, <- app_assoc. f_equal. unfold bits_of, last. cbn [flat_map]. rewrite app_nil_r, zbits_land_255.
    rewrite <- (zbits_ones (8 - m)). replace (Z.shiftr 255 (Z.of_nat m)) with (Z.ones (Z.of_nat (8 - m))).
    2: { do 8 (destruct m as [|m]; [reflexivity|]). lia. }
    rewrite <- zbits_join by (rewrite Z.ones_equiv; lia).
    replace (m + (8 - m))%nat with 8%nat by lia. apply zbits_ext. intros i Hi. rewrite !Z.lor_spec. f_equal.
    unfold u64. change 18446744073709551616 with (2 ^ 64). rewrite Z.mod_pow2_bits_low by lia. do 3 f_equal. lia.
  - exists x, 0%nat. split; [done|]. split; [lia|]. split; [done|]. replace m with 0%nat in Hb by lia.
    cbn [zbits] in Hb. by rewrite Hb, !app_nil_r.
Qed.

Lemma huffman_roundtrip_core data : Forall is_u8 data ->
  exists x, huffman_encode data [] = Ok x /\ Forall is_u8 x /\ huffman_decode x [] = Ok data.
Proof.
  intros Hd. destruct (huffman_encode_ok data [] Hd) as (x & k & E & Hk & Hx & Hb). exists x. split; [done|]. split; [done|].
  apply huffman_decode_iff. exists data, k. split; [done|]. split; [done|]. split; [lia|done].
Qed.
