(* ===== verification/Hpack.v ===== *)
(** Header compression: [hpack_encoder.cpp] and [hpack_decoder.cpp] in
    [protocol/http/src/http2].

    Both classes keep the same dynamic table, with the same members; its operations are in
    [HpackTable]. The table is a deque with the newest entry first. [std::tolower] is that of
    the C locale. A vector that is appended to is the result of a function that takes it as
    [out]. A read of the block outside it is a [Fault]; the address of its end, which the
    code takes for an empty string at the end of a block, is not read. *)
From S2P Require Import Prelude Strings Huffman.

Record HpackHeaderField : Type := mkField { field_name : bytes; field_value : bytes }.
#[export] Instance HpackHeaderField_eq_dec : EqDecision HpackHeaderField.
Proof. solve_decision. Defined.

(** * The dynamic table *)
Module HpackTable.

Record DynamicEntry : Type := mkEntry { name : bytes; value : bytes; size : Z }.
Record t : Type := mk {
  dynamic_table_ : list DynamicEntry;
  dynamic_table_size_ : Z;
  max_table_size_ : Z
}.

Definition init : t := mk [] 0 4096.

(** [dynamic_table_size_ -= dynamic_table_.back().size; dynamic_table_.pop_back();] *)
Definition pop_back (h : t) : t :=
  match last (dynamic_table_ h) with
  | None => h
  | Some back => mk (removelast (dynamic_table_ h)) (u64 (dynamic_table_size_ h - size back)) (max_table_size_ h)
  end.

(** [while (cond && !dynamic_table_.empty())] pops; there are as many rounds as entries. *)
Fixpoint pop_while (n : nat) (cond : Z -> bool) (h : t) : t :=
  match n with
  | O => h
  | S n => if cond (dynamic_table_size_ h) then pop_while n cond (pop_back h) else h
  end.
Definition evict (cond : Z -> bool) (h : t) : t := pop_while (length (dynamic_table_ h)) cond h.

Definition set_max_table_size (size : Z) (h : t) : t :=
  evict (fun table_size => size <? table_size) (mk (dynamic_table_ h) (dynamic_table_size_ h) size).

Definition add_to_dynamic_table (name value : bytes) (h : t) : t :=
  let entry_size := 32 + zlen name + zlen value in
  if max_table_size_ h <? entry_size then evict (fun _ => true) h
  else
    let h := evict (fun table_size => max_table_size_ h <? table_size + entry_size) h in
    mk (mkEntry name value entry_size :: dynamic_table_ h) (dynamic_table_size_ h + entry_size) (max_table_size_ h).

End HpackTable.

(** * The encoder *)
Module HpackEncoder.
Import HpackTable.

Definition t : Type := HpackTable.t.
Definition init : t := HpackTable.init.
Definition set_max_table_size : Z -> t -> t := HpackTable.set_max_table_size.
Definition max_table_size (e : t) : Z := max_table_size_ e.
Definition add_to_dynamic_table : bytes -> bytes -> t -> t := HpackTable.add_to_dynamic_table.

Record StaticTableEntry : Type := mkStatic { index : Z; static_name : bytes; static_value : bytes }.
Definition kStaticTable : list StaticTableEntry :=
  [mkStatic 1 (str ":authority") []; mkStatic 2 (str ":method") (str "GET");
   mkStatic 3 (str ":method") (str "POST"); mkStatic 4 (str ":path") (str "/");
   mkStatic 5 (str ":path") (str "/index.html"); mkStatic 6 (str ":scheme") (str "http");
   mkStatic 7 (str ":scheme") (str "https"); mkStatic 8 (str ":status") (str "200");
   mkStatic 9 (str ":status") (str "204"); mkStatic 10 (str ":status") (str "206");
   mkStatic 11 (str ":status") (str "304"); mkStatic 12 (str ":status") (str "400");
   mkStatic 13 (str ":status") (str "404"); mkStatic 14 (str ":status") (str "500");
   mkStatic 15 (str "accept-charset") []; mkStatic 16 (str "accept-encoding") (str "gzip, deflate");
   mkStatic 17 (str "accept-language") []; mkStatic 18 (str "accept-ranges") [];
   mkStatic 19 (str "accept") []; mkStatic 20 (str "access-control-allow-origin") [];
   mkStatic 21 (str "age") []; mkStatic 22 (str "allow") []; mkStatic 23 (str "authorization") [];
   mkStatic 24 (str "cache-control") []; mkStatic 25 (str "content-disposition") [];
   mkStatic 26 (str "content-encoding") []; mkStatic 27 (str "content-language") [];
   mkStatic 28 (str "content-length") []; mkStatic 29 (str "content-location") [];
   mkStatic 30 (str "content-range") []; mkStatic 31 (str "content-type") []; mkStatic 32 (str "cookie") [];
   mkStatic 33 (str "date") []; mkStatic 34 (str "etag") []; mkStatic 35 (str "expect") [];
   mkStatic 36 (str "expires") []; mkStatic 37 (str "from") []; mkStatic 38 (str "host") [];
   mkStatic 39 (str "if-match") []; mkStatic 40 (str "if-modified-since") [];
   mkStatic 41 (str "if-none-match") []; mkStatic 42 (str "if-range") [];
   mkStatic 43 (str "if-unmodified-since") []; mkStatic 44 (str "last-modified") [];
   mkStatic 45 (str "link") []; mkStatic 46 (str "location") []; mkStatic 47 (str "max-forwards") [];
   mkStatic 48 (str "proxy-authenticate") []; mkStatic 49 (str "proxy-authorization") [];
   mkStatic 50 (str "range") []; mkStatic 51 (str "referer") []; mkStatic 52 (str "refresh") [];
   mkStatic 53 (str "retry-after") []; mkStatic 54 (str "server") []; mkStatic 55 (str "set-cookie") [];
   mkStatic 56 (str "strict-transport-security") []; mkStatic 57 (str "transfer-encoding") [];
   mkStatic 58 (str "user-agent") []; mkStatic 59 (str "vary") []; mkStatic 60 (str "via") [];
   mkStatic 61 (str "www-authenticate") []].
Definition kStaticTableSize : Z := 61.

(** The loop over two strings of the same length. *)
Fixpoint eq_ci_loop (a b : bytes) : bool :=
  match a, b with
  | x :: a, y :: b =>
      if negb (StringUtil.lower_ascii_char x =? StringUtil.lower_ascii_char y) then false else eq_ci_loop a b
  | _, _ => true
  end.
Definition str_eq_case_insensitive (a b : bytes) : bool := if negb (zlen a =? zlen b) then false else eq_ci_loop a b.
Definition str_eq_case_insensitive_sv (a b : bytes) : bool := if negb (zlen a =? zlen b) then false else eq_ci_loop a b.

Fixpoint find_dynamic_loop (table : list DynamicEntry) (idx : Z) (name value : bytes) : Z :=
  match table with
  | [] => 0
  | entry :: table =>
      if str_eq_case_insensitive_sv name (HpackTable.name entry) && str_eqb value (HpackTable.value entry)
      then kStaticTableSize + 1 + idx
      else find_dynamic_loop table (idx + 1) name value
  end.
Definition find_dynamic_table_index (name value : bytes) (e : t) : Z :=
  find_dynamic_loop (dynamic_table_ e) 0 name value.

Fixpoint find_dynamic_name_loop (table : list DynamicEntry) (idx : Z) (name : bytes) : Z :=
  match table with
  | [] => 0
  | entry :: table =>
      if str_eq_case_insensitive_sv name (HpackTable.name entry) then kStaticTableSize + 1 + idx
      else find_dynamic_name_loop table (idx + 1) name
  end.
Definition find_dynamic_table_name_index (name : bytes) (e : t) : Z :=
  find_dynamic_name_loop (dynamic_table_ e) 0 name.

Fixpoint find_static_loop (table : list StaticTableEntry) (name value : bytes) : Z :=
  match table with
  | [] => 0
  | entry :: table =>
      if str_eq_case_insensitive name (static_name entry) && str_eqb value (static_value entry)
         && negb (bool_decide (static_value entry = []))
      then index entry
      else find_static_loop table name value
  end.
Definition find_static_table_index (name value : bytes) : Z := find_static_loop kStaticTable name value.

Fixpoint find_static_name_loop (table : list StaticTableEntry) (name : bytes) : Z :=
  match table with
  | [] => 0
  | entry :: table =>
      if str_eq_case_insensitive name (static_name entry) then index entry else find_static_name_loop table name
  end.
Definition find_static_table_name_index (name : bytes) : Z := find_static_name_loop kStaticTable name.

(** [while (value >= 128)]: ten rounds are enough for 64 bits. *)
Fixpoint append_integer_loop (fuel : nat) (value : Z) (out : bytes) : outcome bytes :=
  if 128 <=? value then
    match fuel with
    | O => Diverge
    | S fuel => append_integer_loop fuel (value / 128) (out ++ [u8 (value mod 128 + 128)])
    end
  else Ok (out ++ [u8 value]).
Definition append_prefixed_integer (prefix_bits prefix_pattern value : Z) (out : bytes) : outcome bytes :=
  let prefix_max := Z.shiftl 1 prefix_bits - 1 in
  if value <? prefix_max then Ok (out ++ [u8 (Z.lor prefix_pattern (u8 value))])
  else append_integer_loop 10 (value - prefix_max) (out ++ [u8 (Z.lor prefix_pattern (u8 prefix_max))]).

Definition append_plain_string (value : bytes) (out : bytes) : outcome bytes :=
  out ← append_prefixed_integer 7 0 (zlen value) out;
  Ok (out ++ value).
Definition append_string (value : bytes) (out : bytes) : outcome bytes :=
  if zlen value <? 6 then append_plain_string value out
  else
    huffed ← Huffman.huffman_encode value [];
    if zlen huffed <? zlen value then
      out ← append_prefixed_integer 7 128 (zlen huffed) out;
      Ok (out ++ huffed)
    else append_plain_string value out.

Definition append_indexed (index : Z) (out : bytes) : outcome bytes := append_prefixed_integer 7 128 index out.
Definition append_literal_without_indexing (name_index : Z) (value : bytes) (out : bytes) : outcome bytes :=
  out ← append_prefixed_integer 4 0 name_index out; append_string value out.
Definition append_literal_with_indexing (name_index : Z) (value : bytes) (out : bytes) : outcome bytes :=
  out ← append_prefixed_integer 6 64 name_index out; append_string value out.
Definition append_literal_with_indexing_name (name value : bytes) (out : bytes) : outcome bytes :=
  out ← append_string name (out ++ [64]); append_string value out.
Definition append_literal_with_name (name value : bytes) (out : bytes) : outcome bytes :=
  out ← append_string name (out ++ [0]); append_string value out.

Definition encode_header (name value : bytes) (e : t) (out : bytes) : outcome (bytes * t) :=
  let static_full := find_static_table_index name value in
  if negb (static_full =? 0) then out ← append_indexed static_full out; Ok (out, e)
  else
    let dynamic_full := find_dynamic_table_index name value e in
    if negb (dynamic_full =? 0) then out ← append_indexed dynamic_full out; Ok (out, e)
    else
      let should_index := zlen name + zlen value + 32 in
      if should_index <=? max_table_size_ e then
        let static_name := find_static_table_name_index name in
        out ← (if negb (static_name =? 0) then append_literal_with_indexing static_name value out
               else
                 let dynamic_name := find_dynamic_table_name_index name e in
                 if negb (dynamic_name =? 0) then append_literal_with_indexing dynamic_name value out
                 else append_literal_with_indexing_name name value out);
        Ok (out, add_to_dynamic_table name value e)
      else
        let name_index := find_static_table_name_index name in
        out ← (if negb (name_index =? 0) then append_literal_without_indexing name_index value out
               else append_literal_with_name name value out);
        Ok (out, e).

(** The loop of [Session::send_headers]. *)
Fixpoint encode_headers (headers : list (bytes * bytes)) (e : t) (out : bytes) : outcome (bytes * t) :=
  match headers with
  | [] => Ok (out, e)
  | (name, value) :: headers => '(out, e) ← encode_header name value e out; encode_headers headers e out
  end.

Definition encode_status (status : Z) (e : t) (out : bytes) : outcome (bytes * t) :=
  encode_header (str ":status") (to_string status) e out.
Definition encode_content_type (content_type : bytes) (e : t) (out : bytes) : outcome (bytes * t) :=
  encode_header (str "content-type") content_type e out.
Definition encode_content_length (content_length : Z) (e : t) (out : bytes) : outcome (bytes * t) :=
  encode_header (str "content-length") (to_string content_length) e out.

End HpackEncoder.

(** * The decoder *)
Module HpackDecoder.
Import HpackTable.

Definition t : Type := HpackTable.t.
Definition init : t := HpackTable.init.
Definition set_max_table_size : Z -> t -> t := HpackTable.set_max_table_size.
Definition max_table_size (d : t) : Z := max_table_size_ d.
Definition add_to_dynamic_table : bytes -> bytes -> t -> t := HpackTable.add_to_dynamic_table.

Definition kStaticTable : list HpackHeaderField :=
  [mkField [] []; mkField (str ":authority") []; mkField (str ":method") (str "GET");
   mkField (str ":method") (str "POST"); mkField (str ":path") (str "/");
   mkField (str ":path") (str "/index.html"); mkField (str ":scheme") (str "http");
   mkField (str ":scheme") (str "https"); mkField (str ":status") (str "200");
   mkField (str ":status") (str "204"); mkField (str ":status") (str "206");
   mkField (str ":status") (str "304"); mkField (str ":status") (str "400");
   mkField (str ":status") (str "404"); mkField (str ":status") (str "500");
   mkField (str "accept-charset") []; mkField (str "accept-encoding") (str "gzip, deflate");
   mkField (str "accept-language") []; mkField (str "accept-ranges") []; mkField (str "accept") [];
   mkField (str "access-control-allow-origin") []; mkField (str "age") []; mkField (str "allow") [];
   mkField (str "authorization") []; mkField (str "cache-control") []; mkField (str "content-disposition") [];
   mkField (str "content-encoding") []; mkField (str "content-language") [];
   mkField (str "content-length") []; mkField (str "content-location") []; mkField (str "content-range") [];
   mkField (str "content-type") []; mkField (str "cookie") []; mkField (str "date") [];
   mkField (str "etag") []; mkField (str "expect") []; mkField (str "expires") []; mkField (str "from") [];
   mkField (str "host") []; mkField (str "if-match") []; mkField (str "if-modified-since") [];
   mkField (str "if-none-match") []; mkField (str "if-range") []; mkField (str "if-unmodified-since") [];
   mkField (str "last-modified") []; mkField (str "link") []; mkField (str "location") [];
   mkField (str "max-forwards") []; mkField (str "proxy-authenticate") [];
   mkField (str "proxy-authorization") []; mkField (str "range") []; mkField (str "referer") [];
   mkField (str "refresh") []; mkField (str "retry-after") []; mkField (str "server") [];
   mkField (str "set-cookie") []; mkField (str "strict-transport-security") [];
   mkField (str "transfer-encoding") []; mkField (str "user-agent") []; mkField (str "vary") [];
   mkField (str "via") []; mkField (str "www-authenticate") []].
Definition kStaticTableSize : Z := 61.

(** [while (offset < block.size())]; the shift stops it after five rounds. *)
Fixpoint integer_loop (fuel : nat) (block : bytes) (offset shift out : Z) : outcome (Z * Z) :=
  if offset <? zlen block then
    match fuel with
    | O => Diverge
    | S fuel =>
        b ← rd block offset;
        let offset := offset + 1 in
        let out := u64 (out + Z.shiftl (Z.land b 127) shift) in
        if Z.land b 128 =? 0 then Ok (out, offset)
        else
          let shift := shift + 7 in
          if 28 <? shift then Reject else integer_loop fuel block offset shift out
    end
  else Reject.
(** The value and the offset after it. *)
Definition decode_prefixed_integer (block : bytes) (offset first prefix_bits : Z) : outcome (Z * Z) :=
  let prefix_max := Z.shiftl 1 prefix_bits - 1 in
  let out := Z.land first (u8 prefix_max) in
  if out <? prefix_max then Ok (out, offset) else integer_loop 5 block offset 0 out.

(** [out] is a string that is empty at every call. *)
Definition decode_string_literal (block : bytes) (offset : Z) (out : bytes) : outcome (bytes * Z) :=
  if zlen block <=? offset then Reject
  else
    first ← rd block offset;
    let offset := offset + 1 in
    let huffman := negb (Z.land first 128 =? 0) in
    '(length, offset) ← decode_prefixed_integer block offset first 7;
    if zlen block <? offset + length then Reject
    else
      data ← rd_range block offset length;
      out ← (if huffman then Huffman.huffman_decode data out else Ok data);
      Ok (out, offset + length).

Definition lookup_index (index : Z) (d : t) : outcome HpackHeaderField :=
  if index =? 0 then Reject
  else if index <=? kStaticTableSize then
    if zlen kStaticTable <=? index then Reject
    else match kStaticTable !! Z.to_nat index with Some f => Ok f | None => Fault end
  else
    let dyn_index := index - kStaticTableSize - 1 in
    if zlen (dynamic_table_ d) <=? dyn_index then Reject
    else match dynamic_table_ d !! Z.to_nat dyn_index with
         | Some it => Ok (mkField (name it) (value it))
         | None => Fault
         end.

(** The name of a literal: a string, or that of an entry. *)
Definition decode_name (block : bytes) (off first prefix_bits : Z) (d : t) : outcome (bytes * Z) :=
  if Z.land first (Z.shiftl 1 prefix_bits - 1) =? 0 then decode_string_literal block off []
  else
    '(name_index, off) ← decode_prefixed_integer block off first prefix_bits;
    f ← lookup_index name_index d;
    Ok (field_name f, off).
Definition decode_literal (block : bytes) (off first prefix_bits : Z) (d : t) : outcome (HpackHeaderField * Z) :=
  '(name, off) ← decode_name block off first prefix_bits d;
  '(value, off) ← decode_string_literal block off [];
  Ok (mkField name value, off).

(** One round of the loop: the header that it yields, if any, the offset and the table. *)
Definition decode_one (block : bytes) (off : Z) (d : t) : outcome (option HpackHeaderField * Z * t) :=
  first ← rd block off;
  let off := off + 1 in
  if negb (Z.land first 128 =? 0) then
    '(index, off) ← decode_prefixed_integer block off first 7;
    if index =? 0 then Reject
    else f ← lookup_index index d; Ok (Some f, off, d)
  else if Z.land first 192 =? 64 then
    '(f, off) ← decode_literal block off first 6 d;
    Ok (Some f, off, add_to_dynamic_table (field_name f) (field_value f) d)
  else if (Z.land first 240 =? 0) || (Z.land first 240 =? 16) then
    '(f, off) ← decode_literal block off first 4 d;
    Ok (Some f, off, d)
  else if Z.land first 224 =? 32 then
    '(new_max_size, off) ← decode_prefixed_integer block off first 5;
    Ok (None, off, set_max_table_size new_max_size d)
  else Reject.

(** [while (off < block.size())]: a round consumes a byte. The flag is the result; the
    headers are those before the failure when it is false. *)
Fixpoint decode_loop (fuel : nat) (block : bytes) (off : Z) (out_headers : list HpackHeaderField) (d : t)
  : outcome (bool * list HpackHeaderField * t) :=
  if off <? zlen block then
    match fuel with
    | O => Diverge
    | S fuel =>
        match decode_one block off d with
        | Ok (f, off, d) =>
            decode_loop fuel block off (out_headers ++ match f with Some f => [f] | None => [] end) d
        | Reject => Ok (false, out_headers, d)
        | Fault => Fault
        | Diverge => Diverge
        end
    end
  else Ok (true, out_headers, d).
Definition decode (block : bytes) (d : t) : outcome (bool * list HpackHeaderField * t) :=
  decode_loop (length block) block 0 [] d.

End HpackDecoder.
