(* ===== verification/HpackFacts.v ===== *)
(** Lemmas on header compression: the dynamic table, integers and strings on the wire, and
    one header of the encoder read by the decoder.

    The names of two tables that talk to each other agree up to ASCII case only, for the
    encoder finds names regardless of case: [table_ci] is this relation, and the operations
    of the table are [Proper] for it. *)
From S2P Require Import Prelude Strings Huffman Hpack.
Import HpackTable.

(** * Names up to case *)
Definition ci_eq (a b : bytes) : Prop := StringUtil.lower_ascii a = StringUtil.lower_ascii b.
#[export] Instance ci_eq_equiv : Equivalence ci_eq.
Proof. split; repeat intro; unfold ci_eq in *; congruence. Qed.
Definition is_lower (a : bytes) : Prop := StringUtil.lower_ascii a = a.

Lemma ci_eq_zlen a b : ci_eq a b -> zlen a = zlen b.
Proof. unfold ci_eq, StringUtil.lower_ascii, zlen. intros H. apply (f_equal length) in H. rewrite !length_map in H. lia. Qed.
#[export] Instance zlen_ci : Proper (ci_eq ==> eq) (@zlen Z).
Proof. intros a b. apply ci_eq_zlen. Qed.
Lemma ci_lower a b : ci_eq a b -> is_lower a -> is_lower b -> a = b.
Proof. unfold ci_eq, is_lower. congruence. Qed.

Lemma eq_ci_loop_ok a b : length a = length b -> HpackEncoder.eq_ci_loop a b = true <-> ci_eq a b.
Proof.
  unfold ci_eq, StringUtil.lower_ascii. revert b. induction a as [|x a IH]; destruct b as [|y b]; simpl; intros Hl; try done.
  injection Hl as Hl. destruct (Z.eqb_spec (StringUtil.lower_ascii_char x) (StringUtil.lower_ascii_char y)) as [->|Hne]; simpl.
  - rewrite (IH b Hl). split; [congruence|by intros [=]].
  - split; [done|]. by intros [= ?].
Qed.
Lemma str_eq_ci a b : HpackEncoder.str_eq_case_insensitive_sv a b = true <-> ci_eq a b.
Proof.
  unfold HpackEncoder.str_eq_case_insensitive_sv. destruct (Z.eqb_spec (zlen a) (zlen b)) as [He|Hne]; simpl.
  - apply eq_ci_loop_ok. unfold zlen in He. lia.
  - split; [done|]. by intros H%ci_eq_zlen.
Qed.
Lemma str_eq_static a b : HpackEncoder.str_eq_case_insensitive a b = true <-> ci_eq a b.
Proof. apply str_eq_ci. Qed.
Lemma str_eqb_true a b : str_eqb a b = true <-> a = b.
Proof. unfold str_eqb. apply bool_decide_eq_true. Qed.

(** * The dynamic table *)
Definition entry_ci (x y : DynamicEntry) : Prop := ci_eq (name x) (name y) /\ value x = value y /\ size x = size y.
Definition table_ci (h k : t) : Prop :=
  Forall2 entry_ci (dynamic_table_ h) (dynamic_table_ k)
  /\ dynamic_table_size_ h = dynamic_table_size_ k /\ max_table_size_ h = max_table_size_ k.

(** The size of the table is that of its entries, and it keeps to its limit. *)
Definition entries_size (l : list DynamicEntry) : Z := foldr (fun x n => size x + n) 0 l.
Definition entry_wf (x : DynamicEntry) : Prop := size x = 32 + zlen (name x) + zlen (value x).
Definition table_wf (h : t) : Prop :=
  Forall entry_wf (dynamic_table_ h) /\ dynamic_table_size_ h = entries_size (dynamic_table_ h)
  /\ dynamic_table_size_ h <= max_table_size_ h.

(** What eviction needs and keeps; the limit may have been lowered below the size. *)
Definition table_sized (h : t) : Prop :=
  Forall entry_wf (dynamic_table_ h) /\ dynamic_table_size_ h = entries_size (dynamic_table_ h)
  /\ dynamic_table_size_ h < 18446744073709551616.

Lemma entries_size_app l k : entries_size (l ++ k) = entries_size l + entries_size k.
Proof. induction l; simpl; [done|]. rewrite IHl. lia. Qed.
Lemma entries_size_cons x l : entries_size (x :: l) = size x + entries_size l.
Proof. done. Qed.
Lemma entries_size_len l : Forall entry_wf l -> 32 * zlen l <= entries_size l.
Proof. induction 1 as [|x l Hx _ IH]; [done|]. unfold entry_wf in Hx. simpl. zlia. Qed.
Lemma entries_size_nonneg l : Forall entry_wf l -> 0 <= entries_size l.
Proof. intros H%entries_size_len. zlia. Qed.

Lemma pop_back_snoc l x size max : pop_back (mk (l ++ [x]) size max) = mk l (u64 (size - HpackTable.size x)) max.
Proof. unfold pop_back. cbn. by rewrite last_snoc, removelast_last. Qed.
Lemma pop_back_sized h : table_sized h -> dynamic_table_ h <> [] ->
  exists x, dynamic_table_ h = dynamic_table_ (pop_back h) ++ [x] /\ table_sized (pop_back h)
    /\ max_table_size_ (pop_back h) = max_table_size_ h.
Proof.
  destruct h as [l n m]. cbn. intros (Hf & Hs & Hb) Hne. cbn in *.
  destruct (exists_last Hne) as (l' & x & ->). rewrite pop_back_snoc. cbn.
  apply Forall_app in Hf as [Hf Hx]. apply Forall_inv in Hx. rewrite entries_size_app in Hs. simpl in Hs.
  pose proof (entries_size_nonneg _ Hf). exists x. split; [done|]. split; [|done]. unfold entry_wf in Hx.
  assert (u64 (n - size x) = entries_size l') as E.
  { unfold u64. rewrite Z.mod_small; [lia|]. zlia. }
  split; [done|]. cbn. rewrite E. split; [done|]. zlia.
Qed.

(** Eviction drops entries from the back until the condition is false or none is left. *)
Lemma pop_while_sized n cond h : table_sized h -> (length (dynamic_table_ h) <= n)%nat ->
  let h' := pop_while n cond h in
  table_sized h' /\ max_table_size_ h' = max_table_size_ h
  /\ (exists back, dynamic_table_ h = dynamic_table_ h' ++ back)
  /\ (dynamic_table_ h' = [] \/ cond (dynamic_table_size_ h') = false).
Proof.
  revert h. induction n as [|n IH]; intros h Hs Hn; cbn.
  - split; [done|]. split; [done|]. split; [exists []; by rewrite app_nil_r|]. left. by destruct (dynamic_table_ h); [|cbn in Hn; lia].
  - destruct (cond (dynamic_table_size_ h)) eqn:Hc.
    2: { split; [done|]. split; [done|]. split; [exists []; by rewrite app_nil_r|]. by right. }
    destruct (dynamic_table_ h) as [|y l] eqn:El.
    + assert (pop_back h = h) as -> by (unfold pop_back; by rewrite El).
      destruct (IH h Hs) as (H1 & H2 & (back & H3) & H4); [rewrite El; cbn; lia|].
      split; [done|]. split; [done|]. split; [|done]. exists back. by rewrite <- H3, El.
    + destruct (pop_back_sized h Hs) as (x & E & Hs' & Hm); [by rewrite El|].
      destruct (IH (pop_back h) Hs') as (H1 & H2 & (back & H3) & H4).
      { rewrite El in E. apply (f_equal length) in E. rewrite length_app in E. cbn in E, Hn. lia. }
      split; [done|]. split; [congruence|]. split; [|done].
      exists (back ++ [x]). by rewrite <- El, E, H3, <- app_assoc.
Qed.

Lemma table_wf_sized h : table_wf h -> max_table_size_ h < 18446744073709551616 -> table_sized h.
Proof. intros (? & ? & ?) ?. split; [done|]. split; [done|]. lia. Qed.
Lemma table_sized_empty h : table_sized h -> dynamic_table_ h = [] -> dynamic_table_size_ h = 0.
Proof. intros (_ & -> & _) ->. done. Qed.

Lemma set_max_wf n h : 0 <= n -> table_sized h -> table_wf (set_max_table_size n h) /\ max_table_size_ (set_max_table_size n h) = n.
Proof.
  intros Hn Hs. unfold set_max_table_size, evict. set (h0 := mk _ _ n).
  destruct (pop_while_sized (length (dynamic_table_ h0)) (fun s => n <? s) h0) as (H1 & H2 & _ & H4); [done|done|].
  cbn beta zeta in *. split; [|done]. destruct H1 as (Hf & Hsz & Hb). split; [done|]. split; [done|].
  rewrite H2. change (max_table_size_ h0) with n.
  destruct H4 as [H4|H4]; [|lia]. rewrite Hsz, H4. done.
Qed.

Lemma add_wf n v h : table_wf h -> max_table_size_ h < 18446744073709551616 ->
  table_wf (add_to_dynamic_table n v h) /\ max_table_size_ (add_to_dynamic_table n v h) = max_table_size_ h.
Proof.
  intros Hw Hm. pose proof (table_wf_sized h Hw Hm) as Hs. unfold add_to_dynamic_table, evict. cbv zeta.
  assert (0 <= max_table_size_ h) as Hm0.
  { destruct Hw as (Hf & Hsz & Hle). pose proof (entries_size_nonneg _ Hf). lia. }
  case_if.
  - destruct (pop_while_sized (length (dynamic_table_ h)) (fun _ => true) h Hs (le_n _)) as (H1 & H2 & _ & [H4|H4]); [|done].
    split; [|done]. destruct H1 as (Hf & Hsz & _). split; [done|]. split; [done|]. rewrite H2, Hsz, H4. done.
  - destruct (pop_while_sized (length (dynamic_table_ h))
      (fun s => max_table_size_ h <? s + (32 + zlen n + zlen v)) h Hs (le_n _)) as (H1 & H2 & _ & H4).
    cbn beta zeta in *. set (k := pop_while _ _ h) in *. split; [|done]. destruct H1 as (Hf & Hsz & _).
    split; [constructor; [done|done]|].
    cbn [dynamic_table_size_ dynamic_table_ max_table_size_]. rewrite entries_size_cons, Hsz, H2. cbn [size].
    split; [lia|]. destruct H4 as [H4|H4]; [|lia]. rewrite H4. cbn. lia.
Qed.

(** ** The operations respect the relation *)
#[export] Instance pop_back_ci : Proper (table_ci ==> table_ci) pop_back.
Proof.
  intros [l n m] [l' n' m'] (Hf & Hs & Hm). cbn in *. subst.
  destruct (decide (l = [])) as [->|Hne]; [apply Forall2_nil_inv_l in Hf as ->; done|].
  destruct (exists_last Hne) as (k & x & ->).
  apply Forall2_app_inv_l in Hf as (k' & xs & Hk & Hx & ->).
  inversion Hx as [|? y ? ? Hxy Hnil]; subst. apply Forall2_nil_inv_l in Hnil as ->.
  rewrite !pop_back_snoc. destruct Hxy as (_ & _ & ->). done.
Qed.
#[export] Instance pop_while_ci n cond : Proper (table_ci ==> table_ci) (pop_while n cond).
Proof.
  induction n as [|n IH]; intros h k H; cbn; [done|]. destruct H as (Hf & Hs & Hm). rewrite <- Hs.
  case_if; [|done]. apply IH. by apply pop_back_ci.
Qed.
#[export] Instance evict_ci cond : Proper (table_ci ==> table_ci) (evict cond).
Proof.
  intros h k H. unfold evict. destruct H as (Hf & Hs & Hm). rewrite (Forall2_length _ _ _ Hf). by apply pop_while_ci.
Qed.
#[export] Instance set_max_ci : Proper (eq ==> table_ci ==> table_ci) set_max_table_size.
Proof. intros n ? <- h k (Hf & Hs & Hm). unfold set_max_table_size. apply evict_ci. done. Qed.
#[export] Instance add_ci : Proper (ci_eq ==> eq ==> table_ci ==> table_ci) add_to_dynamic_table.
Proof.
  intros a b Hab v ? <- h k H. unfold add_to_dynamic_table. cbv zeta. rewrite <- (ci_eq_zlen _ _ Hab).
  assert (max_table_size_ h = max_table_size_ k) as Hm by apply H. rewrite <- Hm.
  case_if; [by apply evict_ci|].
  pose proof (evict_ci (fun s => max_table_size_ h <? s + (32 + zlen a + zlen v)) _ _ H) as (Hf & Hs & Hm').
  split; [|split; cbn; [congruence|done]]. cbn. constructor; [done|done].
Qed.

(** * Reading back what was written *)
(** A reader that meets [x] in a block returns [a] and stops behind it. *)
Definition reads {A} (read : bytes -> Z -> outcome (A * Z)) (x : bytes) (a : A) : Prop :=
  forall pre post, read (pre ++ x ++ post) (zlen pre) = Ok (a, zlen pre + zlen x).

(** Every step of a reader within a block. *)
Lemma block_at pre c x post :
  (zlen (pre ++ (c :: x) ++ post) <=? zlen pre) = false
  /\ (zlen pre <? zlen (pre ++ (c :: x) ++ post)) = true
  /\ rd (pre ++ (c :: x) ++ post) (zlen pre) = Ok c
  /\ pre ++ (c :: x) ++ post = (pre ++ [c]) ++ x ++ post /\ zlen pre + 1 = zlen (pre ++ [c]).
Proof.
  pose proof (zlen_nonneg post). pose proof (zlen_nonneg x).
  split; [rewrite !zlen_app, zlen_cons; lia|]. split; [rewrite !zlen_app, zlen_cons; lia|].
  split; [apply rd_app|]. split; [by rewrite <- app_assoc|zlia].
Qed.

(** ** Integers *)
Lemma integer_byte b : is_u8 b -> Z.land b 127 = b mod 128 /\ (Z.land b 128 =? 0) = (b <? 128).
Proof.
  intros Hb. split; [apply land_127|].
  apply (on_bytes_all (fun b => bool_decide ((Z.land b 128 =? 0) = (b <? 128)))) in Hb; [|vm_compute; reflexivity].
  by apply bool_decide_eq_true in Hb.
Qed.

(** The last byte of an integer. *)
Lemma integer_last m pre v post shift acc : 0 <= v < 128 -> 0 <= shift <= 28 -> 0 <= acc < 256 + 2 ^ shift -> (0 < m)%nat ->
  HpackDecoder.integer_loop m (pre ++ [u8 v] ++ post) (zlen pre) shift acc = Ok (acc + v * 2 ^ shift, zlen pre + 1).
Proof.
  intros Hv Hs Hacc Hm. destruct m as [|m]; [lia|]. cbn [HpackDecoder.integer_loop].
  assert (0 < 2 ^ shift <= 2 ^ 28) as Hp by (split; [apply Z.pow_pos_nonneg; lia|apply Z.pow_le_mono_r; lia]).
  change (2 ^ 28) with 268435456 in Hp.
  destruct (block_at pre (u8 v) [] post) as (_ & -> & -> & _ & E). mstep.
  rewrite u8_id by (unfold is_u8; lia). destruct (integer_byte v) as [-> ->]; [unfold is_u8; lia|].
  rewrite Z.mod_small by lia. destruct (Z.ltb_spec v 128); [|lia]. rewrite Z.shiftl_mul_pow2 by lia.
  unfold u64. rewrite Z.mod_small by nia. done.
Qed.

(** [n] more bytes may follow the first one, and five are the most that the decoder takes. *)
Lemma integer_loop_ok n : forall fuel v shift acc out, (n < fuel)%nat -> (n < 5)%nat -> 0 <= v < 128 ^ (Z.of_nat n + 1) ->
  0 <= acc < 256 + 2 ^ shift -> shift = 7 * (4 - Z.of_nat n) ->
  exists x, HpackEncoder.append_integer_loop fuel v out = Ok (out ++ x) /\ Forall is_u8 x
    /\ forall pre post m, (n < m)%nat ->
       HpackDecoder.integer_loop m (pre ++ x ++ post) (zlen pre) shift acc = Ok (acc + v * 2 ^ shift, zlen pre + zlen x).
Proof.
  induction n as [|n IH]; intros fuel v shift acc out Hfuel Hn Hv Hacc Hshift.
  all: destruct fuel as [|fuel]; [lia|]; cbn [HpackEncoder.append_integer_loop].
  all: destruct (Z.leb_spec 128 v) as [Hge|Hlt].
  1: change (128 ^ (Z.of_nat 0 + 1)) with 128 in Hv; lia.
  1, 3: exists [u8 v]; split; [done|]; split; [repeat constructor; apply u8_range|];
    intros; apply integer_last; lia.
  assert (0 < 2 ^ shift <= 2 ^ 28) as Hp by (split; [apply Z.pow_pos_nonneg; lia|apply Z.pow_le_mono_r; lia]).
  change (2 ^ 28) with 268435456 in Hp.
  assert (128 ^ (Z.of_nat (S n) + 1) = 128 * 128 ^ (Z.of_nat n + 1)) as Epow.
  { replace (Z.of_nat (S n) + 1) with (Z.succ (Z.of_nat n + 1)) by lia. apply Z.pow_succ_r. lia. }
  assert (2 ^ (shift + 7) = 2 ^ shift * 128) as Es by (rewrite Z.pow_add_r by lia; done).
  set (b := v mod 128 + 128). assert (is_u8 b) as Hb by (unfold is_u8, b; pose proof (Z.mod_pos_bound v 128); lia).
  pose proof (Z.div_mod v 128) as Hdm. pose proof (Z.mod_pos_bound v 128) as Hmb.
  destruct (IH fuel (v / 128) (shift + 7) (acc + v mod 128 * 2 ^ shift) (out ++ [u8 b])) as (x & E & Hx & Hread);
    [lia|lia|split; [apply Z.div_pos; lia|apply Z.div_lt_upper_bound; lia]|nia|lia|].
  exists (u8 b :: x). rewrite E, <- app_assoc. split; [done|]. split; [constructor; [apply u8_range|done]|].
  intros pre post m Hm. destruct m as [|m]; [lia|]. cbn [HpackDecoder.integer_loop].
  destruct (block_at pre (u8 b) x post) as (_ & -> & -> & Eb & Ez). mstep.
  rewrite u8_id in * by done. destruct (integer_byte b) as [-> ->]; [done|]. destruct (Z.ltb_spec b 128); [unfold b in *; lia|].
  destruct (Z.ltb_spec 28 (shift + 7)); [lia|]. rewrite Eb, Ez.
  assert (b mod 128 = v mod 128) as -> by (unfold b; rewrite <- Zplus_mod_idemp_r, Z.add_0_r, Zmod_mod; done).
  rewrite Z.shiftl_mul_pow2 by lia. unfold u64. rewrite Z.mod_small by nia.
  rewrite Hread by lia. do 2 f_equal; [rewrite Es; nia|zlia].
Qed.

(** The three prefixes of the format, with their patterns: [bits] of an octet are a number. *)
Inductive prefix : Z -> Z -> Prop :=
| prefix_indexed : prefix 7 128
| prefix_plain : prefix 7 0
| prefix_indexing : prefix 6 64
| prefix_literal : prefix 4 0.

(** The first octet of an integer is the pattern plus a number below [2 ^ bits]. *)
Definition first_ok (bits pattern : Z) : bool :=
  forallb (fun k => let f := pattern + k in
    bool_decide (Z.lor pattern k = f) && bool_decide (Z.land f (2 ^ bits - 1) = k)
    && (0 <=? f) && (f <? 256))
    (map Z.of_nat (seq 0 (Z.to_nat (2 ^ bits)))).
Lemma first_octet bits pattern k : prefix bits pattern -> 0 <= k < 2 ^ bits ->
  Z.lor pattern k = pattern + k /\ Z.land (pattern + k) (2 ^ bits - 1) = k /\ is_u8 (pattern + k).
Proof.
  intros Hp Hk. assert (first_ok bits pattern = true) as H by (destruct Hp; vm_compute; reflexivity).
  unfold first_ok in H. rewrite forallb_forall in H. specialize (H k). cbv zeta in H.
  assert (In k (map Z.of_nat (seq 0 (Z.to_nat (2 ^ bits))))) as Hin.
  { apply in_map_iff. exists (Z.to_nat k). split; [lia|]. apply in_seq. lia. }
  specialize (H Hin). apply andb_true_iff in H as [H H3]. apply andb_true_iff in H as [H H2]. apply andb_true_iff in H as [H0 H1].
  apply bool_decide_eq_true in H0, H1. unfold is_u8. lia.
Qed.

Lemma prefixed_integer_ok bits pattern v out : prefix bits pattern -> 0 <= v < 34359738368 ->
  exists k x, HpackEncoder.append_prefixed_integer bits pattern v out = Ok (out ++ pattern + k :: x)
    /\ 0 <= k < 2 ^ bits /\ (v < 2 ^ bits - 1 -> k = v) /\ (k = 0 -> v = 0) /\ Forall is_u8 (pattern + k :: x)
    /\ forall pre post, HpackDecoder.decode_prefixed_integer (pre ++ x ++ post) (zlen pre) (pattern + k) bits = Ok (v, zlen pre + zlen x).
Proof.
  intros Hp Hv. assert (0 <= bits /\ 8 < 2 ^ bits <= 128) as [Hb0 Hbits] by (destruct Hp; done).
  unfold HpackEncoder.append_prefixed_integer, HpackDecoder.decode_prefixed_integer. cbv zeta.
  rewrite Z.shiftl_1_l, (u8_id (2 ^ bits - 1)) by (unfold is_u8; lia).
  destruct (Z.ltb_spec v (2 ^ bits - 1)) as [Hlt|Hge].
  - destruct (first_octet bits pattern v Hp) as (E1 & E2 & E3); [lia|].
    exists v, []. rewrite (u8_id v) by (unfold is_u8; lia). rewrite E1, u8_id by done. split; [done|].
    split; [lia|]. split; [done|]. split; [done|]. split; [by apply Forall_singleton|].
    intros pre post. rewrite E2. destruct (Z.ltb_spec v (2 ^ bits - 1)); [|lia]. do 2 f_equal. zlia.
  - destruct (first_octet bits pattern (2 ^ bits - 1) Hp) as (E1 & E2 & E3); [lia|].
    destruct (integer_loop_ok 4 10 (v - (2 ^ bits - 1)) 0 (2 ^ bits - 1) (out ++ [u8 (Z.lor pattern (2 ^ bits - 1))]))
      as (x & E & Hx & Hread); [lia|lia|change (128 ^ (Z.of_nat 4 + 1)) with 34359738368; lia|change (2 ^ 0) with 1; lia|done|].
    exists (2 ^ bits - 1), x. rewrite E, <- app_assoc, E1, u8_id by done. split; [done|].
    split; [lia|]. split; [lia|]. split; [lia|]. split; [by constructor|].
    intros pre post. rewrite E2, Z.ltb_irrefl, Hread by lia. do 2 f_equal. change (2 ^ 0) with 1. lia.
Qed.

(** ** Strings *)
Definition str_wf (s : bytes) : Prop := Forall is_u8 s /\ zlen s < 34359738368.

Lemma plain_flag k : 0 <= k < 2 ^ 7 -> (Z.land (0 + k) 128 =? 0) = true.
Proof.
  intros Hk. change (2 ^ 7) with 128 in Hk. assert (is_u8 k) as Hu by (unfold is_u8; lia).
  rewrite Z.add_0_l, (proj2 (integer_byte k Hu)). lia.
Qed.
Lemma huffman_flag k : 0 <= k < 2 ^ 7 -> (Z.land (128 + k) 128 =? 0) = false.
Proof.
  intros Hk. change (2 ^ 7) with 128 in Hk. assert (is_u8 (128 + k)) as Hu by (unfold is_u8; lia).
  rewrite (proj2 (integer_byte _ Hu)). lia.
Qed.

Definition read_string (block : bytes) (off : Z) := HpackDecoder.decode_string_literal block off [].

(** A length behind a flag, and that many bytes: what the reader makes of them. *)
Lemma read_string_at pattern k x data s : prefix 7 pattern -> 0 <= k < 2 ^ 7 ->
  (forall pre post, HpackDecoder.decode_prefixed_integer (pre ++ x ++ post) (zlen pre) (pattern + k) 7 = Ok (zlen data, zlen pre + zlen x)) ->
  (if negb (Z.land (pattern + k) 128 =? 0) then Huffman.huffman_decode data [] else Ok data) = Ok s ->
  reads read_string (pattern + k :: x ++ data) s.
Proof.
  intros Hp Hk Hint Hs pre post. unfold read_string, HpackDecoder.decode_string_literal.
  destruct (block_at pre (pattern + k) (x ++ data) post) as (-> & _ & -> & E & Ez). mstep. rewrite E, Ez, <- (app_assoc x data post).
  rewrite Hint. mstep.
  replace ((pre ++ [pattern + k]) ++ x ++ data ++ post) with (((pre ++ [pattern + k]) ++ x) ++ data ++ post) by by rewrite <- !app_assoc.
  pose proof (zlen_nonneg post). case_if; [rewrite !zlen_app in Hif; lia|].
  rewrite <- zlen_app, rd_range_app. mstep. rewrite Hs. mstep. do 2 f_equal. zlia.
Qed.

Lemma append_plain_ok s out : str_wf s -> exists x, HpackEncoder.append_plain_string s out = Ok (out ++ x)
  /\ Forall is_u8 x /\ reads read_string x s.
Proof.
  intros [Hu Hl]. unfold HpackEncoder.append_plain_string.
  destruct (prefixed_integer_ok 7 0 (zlen s) out prefix_plain) as (k & x & -> & Hk & _ & _ & Hx & Hread); [zlia|]. mstep.
  exists (0 + k :: x ++ s). rewrite <- app_assoc. split; [done|]. split; [apply (Forall_app _ (_ :: x) s); done|].
  apply read_string_at; [constructor|done|done|]. by rewrite plain_flag.
Qed.
Lemma append_string_ok s out : str_wf s -> exists x, HpackEncoder.append_string s out = Ok (out ++ x)
  /\ Forall is_u8 x /\ reads read_string x s.
Proof.
  intros Hs. unfold HpackEncoder.append_string. case_if; [by apply append_plain_ok|].
  destruct (huffman_roundtrip_core s (proj1 Hs)) as (h & -> & Hh & Hd). mstep.
  case_if; [|by apply append_plain_ok]. destruct Hs as [Hu Hl].
  destruct (prefixed_integer_ok 7 128 (zlen h) out prefix_indexed) as (k & x & -> & Hk & _ & _ & Hx & Hread); [zlia|]. mstep.
  exists (128 + k :: x ++ h). rewrite <- app_assoc. split; [done|]. split; [apply (Forall_app _ (_ :: x) h); done|].
  apply read_string_at; [constructor|done|done|]. by rewrite huffman_flag.
Qed.

(** ** The indexes that the encoder finds *)
Definition lower_table (h : t) : Prop := Forall (fun x => is_lower (name x)) (dynamic_table_ h).

(** A header that the decoder yields for the one that was given. *)
Definition field_ci (f : HpackHeaderField) (h : bytes * bytes) : Prop := ci_eq (field_name f) h.1 /\ field_value f = h.2.

(** Entry [i] of the static table of the encoder is the decoder's. *)
Lemma static_tables_agree : forallb (fun e =>
    match HpackDecoder.kStaticTable !! Z.to_nat (HpackEncoder.index e) with
    | Some f => (0 <? HpackEncoder.index e) && (HpackEncoder.index e <=? 61)
                && bool_decide (f = mkField (HpackEncoder.static_name e) (HpackEncoder.static_value e))
                && bool_decide (StringUtil.lower_ascii (HpackEncoder.static_name e) = HpackEncoder.static_name e)
    | None => false
    end) HpackEncoder.kStaticTable = true.
Proof. vm_compute. reflexivity. Qed.
Lemma static_entry e d : e ∈ HpackEncoder.kStaticTable ->
  0 < HpackEncoder.index e <= 61 /\ is_lower (HpackEncoder.static_name e)
  /\ HpackDecoder.lookup_index (HpackEncoder.index e) d = Ok (mkField (HpackEncoder.static_name e) (HpackEncoder.static_value e)).
Proof.
  intros He. pose proof static_tables_agree as H. rewrite forallb_forall in H.
  specialize (H e). rewrite <- list_elem_of_In in H. specialize (H He). cbv beta in H.
  unfold HpackDecoder.lookup_index, HpackDecoder.kStaticTableSize.
  destruct (HpackDecoder.kStaticTable !! _) as [f|]; [|done].
  apply andb_true_iff in H as [H H4]. apply andb_true_iff in H as [H H3]. apply andb_true_iff in H as [H1 H2].
  apply bool_decide_eq_true in H3 as ->. apply bool_decide_eq_true in H4.
  split; [lia|]. split; [done|]. change (zlen HpackDecoder.kStaticTable) with 62.
  destruct (Z.eqb_spec (HpackEncoder.index e) 0); [lia|]. rewrite H2. by destruct (Z.leb_spec 62 (HpackEncoder.index e)); [lia|].
Qed.

Lemma find_static_loop_ok l name value : (forall e, e ∈ l -> 0 < HpackEncoder.index e) ->
  HpackEncoder.find_static_loop l name value <> 0 ->
  exists e, e ∈ l /\ HpackEncoder.index e = HpackEncoder.find_static_loop l name value
    /\ ci_eq name (HpackEncoder.static_name e) /\ HpackEncoder.static_value e = value.
Proof.
  induction l as [|e l IH]; cbn; intros Hpos Hne; [done|]. case_if.
  - apply andb_true_iff in Hif as [H _]. apply andb_true_iff in H as [H1 H2]. apply str_eq_static in H1. apply str_eqb_true in H2.
    exists e. split; [by left|done].
  - destruct IH as (e' & He & ?); [intros; apply Hpos; by right|done|]. exists e'. split; [by right|done].
Qed.
Lemma find_static_name_ok l name : HpackEncoder.find_static_name_loop l name <> 0 ->
  exists e, e ∈ l /\ HpackEncoder.index e = HpackEncoder.find_static_name_loop l name /\ ci_eq name (HpackEncoder.static_name e).
Proof.
  induction l as [|e l IH]; cbn; intros Hne; [done|]. case_if.
  - apply str_eq_static in Hif. exists e. split; [by left|done].
  - destruct IH as (e' & He & ?); [done|]. exists e'. split; [by right|done].
Qed.

Lemma find_dynamic_loop_ok l idx name value : 0 <= idx -> HpackEncoder.find_dynamic_loop l idx name value <> 0 ->
  exists i x, l !! i = Some x /\ HpackEncoder.find_dynamic_loop l idx name value = 62 + idx + Z.of_nat i
    /\ ci_eq name (HpackTable.name x) /\ HpackTable.value x = value.
Proof.
  revert idx. induction l as [|x l IH]; intros idx Hi; cbn [HpackEncoder.find_dynamic_loop]; intros Hne; [done|].
  unfold HpackEncoder.kStaticTableSize in *. case_if.
  - apply andb_true_iff in Hif as [H1 H2]. apply str_eq_ci in H1. apply str_eqb_true in H2.
    exists 0%nat, x. split; [done|]. split; [lia|done].
  - destruct (IH (idx + 1)) as (i & y & Hl & E & ?); [lia|done|]. exists (S i), y. split; [done|]. split; [|done]. rewrite E. lia.
Qed.
Lemma find_dynamic_name_ok l idx name : 0 <= idx -> HpackEncoder.find_dynamic_name_loop l idx name <> 0 ->
  exists i x, l !! i = Some x /\ HpackEncoder.find_dynamic_name_loop l idx name = 62 + idx + Z.of_nat i /\ ci_eq name (HpackTable.name x).
Proof.
  revert idx. induction l as [|x l IH]; intros idx Hi; cbn [HpackEncoder.find_dynamic_name_loop]; intros Hne; [done|].
  unfold HpackEncoder.kStaticTableSize in *. case_if.
  - apply str_eq_ci in Hif. exists 0%nat, x. split; [done|]. split; [lia|done].
  - destruct (IH (idx + 1)) as (i & y & Hl & E & ?); [lia|done|]. exists (S i), y. split; [done|]. split; [|done]. rewrite E. lia.
Qed.

(** An index that stands for a name: the decoder finds it, in a table that is related. *)
Definition index_for (i : Z) (d : t) (name : bytes) (f : HpackHeaderField) : Prop :=
  0 < i < 34359738368 /\ HpackDecoder.lookup_index i d = Ok f /\ ci_eq (field_name f) name
  /\ (lower_table d -> is_lower (field_name f)).

Lemma lookup_dynamic i x e d : table_wf e -> max_table_size_ e < 4294967296 -> table_ci e d ->
  dynamic_table_ e !! i = Some x ->
  exists f, index_for (62 + Z.of_nat i) d (name x) f /\ field_value f = value x.
Proof.
  intros (Hf & Hs & Hm) Hmax (H2 & _ & _) Hl.
  destruct (Forall2_lookup_l _ _ _ _ _ H2 Hl) as (y & Hy & (Hn & Hv & _)).
  apply lookup_lt_Some in Hl as Hlt. pose proof (lookup_lt_Some _ _ _ Hy) as Hlty. pose proof (entries_size_len _ Hf) as Hlen.
  exists (mkField (name y) (value y)). split; [|done]. split; [unfold zlen in *; lia|].
  split; [|split; [by symmetry|]].
  - unfold HpackDecoder.lookup_index, HpackDecoder.kStaticTableSize. case_if; [lia|]. case_if; [lia|]. cbv zeta.
    case_if; [unfold zlen in *; lia|]. replace (Z.to_nat _) with i by lia. by rewrite Hy.
  - intros Hlow. unfold lower_table in Hlow. rewrite Forall_lookup in Hlow. by apply (Hlow i).
Qed.

Lemma static_full_ok name value d : HpackEncoder.find_static_table_index name value <> 0 ->
  exists f, index_for (HpackEncoder.find_static_table_index name value) d name f /\ field_value f = value.
Proof.
  intros H. destruct (find_static_loop_ok HpackEncoder.kStaticTable name value) as (e & He & E & Hn & Hv).
  { intros e He. by apply (static_entry e d). }
  { done. }
  unfold HpackEncoder.find_static_table_index in *. destruct (static_entry e d He) as (Hr & Hlow & Hl). rewrite E in *.
  eexists. split; [split; [lia|split; [exact Hl|split; [by symmetry|done]]]|done].
Qed.
Lemma static_name_ok name d : HpackEncoder.find_static_table_name_index name <> 0 ->
  exists f, index_for (HpackEncoder.find_static_table_name_index name) d name f.
Proof.
  intros H. destruct (find_static_name_ok HpackEncoder.kStaticTable name H) as (e & He & E & Hn).
  unfold HpackEncoder.find_static_table_name_index in *. destruct (static_entry e d He) as (Hr & Hlow & Hl). rewrite E in *.
  eexists. split; [lia|split; [exact Hl|split; [by symmetry|done]]].
Qed.

Section Related.
Context (e d : t).
Hypothesis Hwf : table_wf e.
Hypothesis Hmax : max_table_size_ e < 4294967296.
Hypothesis Hci : table_ci e d.

Lemma dynamic_full_ok name value : HpackEncoder.find_dynamic_table_index name value e <> 0 ->
  exists f, index_for (HpackEncoder.find_dynamic_table_index name value e) d name f /\ field_value f = value.
Proof.
  intros H. destruct (find_dynamic_loop_ok _ 0 name value ltac:(done) H) as (i & x & Hl & E & Hn & Hv).
  unfold HpackEncoder.find_dynamic_table_index. rewrite E, Z.add_0_r.
  destruct (lookup_dynamic i x e d) as (f & (Hr & Hf & Hfn & Hlow) & Hfv); try done. exists f.
  split; [|congruence]. split; [done|]. split; [done|]. split; [by rewrite Hfn, Hn|done].
Qed.
Lemma dynamic_name_ok name : HpackEncoder.find_dynamic_table_name_index name e <> 0 ->
  exists f, index_for (HpackEncoder.find_dynamic_table_name_index name e) d name f.
Proof.
  intros H. destruct (find_dynamic_name_ok _ 0 name ltac:(done) H) as (i & x & Hl & E & Hn).
  unfold HpackEncoder.find_dynamic_table_name_index. rewrite E, Z.add_0_r.
  destruct (lookup_dynamic i x e d) as (f & (Hr & Hf & Hfn & Hlow) & Hfv); try done. exists f.
  split; [done|]. split; [done|]. split; [by rewrite Hfn, Hn|done].
Qed.
End Related.

(** ** One header *)
(** The kind of an octet: [decode] looks at its high bits. *)
Definition kind_ok (bits pattern k : Z) : bool :=
  let f := pattern + k in
  if bits =? 7 then negb (Z.land f 128 =? 0)
  else (Z.land f 128 =? 0) && (if bits =? 6 then Z.land f 192 =? 64 else negb (Z.land f 192 =? 64) && (Z.land f 240 =? 0)).
Lemma kinds_ok bits pattern k : prefix bits pattern -> (bits = 7 -> pattern = 128) -> 0 <= k < 2 ^ bits -> kind_ok bits pattern k = true.
Proof.
  intros Hp H7 Hk. assert (forallb (kind_ok bits pattern) (map Z.of_nat (seq 0 (Z.to_nat (2 ^ bits)))) = true) as H.
  { destruct Hp; try (specialize (H7 eq_refl); discriminate); vm_compute; reflexivity. }
  rewrite forallb_forall in H. apply H, in_map_iff. exists (Z.to_nat k). split; [lia|]. apply in_seq. lia.
Qed.

Definition header_reads (x : bytes) (f : HpackHeaderField) (d d' : t) : Prop :=
  Forall is_u8 x /\ x <> [] /\ forall pre post,
    HpackDecoder.decode_one (pre ++ x ++ post) (zlen pre) d = Ok (Some f, zlen pre + zlen x, d').

Lemma indexed_ok i d name f out : index_for i d name f ->
  exists x, HpackEncoder.append_indexed i out = Ok (out ++ x) /\ header_reads x f d d.
Proof.
  intros (Hi & Hl & _). destruct (prefixed_integer_ok 7 128 i out prefix_indexed) as (k & x & E & Hk & _ & _ & Hx & Hread); [lia|].
  exists (128 + k :: x). split; [exact E|]. split; [done|]. split; [done|]. intros pre post. unfold HpackDecoder.decode_one.
  destruct (block_at pre (128 + k) x post) as (_ & _ & -> & Eb & Ez). mstep.
  pose proof (kinds_ok 7 128 k prefix_indexed (fun _ => eq_refl) Hk) as Hkind.
  change (kind_ok 7 128 k) with (negb (Z.land (128 + k) 128 =? 0)) in Hkind.
  cbv zeta. rewrite Hkind, Eb, Ez, Hread. mstep.
  destruct (Z.eqb_spec i 0); [lia|]. rewrite Hl. mstep. do 3 f_equal. zlia.
Qed.

(** A literal, read from the octet behind the one that announces it. *)
Definition literal_reads (bits c : Z) (x : bytes) (f : HpackHeaderField) (d : t) : Prop :=
  forall pre post, HpackDecoder.decode_literal (pre ++ (c :: x) ++ post) (zlen pre + 1) c bits d = Ok (f, zlen pre + zlen (c :: x)).

Lemma literal_tail bits c nx vx fname value d :
  (forall pre post, HpackDecoder.decode_name (pre ++ (c :: nx) ++ post) (zlen pre + 1) c bits d = Ok (fname, zlen pre + zlen (c :: nx))) ->
  reads read_string vx value -> literal_reads bits c (nx ++ vx) (mkField fname value) d.
Proof.
  intros Hn Hv pre post. unfold HpackDecoder.decode_literal.
  replace (pre ++ (c :: nx ++ vx) ++ post) with (pre ++ (c :: nx) ++ vx ++ post) by (cbn; by rewrite <- app_assoc).
  rewrite Hn. mstep. unfold reads, read_string in Hv. rewrite (app_assoc pre), <- zlen_app, Hv. mstep. do 2 f_equal. zlia.
Qed.

(** With the index of a name. *)
Lemma literal_index_ok bits pattern i d name f value out : prefix bits pattern -> index_for i d name f -> str_wf value ->
  exists k x, (out ← HpackEncoder.append_prefixed_integer bits pattern i out; HpackEncoder.append_string value out) = Ok (out ++ pattern + k :: x)
    /\ 0 <= k < 2 ^ bits /\ Forall is_u8 (pattern + k :: x) /\ literal_reads bits (pattern + k) x (mkField (field_name f) value) d.
Proof.
  intros Hp (Hi & Hl & _) Hs. destruct (prefixed_integer_ok bits pattern i out Hp) as (k & x & -> & Hk & _ & Hk0 & Hx & Hread); [lia|]. mstep.
  destruct (append_string_ok value (out ++ pattern + k :: x) Hs) as (y & -> & Hy & Hry).
  exists k, (x ++ y). rewrite <- app_assoc. split; [done|]. split; [done|]. split; [by apply (Forall_app _ (_ :: x))|].
  apply literal_tail; [|done]. intros pre post. unfold HpackDecoder.decode_name.
  destruct (block_at pre (pattern + k) x post) as (_ & _ & _ & Eb & Ez).
  rewrite Z.shiftl_1_l. destruct (first_octet bits pattern k Hp Hk) as (_ & -> & _). destruct (Z.eqb_spec k 0); [lia|].
  rewrite Eb, Ez, Hread. mstep. rewrite Hl. mstep. do 2 f_equal. zlia.
Qed.
(** With a name of its own. *)
Lemma literal_name_ok bits pattern d name value out : prefix bits pattern -> str_wf name -> str_wf value ->
  exists x, (out ← HpackEncoder.append_string name (out ++ [pattern]); HpackEncoder.append_string value out) = Ok (out ++ pattern :: x)
    /\ Forall is_u8 (pattern :: x) /\ literal_reads bits pattern x (mkField name value) d.
Proof.
  intros Hp Hn Hs. destruct (append_string_ok name (out ++ [pattern]) Hn) as (x & -> & Hx & Hrx). mstep.
  destruct (append_string_ok value ((out ++ [pattern]) ++ x) Hs) as (y & -> & Hy & Hry).
  exists (x ++ y). rewrite <- !app_assoc. split; [done|].
  destruct (first_octet bits pattern 0 Hp) as (_ & H0 & Hu); [destruct Hp; lia|]. rewrite Z.add_0_r in *.
  split; [constructor; [done|by apply Forall_app]|].
  apply literal_tail; [|done]. intros pre post. unfold HpackDecoder.decode_name.
  destruct (block_at pre pattern x post) as (_ & _ & _ & Eb & Ez).
  rewrite Z.shiftl_1_l, H0. cbn [Z.eqb]. rewrite Eb, Ez. unfold reads, read_string in Hrx. rewrite Hrx. do 2 f_equal. zlia.
Qed.

(** A literal as a header, with or without an entry of the table. *)
Lemma literal_header bits pattern k x f d : (bits = 6 /\ pattern = 64) \/ (bits = 4 /\ pattern = 0) -> 0 <= k < 2 ^ bits ->
  Forall is_u8 (pattern + k :: x) -> literal_reads bits (pattern + k) x f d ->
  header_reads (pattern + k :: x) f d (if bits =? 6 then add_to_dynamic_table (field_name f) (field_value f) d else d).
Proof.
  intros Hbp Hk Hu Hread. split; [done|]. split; [done|]. intros pre post. unfold HpackDecoder.decode_one.
  destruct (block_at pre (pattern + k) x post) as (_ & _ & -> & _ & _). mstep.
  assert (kind_ok bits pattern k = true) as Hkind.
  { apply kinds_ok; [destruct Hbp as [[-> ->]|[-> ->]]; constructor| |done]. destruct Hbp as [[-> ->]|[-> ->]]; done. }
  unfold kind_ok in Hkind. cbv zeta in Hkind |- *.
  destruct Hbp as [[-> ->]|[-> ->]].
  - change (6 =? 7) with false in Hkind. change (6 =? 6) with true in *. cbv iota in Hkind.
    apply andb_true_iff in Hkind as [-> ->]. cbn [negb]. rewrite Hread. done.
  - change (4 =? 7) with false in Hkind. change (4 =? 6) with false in *. cbv iota in Hkind.
    apply andb_true_iff in Hkind as [-> Hkind]. apply andb_true_iff in Hkind as [Hk1 ->].
    destruct (Z.land (0 + k) 192 =? 64); [done|]. cbn [negb orb]. rewrite Hread. done.
Qed.

(** What the decoder makes of a header of the encoder. *)
Definition header_sent (name value x : bytes) (e' d : t) : Prop :=
  exists f d', header_reads x f d d' /\ field_ci f (name, value) /\ table_ci e' d' /\ table_wf e' /\ max_table_size_ e' = max_table_size_ d
    /\ (lower_table d -> is_lower name -> is_lower (field_name f) /\ lower_table d').

Lemma lower_table_add n v d : lower_table d -> is_lower n -> lower_table (add_to_dynamic_table n v d).
Proof.
  intros Hl Hn.
  assert (forall cond m h, lower_table h -> lower_table (pop_while m cond h)) as Hpop.
  { intros cond m. induction m as [|m IH]; intros h Hh; cbn; [done|]. case_if; [|done]. apply IH.
    unfold pop_back. destruct (last (dynamic_table_ h)) as [b|] eqn:E; [|done]. unfold lower_table. cbn.
    apply last_Some in E as [l' E]. unfold lower_table in Hh. rewrite E in *. rewrite removelast_last.
    by apply Forall_app in Hh as [? _]. }
  unfold add_to_dynamic_table, evict. cbv zeta. case_if; [by apply Hpop|].
  unfold lower_table. cbn [dynamic_table_]. constructor; [done|]. by apply Hpop.
Qed.

Section Header.
Context (name value : bytes) (e d : t).
Hypothesis Hwf : table_wf e.
Hypothesis Hmax : max_table_size_ e < 4294967296.
Hypothesis Hci : table_ci e d.
Hypothesis Hname : str_wf name.
Hypothesis Hvalue : str_wf value.

Lemma max_agree : max_table_size_ e = max_table_size_ d.
Proof. apply Hci. Qed.

Lemma sent_indexed i f out : index_for i d name f -> field_value f = value ->
  exists x, HpackEncoder.append_indexed i out = Ok (out ++ x) /\ header_sent name value x e d.
Proof.
  intros Hi Hv. destruct (indexed_ok i d name f out Hi) as (x & E & Hr). exists x. split; [done|].
  exists f, d. destruct Hi as (_ & _ & Hn & Hlow).
  split; [done|]. split; [done|]. split; [done|]. split; [done|]. split; [apply max_agree|]. eauto.
Qed.
(** A literal that is added to both tables, and one that is added to neither. *)
Lemma sent_literal bits pattern k x f : (bits = 6 /\ pattern = 64) \/ (bits = 4 /\ pattern = 0) -> 0 <= k < 2 ^ bits ->
  Forall is_u8 (pattern + k :: x) -> literal_reads bits (pattern + k) x (mkField f value) d ->
  ci_eq f name -> (lower_table d -> is_lower name -> is_lower f) ->
  header_sent name value (pattern + k :: x) (if bits =? 6 then add_to_dynamic_table name value e else e) d.
Proof.
  intros Hbp Hk Hu Hr Hn Hlow. exists (mkField f value). eexists. split; [by apply literal_header|]. split; [done|].
  pose proof max_agree as Hm. destruct (add_wf name value e Hwf) as [Hw Hmx]; [lia|]. cbn [field_name field_value].
  destruct Hbp as [[-> ->]|[-> ->]]; [change (6 =? 6) with true|change (4 =? 6) with false]; cbv iota.
  - split; [by apply add_ci; [symmetry| |]|]. split; [done|]. split; [congruence|]. intros Hl Hlown. split; [by apply Hlow|].
    by apply lower_table_add; [|apply Hlow].
  - split; [done|]. split; [done|]. split; [done|]. intros Hl Hlown. split; [by apply Hlow|done].
Qed.

Lemma encode_header_sent out : exists x e', HpackEncoder.encode_header name value e out = Ok (out ++ x, e') /\ header_sent name value x e' d.
Proof.
  unfold HpackEncoder.encode_header. cbv zeta.
  destruct (Z.eqb_spec (HpackEncoder.find_static_table_index name value) 0) as [_|Hne]; cbn [negb].
  2: { destruct (static_full_ok name value d Hne) as (f & Hi & Hv). destruct (sent_indexed _ f out Hi Hv) as (x & -> & Hx). by exists x, e. }
  destruct (Z.eqb_spec (HpackEncoder.find_dynamic_table_index name value e) 0) as [_|Hne]; cbn [negb].
  2: { destruct (dynamic_full_ok e d Hwf Hmax Hci name value Hne) as (f & Hi & Hv).
       destruct (sent_indexed _ f out Hi Hv) as (x & -> & Hx). by exists x, e. }
  assert (forall i f bits pattern, index_for i d name f -> (bits = 6 /\ pattern = 64) \/ (bits = 4 /\ pattern = 0) ->
    exists x, (out ← HpackEncoder.append_prefixed_integer bits pattern i out; HpackEncoder.append_string value out) = Ok (out ++ x)
      /\ header_sent name value x (if bits =? 6 then add_to_dynamic_table name value e else e) d) as Hindex.
  { intros i f bits pattern Hi Hbp. assert (prefix bits pattern) as Hp by (destruct Hbp as [[-> ->]|[-> ->]]; constructor).
    destruct (literal_index_ok bits pattern i d name f value out Hp Hi Hvalue) as (k & x & E & Hk & Hu & Hr).
    exists (pattern + k :: x). split; [done|]. destruct Hi as (_ & _ & Hn & Hlow). apply sent_literal with (field_name f); auto. }
  assert (forall bits pattern, (bits = 6 /\ pattern = 64) \/ (bits = 4 /\ pattern = 0) ->
    exists x, (out ← HpackEncoder.append_string name (out ++ [pattern]); HpackEncoder.append_string value out) = Ok (out ++ x)
      /\ header_sent name value x (if bits =? 6 then add_to_dynamic_table name value e else e) d) as Hown.
  { intros bits pattern Hbp. assert (prefix bits pattern) as Hp by (destruct Hbp as [[-> ->]|[-> ->]]; constructor).
    destruct (literal_name_ok bits pattern d name value out Hp Hname Hvalue) as (x & E & Hu & Hr).
    exists (pattern :: x). split; [done|]. replace (pattern :: x) with (pattern + 0 :: x) by by rewrite Z.add_0_r.
    apply sent_literal with name; rewrite ?Z.add_0_r; auto; [|reflexivity]. destruct Hbp as [[-> _]|[-> _]]; lia. }
  case_if.
  - destruct (Z.eqb_spec (HpackEncoder.find_static_table_name_index name) 0) as [_|Hne]; cbn [negb].
    2: { destruct (static_name_ok name d Hne) as (f & Hi).
         destruct (Hindex _ f 6 64 Hi ltac:(by left)) as (x & E & Hx). unfold HpackEncoder.append_literal_with_indexing. rewrite E. mstep. eauto. }
    destruct (Z.eqb_spec (HpackEncoder.find_dynamic_table_name_index name e) 0) as [_|Hne]; cbn [negb].
    2: { destruct (dynamic_name_ok e d Hwf Hmax Hci name Hne) as (f & Hi).
         destruct (Hindex _ f 6 64 Hi ltac:(by left)) as (x & E & Hx). unfold HpackEncoder.append_literal_with_indexing. rewrite E. mstep. eauto. }
    destruct (Hown 6 64 ltac:(by left)) as (x & E & Hx). unfold HpackEncoder.append_literal_with_indexing_name. rewrite E. mstep. eauto.
  - destruct (Z.eqb_spec (HpackEncoder.find_static_table_name_index name) 0) as [_|Hne]; cbn [negb].
    2: { destruct (static_name_ok name d Hne) as (f & Hi).
         destruct (Hindex _ f 4 0 Hi ltac:(by right)) as (x & E & Hx). unfold HpackEncoder.append_literal_without_indexing. rewrite E. mstep. eauto. }
    destruct (Hown 4 0 ltac:(by right)) as (x & E & Hx). unfold HpackEncoder.append_literal_with_name. rewrite E. mstep. eauto.
Qed.
End Header.

(** * Blocks *)
Definition header_wf (h : bytes * bytes) : Prop := str_wf h.1 /\ str_wf h.2.

(** What is known of two tables that talk to each other. *)
Record synced (e d : t) : Prop := mkSynced {
  synced_wf : table_wf e;
  synced_max : max_table_size_ e < 4294967296;
  synced_ci : table_ci e d
}.

Lemma encode_headers_sent hs : Forall header_wf hs -> forall e d out, synced e d ->
  exists x e' fs d', HpackEncoder.encode_headers hs e out = Ok (out ++ x, e') /\ Forall is_u8 x
    /\ Forall2 field_ci fs hs /\ synced e' d' /\ max_table_size_ e' = max_table_size_ e
    /\ (length fs <= length x)%nat
    /\ (lower_table d -> Forall (fun h => is_lower h.1) hs -> Forall (fun f => is_lower (field_name f)) fs /\ lower_table d')
    /\ forall pre post fuel acc, HpackDecoder.decode_loop (length fs + fuel) (pre ++ x ++ post) (zlen pre) acc d
         = HpackDecoder.decode_loop fuel (pre ++ x ++ post) (zlen pre + zlen x) (acc ++ fs) d'.
Proof.
  induction 1 as [|[n v] hs [Hn Hv] _ IH]; intros e d out Hsy.
  { exists [], e, [], d. cbn [HpackEncoder.encode_headers]. rewrite app_nil_r. repeat (split; [done|]).
    intros. cbn [length]. rewrite app_nil_r. change (zlen []) with 0. by rewrite Z.add_0_r. }
  destruct Hsy as [Hwf Hmax Hci]. cbn [HpackEncoder.encode_headers fst snd] in *.
  destruct (encode_header_sent n v e d Hwf Hmax Hci Hn Hv out) as (x & e1 & -> & Hs). mstep.
  destruct Hs as (f & d1 & (Hx & Hne & Hread) & Hf & Hci1 & Hwf1 & Hm1 & Hlow1).
  assert (max_table_size_ d = max_table_size_ e) as Hmd by (symmetry; apply Hci).
  destruct (IH e1 d1 (out ++ x)) as (y & e2 & fs & d2 & -> & Hy & Hfs & Hsy2 & Hm2 & Hlen & Hlow2 & Hloop); [by split; [|lia|]|].
  exists (x ++ y), e2, (f :: fs), d2. rewrite <- app_assoc. split; [done|]. split; [by apply Forall_app|].
  split; [by constructor|]. split; [done|]. split; [congruence|].
  assert (0 < length x)%nat by (destruct x; [done|cbn; lia]).
  split; [rewrite length_app; cbn; lia|]. split.
  - intros Hl [Hln Hls]%Forall_cons. destruct (Hlow1 Hl Hln) as [Hlf Hl1]. destruct (Hlow2 Hl1 Hls) as [Hlfs Hl2].
    split; [by constructor|done].
  - intros pre post fuel acc. cbn [length Nat.add HpackDecoder.decode_loop].
    pose proof (zlen_nonneg post). pose proof (zlen_nonneg y). assert (0 < zlen x) by (unfold zlen; lia).
    rewrite <- (app_assoc x y post). case_if; [|rewrite !zlen_app in Hif; lia]. rewrite Hread.
    replace (pre ++ x ++ y ++ post) with ((pre ++ x) ++ y ++ post) by by rewrite <- app_assoc.
    rewrite <- zlen_app, Hloop, <- (app_assoc acc). rewrite zlen_app. by rewrite (zlen_app x y), Z.add_assoc.
Qed.

Lemma decode_headers_sent hs e d : Forall header_wf hs -> synced e d ->
  exists x e' fs d', HpackEncoder.encode_headers hs e [] = Ok (x, e') /\ Forall is_u8 x
    /\ HpackDecoder.decode x d = Ok (true, fs, d') /\ Forall2 field_ci fs hs /\ synced e' d'
    /\ (lower_table d -> Forall (fun h => is_lower h.1) hs -> map (fun f => (field_name f, field_value f)) fs = hs /\ lower_table d').
Proof.
  intros Hh Hs. destruct (encode_headers_sent hs Hh e d [] Hs) as (x & e' & fs & d' & E & Hx & Hfs & Hs' & _ & Hlen & Hlow & Hloop).
  exists x, e', fs, d'. split; [done|]. split; [done|]. split; [|split; [done|split; [done|]]].
  - unfold HpackDecoder.decode. replace (length x) with (length fs + (length x - length fs))%nat by lia.
    specialize (Hloop [] [] (length x - length fs)%nat []). cbn [app] in Hloop. rewrite app_nil_r in Hloop.
    change (zlen []) with 0 in Hloop. rewrite Hloop, Z.add_0_l. by destruct (length x - length fs)%nat; cbn [HpackDecoder.decode_loop]; rewrite Z.ltb_irrefl.
  - intros Hl Hlh. destruct (Hlow Hl Hlh) as [Hlf Hl']. split; [|done].
    clear -Hfs Hlf Hlh. induction Hfs as [|[n v] [n' v'] fs hs [Hn Hv] _ IH]; [done|].
    apply Forall_cons in Hlf as [? Hlf]. apply Forall_cons in Hlh as [? Hlh]. cbn in *.
    rewrite IH by done. subst. by rewrite (ci_lower n n').
Qed.

(** * Any block *)
(** The largest number that the decoder takes. *)
Definition NUMBER_MAX : Z := 68719476736.

(** What a reader may return at [lo] in a block of size [hi]. *)
Definition reader_ok {A} (P : A -> Prop) (lo hi : Z) (m : outcome (A * Z)) : Prop :=
  in_bounds lo hi m /\ forall a o, m = Ok (a, o) -> P a.

Lemma reader_ok_bind {A C} (P : A -> Prop) (Q : C -> Prop) lo lo' hi (m : outcome (A * Z)) (f : A -> Z -> outcome (C * Z)) :
  reader_ok P lo hi m -> lo' <= lo -> (forall a o, P a -> lo <= o <= hi -> reader_ok Q o hi (f a o)) ->
  reader_ok Q lo' hi ('(a, o) ← m; f a o).
Proof.
  intros [Hb HP] Hlo Hf. destruct m as [[a o]| | |]; try done. cbn [mbind outcome_bind].
  cbn in Hb. destruct (Hf a o) as [H1 H2]; [eauto|done|]. split; [|done]. eapply in_bounds_weaken; eauto; lia.
Qed.

Lemma land_127_range b : 0 <= Z.land b 127 < 128.
Proof. rewrite land_127. apply Z.mod_pos_bound. lia. Qed.

Lemma integer_loop_any block n : forall fuel off shift acc, (n < fuel)%nat -> (n < 5)%nat -> shift = 7 * (4 - Z.of_nat n) -> 0 <= off ->
  0 <= acc < 256 + 2 ^ shift -> off <= zlen block ->
  reader_ok (fun v => 0 <= v < NUMBER_MAX) off (zlen block) (HpackDecoder.integer_loop fuel block off shift acc).
Proof.
  induction n as [|n IH]; intros fuel off shift acc Hfuel Hn Hshift Hoff Hacc Hle.
  all: assert (0 < 2 ^ shift <= 2 ^ 28) as Hp by (split; [apply Z.pow_pos_nonneg; lia|apply Z.pow_le_mono_r; lia]).
  all: change (2 ^ 28) with 268435456 in Hp.
  all: destruct fuel as [|fuel]; [lia|]; cbn [HpackDecoder.integer_loop].
  all: destruct (Z.ltb_spec off (zlen block)); [|by split].
  all: destruct (rd_ok block off) as [b ->]; [lia|]; mstep; cbv zeta; pose proof (land_127_range b) as Hb.
  all: rewrite Z.shiftl_mul_pow2 by lia; unfold u64; rewrite Z.mod_small by nia.
  all: destruct (Z.land b 128 =? 0).
  all: try (split; [cbn; lia|]; intros ? ? [= <- <-]; unfold NUMBER_MAX; nia).
  - destruct (Z.ltb_spec 28 (shift + 7)); [by split|lia].
  - destruct (Z.ltb_spec 28 (shift + 7)); [by split|].
    assert (2 ^ (shift + 7) = 2 ^ shift * 128) as Es by (rewrite Z.pow_add_r by lia; done).
    destruct (IH fuel (off + 1) (shift + 7) (acc + Z.land b 127 * 2 ^ shift)) as [H1 H2]; try lia; [nia|].
    split; [|done]. eapply in_bounds_weaken; [exact H1|lia|lia].
Qed.

Lemma prefixed_integer_any block off first bits : 0 <= off <= zlen block -> 0 <= bits <= 7 ->
  reader_ok (fun v => 0 <= v < NUMBER_MAX) off (zlen block) (HpackDecoder.decode_prefixed_integer block off first bits).
Proof.
  intros Ho Hb. unfold HpackDecoder.decode_prefixed_integer. cbv zeta. rewrite Z.shiftl_1_l.
  assert (0 < 2 ^ bits <= 128) as Hp by (split; [apply Z.pow_pos_nonneg; lia|change 128 with (2 ^ 7); apply Z.pow_le_mono_r; lia]).
  rewrite u8_id by (unfold is_u8; lia). replace (2 ^ bits - 1) with (Z.ones bits) by (rewrite Z.ones_equiv; lia).
  rewrite Z.land_ones by lia. pose proof (Z.mod_pos_bound first (2 ^ bits)).
  case_if; [split; [cbn; lia|]; intros ? ? [= <- <-]; unfold NUMBER_MAX; lia|].
  apply integer_loop_any with 4%nat; lia.
Qed.

Lemma read_string_any block off : 0 <= off <= zlen block ->
  in_bounds off (zlen block) (HpackDecoder.decode_string_literal block off []).
Proof.
  intros Ho. unfold HpackDecoder.decode_string_literal. case_if; [done|].
  destruct (rd_ok block off) as [b ->]; [lia|]. mstep. cbv zeta.
  destruct (prefixed_integer_any block (off + 1) b 7) as [Hb Hn]; [lia|lia|].
  eapply in_bounds_bind; [exact Hb|]. intros n o E Hr. specialize (Hn _ _ E). cbv beta in Hn. case_if; [done|].
  apply in_bounds_read; [apply rd_range_safe; lia|]. intros x _.
  apply in_bounds_read; [case_if; [apply huffman_decode_total|done]|]. intros s _. cbn. lia.
Qed.

Lemma lookup_index_safe i d : 0 <= i -> safe (HpackDecoder.lookup_index i d).
Proof.
  intros Hi. unfold HpackDecoder.lookup_index, HpackDecoder.kStaticTableSize. change (zlen HpackDecoder.kStaticTable) with 62.
  destruct (Z.eqb_spec i 0); [done|]. destruct (Z.leb_spec i 61).
  - destruct (Z.leb_spec 62 i); [done|]. destruct (lookup_lt_is_Some_2 HpackDecoder.kStaticTable (Z.to_nat i)) as [f ->]; [|done].
    change (length HpackDecoder.kStaticTable) with 62%nat. lia.
  - cbv zeta. destruct (Z.leb_spec (zlen (dynamic_table_ d)) (i - 61 - 1)); [done|].
    destruct (lookup_lt_is_Some_2 (dynamic_table_ d) (Z.to_nat (i - 61 - 1))) as [f ->]; [|done]. unfold zlen in *. lia.
Qed.

Lemma decode_literal_any block off first bits d : 0 <= off <= zlen block -> 0 <= bits <= 7 ->
  in_bounds off (zlen block) (HpackDecoder.decode_literal block off first bits d).
Proof.
  intros Ho Hb. unfold HpackDecoder.decode_literal.
  apply in_bounds_bind with (lo' := off) (hi' := zlen block).
  - unfold HpackDecoder.decode_name. case_if; [by apply read_string_any|].
    destruct (prefixed_integer_any block off first bits) as [H1 H2]; [lia|lia|].
    eapply in_bounds_bind; [exact H1|]. intros i o E Hr. specialize (H2 _ _ E). cbv beta in H2.
    apply in_bounds_read; [apply lookup_index_safe; lia|]. intros f _. cbn. lia.
  - intros n o _ Hr. eapply in_bounds_bind; [apply read_string_any; lia|]. intros v o' _ Hr'. cbn. lia.
Qed.

(** A table of the decoder: the limit is what the peer asked for. *)
Definition decoder_ok (d : t) : Prop := table_wf d /\ max_table_size_ d < NUMBER_MAX.

(** What a round of the loop may do. *)
Definition round_ok (lo hi : Z) (m : outcome (option HpackHeaderField * Z * t)) : Prop :=
  match m with Ok (_, o, d) => lo <= o <= hi /\ decoder_ok d | Reject => True | Fault | Diverge => False end.

Lemma round_bind {A} lo lo' hi (m : outcome (A * Z)) f : in_bounds lo' hi m ->
  (forall a o, m = Ok (a, o) -> lo' <= o <= hi -> round_ok lo hi (f a o)) -> round_ok lo hi ('(a, o) ← m; f a o).
Proof. destruct m as [[a o]| | |]; cbn; auto. Qed.

Lemma add_decoder_ok n v d : decoder_ok d -> decoder_ok (add_to_dynamic_table n v d).
Proof. unfold decoder_ok, NUMBER_MAX. intros [Hw Hm]. destruct (add_wf n v d Hw) as [? ->]; [lia|done]. Qed.
Lemma set_max_decoder_ok n d : decoder_ok d -> 0 <= n < NUMBER_MAX -> decoder_ok (set_max_table_size n d).
Proof.
  unfold decoder_ok, NUMBER_MAX. intros [Hw Hm] Hn. destruct (set_max_wf n d) as [? ->]; [lia| |split; [done|lia]].
  apply table_wf_sized; [done|lia].
Qed.

Lemma decode_one_any block off d : 0 <= off < zlen block -> decoder_ok d ->
  round_ok (off + 1) (zlen block) (HpackDecoder.decode_one block off d).
Proof.
  intros Ho Hd. unfold HpackDecoder.decode_one. destruct (rd_ok block off) as [b ->]; [lia|]. mstep. cbv zeta.
  case_if.
  { destruct (prefixed_integer_any block (off + 1) b 7) as [H1 H2]; [lia|lia|].
    eapply round_bind; [exact H1|]. intros i o E Hr. specialize (H2 _ _ E). cbv beta in H2. case_if; [done|].
    pose proof (lookup_index_safe i d) as Hs. destruct (HpackDecoder.lookup_index i d); cbn; try (by apply Hs; lia). by split; [lia|]. }
  case_if.
  { eapply round_bind; [apply decode_literal_any; lia|]. intros f o _ Hr. cbn. split; [lia|by apply add_decoder_ok]. }
  case_if.
  { eapply round_bind; [apply decode_literal_any; lia|]. intros f o _ Hr. cbn. by split; [lia|]. }
  case_if; [|done].
  destruct (prefixed_integer_any block (off + 1) b 5) as [H1 H2]; [lia|lia|].
  eapply round_bind; [exact H1|]. intros n o E Hr. specialize (H2 _ _ E). cbv beta in H2. cbn. split; [lia|].
  by apply set_max_decoder_ok.
Qed.

Lemma decode_loop_any block fuel : forall off acc d, 0 <= off <= zlen block -> zlen block - off <= Z.of_nat fuel -> decoder_ok d ->
  exists ok fs d', HpackDecoder.decode_loop fuel block off acc d = Ok (ok, fs, d') /\ decoder_ok d'.
Proof.
  induction fuel as [|fuel IH]; intros off acc d Ho Hfuel Hd; cbn [HpackDecoder.decode_loop].
  - case_if; [lia|]. eauto.
  - case_if; [|eauto].
    assert (round_ok (off + 1) (zlen block) (HpackDecoder.decode_one block off d)) as H by (apply decode_one_any; [lia|done]).
    destruct (HpackDecoder.decode_one block off d) as [[[f o] d1]| | |]; [|eauto|done|done].
    destruct H as [Hr Hd1]. apply IH; [lia|lia|done].
Qed.
Lemma decode_any block d : decoder_ok d -> exists ok fs d', HpackDecoder.decode block d = Ok (ok, fs, d') /\ decoder_ok d'.
Proof. intros Hd. apply decode_loop_any; [zlia|unfold zlen; lia|done]. Qed.

(** * The size of a block *)
Definition header_size (h : bytes * bytes) : Z := 32 + zlen h.1 + zlen h.2.
Definition headers_size (hs : list (bytes * bytes)) : Z := foldr (fun h n => header_size h + n) 0 hs.

(** [adds k m out]: what [m] returns is at most [k] bytes longer than [out]. *)
Definition adds (k : Z) (m : outcome bytes) (out : bytes) : Prop := forall r, m = Ok r -> zlen r <= zlen out + k.
Lemma adds_ok k r out : zlen r <= zlen out + k -> adds k (Ok r) out.
Proof. intros H r' [= <-]. done. Qed.
Lemma adds_bind k1 k2 (m : outcome bytes) f out : adds k1 m out -> (forall r, adds k2 (f r) r) -> adds (k1 + k2) (r ← m; f r) out.
Proof. intros Hm Hf r (r1 & E1 & E2)%outcome_bind_inv. apply Hm in E1. apply Hf in E2. lia. Qed.
Lemma adds_weaken k k' m out : adds k m out -> k <= k' -> adds k' m out.
Proof. intros H Hk r Hr. apply H in Hr. lia. Qed.

Lemma append_integer_adds bits pattern v out : adds 12 (HpackEncoder.append_prefixed_integer bits pattern v out) out.
Proof.
  assert (forall fuel v out, adds (Z.of_nat fuel + 1) (HpackEncoder.append_integer_loop fuel v out) out) as Hloop.
  { induction fuel as [|fuel IH]; intros w o; cbn [HpackEncoder.append_integer_loop].
    - case_if; [done|]. apply adds_ok. zlia.
    - case_if; [|apply adds_ok; zlia]. intros r Hr. apply IH in Hr. rewrite zlen_app in Hr. change (zlen [_]) with 1 in Hr. lia. }
  unfold HpackEncoder.append_prefixed_integer. cbv zeta. case_if; [apply adds_ok; zlia|].
  intros r Hr. apply Hloop in Hr. rewrite zlen_app in Hr. change (zlen [_]) with 1 in Hr. lia.
Qed.
Lemma append_string_adds s out : adds (12 + zlen s) (HpackEncoder.append_string s out) out.
Proof.
  assert (forall out, adds (12 + zlen s) (HpackEncoder.append_plain_string s out) out) as Hp.
  { intros o. apply adds_bind; [apply append_integer_adds|]. intros r. apply adds_ok. zlia. }
  unfold HpackEncoder.append_string. case_if; [apply Hp|]. intros r (h & _ & E)%outcome_bind_inv. revert r E.
  case_if; [|apply Hp]. apply adds_weaken with (12 + zlen h); [|lia].
  apply adds_bind; [apply append_integer_adds|]. intros r. apply adds_ok. zlia.
Qed.

Lemma encode_header_adds n v e out x e' : HpackEncoder.encode_header n v e out = Ok (x, e') -> zlen x <= zlen out + header_size (n, v).
Proof.
  pose proof (zlen_nonneg n). pose proof (zlen_nonneg v). unfold header_size. cbn [fst snd].
  assert (forall i bits pattern, adds (24 + zlen v) (out ← HpackEncoder.append_prefixed_integer bits pattern i out; HpackEncoder.append_string v out) out) as Hi.
  { intros. eapply adds_weaken; [apply adds_bind; [apply append_integer_adds|intros; apply append_string_adds]|lia]. }
  assert (forall c, adds (25 + zlen n + zlen v) (out ← HpackEncoder.append_string n (out ++ [c]); HpackEncoder.append_string v out) out) as Hn.
  { intros c r Hr. eapply (adds_bind (12 + zlen n) (12 + zlen v)) in Hr; [|apply append_string_adds|intros; apply append_string_adds].
    rewrite zlen_app in Hr. change (zlen [_]) with 1 in Hr. lia. }
  assert (forall i, adds 12 (HpackEncoder.append_indexed i out) out) as Hx by (intros; apply append_integer_adds).
  unfold HpackEncoder.encode_header. cbv zeta. intros E.
  repeat (case_if_in E); apply outcome_bind_inv in E as (r & E & [= <- _]).
  all: first [apply Hx in E; lia | apply Hi in E; lia | apply Hn in E; lia].
Qed.
Lemma encode_headers_adds hs : forall e out x e', HpackEncoder.encode_headers hs e out = Ok (x, e') -> zlen x <= zlen out + headers_size hs.
Proof.
  induction hs as [|[n v] hs IH]; intros e out x e'; cbn [HpackEncoder.encode_headers].
  - intros [= <- _]. cbn. lia.
  - intros ([r e1] & E1 & E2)%outcome_bind_inv. apply encode_header_adds in E1. apply IH in E2.
    change (headers_size ((n, v) :: hs)) with (header_size (n, v) + headers_size hs). lia.
Qed.
