(* ===== verification/Http2Frame.v ===== *)
(** HTTP/2 frames: [protocol/http/include/http2/types.h] and
    [protocol/http/src/http2/frame_codec.cpp].

    [FrameType] and [ErrorCode] are enumerations with an underlying type, so a value of the
    wire is one of them whatever it is: they are integers here. *)
From S2P Require Import Prelude Endian ByteBuffer ByteBufferFacts.
Module Http2.

Definition kDefaultMaxFrameSize : Z := 16384.

(** [FrameType] *)
Definition type_data : Z := 0.
Definition type_headers : Z := 1.
Definition type_priority : Z := 2.
Definition type_rst_stream : Z := 3.
Definition type_settings : Z := 4.
Definition type_push_promise : Z := 5.
Definition type_ping : Z := 6.
Definition type_goaway : Z := 7.
Definition type_window_update : Z := 8.
Definition type_continuation : Z := 9.

(** [ErrorCode], those that the code sends *)
Definition no_error : Z := 0.
Definition protocol_error : Z := 1.
Definition internal_error : Z := 2.
Definition flow_control_error : Z := 3.
Definition stream_closed : Z := 5.
Definition frame_size_error : Z := 6.
Definition refused_stream : Z := 7.
Definition enhance_your_calm : Z := 11.

(** [FrameFlags] *)
Definition flag_none : Z := 0.
Definition flag_end_stream : Z := 1.
Definition flag_ack : Z := 1.
Definition flag_end_headers : Z := 4.
Definition flag_padded : Z := 8.
Definition flag_priority : Z := 32.

Record FrameHeader : Type := mkHeader { length : Z; type : Z; flags : Z; stream_id : Z }.
Record Frame : Type := mkFrame { header : FrameHeader; payload : bytes }.

(** [(header.flags & flag) != 0] *)
Definition has_flag (flag : Z) (f : Frame) : bool := negb (Z.land (flags (header f)) flag =? 0).

End Http2.

(** [std::vector::resize(n)] *)
Definition resize (l : bytes) (n : nat) : bytes := take n l ++ replicate (n - length l) 0.

Module FrameCodec.
Import Http2.

Section Codec.
Variable little : bool.

(** [read_u24(p)], of the bytes at [p]. *)
Definition read_u24 (p : bytes) : outcome Z :=
  b0 ← rd p 0; b1 ← rd p 1; b2 ← rd p 2;
  Ok (Z.lor (Z.lor (Z.shiftl b0 16) (Z.shiftl b1 8)) b2).
Definition write_u24 (v : Z) (out : ByteBuffer.t) : outcome ByteBuffer.t :=
  let b0 := u8 (Z.land (Z.shiftr v 16) 255) in
  let b1 := u8 (Z.land (Z.shiftr v 8) 255) in
  let b2 := u8 (Z.land v 255) in
  out ← ByteBuffer.append_u8 little b0 out;
  out ← ByteBuffer.append_u8 little b1 out;
  ByteBuffer.append_u8 little b2 out.

(** [None] is [std::nullopt]. *)
Definition try_decode (max_frame_size : Z) (buffer : ByteBuffer.t) : outcome (option Frame * ByteBuffer.t) :=
  if ByteBuffer.readable_bytes buffer <? 9 then Ok (None, buffer)
  else
    span ← ByteBuffer.readable_span buffer;
    len ← read_u24 span;
    if max_frame_size <? len then Ok (None, buffer)
    else if ByteBuffer.readable_bytes buffer <? u32 (9 + len) then Ok (None, buffer)
    else
      type ← rd span 3;
      flags ← rd span 4;
      s5 ← rd span 5; s6 ← rd span 6; s7 ← rd span 7; s8 ← rd span 8;
      let id := Z.land (Z.lor (Z.lor (Z.lor (Z.shiftl s5 24) (Z.shiftl s6 16)) (Z.shiftl s7 8)) s8) 2147483647 in
      let hdr := mkHeader len type flags id in
      let buffer := ByteBuffer.consume 9 buffer in
      if 0 <? len then
        payload_span ← ByteBuffer.readable_span buffer;
        data ← rd_range payload_span 0 len;
        Ok (Some (mkFrame hdr data), ByteBuffer.consume len buffer)
      else Ok (Some (mkFrame hdr []), buffer).

Definition encode_frame (frame : Frame) (out : ByteBuffer.t) : outcome ByteBuffer.t :=
  let h := header frame in
  out ← write_u24 (length h) out;
  out ← ByteBuffer.append_u8 little (type h) out;
  out ← ByteBuffer.append_u8 little (flags h) out;
  out ← ByteBuffer.append_u32 little (Z.land (stream_id h) 2147483647) out;
  if negb (bool_decide (payload frame = [])) then ByteBuffer.append (payload frame) out else Ok out.

End Codec.

Definition make_settings_ack : Frame := mkFrame (mkHeader 0 type_settings flag_ack 0) [].
Definition make_ping_ack (ping_frame : Frame) : Frame :=
  mkFrame (mkHeader 8 type_ping flag_ack 0) (resize (payload ping_frame) 8).

(** The bytes that the code spells out for a 32-bit number. *)
Definition put_u32 (v : Z) : bytes :=
  [u8 (Z.land (Z.shiftr v 24) 255); u8 (Z.land (Z.shiftr v 16) 255); u8 (Z.land (Z.shiftr v 8) 255); u8 (Z.land v 255)].
(** The same with the highest bit cleared. *)
Definition put_u31 (v : Z) : bytes :=
  [u8 (Z.land (Z.shiftr v 24) 127); u8 (Z.land (Z.shiftr v 16) 255); u8 (Z.land (Z.shiftr v 8) 255); u8 (Z.land v 255)].
Definition make_goaway (error last_stream_id : Z) : Frame :=
  mkFrame (mkHeader 8 type_goaway flag_none 0) (put_u31 last_stream_id ++ put_u32 error).

End FrameCodec.

(** * Lemmas on HTTP/2 frames: what the codec writes, and the frames of a stream as a function
    of its bytes. *)
Import Http2 FrameCodec.

(** * The format *)
Definition be24 (v : Z) : bytes := [u8 (Z.shiftr v 16); u8 (Z.shiftr v 8); u8 v].

(** The bytes of a frame. *)
Definition frame_bytes (f : Frame) : bytes :=
  let h := header f in
  be24 (length h) ++ [u8 (type h); u8 (flags h)] ++ be32 (Z.land (stream_id h) 2147483647) ++ payload f.

(** A frame that the format can say. *)
Record frame_wf (f : Frame) : Prop := mkFrameWf {
  wf_length : length (header f) = zlen (payload f);
  wf_size : zlen (payload f) < 16777216;
  wf_type : is_u8 (type (header f));
  wf_flags : is_u8 (flags (header f));
  wf_stream : 0 <= stream_id (header f) < 2147483648
}.

(** The frame at the front of a stream, and what follows it. *)
Definition take_frame (max : Z) (c : bytes) : option (Frame * bytes) :=
  match c with
  | l0 :: l1 :: l2 :: ty :: fl :: s0 :: s1 :: s2 :: s3 :: rest =>
      let len := (l0 * 256 + l1) * 256 + l2 in
      if (len <=? max) && (len <=? zlen rest)
      then Some (mkFrame (mkHeader len ty fl ((((s0 * 256 + s1) * 256 + s2) * 256 + s3) mod 2147483648)) (take (Z.to_nat len) rest),
                 drop (Z.to_nat len) rest)
      else None
  | _ => None
  end.

(** * Encoding *)
Lemma u8_u8 v : u8 (u8 v) = u8 v.
Proof. apply u8_id, u8_range. Qed.
Lemma u8_land_255 v : u8 (Z.land v 255) = u8 v.
Proof. unfold u8. change 255 with (Z.ones 8). rewrite Z.land_ones by lia. apply Z.mod_mod. lia. Qed.
Lemma put_u32_be v : put_u32 v = be32 v.
Proof. unfold put_u32, be32. by rewrite !u8_land_255. Qed.

Section Encode.
Variable little : bool.

Lemma append_u8_any b c v : view b c -> exists b', ByteBuffer.append_u8 little v b = Ok b' /\ view b' (c ++ [u8 v]).
Proof.
  intros Hb. destruct (append_view b c [u8 v] Hb) as (b' & E & Hv' & _). exists b'. split; [|done]. rewrite <- E.
  unfold ByteBuffer.append_u8. f_equal. by destruct little.
Qed.
Lemma append_u32_view b c v : view b c -> exists b', ByteBuffer.append_u32 little v b = Ok b' /\ view b' (c ++ be32 v).
Proof.
  intros Hb. destruct (append_view b c (be32 v) Hb) as (b' & E & Hv' & _). exists b'. split; [|done].
  unfold ByteBuffer.append_u32. by rewrite network_bytes32.
Qed.
Lemma write_u24_view b c v : view b c -> exists b', write_u24 little v b = Ok b' /\ view b' (c ++ be24 v).
Proof.
  intros Hb. unfold write_u24. cbv zeta. rewrite !u8_land_255.
  destruct (append_u8_any b c (u8 (Z.shiftr v 16)) Hb) as (b1 & -> & H1). mstep.
  destruct (append_u8_any b1 _ (u8 (Z.shiftr v 8)) H1) as (b2 & -> & H2). mstep.
  destruct (append_u8_any b2 _ (u8 v) H2) as (b3 & -> & H3). exists b3. split; [done|].
  rewrite <- !app_assoc in H3. rewrite !u8_u8 in H3. done.
Qed.

Lemma encode_frame_view f b c : view b c -> exists b', encode_frame little f b = Ok b' /\ view b' (c ++ frame_bytes f).
Proof.
  intros Hb. unfold encode_frame, frame_bytes. cbv zeta.
  destruct (write_u24_view b c (length (header f)) Hb) as (b1 & -> & H1). mstep.
  destruct (append_u8_any b1 _ (type (header f)) H1) as (b2 & -> & H2). mstep.
  destruct (append_u8_any b2 _ (flags (header f)) H2) as (b3 & -> & H3). mstep.
  destruct (append_u32_view b3 _ (Z.land (stream_id (header f)) 2147483647) H3) as (b4 & -> & H4). mstep.
  rewrite <- !app_assoc in H4. case_bool_decide as Hp; cbn [negb].
  - exists b4. split; [done|]. by rewrite Hp, app_nil_r.
  - destruct (append_view b4 _ (payload f) H4) as (b5 & -> & H5 & _). exists b5. split; [done|].
    by rewrite <- !app_assoc in H5.
Qed.
End Encode.

(** * Decoding *)
Lemma read_u24_ok a b c x : is_u8 a -> is_u8 b -> is_u8 c -> read_u24 (a :: b :: c :: x) = Ok ((a * 256 + b) * 256 + c).
Proof.
  unfold is_u8. intros.
  change (read_u24 (a :: b :: c :: x)) with (Ok (Z.lor (Z.lor (Z.shiftl a 16) (Z.shiftl b 8)) c)). rewrite <- Z.lor_assoc.
  rewrite (lor_shiftl_add b c 8) by lia. rewrite (lor_shiftl_add a _ 16) by lia. f_equal. lia.
Qed.
Lemma stream_id_ok a b c d : is_u8 a -> is_u8 b -> is_u8 c -> is_u8 d ->
  Z.land (Z.lor (Z.lor (Z.lor (Z.shiftl a 24) (Z.shiftl b 16)) (Z.shiftl c 8)) d) 2147483647
  = (((a * 256 + b) * 256 + c) * 256 + d) mod 2147483648.
Proof.
  intros Ha Hb Hc Hd. rewrite <- be32_combine by done. change 2147483647 with (Z.ones 31). rewrite Z.land_ones by lia.
  change (2 ^ 31) with 2147483648. unfold u32. unfold is_u8 in *.
  rewrite <- !Z.lor_assoc. rewrite (lor_shiftl_add c d 8) by lia. rewrite (lor_shiftl_add b _ 16) by lia.
  rewrite (lor_shiftl_add a _ 24) by lia. rewrite (Z.mod_small _ 4294967296) by lia. done.
Qed.

Definition small (b : ByteBuffer.t) : Prop := ByteBuffer.write_offset_ b < 18446744073709551616.

Lemma consume_view b x y : view b (x ++ y) -> small b ->
  view (ByteBuffer.consume (zlen x) b) y /\ small (ByteBuffer.consume (zlen x) b).
Proof.
  intros H Hs. rewrite (consume_advance b x y H Hs). split; [by apply view_advance|done].
Qed.

(** The decoder on a buffer takes the first frame of what the buffer holds. *)
Lemma try_decode_view max b c : view b c -> small b -> Forall is_u8 c -> max < 16777216 ->
  exists b', try_decode max b = Ok (match take_frame max c with Some (f, _) => Some f | None => None end, b')
    /\ view b' (match take_frame max c with Some (_, rest) => rest | None => c end) /\ small b'.
Proof.
  intros Hv Hs Hu Hmax. unfold try_decode. rewrite (view_readable _ _ Hv).
  destruct (Z.ltb_spec (zlen c) 9) as [Hlt|Hge].
  { assert (take_frame max c = None) as ->; [|by eauto].
    do 9 (destruct c as [|? c]; [done|]). pose proof (zlen_nonneg c). rewrite !zlen_cons in Hlt. lia. }
  destruct c as [|l0 [|l1 [|l2 [|ty [|fl [|s0 [|s1 [|s2 [|s3 c]]]]]]]]]; try (vm_compute in Hge; by destruct Hge).
  repeat match goal with H : Forall is_u8 (_ :: _) |- _ => apply Forall_cons in H as [? H] end.
  rewrite (view_span _ _ Hv). mstep. rewrite read_u24_ok by done. mstep. cbn [take_frame].
  set (len := (_ * 256 + _) * 256 + _). assert (0 <= len < 16777216) as Hlen by (unfold len, is_u8 in *; lia). clearbody len.
  destruct (Z.leb_spec len max) as [Hle|Hgt]; cbn [andb].
  2: { destruct (Z.ltb_spec max len); [|lia]. by eauto. }
  destruct (Z.ltb_spec max len); [lia|]. unfold u32. rewrite Z.mod_small by lia. rewrite !zlen_cons.
  destruct (Z.leb_spec len (zlen c)) as [Hfit|Hno].
  2: { case_if; [|lia]. by eauto. }
  case_if; [lia|]. set (l := l0 :: _) in *.
  change (rd l 3) with (Ok ty). change (rd l 4) with (Ok fl). change (rd l 5) with (Ok s0). change (rd l 6) with (Ok s1).
  change (rd l 7) with (Ok s2). change (rd l 8) with (Ok s3). mstep. cbv zeta.
  rewrite stream_id_ok by done.
  destruct (consume_view b [l0; l1; l2; ty; fl; s0; s1; s2; s3] c Hv Hs) as [Hv1 Hs1]. change (zlen [l0; l1; l2; ty; fl; s0; s1; s2; s3]) with 9 in *.
  set (b1 := ByteBuffer.consume 9 b) in *. clearbody b1. clear Hv.
  destruct (Z.ltb_spec 0 len).
  - rewrite (view_span _ _ Hv1). mstep.
    assert (zlen (take (Z.to_nat len) c) = len) as Htake by (unfold zlen in *; rewrite length_take; lia).
    assert (c = take (Z.to_nat len) c ++ drop (Z.to_nat len) c) as Ec by (by rewrite take_drop).
    assert (rd_range c 0 len = Ok (take (Z.to_nat len) c)) as ->.
    { unfold rd_range. case_if; [lia|]. by rewrite drop_0. }
    rewrite Ec in Hv1. destruct (consume_view b1 _ _ Hv1 Hs1) as [Hv2 Hs2]. rewrite Htake in *. by eauto.
  - replace len with 0 by lia. cbn [Z.to_nat take drop]. by eauto.
Qed.

(** * The frames of a stream *)
Lemma be24_value v : 0 <= v < 16777216 ->
  (u8 (Z.shiftr v 16) * 256 + u8 (Z.shiftr v 8)) * 256 + u8 v = v.
Proof.
  intros. rewrite !shiftr_div by lia. change (2 ^ 16) with 65536. change (2 ^ 8) with 256. unfold u8.
  Z.to_euclidean_division_equations. lia.
Qed.
Lemma be32_value v : 0 <= v < 4294967296 ->
  ((u8 (Z.shiftr v 24) * 256 + u8 (Z.shiftr v 16)) * 256 + u8 (Z.shiftr v 8)) * 256 + u8 v = v.
Proof.
  intros. rewrite !shiftr_div by lia. change (2 ^ 24) with 16777216. change (2 ^ 16) with 65536. change (2 ^ 8) with 256. unfold u8.
  Z.to_euclidean_division_equations. lia.
Qed.

Lemma take_frame_bytes max f rest : frame_wf f -> zlen (payload f) <= max -> take_frame max (frame_bytes f ++ rest) = Some (f, rest).
Proof.
  intros [Hl Hsz Ht Hf Hs] Hmax. unfold frame_bytes, be24, be32. cbn [app take_frame].
  pose proof (zlen_nonneg (payload f)). rewrite be24_value by lia. rewrite Hl.
  assert (Z.land (stream_id (header f)) 2147483647 = stream_id (header f)) as Eid.
  { change 2147483647 with (Z.ones 31). rewrite Z.land_ones by lia. apply Z.mod_small. done. }
  rewrite Eid, be32_value by lia.
  rewrite zlen_app. pose proof (zlen_nonneg rest). rewrite (proj2 (Z.leb_le _ _) Hmax). cbn [andb].
  case_if; [|lia]. unfold zlen. rewrite Nat2Z.id, take_app_length, drop_app_length, !u8_id by done. rewrite (Z.mod_small _ 2147483648) by done.
  do 3 f_equal. destruct f as [[] p]. cbn in *. by subst.
Qed.
(** A frame that is there stays there when more bytes arrive. *)
Lemma take_frame_app max c f rest more : take_frame max c = Some (f, rest) -> take_frame max (c ++ more) = Some (f, rest ++ more).
Proof.
  do 9 (destruct c as [|? c]; [done|]). cbn [take_frame app]. rewrite zlen_app. pose proof (zlen_nonneg more).
  set (len := (_ * 256 + _) * 256 + _). destruct (Z.leb_spec len max); [|done]. cbn [andb].
  destruct (Z.leb_spec len (zlen c)); [|done]. case_if; [|lia]. intros [= <- <-].
  assert (Z.to_nat len <= List.length c)%nat by (unfold zlen in *; lia).
  rewrite take_app_le, drop_app_le by done. done.
Qed.
Lemma take_frame_less max c f rest : Forall is_u8 c -> take_frame max c = Some (f, rest) ->
  (List.length rest + 9 <= List.length c)%nat /\ zlen (payload f) <= max /\ length (header f) = zlen (payload f)
  /\ Forall is_u8 rest /\ Forall is_u8 (payload f) /\ is_u8 (flags (header f)) /\ 0 <= stream_id (header f) < 2147483648.
Proof.
  do 9 (destruct c as [|? c]; [done|]). intros Hu.
  repeat match goal with H : Forall is_u8 (_ :: _) |- _ => apply Forall_cons in H as [? H] end. cbn [take_frame].
  set (len := (_ * 256 + _) * 256 + _). assert (0 <= len) by (unfold len, is_u8 in *; lia). clearbody len.
  destruct (Z.leb_spec len max); [|done]. cbn [andb].
  destruct (Z.leb_spec len (zlen c)); [|done]. intros [= <- <-]. cbn [payload header length flags stream_id].
  assert (zlen (take (Z.to_nat len) c) = len) as -> by (unfold zlen in *; rewrite length_take; lia).
  rewrite length_drop. cbn [List.length]. split; [lia|]. split; [lia|]. split; [done|].
  split; [by apply Forall_drop|]. split; [by apply Forall_take|]. split; [done|]. apply Z.mod_pos_bound. lia.
Qed.
