(* ===== verification/Http2Session.v ===== *)
(** An HTTP/2 session of the server: [protocol/http/include/http2/session.h] and
    [protocol/http/src/http2/session.cpp].

    The members of a stream and of the session are grouped into records. What the session
    does to its connection and to the application is the list [trace_]: a write is the
    bytes that are written. A bridge is a callback of the application, which may call the
    session back: [react] is what the application calls, given the trace that ends with the
    callback, and the calls run inside it. A pointer to a stream is its identifier, and
    using it after the stream was erased is a [Fault]. The goaway bridge does not call
    back. The table of streams is a hash table; no code depends on its order. *)
From S2P Require Import Prelude Strings Endian ByteBuffer Hpack Http2Frame.

Module Http2Session.
Import Http2.

Inductive StreamState : Type :=
| idle | open | half_closed_remote | half_closed_local | reserved_local | reserved_remote | closed.
#[export] Instance StreamState_eq_dec : EqDecision StreamState.
Proof. solve_decision. Defined.

Record PendingWrite : Type := mkPending { pw_data : bytes; pw_offset : Z; pw_end_stream : bool }.

Record Incoming : Type := mkIncoming {
  received_bytes : Z;
  header_block : bytes;
  headers_end_stream : bool;
  waiting_continuation : bool;
  continuation_count : Z;
  received_data : bool
}.
Record Flow : Type := mkFlow {
  send_window : Z;
  recv_window : Z;
  pending_write : PendingWrite;
  has_pending_write : bool
}.
Record Priority : Type := mkPriority { parent_stream_id : Z; weight : Z; exclusive : bool }.
Record StreamEntry : Type := mkStream { state : StreamState; incoming : Incoming; flow : Flow; priority : Priority }.

(** [StreamEntry{}] *)
Definition new_stream : StreamEntry :=
  mkStream idle (mkIncoming 0 [] false false 0 false) (mkFlow 65535 65535 (mkPending [] 0 false) false) (mkPriority 0 16 false).

Record Settings : Type := mkSettings {
  header_table_size : Z;
  enable_push : bool;
  max_concurrent_streams : Z;
  initial_window_size : Z;
  max_frame_size : Z;
  max_header_list_size : Z
}.
Definition PeerSettings : Settings := mkSettings 4096 true 4294967295 65535 16384 4294967295.
Definition LocalSettings : Settings := mkSettings 4096 false 128 65535 16384 65536.

Record Progress : Type := mkProgress {
  frames_received_ : Z;
  seen_non_settings_frame_ : bool;
  server_settings_sent_ : bool;
  settings_ack_received_ : bool;
  awaiting_settings_ack_ : bool
}.
Record Bridges : Type := mkBridges { headers_bridge_ : bool; data_bridge_ : bool; goaway_bridge_ : bool }.
Record Windows : Type := mkWindows { connection_recv_window_ : Z; connection_send_window_ : Z }.

Inductive event : Type :=
| Write (data : bytes)                                        (* conn_->write... *)
| Close                                                       (* conn_->close *)
| Headers (stream_id : Z) (raw_headers : bytes) (end_stream : bool)   (* headers_bridge_ *)
| Data (stream_id : Z) (data : bytes) (end_stream : bool)     (* data_bridge_ *)
| Goaway (error last_stream_id : Z).                          (* goaway_bridge_ *)

Record t : Type := mk {
  conn_ : bool;
  progress : Progress;
  streams_ : gmap Z StreamEntry;
  pending_write_queue_ : list Z;
  hpack_decoder_ : HpackDecoder.t;
  hpack_encoder_ : HpackEncoder.t;
  bridges : Bridges;
  peer_settings_ : Settings;
  local_settings_ : Settings;
  windows : Windows;
  last_stream_id_ : Z;
  trace_ : list event
}.

Definition set_progress (x : Progress) (c : t) : t :=
  mk (conn_ c) x (streams_ c) (pending_write_queue_ c) (hpack_decoder_ c) (hpack_encoder_ c) (bridges c) (peer_settings_ c)
     (local_settings_ c) (windows c) (last_stream_id_ c) (trace_ c).
Definition set_streams (x : gmap Z StreamEntry) (c : t) : t :=
  mk (conn_ c) (progress c) x (pending_write_queue_ c) (hpack_decoder_ c) (hpack_encoder_ c) (bridges c) (peer_settings_ c)
     (local_settings_ c) (windows c) (last_stream_id_ c) (trace_ c).
Definition set_queue (x : list Z) (c : t) : t :=
  mk (conn_ c) (progress c) (streams_ c) x (hpack_decoder_ c) (hpack_encoder_ c) (bridges c) (peer_settings_ c)
     (local_settings_ c) (windows c) (last_stream_id_ c) (trace_ c).
Definition set_decoder (x : HpackDecoder.t) (c : t) : t :=
  mk (conn_ c) (progress c) (streams_ c) (pending_write_queue_ c) x (hpack_encoder_ c) (bridges c) (peer_settings_ c)
     (local_settings_ c) (windows c) (last_stream_id_ c) (trace_ c).
Definition set_encoder (x : HpackEncoder.t) (c : t) : t :=
  mk (conn_ c) (progress c) (streams_ c) (pending_write_queue_ c) (hpack_decoder_ c) x (bridges c) (peer_settings_ c)
     (local_settings_ c) (windows c) (last_stream_id_ c) (trace_ c).
Definition set_peer (x : Settings) (c : t) : t :=
  mk (conn_ c) (progress c) (streams_ c) (pending_write_queue_ c) (hpack_decoder_ c) (hpack_encoder_ c) (bridges c) x
     (local_settings_ c) (windows c) (last_stream_id_ c) (trace_ c).
Definition set_windows (x : Windows) (c : t) : t :=
  mk (conn_ c) (progress c) (streams_ c) (pending_write_queue_ c) (hpack_decoder_ c) (hpack_encoder_ c) (bridges c) (peer_settings_ c)
     (local_settings_ c) x (last_stream_id_ c) (trace_ c).
Definition set_last_stream (x : Z) (c : t) : t :=
  mk (conn_ c) (progress c) (streams_ c) (pending_write_queue_ c) (hpack_decoder_ c) (hpack_encoder_ c) (bridges c) (peer_settings_ c)
     (local_settings_ c) (windows c) x (trace_ c).
Definition emit (e : list event) (c : t) : t :=
  mk (conn_ c) (progress c) (streams_ c) (pending_write_queue_ c) (hpack_decoder_ c) (hpack_encoder_ c) (bridges c) (peer_settings_ c)
     (local_settings_ c) (windows c) (last_stream_id_ c) (trace_ c ++ e).

Definition set_state (s : StreamState) (x : StreamEntry) : StreamEntry := mkStream s (incoming x) (flow x) (priority x).
Definition set_incoming (i : Incoming) (x : StreamEntry) : StreamEntry := mkStream (state x) i (flow x) (priority x).
Definition set_flow (f : Flow) (x : StreamEntry) : StreamEntry := mkStream (state x) (incoming x) f (priority x).
Definition set_priority (p : Priority) (x : StreamEntry) : StreamEntry := mkStream (state x) (incoming x) (flow x) p.

(** Through a pointer to a stream, or an iterator. *)
Definition deref (id : Z) (c : t) : outcome StreamEntry :=
  match streams_ c !! id with Some s => Ok s | None => Fault end.
Definition assign (id : Z) (s : StreamEntry) (c : t) : t := set_streams (<[id := s]> (streams_ c)) c.
Definition erase (id : Z) (c : t) : t := set_streams (delete id (streams_ c)) c.

(** The setters of one member. *)
Definition with_send_window (w : Z) (f : Flow) : Flow := mkFlow w (recv_window f) (pending_write f) (has_pending_write f).
Definition with_recv_window (w : Z) (f : Flow) : Flow := mkFlow (send_window f) w (pending_write f) (has_pending_write f).
Definition with_pending (p : PendingWrite) (has : bool) (f : Flow) : Flow := mkFlow (send_window f) (recv_window f) p has.
Definition with_block (b : bytes) (i : Incoming) : Incoming :=
  mkIncoming (received_bytes i) b (headers_end_stream i) (waiting_continuation i) (continuation_count i) (received_data i).
Definition with_waiting (w : bool) (i : Incoming) : Incoming :=
  mkIncoming (received_bytes i) (header_block i) (headers_end_stream i) w (continuation_count i) (received_data i).
Definition put_send_window (w : Z) (c : t) : t := set_windows (mkWindows (connection_recv_window_ (windows c)) w) c.
Definition put_recv_window (w : Z) (c : t) : t := set_windows (mkWindows w (connection_send_window_ (windows c))) c.

Definition kMaxContinuationFrames : Z := 16.
Definition kMaxHeaderBlockSize : Z := 262144.

(** [Session(conn)], with the bridges that are set on it. *)
Definition init (conn : bool) (b : Bridges) : t :=
  mk conn (mkProgress 0 false false false false) ∅ [] HpackDecoder.init HpackEncoder.init b PeerSettings LocalSettings
     (mkWindows (initial_window_size LocalSettings) (initial_window_size PeerSettings)) 0 [].

Definition stream_state (id : Z) (c : t) : StreamState :=
  match streams_ c !! id with Some s => state s | None => closed end.
Definition counts_as_open (s : StreamEntry) : bool :=
  bool_decide (state s = open \/ state s = half_closed_local \/ state s = half_closed_remote).
Definition open_stream_count (c : t) : Z := zlen (filter (fun p => counts_as_open p.2 = true) (map_to_list (streams_ c))).

(** [None] is [nullptr]. *)
Definition get_or_create_stream (id : Z) (c : t) : option Z * t :=
  if id =? 0 then (None, c)
  else
    match streams_ c !! id with
    | Some _ => (Some id, c)
    | None =>
        let s := mkStream open (incoming new_stream)
                   (with_send_window (initial_window_size (peer_settings_ c))
                      (with_recv_window (initial_window_size (local_settings_ c)) (flow new_stream))) (priority new_stream) in
        let c := assign id s c in
        (Some id, if last_stream_id_ c <? id then set_last_stream id c else c)
    end.

Section Session.
Variable little : bool.

(** * Sending *)
Definition send_frame (frame : Frame) (c : t) : outcome t :=
  if negb (conn_ c) then Ok c
  else
    out ← FrameCodec.encode_frame little frame ByteBuffer.default;
    data ← ByteBuffer.readable_span out;
    Ok (emit [Write data] c).
(** [if (conn_) conn_->close();] *)
Definition close_conn (c : t) : t := if conn_ c then emit [Close] c else c.

(** [append_setting(id, value)] *)
Definition setting (id value : Z) : bytes :=
  [u8 (Z.land (Z.shiftr id 8) 255); u8 (Z.land id 255)] ++ FrameCodec.put_u32 value.
Definition server_settings (s : Settings) : bytes :=
  setting 1 (header_table_size s) ++ (if negb (enable_push s) then setting 2 0 else [])
  ++ setting 3 (max_concurrent_streams s) ++ setting 4 (initial_window_size s) ++ setting 5 (max_frame_size s)
  ++ setting 6 (max_header_list_size s).
Definition send_server_settings (c : t) : outcome t :=
  let p := progress c in
  if server_settings_sent_ p then Ok c
  else
    let c := set_progress (mkProgress (frames_received_ p) (seen_non_settings_frame_ p) true (settings_ack_received_ p) (awaiting_settings_ack_ p)) c in
    let payload := server_settings (local_settings_ c) in
    c ← send_frame (mkFrame (mkHeader (u32 (zlen payload)) type_settings flag_none 0) payload) c;
    let p := progress c in
    Ok (set_progress (mkProgress (frames_received_ p) (seen_non_settings_frame_ p) (server_settings_sent_ p) (settings_ack_received_ p) true) c).

Definition on_preface_received (c : t) : outcome (bool * t) :=
  if negb (conn_ c) then Ok (false, c) else c ← send_server_settings c; Ok (true, c).

(** [send_frame(make_goaway(error, last_stream_id_)); conn_->close();] *)
Definition goaway_and_close (error : Z) (c : t) : outcome t :=
  c ← send_frame (FrameCodec.make_goaway error (last_stream_id_ c)) c; Ok (close_conn c).

(** The loop of [apply_peer_settings], six bytes a round; a value out of range ends it. *)
Fixpoint apply_settings_loop (payload : bytes) (c : t) : outcome t :=
  match payload with
  | p0 :: p1 :: p2 :: p3 :: p4 :: p5 :: payload =>
      let id := u16 (Z.lor (Z.shiftl p0 8) p1) in
      let value := Z.lor (Z.lor (Z.lor (Z.shiftl p2 24) (Z.shiftl p3 16)) (Z.shiftl p4 8)) p5 in
      let s := peer_settings_ c in
      if id =? 1 then
        apply_settings_loop payload
          (set_encoder (HpackEncoder.set_max_table_size value (hpack_encoder_ c))
             (set_peer (mkSettings value (enable_push s) (max_concurrent_streams s) (initial_window_size s) (max_frame_size s) (max_header_list_size s)) c))
      else if id =? 2 then
        apply_settings_loop payload
          (set_peer (mkSettings (header_table_size s) (negb (value =? 0)) (max_concurrent_streams s) (initial_window_size s) (max_frame_size s) (max_header_list_size s)) c)
      else if id =? 3 then
        apply_settings_loop payload
          (set_peer (mkSettings (header_table_size s) (enable_push s) value (initial_window_size s) (max_frame_size s) (max_header_list_size s)) c)
      else if id =? 4 then
        if 2147483647 <? value then goaway_and_close flow_control_error c
        else
          apply_settings_loop payload
            (set_peer (mkSettings (header_table_size s) (enable_push s) (max_concurrent_streams s) value (max_frame_size s) (max_header_list_size s)) c)
      else if id =? 5 then
        if (value <? 16384) || (16777215 <? value) then goaway_and_close protocol_error c
        else
          apply_settings_loop payload
            (set_peer (mkSettings (header_table_size s) (enable_push s) (max_concurrent_streams s) (initial_window_size s) value (max_header_list_size s)) c)
      else if id =? 6 then
        apply_settings_loop payload
          (set_peer (mkSettings (header_table_size s) (enable_push s) (max_concurrent_streams s) (initial_window_size s) (max_frame_size s) value) c)
      else apply_settings_loop payload c
  | _ => Ok c
  end.
Definition apply_peer_settings (frame : Frame) (c : t) : outcome t :=
  if negb (zlen (payload frame) mod 6 =? 0) then Ok c else apply_settings_loop (payload frame) c.

Definition send_window_update (id increment : Z) (c : t) : outcome t :=
  if increment =? 0 then Ok c
  else send_frame (mkFrame (mkHeader 4 type_window_update flag_none id) (FrameCodec.put_u31 increment)) c.

Definition kWindowUpdateThreshold : Z := 32768.

Definition check_and_send_window_update (id bytes_consumed : Z) (c : t) : outcome t :=
  if bytes_consumed =? 0 then Ok c
  else
    let initial := initial_window_size (local_settings_ c) in
    if id =? 0 then
      if (connection_recv_window_ (windows c) <? initial / 2) || (kWindowUpdateThreshold <=? bytes_consumed) then
        let increment := u32 (initial - connection_recv_window_ (windows c)) in
        if 0 <? increment then send_window_update 0 increment (put_recv_window initial c) else Ok c
      else Ok c
    else
      match streams_ c !! id with
      | None => Ok c
      | Some stream =>
          if (recv_window (flow stream) <? initial / 2) || (kWindowUpdateThreshold <=? bytes_consumed) then
            let increment := u32 (initial - recv_window (flow stream)) in
            if 0 <? increment then
              send_window_update id increment (assign id (set_flow (with_recv_window initial (flow stream)) stream) c)
            else Ok c
          else Ok c
      end.

(** The local end is closed: [open] becomes [half_closed_local], [half_closed_remote] is erased. *)
Definition close_local (id : Z) (c : t) : t :=
  match streams_ c !! id with
  | None => c
  | Some s =>
      match state s with
      | open => assign id (set_state half_closed_local s) c
      | half_closed_remote => erase id c
      | _ => c
      end
  end.

Definition rst_frame (id error : Z) : Frame :=
  mkFrame (mkHeader 4 type_rst_stream flag_none id) (FrameCodec.put_u32 error).
Definition send_rst_stream (id error : Z) (c : t) : outcome t :=
  if id =? 0 then Ok c
  else
    c ← send_frame (rst_frame id error) c;
    Ok (match streams_ c !! id with Some _ => erase id c | None => c end).

Definition send_goaway (error : Z) (c : t) : outcome t :=
  c ← send_frame (FrameCodec.make_goaway error (last_stream_id_ c)) c;
  Ok (if goaway_bridge_ (bridges c) then emit [Goaway error (last_stream_id_ c)] c else c).

Definition close_gracefully (c : t) : outcome t :=
  if negb (conn_ c) then Ok c
  else
    c ← send_frame (FrameCodec.make_goaway no_error (last_stream_id_ c)) c;
    let c := set_queue [] c in
    Ok (set_streams ((fun s => set_flow (with_pending (pending_write (flow s)) false (flow s)) s) <$> streams_ c) c).

Definition send_headers (id : Z) (headers : list (bytes * bytes)) (end_stream : bool) (c : t) : outcome t :=
  if negb (conn_ c) || (id =? 0) then Ok c
  else
    '(header_block, encoder) ← HpackEncoder.encode_headers headers (hpack_encoder_ c) [];
    let c := set_encoder encoder c in
    let flags := if end_stream then Z.lor flag_end_headers flag_end_stream else flag_end_headers in
    c ← send_frame (mkFrame (mkHeader (u32 (zlen header_block)) type_headers flags id) header_block) c;
    Ok (if end_stream then close_local id c else c).

Definition data_frame (id : Z) (data : bytes) (end_stream : bool) : Frame :=
  mkFrame (mkHeader (u32 (zlen data)) type_data (if end_stream then flag_end_stream else flag_none) id) data.

(** The chunk at [offset]: what is left, the frame size of the peer and both windows bound it. *)
Definition chunk_size (data : bytes) (offset : Z) (s : StreamEntry) (c : t) : Z :=
  let available_window := Z.min (connection_send_window_ (windows c)) (send_window (flow s)) in
  let remaining := zlen data - offset in
  u32 (Z.min (max_frame_size (peer_settings_ c)) (Z.min remaining available_window)).

(** One frame of the data, and the windows after it. *)
Definition send_chunk (id : Z) (data : bytes) (offset chunk : Z) (end_stream : bool) (c : t) : outcome t :=
  let is_last := zlen data <=? offset + chunk in
  part ← rd_range data offset chunk;
  c ← send_frame (data_frame id part (is_last && end_stream)) c;
  let c := put_send_window (u32 (connection_send_window_ (windows c) - chunk)) c in
  s ← deref id c;
  Ok (assign id (set_flow (with_send_window (u32 (send_window (flow s) - chunk)) (flow s)) s) c).

(** [while (offset < len)] of [send_data]; the flag is false when it parks the rest and returns. *)
Fixpoint send_loop (fuel : nat) (id : Z) (data : bytes) (offset : Z) (end_stream : bool) (c : t) : outcome (bool * t) :=
  if offset <? zlen data then
    match fuel with
    | O => Diverge
    | S fuel =>
        s ← deref id c;
        let available_window := Z.min (connection_send_window_ (windows c)) (send_window (flow s)) in
        if available_window =? 0 then
          rest ← rd_range data offset (zlen data - offset);
          let c := assign id (set_flow (with_pending (mkPending rest 0 end_stream) true (flow s)) s) c in
          Ok (false, set_queue (pending_write_queue_ c ++ [id]) c)
        else
          let chunk := chunk_size data offset s c in
          c ← send_chunk id data offset chunk end_stream c;
          send_loop fuel id data (offset + chunk) end_stream c
    end
  else Ok (true, c).

(** The branch for [end_stream] inside the first test can not be taken: its condition
    contradicts the test. *)
Definition send_data (id : Z) (data : bytes) (end_stream : bool) (c : t) : outcome t :=
  if negb (conn_ c) || (id =? 0) then Ok c
  else
    match streams_ c !! id with
    | None => Ok c
    | Some s =>
        if has_pending_write (flow s) then
          let pw := pending_write (flow s) in
          let pw := mkPending (pw_data pw ++ data) (pw_offset pw) (if end_stream then true else pw_end_stream pw) in
          Ok (assign id (set_flow (with_pending pw true (flow s)) s) c)
        else if zlen data =? 0 then
          if end_stream then c ← send_frame (data_frame id [] true) c; Ok (close_local id c) else Ok c
        else
          '(sent, c) ← send_loop (S (List.length data)) id data 0 end_stream c;
          Ok (if (sent : bool) && end_stream then close_local id c else c)
    end.

(** What the overload for buffers does when the body fits in a frame and in both windows: the
    header and the body are two writes. *)
Definition send_headed (id : Z) (data : bytes) (end_stream : bool) (s : StreamEntry) (c : t) : outcome t :=
  let payload_len := u32 (zlen data) in
  hdr ← ByteBuffer.append_u8 little (u8 (Z.land (Z.shiftr payload_len 16) 255)) (ByteBuffer.with_capacity 9);
  hdr ← ByteBuffer.append_u8 little (u8 (Z.land (Z.shiftr payload_len 8) 255)) hdr;
  hdr ← ByteBuffer.append_u8 little (u8 (Z.land payload_len 255)) hdr;
  hdr ← ByteBuffer.append_u8 little type_data hdr;
  hdr ← ByteBuffer.append_u8 little (if end_stream then flag_end_stream else flag_none) hdr;
  hdr ← ByteBuffer.append_u32 little (Z.land id 2147483647) hdr;
  hdr ← ByteBuffer.readable_span hdr;
  let c := emit [Write hdr; Write data] c in
  let c := put_send_window (u32 (connection_send_window_ (windows c) - payload_len)) c in
  let c := assign id (set_flow (with_send_window (u32 (send_window (flow s) - payload_len)) (flow s)) s) c in
  Ok (if end_stream then close_local id c else c).

(** The overload for a buffer that it takes over. *)
Definition send_data_buffer (id : Z) (body : ByteBuffer.t) (end_stream : bool) (c : t) : outcome t :=
  data ← ByteBuffer.readable_span body;
  let len := zlen data in
  if len =? 0 then send_data id [] end_stream c
  else if negb (conn_ c) || (id =? 0) then Ok c
  else
    match streams_ c !! id with
    | None => send_data id data end_stream c
    | Some s =>
        if has_pending_write (flow s) then send_data id data end_stream c
        else
          let available_window := Z.min (connection_send_window_ (windows c)) (send_window (flow s)) in
          if (len <=? available_window) && (len <=? max_frame_size (peer_settings_ c)) then send_headed id data end_stream s c
          else send_data id data end_stream c
    end.

Definition send_simple_response (id status : Z) (content_type body : bytes) (c : t) : outcome t :=
  if negb (conn_ c) || (id =? 0) then Ok c
  else
    let headers := [(str ":status", to_string status)]
      ++ (if bool_decide (content_type = []) then [] else [(str "content-type", content_type)])
      ++ (if bool_decide (body = []) then [] else [(str "content-length", to_string (zlen body))]) in
    c ← send_headers id headers (bool_decide (body = [])) c;
    if bool_decide (body = []) then Ok c else send_data id body true c.

(** [while (pw.offset < pw.data.size())]; the flag is false when a window is exhausted. *)
Fixpoint flush_stream (fuel : nat) (id : Z) (c : t) : outcome (bool * t) :=
  s ← deref id c;
  let pw := pending_write (flow s) in
  if pw_offset pw <? zlen (pw_data pw) then
    match fuel with
    | O => Diverge
    | S fuel =>
        let available_window := Z.min (connection_send_window_ (windows c)) (send_window (flow s)) in
        if available_window =? 0 then Ok (false, c)
        else
          let chunk := chunk_size (pw_data pw) (pw_offset pw) s c in
          c ← send_chunk id (pw_data pw) (pw_offset pw) chunk (pw_end_stream pw) c;
          s ← deref id c;
          let c := assign id (set_flow (with_pending (mkPending (pw_data pw) (pw_offset pw + chunk) (pw_end_stream pw)) (has_pending_write (flow s)) (flow s)) s) c in
          flush_stream fuel id c
    end
  else Ok (true, c).

(** [while (!pending_write_queue_.empty())]: a round pops or returns. *)
Fixpoint flush_loop (fuel : nat) (c : t) : outcome t :=
  match pending_write_queue_ c with
  | [] => Ok c
  | id :: queue =>
      match fuel with
      | O => Diverge
      | S fuel =>
          match streams_ c !! id with
          | None => flush_loop fuel (set_queue queue c)
          | Some s =>
              if negb (has_pending_write (flow s)) then flush_loop fuel (set_queue queue c)
              else
                '(drained, c) ← flush_stream (S (List.length (pw_data (pending_write (flow s))))) id c;
                if negb (drained : bool) then Ok c
                else
                  s ← deref id c;
                  let pw := pending_write (flow s) in
                  let c := assign id (set_flow (with_pending pw false (flow s)) s) c in
                  let c := set_queue queue c in
                  flush_loop fuel (if pw_end_stream pw then close_local id c else c)
          end
      end
  end.
Definition flush_pending_writes (c : t) : outcome t := flush_loop (List.length (pending_write_queue_ c)) c.

(** * The application's calls *)
Inductive call : Type :=
| SendHeaders (id : Z) (headers : list (bytes * bytes)) (end_stream : bool)
| SendData (id : Z) (data : bytes) (end_stream : bool)
| SendBuffer (id : Z) (body : ByteBuffer.t) (end_stream : bool)
| SendSimple (id status : Z) (content_type body : bytes)
| SendReset (id error : Z)
| SendGoaway (error : Z)
| CloseGracefully.

Definition run_call (k : call) (c : t) : outcome t :=
  match k with
  | SendHeaders id headers end_stream => send_headers id headers end_stream c
  | SendData id data end_stream => send_data id data end_stream c
  | SendBuffer id body end_stream => send_data_buffer id body end_stream c
  | SendSimple id status content_type body => send_simple_response id status content_type body c
  | SendReset id error => send_rst_stream id error c
  | SendGoaway error => send_goaway error c
  | CloseGracefully => close_gracefully c
  end.
Fixpoint run_calls (l : list call) (c : t) : outcome t :=
  match l with
  | [] => Ok c
  | k :: l => c ← run_call k c; run_calls l c
  end.

Variable react : list event -> list call.

(** A bridge that is set is called, and calls back. *)
Definition call_bridge (is_set : bool) (e : event) (c : t) : outcome t :=
  if is_set then let c := emit [e] c in run_calls (react (trace_ c)) c else Ok c.

(** * Receiving *)
Definition validate_stream_state (id frame_type : Z) (c : t) : outcome (bool * t) :=
  if id =? 0 then Ok (true, c)
  else
    let of_stream := (frame_type =? type_data) || (frame_type =? type_headers) || (frame_type =? type_continuation) in
    match streams_ c !! id with
    | None =>
        if of_stream && (id <=? last_stream_id_ c) && (id mod 2 =? 1) then Ok (false, c) else Ok (true, c)
    | Some s =>
        if of_stream then
          if bool_decide (state s = half_closed_remote \/ state s = closed) then
            c ← send_rst_stream id stream_closed c; Ok (false, c)
          else Ok (true, c)
        else if (frame_type =? type_window_update) && bool_decide (state s = closed) then Ok (false, c)
        else Ok (true, c)
    end.

Definition header_list_size (headers : list HpackHeaderField) : Z :=
  foldr (fun h n => 32 + zlen (field_name h) + zlen (field_value h) + n) 0 headers.
Definition is_pseudo (h : HpackHeaderField) : bool :=
  match field_name h with c :: _ => c =? 58 | [] => false end.
(** [name: value\r\n] *)
Definition plain_line (h : HpackHeaderField) : bytes := field_name h ++ str ": " ++ field_value h ++ [13; 10].

Definition maybe_decode_hpack (id : Z) (c : t) : outcome (bool * t) :=
  stream ← deref id c;
  '(ok, decoded_headers, decoder) ← HpackDecoder.decode (header_block (incoming stream)) (hpack_decoder_ c);
  let c := set_decoder decoder c in
  if negb (ok : bool) then Ok (false, c)
  else if bool_decide (decoded_headers = []) then Ok (true, c)
  else if max_header_list_size (local_settings_ c) <? header_list_size decoded_headers then Ok (false, c)
  else if received_data (incoming stream) && existsb is_pseudo decoded_headers then Ok (false, c)
  else
    let plain := flat_map plain_line decoded_headers in
    Ok (true, assign id (set_incoming (with_block plain (incoming stream)) stream) c).

Definition finalize_header_block (id : Z) (end_stream : bool) (c : t) : outcome t :=
  stream ← deref id c;
  c ← call_bridge (headers_bridge_ (bridges c)) (Headers id (header_block (incoming stream)) end_stream) c;
  stream ← deref id c;
  let stream := set_incoming (with_waiting false (with_block [] (incoming stream))) stream in
  Ok (assign id (if end_stream then set_state half_closed_remote stream else stream) c).

(** [return close_with_goaway(error);] and [send_goaway(error); conn_->close(); return false;] *)
Definition close_with_goaway (error : Z) (c : t) : outcome (bool * t) := c ← goaway_and_close error c; Ok (false, c).
Definition refuse (error : Z) (c : t) : outcome (bool * t) := c ← send_goaway error c; Ok (false, close_conn c).

(** A header block is complete: decode it and hand it on. *)
Definition finish_headers (id : Z) (end_stream : bool) (c : t) : outcome (bool * t) :=
  '(ok, c) ← maybe_decode_hpack id c;
  if negb (ok : bool) then refuse protocol_error c
  else c ← finalize_header_block id end_stream c; Ok (true, c).

Definition on_headers (frame : Frame) (c : t) : outcome (bool * t) :=
  let id := stream_id (header frame) in
  if id =? 0 then close_with_goaway protocol_error c
  else if Z.land id 1 =? 0 then close_with_goaway protocol_error c
  else if (id <=? last_stream_id_ c) && bool_decide (streams_ c !! id = None) then close_with_goaway protocol_error c
  else
    '(valid, c) ← validate_stream_state id type_headers c;
    if negb (valid : bool) then Ok (true, c)
    else if (max_concurrent_streams (local_settings_ c) <=? open_stream_count c) && bool_decide (streams_ c !! id = None) then
      c ← send_frame (rst_frame id refused_stream) c; Ok (true, c)
    else
      let '(stream, c) := get_or_create_stream id c in
      match stream with
      | None => close_with_goaway internal_error c
      | Some id =>
          stream ← deref id c;
          if waiting_continuation (incoming stream) then close_with_goaway protocol_error c
          else
            let end_stream := has_flag flag_end_stream frame in
            let i := incoming stream in
            let i := mkIncoming (received_bytes i) (payload frame) end_stream (waiting_continuation i) 0 (received_data i) in
            let c := assign id (set_incoming i stream) c in
            if kMaxHeaderBlockSize <? zlen (payload frame) then refuse enhance_your_calm c
            else if has_flag flag_end_headers frame then finish_headers id end_stream c
            else Ok (true, assign id (set_incoming (with_waiting true i) stream) c)
      end.

Definition on_data (frame : Frame) (c : t) : outcome (bool * t) :=
  let id := stream_id (header frame) in
  if id =? 0 then close_with_goaway protocol_error c
  else
    '(valid, c) ← validate_stream_state id type_data c;
    if negb (valid : bool) then Ok (true, c)
    else
      match streams_ c !! id with
      | None => close_with_goaway protocol_error c
      | Some stream =>
          if waiting_continuation (incoming stream) then close_with_goaway protocol_error c
          else
            let end_stream := has_flag flag_end_stream frame in
            let data_size := zlen (payload frame) in
            let i := incoming stream in
            let i := mkIncoming (u64 (received_bytes i + data_size)) (header_block i) (headers_end_stream i) (waiting_continuation i) (continuation_count i) true in
            let stream := set_incoming i stream in
            let c := assign id stream c in
            if connection_recv_window_ (windows c) <? data_size then close_with_goaway flow_control_error c
            else
              let c := put_recv_window (u32 (connection_recv_window_ (windows c) - u32 data_size)) c in
              if recv_window (flow stream) <? data_size then close_with_goaway flow_control_error c
              else
                let stream := set_flow (with_recv_window (u32 (recv_window (flow stream) - u32 data_size)) (flow stream)) stream in
                let c := assign id stream c in
                c ← call_bridge (data_bridge_ (bridges c)) (Data id (payload frame) end_stream) c;
                c ← check_and_send_window_update 0 data_size c;
                c ← check_and_send_window_update id data_size c;
                if end_stream then stream ← deref id c; Ok (true, assign id (set_state half_closed_remote stream) c)
                else Ok (true, c)
      end.

Definition on_continuation (frame : Frame) (c : t) : outcome (bool * t) :=
  let id := stream_id (header frame) in
  if id =? 0 then close_with_goaway protocol_error c
  else
    '(valid, c) ← validate_stream_state id type_continuation c;
    if negb (valid : bool) then Ok (true, c)
    else
      match streams_ c !! id with
      | None => close_with_goaway protocol_error c
      | Some stream =>
          if negb (waiting_continuation (incoming stream)) then close_with_goaway protocol_error c
          else
            let i := incoming stream in
            let count := u32 (continuation_count i + 1) in
            let i := mkIncoming (received_bytes i) (header_block i ++ payload frame) (headers_end_stream i) (waiting_continuation i) count (received_data i) in
            let c := assign id (set_incoming i stream) c in
            if kMaxContinuationFrames <? count then refuse enhance_your_calm c
            else if kMaxHeaderBlockSize <? zlen (header_block i) then refuse enhance_your_calm c
            else if has_flag flag_end_headers frame then finish_headers id (headers_end_stream i) c
            else Ok (true, c)
      end.

Definition on_window_update (frame : Frame) (c : t) : outcome (bool * t) :=
  let id := stream_id (header frame) in
  if negb (length (header frame) =? 4) then close_with_goaway frame_size_error c
  else
    match payload frame with
    | p0 :: p1 :: p2 :: p3 :: _ =>
        let increment := Z.lor (Z.lor (Z.lor (Z.shiftl (Z.land p0 127) 24) (Z.shiftl p1 16)) (Z.shiftl p2 8)) p3 in
        if increment =? 0 then
          if id =? 0 then close_with_goaway protocol_error c
          else c ← send_frame (rst_frame id protocol_error) c; Ok (true, c)
        else if id =? 0 then
          let old_window := connection_send_window_ (windows c) in
          let c := put_send_window (u32 (old_window + increment)) c in
          if connection_send_window_ (windows c) <? old_window then close_with_goaway flow_control_error c
          else c ← flush_pending_writes c; Ok (true, c)
        else
          match streams_ c !! id with
          | None => Ok (true, c)
          | Some stream =>
              let old_window := send_window (flow stream) in
              let window := u32 (old_window + increment) in
              let c := assign id (set_flow (with_send_window window (flow stream)) stream) c in
              if window <? old_window then c ← send_rst_stream id flow_control_error c; Ok (true, c)
              else c ← flush_pending_writes c; Ok (true, c)
          end
    | _ => Ok (true, c)
    end.

Definition on_priority (frame : Frame) (c : t) : outcome (bool * t) :=
  let id := stream_id (header frame) in
  if negb (length (header frame) =? 5) || (id =? 0) then close_with_goaway protocol_error c
  else
    match payload frame with
    | p0 :: p1 :: p2 :: p3 :: p4 :: _ =>
        let stream := match streams_ c !! id with Some s => s | None => new_stream end in
        let raw_dep := Z.lor (Z.lor (Z.lor (Z.shiftl p0 24) (Z.shiftl p1 16)) (Z.shiftl p2 8)) p3 in
        let p := mkPriority (Z.land raw_dep 2147483647) (u8 (p4 + 1)) (negb (Z.land raw_dep 2147483648 =? 0)) in
        Ok (true, assign id (set_priority p stream) c)
    | _ => close_with_goaway protocol_error c
    end.

Definition ack_received (c : t) : t :=
  let p := progress c in
  set_progress (mkProgress (frames_received_ p) (seen_non_settings_frame_ p) (server_settings_sent_ p) true false) c.

Definition on_settings (frame : Frame) (c : t) : outcome (bool * t) :=
  if negb (stream_id (header frame) =? 0) then close_with_goaway protocol_error c
  else if negb (has_flag flag_ack frame) then
    if negb (length (header frame) mod 6 =? 0) then close_with_goaway frame_size_error c
    else
      c ← apply_peer_settings frame c;
      c ← send_frame FrameCodec.make_settings_ack c; Ok (true, c)
  else if negb (length (header frame) =? 0) then close_with_goaway frame_size_error c
  else Ok (true, ack_received c).

Definition on_ping (frame : Frame) (c : t) : outcome (bool * t) :=
  if negb (length (header frame) =? 8) || negb (stream_id (header frame) =? 0) then close_with_goaway frame_size_error c
  else if negb (has_flag flag_ack frame) then
    c ← send_frame (FrameCodec.make_ping_ack frame) c; Ok (true, c)
  else Ok (true, c).

Definition on_rst_stream (frame : Frame) (c : t) : outcome (bool * t) :=
  let id := stream_id (header frame) in
  if negb (length (header frame) =? 4) || (id =? 0) then close_with_goaway protocol_error c
  else Ok (true, match streams_ c !! id with Some _ => erase id c | None => c end).

(** The first frame has to be SETTINGS. *)
Definition on_first_frame (frame : Frame) (c : t) : outcome (bool * t) :=
  if negb (type (header frame) =? type_settings) then close_with_goaway protocol_error c
  else if has_flag flag_ack frame && negb (length (header frame) =? 0) then close_with_goaway frame_size_error c
  else
    c ← (if negb (has_flag flag_ack frame) then
           c ← apply_peer_settings frame c; send_frame FrameCodec.make_settings_ack c
         else Ok (ack_received c));
    let p := progress c in
    Ok (true, set_progress (mkProgress (frames_received_ p) true (server_settings_sent_ p) (settings_ack_received_ p) (awaiting_settings_ack_ p)) c).

Definition handle_frame (frame : Frame) (c : t) : outcome (bool * t) :=
  if negb (conn_ c) then Ok (false, c)
  else if negb (seen_non_settings_frame_ (progress c)) then on_first_frame frame c
  else
    let ty := type (header frame) in
    if ty =? type_settings then on_settings frame c
    else if ty =? type_ping then on_ping frame c
    else if ty =? type_priority then on_priority frame c
    else if ty =? type_headers then on_headers frame c
    else if ty =? type_data then on_data frame c
    else if ty =? type_continuation then on_continuation frame c
    else if ty =? type_window_update then on_window_update frame c
    else if ty =? type_rst_stream then on_rst_stream frame c
    else if ty =? type_goaway then Ok (false, close_conn c)
    else Ok (true, c).

Definition count_frame (c : t) : t :=
  let p := progress c in
  set_progress (mkProgress (u64 (frames_received_ p + 1)) (seen_non_settings_frame_ p) (server_settings_sent_ p) (settings_ack_received_ p) (awaiting_settings_ack_ p)) c.

(** [while (true)]: a frame takes nine bytes of the input at least. *)
Fixpoint on_bytes_loop (fuel : nat) (input : ByteBuffer.t) (c : t) : outcome (bool * ByteBuffer.t * t) :=
  match fuel with
  | O => Diverge
  | S fuel =>
      '(frame, input) ← FrameCodec.try_decode (max_frame_size (local_settings_ c)) input;
      match frame with
      | None => Ok (true, input, c)
      | Some frame =>
          '(ok, c) ← handle_frame frame (count_frame c);
          if negb (ok : bool) then Ok (false, input, c) else on_bytes_loop fuel input c
      end
  end.
Definition on_bytes (input : ByteBuffer.t) (c : t) : outcome (bool * ByteBuffer.t * t) :=
  on_bytes_loop (S (Z.to_nat (ByteBuffer.readable_bytes input))) input c.

End Session.
End Http2Session.
