(* ===== verification/Http2SessionFacts.v ===== *)
(** Lemmas on the HTTP/2 session: its invariant, what each call of the application writes,
    and the account of its connection window. *)
From S2P Require Import Prelude Strings Endian ByteBuffer ByteBufferFacts Hpack HpackFacts Http2Frame.
From S2P Require Import Http2Session.
Import Http2 Http2Session.

(** * What a session writes *)
Definition bytes_of (e : event) : bytes := match e with Write data => data | _ => [] end.
Definition written (c : t) : bytes := flat_map bytes_of (trace_ c).
Definition frames_bytes (fs : list Frame) : bytes := flat_map frame_bytes fs.

(** The bytes of data in a list of frames. *)
Definition is_data (f : Frame) : bool := type (header f) =? type_data.
Definition data_of (f : Frame) : Z := if is_data f then zlen (payload f) else 0.
Definition data_total (fs : list Frame) : Z := foldr (fun f n => data_of f + n) 0 fs.

Lemma frames_bytes_app fs gs : frames_bytes (fs ++ gs) = frames_bytes fs ++ frames_bytes gs.
Proof. apply flat_map_app. Qed.
Lemma data_total_app fs gs : data_total (fs ++ gs) = data_total fs + data_total gs.
Proof. induction fs as [|f fs IH]; cbn; [done|]. fold (data_total (fs ++ gs)). rewrite IH. fold (data_total fs). lia. Qed.
Lemma data_total_cons f fs : data_total (f :: fs) = data_of f + data_total fs.
Proof. done. Qed.
Lemma data_total_nonneg fs : 0 <= data_total fs.
Proof.
  induction fs as [|f fs IH]; [done|]. rewrite data_total_cons. unfold data_of. pose proof (zlen_nonneg (payload f)). case_if; lia.
Qed.
(** The bytes of data on one stream. *)
Definition data_on (id : Z) (fs : list Frame) : Z :=
  foldr (fun f n => (if stream_id (header f) =? id then data_of f else 0) + n) 0 fs.
Lemma data_on_app id fs gs : data_on id (fs ++ gs) = data_on id fs + data_on id gs.
Proof. induction fs as [|f fs IH]; cbn; [done|]. fold (data_on id (fs ++ gs)). rewrite IH. fold (data_on id fs). lia. Qed.
Lemma data_on_nonneg id fs : 0 <= data_on id fs.
Proof.
  induction fs as [|f fs IH]; [done|]. cbn. fold (data_on id fs). unfold data_of. pose proof (zlen_nonneg (payload f)). repeat case_if; lia.
Qed.
Lemma written_emit es c : written (emit es c) = written c ++ flat_map bytes_of es.
Proof. apply flat_map_app. Qed.

Section Facts.
Variable little : bool.

Lemma send_frame_ok f c : conn_ c = true -> send_frame little f c = Ok (emit [Write (frame_bytes f)] c).
Proof.
  intros Hc. unfold send_frame. rewrite Hc. cbn [negb].
  destruct (encode_frame_view little f ByteBuffer.default [] view_default) as (b & -> & Hb). mstep.
  by rewrite (view_span _ _ Hb).
Qed.

(** * The invariant *)
Definition is_window (w : Z) : Prop := 0 <= w < 4294967296.
Record flow_ok (f : Flow) : Prop := mkFlowOk {
  ok_send : is_window (send_window f);
  ok_recv : 0 <= recv_window f <= 65535;
  ok_pending : 0 <= pw_offset (pending_write f) <= zlen (pw_data (pending_write f))
}.
Definition stream_ok (id : Z) (s : StreamEntry) : Prop := 0 < id < 2147483648 /\ flow_ok (flow s).

(** The limits that the peer may set. *)
Definition peer_ok (s : Settings) : Prop :=
  16384 <= max_frame_size s < 16777216 /\ is_window (initial_window_size s).
Definition windows_ok (w : Windows) : Prop :=
  is_window (connection_send_window_ w) /\ 0 <= connection_recv_window_ w <= 65535.
Definition encoder_ok (e : HpackEncoder.t) : Prop := table_wf e /\ HpackTable.max_table_size_ e < 4294967296.

Record session_ok (c : t) : Prop := mkSessionOk {
  ok_conn : conn_ c = true;
  ok_streams : map_Forall stream_ok (streams_ c);
  ok_decoder : decoder_ok (hpack_decoder_ c);
  ok_encoder : encoder_ok (hpack_encoder_ c);
  ok_peer : peer_ok (peer_settings_ c);
  ok_local : local_settings_ c = LocalSettings;
  ok_windows : windows_ok (windows c)
}.

(** * The windows of the streams
    [spends m m' fs]: the data of the frames [fs] is within the windows that the streams have
    in [m], and the streams that are left in [m'] have paid for it; no stream is new. *)
Definition spends (m m' : gmap Z StreamEntry) (fs : list Frame) : Prop := forall id,
  match m !! id with
  | Some s => data_on id fs <= send_window (flow s)
      /\ forall s', m' !! id = Some s' -> send_window (flow s') = send_window (flow s) - data_on id fs
  | None => data_on id fs = 0 /\ m' !! id = None
  end.

Lemma spends_same m fs : map_Forall stream_ok m -> (forall id, data_on id fs = 0) -> spends m m fs.
Proof.
  intros Hm Hfs id. rewrite Hfs. destruct (m !! id) as [s|] eqn:E; [|done].
  destruct (Hm id s E) as [_ [[? ?] _ _]]. split; [lia|]. intros s' [= <-]. lia.
Qed.
Lemma spends_insert m id s s' : map_Forall stream_ok m -> m !! id = Some s -> send_window (flow s') = send_window (flow s) ->
  spends m (<[id := s']> m) [].
Proof.
  intros Hm Hs Hw j. change (data_on j []) with 0. destruct (m !! j) as [x|] eqn:E.
  - destruct (Hm j x E) as [_ [[? ?] _ _]]. split; [lia|]. intros y [[<- <-]|[_ Hy]]%lookup_insert_Some; [|replace y with x by congruence; lia].
    replace x with s by congruence. lia.
  - split; [done|]. apply lookup_insert_None. split; [done|]. intros ->. congruence.
Qed.
Lemma spends_delete m id : map_Forall stream_ok m -> spends m (delete id m) [].
Proof.
  intros Hm j. change (data_on j []) with 0. destruct (m !! j) as [x|] eqn:E.
  - destruct (Hm j x E) as [_ [[? ?] _ _]]. split; [lia|]. intros y [_ Hy]%lookup_delete_Some. replace y with x by congruence. lia.
  - split; [done|]. by apply lookup_delete_None; right.
Qed.
Lemma spends_map m f : map_Forall stream_ok m -> (forall s, send_window (flow (f s)) = send_window (flow s)) -> spends m (f <$> m) [].
Proof.
  intros Hm Hf j. change (data_on j []) with 0. rewrite lookup_fmap. destruct (m !! j) as [x|] eqn:E; [|done].
  destruct (Hm j x E) as [_ [[? ?] _ _]]. split; [lia|]. intros y [= <-]. rewrite Hf. lia.
Qed.
Lemma spends_control m f : map_Forall stream_ok m -> is_data f = false -> spends m m [f].
Proof. intros Hm Hf. apply spends_same; [done|]. intros id. cbn. unfold data_of. rewrite Hf. by case_if. Qed.
Lemma spends_chunk m id s s' f : map_Forall stream_ok m -> m !! id = Some s -> stream_id (header f) = id ->
  0 <= data_of f <= send_window (flow s) -> send_window (flow s') = send_window (flow s) - data_of f -> spends m (<[id := s']> m) [f].
Proof.
  intros Hm Hs Hid Hn Hw j. unfold data_on. cbn [foldr]. rewrite Hid, Z.add_0_r. destruct (Z.eqb_spec id j) as [->|Hne].
  - rewrite Hs. split; [lia|]. rewrite lookup_insert_eq. by intros y [= <-].
  - rewrite lookup_insert_ne by done. destruct (m !! j) as [x|] eqn:E; [|done].
    destruct (Hm j x E) as [_ [[? ?] _ _]]. split; [lia|]. intros y [= <-]. lia.
Qed.
Lemma spends_trans m1 m2 m3 fs gs : spends m1 m2 fs -> spends m2 m3 gs -> spends m1 m3 (fs ++ gs).
Proof.
  intros H1 H2 id. pose proof (data_on_nonneg id fs). specialize (H1 id). specialize (H2 id). rewrite data_on_app. destruct (m1 !! id) as [s1|].
  - destruct H1 as [Hle Hw]. destruct (m2 !! id) as [s2|].
    + specialize (Hw s2 eq_refl). destruct H2 as [Hle2 Hw2]. split; [lia|]. intros s3 Hs3. specialize (Hw2 s3 Hs3). lia.
    + destruct H2 as [-> Hn]. split; [lia|]. intros s3 Hs3. congruence.
  - destruct H1 as [-> Hn]. rewrite Hn in H2. destruct H2 as [-> Hn2]. done.
Qed.

(** The stream may be used through a pointer, and the application can not have ended it. *)
Definition alive (id : Z) (c : t) : Prop :=
  exists s, streams_ c !! id = Some s /\ state s <> half_closed_remote /\ state s <> closed.

(** * What a call may do
    [ext c c' fs]: the session goes from [c] to [c'] and writes the frames [fs]; the
    connection window and those of the streams pay for their data. *)
Record ext (c c' : t) (fs : list Frame) : Prop := mkExt {
  ext_written : written c' = written c ++ frames_bytes fs;
  ext_frames : Forall frame_wf fs;
  ext_window : connection_send_window_ (windows c') = connection_send_window_ (windows c) - data_total fs;
  ext_last : last_stream_id_ c' = last_stream_id_ c;
  ext_peer : peer_settings_ c' = peer_settings_ c;
  ext_decoder : hpack_decoder_ c' = hpack_decoder_ c;
  ext_progress : progress c' = progress c;
  ext_bridges : bridges c' = bridges c;
  ext_spends : spends (streams_ c) (streams_ c') fs;
  ext_ok : session_ok c'
}.

Lemma ext_refl c : session_ok c -> ext c c [].
Proof. intros. split; try done; cbn; [by rewrite app_nil_r|lia|]. apply spends_same; [by apply ok_streams|done]. Qed.
Lemma ext_trans c1 c2 c3 fs gs : ext c1 c2 fs -> ext c2 c3 gs -> ext c1 c3 (fs ++ gs).
Proof.
  intros [] []. split; try congruence; try done.
  - rewrite ext_written1, ext_written0, frames_bytes_app. by rewrite <- app_assoc.
  - by apply Forall_app.
  - rewrite data_total_app. lia.
  - by eapply spends_trans.
Qed.

(** A control frame. *)
Lemma ext_frame f c : session_ok c -> frame_wf f -> is_data f = false -> ext c (emit [Write (frame_bytes f)] c) [f].
Proof.
  intros [] Hf Hd. split; try done.
  - rewrite written_emit. cbn. by rewrite !app_nil_r.
  - by apply Forall_singleton.
  - cbn. unfold data_of. rewrite Hd. lia.
  - by apply spends_control.
Qed.
Lemma send_control f c : session_ok c -> frame_wf f -> is_data f = false ->
  exists c', send_frame little f c = Ok c' /\ ext c c' [f] /\ streams_ c' = streams_ c.
Proof.
  intros Hok Hf Hd. rewrite send_frame_ok by apply Hok. eexists. split; [done|]. split; [by apply ext_frame|done].
Qed.

Lemma put_u32_len v : zlen (FrameCodec.put_u32 v) = 4.
Proof. done. Qed.
Lemma goaway_wf e last : frame_wf (FrameCodec.make_goaway e last).
Proof. split; cbn; try done; lia. Qed.
Lemma rst_wf id e : 0 <= id < 2147483648 -> frame_wf (rst_frame id e).
Proof. intros. split; cbn; done. Qed.

(** * Changes of the table of streams *)
Lemma assign_ok id s c : session_ok c -> stream_ok id s -> session_ok (assign id s c).
Proof. intros [] Hs. split; try done. by apply map_Forall_insert_2. Qed.
Lemma erase_ok id c : session_ok c -> session_ok (erase id c).
Proof. intros []. split; try done. by apply map_Forall_delete. Qed.
Lemma ext_streams m c : session_ok c -> map_Forall stream_ok m -> spends (streams_ c) m [] -> ext c (set_streams m c) [].
Proof. intros [] Hm Hs. split; try done; [cbn; by rewrite app_nil_r|cbn; lia]. Qed.
Lemma ext_assign id s s' c : session_ok c -> streams_ c !! id = Some s -> stream_ok id s' -> send_window (flow s') = send_window (flow s) ->
  ext c (assign id s' c) [].
Proof.
  intros Hok Hs Hs' Hw. apply ext_streams; [done| |]; [by apply map_Forall_insert_2; [|apply Hok]|].
  by eapply spends_insert; [apply Hok| |].
Qed.
Lemma ext_erase id c : session_ok c -> ext c (erase id c) [].
Proof. intros Hok. apply ext_streams; [done|by apply map_Forall_delete, Hok|apply spends_delete, Hok]. Qed.

Lemma ext_queue q c : session_ok c -> ext c (set_queue q c) [].
Proof. intros []. split; try done; [cbn; by rewrite app_nil_r|cbn; lia|by apply spends_same]. Qed.
Lemma emit_ext e c : session_ok c -> bytes_of e = [] -> ext c (emit [e] c) [].
Proof.
  intros Hok He. split; try done; [|cbn; lia|by apply spends_same; [apply Hok|]|by destruct Hok].
  rewrite written_emit. cbn. by rewrite He.
Qed.

Lemma stream_get id s c : session_ok c -> streams_ c !! id = Some s -> stream_ok id s.
Proof. intros Hok Hs. by apply (ok_streams c Hok). Qed.
Lemma deref_stream id s c : streams_ c !! id = Some s -> deref id c = Ok s.
Proof. unfold deref. by intros ->. Qed.
Lemma assign_get id s c : streams_ (assign id s c) !! id = Some s.
Proof. apply lookup_insert_eq. Qed.

(** Streams stay, and those that are alive stay so. *)
Definition keeps (c c' : t) : Prop := forall id, alive id c -> alive id c'.
#[export] Instance keeps_preorder : PreOrder keeps.
Proof. split; unfold keeps; auto. Qed.
Lemma keeps_same c c' : streams_ c' = streams_ c -> keeps c c'.
Proof. intros E id (s & Hs & ?). exists s. by rewrite E. Qed.
Lemma keeps_assign id s s' c : streams_ c !! id = Some s -> state s' = state s -> keeps c (assign id s' c).
Proof.
  intros Hs E j (x & Hx & H1 & H2). destruct (decide (j = id)) as [->|Hne].
  - exists s'. rewrite assign_get, E. replace s with x by congruence. done.
  - exists x. unfold assign. cbn. by rewrite lookup_insert_ne.
Qed.

Lemma close_local_ext id c : session_ok c -> ext c (close_local id c) [] /\ keeps c (close_local id c).
Proof.
  intros Hok. unfold close_local. destruct (streams_ c !! id) as [s|] eqn:E; [|split; [by apply ext_refl|done]].
  pose proof (stream_get _ _ _ Hok E) as Hs.
  destruct (state s) eqn:Est; try (by split; [apply ext_refl|]).
  - split; [by apply (ext_assign id s)|].
    intros j (x & Hx & H1 & H2). destruct (decide (j = id)) as [->|Hne].
    + eexists. by rewrite assign_get.
    + exists x. unfold assign. cbn. by rewrite lookup_insert_ne.
  - split; [by apply ext_erase|].
    intros j (x & Hx & H1 & H2). destruct (decide (j = id)) as [->|Hne]; [congruence|].
    exists x. unfold erase. cbn. by rewrite lookup_delete_ne.
Qed.
Lemma close_local_queue id c : pending_write_queue_ (close_local id c) = pending_write_queue_ c.
Proof. unfold close_local. destruct (streams_ c !! id) as [x|]; [by destruct (state x)|done]. Qed.
Lemma close_local_encoder id c : hpack_encoder_ (close_local id c) = hpack_encoder_ c.
Proof. unfold close_local. destruct (streams_ c !! id) as [x|]; [by destruct (state x)|done]. Qed.

(** * Data *)
(** A body cut into frames: the last one carries the end of the stream. *)
Fixpoint data_frames (id : Z) (parts : list bytes) (fin : bool) : list Frame :=
  match parts with
  | [] => []
  | [p] => [data_frame id p fin]
  | p :: parts => data_frame id p false :: data_frames id parts fin
  end.
(** A part is not empty and fits in a frame of the peer. *)
Definition part_ok (c : t) (p : bytes) : Prop := 0 < zlen p <= max_frame_size (peer_settings_ c).

Lemma data_frames_cons id p parts fin : parts <> [] ->
  data_frames id (p :: parts) fin = data_frame id p false :: data_frames id parts fin.
Proof. by destruct parts. Qed.

Lemma data_frame_wf id p fin : 0 <= id < 2147483648 -> zlen p < 16777216 -> frame_wf (data_frame id p fin).
Proof.
  intros Hid Hp. pose proof (zlen_nonneg p). split; cbn; try done.
  - apply u32_id. unfold is_u32. lia.
  - by destruct fin.
Qed.

(** The chunk that a round sends. *)
Lemma chunk_ok id data off s c : session_ok c -> streams_ c !! id = Some s -> 0 <= off < zlen data ->
  Z.min (connection_send_window_ (windows c)) (send_window (flow s)) <> 0 ->
  let n := chunk_size data off s c in
  0 < n <= zlen data - off /\ n <= max_frame_size (peer_settings_ c) /\ n <= connection_send_window_ (windows c) /\ n <= send_window (flow s).
Proof.
  intros Hok Hs Hoff Hav. cbv zeta. unfold chunk_size.
  pose proof (stream_get _ _ _ Hok Hs) as [Hid [Hsw _ _]]. destruct (ok_windows c Hok) as [Hcw _]. destruct (ok_peer c Hok) as [Hm _].
  unfold is_window in *. set (n := Z.min (max_frame_size _) _).
  assert (0 < n /\ n <= zlen data - off /\ n <= max_frame_size (peer_settings_ c)
    /\ n <= connection_send_window_ (windows c) /\ n <= send_window (flow s)) as (? & ? & ? & ? & ?) by (unfold n; lia).
  rewrite u32_id by (unfold is_u32; lia). lia.
Qed.

Definition after_chunk (id n : Z) (s : StreamEntry) (data : bytes) (c : t) : t :=
  assign id (set_flow (with_send_window (send_window (flow s) - n) (flow s)) s)
    (put_send_window (connection_send_window_ (windows c) - n) (emit [Write data] c)).

Lemma send_chunk_ok id data off n fin s c : session_ok c -> streams_ c !! id = Some s -> 0 <= off -> 0 < n <= zlen data - off ->
  n <= max_frame_size (peer_settings_ c) -> n <= connection_send_window_ (windows c) -> n <= send_window (flow s) ->
  let p := take (Z.to_nat n) (drop (Z.to_nat off) data) in
  let f := data_frame id p ((zlen data <=? off + n) && fin) in
  let c' := after_chunk id n s (frame_bytes f) c in
  zlen p = n /\ send_chunk little id data off n fin c = Ok c' /\ ext c c' [f] /\ keeps c c'.
Proof.
  intros Hok Hs Hoff Hn Hm Hcw Hsw. cbv zeta. unfold send_chunk.
  pose proof (stream_get _ _ _ Hok Hs) as [Hid [Hsw0 Hrw Hpw]]. destruct (ok_windows c Hok) as [Hcw0 Hcr]. destruct (ok_peer c Hok) as [Hm0 _].
  set (p := take _ _). assert (zlen p = n) as Hp by (unfold p, zlen in *; rewrite length_take, length_drop; lia).
  assert (rd_range data off n = Ok p) as -> by (unfold rd_range; case_if; [lia|done]). split; [done|]. mstep.
  rewrite send_frame_ok by apply Hok. mstep. cbv zeta. unfold is_window in *.
  cbn [emit put_send_window set_windows windows connection_send_window_ connection_recv_window_].
  rewrite (deref_stream id s) by done. mstep. rewrite !u32_id by (unfold is_u32; lia). split; [done|].
  assert (session_ok (after_chunk id n s (frame_bytes (data_frame id p ((zlen data <=? off + n) && fin))) c)) as Hok'.
  { apply assign_ok.
    - destruct Hok. split; try done. split; cbn; [unfold is_window; lia|done].
    - split; [done|]. split; cbn; [unfold is_window; lia|done|done]. }
  split; [|intros j Hj; apply (keeps_assign id s); [done|done|by apply (keeps_same c)]].
  split; try done.
  - change (written (emit [Write (frame_bytes (data_frame id p ((zlen data <=? off + n) && fin)))] c) = written c ++ frames_bytes [data_frame id p ((zlen data <=? off + n) && fin)]).
    rewrite written_emit. cbn. by rewrite !app_nil_r.
  - apply Forall_singleton, data_frame_wf; [lia|]. rewrite Hp. lia.
  - cbn. unfold data_of. change (is_data _) with true. cbn [payload data_frame]. rewrite Hp. lia.
  - eapply spends_chunk; [apply Hok|exact Hs|done|..]; unfold data_of; change (is_data _) with true; cbn [payload data_frame]; rewrite Hp; [lia|done].
Qed.

(** What sending from [off] on has done: some parts are written, and the rest is kept. *)
Record sent_parts (id : Z) (data : bytes) (off : Z) (fin : bool) (c c' : t) (parts : list bytes) (all : bool) : Prop := mkSentParts {
  sp_ext : ext c c' (data_frames id parts (all && fin));
  sp_keeps : keeps c c';
  sp_parts : Forall (part_ok c) parts;
  sp_data : concat parts = take (List.length (concat parts)) (drop (Z.to_nat off) data);
  sp_all : if all then concat parts = drop (Z.to_nat off) data
           else Z.of_nat (List.length (concat parts)) < zlen data - off;
  sp_encoder : hpack_encoder_ c' = hpack_encoder_ c
}.

Lemma sent_none id data off fin c (all : bool) : session_ok c -> 0 <= off -> (if all then zlen data <= off else off < zlen data) ->
  sent_parts id data off fin c c [] all.
Proof.
  intros Hok Hoff H. split; [by apply ext_refl|done|done|done| |done]. destruct all; [|cbn; lia].
  symmetry. apply drop_ge. unfold zlen in *. lia.
Qed.

Lemma sent_cons id data off n fin c c1 c2 parts (all : bool) : session_ok c -> 0 <= off -> 0 < n <= zlen data - off -> n <= max_frame_size (peer_settings_ c) ->
  let p := take (Z.to_nat n) (drop (Z.to_nat off) data) in
  ext c c1 [data_frame id p ((zlen data <=? off + n) && fin)] -> keeps c c1 -> hpack_encoder_ c1 = hpack_encoder_ c ->
  sent_parts id data (off + n) fin c1 c2 parts all -> sent_parts id data off fin c c2 (p :: parts) all.
Proof.
  intros Hok Hoff Hn Hm. cbv zeta. set (p := take _ _). intros H1 Hk1 He1 [H2 Hk2 Hp Hd Hall He2].
  assert (zlen p = n) as Hzp by (unfold p, zlen in *; rewrite length_take, length_drop; lia).
  assert (drop (Z.to_nat off) data = p ++ drop (Z.to_nat (off + n)) data) as Edrop.
  { rewrite Z2Nat.inj_add, <- drop_drop by lia. unfold p. by rewrite take_drop. }
  assert (concat (p :: parts) = take (List.length (concat (p :: parts))) (drop (Z.to_nat off) data)) as Hd'.
  { cbn [concat]. rewrite Edrop, length_app, take_app_add. by rewrite <- Hd. }
  split; [|by etrans|constructor; [unfold part_ok; lia|]|exact Hd'| |by rewrite He2].
  - replace (data_frames id (p :: parts) (all && fin))
      with (data_frame id p ((zlen data <=? off + n) && fin) :: data_frames id parts (all && fin)); [by apply (ext_trans c c1 c2 [_])|].
    destruct parts as [|q parts].
    + cbn. do 2 f_equal. cbn in Hall. f_equal. destruct all.
      * symmetry in Hall. apply (f_equal zlen) in Hall. change (zlen []) with 0 in Hall.
        assert (zlen data <= off + n) by (unfold zlen in *; rewrite length_drop in Hall; lia).
        destruct (Z.leb_spec (zlen data) (off + n)); [done|lia].
      * destruct (Z.leb_spec (zlen data) (off + n)); [lia|done].
    + rewrite (data_frames_cons id p (q :: parts)) by done. f_equal.
      destruct (Z.leb_spec (zlen data) (off + n)); [|done]. exfalso.
      apply Forall_inv in Hp. unfold part_ok in Hp. rewrite drop_ge in Hd by (unfold zlen in *; lia).
      apply (f_equal List.length) in Hd. rewrite take_nil in Hd. cbn in Hd. rewrite length_app in Hd. unfold zlen in Hp. lia.
  - eapply Forall_impl; [exact Hp|]. unfold part_ok. by rewrite (ext_peer _ _ _ H1).
  - cbn [concat]. destruct all; [by rewrite Edrop, Hall|]. rewrite length_app. unfold zlen in *. lia.
Qed.

(** The rest that [send_data] parks. *)
Definition parked (rest : bytes) (fin : bool) (s : StreamEntry) : Prop :=
  has_pending_write (flow s) = true /\ pending_write (flow s) = mkPending rest 0 fin.

Lemma send_loop_ok fuel : forall id data off fin s c, session_ok c -> streams_ c !! id = Some s -> 0 <= off -> (zlen data - off < Z.of_nat fuel) ->
  exists all c' parts s', send_loop little fuel id data off fin c = Ok (all, c') /\ sent_parts id data off fin c c' parts all
    /\ streams_ c' !! id = Some s' /\ state s' = state s
    /\ if all then has_pending_write (flow s') = has_pending_write (flow s) /\ pending_write_queue_ c' = pending_write_queue_ c
       else parked (drop (List.length (concat parts)) (drop (Z.to_nat off) data)) fin s'
            /\ pending_write_queue_ c' = pending_write_queue_ c ++ [id]
            /\ Z.min (connection_send_window_ (windows c')) (send_window (flow s')) = 0.
Proof.
  induction fuel as [|fuel IH]; intros id data off fin s c Hok Hs Hoff Hfuel; cbn [send_loop].
  { destruct (Z.ltb_spec off (zlen data)); [lia|]. exists true, c, [], s. split; [done|]. split; [by apply sent_none|]. done. }
  destruct (Z.ltb_spec off (zlen data)) as [Hlt|Hge].
  2: { exists true, c, [], s. split; [done|]. split; [by apply sent_none|]. done. }
  rewrite (deref_stream id s) by done. mstep. cbv zeta.
  destruct (Z.eqb_spec (Z.min (connection_send_window_ (windows c)) (send_window (flow s))) 0) as [Hz|Hnz].
  - assert (rd_range data off (zlen data - off) = Ok (drop (Z.to_nat off) data)) as ->.
    { unfold rd_range. case_if; [lia|]. rewrite take_ge; [done|]. rewrite length_drop. unfold zlen. lia. }
    mstep. eexists false, _, [], _. split; [done|]. rewrite assign_get || cbn.
    assert (session_ok (assign id (set_flow (with_pending (mkPending (drop (Z.to_nat off) data) 0 fin) true (flow s)) s) c)) as Hok'.
    { apply assign_ok; [done|]. pose proof (stream_get _ _ _ Hok Hs) as [Hid [Hsw Hrw _]]. split; [done|]. split; cbn; [done|done|zlia]. }
    split.
    { pose proof (ext_assign id s (set_flow (with_pending (mkPending (drop (Z.to_nat off) data) 0 fin) true (flow s)) s) c Hok Hs
        (ok_streams _ Hok' _ _ (assign_get _ _ _)) eq_refl) as [].
      split; [split; try done; by destruct Hok'| |done|done|cbn; lia|done].
      by apply (keeps_assign id s). }
    split; [apply lookup_insert_eq|]. split; [done|]. split; [done|]. split; [done|]. cbn. done.
  - destruct (chunk_ok id data off s c Hok Hs) as (Hn & Hm & Hcw & Hsw); [lia|done|].
    set (n := chunk_size data off s c) in *.
    destruct (send_chunk_ok id data off n fin s c Hok Hs Hoff Hn Hm Hcw Hsw) as (Hp & -> & He & Hk). mstep.
    set (c1 := after_chunk _ _ _ _ _) in *. set (s1 := set_flow (with_send_window (send_window (flow s) - n) (flow s)) s).
    destruct (IH id data (off + n) fin s1 c1) as (all & c' & parts & s' & E & Hsp & Hs' & Hst & Hrest);
      [by destruct He|apply assign_get|lia|lia|].
    eexists all, c', (_ :: parts), s'. split; [exact E|]. split; [by eapply sent_cons|]. split; [done|]. split; [done|].
    destruct all; [exact Hrest|]. destruct Hrest as (Hpk & Hq & Hw). split; [|done].
    cbn [concat]. rewrite length_app, drop_drop.
    replace (List.length (take (Z.to_nat n) (drop (Z.to_nat off) data))) with (Z.to_nat n) by (unfold zlen in Hp; lia).
    replace (Z.to_nat off + (Z.to_nat n + List.length (concat parts)))%nat with (Z.to_nat (off + n) + List.length (concat parts))%nat by lia.
    by rewrite <- drop_drop.
Qed.

(** What [send_data] does to a stream that has nothing parked. *)
Lemma ext_same_window c c' c'' fs : ext c c' fs -> ext c' c'' [] -> ext c c'' fs.
Proof. intros H1 H2. rewrite <- (app_nil_r fs). by eapply ext_trans. Qed.
Lemma data_frames_total id parts fin : Forall (fun p => zlen p < 16777216) parts ->
  data_total (data_frames id parts fin) = zlen (concat parts).
Proof.
  induction parts as [|p parts IH]; [done|]. intros [Hp Hparts]%Forall_cons. cbn [concat]. rewrite zlen_app.
  destruct parts as [|q parts]; [cbn [concat]; change (zlen []) with 0; cbn; unfold data_of; cbn; lia|].
  rewrite data_frames_cons, data_total_cons, IH by done. done.
Qed.

Lemma send_data_ok id data fin c : session_ok c -> 0 < id < 2147483648 ->
  exists c' fs, send_data little id data fin c = Ok c' /\ ext c c' fs /\ keeps c c'.
Proof.
  intros Hok Hid. unfold send_data. rewrite (ok_conn c Hok). cbn [negb orb]. case_if; [lia|].
  destruct (streams_ c !! id) as [s|] eqn:Es; [|by eexists _, []; split; [done|split; [apply ext_refl|]]].
  pose proof (stream_get _ _ _ Hok Es) as Hs.
  case_if.
  { eexists _, []. split; [done|]. split.
    - apply (ext_assign id s); [done|done| |done]. destruct Hs as [? [? ? Hp]]. split; [done|].
      split; cbn; [done|done|]. zlia.
    - by apply (keeps_assign id s). }
  case_if.
  { destruct fin; [|by eexists _, []; split; [done|split; [apply ext_refl|]]].
    rewrite send_frame_ok by apply Hok. mstep. eexists _, [data_frame id [] true]. split; [done|].
    assert (ext c (emit [Write (frame_bytes (data_frame id [] true))] c) [data_frame id [] true]) as He.
    { split; try done.
      - rewrite written_emit. cbn. by rewrite !app_nil_r.
      - apply Forall_singleton, data_frame_wf; [lia|done].
      - change (data_total _) with 0. cbn. lia.
      - apply spends_same; [apply Hok|]. intros j. cbn. by case_if.
      - by destruct Hok. }
    destruct (close_local_ext id _ (ext_ok _ _ _ He)) as [H1 H2]. split; [exact (ext_same_window _ _ _ _ He H1)|]. done. }
  destruct (send_loop_ok (S (List.length data)) id data 0 fin s c Hok Es) as (all & c' & parts & s' & -> & Hsp & _ & _ & _);
    [lia|unfold zlen; lia|]. mstep. destruct Hsp as [He Hk _ _ _ _].
  eexists _, (data_frames id parts (all && fin)). split; [done|]. destruct (close_local_ext id c' (ext_ok _ _ _ He)) as [H1 H2].
  destruct (all && fin); [|done]. split; [exact (ext_same_window _ _ _ _ He H1)|by etrans].
Qed.

Lemma be24_of v : FrameCodec.put_u32 v = u8 (Z.shiftr v 24) :: be24 v.
Proof. unfold FrameCodec.put_u32, be24. by rewrite !u8_land_255. Qed.

Lemma send_headed_ok id data fin s c : session_ok c -> streams_ c !! id = Some s ->
  zlen data <= Z.min (connection_send_window_ (windows c)) (send_window (flow s)) -> zlen data <= max_frame_size (peer_settings_ c) ->
  exists c1 s1, send_headed little id data fin s c = Ok (if fin then close_local id c1 else c1)
    /\ ext c c1 [data_frame id data fin] /\ keeps c c1 /\ streams_ c1 !! id = Some s1 /\ state s1 = state s
    /\ has_pending_write (flow s1) = has_pending_write (flow s) /\ pending_write_queue_ c1 = pending_write_queue_ c
    /\ hpack_encoder_ c1 = hpack_encoder_ c.
Proof.
  intros Hok Es Hav Hfit. pose proof (stream_get _ _ _ Hok Es) as [Hid [Hsw Hrw Hpw]].
  destruct (ok_windows c Hok) as [Hcw Hcr]. destruct (ok_peer c Hok) as [Hm _].
  unfold is_window in *. pose proof (zlen_nonneg data). unfold send_headed. cbv zeta.
  rewrite (u32_id (zlen data)) by (unfold is_u32; lia).
  destruct (append_u8_any little (ByteBuffer.with_capacity 9) [] (u8 (Z.land (Z.shiftr (zlen data) 16) 255))) as (b1 & -> & H1);
    [by apply view_new|]. mstep.
  destruct (append_u8_any little b1 _ (u8 (Z.land (Z.shiftr (zlen data) 8) 255)) H1) as (b2 & -> & H2). mstep.
  destruct (append_u8_any little b2 _ (u8 (Z.land (zlen data) 255)) H2) as (b3 & -> & H3). mstep.
  destruct (append_u8_any little b3 _ type_data H3) as (b4 & -> & H4). mstep.
  destruct (append_u8_any little b4 _ (if fin then flag_end_stream else flag_none) H4) as (b5 & -> & H5). mstep.
  destruct (append_u32_view little b5 _ (Z.land id 2147483647) H5) as (b6 & -> & H6). mstep.
  rewrite (view_span _ _ H6). mstep. rewrite !u8_u8, !u8_land_255. set (hdr := _ ++ be32 _).
  assert (hdr ++ data = frame_bytes (data_frame id data fin)) as Hhdr.
  { unfold hdr, frame_bytes, data_frame, be24. cbn [header length type flags stream_id payload]. rewrite u32_id by (unfold is_u32; lia).
    rewrite <- !app_assoc. done. }
  cbn [emit put_send_window set_windows windows connection_send_window_ connection_recv_window_].
  rewrite !u32_id by (unfold is_u32; lia).
  match goal with |- context [close_local id ?x] => set (c1 := x) end.
  eexists c1, _. split; [done|]. split; [|split; [|split; [apply lookup_insert_eq|done]]].
  - split; try done.
    + change (written (emit [Write hdr; Write data] c) = written c ++ frames_bytes [data_frame id data fin]).
      rewrite written_emit. unfold frames_bytes. cbn [flat_map bytes_of]. by rewrite !app_nil_r, Hhdr.
    + apply Forall_singleton, data_frame_wf; lia.
    + unfold data_total, data_of. cbn. lia.
    + eapply spends_chunk; [apply Hok|exact Es|done|..]; unfold data_of; change (is_data _) with true; cbn [payload data_frame]; [lia|done].
    + apply assign_ok.
      * destruct Hok. split; try done. split; cbn; [unfold is_window; lia|done].
      * split; [done|]. split; cbn; [unfold is_window; lia|done|done].
  - intros j Hj. apply (keeps_assign id s); [done|done|by apply (keeps_same c)].
Qed.

Lemma send_data_buffer_ok id body fin c : session_ok c -> 0 < id < 2147483648 -> ByteBuffer.wf body ->
  exists c' fs, send_data_buffer little id body fin c = Ok c' /\ ext c c' fs /\ keeps c c'.
Proof.
  intros Hok Hid Hb. unfold send_data_buffer. rewrite ByteBuffer.readable_span_ok by done. mstep. cbv zeta.
  set (data := ByteBuffer.contents body). clearbody data.
  case_if; [by apply send_data_ok|]. rewrite (ok_conn c Hok). cbn [negb orb]. case_if; [lia|].
  destruct (streams_ c !! id) as [s|] eqn:Es; [|by apply send_data_ok].
  case_if; [by apply send_data_ok|]. case_if; [|by apply send_data_ok].
  apply andb_true_iff in Hif2 as [Hav Hfit]. apply Z.leb_le in Hav, Hfit.
  destruct (send_headed_ok id data fin s c Hok Es Hav Hfit) as (c1 & s1 & -> & He & Hk & _).
  eexists _, [data_frame id data fin]. split; [done|]. destruct fin; [|done].
  destruct (close_local_ext id c1 (ext_ok _ _ _ He)) as [H7 H8]. split; [exact (ext_same_window _ _ _ _ He H7)|by etrans].
Qed.

(** The headers of a call: byte strings, and a block that fits in a frame. *)
Definition headers_ok (hs : list (bytes * bytes)) : Prop := Forall header_wf hs /\ headers_size hs < 16777216.

Lemma send_headers_sent id hs fin c : session_ok c -> 0 < id < 2147483648 -> headers_ok hs ->
  exists c1 x, HpackEncoder.encode_headers hs (hpack_encoder_ c) [] = Ok (x, hpack_encoder_ c1)
    /\ send_headers little id hs fin c = Ok (if fin then close_local id c1 else c1)
    /\ ext c c1 [mkFrame (mkHeader (zlen x) type_headers (if fin then 5 else 4) id) x]
    /\ streams_ c1 = streams_ c /\ pending_write_queue_ c1 = pending_write_queue_ c.
Proof.
  intros Hok Hid [Hh Hsz]. unfold send_headers. rewrite (ok_conn c Hok). cbn [negb orb]. case_if; [lia|].
  destruct (ok_encoder c Hok) as [Hwf Hmax].
  assert (table_ci (hpack_encoder_ c) (hpack_encoder_ c)) as Hci.
  { split; [|done]. apply Forall2_same_length_lookup_2; [done|]. intros i x y Hx Hy. replace y with x by congruence. done. }
  destruct (encode_headers_sent hs Hh _ (hpack_encoder_ c) [] (mkSynced _ _ Hwf Hmax Hci))
    as (x & e' & fs & d' & E & Hx & _ & [Hwf' Hmax' _] & _). rewrite E.
  pose proof (encode_headers_adds _ _ _ _ _ E) as Hlen. rewrite app_nil_l in *. change (zlen []) with 0 in Hlen. mstep.
  pose proof (zlen_nonneg x). rewrite u32_id by (unfold is_u32; lia). cbv zeta.
  rewrite send_frame_ok by apply Hok. mstep.
  replace (if fin then Z.lor flag_end_headers flag_end_stream else flag_end_headers) with (if fin then 5 else 4) by by destruct fin.
  set (f := mkFrame _ _). set (c1 := emit _ _). exists c1, x. split; [done|]. split; [done|]. split; [|done].
  split; try done.
  - unfold c1. rewrite written_emit. cbn. by rewrite !app_nil_r.
  - apply Forall_singleton. split; cbn; try done; [lia|by destruct fin|lia].
  - cbn. lia.
  - by apply spends_control; [apply Hok|].
  - destruct Hok. by split.
Qed.
Lemma send_headers_ok id hs fin c : session_ok c -> 0 < id < 2147483648 -> headers_ok hs ->
  exists c' fs, send_headers little id hs fin c = Ok c' /\ ext c c' fs /\ keeps c c'.
Proof.
  intros Hok Hid Hh. destruct (send_headers_sent id hs fin c Hok Hid Hh) as (c1 & x & _ & -> & He & Hs & _).
  assert (keeps c c1) as Hk by by apply keeps_same.
  destruct (close_local_ext id c1 (ext_ok _ _ _ He)) as [H1 H2].
  destruct fin; eexists _, _; (split; [done|]); [|done]. split; [exact (ext_same_window _ _ _ _ He H1)|by etrans].
Qed.

(** The calls that an application may make, and what they may erase. *)
Definition call_ok (k : call) : Prop :=
  match k with
  | SendHeaders id hs _ => 0 < id < 2147483648 /\ headers_ok hs
  | SendData id _ _ => 0 < id < 2147483648
  | SendBuffer id body _ => 0 < id < 2147483648 /\ ByteBuffer.wf body
  | SendSimple id status content_type body =>
      0 < id < 2147483648 /\ is_u16 status /\ Forall is_u8 content_type /\ zlen content_type < 16000000 /\ zlen body < 18446744073709551616
  | SendReset id _ => 0 < id < 2147483648
  | SendGoaway _ | CloseGracefully => True
  end.
Definition spares (id : Z) (k : call) : Prop := match k with SendReset j _ => j <> id | _ => True end.

Lemma to_string_loop_u8 fuel n acc : 0 <= n -> Forall is_u8 acc -> Forall is_u8 (to_string_loop fuel n acc).
Proof.
  revert n acc. induction fuel as [|fuel IH]; intros n acc Hn Ha; cbn; [done|].
  assert (Forall is_u8 ((48 + n mod 10) :: acc)) as Hacc.
  { constructor; [|done]. unfold is_u8. pose proof (Z.mod_pos_bound n 10). lia. }
  case_if; [done|]. apply IH; [apply Z.div_pos; lia|done].
Qed.
Lemma to_string_wf n : 0 <= n -> str_wf (to_string n).
Proof. intros. split; [by apply to_string_loop_u8|]. pose proof (to_string_len n). lia. Qed.

(** The headers of a simple response. *)
Definition simple_headers (status : Z) (content_type body : bytes) : list (bytes * bytes) :=
  [(str ":status", to_string status)]
  ++ (if bool_decide (content_type = []) then [] else [(str "content-type", content_type)])
  ++ (if bool_decide (body = []) then [] else [(str "content-length", to_string (zlen body))]).
Lemma simple_headers_ok status content_type body :
  is_u16 status -> Forall is_u8 content_type -> zlen content_type < 16000000 -> headers_ok (simple_headers status content_type body).
Proof.
  intros Hst Hct Hl. unfold is_u16 in Hst.
  assert (forall s, forallb (fun b => bool_decide (is_u8 b)) s = true -> (zlen s <? 1000) = true -> str_wf s) as Hlit.
  { intros s Hs Hz. split; [|lia]. apply Forall_forall. intros b Hb. rewrite forallb_forall in Hs.
    apply list_elem_of_In, Hs, bool_decide_eq_true in Hb. done. }
  assert (str_wf (str ":status") /\ str_wf (str "content-type") /\ str_wf (str "content-length")) as (H1 & H2 & H3).
  { repeat split; try (apply Hlit; reflexivity); reflexivity || (apply (Hlit _ eq_refl eq_refl)). }
  pose proof (to_string_len status) as Ht. pose proof (to_string_len (zlen body)) as Hb. pose proof (zlen_nonneg body).
  split.
  - constructor; [split; [done|apply to_string_wf; lia]|].
    apply Forall_app. split; case_bool_decide; [done|apply Forall_singleton; split; [done|split; [done|cbn; lia]]|done|].
    apply Forall_singleton. split; [done|apply to_string_wf; lia].
  - unfold simple_headers, headers_size, header_size.
    change (zlen (str ":status")) with 7.
    repeat case_bool_decide; cbn [app foldr fst snd]; change (zlen (str ":status")) with 7;
      change (zlen (str "content-type")) with 12; change (zlen (str "content-length")) with 14; lia.
Qed.

Lemma run_call_ok k c : session_ok c -> call_ok k ->
  exists c' fs, run_call little k c = Ok c' /\ ext c c' fs /\ forall id, spares id k -> alive id c -> alive id c'.
Proof.
  intros Hok Hk. destruct k as [id hs fin|id data fin|id body fin|id status ct body|id e|e|]; cbn [run_call call_ok spares] in *.
  - destruct Hk as [Hid Hh]. destruct (send_headers_ok id hs fin c Hok Hid Hh) as (c' & fs & -> & He & Hkeep).
    eexists _, _. split; [done|]. split; [done|]. intros j _. apply Hkeep.
  - destruct (send_data_ok id data fin c Hok Hk) as (c' & fs & -> & He & Hkeep). eexists _, _. split; [done|]. split; [done|].
    intros j _. apply Hkeep.
  - destruct Hk as [Hid Hb]. destruct (send_data_buffer_ok id body fin c Hok Hid Hb) as (c' & fs & -> & He & Hkeep).
    eexists _, _. split; [done|]. split; [done|]. intros j _. apply Hkeep.
  - destruct Hk as (Hid & Hst & Hct & Hl & Hb). unfold send_simple_response. rewrite (ok_conn c Hok). cbn [negb orb]. case_if; [lia|].
    cbv zeta. fold (simple_headers status ct body).
    destruct (send_headers_ok id (simple_headers status ct body) (bool_decide (body = [])) c Hok Hid) as (c1 & hfs & -> & He & Hkeep);
      [by apply simple_headers_ok|]. mstep. case_bool_decide.
    + eexists _, _. split; [done|]. split; [done|]. intros j _. apply Hkeep.
    + destruct (send_data_ok id body true c1 (ext_ok _ _ _ He) Hid) as (c2 & fs & -> & He2 & Hkeep2).
      eexists _, _. split; [done|]. split; [by eapply ext_trans|]. intros j _ Hj. by apply Hkeep2, Hkeep.
  - unfold send_rst_stream. case_if; [lia|].
    destruct (send_control (rst_frame id e) c Hok) as (c1 & -> & He & Es); [apply rst_wf; lia|done|]. mstep.
    eexists _, _. split; [done|]. split.
    + destruct (streams_ c1 !! id); [|done]. eapply ext_same_window; [done|]. apply ext_erase, He.
    + intros j Hj Ha. apply (keeps_same c c1 Es) in Ha. destruct (streams_ c1 !! id); [|done].
      destruct Ha as (x & Hx & ?). exists x. unfold erase. cbn. by rewrite lookup_delete_ne.
  - unfold send_goaway. destruct (send_control (FrameCodec.make_goaway e (last_stream_id_ c)) c Hok (goaway_wf _ _) eq_refl) as (c1 & -> & He & Es).
    mstep. eexists _, _. split; [done|]. split.
    + case_if; [|done]. eapply ext_same_window; [exact He|]. by apply emit_ext; [apply He|].
    + intros j _ Ha. case_if; by apply (keeps_same c).
  - unfold close_gracefully. rewrite (ok_conn c Hok). cbn [negb].
    destruct (send_control (FrameCodec.make_goaway no_error (last_stream_id_ c)) c Hok (goaway_wf _ _) eq_refl) as (c1 & -> & He & Es). mstep.
    cbv zeta. eexists _, _. split; [done|]. split.
    + pose proof (ext_queue [] c1 (ext_ok _ _ _ He)) as Hq.
      eapply ext_same_window; [exact (ext_same_window _ _ _ _ He Hq)|]. apply ext_streams; [apply Hq| |apply spends_map; [apply Hq|done]].
      intros j s Hs. apply lookup_fmap_Some in Hs as (s0 & <- & Hs0).
      destruct (ok_streams _ (ext_ok _ _ _ Hq) j s0 Hs0) as [? []]. split; [done|]. by split.
    + intros j _ (s & Hs & ?). eexists. cbn. rewrite lookup_fmap, Es, Hs. cbn. split; [done|]. done.
Qed.

Lemma run_calls_ok l : forall c, session_ok c -> Forall call_ok l ->
  exists c' fs, run_calls little l c = Ok c' /\ ext c c' fs /\ forall id, Forall (spares id) l -> alive id c -> alive id c'.
Proof.
  induction l as [|k l IH]; intros c Hok Hl; cbn [run_calls].
  { exists c, []. split; [done|]. split; [by apply ext_refl|done]. }
  apply Forall_cons in Hl as [Hk Hl]. destruct (run_call_ok k c Hok Hk) as (c1 & fs & -> & He & Ha). mstep.
  destruct (IH c1 (ext_ok _ _ _ He) Hl) as (c2 & gs & -> & He2 & Ha2). eexists _, _. split; [done|].
  split; [by eapply ext_trans|]. intros id [Hs Hsl]%Forall_cons Hal. eauto.
Qed.
End Facts.
