(* ===== verification/Http2ReceiveFacts.v ===== *)
(** Lemmas on the HTTP/2 session, continued: flushing what is parked, and what handling a
    frame of the peer may come to. *)
From S2P Require Import Prelude Strings Endian ByteBuffer ByteBufferFacts Hpack HpackFacts Http2Frame.
From S2P Require Import Http2Session Http2SessionFacts.
Import Http2 Http2Session.

Section Facts.
Variable little : bool.

(** * Flushing *)
Lemma flush_stream_ok fuel : forall id s c, session_ok c -> streams_ c !! id = Some s ->
  let pw := pending_write (flow s) in
  zlen (pw_data pw) - pw_offset pw < Z.of_nat fuel ->
  exists all c' parts s', flush_stream little fuel id c = Ok (all, c')
    /\ sent_parts id (pw_data pw) (pw_offset pw) (pw_end_stream pw) c c' parts all
    /\ streams_ c' !! id = Some s' /\ state s' = state s
    /\ pending_write (flow s') = mkPending (pw_data pw) (pw_offset pw + zlen (concat parts)) (pw_end_stream pw)
    /\ has_pending_write (flow s') = has_pending_write (flow s) /\ pending_write_queue_ c' = pending_write_queue_ c.
Proof.
  induction fuel as [|fuel IH]; intros id s c Hok Hs; cbv zeta; intros Hfuel; cbn [flush_stream]; rewrite (deref_stream id s) by done; mstep; cbv zeta.
  all: pose proof (stream_get _ _ _ Hok Hs) as [Hid [Hsw Hrw Hpw]].
  all: set (pw := pending_write (flow s)) in *.
  all: assert (mkPending (pw_data pw) (pw_offset pw + 0) (pw_end_stream pw) = pw) as Epw by (rewrite Z.add_0_r; by destruct pw).
  all: destruct (Z.ltb_spec (pw_offset pw) (zlen (pw_data pw))) as [Hlt|Hge].
  1: lia.
  1, 3: exists true, c, [], s; split; [done|]; split; [by apply sent_none; [|lia|]|]; change (zlen (concat [])) with 0; by rewrite Epw.
  destruct (Z.eqb_spec (Z.min (connection_send_window_ (windows c)) (send_window (flow s))) 0) as [Hz|Hnz].
  - exists false, c, [], s. split; [done|]. split; [by apply sent_none; [|lia|]|]. change (zlen (concat [])) with 0. by rewrite Epw.
  - destruct (chunk_ok id (pw_data pw) (pw_offset pw) s c Hok Hs) as (Hn & Hm & Hcw & Hw); [lia|done|].
    set (n := chunk_size _ _ s c) in *.
    destruct (send_chunk_ok little id (pw_data pw) (pw_offset pw) n (pw_end_stream pw) s c Hok Hs) as (Hp & -> & He & Hk); [lia|done|done|done|done|]. mstep.
    set (c1 := after_chunk _ _ _ _ _) in *. set (s1 := set_flow (with_send_window (send_window (flow s) - n) (flow s)) s).
    assert (streams_ c1 !! id = Some s1) as Hs1 by apply assign_get.
    rewrite (deref_stream id s1 c1 Hs1). mstep. cbv zeta.
    set (s2 := set_flow (with_pending (mkPending (pw_data pw) (pw_offset pw + n) (pw_end_stream pw)) (has_pending_write (flow s1)) (flow s1)) s1).
    assert (stream_ok id s2) as Hs2.
    { destruct (stream_get _ _ _ (ext_ok _ _ _ He) Hs1) as [_ [H1 H2 _]]. split; [done|]. split; [done|done|]. cbn. lia. }
    assert (ext c1 (assign id s2 c1) []) as He2.
    { by apply (ext_assign id s1); [apply He| | |]. }
    destruct (IH id s2 (assign id s2 c1)) as (all & c' & parts & s' & E & Hsp & Hs' & Hst & Hpw' & Hhas & Hq);
      [apply He2|apply assign_get|cbn; lia|].
    eexists all, c', (_ :: parts), s'. split; [exact E|]. split.
    { eapply sent_cons with (c1 := assign id s2 c1) (n := n); [done|lia|done|done|by eapply ext_same_window| |done|exact Hsp].
      intros j Hj. apply (keeps_assign id s1); [done|done|by apply Hk]. }
    split; [done|]. split; [done|]. split; [|done]. rewrite Hpw'. cbn [concat pw_data pw_offset pw_end_stream pending_write flow s2 set_flow with_pending].
    rewrite zlen_app, Hp. f_equal. lia.
Qed.

Lemma flush_loop_ok fuel : forall c, session_ok c -> (List.length (pending_write_queue_ c) <= fuel)%nat ->
  exists c' fs, flush_loop little fuel c = Ok c' /\ ext c c' fs.
Proof.
  induction fuel as [|fuel IH]; intros c Hok Hq; cbn [flush_loop]; destruct (pending_write_queue_ c) as [|id queue] eqn:Eq.
  1, 3: by exists c, []; split; [|apply ext_refl].
  { cbn in Hq. lia. }
  cbn in Hq.
  assert (forall c1 fs, ext c c1 fs -> exists c' gs, flush_loop little fuel (set_queue queue c1) = Ok c' /\ ext c c' gs) as Hnext.
  { intros c1 fs He. pose proof (ext_queue queue c1 (ext_ok _ _ _ He)) as Heq.
    destruct (IH (set_queue queue c1) (ext_ok _ _ _ Heq)) as (c' & gs & -> & Hg); [cbn; lia|].
    eexists _, _. split; [done|]. eapply ext_trans; [|done]. by eapply ext_same_window. }
  destruct (streams_ c !! id) as [s|] eqn:Es; [|by apply (Hnext c []), ext_refl].
  case_if; [by apply (Hnext c []), ext_refl|].
  pose proof (stream_get _ _ _ Hok Es) as [Hid [Hsw Hrw Hpw]].
  destruct (flush_stream_ok (S (List.length (pw_data (pending_write (flow s))))) id s c Hok Es)
    as (all & c1 & parts & s1 & -> & [He Hk _ _ _ _] & Hs1 & _); [unfold zlen; lia|]. mstep.
  destruct all; cbn [negb]; [|eauto].
  rewrite (deref_stream id s1 c1 Hs1). mstep. cbv zeta.
  set (s2 := set_flow _ s1).
  assert (ext c1 (assign id s2 c1) []) as He2.
  { apply (ext_assign id s1); [apply He|done| |done].
    destruct (stream_get _ _ _ (ext_ok _ _ _ He) Hs1) as [? []]. split; [done|]. by split. }
  pose proof (ext_same_window _ _ _ _ He He2) as He3.
  destruct (pw_end_stream (pending_write (flow s1))); [|by eapply Hnext].
  pose proof (ext_queue queue _ (ext_ok _ _ _ He2)) as He4.
  destruct (close_local_ext id _ (ext_ok _ _ _ He4)) as [He5 _].
  pose proof (ext_same_window _ _ _ _ (ext_same_window _ _ _ _ He3 He4) He5) as He6.
  destruct (IH _ (ext_ok _ _ _ He5)) as (c' & gs & -> & Hg); [rewrite close_local_queue; cbn; lia|].
  eexists _, _. split; [done|]. by eapply ext_trans.
Qed.
Lemma flush_ok c : session_ok c -> exists c' fs, flush_pending_writes little c = Ok c' /\ ext c c' fs.
Proof. intros. by apply flush_loop_ok. Qed.

(** * Receiving
    [moves k c c' fs]: the session writes [fs], and its connection window gains [k]. *)
Record moves (k : Z) (c c' : t) (fs : list Frame) : Prop := mkMoves {
  mv_written : written c' = written c ++ frames_bytes fs;
  mv_frames : Forall frame_wf fs;
  mv_window : connection_send_window_ (windows c') = connection_send_window_ (windows c) + k - data_total fs;
  mv_ok : session_ok c'
}.
Lemma moves_refl c : session_ok c -> moves 0 c c [].
Proof. intros. split; try done; [by rewrite app_nil_r|cbn; lia]. Qed.
Lemma moves_ext c c' fs : ext c c' fs -> moves 0 c c' fs.
Proof. intros []. split; try done. lia. Qed.
Lemma moves_trans k l c1 c2 c3 fs gs : moves k c1 c2 fs -> moves l c2 c3 gs -> moves (k + l) c1 c3 (fs ++ gs).
Proof.
  intros [] []. split; try done.
  - rewrite mv_written1, mv_written0, frames_bytes_app. by rewrite <- app_assoc.
  - by apply Forall_app.
  - rewrite data_total_app. lia.
Qed.
Lemma moves_then k c1 c2 c3 fs gs : moves k c1 c2 fs -> ext c2 c3 gs -> moves k c1 c3 (fs ++ gs).
Proof. intros H1 H2. rewrite <- (Z.add_0_r k). eapply moves_trans; [done|]. by apply moves_ext. Qed.
(** A change of the session that neither writes nor touches the window. *)
Lemma moves_quiet c c' : session_ok c' -> written c' = written c ->
  connection_send_window_ (windows c') = connection_send_window_ (windows c) -> moves 0 c c' [].
Proof. intros Hok Hw Hn. split; try done; [by rewrite Hw, app_nil_r|cbn; lia]. Qed.

(** A frame of the wire. *)
Record frame_in (f : Frame) : Prop := mkFrameIn {
  fi_length : length (header f) = zlen (payload f);
  fi_payload : Forall is_u8 (payload f);
  fi_size : zlen (payload f) <= 16384;
  fi_flags : is_u8 (flags (header f));
  fi_stream : 0 <= stream_id (header f) < 2147483648
}.

(** What a frame adds to the connection window. *)
Definition increment_of (p : bytes) : Z :=
  match p with
  | p0 :: p1 :: p2 :: p3 :: _ => Z.lor (Z.lor (Z.lor (Z.shiftl (Z.land p0 127) 24) (Z.shiftl p1 16)) (Z.shiftl p2 8)) p3
  | _ => 0
  end.
Definition credit (f : Frame) : Z :=
  if (type (header f) =? type_window_update) && (stream_id (header f) =? 0) then increment_of (payload f) else 0.

Lemma increment_range p : Forall is_u8 p -> 0 <= increment_of p < 2147483648.
Proof.
  intros Hu. destruct p as [|p0 [|p1 [|p2 [|p3 p]]]]; cbn -[Z.lor Z.shiftl Z.land]; try lia.
  repeat match goal with H : Forall is_u8 (_ :: _) |- _ => apply Forall_cons in H as [? H] end.
  rewrite land_127. pose proof (Z.mod_pos_bound p0 128). unfold is_u8 in *. rewrite <- !Z.lor_assoc.
  rewrite (lor_shiftl_add p2 p3 8) by lia. rewrite (lor_shiftl_add p1 _ 16) by lia. rewrite (lor_shiftl_add (p0 mod 128) _ 24) by lia. lia.
Qed.

(** What handling a frame may come to. *)
Definition handled (k : Z) (c : t) (m : outcome (bool * t)) : Prop :=
  exists ok c' fs j, m = Ok (ok, c') /\ moves j c c' fs /\ (ok = true -> j = k).

Lemma handled_closed k c c' fs j : moves j c c' fs -> handled k c (Ok (false, c')).
Proof. intros. by exists false, c', fs, j. Qed.
Lemma handled_ok c c' fs : moves 0 c c' fs -> handled 0 c (Ok (true, c')).
Proof. intros. by exists true, c', fs, 0. Qed.
(** What comes after a quiet or a writing step. *)
Lemma handled_after k c c1 fs m : moves 0 c c1 fs -> handled k c1 m -> handled k c m.
Proof. intros H1 (ok & c' & gs & j & -> & H2 & Hj). exists ok, c', (fs ++ gs), j. split; [done|]. split; [|done]. by apply (moves_trans 0 j c c1). Qed.

Lemma close_conn_quiet c : session_ok c -> moves 0 c (close_conn c) [].
Proof.
  intros Hok. unfold close_conn. rewrite (ok_conn c Hok). apply moves_quiet; [by destruct Hok| |done].
  rewrite written_emit. cbn. by rewrite app_nil_r.
Qed.
Lemma goaway_close_ok e c : session_ok c -> exists c' fs, goaway_and_close little e c = Ok c' /\ moves 0 c c' fs.
Proof.
  intros Hok. unfold goaway_and_close. destruct (send_control little _ c Hok (goaway_wf e (last_stream_id_ c)) eq_refl) as (c1 & -> & He & _). mstep.
  eexists _, _. split; [done|]. apply (moves_trans 0 0 c c1); [by apply moves_ext|]. apply close_conn_quiet, He.
Qed.
Lemma close_with_goaway_ok k e c : session_ok c -> handled k c (close_with_goaway little e c).
Proof. intros Hok. unfold close_with_goaway. destruct (goaway_close_ok e c Hok) as (c' & fs & -> & Hm). mstep. by eapply handled_closed. Qed.
Lemma refuse_ok k e c : session_ok c -> handled k c (refuse little e c).
Proof.
  intros Hok. unfold refuse. destruct (run_call_ok little (SendGoaway e) c Hok I) as (c1 & fs & E & He & _). cbn [run_call] in E.
  rewrite E. mstep. eapply handled_closed. apply (moves_trans 0 0 c c1); [by apply moves_ext|]. apply close_conn_quiet, He.
Qed.
Lemma send_control_handled f c : session_ok c -> frame_wf f -> is_data f = false ->
  handled 0 c (c ← send_frame little f c; Ok (true, c)).
Proof. intros Hok Hf Hd. destruct (send_control little f c Hok Hf Hd) as (c' & -> & He & _). mstep. by eapply handled_ok, moves_ext. Qed.

(** ** Settings *)
Lemma u32_of_bytes a b c d : is_u8 a -> is_u8 b -> is_u8 c -> is_u8 d ->
  is_window (Z.lor (Z.lor (Z.lor (Z.shiftl a 24) (Z.shiftl b 16)) (Z.shiftl c 8)) d).
Proof.
  unfold is_u8, is_window. intros. rewrite <- !Z.lor_assoc.
  rewrite (lor_shiftl_add c d 8) by lia. rewrite (lor_shiftl_add b _ 16) by lia. rewrite (lor_shiftl_add a _ 24) by lia. lia.
Qed.

Lemma apply_settings_ok n : forall p c, (List.length p <= n)%nat -> session_ok c -> Forall is_u8 p ->
  exists c' fs, apply_settings_loop little p c = Ok c' /\ moves 0 c c' fs.
Proof.
  induction n as [|n IH]; intros p c Hn Hok Hu.
  { destruct p; [|cbn in Hn; lia]. cbn. eexists _, _. split; [done|by apply moves_refl]. }
  destruct p as [|p0 [|p1 [|p2 [|p3 [|p4 [|p5 p]]]]]]; cbn [apply_settings_loop]; try (eexists _, _; split; [done|by apply moves_refl]).
  repeat match goal with H : Forall is_u8 (_ :: _) |- _ => apply Forall_cons in H as [? H] end.
  assert (is_window (Z.lor (Z.lor (Z.lor (Z.shiftl p2 24) (Z.shiftl p3 16)) (Z.shiftl p4 8)) p5)) as Hv by by apply u32_of_bytes.
  cbv zeta. set (v := Z.lor _ p5) in *. clearbody v. unfold is_window in Hv.
  assert (forall s c1, peer_ok s -> session_ok c1 -> written c1 = written c ->
    connection_send_window_ (windows c1) = connection_send_window_ (windows c) ->
    exists c' fs, apply_settings_loop little p (set_peer s c1) = Ok c' /\ moves 0 c c' fs) as Hgo.
  { intros s c1 Hs Hok1 Hw Hn1. assert (session_ok (set_peer s c1)) as Hok2 by by destruct Hok1.
    destruct (IH p (set_peer s c1)) as (c' & fs & -> & Hm); [cbn in Hn; lia|done|done|].
    eexists _, _. split; [done|]. apply (moves_trans 0 0 c (set_peer s c1) c' [] fs); [by apply moves_quiet|done]. }
  pose proof (ok_peer c Hok) as [Hpf Hpw]. unfold is_window in *.
  case_if.
  { apply (Hgo (mkSettings v (enable_push (peer_settings_ c)) (max_concurrent_streams (peer_settings_ c))
      (initial_window_size (peer_settings_ c)) (max_frame_size (peer_settings_ c)) (max_header_list_size (peer_settings_ c)))
      (set_encoder (HpackEncoder.set_max_table_size v (hpack_encoder_ c)) c)); try done.
    destruct Hok as [? ? ? [Hw Hmx] ? ? ?]. split; try done.
    destruct (set_max_wf v (hpack_encoder_ c)) as [? Hmx2]; [lia|by apply table_wf_sized; [|lia]|]. split; [done|].
    change (HpackTable.max_table_size_ (HpackTable.set_max_table_size v (hpack_encoder_ c)) < 4294967296). lia. }
  case_if; [by apply Hgo|]. case_if; [by apply Hgo|].
  case_if; [case_if; [by apply goaway_close_ok|]; apply Hgo; [split; [done|unfold is_window; cbn; lia]|done..]|].
  case_if.
  { destruct (Z.ltb_spec v 16384); [by apply goaway_close_ok|]. destruct (Z.ltb_spec 16777215 v); [by apply goaway_close_ok|].
    cbn [orb]. apply Hgo; try (by destruct c). split; [cbn; lia|done]. }
  case_if; [by apply Hgo|].
  apply IH; [cbn in Hn; lia|done|done].
Qed.
Lemma apply_peer_settings_ok f c : session_ok c -> frame_in f -> exists c' fs, apply_peer_settings little f c = Ok c' /\ moves 0 c c' fs.
Proof.
  intros Hok Hf. unfold apply_peer_settings. case_if; [eexists _, _; split; [done|by apply moves_refl]|].
  eapply apply_settings_ok; [done|done|apply Hf].
Qed.

(** ** The application
    A callback about a stream. *)
Definition about (id : Z) (e : event) : Prop := match e with Headers j _ _ | Data j _ _ => j = id | _ => False end.
(** What it calls is well formed, and it does not reset a stream while it is called about it. *)
Definition polite (react : list event -> list call) : Prop := forall tr e id, about id e -> 0 < id < 2147483648 ->
  Forall call_ok (react (tr ++ [e])) /\ Forall (spares id) (react (tr ++ [e])).

Section Receiving.
Variable react : list event -> list call.
Hypothesis Hreact : polite react.

Lemma call_bridge_ok is_set e id c : session_ok c -> alive id c -> about id e ->
  exists c' fs, call_bridge little react is_set e c = Ok c' /\ ext c c' fs /\ alive id c'.
Proof.
  intros Hok Ha He. unfold call_bridge. destruct is_set; [|by exists c, []; split; [|split; [apply ext_refl|]]].
  assert (ext c (emit [e] c) []) as H1 by (apply emit_ext; [done|by destruct e]).
  assert (0 < id < 2147483648) as Hid by (destruct Ha as (s & Hs & _); by destruct (stream_get _ _ _ Hok Hs)).
  destruct (Hreact (trace_ c) e id He Hid) as [Hcalls Hsp].
  destruct (run_calls_ok little (react (trace_ (emit [e] c))) (emit [e] c) (ext_ok _ _ _ H1) Hcalls) as (c' & fs & -> & H2 & H3).
  exists c', fs. split; [done|]. split; [apply (ext_trans _ _ _ _ _ H1 H2)|].
  by apply H3.
Qed.

(** ** Streams *)
Lemma alive_get id c : alive id c -> exists s, streams_ c !! id = Some s /\ state s <> half_closed_remote /\ state s <> closed.
Proof. done. Qed.
Lemma put_stream id s s' c : session_ok c -> streams_ c !! id = Some s -> flow_ok (flow s') -> moves 0 c (assign id s' c) [].
Proof.
  intros Hok Hs Hf. apply moves_quiet; [|done|done]. apply assign_ok; [done|].
  destruct (stream_get _ _ _ Hok Hs). by split.
Qed.

(** A stream that passes the check is alive, or is not there. *)
Lemma validate_ok id ty c : session_ok c -> 0 < id < 2147483648 -> (ty = type_data \/ ty = type_headers \/ ty = type_continuation) ->
  exists ok c' fs, validate_stream_state little id ty c = Ok (ok, c') /\ moves 0 c c' fs
    /\ (ok = true -> c' = c /\ forall s, streams_ c !! id = Some s -> alive id c).
Proof.
  intros Hok Hid Hty. unfold validate_stream_state. case_if; [lia|]. cbv zeta.
  assert ((ty =? type_data) || (ty =? type_headers) || (ty =? type_continuation) = true) as -> by (destruct Hty as [->|[->| ->]]; done).
  destruct (streams_ c !! id) as [s|] eqn:Es.
  - case_bool_decide as Hst.
    + destruct (run_call_ok little (SendReset id stream_closed) c Hok Hid) as (c' & fs & E & He & _). cbn [run_call] in E. rewrite E. mstep.
      eexists _, _, _. split; [done|]. split; [by apply moves_ext|done].
    + eexists _, _, _. split; [done|]. split; [by apply moves_refl|]. intros _. split; [done|]. intros s' _.
      exists s. split; [done|]. split; intros ?; apply Hst; auto.
  - case_if; eexists _, _, _; (split; [done|]; split; [by apply moves_refl|done]).
Qed.

(** ** Header blocks *)
Lemma maybe_decode_ok id s c : session_ok c -> streams_ c !! id = Some s ->
  exists ok c' s', maybe_decode_hpack id c = Ok (ok, c') /\ moves 0 c c' [] /\ streams_ c' !! id = Some s' /\ state s' = state s.
Proof.
  intros Hok Hs. unfold maybe_decode_hpack. rewrite (deref_stream id s c Hs). mstep.
  destruct (decode_any (header_block (incoming s)) (hpack_decoder_ c) (ok_decoder c Hok)) as (ok & hs & d' & -> & Hd). mstep. cbv zeta.
  assert (moves 0 c (set_decoder d' c) []) as H1 by (apply moves_quiet; [by destruct Hok|done|done]).
  repeat case_if; try (eexists _, _, s; split; [done|]; split; [exact H1|]; done).
  eexists _, _, _. split; [done|]. split; [|split; [apply assign_get|done]].
  apply (moves_trans 0 0 c (set_decoder d' c) _ [] []); [done|]. apply (put_stream id s); [by destruct Hok|done|].
  by destruct (stream_get _ _ _ Hok Hs).
Qed.

Lemma finalize_ok id fin c : session_ok c -> alive id c ->
  exists c' fs, finalize_header_block little react id fin c = Ok c' /\ moves 0 c c' fs.
Proof.
  intros Hok Ha. unfold finalize_header_block. destruct (alive_get id c Ha) as (s & Hs & _). rewrite (deref_stream id s c Hs). mstep.
  destruct (call_bridge_ok (headers_bridge_ (bridges c)) (Headers id (header_block (incoming s)) fin) id c Hok Ha) as (c1 & fs & -> & He & Ha1);
    [done|]. mstep.
  destruct (alive_get id c1 Ha1) as (s1 & Hs1 & _). rewrite (deref_stream id s1 c1 Hs1). mstep. cbv zeta.
  eexists _, (fs ++ []). split; [done|]. apply (moves_trans 0 0 c c1); [by apply moves_ext|].
  apply (put_stream id s1); [apply He|done|]. destruct (stream_get _ _ _ (ext_ok _ _ _ He) Hs1) as [_ Hf]. by destruct fin.
Qed.

Lemma finish_headers_ok id fin c : session_ok c -> alive id c -> handled 0 c (finish_headers little react id fin c).
Proof.
  intros Hok Ha. unfold finish_headers. destruct (alive_get id c Ha) as (s & Hs & H1 & H2).
  destruct (maybe_decode_ok id s c Hok Hs) as (ok & c1 & s1 & -> & Hm & Hs1 & Est). mstep.
  eapply handled_after; [exact Hm|]. destruct ok; cbn [negb]; [|apply refuse_ok, Hm].
  destruct (finalize_ok id fin c1) as (c2 & fs & -> & Hm2); [apply Hm|exists s1; by rewrite Est|]. mstep. by eapply handled_ok.
Qed.

Lemma assign_alive id s c : state s <> half_closed_remote -> state s <> closed -> alive id (assign id s c).
Proof. intros. exists s. by rewrite assign_get. Qed.

Lemma get_or_create_ok id c : session_ok c -> 0 < id < 2147483648 -> (forall s, streams_ c !! id = Some s -> alive id c) ->
  exists c', get_or_create_stream id c = (Some id, c') /\ moves 0 c c' [] /\ alive id c'.
Proof.
  intros Hok Hid Ha. unfold get_or_create_stream. case_if; [lia|].
  destruct (streams_ c !! id) as [s|] eqn:Es; [exists c; split; [done|]; split; [by apply moves_refl|by apply (Ha s)]|]. cbv zeta.
  set (s := mkStream open _ _ _).
  assert (stream_ok id s) as Hs.
  { split; [done|]. pose proof (ok_peer c Hok) as [_ Hw]. unfold is_window in *.
    split; cbn; [done|rewrite (ok_local c Hok); cbn; lia|done]. }
  pose proof (assign_ok id s c Hok Hs) as Hok'.
  eexists. split; [done|]. split.
  - case_if; (apply moves_quiet; [by destruct Hok'|done|done]).
  - case_if; exists s; (split; [apply lookup_insert_eq|done]).
Qed.

Lemma on_headers_ok f c : session_ok c -> frame_in f -> handled 0 c (on_headers little react f c).
Proof.
  intros Hok Hf. unfold on_headers. pose proof (fi_stream f Hf) as Hid. set (id := stream_id (header f)) in *. cbv zeta.
  case_if; [by apply close_with_goaway_ok|]. case_if; [by apply close_with_goaway_ok|]. case_if; [by apply close_with_goaway_ok|].
  destruct (validate_ok id type_headers c Hok) as (ok & c1 & fs & -> & Hm & Hv); [lia|auto|]. mstep.
  destruct ok; cbn [negb]; [|by eapply handled_ok]. destruct (Hv eq_refl) as [-> Ha].
  case_if; [apply send_control_handled; [done|apply rst_wf; lia|done]|].
  destruct (get_or_create_ok id c Hok) as (c2 & -> & Hm2 & Ha2); [lia|done|].
  eapply handled_after; [exact Hm2|]. pose proof (mv_ok _ _ _ _ Hm2) as Hok2.
  destruct (alive_get id c2 Ha2) as (s & Hs & H1 & H2). rewrite (deref_stream id s c2 Hs). mstep.
  case_if; [by apply close_with_goaway_ok|]. cbv zeta.
  assert (flow_ok (flow s)) as Hflow by by destruct (stream_get _ _ _ Hok2 Hs).
  set (i := mkIncoming _ _ _ _ _ _).
  assert (moves 0 c2 (assign id (set_incoming i s) c2) []) as Hm3 by by apply (put_stream id s).
  pose proof (mv_ok _ _ _ _ Hm3) as Hok3.
  eapply handled_after; [exact Hm3|].
  case_if; [by apply refuse_ok|]. case_if.
  - apply finish_headers_ok; [done|]. by apply assign_alive.
  - eapply handled_ok, (put_stream id (set_incoming i s)); [done|apply assign_get|done].
Qed.

Lemma on_continuation_ok f c : session_ok c -> frame_in f -> handled 0 c (on_continuation little react f c).
Proof.
  intros Hok Hf. unfold on_continuation. pose proof (fi_stream f Hf) as Hid. set (id := stream_id (header f)) in *. cbv zeta.
  case_if; [by apply close_with_goaway_ok|].
  destruct (validate_ok id type_continuation c Hok) as (ok & c1 & fs & -> & Hm & Hv); [lia|auto|]. mstep.
  destruct ok; cbn [negb]; [|by eapply handled_ok]. destruct (Hv eq_refl) as [-> Ha].
  destruct (streams_ c !! id) as [s|] eqn:Es; [|by apply close_with_goaway_ok]. case_if; [by apply close_with_goaway_ok|].
  assert (flow_ok (flow s)) as Hflow by by destruct (stream_get _ _ _ Hok Es).
  destruct (alive_get id c (Ha s eq_refl)) as (s0 & Hs0 & H1 & H2). replace s0 with s in * by congruence.
  set (i := mkIncoming _ _ _ _ _ _).
  assert (moves 0 c (assign id (set_incoming i s) c) []) as Hm3 by by apply (put_stream id s).
  pose proof (mv_ok _ _ _ _ Hm3) as Hok3.
  eapply handled_after; [exact Hm3|].
  case_if; [by apply refuse_ok|]. case_if; [by apply refuse_ok|]. case_if.
  - apply finish_headers_ok; [done|]. by apply assign_alive.
  - by eapply handled_ok, moves_refl.
Qed.

Lemma window_update_ok id n c : session_ok c -> 0 <= id < 2147483648 ->
  exists c' fs, check_and_send_window_update little id n c = Ok c' /\ ext c c' fs /\ keeps c c'.
Proof.
  intros Hok Hid. unfold check_and_send_window_update.
  assert (exists c' fs, Ok c = Ok c' /\ ext c c' fs /\ keeps c c') as Hsame by (exists c, []; split; [done|split; [by apply ext_refl|done]]).
  case_if; [done|]. cbv zeta. rewrite (ok_local c Hok). change (initial_window_size LocalSettings) with 65535.
  assert (forall i c1, ext c c1 [] -> keeps c c1 -> exists c' fs, send_window_update little id i c1 = Ok c' /\ ext c c' fs /\ keeps c c') as Hsend.
  { intros i c1 He Hk. unfold send_window_update. case_if; [by exists c1, []|].
    destruct (send_control little (mkFrame (mkHeader 4 type_window_update flag_none id) (FrameCodec.put_u31 i)) c1 (ext_ok _ _ _ He))
      as (c2 & -> & He2 & Es); [split; cbn; done || lia|done|].
    exists c2, ([] ++ [mkFrame (mkHeader 4 type_window_update flag_none id) (FrameCodec.put_u31 i)]). split; [done|].
    split; [by eapply ext_trans|]. etrans; [exact Hk|by apply keeps_same]. }
  case_if.
  - case_if; [|done]. case_if; [|done]. replace 0 with id by lia. apply Hsend.
    + destruct Hok. split; try done; [cbn; by rewrite app_nil_r|cbn; lia|by apply spends_same|]. split; try done.
      destruct ok_windows. split; cbn; [done|lia].
    + by apply keeps_same.
  - destruct (streams_ c !! id) as [s|] eqn:Es; [|done]. case_if; [|done]. case_if; [|done]. apply Hsend.
    + apply (ext_assign id s); [done|done| |done].
      destruct (stream_get _ _ _ Hok Es) as [? []]. split; [done|]. split; cbn; [done|lia|done].
    + by apply (keeps_assign id s).
Qed.

Lemma on_data_ok f c : session_ok c -> frame_in f -> handled 0 c (on_data little react f c).
Proof.
  intros Hok Hf. unfold on_data. pose proof (fi_stream f Hf) as Hid. set (id := stream_id (header f)) in *. cbv zeta.
  case_if; [by apply close_with_goaway_ok|].
  destruct (validate_ok id type_data c Hok) as (ok & c1 & fs & -> & Hm & Hv); [lia|auto|]. mstep.
  destruct ok; cbn [negb]; [|by eapply handled_ok]. destruct (Hv eq_refl) as [-> Ha].
  destruct (streams_ c !! id) as [s|] eqn:Es; [|by apply close_with_goaway_ok]. case_if; [by apply close_with_goaway_ok|].
  destruct (stream_get _ _ _ Hok Es) as [_ [Hsw Hrw Hpw]].
  destruct (alive_get id c (Ha s eq_refl)) as (s0 & Hs0 & H1 & H2). replace s0 with s in * by congruence.
  set (i := mkIncoming _ _ _ _ _ _). set (s1 := set_incoming i s).
  assert (moves 0 c (assign id s1 c) []) as Hm1 by by apply (put_stream id s).
  eapply handled_after; [exact Hm1|]. pose proof (mv_ok _ _ _ _ Hm1) as Hok1. set (c1 := assign id s1 c) in *.
  case_if; [by apply close_with_goaway_ok|]. destruct (ok_windows c1 Hok1) as [Hcs Hcr].
  pose proof (fi_size f Hf). pose proof (zlen_nonneg (payload f)). apply Z.ltb_ge in Hif1.
  rewrite (u32_id (zlen (payload f))) by (unfold is_u32; lia). rewrite (u32_id (connection_recv_window_ (windows c1) - _)) by (unfold is_u32; lia).
  set (c2 := put_recv_window _ c1).
  assert (moves 0 c1 c2 []) as Hm2.
  { apply moves_quiet; [|done|done]. destruct Hok1. split; try done. split; [done|].
    change (0 <= connection_recv_window_ (windows c1) - zlen (payload f) <= 65535). lia. }
  eapply handled_after; [exact Hm2|]. pose proof (mv_ok _ _ _ _ Hm2) as Hok2.
  change (recv_window (flow s1)) with (recv_window (flow s)).
  case_if; [by apply close_with_goaway_ok|]. apply Z.ltb_ge in Hif2. rewrite u32_id by (unfold is_u32; lia).
  set (s2 := set_flow _ s1). assert (moves 0 c2 (assign id s2 c2) []) as Hm3.
  { apply (put_stream id s1); [done|apply assign_get|]. split; cbn; [done|lia|done]. }
  eapply handled_after; [exact Hm3|]. pose proof (mv_ok _ _ _ _ Hm3) as Hok3. set (c3 := assign id s2 c2) in *.
  destruct (call_bridge_ok (data_bridge_ (bridges c3)) (Data id (payload f) (has_flag flag_end_stream f)) id c3 Hok3) as (c4 & fs4 & -> & He4 & Ha4);
    [by apply assign_alive|done|]. mstep.
  destruct (window_update_ok 0 (zlen (payload f)) c4 (ext_ok _ _ _ He4)) as (c5 & fs5 & -> & He5 & Hk5); [lia|]. mstep.
  destruct (window_update_ok id (zlen (payload f)) c5 (ext_ok _ _ _ He5)) as (c6 & fs6 & -> & He6 & Hk6); [lia|]. mstep.
  pose proof (ext_trans _ _ _ _ _ (ext_trans _ _ _ _ _ He4 He5) He6) as He.
  eapply handled_after; [apply moves_ext, He|]. case_if; [|by eapply handled_ok, moves_refl, He].
  destruct (alive_get id c6) as (s6 & Hs6 & _); [by apply Hk6, Hk5|]. rewrite (deref_stream id s6 c6 Hs6). mstep.
  eapply handled_ok, (put_stream id s6); [apply He|done|]. by destruct (stream_get _ _ _ (ext_ok _ _ _ He) Hs6).
Qed.

(** ** The other frames *)
Lemma on_window_update_ok f c : session_ok c -> frame_in f -> type (header f) = type_window_update ->
  handled (credit f) c (on_window_update little f c).
Proof.
  intros Hok Hf Hty. unfold on_window_update. pose proof (fi_stream f Hf) as Hid. pose proof (fi_length f Hf) as Hlen.
  set (id := stream_id (header f)) in *. cbv zeta. case_if; [by apply close_with_goaway_ok|].
  apply negb_false_iff, Z.eqb_eq in Hif.
  pose proof (increment_range (payload f) (fi_payload f Hf)) as Hinc.
  unfold credit. rewrite Hty. change (type_window_update =? type_window_update) with true. cbn [andb]. fold id.
  destruct (payload f) as [|p0 [|p1 [|p2 [|p3 p]]]]; try (rewrite Hlen in Hif; discriminate).
  cbn [increment_of] in *. set (inc := Z.lor _ p3) in *. clearbody inc.
  destruct (Z.eqb_spec inc 0) as [->|Hnz].
  { destruct (Z.eqb_spec id 0); [by apply close_with_goaway_ok|]. apply send_control_handled; [done|apply rst_wf; lia|done]. }
  destruct (Z.eqb_spec id 0) as [Hid0|Hidn].
  - destruct (ok_windows c Hok) as [Hcw Hcr]. unfold is_window in *.
    set (w := u32 _). assert (0 <= w < 4294967296) as Hw by apply u32_range. set (c1 := put_send_window w c).
    assert (session_ok c1) as Hok1 by (destruct Hok; split; try done).
    assert (moves (w - connection_send_window_ (windows c)) c c1 []) as Hm1.
    { split; try done; [cbn; by rewrite app_nil_r|cbn; lia]. }
    change (connection_send_window_ (windows c1)) with w.
    destruct (Z.ltb_spec w (connection_send_window_ (windows c))) as [Hlt|Hge].
    + destruct (close_with_goaway_ok inc flow_control_error c1 Hok1) as (ok & c' & fs & j & E & Hm & _).
      assert (ok = false) as ->.
      { unfold close_with_goaway in E. apply outcome_bind_inv in E as (x & _ & [= <- _]). done. }
      rewrite E. eapply handled_closed, moves_trans; [exact Hm1|exact Hm].
    + destruct (flush_ok c1 Hok1) as (c2 & fs & -> & He). mstep. exists true, c2, ([] ++ fs), (w - connection_send_window_ (windows c)).
      split; [done|]. split; [by eapply moves_then|]. intros _. unfold w in *. unfold u32 in *.
      destruct (Z.lt_ge_cases (connection_send_window_ (windows c) + inc) 4294967296); [rewrite Z.mod_small by lia; lia|].
      assert ((connection_send_window_ (windows c) + inc) mod 4294967296 = connection_send_window_ (windows c) + inc - 4294967296) as E
        by (symmetry; apply Z.mod_unique with 1; lia). lia.
  - destruct (streams_ c !! id) as [s|] eqn:Es; [|by eapply handled_ok, moves_refl].
    destruct (stream_get _ _ _ Hok Es) as [_ [Hsw Hrw Hpw]].
    set (w := u32 _). assert (is_window w) as Hw by apply u32_range.
    set (s1 := set_flow _ s). assert (moves 0 c (assign id s1 c) []) as Hm1 by (apply (put_stream id s); [done|done|by split]).
    eapply handled_after; [exact Hm1|]. pose proof (mv_ok _ _ _ _ Hm1) as Hok1.
    case_if.
    + destruct (run_call_ok little (SendReset id flow_control_error) (assign id s1 c) Hok1) as (c2 & fs & E & He & _); [cbn; lia|].
      cbn [run_call] in E. rewrite E. mstep. by eapply handled_ok, moves_ext.
    + destruct (flush_ok (assign id s1 c) Hok1) as (c2 & fs & -> & He). mstep. by eapply handled_ok, moves_ext.
Qed.

Lemma on_priority_ok f c : session_ok c -> frame_in f -> handled 0 c (on_priority little f c).
Proof.
  intros Hok Hf. unfold on_priority. pose proof (fi_stream f Hf) as Hid. set (id := stream_id (header f)) in *. cbv zeta.
  case_if; [by apply close_with_goaway_ok|]. apply orb_false_iff in Hif as [_ Hnz].
  destruct (payload f) as [|p0 [|p1 [|p2 [|p3 [|p4 p]]]]]; try by apply close_with_goaway_ok.
  eapply handled_ok, moves_quiet; [|done|done]. apply assign_ok; [done|]. split; [lia|].
  destruct (streams_ c !! id) as [s|] eqn:Es; [by destruct (stream_get _ _ _ Hok Es)|]. split; cbn; [unfold is_window; lia|lia|done].
Qed.

Lemma progress_moves p c : session_ok c -> moves 0 c (set_progress p c) [].
Proof. intros Hok. apply moves_quiet; [by destruct Hok|done|done]. Qed.
Lemma settings_ack_wf : frame_wf FrameCodec.make_settings_ack.
Proof. by split. Qed.

Lemma on_settings_ok f c : session_ok c -> frame_in f -> handled 0 c (on_settings little f c).
Proof.
  intros Hok Hf. unfold on_settings. case_if; [by apply close_with_goaway_ok|]. case_if.
  - case_if; [by apply close_with_goaway_ok|]. destruct (apply_peer_settings_ok f c Hok Hf) as (c1 & fs & -> & Hm). mstep.
    eapply handled_after; [exact Hm|]. apply send_control_handled; [apply Hm|apply settings_ack_wf|done].
  - case_if; [by apply close_with_goaway_ok|]. by eapply handled_ok, progress_moves.
Qed.
Lemma on_ping_ok f c : session_ok c -> frame_in f -> handled 0 c (on_ping little f c).
Proof.
  intros Hok Hf. unfold on_ping. case_if; [by apply close_with_goaway_ok|]. case_if; [|by eapply handled_ok, moves_refl].
  assert (zlen (resize (payload f) 8) = 8) as Hr.
  { unfold resize. rewrite zlen_app. unfold zlen. rewrite length_take, length_replicate. lia. }
  apply send_control_handled; [done| |done]. split; cbn [FrameCodec.make_ping_ack header payload length type flags stream_id]; try done.
  - rewrite Hr. lia.
Qed.
Lemma on_rst_ok f c : session_ok c -> handled 0 c (on_rst_stream little f c).
Proof.
  intros Hok. unfold on_rst_stream. cbv zeta. case_if; [by apply close_with_goaway_ok|].
  eapply handled_ok, moves_quiet; by (destruct (streams_ c !! _); [by apply erase_ok|]) || by destruct (streams_ c !! _).
Qed.
Lemma on_first_frame_ok f c : session_ok c -> frame_in f -> handled 0 c (on_first_frame little f c).
Proof.
  intros Hok Hf. unfold on_first_frame. case_if; [by apply close_with_goaway_ok|]. case_if; [by apply close_with_goaway_ok|].
  case_if.
  - destruct (apply_peer_settings_ok f c Hok Hf) as (c1 & fs & -> & Hm). mstep.
    destruct (send_control little FrameCodec.make_settings_ack c1 (mv_ok _ _ _ _ Hm) settings_ack_wf eq_refl) as (c2 & -> & He & _). mstep.
    cbv zeta. pose proof (moves_then _ _ _ _ _ _ Hm He) as Hm2. eapply handled_after; [exact Hm2|].
    eapply handled_ok, progress_moves, Hm2.
  - mstep. cbv zeta. eapply handled_after; [by apply progress_moves|]. eapply handled_ok, progress_moves. by destruct Hok.
Qed.

Lemma credit_other f : type (header f) <> type_window_update -> credit f = 0.
Proof. intros H. unfold credit. destruct (Z.eqb_spec (type (header f)) type_window_update); [done|]. done. Qed.

Lemma handle_frame_ok f c : session_ok c -> frame_in f -> handled (credit f) c (handle_frame little react f c).
Proof.
  intros Hok Hf. unfold handle_frame. rewrite (ok_conn c Hok). cbn [negb]. case_if.
  { destruct (Z.eqb_spec (type (header f)) type_settings) as [Ht|Ht].
    - rewrite credit_other by (rewrite Ht; done). by apply on_first_frame_ok.
    - unfold on_first_frame. destruct (Z.eqb_spec (type (header f)) type_settings); [done|]. by apply close_with_goaway_ok. }
  cbv zeta.
  destruct (Z.eqb_spec (type (header f)) type_window_update) as [Ht|Ht].
  { rewrite Ht. cbn [Z.eqb]. by apply on_window_update_ok. }
  rewrite credit_other by done.
  case_if; [by apply on_settings_ok|]. case_if; [by apply on_ping_ok|]. case_if; [by apply on_priority_ok|].
  case_if; [by apply on_headers_ok|]. case_if; [by apply on_data_ok|]. case_if; [by apply on_continuation_ok|].
  case_if; [by apply on_rst_ok|].
  case_if; [by eapply handled_closed, close_conn_quiet|]. by eapply handled_ok, moves_refl.
Qed.

(** * The frames of a stream, one after the other *)
Fixpoint run_frames (fs : list Frame) (c : t) : outcome (bool * t) :=
  match fs with
  | [] => Ok (true, c)
  | f :: fs => '(ok, c) ← handle_frame little react f (count_frame c); if negb (ok : bool) then Ok (false, c) else run_frames fs c
  end.
Definition credits (fs : list Frame) : Z := foldr (fun f n => credit f + n) 0 fs.

Lemma run_frames_ok fs : forall c, session_ok c -> Forall frame_in fs -> handled (credits fs) c (run_frames fs c).
Proof.
  induction fs as [|f fs IH]; intros c Hok Hfs; cbn [run_frames].
  { by eapply handled_ok, moves_refl. }
  apply Forall_cons in Hfs as [Hf Hfs].
  pose proof (progress_moves (progress (count_frame c)) c Hok) as Hc. change (set_progress (progress (count_frame c)) c) with (count_frame c) in Hc.
  destruct (handle_frame_ok f (count_frame c) (mv_ok _ _ _ _ Hc) Hf) as (ok & c1 & gs & j & -> & Hm & Hj). mstep.
  pose proof (moves_trans _ _ _ _ _ _ _ Hc Hm) as Hm1. destruct ok; cbn [negb]; [|by eapply handled_closed].
  destruct (IH c1 (mv_ok _ _ _ _ Hm) Hfs) as (ok & c2 & hs & k & -> & Hm2 & Hk).
  exists ok, c2, (([] ++ gs) ++ hs), (0 + j + k). split; [done|]. split; [by eapply moves_trans|].
  intros Ho. rewrite (Hk Ho), (Hj eq_refl). cbn. fold (credits fs). lia.
Qed.
Lemma run_frames_app fs gs c : run_frames (fs ++ gs) c =
  '(ok, c) ← run_frames fs c; if negb (ok : bool) then Ok (false, c) else run_frames gs c.
Proof.
  revert c. induction fs as [|f fs IH]; intros c; cbn [run_frames app]; [by mstep|].
  destruct (handle_frame little react f (count_frame c)) as [[ok c1]| | |]; mstep; try done. destruct ok; cbn [negb]; [by rewrite IH|done].
Qed.

(** The frames that the bytes [x] hold, and the rest. *)
Fixpoint split_frames (n : nat) (x : bytes) : list Frame * bytes :=
  match n with
  | O => ([], x)
  | S n => match take_frame 16384 x with
           | Some (f, rest) => let '(fs, rest) := split_frames n rest in (f :: fs, rest)
           | None => ([], x)
           end
  end.
Definition frames_of (x : bytes) : list Frame * bytes := split_frames (List.length x) x.

Lemma split_frames_enough n : forall m x, (List.length x <= n)%nat -> (List.length x <= m)%nat -> Forall is_u8 x ->
  split_frames n x = split_frames m x.
Proof.
  induction n as [|n IH]; intros m x Hn Hm Hu.
  - destruct x; [|cbn in Hn; lia]. by destruct m.
  - destruct m as [|m]; [destruct x; [done|cbn in Hm; lia]|]. cbn [split_frames].
    destruct (take_frame 16384 x) as [[f rest]|] eqn:E; [|done].
    destruct (take_frame_less _ _ _ _ Hu E) as (Hl & _ & _ & Hr & _). by rewrite (IH m rest) by (done || lia).
Qed.
Lemma split_frames_in n : forall x, Forall is_u8 x -> Forall frame_in (split_frames n x).1 /\ Forall is_u8 (split_frames n x).2
  /\ (List.length (split_frames n x).2 <= List.length x)%nat.
Proof.
  induction n as [|n IH]; intros x Hu; cbn [split_frames]; [done|].
  destruct (take_frame 16384 x) as [[f rest]|] eqn:E; [|done].
  destruct (take_frame_less _ _ _ _ Hu E) as (Hl & Hsz & Hlen & Hr & Hp & Hfl & Hs). destruct (IH rest Hr) as (H1 & H2 & H3).
  destruct (split_frames n rest) as [fs r]. cbn in *. split; [|split; [done|lia]]. constructor; [by split|done].
Qed.
Lemma frames_of_in x : Forall is_u8 x -> Forall frame_in (frames_of x).1 /\ Forall is_u8 (frames_of x).2.
Proof. intros H. by destruct (split_frames_in (List.length x) x H) as (? & ? & _). Qed.

(** More bytes: the frames that were there, and those that the rest and the new bytes hold. *)
Lemma split_frames_app n : forall x y, (List.length x <= n)%nat -> Forall is_u8 x -> Forall is_u8 y ->
  split_frames (n + List.length y) (x ++ y) =
  let '(fs, r) := split_frames n x in let '(gs, r) := frames_of (r ++ y) in (fs ++ gs, r).
Proof.
  induction n as [|n IH]; intros x y Hn Hx Hy.
  - destruct x; [|cbn in Hn; lia]. cbn. unfold frames_of. by destruct (split_frames _ y).
  - cbn [split_frames Nat.add]. destruct (take_frame 16384 x) as [[f rest]|] eqn:E.
    + rewrite (take_frame_app _ _ _ _ y E). destruct (take_frame_less _ _ _ _ Hx E) as (Hl & _ & _ & Hr & _).
      rewrite IH by (done || lia). destruct (split_frames n rest) as [fs r]. by destruct (frames_of (r ++ y)) as [gs r'].
    + unfold frames_of. rewrite (split_frames_enough (List.length (x ++ y)) (S (n + List.length y)) (x ++ y)); [|done|rewrite length_app; lia|by apply Forall_app].
      cbn [split_frames]. destruct (take_frame 16384 (x ++ y)) as [[f rest]|]; [|done]. by destruct (split_frames _ rest).
Qed.
Lemma frames_of_app x y : Forall is_u8 x -> Forall is_u8 y -> frames_of (x ++ y) =
  let '(fs, r) := frames_of x in let '(gs, r) := frames_of (r ++ y) in (fs ++ gs, r).
Proof.
  intros Hx Hy. unfold frames_of at 1. rewrite length_app. by rewrite split_frames_app.
Qed.

(** [on_bytes] handles the frames that its input holds. *)
Lemma on_bytes_loop_view fuel : forall n input x c, (List.length x < fuel)%nat -> (List.length x <= n)%nat -> view input x -> small input -> Forall is_u8 x -> session_ok c ->
  exists ok c' input', on_bytes_loop little react fuel input c = Ok (ok, input', c')
    /\ run_frames (split_frames n x).1 c = Ok (ok, c')
    /\ small input' /\ (ok = true -> view input' (split_frames n x).2).
Proof.
  induction fuel as [|fuel IH]; intros n input x c Hfuel Hn Hv Hs Hu Hok; [lia|]. cbn [on_bytes_loop].
  rewrite (ok_local c Hok). change (max_frame_size LocalSettings) with 16384.
  destruct (try_decode_view 16384 input x Hv Hs Hu) as (input' & -> & Hv' & Hs'); [lia|]. mstep.
  destruct n as [|n].
  { destruct x; [|cbn in Hn; lia]. cbn in Hv' |- *. by exists true, c, input'. }
  cbn [split_frames]. destruct (take_frame 16384 x) as [[f rest]|] eqn:E.
  2: { by exists true, c, input'. }
  destruct (take_frame_less _ _ _ _ Hu E) as (Hl & Hsz & Hlen & Hr & Hp & Hfl & Hst).
  assert (session_ok (count_frame c)) as Hokc by by destruct Hok.
  destruct (handle_frame_ok f (count_frame c) Hokc) as (ok & c1 & gs & j & Eh & Hm & _); [by split|]. rewrite Eh. mstep.
  destruct (split_frames n rest) as [fs r] eqn:Esp. cbn [fst snd run_frames]. rewrite Eh. mstep.
  destruct ok; cbn [negb]; [|by exists false, c1, input'].
  destruct (IH n input' rest c1) as (ok & c2 & input2 & E2 & Hrun & Hs2 & Hv2); [lia|lia|done|done|done|apply Hm|].
  rewrite Esp in *. by exists ok, c2, input2.
Qed.
Lemma on_bytes_view input x c : view input x -> small input -> Forall is_u8 x -> session_ok c ->
  exists ok c' input', on_bytes little react input c = Ok (ok, input', c')
    /\ run_frames (frames_of x).1 c = Ok (ok, c')
    /\ small input' /\ (ok = true -> view input' (frames_of x).2).
Proof.
  intros Hv Hs Hu Hok. unfold on_bytes. rewrite (view_readable _ _ Hv). apply on_bytes_loop_view; try done.
  unfold zlen. lia.
Qed.

End Receiving.
End Facts.
