(* ===== verification/Http2Bridge.v ===== *)
(** The HTTP server over an HTTP/2 session: the bridges of [setup_h2_bridges] and the part
    of [handle_connection] that feeds a session, in [protocol/http/src/http_server.cpp].

    The streams that are being assembled change in the bridges alone, so they are a function
    of the session's trace. What the dispatcher answers to a request is the parameter
    [dispatch]; it may depend on the history, answers in the response, and does not throw or
    use the session itself. The headers of a request are a hash table with case-insensitive
    names: a map from lower-case names to the names and values; [order] is the order in
    which the walk over a hash table visits it. The value of content-length is a view of a
    string that does not exist any more when it is read: [stale] is what is there then. *)
From stdpp Require Import gmap.
From S2P Require Import Prelude Strings ByteBuffer Http2Session.

Module H2Bridge.
Import Http2Session.

Inductive HttpMethod : Type :=
| invalid_ | get_ | post_ | put_ | delete_ | options_ | head_ | comment_ | trace_method_ | patch_ | propfind_ | proppatch_
| mkcol_ | copy_ | move_ | lock_ | unlock_ | report_ | acl_ | search_.

Record HttpRequest : Type := mkRequest {
  method_ : HttpMethod;
  url_ : bytes;
  headers_ : gmap bytes (bytes * bytes);
  body_ : bytes;
  body_length_ : Z
}.
(** The code, the content type and the body of a response. *)
Record HttpResponse : Type := mkResponse {
  response_code : Z;
  content_type : option bytes;
  body_buffer : ByteBuffer.t
}.

Definition add_header (k v : bytes) (req : HttpRequest) : HttpRequest :=
  mkRequest (method_ req) (url_ req) (<[StringUtil.lower_ascii k := (k, v)]> (headers_ req)) (body_ req) (body_length_ req).
Definition set_body (b : bytes) (req : HttpRequest) : HttpRequest :=
  mkRequest (method_ req) (url_ req) (headers_ req) (body_ req ++ b) (u32 (zlen b)).

Record Http2AssembledStream : Type := mkAssembled {
  pseudo_headers : gmap bytes bytes;
  regular_headers : gmap bytes bytes;
  body : bytes;
  headers_done : bool;
  end_stream : bool;
  trailers : bool;
  body_oversized : bool
}.
Definition new_assembled : Http2AssembledStream := mkAssembled ∅ ∅ [] false false false false.
Definition kMaxBodySize : Z := 10 * 1024 * 1024.

(** The result is [None] for false. *)
Definition validate_h2_pseudo_headers (pseudo : gmap bytes bytes) : option (bytes * bytes * bytes) :=
  match pseudo !! str ":method", pseudo !! str ":path" with
  | Some method, Some path =>
      match method, path with
      | [], _ | _, [] => None
      | _, c :: _ =>
          if negb (c =? 47) then None
          else Some (method, path, match pseudo !! str ":authority" with Some authority => authority | None => [] end)
      end
  | _, _ => None
  end.

Definition trim_copy (sv : bytes) : bytes := StringUtil.trim_back (StringUtil.trim_front sv).

(** The lines that the loop of [parse_h2_header_block] visits: what is between two newlines,
    and what follows the last one unless it is empty. *)
Fixpoint lines (line raw : bytes) : list bytes :=
  match raw with
  | [] => if bool_decide (line = []) then [] else [line]
  | c :: raw => if c =? 10 then line :: lines [] raw else lines (line ++ [c]) raw
  end.
Definition remove_cr (line : bytes) : bytes :=
  match last line with Some c => if c =? 13 then removelast line else line | None => line end.
Definition separator (line : bytes) : option nat :=
  match line with
  | c :: _ => if c =? 58 then find 58 line 1 else find 58 line 0
  | [] => find 58 line 0
  end.

Definition invalid_block (why : bytes) : gmap bytes bytes * gmap bytes bytes := ({[ str ":__invalid" := why ]}, ∅).
Definition known_pseudo (key : bytes) : bool :=
  bool_decide (key = str ":method") || bool_decide (key = str ":scheme") || bool_decide (key = str ":authority")
  || bool_decide (key = str ":path").

(** The loop; [seen_pseudo] has the keys of [pseudo]. *)
Fixpoint header_block_loop (ls : list bytes) (seen_regular : bool) (seen_pseudo : gset bytes) (pseudo regular : gmap bytes bytes)
  : gmap bytes bytes * gmap bytes bytes :=
  match ls with
  | [] => (pseudo, regular)
  | line :: ls =>
      let line := remove_cr line in
      match separator line with
      | None => header_block_loop ls seen_regular seen_pseudo pseudo regular
      | Some sep =>
          let key := trim_copy (substr line 0 sep) in
          let val := trim_copy (substr_from line (S sep)) in
          match key with
          | [] => header_block_loop ls seen_regular seen_pseudo pseudo regular
          | c :: _ =>
              if c =? 58 then
                if seen_regular then invalid_block (str "pseudo-after-regular")
                else if negb (known_pseudo key) then invalid_block (str "unknown-pseudo")
                else if bool_decide (key ∈ seen_pseudo) then invalid_block (str "duplicate-pseudo")
                else header_block_loop ls seen_regular ({[ key ]} ∪ seen_pseudo) (<[key := val]> pseudo) regular
              else header_block_loop ls true seen_pseudo pseudo (<[key := val]> regular)
          end
      end
  end.
Definition parse_h2_header_block (raw : bytes) : gmap bytes bytes * gmap bytes bytes :=
  header_block_loop (lines [] raw) false ∅ ∅ ∅.

(** The chain of comparisons. *)
Definition method_of (m : bytes) : HttpMethod :=
  if str_eqb m (str "POST") then post_
  else if str_eqb m (str "PUT") then put_
  else if str_eqb m (str "DELETE") then delete_
  else if str_eqb m (str "OPTIONS") then options_
  else if str_eqb m (str "HEAD") then head_
  else if str_eqb m (str "PATCH") then patch_
  else if str_eqb m (str "PROPFIND") then propfind_
  else if str_eqb m (str "PROPPATCH") then proppatch_
  else if str_eqb m (str "MKCOL") then mkcol_
  else if str_eqb m (str "COPY") then copy_
  else if str_eqb m (str "MOVE") then move_
  else if str_eqb m (str "LOCK") then lock_
  else if str_eqb m (str "UNLOCK") then unlock_
  else if str_eqb m (str "REPORT") then report_
  else if str_eqb m (str "ACL") then acl_
  else if str_eqb m (str "SEARCH") then search_
  else get_.

Section Bridge.
Variable order : gmap bytes bytes -> list (bytes * bytes).
Variable stale : bytes -> bytes.
Variable dispatch : list event -> HttpRequest -> HttpResponse.

(** [if (k == "host" || ...) continue; req->add_header(k, v);] *)
Definition skipped_header (k : bytes) : bool :=
  str_eqb k (str "host") || str_eqb k (str "content-length") || str_eqb k (str "transfer-encoding").
Definition add_regular (req : HttpRequest) (kv : bytes * bytes) : HttpRequest :=
  if skipped_header kv.1 then req else add_header kv.1 kv.2 req.

Definition request_of (s : Http2AssembledStream) (method path authority : bytes) : HttpRequest :=
  let req := mkRequest (method_of method) path ∅ [] 0 in
  let req := if bool_decide (authority = []) then req else add_header (str "host") authority req in
  let req := fold_left add_regular (order (regular_headers s)) req in
  if bool_decide (body s = []) then req
  else add_header (str "content-length") (to_string (zlen (body s))) (set_body (body s) req).

(** What is sent for the response. The value of content-length is read through a string_view
    of a local string that is destroyed by then: [stale] is what is found there. *)
Definition reply_calls (stream_id : Z) (resp : HttpResponse) : list call :=
  let status := u16 (response_code resp) in
  let status := if (status =? 0) || (status =? u16 (-1)) then 200 else status in
  let ct := match content_type resp with Some ct => ct | None => str "application/octet-stream" end in
  let body_sz := ByteBuffer.readable_bytes (body_buffer resp) in
  let resp_headers := [(str ":status", to_string status); (str "content-type", ct)]
    ++ (if 0 <? body_sz then [(str "content-length", stale (to_string body_sz))] else []) in
  let empty_body := body_sz =? 0 in
  SendHeaders stream_id resp_headers empty_body
  :: (if negb empty_body then [SendBuffer stream_id (body_buffer resp) true] else []).

(** The calls, and the streams after them. *)
Definition maybe_reply_h2_via_dispatcher (tr : list event) (stream_id : Z) (streams : gmap Z Http2AssembledStream)
  : list call * gmap Z Http2AssembledStream :=
  match streams !! stream_id with
  | None => ([], streams)
  | Some s =>
      if negb (headers_done s) || negb (end_stream s) then ([], streams)
      else if body_oversized s then
        ([SendSimple stream_id 413 (str "text/plain") (str "payload too large")], delete stream_id streams)
      else
        match (if bool_decide (is_Some (pseudo_headers s !! str ":__invalid")) then None
               else validate_h2_pseudo_headers (pseudo_headers s)) with
        | None => ([SendSimple stream_id 400 (str "text/plain") (str "invalid pseudo headers")], delete stream_id streams)
        | Some (method, path, authority) =>
            (reply_calls stream_id (dispatch tr (request_of s method path authority)), delete stream_id streams)
        end
  end.

Definition headers_bridge (tr : list event) (id : Z) (raw : bytes) (fin : bool) (streams : gmap Z Http2AssembledStream)
  : list call * gmap Z Http2AssembledStream :=
  let s := match streams !! id with Some s => s | None => new_assembled end in
  let '(pseudo, regular) := parse_h2_header_block raw in
  let s := if headers_done s then
             mkAssembled (pseudo_headers s) (regular ∪ regular_headers s) (body s) true (end_stream s || fin) true (body_oversized s)
           else mkAssembled pseudo regular (body s) true (end_stream s || fin) (trailers s) (body_oversized s) in
  let streams := <[id := s]> streams in
  if end_stream s then maybe_reply_h2_via_dispatcher tr id streams else ([], streams).

Definition data_bridge (tr : list event) (id : Z) (data : bytes) (fin : bool) (streams : gmap Z Http2AssembledStream)
  : list call * gmap Z Http2AssembledStream :=
  match streams !! id with
  | None => ([], streams)
  | Some s =>
      let fits := negb (body_oversized s) && (zlen (body s) + zlen data <=? kMaxBodySize) in
      let s := mkAssembled (pseudo_headers s) (regular_headers s) (if fits then body s ++ data else body s) (headers_done s)
                 (end_stream s || fin) (trailers s) (if fits then body_oversized s else true) in
      maybe_reply_h2_via_dispatcher tr id (<[id := s]> streams)
  end.

(** One event of the session. *)
Definition on_event (tr : list event) (e : event) (streams : gmap Z Http2AssembledStream)
  : list call * gmap Z Http2AssembledStream :=
  match e with
  | Headers id raw fin => headers_bridge tr id raw fin streams
  | Data id data fin => data_bridge tr id data fin streams
  | _ => ([], streams)
  end.

(** The streams after the events [tr], of which [past] went before. *)
Fixpoint assemble (past tr : list event) (streams : gmap Z Http2AssembledStream) : gmap Z Http2AssembledStream :=
  match tr with
  | [] => streams
  | e :: tr => assemble (past ++ [e]) tr (on_event (past ++ [e]) e streams).2
  end.

(** What the bridges do when the last event of the trace is theirs. *)
Definition react (tr : list event) : list call :=
  match last tr with
  | None => []
  | Some e => (on_event tr e (assemble [] (removelast tr) ∅)).1
  end.

End Bridge.

(** The bridges that [setup_h2_bridges] sets. *)
Definition h2_bridges : Bridges := mkBridges true true false.

End H2Bridge.

(** * The connection *)
Module H2Connection.
Import Http2Session.

Definition kHttp2ConnectionPreface : bytes :=
  str "PRI * HTTP/2.0" ++ [13; 10; 13; 10] ++ str "SM" ++ [13; 10; 13; 10].

Inductive Http2PrefaceProbe : Type := need_more | is_preface | not_preface.

Definition probe_http2_preface (data : ByteBuffer.t) : outcome Http2PrefaceProbe :=
  span ← ByteBuffer.readable_span data;
  if bool_decide (span = []) then Ok need_more
  else
    let check_size := Nat.min (length span) (length kHttp2ConnectionPreface) in
    if negb (bool_decide (take check_size span = take check_size kHttp2ConnectionPreface)) then Ok not_preface
    else if zlen span <? zlen kHttp2ConnectionPreface then Ok need_more
    else Ok is_preface.

(** The options that the loop reads. *)
Record Config : Type := mkConfig { enable_http2 : bool; http2_tls_only : bool }.

(** The locals of the coroutine; [None] is the null pointer. Times are in nanoseconds. *)
Record t : Type := mk {
  protocol_checked : bool;
  http2_mode : bool;
  h2_handshake_active : bool;
  protocol_probe_data : ByteBuffer.t;
  h2_preface_data : ByteBuffer.t;
  http2_session : option Http2Session.t;
  settings_sent_at : Z
}.

(** What a round of the loop comes to: it goes on, it leaves the loop, it hands the bytes to
    the HTTP/1 parser and goes on from there, or it refuses the version and leaves. *)
Inductive round : Type :=
| Continue (c : t)
| Break (c : t)
| Http1 (data : ByteBuffer.t) (c : t)
| VersionNotSupported (c : t).

Section Connection.
Variable little : bool.
Variable react : list event -> list call.
Variable config : Config.

Definition init (alpn_h2 : bool) : t :=
  mk alpn_h2 false false ByteBuffer.default ByteBuffer.default None 0.

(** [enter_h2_mode], on a connection that is there. *)
Definition enter_h2_mode (expect_client_preface : bool) (now : Z) (c : t) : outcome (bool * t) :=
  let session := Http2Session.init true H2Bridge.h2_bridges in
  '(ok, session) ← Http2Session.on_preface_received little session;
  if negb (ok : bool) then
    Ok (false, mk (protocol_checked c) (http2_mode c) (h2_handshake_active c) (protocol_probe_data c) (h2_preface_data c) (Some session) (settings_sent_at c))
  else
    Ok (true, mk (protocol_checked c) true expect_client_preface (protocol_probe_data c) (h2_preface_data c) (Some session) now).

Definition with_session (s : Http2Session.t) (c : t) : t :=
  mk (protocol_checked c) (http2_mode c) (h2_handshake_active c) (protocol_probe_data c) (h2_preface_data c) (Some s) (settings_sent_at c).
Definition with_preface (b : ByteBuffer.t) (active : bool) (c : t) : t :=
  mk (protocol_checked c) (http2_mode c) active (protocol_probe_data c) b (http2_session c) (settings_sent_at c).
Definition with_probe (b : ByteBuffer.t) (checked : bool) (c : t) : t :=
  mk checked (http2_mode c) (h2_handshake_active c) b (h2_preface_data c) (http2_session c) (settings_sent_at c).

Definition kSettingsAckTimeout : Z := 30 * 1000000000.

(** [if (!http2_session || !http2_session->on_bytes(data)) break;]. What is left in the
    buffer is not used again. *)
Definition feed (data : ByteBuffer.t) (c : t) : outcome (bool * t) :=
  match http2_session c with
  | None => Ok (false, c)
  | Some s => '(ok, _, s) ← Http2Session.on_bytes little react data s; Ok (ok, with_session s c)
  end.

(** A read in HTTP/2 mode. *)
Definition on_http2_read (data : ByteBuffer.t) (now : Z) (c : t) : outcome round :=
  if h2_handshake_active c then
    span ← ByteBuffer.readable_span data;
    preface ← ByteBuffer.append span (h2_preface_data c);
    probe ← probe_http2_preface preface;
    match probe with
    | need_more => Ok (Continue (with_preface preface true c))
    | not_preface => Ok (Break (with_preface preface true c))
    | is_preface =>
        let preface := ByteBuffer.consume (zlen kHttp2ConnectionPreface) preface in
        if ByteBuffer.readable_bytes preface =? 0 then Ok (Continue (with_preface (ByteBuffer.clear preface) false c))
        else
          '(ok, c) ← feed preface (with_preface preface false c);
          Ok (if negb (ok : bool) then Break c else Continue (with_preface (ByteBuffer.clear preface) false c))
    end
  else
    '(ok, c) ← feed data c;
    if negb (ok : bool) then Ok (Break c)
    else
      Ok (match http2_session c with
          | Some s => if awaiting_settings_ack_ (progress s) && (kSettingsAckTimeout <? now - settings_sent_at c) then Break c else Continue c
          | None => Continue c
          end).

(** A round of the loop, for the bytes of one read. *)
Definition on_read (data : ByteBuffer.t) (now : Z) (c : t) : outcome round :=
  if http2_mode c then on_http2_read data now c
  else if protocol_checked c then Ok (Http1 data c)
  else
    let first := ByteBuffer.readable_bytes (protocol_probe_data c) =? 0 in
    span ← ByteBuffer.readable_span data;
    probe_data ← (if first then Ok data else ByteBuffer.append span (protocol_probe_data c));
    probe ← probe_http2_preface probe_data;
    match probe with
    | need_more =>
        stored ← (if first then ByteBuffer.append span (protocol_probe_data c) else Ok probe_data);
        Ok (Continue (with_probe stored false c))
    | is_preface =>
        if enable_http2 config && negb (http2_tls_only config) then
          '(ok, c) ← enter_h2_mode false now c;
          if negb (ok : bool) then Ok (Break c)
          else
            '(ok, c) ← feed (ByteBuffer.consume (zlen kHttp2ConnectionPreface) probe_data) c;
            Ok (if negb (ok : bool) then Break c else Continue (with_probe (ByteBuffer.clear (protocol_probe_data c)) false c))
        else Ok (VersionNotSupported c)
    | not_preface => Ok (Http1 probe_data (with_probe (protocol_probe_data c) true c))
    end.

End Connection.
End H2Connection.
