(* ===== verification/Http2BridgeFacts.v ===== *)
(** Lemmas on the HTTP server over an HTTP/2 session: what its bridges call, what they make
    of a header block, and what a response of theirs comes to on the wire. *)
From stdpp Require Import gmap.
From S2P Require Import Prelude ByteBuffer ByteBufferFacts Strings Hpack HpackFacts Http2Frame Http2Session.
From S2P Require Import Http2SessionFacts Http2ReceiveFacts Http2Bridge.

(** * Lemmas on the HTTP/2 session, continued: what sending a response writes, exactly, and
    the path of a request from its HEADERS frame to the application. *)
Import Http2 Http2Session.

Section Facts.
Variable little : bool.

(** * Data, exactly *)
(** A body has been sent on a stream: its parts, and what is parked of it. *)
Definition body_sent (id : Z) (data : bytes) (fin : bool) (c c1 : t) (parts : list bytes) (all : bool) (s1 : StreamEntry) : Prop :=
  sent_parts id data 0 fin c c1 parts all /\ streams_ c1 !! id = Some s1
  /\ if all then has_pending_write (flow s1) = false /\ pending_write_queue_ c1 = pending_write_queue_ c
     else parked (drop (List.length (concat parts)) data) fin s1 /\ pending_write_queue_ c1 = pending_write_queue_ c ++ [id].

(** The stream is closed on this side when all is sent and was the last. *)
Definition after_send (id : Z) (ended : bool) (c : t) : t := if ended then close_local id c else c.

Lemma send_data_fresh id data fin s c : session_ok c -> streams_ c !! id = Some s -> has_pending_write (flow s) = false -> data <> [] ->
  exists all c1 parts s1, send_data little id data fin c = Ok (after_send id (all && fin) c1)
    /\ body_sent id data fin c c1 parts all s1 /\ state s1 = state s.
Proof.
  intros Hok Hs Hp Hd. unfold send_data. pose proof (stream_get _ _ _ Hok Hs) as [Hid _].
  rewrite (ok_conn c Hok). cbn [negb orb]. case_if; [lia|]. rewrite Hs, Hp.
  assert (zlen data <> 0) as Hn by (destruct data; [done|unfold zlen; cbn; lia]). case_if; [lia|].
  destruct (send_loop_ok little (S (List.length data)) id data 0 fin s c Hok Hs) as (all & c1 & parts & s1 & -> & Hsp & Hs1 & Hst & Hrest);
    [lia|unfold zlen; lia|]. mstep.
  exists all, c1, parts, s1. split; [done|]. split; [|done]. split; [done|]. split; [done|].
  destruct all; [by rewrite <- Hp|]. destruct Hrest as (H1 & H2 & _). done.
Qed.

(** The overload for buffers either writes one frame itself, or does the same. *)
Lemma send_buffer_fresh id body fin s c : session_ok c -> streams_ c !! id = Some s -> has_pending_write (flow s) = false ->
  ByteBuffer.wf body -> ByteBuffer.contents body <> [] ->
  exists all c1 parts s1, send_data_buffer little id body fin c = Ok (after_send id (all && fin) c1)
    /\ body_sent id (ByteBuffer.contents body) fin c c1 parts all s1 /\ state s1 = state s.
Proof.
  intros Hok Hs Hp Hb Hd. unfold send_data_buffer. rewrite ByteBuffer.readable_span_ok by done. mstep. cbv zeta.
  set (data := ByteBuffer.contents body) in *. clearbody data.
  assert (zlen data <> 0) as Hn by (destruct data; [done|unfold zlen; cbn; lia]). case_if; [lia|].
  pose proof (stream_get _ _ _ Hok Hs) as [Hid [Hsw Hrw Hpw]].
  rewrite (ok_conn c Hok). cbn [negb orb]. case_if; [lia|]. rewrite Hs, Hp.
  case_if; [|by apply (send_data_fresh id data fin s)].
  apply andb_true_iff in Hif1 as [Hav Hfit]. apply Z.leb_le in Hav, Hfit.
  destruct (send_headed_ok little id data fin s c) as (c1 & s1 & Hrun & He & Hk & Hs1 & Hst & Hpend & Hq & Henc); [done..|].
  exists true, c1, [data], s1. split; [exact Hrun|]. pose proof (zlen_nonneg data).
  split; [|done]. split; [|split; [done|split; [by rewrite Hpend|done]]].
  split; [done|done| | | |done].
  - apply Forall_singleton. unfold part_ok. lia.
  - cbn [concat]. rewrite app_nil_r, drop_0. by rewrite firstn_all.
  - cbn [concat]. by rewrite app_nil_r, drop_0.
Qed.

(** * A request
    The HEADERS frame of a whole header block. *)
Definition headers_frame (id : Z) (x : bytes) (fin : bool) : Frame :=
  mkFrame (mkHeader (zlen x) type_headers (if fin then 5 else 4) id) x.

(** The session takes a new stream [id]. *)
Record accepts (id : Z) (c : t) : Prop := mkAccepts {
  ac_started : seen_non_settings_frame_ (progress c) = true;
  ac_bridge : headers_bridge_ (bridges c) = true;
  ac_odd : Z.odd id = true;
  ac_new : last_stream_id_ c < id < 2147483648;
  ac_last : 0 <= last_stream_id_ c;
  ac_free : streams_ c !! id = None;
  ac_room : open_stream_count c < 128
}.

(** [c1] is [c] with a stream [id] that is open, when its headers are handed on. *)
Record opened (id : Z) (d' : HpackDecoder.t) (c c1 : t) (s1 : StreamEntry) : Prop := mkOpened {
  op_ok : session_ok c1;
  op_trace : trace_ c1 = trace_ c;
  op_streams : streams_ c1 = <[id := s1]> (streams_ c);
  op_open : state s1 = open;
  op_clear : has_pending_write (flow s1) = false;
  op_encoder : hpack_encoder_ c1 = hpack_encoder_ c;
  op_decoder : hpack_decoder_ c1 = d';
  op_windows : windows c1 = windows c;
  op_peer : peer_settings_ c1 = peer_settings_ c;
  op_last : last_stream_id_ c1 = id;
  op_bridges : bridges c1 = bridges c
}.

Lemma land_even id : (Z.land id 1 =? 0) = Z.even id.
Proof.
  change 1 with (Z.ones 1). rewrite Z.land_ones by lia. change (2 ^ 1) with 2. rewrite Zmod_even. by destruct (Z.even id).
Qed.

Section Request.
Variable react : list event -> list call.

(** The rest of [finalize_header_block] after the bridge has returned. *)
Definition after_headers (id : Z) (fin : bool) (c : t) : outcome (bool * t) :=
  stream ← deref id c;
  let stream := set_incoming (with_waiting false (with_block [] (incoming stream))) stream in
  Ok (true, assign id (if fin then set_state half_closed_remote stream else stream) c).

Lemma headers_delivered id x fin hs d' c : session_ok c -> accepts id c ->
  HpackDecoder.decode x (hpack_decoder_ c) = Ok (true, hs, d') -> hs <> [] -> header_list_size hs <= 65536 -> zlen x <= 16384 ->
  let e := Headers id (flat_map plain_line hs) fin in
  exists c1 s1, opened id d' c c1 s1
    /\ handle_frame little react (headers_frame id x fin) c
       = (c2 ← run_calls little (react (trace_ c ++ [e])) (emit [e] c1); after_headers id fin c2).
Proof.
  intros Hok [Hst Hbr Hodd Hnew Hlast Hfree Hroom] Hdec Hne Hsize Hx. cbv zeta.
  destruct (decode_any x (hpack_decoder_ c) (ok_decoder c Hok)) as (ok & hs2 & d2 & Hd2 & Hdok).
  rewrite Hdec in Hd2. injection Hd2 as <- <- <-.
  unfold handle_frame. rewrite (ok_conn c Hok), Hst. cbn [negb headers_frame header type payload]. cbv zeta.
  change (type_headers =? type_settings) with false. change (type_headers =? type_ping) with false.
  change (type_headers =? type_priority) with false. change (type_headers =? type_headers) with true. cbv iota.
  unfold on_headers. cbn [headers_frame header stream_id payload]. cbv zeta.
  assert ((id =? 0) = false) as E0 by lia. rewrite E0. rewrite land_even, <- Z.negb_odd, Hodd. cbn [negb]. assert ((id <=? last_stream_id_ c) = false) as E1 by lia. rewrite E1. cbn [andb].
  unfold validate_stream_state. rewrite E0. change (type_headers =? type_headers) with true. rewrite orb_true_r. cbn [orb andb]. rewrite Hfree, E1. cbn [andb].
  mstep. rewrite (ok_local c Hok). change (max_concurrent_streams LocalSettings) with 128.
  assert ((128 <=? open_stream_count c) = false) as -> by lia. cbn [andb]. unfold get_or_create_stream. rewrite E0, Hfree. cbv zeta.
  pose proof (ok_peer c Hok) as [_ Hpw]. rewrite (ok_local c Hok).
  set (s := mkStream open _ _ _). assert ((last_stream_id_ (assign id s c) <? id) = true) as -> by (change ((last_stream_id_ c <? id) = true); lia).
  set (c0 := set_last_stream id (assign id s c)).
  assert (stream_ok id s) as Hs by (split; [lia|]; split; cbn; [done|lia|done]).
  assert (session_ok c0) as Hok0 by (pose proof (assign_ok id s c Hok Hs) as []; by split).
  rewrite (deref_stream id s c0) by apply lookup_insert_eq. mstep. cbn [waiting_continuation incoming s new_stream]. 
  set (i := mkIncoming _ _ _ _ _ _).
  unfold kMaxHeaderBlockSize. assert ((262144 <? zlen x) = false) as -> by lia. cbn [negb].
  assert (has_flag flag_end_headers (headers_frame id x fin) = true) as -> by by destruct fin.
  assert (has_flag flag_end_stream (headers_frame id x fin) = fin) as -> by by destruct fin.
  set (c1 := assign id (set_incoming i s) c0). 
  unfold finish_headers, maybe_decode_hpack. rewrite (deref_stream id (set_incoming i s) c1) by apply assign_get. mstep.
  cbn [header_block incoming set_incoming i].
  change (hpack_decoder_ c1) with (hpack_decoder_ c). rewrite Hdec. mstep. cbn [negb].
  case_bool_decide; [done|]. change (local_settings_ (set_decoder d' c1)) with (local_settings_ c). rewrite (ok_local c Hok).
  change (max_header_list_size LocalSettings) with 65536. assert ((65536 <? header_list_size hs) = false) as -> by lia. cbn [received_data incoming set_incoming i andb].
  cbn [negb]. unfold finalize_header_block.
  match goal with |- context [assign id (set_incoming (with_block ?p ?j) ?k) ?c0] =>
    set (s2 := set_incoming (with_block p j) k); set (c2 := assign id s2 c0) end.
  exists c2, s2. split.
  - split; try done; [|cbn; by rewrite !insert_insert_eq].
    pose proof (assign_ok id s2 (set_decoder d' c1)) as H2. apply H2; [|done].
    pose proof (assign_ok id (set_incoming i s) c0 Hok0 Hs) as []. by split.
  - mstep. rewrite (deref_stream id s2 c2) by apply assign_get. mstep.
    change (headers_bridge_ (bridges c2)) with (headers_bridge_ (bridges c)). rewrite Hbr. unfold call_bridge. cbv zeta.
    change (header_block (incoming s2)) with (flat_map plain_line hs).
    change (trace_ (emit [Headers id (flat_map plain_line hs) fin] c2)) with (trace_ c ++ [Headers id (flat_map plain_line hs) fin]).
    destruct (run_calls little (react (trace_ c ++ [Headers id (flat_map plain_line hs) fin])) _) as [c3| | |]; [|done..]. mstep.
    unfold after_headers. by destruct (deref id c3).
Qed.
End Request.
End Facts.
Import Http2 Http2Session H2Bridge.

(** * What the dispatcher answers *)
Definition content_type_of (r : HttpResponse) : bytes :=
  match content_type r with Some ct => ct | None => str "application/octet-stream" end.
Definition status_of (r : HttpResponse) : Z :=
  let status := u16 (response_code r) in if (status =? 0) || (status =? u16 (-1)) then 200 else status.
(** A content type that is a byte string, and a body in a buffer. *)
Definition response_ok (r : HttpResponse) : Prop :=
  Forall is_u8 (content_type_of r) /\ zlen (content_type_of r) < 16000000 /\ ByteBuffer.wf (body_buffer r).
Definition answers (dispatch : list event -> HttpRequest -> HttpResponse) : Prop := forall tr req, response_ok (dispatch tr req).
(** What is read through the stale view: as many bytes as the string had. *)
Definition stale_ok (stale : bytes -> bytes) : Prop := forall s, Forall is_u8 s -> Forall is_u8 (stale s) /\ zlen (stale s) = zlen s.

Lemma str_wf_small s : forallb (fun b => bool_decide (is_u8 b)) s = true -> zlen s < 1000 -> str_wf s.
Proof.
  intros Hs Hz. split; [|lia]. apply Forall_forall. intros b Hb. rewrite forallb_forall in Hs.
  apply list_elem_of_In, Hs, bool_decide_eq_true in Hb. done.
Qed.

Section Bridge.
Variable order : gmap bytes bytes -> list (bytes * bytes).
Variable stale : bytes -> bytes.
Variable dispatch : list event -> HttpRequest -> HttpResponse.
Hypothesis Hstale : stale_ok stale.
Hypothesis Hdispatch : answers dispatch.

Abbreviation react := (H2Bridge.react order stale dispatch).

Definition reply_headers (resp : HttpResponse) : list (bytes * bytes) :=
  [(str ":status", to_string (status_of resp)); (str "content-type", content_type_of resp)]
  ++ (if 0 <? ByteBuffer.readable_bytes (body_buffer resp)
      then [(str "content-length", stale (to_string (ByteBuffer.readable_bytes (body_buffer resp))))] else []).

Lemma reply_calls_eq id resp : reply_calls stale id resp =
  SendHeaders id (reply_headers resp) (ByteBuffer.readable_bytes (body_buffer resp) =? 0)
  :: (if negb (ByteBuffer.readable_bytes (body_buffer resp) =? 0) then [SendBuffer id (body_buffer resp) true] else []).
Proof. done. Qed.

Lemma status_range resp : 0 <= status_of resp < 65536.
Proof. unfold status_of. cbv zeta. pose proof (u16_range (response_code resp)). unfold is_u16 in *. case_if; lia. Qed.

Lemma reply_headers_ok resp : response_ok resp -> headers_ok (reply_headers resp).
Proof.
  intros (Hct & Hl & Hb). pose proof (status_range resp) as Hst. pose proof (to_string_len (status_of resp)) as Hsl.
  destruct (to_string_wf (status_of resp)) as [Hs1 Hs2]; [lia|].
  assert (0 <= ByteBuffer.readable_bytes (body_buffer resp)) as Hn by (unfold ByteBuffer.readable_bytes; destruct Hb; lia).
  set (n := ByteBuffer.readable_bytes (body_buffer resp)) in *.
  destruct (to_string_wf n Hn) as [Hn1 Hn2]. destruct (Hstale _ Hn1) as [Hst1 Hst2]. pose proof (to_string_len n).
  assert (str_wf (str ":status") /\ str_wf (str "content-type") /\ str_wf (str "content-length")) as (H1 & H2 & H3)
    by (repeat split; try (apply str_wf_small; reflexivity); reflexivity).
  assert (str_wf (to_string (status_of resp))) as H4 by (apply to_string_wf; lia).
  assert (str_wf (content_type_of resp)) as H5 by (split; [done|lia]).
  assert (str_wf (stale (to_string n))) as H6 by (split; [done|lia]).
  split.
  - unfold reply_headers. fold n. apply Forall_app. split; [by constructor; [|by apply Forall_singleton]|]. case_if; [by apply Forall_singleton|done].
  - unfold reply_headers, headers_size, header_size. fold n.
    case_if; cbn [app foldr fst snd]; change (zlen (str ":status")) with 7; change (zlen (str "content-type")) with 12;
      try change (zlen (str "content-length")) with 14; lia.
Qed.

Lemma reply_calls_ok id resp : 0 < id < 2147483648 -> response_ok resp ->
  Forall call_ok (reply_calls stale id resp) /\ Forall (spares id) (reply_calls stale id resp).
Proof.
  intros Hid Hr. rewrite reply_calls_eq. pose proof (reply_headers_ok resp Hr). destruct Hr as (_ & _ & Hb).
  case_if; split; by repeat (apply Forall_cons; split || apply Forall_nil).
Qed.

Lemma simple_call_ok id status ct body : 0 < id < 2147483648 -> is_u16 status -> Forall is_u8 ct -> zlen ct < 1000 -> zlen body < 1000 ->
  Forall call_ok [SendSimple id status ct body] /\ Forall (spares id) [SendSimple id status ct body].
Proof. intros ? ? ? ? ?. split; apply Forall_singleton; [|done]. unfold call_ok. pose proof (zlen_nonneg ct). split; [done|]. split; [done|]. split; [done|]. lia. Qed.

Lemma maybe_reply_polite tr id streams : 0 < id < 2147483648 ->
  let l := (maybe_reply_h2_via_dispatcher order stale dispatch tr id streams).1 in Forall call_ok l /\ Forall (spares id) l.
Proof.
  intros Hid. cbv zeta. unfold maybe_reply_h2_via_dispatcher. destruct (streams !! id) as [s|]; [|done].
  case_if; [done|]. assert (Forall is_u8 (str "text/plain")) as Ht by by apply str_wf_small.
  case_if; [apply simple_call_ok; done|].
  destruct (if bool_decide _ then None else _) as [[[method path] authority]|]; cbn [fst]; [|apply simple_call_ok; done].
  apply reply_calls_ok; [done|apply Hdispatch].
Qed.

Lemma react_snoc tr e : react (tr ++ [e]) = (on_event order stale dispatch (tr ++ [e]) e (assemble order stale dispatch [] tr ∅)).1.
Proof. unfold H2Bridge.react. by rewrite last_snoc, removelast_last. Qed.

(** The bridges call the session as they should. *)
Lemma react_polite : polite react.
Proof.
  intros tr e id He Hid. rewrite react_snoc. set (streams := assemble _ _ _ _ _ _). clearbody streams.
  destruct e as [| |j raw fin|j data fin|]; cbn in He; try done; subst j; cbn [on_event].
  - unfold headers_bridge. cbv zeta. destruct (parse_h2_header_block raw) as [pseudo regular].
    set (s := if headers_done _ then _ else _). case_if; [|done]. by apply maybe_reply_polite.
  - unfold data_bridge. destruct (streams !! id) as [s|]; [|done]. by apply maybe_reply_polite.
Qed.

Lemma assemble_snoc tr e : assemble order stale dispatch [] (tr ++ [e]) ∅ =
  (on_event order stale dispatch (tr ++ [e]) e (assemble order stale dispatch [] tr ∅)).2.
Proof.
  assert (forall tr past streams, assemble order stale dispatch past (tr ++ [e]) streams =
    (on_event order stale dispatch (past ++ tr ++ [e]) e (assemble order stale dispatch past tr streams)).2) as H; [|by apply H].
  induction tr0 as [|x tr0 IH]; intros past streams; cbn [app assemble]; [done|].
  rewrite IH. by rewrite <- app_assoc.
Qed.
End Bridge.

(** * Header blocks
    The lines that the session hands on, as the bridges read them. *)
Definition line_of (h : bytes * bytes) : bytes := h.1 ++ str ": " ++ h.2 ++ [13; 10].
Definition text_of (h : bytes * bytes) : bytes := h.1 ++ str ": " ++ h.2.

(** Visible characters other than a colon. *)
Definition token_char (c : Z) : Prop := 33 <= c < 127 /\ c <> 58.
#[export] Instance token_char_dec c : Decision (token_char c).
Proof. unfold token_char. apply _. Defined.
Definition token (s : bytes) : Prop := s <> [] /\ Forall token_char s.
(** A value without line breaks, and without spaces around it. *)
Definition value_ok (v : bytes) : Prop := Forall (fun c => c <> 10 /\ c <> 13) v /\ trim_copy v = v.

Definition pseudo_ok (h : bytes * bytes) : Prop := known_pseudo h.1 = true /\ value_ok h.2.
Definition regular_ok (h : bytes * bytes) : Prop := token h.1 /\ value_ok h.2.

(** The map that a list of pairs comes to when they are stored one after the other. *)
Definition map_of (l : list (bytes * bytes)) (m : gmap bytes bytes) : gmap bytes bytes := foldl (fun m kv => <[kv.1 := kv.2]> m) m l.

Lemma known_pseudo_token key : known_pseudo key = true -> exists m, key = 58 :: m /\ token m.
Proof.
  unfold known_pseudo. rewrite !orb_true_iff, !bool_decide_eq_true.
  intros [[[H|H]|H]|H]; subst; eexists; (split; [reflexivity|]); (split; [done|]);
    by apply (bool_decide_unpack _).
Qed.

(** ** Spaces *)
Lemma space_token c : token_char c -> StringUtil.is_ascii_space c = false.
Proof. intros [H _]. unfold StringUtil.is_ascii_space. rewrite !orb_false_iff, !Z.eqb_neq. lia. Qed.
Lemma trim_back_visible s : Forall (fun c => StringUtil.is_ascii_space c = false) s -> StringUtil.trim_back s = s.
Proof. induction 1 as [|c s Hc _ IH]; cbn [StringUtil.trim_back]; [done|]. rewrite IH. destruct s; [by rewrite Hc|done]. Qed.
Lemma trim_visible s : Forall (fun c => StringUtil.is_ascii_space c = false) s -> trim_copy s = s.
Proof.
  intros H. unfold trim_copy. assert (StringUtil.trim_front s = s) as -> by (destruct H as [|c s Hc H]; cbn; [done|by rewrite Hc]).
  by apply trim_back_visible.
Qed.
Lemma trim_token s : Forall token_char s -> trim_copy s = s.
Proof. intros H. apply trim_visible. eapply Forall_impl; [exact H|]. apply space_token. Qed.
Lemma trim_pseudo m : token m -> trim_copy (58 :: m) = 58 :: m.
Proof. intros [_ H]. apply trim_visible. constructor; [done|]. eapply Forall_impl; [exact H|]. apply space_token. Qed.
Lemma trim_after_space v : trim_copy v = v -> trim_copy (32 :: v) = v.
Proof. unfold trim_copy. cbn [StringUtil.trim_front]. done. Qed.

(** ** Lines *)
Lemma lines_line x line rest : Forall (fun c => c <> 10) x -> lines line (x ++ 10 :: rest) = (line ++ x) :: lines [] rest.
Proof.
  intros H. revert line. induction H as [|c x Hc _ IH]; intros line; cbn [app lines].
  - by rewrite app_nil_r.
  - destruct (Z.eqb_spec c 10); [done|]. rewrite IH. by rewrite <- app_assoc.
Qed.
Lemma lines_block hs : Forall (fun h => Forall (fun c => c <> 10) (text_of h)) hs ->
  lines [] (flat_map line_of hs) = map (fun h => text_of h ++ [13]) hs.
Proof.
  induction 1 as [|h hs Hh _ IH]; [done|]. cbn [flat_map map].
  replace (line_of h ++ flat_map line_of hs) with ((text_of h ++ [13]) ++ 10 :: flat_map line_of hs)
    by (unfold line_of, text_of; rewrite <- !app_assoc; done).
  rewrite lines_line by (apply Forall_app; split; [done|by apply Forall_singleton]). by rewrite IH.
Qed.
Lemma remove_cr_text h : remove_cr (text_of h ++ [13]) = text_of h.
Proof. unfold remove_cr. rewrite last_snoc. cbn [Z.eqb]. change (13 =? 13) with true. by rewrite removelast_last. Qed.

Lemma token_no_newline s : Forall token_char s -> Forall (fun c => c <> 10) s.
Proof. intros H. eapply Forall_impl; [exact H|]. intros c [? _]. lia. Qed.
Lemma text_no_newline h : Forall (fun c => c <> 10) h.1 -> value_ok h.2 -> Forall (fun c => c <> 10) (text_of h).
Proof.
  intros H1 [H2 _]. unfold text_of. apply Forall_app. split; [done|]. apply Forall_app. split.
  - change (str ": ") with [58; 32]. by repeat (apply Forall_cons; split; [lia|]).
  - eapply Forall_impl; [exact H2|]. by intros c [].
Qed.

(** ** The separator *)
Lemma index_of_colon s rest : Forall (fun c => c <> 58) s -> index_of 58 (s ++ 58 :: rest) = Some (List.length s).
Proof. induction 1 as [|c s Hc _ IH]; cbn [app index_of List.length]; [done|]. destruct (Z.eqb_spec c 58); [done|]. by rewrite IH. Qed.
Lemma token_no_colon s : Forall token_char s -> Forall (fun c => c <> 58) s.
Proof. intros H. eapply Forall_impl; [exact H|]. by intros c [_ ?]. Qed.
Lemma separator_regular h : token h.1 -> separator (text_of h) = Some (List.length h.1).
Proof.
  intros [Hne Ht]. destruct h as [n v]. cbn [fst] in *. unfold text_of. cbn [fst snd]. unfold separator.
  assert (find 58 (n ++ str ": " ++ v) 0 = Some (List.length n)) as Hf.
  { unfold find. rewrite drop_0. exact (f_equal (fmap _) (index_of_colon n (32 :: v) (token_no_colon n Ht))). }
  destruct Ht as [|c n [_ Hc] _]; [done|]. cbn [app]. destruct (Z.eqb_spec c 58); [done|]. exact Hf.
Qed.
Lemma separator_pseudo m v : token m -> separator (text_of (58 :: m, v)) = Some (List.length (58 :: m)).
Proof.
  intros [_ Ht]. unfold text_of, separator. cbn [fst snd app]. change (58 =? 58) with true. cbv iota.
  unfold find. cbn [drop]. exact (f_equal (fmap _) (index_of_colon m (32 :: v) (token_no_colon m Ht))).
Qed.
Lemma key_of h : substr (text_of h) 0 (List.length h.1) = h.1.
Proof. unfold substr, text_of. rewrite drop_0. apply take_app_length. Qed.
Lemma value_of h : substr_from (text_of h) (S (List.length h.1)) = 32 :: h.2.
Proof.
  unfold substr_from, text_of. change (str ": " ++ h.2) with ([58] ++ 32 :: h.2). rewrite app_assoc.
  apply drop_app_length'. rewrite length_app. cbn. lia.
Qed.

(** ** The loop *)
Lemma loop_regular hs seen ps : Forall regular_ok hs -> forall b rs,
  header_block_loop (map (fun h => text_of h ++ [13]) hs) b seen ps rs = (ps, map_of hs rs).
Proof.
  induction 1 as [|h hs [Hn Hv] _ IH]; intros b rs; cbn [map header_block_loop]; [done|]. cbv zeta.
  rewrite remove_cr_text, separator_regular, key_of, value_of by done. rewrite trim_token by apply Hn. rewrite trim_after_space by apply Hv.
  destruct h as [[|c n] v]; cbn [fst snd] in *; [by destruct Hn|].
  destruct (Z.eqb_spec c 58) as [->|]; [by destruct Hn as [_ [[_ ?] _]%Forall_cons]|]. by rewrite IH.
Qed.
Lemma loop_pseudo hs ls rs : Forall pseudo_ok hs -> NoDup hs.*1 -> forall seen ps, (forall k, k ∈ hs.*1 -> k ∉ seen) ->
  exists seen', header_block_loop (map (fun h => text_of h ++ [13]) hs ++ ls) false seen ps rs = header_block_loop ls false seen' (map_of hs ps) rs.
Proof.
  induction 1 as [|h hs [Hn Hv] _ IH]; intros Hnd seen ps Hseen; cbn [map app header_block_loop]; [by exists seen|]. cbv zeta.
  destruct (known_pseudo_token _ Hn) as (m & Em & Hm). destruct h as [n v]. cbn [fst snd] in *. subst n.
  cbn [fmap list_fmap] in Hnd. apply NoDup_cons in Hnd as [Hni Hnd]. cbn [fst] in *.
  rewrite remove_cr_text, separator_pseudo by done.
  pose proof (key_of (58 :: m, v)) as Hk. pose proof (value_of (58 :: m, v)) as Hval. cbn [fst snd] in Hk, Hval. rewrite Hk, Hval.
  rewrite trim_pseudo by done. rewrite trim_after_space by apply Hv. change (58 =? 58) with true. cbv iota. rewrite Hn. cbn [negb].
  rewrite bool_decide_eq_false_2 by (apply Hseen; by left).
  apply (IH Hnd). intros k Hk2. apply not_elem_of_union. split; [|apply Hseen; by right].
  intros ->%elem_of_singleton. done.
Qed.

(** A request's block: the pseudo headers first, each once. *)
Lemma parse_block ps rs : Forall pseudo_ok ps -> NoDup ps.*1 -> Forall regular_ok rs ->
  parse_h2_header_block (flat_map line_of (ps ++ rs)) = (map_of ps ∅, map_of rs ∅).
Proof.
  intros Hp Hnd Hr. unfold parse_h2_header_block. rewrite lines_block.
  - rewrite map_app. destruct (loop_pseudo ps (map (fun h => text_of h ++ [13]) rs) ∅ Hp Hnd ∅ ∅) as (seen & ->); [set_solver|].
    by apply loop_regular.
  - apply Forall_app. split.
    + eapply Forall_impl; [exact Hp|]. intros h [Hn Hv]. apply text_no_newline; [|done].
      destruct (known_pseudo_token _ Hn) as (m & -> & _ & Hm). constructor; [done|by apply token_no_newline].
    + eapply Forall_impl; [exact Hr|]. intros h [[_ Hn] Hv]. apply text_no_newline; [|done]. by apply token_no_newline.
Qed.

(** * Lemmas on a request and its response, from the client's header block to the frames of
    the reply: the composition of HPACK, the session and the bridges of the server. *)
Import Http2 Http2Session H2Bridge.

Section Answer.
Variable little : bool.
Variable order : gmap bytes bytes -> list (bytes * bytes).
Variable stale : bytes -> bytes.
Variable dispatch : list event -> HttpRequest -> HttpResponse.
Hypothesis Hstale : stale_ok stale.
Hypothesis Hdispatch : answers dispatch.

Abbreviation react := (H2Bridge.react order stale dispatch).

Definition pair_of (f : HpackHeaderField) : bytes * bytes := (field_name f, field_value f).

(** * The reply
    From [c] to [c'] the session writes the response [resp] on stream [id]: a HEADERS frame
    whose block the peer, whose decoder is [d], reads as the headers of the response, and
    DATA frames with the body, of which what the windows do not allow is parked. *)
Record replied (id : Z) (resp : HttpResponse) (d : HpackDecoder.t) (c c' : t) : Prop := mkReplied {
  rp_wire : exists y parts all fs d',
    written c' = written c ++ frame_bytes (headers_frame id y (bool_decide (ByteBuffer.contents (body_buffer resp) = [])))
      ++ frames_bytes (data_frames id parts all)
    /\ HpackDecoder.decode y d = Ok (true, fs, d') /\ map pair_of fs = reply_headers stale resp
    /\ synced (hpack_encoder_ c') d' /\ lower_table d'
    /\ Forall (part_ok c) parts
    /\ (if (all : bool) then concat parts = ByteBuffer.contents (body_buffer resp)
        else exists s rest, streams_ c' !! id = Some s /\ parked rest true s /\ concat parts ++ rest = ByteBuffer.contents (body_buffer resp));
  rp_ok : session_ok c'
}.

Lemma body_size b : ByteBuffer.wf b -> (ByteBuffer.readable_bytes b =? 0) = bool_decide (ByteBuffer.contents b = []).
Proof.
  intros Hb. rewrite <- ByteBuffer.zlen_contents by done. destruct (ByteBuffer.contents b); [done|].
  case_bool_decide; [done|]. apply Z.eqb_neq. unfold zlen. cbn. lia.
Qed.
Lemma reply_headers_lower resp : Forall (fun h => is_lower h.1) (reply_headers stale resp).
Proof. unfold reply_headers. apply Forall_app. split; [by repeat constructor|]. case_if; [by repeat constructor|done]. Qed.

Lemma reply_sent id resp s d c : session_ok c -> streams_ c !! id = Some s -> state s = open -> has_pending_write (flow s) = false ->
  response_ok resp -> synced (hpack_encoder_ c) d -> lower_table d ->
  exists c', run_calls little (reply_calls stale id resp) c = Ok c' /\ replied id resp d c c'
    /\ hpack_decoder_ c' = hpack_decoder_ c /\ exists s', streams_ c' !! id = Some s' /\ state s' <> closed.
Proof.
  intros Hok Hs Hopen Hp Hr Hsy Hlow. pose proof (stream_get _ _ _ Hok Hs) as [Hid _].
  rewrite reply_calls_eq. pose proof Hr as (_ & _ & Hb). rewrite (body_size _ Hb). set (body := ByteBuffer.contents (body_buffer resp)) in *.
  pose proof (reply_headers_ok stale Hstale resp Hr) as Hh.
  destruct (decode_headers_sent _ _ _ (proj1 Hh) Hsy) as (x & e' & fs & d' & E & Hx & Hdec & _ & Hsy' & Hexact).
  destruct (Hexact Hlow (reply_headers_lower resp)) as [Hfs Hlow'].
  destruct (send_headers_sent little id (reply_headers stale resp) (bool_decide (body = [])) c Hok Hid Hh) as (c1 & x1 & E1 & Hsend & He & Hs1 & Hq1).
  rewrite E in E1. injection E1 as <- ->. cbn [run_calls run_call]. rewrite Hsend. mstep.
  pose proof (ext_written _ _ _ He) as Hw. unfold frames_bytes in Hw. cbn [flat_map] in Hw. rewrite app_nil_r in Hw.
  case_bool_decide as Hbody; cbn [negb run_calls].
  - eexists. split; [done|]. destruct (close_local_ext id c1 (ext_ok _ _ _ He)) as [Hc _].
    split; [split; [|apply Hc]|split; [by rewrite (ext_decoder _ _ _ Hc), (ext_decoder _ _ _ He)|]].
    + exists x, [], true, fs, d'. change (frames_bytes (data_frames id [] true)) with (@nil Z). rewrite (ext_written _ _ _ Hc), close_local_encoder, Hw, bool_decide_eq_true_2 by done.
      unfold frames_bytes. cbn [flat_map]. rewrite !app_nil_r. done.
    + unfold close_local. rewrite Hs1, Hs, Hopen. eexists. split; [apply assign_get|done].
  - cbn [run_call]. rewrite <- Hs1 in Hs.
    destruct (send_buffer_fresh little id (body_buffer resp) true s c1 (ext_ok _ _ _ He) Hs Hp Hb Hbody)
      as (all & c2 & parts & s2 & -> & ([Hsp Hk Hparts Hd Hall Henc] & Hs2 & Hrest) & Hst2). mstep.
    rewrite andb_true_r in *. change (Z.to_nat 0) with 0%nat in *. rewrite drop_0 in *.
    destruct (close_local_ext id c2 (ext_ok _ _ _ Hsp)) as [Hc _].
    assert (exists c', after_send id all c2 = c' /\ ext c2 c' [] /\ hpack_encoder_ c' = hpack_encoder_ c2
      /\ (all = false -> c' = c2) /\ exists s', streams_ c' !! id = Some s' /\ state s' <> closed) as (c' & -> & Hc' & Henc' & Hsame & Hfin).
    { eexists. split; [done|]. destruct all; cbn [after_send].
      - split; [done|]. split; [apply close_local_encoder|]. split; [done|].
        unfold close_local. rewrite Hs2, Hst2, Hopen. eexists. split; [apply assign_get|done].
      - split; [apply ext_refl, Hsp|]. split; [done|]. split; [done|]. exists s2. split; [done|]. by rewrite Hst2, Hopen. }
    exists c'. split; [done|].
    split; [|split; [by rewrite (ext_decoder _ _ _ Hc'), (ext_decoder _ _ _ Hsp), (ext_decoder _ _ _ He)|done]].
    split; [|apply Hc'].
    exists x, parts, all, fs, d'. rewrite bool_decide_eq_false_2 by done. split.
    { rewrite (ext_written _ _ _ Hc'), (ext_written _ _ _ Hsp), Hw. cbn [frames_bytes flat_map]. by rewrite app_nil_r, app_assoc. }
    split; [done|]. split; [done|]. rewrite Henc', Henc. split; [done|]. split; [done|].
    split.
    { eapply Forall_impl; [exact Hparts|]. unfold part_ok. by rewrite (ext_peer _ _ _ He). }
    destruct all; [done|]. rewrite Hsame by done. exists s2, (drop (List.length (concat parts)) body). split; [done|].
    split; [by destruct Hrest|]. rewrite Hd at 1. apply take_drop.
Qed.

(** * The request *)
Record request_ok (ps rs : list (bytes * bytes)) (method path authority : bytes) : Prop := mkRequestOk {
  rq_pseudo : Forall pseudo_ok ps;
  rq_once : NoDup ps.*1;
  rq_regular : Forall regular_ok rs;
  rq_lower : Forall (fun h => is_lower h.1) rs;
  rq_wf : Forall header_wf (ps ++ rs);
  rq_some : ps ++ rs <> [];
  rq_valid : validate_h2_pseudo_headers (map_of ps ∅) = Some (method, path, authority)
}.
Definition assembled (ps rs : list (bytes * bytes)) : Http2AssembledStream :=
  mkAssembled (map_of ps ∅) (map_of rs ∅) [] true true false false.

Definition list_size (hs : list (bytes * bytes)) : Z := foldr (fun h n => 32 + zlen h.1 + zlen h.2 + n) 0 hs.
Lemma header_list_size_pairs fs : header_list_size fs = list_size (map pair_of fs).
Proof. unfold header_list_size, list_size. induction fs as [|f fs IH]; cbn [map foldr]; [done|]. by rewrite IH. Qed.
Lemma plain_lines fs : flat_map plain_line fs = flat_map line_of (map pair_of fs).
Proof. induction fs as [|f fs IH]; cbn [flat_map map]; [done|]. by rewrite IH. Qed.

Lemma map_of_keys l : forall m k, is_Some (map_of l m !! k) -> k ∈ l.*1 \/ is_Some (m !! k).
Proof.
  induction l as [|[a b] l IH]; intros m k H; cbn [map_of foldl] in H; [by right|].
  destruct (IH _ _ H) as [|Hm]; [left; by right|]. cbn [fst snd] in Hm. destruct (decide (a = k)) as [->|]; [left; left|].
  rewrite lookup_insert_ne in Hm by done. by right.
Qed.
Lemma pseudo_valid ps : Forall pseudo_ok ps -> ~ is_Some (map_of ps ∅ !! str ":__invalid").
Proof.
  intros Hp Hk. apply map_of_keys in Hk as [Hk|[? Hk]]; [|by rewrite lookup_empty in Hk].
  apply list_elem_of_fmap in Hk as (h & Eh & Hh). rewrite Forall_forall in Hp. apply Hp in Hh as [Hh _]. rewrite <- Eh in Hh. done.
Qed.
Lemma pseudo_lower ps : Forall pseudo_ok ps -> Forall (fun h => is_lower h.1) ps.
Proof.
  intros H. eapply Forall_impl; [exact H|]. intros h [Hn _]. unfold known_pseudo in Hn.
  rewrite !orb_true_iff, !bool_decide_eq_true in Hn. destruct Hn as [[[->| ->]| ->]| ->]; done.
Qed.

(** The bridge, called with the block of a whole request. *)
Lemma react_request tr id ps rs method path authority : request_ok ps rs method path authority ->
  assemble order stale dispatch [] tr ∅ !! id = None ->
  let e := Headers id (flat_map line_of (ps ++ rs)) true in
  react (tr ++ [e]) = reply_calls stale id (dispatch (tr ++ [e]) (request_of order (assembled ps rs) method path authority)).
Proof.
  intros [Hp Hnd Hr _ _ _ Hv] Hno. cbv zeta. rewrite react_snoc. cbn [on_event]. unfold headers_bridge. rewrite Hno. cbv zeta.
  rewrite parse_block by done. cbn [headers_done new_assembled orb]. cbn [end_stream].
  unfold maybe_reply_h2_via_dispatcher. rewrite lookup_insert_eq. cbn [headers_done end_stream negb orb body_oversized pseudo_headers].
  rewrite bool_decide_eq_false_2 by by apply pseudo_valid. by rewrite Hv.
Qed.

(** The stream is put back with another state and no header block: nothing is written. *)
Lemma replied_after id resp d c c2 s s' : replied id resp d c c2 -> streams_ c2 !! id = Some s -> flow s' = flow s ->
  replied id resp d c (assign id s' c2).
Proof.
  intros [(y & parts & all & fs & d' & H1 & H2 & H3 & H4 & H5 & H6 & H7) Hok] Hs Hf. split; try done.
  - exists y, parts, all, fs, d'. repeat (split; [done|]). destruct all; [done|].
    destruct H7 as (s0 & rest & Hs0 & Hp & Hc). replace s0 with s in * by congruence. exists s', rest. split; [apply assign_get|].
    split; [|done]. unfold parked in *. by rewrite Hf.
  - apply assign_ok; [done|]. destruct (stream_get _ _ _ Hok Hs) as [? Hflow]. split; [done|]. by rewrite Hf.
Qed.

Lemma request_answered id ps rs method path authority e d c :
  session_ok c -> accepts id c -> assemble order stale dispatch [] (trace_ c) ∅ !! id = None ->
  request_ok ps rs method path authority -> list_size (ps ++ rs) <= 65536 ->
  synced e (hpack_decoder_ c) -> lower_table (hpack_decoder_ c) -> synced (hpack_encoder_ c) d -> lower_table d ->
  let tr := trace_ c ++ [Headers id (flat_map line_of (ps ++ rs)) true] in
  exists x e', HpackEncoder.encode_headers (ps ++ rs) e [] = Ok (x, e') /\ (zlen x <= 16384 ->
    exists c', handle_frame little react (headers_frame id x true) c = Ok (true, c')
      /\ replied id (dispatch tr (request_of order (assembled ps rs) method path authority)) d c c'
      /\ synced e' (hpack_decoder_ c') /\ stream_state id c' = half_closed_remote).
Proof.
  intros Hok Hacc Hno Hrq Hsize Hsy Hlow Hsy2 Hlow2. cbv zeta. set (tr := trace_ c ++ _).
  destruct (decode_headers_sent _ _ _ (rq_wf _ _ _ _ _ Hrq) Hsy) as (x & e' & fs & d' & E & Hx & Hdec & _ & Hsy' & Hexact).
  assert (Forall (fun h => is_lower h.1) (ps ++ rs)) as Hll by (apply Forall_app; split; [apply pseudo_lower, Hrq|apply Hrq]).
  destruct (Hexact Hlow Hll) as [Hfs Hlow']. fold pair_of in Hfs. change (map pair_of fs = ps ++ rs) in Hfs.
  exists x, e'. split; [done|]. intros Hxl.
  destruct (headers_delivered little react id x true fs d' c Hok Hacc Hdec) as (c1 & s1 & Hop & ->); [|by rewrite header_list_size_pairs, Hfs|done|].
  { intros ->. by apply (rq_some _ _ _ _ _ Hrq). }
  rewrite plain_lines, Hfs. fold tr. unfold tr at 1. rewrite (react_request _ id ps rs method path authority Hrq Hno). fold tr.
  set (resp := dispatch tr _). set (c0 := emit [Headers id (flat_map line_of (ps ++ rs)) true] c1).
  destruct Hop as [Hop_ok Hop_tr Hop_str Hop_open Hop_clear Hop_enc Hop_dec _ Hop_peer _ _].
  assert (session_ok c0) as Hok0 by by destruct Hop_ok.
  assert (streams_ c0 !! id = Some s1) as Hs0 by (change (streams_ c1 !! id = Some s1); rewrite Hop_str; apply lookup_insert_eq).
  destruct (reply_sent id resp s1 d c0 Hok0 Hs0 Hop_open Hop_clear) as (c2 & -> & Hrep & Hdc & s2 & Hs2 & _);
    [apply Hdispatch|by change (hpack_encoder_ c0) with (hpack_encoder_ c1); rewrite Hop_enc|done|].
  mstep. unfold after_headers. rewrite (deref_stream id s2 c2 Hs2). mstep. eexists. split; [done|].
  assert (written c0 = written c) as Hw by (unfold c0; rewrite written_emit; cbn; rewrite app_nil_r; unfold written; by rewrite Hop_tr).
  split; [|split].
  - apply (replied_after id resp d c c2 s2); [|done|done].
    destruct Hrep as [(y & parts & all & gs & dd & H1 & H2) H3]. split; [|done].
    exists y, parts, all, gs, dd. rewrite <- Hw. split; [done|].
    destruct H2 as (? & ? & ? & ? & Hp & ?). repeat (split; [done|]). split; [|done].
    eapply Forall_impl; [exact Hp|]. unfold part_ok. change (peer_settings_ c0) with (peer_settings_ c1). by rewrite Hop_peer.
  - change (synced e' (hpack_decoder_ c2)). rewrite Hdc. change (hpack_decoder_ c0) with (hpack_decoder_ c1). by rewrite Hop_dec.
  - unfold stream_state. by rewrite assign_get.
Qed.
End Answer.
