(* ===== verification/Http2System.v ===== *)
(** The runs of an HTTP/2 session, and of the connection that feeds it. *)
From stdpp Require Import gmap.
From S2P Require Import Prelude Strings ByteBuffer ByteBufferFacts Hpack HpackFacts Http2Frame.
From S2P Require Import Http2Session Http2SessionFacts Http2ReceiveFacts Http2BridgeFacts Http2Bridge.
Import Http2 Http2Session.

Section Runs.
Variable little : bool.
Variable react : list event -> list call.
Hypothesis Hreact : polite react.

(** * Reachable sessions
    The session is given bytes while it goes on, and the application calls it, in any order;
    [n] is what the peer has added to the connection window. *)
Inductive reachable (b : Bridges) : t -> Z -> Prop :=
| reach_start c : on_preface_received little (init true b) = Ok (true, c) -> reachable b c 0
| reach_bytes c n input x input' c' : reachable b c n -> view input x -> small input -> Forall is_u8 x ->
    on_bytes little react input c = Ok (true, input', c') -> reachable b c' (n + credits (frames_of x).1)
| reach_call c n k c' : reachable b c n -> call_ok k -> run_call little k c = Ok c' -> reachable b c' n.

(** What holds of them: the bytes that were written are frames, and the data in them and
    the window that is left are what the peer has allowed. *)
Record accounted (c : t) (n : Z) : Prop := mkAccounted {
  ac_ok : session_ok c;
  ac_frames : exists fs, written c = frames_bytes fs /\ Forall frame_wf fs
    /\ connection_send_window_ (windows c) + data_total fs = 65535 + n
}.

Lemma session_init_ok b : session_ok (init true b).
Proof.
  split; try done.
  all: try (unfold peer_ok, windows_ok, is_window; cbn; lia).
  all: split; [|done]; by repeat split.
Qed.

Lemma settings_wf c : local_settings_ c = LocalSettings ->
  let p := server_settings (local_settings_ c) in frame_wf (mkFrame (mkHeader (u32 (zlen p)) type_settings flag_none 0) p).
Proof. intros ->. by split. Qed.

Lemma preface_moves c : session_ok c -> exists c' fs, on_preface_received little c = Ok (true, c') /\ moves 0 c c' fs.
Proof.
  intros Hok. unfold on_preface_received, send_server_settings. rewrite (ok_conn c Hok). cbn [negb]. cbv zeta. case_if.
  { mstep. eexists _, _. split; [done|by apply moves_refl]. }
  match goal with |- context [set_progress ?p c] => set (c0 := set_progress p c) end.
  assert (moves 0 c c0 []) as H0 by by apply progress_moves.
  destruct (send_control little _ c0 (mv_ok _ _ _ _ H0) (settings_wf c0 (ok_local _ (mv_ok _ _ _ _ H0))) eq_refl) as (c1 & -> & He & _). mstep.
  eexists _, _. split; [done|]. eapply (moves_trans 0 0); [eapply moves_then; [exact H0|exact He]|]. apply progress_moves, He.
Qed.

Lemma accounted_moves c c' n k fs : accounted c n -> moves k c c' fs -> accounted c' (n + k).
Proof.
  intros [Hok (gs & Hw & Hwf & Hwin)] [Hw' Hwf' Hwin' Hok']. split; [done|]. exists (gs ++ fs). split; [by rewrite Hw', Hw, frames_bytes_app|].
  split; [by apply Forall_app|]. rewrite data_total_app. lia.
Qed.

Lemma reachable_accounted b c n : reachable b c n -> accounted c n.
Proof.
  induction 1 as [c Hc|c n input x input' c' _ IH Hv Hs Hu Hrun|c n k c' _ IH Hk Hrun].
  - assert (accounted (init true b) 0) as H0.
    { split; [apply session_init_ok|]. by exists []. }
    destruct (preface_moves (init true b) (session_init_ok b)) as (c1 & fs & E & Hm). rewrite Hc in E. injection E as <-.
    exact (accounted_moves _ _ 0 0 _ H0 Hm).
  - destruct (on_bytes_view little react Hreact input x c Hv Hs Hu (ac_ok _ _ IH)) as (ok & c1 & i1 & E & Hfr & _).
    rewrite Hrun in E. injection E as <- <- <-.
    destruct (run_frames_ok little react Hreact (frames_of x).1 c (ac_ok _ _ IH)) as (ok & c2 & fs & j & E2 & Hm & Hj); [by apply frames_of_in|].
    rewrite Hfr in E2. injection E2 as <- <-. rewrite <- (Hj eq_refl). by eapply accounted_moves.
  - destruct (run_call_ok little k c (ac_ok _ _ IH) Hk) as (c1 & fs & E & He & _). rewrite Hrun in E. injection E as <-.
    rewrite <- (Z.add_0_r n). eapply accounted_moves; [exact IH|by apply moves_ext].
Qed.

(** * Bytes in pieces *)
Lemma pieces_agree x y b1 b2 c : view b1 x -> small b1 -> Forall is_u8 x -> view b2 (x ++ y) -> small b2 -> Forall is_u8 y -> session_ok c ->
  exists ok1 r1 c1 ok r2 c2, on_bytes little react b1 c = Ok (ok1, r1, c1) /\ on_bytes little react b2 c = Ok (ok, r2, c2)
    /\ if ok1 : bool then
         exists rest, view r1 rest /\ forall b3, view b3 (rest ++ y) -> small b3 ->
           exists r3, on_bytes little react b3 c1 = Ok (ok, r3, c2)
       else ok = false /\ c2 = c1.
Proof.
  intros Hv1 Hs1 Hx Hv2 Hs2 Hy Hok.
  destruct (on_bytes_view little react Hreact b1 x c Hv1 Hs1 Hx Hok) as (ok1 & c1 & r1 & E1 & Hr1 & _ & Hrest).
  destruct (on_bytes_view little react Hreact b2 (x ++ y) c Hv2 Hs2) as (ok & c2 & r2 & E2 & Hr2 & _); [by apply Forall_app|done|].
  exists ok1, r1, c1, ok, r2, c2. split; [done|]. split; [done|].
  rewrite (frames_of_app x y Hx Hy) in Hr2.
  destruct (frames_of_in x Hx) as [Hin Hrx]. destruct (frames_of x) as [fs rest]. cbn [fst snd] in *.
  destruct (frames_of (rest ++ y)) as [gs r] eqn:Eg. cbn [fst] in Hr2. rewrite run_frames_app, Hr1 in Hr2.
  destruct ok1; [|by injection Hr2 as <- <-].
  exists rest. split; [by apply Hrest|]. intros b3 Hv3 Hs3.
  destruct (run_frames_ok little react Hreact fs c Hok Hin) as (ok' & c' & ? & ? & E & Hm & _). rewrite Hr1 in E. injection E as <- <-.
  destruct (on_bytes_view little react Hreact b3 (rest ++ y) c1 Hv3 Hs3) as (ok3 & c3 & r3 & E3 & Hr3 & _); [by apply Forall_app|apply Hm|].
  rewrite Eg in Hr3. cbn [fst] in Hr3. exists r3. rewrite E3. cbn [negb] in Hr2. change (run_frames little react gs c1 = Ok (ok, c2)) in Hr2.
  rewrite Hr3 in Hr2. by injection Hr2 as <- <-.
Qed.

(** * Violations
    The frames that the session checks on sight, whatever happened on their stream, and the
    error that they end the connection with: a first frame that is not SETTINGS, or
    acknowledges with a payload; later, SETTINGS on a stream or of a wrong size, PING of a
    wrong size or on a stream, PRIORITY and RST_STREAM of a wrong size or on no stream,
    HEADERS on no stream, an even one, or one that is not there although it is not new, DATA
    and CONTINUATION on no stream or on one that is not there and is even or new,
    WINDOW_UPDATE of a wrong size, and one of zero for the connection. Not among them are the
    ones of [tolerated], a first SETTINGS frame on a stream or of a wrong size, which is
    taken, and what depends on more than that: windows, header blocks, the order of
    CONTINUATION. *)
Definition unknown_stream (id : Z) (c : t) : bool := bool_decide (streams_ c !! id = None).
Definition settings_violation (f : Frame) : option Z :=
  let len := length (header f) in
  if has_flag flag_ack f then (if len =? 0 then None else Some frame_size_error)
  else if len mod 6 =? 0 then None else Some frame_size_error.
Definition violation (f : Frame) (c : t) : option Z :=
  let id := stream_id (header f) in let len := length (header f) in let ty := type (header f) in
  let when (b : bool) (e : Z) := if b then Some e else None in
  if negb (seen_non_settings_frame_ (progress c)) then
    if negb (ty =? type_settings) then Some protocol_error
    else when (has_flag flag_ack f && negb (len =? 0)) frame_size_error
  else if ty =? type_settings then if negb (id =? 0) then Some protocol_error else settings_violation f
  else if ty =? type_ping then when (negb (len =? 8) || negb (id =? 0)) frame_size_error
  else if ty =? type_priority then when (negb (len =? 5) || (id =? 0)) protocol_error
  else if ty =? type_headers then
    when ((id =? 0) || Z.even id || ((id <=? last_stream_id_ c) && unknown_stream id c)) protocol_error
  else if (ty =? type_data) || (ty =? type_continuation) then
    when ((id =? 0) || (unknown_stream id c && negb ((id <=? last_stream_id_ c) && Z.odd id))) protocol_error
  else if ty =? type_window_update then
    if negb (len =? 4) then Some frame_size_error
    else when ((id =? 0) && (increment_of (payload f) =? 0)) protocol_error
  else if ty =? type_rst_stream then when (negb (len =? 4) || (id =? 0)) protocol_error
  else None.

(** Violations that the connection survives: what the session writes. A WINDOW_UPDATE of zero
    for a stream resets the stream; DATA and CONTINUATION on a stream that was there once
    are ignored. *)
Definition tolerated (f : Frame) (c : t) : option (list event) :=
  let id := stream_id (header f) in let ty := type (header f) in
  if negb (seen_non_settings_frame_ (progress c)) || (id =? 0) then None
  else if (ty =? type_data) || (ty =? type_continuation) then
    if unknown_stream id c && (id <=? last_stream_id_ c) && Z.odd id then Some [] else None
  else if (ty =? type_window_update) && (length (header f) =? 4) && (increment_of (payload f) =? 0) then
    Some [Write (frame_bytes (rst_frame id protocol_error))]
  else None.

Lemma gone_stream id ty c : (ty = type_data \/ ty = type_continuation) -> (id =? 0) = false ->
  unknown_stream id c && (id <=? last_stream_id_ c) && Z.odd id = true -> validate_stream_state little id ty c = Ok (false, c).
Proof.
  intros Hty Hid [[Hu Hl]%andb_true_iff Ho]%andb_true_iff. apply bool_decide_eq_true in Hu. unfold validate_stream_state.
  rewrite Hid, Hu, Hl, Zmod_odd, Ho. by destruct Hty as [-> | ->].
Qed.

Lemma tolerated_ok f c es : session_ok c -> frame_in f -> tolerated f c = Some es ->
  handle_frame little react f c = Ok (true, emit es c).
Proof.
  intros Hok Hf. unfold tolerated, handle_frame. rewrite (ok_conn c Hok). cbv zeta. cbn [negb].
  destruct (seen_non_settings_frame_ (progress c)); cbn [negb orb]; [|done].
  destruct (stream_id (header f) =? 0) eqn:E0; [done|]. intros Ht.
  assert (emit [] c = c) as Hnil by (destruct c; unfold emit; cbn; by rewrite app_nil_r).
  destruct ((type (header f) =? type_data) || (type (header f) =? type_continuation)) eqn:Ety.
  { case_if_in Ht; [|done]. injection Ht as <-. rewrite Hnil. apply orb_true_iff in Ety as [E|E]; apply Z.eqb_eq in E; rewrite E.
    - unfold on_data. cbv zeta. rewrite E0.
      rewrite gone_stream; [|by left|done|done]. by mstep.
    - unfold on_continuation. cbv zeta. rewrite E0. rewrite gone_stream; [|by right|done|done]. by mstep. }
  case_if_in Ht; [|done]. injection Ht as <-. apply andb_true_iff in Hif as [[Ew%Z.eqb_eq El]%andb_true_iff Hz].
  rewrite Ew. unfold on_window_update. cbv zeta. rewrite El. cbn [negb]. pose proof (fi_length f Hf) as Hl.
  destruct (payload f) as [|p0 [|p1 [|p2 [|p3 p]]]]; try (rewrite Hl in El; discriminate).
  cbn [increment_of] in Hz. rewrite Hz, E0. rewrite send_frame_ok by apply Hok. by mstep.
Qed.

Lemma violation_closes f c e : session_ok c -> frame_in f -> violation f c = Some e ->
  handle_frame little react f c = Ok (false, emit [Write (frame_bytes (FrameCodec.make_goaway e (last_stream_id_ c))); Close] c).
Proof.
  intros Hok Hf Hv.
  assert (forall e, close_with_goaway little e c = Ok (false, emit [Write (frame_bytes (FrameCodec.make_goaway e (last_stream_id_ c))); Close] c)) as Hgo.
  { intros x. unfold close_with_goaway, goaway_and_close, close_conn. rewrite send_frame_ok by apply Hok. mstep.
    change (conn_ (emit _ c)) with (conn_ c). rewrite (ok_conn c Hok). mstep. unfold emit. cbn. by rewrite <- app_assoc. }
  assert (forall b e1 m, (if b : bool then Some e1 else None) = Some e ->
    (b = true -> m = close_with_goaway little e1 c) -> m = Ok (false, emit [Write (frame_bytes (FrameCodec.make_goaway e (last_stream_id_ c))); Close] c)) as Hwhen.
  { intros b e1 m Hb Hm. destruct b; [|done]. injection Hb as <-. by rewrite Hm. }
  unfold handle_frame. rewrite (ok_conn c Hok). cbn [negb]. revert Hv. unfold violation. cbv zeta. set (id := stream_id (header f)).
  destruct (seen_non_settings_frame_ (progress c)); cbn [negb].
  2: { unfold on_first_frame. destruct (type (header f) =? type_settings); cbn [negb]; [|by intros [= <-]].
    intros Hv. eapply Hwhen; [exact Hv|]. by intros ->. }
  destruct (type (header f) =? type_settings).
  { unfold on_settings. fold id. destruct (negb (id =? 0)); [by intros [= <-]|]. unfold settings_violation.
    destruct (has_flag flag_ack f); cbn [negb].
    - destruct (length (header f) =? 0); [done|]. cbn [negb]. by intros [= <-].
    - destruct (length (header f) mod 6 =? 0); [done|]. cbn [negb]. by intros [= <-]. }
  destruct (type (header f) =? type_ping).
  { intros Hv. eapply Hwhen; [exact Hv|]. unfold on_ping. fold id. by intros ->. }
  destruct (type (header f) =? type_priority).
  { intros Hv. eapply Hwhen; [exact Hv|]. unfold on_priority. fold id. cbv zeta. by intros ->. }
  destruct (type (header f) =? type_headers).
  { intros Hv. eapply Hwhen; [exact Hv|]. unfold on_headers, unknown_stream. fold id. cbv zeta. rewrite land_even.
    destruct (id =? 0); [done|]. cbn [orb]. destruct (Z.even id); [done|]. cbn [orb]. by intros ->. }
  assert (forall ty, (ty = type_data \/ ty = type_continuation) -> (id =? 0) = false -> unknown_stream id c && negb ((id <=? last_stream_id_ c) && Z.odd id) = true ->
    validate_stream_state little id ty c = Ok (true, c) /\ streams_ c !! id = None) as Hval.
  { intros ty Hty Hid [Hu Hl]%andb_true_iff. apply bool_decide_eq_true in Hu. split; [|done]. unfold validate_stream_state.
    rewrite Hid, Hu. cbv zeta. apply negb_true_iff in Hl. rewrite Zmod_odd. destruct Hty as [-> | ->]; cbn [orb andb Z.eqb];
      destruct (Z.odd id); rewrite ?andb_true_r, ?andb_false_r in Hl; [rewrite Hl|..]; rewrite ?andb_false_r; try done; by rewrite ?Hl. }
  destruct (type (header f) =? type_data).
  { intros Hv. eapply Hwhen; [exact Hv|]. unfold on_data. fold id. cbv zeta. intros Hb. cbn [orb] in Hb.
    destruct (id =? 0) eqn:E0; [done|]. cbn [orb] in Hb. destruct (Hval type_data) as [-> Hn]; [by left|done|done|]. mstep. cbn [negb]. by rewrite Hn. }
  destruct (type (header f) =? type_continuation).
  { intros Hv. eapply Hwhen; [exact Hv|]. unfold on_continuation. fold id. cbv zeta. intros Hb.
    destruct (id =? 0) eqn:E0; [done|]. cbn [orb] in Hb. destruct (Hval type_continuation) as [-> Hn]; [by right|done|done|]. mstep. cbn [negb]. by rewrite Hn. }
  cbn [orb]. destruct (type (header f) =? type_window_update).
  { unfold on_window_update. fold id. cbv zeta. destruct (length (header f) =? 4) eqn:El; cbn [negb]; [|by intros [= <-]].
    intros Hv. eapply Hwhen; [exact Hv|]. intros [Hi Hz]%andb_true_iff. pose proof (fi_length f Hf) as Hl.
    destruct (payload f) as [|p0 [|p1 [|p2 [|p3 p]]]]; try (rewrite Hl in El; discriminate).
    cbn [increment_of] in Hz. by rewrite Hz, Hi. }
  destruct (type (header f) =? type_rst_stream); [|done].
  intros Hv. eapply Hwhen; [exact Hv|]. unfold on_rst_stream. fold id. cbv zeta. by intros ->.
Qed.

(** The limit on streams: a new one is refused, and nothing else happens. *)
Lemma full_session_refuses f c : session_ok c -> seen_non_settings_frame_ (progress c) = true -> type (header f) = type_headers ->
  Z.odd (stream_id (header f)) = true -> last_stream_id_ c < stream_id (header f) -> 0 <= last_stream_id_ c ->
  streams_ c !! stream_id (header f) = None -> 128 <= open_stream_count c ->
  handle_frame little react f c = Ok (true, emit [Write (frame_bytes (rst_frame (stream_id (header f)) refused_stream))] c).
Proof.
  intros Hok Hst Hty Hodd Hnew Hlast Hfree Hfull. unfold handle_frame. rewrite (ok_conn c Hok), Hst, Hty. cbn [negb]. cbv zeta.
  change (type_headers =? type_settings) with false. change (type_headers =? type_ping) with false.
  change (type_headers =? type_priority) with false. change (type_headers =? type_headers) with true. cbv iota.
  unfold on_headers. cbv zeta. set (id := stream_id (header f)) in *.
  assert ((id =? 0) = false) as E0 by lia. assert ((id <=? last_stream_id_ c) = false) as E1 by lia.
  rewrite E0, land_even, <- Z.negb_odd, Hodd, E1. cbn [negb andb]. unfold validate_stream_state. rewrite E0, Hfree.
  change (type_headers =? type_headers) with true. rewrite orb_true_r, E1. cbn [orb andb]. mstep. cbn [negb].
  rewrite (ok_local c Hok). change (max_concurrent_streams LocalSettings) with 128.
  assert ((128 <=? open_stream_count c) = true) as -> by lia. rewrite Hfree. cbn [andb].
  rewrite bool_decide_eq_true_2 by done. rewrite send_frame_ok by apply Hok. by mstep.
Qed.

(** An application that resets a stream while it is called about it has the session use the
    stream after its end. *)
Lemma reset_in_bridge_faults id x fin hs d' err c : session_ok c -> accepts id c ->
  HpackDecoder.decode x (hpack_decoder_ c) = Ok (true, hs, d') -> hs <> [] -> header_list_size hs <= 65536 -> zlen x <= 16384 ->
  handle_frame little (fun _ => [SendReset id err]) (headers_frame id x fin) c = Fault.
Proof.
  intros Hok Hacc Hd Hne Hsz Hx.
  destruct (headers_delivered little (fun _ => [SendReset id err]) id x fin hs d' c Hok Hacc Hd Hne Hsz Hx) as (c1 & s1 & Hop & ->).
  set (c2 := emit _ c1). assert (conn_ c2 = true) as Hc by apply (ok_conn _ (op_ok _ _ _ _ _ Hop)).
  assert (streams_ c2 !! id = Some s1) as Hs by (change (streams_ c1 !! id = Some s1); rewrite (op_streams _ _ _ _ _ Hop); apply lookup_insert_eq).
  cbn [run_calls run_call]. unfold send_rst_stream. pose proof (ac_new _ _ Hacc). pose proof (ac_last _ _ Hacc).
  assert ((id =? 0) = false) as -> by lia.
  rewrite send_frame_ok by done. mstep. change (streams_ (emit _ c2)) with (streams_ c2). rewrite Hs.
  unfold after_headers, deref. cbn [erase set_streams streams_]. by rewrite lookup_delete_eq.
Qed.

(** * The connection *)
Import H2Connection.

(** A connection in HTTP/2 mode, past the preface; the clock has not reached the timeout. *)
Definition serving (s : Http2Session.t) (c : H2Connection.t) : Prop :=
  http2_mode c = true /\ h2_handshake_active c = false /\ http2_session c = Some s.

(** A read: the session handles the frames that are whole in it. What follows is dropped. *)
Lemma read_frames cf data x now s c : serving s c -> view data x -> small data -> Forall is_u8 x -> session_ok s ->
  exists ok s', run_frames little react (frames_of x).1 s = Ok (ok, s')
    /\ on_read little react cf data now c = Ok (
         let c' := with_session s' c in
         if negb ok then Break c'
         else if awaiting_settings_ack_ (progress s') && (kSettingsAckTimeout <? now - settings_sent_at c) then Break c' else Continue c').
Proof.
  intros (Hm & Ha & Hs) Hv Hsm Hu Hok. unfold on_read. rewrite Hm. unfold on_http2_read. rewrite Ha. unfold feed. rewrite Hs.
  destruct (on_bytes_view little react Hreact data x s Hv Hsm Hu Hok) as (ok & s' & r & -> & Hr & _). exists ok, s'. split; [done|].
  mstep. cbn [with_session http2_session settings_sent_at]. cbv zeta. destruct ok; cbn [negb]; [|done].
  by destruct (awaiting_settings_ack_ _ && _).
Qed.
Lemma read_depends_on_frames cf b1 b2 x y now s c : serving s c -> session_ok s ->
  view b1 x -> small b1 -> Forall is_u8 x -> view b2 y -> small b2 -> Forall is_u8 y -> (frames_of x).1 = (frames_of y).1 ->
  on_read little react cf b1 now c = on_read little react cf b2 now c.
Proof.
  intros Hc Hok Hv1 Hs1 Hx Hv2 Hs2 Hy Hf.
  destruct (read_frames cf b1 x now s c Hc Hv1 Hs1 Hx Hok) as (ok1 & s1 & H1 & ->).
  destruct (read_frames cf b2 y now s c Hc Hv2 Hs2 Hy Hok) as (ok2 & s2 & H2 & ->).
  rewrite Hf, H2 in H1. by injection H1 as <- <-.
Qed.

End Runs.
