(* ===== verification/WsProtocol.v ===== *)
(** WebSocket frames: [protocol/websocket/common/websocket_protocol.h] and
    [close_code.h]. A bit field is an integer of its width. *)
From S2P Require Import Prelude Endian ByteBuffer.

Module WsProtocol.

Definition PACKET_MAX_BYTE : Z := 1048576.
Definition DEFAULT_CLOSE_HANDSHAKE_TIMEOUT_MS : Z := 5000.
Definition websocket_payload_len_16bit_marker : Z := 126.
Definition websocket_payload_len_64bit_marker : Z := 127.
Definition websocket_payload_len_7bit_max : Z := 125.
Definition websocket_payload_len_16bit_max : Z := 65535.
Definition websocket_payload_len_64bit_msb : Z := 9223372036854775808.

Inductive WorkMode : Type := client_ | server_.
#[export] Instance WorkMode_eq_dec : EqDecision WorkMode.
Proof. solve_decision. Defined.

(** [OpCodeType] *)
Definition type_continue_frame : Z := 0.
Definition type_text_frame : Z := 1.
Definition type_binary_frame : Z := 2.
Definition type_close_frame : Z := 8.
Definition type_ping_frame : Z := 9.
Definition type_pong_frame : Z := 10.

(** [WebSocketCloseCode], the codes the library uses *)
Definition normal_close_ : Z := 1000.
Definition reserve_ : Z := 1004.
Definition no_status_code_ : Z := 1005.
Definition abnormal_close_ : Z := 1006.
Definition invalid_palyload_ : Z := 1007.
Definition policy_violation_ : Z := 1008.
Definition internal_server_error_ : Z := 1011.
Definition websocket_application_close_code_min : Z := 3000.
Definition websocket_application_close_code_max : Z := 4999.

Record ProtoHead : Type := mkHead {
  fin_ : Z;
  rev_1_ : Z;
  rev_2_ : Z;
  rev_3_ : Z;
  opcode_ : Z;
  mask_ : Z;
  pay_load_len_ : Z;
  masking_key_ : bytes;
  extend_pay_load_len_ : Z
}.
(** [ProtoHead()] *)
Definition empty_head : ProtoHead := mkHead 0 0 0 0 0 0 0 [0; 0; 0; 0] 0.

Definition set_ctrl (ch : Z) (h : ProtoHead) : ProtoHead :=
  mkHead (Z.land (Z.shiftr ch 7) 1) (Z.land (Z.shiftr ch 6) 1) (Z.land (Z.shiftr ch 5) 1) (Z.land (Z.shiftr ch 4) 1)
    (Z.land ch 15) (mask_ h) (pay_load_len_ h) (masking_key_ h) (extend_pay_load_len_ h).
Definition set_2nd_byte (byte : Z) (h : ProtoHead) : ProtoHead :=
  mkHead (fin_ h) (rev_1_ h) (rev_2_ h) (rev_3_ h) (opcode_ h) (Z.land (Z.shiftr byte 7) 1) (Z.land byte 127)
    (masking_key_ h) (extend_pay_load_len_ h).
Definition set_fin (fin : Z) (h : ProtoHead) : ProtoHead :=
  mkHead fin (rev_1_ h) (rev_2_ h) (rev_3_ h) (opcode_ h) (mask_ h) (pay_load_len_ h) (masking_key_ h)
    (extend_pay_load_len_ h).
Definition set_masking_key (key : bytes) (h : ProtoHead) : ProtoHead :=
  mkHead (fin_ h) (rev_1_ h) (rev_2_ h) (rev_3_ h) (opcode_ h) (mask_ h) (pay_load_len_ h) key (extend_pay_load_len_ h).
Definition set_extend_pay_load_len (n : Z) (h : ProtoHead) : ProtoHead :=
  mkHead (fin_ h) (rev_1_ h) (rev_2_ h) (rev_3_ h) (opcode_ h) (mask_ h) (pay_load_len_ h) (masking_key_ h) n.

Definition get_pay_load_len (h : ProtoHead) : Z := Z.land (pay_load_len_ h) 127.
Definition is_fin (h : ProtoHead) : bool := negb (Z.land (fin_ h) 1 =? 0).
Definition need_mask (h : ProtoHead) : bool := negb (Z.land (mask_ h) 1 =? 0).
Definition opcode (h : ProtoHead) : Z := Z.land (opcode_ h) 15.
Definition is_continue_frame (h : ProtoHead) : bool := Z.land (opcode_ h) 15 =? type_continue_frame.
Definition is_text_frame (h : ProtoHead) : bool := Z.land (opcode_ h) 15 =? type_text_frame.
Definition is_binary_frame (h : ProtoHead) : bool := Z.land (opcode_ h) 15 =? type_binary_frame.
Definition is_close_frame (h : ProtoHead) : bool := Z.land (opcode_ h) 15 =? type_close_frame.
Definition is_ping_frame (h : ProtoHead) : bool := Z.land (opcode_ h) 15 =? type_ping_frame.
Definition is_pong_frame (h : ProtoHead) : bool := Z.land (opcode_ h) 15 =? type_pong_frame.
Definition has_rsv (h : ProtoHead) : bool := negb (Z.lor (Z.lor (rev_1_ h) (rev_2_ h)) (rev_3_ h) =? 0).

Record ProtoChunk : Type := mkChunk { head_ : ProtoHead; has_set_head_ : bool; body_ : ByteBuffer.t }.
(** [ProtoChunk()] *)
Definition empty_chunk : ProtoChunk := mkChunk empty_head false ByteBuffer.default.

Definition set_head (h : ProtoHead) (c : ProtoChunk) : ProtoChunk := mkChunk h (has_set_head_ c) (body_ c).
Definition set_body (b : ByteBuffer.t) (c : ProtoChunk) : ProtoChunk := mkChunk (head_ c) (has_set_head_ c) b.

Definition is_completed (c : ProtoChunk) : bool :=
  if negb (has_set_head_ c) then false
  else if 0 <? extend_pay_load_len_ (head_ c)
  then extend_pay_load_len_ (head_ c) <=? ByteBuffer.readable_bytes (body_ c) else true.

(** [None] is -1. *)
Definition calc_head_size (dataSize : Z) (setMask : bool) : option Z :=
  res ← (if dataSize <=? 125 then Some 2
         else if dataSize <=? 65535 then Some (2 + 2)
         else if dataSize <=? PACKET_MAX_BYTE then Some (2 + 8) else None);
  Some (if setMask then res + 4 else res).

End WsProtocol.
