(* ===== verification/WsParser.v ===== *)
(** The WebSocket packet parser:
    [protocol/websocket/common/websocket_packet_parser.cpp].

    The parser reads the fields of the connection it works for; those it reads are the
    record [limits], and the vectors it writes, [input_chunks_] and [output_chunks_],
    are passed along. Masking keys come from a random number generator, the parameter
    [rng], of which the parser has drawn [drawn_] numbers. *)
From S2P Require Import Prelude Endian ByteBuffer Utf8 WsProtocol.
Import WsProtocol.

(** The connection as the parser sees it. *)
Record limits : Type := mkLimits { mode_ : WorkMode; max_message_size : Z; max_fragmented_message_size : Z }.

Module WsParser.

Record t : Type := mk {
  use_mask_ : bool;
  mask_ : bytes;
  drawn_ : nat;
  frame_buffer_ : ByteBuffer.t;
  pending_frame_ : ProtoChunk;
  fragmented_message_ : ProtoChunk;
  has_fragmented_message_ : bool
}.
Definition set_frame_buffer (b : ByteBuffer.t) (p : t) : t :=
  mk (use_mask_ p) (mask_ p) (drawn_ p) b (pending_frame_ p) (fragmented_message_ p) (has_fragmented_message_ p).
Definition set_pending (c : ProtoChunk) (p : t) : t :=
  mk (use_mask_ p) (mask_ p) (drawn_ p) (frame_buffer_ p) c (fragmented_message_ p) (has_fragmented_message_ p).
Definition set_fragmented (c : ProtoChunk) (has : bool) (p : t) : t :=
  mk (use_mask_ p) (mask_ p) (drawn_ p) (frame_buffer_ p) (pending_frame_ p) c has.

(** [WebSocketPacketParser()]; the mask is not initialised. *)
Definition init (mask : bytes) : t := mk false mask 0 ByteBuffer.default empty_chunk empty_chunk false.

Section Parser.
Variable little : bool.
Variable rng : nat -> Z.

(** * Reading *)
(** The extended length: [None] when the function returns -1 or 1. *)
Inductive length_result : Type := LengthIs (n : Z) | LengthMissing | LengthBad.

Definition read_length (payloadLen : Z) (buff : ByteBuffer.t) : outcome (length_result * ByteBuffer.t) :=
  if payloadLen <=? websocket_payload_len_7bit_max then Ok (LengthIs payloadLen, buff)
  else if payloadLen =? websocket_payload_len_16bit_marker then
    if ByteBuffer.readable_bytes buff <? 2 then Ok (LengthMissing, buff)
    else
      '(v, buff) ← ByteBuffer.read_u16 little buff;
      let n := Z.land v 65535 in
      Ok (if n <=? websocket_payload_len_7bit_max then LengthBad else LengthIs n, buff)
  else
    if ByteBuffer.readable_bytes buff <? 8 then Ok (LengthMissing, buff)
    else
      '(n, buff) ← ByteBuffer.read_u64 little buff;
      Ok (if negb (Z.land n websocket_payload_len_64bit_msb =? 0) || (n <=? websocket_payload_len_16bit_max)
          then LengthBad else LengthIs n, buff).

(** The loop over the four bytes of the masking key. *)
Fixpoint read_key (n : nat) (buff : ByteBuffer.t) : outcome (bytes * ByteBuffer.t) :=
  match n with
  | O => Ok ([], buff)
  | S n =>
      '(k, buff) ← ByteBuffer.read_u8 little buff;
      '(key, buff) ← read_key n buff;
      Ok (k :: key, buff)
  end.

(** The header; [Some] is an early return of [read_chunk]. *)
Definition read_head (chunk : ProtoChunk) (buff : ByteBuffer.t) : outcome (option Z * ProtoChunk * ByteBuffer.t) :=
  let from := ByteBuffer.read_offset_ buff in
  if ByteBuffer.readable_bytes buff <? 2 then Ok (Some 1, chunk, ByteBuffer.set_read_offset from buff)
  else
    '(b1, buff) ← ByteBuffer.read_u8 little buff;
    '(b2, buff) ← ByteBuffer.read_u8 little buff;
    let head := set_2nd_byte b2 (set_ctrl b1 (head_ chunk)) in
    '(len, buff) ← read_length (get_pay_load_len head) buff;
    match len with
    | LengthMissing => Ok (Some 1, set_head head chunk, ByteBuffer.set_read_offset from buff)
    | LengthBad => Ok (Some (-1), set_head head chunk, buff)
    | LengthIs n =>
        let head := set_extend_pay_load_len n head in
        if PACKET_MAX_BYTE <? n then Ok (Some (-1), set_head head chunk, buff)
        else if need_mask head then
          if ByteBuffer.readable_bytes buff <? 4 then
            Ok (Some 1, set_head head chunk, ByteBuffer.set_read_offset from buff)
          else
            '(key, buff) ← read_key 4 buff;
            Ok (None, mkChunk (set_masking_key key head) true (body_ chunk), buff)
        else Ok (None, mkChunk head true (body_ chunk), buff)
    end.

(** [chunk->body_.append(buff.read_ptr(), toRead); buff.consume(toRead)] *)
Definition move_bytes (n : Z) (body buff : ByteBuffer.t) : outcome (ByteBuffer.t * ByteBuffer.t) :=
  src ← rd_range (ByteBuffer.storage_ buff) (ByteBuffer.read_offset_ buff) n;
  body ← ByteBuffer.append src body;
  Ok (body, ByteBuffer.consume n buff).

Definition read_body (chunk : ProtoChunk) (buff : ByteBuffer.t) : outcome (ProtoChunk * ByteBuffer.t) :=
  let alreadyRead := ByteBuffer.readable_bytes (body_ chunk) in
  if alreadyRead <? extend_pay_load_len_ (head_ chunk) then
    let remain := extend_pay_load_len_ (head_ chunk) - alreadyRead in
    let toRead := Z.min remain (ByteBuffer.readable_bytes buff) in
    if 0 <? toRead then '(body, buff) ← move_bytes toRead (body_ chunk) buff; Ok (set_body body chunk, buff)
    else Ok (chunk, buff)
  else Ok (chunk, buff).

Definition read_chunk (chunk : ProtoChunk) (buff : ByteBuffer.t) : outcome (Z * ProtoChunk * ByteBuffer.t) :=
  '(early, chunk, buff) ← (if negb (has_set_head_ chunk) then read_head chunk buff else Ok (None, chunk, buff));
  match early with
  | Some code => Ok (code, chunk, buff)
  | None =>
      '(chunk, buff) ← read_body chunk buff;
      Ok (if is_completed chunk then 0 else 1, chunk, buff)
  end.

(** * Masking *)
(** [*p = *p ^ mask[i % len]] over the storage. *)
Fixpoint apply_mask_loop (n : nat) (mask : bytes) (len : Z) (i p : Z) (storage : bytes) : outcome bytes :=
  match n with
  | O => Ok storage
  | S n =>
      b ← rd storage p; k ← rd mask (i mod len);
      apply_mask_loop n mask len (i + 1) (p + 1) (<[Z.to_nat p := Z.lxor b k]> storage)
  end.
Definition apply_mask (buff : ByteBuffer.t) (buffSize : Z) (mask : bytes) (len : Z) : outcome ByteBuffer.t :=
  storage ← apply_mask_loop (Z.to_nat (signed 32 buffSize)) mask len 0 (ByteBuffer.read_offset_ buff)
              (ByteBuffer.storage_ buff);
  Ok (ByteBuffer.mk storage (ByteBuffer.read_offset_ buff) (ByteBuffer.write_offset_ buff)).

(** * Frames *)
Definition is_data_frame (head : ProtoHead) : bool :=
  let opcode := opcode head in
  (opcode =? type_continue_frame) || (opcode =? type_text_frame) || (opcode =? type_binary_frame).
Definition is_control_frame (head : ProtoHead) : bool :=
  let opcode := opcode head in
  (opcode =? type_close_frame) || (opcode =? type_ping_frame) || (opcode =? type_pong_frame).

Definition validate_frame (conn : limits) (has_fragmented : bool) (chunk : ProtoChunk) : bool :=
  let head := head_ chunk in
  if negb (has_set_head_ chunk) || negb (is_completed chunk) then false
  else if has_rsv head then false
  else if negb (is_data_frame head) && negb (is_control_frame head) then false
  else if negb (eqb (need_mask head) (bool_decide (mode_ conn = server_))) then false
  else if is_control_frame head
          && (negb (is_fin head) || (125 <? extend_pay_load_len_ head)
              || (is_close_frame head && (extend_pay_load_len_ head =? 1))) then false
  else if negb has_fragmented && is_continue_frame head then false
  else if has_fragmented && (is_text_frame head || is_binary_frame head) then false
  else if negb (is_continue_frame head) && is_fin head && (max_message_size conn <? extend_pay_load_len_ head) then false
  else if negb (is_continue_frame head) && negb (is_fin head)
          && (max_fragmented_message_size conn <? extend_pay_load_len_ head) then false
  else true.

Definition is_valid_close_code (code : Z) : bool :=
  if (normal_close_ <=? code) && (code <=? internal_server_error_) then
    negb (code =? reserve_) && negb (code =? no_status_code_) && negb (code =? abnormal_close_)
  else (websocket_application_close_code_min <=? code) && (code <=? websocket_application_close_code_max).

Definition is_valid_close_payload (chunk : ProtoChunk) : outcome bool :=
  let payloadSize := ByteBuffer.readable_bytes (body_ chunk) in
  if payloadSize =? 0 then Ok true
  else if payloadSize =? 1 then Ok false
  else
    let p := ByteBuffer.read_offset_ (body_ chunk) in
    hi ← rd (ByteBuffer.storage_ (body_ chunk)) p;
    lo ← rd (ByteBuffer.storage_ (body_ chunk)) (p + 1);
    Ok (is_valid_close_code (u16 (Z.lor (Z.shiftl hi 8) lo))).

(** [is_valid_utf8(body_.read_ptr(), body_.readable_bytes())] *)
Definition valid_text (chunk : ProtoChunk) : outcome bool :=
  data ← ByteBuffer.readable_span (body_ chunk); Utf8.is_valid_utf8 data.

(** A continuation frame. *)
Definition append_continuation (conn : limits) (chunk : ProtoChunk) (p : t) (input : list ProtoChunk)
  : outcome (bool * t * list ProtoChunk) :=
  let whole := fragmented_message_ p in
  body ← ByteBuffer.append_buffer (body_ chunk) (body_ whole);
  let head := set_extend_pay_load_len
                (u64 (extend_pay_load_len_ (head_ whole) + extend_pay_load_len_ (head_ chunk))) (head_ whole) in
  let whole := mkChunk (set_fin (fin_ (head_ chunk)) head) (has_set_head_ whole) body in
  if max_fragmented_message_size conn <? extend_pay_load_len_ (head_ whole) then
    Ok (false, set_fragmented empty_chunk false p, input)
  else if is_fin (head_ whole) then
    valid ← (if is_text_frame (head_ whole) then valid_text whole else Ok true);
    if (valid : bool) then Ok (true, set_fragmented empty_chunk false p, input ++ [whole])
    else Ok (false, set_fragmented empty_chunk false p, input)
  else Ok (true, set_fragmented whole (has_fragmented_message_ p) p, input).

(** The body of a frame, unmasked in place. *)
Definition unmask (chunk : ProtoChunk) : outcome ProtoChunk :=
  if negb (ByteBuffer.empty (body_ chunk)) && need_mask (head_ chunk) then
    body ← apply_mask (body_ chunk) (u32 (ByteBuffer.readable_bytes (body_ chunk))) (masking_key_ (head_ chunk)) 4;
    Ok (set_body body chunk)
  else Ok chunk.

Definition append_completed_frame (conn : limits) (chunk : ProtoChunk) (p : t) (input : list ProtoChunk)
  : outcome (bool * t * list ProtoChunk) :=
  if negb (validate_frame conn (has_fragmented_message_ p) chunk) then Ok (false, p, input)
  else
    chunk ← unmask chunk;
    if is_control_frame (head_ chunk) then
      valid ← (if is_close_frame (head_ chunk) then is_valid_close_payload chunk else Ok true);
      if (valid : bool) then Ok (true, p, input ++ [chunk]) else Ok (false, p, input)
    else if is_continue_frame (head_ chunk) then append_continuation conn chunk p input
    else if is_fin (head_ chunk) then
      valid ← (if is_text_frame (head_ chunk) then valid_text chunk else Ok true);
      if (valid : bool) then Ok (true, p, input ++ [chunk]) else Ok (false, p, input)
    else Ok (true, set_fragmented chunk true p, input).

(** [while (true)]; every round that goes on has consumed bytes of [frame_buffer_]. *)
Fixpoint unpack_loop (fuel : nat) (conn : limits) (p : t) (input : list ProtoChunk)
  : outcome (bool * t * list ProtoChunk) :=
  match fuel with
  | O => Diverge
  | S fuel =>
      '(unpackRes, pending, buffer) ← read_chunk (pending_frame_ p) (frame_buffer_ p);
      let p := set_frame_buffer buffer (set_pending pending p) in
      if unpackRes <? 0 then Ok (false, p, input)
      else if unpackRes =? 1 then
        buffer ← ByteBuffer.compact (frame_buffer_ p); Ok (true, set_frame_buffer buffer p, input)
      else
        '(ok, p, input) ← append_completed_frame conn (pending_frame_ p) p input;
        let p := set_pending empty_chunk p in
        if negb ok then Ok (false, p, input)
        else
          buffer ← ByteBuffer.compact (frame_buffer_ p);
          let p := set_frame_buffer buffer p in
          if ByteBuffer.empty (frame_buffer_ p) then
            buffer ← ByteBuffer.compact (frame_buffer_ p); Ok (true, set_frame_buffer buffer p, input)
          else unpack_loop fuel conn p input
  end.

(** [unpack_from]; [unpack] is the same with the bytes taken from the native connection. *)
Definition unpack_from (conn : limits) (data : ByteBuffer.t) (p : t) (input : list ProtoChunk)
  : outcome (bool * t * list ProtoChunk) :=
  buffer ← (if negb (ByteBuffer.empty data) then ByteBuffer.append_buffer data (frame_buffer_ p)
            else Ok (frame_buffer_ p));
  let p := set_frame_buffer buffer p in
  unpack_loop (S (Z.to_nat (ByteBuffer.readable_bytes (frame_buffer_ p)))) conn p input.

(** * Writing *)
Definition update_mask (p : t) : t :=
  mk (use_mask_ p) (map (fun i => u8 (u32 (rng (drawn_ p + i)%nat) mod 256)) [0; 1; 2; 3]%nat) (drawn_ p + 4)
    (frame_buffer_ p) (pending_frame_ p) (fragmented_message_ p) (has_fragmented_message_ p).
Definition use_mask (use : bool) (p : t) : t :=
  let p := mk use (mask_ p) (drawn_ p) (frame_buffer_ p) (pending_frame_ p) (fragmented_message_ p)
             (has_fragmented_message_ p) in
  if use then update_mask p else p.

Definition header_type (type : Z) : bool :=
  (type =? type_text_frame) || (type =? type_binary_frame) || (type =? type_close_frame)
  || (type =? type_ping_frame) || (type =? type_pong_frame).

(** The length code of the second byte; [None] when the frame is too large. *)
Definition length_code (buffSize : Z) : option Z :=
  if buffSize <=? websocket_payload_len_7bit_max then Some (u8 buffSize)
  else if buffSize <=? websocket_payload_len_16bit_max then Some websocket_payload_len_16bit_marker
  else if buffSize <=? PACKET_MAX_BYTE then Some websocket_payload_len_64bit_marker
  else None.

Fixpoint append_bytes (l : bytes) (buff : ByteBuffer.t) : outcome ByteBuffer.t :=
  match l with [] => Ok buff | b :: l => buff ← ByteBuffer.append_u8 little b buff; append_bytes l buff end.

(** [None] is the result false; the mask may have changed all the same. *)
Definition pack_header (buff : ByteBuffer.t) (type buffSize : Z) (isEnd isContinueFrame : bool) (p : t)
  : outcome (option ByteBuffer.t * t) :=
  let head1 := if isEnd then 128 else 0 in
  if negb isContinueFrame && negb (header_type type) then Ok (None, p)
  else
    let head1 := if negb isContinueFrame then Z.lor head1 (Z.land type 15) else head1 in
    let p := if use_mask_ p then update_mask p else p in
    let head2 := if use_mask_ p then 128 else 0 in
    match length_code buffSize with
    | None => Ok (None, p)
    | Some code =>
        let head2 := Z.lor head2 code in
        buff ← ByteBuffer.append_u8 little head1 buff;
        buff ← ByteBuffer.append_u8 little head2 buff;
        buff ← (if Z.land head2 127 =? websocket_payload_len_16bit_marker
                then ByteBuffer.append_u16 little (u16 buffSize) buff
                else if Z.land head2 127 =? websocket_payload_len_64bit_marker
                then ByteBuffer.append_u64 little buffSize buff
                else Ok buff);
        buff ← (if use_mask_ p then append_bytes (mask_ p) buff else Ok buff);
        Ok (Some buff, p)
    end.

Definition pack_frame (data buff : ByteBuffer.t) (offset size : Z) (p : t) : outcome (option ByteBuffer.t) :=
  if ByteBuffer.readable_bytes data <? offset + size then Ok None
  else
    src ← rd_range (ByteBuffer.storage_ data) (ByteBuffer.read_offset_ data + offset) size;
    if use_mask_ p then
      chunk ← ByteBuffer.of_span src;
      chunk ← apply_mask chunk size (mask_ p) 4;
      buff ← ByteBuffer.append_buffer chunk buff;
      Ok (Some buff)
    else buff ← ByteBuffer.append src buff; Ok (Some buff).

(** One frame of [pack] and [pack_control]: header and payload. *)
Definition pack_one (data : ByteBuffer.t) (type offset buffSize : Z) (isEnd isContinueFrame : bool) (p : t)
  : outcome (option ByteBuffer.t * t) :=
  match calc_head_size buffSize (use_mask_ p) with
  | None => Ok (None, p)
  | Some headSize =>
      '(buff, p) ← pack_header (ByteBuffer.with_capacity (buffSize + headSize)) type buffSize isEnd isContinueFrame p;
      match buff with
      | None => Ok (None, p)
      | Some buff => buff ← pack_frame data buff offset buffSize p; Ok (buff, p)
      end
  end.

(** The [for] loop from frame [i] of [sz]. *)
Fixpoint pack_loop (n : nat) (data : ByteBuffer.t) (type i sz offset : Z) (p : t) (output : list ByteBuffer.t)
  : outcome (bool * t * list ByteBuffer.t) :=
  match n with
  | O => Ok (true, p, output)
  | S n =>
      let remain := ByteBuffer.readable_bytes data - offset in
      let buffSize := if PACKET_MAX_BYTE <? remain then PACKET_MAX_BYTE else u32 remain in
      '(buff, p) ← pack_one data type offset buffSize (sz <=? u32 (i + 1)) (0 <? i) p;
      match buff with
      | None => Ok (false, p, output)
      | Some buff => pack_loop n data type (i + 1) sz (offset + buffSize) p (output ++ [buff])
      end
  end.

Definition pack (data : ByteBuffer.t) (type : Z) (p : t) (output : list ByteBuffer.t)
  : outcome (bool * t * list ByteBuffer.t) :=
  let sz := u32 (ByteBuffer.readable_bytes data / PACKET_MAX_BYTE + 1) in
  pack_loop (Z.to_nat sz) data type 0 sz 0 p output.

Definition pack_control (data : ByteBuffer.t) (type : Z) (p : t) (output : list ByteBuffer.t)
  : outcome (bool * t * list ByteBuffer.t) :=
  if negb ((type =? type_close_frame) || (type =? type_ping_frame) || (type =? type_pong_frame)) then Ok (false, p, output)
  else
    let payloadSize := u32 (ByteBuffer.readable_bytes data) in
    if 125 <? payloadSize then Ok (false, p, output)
    else
      match calc_head_size payloadSize (use_mask_ p) with
      | None => Ok (false, p, output)
      | Some headSize =>
          '(buff, p) ← pack_header (ByteBuffer.with_capacity (payloadSize + headSize)) type payloadSize true false p;
          match buff with
          | None => Ok (false, p, output)
          | Some buff =>
              buff ← (if 0 <? payloadSize then pack_frame data buff 0 payloadSize p else Ok (Some buff));
              match buff with
              | None => Ok (false, p, output)
              | Some buff => Ok (true, p, output ++ [buff])
              end
          end
      end.
End Parser.
End WsParser.
