(* ===== verification/WsReference.v ===== *)
(** A reference decoder of WebSocket streams: frames are parsed from a list of bytes one
    after the other, and a machine without buffers turns frames into messages. *)
From S2P Require Import Prelude Endian ByteBuffer Utf8 WsProtocol WsParser.
Import WsProtocol.

(** * Frames on lists *)
Inductive length_parse : Type := NoLength | BadLength | Length (n : Z) (rest : bytes).
Definition parse_length (code : Z) (l : bytes) : length_parse :=
  if code <=? 125 then Length code l
  else if code =? 126 then
    match l with
    | hi :: lo :: l => let n := hi * 256 + lo in if n <=? 125 then BadLength else Length n l
    | _ => NoLength
    end
  else
    if zlen l <? 8 then NoLength
    else let n := be_value (take 8 l) in
         if (9223372036854775808 <=? n) || (n <=? 65535) then BadLength else Length n (drop 8 l).

Inductive head_parse : Type := NoHead | BadHead | Head (h : ProtoHead) (rest : bytes).
Definition parse_head (l : bytes) : head_parse :=
  match l with
  | b1 :: b2 :: l =>
      let h := set_2nd_byte b2 (set_ctrl b1 empty_head) in
      match parse_length (get_pay_load_len h) l with
      | NoLength => NoHead
      | BadLength => BadHead
      | Length n l =>
          let h := set_extend_pay_load_len n h in
          if PACKET_MAX_BYTE <? n then BadHead
          else if need_mask h then
            match l with
            | k0 :: k1 :: k2 :: k3 :: l => Head (set_masking_key [k0; k1; k2; k3] h) l
            | _ => NoHead
            end
          else Head h l
      end
  | _ => NoHead
  end.

Inductive frame_parse : Type := NoFrame | BadFrame | Frame (h : ProtoHead) (body rest : bytes).
Definition parse_frame (l : bytes) : frame_parse :=
  match parse_head l with
  | NoHead => NoFrame
  | BadHead => BadFrame
  | Head h l =>
      if zlen l <? extend_pay_load_len_ h then NoFrame
      else Frame h (take (Z.to_nat (extend_pay_load_len_ h)) l) (drop (Z.to_nat (extend_pay_load_len_ h)) l)
  end.

(** * Messages *)
(** A message: the header it is delivered with, and its data. *)
Abbreviation message := (ProtoHead * bytes)%type.

Fixpoint xor_key (key : bytes) (i : Z) (l : bytes) : bytes :=
  match l with [] => [] | b :: l => Z.lxor b (default 0 (key !! Z.to_nat (i mod 4))) :: xor_key key (i + 1) l end.
Definition unmasked (h : ProtoHead) (body : bytes) : bytes :=
  if need_mask h then xor_key (masking_key_ h) 0 body else body.

Definition utf8 (data : bytes) : bool := match Utf8.is_valid_utf8 data with Ok b => b | _ => false end.
Definition close_ok (data : bytes) : bool :=
  match data with [] => true | [_] => false | hi :: lo :: _ => WsParser.is_valid_close_code (hi * 256 + lo) end.

(** The rules a frame must keep, by its header and whether a message is open. *)
Definition frame_ok (conn : limits) (open : bool) (h : ProtoHead) : bool :=
  let n := extend_pay_load_len_ h in
  negb (has_rsv h)
  && (WsParser.is_data_frame h || WsParser.is_control_frame h)
  && eqb (need_mask h) (bool_decide (mode_ conn = server_))
  && implb (WsParser.is_control_frame h) (is_fin h && (n <=? 125) && negb (is_close_frame h && (n =? 1)))
  && implb (is_continue_frame h) open
  && implb (is_text_frame h || is_binary_frame h) (negb open)
  && implb (negb (is_continue_frame h) && is_fin h) (n <=? max_message_size conn)
  && implb (negb (is_continue_frame h) && negb (is_fin h)) (n <=? max_fragmented_message_size conn).

(** What a frame does to the open message: whether it is accepted, the message open
    afterwards, the messages delivered. *)
Definition finish (open : option message) (m : message) : bool * option message * list message :=
  if is_text_frame m.1 && negb (utf8 m.2) then (false, open, []) else (true, open, [m]).

Definition accept (conn : limits) (open : option message) (h : ProtoHead) (body : bytes)
  : bool * option message * list message :=
  if negb (frame_ok conn (bool_decide (is_Some open)) h) then (false, open, [])
  else
    let data := unmasked h body in
    if WsParser.is_control_frame h then
      if is_close_frame h && negb (close_ok data) then (false, open, []) else (true, open, [(h, data)])
    else if is_continue_frame h then
      match open with
      | Some (h0, d0) =>
          let n := extend_pay_load_len_ h0 + extend_pay_load_len_ h in
          let m := (set_fin (fin_ h) (set_extend_pay_load_len n h0), d0 ++ data) in
          if max_fragmented_message_size conn <? n then (false, None, [])
          else if is_fin h then finish None m
          else (true, Some m, [])
      | None => (false, None, [])
      end
    else if is_fin h then finish open (h, data)
    else (true, Some (h, data), []).

(** * Streams *)
(** The frames of [l], while they are whole and accepted: whether none was refused, what
    is left, the open message, the messages delivered. *)
Fixpoint stream_loop (fuel : nat) (conn : limits) (l : bytes) (open : option message)
  : bool * bytes * option message * list message :=
  match fuel with
  | O => (true, l, open, [])
  | S fuel =>
      match parse_frame l with
      | NoFrame => (true, l, open, [])
      | BadFrame => (false, l, open, [])
      | Frame h body rest =>
          let '(ok, open, out) := accept conn open h body in
          if ok then
            let '(ok, l, open, out') := stream_loop fuel conn rest open in (ok, l, open, out ++ out')
          else (false, rest, open, out)
      end
  end.
Definition decode_stream (conn : limits) (l : bytes) (open : option message) : bool * bytes * option message * list message :=
  stream_loop (S (length l)) conn l open.

(** * Lemmas *)
Lemma parse_length_app code l x : match parse_length code l with
  | NoLength => True
  | BadLength => parse_length code (l ++ x) = BadLength
  | Length n rest => parse_length code (l ++ x) = Length n (rest ++ x)
  end.
Proof.
  unfold parse_length. case_if; [done|]. case_if.
  - destruct l as [|hi [|lo l]]; [done..|]. cbn [app]. by case_if.
  - case_if; [done|]. pose proof (zlen_nonneg x). assert ((zlen (l ++ x) <? 8) = false) as -> by zlia.
    rewrite take_app_le, drop_app_le by (unfold zlen in *; lia). by case_if.
Qed.

(** A parsed header has a first part, with which it is parsed from any continuation. *)
Lemma parse_length_split code l n rest : parse_length code l = Length n rest ->
  exists x, l = x ++ rest /\ forall y, parse_length code (x ++ y) = Length n y.
Proof.
  unfold parse_length. case_if; [intros [= <- <-]; by exists []|]. case_if.
  - destruct l as [|hi [|lo l]]; [done..|]. case_if; [done|]. intros [= <- <-]. exists [hi; lo]. split; [done|].
    intros y. cbn [app]. by rewrite Hif1.
  - case_if; [done|]. case_if; [done|]. intros [= <- <-]. exists (take 8 l). rewrite take_drop. split; [done|].
    intros y. assert (length (take 8 l) = 8%nat) as Hl by (rewrite length_take; unfold zlen in *; lia).
    assert ((zlen (take 8 l ++ y) <? 8) = false) as -> by (unfold zlen in *; rewrite length_app; lia).
    rewrite take_app_le, drop_app_le, take_take, (drop_ge (take 8 l)) by lia. cbn [Nat.min].
    by rewrite Hif2.
Qed.

Lemma parse_head_split l h rest : parse_head l = Head h rest ->
  exists x, l = x ++ rest /\ (2 <= length x)%nat /\ forall y, parse_head (x ++ y) = Head h y.
Proof.
  destruct l as [|b1 [|b2 l]]; [done..|]. cbn [parse_head]. set (h0 := set_2nd_byte _ _).
  destruct (parse_length (get_pay_load_len h0) l) as [| |n l1] eqn:E; [done..|].
  apply parse_length_split in E as (x & -> & Hx). case_if; [done|]. case_if.
  - destruct l1 as [|k0 [|k1 [|k2 [|k3 l1]]]]; [done..|]. intros [= <- <-].
    exists (b1 :: b2 :: x ++ [k0; k1; k2; k3]). split; [cbn; by rewrite <- app_assoc|]. split; [cbn; lia|].
    intros y. cbn [app parse_head]. fold h0. rewrite <- app_assoc, Hx, Hif, Hif0. done.
  - intros [= <- <-]. exists (b1 :: b2 :: x). split; [done|]. split; [cbn; lia|].
    intros y. cbn [app parse_head]. fold h0. by rewrite Hx, Hif, Hif0.
Qed.

Lemma parse_head_app l x : match parse_head l with
  | NoHead => True
  | BadHead => parse_head (l ++ x) = BadHead
  | Head h rest => parse_head (l ++ x) = Head h (rest ++ x)
  end.
Proof.
  destruct (parse_head l) as [| |h rest] eqn:E; [done| |].
  - destruct l as [|b1 [|b2 l]]; [done..|]. cbn [app parse_head] in *. set (h0 := set_2nd_byte _ _) in *.
    pose proof (parse_length_app (get_pay_load_len h0) l x) as Hl.
    destruct (parse_length (get_pay_load_len h0) l) as [| |n l1]; [done|by rewrite Hl|]. rewrite Hl.
    case_if; [done|]. case_if_in E; [|done]. by destruct l1 as [|k0 [|k1 [|k2 [|k3 l1]]]].
  - apply parse_head_split in E as (y & -> & _ & Hy). by rewrite <- app_assoc.
Qed.

(** The fields of a parsed header. *)
Lemma parse_length_range code l n rest : Forall is_u8 l -> 0 <= code -> parse_length code l = Length n rest -> 0 <= n.
Proof.
  intros Hl Hc. unfold parse_length. case_if; [intros [= <- <-]; lia|]. case_if.
  - destruct l as [|hi [|lo l]]; [done..|]. case_if; [done|]. intros [= <- <-].
    apply Forall_cons in Hl as [H1 [H2 _]%Forall_cons]. unfold is_u8 in *. lia.
  - case_if; [done|]. case_if; [done|]. intros [= <- <-]. lia.
Qed.

Lemma parse_head_fields l h rest : Forall is_u8 l -> parse_head l = Head h rest ->
  0 <= extend_pay_load_len_ h <= PACKET_MAX_BYTE /\ length (masking_key_ h) = 4%nat /\ Forall is_u8 (masking_key_ h)
  /\ Forall is_u8 rest.
Proof.
  intros Hu. destruct l as [|b1 [|b2 l]]; [done..|]. cbn [parse_head]. set (h0 := set_2nd_byte _ _).
  destruct (parse_length (get_pay_load_len h0) l) as [| |n l1] eqn:E; [done..|].
  pose proof Hu as [_ [_ Hl]%Forall_cons]%Forall_cons.
  apply parse_length_range in E as Hn; [|done|apply Z.land_nonneg; lia].
  apply parse_length_split in E as (x & -> & _). apply Forall_app in Hl as [_ Hl].
  case_if; [done|]. case_if.
  - destruct l1 as [|k0 [|k1 [|k2 [|k3 l1]]]]; [done..|]. intros [= <- <-]. cbn. split; [lia|]. split; [done|].
    rewrite !Forall_cons in Hl. destruct Hl as (? & ? & ? & ? & ?). split; [|done]. repeat (constructor; [assumption|]). constructor.
  - intros [= <- <-]. cbn. split; [lia|]. split; [done|]. split; [|done]. repeat constructor; lia.
Qed.

Lemma parse_frame_app l x : match parse_frame l with
  | NoFrame => True
  | BadFrame => parse_frame (l ++ x) = BadFrame
  | Frame h body rest => parse_frame (l ++ x) = Frame h body (rest ++ x)
  end.
Proof.
  unfold parse_frame. pose proof (parse_head_app l x) as H. destruct (parse_head l) as [| |h rest]; [done|by rewrite H|].
  rewrite H. case_if; [done|]. rewrite zlen_app. pose proof (zlen_nonneg x). case_if; [lia|].
  by rewrite take_app_le, drop_app_le by (unfold zlen in *; lia).
Qed.

Lemma parse_frame_split l h body rest : parse_frame l = Frame h body rest ->
  exists x, l = x ++ body ++ rest /\ (2 <= length x)%nat.
Proof.
  unfold parse_frame. destruct (parse_head l) as [| |h' l'] eqn:E; [done..|].
  apply parse_head_split in E as (x & -> & Hx & _). case_if; [done|]. intros [= <- <- <-]. exists x. by rewrite take_drop.
Qed.

Lemma parse_frame_shorter l h body rest : parse_frame l = Frame h body rest -> (length rest < length l)%nat.
Proof. intros (x & -> & Hx)%parse_frame_split. rewrite !length_app. lia. Qed.

(** The fuel does not matter once it exceeds the length. *)
Lemma stream_loop_fuel n1 n2 conn l open : (length l < n1)%nat -> (length l < n2)%nat ->
  stream_loop n1 conn l open = stream_loop n2 conn l open.
Proof.
  revert n2 l open. induction n1 as [|n1 IH]; intros [|n2] l open H1 H2; try lia. cbn [stream_loop].
  destruct (parse_frame l) as [| |h body rest] eqn:E; [done..|]. apply parse_frame_shorter in E.
  destruct (accept conn open h body) as [[[] open'] out]; [|done]. by rewrite (IH n2) by lia.
Qed.

Lemma decode_stream_unfold conn l open : decode_stream conn l open
  = match parse_frame l with
    | NoFrame => (true, l, open, [])
    | BadFrame => (false, l, open, [])
    | Frame h body rest =>
        let '(ok, open, out) := accept conn open h body in
        if ok then let '(ok, l, open, out') := decode_stream conn rest open in (ok, l, open, out ++ out')
        else (false, rest, open, out)
    end.
Proof.
  unfold decode_stream at 1. cbn [stream_loop]. destruct (parse_frame l) as [| |h body rest] eqn:E; [done..|].
  apply parse_frame_shorter in E. destruct (accept conn open h body) as [[[] open'] out]; [|done].
  unfold decode_stream. by rewrite (stream_loop_fuel _ (S (length rest))) by lia.
Qed.

(** A stream that is cut: the rest of the first part goes in front of the second. *)
Lemma decode_stream_app conn x l open : match decode_stream conn l open with
  | (true, rest, open', out) =>
      decode_stream conn (l ++ x) open
      = let '(ok, l, open, out') := decode_stream conn (rest ++ x) open' in (ok, l, open, out ++ out')
  | (false, rest, open', out) => exists rest', decode_stream conn (l ++ x) open = (false, rest', open', out)
  end.
Proof.
  remember (length l) as n eqn:Hn. revert l open Hn. induction n as [n IH] using lt_wf_ind. intros l open ->.
  rewrite decode_stream_unfold. pose proof (parse_frame_app l x) as Hp.
  destruct (parse_frame l) as [| |h body rest] eqn:E.
  - by destruct (decode_stream conn (l ++ x) open) as [[[]]].
  - exists (l ++ x). by rewrite decode_stream_unfold, Hp.
  - rewrite (decode_stream_unfold _ (l ++ x)), Hp. apply parse_frame_shorter in E.
    destruct (accept conn open h body) as [[[] open'] out]; [|by eexists].
    specialize (IH _ E rest open' eq_refl).
    destruct (decode_stream conn rest open') as [[[ok rest'] open''] out']. destruct ok.
    + rewrite IH. destruct (decode_stream conn (rest' ++ x) open'') as [[[]]]. by rewrite app_assoc.
    + destruct IH as (r & ->). by exists r.
Qed.

(** What is left of an accepted stream is not a whole frame. *)
Lemma decode_stream_rest conn l open rest open' out :
  decode_stream conn l open = (true, rest, open', out) -> parse_frame rest = NoFrame.
Proof.
  remember (length l) as n eqn:Hn. revert l open out Hn. induction n as [n IH] using lt_wf_ind. intros l open out ->.
  rewrite decode_stream_unfold. destruct (parse_frame l) as [| |h body r] eqn:E; [by intros [= <- _ _]|done|].
  apply parse_frame_shorter in E. destruct (accept conn open h body) as [[[] open1] out1]; [|done].
  destruct (decode_stream conn r open1) as [[[ok r'] open2] out2] eqn:Er. intros [= -> -> -> _].
  by apply (IH _ E r open1 out2).
Qed.

(** A header takes at most 14 bytes, so bytes that are not a whole frame are few. *)
Lemma parse_length_size code l : match parse_length code l with
  | NoLength => zlen l < 8
  | BadLength => True
  | Length _ rest => zlen l <= zlen rest + 8
  end.
Proof.
  unfold parse_length. case_if; [lia|]. case_if.
  - destruct l as [|hi [|lo l]]; [done..|]. case_if; [done|]. rewrite !zlen_cons. lia.
  - case_if; [lia|]. case_if; [done|]. unfold zlen in *. rewrite length_drop. lia.
Qed.

Lemma parse_head_size l : match parse_head l with
  | NoHead => zlen l < 14
  | BadHead => True
  | Head _ rest => zlen l <= zlen rest + 14
  end.
Proof.
  destruct l as [|b1 [|b2 l]]; [done..|]. cbn [parse_head]. set (h := set_2nd_byte _ _).
  pose proof (parse_length_size (get_pay_load_len h) l) as Hl. rewrite !zlen_cons.
  destruct (parse_length (get_pay_load_len h) l) as [| |n r]; [lia|done|]. case_if; [done|].
  case_if; [|lia]. destruct r as [|k0 [|k1 [|k2 [|k3 r]]]]; rewrite ?zlen_cons in *; change (zlen []) with 0 in *; lia.
Qed.

Lemma no_frame_small l : Forall is_u8 l -> parse_frame l = NoFrame -> zlen l < 14 + PACKET_MAX_BYTE.
Proof.
  intros Hu. unfold parse_frame. pose proof (parse_head_size l) as Hl.
  destruct (parse_head l) as [| |h r] eqn:E; [unfold PACKET_MAX_BYTE; lia|done|].
  destruct (parse_head_fields _ _ _ Hu E) as [Hn _]. case_if; [lia|done].
Qed.
