(* ===== verification/WsParserFacts.v ===== *)
(** The packet parser decodes streams as the reference does. *)
From S2P Require Import Prelude Endian ByteBuffer ByteBufferFacts Utf8 WsProtocol WsParser WsReference.
Import ByteBuffer WsProtocol WsParser.

(** * Masking *)
Lemma lxor_u8 a b : is_u8 a -> is_u8 b -> is_u8 (Z.lxor a b).
Proof.
  unfold is_u8. intros Ha Hb. split; [apply Z.lxor_nonneg; lia|]. change 256 with (2 ^ 8).
  destruct (Z.eq_dec (Z.lxor a b) 0) as [->|Hne]; [done|].
  assert (0 <= Z.lxor a b) by (apply Z.lxor_nonneg; lia). apply Z.log2_lt_pow2; [lia|].
  pose proof (Z.log2_lxor a b ltac:(lia) ltac:(lia)).
  assert (Z.log2 a < 8) by (destruct (Z.eq_dec a 0) as [->|]; [done|apply Z.log2_lt_pow2; lia]).
  assert (Z.log2 b < 8) by (destruct (Z.eq_dec b 0) as [->|]; [done|apply Z.log2_lt_pow2; lia]). lia.
Qed.

Lemma key_byte_u8 key i : Forall is_u8 key -> is_u8 (from_option id 0 (key !! i)).
Proof. intros H. destruct (key !! i) as [k|] eqn:E; [exact (Forall_lookup_1 _ _ _ _ H E)|done]. Qed.

Lemma length_xor_key key i l : length (xor_key key i l) = length l.
Proof. revert i. induction l as [|b l IH]; intros i; [done|]. cbn. by rewrite IH. Qed.
Lemma xor_key_u8 key i l : Forall is_u8 key -> Forall is_u8 l -> Forall is_u8 (xor_key key i l).
Proof.
  intros Hk Hl. revert i. induction Hl as [|b l Hb _ IH]; intros i; [constructor|]. cbn.
  constructor; [|apply IH]. apply lxor_u8; [done|by apply key_byte_u8].
Qed.
(** Masking twice gives the data back. *)
Lemma xor_key_twice key i l : xor_key key i (xor_key key i l) = l.
Proof.
  revert i. induction l as [|b l IH]; intros i; [done|]. cbn. rewrite IH. f_equal.
  by rewrite Z.lxor_assoc, Z.lxor_nilpotent, Z.lxor_0_r.
Qed.

Lemma apply_mask_loop_eq key i pre l post : length key = 4%nat -> 0 <= i ->
  apply_mask_loop (length l) key 4 i (zlen pre) (pre ++ l ++ post) = Ok (pre ++ xor_key key i l ++ post).
Proof.
  intros Hk. revert i pre. induction l as [|b l IH]; intros i pre Hi; [done|].
  cbn [length apply_mask_loop app xor_key]. rewrite rd_app. mstep.
  assert (exists k, key !! Z.to_nat (i mod 4) = Some k) as [k Ek].
  { apply lookup_lt_is_Some_2. pose proof (Z.mod_pos_bound i 4). lia. }
  assert (rd key (i mod 4) = Ok k) as ->.
  { unfold rd. pose proof (Z.mod_pos_bound i 4). case_if; [lia|]. by rewrite Ek. }
  mstep. rewrite Ek. cbn [from_option].
  assert (<[Z.to_nat (zlen pre):=Z.lxor b k]> (pre ++ b :: l ++ post) = (pre ++ [Z.lxor b k]) ++ l ++ post) as ->.
  { unfold zlen. rewrite Nat2Z.id. rewrite insert_app_r_alt, Nat.sub_diag by lia. by rewrite <- app_assoc. }
  replace (zlen pre + 1) with (zlen (pre ++ [Z.lxor b k])) by zlia.
  rewrite IH by lia. by rewrite <- app_assoc.
Qed.

Lemma apply_mask_view b key c : view b c -> length key = 4%nat -> zlen c < 2147483648 ->
  exists b', apply_mask b (u32 (zlen c)) key 4 = Ok b' /\ view b' (xor_key key 0 c).
Proof.
  intros (p & s & ->)%view_split Hk Hc. unfold apply_mask. cbn [storage_ read_offset_ write_offset_].
  assert (Z.to_nat (signed 32 (u32 (zlen c))) = length c) as ->.
  { pose proof (zlen_nonneg c). change (u32 (zlen c)) with (zlen c mod 2 ^ 32). rewrite signed_id by (change (2 ^ (32 - 1)) with 2147483648; lia).
    unfold zlen. lia. }
  rewrite apply_mask_loop_eq by done. mstep. eexists. split; [done|].
  cbn [write_offset_]. replace (zlen p + zlen c) with (zlen p + zlen (xor_key key 0 c)); [apply view_mk|].
  unfold zlen. by rewrite length_xor_key.
Qed.

Section Reading.
Variable little : bool.

(** * Headers *)
(** A chunk whose header has not been read; earlier attempts leave only fields that are
    overwritten. *)
Definition fresh (c : ProtoChunk) : Prop :=
  has_set_head_ c = false /\ masking_key_ (head_ c) = [0; 0; 0; 0] /\ view (body_ c) [].

Lemma land_65535 v : 0 <= v < 65536 -> Z.land v 65535 = v.
Proof. intros. change 65535 with (Z.ones 16). rewrite Z.land_ones by lia. by apply Z.mod_small. Qed.
Lemma land_msb n : is_u64 n -> negb (Z.land n websocket_payload_len_64bit_msb =? 0) = (9223372036854775808 <=? n).
Proof.
  unfold is_u64, websocket_payload_len_64bit_msb. intros Hn. change 9223372036854775808 with (Z.shiftl 1 63) at 1.
  assert (Z.land n (Z.shiftl 1 63) = Z.shiftl (Z.land (Z.shiftr n 63) 1) 63) as ->.
  { apply Z.bits_inj'. intros m Hm. rewrite Z.land_spec, !Z.shiftl_spec by lia.
    destruct (Z.lt_ge_cases m 63).
    - rewrite (Z.testbit_neg_r _ (m - 63)), andb_false_r by lia. by rewrite Z.testbit_neg_r by lia.
    - rewrite Z.land_spec, Z.shiftr_spec by lia. by replace (m - 63 + 63) with m by lia. }
  change 1 with (Z.ones 1) at 1. rewrite Z.land_ones, Z.shiftr_div_pow2, Z.shiftl_mul_pow2 by lia.
  change (2 ^ 63) with 9223372036854775808. change (2 ^ 1) with 2.
  destruct (Z.leb_spec 9223372036854775808 n).
  - assert (n / 9223372036854775808 = 1) as -> by (Z.to_euclidean_division_equations; lia). done.
  - assert (n / 9223372036854775808 = 0) as -> by (Z.to_euclidean_division_equations; lia). done.
Qed.

Lemma read_length_view code b l : view b l -> Forall is_u8 l ->
  match parse_length code l with
  | NoLength => read_length little code b = Ok (LengthMissing, b)
  | BadLength => exists b', read_length little code b = Ok (LengthBad, b')
  | Length n rest => exists k, read_length little code b = Ok (LengthIs n, advance k b) /\ view (advance k b) rest
  end.
Proof.
  intros Hb Hl. unfold parse_length, read_length, websocket_payload_len_7bit_max, websocket_payload_len_16bit_marker.
  pose proof (view_readable b l Hb) as Hr. case_if.
  { exists 0. unfold advance. rewrite Z.add_0_r. by destruct b. }
  case_if.
  - destruct l as [|hi [|lo l]].
    1,2: rewrite Hr; case_if; [done|zlia].
    apply Forall_cons in Hl as [Hhi [Hlo _]%Forall_cons].
    destruct (read_u16_view little b hi lo l Hb Hhi Hlo) as [-> Hv]. mstep. rewrite Hr.
    assert ((zlen (hi :: lo :: l) <? 2) = false) as -> by zlia.
    rewrite land_65535 by (unfold is_u8 in *; lia). case_if; [by eexists|]. exists 2. done.
  - rewrite Hr. case_if; [done|]. assert (length (take 8 l) = 8%nat) as H8 by (rewrite length_take; unfold zlen in *; lia).
    assert (Forall is_u8 (take 8 l)) as Hu by (by apply Forall_take).
    destruct (read_u64_view little b (take 8 l) (drop 8 l)) as [-> Hv]; [by rewrite take_drop|done..|]. mstep.
    pose proof (be_value_range _ Hu) as Hn. rewrite H8 in Hn. rewrite land_msb by (unfold is_u64; lia).
    unfold websocket_payload_len_16bit_max. case_if; [by eexists|]. exists 8. done.
Qed.

Lemma read_key_view b k0 k1 k2 k3 l : view b (k0 :: k1 :: k2 :: k3 :: l) -> Forall is_u8 [k0; k1; k2; k3] ->
  read_key little 4 b = Ok ([k0; k1; k2; k3], advance 4 b) /\ view (advance 4 b) l.
Proof.
  intros H0 Hu. rewrite !Forall_cons in Hu. destruct Hu as (U0 & U1 & U2 & U3 & _). cbn [read_key].
  destruct (read_u8_view little b k0 _ H0 U0) as [-> H1]. mstep.
  destruct (read_u8_view little _ k1 _ H1 U1) as [-> H2]. mstep.
  destruct (read_u8_view little _ k2 _ H2 U2) as [-> H3]. mstep.
  destruct (read_u8_view little _ k3 _ H3 U3) as [-> H4]. mstep. rewrite !advance_advance in *. done.
Qed.

Lemma advance_chain m b : wf b -> exists b', advance m b = b' /\ set_read_offset (read_offset_ b) b' = b.
Proof. intros. exists (advance m b). split; [done|]. by apply set_back. Qed.

(** Reading a header. *)
Lemma read_head_view c b l : fresh c -> view b l -> Forall is_u8 l ->
  match parse_head l with
  | NoHead => exists c', read_head little c b = Ok (Some 1, c', b) /\ fresh c'
  | BadHead => exists c' b', read_head little c b = Ok (Some (-1), c', b')
  | Head h rest => exists k, read_head little c b = Ok (None, mkChunk h true (body_ c), advance k b) /\ view (advance k b) rest
  end.
Proof.
  intros (Hset & Hkey & Hbody) Hb Hl. unfold read_head. rewrite (view_readable b l Hb).
  destruct l as [|b1 [|b2 l]].
  1,2: case_if; [|zlia]; exists c; rewrite set_here by apply Hb; done.
  assert ((zlen (b1 :: b2 :: l) <? 2) = false) as -> by zlia.
  apply Forall_cons in Hl as [H1 [H2 Hl]%Forall_cons].
  destruct (read_u8_view little b b1 _ Hb H1) as [-> Hv1]. mstep.
  destruct (read_u8_view little _ b2 _ Hv1 H2) as [-> Hv2]. mstep. cbv zeta.
  set (hc := set_2nd_byte b2 (set_ctrl b1 (head_ c))). cbn [parse_head]. set (h0 := set_2nd_byte b2 (set_ctrl b1 empty_head)).
  change (get_pay_load_len hc) with (get_pay_load_len h0). rewrite advance_advance in Hv2 |- *.
  assert (Hh : forall n, set_extend_pay_load_len n hc = set_extend_pay_load_len n h0).
  { intros n. unfold hc, h0, set_extend_pay_load_len. cbn. by rewrite Hkey. }
  pose proof (read_length_view (get_pay_load_len h0) _ l Hv2 Hl) as Hlen.
  destruct (parse_length (get_pay_load_len h0) l) as [| |n rest] eqn:El.
  - rewrite Hlen. mstep. eexists. rewrite set_back by apply Hb. split; [done|]. done.
  - destruct Hlen as (b' & ->). mstep. by eexists _, _.
  - destruct Hlen as (k & -> & Hv3). mstep. rewrite !Hh. rewrite advance_advance in Hv3 |- *.
    apply parse_length_split in El as (x & -> & _). apply Forall_app in Hl as [_ Hl]. case_if; [by eexists _, _|].
    destruct (need_mask (set_extend_pay_load_len n h0)) eqn:Em.
    + rewrite (view_readable _ _ Hv3). destruct rest as [|k0 [|k1 [|k2 [|k3 rest]]]].
      1-4: case_if; [|zlia]; eexists; rewrite set_back by apply Hb; split; [done|]; done.
      assert ((zlen (k0 :: k1 :: k2 :: k3 :: rest) <? 4) = false) as -> by zlia.
      destruct (read_key_view _ k0 k1 k2 k3 rest Hv3) as [-> Hv4].
      { rewrite !Forall_cons in Hl. destruct Hl as (? & ? & ? & ? & _). repeat (constructor; [assumption|]). constructor. }
      mstep. rewrite advance_advance in Hv4 |- *. eexists. split; [done|]. done.
    + eexists. split; [done|]. done.
Qed.

(** Reading a body, or the part of it that is there. *)
Lemma read_body_view h body b d l : view body d -> view b l -> write_offset_ b < 18446744073709551616 ->
  let k := Z.to_nat (extend_pay_load_len_ h - zlen d) in
  exists body' b', read_body (mkChunk h true body) b = Ok (mkChunk h true body', b')
  /\ view body' (d ++ take k l) /\ view b' (drop k l) /\ write_offset_ b' = write_offset_ b.
Proof.
  intros Hd Hl Hw k. unfold read_body. cbn [head_ body_]. rewrite (view_readable _ _ Hd), (view_readable _ _ Hl).
  destruct (Z.ltb_spec (zlen d) (extend_pay_load_len_ h)).
  2:{ exists body, b. assert (k = O) as -> by lia. rewrite take_0, drop_0, app_nil_r. done. }
  destruct (Z.ltb_spec 0 (Z.min (extend_pay_load_len_ h - zlen d) (zlen l))).
  2:{ exists body, b. assert (l = []) as -> by (destruct l; [done|zlia]). by rewrite take_nil, drop_nil, app_nil_r. }
  assert (Z.min (extend_pay_load_len_ h - zlen d) (zlen l) = zlen (take k l)) as ->.
  { unfold zlen in *. rewrite length_take. lia. }
  unfold move_bytes. rewrite <- (take_drop k l) in Hl.
  pose proof (view_window b [] (take k l) (drop k l) Hl) as Hwin. change (zlen []) with 0 in Hwin. rewrite Z.add_0_r in Hwin.
  rewrite Hwin. mstep. destruct (append_view body d (take k l) Hd) as (body' & -> & Hb' & _). mstep.
  eexists _, _. split; [done|]. split; [done|]. rewrite (consume_advance b _ _ Hl Hw).
  split; [by apply view_advance|done].
Qed.

(** * Rests *)
(** What the parser holds between calls: the bytes of a frame that is not whole. *)
Definition pending_view (c : ProtoChunk) (b : ByteBuffer.t) (l : bytes) : Prop :=
  fresh c /\ view b l
  \/ exists x d y, has_set_head_ c = true /\ (forall z, parse_head (x ++ z) = Head (head_ c) z) /\ view (body_ c) d
     /\ view b y /\ l = x ++ d ++ y /\ zlen d <= extend_pay_load_len_ (head_ c).

Lemma parse_frame_head x h l : parse_head x = Head h l ->
  parse_frame x = if zlen l <? extend_pay_load_len_ h then NoFrame
                  else Frame h (take (Z.to_nat (extend_pay_load_len_ h)) l) (drop (Z.to_nat (extend_pay_load_len_ h)) l).
Proof. unfold parse_frame. by intros ->. Qed.

(** A completed chunk. *)
Definition chunk_is (c : ProtoChunk) (m : ProtoHead * bytes) : Prop :=
  has_set_head_ c = true /\ head_ c = m.1 /\ view (body_ c) m.2.

(** The rest of [read_chunk] once the header is there. *)
Lemma finish_chunk x h body d b y l : (forall z, parse_head (x ++ z) = Head h z) -> view body d -> view b y ->
  l = x ++ d ++ y -> Forall is_u8 l -> write_offset_ b < 18446744073709551616 -> zlen d <= extend_pay_load_len_ h ->
  exists c' b', ('(chunk, buff) ← read_body (mkChunk h true body) b; Ok (if is_completed chunk then 0 else 1, chunk, buff))
    = Ok (if parse_frame l is Frame _ _ _ then 0 else 1, c', b')
  /\ write_offset_ b' = write_offset_ b
  /\ match parse_frame l with
     | NoFrame => pending_view c' b' l
     | BadFrame => False
     | Frame h' body' rest => chunk_is c' (h', body') /\ view b' rest
     end.
Proof.
  intros Hx Hd Hy -> Hu Hw Hle. pose proof (Hx (d ++ y)) as Hp. rewrite (parse_frame_head _ _ _ Hp).
  apply parse_head_fields in Hp as ([Hn _] & _ & _ & _); [|done].
  destruct (read_body_view h body b d y Hd Hy Hw) as (body' & b' & -> & Hb' & Hy' & Hw'). mstep.
  set (k := Z.to_nat (extend_pay_load_len_ h - zlen d)) in *.
  assert (Hc : is_completed (mkChunk h true body') = negb (zlen (d ++ y) <? extend_pay_load_len_ h)).
  { unfold is_completed. cbn [negb has_set_head_ head_ body_]. rewrite (view_readable _ _ Hb'). rewrite !zlen_app.
    assert (zlen (take k y) = Z.min (extend_pay_load_len_ h - zlen d) (zlen y)) as ->.
    { unfold zlen in *. rewrite length_take. lia. }
    pose proof (zlen_nonneg y). pose proof (zlen_nonneg d). case_if; lia. }
  rewrite Hc. exists (mkChunk h true body'), b'. pose proof (zlen_nonneg y).
  destruct (Z.ltb_spec (zlen (d ++ y)) (extend_pay_load_len_ h)) as [Hs|Hs]; cbn [negb]; (split; [done|]); (split; [done|]).
  - right. exists x, (d ++ take k y), (drop k y). split_and!; try done.
    + f_equal. rewrite <- app_assoc. by rewrite take_drop.
    + cbn. rewrite zlen_app in *. unfold zlen in *. rewrite length_take. lia.
  - assert (Z.to_nat (extend_pay_load_len_ h) = (length d + k)%nat) as -> by (unfold zlen in *; lia).
    rewrite take_app_add, drop_app_add. split; [|done]. split_and!; done.
Qed.

Lemma read_chunk_view c b l : pending_view c b l -> Forall is_u8 l -> write_offset_ b < 18446744073709551616 ->
  exists c' b', read_chunk little c b
    = Ok (match parse_frame l with NoFrame => 1 | BadFrame => -1 | Frame _ _ _ => 0 end, c', b')
  /\ match parse_frame l with
     | NoFrame => pending_view c' b' l
     | BadFrame => True
     | Frame h body rest => chunk_is c' (h, body) /\ view b' rest /\ write_offset_ b' = write_offset_ b
     end.
Proof.
  intros [[Hf Hb]|(x & d & y & Hset & Hx & Hd & Hy & -> & Hle)] Hu Hw; unfold read_chunk.
  - rewrite (proj1 Hf). cbn [negb]. pose proof (read_head_view c b l Hf Hb Hu) as Hr.
    destruct (parse_head l) as [| |h rest] eqn:E.
    + destruct Hr as (c' & -> & Hf'). mstep. exists c', b. unfold parse_frame. rewrite E. split; [done|]. by left.
    + destruct Hr as (c' & b' & ->). mstep. exists c', b'. unfold parse_frame. by rewrite E.
    + destruct Hr as (k & -> & Hv). mstep. pose proof E as E'. apply parse_head_split in E' as (x & -> & _ & Hx).
      destruct (parse_head_fields _ _ _ Hu E) as ([Hn _] & _).
      destruct (finish_chunk x h (body_ c) [] (advance k b) rest (x ++ rest) Hx (proj2 (proj2 Hf)) Hv eq_refl Hu Hw Hn)
        as (c' & b' & -> & Hw' & Hm).
      exists c', b'. destruct (parse_frame (x ++ rest)); done || (split; [done|]; intuition).
  - rewrite Hset. cbn [negb]. mstep. destruct c as [h set body]. cbn in Hset. subst set. cbn [head_ body_] in *.
    destruct (finish_chunk x h body d b y _ Hx Hd Hy eq_refl Hu Hw Hle) as (c' & b' & -> & Hw' & Hm).
    exists c', b'. destruct (parse_frame (x ++ d ++ y)); done || (split; [done|]; intuition).
Qed.
End Reading.

(** * Accepting frames *)
Lemma if_false (b c : bool) : (if b then false else c) = negb b && c.
Proof. by destruct b. Qed.

Lemma validate_frame_eq conn open c : has_set_head_ c = true -> is_completed c = true ->
  validate_frame conn open c = frame_ok conn open (head_ c).
Proof.
  intros Hs Hc. unfold validate_frame, frame_ok. rewrite Hs, Hc. cbn [negb orb].
  rewrite !if_false, !Z.ltb_antisym, <- !andb_assoc. repeat f_equal.
  - by destruct (is_data_frame _), (is_control_frame _).
  - by rewrite negb_involutive.
  - by destruct (is_control_frame _), (is_fin _), (_ <=? 125), (is_close_frame _), (_ =? 1).
  - by destruct open, (is_continue_frame _).
  - by destruct open, (is_text_frame _), (is_binary_frame _).
  - by destruct (is_continue_frame _), (is_fin _), (_ <=? _).
  - by destruct (is_continue_frame _), (is_fin _), (_ <=? _).
Qed.

(** A whole frame, as [parse_frame] returns it. *)
Record whole_frame (h : ProtoHead) (body : bytes) : Prop := {
  wh_length : extend_pay_load_len_ h = zlen body;
  wh_max : zlen body <= PACKET_MAX_BYTE;
  wh_key : length (masking_key_ h) = 4%nat;
  wh_key_u8 : Forall is_u8 (masking_key_ h);
  wh_body : Forall is_u8 body
}.

Lemma parse_frame_whole l h body rest : Forall is_u8 l -> parse_frame l = Frame h body rest ->
  whole_frame h body /\ Forall is_u8 rest.
Proof.
  intros Hl. unfold parse_frame. destruct (parse_head l) as [| |h' l'] eqn:E; [done..|].
  destruct (parse_head_fields _ _ _ Hl E) as (Hn & Hk & Hku & Hu). case_if; [done|]. intros [= <- <- <-].
  assert (zlen (take (Z.to_nat (extend_pay_load_len_ h')) l') = extend_pay_load_len_ h') as Hz.
  { unfold zlen in *. rewrite length_take. lia. }
  split; [|by apply Forall_drop]. split; [done|by rewrite Hz; lia|done|done|by apply Forall_take].
Qed.

Lemma chunk_completed c h body : chunk_is c (h, body) -> extend_pay_load_len_ h = zlen body -> is_completed c = true.
Proof.
  intros (Hs & Hh & Hv) Hl. unfold is_completed. rewrite Hs, Hh. cbn [negb fst]. rewrite (view_readable _ _ Hv). cbn [snd].
  case_if; [lia|done].
Qed.

Lemma unmasked_u8 h body : whole_frame h body -> Forall is_u8 (unmasked h body).
Proof. intros []. unfold unmasked. case_if; [by apply xor_key_u8|done]. Qed.

Lemma unmask_view c h body : chunk_is c (h, body) -> whole_frame h body ->
  exists c', unmask c = Ok c' /\ chunk_is c' (h, unmasked h body).
Proof.
  intros (Hs & Hh & Hv) Hw. unfold unmask, unmasked. cbn [fst snd] in *. rewrite (view_empty _ _ Hv), Hh.
  destruct (need_mask h); [|rewrite andb_false_r; by exists c]. rewrite andb_true_r.
  case_bool_decide as Hb; cbn [negb]; [subst; by exists c|].
  destruct Hw as [Hlen Hmax Hk _ _]. rewrite (view_readable _ _ Hv).
  destruct (apply_mask_view (body_ c) (masking_key_ h) body Hv Hk) as (b' & -> & Hb').
  { unfold PACKET_MAX_BYTE in Hmax. lia. }
  mstep. by eexists.
Qed.

Lemma is_u16_pair hi lo : is_u8 hi -> is_u8 lo -> u16 (Z.lor (Z.shiftl hi 8) lo) = hi * 256 + lo.
Proof. apply be16_combine. Qed.

Lemma close_payload_view c m : chunk_is c m -> Forall is_u8 m.2 -> is_valid_close_payload c = Ok (close_ok m.2).
Proof.
  intros (_ & _ & Hv) Hu. unfold is_valid_close_payload. rewrite (view_readable _ _ Hv).
  destruct m as [h [|hi [|lo l]]]; [done..|]. cbn [snd] in *. case_if; [zlia|]. case_if; [zlia|].
  pose proof (view_rd _ [] hi (lo :: l) Hv) as H0. pose proof (view_rd _ [hi] lo l Hv) as H1.
  change (zlen []) with 0 in H0. change (zlen [hi]) with 1 in H1. rewrite Z.add_0_r in H0. rewrite H0. mstep. rewrite H1. mstep.
  apply Forall_cons in Hu as [Uh [Ul _]%Forall_cons]. by rewrite be16_combine.
Qed.

Lemma valid_text_view c m : chunk_is c m -> Forall is_u8 m.2 -> valid_text c = Ok (utf8 m.2).
Proof.
  intros (_ & _ & Hv) Hu. unfold valid_text, utf8. rewrite (view_span _ _ Hv). mstep.
  by destruct (Utf8.is_valid_utf8_total _ Hu) as (b & ->).
Qed.

(** What the parser keeps of an open message. *)
Definition open_view (conn : limits) (p : t) (open : option message) : Prop :=
  match open with
  | None => has_fragmented_message_ p = false
  | Some m => has_fragmented_message_ p = true /\ chunk_is (fragmented_message_ p) m /\ Forall is_u8 m.2
              /\ 0 <= extend_pay_load_len_ m.1 <= max_fragmented_message_size conn
  end.
Definition limits_ok (conn : limits) : Prop :=
  is_u32 (max_message_size conn) /\ is_u32 (max_fragmented_message_size conn).

Lemma open_view_has conn p open : open_view conn p open -> has_fragmented_message_ p = bool_decide (is_Some open).
Proof. by destruct open; [intros [? _]|intros ?]. Qed.

(** What is appended to the input, and that nothing else changes. *)
Definition delivers (p p' : t) (input input' : list ProtoChunk) (out : list message) : Prop :=
  pending_frame_ p' = pending_frame_ p /\ frame_buffer_ p' = frame_buffer_ p
  /\ exists chunks, input' = input ++ chunks /\ Forall2 chunk_is chunks out.

Lemma delivers_none p p' input : pending_frame_ p' = pending_frame_ p -> frame_buffer_ p' = frame_buffer_ p ->
  delivers p p' input input [].
Proof. intros. split; [done|]. split; [done|]. exists []. split; [by rewrite app_nil_r|constructor]. Qed.
Lemma delivers_one p p' input c m : pending_frame_ p' = pending_frame_ p -> frame_buffer_ p' = frame_buffer_ p ->
  chunk_is c m -> delivers p p' input (input ++ [c]) [m].
Proof. intros. split; [done|]. split; [done|]. exists [c]. split; [done|]. constructor; [done|constructor]. Qed.

Lemma accept_frame conn p open c h body input : limits_ok conn -> open_view conn p open ->
  chunk_is c (h, body) -> whole_frame h body ->
  exists p' input', append_completed_frame conn c p input = Ok ((accept conn open h body).1.1, p', input')
  /\ open_view conn p' (accept conn open h body).1.2 /\ delivers p p' input input' (accept conn open h body).2.
Proof.
  intros [Hm Hf] Ho Hc Hw. unfold append_completed_frame, accept.
  rewrite validate_frame_eq by (apply Hc || by apply (chunk_completed c h body); [|apply Hw]).
  rewrite (proj1 (proj2 Hc)), (open_view_has _ _ _ Ho). cbn [fst].
  destruct (frame_ok conn (bool_decide (is_Some open)) h) eqn:Eok; cbn [negb].
  2:{ exists p, input. split; [done|]. split; [done|]. by apply delivers_none. }
  destruct (unmask_view c h body Hc Hw) as (c' & -> & Hc'). mstep. rewrite (proj1 (proj2 Hc')). cbn [fst].
  pose proof (unmasked_u8 h body Hw) as Hu. set (data := unmasked h body) in *.
  destruct (is_control_frame h) eqn:Ectl.
  { assert ((if is_close_frame h then is_valid_close_payload c' else Ok true) = Ok (negb (is_close_frame h && negb (close_ok data)))) as ->.
    { destruct (is_close_frame h); [|done]. rewrite (close_payload_view c' (h, data)) by done. cbn [snd andb]. by destruct (close_ok data). }
    mstep. destruct (is_close_frame h && negb (close_ok data)); cbn [negb].
    - exists p, input. split; [done|]. split; [done|]. by apply delivers_none.
    - exists p, (input ++ [c']). split; [done|]. split; [done|]. by apply delivers_one. }
  (* finishing a message without changing what is open *)
  assert (Hfin : forall (m : message) w q (open0 : option message), chunk_is w m -> Forall is_u8 m.2 ->
    pending_frame_ q = pending_frame_ p -> frame_buffer_ q = frame_buffer_ p -> open_view conn q open0 ->
    exists p' input', (valid ← (if is_text_frame m.1 then valid_text w else Ok true);
                       if (valid : bool) then Ok (true, q, input ++ [w]) else Ok (false, q, input))
      = Ok ((finish open0 m).1.1, p', input')
    /\ open_view conn p' (finish open0 m).1.2 /\ delivers p p' input input' (finish open0 m).2).
  { intros m w q open0 Hwm Hmu Hq1 Hq2 Hq3. unfold finish. destruct (is_text_frame m.1); cbn [andb]; mstep.
    - rewrite (valid_text_view w m) by done. mstep. destruct (utf8 m.2); cbn [negb].
      + exists q, (input ++ [w]). split; [done|]. split; [done|]. by apply delivers_one.
      + exists q, input. split; [done|]. split; [done|]. by apply delivers_none.
    - exists q, (input ++ [w]). split; [done|]. split; [done|]. by apply delivers_one. }
  destruct (is_continue_frame h) eqn:Ecnt.
  { destruct open as [[h0 d0]|].
    2:{ exfalso. unfold frame_ok in Eok. rewrite Ecnt in Eok. cbn in Eok. by rewrite !andb_false_r in Eok. }
    destruct Ho as (Hhas & Hcm & Hu0 & Hn0). cbn [fst snd] in *. unfold append_continuation.
    destruct (append_buffer_view _ _ _ _ (proj2 (proj2 Hcm)) (proj2 (proj2 Hc'))) as (body' & -> & Hb' & _). mstep.
    cbn [snd] in Hb'. rewrite (proj1 (proj2 Hcm)), (proj1 (proj2 Hc')), (proj1 Hcm). cbn [fst].
    destruct Hw as [Hlen Hmax _ _ _]. unfold is_u32, PACKET_MAX_BYTE in *. pose proof (zlen_nonneg body).
    assert (u64 (extend_pay_load_len_ h0 + extend_pay_load_len_ h) = extend_pay_load_len_ h0 + extend_pay_load_len_ h) as ->.
    { apply Z.mod_small. lia. }
    cbv zeta. cbn [head_ has_set_head_ body_ extend_pay_load_len_ set_fin set_extend_pay_load_len].
    set (m := (set_fin (fin_ h) (set_extend_pay_load_len (extend_pay_load_len_ h0 + extend_pay_load_len_ h) h0), d0 ++ data)).
    case_if.
    { eexists _, input. split; [done|]. split; [done|]. by apply delivers_none. }
    change (is_fin (set_fin _ _)) with (is_fin h). destruct (is_fin h).
    { destruct (Hfin m (mkChunk m.1 true body') (set_fragmented empty_chunk false p) None) as (p' & input' & E & Hrest);
        [done|by apply Forall_app|done..|].
      exists p', input'. split; [|exact Hrest]. rewrite <- E. cbn [fst m is_text_frame]. done. }
    eexists _, input. split; [done|]. split; [|by apply delivers_none]. split; [done|]. split; [done|].
    split; [by apply Forall_app|]. cbn. lia. }
  destruct (is_fin h) eqn:Efin.
  { destruct (Hfin (h, data) c' p open) as (p' & input' & E & Hrest); [done..|]. exists p', input'. split; [|exact Hrest].
    rewrite <- E. done. }
  eexists _, input. split; [done|]. split; [|by apply delivers_none]. split; [done|]. split; [done|]. split; [done|].
  cbn [fst]. unfold frame_ok in Eok. rewrite Ecnt, Efin in Eok. cbn [negb andb implb] in Eok.
  apply andb_true_iff in Eok as [_ Eok]. destruct Hw as [Hlen _ _ _ _]. pose proof (zlen_nonneg body). lia.
Qed.

(** * The loop *)
(** The parser between two calls: it holds the bytes [l] of a frame that is not whole and
    the open message. *)
Record parser_ok (conn : limits) (p : t) (l : bytes) (open : option message) : Prop := {
  pk_pending : pending_view (pending_frame_ p) (frame_buffer_ p) l;
  pk_offset : read_offset_ (frame_buffer_ p) = 0;
  pk_open : open_view conn p open
}.

Lemma pending_compact c b l : pending_view c b l ->
  exists b', compact b = Ok b' /\ pending_view c b' l /\ read_offset_ b' = 0.
Proof.
  intros [[Hf Hv]|(x & d & y & Hs & Hx & Hd & Hy & -> & Hn)].
  - destruct (compact_view b l Hv) as (b' & -> & Hv' & Ho). exists b'. split; [done|]. split; [by left|done].
  - destruct (compact_view b y Hy) as (b' & -> & Hv' & Ho). exists b'. split; [done|]. split; [|done].
    right. by exists x, d, y.
Qed.

Lemma pending_write c b l : pending_view c b l -> read_offset_ b = 0 -> write_offset_ b <= zlen l.
Proof.
  intros [[Hf Hv]|(x & d & y & Hs & Hx & Hd & Hy & -> & Hn)] Ho.
  - rewrite (view_write _ _ Hv). lia.
  - rewrite (view_write _ _ Hy), !zlen_app. pose proof (zlen_nonneg x). pose proof (zlen_nonneg d). lia.
Qed.

Lemma fresh_empty : fresh empty_chunk.
Proof. split; [done|]. split; [done|apply view_default]. Qed.

Section Loop.
Variable little : bool.
Variable conn : limits.
Hypothesis Hconn : limits_ok conn.

(** One round: what the reference does with the first frame of [l]. *)
Lemma unpack_round fuel p l open input : parser_ok conn p l open -> Forall is_u8 l -> zlen l < 18446744073709551616 ->
  match parse_frame l with
  | NoFrame => exists p', unpack_loop little (S fuel) conn p input = Ok (true, p', input) /\ parser_ok conn p' l open
  | BadFrame => exists p', unpack_loop little (S fuel) conn p input = Ok (false, p', input)
  | Frame h body rest =>
      let '(ok, open', out) := accept conn open h body in
      exists p' input' chunks, input' = input ++ chunks /\ Forall2 chunk_is chunks out
      /\ if ok : bool then
           parser_ok conn p' rest open' /\ fresh (pending_frame_ p') /\ view (frame_buffer_ p') rest
           /\ unpack_loop little (S fuel) conn p input
              = if bool_decide (rest = []) then Ok (true, p', input') else unpack_loop little fuel conn p' input'
         else unpack_loop little (S fuel) conn p input = Ok (false, p', input')
  end.
Proof.
  intros [Hp Ho Hop] Hu Hl.
  pose proof (pending_write _ _ _ Hp Ho) as Hw.
  destruct (read_chunk_view little _ _ l Hp Hu) as (c' & b' & Hr & Hres); [lia|].
  cbn [unpack_loop]. rewrite Hr. mstep.
  destruct (parse_frame l) as [| |h body rest] eqn:E; cbv zeta.
  - change (1 <? 0) with false. change (1 =? 1) with true. cbn iota.
    cbn [frame_buffer_ set_frame_buffer set_pending].
    destruct (pending_compact _ _ _ Hres) as (b'' & -> & Hp' & Ho'). mstep. eexists. split; [done|]. by split.
  - change (-1 <? 0) with true. cbn iota. by eexists.
  - change (0 <? 0) with false. change (0 =? 1) with false. cbn iota.
    destruct Hres as (Hc & Hv & Hw'). destruct (parse_frame_whole _ _ _ _ Hu E) as [Hwf Hur].
    cbn [pending_frame_ set_frame_buffer set_pending].
    set (p1 := set_frame_buffer b' (set_pending c' p)).
    destruct (accept_frame conn p1 open c' h body input Hconn Hop Hc Hwf) as (p2 & input' & -> & Hop' & Hd). mstep.
    destruct (accept conn open h body) as [[ok open'] out]. cbn [fst snd] in *.
    destruct Hd as (_ & Hfb & chunks & -> & Hch). cbn [frame_buffer_ set_pending]. rewrite Hfb.
    cbn [frame_buffer_ p1 set_frame_buffer set_pending].
    destruct ok; cbn [negb]; [|by eexists _, _, chunks].
    destruct (compact_view b' rest Hv) as (b2 & -> & Hv2 & Ho2). mstep. cbn [frame_buffer_ set_frame_buffer].
    rewrite (view_empty _ _ Hv2). case_bool_decide as Hrest.
    + destruct (compact_view b2 rest Hv2) as (b3 & -> & Hv3 & Ho3). mstep.
      exists (set_frame_buffer b3 (set_frame_buffer b2 (set_pending empty_chunk p2))), (input ++ chunks), chunks.
      split; [done|]. split; [done|]. split; [|split; [apply fresh_empty|split; [exact Hv3|done]]].
      split; [left; split; [apply fresh_empty|exact Hv3]|done|exact Hop'].
    + exists (set_frame_buffer b2 (set_pending empty_chunk p2)), (input ++ chunks), chunks.
      split; [done|]. split; [done|]. split; [|split; [apply fresh_empty|split; [exact Hv2|done]]].
      split; [left; split; [apply fresh_empty|exact Hv2]|done|exact Hop'].
Qed.

(** The messages a call delivers, and its result, are the reference's. *)
Definition unpacks (m : outcome (bool * t * list ProtoChunk)) (l : bytes) (open : option message) (input : list ProtoChunk)
  : Prop :=
  let '(ok, rest, open', out) := decode_stream conn l open in
  exists p' chunks, m = Ok (ok, p', input ++ chunks) /\ Forall2 chunk_is chunks out
  /\ (ok = true -> parser_ok conn p' rest open' /\ Forall is_u8 rest).

Lemma unpack_loop_fresh fuel p l open input : parser_ok conn p l open -> fresh (pending_frame_ p) -> view (frame_buffer_ p) l ->
  Forall is_u8 l -> zlen l < 18446744073709551616 -> (length l <= fuel)%nat -> (0 < fuel)%nat ->
  unpacks (unpack_loop little fuel conn p input) l open input.
Proof.
  revert p l open input. induction fuel as [|fuel IH]; intros p l open input Hp Hf Hv Hu Hl Hfuel Hpos; [lia|].
  unfold unpacks. rewrite decode_stream_unfold. pose proof (unpack_round fuel p l open input Hp Hu Hl) as Hr.
  destruct (parse_frame l) as [| |h body rest] eqn:E.
  - destruct Hr as (p' & -> & Hp'). exists p', []. rewrite app_nil_r. split; [done|]. split; [constructor|done].
  - destruct Hr as (p' & ->). exists p', []. rewrite app_nil_r. split; [done|]. split; [constructor|done].
  - pose proof (parse_frame_whole _ _ _ _ Hu E) as [_ Hur]. apply parse_frame_shorter in E.
    destruct (accept conn open h body) as [[ok open'] out]. destruct Hr as (p' & input' & chunks & -> & Hch & Hr).
    destruct ok; [|by exists p', chunks]. destruct Hr as (Hp' & Hf' & Hv' & ->).
    case_bool_decide as Hrest.
    + subst rest. change (decode_stream conn [] open') with (true, @nil Z, open', @nil message).
      exists p', chunks. rewrite app_nil_r. done.
    + assert (zlen rest < zlen l) by (unfold zlen; lia). assert (0 < length rest)%nat by (destruct rest; [done|cbn; lia]).
      specialize (IH p' rest open' (input ++ chunks) Hp' Hf' Hv' Hur ltac:(lia) ltac:(lia) ltac:(lia)).
      unfold unpacks in IH. destruct (decode_stream conn rest open') as [[[ok2 rest2] open2] out2].
      destruct IH as (p2 & chunks2 & -> & Hch2 & Hok). exists p2, (chunks ++ chunks2). rewrite app_assoc. split; [done|].
      split; [by apply Forall2_app|done].
Qed.

(** The bytes of the frame buffer. *)
Lemma pending_buffer c b l : pending_view c b l -> exists y z, view b y /\ l = z ++ y.
Proof.
  intros [[Hf Hv]|(x & d & y & Hs & Hx & Hd & Hy & -> & Hn)]; [by exists l, []|].
  exists y, (x ++ d). by rewrite <- app_assoc.
Qed.

Lemma unpack_loop_any p l open input : parser_ok conn p l open -> Forall is_u8 l -> zlen l < 18446744073709551616 ->
  (forall h body rest, parse_frame l = Frame h body rest -> zlen rest <= readable_bytes (frame_buffer_ p)) ->
  unpacks (unpack_loop little (S (Z.to_nat (readable_bytes (frame_buffer_ p)))) conn p input) l open input.
Proof.
  intros Hp Hu Hl Hrest. unfold unpacks. rewrite decode_stream_unfold.
  pose proof (unpack_round (Z.to_nat (readable_bytes (frame_buffer_ p))) p l open input Hp Hu Hl) as Hr.
  destruct (parse_frame l) as [| |h body rest] eqn:E.
  - destruct Hr as (p' & -> & Hp'). exists p', []. rewrite app_nil_r. split; [done|]. split; [constructor|done].
  - destruct Hr as (p' & ->). exists p', []. rewrite app_nil_r. split; [done|]. split; [constructor|done].
  - specialize (Hrest _ _ _ eq_refl). pose proof (parse_frame_whole _ _ _ _ Hu E) as [_ Hur]. apply parse_frame_shorter in E.
    destruct (accept conn open h body) as [[ok open'] out]. destruct Hr as (p' & input' & chunks & -> & Hch & Hr).
    destruct ok; [|by exists p', chunks]. destruct Hr as (Hp' & Hf' & Hv' & ->).
    case_bool_decide as Hnil.
    + subst rest. change (decode_stream conn [] open') with (true, @nil Z, open', @nil message).
      exists p', chunks. rewrite app_nil_r. done.
    + assert (zlen rest < zlen l) by (unfold zlen; lia). assert (0 < length rest)%nat by (destruct rest; [done|cbn; lia]).
      assert (length rest <= Z.to_nat (readable_bytes (frame_buffer_ p)))%nat by (unfold zlen in *; lia).
      pose proof (unpack_loop_fresh _ p' rest open' (input ++ chunks) Hp' Hf' Hv' Hur ltac:(lia) ltac:(eassumption) ltac:(lia)) as Hrec.
      unfold unpacks in Hrec. destruct (decode_stream conn rest open') as [[[ok2 rest2] open2] out2].
      destruct Hrec as (p2 & chunks2 & -> & Hch2 & Hok). exists p2, (chunks ++ chunks2). rewrite app_assoc. split; [done|].
      split; [by apply Forall2_app|done].
Qed.

(** More bytes for the frame that is not whole. *)
Lemma pending_append c b l x : pending_view c b l -> parse_frame l = NoFrame ->
  exists b', append x b = Ok b' /\ pending_view c b' (l ++ x) /\ (read_offset_ b = 0 -> read_offset_ b' = 0)
  /\ (forall h body rest, parse_frame (l ++ x) = Frame h body rest -> zlen rest <= readable_bytes b').
Proof.
  intros Hp Hno. destruct (pending_buffer _ _ _ Hp) as (y0 & z0 & Hv0 & E0).
  destruct (append_view b y0 x Hv0) as (b' & E & Hv' & Ho). exists b'. split; [done|].
  split; [|split; [done|]].
  - destruct Hp as [[Hf Hv]|(x1 & d & y & Hs & Hx & Hd & Hy & -> & Hn)].
    + left. split; [done|]. destruct Hv0 as [_ <-]. destruct Hv as [_ <-]. done.
    + right. exists x1, d, (y ++ x). split_and!; try done.
      * destruct Hv0 as [_ <-]. destruct Hy as [_ <-]. done.
      * by rewrite <- !app_assoc.
  - intros h body rest Hf. rewrite (view_readable _ _ Hv'). destruct Hp as [[_ Hv]|(x1 & d & y & Hs & Hx & Hd & Hy & -> & Hn)].
    + destruct Hv0 as [_ <-]. destruct Hv as [_ <-]. apply parse_frame_shorter in Hf. unfold zlen. lia.
    + assert (y0 = y) as -> by (destruct Hv0 as [_ <-], Hy as [_ <-]; done).
      rewrite <- !app_assoc in Hf. rewrite (parse_frame_head _ _ _ (Hx _)) in Hf. case_if_in Hf; [done|].
      injection Hf as _ _ <-. rewrite drop_app_ge by (unfold zlen in *; lia).
      unfold zlen. rewrite length_drop. lia.
Qed.

Lemma unpack_from_ref p l open data x input : parser_ok conn p l open -> parse_frame l = NoFrame ->
  Forall is_u8 l -> view data x -> Forall is_u8 x -> zlen (l ++ x) < 18446744073709551616 ->
  unpacks (unpack_from little conn data p input) (l ++ x) open input.
Proof.
  intros [Hp Ho Hop] Hno Hu Hd Hx Hl. unfold unpack_from. rewrite (view_empty _ _ Hd).
  destruct (pending_append _ _ _ x Hp Hno) as (b' & E & Hp' & Ho' & Hrest).
  case_bool_decide as Hnil; cbn [negb]; mstep.
  - subst x. rewrite app_nil_r in *. assert (set_frame_buffer (frame_buffer_ p) p = p) as -> by by destruct p.
    apply unpack_loop_any; [by split|done|done|]. intros h body rest Hf. congruence.
  - unfold append_buffer. rewrite (view_span _ _ Hd). mstep. rewrite E. mstep.
    apply unpack_loop_any; [split; [exact Hp'|exact (Ho' Ho)|exact Hop]|by apply Forall_app|done|exact Hrest].
Qed.
End Loop.
