(* ===== verification/WsStreamFacts.v ===== *)
(** Feeding the packet parser a stream in chunks, and the rules that every delivered
    message keeps. *)
From S2P Require Import Prelude Endian ByteBuffer ByteBufferFacts Utf8 WsProtocol WsParser WsReference WsParserFacts.

(** * What the packet parser writes, and that the reference decoder reads it back. *)
Import ByteBuffer WsProtocol WsParser.

(** * The form of a frame *)
Definition length_bytes (n : Z) : bytes := if n <=? 125 then [] else if n <=? 65535 then be16 n else be64 n.
Definition length_code_of (n : Z) : Z := if n <=? 125 then n else if n <=? 65535 then 126 else 127.
Definition header_bytes (fin masked : bool) (op : Z) (key : bytes) (n : Z) : bytes :=
  [Z.lor (if fin then 128 else 0) op; Z.lor (if masked then 128 else 0) (length_code_of n)]
  ++ length_bytes n ++ (if masked then key else []).
Definition packed_head (fin masked : bool) (op : Z) (key : bytes) (n : Z) : ProtoHead :=
  mkHead (if fin then 1 else 0) 0 0 0 op (if masked then 1 else 0) (length_code_of n)
    (if masked then key else [0; 0; 0; 0]) n.
Definition masked_body (masked : bool) (key body : bytes) : bytes := if masked then xor_key key 0 body else body.
Definition wire_frame (fin masked : bool) (op : Z) (key body : bytes) : bytes :=
  header_bytes fin masked op key (zlen body) ++ masked_body masked key body.

Definition opcode_ok (op : Z) : Prop := op = 0 \/ op = 1 \/ op = 2 \/ op = 8 \/ op = 9 \/ op = 10.
Definition key_ok (key : bytes) : Prop := length key = 4%nat /\ Forall is_u8 key.

Lemma packed_ctrl (fin : bool) op h : opcode_ok op ->
  set_ctrl (Z.lor (if fin then 128 else 0) op) h
  = mkHead (if fin then 1 else 0) 0 0 0 op (WsProtocol.mask_ h) (pay_load_len_ h) (masking_key_ h) (extend_pay_load_len_ h).
Proof. intros [-> |[-> |[-> |[-> |[-> | ->]]]]]; by destruct fin. Qed.

Lemma length_code_range n : 0 <= n -> 0 <= length_code_of n < 128.
Proof. intros. unfold length_code_of. repeat case_if; lia. Qed.

Lemma packed_2nd (masked : bool) n h : 0 <= n ->
  set_2nd_byte (Z.lor (if masked then 128 else 0) (length_code_of n)) h
  = mkHead (fin_ h) (rev_1_ h) (rev_2_ h) (rev_3_ h) (opcode_ h) (if masked then 1 else 0) (length_code_of n)
      (masking_key_ h) (extend_pay_load_len_ h).
Proof.
  intros Hn. pose proof (length_code_range n Hn) as Hc. unfold set_2nd_byte.
  pose proof (Utf8.u8_forall (fun c => (128 <=? c) ||
    ((Z.land (Z.shiftr (Z.lor (if masked then 128 else 0) c) 7) 1 =? (if masked then 1 else 0))
     && (Z.land (Z.lor (if masked then 128 else 0) c) 127 =? c))) ltac:(by destruct masked; vm_compute) (length_code_of n)) as H.
  cbn beta in H. destruct (orb_prop _ _ (H ltac:(unfold is_u8; lia))) as [H1|H1]; [lia|]. f_equal; lia.
Qed.

Lemma parse_length_packed n y : 0 <= n <= PACKET_MAX_BYTE -> parse_length (length_code_of n) (length_bytes n ++ y) = Length n y.
Proof.
  unfold PACKET_MAX_BYTE. intros Hn. unfold length_code_of, length_bytes, parse_length. destruct (n <=? 125) eqn:E1.
  { by rewrite E1. }
  destruct (n <=? 65535) eqn:E2.
  - unfold be16. cbn [app]. change (126 <=? 125) with false. change (126 =? 126) with true. cbn iota.
    assert (u8 (Z.shiftr n 8) * 256 + u8 n = n) as -> by (unfold u8; rewrite shiftr_8; Z.to_euclidean_division_equations; lia).
    by rewrite E1.
  - change (127 <=? 125) with false. change (127 =? 126) with false. cbn iota.
    assert (length (be64 n) = 8%nat) as Hl by (pose proof (zlen_be64 n); unfold zlen in *; lia).
    rewrite zlen_app, zlen_be64. pose proof (zlen_nonneg y). case_if; [lia|].
    rewrite take_app_le, drop_app_le, firstn_all2, drop_ge by lia. rewrite be_value_be64 by (unfold is_u64; lia).
    case_if; [lia|done].
Qed.

Lemma parse_head_packed fin masked op key n y : opcode_ok op -> key_ok key -> 0 <= n <= PACKET_MAX_BYTE ->
  parse_head (header_bytes fin masked op key n ++ y) = Head (packed_head fin masked op key n) y.
Proof.
  intros Ho [Hk _] Hn. unfold header_bytes. cbn [app parse_head]. rewrite packed_2nd, packed_ctrl by (done || lia).
  unfold get_pay_load_len. cbn [pay_load_len_]. pose proof (length_code_range n ltac:(lia)) as Hc.
  assert (Z.land (length_code_of n) 127 = length_code_of n) as -> by (rewrite land_127; apply Z.mod_small; lia).
  rewrite <- !app_assoc, parse_length_packed by done. unfold PACKET_MAX_BYTE in *. case_if; [lia|].
  unfold need_mask. cbn [WsProtocol.mask_ set_extend_pay_load_len packed_head]. destruct masked; cbn [Z.land Z.eqb negb].
  - by destruct key as [|k0 [|k1 [|k2 [|k3 [|]]]]].
  - done.
Qed.

Lemma parse_frame_packed fin masked op key body y : opcode_ok op -> key_ok key -> zlen body <= PACKET_MAX_BYTE ->
  parse_frame (wire_frame fin masked op key body ++ y)
  = Frame (packed_head fin masked op key (zlen body)) (masked_body masked key body) y.
Proof.
  intros Ho Hk Hn. unfold wire_frame, parse_frame. rewrite <- app_assoc.
  rewrite parse_head_packed by (done || (pose proof (zlen_nonneg body); lia)).
  cbn [extend_pay_load_len_ packed_head].
  assert (zlen (masked_body masked key body) = zlen body) as Hz.
  { unfold masked_body, zlen. destruct masked; [by rewrite length_xor_key|done]. }
  rewrite zlen_app, Hz. pose proof (zlen_nonneg y). case_if; [lia|].
  assert (Z.to_nat (zlen body) = length (masked_body masked key body)) as -> by (unfold zlen in *; lia).
  by rewrite take_app_length, drop_app_length.
Qed.

Lemma unmasked_packed fin masked op key body n :
  unmasked (packed_head fin masked op key n) (masked_body masked key body) = body.
Proof. unfold unmasked, need_mask. cbn [WsProtocol.mask_ packed_head masking_key_]. destruct masked; [apply xor_key_twice|done]. Qed.

(** * Writing *)
Section Writing.
Variable little : bool.
Variable rng : nat -> Z.

(** The mask that a frame of [p] is written with. *)
Definition masked_once (p : t) : t := if use_mask_ p then update_mask rng p else p.

Lemma update_mask_ok p : key_ok (mask_ (update_mask rng p)) /\ use_mask_ (update_mask rng p) = use_mask_ p.
Proof. split; [|done]. split; [done|]. cbn. repeat (constructor; [apply u8_range|]). constructor. Qed.

(** Packing changes the mask only: what the parser reads with stays. *)
Definition reads_as (p p' : t) : Prop :=
  frame_buffer_ p' = frame_buffer_ p /\ pending_frame_ p' = pending_frame_ p
  /\ fragmented_message_ p' = fragmented_message_ p /\ has_fragmented_message_ p' = has_fragmented_message_ p.
Lemma reads_as_refl p : reads_as p p.
Proof. done. Qed.
Lemma reads_as_trans p q r : reads_as p q -> reads_as q r -> reads_as p r.
Proof. unfold reads_as. intros (? & ? & ? & ?) (? & ? & ? & ?). split_and!; congruence. Qed.
Lemma masked_once_reads p : reads_as p (masked_once p).
Proof. unfold masked_once. by destruct (use_mask_ p). Qed.

(** The mask is a mask when it is used. *)
Definition mask_ok (p : t) : Prop := key_ok (mask_ p).
Lemma masked_once_ok p : mask_ok p -> mask_ok (masked_once p) /\ use_mask_ (masked_once p) = use_mask_ p.
Proof. intros Hp. unfold masked_once. destruct (use_mask_ p) eqn:E; [|done]. split; [apply update_mask_ok|done]. Qed.

Lemma length_code_eq n : 0 <= n <= PACKET_MAX_BYTE -> length_code n = Some (length_code_of n).
Proof.
  intros. unfold length_code, length_code_of, websocket_payload_len_7bit_max, websocket_payload_len_16bit_max.
  case_if; [by rewrite u8_id by (unfold is_u8; lia)|]. case_if; [done|]. case_if; [done|lia].
Qed.

Lemma append_bytes_view l b c : view b c -> Forall is_u8 l -> exists b', append_bytes little l b = Ok b' /\ view b' (c ++ l).
Proof.
  intros Hb Hl. revert b c Hb. induction Hl as [|x l Hx _ IH]; intros b c Hb; cbn [append_bytes].
  { exists b. by rewrite app_nil_r. }
  destruct (append_u8_view little b c x Hb Hx) as (b1 & -> & Hb1). mstep.
  destruct (IH b1 _ Hb1) as (b2 & -> & Hb2). exists b2. by rewrite <- app_assoc in Hb2.
Qed.

(** The opcode of a frame. *)
Definition frame_op (type : Z) (continued : bool) : Z := if continued then 0 else type.

Lemma lor_byte (c : bool) x : 0 <= x < 128 -> is_u8 (Z.lor (if c then 128 else 0) x).
Proof.
  intros. destruct c.
  - change 128 with (Z.shiftl 1 7). rewrite lor_shiftl_add by (change (2 ^ 7) with 128; lia). unfold is_u8. change (2 ^ 7) with 128. lia.
  - rewrite Z.lor_0_l. unfold is_u8. lia.
Qed.

Lemma pack_header_view b c type n isEnd continued p : view b c -> header_type type = true -> 0 <= n <= PACKET_MAX_BYTE ->
  mask_ok p ->
  exists b', pack_header little rng b type n isEnd continued p = Ok (Some b', masked_once p)
  /\ view b' (c ++ header_bytes isEnd (use_mask_ p) (frame_op type continued) (mask_ (masked_once p)) n).
Proof.
  intros Hb Ht Hn Hm. unfold pack_header. rewrite Ht. rewrite andb_false_r. cbv zeta. fold (masked_once p).
  destruct (masked_once_ok p Hm) as [Hm' Hu]. rewrite Hu, length_code_eq by done.
  assert (Hop : 0 <= frame_op type continued < 128 /\ (if negb continued then Z.lor (if isEnd then 128 else 0) (Z.land type 15) else if isEnd then 128 else 0)
    = Z.lor (if isEnd then 128 else 0) (frame_op type continued)) .
  { unfold header_type, type_text_frame, type_binary_frame, type_close_frame, type_ping_frame, type_pong_frame in Ht.
    assert (type = 1 \/ type = 2 \/ type = 8 \/ type = 9 \/ type = 10) as Hin by lia.
    unfold frame_op. destruct continued; cbn [negb]; [by rewrite Z.lor_0_r|].
    by destruct Hin as [-> |[-> |[-> |[-> | ->]]]]. }
  destruct Hop as [Hop ->]. set (op := frame_op type continued) in *.
  pose proof (length_code_range n ltac:(lia)) as Hc.
  destruct (append_u8_view little b c _ Hb (lor_byte isEnd op Hop)) as (b1 & -> & Hb1). mstep.
  destruct (append_u8_view little b1 _ _ Hb1 (lor_byte (use_mask_ p) _ Hc)) as (b2 & -> & Hb2). mstep.
  assert (Z.land (Z.lor (if use_mask_ p then 128 else 0) (length_code_of n)) 127 = length_code_of n) as ->.
  { rewrite land_127. destruct (use_mask_ p); [|rewrite Z.lor_0_l; apply Z.mod_small; lia].
    change 128 with (Z.shiftl 1 7) at 1. rewrite lor_shiftl_add by (change (2 ^ 7) with 128; lia).
    change (2 ^ 7) with 128. rewrite Z.add_comm, Z.mod_add by lia. apply Z.mod_small. lia. }
  assert (exists b3, (if length_code_of n =? websocket_payload_len_16bit_marker then ByteBuffer.append_u16 little (u16 n) b2
      else if length_code_of n =? websocket_payload_len_64bit_marker then ByteBuffer.append_u64 little n b2 else Ok b2) = Ok b3
    /\ view b3 (((c ++ [Z.lor (if isEnd then 128 else 0) op]) ++ [Z.lor (if use_mask_ p then 128 else 0) (length_code_of n)]) ++ length_bytes n))
    as (b3 & -> & Hb3).
  { unfold websocket_payload_len_16bit_marker, websocket_payload_len_64bit_marker, length_bytes. unfold length_code_of in Hb2 |- *.
    destruct (n <=? 125) eqn:E1; [|destruct (n <=? 65535) eqn:E2].
    - assert ((n =? 126) = false) as -> by lia. assert ((n =? 127) = false) as -> by lia. exists b2. by rewrite app_nil_r.
    - change (126 =? 126) with true. cbn iota. rewrite u16_id by (unfold is_u16; lia). by apply append_u16_view.
    - change (127 =? 126) with false. change (127 =? 127) with true. cbn iota. by apply append_u64_view. }
  mstep. assert (exists b4, (if use_mask_ p then append_bytes little (mask_ (masked_once p)) b3 else Ok b3) = Ok b4
    /\ view b4 ((((c ++ [Z.lor (if isEnd then 128 else 0) op]) ++ [Z.lor (if use_mask_ p then 128 else 0) (length_code_of n)]) ++ length_bytes n)
               ++ if use_mask_ p then mask_ (masked_once p) else [])) as (b4 & -> & Hb4).
  { destruct (use_mask_ p); [|exists b3; by rewrite app_nil_r]. apply append_bytes_view; [done|apply Hm']. }
  mstep. exists b4. split; [done|]. unfold header_bytes. by rewrite <- !app_assoc in Hb4.
Qed.

Lemma pack_frame_view data a body z b c p : view data (a ++ body ++ z) -> view b c -> mask_ok p -> zlen body < 2147483648 ->
  exists b', pack_frame data b (zlen a) (zlen body) p = Ok (Some b')
  /\ view b' (c ++ masked_body (use_mask_ p) (mask_ p) body).
Proof.
  intros Hd Hb Hm Hlen. unfold pack_frame. rewrite (view_readable _ _ Hd), !zlen_app. pose proof (zlen_nonneg z).
  case_if; [lia|]. rewrite (view_window _ _ _ _ Hd). mstep. unfold masked_body. destruct (use_mask_ p).
  - destruct (of_span_view body) as (k & -> & Hk). mstep.
    destruct (apply_mask_view k (mask_ p) body Hk (proj1 Hm) Hlen) as (k' & Ek & Hk').
    assert (u32 (zlen body) = zlen body) as Eu by (apply u32_id; unfold is_u32; pose proof (zlen_nonneg body); lia).
    rewrite Eu in Ek. rewrite Ek. mstep.
    destruct (append_buffer_view _ _ _ _ Hb Hk') as (b' & -> & Hb' & _). mstep. by exists b'.
  - destruct (append_view b c body Hb) as (b' & -> & Hb' & _). mstep. by exists b'.
Qed.

Lemma calc_head_size_some n masked : 0 <= n <= PACKET_MAX_BYTE -> exists k, calc_head_size n masked = Some k /\ 0 <= k.
Proof.
  intros. unfold calc_head_size, PACKET_MAX_BYTE in *.
  repeat case_if; try lia; cbn [mbind option_bind]; destruct masked; eexists; (split; [done|lia]).
Qed.

Lemma pack_one_view data a body z type isEnd continued p : view data (a ++ body ++ z) -> header_type type = true ->
  zlen body <= PACKET_MAX_BYTE -> mask_ok p ->
  exists b, pack_one little rng data type (zlen a) (zlen body) isEnd continued p = Ok (Some b, masked_once p)
  /\ view b (wire_frame isEnd (use_mask_ p) (frame_op type continued) (mask_ (masked_once p)) body).
Proof.
  intros Hd Ht Hn Hm. pose proof (zlen_nonneg body). unfold pack_one.
  destruct (calc_head_size_some (zlen body) (use_mask_ p)) as (k & -> & Hk); [lia|].
  destruct (pack_header_view (with_capacity (zlen body + k)) [] type (zlen body) isEnd continued p) as (b & -> & Hb);
    [apply view_new; lia|done|lia|done|]. mstep. destruct (masked_once_ok p Hm) as [Hm' Hu].
  destruct (pack_frame_view data a body z b _ (masked_once p) Hd Hb Hm') as (b' & -> & Hb'); [unfold PACKET_MAX_BYTE in *; lia|].
  mstep. exists b'. split; [done|]. by rewrite Hu in Hb'.
Qed.

(** * Messages of several frames *)
(** The payloads of [n] frames. *)
Fixpoint pieces (n : nat) (r : bytes) : list bytes :=
  match n with
  | O => []
  | 1%nat => [r]
  | S n => take (Z.to_nat PACKET_MAX_BYTE) r :: pieces n (drop (Z.to_nat PACKET_MAX_BYTE) r)
  end.

(** The bytes of the frames, each with its key. *)
Fixpoint wire_frames (masked : bool) (type : Z) (continued : bool) (keys ps : list bytes) : bytes :=
  match keys, ps with
  | key :: keys, p :: ps =>
      wire_frame (bool_decide (ps = [])) masked (frame_op type continued) key p ++ wire_frames masked type true keys ps
  | _, _ => []
  end.

(** The frames apart. *)
Fixpoint wire_pieces (masked : bool) (type : Z) (continued : bool) (keys ps : list bytes) : list bytes :=
  match keys, ps with
  | key :: keys, p :: ps =>
      wire_frame (bool_decide (ps = [])) masked (frame_op type continued) key p :: wire_pieces masked type true keys ps
  | _, _ => []
  end.
Lemma concat_wire_pieces masked type keys ps : forall continued,
  concat (wire_pieces masked type continued keys ps) = wire_frames masked type continued keys ps.
Proof. revert ps. induction keys as [|key keys IH]; intros [|p ps] continued; try done. cbn. by rewrite IH. Qed.

Lemma pieces_ne n r : pieces (S n) r <> [].
Proof. by destruct n. Qed.
Lemma concat_pieces n r : concat (pieces (S n) r) = r.
Proof.
  revert r. induction n as [|n IH]; intros r; [apply app_nil_r|]. change (pieces (S (S n)) r) with
    (take (Z.to_nat PACKET_MAX_BYTE) r :: pieces (S n) (drop (Z.to_nat PACKET_MAX_BYTE) r)).
  cbn [concat]. by rewrite IH, take_drop.
Qed.

Lemma pack_loop_S n data type i sz offset p output : pack_loop little rng (S n) data type i sz offset p output
  = (let remain := ByteBuffer.readable_bytes data - offset in
     let buffSize := if PACKET_MAX_BYTE <? remain then PACKET_MAX_BYTE else u32 remain in
     '(buff, p) ← pack_one little rng data type offset buffSize (sz <=? u32 (i + 1)) (0 <? i) p;
     match buff with
     | None => Ok (false, p, output)
     | Some buff => pack_loop little rng n data type (i + 1) sz (offset + buffSize) p (output ++ [buff])
     end).
Proof. done. Qed.

Lemma pack_loop_view n data type i sz a r p output : view data (a ++ r) -> header_type type = true -> mask_ok p ->
  0 <= i -> sz = i + Z.of_nat (S n) -> sz < 4294967296 -> zlen r / PACKET_MAX_BYTE + 1 = Z.of_nat (S n) ->
  exists p' bufs cs keys, pack_loop little rng (S n) data type i sz (zlen a) p output = Ok (true, p', output ++ bufs)
  /\ mask_ok p' /\ use_mask_ p' = use_mask_ p /\ reads_as p p'
  /\ Forall2 view bufs cs /\ length keys = S n /\ Forall key_ok keys
  /\ cs = wire_pieces (use_mask_ p) type (0 <? i) keys (pieces (S n) r)
  /\ Forall (fun q => zlen q <= PACKET_MAX_BYTE) (pieces (S n) r).
Proof.
  unfold PACKET_MAX_BYTE. revert i a r p output. induction n as [|n IH]; intros i a r p output Hd Ht Hm Hi Hsz Hlt Hr.
  - assert (zlen r < 1048576) by (Z.to_euclidean_division_equations; lia). pose proof (zlen_nonneg r).
    rewrite pack_loop_S, (view_readable _ _ Hd), zlen_app. cbv zeta. replace (zlen a + zlen r - zlen a) with (zlen r) by lia.
    unfold PACKET_MAX_BYTE. case_if; [lia|]. rewrite u32_id by (unfold is_u32; lia).
    rewrite <- (app_nil_r r) in Hd.
    destruct (pack_one_view data a r [] type (sz <=? u32 (i + 1)) (0 <? i) p Hd Ht) as (b & -> & Hb);
      [unfold PACKET_MAX_BYTE; lia|done|]. mstep. destruct (masked_once_ok p Hm) as [Hm' Hu].
    eexists (masked_once p), [b], [_], [_]. split; [done|]. split; [done|]. split; [done|]. split; [apply masked_once_reads|].
    split; [constructor; [exact Hb|constructor]|]. split; [done|]. split; [constructor; [exact Hm'|constructor]|].
    split; [|cbn; constructor; [lia|constructor]]. cbn [wire_pieces pieces].
    rewrite u32_id by (unfold is_u32; lia). rewrite bool_decide_true by done. f_equal.
    assert ((sz <=? i + 1) = true) as -> by lia. done.
  - assert (1048576 <= zlen r) by (Z.to_euclidean_division_equations; lia).
    set (q := take (Z.to_nat 1048576) r). set (r' := drop (Z.to_nat 1048576) r).
    assert (r = q ++ r') as Er by (unfold q, r'; by rewrite take_drop). assert (zlen q = 1048576) as Hq.
    { unfold q, zlen in *. rewrite length_take. lia. }
    rewrite pack_loop_S, (view_readable _ _ Hd), zlen_app. cbv zeta. replace (zlen a + zlen r - zlen a) with (zlen r) by lia.
    unfold PACKET_MAX_BYTE. assert ((if 1048576 <? zlen r then 1048576 else u32 (zlen r)) = zlen q) as ->.
    { rewrite Hq. case_if; [done|]. rewrite u32_id; [lia|]. unfold is_u32. lia. }
    rewrite Er in Hd.
    destruct (pack_one_view data a q r' type (sz <=? u32 (i + 1)) (0 <? i) p Hd Ht) as (b & -> & Hb);
      [unfold PACKET_MAX_BYTE; lia|done|]. mstep. destruct (masked_once_ok p Hm) as [Hm' Hu].
    rewrite <- zlen_app. rewrite app_assoc in Hd.
    destruct (IH (i + 1) (a ++ q) r' (masked_once p) (output ++ [b]) Hd Ht Hm') as (p' & bufs & cs & keys & E & Hm2 & Hu2 & Hr2 & Hv & Hk & Hko & Hc & Hp);
      [lia|lia|lia| |].
    { rewrite Er, zlen_app, Hq in Hr. replace (1048576 + zlen r') with (zlen r' + 1 * 1048576) in Hr by lia.
      rewrite Z.div_add in Hr by lia. lia. }
    eexists p', (b :: bufs), (_ :: cs), (_ :: keys). split; [rewrite E; by rewrite <- app_assoc|]. split; [done|].
    split; [congruence|]. split; [exact (reads_as_trans _ _ _ (masked_once_reads p) Hr2)|]. split; [constructor; [exact Hb|done]|]. split; [cbn; by rewrite Hk|].
    split; [constructor; [exact Hm'|done]|].
    change (pieces (S (S n)) r) with (q :: pieces (S n) r').
    split; [|constructor; [lia|done]]. cbn [wire_pieces]. rewrite Hc, Hu.
    rewrite bool_decide_false by apply pieces_ne. rewrite u32_id by (unfold is_u32; lia).
    assert ((sz <=? i + 1) = false) as -> by lia. assert ((0 <? i + 1) = true) as -> by lia. done.
Qed.
(** The number of frames of a message. *)
Definition frame_count (c : bytes) : nat := Z.to_nat (zlen c / PACKET_MAX_BYTE + 1).

Lemma frame_count_S c : exists n, frame_count c = S n /\ zlen c / PACKET_MAX_BYTE + 1 = Z.of_nat (S n).
Proof.
  pose proof (zlen_nonneg c). assert (0 <= zlen c / PACKET_MAX_BYTE) by (apply Z.div_pos; unfold PACKET_MAX_BYTE; lia).
  exists (Z.to_nat (zlen c / PACKET_MAX_BYTE)). unfold frame_count. lia.
Qed.
Lemma pieces_count_ne c : pieces (frame_count c) c <> [].
Proof. destruct (frame_count_S c) as (n & -> & _). apply pieces_ne. Qed.
Lemma concat_pieces_count c : concat (pieces (frame_count c) c) = c.
Proof. destruct (frame_count_S c) as (n & -> & _). apply concat_pieces. Qed.
Lemma length_pieces n r : length (pieces n r) = n.
Proof. revert r. induction n as [|[|n] IH]; intros r; [done..|]. change (S (length (pieces (S n) (drop (Z.to_nat PACKET_MAX_BYTE) r))) = S (S n)). by rewrite IH. Qed.
Lemma pieces_count_one {A} c (x y : A) :
  (if bool_decide (length (pieces (frame_count c) c) = 1%nat) then x else y) = (if zlen c <? PACKET_MAX_BYTE then x else y).
Proof.
  rewrite length_pieces. pose proof (zlen_nonneg c). unfold frame_count, PACKET_MAX_BYTE. case_bool_decide as H1; case_if; try done.
  - assert (1 <= zlen c / 1048576) by (apply Z.div_le_lower_bound; lia). lia.
  - rewrite Z.div_small in H1 by lia. done.
Qed.

Lemma pack_view data type c p : view data c -> type = type_text_frame \/ type = type_binary_frame -> mask_ok p ->
  zlen c < 4294967296 ->
  exists p' bufs cs keys, pack little rng data type p [] = Ok (true, p', bufs) /\ Forall2 view bufs cs
  /\ mask_ok p' /\ use_mask_ p' = use_mask_ p /\ reads_as p p'
  /\ length keys = length (pieces (frame_count c) c) /\ Forall key_ok keys
  /\ cs = wire_pieces (use_mask_ p) type false keys (pieces (frame_count c) c)
  /\ Forall (fun q => zlen q <= PACKET_MAX_BYTE) (pieces (frame_count c) c).
Proof.
  intros Hd Ht Hm Hlt. destruct (frame_count_S c) as (n & Hn & Hz). unfold pack. cbv zeta. rewrite (view_readable _ _ Hd).
  assert (Z.of_nat (S n) < 4294967296) as Hb.
  { rewrite <- Hz. pose proof (Z.div_lt_upper_bound (zlen c) PACKET_MAX_BYTE 4096). unfold PACKET_MAX_BYTE in *. lia. }
  rewrite Hz, u32_id, Nat2Z.id by (unfold is_u32; lia). rewrite length_pieces, Hn.
  destruct (pack_loop_view n data type 0 (Z.of_nat (S n)) [] c p []) as (p' & bufs & cs & keys & E & Hm' & Hu & Hr & Hv & Hk & Hko & Hc & Hp);
    [done|by destruct Ht as [-> | ->]|done|lia|lia|lia|done|].
  by exists p', bufs, cs, keys.
Qed.

(** * Control frames *)
Definition control_type (type : Z) : Prop := type = type_close_frame \/ type = type_ping_frame \/ type = type_pong_frame.

Lemma pack_control_view data c type p output : view data c -> control_type type -> zlen c <= 125 -> mask_ok p ->
  exists b, pack_control little rng data type p output = Ok (true, masked_once p, output ++ [b])
  /\ view b (wire_frame true (use_mask_ p) type (mask_ (masked_once p)) c).
Proof.
  intros Hd Ht Hn Hm. pose proof (zlen_nonneg c). unfold pack_control. rewrite (view_readable _ _ Hd).
  assert ((type =? type_close_frame) || (type =? type_ping_frame) || (type =? type_pong_frame) = true /\ header_type type = true)
    as [-> Hh] by by destruct Ht as [-> |[-> | ->]].
  cbn [negb]. rewrite u32_id by (unfold is_u32; lia). cbv zeta. case_if; [lia|].
  destruct (calc_head_size_some (zlen c) (use_mask_ p)) as (k & -> & Hk); [unfold PACKET_MAX_BYTE; lia|].
  destruct (pack_header_view (with_capacity (zlen c + k)) [] type (zlen c) true false p) as (b & -> & Hb);
    [apply view_new; lia|done|unfold PACKET_MAX_BYTE; lia|done|]. mstep. destruct (masked_once_ok p Hm) as [Hm' Hu].
  destruct (0 <? zlen c) eqn:E0.
  - rewrite <- (app_nil_r c) in Hd. destruct (pack_frame_view data [] c [] b _ (masked_once p) Hd Hb Hm') as (b' & E & Hb'); [lia|].
    change (zlen []) with 0 in E. rewrite E. mstep. exists b'. split; [done|]. by rewrite Hu in Hb'.
  - mstep. assert (c = []) as -> by (destruct c; [done|rewrite zlen_cons in E0; pose proof (zlen_nonneg c); lia]).
    exists b. split; [done|]. unfold wire_frame, masked_body. change (zlen []) with 0 in *. destruct (use_mask_ p); by rewrite app_nil_r.
Qed.

Lemma pack_control_large data c type p output : view data c -> 125 < zlen c < 4294967296 ->
  pack_control little rng data type p output = Ok (false, p, output).
Proof.
  intros Hd Hn. unfold pack_control. case_if; [done|]. rewrite (view_readable _ _ Hd), u32_id by (unfold is_u32; lia).
  cbv zeta. case_if; [done|lia].
Qed.
End Writing.

(** * Reading back *)
Section Exchange.
Variables (conn : limits) (masked : bool) (type : Z).
Hypothesis (Hmode : masked = bool_decide (mode_ conn = server_)).
Hypothesis (Htype : type = type_text_frame \/ type = type_binary_frame).

Lemma data_op continued : opcode_ok (frame_op type continued).
Proof. unfold frame_op, opcode_ok. destruct continued, Htype as [-> | ->]; unfold type_text_frame, type_binary_frame; lia. Qed.

(** The text of a text message is UTF-8. *)
Definition text_ok (d : bytes) : Prop := type = type_text_frame -> utf8 d = true.

Lemma finish_ok open (h : ProtoHead) d : opcode_ h = type -> text_ok d -> finish open (h, d) = (true, open, [(h, d)]).
Proof.
  unfold finish, text_ok, is_text_frame. cbn [fst snd]. intros -> Ht. destruct Htype as [E|E]; rewrite E in *; [|done].
  by rewrite (Ht eq_refl).
Qed.

(** A frame that continues the open message [(h0, d0)]. *)
Lemma accept_continuation (fin : bool) key p h0 d0 :
  extend_pay_load_len_ h0 + zlen p <= max_fragmented_message_size conn ->
  accept conn (Some (h0, d0)) (packed_head fin masked 0 key (zlen p)) (masked_body masked key p)
  = let m := (set_fin (if fin then 1 else 0) (set_extend_pay_load_len (extend_pay_load_len_ h0 + zlen p) h0), d0 ++ p) in
    if fin then finish None m else (true, Some m, []).
Proof.
  intros Hn. unfold accept.
  assert (frame_ok conn (bool_decide (is_Some (Some (h0, d0)))) (packed_head fin masked 0 key (zlen p)) = true) as ->.
  { rewrite bool_decide_true by by eexists. unfold frame_ok, need_mask. cbn [WsProtocol.mask_ packed_head].
    rewrite <- Hmode. by destruct fin, masked. }
  cbn [negb]. rewrite unmasked_packed. change (is_control_frame (packed_head _ _ 0 _ _)) with false.
  change (is_continue_frame (packed_head _ _ 0 _ _)) with true. cbn iota. cbv zeta.
  cbn [extend_pay_load_len_ packed_head fin_]. case_if; [lia|]. by destruct fin.
Qed.

(** A frame that starts a message. *)
Lemma accept_first (fin : bool) key p : zlen p <= (if fin then max_message_size conn else max_fragmented_message_size conn) ->
  accept conn None (packed_head fin masked type key (zlen p)) (masked_body masked key p)
  = if fin then finish None (packed_head true masked type key (zlen p), p)
    else (true, Some (packed_head false masked type key (zlen p), p), []).
Proof.
  intros Hn. unfold accept.
  assert (frame_ok conn (bool_decide (is_Some (None : option message))) (packed_head fin masked type key (zlen p)) = true) as ->.
  { rewrite bool_decide_false by by intros []. unfold frame_ok, need_mask. cbn [WsProtocol.mask_ packed_head extend_pay_load_len_].
    rewrite <- Hmode. destruct Htype as [-> | ->]; destruct fin, masked; cbn -[Z.leb]; rewrite ?andb_true_r; first [apply Z.leb_le; exact Hn|reflexivity]. }
  cbn [negb]. rewrite unmasked_packed.
  assert (is_control_frame (packed_head fin masked type key (zlen p)) = false
    /\ is_continue_frame (packed_head fin masked type key (zlen p)) = false) as [-> ->] by by destruct Htype as [-> | ->].
  by destruct fin.
Qed.

Lemma decode_continuations keys ps h0 d0 : opcode_ h0 = type -> length keys = length ps -> ps <> [] -> Forall key_ok keys ->
  Forall (fun q => zlen q <= PACKET_MAX_BYTE) ps ->
  extend_pay_load_len_ h0 + zlen (concat ps) <= max_fragmented_message_size conn -> text_ok (d0 ++ concat ps) ->
  decode_stream conn (wire_frames masked type true keys ps) (Some (h0, d0))
  = (true, [], None, [(set_fin 1 (set_extend_pay_load_len (extend_pay_load_len_ h0 + zlen (concat ps)) h0), d0 ++ concat ps)]).
Proof.
  intros Ho Hl Hne Hk Hp. revert keys h0 d0 Ho Hl Hk. induction Hp as [|p ps Hp Hps IH]; [done|].
  intros [|key keys] h0 d0 Ho Hl Hk Hn Ht; [done|]. apply Forall_cons in Hk as [Hkey Hk]. cbn [wire_frames concat] in *.
  rewrite zlen_app in Hn |- *. pose proof (zlen_nonneg (concat ps)).
  rewrite decode_stream_unfold, parse_frame_packed by (done || apply (data_op true)).
  change (frame_op type true) with 0. rewrite accept_continuation by lia. cbv zeta. destruct (bool_decide_reflect (ps = [])) as [Hnil|Hnil].
  - subst ps. cbn [concat] in *. rewrite app_nil_r in *. change (zlen []) with 0 in *. rewrite Z.add_0_r in *.
    destruct keys; [|done]. rewrite finish_ok by done. done.
  - set (m := set_fin _ _). assert (length keys = length ps) as Hl' by (cbn in Hl; lia). specialize (IH Hnil keys m (d0 ++ p) Ho Hl' Hk).
    rewrite IH; [|cbn; lia|by rewrite <- app_assoc]. cbn [app]. rewrite <- app_assoc.
    unfold m, set_fin, set_extend_pay_load_len. cbn. by rewrite Z.add_assoc.
Qed.


Lemma decode_message keys ps : length keys = length ps -> ps <> [] -> Forall key_ok keys ->
  Forall (fun q => zlen q <= PACKET_MAX_BYTE) ps ->
  zlen (concat ps) <= (if bool_decide (length ps = 1%nat) then max_message_size conn else max_fragmented_message_size conn) ->
  text_ok (concat ps) ->
  exists h, decode_stream conn (wire_frames masked type false keys ps) None = (true, [], None, [(h, concat ps)])
  /\ opcode_ h = type /\ fin_ h = 1 /\ extend_pay_load_len_ h = zlen (concat ps).
Proof.
  intros Hl Hne Hk Hp Hn Ht. destruct ps as [|p ps]; [done|]. destruct keys as [|key keys]; [done|].
  apply Forall_cons in Hk as [Hkey Hk]. apply Forall_cons in Hp as [Hp Hps]. cbn [wire_frames concat] in *.
  pose proof (zlen_nonneg (concat ps)). rewrite zlen_app in Hn.
  rewrite decode_stream_unfold, parse_frame_packed by (done || apply (data_op false)). change (frame_op type false) with type.
  destruct (bool_decide_reflect (ps = [])) as [Hnil|Hnil].
  - subst ps. cbn [concat] in *. rewrite app_nil_r in *. change (bool_decide (length [p] = 1%nat)) with true in Hn. cbn iota in Hn.
    change (zlen []) with 0 in Hn. rewrite accept_first by lia. rewrite finish_ok by done. destruct keys; [|done].
    eexists. split; [done|]. done.
  - rewrite bool_decide_false in Hn by (destruct ps; [done|by cbn]). rewrite accept_first by lia. cbv zeta.
    assert (length keys = length ps) as Hl' by (cbn in Hl; lia).
    rewrite decode_continuations by (done || (cbn; lia)). eexists. split; [done|]. cbn. by rewrite zlen_app.
Qed.
End Exchange.
Import ByteBuffer WsProtocol WsParser.

(** * Chunks *)
(** The chunks of a stream handed to the parser one after the other, as a connection
    hands it what it reads, until the parser refuses the stream. *)
Fixpoint feed (little : bool) (conn : limits) (chunks : list bytes) (p : t) (input : list ProtoChunk)
  : outcome (bool * t * list ProtoChunk) :=
  match chunks with
  | [] => Ok (true, p, input)
  | c :: chunks =>
      data ← ByteBuffer.of_span c;
      '(ok, p, input) ← WsParser.unpack_from little conn data p input;
      if (ok : bool) then feed little conn chunks p input else Ok (false, p, input)
  end.

Section Feed.
Variable little : bool.
Variable conn : limits.
Hypothesis Hconn : limits_ok conn.

Definition chunk_ok (c : bytes) : Prop := Forall is_u8 c /\ zlen c < 9223372036854775808.

Lemma feed_ref chunks p l open input : parser_ok conn p l open -> parse_frame l = NoFrame -> Forall is_u8 l ->
  Forall chunk_ok chunks ->
  let '(ok, rest, open', out) := decode_stream conn (l ++ concat chunks) open in
  exists p' delivered, feed little conn chunks p input = Ok (ok, p', input ++ delivered)
  /\ Forall2 chunk_is delivered out /\ (ok = true -> parser_ok conn p' rest open' /\ Forall is_u8 rest).
Proof.
  intros Hp Hno Hu Hc. revert p l open input Hp Hno Hu.
  induction Hc as [|c chunks [Hcu Hcl] Hc IH]; intros p l open input Hp Hno Hu; cbn [concat feed].
  { rewrite app_nil_r, decode_stream_unfold, Hno. exists p, []. rewrite app_nil_r. split; [done|]. split; [constructor|done]. }
  destruct (of_span_view c) as (data & -> & Hd). mstep. pose proof (no_frame_small l Hu Hno) as Hl.
  pose proof (unpack_from_ref little conn Hconn p l open data c input Hp Hno Hu Hd Hcu) as Hr.
  unfold unpacks in Hr. rewrite app_assoc. pose proof (decode_stream_app conn (concat chunks) (l ++ c) open) as Ha.
  destruct (decode_stream conn (l ++ c) open) as [[[[] rest] open1] out1] eqn:E.
  - destruct Hr as (p1 & d1 & -> & Hf1 & Hok1); [rewrite zlen_app; unfold PACKET_MAX_BYTE in *; lia|]. mstep.
    destruct (Hok1 eq_refl) as [Hp1 Hu1]. apply decode_stream_rest in E. specialize (IH p1 rest open1 (input ++ d1) Hp1 E Hu1).
    rewrite Ha. destruct (decode_stream conn (rest ++ concat chunks) open1) as [[[ok r] open2] out2].
    destruct IH as (p' & d2 & -> & Hf2 & Hok2). exists p', (d1 ++ d2). rewrite app_assoc. split; [done|].
    split; [by apply Forall2_app|done].
  - destruct Hr as (p1 & d1 & -> & Hf1 & _); [rewrite zlen_app; unfold PACKET_MAX_BYTE in *; lia|]. mstep.
    destruct Ha as (rest' & ->). by exists p1, d1.
Qed.

(** A new parser. *)
Lemma init_ok mask : parser_ok conn (init mask) [] None.
Proof. split; [left; split; [apply fresh_empty|apply view_default]|done|done]. Qed.

Lemma feed_init mask chunks : Forall chunk_ok chunks ->
  let '(ok, rest, open, out) := decode_stream conn (concat chunks) None in
  exists p' delivered, feed little conn chunks (init mask) [] = Ok (ok, p', delivered)
  /\ Forall2 chunk_is delivered out /\ (ok = true -> parser_ok conn p' rest open /\ Forall is_u8 rest).
Proof. intros Hc. exact (feed_ref chunks (init mask) [] None [] (init_ok mask) eq_refl (Forall_nil_2 _) Hc). Qed.
End Feed.

(** * The rules of delivered messages *)
Section Rules.
Variable conn : limits.

(** What the server role wants masked, and the client role unmasked. *)
Definition mask_agrees (h : ProtoHead) : Prop := need_mask h = bool_decide (mode_ conn = server_).

(** A message as it is delivered: final, without reserved bits, masked as the role wants;
    a control message of at most 125 bytes, a close message with a code that may be sent;
    a data message within the limits, a text message of UTF-8. *)
Record message_rules (m : message) : Prop := {
  mr_fin : is_fin m.1 = true;
  mr_rsv : has_rsv m.1 = false;
  mr_mask : mask_agrees m.1;
  mr_kind : WsParser.is_control_frame m.1 = true \/ is_text_frame m.1 = true \/ is_binary_frame m.1 = true;
  mr_length : zlen m.2 = extend_pay_load_len_ m.1;
  mr_control : WsParser.is_control_frame m.1 = true -> zlen m.2 <= 125;
  mr_data : WsParser.is_control_frame m.1 = false -> zlen m.2 <= Z.max (max_message_size conn) (max_fragmented_message_size conn);
  mr_text : is_text_frame m.1 = true -> utf8 m.2 = true;
  mr_close : is_close_frame m.1 = true -> close_ok m.2 = true
}.

(** The message that is open. *)
Record open_rules (m : message) : Prop := {
  or_rsv : has_rsv m.1 = false;
  or_mask : mask_agrees m.1;
  or_kind : is_text_frame m.1 = true \/ is_binary_frame m.1 = true;
  or_length : zlen m.2 = extend_pay_load_len_ m.1;
  or_max : zlen m.2 <= max_fragmented_message_size conn
}.
Definition open_keeps (open : option message) : Prop := from_option open_rules True open.

Lemma data_not_control h : is_text_frame h = true \/ is_binary_frame h = true ->
  WsParser.is_control_frame h = false /\ is_close_frame h = false /\ is_continue_frame h = false.
Proof.
  unfold is_text_frame, is_binary_frame, WsParser.is_control_frame, is_close_frame, is_continue_frame, opcode.
  unfold type_text_frame, type_binary_frame, type_close_frame, type_ping_frame, type_pong_frame, type_continue_frame. lia.
Qed.

Lemma control_kinds h : WsParser.is_control_frame h = true -> is_text_frame h = false.
Proof.
  unfold is_text_frame, WsParser.is_control_frame, opcode, type_text_frame, type_close_frame, type_ping_frame, type_pong_frame. lia.
Qed.

Lemma data_kinds h : WsParser.is_data_frame h || false = true ->
  is_continue_frame h = false -> is_text_frame h = true \/ is_binary_frame h = true.
Proof.
  unfold WsParser.is_data_frame, is_text_frame, is_binary_frame, is_continue_frame, opcode. lia.
Qed.

(** The rules that the frame check imposes. *)
Lemma frame_ok_rules open h : frame_ok conn open h = true ->
  has_rsv h = false /\ mask_agrees h /\ WsParser.is_data_frame h || WsParser.is_control_frame h = true
  /\ (WsParser.is_control_frame h = true -> is_fin h = true /\ extend_pay_load_len_ h <= 125)
  /\ (is_continue_frame h = false -> is_fin h = true -> extend_pay_load_len_ h <= max_message_size conn)
  /\ (is_continue_frame h = false -> is_fin h = false -> extend_pay_load_len_ h <= max_fragmented_message_size conn).
Proof.
  unfold frame_ok, mask_agrees. intros H. repeat (apply andb_true_iff in H as [H ?]).
  apply negb_true_iff in H. split; [done|]. split; [by apply eqb_prop|]. split; [done|].
  split; [|split].
  - intros Hc. rewrite Hc in *. cbn [implb] in *. repeat match goal with G : _ && _ = true |- _ => apply andb_true_iff in G as [? ?] end.
    split; [done|by apply Z.leb_le].
  - intros Hc Hf. rewrite Hc, Hf in *. cbn [implb negb andb] in *. by apply Z.leb_le.
  - intros Hc Hf. rewrite Hc, Hf in *. cbn [implb negb andb] in *. by apply Z.leb_le.
Qed.

Lemma finish_rules open m open' out ok : open_keeps open -> (is_text_frame m.1 = true \/ is_binary_frame m.1 = true) ->
  (is_text_frame m.1 = true -> utf8 m.2 = true -> message_rules m) -> (is_text_frame m.1 = false -> message_rules m) ->
  finish open m = (ok, open', out) -> Forall message_rules out /\ open_keeps open'.
Proof.
  intros Ho Hk Ht Hb. unfold finish. destruct (is_text_frame m.1), (utf8 m.2); cbn [andb negb]; intros [= <- <- <-];
    (split; [|done]); first [by constructor|apply Forall_singleton; auto].
Qed.

Lemma control_rules h d : is_fin h = true -> has_rsv h = false -> mask_agrees h -> WsParser.is_control_frame h = true ->
  zlen d = extend_pay_load_len_ h -> extend_pay_load_len_ h <= 125 -> (is_close_frame h = true -> close_ok d = true) ->
  message_rules (h, d).
Proof.
  intros Hf Hr Hm Hc Hl Hn Hcl. constructor; cbn [fst snd]; [done|done|done|by left|done|lia|congruence| |done].
  rewrite (control_kinds _ Hc). done.
Qed.

Lemma data_rules h d : is_fin h = true -> has_rsv h = false -> mask_agrees h -> is_text_frame h = true \/ is_binary_frame h = true ->
  zlen d = extend_pay_load_len_ h -> zlen d <= Z.max (max_message_size conn) (max_fragmented_message_size conn) ->
  (is_text_frame h = true -> utf8 d = true) -> message_rules (h, d).
Proof.
  intros Hf Hr Hm Hk Hl Hn Ht. destruct (data_not_control _ Hk) as (Hc & Hcl & _).
  constructor; cbn [fst snd]; [done|done|done|by right|done|congruence|done|done|congruence].
Qed.

Lemma accept_rules open h body ok open' out : whole_frame h body -> open_keeps open ->
  accept conn open h body = (ok, open', out) -> Forall message_rules out /\ open_keeps open'.
Proof.
  intros Hw Ho. unfold accept. destruct (frame_ok conn _ h) eqn:Hf; cbn [negb]; [|intros [= <- <- <-]; split; [constructor|done]].
  apply frame_ok_rules in Hf as (Hrsv & Hmask & Hkind & Hctl & Hmsg & Hfrag).
  assert (zlen (unmasked h body) = extend_pay_load_len_ h) as Hlen.
  { rewrite (wh_length _ _ Hw). unfold unmasked, zlen. case_if; [by rewrite length_xor_key|done]. }
  destruct (WsParser.is_control_frame h) eqn:Ec.
  { destruct (Hctl eq_refl) as [Hfin H125].
    pose proof (control_rules h (unmasked h body) Hfin Hrsv Hmask Ec Hlen H125) as Hr.
    destruct (is_close_frame h), (close_ok (unmasked h body)); cbn [andb negb]; intros [= <- <- <-];
      (split; [|done]); first [by constructor|apply Forall_singleton; apply Hr; congruence]. }
  destruct (is_continue_frame h) eqn:Ek.
  { destruct open as [[h0 d0]|]; [|intros [= <- <- <-]; split; [constructor|done]].
    destruct Ho as [Hr0 Hm0 Hk0 Hl0 Hx0]. cbn [fst snd] in *.
    case_if; [intros [= <- <- <-]; split; [constructor|done]|].
    destruct (data_not_control _ Hk0) as (Hc0 & Hcl0 & _).
    assert (zlen (d0 ++ unmasked h body) = extend_pay_load_len_ h0 + extend_pay_load_len_ h) as Hz by (by rewrite zlen_app, Hl0, Hlen).
    assert (zlen (d0 ++ unmasked h body) <= max_fragmented_message_size conn) as Hmax by (rewrite Hz; by apply Z.ltb_ge).
    destruct (is_fin h) eqn:Efin.
    - pose proof (Z.le_trans _ _ _ Hmax (Z.le_max_r (max_message_size conn) _)) as Hmax'.
      apply finish_rules; [done|exact Hk0| |]; cbn [fst snd]; intros; (apply data_rules; [done|done|done|exact Hk0|done|exact Hmax'|]);
        [done|congruence].
    - intros [= <- <- <-]. split; [constructor|]. constructor; cbn [fst snd]; [done|done|exact Hk0|done|exact Hmax]. }
  specialize (Hmsg eq_refl). specialize (Hfrag eq_refl). pose proof (data_kinds h Hkind Ek) as Hd.
  destruct (is_fin h) eqn:Efin.
  - specialize (Hmsg eq_refl). rewrite <- Hlen in Hmsg. pose proof (Z.le_trans _ _ _ Hmsg (Z.le_max_l _ (max_fragmented_message_size conn))) as Hmax.
    apply finish_rules; [done|exact Hd| |]; cbn [fst snd]; intros;
      (apply data_rules; [done|done|done|exact Hd|done|exact Hmax|]); [done|congruence].
  - specialize (Hfrag eq_refl). rewrite <- Hlen in Hfrag. intros [= <- <- <-]. split; [constructor|].
    constructor; cbn [fst snd]; [done|done|exact Hd|done|exact Hfrag].
Qed.

Lemma decode_stream_rules l open ok rest open' out : Forall is_u8 l -> open_keeps open ->
  decode_stream conn l open = (ok, rest, open', out) -> Forall message_rules out /\ open_keeps open'.
Proof.
  remember (length l) as n eqn:Hn. revert l open ok rest open' out Hn. induction n as [n IH] using lt_wf_ind.
  intros l open ok rest open' out -> Hu Ho. rewrite decode_stream_unfold.
  destruct (parse_frame l) as [| |h body r] eqn:E; [intros [= <- <- <- <-]; by split; [constructor|]..|].
  pose proof (parse_frame_shorter _ _ _ _ E) as Hs. destruct (parse_frame_whole _ _ _ _ Hu E) as [Hw Hur].
  destruct (accept conn open h body) as [[ok1 open1] out1] eqn:Ea.
  destruct (accept_rules _ _ _ _ _ _ Hw Ho Ea) as [H1 H2]. destruct ok1; [|intros [= <- <- <- <-]; done].
  destruct (decode_stream conn r open1) as [[[ok2 r2] open2] out2] eqn:Er. intros [= <- <- <- <-].
  destruct (IH _ Hs r open1 _ _ _ _ eq_refl Hur H2 Er) as [H3 H4]. split; [by apply Forall_app|done].
Qed.
End Rules.
