(* ===== verification/WsHandshake.v ===== *)
(** The opening handshake of WebSocket: [protocol/websocket/common/handshake.cpp], the key
    of the server ([websocket_utils.cpp]) and what the configuration answers
    ([websocket_config.cpp]). SHA-1 is OpenSSL's: the parameter [sha1]. The headers of an
    HTTP packet are a map from lower-case names, as its hash map compares them. *)
From stdpp Require Import gmap.
From S2P Require Import Prelude Containers Strings Utf8 WsProtocol.
Import WsProtocol.

Module WsHandshake.

(** * HTTP packets, as the handshake sees them *)
Abbreviation HttpHeaderMap := (gmap bytes bytes).
Definition get_header (key : bytes) (h : HttpHeaderMap) : option bytes :=
  if bool_decide (key = []) then None else h !! StringUtil.lower_ascii key.
Definition add_header (k v : bytes) (h : HttpHeaderMap) : HttpHeaderMap := <[StringUtil.lower_ascii k := v]> h.

Record HttpRequest : Type := mkRequest { is_get : bool; is_v_1_1 : bool; req_headers : HttpHeaderMap }.
(** [is_ok()] says that the response has been parsed. *)
Record HttpResponse : Type := mkResponse { resp_is_ok : bool; switch_protocol : bool; resp_headers : HttpHeaderMap }.
Definition resp_add_header (k v : bytes) (r : HttpResponse) : HttpResponse :=
  mkResponse (resp_is_ok r) (switch_protocol r) (add_header k v (resp_headers r)).

(** * Sets of strings *)
(** [std::set<std::string>] is sorted by the bytes. *)
Fixpoint set_insert (x : bytes) (l : list bytes) : list bytes :=
  match l with
  | [] => [x]
  | y :: l => match bytes_cmp x y with Eq => y :: l | Lt => x :: y :: l | Gt => y :: set_insert x l end
  end.

(** * The configuration *)
Record Config : Type := mkConfig {
  client_subprotos_ : list bytes;
  server_subprotos_ : list bytes;
  allowed_origins_ : list bytes;
  origin_validator_ : option (bytes -> bool);
  auth_validator_ : option (HttpRequest -> bool);
  client_key_config : bytes
}.

Fixpoint find_server_support_sub_protocol (clientProtos : list bytes) (g : Config) : option bytes :=
  match clientProtos with
  | [] => None
  | proto :: protos =>
      if bool_decide (proto ∈ server_subprotos_ g) then Some proto else find_server_support_sub_protocol protos g
  end.

Definition is_origin_allowed (origin : bytes) (g : Config) : bool :=
  if bool_decide (origin = []) then true
  else match origin_validator_ g with
       | Some validator => validator origin
       | None =>
           if bool_decide (allowed_origins_ g = []) then true
           else bool_decide (str "*" ∈ allowed_origins_ g) || bool_decide (origin ∈ allowed_origins_ g)
       end.
Definition is_request_authorized (req : HttpRequest) (g : Config) : bool :=
  match auth_validator_ g with None => true | Some validator => validator req end.

(** * Text *)
(** [strcasecmp(a.c_str(), b.c_str()) == 0] *)
Fixpoint strcasecmp_eq (a b : bytes) : bool :=
  match a, b with
  | [], [] => true
  | [], y :: _ => y =? 0
  | x :: _, [] => x =? 0
  | x :: a, y :: b =>
      if StringUtil.lower_ascii_char x =? StringUtil.lower_ascii_char y
      then if x =? 0 then true else strcasecmp_eq a b else false
  end.
Definition iequals (a b : bytes) : bool := if negb (zlen a =? zlen b) then false else strcasecmp_eq a b.

(** The loop of [header_has_token] and of [decode_into_set]: the words between
    delimiters, trimmed. *)
Fixpoint words_loop (fuel : nat) (raw : bytes) (delimiter : Z) (start : nat) : list bytes :=
  match fuel with
  | O => []
  | S fuel =>
      match find delimiter raw start with
      | None => [StringUtil.trim_ascii (substr_from raw start)]
      | Some last => StringUtil.trim_ascii (substr raw start (last - start)) :: words_loop fuel raw delimiter (S last)
      end
  end.
Definition header_has_token (raw token : bytes) : bool :=
  existsb (fun word => iequals word token) (words_loop (S (length raw)) raw 44 0).
Definition decode_into_set (raw : bytes) (delimiter : Z) : list bytes :=
  if bool_decide (raw = []) then []
  else foldl (fun protos word => if bool_decide (word = []) then protos else set_insert word protos) []
         (words_loop (S (length raw)) raw delimiter 0).
Fixpoint encode_sub_proto (protos : list bytes) : bytes :=
  match protos with
  | [] => []
  | [proto] => proto
  | proto :: protos => proto ++ str ", " ++ encode_sub_proto protos
  end.

Definition isalnum (c : Z) : bool :=
  ((48 <=? c) && (c <=? 57)) || ((65 <=? c) && (c <=? 90)) || ((97 <=? c) && (c <=? 122)).
Fixpoint key_chars (key : bytes) (seen_padding : bool) : bool :=
  match key with
  | [] => true
  | ch :: key =>
      if ch =? 61 then key_chars key true
      else if seen_padding || negb (isalnum ch || (ch =? 43) || (ch =? 47)) then false
      else key_chars key seen_padding
  end.
Definition is_valid_websocket_key (raw : bytes) : bool :=
  let key := StringUtil.trim_ascii raw in
  if bool_decide (key = []) || negb (zlen key mod 4 =? 0) then false
  else if negb (key_chars key false) then false
  else zlen (Base64.base64_decode key) =? 16.

(** * Keys *)
Definition magic_string_ : bytes := str "258EAFA5-E914-47DA-95CA-C5AB0DC85B11".

Section Handshake.
Variable sha1 : bytes -> bytes.

Definition generate_server_key (clientKey : bytes) : bytes := Base64.base64_encode (sha1 (clientKey ++ magic_string_)).

(** [gen_magic_string]: the sixteen bytes of four random numbers. *)
Definition nonce_bytes (value : Z) : bytes :=
  [u8 (Z.land (Z.shiftr value 24) 255); u8 (Z.land (Z.shiftr value 16) 255); u8 (Z.land (Z.shiftr value 8) 255);
   u8 (Z.land value 255)].
Definition gen_magic_string (r0 r1 r2 r3 : Z) : bytes :=
  Base64.base64_encode (nonce_bytes r0 ++ nonce_bytes r1 ++ nonce_bytes r2 ++ nonce_bytes r3).

(** * The handshake *)
Record t : Type := mk {
  ok_ : bool;
  client_key_ : bytes;
  server_key_ : bytes;
  working_subproto_ : bytes;
  client_sub_protos_ : list bytes;
  server_sub_protos_ : list bytes
}.
Definition init : t := mk false [] [] [] [] [].

(** The conditions on the request, in order. *)
Definition request_refused (config_ : option Config) (req : HttpRequest) : bool :=
  if negb (is_get req) || negb (is_v_1_1 req) then true
  else if match get_header (str "connection") (req_headers req) with None => true | Some conn => negb (header_has_token conn (str "Upgrade")) end then true
  else if match get_header (str "upgrade") (req_headers req) with None => true | Some upgrade => negb (iequals upgrade (str "websocket")) end then true
  else if match get_header (str "sec-websocket-version") (req_headers req) with None => true | Some version => negb (str_eqb version (str "13")) end then true
  else if match get_header (str "sec-websocket-key") (req_headers req) with None => true | Some key => negb (is_valid_websocket_key key) end then true
  else if match get_header (str "origin") (req_headers req), config_ with Some origin, Some g => negb (is_origin_allowed origin g) | _, _ => false end then true
  else match config_ with Some g => negb (is_request_authorized req g) | None => false end.

(** [None] as a response is a response that is not sent. *)
Definition do_handshake_server (config_ : option Config) (req : HttpRequest) (resp : HttpResponse) (s : t)
  : bool * t * option HttpResponse :=
  if request_refused config_ req then (false, s, None)
  else
    let key := default [] (get_header (str "sec-websocket-key") (req_headers req)) in
    let client_key := StringUtil.trim_ascii key in
    let server_key := generate_server_key client_key in
    let s := mk (ok_ s) client_key server_key (working_subproto_ s) (client_sub_protos_ s) (server_sub_protos_ s) in
    let '(agreed, s, resp) :=
      match get_header (str "sec-websocket-protocol") (req_headers req) with
      | None => (true, s, resp)
      | Some subProtocol =>
          let protos := decode_into_set subProtocol 44 in
          match (g ← config_; find_server_support_sub_protocol protos g) with
          | Some proto =>
              (true, mk (ok_ s) client_key server_key proto protos (server_sub_protos_ s),
               resp_add_header (str "Sec-WebSocket-Protocol") proto resp)
          | None => (false, mk (ok_ s) client_key server_key (working_subproto_ s) protos (server_sub_protos_ s), resp)
          end
      end in
    if negb agreed then (false, s, None)
    else
      let resp := mkResponse (resp_is_ok resp) true (resp_headers resp) in
      let resp := resp_add_header (str "Connection") (str "Upgrade") resp in
      let resp := resp_add_header (str "Upgrade") (str "websocket") resp in
      let resp := resp_add_header (str "Sec-WebSocket-Accept") server_key resp in
      (true, mk true client_key server_key (working_subproto_ s) (client_sub_protos_ s) (server_sub_protos_ s), Some resp).

(** [do_handshake_client] before the response: the request that is sent. *)
Definition client_request (config_ : option Config) (req : HttpRequest) (s : t) : t * HttpRequest :=
  let key := match client_key_ s, config_ with [], Some g => client_key_config g | key, _ => key end in
  let h := add_header (str "Upgrade") (str "websocket") (req_headers req) in
  let h := add_header (str "Connection") (str "Upgrade") h in
  let h := add_header (str "Sec-WebSocket-Key") key h in
  let h := add_header (str "Sec-WebSocket-Version") (str "13") h in
  let h := match config_ with
           | Some g => if bool_decide (client_subprotos_ g = []) then h
                       else add_header (str "Sec-WebSocket-Protocol") (encode_sub_proto (client_subprotos_ g)) h
           | None => h
           end in
  (mk (ok_ s) key (server_key_ s) (working_subproto_ s) (client_sub_protos_ s) (server_sub_protos_ s), mkRequest true true h).

(** [do_handshake_client] with the response. *)
Definition response_refused (resp : HttpResponse) (s : t) : bool :=
  if negb (resp_is_ok resp) then true
  else if match get_header (str "connection") (resp_headers resp) with None => true | Some conn => negb (header_has_token conn (str "Upgrade")) end then true
  else if match get_header (str "upgrade") (resp_headers resp) with None => true | Some upgrade => negb (iequals upgrade (str "websocket")) end then true
  else match get_header (str "sec-websocket-accept") (resp_headers resp) with
       | None => true
       | Some key => bool_decide (client_key_ s = []) || negb (str_eqb (generate_server_key (client_key_ s)) key)
       end.
Definition client_response (config_ : option Config) (resp : HttpResponse) (s : t) : bool * t :=
  if response_refused resp s then (false, s)
  else
    let key := default [] (get_header (str "sec-websocket-accept") (resp_headers resp)) in
    let '(agreed, s) :=
      match config_ with
      | Some g =>
          if bool_decide (client_subprotos_ g = []) then (true, s)
          else match get_header (str "sec-websocket-protocol") (resp_headers resp) with
               | None => (false, s)
               | Some subProtocol =>
                   let protos := decode_into_set subProtocol 44 in
                   match find_server_support_sub_protocol protos g with
                   | None => (false, mk (ok_ s) (client_key_ s) (server_key_ s) (working_subproto_ s) (client_sub_protos_ s) protos)
                   | Some proto => (true, mk (ok_ s) (client_key_ s) (server_key_ s) proto (client_sub_protos_ s) protos)
                   end
               end
      | None => (true, s)
      end in
    if negb agreed then (false, s)
    else (true, mk true (client_key_ s) key (working_subproto_ s) (client_sub_protos_ s) (server_sub_protos_ s)).

(** [on_handshake]: [ok_] is reset first. *)
Definition reset (s : t) : t :=
  mk false (client_key_ s) (server_key_ s) (working_subproto_ s) (client_sub_protos_ s) (server_sub_protos_ s).
Definition on_handshake_server (config_ : option Config) (req : HttpRequest) (resp : HttpResponse) (s : t)
  : bool * t * option HttpResponse := do_handshake_server config_ req resp (reset s).
Definition on_handshake_request (config_ : option Config) (req : HttpRequest) (s : t) : t * HttpRequest :=
  client_request config_ req (reset s).
Definition on_handshake_response (config_ : option Config) (resp : HttpResponse) (s : t) : bool * t :=
  client_response config_ resp (reset s).
End Handshake.
End WsHandshake.

(** * Lemmas on the opening handshake: words of a header, sets of subprotocols, keys. *)
Import WsHandshake.

(** * Words *)
Lemma words_loop_split fuel raw d start : (length raw < fuel + start)%nat -> (start <= length raw)%nat ->
  words_loop fuel raw d start = map StringUtil.trim_ascii (split_on d (drop start raw)).
Proof.
  revert start. induction fuel as [|fuel IH]; intros start Hf Hs; [lia|]. cbn [words_loop]. unfold find.
  destruct (index_of d (drop start raw)) as [i|] eqn:E; cbn [fmap option_fmap option_map].
  - rewrite (split_on_index_some _ _ _ E). cbn [map]. apply index_of_lt in E. rewrite length_drop in E.
    rewrite IH by lia. unfold substr. replace (start + i - start)%nat with i by lia. rewrite drop_drop.
    by replace (start + S i)%nat with (S (start + i)) by lia.
  - rewrite (split_on_index_none _ _ E). done.
Qed.

Lemma words_split raw d : words_loop (S (length raw)) raw d 0 = map StringUtil.trim_ascii (split_on d raw).
Proof. rewrite words_loop_split by lia. by rewrite drop_0. Qed.

(** A word that trimming and splitting leave alone. *)
Definition plain (w : bytes) : Prop := Forall (fun c => StringUtil.is_ascii_space c = false /\ c <> 44) w.

Lemma trim_back_plain w : plain w -> StringUtil.trim_back w = w.
Proof.
  induction 1 as [|c w [Hc _] Hw IH]; [done|]. cbn [StringUtil.trim_back]. rewrite IH. destruct w; [by rewrite Hc|done].
Qed.
Lemma trim_plain w : plain w -> StringUtil.trim_ascii w = w.
Proof.
  intros Hw. unfold StringUtil.trim_ascii. assert (StringUtil.trim_front w = w) as ->; [|by apply trim_back_plain].
  destruct Hw as [|c w [Hc _] Hw]; [done|]. cbn. by rewrite Hc.
Qed.
Lemma trim_space w : plain w -> StringUtil.trim_ascii (32 :: w) = w.
Proof. intros Hw. change (StringUtil.trim_ascii (32 :: w)) with (StringUtil.trim_ascii w). by apply trim_plain. Qed.
Lemma plain_no_comma w : plain w -> 44 ∉ w.
Proof. intros Hw Hin. unfold plain in Hw. rewrite Forall_forall in Hw. by destruct (Hw _ Hin). Qed.

Lemma words_encode w ws : Forall plain (w :: ws) ->
  map StringUtil.trim_ascii (split_on 44 (encode_sub_proto (w :: ws))) = w :: ws.
Proof.
  assert (Hgen : forall ws w (sp : bool), Forall plain (w :: ws) ->
    map StringUtil.trim_ascii (split_on 44 ((if sp then [32] else []) ++ encode_sub_proto (w :: ws))) = w :: ws).
  { clear. intros ws. induction ws as [|v ws IH]; intros w sp [Hw Hws]%Forall_cons.
    - assert (44 ∉ (if sp then [32] else []) ++ encode_sub_proto [w]) as Hn.
      { rewrite elem_of_app. intros [H|H]; [by destruct sp; [apply list_elem_of_singleton in H|apply not_elem_of_nil in H]|].
        by apply (plain_no_comma w). }
      rewrite split_on_free_id by done. cbn [map]. f_equal. destruct sp; [by apply trim_space|by apply trim_plain].
    - change (encode_sub_proto (w :: v :: ws)) with (w ++ [44; 32] ++ encode_sub_proto (v :: ws)).
      assert (44 ∉ (if sp then [32] else []) ++ w) as Hn.
      { rewrite elem_of_app. intros [H|H]; [by destruct sp; [apply list_elem_of_singleton in H|apply not_elem_of_nil in H]|].
        by apply (plain_no_comma w). }
      rewrite app_assoc. change ([44; 32] ++ encode_sub_proto (v :: ws)) with (44 :: [32] ++ encode_sub_proto (v :: ws)).
      rewrite split_on_app_free by done. cbn [map]. rewrite (IH v true Hws). f_equal.
      destruct sp; [by apply trim_space|by apply trim_plain]. }
  intros H. exact (Hgen ws w false H).
Qed.

(** * Sets *)
(** Sorted without repetition, as a set is walked. *)
Fixpoint sorted_set (l : list bytes) : Prop :=
  match l with x :: (y :: _) as l => bytes_cmp x y = Lt /\ sorted_set l | _ => True end.

Lemma set_insert_last l x : sorted_set (l ++ [x]) -> set_insert x l = l ++ [x].
Proof.
  assert (Hall : forall l y, sorted_set (y :: l ++ [x]) -> bytes_cmp y x = Lt).
  { clear l. intros l. induction l as [|z l IH]; intros y; cbn; [by intros [? _]|].
    intros [Hyz H]. apply (bytes_cmp_trans _ z); [done|]. apply IH. exact H. }
  induction l as [|y l IH]; [done|]. intros H. cbn [set_insert app]. rewrite (bytes_cmp_antisym y x), (Hall l y H). cbn.
  f_equal. apply IH. destruct l; [done|]. by destruct H.
Qed.

Lemma sorted_prefix l r : sorted_set (l ++ r) -> sorted_set l.
Proof. induction l as [|x [|y l] IH]; [done..|]. intros [H1 H2]. split; [done|]. by apply IH. Qed.

Definition insert_word (protos : list bytes) (word : bytes) : list bytes := if bool_decide (word = []) then protos else set_insert word protos.
Lemma foldl_sorted l acc : sorted_set (acc ++ l) -> Forall (fun w => w <> []) l -> foldl insert_word acc l = acc ++ l.
Proof.
  revert acc. induction l as [|w l IH]; intros acc Hs Hl; [by rewrite app_nil_r|]. apply Forall_cons in Hl as [Hw Hl].
  cbn [foldl]. unfold insert_word at 2. rewrite bool_decide_false by done.
  replace (acc ++ w :: l) with ((acc ++ [w]) ++ l) in * by by rewrite <- app_assoc.
  rewrite set_insert_last by by apply sorted_prefix in Hs. by apply IH.
Qed.

(** What is written is read back. *)
Lemma decode_encode_protos protos : sorted_set protos -> Forall plain protos -> Forall (fun w => w <> []) protos ->
  decode_into_set (encode_sub_proto protos) 44 = protos.
Proof.
  intros Hs Hp Hne. destruct protos as [|w ws]; [done|]. unfold decode_into_set.
  assert (encode_sub_proto (w :: ws) <> []) as Hnil.
  { apply Forall_cons in Hne as [Hw _]. destruct w; [done|]. by destruct ws. }
  rewrite bool_decide_false by done. rewrite words_split, words_encode by done. by apply (foldl_sorted _ []).
Qed.

Lemma find_support protos g p : p ∈ protos -> p ∈ server_subprotos_ g ->
  exists q, find_server_support_sub_protocol protos g = Some q /\ q ∈ protos /\ q ∈ server_subprotos_ g.
Proof.
  induction protos as [|x protos IH]; [by intros ?%not_elem_of_nil|]. intros Hin Hp. cbn [find_server_support_sub_protocol].
  case_bool_decide as Hx; [exists x; rewrite elem_of_cons; auto|].
  apply elem_of_cons in Hin as [->|Hin]; [done|]. destruct (IH Hin Hp) as (q & E & Hq & Hq'). exists q. rewrite elem_of_cons. auto.
Qed.

Lemma find_support_none protos g : server_subprotos_ g = [] -> find_server_support_sub_protocol protos g = None.
Proof. intros E. induction protos as [|x protos IH]; [done|]. cbn. rewrite E, bool_decide_false by apply not_elem_of_nil. done. Qed.

(** * Keys *)
(** Characters of Base64 but the padding. *)
Lemma char_at_key i : 0 <= i < 64 ->
  (isalnum (Base64.char_at i) || (Base64.char_at i =? 43) || (Base64.char_at i =? 47)) = true
  /\ StringUtil.is_ascii_space (Base64.char_at i) = false /\ (Base64.char_at i =? 61) = false /\ (Base64.char_at i =? 44) = false.
Proof.
  intros Hi. pose proof (Base64.sextet_forall (fun i =>
    (isalnum (Base64.char_at i) || (Base64.char_at i =? 43) || (Base64.char_at i =? 47))
    && negb (StringUtil.is_ascii_space (Base64.char_at i)) && negb (Base64.char_at i =? 61) && negb (Base64.char_at i =? 44)) ltac:(by vm_compute) i Hi) as H.
  cbn beta in H. repeat (apply andb_true_iff in H as [H ?]). rewrite !negb_true_iff in *. auto.
Qed.

Lemma key_chars_app cs rest : Forall (fun c => exists i, 0 <= i < 64 /\ c = Base64.char_at i) cs ->
  key_chars (cs ++ rest) false = key_chars rest false.
Proof.
  induction 1 as [|c cs (i & Hi & ->) _ IH]; [done|]. cbn [app key_chars]. destruct (char_at_key i Hi) as (H1 & _ & H3 & _).
  by rewrite H3, H1.
Qed.

(** The encoding of a group and of the last byte. *)
Lemma encode_chars data : Forall is_u8 data -> zlen data mod 3 = 1 ->
  exists cs, Base64.base64_encode data = cs ++ [61; 61] /\ Forall (fun c => exists i, 0 <= i < 64 /\ c = Base64.char_at i) cs.
Proof.
  unfold Base64.base64_encode. induction data as [data IH] using (induction_ltof1 _ (@length Z)). unfold ltof in IH.
  destruct data as [|a [|b [|c data]]]; try done.
  - intros [Ha _]%Forall_cons _. cbn [Base64.encode_loop app]. rewrite Base64.sextets_eq by done.
    destruct (Base64.sextets_range a 0 0) as (H0 & H1 & _); [done..|].
    exists [Base64.char_at (a / 4); Base64.char_at (a mod 4 * 16 + 0 / 16)]. split; [done|].
    repeat (constructor; [eexists; split; [|reflexivity]; done|]). constructor.
  - intros [Ha [Hb [Hc Hd]%Forall_cons]%Forall_cons]%Forall_cons Hm. cbn [Base64.encode_loop app]. rewrite Base64.sextets_eq by done.
    destruct (Base64.sextets_range a b c) as (H0 & H1 & H2 & H3); [done..|].
    destruct (IH data) as (cs & -> & Hcs); [cbn; lia|done| |].
    { rewrite !zlen_cons in Hm. rewrite <- Hm. Z.to_euclidean_division_equations; lia. }
    eexists (_ :: _ :: _ :: _ :: cs). split; [done|]. repeat (constructor; [eexists; split; [|reflexivity]; done|]). done.
Qed.

Lemma key_valid data : Forall is_u8 data -> zlen data = 16 -> is_valid_websocket_key (Base64.base64_encode data) = true
  /\ StringUtil.trim_ascii (Base64.base64_encode data) = Base64.base64_encode data /\ Base64.base64_encode data <> [].
Proof.
  intros Hd Hn. destruct (encode_chars data Hd) as (cs & E & Hcs); [by rewrite Hn|].
  assert (plain (Base64.base64_encode data)) as Hp.
  { rewrite E. apply Forall_app. split; [|repeat (constructor; [done|]); constructor].
    eapply Forall_impl; [exact Hcs|]. intros c (i & Hi & ->). destruct (char_at_key i Hi) as (_ & H1 & _ & H2). split; [done|lia]. }
  assert (Base64.base64_encode data <> []) as Hne by (rewrite E; by destruct cs).
  split; [|split; [by apply trim_plain|done]].
  unfold is_valid_websocket_key. rewrite trim_plain by done. rewrite bool_decide_false by done.
  rewrite Base64.encode_length, Hn. change (4 * ((16 + 2) / 3) mod 4 =? 0) with true. cbn [negb orb].
  rewrite Base64.encode_decode, Hn by done. rewrite E, key_chars_app by done. done.
Qed.

Lemma nonce_ok r0 r1 r2 r3 : Forall is_u8 (nonce_bytes r0 ++ nonce_bytes r1 ++ nonce_bytes r2 ++ nonce_bytes r3)
  /\ zlen (nonce_bytes r0 ++ nonce_bytes r1 ++ nonce_bytes r2 ++ nonce_bytes r3) = 16.
Proof. split; [|done]. unfold nonce_bytes. cbn [app]. repeat (constructor; [apply u8_range|]). constructor. Qed.
