(* ===== verification/WsConnection.v ===== *)
(** A WebSocket connection: [protocol/websocket/common/websocket_connection.cpp].

    The fields are grouped: what is fixed once the connection is configured, the close
    handshake, the times, the output. The clock is the parameter [clock], of which the
    connection has taken [readings_] readings. What it does to the native connection and
    to the application is the list [trace_]. The native connection takes every write; its
    buffer and its socket are the environment. *)
From S2P Require Import Prelude Endian ByteBuffer WsProtocol WsParser.
Import WsProtocol.

Module WsConnection.

Inductive State : Type := connecting_ | connected_ | closing_ | closed_.
#[export] Instance State_eq_dec : EqDecision State.
Proof. solve_decision. Defined.

Inductive PacketType : Type := text_ | binary_ | close_ | ping_ | pong_.
#[export] Instance PacketType_eq_dec : EqDecision PacketType.
Proof. solve_decision. Defined.
Definition packet_type (p : PacketType) : Z :=
  match p with
  | text_ => type_text_frame | binary_ => type_binary_frame | close_ => type_close_frame
  | ping_ => type_ping_frame | pong_ => type_pong_frame
  end.

Inductive FrameDispatchResult : Type := ok_ | close_result_ | error_.

(** The configuration that a connection reads. *)
Record Config : Type := mkConfig {
  heart_beat_interval : Z;
  heat_beat_timeout : Z;
  client_use_mask : bool;
  server_use_mask : bool;
  outbound_queue_max_messages : Z;
  outbound_queue_max_bytes : Z;
  close_handshake_timeout : Z;
  config_max_message_size : Z;
  config_max_fragmented_message_size : Z
}.

Record Settings : Type := mkSettings {
  conn_mode_ : WorkMode;
  conn_ : bool;
  runtime_ : bool;
  config_ : option Config;
  outbound_queue_max_messages_ : Z;
  outbound_queue_max_bytes_ : Z;
  close_handshake_timeout_ms_ : Z;
  max_message_size_ : Z;
  max_fragmented_message_size_ : Z
}.

Record Closing : Type := mkClosing {
  state_ : State;
  close_deadline_ms_ : Z;
  close_sent_ : bool;
  close_received_ : bool;
  force_closed_ : bool;
  close_deadline_timer_ : bool
}.

Record Times : Type := mkTimes {
  last_read_time_ : Z;
  last_write_time_ : Z;
  last_ping_time_ : Z;
  last_pong_time_ : Z;
  pong_deadline_ms_ : Z;
  heartbeat_timer_ : bool
}.

Record Output : Type := mkOutput {
  output_chunks_ : list ByteBuffer.t;
  outbound_queue_ : list ByteBuffer.t;
  outbound_queue_bytes_ : Z
}.

Inductive event : Type :=
| Wrote (frame : ByteBuffer.t)        (* conn->write_owned *)
| Flushed                             (* conn->flush *)
| NativeClosed                        (* conn->close *)
| Data (body : ByteBuffer.t)          (* on_data *)
| OnConnected                         (* on_connected_cb *)
| OnClose.                            (* on_close_cb *)

Record t : Type := mk {
  settings : Settings;
  closing : Closing;
  times : Times;
  output : Output;
  pkt_parser_ : WsParser.t;
  input_chunks_ : list ProtoChunk;
  readings_ : nat;
  trace_ : list event
}.

Definition set_closing (x : Closing) (c : t) : t :=
  mk (settings c) x (times c) (output c) (pkt_parser_ c) (input_chunks_ c) (readings_ c) (trace_ c).
Definition set_times (x : Times) (c : t) : t :=
  mk (settings c) (closing c) x (output c) (pkt_parser_ c) (input_chunks_ c) (readings_ c) (trace_ c).
Definition set_output (x : Output) (c : t) : t :=
  mk (settings c) (closing c) (times c) x (pkt_parser_ c) (input_chunks_ c) (readings_ c) (trace_ c).
Definition set_parser (x : WsParser.t) (c : t) : t :=
  mk (settings c) (closing c) (times c) (output c) x (input_chunks_ c) (readings_ c) (trace_ c).
Definition set_input (x : list ProtoChunk) (c : t) : t :=
  mk (settings c) (closing c) (times c) (output c) (pkt_parser_ c) x (readings_ c) (trace_ c).
Definition emit (e : list event) (c : t) : t :=
  mk (settings c) (closing c) (times c) (output c) (pkt_parser_ c) (input_chunks_ c) (readings_ c) (trace_ c ++ e).

Definition with_state (s : State) (k : Closing) : Closing :=
  mkClosing s (close_deadline_ms_ k) (close_sent_ k) (close_received_ k) (force_closed_ k) (close_deadline_timer_ k).
Definition with_timer (timer : bool) (k : Closing) : Closing :=
  mkClosing (state_ k) (close_deadline_ms_ k) (close_sent_ k) (close_received_ k) (force_closed_ k) timer.
Definition put_state (s : State) (c : t) : t := set_closing (with_state s (closing c)) c.
Definition get_state (c : t) : State := state_ (closing c).
Definition connected (c : t) : bool := bool_decide (get_state c = connected_).

Definition limits_of (c : t) : limits :=
  mkLimits (conn_mode_ (settings c)) (max_message_size_ (settings c)) (max_fragmented_message_size_ (settings c)).

Section Connection.
Variable little : bool.
Variable rng : nat -> Z.
Variable clock : nat -> Z.

(** [base::time::now()] *)
Definition now (c : t) : Z * t :=
  (u32 (clock (readings_ c)),
   mk (settings c) (closing c) (times c) (output c) (pkt_parser_ c) (input_chunks_ c) (S (readings_ c)) (trace_ c)).

(** [WebSocketConnection(mode)]; the mask of the parser is not initialised. *)
Definition init (mode : WorkMode) (mask : bytes) : t :=
  mk (mkSettings mode false false None 0 0 DEFAULT_CLOSE_HANDSHAKE_TIMEOUT_MS PACKET_MAX_BYTE PACKET_MAX_BYTE)
     (mkClosing connecting_ 0 false false false false) (mkTimes 0 0 0 0 0 false) (mkOutput [] [] 0)
     (WsParser.init mask) [] 0 [].

Definition bind_connection (c : t) : t :=
  let s := settings c in
  mk (mkSettings (conn_mode_ s) true (runtime_ s) (config_ s) (outbound_queue_max_messages_ s) (outbound_queue_max_bytes_ s)
        (close_handshake_timeout_ms_ s) (max_message_size_ s) (max_fragmented_message_size_ s))
     (closing c) (times c) (output c) (pkt_parser_ c) (input_chunks_ c) (readings_ c) (trace_ c).

Definition set_config (config : option Config) (c : t) : t :=
  let s := settings c in
  match config with
  | None =>
      mk (mkSettings (conn_mode_ s) (conn_ s) (runtime_ s) None (outbound_queue_max_messages_ s) (outbound_queue_max_bytes_ s)
            (close_handshake_timeout_ms_ s) (max_message_size_ s) (max_fragmented_message_size_ s))
         (closing c) (times c) (output c) (pkt_parser_ c) (input_chunks_ c) (readings_ c) (trace_ c)
  | Some g =>
      mk (mkSettings (conn_mode_ s) (conn_ s) (runtime_ s) config (outbound_queue_max_messages g) (outbound_queue_max_bytes g)
            (close_handshake_timeout g) (config_max_message_size g) (config_max_fragmented_message_size g))
         (closing c) (times c) (output c) (WsParser.use_mask rng (if bool_decide (conn_mode_ s = client_) then client_use_mask g else server_use_mask g) (pkt_parser_ c))
         (input_chunks_ c) (readings_ c) (trace_ c)
  end.

(** * Times *)
Definition mark_connected (c : t) : t :=
  let '(now, c) := now c in set_times (mkTimes now now 0 now 0 (heartbeat_timer_ (times c))) c.
Definition mark_read_activity (c : t) : t :=
  let '(now, c) := now c in let m := times c in
  set_times (mkTimes now (last_write_time_ m) (last_ping_time_ m) (last_pong_time_ m) (pong_deadline_ms_ m) (heartbeat_timer_ m)) c.
Definition mark_write_activity (c : t) : t :=
  let '(now, c) := now c in let m := times c in
  set_times (mkTimes (last_read_time_ m) now (last_ping_time_ m) (last_pong_time_ m) (pong_deadline_ms_ m) (heartbeat_timer_ m)) c.
Definition mark_ping_sent (c : t) : t :=
  let '(now, c) := now c in let m := times c in
  let deadline := match config_ (settings c) with
                  | Some g => if 0 <? heat_beat_timeout g then u32 (now + heat_beat_timeout g) else 0
                  | None => pong_deadline_ms_ m
                  end in
  set_times (mkTimes (last_read_time_ m) (last_write_time_ m) now (last_pong_time_ m) deadline (heartbeat_timer_ m)) c.
Definition mark_pong_received (c : t) : t :=
  let '(now, c) := now c in let m := times c in
  set_times (mkTimes (last_read_time_ m) (last_write_time_ m) (last_ping_time_ m) now 0 (heartbeat_timer_ m)) c.

(** * Closing *)
Definition schedule_close_deadline_timer (c : t) : t :=
  if negb (runtime_ (settings c)) || close_deadline_timer_ (closing c) then c
  else set_closing (with_timer true (closing c)) c.
Definition cancel_close_deadline_timer (c : t) : t := set_closing (with_timer false (closing c)) c.

(** [close_handshake_timeout_ms_ == 0 ? DEFAULT : ...] *)
Definition close_timeout (c : t) : Z :=
  if close_handshake_timeout_ms_ (settings c) =? 0 then DEFAULT_CLOSE_HANDSHAKE_TIMEOUT_MS
  else close_handshake_timeout_ms_ (settings c).

Definition mark_close_sent (c : t) : t :=
  if close_sent_ (closing c) then c
  else
    let '(now, c) := now c in let k := closing c in
    schedule_close_deadline_timer
      (set_closing (mkClosing closing_ (u32 (now + close_timeout c)) true (close_received_ k) (force_closed_ k)
                      (close_deadline_timer_ k)) c).
Definition mark_close_received (c : t) : t :=
  let k := closing c in
  let c := set_closing (mkClosing closing_ (close_deadline_ms_ k) (close_sent_ k) true (force_closed_ k) (close_deadline_timer_ k)) c in
  if close_deadline_ms_ (closing c) =? 0 then
    let '(now, c) := now c in let k := closing c in
    schedule_close_deadline_timer
      (set_closing (mkClosing (state_ k) (u32 (now + close_timeout c)) (close_sent_ k) (close_received_ k) (force_closed_ k)
                      (close_deadline_timer_ k)) c)
  else c.

(** [if (conn_) conn_->close();] *)
Definition native_close (c : t) : t := if conn_ (settings c) then emit [NativeClosed] c else c.

Definition force_close (c : t) : t :=
  let k := closing c in
  native_close (cancel_close_deadline_timer
    (set_closing (mkClosing closed_ (close_deadline_ms_ k) (close_sent_ k) (close_received_ k) true (close_deadline_timer_ k)) c)).

Definition set_state (s : State) (c : t) : t :=
  let c := put_state s c in
  let c := if bool_decide (s = connected_) then mark_connected c else c in
  if bool_decide (s = closed_) then cancel_close_deadline_timer c else c.

Definition stop_heartbeat (c : t) : t :=
  let m := times c in
  set_times (mkTimes (last_read_time_ m) (last_write_time_ m) (last_ping_time_ m) (last_pong_time_ m) (pong_deadline_ms_ m) false) c.

Definition shutdown (c : t) : t :=
  let c := cancel_close_deadline_timer (stop_heartbeat c) in
  native_close (put_state closed_ (set_output (mkOutput [] [] 0) (set_input [] c))).

Definition close_handshake_expired (now_ms : Z) (c : t) : bool * t :=
  if (close_deadline_ms_ (closing c) =? 0) || bool_decide (get_state c = closed_) then (false, c)
  else
    let '(now_ms, c) := if now_ms =? 0 then now c else (now_ms, c) in
    (close_deadline_ms_ (closing c) <=? now_ms, c).

(** * Output *)
(** The bytes of the buffers; they are all in memory, so the sum is a [size_t]. *)
Definition total_bytes (l : list ByteBuffer.t) : Z := foldr Z.add 0 (map ByteBuffer.readable_bytes l).

Definition enqueue_output (out : list ByteBuffer.t) (c : t) : bool * t :=
  let added_bytes := total_bytes out in
  let s := settings c in let o := output c in
  if (0 <? outbound_queue_max_messages_ s) && (outbound_queue_max_messages_ s <? zlen (outbound_queue_ o) + zlen out) then (false, c)
  else if (0 <? outbound_queue_max_bytes_ s) && (outbound_queue_max_bytes_ s <? outbound_queue_bytes_ o + added_bytes) then (false, c)
  else (true, set_output (mkOutput (output_chunks_ o) (outbound_queue_ o ++ out) (outbound_queue_bytes_ o + added_bytes)) c).

Definition flush_output_queue (c : t) : bool * t :=
  if negb (conn_ (settings c)) then (false, c)
  else
    let o := output c in
    let c := emit (map Wrote (outbound_queue_ o)) c in
    let c := set_output (mkOutput (output_chunks_ o) [] 0) c in
    (true, mark_write_activity (emit [Flushed] c)).

(** [pkt_parser_.pack(this, ...)] and [pack_control]: they append to [output_chunks_]. *)
Definition parser_packs (pack : WsParser.t -> list ByteBuffer.t -> outcome (bool * WsParser.t * list ByteBuffer.t)) (c : t)
  : outcome (bool * t) :=
  '(ok, p, out) ← pack (pkt_parser_ c) (output_chunks_ (output c));
  Ok (ok, set_parser p (set_output (mkOutput out (outbound_queue_ (output c)) (outbound_queue_bytes_ (output c))) c)).
Definition clear_output (c : t) : t :=
  set_output (mkOutput [] (outbound_queue_ (output c)) (outbound_queue_bytes_ (output c))) c.

(** [None] is the result false. *)
Definition pack_frame (data : ByteBuffer.t) (type : Z) (c : t) : outcome (option (list ByteBuffer.t) * t) :=
  '(ok, c) ← parser_packs (WsParser.pack little rng data type) (clear_output c);
  if (ok : bool) then Ok (Some (output_chunks_ (output c)), clear_output c) else Ok (None, c).
Definition pack_control_frame (data : ByteBuffer.t) (type : Z) (c : t) : outcome (option (list ByteBuffer.t) * t) :=
  '(ok, c) ← parser_packs (WsParser.pack_control little rng data type) (clear_output c);
  if (ok : bool) then Ok (Some (output_chunks_ (output c)), clear_output c) else Ok (None, c).

(** [enqueue_output(...) && flush_output_queue()] *)
Definition queue_and_flush (out : list ByteBuffer.t) (c : t) : bool * t :=
  let '(ok, c) := enqueue_output out c in if ok then flush_output_queue c else (false, c).

(** The assertion on [conn_] is a fault when it does not hold. A write on the native
    connection is an event: it does not fail and does not call back. *)
Definition send (buf : ByteBuffer.t) (pktType : PacketType) (c : t) : outcome (bool * t) :=
  if negb (bool_decide (get_state c = connected_)) then Ok (false, c)
  else if negb (conn_ (settings c)) then Fault
  else if bool_decide (pktType = close_ \/ pktType = ping_ \/ pktType = pong_) then
    '(out, c) ← pack_control_frame buf (packet_type pktType) c;
    Ok match out with Some out => queue_and_flush out c | None => (false, c) end
  else
    '(ok, c) ← parser_packs (WsParser.pack little rng buf (packet_type pktType)) c;
    if (ok : bool) then
      let out := output_chunks_ (output c) in Ok (queue_and_flush out (clear_output c))
    else Ok (false, emit [NativeClosed] c).

(** [for (auto &buf : output) conn->write_owned(buf); conn->flush();] *)
Definition write_out (out : list ByteBuffer.t) (c : t) : t := emit (map Wrote out ++ [Flushed]) c.

Definition send_ping_frame_to (c : t) : outcome t :=
  '(out, c) ← pack_control_frame ByteBuffer.default type_ping_frame c;
  Ok match out with Some out => mark_write_activity (mark_ping_sent (write_out out c)) | None => c end.
Definition send_pong_frame_to (payload : ByteBuffer.t) (c : t) : outcome t :=
  '(out, c) ← pack_control_frame payload type_pong_frame c;
  Ok match out with Some out => mark_write_activity (write_out out c) | None => c end.
Definition send_close_frame_to (code : Z) (c : t) : outcome t :=
  if close_sent_ (closing c) then Ok c
  else
    payload ← ByteBuffer.append_u8 little (u8 (Z.land (Z.shiftr code 8) 255)) (ByteBuffer.with_capacity 2);
    payload ← ByteBuffer.append_u8 little (u8 (Z.land code 255)) payload;
    '(out, c) ← pack_control_frame payload type_close_frame c;
    Ok match out with Some out => mark_close_sent (mark_write_activity (write_out out c)) | None => c end.

Definition close (code : Z) (c : t) : outcome t :=
  if bool_decide (get_state c = closed_) || close_sent_ (closing c) then Ok c
  else
    let c := put_state closing_ c in
    if conn_ (settings c) then send_close_frame_to code c else Ok c.

(** * Timers *)
Definition try_set_heartbeat_timer (c : t) : t :=
  let s := settings c in
  let c := mk (mkSettings (conn_mode_ s) (conn_ s) true (config_ s) (outbound_queue_max_messages_ s) (outbound_queue_max_bytes_ s)
                 (close_handshake_timeout_ms_ s) (max_message_size_ s) (max_fragmented_message_size_ s))
              (closing c) (times c) (output c) (pkt_parser_ c) (input_chunks_ c) (readings_ c) (trace_ c) in
  match config_ s with
  | Some g =>
      if 0 <? heart_beat_interval g then
        let m := times c in
        set_times (mkTimes (last_read_time_ m) (last_write_time_ m) (last_ping_time_ m) (last_pong_time_ m) (pong_deadline_ms_ m) true) c
      else c
  | None => c
  end.

Definition check_pong_deadline (c : t) : t :=
  if pong_deadline_ms_ (times c) =? 0 then c
  else let '(now, c) := now c in if pong_deadline_ms_ (times c) <=? now then force_close c else c.

(** The callback of the heartbeat timer. *)
Definition heartbeat (c : t) : outcome t :=
  let c := if conn_ (settings c) && connected c then check_pong_deadline c else c in
  if conn_ (settings c) && connected c then send_ping_frame_to c else Ok c.

(** The callback of the close deadline timer. *)
Definition close_deadline (c : t) : t := if bool_decide (get_state c = closing_) then force_close c else c.

(** * Input *)
(** [on_data(this, body)]: the application, which may call the connection back. *)
Variable on_data : option (ByteBuffer.t -> t -> outcome t).

Definition call_on_data (body : ByteBuffer.t) (c : t) : outcome t :=
  match on_data with Some f => f body (emit [Data body] c) | None => Ok c end.

(** The [for] loop from chunk [i]: [Some] is the result when it returns or breaks. *)
Fixpoint dispatch_loop (fuel : nat) (i : nat) (c : t) : outcome (option FrameDispatchResult * t) :=
  match input_chunks_ c !! i with
  | None => Ok (None, c)
  | Some chunk =>
      match fuel with
      | O => Diverge
      | S fuel =>
          if negb (is_completed chunk) then Ok (Some error_, c)
          else if is_close_frame (head_ chunk) then Ok (Some close_result_, mark_close_received c)
          else if is_ping_frame (head_ chunk) then
            c ← send_pong_frame_to (body_ chunk) c; dispatch_loop fuel (S i) c
          else if is_pong_frame (head_ chunk) then dispatch_loop fuel (S i) (mark_pong_received c)
          else if negb (ByteBuffer.empty (body_ chunk)) || (extend_pay_load_len_ (head_ chunk) =? 0) then
            c ← call_on_data (body_ chunk) c; dispatch_loop fuel (S i) c
          else Ok (Some error_, c)
      end
  end.

(** The fuel is the number of chunks: the application can only clear them. *)
Definition dispatch_frames (c : t) : outcome (FrameDispatchResult * t) :=
  let c := mark_read_activity c in
  '(result, c) ← dispatch_loop (length (input_chunks_ c)) 0 c;
  Ok match result with
     | Some error_ => (error_, c)
     | Some r => (r, set_input [] c)
     | None => (ok_, set_input [] c)
     end.

(** [pkt_parser().unpack_from(this, data)] *)
Definition unpack_from (data : ByteBuffer.t) (c : t) : outcome (bool * t) :=
  '(ok, p, input) ← WsParser.unpack_from little (limits_of c) data (pkt_parser_ c) (input_chunks_ c);
  Ok (ok, set_input input (set_parser p c)).
End Connection.
End WsConnection.
