(* ===== verification/WsConnectionFacts.v ===== *)
(** Lemmas on connections: what each operation keeps, what it sends, that it ends. *)
From S2P Require Import Prelude Endian ByteBuffer ByteBufferFacts Utf8 WsProtocol WsParser WsReference WsParserFacts WsStreamFacts WsConnection.
Import WsProtocol WsConnection.

(** * What is seen from outside *)
(** A frame that was sent, by its opcode and its payload; data that was delivered. *)
Inductive seen : Type := Sent (op : Z) (payload : bytes) | Delivered (payload : bytes).
Definition observe (e : event) : option seen :=
  match e with
  | Wrote b =>
      match parse_frame (ByteBuffer.contents b) with
      | Frame h body _ => Some (Sent (opcode_ h) (unmasked h body))
      | _ => None
      end
  | Data b => Some (Delivered (ByteBuffer.contents b))
  | _ => None
  end.
Definition sent_op (s : seen) : option Z := match s with Sent op _ => Some op | Delivered _ => None end.
(** The opcodes of the frames that were sent. *)
Definition frames (trace : list event) : list Z := omap sent_op (omap observe trace).

Lemma frames_app l r : frames (l ++ r) = frames l ++ frames r.
Proof. unfold frames. by rewrite !omap_app. Qed.

Lemma observe_wrote b fin masked op key body : view b (wire_frame fin masked op key body) -> opcode_ok op -> key_ok key ->
  zlen body <= PACKET_MAX_BYTE -> observe (Wrote b) = Some (Sent op body).
Proof.
  intros [_ Hc] Ho Hk Hn. unfold observe. rewrite Hc, <- (app_nil_r (wire_frame _ _ _ _ _)), parse_frame_packed by done.
  by rewrite unmasked_packed.
Qed.

(** * The invariant *)
(** Until a close frame is sent none has been; afterwards it is the only one, only pongs
    follow it, and the connection is not connected. *)
Definition disciplined (sent : bool) (s : State) (ops : list Z) : Prop :=
  if sent then s <> connected_ /\ exists before after, ops = before ++ type_close_frame :: after
    /\ (type_close_frame ∉ before) /\ Forall (fun op => op = type_pong_frame) after
  else type_close_frame ∉ ops.

Definition chunk_wf (chunk : ProtoChunk) : Prop :=
  exists m, chunk_is chunk m /\ zlen m.2 = extend_pay_load_len_ m.1 /\ zlen m.2 < 4294967296.

Record conn_ok (c : t) : Prop := {
  co_bound : conn_ (settings c) = true;
  co_output : output c = mkOutput [] [] 0;
  co_mask : mask_ok (pkt_parser_ c);
  co_input : Forall chunk_wf (input_chunks_ c);
  co_close : disciplined (close_sent_ (closing c)) (get_state c) (frames (trace_ c))
}.

(** What an operation leaves alone. *)
Record keeps (c c' : t) : Prop := {
  ke_limits : limits_of c' = limits_of c;
  ke_reads : reads_as (pkt_parser_ c) (pkt_parser_ c');
  ke_input : input_chunks_ c' = input_chunks_ c \/ input_chunks_ c' = []
}.

#[export] Instance keeps_refl : Reflexive keeps.
Proof. split; [done|apply reads_as_refl|by left]. Qed.
#[export] Instance keeps_trans : Transitive keeps.
Proof.
  intros a b c [H1 H2 H3] [H4 H5 H6]. split; [congruence|exact (reads_as_trans _ _ _ H2 H5)|].
  destruct H6 as [->|]; [done|by right].
Qed.

(** An operation that ends, keeps the invariant and leaves the reading side alone. *)
Definition runs (c : t) (m : outcome t) : Prop := exists c', m = Ok c' /\ conn_ok c' /\ keeps c c'.

Lemma runs_ok c c' : conn_ok c' -> keeps c c' -> runs c (Ok c').
Proof. intros. by exists c'. Qed.
Lemma runs_bind c m f : runs c m -> (forall c', conn_ok c' -> keeps c c' -> runs c' (f c')) -> runs c (m ≫= f).
Proof.
  intros (c1 & -> & Ho & Hk) Hf. mstep. destruct (Hf c1 Ho Hk) as (c2 & -> & Ho2 & Hk2). exists c2. split; [done|].
  split; [done|]. by transitivity c1.
Qed.

Lemma disciplined_pong sent s ops : disciplined sent s ops -> disciplined sent s (ops ++ [type_pong_frame]).
Proof.
  unfold disciplined. destruct sent.
  - intros (Hs & b & a & -> & Hb & Ha). split; [done|]. exists b, (a ++ [type_pong_frame]). rewrite <- app_assoc.
    split; [done|]. split; [done|]. apply Forall_app. split; [done|by constructor].
  - intros H. rewrite elem_of_app, list_elem_of_singleton. by intros [?|?].
Qed.

Lemma disciplined_state sent s s' ops : (sent = true -> s' <> connected_) -> disciplined sent s ops -> disciplined sent s' ops.
Proof. unfold disciplined. destruct sent; [|done]. intros Hs (_ & H). split; [by apply Hs|done]. Qed.

Lemma disciplined_none sent s ops new : sent = false -> Forall (fun op => op <> type_close_frame) new ->
  disciplined sent s ops -> disciplined sent s (ops ++ new).
Proof.
  intros -> Hn. unfold disciplined. rewrite elem_of_app. intros H [?|Hin]; [done|].
  rewrite Forall_forall in Hn. by apply (Hn _ Hin).
Qed.

Lemma connected_not_sent c : conn_ok c -> get_state c = connected_ -> close_sent_ (closing c) = false.
Proof. intros [_ _ _ _ H] Hs. unfold disciplined in H. destruct (close_sent_ (closing c)); [|done]. by destruct H as [[] _]. Qed.

(** * Small operations *)
(** A change of the times or of the trace that sends nothing. *)
Lemma conn_ok_same c c' : conn_ok c -> conn_ (settings c') = conn_ (settings c) -> output c' = output c ->
  pkt_parser_ c' = pkt_parser_ c -> input_chunks_ c' = input_chunks_ c -> closing c' = closing c ->
  frames (trace_ c') = frames (trace_ c) -> conn_ok c'.
Proof. intros [H1 H2 H3 H4 H5] E1 E2 E3 E4 E5 E6. split; unfold get_state in *; congruence. Qed.

Lemma conn_ok_times x c : conn_ok c -> conn_ok (set_times x c).
Proof. intros H. by apply (conn_ok_same c). Qed.

Definition silent (e : list event) : Prop := frames e = [].
Lemma conn_ok_silent e c : silent e -> conn_ok c -> conn_ok (emit e c).
Proof. intros He H. apply (conn_ok_same c); try done. change (frames (trace_ c ++ e) = frames (trace_ c)). by rewrite frames_app, He, app_nil_r. Qed.

Lemma conn_ok_closing k c : conn_ok c -> close_sent_ k = close_sent_ (closing c) -> (close_sent_ k = true -> state_ k <> connected_) ->
  conn_ok (set_closing k c).
Proof.
  intros [H1 H2 H3 H4 H5] Hs Hc. split; try done. cbn. unfold get_state. cbn. rewrite Hs in *.
  by apply (disciplined_state _ (get_state c)).
Qed.

Lemma conn_ok_state s c : conn_ok c -> s <> connected_ -> conn_ok (put_state s c).
Proof. intros H Hs. by apply conn_ok_closing. Qed.

Lemma conn_ok_input l c : conn_ok c -> Forall chunk_wf l -> conn_ok (set_input l c).
Proof. by intros [] ?; split. Qed.

Section Facts.
Variable little : bool.
Variable rng clock : nat -> Z.

Lemma conn_ok_now c : conn_ok c -> conn_ok (now clock c).2.
Proof. intros H. by apply (conn_ok_same c). Qed.

Ltac marks H := apply conn_ok_times; by apply (conn_ok_now _ H).
Lemma mark_connected_ok c : conn_ok c -> conn_ok (mark_connected clock c) /\ keeps c (mark_connected clock c).
Proof. intros H. split; [marks H|split; [done|done|by left]]. Qed.
Lemma mark_read_ok c : conn_ok c -> conn_ok (mark_read_activity clock c) /\ keeps c (mark_read_activity clock c).
Proof. intros H. split; [marks H|split; [done|done|by left]]. Qed.
Lemma mark_write_ok c : conn_ok c -> conn_ok (mark_write_activity clock c) /\ keeps c (mark_write_activity clock c).
Proof. intros H. split; [marks H|split; [done|done|by left]]. Qed.
Lemma mark_ping_ok c : conn_ok c -> conn_ok (mark_ping_sent clock c) /\ keeps c (mark_ping_sent clock c).
Proof. intros H. split; [marks H|split; [done|done|by left]]. Qed.
Lemma mark_pong_ok c : conn_ok c -> conn_ok (mark_pong_received clock c) /\ keeps c (mark_pong_received clock c).
Proof. intros H. split; [marks H|split; [done|done|by left]]. Qed.

Lemma native_close_ok c : conn_ok c -> conn_ok (native_close c) /\ keeps c (native_close c).
Proof.
  intros H. unfold native_close. destruct (conn_ (settings c)); [|by split].
  split; [by apply conn_ok_silent|split; [done|done|by left]].
Qed.

Lemma keeps_closing k c : keeps c (set_closing k c).
Proof. split; [done|done|by left]. Qed.
Lemma keeps_emit e c : keeps c (emit e c).
Proof. split; [done|done|by left]. Qed.

Lemma force_close_ok c : conn_ok c -> conn_ok (force_close c) /\ keeps c (force_close c).
Proof.
  intros H. unfold force_close, cancel_close_deadline_timer.
  destruct (native_close_ok (set_closing (with_timer false (closing (set_closing (mkClosing closed_ (close_deadline_ms_ (closing c))
    (close_sent_ (closing c)) (close_received_ (closing c)) true (close_deadline_timer_ (closing c))) c))) c)) as [H1 H2].
  { by apply conn_ok_closing. }
  split; [exact H1|]. exact (keeps_trans _ _ _ (keeps_closing _ c) H2).
Qed.

Lemma mark_close_received_ok c : conn_ok c ->
  conn_ok (mark_close_received clock c) /\ keeps c (mark_close_received clock c)
  /\ frames (trace_ (mark_close_received clock c)) = frames (trace_ c).
Proof.
  intros H. unfold mark_close_received. set (c1 := set_closing _ c). assert (conn_ok c1) as H1 by by apply conn_ok_closing.
  case_if; [|by split; [|split; [apply keeps_closing|]]]. cbn [now]. cbv zeta. unfold schedule_close_deadline_timer.
  set (c2 := WsConnection.mk _ _ _ _ _ _ _ _). assert (conn_ok c2) as H2 by by apply (conn_ok_same c1).
  set (k := mkClosing _ _ _ _ _ _). assert (conn_ok (set_closing k c2)) as H3 by by apply conn_ok_closing.
  case_if; (split; [|split; [split; [done|done|by left]|done]]); [done|by apply conn_ok_closing].
Qed.

Lemma set_state_ok s c : conn_ok c -> (s = connected_ -> close_sent_ (closing c) = false) ->
  conn_ok (set_state clock s c) /\ keeps c (set_state clock s c) /\ trace_ (set_state clock s c) = trace_ c
  /\ get_state (set_state clock s c) = s.
Proof.
  intros H Hs. unfold set_state.
  assert (conn_ok (put_state s c)) as H1.
  { apply conn_ok_closing; [done|done|]. cbn. intros Hsent ->. by rewrite Hs in Hsent. }
  destruct s; cbn [bool_decide decide_rel];
    rewrite ?bool_decide_true, ?bool_decide_false by done.
  all: try (split; [done|split; [apply keeps_closing|done]]).
  - split; [by apply (mark_connected_ok _ H1)|]. split; [|done]. split; [done|done|by left].
  - split; [by apply conn_ok_closing|]. split; [split; [done|done|by left]|done].
Qed.

Lemma shutdown_ok c : conn_ok c -> conn_ok (shutdown c) /\ keeps c (shutdown c).
Proof.
  intros H. unfold shutdown. set (c1 := put_state _ _).
  assert (conn_ok c1) as H1.
  { destruct H as [H1 H2 H3 H4 H5]. split; try done; cbn. by apply (disciplined_state _ (get_state c)). }
  destruct (native_close_ok c1 H1) as [H2 H3]. split; [done|]. apply (keeps_trans _ c1); [|done].
  split; [done|done|by right].
Qed.

(** * Sending *)
Lemma set_parser_same c : set_parser (pkt_parser_ c) c = c.
Proof. by destruct c. Qed.

(** Packing for a connection whose output is empty. *)
Lemma pack_control_ok data type payload c : conn_ok c -> view data payload -> control_type type -> zlen payload <= 125 ->
  exists b p, pack_control_frame little rng data type c = Ok (Some [b], set_parser p c)
  /\ observe (Wrote b) = Some (Sent type payload) /\ mask_ok p /\ reads_as (pkt_parser_ c) p.
Proof.
  intros [H1 H2 H3 H4 H5] Hd Ht Hn.
  destruct (pack_control_view little rng data payload type (pkt_parser_ c) [] Hd Ht Hn H3) as (b & E & Hb).
  destruct (masked_once_ok rng _ H3) as [Hm Hu]. exists b, (masked_once rng (pkt_parser_ c)).
  split; [|split; [|split; [done|apply masked_once_reads]]].
  - unfold pack_control_frame, parser_packs, clear_output. rewrite H2. cbn [set_output output pkt_parser_ output_chunks_ outbound_queue_ outbound_queue_bytes_].
    rewrite E. mstep. by destruct c; cbn in *; subst.
  - apply (observe_wrote _ _ _ _ _ _ Hb); [|done|unfold PACKET_MAX_BYTE; lia].
    unfold opcode_ok. destruct Ht as [-> |[-> | ->]]; unfold type_close_frame, type_ping_frame, type_pong_frame; lia.
Qed.

Lemma pack_control_refused data type payload c : conn_ok c -> view data payload -> 125 < zlen payload < 4294967296 ->
  pack_control_frame little rng data type c = Ok (None, c).
Proof.
  intros [H1 H2 H3 H4 H5] Hd Hn. unfold pack_control_frame, parser_packs, clear_output. rewrite H2.
  cbn [set_output output pkt_parser_ output_chunks_ outbound_queue_ outbound_queue_bytes_].
  rewrite (pack_control_large little rng data payload) by done. mstep. by destruct c; cbn in *; subst.
Qed.

Lemma conn_ok_parser p c : conn_ok c -> mask_ok p -> conn_ok (set_parser p c).
Proof. by intros [] ?; split. Qed.
Lemma keeps_parser p c : reads_as (pkt_parser_ c) p -> keeps c (set_parser p c).
Proof. intros. split; [done|done|by left]. Qed.

(** Writing a frame that the discipline allows. *)
Lemma write_out_ok b op payload c : conn_ok c -> observe (Wrote b) = Some (Sent op payload) ->
  disciplined (close_sent_ (closing c)) (get_state c) (frames (trace_ c) ++ [op]) ->
  conn_ok (write_out [b] c) /\ keeps c (write_out [b] c).
Proof.
  intros [H1 H2 H3 H4 H5] Ho Hd. split; [|apply keeps_emit]. split; try done.
  change (disciplined (close_sent_ (closing c)) (get_state c) (frames (trace_ c ++ [Wrote b; Flushed]))).
  rewrite frames_app. assert (frames [Wrote b; Flushed] = [op]) as -> by (unfold frames; cbn [omap list_omap]; by rewrite Ho).
  done.
Qed.

(** The trace after a pong: the frame, if its payload fits in one. *)
Definition pong_of (payload : bytes) : list seen := if zlen payload <=? 125 then [Sent type_pong_frame payload] else [].

Lemma send_pong_ok data payload c : conn_ok c -> view data payload -> zlen payload < 4294967296 ->
  exists c', send_pong_frame_to little rng clock data c = Ok c' /\ conn_ok c' /\ keeps c c'
  /\ input_chunks_ c' = input_chunks_ c /\ closing c' = closing c
  /\ omap observe (trace_ c') = omap observe (trace_ c) ++ pong_of payload.
Proof.
  intros H Hd Hn. unfold send_pong_frame_to, pong_of. destruct (zlen payload <=? 125) eqn:E125.
  - destruct (pack_control_ok data type_pong_frame payload c H Hd) as (b & p & -> & Ho & Hm & Hr); [by do 2 right|lia|].
    mstep. pose proof (conn_ok_parser p c H Hm) as H1.
    destruct (write_out_ok b type_pong_frame payload (set_parser p c) H1 Ho) as [H2 H3].
    { apply disciplined_pong, H1. }
    destruct (mark_write_ok _ H2) as [H4 H5]. eexists. split; [done|]. split; [exact H4|].
    split; [exact (keeps_trans _ _ _ (keeps_trans _ _ _ (keeps_parser p c Hr) H3) H5)|]. split; [done|]. split; [done|].
    change (omap observe (trace_ c ++ [Wrote b; Flushed]) = omap observe (trace_ c) ++ [Sent type_pong_frame payload]).
    rewrite omap_app. f_equal. cbn [omap list_omap]. by rewrite Ho.
  - rewrite (pack_control_refused data type_pong_frame payload) by (done || lia). mstep. exists c. rewrite app_nil_r. done.
Qed.

Lemma send_ping_ok c : conn_ok c -> get_state c = connected_ -> runs c (send_ping_frame_to little rng clock c).
Proof.
  intros H Hs. unfold send_ping_frame_to.
  destruct (pack_control_ok ByteBuffer.default type_ping_frame [] c H view_default) as (b & p & -> & Ho & Hm & Hr); [by right; left|done|].
  mstep. pose proof (conn_ok_parser p c H Hm) as H1.
  destruct (write_out_ok b type_ping_frame [] (set_parser p c) H1 Ho) as [H2 H3].
  { apply disciplined_none; [by apply connected_not_sent|by constructor|apply H1]. }
  destruct (mark_ping_ok _ H2) as [H4 H5]. destruct (mark_write_ok _ H4) as [H6 H7].
  apply runs_ok; [exact H6|]. transitivity (set_parser p c); [by apply keeps_parser|].
  exact (keeps_trans _ _ _ H3 (keeps_trans _ _ _ H5 H7)).
Qed.

(** The close frame. *)
Definition close_payload (code : Z) : bytes := [u8 (Z.land (Z.shiftr code 8) 255); u8 (Z.land code 255)].

Lemma mark_close_sent_ok c payload b : conn_ok c -> close_sent_ (closing c) = false ->
  observe (Wrote b) = Some (Sent type_close_frame payload) ->
  let c' := mark_close_sent clock (mark_write_activity clock (write_out [b] c)) in
  conn_ok c' /\ keeps c c' /\ input_chunks_ c' = input_chunks_ c /\ close_sent_ (closing c') = true /\ get_state c' = closing_
  /\ trace_ c' = trace_ c ++ [Wrote b; Flushed].
Proof.
  intros [H1 H2 H3 H4 H5] Hs Ho. cbv zeta.
  assert (frames [Wrote b; Flushed] = [type_close_frame]) as Hf by (unfold frames; cbn [omap list_omap]; by rewrite Ho).
  assert (disciplined true closing_ (frames (trace_ c ++ [Wrote b; Flushed]))) as Hd.
  { rewrite frames_app, Hf. split; [done|]. exists (frames (trace_ c)), []. rewrite Hs in H5. done. }
  unfold mark_close_sent. change (close_sent_ (closing (mark_write_activity clock (write_out [b] c)))) with (close_sent_ (closing c)).
  rewrite Hs. cbn [now mark_write_activity]. unfold schedule_close_deadline_timer.
  case_if; (split; [split; done|]; split; [split; [done|done|by left]|done]).
Qed.

Lemma send_close_ok code c : conn_ok c ->
  exists c', send_close_frame_to little rng clock code c = Ok c' /\ conn_ok c' /\ keeps c c' /\ input_chunks_ c' = input_chunks_ c
  /\ close_sent_ (closing c') = true
  /\ (close_sent_ (closing c) = false ->
      get_state c' = closing_ /\ omap observe (trace_ c') = omap observe (trace_ c) ++ [Sent type_close_frame (close_payload code)])
  /\ (close_sent_ (closing c) = true -> c' = c).
Proof.
  intros H. unfold send_close_frame_to. destruct (close_sent_ (closing c)) eqn:Es; [by exists c|].
  destruct (append_u8_view little (ByteBuffer.with_capacity 2) [] (u8 (Z.land (Z.shiftr code 8) 255))) as (b1 & -> & Hb1);
    [by apply view_new|apply u8_range|]. mstep.
  destruct (append_u8_view little b1 _ (u8 (Z.land code 255)) Hb1) as (b2 & -> & Hb2); [apply u8_range|]. mstep.
  destruct (pack_control_ok b2 type_close_frame (close_payload code) c H Hb2) as (b & p & -> & Ho & Hm & Hr); [by left|done|]. mstep.
  pose proof (conn_ok_parser p c H Hm) as H1.
  destruct (mark_close_sent_ok (set_parser p c) _ b H1 Es Ho) as (Hok & Hk & Hi & Hsent & Hst & Htr).
  eexists. split; [done|]. split; [done|]. split; [exact (keeps_trans _ _ _ (keeps_parser p c Hr) Hk)|].
  split; [done|]. split; [done|]. split; [|done]. intros _. split; [done|]. rewrite Htr. cbn [trace_ set_parser].
  rewrite omap_app. f_equal. cbn [omap list_omap]. by rewrite Ho.
Qed.

Lemma close_runs code c : conn_ok c -> runs c (close little rng clock code c).
Proof.
  intros H. unfold close. case_if; [by apply runs_ok|]. rewrite (co_bound _ H : conn_ (settings (put_state closing_ c)) = true).
  destruct (send_close_ok code (put_state closing_ c)) as (c' & -> & Hok & Hk & _); [by apply conn_ok_state|].
  apply runs_ok; [done|]. exact (keeps_trans _ _ _ (keeps_closing _ c) Hk).
Qed.

(** The messages an application may send: anything but a raw close frame. *)
Lemma queue_and_flush_ok bufs ops c : conn_ok c -> close_sent_ (closing c) = false -> frames (map Wrote bufs) = ops ->
  Forall (fun op => op <> type_close_frame) ops ->
  conn_ok (queue_and_flush clock bufs c).2 /\ keeps c (queue_and_flush clock bufs c).2.
Proof.
  intros H Hs Hops Hn. unfold queue_and_flush, enqueue_output. rewrite (co_output _ H). cbn [output_chunks_ outbound_queue_ outbound_queue_bytes_].
  case_if; [by split|]. case_if; [by split|]. cbv zeta beta. unfold flush_output_queue.
  rewrite (co_bound _ H : conn_ (settings (set_output _ c)) = true). cbn [negb snd].
  split; [|split; [done|done|by left]]. destruct H as [H1 H2 H3 H4 H5]. split; try done.
  change (disciplined (close_sent_ (closing c)) (get_state c) (frames ((trace_ c ++ map Wrote ([] ++ bufs)) ++ [Flushed]))).
  rewrite !frames_app. change (frames [Flushed]) with (@nil Z). cbn [app]. rewrite app_nil_r, Hops. by apply disciplined_none.
Qed.

(** A payload the application may hand over. *)
Definition payload_ok (buf : ByteBuffer.t) : Prop := exists d, view buf d /\ zlen d < 4294967296.

Lemma opcode_frames (masked : bool) type ps : forall continued keys cs bufs, WsParser.header_type type = true ->
  Forall2 view bufs cs -> length keys = length ps -> Forall key_ok keys -> Forall (fun q => zlen q <= PACKET_MAX_BYTE) ps ->
  cs = wire_pieces masked type continued keys ps -> type <> type_close_frame ->
  Forall (fun op => op <> type_close_frame) (frames (map Wrote bufs)).
Proof.
  induction ps as [|q ps IH]; intros continued [|key keys] cs bufs Ht Hv Hl Hk Hq -> Hne; try done.
  - apply Forall2_nil_inv_r in Hv as ->. constructor.
  - cbn [wire_pieces] in Hv. apply Forall2_cons_inv_r in Hv as (b & bufs' & Hb & Hv & ->).
    apply Forall_cons in Hk as [Hkey Hk]. apply Forall_cons in Hq as [Hq Hqs].
    cbn [map]. change (Wrote b :: map Wrote bufs') with ([Wrote b] ++ map Wrote bufs'). rewrite frames_app. apply Forall_app. split.
    + assert (opcode_ok (frame_op type continued)) as Hop.
      { unfold WsParser.header_type, type_text_frame, type_binary_frame, type_close_frame, type_ping_frame, type_pong_frame in Ht.
        unfold frame_op, opcode_ok. destruct continued; lia. }
      unfold frames. cbn [omap list_omap]. rewrite (observe_wrote _ _ _ _ _ _ Hb Hop Hkey Hq). cbn. constructor; [|constructor].
      unfold frame_op. by destruct continued.
    + apply (IH true keys (wire_pieces masked type true keys ps) bufs'); try done. cbn in Hl. lia.
Qed.

Lemma send_runs buf pktType c : conn_ok c -> payload_ok buf -> pktType <> close_ ->
  exists ok c', send little rng clock buf pktType c = Ok (ok, c') /\ conn_ok c' /\ keeps c c'.
Proof.
  intros H (d & Hd & Hlt) Hne. unfold send. case_bool_decide as Hst; cbn [negb]; [|by exists false, c].
  rewrite (co_bound _ H). cbn [negb]. pose proof (connected_not_sent _ H Hst) as Hsent.
  case_bool_decide as Hctl.
  - assert (control_type (packet_type pktType)) as Ht by (destruct Hctl as [-> |[-> | ->]]; [done|by right; left|by do 2 right]).
    destruct (Z.le_gt_cases (zlen d) 125) as [H125|H125].
    + destruct (pack_control_ok buf (packet_type pktType) d c H Hd Ht H125) as (b & p & -> & Ho & Hm & Hr). mstep.
      destruct (queue_and_flush_ok [b] [packet_type pktType] (set_parser p c)) as [H1 H2]; [by apply conn_ok_parser|done| | |].
      { unfold frames. cbn [map omap list_omap]. by rewrite Ho. }
      { constructor; [|constructor]. by destruct pktType. }
      eexists _, _. split; [by rewrite (surjective_pairing (queue_and_flush _ _ _))|]. split; [done|].
      exact (keeps_trans _ _ _ (keeps_parser p c Hr) H2).
    + rewrite (pack_control_refused buf (packet_type pktType) d) by (done || lia). mstep. by exists false, c.
  - assert (packet_type pktType = type_text_frame \/ packet_type pktType = type_binary_frame) as Ht
      by (destruct pktType; (by left) || (by right) || (exfalso; tauto)).
    unfold parser_packs. rewrite (co_output _ H). cbn [output_chunks_ outbound_queue_ outbound_queue_bytes_].
    destruct (pack_view little rng buf (packet_type pktType) d (pkt_parser_ c) Hd Ht (co_mask _ H) Hlt)
      as (p & bufs & cs & keys & E & Hv & Hm & Hu & Hr & Hl & Hk & Hcs & Hq).
    rewrite E. mstep. set (c1 := set_parser p _).
    assert (clear_output c1 = set_parser p c) as Ec1.
    { unfold clear_output, c1. pose proof (co_output _ H). destruct c; cbn in *; by subst. }
    rewrite Ec1. cbn [output set_parser set_output c1 output_chunks_].
    destruct (queue_and_flush_ok bufs _ (set_parser p c) (conn_ok_parser p c H Hm) Hsent eq_refl) as [H1 H2].
    { eapply (opcode_frames (WsParser.use_mask_ (pkt_parser_ c)) (packet_type pktType) _ false keys cs); try done.
      - by destruct Ht as [-> | ->].
      - by destruct Ht as [-> | ->]. }
    eexists _, _. split; [by rewrite (surjective_pairing (queue_and_flush _ _ _))|]. split; [done|].
    exact (keeps_trans _ _ _ (keeps_parser p c Hr) H2).
Qed.

(** * Timers *)
Lemma check_pong_ok c : conn_ok c -> conn_ok (check_pong_deadline clock c) /\ keeps c (check_pong_deadline clock c).
Proof.
  intros H. unfold check_pong_deadline. case_if; [by split|]. cbn [now]. cbv zeta.
  set (c1 := WsConnection.mk _ _ _ _ _ _ _ _). assert (conn_ok c1) as H1 by by apply (conn_ok_same c).
  assert (keeps c c1) as Hk by (split; [done|done|by left]). case_if; [|done].
  destruct (force_close_ok c1 H1). split; [done|by transitivity c1].
Qed.

Lemma heartbeat_runs c : conn_ok c -> runs c (heartbeat little rng clock c).
Proof.
  intros H. unfold heartbeat. set (c1 := if conn_ (settings c) && connected c then check_pong_deadline clock c else c).
  assert (conn_ok c1 /\ keeps c c1) as [H1 Hk].
  { unfold c1. case_if; [by apply check_pong_ok|by split]. }
  case_if; [|by apply runs_ok]. apply andb_true_iff in Hif as [_ Hs%bool_decide_eq_true].
  destruct (send_ping_ok c1 H1 Hs) as (c2 & -> & H2 & Hk2). apply runs_ok; [done|by transitivity c1].
Qed.

Lemma close_deadline_ok c : conn_ok c -> conn_ok (close_deadline c) /\ keeps c (close_deadline c).
Proof. intros H. unfold close_deadline. case_bool_decide; [by apply force_close_ok|by split]. Qed.

Lemma try_set_heartbeat_ok c : conn_ok c ->
  conn_ok (try_set_heartbeat_timer c) /\ keeps c (try_set_heartbeat_timer c).
Proof.
  intros H. unfold try_set_heartbeat_timer. set (c1 := WsConnection.mk _ _ _ _ _ _ _ _).
  assert (conn_ok c1) as H1 by by destruct H. assert (keeps c c1) as Hk by (split; [done|done|by left]).
  destruct (config_ (settings c)); [|by split]. case_if; [|by split]. split; [by apply conn_ok_times|split; [done|done|by left]].
Qed.

(** * Dispatching *)
Section Dispatch.
Variable on_data : option (ByteBuffer.t -> t -> outcome t).

Lemma chunk_wf_payload chunk : chunk_wf chunk -> payload_ok (body_ chunk) /\ is_completed chunk = true.
Proof.
  intros (m & Hm & Hl & Hlt). split; [by exists m.2; destruct Hm as (_ & _ & ?)|].
  destruct m as [h d]. apply (chunk_completed chunk h d); [done|]. by symmetry.
Qed.

Lemma call_on_data_runs body c : (forall f, on_data = Some f -> forall c, conn_ok c -> runs c (f body c)) ->
  conn_ok c -> runs c (call_on_data on_data body c).
Proof.
  intros Hf H. unfold call_on_data. destruct on_data as [f|]; [|by apply runs_ok].
  destruct (Hf f eq_refl (emit [Data body] c)) as (c' & E & Ho & Hk); [by apply conn_ok_silent|].
  exists c'. split; [done|]. split; [done|]. exact (keeps_trans _ _ _ (keeps_emit _ c) Hk).
Qed.

Hypothesis handler : forall f body, on_data = Some f -> forall c, conn_ok c -> runs c (f body c).

Lemma dispatch_loop_runs fuel i c : conn_ok c -> (length (input_chunks_ c) <= fuel + i)%nat ->
  exists r c', dispatch_loop little rng clock on_data fuel i c = Ok (r, c') /\ conn_ok c' /\ keeps c c'.
Proof.
  revert i c. induction fuel as [|fuel IH]; intros i c H Hf; cbn [dispatch_loop].
  { rewrite lookup_ge_None_2 by lia. by exists None, c. }
  destruct (input_chunks_ c !! i) as [chunk|] eqn:E; [|by exists None, c].
  assert (chunk_wf chunk) as Hw by exact (Forall_lookup_1 _ _ _ _ (co_input _ H) E).
  destruct (chunk_wf_payload _ Hw) as [Hp ->]. cbn [negb].
  assert (Hnext : forall c1, conn_ok c1 -> keeps c c1 ->
    exists r c', dispatch_loop little rng clock on_data fuel (S i) c1 = Ok (r, c') /\ conn_ok c' /\ keeps c c').
  { intros c1 H1 Hk. destruct (IH (S i) c1 H1) as (r & c2 & E2 & H2 & Hk2).
    { destruct (ke_input _ _ Hk) as [-> | ->]; [lia|cbn; lia]. }
    exists r, c2. split; [done|]. split; [done|]. by transitivity c1. }
  case_if. { destruct (mark_close_received_ok c H) as (H1 & Hk & _). by eexists _, _. }
  case_if. { destruct Hp as (d & Hd & Hlt). destruct (send_pong_ok (body_ chunk) d c H Hd Hlt) as (c1 & -> & H1 & Hk & _). mstep. by apply Hnext. }
  case_if. { destruct (mark_pong_ok c H) as [H1 Hk]. by apply Hnext. }
  case_if; [|by exists (Some error_), c].
  destruct (call_on_data_runs (body_ chunk) c (fun f Hs => handler f _ Hs) H) as (c1 & -> & H1 & Hk). mstep. by apply Hnext.
Qed.

Lemma dispatch_frames_runs c : conn_ok c ->
  exists r c', dispatch_frames little rng clock on_data c = Ok (r, c') /\ conn_ok c' /\ keeps c c'.
Proof.
  intros H. unfold dispatch_frames. destruct (mark_read_ok c H) as [H1 Hk].
  destruct (dispatch_loop_runs (length (input_chunks_ (mark_read_activity clock c))) 0 _ H1) as (r & c' & -> & H2 & Hk2); [lia|].
  mstep. assert (keeps c c') as Hk3 by exact (keeps_trans _ _ _ Hk Hk2).
  assert (conn_ok (set_input [] c') /\ keeps c (set_input [] c')) as [H4 Hk4].
  { split; [by apply conn_ok_input|]. destruct Hk3. split; [done|done|by right]. }
  destruct r as [[]|]; by eexists _, _.
Qed.
End Dispatch.

(** What the messages of a dispatch lead to when the application only listens: pongs with
    the payload of the pings, and the data; nothing after a close message. *)
Definition reply (m : message) : list seen :=
  if is_ping_frame m.1 then pong_of m.2 else if is_pong_frame m.1 then [] else [Delivered m.2].
Fixpoint replies (ms : list message) : list seen :=
  match ms with [] => [] | m :: ms => if is_close_frame m.1 then [] else reply m ++ replies ms end.
Definition has_close (ms : list message) : bool := existsb (fun m => is_close_frame m.1) ms.

Definition listen : option (ByteBuffer.t -> t -> outcome t) := Some (fun _ c => Ok c).

Definition message_fits (m : message) : Prop := zlen m.2 = extend_pay_load_len_ m.1 /\ zlen m.2 < 4294967296.

Lemma reply_step fuel i c chunk m : conn_ok c -> input_chunks_ c !! i = Some chunk -> chunk_is chunk m -> message_fits m ->
  is_close_frame m.1 = false ->
  exists c', dispatch_loop little rng clock listen (S fuel) i c = dispatch_loop little rng clock listen fuel (S i) c'
  /\ conn_ok c' /\ keeps c c' /\ input_chunks_ c' = input_chunks_ c
  /\ omap observe (trace_ c') = omap observe (trace_ c) ++ reply m /\ closing c' = closing c.
Proof.
  intros H Hi Hm [Hn Hlt] Hcl. cbn [dispatch_loop]. rewrite Hi. assert (chunk_wf chunk) as Hw by by exists m.
  destruct (chunk_wf_payload _ Hw) as [_ ->]. cbn [negb]. unfold reply.
  destruct Hm as (_ & -> & Hv). rewrite Hcl. destruct (is_ping_frame m.1).
  { destruct (send_pong_ok (body_ chunk) m.2 c H Hv Hlt) as (c1 & -> & H1 & Hk & Hin & Hc & Ht). mstep. by exists c1. }
  destruct (is_pong_frame m.1).
  { destruct (mark_pong_ok c H) as [H1 Hk]. exists (mark_pong_received clock c). rewrite app_nil_r. done. }
  rewrite (view_empty _ _ Hv). assert (negb (bool_decide (m.2 = [])) || (extend_pay_load_len_ m.1 =? 0) = true) as ->.
  { case_bool_decide as Hnil; [|done]. rewrite <- Hn, Hnil. done. }
  cbn [call_on_data listen]. mstep. exists (emit [Data (body_ chunk)] c). split; [done|].
  split; [by apply conn_ok_silent|]. split; [apply keeps_emit|]. split; [done|]. split; [|done]. cbn [trace_ emit].
  rewrite omap_app. f_equal. cbn [omap list_omap observe]. by destruct Hv as [_ ->].
Qed.

Lemma dispatch_loop_replies ms fuel i c : conn_ok c -> Forall2 chunk_is (drop i (input_chunks_ c)) ms ->
  Forall message_fits ms -> (length ms <= fuel)%nat ->
  exists c', dispatch_loop little rng clock listen fuel i c = Ok (if has_close ms then Some close_result_ else None, c')
  /\ conn_ok c' /\ keeps c c' /\ omap observe (trace_ c') = omap observe (trace_ c) ++ replies ms
  /\ close_sent_ (closing c') = close_sent_ (closing c) /\ (has_close ms = false -> closing c' = closing c).
Proof.
  revert fuel i c. induction ms as [|m ms IH]; intros fuel i c H Hd Hf Hfuel.
  { apply Forall2_nil_inv_r in Hd. assert (input_chunks_ c !! i = None) as Hi.
    { apply lookup_ge_None. assert (length (drop i (input_chunks_ c)) = 0%nat) as Hz by by rewrite Hd. rewrite length_drop in Hz. lia. }
    exists c. rewrite app_nil_r. split; [|done]. destruct fuel; cbn [dispatch_loop]; by rewrite Hi. }
  apply Forall2_cons_inv_r in Hd as (chunk & rest & Hm & Hrest & Edrop). apply Forall_cons in Hf as [Hfit Hf].
  assert (input_chunks_ c !! i = Some chunk) as Hi.
  { rewrite <- (Nat.add_0_r i), <- lookup_drop, Edrop. done. }
  assert (drop (S i) (input_chunks_ c) = rest) as Edrop'.
  { rewrite <- Nat.add_1_r, <- drop_drop, Edrop. done. }
  destruct fuel as [|fuel]; [cbn in Hfuel; lia|]. cbn [replies has_close existsb].
  destruct (is_close_frame m.1) eqn:Ecl; cbn [orb].
  - cbn [dispatch_loop]. rewrite Hi. assert (chunk_wf chunk) as Hw by (exists m; destruct Hfit; done).
    destruct (chunk_wf_payload _ Hw) as [_ ->]. cbn [negb]. destruct (proj2 Hm) as [-> _]. rewrite Ecl.
    destruct (mark_close_received_ok c H) as (H1 & Hk & _). eexists. split; [done|]. split; [done|]. split; [done|].
    rewrite app_nil_r. unfold mark_close_received. case_if; [|done]. cbn [now]. unfold schedule_close_deadline_timer. by case_if.
  - destruct (reply_step fuel i c chunk m H Hi Hm Hfit Ecl) as (c1 & E & H1 & Hk & Hin & Ht & Hc).
    destruct (IH fuel (S i) c1 H1) as (c2 & E2 & H2 & Hk2 & Ht2 & Hs2 & Hc2); [by rewrite Hin, Edrop'|done|cbn in Hfuel; lia|].
    exists c2. rewrite E. split; [exact E2|]. split; [done|]. split; [by transitivity c1|].
    split; [by rewrite Ht2, Ht, <- app_assoc|]. split; [congruence|]. intros Hno. rewrite Hc2 by done. done.
Qed.
End Facts.
