(* ===== verification/WsServer.v ===== *)
(** The WebSocket server: [protocol/websocket/entry/server.cpp], from the end of the HTTP
    handshake to the end of the session, and the rate limits.

    A session waits for bytes between two steps; what happens meanwhile (timers, the
    application, the other sessions that share the rate limits) is [session_step]. *)
From stdpp Require Import gmap strings.
From S2P Require Import Prelude Strings ByteBuffer WsProtocol WsParser WsConnection.
Import WsProtocol.

Module WsServer.

Definition DEFAULT_RATE_LIMIT_WINDOW_MS : Z := 1000.

Record RateState : Type := mkRate { window_start_ms : Z; count : Z }.
Abbreviation rates := (gmap bytes RateState).

Definition allow_rate (states : rates) (ip : bytes) (max_count window_ms now : Z) : bool * rates :=
  if (max_count =? 0) || bool_decide (ip = []) then (true, states)
  else
    let effective_window := if window_ms =? 0 then DEFAULT_RATE_LIMIT_WINDOW_MS else window_ms in
    let state := default (mkRate 0 0) (states !! ip) in
    let state := if (window_start_ms state =? 0) || (now <? window_start_ms state)
                    || (effective_window <=? u32 (now - window_start_ms state))
                 then mkRate now 0 else state in
    if max_count <=? count state then (false, <[ip := state]> states)
    else (true, <[ip := mkRate (window_start_ms state) (u32 (count state + 1))]> states).

(** The application: [WebSocketDataHandler]. *)
Record DataHandler : Type := mkHandler {
  on_data : ByteBuffer.t -> WsConnection.t -> outcome WsConnection.t;
  on_connected : WsConnection.t -> outcome WsConnection.t;
  on_close : WsConnection.t -> outcome WsConnection.t
}.

(** Whether a session waits for bytes, and its connection. *)
Abbreviation session := (bool * WsConnection.t)%type.

Section Session.
Variable little : bool.
Variable rng : nat -> Z.
Variable clock : nat -> Z.
Variable data_handler_ : option DataHandler.

Import WsConnection.

Definition on_connected_cb (c : t) : outcome t :=
  match data_handler_ with
  | Some h => on_connected h (emit [OnConnected] (try_set_heartbeat_timer c))
  | None => Ok c
  end.
Definition on_close_cb (c : t) : outcome t :=
  match data_handler_ with Some h => on_close h (emit [OnClose] c) | None => Ok c end.

(** [send_close_frame_to(conn, code); ctx.close()] *)
Definition refuse (code : Z) (c : t) : outcome t := c ← send_close_frame_to little rng clock code c; Ok (emit [NativeClosed] c).

(** [set_state(closed_); on_close_cb] *)
Definition finish (c : t) : outcome t := on_close_cb (set_state clock closed_ c).

(** Frames are dispatched; whether the session goes on. *)
Definition dispatch (c : t) : outcome (bool * t) :=
  '(result, c) ← dispatch_frames little rng clock (option_map on_data data_handler_) c;
  match result with
  | ok_ => Ok (true, c)
  | close_result_ => c ← refuse normal_close_ c; Ok (false, c)
  | error_ => c ← refuse invalid_palyload_ c; Ok (false, c)
  end.

(** Whether the loop goes on, [while (wsConn->connected())]; otherwise the session ends. *)
Definition loop_head (c : t) : outcome (bool * t) :=
  if connected c then Ok (true, c) else c ← finish c; Ok (false, c).

(** What a read does: [None] when it failed or timed out. [allowed] is the answer of the
    rate limit, which is asked when there is data. *)
Definition on_read (data : option ByteBuffer.t) (allowed : bool) (c : t) : outcome (bool * t) :=
  match data with
  | None => c ← finish c; Ok (false, c)
  | Some data =>
      if negb allowed then c ← refuse policy_violation_ c; c ← finish c; Ok (false, c)
      else
        '(ok, c) ← unpack_from little data c;
        if negb ok then c ← refuse invalid_palyload_ c; c ← finish c; Ok (false, c)
        else
          '(on, c) ← dispatch c;
          if (on : bool) then loop_head c else c ← finish c; Ok (false, c)
  end.

(** From the end of the handshake to the first wait: the bytes after the request, then
    the frames in them. The refusal by the rate limit returns at once. *)
Definition start (leftover : ByteBuffer.t) (allowed : bool) (c : t) : outcome (bool * t) :=
  c ← on_connected_cb (set_state clock connected_ c);
  if negb (ByteBuffer.empty leftover) && negb allowed then
    c ← refuse policy_violation_ c; Ok (false, c)
  else
    '(ok, c) ← (if ByteBuffer.empty leftover then Ok (true, c) else unpack_from little leftover c);
    if negb ok then c ← refuse invalid_palyload_ c; c ← finish c; Ok (false, c)
    else
      '(on, c) ← (match input_chunks_ c with [] => Ok (true, c) | _ => dispatch c end);
      if (on : bool) then loop_head c else c ← finish c; Ok (false, c).

(** The application between the steps of the session. *)
Inductive app_op : Type := Send (buf : ByteBuffer.t) (pktType : PacketType) | Close (code : Z) | Shutdown.
Definition run_op (op : app_op) (c : t) : outcome t :=
  match op with
  | Send buf pktType => '(_, c) ← send little rng clock buf pktType c; Ok c
  | Close code => close little rng clock code c
  | Shutdown => Ok (shutdown c)
  end.

(** [ops_ok] says which calls the application makes, [data_ok] what a buffer of bytes is. *)
Inductive session_step (ops_ok : app_op -> Prop) (data_ok : ByteBuffer.t -> Prop) : session -> session -> Prop :=
| Step_read data allowed c s : data_ok data -> on_read (Some data) allowed c = Ok s -> session_step ops_ok data_ok (true, c) s
| Step_end allowed c s : on_read None allowed c = Ok s -> session_step ops_ok data_ok (true, c) s
| Step_heartbeat on c c' : heartbeat_timer_ (times c) = true -> heartbeat little rng clock c = Ok c' ->
    session_step ops_ok data_ok (on, c) (on, c')
| Step_deadline on c : close_deadline_timer_ (closing c) = true -> session_step ops_ok data_ok (on, c) (on, close_deadline c)
| Step_app on op c c' : ops_ok op -> run_op op c = Ok c' -> session_step ops_ok data_ok (on, c) (on, c').
End Session.
End WsServer.
