(* ===== verification/WsServerFacts.v ===== *)
(** Lemmas on WebSocket sessions: their invariant, that every step ends, and what a
    session whose application only listens sends back. *)
From stdpp Require Import gmap.
From stdpp Require Import relations.
From S2P Require Import Prelude Endian ByteBuffer ByteBufferFacts Strings WsProtocol WsParser WsReference WsParserFacts.
From S2P Require Import WsStreamFacts WsConnection WsConnectionFacts WsServer.

(** * The rate limits of the WebSocket server: how many calls an address is allowed in an
    interval of time, whatever other addresses do. *)
Import WsServer.

(** The calls of a server, each with its address and its time, and their answers. *)
Fixpoint run_calls (max_count window_ms : Z) (states : rates) (calls : list (bytes * Z)) : list (bytes * Z * bool) :=
  match calls with
  | [] => []
  | (ip, now) :: calls =>
      let '(allowed, states) := allow_rate states ip max_count window_ms now in
      (ip, now, allowed) :: run_calls max_count window_ms states calls
  end.

(** The calls of [ip] that are allowed in the interval from [a], of [w] milliseconds. *)
Definition counts (ip : bytes) (a w : Z) (r : bytes * Z * bool) : bool :=
  bool_decide (r.1.1 = ip) && r.2 && (a <=? r.1.2) && (r.1.2 <? a + w).
Definition allowed_in (ip : bytes) (a w : Z) (log : list (bytes * Z * bool)) : Z := zlen (List.filter (counts ip a w) log).

(** Times that do not go back. *)
Fixpoint ordered (from : Z) (calls : list (bytes * Z)) : Prop :=
  match calls with [] => True | (_, now) :: calls => from <= now < 4294967296 /\ ordered now calls end.

Lemma ordered_weaken a b calls : a <= b -> ordered b calls -> ordered a calls.
Proof. destruct calls as [|[? ?]]; cbn; [done|]. intros ? [[? ?] ?]. split; [lia|done]. Qed.

Lemma allowed_in_cons ip a w r log : allowed_in ip a w (r :: log) = (if counts ip a w r then 1 else 0) + allowed_in ip a w log.
Proof. unfold allowed_in. cbn [List.filter]. case_if; [by rewrite zlen_cons|done]. Qed.

Section Limit.
Variables (max_count w : Z) (ip : bytes).
Hypotheses (Hmax : 0 < max_count < 4294967296) (Hw : 0 < w < 4294967296) (Hip : ip <> []).

(** Nothing is allowed in an interval that is over. *)
Lemma late states calls a from : ordered from calls -> a + w <= from -> allowed_in ip a w (run_calls max_count w states calls) = 0.
Proof.
  revert states from. induction calls as [|[i now] calls IH]; intros states from; cbn [ordered run_calls]; [done|].
  intros [[Hf Hn] Ho] Ha. destruct (allow_rate states i max_count w now) as [b st]. rewrite allowed_in_cons, (IH st now) by (done || lia).
  unfold counts. cbn [fst snd]. assert ((now <? a + w) = false) as -> by lia. by rewrite andb_false_r.
Qed.

(** What a call does to the window of its address. *)
Lemma allow_rate_self states now : exists b st, allow_rate states ip max_count w now = (b, st)
  /\ let s := default (mkRate 0 0) (states !! ip) in
     let s := if (window_start_ms s =? 0) || (now <? window_start_ms s) || (w <=? u32 (now - window_start_ms s)) then mkRate now 0 else s in
     b = (count s <? max_count) /\ st !! ip = Some (if b then mkRate (window_start_ms s) (u32 (count s + 1)) else s).
Proof.
  unfold allow_rate. rewrite bool_decide_false by done. assert ((max_count =? 0) = false) as -> by lia. cbn [orb].
  assert ((w =? 0) = false) as -> by lia. cbv zeta. set (s := if _ || _ || _ then _ else _).
  destruct (Z.leb_spec max_count (count s)) as [H|H].
  - exists false, (<[ip := s]> states). split; [done|]. split; [lia|by rewrite lookup_insert_eq].
  - exists true, (<[ip := mkRate (window_start_ms s) (u32 (count s + 1))]> states). split; [done|]. split; [lia|by rewrite lookup_insert_eq].
Qed.

Lemma allow_rate_other states i now b st : i <> ip -> allow_rate states i max_count w now = (b, st) -> st !! ip = states !! ip.
Proof.
  intros Hne. unfold allow_rate. case_if; [by intros [= <- <-]|]. cbv zeta.
  case_if; intros [= <- <-]; by rewrite lookup_insert_ne.
Qed.

(** A window that is open since [start] allows [max_count - n] more calls; at most one
    window more begins within an interval that began after it. *)
Lemma window_bound calls states a start n from : states !! ip = Some (mkRate start n) -> 0 < start -> 0 <= n <= max_count ->
  start <= from -> ordered from calls ->
  allowed_in ip a w (run_calls max_count w states calls)
  <= (if a <=? start then max_count - n else if a <=? from then 2 * max_count - n else 2 * max_count).
Proof.
  revert states start n from.
  induction calls as [|[i now] calls IH]; intros states start n from Hs Hstart Hn Hfrom Ho; cbn [run_calls].
  { unfold allowed_in, zlen. cbn [List.filter length]. repeat case_if; lia. }
  destruct Ho as [[Hf Hnow] Ho].
  destruct (decide (i = ip)) as [->|Hne].
  2:{ destruct (allow_rate states i max_count w now) as [b st] eqn:E. rewrite allowed_in_cons. unfold counts at 1. cbn [fst snd].
      rewrite bool_decide_false by done. cbn [andb]. rewrite Z.add_0_l. rewrite <- (allow_rate_other _ _ _ _ _ Hne E) in Hs.
      pose proof (IH st start n now Hs Hstart Hn ltac:(lia) Ho).
      destruct (a <=? start) eqn:Ea, (a <=? now) eqn:E2, (a <=? from) eqn:E3; lia. }
  destruct (allow_rate_self states now) as (b & st & -> & Hb). rewrite Hs in Hb. change (default (mkRate 0 0) (Some (mkRate start n))) with (mkRate start n) in Hb. cbv zeta in Hb. cbn [window_start_ms count] in Hb.
  rewrite allowed_in_cons. unfold counts at 1. cbn [fst snd]. rewrite bool_decide_true by done. cbn [andb].
  assert (u32 (now - start) = now - start) as Eu by (apply u32_id; unfold is_u32; lia). rewrite Eu in Hb.
  assert ((start =? 0) || (now <? start) = false) as E0 by lia. rewrite E0 in Hb. cbn [orb] in Hb.
  destruct (w <=? now - start) eqn:Ew; cbn [window_start_ms count] in Hb; destruct Hb as [-> Hst].
  - assert ((0 <? max_count) = true) as E1 by lia. rewrite E1 in *. cbn [andb]. change (u32 (0 + 1)) with 1 in Hst.
    assert (0 < now) as Hpos by lia. assert (0 <= 1 <= max_count) as H1 by lia.
    destruct (a <=? start) eqn:Ea.
    + rewrite (late st calls a now) by (done || lia). case_if; lia.
    + pose proof (IH st now 1 now Hst Hpos H1 ltac:(lia) Ho) as Hrec.
      destruct (a <=? now) eqn:E2, (now <? a + w), (a <=? from) eqn:E3; cbn [andb]; lia.
  - destruct (n <? max_count) eqn:En; cbn [andb].
    + rewrite u32_id in Hst by (unfold is_u32; lia). assert (0 <= n + 1 <= max_count) as H1 by lia.
      pose proof (IH st start (n + 1) now Hst Hstart H1 ltac:(lia) Ho) as Hrec.
      destruct (a <=? start) eqn:Ea, (a <=? now) eqn:E2, (now <? a + w), (a <=? from) eqn:E3; cbn [andb]; lia.
    + pose proof (IH st start n now Hst Hstart Hn ltac:(lia) Ho) as Hrec.
      destruct (a <=? start) eqn:Ea, (a <=? now) eqn:E2, (a <=? from) eqn:E3; cbn [andb]; lia.
Qed.

Lemma first_window calls states a : states !! ip = None -> ordered 1 calls ->
  allowed_in ip a w (run_calls max_count w states calls) <= 2 * max_count.
Proof.
  intros Hs Ho. assert (exists from, 1 <= from /\ ordered from calls) as (from & Hfrom & Ho') by by exists 1.
  clear Ho. revert states from Hs Hfrom Ho'. induction calls as [|[i now] calls IH]; intros states from Hs Hfrom Ho; cbn [run_calls].
  { unfold allowed_in, zlen. cbn. lia. }
  destruct Ho as [[Hf Hnow] Ho]. destruct (decide (i = ip)) as [->|Hne].
  2:{ destruct (allow_rate states i max_count w now) as [b st] eqn:E. rewrite allowed_in_cons. unfold counts at 1. cbn [fst snd].
      rewrite bool_decide_false by done. cbn [andb]. rewrite Z.add_0_l. apply (IH st now); try done; try lia.
      by rewrite (allow_rate_other _ _ _ _ _ Hne E). }
  destruct (allow_rate_self states now) as (b & st & -> & Hb). rewrite Hs in Hb. change (default (mkRate 0 0) None) with (mkRate 0 0) in Hb. cbv zeta in Hb. cbn [window_start_ms count Z.eqb orb] in Hb.
  destruct Hb as [-> Hst]. assert ((0 <? max_count) = true) as E1 by lia. rewrite E1 in *. change (u32 (0 + 1)) with 1 in Hst.
  rewrite allowed_in_cons. pose proof (window_bound calls st a now 1 now Hst ltac:(lia) ltac:(lia) ltac:(lia) Ho) as Hrec.
  unfold counts at 1. cbn [fst snd]. rewrite bool_decide_true by done. cbn [andb].
  destruct (a <=? now) eqn:E2, (now <? a + w); cbn [andb]; lia.
Qed.
End Limit.
Import WsProtocol WsConnection WsServer.

(** * Reading and the mask *)
(** Reading leaves the mask alone. *)
Definition same_mask (p p' : WsParser.t) : Prop := WsParser.mask_ p' = WsParser.mask_ p /\ WsParser.use_mask_ p' = WsParser.use_mask_ p.

Lemma same_mask_trans p q r : same_mask p q -> same_mask q r -> same_mask p r.
Proof. unfold same_mask. intros [? ?] [? ?]. split; congruence. Qed.

Lemma append_completed_mask conn c p input ok p' input' : WsParser.append_completed_frame conn c p input = Ok (ok, p', input') ->
  same_mask p p'.
Proof.
  unfold WsParser.append_completed_frame. case_if; [by intros [= <- <- <-]|]. intros (c1 & _ & H)%outcome_bind_inv. case_if_in H.
  { apply outcome_bind_inv in H as (v & _ & H). destruct v; by injection H as <- <- <-. }
  case_if_in H.
  { unfold WsParser.append_continuation in H. apply outcome_bind_inv in H as (b & _ & H). case_if_in H; [by injection H as <- <- <-|].
    case_if_in H; [|by injection H as <- <- <-]. apply outcome_bind_inv in H as (v & _ & H). destruct v; by injection H as <- <- <-. }
  case_if_in H; [|by injection H as <- <- <-]. apply outcome_bind_inv in H as (v & _ & H). destruct v; by injection H as <- <- <-.
Qed.

Lemma unpack_loop_mask little fuel conn p input ok p' input' : WsParser.unpack_loop little fuel conn p input = Ok (ok, p', input') ->
  same_mask p p'.
Proof.
  revert p input. induction fuel as [|fuel IH]; intros p input; [done|]. cbn [WsParser.unpack_loop].
  intros ([[r pend] buf] & _ & H)%outcome_bind_inv. case_if_in H; [by injection H as <- <- <-|].
  case_if_in H. { apply outcome_bind_inv in H as (b & _ & H). by injection H as <- <- <-. }
  apply outcome_bind_inv in H as ([[ok1 p1] in1] & E1 & H). apply append_completed_mask in E1.
  case_if_in H; [by injection H as <- <- <-|]. apply outcome_bind_inv in H as (b & _ & H). case_if_in H.
  { apply outcome_bind_inv in H as (b' & _ & H). by injection H as <- <- <-. }
  apply IH in H. exact (same_mask_trans _ _ _ E1 H).
Qed.

Lemma unpack_from_mask little conn data p input ok p' input' : WsParser.unpack_from little conn data p input = Ok (ok, p', input') ->
  same_mask p p'.
Proof. unfold WsParser.unpack_from. intros (b & _ & H)%outcome_bind_inv. by apply unpack_loop_mask in H. Qed.

Lemma parser_ok_reads conn p p' l open : reads_as p p' -> parser_ok conn p l open -> parser_ok conn p' l open.
Proof.
  intros (Hb & Hp & Hf & Hh) [H1 H2 H3]. split; [by rewrite Hb, Hp|by rewrite Hb|].
  unfold open_view in *. destruct open; [|congruence]. by rewrite Hf, Hh.
Qed.

(** * The invariant *)
(** The bytes of a frame that is not whole yet, and the open message. *)
Record waiting (c : t) (l : bytes) (open : option message) : Prop := {
  wa_parser : parser_ok (limits_of c) (pkt_parser_ c) l open;
  wa_frame : parse_frame l = NoFrame;
  wa_bytes : Forall is_u8 l;
  wa_open : open_keeps (limits_of c) open
}.

Record session_ok (s : session) : Prop := {
  so_conn : conn_ok s.2;
  so_limits : limits_ok (limits_of s.2);
  so_waiting : s.1 = true -> input_chunks_ s.2 = [] /\ exists l open, waiting s.2 l open
}.

Lemma waiting_keeps c c' l open : keeps c c' -> waiting c l open -> waiting c' l open.
Proof. intros [H1 H2 _] [H3 H4 H5 H6]. split; rewrite ?H1; try done. by apply (parser_ok_reads _ (pkt_parser_ c)). Qed.

(** A step of the connection alone. *)
Lemma session_keeps on c c' : session_ok (on, c) -> conn_ok c' -> keeps c c' -> session_ok (on, c').
Proof.
  intros [H1 H2 H3] Ho Hk. split; cbn in *; [done|by rewrite (ke_limits _ _ Hk)|]. intros Hon.
  destruct (H3 Hon) as (Hi & l & open & Hw). split.
  - destruct (ke_input _ _ Hk) as [-> | ->]; [done|done].
  - exists l, open. by apply (waiting_keeps c).
Qed.

Lemma message_fits_rules conn m : limits_ok conn -> message_rules conn m -> message_fits m.
Proof.
  intros [H1 H2] [_ _ _ _ Hl Hc Hd _ _]. unfold is_u32 in *. split; [done|].
  destruct (WsParser.is_control_frame m.1); [specialize (Hc eq_refl); lia|specialize (Hd eq_refl); lia].
Qed.

Section Facts.
Variable little : bool.
Variable rng clock : nat -> Z.

(** Reading bytes into a waiting connection. *)
Lemma unpack_ok data x c l open : conn_ok c -> limits_ok (limits_of c) -> input_chunks_ c = [] -> waiting c l open ->
  view data x -> chunk_ok x ->
  let '(ok, rest, open', out) := decode_stream (limits_of c) (l ++ x) open in
  exists c', unpack_from little data c = Ok (ok, c') /\ conn_ok c' /\ limits_of c' = limits_of c
  /\ Forall2 chunk_is (input_chunks_ c') out /\ Forall message_fits out
  /\ closing c' = closing c /\ trace_ c' = trace_ c /\ times c' = times c
  /\ (ok = true -> waiting c' rest open').
Proof.
  intros H Hl Hi [Hp Hf Hb Ho] Hd [Hx Hlx]. pose proof (no_frame_small l Hb Hf) as Hsmall.
  pose proof (unpack_from_ref little (limits_of c) Hl (pkt_parser_ c) l open data x [] Hp Hf Hb Hd Hx) as Hr.
  unfold unpacks in Hr. destruct (decode_stream (limits_of c) (l ++ x) open) as [[[ok rest] open'] out] eqn:E.
  destruct Hr as (p' & chunks & Eu & Hch & Hok); [rewrite zlen_app; unfold PACKET_MAX_BYTE in *; lia|].
  assert (Forall is_u8 (l ++ x)) as Hlx' by by apply Forall_app.
  destruct (decode_stream_rules _ _ _ _ _ _ _ Hlx' Ho E) as [Hrules Hopen].
  assert (Forall message_fits out) as Hfit by (eapply Forall_impl; [exact Hrules|intros m; by apply message_fits_rules]).
  unfold unpack_from. rewrite Hi, Eu. mstep. eexists. split; [done|].
  split.
  { destruct H as [H1 H2 H3 H4 H5]. split; try done.
    - cbn. unfold mask_ok in *. by rewrite (proj1 (unpack_from_mask _ _ _ _ _ _ _ _ Eu)).
    - cbn. clear -Hch Hfit. induction Hch as [|c m cs ms Hc Hch IH]; [constructor|]. apply Forall_cons in Hfit as [[] Hfit].
      constructor; [by exists m|by apply IH]. }
  split; [done|]. split; [done|]. split; [done|]. split; [done|]. split; [done|]. split; [done|].
  intros ->. destruct (Hok eq_refl) as [Hp' Hu']. split; [done|by apply decode_stream_rest in E|done|done].
Qed.

(** * What an application may call *)
Definition op_ok (op : app_op) : Prop :=
  match op with Send buf pktType => payload_ok buf /\ pktType <> close_ | _ => True end.
Fixpoint run_ops (ops : list app_op) (c : t) : outcome t :=
  match ops with [] => Ok c | op :: ops => c ← run_op little rng clock op c; run_ops ops c end.

(** A callback that does nothing but call the connection, in each state as it likes. *)
Definition calls_only (f : t -> outcome t) : Prop := forall c, exists ops, Forall op_ok ops /\ f c = run_ops ops c.
Definition handler_ok (h : DataHandler) : Prop :=
  (forall body, calls_only (on_data h body)) /\ calls_only (on_connected h) /\ calls_only (on_close h).

Lemma run_op_runs op c : op_ok op -> conn_ok c -> runs c (run_op little rng clock op c).
Proof.
  destruct op as [buf ty|code|]; intros Ho H; cbn [run_op].
  - destruct Ho as [Hp Hne]. destruct (send_runs little rng clock buf ty c H Hp Hne) as (ok & c' & -> & H1 & Hk). mstep. by apply runs_ok.
  - by apply close_runs.
  - destruct (shutdown_ok c H). by apply runs_ok.
Qed.
Lemma run_ops_runs ops c : Forall op_ok ops -> conn_ok c -> runs c (run_ops ops c).
Proof.
  intros Ho. revert c. induction Ho as [|op ops Hop _ IH]; intros c H; [by apply runs_ok|]. cbn [run_ops].
  apply runs_bind; [by apply run_op_runs|]. intros c' H' _. by apply IH.
Qed.
Lemma calls_only_runs f c : calls_only f -> conn_ok c -> runs c (f c).
Proof. intros Hf H. destruct (Hf c) as (ops & Ho & ->). by apply run_ops_runs. Qed.

(** * The steps of a session *)
Variable data_handler_ : option DataHandler.
Hypothesis Hhandler : forall h, data_handler_ = Some h -> handler_ok h.

Lemma data_runs f body : option_map on_data data_handler_ = Some f -> forall c, conn_ok c -> runs c (f body c).
Proof.
  destruct data_handler_ as [h|]; intros E c H; [|done]. injection E as <-. apply calls_only_runs; [|done].
  by apply (Hhandler h eq_refl).
Qed.

Lemma on_close_runs c : conn_ok c -> runs c (on_close_cb data_handler_ c).
Proof.
  intros H. unfold on_close_cb. destruct data_handler_ as [h|]; [|by apply runs_ok].
  destruct (Hhandler h eq_refl) as (_ & _ & Hc).
  destruct (calls_only_runs _ (emit [OnClose] c) Hc) as (c' & E & Ho & Hk); [by apply conn_ok_silent|].
  exists c'. split; [done|]. split; [done|]. exact (keeps_trans _ _ _ (keeps_emit _ c) Hk).
Qed.
Lemma on_connected_runs c : conn_ok c -> runs c (on_connected_cb data_handler_ c).
Proof.
  intros H. unfold on_connected_cb. destruct data_handler_ as [h|]; [|by apply runs_ok].
  destruct (Hhandler h eq_refl) as (_ & Hc & _). destruct (try_set_heartbeat_ok c H) as [H1 Hk1].
  destruct (calls_only_runs _ (emit [OnConnected] (try_set_heartbeat_timer c)) Hc) as (c' & E & Ho & Hk); [by apply conn_ok_silent|].
  exists c'. split; [done|]. split; [done|]. exact (keeps_trans _ _ _ Hk1 (keeps_trans _ _ _ (keeps_emit _ _) Hk)).
Qed.
Lemma finish_runs c : conn_ok c -> runs c (finish clock data_handler_ c).
Proof.
  intros H. unfold finish. destruct (set_state_ok clock closed_ c H) as (H1 & Hk & _); [done|].
  destruct (on_close_runs _ H1) as (c' & E & H2 & Hk2). exists c'. split; [done|]. split; [done|]. by transitivity (set_state clock closed_ c).
Qed.
Lemma refuse_runs code c : conn_ok c -> runs c (refuse little rng clock code c).
Proof.
  intros H. unfold refuse. destruct (send_close_ok little rng clock code c H) as (c' & -> & H1 & Hk & _). mstep.
  apply runs_ok; [by apply conn_ok_silent|]. exact (keeps_trans _ _ _ Hk (keeps_emit _ c')).
Qed.
Lemma refuse_finish_runs code c : conn_ok c ->
  runs c (c ← refuse little rng clock code c; finish clock data_handler_ c).
Proof. intros H. apply runs_bind; [by apply refuse_runs|]. intros c' H' _. by apply finish_runs. Qed.

Lemma dispatch_runs c : conn_ok c ->
  exists on c', dispatch little rng clock data_handler_ c = Ok (on, c') /\ conn_ok c' /\ keeps c c'
  /\ (on = true -> input_chunks_ c' = []).
Proof.
  intros H. unfold dispatch.
  destruct (dispatch_frames_runs little rng clock _ data_runs c H) as (r & c1 & E & H1 & Hk). rewrite E. mstep.
  assert (Hr : forall code, exists on c', (c ← refuse little rng clock code c1; Ok (false, c)) = Ok (on, c') /\ conn_ok c' /\ keeps c c'
    /\ (on = true -> input_chunks_ c' = [])).
  { intros code. destruct (refuse_runs code c1 H1) as (c2 & -> & H2 & Hk2). mstep. exists false, c2. split; [done|]. split; [done|].
    split; [by transitivity c1|done]. }
  destruct r; [|apply Hr..]. exists true, c1. split; [done|]. split; [done|]. split; [done|]. intros _.
  unfold dispatch_frames in E. destruct (dispatch_loop _ _ _ _ _ _ _) as [[r c2]| | |]; [|done..].
  destruct r as [[]|]; try done; by injection E as <-.
Qed.

Lemma ended c c' : limits_ok (limits_of c) -> conn_ok c' -> limits_of c' = limits_of c -> session_ok (false, c').
Proof. intros Hl H Hk. split; cbn; [done|by rewrite Hk|done]. Qed.

Lemma end_runs c m : limits_ok (limits_of c) -> runs c m -> exists s, (c ← m; Ok (false, c)) = Ok s /\ session_ok s.
Proof. intros Hl (c' & -> & H & Hk). mstep. eexists. split; [done|]. apply (ended c); [done|done|apply Hk]. Qed.

Lemma loop_head_runs c l open : conn_ok c -> limits_ok (limits_of c) -> input_chunks_ c = [] -> waiting c l open ->
  exists s, loop_head clock data_handler_ c = Ok s /\ session_ok s.
Proof.
  intros H Hl Hi Hw. unfold loop_head. case_if; [|apply (end_runs c); [done|by apply finish_runs]].
  eexists. split; [done|]. split; [done|done|]. intros _. split; [done|]. by exists l, open.
Qed.

Lemma serve_ok c c1 l open : limits_ok (limits_of c) -> limits_of c1 = limits_of c -> conn_ok c1 -> waiting c1 l open ->
  exists s, ('(on, c) ← dispatch little rng clock data_handler_ c1;
             if (on : bool) then loop_head clock data_handler_ c else c ← finish clock data_handler_ c; Ok (false, c)) = Ok s /\ session_ok s.
Proof.
  intros Hl E H Hw. destruct (dispatch_runs c1 H) as (on & c2 & -> & H2 & Hk & Hi). mstep.
  assert (limits_ok (limits_of c2)) as Hl2 by by rewrite (ke_limits _ _ Hk), E.
  destruct on; [|apply (end_runs c2); [done|by apply finish_runs]].
  apply (loop_head_runs c2 l open); [done|done|by apply Hi|by apply (waiting_keeps c1)].
Qed.

(** What may be read. *)
Definition data_ok (data : ByteBuffer.t) : Prop := exists x, view data x /\ chunk_ok x.

Lemma bind_end c code : limits_ok (limits_of c) -> conn_ok c ->
  exists s, (c ← refuse little rng clock code c; c ← finish clock data_handler_ c; Ok (false, c)) = Ok s /\ session_ok s.
Proof.
  intros Hl H. destruct (refuse_runs code c H) as (c1 & -> & H1 & Hk). mstep.
  apply (end_runs c1); [by rewrite (ke_limits _ _ Hk)|by apply finish_runs].
Qed.

Lemma on_read_runs data allowed c : session_ok (true, c) -> (forall d, data = Some d -> data_ok d) ->
  exists s, on_read little rng clock data_handler_ data allowed c = Ok s /\ session_ok s.
Proof.
  intros [H Hl Hw] Hd. cbn in *. destruct (Hw eq_refl) as (Hi & l & open & Hwait). unfold on_read.
  destruct data as [data|]; [|apply (end_runs c); [done|by apply finish_runs]].
  case_if; [by apply bind_end|]. destruct (Hd data eq_refl) as (x & Hv & Hx).
  pose proof (unpack_ok data x c l open H Hl Hi Hwait Hv Hx) as Hu.
  destruct (decode_stream (limits_of c) (l ++ x) open) as [[[ok rest] open'] out].
  destruct Hu as (c1 & -> & H1 & Hlim & _ & _ & _ & _ & _ & Hw1). mstep.
  destruct ok; cbn [negb]; [|apply bind_end; [by rewrite Hlim|done]]. apply (serve_ok c c1 rest open'); auto.
Qed.

Lemma start_runs leftover allowed c : conn_ok c -> limits_ok (limits_of c) -> close_sent_ (closing c) = false ->
  input_chunks_ c = [] -> waiting c [] None -> data_ok leftover ->
  exists s, start little rng clock data_handler_ leftover allowed c = Ok s /\ session_ok s.
Proof.
  intros H Hl Hs Hi Hw (x & Hv & Hx). unfold start.
  destruct (set_state_ok clock connected_ c H) as (H1 & Hk1 & _); [done|].
  destruct (on_connected_runs _ H1) as (c1 & -> & H2 & Hk2). mstep.
  assert (keeps c c1) as Hk by by transitivity (set_state clock connected_ c).
  assert (input_chunks_ c1 = []) as Hi1 by (destruct (ke_input _ _ Hk) as [-> | ->]; done).
  assert (limits_ok (limits_of c1)) as Hl1 by by rewrite (ke_limits _ _ Hk).
  assert (waiting c1 [] None) as Hw1 by by apply (waiting_keeps c).
  case_if. { apply (end_runs c1); [done|by apply refuse_runs]. }
  rewrite (view_empty _ _ Hv). case_bool_decide as Hnil.
  { mstep. rewrite Hi1. cbn [negb]. by apply (loop_head_runs c1 [] None). }
  pose proof (unpack_ok leftover x c1 [] None H2 Hl1 Hi1 Hw1 Hv Hx) as Hu. cbn [app] in Hu.
  destruct (decode_stream (limits_of c1) x None) as [[[ok rest] open'] out].
  destruct Hu as (c2 & -> & H3 & Hlim & Hch & _ & _ & _ & _ & Hw2). mstep.
  assert (limits_ok (limits_of c2)) as Hl2 by by rewrite Hlim.
  destruct ok; cbn [negb]; [|by apply bind_end]. specialize (Hw2 eq_refl).
  destruct (input_chunks_ c2) eqn:Ein; [|by apply (serve_ok c2 c2 rest open')].
  mstep. by apply (loop_head_runs c2 rest open').
Qed.

(** Every step of a session keeps the invariant. *)
Lemma session_step_ok s s' : session_ok s -> session_step little rng clock data_handler_ op_ok data_ok s s' -> session_ok s'.
Proof.
  intros H Hs. destruct Hs as [data allowed c s' Hd E|allowed c s' E|on c c' _ E|on c _|on op c c' Hop E].
  - destruct (on_read_runs (Some data) allowed c H) as (s1 & E1 & H1); [by intros d [= <-]|]. congruence.
  - destruct (on_read_runs None allowed c H) as (s1 & E1 & H1); [done|]. congruence.
  - destruct (heartbeat_runs little rng clock c (so_conn _ H)) as (c1 & E1 & H1 & Hk). rewrite E in E1. injection E1 as <-.
    by apply (session_keeps on c).
  - destruct (close_deadline_ok c (so_conn _ H)). by apply (session_keeps on c).
  - destruct (run_op_runs op c Hop (so_conn _ H)) as (c1 & E1 & H1 & Hk). rewrite E in E1. injection E1 as <-.
    by apply (session_keeps on c).
Qed.
End Facts.

(** * What a WebSocket server whose application only listens answers to a stream of frames,
    however the stream is cut into reads. *)
Import WsProtocol WsConnection WsServer.

(** An application that only listens. *)
Definition listener : DataHandler := mkHandler (fun _ c => Ok c) (fun c => Ok c) (fun c => Ok c).

(** What is observed of a connection. *)
Definition observed (c : t) : list seen := omap observe (trace_ c).

(** The close frame of a code. *)
Definition close_frame (code : Z) : seen := Sent type_close_frame (close_payload code).

Lemma replies_app ms ns : replies (ms ++ ns) = if has_close ms then replies ms else replies ms ++ replies ns.
Proof.
  induction ms as [|m ms IH]; [done|]. cbn [app replies has_close existsb]. destruct (is_close_frame m.1); [done|]. cbn [orb].
  unfold has_close in IH. rewrite IH. destruct (existsb _ ms); [done|by rewrite app_assoc].
Qed.
Lemma has_close_app ms ns : has_close (ms ++ ns) = has_close ms || has_close ns.
Proof. apply existsb_app. Qed.

Section Answers.
Variable little : bool.
Variable rng clock : nat -> Z.

Abbreviation on_read := (on_read little rng clock (Some listener)).
Abbreviation finish := (finish clock (Some listener)).
Abbreviation refuse := (refuse little rng clock).

(** A connection that waits, is connected and has sent no close frame. *)
Record open_session (c : t) (l : bytes) (open : option message) : Prop := {
  os_conn : conn_ok c;
  os_limits : limits_ok (limits_of c);
  os_input : input_chunks_ c = [];
  os_waiting : waiting c l open;
  os_state : get_state c = connected_
}.

Lemma finish_listen c : conn_ok c -> exists c', finish c = Ok c' /\ observed c' = observed c /\ get_state c' = closed_.
Proof.
  intros H. destruct (set_state_ok clock closed_ c H) as (_ & _ & Ht & Hs); [done|].
  eexists. split; [done|]. split; [|done]. unfold observed, emit. cbn [trace_]. rewrite Ht, omap_app. cbn. by rewrite app_nil_r.
Qed.

(** A session that ends with a close frame. *)
Definition ends (code : Z) (seen : list seen) (m : outcome session) : Prop :=
  exists c, m = Ok (false, c) /\ observed c = seen ++ [close_frame code] /\ get_state c = closed_.

Lemma refuse_listen code c : conn_ok c -> close_sent_ (closing c) = false ->
  exists c', refuse code c = Ok c' /\ conn_ok c' /\ observed c' = observed c ++ [close_frame code].
Proof.
  intros H Hs. unfold WsServer.refuse.
  destruct (send_close_ok little rng clock code c H) as (c' & -> & H1 & _ & _ & _ & Ho & _). mstep. destruct (Ho Hs) as [_ Ht].
  eexists. split; [done|]. split; [by apply conn_ok_silent|]. unfold observed. cbn [trace_ emit]. rewrite omap_app, Ht. cbn.
  by rewrite app_nil_r.
Qed.

Lemma end_listen code c : conn_ok c -> close_sent_ (closing c) = false ->
  ends code (observed c) (c ← refuse code c; c ← finish c; Ok (false, c)).
Proof.
  intros H Hs. destruct (refuse_listen code c H Hs) as (c1 & -> & H1 & Ho). mstep.
  destruct (finish_listen c1 H1) as (c2 & -> & Ho2 & Hst). mstep. exists c2. split; [done|]. split; [congruence|done].
Qed.

(** The messages of a read: the rest of the read, from the dispatch on. *)
Definition served (c : t) (rest : bytes) (open : option message) (out : list message) (m : outcome session) : Prop :=
  if has_close out then ends normal_close_ (observed c ++ replies out) m
  else exists c', m = Ok (true, c') /\ open_session c' rest open /\ observed c' = observed c ++ replies out /\ limits_of c' = limits_of c.

Lemma dispatch_listen c c1 rest open out : limits_ok (limits_of c) -> get_state c = connected_ ->
  limits_of c1 = limits_of c -> conn_ok c1 -> closing c1 = closing c -> trace_ c1 = trace_ c -> waiting c1 rest open ->
  Forall2 chunk_is (input_chunks_ c1) out -> Forall message_fits out ->
  served c rest open out
    ('(on, c) ← dispatch little rng clock (Some listener) c1;
     if (on : bool) then loop_head clock (Some listener) c else c ← finish c; Ok (false, c)).
Proof.
  intros Hl Hst Elim H Ecl Etr Hw Hch Hfit. unfold dispatch, dispatch_frames.
  destruct (mark_read_ok clock c1 H) as [H1 Hk1].
  destruct (dispatch_loop_replies little rng clock out (length (input_chunks_ (mark_read_activity clock c1))) 0 _ H1)
    as (c2 & E & H2 & Hk2 & Ho & Hs & Hcl); [done|done|by rewrite <- (Forall2_length _ _ _ Hch)|].
  change (option_map on_data (Some listener)) with listen. rewrite E. mstep.
  assert (close_sent_ (closing c) = false) as Hns.
  { destruct H as [_ _ _ _ Hd]. unfold get_state in Hd. rewrite Ecl in Hd. unfold get_state in Hst. rewrite Hst in Hd.
    destruct (close_sent_ (closing c)); [by destruct Hd|done]. }
  assert (observed c2 = observed c ++ replies out) as Ho2 by (unfold observed; rewrite Ho; cbn; by rewrite Etr).
  assert (conn_ok (set_input [] c2)) as H3 by by apply conn_ok_input.
  unfold served. destruct (has_close out).
  - assert (close_sent_ (closing (set_input [] c2)) = false) as Hs2 by (cbn in *; rewrite Hs; cbn; by rewrite Ecl).
    destruct (refuse_listen normal_close_ (set_input [] c2) H3 Hs2) as (c3 & -> & H4 & Ho3). mstep.
    destruct (finish_listen c3 H4) as (c4 & -> & Ho4 & Hst4). mstep. exists c4. split; [done|]. split; [|done].
    rewrite Ho4, Ho3. unfold observed in *. cbn [trace_ set_input] in *. by rewrite Ho2.
  - specialize (Hcl eq_refl). mstep. unfold loop_head. assert (get_state (set_input [] c2) = connected_) as Hst2.
    { unfold get_state in *. cbn. rewrite Hcl. cbn. by rewrite Ecl. }
    unfold connected. rewrite bool_decide_true by done. exists (set_input [] c2). split; [done|].
    assert (keeps c1 c2) as Hk by exact (keeps_trans _ _ _ Hk1 Hk2).
    assert (limits_of c2 = limits_of c) as El2 by by rewrite (ke_limits _ _ Hk).
    split; [|split; [done|done]]. split; [done|by change (limits_ok (limits_of c2)); rewrite El2|done| |done].
    apply (waiting_keeps c1); [|done]. destruct Hk. split; [done|done|by right].
Qed.

(** What a read leads to, by what the reference decoder says of its bytes. *)
Definition answers (c : t) (d : bool * bytes * option message * list message) (m : outcome session) : Prop :=
  let '(ok, rest, open, out) := d in
  if ok then served c rest open out m else ends invalid_palyload_ (observed c) m.

Lemma open_not_sent c l open : open_session c l open -> close_sent_ (closing c) = false.
Proof. intros [H _ _ _ Hs]. by apply connected_not_sent. Qed.

Lemma on_read_listen data x c l open : open_session c l open -> view data x -> chunk_ok x ->
  answers c (decode_stream (limits_of c) (l ++ x) open) (on_read (Some data) true c).
Proof.
  intros Hos Hv Hx. pose proof (open_not_sent _ _ _ Hos) as Hns. destruct Hos as [H Hl Hi Hw Hst].
  unfold answers, WsServer.on_read. cbn [negb].
  pose proof (unpack_ok little data x c l open H Hl Hi Hw Hv Hx) as Hu.
  destruct (decode_stream (limits_of c) (l ++ x) open) as [[[ok rest] open'] out].
  destruct Hu as (c1 & -> & H1 & Hlim & Hch & Hfit & Ecl & Etr & _ & Hw1). mstep. destruct ok; cbn [negb].
  - by apply (dispatch_listen c c1); [done|done|done|done|done|done|apply Hw1|done|done].
  - assert (observed c = observed c1) as -> by (unfold observed; by rewrite Etr).
    apply end_listen; [done|]. by rewrite Ecl.
Qed.

(** The reads of a session until it ends. *)
Fixpoint serve (chunks : list bytes) (s : session) : outcome session :=
  match chunks with
  | [] => Ok s
  | x :: chunks =>
      if s.1 then data ← ByteBuffer.of_span x; s ← on_read (Some data) true s.2; serve chunks s else Ok s
  end.

(** The whole stream: the replies to its messages up to a close message, and the close
    frame; or, when the stream is refused, the replies to some of the messages before the
    refusal, and the close frame. *)
Definition stream_answers (c : t) (d : bool * bytes * option message * list message) (m : outcome session) : Prop :=
  let '(ok, rest, open, out) := d in
  if ok then served c rest open out m
  else ends normal_close_ (observed c ++ replies out) m \/ exists k, ends invalid_palyload_ (observed c ++ replies (take k out)) m.

Lemma served_limits c c' : limits_of c' = limits_of c -> limits_ok (limits_of c) -> limits_ok (limits_of c').
Proof. by intros ->. Qed.

Lemma serve_done chunks c : serve chunks (false, c) = Ok (false, c).
Proof. by destruct chunks. Qed.

(** A stream of which a first part had a close message. *)
Lemma stream_answers_closed c c1 out1 d : has_close out1 = true -> observed c1 = (observed c ++ replies out1) ++ [close_frame normal_close_] ->
  get_state c1 = closed_ ->
  stream_answers c (let '(ok, rest, open, out2) := d in (ok, rest, open, out1 ++ out2)) (Ok (false, c1)).
Proof.
  intros Hcl Ho Hst. destruct d as [[[ok rest] open] out2].
  assert (ends normal_close_ (observed c ++ replies (out1 ++ out2)) (Ok (false, c1))) as He by (exists c1; by rewrite replies_app, Hcl).
  cbn [stream_answers]. unfold served. rewrite has_close_app, Hcl. destruct ok; [exact He|left; exact He].
Qed.

(** A stream of which a first part had none. *)
Lemma stream_answers_step c c1 out1 d m : has_close out1 = false -> observed c1 = observed c ++ replies out1 ->
  limits_of c1 = limits_of c -> stream_answers c1 d m ->
  stream_answers c (let '(ok, rest, open, out2) := d in (ok, rest, open, out1 ++ out2)) m.
Proof.
  intros Hcl Ho El IH. destruct d as [[[ok rest] open] out2]. cbn [stream_answers] in *. unfold served in *.
  rewrite has_close_app, Hcl. cbn [orb]. rewrite replies_app, Hcl, app_assoc, <- Ho. destruct ok.
  - destruct (has_close out2); [exact IH|]. destruct IH as (c2 & E2 & Hos2 & Ho2 & El2). exists c2. by rewrite El2.
  - destruct IH as [IH|(k & IH)]; [by left|]. right. exists (length out1 + k)%nat.
    rewrite take_app_add. by rewrite replies_app, Hcl, app_assoc, <- Ho.
Qed.

Lemma serve_listen chunks c l open : open_session c l open -> Forall chunk_ok chunks ->
  stream_answers c (decode_stream (limits_of c) (l ++ concat chunks) open) (serve chunks (true, c)).
Proof.
  intros Hos Hc. revert c l open Hos. induction Hc as [|x chunks Hx Hc IH]; intros c l open Hos; cbn [concat serve].
  { destruct (os_waiting _ _ _ Hos) as [_ Hno _ _]. rewrite app_nil_r, decode_stream_unfold, Hno. cbn.
    exists c. by rewrite app_nil_r. }
  destruct (of_span_view x) as (data & -> & Hd). mstep. cbn [fst snd].
  pose proof (on_read_listen data x c l open Hos Hd Hx) as Hr. rewrite app_assoc.
  pose proof (decode_stream_app (limits_of c) (concat chunks) (l ++ x) open) as Ha.
  destruct (decode_stream (limits_of c) (l ++ x) open) as [[[[] rest] open1] out1]; cbn [answers] in Hr.
  - rewrite Ha. unfold served in Hr. destruct (has_close out1) eqn:Ecl.
    + destruct Hr as (c1 & -> & Ho & Hst). mstep. rewrite serve_done. by apply (stream_answers_closed c c1 out1).
    + destruct Hr as (c1 & -> & Hos1 & Ho1 & El1). mstep. specialize (IH c1 rest open1 Hos1). rewrite El1 in IH.
      by apply (stream_answers_step c c1 out1).
  - destruct Ha as (rest' & ->). right. exists 0%nat. destruct Hr as (c1 & -> & Ho & Hst). mstep. rewrite serve_done.
    exists c1. split; [done|]. split; [|done]. rewrite Ho. cbn [take replies]. by rewrite app_nil_r.
Qed.

(** The start of a session, with the bytes that came after the handshake. *)
Lemma start_listen leftover x c : conn_ok c -> limits_ok (limits_of c) -> close_sent_ (closing c) = false ->
  input_chunks_ c = [] -> waiting c [] None -> view leftover x -> chunk_ok x ->
  answers c (decode_stream (limits_of c) x None) (start little rng clock (Some listener) leftover true c).
Proof.
  intros H Hl Hns Hi Hw Hv Hx. unfold start. cbn [negb andb].
  destruct (set_state_ok clock connected_ c H) as (H1 & Hk1 & Ht1 & Hst1); [done|].
  destruct (try_set_heartbeat_ok (set_state clock connected_ c) H1) as [H2 Hk2].
  set (c1 := emit [OnConnected] (try_set_heartbeat_timer (set_state clock connected_ c))).
  change (on_connected_cb (Some listener) (set_state clock connected_ c)) with (Ok c1). mstep. rewrite andb_false_r.
  assert (conn_ok c1) as H3 by by apply conn_ok_silent.
  assert (keeps c c1) as Hk by exact (keeps_trans _ _ _ Hk1 (keeps_trans _ _ _ Hk2 (keeps_emit _ _))).
  assert (observed c1 = observed c /\ closing c1 = closing (set_state clock connected_ c)) as [Ho1 Ec1].
  { unfold observed, c1, try_set_heartbeat_timer. destruct (config_ _); [case_if|]; cbn [trace_ emit closing set_times];
      (split; [|done]); rewrite Ht1, omap_app; cbn; by rewrite app_nil_r. }
  assert (get_state c1 = connected_) as Hst by (unfold get_state in *; congruence).
  assert (input_chunks_ c1 = []) as Hi1 by (destruct (ke_input _ _ Hk) as [-> | ->]; done).
  assert (waiting c1 [] None) as Hw1 by by apply (waiting_keeps c).
  assert (limits_of c1 = limits_of c) as El1 by apply Hk.
  assert (limits_ok (limits_of c1)) as Hl1 by by rewrite El1.
  assert (Hres : forall m, answers c1 (decode_stream (limits_of c) x None) m -> answers c (decode_stream (limits_of c) x None) m).
  { intros m. unfold answers, served. destruct (decode_stream _ _ _) as [[[[] ?] ?] ?]; rewrite Ho1; [|done].
    destruct (has_close _); [done|]. by rewrite El1. }
  apply Hres. rewrite (view_empty _ _ Hv). case_bool_decide as Hnil.
  { subst x. mstep. rewrite Hi1. cbn [negb]. mstep. unfold loop_head, connected. rewrite bool_decide_true by done.
    exists c1. cbn [replies]. rewrite app_nil_r. done. }
  pose proof (unpack_ok little leftover x c1 [] None H3 Hl1 Hi1 Hw1 Hv Hx) as Hu. cbn [app] in Hu. rewrite El1 in Hu.
  unfold answers. destruct (decode_stream (limits_of c) x None) as [[[ok rest] open'] out].
  destruct Hu as (c2 & -> & H4 & Hlim & Hch & Hfit & Ecl & Etr & _ & Hw2). mstep. rewrite <- El1 in Hlim.
  destruct ok; cbn [negb].
  - specialize (Hw2 eq_refl). destruct (input_chunks_ c2) as [|ch chs] eqn:Ein.
    + apply Forall2_nil_inv_l in Hch as ->. mstep. unfold loop_head, connected.
      assert (get_state c2 = connected_) as Hst2 by (unfold get_state in *; congruence). rewrite bool_decide_true by done.
      exists c2. cbn [replies]. rewrite app_nil_r. split; [done|]. split; [|unfold observed; by rewrite Etr].
      split; [done|by rewrite Hlim|done|done|done].
    + rewrite <- Ein in Hch. by apply (dispatch_listen c1 c2).
  - assert (observed c1 = observed c2) as -> by (unfold observed; by rewrite Etr).
    apply end_listen; [done|]. rewrite Ecl. by apply connected_not_sent.
Qed.
End Answers.
