(* ===== verification/WsServerTheorems.v ===== *)
(** What the WebSocket server promises of its sessions: the close handshake, that every
    step ends, what is answered to a stream, the rate limits. *)
From stdpp Require Import relations gmap.
From S2P Require Import Prelude Strings Endian ByteBuffer ByteBufferFacts WsProtocol WsParser WsReference WsParserFacts WsStreamFacts.
From S2P Require Import WsConnection WsConnectionFacts WsServer WsServerFacts.
Import WsProtocol WsConnection WsServer.

(** * A new session *)
(** The connection that [handle_connection] makes. *)
Definition new_connection (rng : nat -> Z) (g : Config) (mask : bytes) : t :=
  set_config rng (Some g) (bind_connection (init server_ mask)).

Record config_ok (g : Config) : Prop := {
  cg_message : is_u32 (config_max_message_size g);
  cg_fragmented : is_u32 (config_max_fragmented_message_size g)
}.

Lemma new_connection_ok rng g mask : config_ok g -> key_ok mask ->
  let c := new_connection rng g mask in
  conn_ok c /\ limits_ok (limits_of c) /\ close_sent_ (closing c) = false /\ input_chunks_ c = [] /\ waiting c [] None
  /\ observed c = [].
Proof.
  intros [H1 H2] Hm. cbv zeta.
  assert (reads_as (WsParser.init mask) (pkt_parser_ (new_connection rng g mask))) as Hr.
  { cbn. unfold WsParser.use_mask. by destruct (server_use_mask g). }
  assert (mask_ok (pkt_parser_ (new_connection rng g mask))) as Hmask.
  { cbn. unfold WsParser.use_mask. destruct (server_use_mask g); [apply update_mask_ok|exact Hm]. }
  split. { split; [done|done|exact Hmask|constructor|]. cbn. by apply not_elem_of_nil. }
  split; [done|]. split; [done|]. split; [done|]. split; [|done].
  split; [|done|constructor|done]. exact (parser_ok_reads _ _ _ _ _ Hr (init_ok (limits_of (new_connection rng g mask)) mask)).
Qed.

Section Sessions.
Variable little : bool.
Variable rng clock : nat -> Z.
Variables (g : Config) (mask : bytes).
Hypotheses (Hg : config_ok g) (Hmask : key_ok mask).

(** The states of a session from the end of its handshake on. *)
Definition session_reaches (h : option DataHandler) (s : session) : Prop :=
  exists leftover allowed s0, data_ok leftover
  /\ start little rng clock h leftover allowed (new_connection rng g mask) = Ok s0
  /\ rtc (session_step little rng clock h op_ok data_ok) s0 s.

Lemma session_reaches_ok h s : (forall x, h = Some x -> handler_ok little rng clock x) -> session_reaches h s -> session_ok s.
Proof.
  intros Hh (leftover & allowed & s0 & Hd & E & Hs). destruct (new_connection_ok rng g mask Hg Hmask) as (H1 & H2 & H3 & H4 & H5 & _).
  destruct (start_runs little rng clock h Hh leftover allowed _ H1 H2 H3 H4 H5 Hd) as (s1 & E1 & Hok).
  assert (s1 = s0) as -> by congruence. clear E E1.
  induction Hs as [s|s s' s'' Hst _ IH]; [done|]. apply IH. exact (session_step_ok little rng clock h Hh _ _ Hok Hst).
Qed.
End Sessions.

Lemma one_split {A} (x : A) l r l' r' : x ∉ l -> x ∉ r -> l ++ x :: r = l' ++ x :: r' -> l' = l /\ r' = r.
Proof.
  revert l'. induction l as [|y l IH]; intros [|y' l'] Hl Hr; cbn; intros E.
  - by injection E as ->.
  - injection E as <- ->. exfalso. apply Hr. rewrite elem_of_app, elem_of_cons. tauto.
  - injection E as -> <-. exfalso. apply Hl. rewrite elem_of_cons. tauto.
  - injection E as <- E. destruct (IH l') as [-> ->]; [|done|exact E|done]. intros Hin. apply Hl. rewrite elem_of_cons. tauto.
Qed.

(** C8: in every state that a session reaches, whatever it reads, however its timers fire
    and whatever messages the application sends (text, binary, ping, pong), closes and shuts
    down: at most one close frame has been sent, nothing but pongs has been sent after it,
    and none has been sent while the connection is connected. *)
Theorem ws_one_close little rng clock g mask h s : config_ok g -> key_ok mask ->
  (forall x, h = Some x -> handler_ok little rng clock x) -> session_reaches little rng clock g mask h s ->
  let ops := frames (trace_ s.2) in
  (forall before after, ops = before ++ type_close_frame :: after ->
    (type_close_frame ∉ before) /\ Forall (fun op => op = type_pong_frame) after)
  /\ (connected s.2 = true -> type_close_frame ∉ ops).
Proof.
  intros Hg Hm Hh Hs. destruct (so_conn _ (session_reaches_ok _ _ _ _ _ Hg Hm _ _ Hh Hs)) as [_ _ _ _ Hd].
  cbv zeta. unfold disciplined in Hd. destruct (close_sent_ (closing s.2)).
  - destruct Hd as (Hst & b & a & E & Hb & Ha). rewrite E. split.
    + intros before after E'. destruct (one_split type_close_frame b a before after) as [-> ->]; [done| |done|done].
      rewrite Forall_forall in Ha. intros Hin. by apply Ha in Hin.
    + intros Hc. by apply bool_decide_eq_true in Hc.
  - split; [|done]. intros before after E. exfalso. apply Hd. rewrite E, elem_of_app, elem_of_cons. tauto.
Qed.

(** a session starts and every step of it ends without a fault: a read of any bytes
    and the failure of a read while it waits, the heartbeat, any call of the application. *)
Theorem ws_steps_end little rng clock g mask h leftover allowed : config_ok g -> key_ok mask ->
  (forall x, h = Some x -> handler_ok little rng clock x) -> data_ok leftover ->
  (exists s0, start little rng clock h leftover allowed (new_connection rng g mask) = Ok s0)
  /\ forall s, session_reaches little rng clock g mask h s ->
     (s.1 = true -> forall data ok, (forall d, data = Some d -> data_ok d) -> exists s', on_read little rng clock h data ok s.2 = Ok s')
     /\ (exists c, heartbeat little rng clock s.2 = Ok c)
     /\ (forall op, op_ok op -> exists c, run_op little rng clock op s.2 = Ok c).
Proof.
  intros Hg Hm Hh Hd. split.
  - destruct (new_connection_ok rng g mask Hg Hm) as (H1 & H2 & H3 & H4 & H5 & _).
    destruct (start_runs little rng clock h Hh leftover allowed _ H1 H2 H3 H4 H5 Hd) as (s & E & _). by exists s.
  - intros [on c] Hs. pose proof (session_reaches_ok _ _ _ _ _ Hg Hm _ _ Hh Hs) as Hok. cbn [fst snd]. split; [|split].
    + intros -> data ok Hda. destruct (on_read_runs little rng clock h Hh data ok c Hok Hda) as (s' & E & _). by exists s'.
    + destruct (heartbeat_runs little rng clock c (so_conn _ Hok)) as (c' & E & _). by exists c'.
    + intros op Hop. destruct (run_op_runs little rng clock op c Hop (so_conn _ Hok)) as (c' & E & _). by exists c'.
Qed.

(** A whole session: it starts with [leftover], then reads [chunks]. *)
Definition session_run (little : bool) (rng clock : nat -> Z) (g : Config) (mask : bytes) (leftover : ByteBuffer.t) (chunks : list bytes)
  : outcome session :=
  s ← start little rng clock (Some listener) leftover true (new_connection rng g mask);
  serve little rng clock chunks s.

Lemma session_run_answers little rng clock g mask leftover x chunks : config_ok g -> key_ok mask -> view leftover x ->
  chunk_ok x -> Forall chunk_ok chunks ->
  let c := new_connection rng g mask in
  stream_answers c (decode_stream (limits_of c) (x ++ concat chunks) None) (session_run little rng clock g mask leftover chunks).
Proof.
  intros Hg Hm Hv Hx Hc. cbv zeta. destruct (new_connection_ok rng g mask Hg Hm) as (H1 & H2 & H3 & H4 & H5 & _).
  pose proof (start_listen little rng clock leftover x _ H1 H2 H3 H4 H5 Hv Hx) as Hs. unfold session_run.
  pose proof (serve_listen little rng clock chunks) as Hserve.
  set (c := new_connection rng g mask) in *. pose proof (decode_stream_app (limits_of c) (concat chunks) x None) as Ha.
  destruct (decode_stream (limits_of c) x None) as [[[[] rest] open1] out1]; cbn [answers] in Hs.
  - rewrite Ha. unfold served in Hs. destruct (has_close out1) eqn:Ecl.
    + destruct Hs as (c1 & -> & Ho & Hst). mstep. rewrite serve_done.
      apply (stream_answers_closed c c1 out1); done.
    + destruct Hs as (c1 & -> & Hos1 & Ho1 & El1). mstep. specialize (Hserve c1 rest open1 Hos1 Hc). rewrite El1 in Hserve.
      by apply (stream_answers_step c c1 out1).
  - destruct Ha as (rest' & ->). destruct Hs as (c1 & -> & Ho & Hst). mstep. rewrite serve_done. right. exists 0%nat, c1.
    split; [done|]. split; [|done]. rewrite Ho. cbn [take replies]. by rewrite app_nil_r.
Qed.

(** C9: a server whose application listens, and makes no calls of its own, answers a
    stream of frames, however it is cut into reads, with one pong for each ping, echoing
    its payload, in order, and hands the data messages over in order among them. A close
    message ends it: what came before is answered, what comes after is not, the server
    sends its own close frame (1000), and the session ends closed; without one the session
    goes on, connected. This is for a stream that the decoder accepts to its end, while the
    rate limit admits every read and neither the heartbeat nor the close deadline fires
    between the reads: a read over the limit is answered with a close (1008, see
    [ws_rate_limit]), and a heartbeat adds pings or closes a silent session. *)
Theorem ws_server_answers little rng clock g mask leftover x chunks rest open out : config_ok g -> key_ok mask ->
  view leftover x -> chunk_ok x -> Forall chunk_ok chunks ->
  decode_stream (mkLimits server_ (config_max_message_size g) (config_max_fragmented_message_size g)) (x ++ concat chunks) None
    = (true, rest, open, out) ->
  exists c, session_run little rng clock g mask leftover chunks = Ok (negb (has_close out), c)
  /\ observed c = replies out ++ (if has_close out then [close_frame normal_close_] else [])
  /\ get_state c = if has_close out then closed_ else connected_.
Proof.
  intros Hg Hm Hv Hx Hc Ed. pose proof (session_run_answers little rng clock g mask leftover x chunks Hg Hm Hv Hx Hc) as H.
  cbv zeta in H. change (limits_of (new_connection rng g mask)) with
    (mkLimits server_ (config_max_message_size g) (config_max_fragmented_message_size g)) in H.
  rewrite Ed in H. cbn [stream_answers] in H. unfold served in H. destruct (has_close out).
  - destruct H as (c & -> & Ho & Hst). by exists c.
  - destruct H as (c & -> & Hos & Ho & _). exists c. split; [done|]. split; [by rewrite app_nil_r|apply Hos].
Qed.

(** a stream that the frame rules refuse ends the session: closed, with a close frame
    as the last thing sent; it is 1007 after the replies to some of the messages that came
    before the refusal, unless a close message came before and was answered with 1000. *)
Theorem ws_server_refuses little rng clock g mask leftover x chunks rest open out : config_ok g -> key_ok mask ->
  view leftover x -> chunk_ok x -> Forall chunk_ok chunks ->
  decode_stream (mkLimits server_ (config_max_message_size g) (config_max_fragmented_message_size g)) (x ++ concat chunks) None
    = (false, rest, open, out) ->
  exists c code k, session_run little rng clock g mask leftover chunks = Ok (false, c) /\ get_state c = closed_
  /\ observed c = replies (take k out) ++ [close_frame code]
  /\ (code = invalid_palyload_ \/ code = normal_close_ /\ k = length out).
Proof.
  intros Hg Hm Hv Hx Hc Ed. pose proof (session_run_answers little rng clock g mask leftover x chunks Hg Hm Hv Hx Hc) as H.
  cbv zeta in H. change (limits_of (new_connection rng g mask)) with
    (mkLimits server_ (config_max_message_size g) (config_max_fragmented_message_size g)) in H.
  rewrite Ed in H. cbn [stream_answers] in H. destruct H as [(c & -> & Ho & Hst)|(k & c & -> & Ho & Hst)].
  - exists c, normal_close_, (length out). rewrite firstn_all. split_and!; [done|done|exact Ho|by right].
  - exists c, invalid_palyload_, k. split_and!; [done|done|exact Ho|by left].
Qed.

(** whatever other addresses do, an address is allowed at most twice [max_count] calls
    in an interval of the length of the window, on a clock that does not go back; the
    limit is per window, and an interval meets at most two of them. *)
Theorem ws_rate_limit max_count w ip calls a : 0 < max_count < 4294967296 -> 0 < w < 4294967296 -> ip <> [] -> ordered 1 calls ->
  allowed_in ip a w (run_calls max_count w ∅ calls) <= 2 * max_count.
Proof. intros Hmax Hw Hip Ho. by apply first_window. Qed.

(** * Two slips, and witnesses *)
(** A server that takes messages of 100 bytes, without heartbeats. *)
Definition small_config : Config := mkConfig 0 0 true false 0 0 5000 100 100.
Lemma small_config_ok : config_ok small_config.
Proof. by split. Qed.
Definition zero_mask : bytes := [0; 0; 0; 0].
Lemma zero_mask_ok : key_ok zero_mask.
Proof. split; [done|]. repeat (constructor; [by split|]). constructor. Qed.
Definition no_rng (n : nat) : Z := 0.
Definition ticking (n : nat) : Z := Z.of_nat n + 1.
Definition small_connection : t := new_connection no_rng small_config zero_mask.

(** A close frame sent through [send] is not recorded as sent: [close] sends another. *)
Definition raw_close : outcome (list seen) :=
  payload ← ByteBuffer.of_span (close_payload normal_close_);
  '(_, c) ← send true no_rng ticking payload close_ (set_state ticking connected_ small_connection);
  c ← close true no_rng ticking normal_close_ c;
  Ok (observed c).
Lemma raw_close_twice : raw_close = Ok [close_frame normal_close_; close_frame normal_close_].
Proof. by vm_compute. Qed.

(** A session that is refused for the bytes after the handshake is over without the
    application being told: it is connected, and never closed. *)
Definition callback (e : event) : bool := match e with OnConnected | OnClose => true | _ => false end.
Definition refused_leftover : outcome (bool * list event) :=
  leftover ← ByteBuffer.of_span [137; 128; 0; 0; 0; 0];
  '(on, c) ← start true no_rng ticking (Some listener) leftover false small_connection;
  Ok (on, List.filter callback (trace_ c)).
Lemma leftover_refusal_silent : refused_leftover = Ok (false, [OnConnected]).
Proof. by vm_compute. Qed.

Lemma listener_ok little rng clock : handler_ok little rng clock listener.
Proof. split; [|split]; intros; by exists []. Qed.
Lemma some_listener_ok little rng clock x : Some listener = Some x -> handler_ok little rng clock x.
Proof. intros [= <-]. apply listener_ok. Qed.

(** A masked close frame (1000). *)
Definition close_bytes : bytes := [136; 130; 0; 0; 0; 0; 3; 232].
Lemma close_bytes_ok : chunk_ok close_bytes.
Proof. split; [repeat (constructor; [by split|]); constructor|done]. Qed.

Lemma ws_one_close_witness : exists s, session_reaches true no_rng ticking small_config zero_mask (Some listener) s
  /\ frames (trace_ s.2) = [type_close_frame]
  /\ (connected s.2 = true -> type_close_frame ∉ frames (trace_ s.2)).
Proof.
  destruct (of_span_view close_bytes) as (leftover & _ & Hv).
  destruct (new_connection_ok no_rng small_config zero_mask small_config_ok zero_mask_ok) as (H1 & H2 & H3 & H4 & H5 & Hob).
  pose proof (start_listen true no_rng ticking leftover close_bytes _ H1 H2 H3 H4 H5 Hv close_bytes_ok) as Hs.
  destruct (decode_stream (limits_of (new_connection no_rng small_config zero_mask)) close_bytes None) as [[[ok rest] open] out] eqn:Ed.
  assert (ok = true /\ has_close out = true /\ replies out = []) as (-> & Hcl & Hrep)
    by (vm_compute in Ed; injection Ed as <- _ _ <-; by vm_compute).
  cbn [answers] in Hs. unfold served in Hs. rewrite Hcl in Hs.
  destruct Hs as (c & E & Ho & _). exists (false, c).
  assert (session_reaches true no_rng ticking small_config zero_mask (Some listener) (false, c)) as Hr.
  { exists leftover, true, (false, c). split; [by exists close_bytes; split; [|exact close_bytes_ok]|]. split; [exact E|constructor]. }
  split; [exact Hr|]. split.
  - unfold frames. cbn [snd]. unfold observed in *. by rewrite Ho, Hob, Hrep.
  - exact (proj2 (ws_one_close true no_rng ticking small_config zero_mask (Some listener) (false, c)
      small_config_ok zero_mask_ok (some_listener_ok _ _ _) Hr)).
Defined.

Lemma ws_steps_end_witness : exists leftover, data_ok leftover
  /\ exists s0, start true no_rng ticking (Some listener) leftover true small_connection = Ok s0.
Proof.
  destruct (of_span_view close_bytes) as (leftover & _ & Hv). exists leftover.
  assert (data_ok leftover) as Hd by (exists close_bytes; split; [exact Hv|exact close_bytes_ok]). split; [exact Hd|].
  exact (proj1 (ws_steps_end true no_rng ticking small_config zero_mask (Some listener) leftover true
    small_config_ok zero_mask_ok (some_listener_ok _ _ _) Hd)).
Defined.

(** A ping of two bytes, then a text message and the close frame, cut in the middle. *)
Definition talk_start : bytes := [137; 130; 1; 1; 1; 1; 105; 104; 129; 129].
Definition talk_chunks : list bytes := [[0; 0; 0; 0; 33; 136]; [130; 0; 0; 0; 0; 3; 232]].
Lemma talk_ok : chunk_ok talk_start /\ Forall chunk_ok talk_chunks.
Proof.
  split; [split; [repeat (constructor; [by split|]); constructor|done]|].
  repeat (constructor; [split; [repeat (constructor; [by split|]); constructor|done]|]). constructor.
Qed.

Lemma ws_server_answers_witness : exists leftover c, view leftover talk_start
  /\ session_run true no_rng ticking small_config zero_mask leftover talk_chunks = Ok (false, c)
  /\ observed c = [Sent type_pong_frame [104; 105]; Delivered [33]; close_frame normal_close_].
Proof.
  destruct (of_span_view talk_start) as (leftover & _ & Hv). exists leftover.
  destruct (decode_stream (mkLimits server_ 100 100) (talk_start ++ concat talk_chunks) None) as [[[ok rest] open] out] eqn:Ed.
  assert (ok = true /\ has_close out = true /\ replies out = [Sent type_pong_frame [104; 105]; Delivered [33]]) as (-> & Hcl & Hr)
    by (vm_compute in Ed; injection Ed as <- _ _ <-; by vm_compute).
  destruct (ws_server_answers true no_rng ticking small_config zero_mask leftover talk_start talk_chunks rest open out
    small_config_ok zero_mask_ok Hv (proj1 talk_ok) (proj2 talk_ok) Ed) as (c & E & Ho & _).
  rewrite Hcl in E, Ho. rewrite Hr in Ho. exists c. split; [exact Hv|]. split; [exact E|exact Ho].
Defined.

(** A ping, then a frame with a reserved bit. *)
Definition bad_chunks : list bytes := [[137; 128; 0; 0; 0; 0]; [193; 128; 0; 0; 0; 0]].
Lemma bad_ok : Forall chunk_ok bad_chunks.
Proof. repeat (constructor; [split; [repeat (constructor; [by split|]); constructor|done]|]). constructor. Qed.

Lemma ws_server_refuses_witness : exists leftover c, view leftover []
  /\ session_run true no_rng ticking small_config zero_mask leftover bad_chunks = Ok (false, c) /\ get_state c = closed_.
Proof.
  destruct (of_span_view []) as (leftover & _ & Hv). exists leftover.
  assert (chunk_ok []) as Hnil by (split; [constructor|done]).
  destruct (decode_stream (mkLimits server_ 100 100) ([] ++ concat bad_chunks) None) as [[[ok rest] open] out] eqn:Ed.
  assert (ok = false) as -> by (vm_compute in Ed; by injection Ed as <-).
  destruct (ws_server_refuses true no_rng ticking small_config zero_mask leftover [] bad_chunks rest open out
    small_config_ok zero_mask_ok Hv Hnil bad_ok Ed) as (c & code & k & E & Hst & _).
  exists c. split; [exact Hv|]. split; [exact E|exact Hst].
Defined.

(** Two calls allowed in 1000 ms: four fit in an interval of that length. *)
Definition some_calls : list (bytes * Z) := [([1], 1); ([1], 999); ([2], 999); ([1], 1000); ([1], 1001); ([1], 1002); ([1], 1003)].
Lemma ws_rate_limit_witness : allowed_in [1] 999 1000 (run_calls 2 1000 ∅ some_calls) = 3
  /\ allowed_in [1] 999 1000 (run_calls 2 1000 ∅ some_calls) <= 2 * 2.
Proof.
  split; [by vm_compute|]. apply (ws_rate_limit 2 1000 [1] some_calls 999); [lia|lia|done|]. cbn. lia.
Defined.
