(* ===== verification/WsTheorems.v ===== *)
(** What the WebSocket frame layer and the text utilities under it promise: streams are
    read the same however they are cut, messages cross a connection, what is delivered
    keeps the rules; UTF-8 is recognised, Base64 is read back. *)
From stdpp Require Import gmap.
From S2P Require Import Prelude Endian ByteBuffer ByteBufferFacts Strings Utf8 WsProtocol.
From S2P Require Import WsParser WsReference WsParserFacts WsStreamFacts WsHandshake.

(** * What the opening handshake promises: the client and the server of this library accept
    each other, and who is refused. *)
Section Handshake.
Import WsHandshake.

Definition empty_response : HttpResponse := mkResponse false false ∅.

(** The headers of the client's request, by name. *)
Lemma request_headers gc req s : req_headers req = ∅ ->
  let h := req_headers (on_handshake_request (Some gc) req s).2 in
  get_header (str "connection") h = Some (str "Upgrade") /\ get_header (str "upgrade") h = Some (str "websocket")
  /\ get_header (str "sec-websocket-version") h = Some (str "13")
  /\ get_header (str "sec-websocket-key") h = Some (client_key_ (on_handshake_request (Some gc) req s).1)
  /\ get_header (str "origin") h = None
  /\ get_header (str "sec-websocket-protocol") h
     = if bool_decide (client_subprotos_ gc = []) then None else Some (encode_sub_proto (client_subprotos_ gc)).
Proof.
  intros E. cbv zeta. unfold on_handshake_request, client_request. rewrite E. cbn [fst snd req_headers client_key_].
  case_bool_decide; split_and!; done.
Qed.

(** The headers of the server's response. *)
Lemma response_headers proto key : forall h, (h = ∅ \/ h = add_header (str "Sec-WebSocket-Protocol") proto ∅) ->
  let h := add_header (str "Sec-WebSocket-Accept") key (add_header (str "Upgrade") (str "websocket") (add_header (str "Connection") (str "Upgrade") h)) in
  get_header (str "connection") h = Some (str "Upgrade") /\ get_header (str "upgrade") h = Some (str "websocket")
  /\ get_header (str "sec-websocket-accept") h = Some key.
Proof. intros h [-> | ->]; cbv zeta; split_and!; done. Qed.

Lemma request_accepted gc gs req s : req_headers req = ∅ -> is_valid_websocket_key (client_key_ (on_handshake_request (Some gc) req s).1) = true ->
  is_request_authorized (on_handshake_request (Some gc) req s).2 gs = true ->
  request_refused (Some gs) (on_handshake_request (Some gc) req s).2 = false.
Proof.
  intros E Hk Ha. destruct (request_headers gc req s E) as (H1 & H2 & H3 & H4 & H5 & _). unfold request_refused.
  rewrite H1, H2, H3, H4, H5, Hk, Ha. done.
Qed.

(** C34: a client with a key of this library and the server of this library agree: the
    server takes the request of any such client that it authorises and shares a
    subprotocol with (or that asks for none), answers 101 with the accept key of RFC 6455,
    and picks a subprotocol that both have; a client that asks for none then accepts the
    response, and both hold the same keys. *)
Theorem handshake_completes sha1 gc gs r0 r1 r2 r3 get v11 :
  let key := gen_magic_string r0 r1 r2 r3 in
  let '(c, req) := on_handshake_request (Some gc) (mkRequest get v11 ∅) init in
  client_key_config gc = key -> sorted_set (client_subprotos_ gc) -> Forall plain (client_subprotos_ gc) ->
  Forall (fun w => w <> []) (client_subprotos_ gc) ->
  (client_subprotos_ gc = [] \/ exists p, p ∈ client_subprotos_ gc /\ p ∈ server_subprotos_ gs) ->
  is_request_authorized req gs = true ->
  exists s resp, on_handshake_server sha1 (Some gs) req empty_response init = (true, s, Some resp)
  /\ ok_ s = true /\ client_key_ s = key /\ server_key_ s = Base64.base64_encode (sha1 (key ++ magic_string_))
  /\ switch_protocol resp = true
  /\ (client_subprotos_ gc <> [] -> working_subproto_ s ∈ client_subprotos_ gc /\ working_subproto_ s ∈ server_subprotos_ gs)
  /\ (client_subprotos_ gc = [] -> exists c',
        on_handshake_response sha1 (Some gc) (mkResponse true true (resp_headers resp)) c = (true, c')
        /\ ok_ c' = true /\ client_key_ c' = client_key_ s /\ server_key_ c' = server_key_ s).
Proof.
  cbv zeta. set (key := gen_magic_string r0 r1 r2 r3). set (req0 := mkRequest get v11 ∅).
  rewrite (surjective_pairing (on_handshake_request (Some gc) req0 init)). intros Hkey Hsort Hplain Hne Hcommon Hauth.
  destruct (request_headers gc req0 init eq_refl) as (_ & _ & _ & H4 & _ & H6).
  change (client_key_ (on_handshake_request (Some gc) req0 init).1) with (client_key_config gc) in *. rewrite Hkey in H4.
  destruct (nonce_ok r0 r1 r2 r3) as [Hn1 Hn2]. destruct (key_valid _ Hn1 Hn2) as (Hvalid & Htrim & Hnil).
  fold (gen_magic_string r0 r1 r2 r3) in Hvalid, Htrim, Hnil. fold key in Hvalid, Htrim, Hnil.
  assert (request_refused (Some gs) (on_handshake_request (Some gc) req0 init).2 = false) as Href.
  { apply request_accepted; [done| |done]. change (client_key_ _) with (client_key_config gc). by rewrite Hkey. }
  unfold on_handshake_server, do_handshake_server. rewrite Href, H4.
  change (default [] (Some key)) with key. cbv zeta. rewrite Htrim, H6. case_bool_decide as Hp.
  - cbn [negb]. eexists _, _. split; [done|]. cbn [ok_ client_key_ server_key_ working_subproto_]. split_and!; try done. intros _.
    destruct (response_headers [] (generate_server_key sha1 key) ∅) as (R1 & R2 & R3); [by left|].
    unfold on_handshake_response, client_response, response_refused. cbn [resp_is_ok resp_headers resp_add_header empty_response negb].
    rewrite R1, R2, R3. change (client_key_ (reset _)) with (client_key_config gc). rewrite Hkey.
    unfold str_eqb. rewrite bool_decide_false by done. rewrite !bool_decide_true by done.
    change (negb (header_has_token (str "Upgrade") (str "Upgrade"))) with false.
    change (negb (iequals (str "websocket") (str "websocket"))) with false. cbn [orb negb].
    eexists. split; [done|]. cbn [ok_ client_key_ server_key_]. split_and!; done.
  - destruct Hcommon as [|(p & Hpc & Hps)]; [done|]. rewrite decode_encode_protos by done. cbn [mbind option_bind].
    destruct (find_support _ gs p Hpc Hps) as (q & -> & Hq1 & Hq2). cbn [negb]. eexists _, _. split; [done|]. split_and!; try done.
Qed.

(** The server refuses, without an answer, a request that is not GET over HTTP/1.1,
    that lacks one of the four headers of the handshake, whose version is not 13, or whose
    key does not decode to sixteen bytes; and one of an origin it does not allow. *)
Theorem handshake_refusals sha1 gs req resp s :
  is_get req && is_v_1_1 req = false
  \/ (exists name, name ∈ [str "connection"; str "upgrade"; str "sec-websocket-version"; str "sec-websocket-key"]
      /\ get_header name (req_headers req) = None)
  \/ (exists version, get_header (str "sec-websocket-version") (req_headers req) = Some version /\ version <> str "13")
  \/ (exists key, get_header (str "sec-websocket-key") (req_headers req) = Some key
      /\ zlen (Base64.base64_decode (StringUtil.trim_ascii key)) <> 16)
  \/ (exists origin, get_header (str "origin") (req_headers req) = Some origin /\ is_origin_allowed origin gs = false) ->
  exists s', on_handshake_server sha1 (Some gs) req resp s = (false, s', None) /\ ok_ s' = false.
Proof.
  intros H. assert (request_refused (Some gs) req = true) as Hr.
  { unfold request_refused. destruct (negb (is_get req) || negb (is_v_1_1 req)) eqn:E0; [done|].
    destruct (get_header (str "connection") (req_headers req)) as [conn|] eqn:E1; [|done]. case_if; [done|].
    destruct (get_header (str "upgrade") (req_headers req)) as [upgrade|] eqn:E2; [|done]. case_if; [done|].
    destruct (get_header (str "sec-websocket-version") (req_headers req)) as [version|] eqn:E3; [|done].
    destruct (str_eqb version (str "13")) eqn:E4; [|done]. apply bool_decide_eq_true in E4. cbn [negb].
    destruct (get_header (str "sec-websocket-key") (req_headers req)) as [key|] eqn:E5; [|done].
    destruct (is_valid_websocket_key key) eqn:E6; [|done]. cbn [negb].
    destruct H as [H|[(name & Hin & Hn)|[(version' & Hv & Hne)|[(key' & Hk & Hne)|(origin & Ho & Hno)]]]].
    - destruct (is_get req), (is_v_1_1 req); done.
    - rewrite !elem_of_cons in Hin. destruct Hin as [-> |[-> |[-> |[-> |[]%not_elem_of_nil]]]]; congruence.
    - congruence.
    - assert (key' = key) as -> by congruence. exfalso. apply Hne. unfold is_valid_websocket_key in E6.
      repeat (case_if_in E6; [done|]). by apply Z.eqb_eq in E6.
    - rewrite Ho, Hno. done. }
  unfold on_handshake_server, do_handshake_server. rewrite Hr. by eexists.
Qed.

(** A client that asks for subprotocols accepts no response at all: it looks for the
    server's choice among its server subprotocols, which the configuration of a client
    leaves empty. *)
Theorem client_with_subprotocols_refuses sha1 gc resp s : client_subprotos_ gc <> [] -> server_subprotos_ gc = [] ->
  exists s', on_handshake_response sha1 (Some gc) resp s = (false, s') /\ ok_ s' = false.
Proof.
  intros Hc Hs. unfold on_handshake_response, client_response. case_if; [by eexists|]. rewrite bool_decide_false by done.
  destruct (get_header (str "sec-websocket-protocol") (resp_headers resp)) as [p|]; [|by eexists].
  rewrite find_support_none by done. by eexists.
Qed.

(** * Witnesses *)
Definition plain_client (protos : list bytes) : Config := mkConfig protos [] [] None None (gen_magic_string 1 2 3 4).
Definition chat_server : Config := mkConfig [] [str "chat"; str "mqtt"] [str "example.org"] None None [].
Definition no_sha1 (s : bytes) : bytes := take 20 s.

Lemma handshake_completes_witness : exists s resp,
  on_handshake_server no_sha1 (Some chat_server) (on_handshake_request (Some (plain_client [str "json"; str "mqtt"])) (mkRequest false false ∅) init).2
    empty_response init = (true, s, Some resp) /\ working_subproto_ s = str "mqtt".
Proof.
  pose proof (handshake_completes no_sha1 (plain_client [str "json"; str "mqtt"]) chat_server 1 2 3 4 false false) as H.
  rewrite (surjective_pairing (on_handshake_request _ _ _)) in H.
  destruct H as (s & resp & E & _ & _ & _ & _ & Hw & _); [done|done| | | |done|].
  - repeat (constructor; [repeat (constructor; [by split|]); constructor|]). constructor.
  - repeat (constructor; [done|]). constructor.
  - right. exists (str "mqtt"). split; [change (str "mqtt" ∈ [str "json"; str "mqtt"])|change (str "mqtt" ∈ [str "chat"; str "mqtt"])]; rewrite !elem_of_cons; auto.
  - exists s, resp. split; [exact E|]. destruct (Hw ltac:(done)) as [H1 H2].
    apply elem_of_cons in H1 as [H1|H1%list_elem_of_singleton]; [|exact H1]. rewrite H1 in H2.
    apply elem_of_cons in H2 as [H2|H2%list_elem_of_singleton]; discriminate.
Defined.

Lemma handshake_refusals_witness : exists s', on_handshake_server no_sha1 (Some chat_server) (mkRequest true true ∅) empty_response init
  = (false, s', None) /\ ok_ s' = false.
Proof.
  apply handshake_refusals. right. left. exists (str "upgrade").
  split; [rewrite !elem_of_cons; auto|reflexivity].
Defined.

Lemma client_with_subprotocols_refuses_witness : exists s',
  on_handshake_response no_sha1 (Some (plain_client [str "json"])) (mkResponse true true ∅) init = (false, s') /\ ok_ s' = false.
Proof. apply client_with_subprotocols_refuses; [discriminate|reflexivity]. Defined.
End Handshake.

Import ByteBuffer WsProtocol WsParser.

(** C10: however a stream is cut into chunks, the parser gives what the reference decoder
    gives on the whole stream: it refuses the same streams, and delivers the same messages
    in the same order, on every input of bytes. *)
Theorem unpack_is_reference little conn mask chunks : limits_ok conn -> Forall chunk_ok chunks ->
  let '(ok, rest, open, out) := decode_stream conn (concat chunks) None in
  exists p delivered, feed little conn chunks (WsParser.init mask) [] = Ok (ok, p, delivered)
  /\ Forall2 chunk_is delivered out /\ (ok = true -> parser_ok conn p rest open).
Proof.
  intros Hl Hc. pose proof (feed_init little conn Hl mask chunks Hc) as H.
  destruct (decode_stream conn (concat chunks) None) as [[[ok rest] open] out].
  destruct H as (p & d & E & Hf & Hok). exists p, d. split; [done|]. split; [done|]. intros Ho. apply (Hok Ho).
Qed.

(** every message that the parser delivers is final, has no reserved bit, is masked as
    the role demands; a control message has at most 125 bytes and a close message a code
    that may be sent; a data message is within the limits and text is UTF-8. What the
    parser keeps between calls is less than one frame, and an open message within its
    limit. *)
Theorem deliveries_keep_rules little conn mask chunks p delivered : limits_ok conn -> Forall chunk_ok chunks ->
  feed little conn chunks (WsParser.init mask) [] = Ok (true, p, delivered) ->
  Forall (fun c => exists d, view (body_ c) d /\ message_rules conn (head_ c, d)) delivered
  /\ readable_bytes (frame_buffer_ p) < 14 + PACKET_MAX_BYTE
  /\ (has_fragmented_message_ p = true ->
      readable_bytes (body_ (fragmented_message_ p)) <= max_fragmented_message_size conn).
Proof.
  intros Hl Hc E. pose proof (feed_init little conn Hl mask chunks Hc) as H.
  assert (Forall is_u8 (concat chunks)) as Hu by (apply Forall_concat; eapply Forall_impl; [exact Hc|by intros ? []]).
  destruct (decode_stream conn (concat chunks) None) as [[[ok rest] open] out] eqn:Ed.
  destruct H as (p' & d & E' & Hf & Hok). rewrite E in E'. injection E' as <- <- <-.
  destruct (Hok eq_refl) as [[Hp _ Ho] Hur].
  destruct (decode_stream_rules _ _ None _ _ _ _ Hu I Ed) as [Hr Ho']. split; [|split].
  - clear -Hf Hr. induction Hf as [|c m cs ms (_ & Hh & Hv) Hf IH]; [constructor|].
    apply Forall_cons in Hr as [Hm Hr]. constructor; [|by apply IH]. exists m.2. split; [done|]. rewrite Hh. by destruct m.
  - destruct (pending_buffer _ _ _ Hp) as (y & z & Hv & ->). rewrite (view_readable _ _ Hv).
    apply decode_stream_rest in Ed. pose proof (no_frame_small _ Hur Ed) as Hn. rewrite zlen_app in Hn.
    pose proof (zlen_nonneg z). lia.
  - intros Hhas. destruct open as [m|]; [|cbn in Ho; congruence]. destruct Ho as (_ & (_ & _ & Hv) & _).
    rewrite (view_readable _ _ Hv). apply (or_max _ _ Ho').
Qed.

(** C11: a text or binary message that one parser packs, in as many frames as it takes and
    masked or not, is delivered by the parser of the other role as one message with the
    same bytes, however the stream is cut on the way, when it is within the receiver's
    limits and, if it is text, UTF-8. *)
Theorem message_exchange little little' rng conn type data c p mask chunks :
  limits_ok conn -> view data c -> Forall is_u8 c -> type = type_text_frame \/ type = type_binary_frame ->
  text_ok type c -> mask_ok p -> use_mask_ p = bool_decide (mode_ conn = server_) ->
  zlen c <= (if zlen c <? PACKET_MAX_BYTE then max_message_size conn else max_fragmented_message_size conn) ->
  exists p' frames cs, WsParser.pack little rng data type p [] = Ok (true, p', frames) /\ Forall2 view frames cs
  /\ (concat chunks = concat cs -> Forall chunk_ok chunks ->
      exists q m, feed little' conn chunks (WsParser.init mask) [] = Ok (true, q, [m])
      /\ view (body_ m) c /\ opcode_ (head_ m) = type /\ is_fin (head_ m) = true
      /\ readable_bytes (frame_buffer_ q) = 0 /\ has_fragmented_message_ q = false).
Proof.
  intros Hl Hd Hu Ht Htext Hm Hmask Hn.
  assert (zlen c < 4294967296) as Hlt by (destruct Hl; unfold is_u32 in *; case_if_in Hn; lia).
  destruct (pack_view little rng data type c p Hd Ht Hm Hlt) as (p' & bufs & cs & keys & E & Hv & _ & _ & _ & Hlk & Hko & Hcs & Hps).
  exists p', bufs, cs. split; [done|]. split; [done|]. intros Hch Hok.
  pose proof (feed_init little' conn Hl mask chunks Hok) as H. rewrite Hch, Hcs, concat_wire_pieces in H.
  destruct (decode_message conn (use_mask_ p) type Hmask Ht keys (pieces (frame_count c) c)) as (h & Ed & Hop & Hfin & Hlen);
    [done|apply pieces_count_ne|done|done|by rewrite concat_pieces_count, pieces_count_one|by rewrite concat_pieces_count|].
  rewrite Ed in H. destruct H as (q & d & E' & Hf & Hq). destruct (Hq eq_refl) as [Hpk _].
  apply Forall2_cons_inv_r in Hf as (m & d' & (_ & Hh & Hb) & Hnil%Forall2_nil_inv_r & ->). subst d'.
  exists q, m. cbn [fst snd] in *. rewrite concat_pieces_count in Hb. rewrite Hh.
  split; [done|]. split; [done|]. split; [done|]. split; [unfold is_fin; by rewrite Hfin|].
  destruct Hpk as [Hp _ Ho]. split; [|exact Ho].
  destruct (pending_buffer _ _ _ Hp) as (y & z & Hvy & Hy). rewrite (view_readable _ _ Hvy). by destruct z, y.
Qed.

(** the UTF-8 check accepts exactly the encodings of sequences of Unicode scalar
    values: no overlong form, no surrogate, nothing above U+10FFFF, nothing cut off; and it
    answers on every input of bytes. *)
Theorem utf8_exact data : Forall is_u8 data ->
  (exists valid, Utf8.is_valid_utf8 data = Ok valid)
  /\ (Utf8.is_valid_utf8 data = Ok true <-> exists cps, Forall Utf8.scalar cps /\ data = concat (map Utf8.encode cps)).
Proof. intros Hd. split; [by apply Utf8.is_valid_utf8_total|by apply Utf8.is_valid_utf8_spec]. Qed.

(** Base64 decoding undoes encoding on every sequence of bytes, also after characters
    outside the alphabet have been put in between; encoding pads to whole groups of four
    characters of the alphabet. *)
Theorem base64_roundtrip data text : Forall is_u8 data -> List.filter Base64.alphabet text = Base64.base64_encode data ->
  Base64.base64_decode text = data /\ Base64.base64_decode (Base64.base64_encode data) = data
  /\ zlen (Base64.base64_encode data) = 4 * ((zlen data + 2) / 3).
Proof.
  intros Hd Ht. assert (Base64.base64_decode (Base64.base64_encode data) = data) as He by by apply Base64.encode_decode.
  split; [by rewrite <- Base64.decode_skips, Ht|]. split; [done|apply Base64.encode_length].
Qed.

(** * Witnesses *)
(** A server that takes messages of 100 bytes, and a masked text frame with a ping in the
    middle of it, cut in three. *)
Definition small_server : limits := mkLimits server_ 100 100.
Definition hello_chunks : list bytes :=
  [[1; 130; 0]; [0; 0; 0; 72; 105; 137; 128; 1; 2]; [3; 4; 128; 129; 0; 0; 0; 0; 33]].
Lemma small_server_ok : limits_ok small_server.
Proof. by split. Qed.
Lemma hello_ok : Forall chunk_ok hello_chunks.
Proof. repeat (constructor; [split; [repeat (constructor; [by split|]); constructor|done]|]). constructor. Qed.

Lemma unpack_is_reference_witness : limits_ok small_server /\ Forall chunk_ok hello_chunks
  /\ (decode_stream small_server (concat hello_chunks) None).2.*2 = [[]; [72; 105; 33]]
  /\ let '(ok, rest, open, out) := decode_stream small_server (concat hello_chunks) None in
     exists p delivered, feed true small_server hello_chunks (WsParser.init [0; 0; 0; 0]) [] = Ok (ok, p, delivered)
     /\ Forall2 chunk_is delivered out /\ (ok = true -> parser_ok small_server p rest open).
Proof.
  split; [exact small_server_ok|]. split; [exact hello_ok|]. split; [by vm_compute|].
  exact (unpack_is_reference true small_server [0; 0; 0; 0] hello_chunks small_server_ok hello_ok).
Defined.

Lemma deliveries_keep_rules_witness : exists p delivered,
  feed true small_server hello_chunks (WsParser.init [0; 0; 0; 0]) [] = Ok (true, p, delivered) /\ length delivered = 2%nat
  /\ readable_bytes (frame_buffer_ p) < 14 + PACKET_MAX_BYTE.
Proof.
  destruct (decode_stream small_server (concat hello_chunks) None) as [[[ok rest] open] out] eqn:Ed.
  assert (ok = true /\ length out = 2%nat) as [-> Hn] by (vm_compute in Ed; by injection Ed as <- _ _ <-).
  pose proof (feed_init true small_server small_server_ok [0; 0; 0; 0] hello_chunks hello_ok) as H. rewrite Ed in H.
  destruct H as (p & delivered & E & Hf & _). exists p, delivered. split; [exact E|].
  split; [by rewrite (Forall2_length _ _ _ Hf)|].
  exact (proj1 (proj2 (deliveries_keep_rules true small_server [0; 0; 0; 0] hello_chunks p delivered small_server_ok hello_ok E))).
Defined.

Lemma message_exchange_witness : exists data, view data [104; 195; 169] /\
  exists p' frames cs, WsParser.pack false (fun _ => 7) data type_text_frame (WsParser.use_mask (fun _ => 7) true (WsParser.init [0; 0; 0; 0])) []
    = Ok (true, p', frames) /\ Forall2 view frames cs.
Proof.
  destruct (of_span_view [104; 195; 169]) as (data & _ & Hd). exists data. split; [exact Hd|].
  destruct (message_exchange false true (fun _ => 7) small_server type_text_frame data [104; 195; 169]
    (WsParser.use_mask (fun _ => 7) true (WsParser.init [0; 0; 0; 0])) [0; 0; 0; 0] []) as (p' & frames & cs & E & Hv & _).
  - exact small_server_ok.
  - exact Hd.
  - repeat (constructor; [by split|]). constructor.
  - by left.
  - intros _. by vm_compute.
  - apply update_mask_ok.
  - done.
  - done.
  - exists p', frames, cs. split; [exact E|exact Hv].
Defined.

Lemma utf8_exact_witness : Forall is_u8 [226; 130; 172]
  /\ exists cps, Forall Utf8.scalar cps /\ [226; 130; 172] = concat (map Utf8.encode cps).
Proof.
  assert (Forall is_u8 [226; 130; 172]) as H by (repeat (constructor; [by split|]); constructor).
  split; [exact H|]. apply (proj2 (utf8_exact [226; 130; 172] H)). by vm_compute.
Defined.

(** ["aGk="] with a line break. *)
Lemma base64_roundtrip_witness : Base64.base64_decode [97; 71; 10; 107; 61] = [104; 105].
Proof.
  refine (proj1 (base64_roundtrip [104; 105] [97; 71; 10; 107; 61] _ _)).
  - repeat (constructor; [by split|]). constructor.
  - by vm_compute.
Defined.
