(* ===== verification/RpcTypes.v ===== *)
(** The RPC library's data: [libs/rpc/include/yuan/rpc/types.h] and
    [libs/rpc/src/types.cpp].

    The enumerations have a fixed underlying type and the wire decoder converts
    received integers to them without a check, so a value of an enumeration is any
    integer of that type; the enumerators are constants. Metadata is a finite map.
    A [Message] or [Response] is copied and moved by value. *)
From S2P Require Import Prelude Strings.

Module RpcTypes.

Abbreviation Metadata := (gmap bytes bytes).

(** [enum class Serialization : uint8_t] *)
Abbreviation Serialization := Z (only parsing).
Definition ser_raw : Serialization := 0.
Definition ser_json : Serialization := 1.
Definition ser_protobuf : Serialization := 2.
Definition ser_flatbuffers : Serialization := 3.
Definition ser_msgpack : Serialization := 4.

(** [enum class Compression : uint8_t] *)
Abbreviation Compression := Z (only parsing).
Definition comp_none : Compression := 0.

(** [enum class Encryption : uint8_t] *)
Abbreviation Encryption := Z (only parsing).
Definition enc_none : Encryption := 0.
Definition enc_xor_stream : Encryption := 1.

(** [enum class MessageKind : uint8_t] *)
Abbreviation MessageKind := Z (only parsing).
Definition kind_request : MessageKind := 0.
Definition kind_response : MessageKind := 1.
Definition kind_push : MessageKind := 2.

(** [enum class RpcStatus : uint16_t] *)
Abbreviation RpcStatus := Z (only parsing).
Definition st_ok : RpcStatus := 0.
Definition st_not_found : RpcStatus := 1.
Definition st_timeout : RpcStatus := 2.
Definition st_canceled : RpcStatus := 3.
Definition st_bad_request : RpcStatus := 4.
Definition st_unavailable : RpcStatus := 5.
Definition st_internal_error : RpcStatus := 6.

Record Route : Type := mkRoute { rt_service : Z; rt_method : Z; rt_name : bytes }.
Definition no_route : Route := mkRoute 0 0 [].
Definition valid (r : Route) : bool := negb (rt_service r =? 0) || negb (bool_decide (rt_name r = [])).

Record Peer : Type := mkPeer { node : Z; endpoint : bytes }.
Definition no_peer : Peer := mkPeer 0 [].

Record Message : Type := mkMessage {
  m_kind : MessageKind;
  m_request_id : Z;
  m_coroutine_id : Z;
  m_connection_id : Z;
  m_session_id : Z;
  m_peer_service_id : Z;
  m_auth_token : Z;
  m_route : Route;
  m_source : Peer;
  m_target : Peer;
  m_serialization : Serialization;
  m_compression : Compression;
  m_encryption : Encryption;
  m_key_id : Z;
  m_nonce : Z;
  m_flags : Z;
  m_metadata : Metadata;
  m_payload : bytes
}.
(** [Message{}] *)
Definition no_message : Message :=
  mkMessage kind_request 0 0 0 0 0 0 no_route no_peer no_peer ser_raw comp_none enc_none 0 0 0 ∅ [].

Record Response : Type := mkResponse {
  r_request_id : Z;
  r_coroutine_id : Z;
  r_connection_id : Z;
  r_session_id : Z;
  r_peer_service_id : Z;
  r_auth_token : Z;
  r_status : RpcStatus;
  r_error : bytes;
  r_serialization : Serialization;
  r_compression : Compression;
  r_encryption : Encryption;
  r_key_id : Z;
  r_nonce : Z;
  r_flags : Z;
  r_metadata : Metadata;
  r_payload : bytes
}.
(** [Response{}] *)
Definition no_response : Response :=
  mkResponse 0 0 0 0 0 0 st_ok [] ser_raw comp_none enc_none 0 0 0 ∅ [].

(** Assignments to the members the library assigns after construction. *)
Definition set_request_id (id : Z) (r : Response) : Response :=
  mkResponse id (r_coroutine_id r) (r_connection_id r) (r_session_id r) (r_peer_service_id r) (r_auth_token r)
    (r_status r) (r_error r) (r_serialization r) (r_compression r) (r_encryption r) (r_key_id r) (r_nonce r)
    (r_flags r) (r_metadata r) (r_payload r).
Definition set_continuation_id (id : Z) (r : Response) : Response :=
  mkResponse (r_request_id r) id (r_connection_id r) (r_session_id r) (r_peer_service_id r) (r_auth_token r)
    (r_status r) (r_error r) (r_serialization r) (r_compression r) (r_encryption r) (r_key_id r) (r_nonce r)
    (r_flags r) (r_metadata r) (r_payload r).
Definition set_failure (status : RpcStatus) (error : bytes) (r : Response) : Response :=
  mkResponse (r_request_id r) (r_coroutine_id r) (r_connection_id r) (r_session_id r) (r_peer_service_id r)
    (r_auth_token r) status error (r_serialization r) (r_compression r) (r_encryption r) (r_key_id r) (r_nonce r)
    (r_flags r) (r_metadata r) (r_payload r).
Definition set_formats (ser : Serialization) (comp : Compression) (r : Response) : Response :=
  mkResponse (r_request_id r) (r_coroutine_id r) (r_connection_id r) (r_session_id r) (r_peer_service_id r)
    (r_auth_token r) (r_status r) (r_error r) ser comp (r_encryption r) (r_key_id r) (r_nonce r)
    (r_flags r) (r_metadata r) (r_payload r).
Definition continuation_id (r : Response) : Z := r_coroutine_id r.

Record CallOptions : Type := mkOptions {
  o_timeout : Z;
  o_coroutine_id : Z;
  o_serialization : Serialization;
  o_compression : Compression;
  o_encryption : Encryption;
  o_key_id : Z;
  o_nonce : Z;
  o_metadata : Metadata
}.
(** [CallOptions{}]: three seconds, in milliseconds *)
Definition default_options : CallOptions := mkOptions 3000 0 ser_raw comp_none enc_none 0 0 ∅.

Record RpcContext : Type := mkContext {
  x_request_id : Z;
  x_continuation_id : Z;
  x_connection_id : Z;
  x_session_id : Z;
  x_peer_service_id : Z;
  x_auth_token : Z;
  x_flags : Z;
  x_source : Peer;
  x_target : Peer;
  x_metadata : Metadata
}.
Definition metadata_value (key : bytes) (x : RpcContext) : option bytes := x_metadata x !! key.
Definition context_from (m : Message) : RpcContext :=
  mkContext (m_request_id m) (m_coroutine_id m) (m_connection_id m) (m_session_id m) (m_peer_service_id m)
    (m_auth_token m) (m_flags m) (m_source m) (m_target m) (m_metadata m).
Definition context_from_response (r : Response) : RpcContext :=
  mkContext (r_request_id r) (r_coroutine_id r) (r_connection_id r) (r_session_id r) (r_peer_service_id r)
    (r_auth_token r) (r_flags r) no_peer no_peer (r_metadata r).

Definition status_to_string (status : RpcStatus) : bytes :=
  if status =? st_ok then str "ok"
  else if status =? st_not_found then str "not_found"
  else if status =? st_timeout then str "timeout"
  else if status =? st_canceled then str "canceled"
  else if status =? st_bad_request then str "bad_request"
  else if status =? st_unavailable then str "unavailable"
  else if status =? st_internal_error then str "internal_error"
  else str "unknown".

(** [RpcError(status, message)]: what [what()] returns. *)
Definition rpc_error_message (status : RpcStatus) (message : bytes) : bytes :=
  if bool_decide (message = []) then status_to_string status else message.

Definition route_key (r : Route) : bytes :=
  if negb (rt_service r =? 0) || negb (rt_method r =? 0)
  then to_string (rt_service r) ++ str ":" ++ to_string (rt_method r)
  else rt_name r.

End RpcTypes.
