(* ===== verification/RpcWire.v ===== *)
(** The RPC frame format: [libs/rpc/include/yuan/rpc/wire.h], [libs/rpc/src/wire.cpp]
    and the frame stream of [libs/rpc/src/frame_stream.cpp].

    A frame is an 84-byte header and a body. The decoder reads its fields from
    [data + offset], bounded by [size]; reading past [data] itself is a [Fault]. A
    cipher is a [std::function] and may be empty; one that returns false is [None].
    Integers are written most significant byte first. *)
From S2P Require Import Prelude Endian ByteBuffer ByteBufferFacts RpcTypes.
Import RpcTypes.

Module RpcWire.

Definition magic : Z := 1498566723. (* 0x59525043, "YRPC" *)
Definition version : Z := 1.
Definition max_default_frame_size : Z := 67108864.
Definition header_size : Z := 84.
(** [std::numeric_limits<std::uint32_t>::max()] and that of [std::size_t] *)
Definition UINT32_MAX : Z := 4294967295.
Definition SIZE_MAX : Z := 18446744073709551615.

Inductive DecodeError : Type := need_more | bad_magic | unsupported_version | frame_too_large | malformed.
#[export] Instance DecodeError_eq_dec : EqDecision DecodeError.
Proof. solve_decision. Defined.

Record FrameHeader : Type := mkHeader {
  h_kind : Z;
  h_request_id : Z;
  h_coroutine_id : Z;
  h_status : Z;
  h_serialization : Z;
  h_compression : Z;
  h_encryption : Z;
  h_key_id : Z;
  h_nonce : Z;
  h_session_id : Z;
  h_peer_service_id : Z;
  h_auth_token : Z;
  h_flags : Z;
  h_service : Z;
  h_method : Z;
  h_payload_size : Z
}.

Record DecodedFrame : Type := mkFrame { f_header : FrameHeader; f_payload : bytes }.

Record CryptoContext : Type := mkCrypto {
  c_encryption : Z;
  c_key_id : Z;
  c_nonce : Z;
  c_kind : Z;
  c_request_id : Z
}.
Definition Cipher : Type := CryptoContext -> bytes -> option bytes.

Record DecodeOptions : Type := mkDecode { max_frame_size : Z; decrypt : option Cipher }.
Definition default_decode : DecodeOptions := mkDecode max_default_frame_size None.

(** [DecodeResult]: the frame with the bytes consumed, or the error. *)
Inductive DecodeResult : Type :=
| Decoded (consumed : Z) (frame : DecodedFrame)
| Failed (error : DecodeError).

(** * Encoding *)
Definition write_u8 (v : Z) (out : bytes) : bytes := out ++ [u8 v].
Definition write_u16 (v : Z) (out : bytes) : bytes := out ++ [u8 (Z.shiftr v 8); u8 v].
Definition write_u32 (v : Z) (out : bytes) : bytes :=
  out ++ [u8 (Z.shiftr v 24); u8 (Z.shiftr v 16); u8 (Z.shiftr v 8); u8 v].
(** [for (int shift = 56; shift >= 0; shift -= 8)], from the rounds left. *)
Fixpoint write_u64_loop (n : nat) (v : Z) (out : bytes) : bytes :=
  match n with
  | O => out
  | S n => write_u64_loop n v (out ++ [u8 (Z.shiftr v (8 * Z.of_nat n))])
  end.
Definition write_u64 (v : Z) (out : bytes) : bytes := write_u64_loop 8 v out.
Definition append_checked (out value : bytes) : bytes := out ++ value.

(** The body of a frame: the payload, or what the cipher makes of it. *)
Definition crypto_context (h : FrameHeader) : CryptoContext :=
  mkCrypto (h_encryption h) (h_key_id h) (h_nonce h) (h_kind h) (h_request_id h).
Definition frame_body (encrypt : option Cipher) (h : FrameHeader) (payload : bytes) : option bytes :=
  if UINT32_MAX <? zlen payload then None
  else
    body ← (if h_encryption h =? enc_none then Some payload
            else cipher ← encrypt; cipher (crypto_context h) payload);
    if UINT32_MAX <? zlen body then None else Some body.

(** [encode_frame]; the metadata, the route's name and the error text are not sent.
    [None] is the result false. *)
Definition encode_frame (encrypt : option Cipher) (h : FrameHeader) (metadata : Metadata) (route_name error : bytes)
    (payload : bytes) : option bytes :=
  body ← frame_body encrypt h payload;
  let body_size := zlen body in
  let out := write_u32 magic [] in
  let out := write_u8 version out in
  let out := write_u8 (h_kind h) out in
  let out := write_u8 (h_serialization h) out in
  let out := write_u8 (h_compression h) out in
  let out := write_u16 (h_status h) out in
  let out := write_u16 (h_encryption h) out in
  let out := write_u32 body_size out in
  let out := write_u64 (h_request_id h) out in
  let out := write_u32 (h_service h) out in
  let out := write_u32 (h_method h) out in
  let out := write_u32 body_size out in
  let out := write_u64 (h_session_id h) out in
  let out := write_u64 (h_peer_service_id h) out in
  let out := write_u64 (h_auth_token h) out in
  let out := write_u32 (h_flags h) out in
  let out := write_u64 (h_nonce h) out in
  let out := write_u64 (h_coroutine_id h) out in
  let out := write_u32 (h_key_id h) out in
  let out := append_checked out body in
  if zlen out =? header_size + body_size then Some out else None.

Section Buffered.
Variable little : bool.

Definition write_header (h : FrameHeader) (body_size : Z) : ByteBuffer.t -> outcome ByteBuffer.t :=
  w_seq (ByteBuffer.append_u32 little magic)
  (w_seq (ByteBuffer.append_u8 little version)
  (w_seq (ByteBuffer.append_u8 little (h_kind h))
  (w_seq (ByteBuffer.append_u8 little (h_serialization h))
  (w_seq (ByteBuffer.append_u8 little (h_compression h))
  (w_seq (ByteBuffer.append_u16 little (h_status h))
  (w_seq (ByteBuffer.append_u16 little (h_encryption h))
  (w_seq (ByteBuffer.append_u32 little body_size)
  (w_seq (ByteBuffer.append_u64 little (h_request_id h))
  (w_seq (ByteBuffer.append_u32 little (h_service h))
  (w_seq (ByteBuffer.append_u32 little (h_method h))
  (w_seq (ByteBuffer.append_u32 little body_size)
  (w_seq (ByteBuffer.append_u64 little (h_session_id h))
  (w_seq (ByteBuffer.append_u64 little (h_peer_service_id h))
  (w_seq (ByteBuffer.append_u64 little (h_auth_token h))
  (w_seq (ByteBuffer.append_u32 little (h_flags h))
  (w_seq (ByteBuffer.append_u64 little (h_nonce h))
  (w_seq (ByteBuffer.append_u64 little (h_coroutine_id h))
         (ByteBuffer.append_u32 little (h_key_id h))))))))))))))))))).

(** The overload that fills a caller's buffer; [Reject] is the result false. *)
Definition encode_frame_to_buffer (encrypt : option Cipher) (h : FrameHeader) (payload : bytes) (out : ByteBuffer.t)
  : outcome ByteBuffer.t :=
  match frame_body encrypt h payload with
  | None => Reject
  | Some body =>
      let body_size := zlen body in
      let out := ByteBuffer.clear out in
      out ← ByteBuffer.ensure_writable (header_size + body_size) out;
      out ← write_header h body_size out;
      out ← (match body with [] => Ok out | _ :: _ => ByteBuffer.append body out end);
      if ByteBuffer.readable_bytes out =? header_size + body_size then Ok out else Reject
  end.
End Buffered.

(** [payload_size] of a header that is not received keeps its initial value. *)
Definition message_header (m : Message) : FrameHeader :=
  mkHeader (m_kind m) (m_request_id m) (m_coroutine_id m) st_ok (m_serialization m) (m_compression m)
    (m_encryption m) (m_key_id m) (m_nonce m) (m_session_id m) (m_peer_service_id m) (m_auth_token m) (m_flags m)
    (rt_service (m_route m)) (rt_method (m_route m)) 0.
Definition response_header (r : Response) : FrameHeader :=
  mkHeader kind_response (r_request_id r) (r_coroutine_id r) (r_status r) (r_serialization r) (r_compression r)
    (r_encryption r) (r_key_id r) (r_nonce r) (r_session_id r) (r_peer_service_id r) (r_auth_token r) (r_flags r)
    0 0 0.

Definition encode_message (encrypt : option Cipher) (m : Message) : option bytes :=
  encode_frame encrypt (message_header m) (m_metadata m) (rt_name (m_route m)) [] (m_payload m).
Definition encode_response (encrypt : option Cipher) (r : Response) : option bytes :=
  encode_frame encrypt (response_header r) (r_metadata r) [] (r_error r) (r_payload r).
Definition encode_message_to_buffer (little : bool) (encrypt : option Cipher) (m : Message) (out : ByteBuffer.t)
  : outcome ByteBuffer.t := encode_frame_to_buffer little encrypt (message_header m) (m_payload m) out.
Definition encode_response_to_buffer (little : bool) (encrypt : option Cipher) (r : Response) (out : ByteBuffer.t)
  : outcome ByteBuffer.t := encode_frame_to_buffer little encrypt (response_header r) (r_payload r) out.

(** * Decoding *)
Definition read_u8 (data : bytes) (size offset : Z) : outcome (Z * Z) :=
  if size <? offset + 1 then Reject
  else a ← rd data offset; Ok (a, offset + 1).
Definition read_u16 (data : bytes) (size offset : Z) : outcome (Z * Z) :=
  if size <? offset + 2 then Reject
  else
    a ← rd data offset; b ← rd data (offset + 1);
    Ok (u16 (Z.lor (Z.shiftl a 8) b), offset + 2).
Definition read_u32 (data : bytes) (size offset : Z) : outcome (Z * Z) :=
  if size <? offset + 4 then Reject
  else
    a ← rd data offset; b ← rd data (offset + 1); c ← rd data (offset + 2); d ← rd data (offset + 3);
    Ok (u32 (Z.lor (Z.lor (Z.lor (Z.shiftl a 24) (Z.shiftl b 16)) (Z.shiftl c 8)) d), offset + 4).
(** [for (int i = 0; i < 8; ++i) value = (value << 8U) | data[offset + i];] *)
Fixpoint read_u64_loop (n : nat) (data : bytes) (offset value : Z) : outcome Z :=
  match n with
  | O => Ok value
  | S n => b ← rd data offset; read_u64_loop n data (offset + 1) (Z.lor (u64 (Z.shiftl value 8)) b)
  end.
Definition read_u64 (data : bytes) (size offset : Z) : outcome (Z * Z) :=
  if size <? offset + 8 then Reject
  else value ← read_u64_loop 8 data offset 0; Ok (value, offset + 8).

(** [if (!read...) { result.error = error; return result; }] *)
Definition read_or {A} (error : DecodeError) (m : outcome A) (k : A -> outcome DecodeResult) : outcome DecodeResult :=
  match m with Ok a => k a | Reject => Ok (Failed error) | Fault => Fault | Diverge => Diverge end.

(** The fields after the body size, in the order they are read. *)
Definition read_fields (data : bytes) (size offset : Z)
  : outcome (Z * Z * Z * Z * Z * Z * Z * Z * Z * Z * Z) :=
  '(request_id, offset) ← read_u64 data size offset;
  '(service, offset) ← read_u32 data size offset;
  '(method, offset) ← read_u32 data size offset;
  '(payload_size, offset) ← read_u32 data size offset;
  '(session_id, offset) ← read_u64 data size offset;
  '(peer_service_id, offset) ← read_u64 data size offset;
  '(auth_token, offset) ← read_u64 data size offset;
  '(flags, offset) ← read_u32 data size offset;
  '(nonce, offset) ← read_u64 data size offset;
  '(coroutine_id, offset) ← read_u64 data size offset;
  '(key_id, _) ← read_u32 data size offset;
  Ok (request_id, service, method, payload_size, session_id, peer_service_id, auth_token, flags, nonce,
      coroutine_id, key_id).

(** The payload of a frame whose body is [body]; the error is always [malformed]. *)
Definition open_body (decrypt : option Cipher) (h : FrameHeader) (body : bytes) : option bytes :=
  if h_encryption h =? enc_none then
    if negb (h_payload_size h =? zlen body) then None else Some body
  else
    cipher ← decrypt;
    plain ← cipher (crypto_context h) body;
    if negb (zlen plain =? h_payload_size h) then None else Some plain.

(** [static_cast<Encryption>(encryption)] of the 16-bit field keeps its low byte. *)
Definition decode_body (options : DecodeOptions) (data : bytes) (size : Z)
    (kind serialization compression status encryption body_size : Z) (offset : Z) : outcome DecodeResult :=
  if (max_frame_size options <? body_size) || (SIZE_MAX - header_size <? body_size) then Ok (Failed frame_too_large)
  else if size <? header_size + body_size then Ok (Failed need_more)
  else
    read_or malformed (read_fields data size offset)
      (fun '(request_id, service, method, payload_size, session_id, peer_service_id, auth_token, flags, nonce,
             coroutine_id, key_id) =>
        let h := mkHeader kind request_id coroutine_id status serialization compression (u8 encryption) key_id nonce
                   session_id peer_service_id auth_token flags service method payload_size in
        body ← rd_range data header_size body_size;
        match open_body (decrypt options) h body with
        | None => Ok (Failed malformed)
        | Some payload => Ok (Decoded (header_size + body_size) (mkFrame h payload))
        end).

Definition decode_frame (options : DecodeOptions) (data : bytes) (size : Z) : outcome DecodeResult :=
  if size <? header_size then Ok (Failed need_more)
  else
    read_or bad_magic (read_u32 data size 0) (fun '(got_magic, offset) =>
    if negb (got_magic =? magic) then Ok (Failed bad_magic)
    else
      read_or unsupported_version (read_u8 data size offset) (fun '(got_version, offset) =>
      if negb (got_version =? version) then Ok (Failed unsupported_version)
      else
        read_or malformed (read_u8 data size offset) (fun '(kind, offset) =>
        read_or malformed (read_u8 data size offset) (fun '(serialization, offset) =>
        read_or malformed (read_u8 data size offset) (fun '(compression, offset) =>
        read_or malformed (read_u16 data size offset) (fun '(status, offset) =>
        read_or malformed (read_u16 data size offset) (fun '(encryption, offset) =>
        read_or malformed (read_u32 data size offset) (fun '(body_size, offset) =>
        decode_body options data size kind serialization compression status encryption body_size offset)))))))).

Definition to_message (f : DecodedFrame) : Message :=
  let h := f_header f in
  mkMessage (h_kind h) (h_request_id h) (h_coroutine_id h) 0 (h_session_id h) (h_peer_service_id h)
    (h_auth_token h) (mkRoute (h_service h) (h_method h) []) no_peer no_peer (h_serialization h) (h_compression h)
    (h_encryption h) (h_key_id h) (h_nonce h) (h_flags h) ∅ (f_payload f).
Definition to_response (f : DecodedFrame) : Response :=
  let h := f_header f in
  mkResponse (h_request_id h) (h_coroutine_id h) 0 (h_session_id h) (h_peer_service_id h) (h_auth_token h)
    (h_status h) [] (h_serialization h) (h_compression h) (h_encryption h) (h_key_id h) (h_nonce h) (h_flags h)
    ∅ (f_payload f).

(** * The frame stream *)
(** [FrameStreamDecoder::buffer_]; the options are those of its constructor. *)
Definition append (data : bytes) (buffer_ : bytes) : bytes := buffer_ ++ data.
Definition next (options : DecodeOptions) (buffer_ : bytes) : outcome (DecodeResult * bytes) :=
  result ← decode_frame options buffer_ (zlen buffer_);
  match result with
  | Decoded consumed _ =>
      Ok (result, if zlen buffer_ <=? consumed then [] else drop (Z.to_nat consumed) buffer_)
  | Failed _ => Ok (result, buffer_)
  end.
Definition buffered_size (buffer_ : bytes) : Z := zlen buffer_.
Definition clear (buffer_ : bytes) : bytes := [].

(** * The stream cipher *)
Definition LCG_MUL : Z := 6364136223846793005.
Definition LCG_ADD : Z := 1442695040888963407.
(** [key[i % key.size()]] *)
Definition key_byte (key : bytes) (i : nat) : Z := u8 (List.nth (i mod length key) key 0).
Fixpoint xor_loop (key : bytes) (state : Z) (i : nat) (input : bytes) : bytes :=
  match input with
  | [] => []
  | b :: input =>
      let state := u64 (state * LCG_MUL + LCG_ADD) in
      let stream_byte := Z.land (Z.shiftr state 56) 255 in
      Z.lxor (Z.lxor b (key_byte key i)) stream_byte :: xor_loop key state (S i) input
  end.
(** [XorStreamCipher{key}(context, input, output)] *)
Definition xor_stream (key : bytes) : Cipher := fun context input =>
  if bool_decide (key = []) || negb (c_encryption context =? enc_xor_stream) then None
  else
    let state := Z.lxor (Z.lxor (c_nonce context) (u64 (Z.shiftl (c_key_id context) 32))) (c_request_id context) in
    Some (xor_loop key state 0 input).

End RpcWire.
