(* ===== verification/RpcWireFacts.v ===== *)
(** The frame format of the RPC library: what the encoder writes and the decoder reads. *)
From S2P Require Import Prelude Endian ByteBuffer ByteBufferFacts RpcTypes RpcWire.
Import RpcTypes RpcWire.

(** * Fields of a byte string *)
(** [c] lies in [data] at offset [off]. *)
Definition field_at (data : bytes) (off : Z) (c : bytes) : Prop :=
  exists pre post, data = pre ++ c ++ post /\ zlen pre = off.

Lemma field_at_split data off c1 c2 :
  field_at data off (c1 ++ c2) <-> field_at data off c1 /\ field_at data (off + zlen c1) c2.
Proof.
  split.
  - intros (pre & post & -> & <-). split.
    + exists pre, (c2 ++ post). by rewrite <- app_assoc.
    + exists (pre ++ c1), post. rewrite zlen_app. by rewrite <- !app_assoc.
  - intros [(pre & post & -> & <-) (pre2 & post2 & E & Hl)]. exists pre, post2. split; [|done].
    rewrite app_assoc in E. apply app_inj_1 in E as [<- ->]; [by rewrite <- app_assoc|].
    unfold zlen in Hl. rewrite length_app. lia.
Qed.

Lemma field_at_range data off c : field_at data off c -> 0 <= off /\ off + zlen c <= zlen data.
Proof. intros (pre & post & -> & <-). zlia. Qed.

Lemma field_at_rd data off b : field_at data off [b] -> rd data off = Ok b.
Proof. intros (pre & post & -> & <-). apply rd_app. Qed.

Lemma field_at_rd_range data off c : field_at data off c -> rd_range data off (zlen c) = Ok c.
Proof. intros (pre & post & -> & <-). apply rd_range_app. Qed.

Lemma rd_field_at data off b : rd data off = Ok b -> field_at data off [b].
Proof.
  intros [Hr Hl]%rd_inv. exists (take (Z.to_nat off) data), (drop (S (Z.to_nat off)) data). split.
  - by rewrite <- (take_drop_middle data (Z.to_nat off) b) at 1.
  - unfold zlen in *. rewrite length_take. lia.
Qed.

Lemma rd_range_field_at data off n c : rd_range data off n = Ok c -> field_at data off c /\ zlen c = n.
Proof.
  intros E. pose proof (rd_range_len _ _ _ _ E) as Hl. split; [|done]. unfold rd_range in E. case_if_in E; [done|].
  injection E as <-. exists (take (Z.to_nat off) data), (drop (Z.to_nat n) (drop (Z.to_nat off) data)).
  rewrite !take_drop. split; [done|]. unfold zlen in *. rewrite length_take. lia.
Qed.

(** Four explicit bytes as four fields. *)
Lemma field_at_cons data off b c : field_at data off (b :: c) <-> field_at data off [b] /\ field_at data (off + 1) c.
Proof. apply (field_at_split data off [b] c). Qed.

(** * Reading what is written *)
Lemma read_u8_field data size off v : field_at data off [v] -> off + 1 <= size ->
  read_u8 data size off = Ok (v, off + 1).
Proof. intros Hf Hs. unfold read_u8. case_if; [lia|]. by rewrite (field_at_rd _ _ _ Hf). Qed.

Lemma read_u16_field data size off v : is_u16 v -> field_at data off (be16 v) -> off + 2 <= size ->
  read_u16 data size off = Ok (v, off + 2).
Proof.
  intros Hv [H1 H2]%field_at_cons Hs. unfold read_u16. case_if; [lia|].
  rewrite (field_at_rd _ _ _ H1), (field_at_rd _ _ _ H2). mstep. by rewrite be16_decode.
Qed.

Lemma read_u32_field data size off v : is_u32 v -> field_at data off (be32 v) -> off + 4 <= size ->
  read_u32 data size off = Ok (v, off + 4).
Proof.
  intros Hv (H1 & (H2 & (H3 & H4)%field_at_cons)%field_at_cons)%field_at_cons Hs. unfold read_u32. case_if; [lia|].
  rewrite (field_at_rd _ _ _ H1), (field_at_rd _ _ _ H2).
  replace (off + 2) with (off + 1 + 1) by lia. replace (off + 3) with (off + 1 + 1 + 1) by lia.
  rewrite (field_at_rd _ _ _ H3), (field_at_rd _ _ _ H4). mstep. by rewrite be32_decode.
Qed.

Lemma read_u64_loop_field n data off v c : field_at data off c -> Forall is_u8 c -> length c = n ->
  0 <= v -> v * 256 ^ Z.of_nat n + be_value c < 2 ^ 64 ->
  read_u64_loop n data off v = Ok (v * 256 ^ Z.of_nat n + be_value c).
Proof.
  revert off v c; induction n as [|n IH]; intros off v c Hf Hc Hl Hv Hb.
  { destruct c; [|done]. cbn [read_u64_loop]. f_equal. change (be_value []) with 0. lia. }
  destruct c as [|b c]; [done|]. injection Hl as Hl. apply Forall_cons in Hc as [Hu Hc].
  apply field_at_cons in Hf as [Hf1 Hf2]. rewrite be_value_cons, Hl in Hb |- *.
  pose proof (be_value_range c Hc) as Hr. rewrite Hl in Hr.
  rewrite Nat2Z.inj_succ, Z.pow_succ_r in Hb |- * by lia.
  cbn [read_u64_loop]. rewrite (field_at_rd _ _ _ Hf1). mstep. unfold is_u8 in Hu.
  assert (0 < 256 ^ Z.of_nat n) by (apply Z.pow_pos_nonneg; lia).
  assert (v * 256 + b < 2 ^ 64) by nia.
  assert (u64 (Z.shiftl v 8) = Z.shiftl v 8) as ->.
  { rewrite Z.shiftl_mul_pow2 by lia. apply Z.mod_small. change (2 ^ 8) with 256. lia. }
  rewrite lor_shiftl_add by (change (2 ^ 8) with 256; lia). change (2 ^ 8) with 256.
  rewrite (IH _ _ c); [f_equal; lia|done|done|done|lia|lia].
Qed.

Lemma read_u64_field data size off v : is_u64 v -> field_at data off (be64 v) -> off + 8 <= size ->
  read_u64 data size off = Ok (v, off + 8).
Proof.
  intros Hv Hf Hs. unfold read_u64. case_if; [lia|]. pose proof (be_value_be64 v Hv) as E. unfold is_u64 in Hv.
  rewrite (read_u64_loop_field 8 _ _ _ (be64 v)); [|done|apply be64_u8|by unfold be64; rewrite length_rev, le_bytes_length|lia|lia].
  mstep. by rewrite E.
Qed.

(** * Writing *)
Lemma write_u64_eq v out : write_u64 v out = out ++ be64 v.
Proof.
  unfold write_u64, be64. cbn [write_u64_loop le_bytes rev app]. rewrite <- !app_assoc. cbn [app].
  by rewrite !Z.shiftr_shiftr by lia.
Qed.

(** The bytes of a header whose encryption field on the wire is [enc]; [raw_header] is
    one with any magic number and version. *)
Definition raw_header (magic version : Z) (h : FrameHeader) (enc payload_size body_size : Z) : bytes :=
  be32 magic ++ [version] ++ [h_kind h] ++ [h_serialization h] ++ [h_compression h] ++ be16 (h_status h)
  ++ be16 enc ++ be32 body_size ++ be64 (h_request_id h) ++ be32 (h_service h) ++ be32 (h_method h)
  ++ be32 payload_size ++ be64 (h_session_id h) ++ be64 (h_peer_service_id h) ++ be64 (h_auth_token h)
  ++ be32 (h_flags h) ++ be64 (h_nonce h) ++ be64 (h_coroutine_id h) ++ be32 (h_key_id h).
Definition header_bytes : FrameHeader -> Z -> Z -> Z -> bytes := raw_header magic version.

Record header_ok (h : FrameHeader) : Prop := {
  ho_kind : is_u8 (h_kind h);
  ho_serialization : is_u8 (h_serialization h);
  ho_compression : is_u8 (h_compression h);
  ho_encryption : is_u8 (h_encryption h);
  ho_status : is_u16 (h_status h);
  ho_request_id : is_u64 (h_request_id h);
  ho_coroutine_id : is_u64 (h_coroutine_id h);
  ho_key_id : is_u32 (h_key_id h);
  ho_nonce : is_u64 (h_nonce h);
  ho_session_id : is_u64 (h_session_id h);
  ho_peer : is_u64 (h_peer_service_id h);
  ho_auth : is_u64 (h_auth_token h);
  ho_flags : is_u32 (h_flags h);
  ho_service : is_u32 (h_service h);
  ho_method : is_u32 (h_method h);
  ho_payload_size : is_u32 (h_payload_size h)
}.

Lemma zlen_raw_header m v h enc p n : zlen (raw_header m v h enc p n) = header_size.
Proof.
  unfold raw_header. rewrite !zlen_app, !zlen_be64. reflexivity.
Qed.

Lemma frame_body_len encrypt h payload body : frame_body encrypt h payload = Some body -> is_u32 (zlen body).
Proof.
  unfold frame_body. case_if; [done|]. intros (b & _ & Hb)%bind_Some. case_if_in Hb; [done|].
  injection Hb as <-. unfold is_u32, UINT32_MAX in *. zlia.
Qed.

Lemma encode_frame_eq encrypt h md name error payload : header_ok h ->
  encode_frame encrypt h md name error payload
  = (fun body => header_bytes h (h_encryption h) (zlen body) (zlen body) ++ body) <$> frame_body encrypt h payload.
Proof.
  intros []. unfold encode_frame. destruct (frame_body encrypt h payload) as [body|] eqn:E; [|done].
  cbn [mbind option_bind fmap option_fmap option_map]. rewrite !write_u64_eq.
  unfold write_u32, write_u8, write_u16, append_checked. 
  rewrite (u8_id version), (u8_id (h_kind h)), (u8_id (h_serialization h)), (u8_id (h_compression h)) by done.
  cbn [app]. rewrite <- !app_assoc.
  match goal with |- (if zlen ?x =? _ then _ else _) = _ =>
    assert (x = header_bytes h (h_encryption h) (zlen body) (zlen body) ++ body) as -> end.
  { unfold header_bytes, raw_header, be32, be16. rewrite <- !app_assoc. reflexivity. }
  unfold header_bytes. rewrite zlen_app, zlen_raw_header. case_if; [done|lia].
Qed.

(** * Decoding *)
(** Every position of a byte string holds some integer of each width. *)
Lemma field_at_u8 data off : Forall is_u8 data -> 0 <= off -> off + 1 <= zlen data ->
  exists v, is_u8 v /\ field_at data off [v].
Proof.
  intros Hd ? ?. destruct (rd_ok data off) as [b Hb]; [lia|]. exists b.
  split; [by eapply rd_is_u8|by apply rd_field_at].
Qed.

Lemma field_at_u16 data off : Forall is_u8 data -> 0 <= off -> off + 2 <= zlen data ->
  exists v, is_u16 v /\ field_at data off (be16 v).
Proof.
  intros Hd ? ?. destruct (field_at_u8 data off) as (a & Ha & Fa); [done|lia|lia|].
  destruct (field_at_u8 data (off + 1)) as (b & Hb & Fb); [done|lia|lia|].
  exists (a * 256 + b). unfold is_u8, is_u16 in *. split; [lia|].
  assert (be16 (a * 256 + b) = [a; b]) as ->; [|by apply field_at_cons].
  unfold be16, u8. rewrite shiftr_8. f_equal; [Z.to_euclidean_division_equations; lia|].
  f_equal. Z.to_euclidean_division_equations; lia.
Qed.

Lemma field_at_u32 data off : Forall is_u8 data -> 0 <= off -> off + 4 <= zlen data ->
  exists v, is_u32 v /\ field_at data off (be32 v).
Proof.
  intros Hd ? ?. destruct (field_at_u16 data off) as (a & Ha & Fa); [done|lia|lia|].
  destruct (field_at_u16 data (off + 2)) as (b & Hb & Fb); [done|lia|lia|].
  exists (a * 65536 + b). unfold is_u16, is_u32 in *. split; [lia|].
  assert (be32 (a * 65536 + b) = be16 a ++ be16 b) as ->; [|by apply field_at_split].
  unfold be16, be32, u8. rewrite !shiftr_div by lia. change (2 ^ 24) with 16777216. change (2 ^ 16) with 65536.
  change (2 ^ 8) with 256. cbn [app].
  do 3 (f_equal; [Z.to_euclidean_division_equations; lia|]). f_equal. Z.to_euclidean_division_equations; lia.
Qed.

Lemma field_at_u64 data off : Forall is_u8 data -> 0 <= off -> off + 8 <= zlen data ->
  exists v, is_u64 v /\ field_at data off (be64 v).
Proof.
  intros Hd ? ?. set (c := take 8 (drop (Z.to_nat off) data)).
  assert (length c = 8%nat) as Hl.
  { subst c. unfold zlen in *. rewrite length_take, length_drop. lia. }
  assert (Forall is_u8 c) as Hc by by apply Forall_take, Forall_drop.
  exists (be_value c). split.
  - pose proof (be_value_range c Hc) as Hr. rewrite Hl in Hr. unfold is_u64. lia.
  - rewrite be64_be_value by done. exists (take (Z.to_nat off) data), (drop 8 (drop (Z.to_nat off) data)).
    subst c. rewrite !take_drop. split; [done|]. unfold zlen in *. rewrite length_take. lia.
Qed.

(** Eighty-four bytes are a header, whatever they are. *)
Lemma raw_header_exists data : Forall is_u8 data -> header_size <= zlen data ->
  exists m v h enc n, is_u32 m /\ is_u8 v /\ is_u16 enc /\ is_u32 n /\ header_ok h /\ h_encryption h = u8 enc
    /\ field_at data 0 (raw_header m v h enc (h_payload_size h) n).
Proof.
  unfold header_size. intros Hd Hs.
  destruct (field_at_u32 data 0) as (m & Hm & Fm); [done|lia|lia|].
  destruct (field_at_u8 data 4) as (v & Hv & Fv); [done|lia|lia|].
  destruct (field_at_u8 data 5) as (k & Hk & Fk); [done|lia|lia|].
  destruct (field_at_u8 data 6) as (s & Hser & Fs); [done|lia|lia|].
  destruct (field_at_u8 data 7) as (c & Hc & Fc); [done|lia|lia|].
  destruct (field_at_u16 data 8) as (st & Hst & Fst); [done|lia|lia|].
  destruct (field_at_u16 data 10) as (enc & He & Fe); [done|lia|lia|].
  destruct (field_at_u32 data 12) as (n & Hn & Fn); [done|lia|lia|].
  destruct (field_at_u64 data 16) as (rid & Hrid & Frid); [done|lia|lia|].
  destruct (field_at_u32 data 24) as (svc & Hsvc & Fsvc); [done|lia|lia|].
  destruct (field_at_u32 data 28) as (mth & Hmth & Fmth); [done|lia|lia|].
  destruct (field_at_u32 data 32) as (p & Hp & Fp); [done|lia|lia|].
  destruct (field_at_u64 data 36) as (sid & Hsid & Fsid); [done|lia|lia|].
  destruct (field_at_u64 data 44) as (peer & Hpeer & Fpeer); [done|lia|lia|].
  destruct (field_at_u64 data 52) as (auth & Hauth & Fauth); [done|lia|lia|].
  destruct (field_at_u32 data 60) as (fl & Hfl & Ffl); [done|lia|lia|].
  destruct (field_at_u64 data 64) as (nonce & Hno & Fno); [done|lia|lia|].
  destruct (field_at_u64 data 72) as (co & Hco & Fco); [done|lia|lia|].
  destruct (field_at_u32 data 80) as (key & Hkey & Fkey); [done|lia|lia|].
  exists m, v, (mkHeader k rid co st s c (u8 enc) key nonce sid peer auth fl svc mth p), enc, n.
  split; [done|]. split; [done|]. split; [done|]. split; [done|]. split; [constructor; cbn; auto with s2p|]. split; [done|].
  unfold raw_header. cbn [h_kind h_serialization h_compression h_status h_request_id h_service h_method h_payload_size
    h_session_id h_peer_service_id h_auth_token h_flags h_nonce h_coroutine_id h_key_id].
  rewrite !field_at_split, !zlen_be64. by split_and!.
Qed.

(** What the decoder does once the magic number and the version are right. *)
Definition decode_header (options : DecodeOptions) (data : bytes) (size : Z) (h : FrameHeader) (n : Z)
  : outcome DecodeResult :=
  if max_frame_size options <? n then Ok (Failed frame_too_large)
  else if size <? header_size + n then Ok (Failed need_more)
  else
    body ← rd_range data header_size n;
    match open_body (decrypt options) h body with
    | None => Ok (Failed malformed)
    | Some payload => Ok (Decoded (header_size + n) (mkFrame h payload))
    end.

Lemma decode_raw options data size m v h enc n :
  is_u32 m -> is_u8 v -> is_u16 enc -> is_u32 n -> header_ok h -> h_encryption h = u8 enc ->
  field_at data 0 (raw_header m v h enc (h_payload_size h) n) -> header_size <= size ->
  decode_frame options data size
  = if negb (m =? magic) then Ok (Failed bad_magic)
    else if negb (v =? version) then Ok (Failed unsupported_version)
    else decode_header options data size h n.
Proof.
  unfold header_size. intros Hm Hv He Hn Hh Henc Hf Hs. destruct Hh as [Hk Hser Hc _ Hst Hrid Hco Hkey Hno Hsid Hpeer Hauth Hfl Hsvc Hmth Hp].
  unfold raw_header in Hf. rewrite !field_at_split in Hf.
  change (zlen (be32 _)) with 4 in Hf. change (zlen (be16 _)) with 2 in Hf. change (zlen [_]) with 1 in Hf.
  rewrite !zlen_be64 in Hf. cbn [Z.add] in Hf.
  destruct Hf as (F1 & F2 & F3 & F4 & F5 & F6 & F7 & F8 & F9 & F10 & F11 & F12 & F13 & F14 & F15 & F16 & F17 & F18 & F19).
  unfold decode_frame, header_size. case_if; [lia|].
  rewrite (read_u32_field data size _ m) by (done || lia). cbn [read_or]. case_if; [done|].
  rewrite (read_u8_field data size _ v) by (done || lia). cbn [read_or]. case_if; [done|].
  rewrite (read_u8_field data size _ (h_kind h)) by (done || lia). cbn [read_or].
  rewrite (read_u8_field data size _ (h_serialization h)) by (done || lia). cbn [read_or].
  rewrite (read_u8_field data size _ (h_compression h)) by (done || lia). cbn [read_or].
  rewrite (read_u16_field data size _ (h_status h)) by (done || lia). cbn [read_or].
  rewrite (read_u16_field data size _ enc) by (done || lia). cbn [read_or].
  rewrite (read_u32_field data size _ n) by (done || lia). cbn [read_or].
  unfold decode_body, decode_header, SIZE_MAX, header_size. unfold is_u32 in Hn.
  replace (18446744073709551615 - 84 <? n) with false by lia. rewrite orb_false_r.
  case_if; [done|]. case_if; [done|]. unfold read_fields.
  rewrite (read_u64_field data size _ (h_request_id h)) by (done || lia). mstep.
  rewrite (read_u32_field data size _ (h_service h)) by (done || lia). mstep.
  rewrite (read_u32_field data size _ (h_method h)) by (done || lia). mstep.
  rewrite (read_u32_field data size _ (h_payload_size h)) by (done || lia). mstep.
  rewrite (read_u64_field data size _ (h_session_id h)) by (done || lia). mstep.
  rewrite (read_u64_field data size _ (h_peer_service_id h)) by (done || lia). mstep.
  rewrite (read_u64_field data size _ (h_auth_token h)) by (done || lia). mstep.
  rewrite (read_u32_field data size _ (h_flags h)) by (done || lia). mstep.
  rewrite (read_u64_field data size _ (h_nonce h)) by (done || lia). mstep.
  rewrite (read_u64_field data size _ (h_coroutine_id h)) by (done || lia). mstep.
  rewrite (read_u32_field data size _ (h_key_id h)) by (done || lia). mstep.
  cbn [read_or]. rewrite <- Henc. by destruct h.
Qed.

(** * Well-formed frames *)
(** [b] is the encoding of a frame that a decoder with [options] accepts as [f]. *)
Definition encoded (options : DecodeOptions) (b : bytes) (f : DecodedFrame) : Prop :=
  exists enc body, b = header_bytes (f_header f) enc (h_payload_size (f_header f)) (zlen body) ++ body
    /\ header_ok (f_header f) /\ is_u16 enc /\ h_encryption (f_header f) = u8 enc
    /\ is_u32 (zlen body) /\ zlen body <= max_frame_size options
    /\ open_body (decrypt options) (f_header f) body = Some (f_payload f).

Lemma zlen_header h enc p n : zlen (header_bytes h enc p n) = 84.
Proof. apply zlen_raw_header. Qed.

Lemma encoded_len options b f : encoded options b f -> 84 <= zlen b.
Proof. intros (enc & body & -> & _). rewrite zlen_app, zlen_header. zlia. Qed.

(** A frame is decoded as soon as its last byte is there, whatever follows it. *)
Lemma decode_encoded options b f rest size : encoded options b f -> zlen b <= size ->
  decode_frame options (b ++ rest) size = Ok (Decoded (zlen b) f).
Proof.
  intros (enc & body & -> & Hh & He & Henc & Hn & Hmax & Ho) Hs. rewrite zlen_app, zlen_header in *.
  assert (Hf : field_at ((header_bytes (f_header f) enc (h_payload_size (f_header f)) (zlen body) ++ body) ++ rest) 0
    (header_bytes (f_header f) enc (h_payload_size (f_header f)) (zlen body) ++ body)).
  { exists [], rest. by rewrite <- app_assoc. }
  apply field_at_split in Hf as [Hf Hb]. rewrite zlen_header in Hb.
  pose proof (zlen_nonneg body).
  erewrite (decode_raw _ _ _ magic version _ enc (zlen body)); [|done|done|done|done|done|done|exact Hf|unfold header_size; lia].
  cbn [negb]. rewrite !Z.eqb_refl. cbn [negb]. unfold decode_header, header_size. case_if; [lia|]. case_if; [lia|].
  rewrite (field_at_rd_range _ 84 body) by done. mstep. rewrite Ho. by destruct f.
Qed.

(** Until then the decoder asks for more. *)
Lemma decode_partial options b f buffer rest : encoded options b f -> buffer ++ rest = b -> rest <> [] ->
  decode_frame options buffer (zlen buffer) = Ok (Failed need_more).
Proof.
  intros (enc & body & -> & Hh & He & Henc & Hn & Hmax & Ho) Hb Hr.
  destruct (Z.ltb_spec (zlen buffer) 84) as [Hlt|Hge].
  { unfold decode_frame, header_size. case_if; [done|lia]. }
  assert (zlen buffer < 84 + zlen body) as Hlt.
  { apply (f_equal zlen) in Hb. rewrite !zlen_app, zlen_header in Hb. destruct rest; [done|]. zlia. }
  assert (Hf : field_at buffer 0 (header_bytes (f_header f) enc (h_payload_size (f_header f)) (zlen body))).
  { set (hd := header_bytes _ _ _ _) in *. exists [], (drop 84 buffer). split; [|done]. cbn [app].
    assert (take 84 buffer = hd) as <-; [|by rewrite take_drop].
    apply (f_equal (take 84)) in Hb. rewrite take_app_le in Hb by (unfold zlen in *; lia).
    rewrite Hb. assert (84%nat = length hd) as ->; [|apply take_app_length].
    pose proof (zlen_header (f_header f) enc (h_payload_size (f_header f)) (zlen body)) as Hz. unfold zlen in Hz at 1. subst hd. lia. }
  erewrite (decode_raw _ _ _ magic version _ enc (zlen body)); [|done|done|done|done|done|done|exact Hf|unfold header_size; lia].
  rewrite !Z.eqb_refl. cbn [negb]. unfold decode_header, header_size. case_if; [lia|]. case_if; [done|lia].
Qed.

(** * Encoders produce well-formed frames *)
Definition set_payload_size (n : Z) (h : FrameHeader) : FrameHeader :=
  mkHeader (h_kind h) (h_request_id h) (h_coroutine_id h) (h_status h) (h_serialization h) (h_compression h)
    (h_encryption h) (h_key_id h) (h_nonce h) (h_session_id h) (h_peer_service_id h) (h_auth_token h) (h_flags h)
    (h_service h) (h_method h) n.

(** The cipher of the encoder and that of the decoder: decryption undoes encryption, which
    keeps the length. *)
Definition cipher_inverse (encrypt decrypt : Cipher) : Prop :=
  forall c x y, encrypt c x = Some y -> zlen y = zlen x /\ decrypt c y = Some x.
Definition ciphers_agree (encrypt decrypt : option Cipher) : Prop :=
  match encrypt with
  | None => True
  | Some e => exists d, decrypt = Some d /\ cipher_inverse e d
  end.

Lemma frame_body_open encrypt decrypt h payload body : ciphers_agree encrypt decrypt ->
  frame_body encrypt h payload = Some body ->
  zlen body = zlen payload /\ open_body decrypt (set_payload_size (zlen body) h) body = Some payload.
Proof.
  unfold frame_body, open_body. intros Hc. case_if; [done|]. change (h_encryption (set_payload_size _ h)) with (h_encryption h).
  change (crypto_context (set_payload_size _ h)) with (crypto_context h). cbn [h_payload_size set_payload_size].
  destruct (h_encryption h =? enc_none).
  - cbn [mbind option_bind]. case_if; [done|]. intros [= <-]. rewrite Z.eqb_refl. done.
  - destruct encrypt as [e|]; [|done]. destruct Hc as (d & -> & Hc). cbn [mbind option_bind].
    destruct (e _ payload) as [y|] eqn:E; [|done]. cbn [mbind option_bind]. case_if; [done|]. intros [= <-].
    destruct (Hc _ _ _ E) as [Hl ->]. split; [done|]. cbn [mbind option_bind]. by rewrite Hl, Z.eqb_refl.
Qed.

Lemma encode_frame_encoded encrypt options h md name error payload b :
  header_ok h -> ciphers_agree encrypt (decrypt options) -> zlen payload <= max_frame_size options ->
  encode_frame encrypt h md name error payload = Some b ->
  encoded options b (mkFrame (set_payload_size (zlen payload) h) payload).
Proof.
  intros Hh Hc Hmax. rewrite encode_frame_eq by done.
  destruct (frame_body encrypt h payload) as [body|] eqn:E; [|done]. intros [= <-].
  pose proof (frame_body_len _ _ _ _ E) as Hn. destruct (frame_body_open _ _ _ _ _ Hc E) as [Hl Ho].
  exists (h_encryption h), body. cbn [f_header f_payload h_payload_size set_payload_size h_encryption].
  rewrite <- Hl. split; [done|]. pose proof (ho_encryption _ Hh) as He. unfold is_u8 in He.
  split; [destruct Hh; by constructor|]. split; [unfold is_u16; lia|]. split; [by rewrite u8_id|].
  split; [done|]. split; [lia|done].
Qed.

(** When the encoder answers. *)
Lemma encode_frame_some encrypt h md name error payload : header_ok h ->
  encode_frame encrypt h md name error payload = None <-> frame_body encrypt h payload = None.
Proof. intros. rewrite encode_frame_eq by done. by destruct (frame_body encrypt h payload). Qed.

(** * The stream *)
(** The calls of [next] until one does not return a frame: the frames, the last error and
    what stays buffered. *)
Fixpoint drain (fuel : nat) (options : DecodeOptions) (buffer_ : bytes)
  : outcome (list DecodedFrame * DecodeError * bytes) :=
  match fuel with
  | O => Diverge
  | S fuel =>
      '(result, buffer_) ← next options buffer_;
      match result with
      | Failed e => Ok ([], e, buffer_)
      | Decoded _ f => '(fs, e, buffer_) ← drain fuel options buffer_; Ok (f :: fs, e, buffer_)
      end
  end.

(** Feeding chunks, draining after each. *)
Fixpoint feed (options : DecodeOptions) (chunks : list bytes) (buffer_ : bytes)
  : outcome (list DecodedFrame * bytes) :=
  match chunks with
  | [] => Ok ([], buffer_)
  | chunk :: chunks =>
      let buffer_ := append chunk buffer_ in
      '(fs, e, buffer_) ← drain (S (length buffer_)) options buffer_;
      match e with
      | need_more => '(rest, buffer_) ← feed options chunks buffer_; Ok (fs ++ rest, buffer_)
      | _ => Reject
      end
  end.

Lemma next_encoded options b f rest : encoded options b f ->
  next options (b ++ rest) = Ok (Decoded (zlen b) f, rest).
Proof.
  intros He. unfold next. rewrite (decode_encoded _ b f) by (done || zlia). mstep. case_if.
  - f_equal. f_equal. destruct rest; [done|zlia].
  - unfold zlen. by rewrite Nat2Z.id, drop_app_length.
Qed.

Lemma next_partial options b f buffer rest : encoded options b f -> buffer ++ rest = b -> rest <> [] ->
  next options buffer = Ok (Failed need_more, buffer).
Proof. intros He Hb Hr. unfold next. by rewrite (decode_partial _ b f buffer rest). Qed.

Lemma next_empty options : next options [] = Ok (Failed need_more, []).
Proof. reflexivity. Qed.

(** A buffer that is a prefix of a stream of frames yields the frames it holds. *)
Lemma drain_prefix options bs fs buffer rest fuel : Forall2 (encoded options) bs fs ->
  buffer ++ rest = concat bs -> (length buffer < fuel)%nat ->
  exists fs1 fs2 bs2 left, drain fuel options buffer = Ok (fs1, need_more, left)
    /\ fs = fs1 ++ fs2 /\ Forall2 (encoded options) bs2 fs2 /\ left ++ rest = concat bs2
    /\ (rest = [] -> fs2 = [] /\ left = []).
Proof.
  intros H2. revert buffer fuel. induction H2 as [|b f bs fs Hb H2 IH]; intros buffer fuel Hs Hf;
    (destruct fuel as [|fuel]; [lia|]); cbn [drain].
  - apply app_nil in Hs as [-> ->]. rewrite next_empty. mstep. exists [], [], [], []. repeat split; by try constructor.
  - cbn [concat] in Hs. destruct (Z.lt_ge_cases (zlen buffer) (zlen b)) as [Hlt|Hge].
    + assert (exists x, buffer ++ x = b /\ x <> [] /\ rest = x ++ concat bs) as (x & Hx & Hne & ->).
      { unfold zlen in Hlt. exists (drop (length buffer) b). apply app_eq_app in Hs as (l & [[-> ->]|[-> ->]]).
        - rewrite length_app in Hlt. destruct l; [|simpl in *; lia]. simpl in *. lia.
        - rewrite drop_app_length. split; [done|]. split; [|done]. rewrite length_app in Hlt. destruct l; simpl in *; [lia|done]. }
      rewrite (next_partial _ b f buffer x) by done. mstep.
      exists [], (f :: fs), (b :: bs), buffer. split; [done|]. split; [done|]. split; [by constructor|].
      split; [cbn [concat]; by rewrite app_assoc, Hx|]. intros Hn. by apply app_nil in Hn as [-> _].
    + assert (exists x, buffer = b ++ x /\ x ++ rest = concat bs) as (x & -> & Hx).
      { apply app_eq_app in Hs as (l & [[-> ->]|[-> ->]]); [by exists l|].
        unfold zlen in Hge. rewrite length_app in Hge. destruct l; simpl in *; [|lia]. exists []. by rewrite !app_nil_r. }
      rewrite (next_encoded _ b f) by done. mstep. pose proof (encoded_len _ _ _ Hb) as Hl.
      destruct (IH x fuel Hx) as (fs1 & fs2 & bs2 & left & -> & -> & Hbs2 & Hleft & Hend).
      { rewrite length_app in Hf. unfold zlen in Hl. lia. }
      mstep. exists (f :: fs1), fs2, bs2, left. done.
Qed.

Lemma feed_frames options chunks bs fs buffer : Forall2 (encoded options) bs fs ->
  buffer ++ concat chunks = concat bs -> (chunks = [] -> buffer = []) ->
  feed options chunks buffer = Ok (fs, []).
Proof.
  revert bs fs buffer. induction chunks as [|chunk chunks IH]; intros bs fs buffer H2 Hs Hb; cbn [feed].
  - rewrite (Hb eq_refl) in Hs |- *. cbn in Hs. destruct H2 as [|b f bs fs He H2]; [done|].
    pose proof (encoded_len _ _ _ He) as Hl. cbn [concat] in Hs. symmetry in Hs. apply app_nil in Hs as [-> _]. unfold zlen in Hl. simpl in Hl. lia.
  - unfold append. cbn [concat] in Hs. rewrite app_assoc in Hs.
    destruct (drain_prefix options bs fs (buffer ++ chunk) (concat chunks) (S (length (buffer ++ chunk))) H2 Hs)
      as (fs1 & fs2 & bs2 & left & -> & -> & Hbs2 & Hleft & Hend); [lia|]. mstep.
    rewrite (IH bs2 fs2 left); [mstep; done|done|done|]. intros ->. by apply Hend.
Qed.

(** * The stream cipher *)
Lemma xor_loop_inverse key state i input : xor_loop key state i (xor_loop key state i input) = input.
Proof.
  revert state i; induction input as [|b input IH]; intros state i; [done|]. cbn [xor_loop]. rewrite IH. f_equal.
  apply Z.bits_inj'. intros n _. rewrite !Z.lxor_spec.
  by destruct (Z.testbit b n), (Z.testbit (key_byte key i) n), (Z.testbit (Z.land _ _) n).
Qed.

Lemma xor_loop_len key state i input : zlen (xor_loop key state i input) = zlen input.
Proof. revert state i; induction input as [|b input IH]; intros; [done|]. cbn [xor_loop]. by rewrite !zlen_cons, IH. Qed.

(** The stream cipher is its own inverse. *)
Lemma xor_stream_inverse key : cipher_inverse (xor_stream key) (xor_stream key).
Proof.
  intros c x y. unfold xor_stream. case_if; [done|]. intros [= <-]. by rewrite xor_loop_len, xor_loop_inverse.
Qed.
