(* ===== verification/RpcRegistry.v ===== *)
(** Pending calls and request routing of the RPC library:
    [libs/rpc/src/pending_call_registry.cpp], [local_bus.cpp] and [server.cpp].

    A response handler is a token; an operation of the registry returns the calls of
    handlers it makes, in order. Each operation runs under the registry's mutex or
    works on values it has removed under it, so operations are steps. The order in
    which [expire] walks the hash table is the parameter [order]. Times are
    nanoseconds, timeouts milliseconds; their sum is not bounded.

    A request handler is a function of the message that returns a response or throws;
    it does not call the library back. *)
From S2P Require Import Prelude RpcTypes.
Import RpcTypes.

(** A call of a response handler. *)
Abbreviation handler_call := (Z * Response)%type.

Module PendingCallRegistry.

Record PendingCall : Type := mkCall {
  pc_handler : Z;
  pc_deadline : Z;
  pc_metadata : Metadata;
  pc_continuation_id : Z
}.

Record t : Type := mk { next_id_ : Z; calls_ : gmap Z PendingCall }.
Definition empty : t := mk 1 ∅.

(** [id = next_id_++; while (id == 0) id = next_id_++;]: the counter passes zero at most
    once in a row. *)
Fixpoint draw_id (fuel : nat) (next : Z) : Z * Z :=
  match fuel with
  | O => (next, u64 (next + 1))
  | S fuel => if next =? 0 then draw_id fuel (u64 (next + 1)) else (next, u64 (next + 1))
  end.

(** An empty handler is [None]; the result is the id, 0 when the call is refused. The time
    and the deadline are nanoseconds, of which the code keeps 64 bits with a sign: a timeout
    that takes the sum past 2^63 nanoseconds (292 years) overflows there and not here. *)
Definition create (now : Z) (handler : option Z) (timeout : Z) (metadata : Metadata) (continuation_id : Z) (r : t)
  : Z * t :=
  match handler with
  | None => (0, r)
  | Some handler =>
      let call := mkCall handler (if 0 <? timeout then now + timeout * 1000000 else 0) metadata continuation_id in
      let '(id, next) := draw_id 1 (next_id_ r) in
      (id, mk next (match calls_ r !! id with Some _ => calls_ r | None => <[id := call]> (calls_ r) end))
  end.

Definition take (id : Z) (r : t) : option PendingCall * t :=
  match calls_ r !! id with
  | None => (None, r)
  | Some call => (Some call, mk (next_id_ r) (delete id (calls_ r)))
  end.

Definition complete (response : Response) (r : t) : option handler_call * t :=
  let '(call, r) := take (r_request_id response) r in
  match call with
  | None => (None, r)
  | Some call =>
      let response := if continuation_id response =? 0 then set_continuation_id (pc_continuation_id call) response
                      else response in
      (Some (pc_handler call, response), r)
  end.

(** The response the registry makes itself. *)
Definition failure (id : Z) (call : PendingCall) (status : RpcStatus) (error : bytes) : handler_call :=
  (pc_handler call,
   set_failure status error (set_continuation_id (pc_continuation_id call) (set_request_id id no_response))).

Definition cancel (id : Z) (error : bytes) (r : t) : option handler_call * t :=
  let '(call, r) := take id r in
  match call with
  | None => (None, r)
  | Some call => (Some (failure id call st_canceled error), r)
  end.

Definition due (now : Z) (call : PendingCall) : bool :=
  negb (pc_deadline call =? 0) && (pc_deadline call <=? now).

Section Expire.
Variable order : gmap Z PendingCall -> list (Z * PendingCall).

(** The loop over [calls_]: the expired calls and the map without them. *)
Fixpoint expire_loop (now : Z) (it : list (Z * PendingCall)) (calls : gmap Z PendingCall)
  : list (Z * PendingCall) * gmap Z PendingCall :=
  match it with
  | [] => ([], calls)
  | (id, call) :: it =>
      if due now call then
        let '(expired, calls) := expire_loop now it (delete id calls) in ((id, call) :: expired, calls)
      else expire_loop now it calls
  end.

(** The handlers are called one after the other and return: one that throws would lose the
    calls behind it, which are no longer in the map. *)
Definition expire (now : Z) (r : t) : list handler_call * t :=
  let '(expired, calls) := expire_loop now (order (calls_ r)) (calls_ r) in
  (map (fun e => failure e.1 e.2 st_timeout (str "timeout")) expired, mk (next_id_ r) calls).
End Expire.

Definition size (r : t) : Z := Z.of_nat (base.size (calls_ r)).

End PendingCallRegistry.

(** What leaves a handler that throws: [std::exception::what()], or anything else. *)
Inductive thrown : Type := StdException (what : bytes) | OtherException.
Definition RequestHandler : Type := Message -> Response + thrown.

Module LocalBus.

Record t : Type := mk {
  numeric_handlers_ : gmap Z RequestHandler;
  named_handlers_ : gmap bytes RequestHandler
}.
Definition empty : t := mk ∅ ∅.

Definition numeric_route_key (r : Route) : Z := Z.lor (u64 (Z.shiftl (rt_service r) 32)) (rt_method r).
Definition uses_numeric_route (r : Route) : bool := negb (rt_service r =? 0) || negb (rt_method r =? 0).

(** [handlers.emplace(key, handler).second] *)
Definition emplace {K} `{Countable K} (key : K) (handler : RequestHandler) (m : gmap K RequestHandler)
  : bool * gmap K RequestHandler :=
  match m !! key with Some _ => (false, m) | None => (true, <[key := handler]> m) end.
(** [handlers.erase(key) != 0] *)
Definition erase {K} `{Countable K} (key : K) (m : gmap K RequestHandler) : bool * gmap K RequestHandler :=
  (bool_decide (is_Some (m !! key)), delete key m).

Definition bind (r : Route) (handler : option RequestHandler) (b : t) : bool * t :=
  match handler with
  | Some handler =>
      if negb (valid r) then (false, b)
      else if uses_numeric_route r then
        let '(fresh, m) := emplace (numeric_route_key r) handler (numeric_handlers_ b) in
        (fresh, mk m (named_handlers_ b))
      else
        let '(fresh, m) := emplace (rt_name r) handler (named_handlers_ b) in
        (fresh, mk (numeric_handlers_ b) m)
  | None => (false, b)
  end.

Definition unbind (r : Route) (b : t) : bool * t :=
  if uses_numeric_route r then
    let '(found, m) := erase (numeric_route_key r) (numeric_handlers_ b) in (found, mk m (named_handlers_ b))
  else
    let '(found, m) := erase (rt_name r) (named_handlers_ b) in (found, mk (numeric_handlers_ b) m).

Definition lookup (r : Route) (b : t) : option RequestHandler :=
  if uses_numeric_route r then numeric_handlers_ b !! numeric_route_key r else named_handlers_ b !! rt_name r.

Definition dispatch (message : Message) (b : t) : Response :=
  let response := set_request_id (m_request_id message) no_response in
  match lookup (m_route message) b with
  | None => set_failure st_not_found (str "rpc route not found: " ++ route_key (m_route message)) response
  | Some handler =>
      match handler message with
      | inl response => set_request_id (m_request_id message) response
      | inr (StdException what) => set_failure st_internal_error what response
      | inr OtherException => set_failure st_internal_error (str "unknown rpc handler error") response
      end
  end.

Definition size (b : t) : Z :=
  Z.of_nat (base.size (numeric_handlers_ b)) + Z.of_nat (base.size (named_handlers_ b)).

End LocalBus.

Module Server.

Record t : Type := mk { bus_ : LocalBus.t; dispatcher_ : option RequestHandler }.
Definition empty : t := mk LocalBus.empty None.

Definition register_handler (r : Route) (handler : option RequestHandler) (s : t) : bool * t :=
  let '(ok, b) := LocalBus.bind r handler (bus_ s) in (ok, mk b (dispatcher_ s)).
Definition set_dispatcher (dispatcher : option RequestHandler) (s : t) : t := mk (bus_ s) dispatcher.
Definition unregister_handler (r : Route) (s : t) : bool * t :=
  let '(ok, b) := LocalBus.unbind r (bus_ s) in (ok, mk b (dispatcher_ s)).

(** What a dispatcher throws leaves [handle]; the bus catches what a handler throws. *)
Definition handle (message : Message) (s : t) : Response + thrown :=
  match dispatcher_ s with
  | Some dispatcher => dispatcher message
  | None => inl (LocalBus.dispatch message (bus_ s))
  end.
Definition handler_count (s : t) : Z := LocalBus.size (bus_ s).

(** [register_typed_handler]: the decoding of the request, the handler and the encoding
    of its result are one function that may throw. *)
Definition typed_handler (request_serialization response_serialization : Serialization)
    (handler : bytes -> bytes + thrown) : RequestHandler := fun message =>
  let response := set_formats response_serialization comp_none no_response in
  if negb (m_serialization message =? request_serialization) then
    inl (set_failure st_bad_request (str "rpc request serialization mismatch") response)
  else
    match handler (m_payload message) with
    | inl payload =>
        inl (mkResponse 0 0 0 0 0 0 st_ok [] response_serialization comp_none enc_none 0 0 0 ∅ payload)
    | inr (StdException what) => inl (set_failure st_internal_error what response)
    | inr OtherException => inl (set_failure st_internal_error (str "unknown typed rpc handler error") response)
    end.

End Server.
