(* ===== verification/RpcRegistryFacts.v ===== *)
(** Histories of the pending-call registry: what the operations do, recorded in a log. *)
From S2P Require Import Prelude Endian RpcTypes RpcRegistry.
Import RpcTypes PendingCallRegistry.

(** * The registry as a machine *)
Inductive reg_op : Type :=
| OpCreate (now : Z) (handler : option Z) (timeout : Z) (metadata : Metadata) (continuation_id : Z)
| OpComplete (response : Response)
| OpCancel (id : Z) (error : bytes)
| OpExpire (now : Z).

Inductive log_entry : Type :=
| Created (id handler deadline : Z)
| Answered (handler : Z) (response : Response).

Definition answers (calls : list handler_call) : list log_entry := map (fun c => Answered c.1 c.2) calls.
Definition answer (call : option handler_call) : list log_entry := answers (option_list call).

Section Registry.
Variable order : gmap Z PendingCall -> list (Z * PendingCall).
(** The walk over the hash table meets every entry once. *)
Hypothesis Horder : forall m, order m ≡ₚ map_to_list m.

Definition reg_step (o : reg_op) (r : t) : list log_entry * t :=
  match o with
  | OpCreate now handler timeout metadata continuation_id =>
      let '(id, r) := create now handler timeout metadata continuation_id r in
      (match handler with
       | Some h => [Created id h (if 0 <? timeout then now + timeout * 1000000 else 0)]
       | None => []
       end, r)
  | OpComplete response => let '(call, r) := complete response r in (answer call, r)
  | OpCancel id error => let '(call, r) := cancel id error r in (answer call, r)
  | OpExpire now => let '(calls, r) := expire order now r in (answers calls, r)
  end.

Fixpoint reg_run (ops : list reg_op) (r : t) : list log_entry * t :=
  match ops with
  | [] => ([], r)
  | o :: ops => let '(l, r) := reg_step o r in let '(l', r) := reg_run ops r in (l ++ l', r)
  end.

(** The handlers created and answered under an id. *)
Definition created_handlers (id : Z) (log : list log_entry) : list Z :=
  omap (fun e => match e with Created i h _ => if i =? id then Some h else None | _ => None end) log.
Definition answered_handlers (id : Z) (log : list log_entry) : list Z :=
  omap (fun e => match e with Answered h resp => if r_request_id resp =? id then Some h else None | _ => None end) log.
Definition pending_handlers (id : Z) (r : t) : list Z :=
  match calls_ r !! id with Some c => [pc_handler c] | None => [] end.

Lemma created_app id l1 l2 : created_handlers id (l1 ++ l2) = created_handlers id l1 ++ created_handlers id l2.
Proof. apply omap_app. Qed.
Lemma answered_app id l1 l2 : answered_handlers id (l1 ++ l2) = answered_handlers id l1 ++ answered_handlers id l2.
Proof. apply omap_app. Qed.

Lemma answered_one i h resp :
  answered_handlers i (answer (Some (h, resp))) = if r_request_id resp =? i then [h] else [].
Proof. unfold answered_handlers. cbn. by destruct (r_request_id resp =? i). Qed.

Lemma created_answers id calls : created_handlers id (answers calls) = [].
Proof. induction calls as [|c calls IH]; [done|]. exact IH. Qed.

Lemma reg_run_app ops1 ops2 r :
  reg_run (ops1 ++ ops2) r
  = let '(l1, r1) := reg_run ops1 r in let '(l2, r2) := reg_run ops2 r1 in (l1 ++ l2, r2).
Proof.
  revert r; induction ops1 as [|o ops1 IH]; intros r; cbn [app reg_run]; [by destruct (reg_run ops2 r)|].
  destruct (reg_step o r) as [l r1]. rewrite IH. destruct (reg_run ops1 r1) as [l1 r2].
  destruct (reg_run ops2 r2) as [l2 r3]. by rewrite app_assoc.
Qed.

(** * Removing entries *)
(** The loop of [expire] removes the entries that are due and returns them. *)
Lemma expire_loop_spec now it calls : NoDup it.*1 -> (forall id c, (id, c) ∈ it -> calls !! id = Some c) ->
  (expire_loop now it calls).1 = List.filter (fun e => due now e.2) it
  /\ forall id, (expire_loop now it calls).2 !! id
       = if bool_decide (id ∈ it.*1) then match calls !! id with
                                          | Some c => if due now c then None else Some c
                                          | None => None
                                          end
         else calls !! id.
Proof.
  revert calls; induction it as [|[i c] it IH]; intros calls Hnd Hin; cbn [expire_loop List.filter snd].
  { split; [done|]. intros id. done. }
  cbn [fmap list_fmap fst] in *. apply NoDup_cons in Hnd as [Hni Hnd].
  pose proof (Hin i c ltac:(left)) as Hi. destruct (due now c) eqn:Hd.
  - destruct (IH (delete i calls) Hnd) as [H1 H2].
    { intros id c' Hc'. rewrite lookup_delete_ne; [apply Hin; by right|]. intros ->. apply Hni. by apply (list_elem_of_fmap_2 fst _ (_, _)) in Hc'. }
    destruct (expire_loop now it (delete i calls)) as [expired calls'] eqn:E. cbn [fst snd] in *.
    split; [by rewrite H1|]. intros id. rewrite H2. destruct (decide (id = i)) as [->|Hne].
    + rewrite lookup_delete_eq, Hi, Hd. rewrite (bool_decide_true (i ∈ i :: it.*1)) by left. by case_bool_decide.
    + rewrite lookup_delete_ne by done.
      assert (bool_decide (id ∈ i :: it.*1) = bool_decide (id ∈ it.*1)) as ->; [|done].
      apply bool_decide_ext. rewrite elem_of_cons. intuition.
  - destruct (IH calls Hnd) as [H1 H2]; [intros; apply Hin; by right|].
    split; [done|]. intros id. rewrite H2. destruct (decide (id = i)) as [->|Hne].
    + rewrite (bool_decide_false (i ∈ it.*1)) by done. rewrite (bool_decide_true (i ∈ i :: it.*1)) by left. by rewrite Hi, Hd.
    + assert (bool_decide (id ∈ i :: it.*1) = bool_decide (id ∈ it.*1)) as ->; [|done].
      apply bool_decide_ext. rewrite elem_of_cons. intuition.
Qed.

Lemma order_nodup m : NoDup (order m).*1.
Proof. rewrite (Horder m). apply NoDup_fst_map_to_list. Qed.
Lemma order_in m id c : (id, c) ∈ order m <-> m !! id = Some c.
Proof. rewrite (Horder m). apply elem_of_map_to_list. Qed.

Lemma expire_calls now r id :
  calls_ (expire order now r).2 !! id
  = match calls_ r !! id with Some c => if due now c then None else Some c | None => None end.
Proof.
  unfold expire. destruct (expire_loop_spec now (order (calls_ r)) (calls_ r)) as [_ H2];
    [apply order_nodup|intros ??; by apply order_in|].
  destruct (expire_loop now (order (calls_ r)) (calls_ r)) as [expired calls]. cbn [snd calls_] in *. rewrite H2.
  case_bool_decide as Hb; [done|]. destruct (calls_ r !! id) as [c|] eqn:E; [|done].
  exfalso. apply Hb. apply order_in in E. by apply (list_elem_of_fmap_2 fst _ (_, _)) in E.
Qed.

Lemma answered_failures id st e (l : list (Z * PendingCall)) :
  answered_handlers id (answers (map (fun x => failure x.1 x.2 st e) l))
  = map (fun x => pc_handler x.2) (List.filter (fun x => x.1 =? id) l).
Proof.
  induction l as [|[i c] l IH]; [done|]. cbn [map answers List.filter fst snd]. unfold answered_handlers, answers in *.
  cbn [omap list_omap failure fst snd r_request_id set_failure set_continuation_id set_request_id].
  rewrite IH. by destruct (i =? id).
Qed.

Lemma filter_key (p : Z * PendingCall -> bool) l id : NoDup l.*1 ->
  List.filter (fun x => x.1 =? id) (List.filter p l)
  = match List.find (fun x => x.1 =? id) l with Some x => if p x then [x] else [] | None => [] end.
Proof.
  induction l as [|[i c] l IH]; intros Hnd; [done|]. cbn [fmap list_fmap fst] in Hnd. apply NoDup_cons in Hnd as [Hni Hnd].
  specialize (IH Hnd). cbn [List.filter List.find fst]. destruct (Z.eqb_spec i id) as [->|Hne].
  - assert (List.find (fun x => x.1 =? id) l = None) as E.
    { destruct (List.find _ l) as [x|] eqn:E; [|done]. apply find_some in E as [Hx Hi]. exfalso. apply Hni.
      assert (x.1 = id) as <- by lia. by apply list_elem_of_fmap_2, list_elem_of_In. }
    rewrite E in IH. destruct (p (id, c)); cbn [List.filter fst]; rewrite ?Z.eqb_refl; by rewrite IH.
  - destruct (p (i, c)); cbn [List.filter fst]; [|done]. replace (i =? id) with false by lia. done.
Qed.

Lemma find_order m id : List.find (fun x => x.1 =? id) (order m) = (fun c => (id, c)) <$> m !! id.
Proof.
  destruct (m !! id) as [c|] eqn:E.
  - destruct (List.find _ (order m)) as [[i c']|] eqn:F.
    + apply find_some in F as [Hx Hi]. cbn [fst] in Hi. apply list_elem_of_In, order_in in Hx.
      assert (i = id) as -> by lia. cbn. congruence.
    + apply order_in, list_elem_of_In in E. apply (find_none _ _ F) in E. cbn [fst] in E. lia.
  - destruct (List.find _ (order m)) as [[i c']|] eqn:F; [|done].
    apply find_some in F as [Hx Hi]. cbn [fst] in Hi. apply list_elem_of_In, order_in in Hx.
    assert (i = id) as -> by lia. congruence.
Qed.

Lemma expire_answers now r id :
  answered_handlers id (answers (expire order now r).1)
  = match calls_ r !! id with Some c => if due now c then [pc_handler c] else [] | None => [] end.
Proof.
  unfold expire. destruct (expire_loop_spec now (order (calls_ r)) (calls_ r)) as [H1 _];
    [apply order_nodup|intros ??; by apply order_in|].
  destruct (expire_loop now (order (calls_ r)) (calls_ r)) as [expired calls]. cbn [fst] in *. subst expired.
  rewrite answered_failures, filter_key by apply order_nodup. rewrite find_order.
  destruct (calls_ r !! id) as [c|]; [|done]. cbn [fmap option_fmap option_map snd]. by destruct (due now c).
Qed.

(** * The invariant of a history *)
(** While the counter has not wrapped, every id was created at most once, and its handler
    was answered or is pending. *)
Record history_ok (log : list log_entry) (r : t) : Prop := {
  hi_next : 1 <= next_id_ r < 2 ^ 64;
  hi_balance id : created_handlers id log = answered_handlers id log ++ pending_handlers id r;
  hi_once id : (length (created_handlers id log) <= 1)%nat;
  hi_all id : 1 <= id < next_id_ r -> length (created_handlers id log) = 1%nat;
  hi_fresh id : id < 1 \/ next_id_ r <= id -> created_handlers id log = [];
  hi_deadline id h d c : Created id h d ∈ log -> calls_ r !! id = Some c -> pc_deadline c = d;
  hi_pending id c : calls_ r !! id = Some c -> 1 <= id < next_id_ r;
  hi_ids id h d : Created id h d ∈ log -> 1 <= id < next_id_ r
}.

Lemma history_empty : history_ok [] empty.
Proof.
  constructor; cbn; try done; try (intros; lia).
  by intros ??? ?%not_elem_of_nil.
Qed.

(** A step that only removes entries and answers what it removes. *)
Lemma history_remove log r r' l : history_ok log r -> next_id_ r' = next_id_ r ->
  (forall id, created_handlers id l = []) -> (forall id h d, Created id h d ∉ l) ->
  (forall id, pending_handlers id r = answered_handlers id l ++ pending_handlers id r') ->
  (forall id c, calls_ r' !! id = Some c -> calls_ r !! id = Some c) ->
  history_ok (log ++ l) r'.
Proof.
  intros [Hn Hb Ho Hall Hf Hd Hpe Hi] En Hc Hc' Hp Hsub. constructor; rewrite ?En; try done.
  - intros id. rewrite created_app, answered_app, Hc, Hb, Hp, app_nil_r. by rewrite app_assoc.
  - intros id. rewrite created_app, Hc, app_nil_r. apply Ho.
  - intros id Hid. rewrite created_app, Hc, app_nil_r. by apply Hall.
  - intros id Hid. rewrite created_app, Hc, app_nil_r. by apply Hf.
  - intros id h d c [Hin|Hin]%elem_of_app ?%Hsub; [eauto|]. by destruct (Hc' id h d).
  - intros id c ?%Hsub. eauto.
  - intros id h d [Hin|Hin]%elem_of_app; [eauto|]. by destruct (Hc' id h d).
Qed.

Lemma answers_no_created calls id h d : Created id h d ∉ answers calls.
Proof. unfold answers. rewrite elem_of_map. by intros (x & ? & _). Qed.

Lemma pending_take id i r : pending_handlers i (take id r).2 = if i =? id then [] else pending_handlers i r.
Proof.
  unfold pending_handlers, take. destruct (calls_ r !! id) as [c|] eqn:E; cbn [snd calls_].
  - destruct (Z.eqb_spec i id) as [->|Hne]; [by rewrite lookup_delete_eq|by rewrite lookup_delete_ne].
  - destruct (Z.eqb_spec i id) as [->|Hne]; [by rewrite E|done].
Qed.

(** Answering the call that [take] removed. *)
Lemma history_take log r id h resp : history_ok log r -> r_request_id resp = id ->
  (forall c, calls_ r !! id = Some c -> h = pc_handler c) ->
  history_ok (log ++ match (take id r).1 with Some _ => answer (Some (h, resp)) | None => [] end) (take id r).2.
Proof.
  intros Hok Hid Hh. unfold take. destruct (calls_ r !! id) as [c|] eqn:E; cbn [fst snd].
  - apply (history_remove log r); try done.
    + intros. apply answers_no_created.
    + intros i. pose proof (pending_take id i r) as Hp. unfold take in Hp. rewrite E in Hp. cbn [snd] in Hp. rewrite Hp.
      rewrite answered_one, Hid.
      destruct (Z.eqb_spec i id) as [Hi|Hne].
      * rewrite Hi, Z.eqb_refl. unfold pending_handlers. rewrite E. by rewrite (Hh c).
      * by replace (id =? i) with false by lia.
    + cbn [calls_]. intros i c'. rewrite lookup_delete_Some. tauto.
  - by rewrite app_nil_r.
Qed.

Lemma draw_id_ok next : 1 <= next < 2 ^ 64 -> draw_id 1 next = (next, u64 (next + 1)).
Proof. intros. cbn [draw_id]. replace (next =? 0) with false by lia. done. Qed.

Definition is_create (o : reg_op) : bool := match o with OpCreate _ (Some _) _ _ _ => true | _ => false end.

Lemma created_one id i h d : created_handlers id [Created i h d] = if i =? id then [h] else [].
Proof. unfold created_handlers. cbn. by destruct (i =? id). Qed.

Lemma history_create log now h timeout md co r : history_ok log r -> next_id_ r + 1 < 2 ^ 64 ->
  let '(l, r') := reg_step (OpCreate now (Some h) timeout md co) r in
  history_ok (log ++ l) r' /\ next_id_ r' = next_id_ r + 1.
Proof.
  intros [Hn Hb Ho Hall Hf Hd Hpe Hi] Hlt. cbn [reg_step]. unfold create. rewrite draw_id_ok by done.
  assert (calls_ r !! next_id_ r = None) as Hfree.
  { destruct (calls_ r !! next_id_ r) as [c|] eqn:E; [|done]. apply Hpe in E. lia. }
  rewrite Hfree. cbn beta iota zeta. assert (u64 (next_id_ r + 1) = next_id_ r + 1) as -> by (apply Z.mod_small; lia).
  split; [|done]. set (c := mkCall _ _ _ _).
  constructor; cbn [next_id_ calls_].
  - lia.
  - intros id. rewrite created_app, answered_app, created_one, Hb. unfold pending_handlers. cbn [calls_].
    change (answered_handlers id [_]) with (@nil Z). rewrite app_nil_r, <- app_assoc. f_equal.
    destruct (Z.eqb_spec (next_id_ r) id) as [<-|Hne].
    + by rewrite Hfree, lookup_insert_eq.
    + by rewrite lookup_insert_ne, app_nil_r.
  - intros id. rewrite created_app, created_one. destruct (Z.eqb_spec (next_id_ r) id) as [<-|Hne].
    + rewrite Hf by lia. simpl. lia.
    + rewrite app_nil_r. apply Ho.
  - intros id Hid. rewrite created_app, created_one. destruct (Z.eqb_spec (next_id_ r) id) as [<-|Hne].
    + rewrite Hf by lia. done.
    + rewrite app_nil_r. apply Hall. lia.
  - intros id Hid. rewrite created_app, created_one. replace (next_id_ r =? id) with false by lia.
    rewrite app_nil_r. apply Hf. lia.
  - intros id h' d' c' Hin Hc. apply elem_of_app in Hin as [Hin|Hin];
      apply lookup_insert_Some in Hc as [[E1 E2]|[Hne Hc]].
    + apply Hi in Hin. lia.
    + eauto.
    + apply list_elem_of_singleton in Hin as [= -> -> ->]. by rewrite <- E2.
    + by apply list_elem_of_singleton in Hin as [= -> -> ->].
  - intros id c' Hc. apply lookup_insert_Some in Hc as [[E1 E2]|[_ Hc]]; [lia|]. apply Hpe in Hc. lia.
  - intros id h' d' [Hin%Hi|[= -> -> ->]%list_elem_of_singleton]%elem_of_app; lia.
Qed.

Lemma history_step log o r : history_ok log r -> (is_create o = true -> next_id_ r + 1 < 2 ^ 64) ->
  history_ok (log ++ (reg_step o r).1) (reg_step o r).2
  /\ next_id_ (reg_step o r).2 = next_id_ r + (if is_create o then 1 else 0).
Proof.
  intros Hok Hlt. destruct o as [now [h|] timeout md co|response|id error|now]; cbn [is_create] in *.
  - pose proof (history_create log now h timeout md co r Hok (Hlt eq_refl)) as Hc.
    by destruct (reg_step _ r) as [l r'].
  - cbn [reg_step create fst snd]. rewrite app_nil_r. split; [done|lia].
  - cbn [reg_step]. unfold complete.
    set (resp c := if continuation_id response =? 0 then set_continuation_id (pc_continuation_id c) response else response).
    assert (forall c, r_request_id (resp c) = r_request_id response) as Hr by (intros; subst resp; cbn beta; by case_if).
    unfold take. destruct (calls_ r !! r_request_id response) as [c|] eqn:E; cbn [fst snd]; [|rewrite app_nil_r; split; [done|lia]].
    fold (resp c). pose proof (history_take log r (r_request_id response) (pc_handler c) (resp c) Hok (Hr c)) as Ht.
    unfold take in Ht. rewrite E in Ht. cbn [fst snd] in Ht. split; [apply Ht; congruence|cbn; lia].
  - cbn [reg_step]. unfold cancel, take. destruct (calls_ r !! id) as [c|] eqn:E; cbn [fst snd]; [|rewrite app_nil_r; split; [done|lia]].
    pose proof (history_take log r id (pc_handler c) (failure id c st_canceled error).2 Hok eq_refl) as Ht.
    unfold take in Ht. rewrite E in Ht. cbn [fst snd] in Ht. split; [apply Ht; congruence|cbn; lia].
  - cbn [reg_step]. pose proof (expire_answers now r) as Ha. pose proof (expire_calls now r) as Hc.
    assert (next_id_ (expire order now r).2 = next_id_ r) as Hn.
    { unfold expire. by destruct (expire_loop now (order (calls_ r)) (calls_ r)). }
    destruct (expire order now r) as [calls r'] eqn:E. cbn [fst snd] in *. split; [|lia].
    apply (history_remove log r); try done.
    + intros. apply created_answers.
    + intros. apply answers_no_created.
    + intros id. rewrite Ha. unfold pending_handlers. rewrite Hc. destruct (calls_ r !! id) as [c|]; [|done]. by case_if.
    + intros id c. rewrite Hc. destruct (calls_ r !! id) as [c'|]; [|done]. by case_if.
Qed.

Definition creates (ops : list reg_op) : Z := zlen (List.filter is_create ops).

Lemma history_run log ops r : history_ok log r -> next_id_ r + creates ops < 2 ^ 64 ->
  history_ok (log ++ (reg_run ops r).1) (reg_run ops r).2 /\ next_id_ (reg_run ops r).2 = next_id_ r + creates ops.
Proof.
  revert log r; induction ops as [|o ops IH]; intros log r Hok Hlt; cbn [reg_run].
  - cbn. rewrite app_nil_r. split; [done|unfold creates; zlia].
  - unfold creates in *. cbn [List.filter] in *.
    destruct (history_step log o r Hok) as [H1 H2].
    { intros E. rewrite E in Hlt. zlia. }
    destruct (reg_step o r) as [l r1]. cbn [fst snd] in *.
    destruct (IH (log ++ l) r1 H1) as [H3 H4].
    { destruct (is_create o); zlia. }
    destruct (reg_run ops r1) as [l2 r2]. cbn [fst snd] in *. rewrite app_assoc. split; [done|].
    destruct (is_create o); zlia.
Qed.

(** Once an id is answered it stays so, and nothing more is created under it. *)
Lemma history_answered log1 log2 r1 r2 id h : history_ok log1 r1 -> history_ok (log1 ++ log2) r2 ->
  answered_handlers id log1 = [h] -> answered_handlers id (log1 ++ log2) = [h].
Proof.
  intros H1 H2 Ha. pose proof (hi_once _ _ H2 id) as Ho. rewrite (hi_balance _ _ H2) in Ho.
  rewrite answered_app, Ha in Ho |- *. rewrite !length_app in Ho. cbn [length] in Ho.
  destruct (answered_handlers id log2); [done|simpl in Ho; lia].
Qed.

(** After an [expire] that is late enough, a call with a deadline has been answered. *)
Lemma expire_answered log r now id h d : history_ok log r -> Created id h d ∈ log -> d <> 0 -> d <= now ->
  answered_handlers id (log ++ (reg_step (OpExpire now) r).1) = [h].
Proof.
  intros Hok Hin Hd0 Hd.
  assert (h ∈ created_handlers id log) as Hh.
  { unfold created_handlers. apply list_elem_of_omap. exists (Created id h d). split; [done|]. by rewrite Z.eqb_refl. }
  pose proof (hi_once _ _ Hok id) as Ho. pose proof (hi_balance _ _ Hok id) as Hb.
  destruct (created_handlers id log) as [|h' [|]] eqn:Ec; [by apply not_elem_of_nil in Hh| |simpl in Ho; lia].
  apply list_elem_of_singleton in Hh as <-. rewrite answered_app.
  assert (answered_handlers id (reg_step (OpExpire now) r).1 = pending_handlers id r) as ->; [|done].
  cbn [reg_step]. pose proof (expire_answers now r id) as Ha. destruct (expire order now r) as [calls r']. cbn [fst] in *.
  rewrite Ha. unfold pending_handlers. destruct (calls_ r !! id) as [c|] eqn:E; [|done].
  assert (due now c = true) as ->; [|done]. pose proof (hi_deadline _ _ Hok id h d c Hin E). unfold due. lia.
Qed.
End Registry.

(** * Routes as a map: the local bus against a table from route targets to handlers. *)
Import RpcTypes LocalBus.

(** * The table *)
(** What a route names: a service and a method, or a name. *)
Abbreviation target := ((Z * Z) + bytes)%type.
Definition target_of (r : Route) : target :=
  if uses_numeric_route r then inl (rt_service r, rt_method r) else inr (rt_name r).

Abbreviation table := (gmap target RequestHandler).

(** The answer of a handler to a message, or of none. *)
Definition answer_of (handler : option RequestHandler) (m : Message) : Response :=
  let failed := fun status error => set_failure status error (set_request_id (m_request_id m) no_response) in
  match handler with
  | None => failed st_not_found (str "rpc route not found: " ++ route_key (m_route m))
  | Some handler =>
      match handler m with
      | inl response => set_request_id (m_request_id m) response
      | inr (StdException what) => failed st_internal_error what
      | inr OtherException => failed st_internal_error (str "unknown rpc handler error")
      end
  end.

Inductive bus_op : Type :=
| BusBind (r : Route) (handler : option RequestHandler)
| BusUnbind (r : Route)
| BusDispatch (m : Message)
| BusSize.
Inductive bus_result : Type := BusDone (ok : bool) | BusAnswer (r : Response) | BusCount (n : Z).

Definition bus_step (o : bus_op) (b : t) : bus_result * t :=
  match o with
  | BusBind r handler => let '(ok, b) := bind r handler b in (BusDone ok, b)
  | BusUnbind r => let '(ok, b) := unbind r b in (BusDone ok, b)
  | BusDispatch m => (BusAnswer (dispatch m b), b)
  | BusSize => (BusCount (size b), b)
  end.
Definition table_step (o : bus_op) (x : table) : bus_result * table :=
  match o with
  | BusBind r handler =>
      match handler, x !! target_of r with
      | Some handler, None =>
          if valid r then (BusDone true, <[target_of r := handler]> x) else (BusDone false, x)
      | _, _ => (BusDone false, x)
      end
  | BusUnbind r => (BusDone (bool_decide (is_Some (x !! target_of r))), delete (target_of r) x)
  | BusDispatch m => (BusAnswer (answer_of (x !! target_of (m_route m)) m), x)
  | BusSize => (BusCount (Z.of_nat (base.size x)), x)
  end.

(** The results of a list of operations. *)
Definition run_results {S} (step : bus_op -> S -> bus_result * S) : list bus_op -> S -> list bus_result :=
  fix run ops x := match ops with [] => [] | o :: ops => let '(y, x) := step o x in y :: run ops x end.

(** The ids of a route are [uint32_t]. *)
Definition route_ok (r : Route) : Prop := is_u32 (rt_service r) /\ is_u32 (rt_method r).
Definition bus_op_ok (o : bus_op) : Prop :=
  match o with BusBind r _ | BusUnbind r => route_ok r | BusDispatch m => route_ok (m_route m) | BusSize => True end.

(** * The refinement *)
Lemma numeric_route_key_eq r : route_ok r -> numeric_route_key r = rt_service r * 2 ^ 32 + rt_method r.
Proof.
  unfold route_ok, is_u32, numeric_route_key. intros [Hs Hm].
  assert (u64 (Z.shiftl (rt_service r) 32) = Z.shiftl (rt_service r) 32) as ->.
  { rewrite Z.shiftl_mul_pow2 by lia. apply Z.mod_small. lia. }
  apply lor_shiftl_add; lia.
Qed.
Lemma numeric_route_key_inj r1 r2 : route_ok r1 -> route_ok r2 -> numeric_route_key r1 = numeric_route_key r2 ->
  rt_service r1 = rt_service r2 /\ rt_method r1 = rt_method r2.
Proof. intros H1 H2. rewrite !numeric_route_key_eq by done. unfold route_ok, is_u32 in *. lia. Qed.

(** Looking a target up in the bus. *)
Record bus_refines (b : t) (x : table) : Prop := {
  br_lookup : forall r, route_ok r -> lookup r b = x !! target_of r;
  br_size : size b = Z.of_nat (base.size x);
  br_unnamed : named_handlers_ b !! [] = None
}.

Lemma target_eq r1 r2 : route_ok r1 -> route_ok r2 -> uses_numeric_route r1 = uses_numeric_route r2 ->
  (if uses_numeric_route r1 then numeric_route_key r1 = numeric_route_key r2 else rt_name r1 = rt_name r2)
  <-> target_of r1 = target_of r2.
Proof.
  intros H1 H2 E. unfold target_of. rewrite <- E. destruct (uses_numeric_route r1).
  - split; [intros [-> ->]%numeric_route_key_inj; done|]. intros [= Hs Hm]. unfold numeric_route_key. by rewrite Hs, Hm.
  - split; [by intros ->|by intros [=]].
Qed.
Lemma target_ne r1 r2 : uses_numeric_route r1 <> uses_numeric_route r2 -> target_of r1 <> target_of r2.
Proof. unfold target_of. by repeat destruct (uses_numeric_route _). Qed.

(** The bus after one of its maps has got the value [v] at the key of [r]. *)
Definition bus_set (r : Route) (v : option RequestHandler) (b : t) : t :=
  if uses_numeric_route r then mk (partial_alter (fun _ => v) (numeric_route_key r) (numeric_handlers_ b)) (named_handlers_ b)
  else mk (numeric_handlers_ b) (partial_alter (fun _ => v) (rt_name r) (named_handlers_ b)).

Lemma lookup_bus_set r r' v b : route_ok r -> route_ok r' ->
  lookup r' (bus_set r v b) = if decide (target_of r' = target_of r) then v else lookup r' b.
Proof.
  intros H H'. unfold bus_set, lookup. destruct (uses_numeric_route r) eqn:E, (uses_numeric_route r') eqn:E'; cbn.
  2,3: rewrite decide_False; [done|apply target_ne; congruence].
  all: destruct (decide (target_of r' = target_of r)) as [Ht|Hne]; pose proof (target_eq r' r H' H) as Hk;
    rewrite E, E' in Hk.
  - rewrite (proj2 (Hk eq_refl) Ht). apply lookup_partial_alter_eq.
  - apply lookup_partial_alter_ne. intros Hx. by apply Hne, Hk.
  - rewrite (proj2 (Hk eq_refl) Ht). apply lookup_partial_alter_eq.
  - apply lookup_partial_alter_ne. intros Hx. by apply Hne, Hk.
Qed.

Lemma size_partial_alter {K V} `{Countable K} (m : gmap K V) k v :
  Z.of_nat (base.size (partial_alter (fun _ => v) k m))
  = Z.of_nat (base.size m) + (if v is Some _ then 1 else 0) - (if m !! k is Some _ then 1 else 0).
Proof.
  destruct v as [v|].
  - change (partial_alter _ k m) with (<[k := v]> m). destruct (m !! k) as [y|] eqn:E.
    + rewrite map_size_insert_Some by (by eexists). lia.
    + rewrite map_size_insert_None by done. lia.
  - change (partial_alter _ k m) with (delete k m). destruct (m !! k) as [y|] eqn:E.
    + rewrite map_size_delete_Some by (by eexists).
      assert (base.size m <> 0%nat) by (intros Hz%map_size_empty_iff; by rewrite Hz in E). lia.
    + rewrite map_size_delete_None by done. lia.
Qed.

Lemma bus_set_refines r v b x : route_ok r -> bus_refines b x -> (is_Some v -> valid r = true) ->
  bus_refines (bus_set r v b) (partial_alter (fun _ => v) (target_of r) x).
Proof.
  intros Hr [Hl Hs Hn] Hv. split.
  - intros r' Hr'. rewrite lookup_bus_set by done. case_decide as Ht.
    + by rewrite Ht, lookup_partial_alter_eq.
    + rewrite lookup_partial_alter_ne by done. by apply Hl.
  - rewrite size_partial_alter, <- Hs, <- (Hl r Hr). unfold bus_set, lookup, size.
    destruct (uses_numeric_route r); cbn; rewrite size_partial_alter; lia.
  - unfold bus_set. destruct (uses_numeric_route r) eqn:E; [done|]. cbn. destruct (decide (rt_name r = [])) as [E0|E0].
    + rewrite E0, lookup_partial_alter_eq. destruct v as [v|]; [|done]. specialize (Hv (ex_intro _ _ eq_refl)).
      unfold valid, uses_numeric_route in *. apply orb_false_iff in E as [E _]. rewrite E, E0 in Hv. done.
    + by rewrite lookup_partial_alter_ne.
Qed.

Lemma bind_eq r h b : valid r = true -> lookup r b = None -> bind r (Some h) b = (true, bus_set r (Some h) b).
Proof.
  unfold bind, lookup, bus_set, emplace. intros -> H. cbn [negb]. destruct (uses_numeric_route r); by rewrite H.
Qed.
Lemma bind_refused r h b : valid r = false \/ is_Some (lookup r b) -> bind r (Some h) b = (false, b).
Proof.
  unfold bind, lookup, emplace. destruct (valid r); cbn [negb]; [|done]. intros [?|[y H]]; [done|].
  destruct (uses_numeric_route r); rewrite H; by destruct b.
Qed.
Lemma unbind_eq r b : unbind r b = (bool_decide (is_Some (lookup r b)), bus_set r None b).
Proof. unfold unbind, lookup, bus_set, erase. by destruct (uses_numeric_route r). Qed.

Lemma bus_step_refines o b x : bus_op_ok o -> bus_refines b x ->
  (bus_step o b).1 = (table_step o x).1 /\ bus_refines (bus_step o b).2 (table_step o x).2.
Proof.
  intros Ho Hb. pose proof (br_lookup _ _ Hb) as Hl. destruct o as [r [h|]|r|m|]; cbn [bus_step table_step bus_op_ok] in *.
  - rewrite <- (Hl r Ho). destruct (lookup r b) as [y|] eqn:El.
    + by rewrite bind_refused by (right; rewrite El; by eexists).
    + destruct (valid r) eqn:Ev.
      * rewrite bind_eq by done. split; [done|]. by apply (bus_set_refines r (Some h)).
      * by rewrite bind_refused by (by left).
  - done.
  - rewrite unbind_eq, (Hl r Ho). split; [done|]. apply (bus_set_refines r None); [done..|]. by intros [].
  - unfold dispatch. rewrite (Hl _ Ho). split; [|done]. unfold answer_of.
    destruct (x !! _) as [h|]; [|done]. by destruct (h m) as [|[]].
  - by rewrite (br_size _ _ Hb).
Qed.

Lemma empty_refines : bus_refines empty ∅.
Proof. split; [|done..]. intros r _. unfold lookup. by destruct (uses_numeric_route r). Qed.

Lemma bus_run_refines ops b x : Forall bus_op_ok ops -> bus_refines b x ->
  run_results bus_step ops b = run_results table_step ops x.
Proof.
  intros Ho. revert b x. induction Ho as [|o ops Ho _ IH]; [done|]. intros b x Hb. cbn.
  destruct (bus_step_refines o b x Ho Hb) as [E Hb'].
  destruct (bus_step o b) as [y b'], (table_step o x) as [y' x']. cbn in *. subst. f_equal. by apply IH.
Qed.

(** The buses an application can build. *)
Inductive built : t -> Prop :=
| built_empty : built empty
| built_bind r h b : route_ok r -> built b -> built (bind r h b).2
| built_unbind r b : route_ok r -> built b -> built (unbind r b).2.

Lemma built_refines b : built b -> exists x, bus_refines b x.
Proof.
  induction 1 as [|r h b Hr _ (x & Hx)|r b Hr _ (x & Hx)]; [by eexists; apply empty_refines|..].
  - destruct (bus_step_refines (BusBind r h) b x Hr Hx) as [_ H]. cbn in H. destruct (bind r h b). by eexists.
  - destruct (bus_step_refines (BusUnbind r) b x Hr Hx) as [_ H]. cbn in H. destruct (unbind r b). by eexists.
Qed.
