(* ===== verification/RpcSession.v ===== *)
(** RPC sessions and their transports: [libs/rpc/src/session.cpp], [transport.cpp],
    [client.cpp] and [include/yuan/rpc/in_process_channel.h].

    The world is two endpoints, each a session with its transport; a loopback transport
    hands a frame to the other endpoint's session before it returns, so sending is a
    call into the peer. A computation returns, is left by an exception (which keeps the
    changes made so far), or is stuck: an access outside a buffer, or more nested
    deliveries than [depth]. A response handler is a token whose calls are recorded in
    the trace; what an application does in a handler is a later step. *)
From S2P Require Import Prelude RpcTypes RpcWire RpcRegistry.
Import RpcTypes RpcWire.

(** * Endpoints *)
Record TransportStats : Type := mkStats {
  frames_sent : Z;
  frames_received : Z;
  bytes_sent : Z;
  bytes_received : Z;
  decode_errors : Z;
  send_errors : Z
}.
Definition no_stats : TransportStats := mkStats 0 0 0 0 0 0.
Definition count_sent (n : Z) (x : TransportStats) : TransportStats :=
  mkStats (u64 (frames_sent x + 1)) (frames_received x) (u64 (bytes_sent x + n)) (bytes_received x) (decode_errors x)
    (send_errors x).
Definition count_received (n : Z) (x : TransportStats) : TransportStats :=
  mkStats (frames_sent x) (u64 (frames_received x + 1)) (bytes_sent x) (u64 (bytes_received x + n)) (decode_errors x)
    (send_errors x).
Definition count_decode_error (x : TransportStats) : TransportStats :=
  mkStats (frames_sent x) (frames_received x) (bytes_sent x) (bytes_received x) (u64 (decode_errors x + 1))
    (send_errors x).
Definition count_send_error (x : TransportStats) : TransportStats :=
  mkStats (frames_sent x) (frames_received x) (bytes_sent x) (bytes_received x) (decode_errors x)
    (u64 (send_errors x + 1)).

(** [transport_]: none, a [LoopbackTransport] (connected to the peer's or not), or a
    [BlackholeTransport]. *)
Inductive transport : Type := NoTransport | Loopback (connected : bool) | Blackhole.

(** A session and its transport; [ep_receiving] says that [start] has installed the
    receive callback. *)
Record Endpoint : Type := mkEndpoint {
  ep_transport : transport;
  ep_open : bool;
  ep_receiving : bool;
  ep_server : option Server.t;
  ep_encrypt : option Cipher;
  ep_decode : DecodeOptions;
  ep_buffer : bytes;
  ep_pending : PendingCallRegistry.t;
  ep_stats : TransportStats
}.
Definition with_open (x : bool) (e : Endpoint) : Endpoint :=
  mkEndpoint (ep_transport e) x (ep_receiving e) (ep_server e) (ep_encrypt e) (ep_decode e) (ep_buffer e)
    (ep_pending e) (ep_stats e).
Definition with_receiving (x : bool) (e : Endpoint) : Endpoint :=
  mkEndpoint (ep_transport e) (ep_open e) x (ep_server e) (ep_encrypt e) (ep_decode e) (ep_buffer e)
    (ep_pending e) (ep_stats e).
Definition with_server (x : option Server.t) (e : Endpoint) : Endpoint :=
  mkEndpoint (ep_transport e) (ep_open e) (ep_receiving e) x (ep_encrypt e) (ep_decode e) (ep_buffer e)
    (ep_pending e) (ep_stats e).
Definition with_buffer (x : bytes) (e : Endpoint) : Endpoint :=
  mkEndpoint (ep_transport e) (ep_open e) (ep_receiving e) (ep_server e) (ep_encrypt e) (ep_decode e) x
    (ep_pending e) (ep_stats e).
Definition with_pending (x : PendingCallRegistry.t) (e : Endpoint) : Endpoint :=
  mkEndpoint (ep_transport e) (ep_open e) (ep_receiving e) (ep_server e) (ep_encrypt e) (ep_decode e) (ep_buffer e)
    x (ep_stats e).
Definition with_stats (f : TransportStats -> TransportStats) (e : Endpoint) : Endpoint :=
  mkEndpoint (ep_transport e) (ep_open e) (ep_receiving e) (ep_server e) (ep_encrypt e) (ep_decode e) (ep_buffer e)
    (ep_pending e) (f (ep_stats e)).

(** [RpcSession(transport, server, encode_options, decode_options)] *)
Definition create_session (t : transport) (server : option Server.t) (encrypt : option Cipher) (decode : DecodeOptions)
  : Endpoint := mkEndpoint t true false server encrypt decode [] PendingCallRegistry.empty no_stats.

(** * The world *)
Inductive side : Type := Near | Far.
Definition other (s : side) : side := match s with Near => Far | Far => Near end.
#[export] Instance side_eq_dec : EqDecision side.
Proof. solve_decision. Defined.

(** A call of a response handler, and a message given to an endpoint's server. *)
Inductive rpc_event : Type :=
| Called (s : side) (handler : Z) (response : Response)
| Handled (s : side) (message : Message).

Record RpcWorld : Type := mkRpc { near : Endpoint; far : Endpoint; w_now : Z; w_trace : list rpc_event }.

Definition endpoint_of (s : side) (w : RpcWorld) : Endpoint := match s with Near => near w | Far => far w end.
Definition put_endpoint (s : side) (e : Endpoint) (w : RpcWorld) : RpcWorld :=
  match s with
  | Near => mkRpc e (far w) (w_now w) (w_trace w)
  | Far => mkRpc (near w) e (w_now w) (w_trace w)
  end.

Inductive exit (A : Type) : Type := Ret (a : A) | Throws (e : thrown) | Stuck.
Arguments Ret {A} a.
Arguments Throws {A} e.
Arguments Stuck {A}.

Definition R (A : Type) : Type := RpcWorld -> exit A * RpcWorld.
#[export] Instance R_ret : MRet R := fun A a w => (Ret a, w).
#[export] Instance R_bind : MBind R :=
  fun A B f m w => match m w with
                   | (Ret a, w) => f a w
                   | (Throws e, w) => (Throws e, w)
                   | (Stuck, w) => (Stuck, w)
                   end.

Definition r_get (s : side) : R Endpoint := fun w => (Ret (endpoint_of s w), w).
Definition r_modify (s : side) (f : Endpoint -> Endpoint) : R unit :=
  fun w => (Ret tt, put_endpoint s (f (endpoint_of s w)) w).
Definition r_now : R Z := fun w => (Ret (w_now w), w).
Definition r_emit (e : rpc_event) : R unit := fun w => (Ret tt, mkRpc (near w) (far w) (w_now w) (w_trace w ++ [e])).
Definition r_stuck {A} : R A := fun w => (Stuck, w).
Definition r_throw {A} (e : thrown) : R A := fun w => (Throws e, w).
Definition r_lift {A} (o : outcome A) : R A := fun w => match o with Ok a => (Ret a, w) | _ => (Stuck, w) end.
Definition r_call (s : side) (call : option handler_call) : R unit :=
  match call with Some (handler, response) => r_emit (Called s handler response) | None => mret tt end.
Definition r_calls (s : side) (calls : list handler_call) : R unit :=
  fun w => (Ret tt, mkRpc (near w) (far w) (w_now w) (w_trace w ++ map (fun c => Called s c.1 c.2) calls)).

Module RpcSession.

(** [transport_ && transport_->is_open()] *)
Definition is_open (e : Endpoint) : bool :=
  match ep_transport e with NoTransport => false | _ => ep_open e end.

Section Session.
Variable send_frame : side -> bytes -> R bool.

Definition complete (s : side) (response : Response) : R unit :=
  e ← r_get s;
  let '(call, pending) := PendingCallRegistry.complete response (ep_pending e) in
  _ ← r_modify s (with_pending pending);
  r_call s call.

(** The response to a request, before it is encoded. *)
Definition reply_to (message : Message) (response : Response) : Response :=
  let response := set_continuation_id (m_coroutine_id message) (set_request_id (m_request_id message) response) in
  set_formats (if r_serialization response =? ser_raw then m_serialization message else r_serialization response)
    (if r_compression response =? comp_none then m_compression message else r_compression response) response.

Definition handle_frame (s : side) (f : DecodedFrame) : R unit :=
  if h_kind (f_header f) =? kind_response then complete s (to_response f)
  else
    e ← r_get s;
    match ep_server e with
    | None => mret tt
    | Some server =>
        let message := to_message f in
        _ ← r_emit (Handled s message);
        match Server.handle message server with
        | inr e => r_throw e
        | inl response =>
            if m_kind message =? kind_push then mret tt
            else
              let response := reply_to message response in
              sent ← (match encode_response (ep_encrypt e) response with
                      | None => mret None
                      | Some out =>
                          if is_open e then ok ← send_frame s out; mret (if (ok : bool) then Some out else None)
                          else mret None
                      end : R (option bytes));
              r_modify s (with_stats (match sent with
                                      | Some out => count_sent (zlen out)
                                      | None => count_send_error
                                      end))
        end
    end.

(** [for (;;)] over the buffered frames. *)
Fixpoint receive_loop (fuel : nat) (s : side) : R unit :=
  match fuel with
  | O => r_stuck
  | S fuel =>
      e ← r_get s;
      '(result, buffer_) ← r_lift (next (ep_decode e) (ep_buffer e));
      _ ← r_modify s (with_buffer buffer_);
      match result with
      | Decoded consumed f =>
          _ ← r_modify s (with_stats (count_received consumed));
          _ ← handle_frame s f;
          receive_loop fuel s
      | Failed need_more => mret tt
      | Failed _ =>
          _ ← r_modify s (with_stats count_decode_error);
          r_modify s (with_buffer (clear buffer_))
      end
  end.

Definition receive_bytes (s : side) (data : bytes) : R unit :=
  e ← r_get s;
  let buffer_ := append data (ep_buffer e) in
  _ ← r_modify s (with_buffer buffer_);
  receive_loop (S (length buffer_)) s.

(** The message [send] encodes. *)
Definition outgoing (id : Z) (options : CallOptions) (m : Message) : Message :=
  let plain := m_encryption m =? enc_none in
  mkMessage kind_request id (if m_coroutine_id m =? 0 then o_coroutine_id options else m_coroutine_id m)
    (m_connection_id m) (m_session_id m) (m_peer_service_id m) (m_auth_token m) (m_route m) (m_source m) (m_target m)
    (if m_serialization m =? ser_raw then o_serialization options else m_serialization m)
    (if m_compression m =? comp_none then o_compression options else m_compression m)
    (if plain then o_encryption options else m_encryption m) (if plain then o_key_id options else m_key_id m)
    (if plain then o_nonce options else m_nonce m) (m_flags m) (m_metadata m) (m_payload m).

(** [encode_message(...) && transport_->send_frame(frame)]: the frame that was sent. *)
Definition send_message (s : side) (message : Message) : R (option bytes) :=
  e ← r_get s;
  match encode_message (ep_encrypt e) message with
  | None => mret None
  | Some frame => ok ← send_frame s frame; mret (if (ok : bool) then Some frame else None)
  end.

Definition send (s : side) (message : Message) (on_response : option Z) (options : CallOptions) : R bool :=
  e ← r_get s;
  if negb (is_open e) then mret false
  else
    now ← r_now;
    let '(id, pending) := PendingCallRegistry.create now on_response (o_timeout options) (o_metadata options)
                            (o_coroutine_id options) (ep_pending e) in
    _ ← r_modify s (with_pending pending);
    if id =? 0 then mret false
    else
      sent ← send_message s (outgoing id options message);
      match sent with
      | None =>
          e ← r_get s;
          let '(call, pending) := PendingCallRegistry.cancel id (str "send failed") (ep_pending e) in
          _ ← r_modify s (with_pending pending);
          _ ← r_call s call;
          _ ← r_modify s (with_stats count_send_error);
          mret false
      | Some frame => _ ← r_modify s (with_stats (count_sent (zlen frame))); mret true
      end.

(** [message.kind = MessageKind::push] *)
Definition as_push (m : Message) : Message :=
  mkMessage kind_push (m_request_id m) (m_coroutine_id m) (m_connection_id m) (m_session_id m) (m_peer_service_id m)
    (m_auth_token m) (m_route m) (m_source m) (m_target m) (m_serialization m) (m_compression m) (m_encryption m)
    (m_key_id m) (m_nonce m) (m_flags m) (m_metadata m) (m_payload m).

Definition push (s : side) (message : Message) : R bool :=
  e ← r_get s;
  if negb (is_open e) then mret false
  else
    sent ← send_message s (as_push message);
    match sent with
    | None => _ ← r_modify s (with_stats count_send_error); mret false
    | Some frame => _ ← r_modify s (with_stats (count_sent (zlen frame))); mret true
    end.
End Session.

(** [start], [set_server] *)
Definition start (s : side) : R unit :=
  r_modify s (fun e => match ep_transport e with NoTransport => e | _ => with_receiving true e end).
Definition set_server (s : side) (server : option Server.t) : R unit := r_modify s (with_server server).

(** [cancel_pending], the close callback: it does nothing. *)
Definition cancel_pending (s : side) (error : bytes) : R unit := mret tt.

Definition poll_timeouts (order : gmap Z PendingCallRegistry.PendingCall -> list (Z * PendingCallRegistry.PendingCall))
    (s : side) : R unit :=
  e ← r_get s; now ← r_now;
  let '(calls, pending) := PendingCallRegistry.expire order now (ep_pending e) in
  _ ← r_modify s (with_pending pending);
  r_calls s calls.

Definition pending_size (e : Endpoint) : Z := PendingCallRegistry.size (ep_pending e).
End RpcSession.

Module Transport.

(** [send_frame] of the endpoint's transport. A frame delivered to the peer is handled
    there, and may send one back, before the call returns. *)
Fixpoint send_frame (depth : nat) (s : side) (frame : bytes) : R bool :=
  match depth with
  | O => r_stuck
  | S depth =>
      e ← r_get s; peer ← r_get (other s);
      match ep_transport e with
      | NoTransport => r_stuck
      | Blackhole => mret (ep_open e)
      | Loopback connected =>
          if negb (ep_open e) || negb connected || negb (ep_open peer) then mret false
          else
            _ ← (if ep_receiving peer then RpcSession.receive_bytes (send_frame depth) (other s) frame else mret tt);
            mret true
      end
  end.

(** A request is delivered, and its response; a response is answered by nothing. *)
Definition depth : nat := 2.

Definition connect (s : side) : R unit :=
  r_modify s (fun e => match ep_transport e with
                       | Loopback _ => mkEndpoint (Loopback true) (ep_open e) (ep_receiving e) (ep_server e)
                           (ep_encrypt e) (ep_decode e) (ep_buffer e) (ep_pending e) (ep_stats e)
                       | _ => e
                       end).

Definition close (s : side) : R unit :=
  e ← r_get s;
  if negb (ep_open e) then mret tt
  else
    _ ← r_modify s (with_open false);
    if ep_receiving e then RpcSession.cancel_pending s (str "transport closed") else mret tt.
End Transport.

(** * The client *)
Module Client.
(** [Client::call] and [Client::push] over a session. *)
Definition call_message (r : Route) (payload : bytes) (options : CallOptions) : Message :=
  mkMessage kind_request 0 (o_coroutine_id options) 0 0 0 0 r no_peer no_peer (o_serialization options)
    (o_compression options) (o_encryption options) (o_key_id options) (o_nonce options) 0 (o_metadata options) payload.
Definition push_message (r : Route) (payload : bytes) (metadata : Metadata) : Message :=
  mkMessage kind_push 0 0 0 0 0 0 r no_peer no_peer ser_raw comp_none enc_none 0 0 0 metadata payload.

Definition call (s : side) (r : Route) (payload : bytes) (on_response : option Z) (options : CallOptions) : R bool :=
  RpcSession.send (Transport.send_frame Transport.depth) s (call_message r payload options) on_response options.
Definition push (s : side) (r : Route) (payload : bytes) (metadata : Metadata) : R bool :=
  RpcSession.push (Transport.send_frame Transport.depth) s (push_message r payload metadata).
End Client.

(** * The channel inside one process *)
Module InProcessChannel.
(** The handler calls and the result of [send]; a dispatcher's exception leaves the call
    pending. *)
Definition send (now : Z) (server : Server.t) (message : Message) (on_response : option Z) (options : CallOptions)
    (pending : PendingCallRegistry.t) : (bool + thrown) * option handler_call * PendingCallRegistry.t :=
  let '(id, pending) := PendingCallRegistry.create now on_response (o_timeout options) (o_metadata options)
                          (o_coroutine_id options) pending in
  if id =? 0 then (inl false, None, pending)
  else
    let message := mkMessage (m_kind message) id (m_coroutine_id message) (m_connection_id message)
      (m_session_id message) (m_peer_service_id message) (m_auth_token message) (m_route message) (m_source message)
      (m_target message) (m_serialization message) (m_compression message) (m_encryption message) (m_key_id message)
      (m_nonce message) (m_flags message) (m_metadata message) (m_payload message) in
    match Server.handle message server with
    | inr e => (inr e, None, pending)
    | inl response =>
        let response := set_continuation_id (m_coroutine_id message) (set_request_id id response) in
        let '(call, pending) := PendingCallRegistry.complete response pending in
        (inl (match call with Some _ => true | None => false end), call, pending)
    end.
Definition push (server : Server.t) (message : Message) : bool + thrown :=
  match Server.handle (RpcSession.as_push message) server with inr e => inr e | inl _ => inl true end.
Definition poll_timeouts (order : gmap Z PendingCallRegistry.PendingCall -> list (Z * PendingCallRegistry.PendingCall))
    (now : Z) (pending : PendingCallRegistry.t) : list handler_call * PendingCallRegistry.t :=
  PendingCallRegistry.expire order now pending.
End InProcessChannel.
