(* ===== verification/RpcSessionFacts.v ===== *)
(** Two RPC sessions at rest: the invariant of the loopback system, and that its
    operations end and keep it. *)
From S2P Require Import Prelude Endian RpcTypes RpcWire RpcWireFacts RpcRegistry RpcRegistryFacts RpcSession.
Import RpcTypes RpcWire RpcSession.

(** * Running a computation *)
(** The computation is not stuck, and what it ends with satisfies [Q]. *)
Definition rrun {A} (m : R A) (w : RpcWorld) (Q : exit A -> RpcWorld -> Prop) : Prop :=
  match m w with (Stuck, _) => False | (x, w') => Q x w' end.

Lemma rrun_bind {A B} (m : R A) (f : A -> R B) w Q :
  rrun m w (fun x w1 => match x with Ret a => rrun (f a) w1 Q | Throws e => Q (Throws e) w1 | Stuck => False end) ->
  rrun (m ≫= f) w Q.
Proof. unfold rrun, mbind, R_bind. by destruct (m w) as [[a|e|] w1]. Qed.

Lemma rrun_conseq {A} (m : R A) w (P Q : exit A -> RpcWorld -> Prop) :
  rrun m w P -> (forall x w', x <> Stuck -> P x w' -> Q x w') -> rrun m w Q.
Proof. unfold rrun. intros. destruct (m w) as [[a|e|] w1]; auto; by apply H0. Qed.

Lemma rrun_ret {A} (a : A) w (Q : exit A -> RpcWorld -> Prop) : Q (Ret a) w -> rrun (mret a) w Q.
Proof. done. Qed.
Lemma rrun_get s w Q : Q (Ret (endpoint_of s w)) w -> rrun (r_get s) w Q.
Proof. done. Qed.
Lemma rrun_modify s f w Q : Q (Ret tt) (put_endpoint s (f (endpoint_of s w)) w) -> rrun (r_modify s f) w Q.
Proof. done. Qed.

(** * Well-formed frames and messages *)
Definition message_ok (m : Message) : Prop := header_ok (message_header m).
Definition response_ok (r : Response) : Prop := header_ok (response_header r).
Definition server_ok (server : Server.t) : Prop :=
  forall m r, message_ok m -> Server.handle m server = inl r -> response_ok r.

Lemma to_message_ok f : header_ok (f_header f) -> message_ok (to_message f).
Proof. intros []. by constructor. Qed.
Definition options_ok (o : CallOptions) : Prop :=
  is_u64 (o_coroutine_id o) /\ is_u8 (o_serialization o) /\ is_u8 (o_compression o) /\ is_u8 (o_encryption o)
  /\ is_u32 (o_key_id o) /\ is_u64 (o_nonce o).

(** The bytes of a frame with header [h]. *)
Definition whole (h : FrameHeader) (b : bytes) : Prop :=
  exists enc body, b = header_bytes h enc (h_payload_size h) (zlen body) ++ body /\ header_ok h /\ is_u16 enc
    /\ h_encryption h = u8 enc /\ is_u32 (zlen body).

Lemma encode_frame_whole encrypt h md name error payload b : header_ok h ->
  encode_frame encrypt h md name error payload = Some b -> exists n, whole (set_payload_size n h) b.
Proof.
  intros Hh. rewrite encode_frame_eq by done. destruct (frame_body encrypt h payload) as [body|] eqn:E; [|done].
  intros [= <-]. pose proof (frame_body_len _ _ _ _ E) as Hn. exists (zlen body), (h_encryption h), body.
  pose proof (ho_encryption _ Hh) as He. unfold is_u8 in He. split; [done|].
  split; [destruct Hh; by constructor|]. split; [unfold is_u16; lia|]. split; [by rewrite u8_id|done].
Qed.

Lemma decode_whole options h b : whole h b ->
  decode_frame options b (zlen b) = Ok (Failed frame_too_large)
  \/ decode_frame options b (zlen b) = Ok (Failed malformed)
  \/ exists payload, decode_frame options b (zlen b) = Ok (Decoded (zlen b) (mkFrame h payload)).
Proof.
  intros (enc & body & -> & Hh & He & Henc & Hn).
  assert (Hf : field_at (header_bytes h enc (h_payload_size h) (zlen body) ++ body) 0
    (header_bytes h enc (h_payload_size h) (zlen body) ++ body)) by (exists [], []; by rewrite app_nil_r).
  apply field_at_split in Hf as [Hf Hb]. rewrite zlen_header in Hb. pose proof (zlen_nonneg body).
  erewrite (decode_raw _ _ _ magic version h enc (zlen body));
    [|done|done|done|done|done|done|exact Hf|unfold header_size; rewrite zlen_app, zlen_header; lia].
  rewrite !Z.eqb_refl. cbn [negb]. unfold decode_header, header_size. rewrite zlen_app, zlen_header.
  case_if; [by left|]. case_if; [lia|]. rewrite (field_at_rd_range _ 84 body) by done. mstep.
  destruct (open_body _ h body) as [payload|]; [right; right; by exists payload|right; by left].
Qed.

Lemma whole_header h b : whole h b -> header_ok h.
Proof. by intros (enc & body & _ & Hh & _). Qed.

(** * The invariant *)
Definition answered_of (log : list log_entry) : list handler_call :=
  omap (fun e => match e with Answered h r => Some (h, r) | _ => None end) log.
Definition calls_of (s : side) (trace : list rpc_event) : list handler_call :=
  omap (fun e => match e with Called s' h r => if decide (s' = s) then Some (h, r) else None | _ => None end) trace.

Lemma answered_of_app l1 l2 : answered_of (l1 ++ l2) = answered_of l1 ++ answered_of l2.
Proof. apply omap_app. Qed.
Lemma calls_of_app s l1 l2 : calls_of s (l1 ++ l2) = calls_of s l1 ++ calls_of s l2.
Proof. apply omap_app. Qed.
Lemma answered_of_answers calls : answered_of (answers calls) = calls.
Proof. induction calls as [|[h r] calls IH]; [done|]. cbn. f_equal. exact IH. Qed.
Lemma calls_of_called s calls : calls_of s (map (fun c => Called s c.1 c.2) calls) = calls.
Proof. induction calls as [|[h r] calls IH]; [done|]. cbn. rewrite decide_True by done. f_equal. exact IH. Qed.
Lemma calls_of_other s s' calls : s' <> s -> calls_of s' (map (fun c => Called s c.1 c.2) calls) = [].
Proof. intros. induction calls as [|[h r] calls IH]; [done|]. cbn. rewrite decide_False by done. exact IH. Qed.

(** At rest a session's decoder is empty, its server is typed, and the handler calls it
    has made are the answers of a history of its registry. *)
Record endpoint_ok (e : Endpoint) (calls : list handler_call) : Prop := {
  eo_buffer : ep_buffer e = [];
  eo_server : forall server, ep_server e = Some server -> server_ok server;
  eo_history : exists log, history_ok log (ep_pending e) /\ answered_of log = calls
}.
Definition world_ok (w : RpcWorld) : Prop := forall s, endpoint_ok (endpoint_of s w) (calls_of s (w_trace w)).

(** What a computation leaves: the invariant, and neither counter of ids moved. *)
Definition keeps (w w' : RpcWorld) : Prop :=
  world_ok w' /\ forall s, PendingCallRegistry.next_id_ (ep_pending (endpoint_of s w'))
                           = PendingCallRegistry.next_id_ (ep_pending (endpoint_of s w)).

Lemma keeps_refl w : world_ok w -> keeps w w.
Proof. by split. Qed.
Lemma keeps_trans w1 w2 w3 : keeps w1 w2 -> keeps w2 w3 -> keeps w1 w3.
Proof. intros [_ H1] [H2 H3]. split; [done|]. intros. by rewrite H3, H1. Qed.

Lemma endpoint_put_eq s e w : endpoint_of s (put_endpoint s e w) = e.
Proof. by destruct s. Qed.
Lemma endpoint_put_ne s s' e w : s' <> s -> endpoint_of s' (put_endpoint s e w) = endpoint_of s' w.
Proof. by destruct s, s'. Qed.
Lemma trace_put s e w : w_trace (put_endpoint s e w) = w_trace w.
Proof. by destruct s. Qed.
Lemma put_same s w : put_endpoint s (endpoint_of s w) w = w.
Proof. by destruct s, w. Qed.
Lemma put_put s e e' w : put_endpoint s e (put_endpoint s e' w) = put_endpoint s e w.
Proof. by destruct s. Qed.

(** Changing an endpoint without touching what the invariant speaks of. *)
Lemma put_keeps s e w : world_ok w -> ep_buffer e = [] -> ep_server e = ep_server (endpoint_of s w) ->
  ep_pending e = ep_pending (endpoint_of s w) -> keeps w (put_endpoint s e w).
Proof.
  intros Hw Hb Hs Hp. split.
  - intros s'. rewrite trace_put. destruct (decide (s' = s)) as [->|Hne].
    + rewrite endpoint_put_eq. destruct (Hw s) as [_ Hsrv Hh]. constructor; [done|by rewrite Hs|by rewrite Hp].
    + by rewrite endpoint_put_ne.
  - intros s'. destruct (decide (s' = s)) as [->|Hne]; [by rewrite endpoint_put_eq, Hp|by rewrite endpoint_put_ne].
Qed.

(** A step of a session's registry whose answers are called. *)
Lemma registry_keeps s w calls pending o order :
  (forall m, order m ≡ₚ map_to_list m) -> world_ok w -> is_create o = false ->
  reg_step order o (ep_pending (endpoint_of s w)) = (answers calls, pending) ->
  keeps w (mkRpc (near (put_endpoint s (with_pending pending (endpoint_of s w)) w))
                 (far (put_endpoint s (with_pending pending (endpoint_of s w)) w)) (w_now w)
                 (w_trace w ++ map (fun c => Called s c.1 c.2) calls)).
Proof.
  intros Ho Hw Hc Hstep.
  assert (Hep : forall s' tr, endpoint_of s' (mkRpc (near (put_endpoint s (with_pending pending (endpoint_of s w)) w))
                 (far (put_endpoint s (with_pending pending (endpoint_of s w)) w)) (w_now w) tr)
    = if decide (s' = s) then with_pending pending (endpoint_of s w) else endpoint_of s' w) by (by destruct s, s').
  destruct (Hw s) as [Hb Hsrv (log & Hlog & Hans)].
  destruct (history_step order Ho log o _ Hlog) as [Hlog' Hnext]; [congruence|].
  rewrite Hstep in Hlog', Hnext. cbn [fst snd] in *. rewrite Hc, Z.add_0_r in Hnext.
  split; intros s'; rewrite Hep; destruct (decide (s' = s)) as [->|Hne]; cbn [w_trace]; try done.
  - rewrite calls_of_app, calls_of_called. constructor; [done|done|].
    exists (log ++ answers calls). split; [done|]. by rewrite answered_of_app, answered_of_answers, Hans.
  - rewrite calls_of_app, calls_of_other, app_nil_r by done. apply Hw.
Qed.

(** * Receiving *)
Section Receive.
Variable send_frame : side -> bytes -> R bool.

Lemma loop_empty n s w : ep_buffer (endpoint_of s w) = [] -> receive_loop send_frame (S n) s w = (Ret tt, w).
Proof.
  intros Hb. cbn [receive_loop]. unfold r_get, r_lift, r_modify, mbind, R_bind. rewrite Hb, next_empty.
  cbn. assert (with_buffer [] (endpoint_of s w) = endpoint_of s w) as ->; [|by rewrite put_same].
  unfold with_buffer. rewrite <- Hb. by destruct (endpoint_of s w).
Qed.

(** The endpoint that has counted a received frame. *)
Definition counted (s : side) (n : Z) (w : RpcWorld) : RpcWorld :=
  put_endpoint s (with_stats (count_received n) (endpoint_of s w)) w.

Lemma counted_keeps s n w : world_ok w -> keeps w (counted s n w).
Proof. intros Hw. apply put_keeps; [done|..]; apply Hw || done. Qed.

(** A frame that arrives at rest is handled, or refused and dropped. *)
Lemma receive_whole s h b w Q : world_ok w -> whole h b ->
  (forall payload, rrun (handle_frame send_frame s (mkFrame h payload)) (counted s (zlen b) w)
     (fun x w' => match x with Ret _ => ep_buffer (endpoint_of s w') = [] /\ Q (Ret tt) w' | _ => Q x w' end)) ->
  (forall w', keeps w w' -> Q (Ret tt) w') ->
  rrun (receive_bytes send_frame s b) w Q.
Proof.
  intros Hw Hb Hh Hq. unfold receive_bytes. apply rrun_bind, rrun_get, rrun_bind, rrun_modify.
  rewrite (eo_buffer _ _ (Hw s)). unfold append. cbn [app].
  assert (Hne : (84 <= length b)%nat).
  { destruct Hb as (enc & body & -> & _). pose proof (zlen_header h enc (h_payload_size h) (zlen body)) as Hz.
    unfold zlen in Hz at 1. rewrite length_app. lia. }
  set (e := endpoint_of s w). set (w1 := put_endpoint s (with_buffer b e) w).
  assert (Hw1 : endpoint_of s w1 = with_buffer b e) by apply endpoint_put_eq.
  cbn [receive_loop]. apply rrun_bind, rrun_get. rewrite Hw1. cbn [ep_buffer ep_decode with_buffer].
  assert (Hpe : with_buffer [] e = e).
  { unfold with_buffer. rewrite <- (eo_buffer _ _ (Hw s)). subst e. by destruct (endpoint_of s w). }
  assert (Hbb : forall x, with_buffer x (with_buffer b e) = with_buffer x e) by done.
  destruct (decode_whole (ep_decode e) h b Hb) as [E|[E|[payload E]]].
  1, 2: apply rrun_bind; unfold next, r_lift, rrun at 1; rewrite E; cbn [mbind outcome_bind];
    apply rrun_bind, rrun_modify; rewrite Hw1, Hbb; apply rrun_bind, rrun_modify, rrun_modify;
    unfold w1; rewrite !put_put, !endpoint_put_eq; apply Hq; apply put_keeps; try done.
  apply rrun_bind. unfold next, r_lift, rrun at 1. rewrite E. cbn [mbind outcome_bind].
  replace (zlen b <=? zlen b) with true by lia.
  apply rrun_bind, rrun_modify. rewrite Hw1, Hbb, Hpe. unfold w1. rewrite put_put. subst e. rewrite put_same.
  apply rrun_bind, rrun_modify. fold (counted s (zlen b) w). apply rrun_bind.
  eapply rrun_conseq; [apply Hh|]. intros [[]|ex|] w' Hns Hx; [|done|done]. destruct Hx as [Hbuf Hx].
  unfold rrun. destruct b as [|c b]; [simpl in Hne; lia|]. cbn [length]. by rewrite loop_empty.
Qed.

(** A response completes a call, or is ignored. *)
Lemma complete_keeps s resp w : world_ok w ->
  rrun (complete s resp) w (fun x w' => x = Ret tt /\ keeps w w').
Proof.
  intros Hw. unfold complete. apply rrun_bind, rrun_get.
  destruct (PendingCallRegistry.complete resp (ep_pending (endpoint_of s w))) as [call pending] eqn:E.
  apply rrun_bind, rrun_modify.
  pose proof (registry_keeps s w (option_list call) pending (OpComplete resp) map_to_list) as Hk.
  cbn [reg_step] in Hk. rewrite E in Hk. specialize (Hk ltac:(done) Hw eq_refl eq_refl).
  destruct call as [[h r]|]; cbn [r_call]; unfold r_emit, rrun; (split; [done|]).
  - destruct s; exact Hk.
  - cbn [option_list map] in Hk. rewrite app_nil_r in Hk. destruct s; exact Hk.
Qed.

Lemma receive_response s h b w : world_ok w -> whole h b -> h_kind h = kind_response ->
  rrun (receive_bytes send_frame s b) w (fun x w' => x = Ret tt /\ keeps w w').
Proof.
  intros Hw Hb Hk. eapply receive_whole; [done|done| |done]. intros payload.
  pose proof (counted_keeps s (zlen b) w Hw) as Hc. unfold handle_frame. cbn [f_header]. rewrite Hk. cbn [Z.eqb kind_response Pos.eqb].
  eapply rrun_conseq; [apply complete_keeps; apply Hc|]. intros x w' _ [-> Hk'].
  split; [apply Hk'|]. split; [done|]. eapply keeps_trans; eassumption.
Qed.

(** Handling a request or a push, when sending a response frame keeps the invariant. *)
Lemma handle_keeps s f w : world_ok w -> header_ok (f_header f) ->
  (forall h b w1, world_ok w1 -> whole h b -> h_kind h = kind_response -> is_open (endpoint_of s w1) = true ->
     rrun (send_frame s b) w1 (fun x w' => (exists ok, x = Ret ok) /\ keeps w1 w')) ->
  rrun (handle_frame send_frame s f) w (fun x w' => keeps w w').
Proof.
  intros Hw Hh Hsend. unfold handle_frame. case_if.
  { eapply rrun_conseq; [by apply complete_keeps|]. by intros ??? [_ ?]. }
  apply rrun_bind, rrun_get. destruct (ep_server (endpoint_of s w)) as [server|] eqn:Es; [|by apply keeps_refl].
  apply rrun_bind. set (w1 := mkRpc (near w) (far w) (w_now w) (w_trace w ++ [Handled s (to_message f)])).
  change (rrun (match Server.handle (to_message f) server with
    | inr e => r_throw e
    | inl response =>
        if m_kind (to_message f) =? kind_push then mret tt
        else
          let response := reply_to (to_message f) response in
          sent ← (match encode_response (ep_encrypt (endpoint_of s w)) response with
                  | None => mret None
                  | Some out =>
                      if is_open (endpoint_of s w) then ok ← send_frame s out; mret (if (ok : bool) then Some out else None)
                      else mret None
                  end : R (option bytes));
          r_modify s (with_stats (match sent with
                                  | Some out => count_sent (zlen out)
                                  | None => count_send_error
                                  end))
    end) w1 (fun _ w' => keeps w w')).
  assert (Hk1 : keeps w w1).
  { split; [|by intros []]. intros s'. assert (calls_of s' (w_trace w1) = calls_of s' (w_trace w)) as ->.
    { unfold w1. cbn [w_trace]. rewrite calls_of_app. apply app_nil_r. }
    specialize (Hw s'). by destruct s'. }
  assert (Hep : endpoint_of s w1 = endpoint_of s w) by by destruct s.
  destruct (Server.handle (to_message f) server) as [response|e] eqn:Ehd; [|exact Hk1].
  case_if; [exact Hk1|]. cbv zeta.
  assert (Hmod : forall w2 g, keeps w w2 -> rrun (r_modify s (with_stats g)) w2 (fun _ w' => keeps w w')).
  { intros w2 g Hk2. apply rrun_modify. eapply keeps_trans; [exact Hk2|]. apply put_keeps; [apply Hk2| |done|done].
    exact (eo_buffer _ _ (proj1 Hk2 s)). }
  destruct (encode_response _ _) as [out|] eqn:Eo; [|apply rrun_bind, rrun_ret; by apply Hmod].
  destruct (is_open (endpoint_of s w)) eqn:Eop; [|apply rrun_bind, rrun_ret; by apply Hmod].
  assert (Hr : response_ok (reply_to (to_message f) response)).
  { apply (eo_server _ _ (Hw s) _ Es) in Ehd as []; [|by apply to_message_ok]. destruct Hh.
    constructor; cbn in *; try done; by case_if. }
  unfold encode_response in Eo. destruct (encode_frame_whole _ _ _ _ _ _ _ Hr Eo) as [n Hwh].
  rewrite <- Hep in Eop. pose proof (Hsend _ _ w1 (proj1 Hk1) Hwh eq_refl Eop) as Hs.
  apply rrun_bind, rrun_bind. eapply rrun_conseq; [exact Hs|].
  intros x w2 _ [[ok ->] Hk2]. apply rrun_ret. apply Hmod. exact (keeps_trans w w1 w2 Hk1 Hk2).
Qed.
End Receive.

(** * The loopback transport *)
Abbreviation transport_send := Transport.send_frame (only parsing).

(** A response frame reaches the peer's registry, whatever the depth. *)
Lemma send_response n s h b w : world_ok w -> whole h b -> h_kind h = kind_response ->
  is_open (endpoint_of s w) = true ->
  rrun (transport_send (S n) s b) w (fun x w' => (exists ok, x = Ret ok) /\ keeps w w').
Proof.
  intros Hw Hb Hk Ho. cbn [Transport.send_frame]. apply rrun_bind, rrun_get, rrun_bind, rrun_get.
  unfold is_open in Ho. destruct (ep_transport (endpoint_of s w)) as [|c|] eqn:Et; [done| |].
  - case_if; [apply rrun_ret; split; [eauto|by apply keeps_refl]|].
    apply rrun_bind. destruct (ep_receiving (endpoint_of (other s) w)).
    + eapply rrun_conseq; [by apply (receive_response _ _ h)|]. intros x w' _ [-> Hk']. apply rrun_ret. eauto.
    + apply rrun_ret, rrun_ret. split; [eauto|by apply keeps_refl].
  - apply rrun_ret. split; [eauto|by apply keeps_refl].
Qed.

(** Any whole frame is delivered, and its response sent back, within [depth]. *)
Lemma send_whole n s h b w : world_ok w -> whole h b -> is_open (endpoint_of s w) = true ->
  rrun (transport_send (S (S n)) s b) w (fun x w' => keeps w w').
Proof.
  intros Hw Hb Ho. cbn [Transport.send_frame]. apply rrun_bind, rrun_get, rrun_bind, rrun_get.
  unfold is_open in Ho. destruct (ep_transport (endpoint_of s w)) as [|c|] eqn:Et; [done| |by apply rrun_ret, keeps_refl].
  case_if; [by apply rrun_ret, keeps_refl|].
  apply rrun_bind. destruct (ep_receiving (endpoint_of (other s) w)); [|by apply rrun_ret, rrun_ret, keeps_refl].
  eapply (receive_whole _ _ h b w (fun x w' => match x with Ret _ => rrun (mret true) w' (fun _ w' => keeps w w') | Throws _ => keeps w w' | Stuck => False end)).
  - done.
  - done.
  - intros payload. pose proof (counted_keeps (other s) (zlen b) w Hw) as Hc.
    eapply rrun_conseq; [apply handle_keeps; [apply Hc|by eapply whole_header|]|].
    + intros h' b' w1 Hw1 Hb' Hk' Ho'. by eapply (send_response n).
    + intros [a|e|] w' Hns Hk'; [|eapply keeps_trans; eassumption|done].
      split; [exact (eo_buffer _ _ (proj1 Hk' _))|]. apply rrun_ret. eapply keeps_trans; eassumption.
  - intros w' Hk'. by apply rrun_ret.
Qed.

Lemma send_message_keeps s m w : world_ok w -> message_ok m -> is_open (endpoint_of s w) = true ->
  rrun (send_message (transport_send Transport.depth) s m) w (fun _ w' => keeps w w').
Proof.
  intros Hw Hm Ho. unfold send_message. apply rrun_bind, rrun_get.
  destruct (encode_message _ m) as [frame|] eqn:E; [|by apply rrun_ret, keeps_refl].
  unfold encode_message in E. destruct (encode_frame_whole _ _ _ _ _ _ _ Hm E) as [n Hwh]. apply rrun_bind.
  eapply rrun_conseq; [by apply (send_whole 0 s _ frame w Hw Hwh)|]. intros [ok|e|] w' Hns Hk; [by apply rrun_ret|done|done].
Qed.

Lemma outgoing_ok id options m : message_ok m -> options_ok options -> is_u64 id -> message_ok (outgoing id options m).
Proof.
  intros [] (? & ? & ? & ? & ? & ?) Hid. constructor; cbn in *; try done; case_if; done.
Qed.

(** * The operations of an application *)
Section Operations.
Variable order : gmap Z PendingCallRegistry.PendingCall -> list (Z * PendingCallRegistry.PendingCall).
Hypothesis Horder : forall m, order m ≡ₚ map_to_list m.

Inductive rpc_op : Type :=
| OpSend (s : side) (message : Message) (on_response : option Z) (options : CallOptions)
| OpPush (s : side) (message : Message)
| OpPoll (s : side)
| OpClose (s : side)
| OpSetServer (s : side) (server : option Server.t)
| OpTick (now : Z).

Definition run_op (o : rpc_op) : R unit :=
  match o with
  | OpSend s message on_response options =>
      _ ← send (transport_send Transport.depth) s message on_response options; mret tt
  | OpPush s message => _ ← push (transport_send Transport.depth) s message; mret tt
  | OpPoll s => poll_timeouts order s
  | OpClose s => Transport.close s
  | OpSetServer s server => set_server s server
  | OpTick now => fun w => (Ret tt, mkRpc (near w) (far w) now (w_trace w))
  end.

(** Arguments are of their C++ types, and the counter of ids does not wrap. *)
Definition op_ok (o : rpc_op) (w : RpcWorld) : Prop :=
  match o with
  | OpSend s m _ options =>
      message_ok m /\ options_ok options
      /\ PendingCallRegistry.next_id_ (ep_pending (endpoint_of s w)) + 1 < 2 ^ 64
  | OpPush _ m => message_ok m
  | OpSetServer _ (Some server) => server_ok server
  | _ => True
  end.

Lemma create_keeps s w now h timeout md co : world_ok w ->
  PendingCallRegistry.next_id_ (ep_pending (endpoint_of s w)) + 1 < 2 ^ 64 ->
  exists pending, PendingCallRegistry.create now (Some h) timeout md co (ep_pending (endpoint_of s w))
    = (PendingCallRegistry.next_id_ (ep_pending (endpoint_of s w)), pending)
  /\ 1 <= PendingCallRegistry.next_id_ (ep_pending (endpoint_of s w)) < 2 ^ 64
  /\ world_ok (put_endpoint s (with_pending pending (endpoint_of s w)) w).
Proof.
  intros Hw Hlt. destruct (Hw s) as [Hb Hsrv (log & Hlog & Hans)].
  pose proof (history_create order log now h timeout md co _ Hlog Hlt) as Hc.
  pose proof (hi_next _ _ Hlog) as Hn.
  assert (Hid : (PendingCallRegistry.create now (Some h) timeout md co (ep_pending (endpoint_of s w))).1
    = PendingCallRegistry.next_id_ (ep_pending (endpoint_of s w))).
  { unfold PendingCallRegistry.create. by rewrite draw_id_ok. }
  cbn [reg_step] in Hc. destruct (PendingCallRegistry.create _ _ _ _ _ _) as [id pending]. cbn [fst] in Hid. subst id.
  destruct Hc as [Hc _]. exists pending. split; [done|]. split; [done|].
  intros s'. rewrite trace_put. destruct (decide (s' = s)) as [->|Hne]; [|by rewrite endpoint_put_ne].
  rewrite endpoint_put_eq. constructor; [done|done|]. eexists. split; [exact Hc|].
  rewrite answered_of_app. cbn. by rewrite app_nil_r.
Qed.

Lemma stats_world s f w : world_ok w -> world_ok (put_endpoint s (with_stats f (endpoint_of s w)) w).
Proof. intros Hw. apply (put_keeps s _ w Hw); [apply Hw|done..]. Qed.

Lemma send_keeps s m h options w : world_ok w -> op_ok (OpSend s m h options) w ->
  rrun (send (transport_send Transport.depth) s m h options) w (fun _ w' => world_ok w').
Proof.
  intros Hw (Hm & Hop & Hlt). unfold send. apply rrun_bind, rrun_get.
  destruct (is_open (endpoint_of s w)) eqn:Ho; cbn [negb]; [|by apply rrun_ret].
  apply rrun_bind. unfold r_now, rrun at 1. destruct h as [h|].
  2:{ cbn [PendingCallRegistry.create]. apply rrun_bind, rrun_modify. change (0 =? 0) with true. cbn iota.
      apply rrun_ret. apply (put_keeps s _ w Hw); [apply Hw|done..]. }
  destruct (create_keeps s w (w_now w) h (o_timeout options) (o_metadata options) (o_coroutine_id options) Hw Hlt)
    as (pending & -> & Hid & Hw1).
  apply rrun_bind, rrun_modify. case_if; [lia|].
  set (w1 := put_endpoint s (with_pending pending (endpoint_of s w)) w) in *.
  apply rrun_bind. eapply rrun_conseq.
  { apply send_message_keeps; [exact Hw1|apply outgoing_ok; [done|done|unfold is_u64; lia]|].
    unfold w1. rewrite endpoint_put_eq. exact Ho. }
  intros [[frame|]|e|] w2 Hns Hk; [| |apply Hk|done].
  - apply rrun_bind, rrun_modify, rrun_ret. apply stats_world, Hk.
  - apply rrun_bind, rrun_get. set (id := PendingCallRegistry.next_id_ _) in *.
    destruct (PendingCallRegistry.cancel id (str "send failed") (ep_pending (endpoint_of s w2))) as [call pend] eqn:E.
    apply rrun_bind, rrun_modify.
    pose proof (registry_keeps s w2 (option_list call) pend (OpCancel id (str "send failed")) map_to_list) as Hr.
    cbn [reg_step] in Hr. rewrite E in Hr. specialize (Hr ltac:(done) (proj1 Hk) eq_refl eq_refl).
    apply rrun_bind. destruct call as [[h' r]|]; cbn [r_call]; unfold r_emit, rrun at 1.
    + apply rrun_bind, rrun_modify, rrun_ret, stats_world. destruct s; apply Hr.
    + cbn [option_list map] in Hr. rewrite app_nil_r in Hr. apply rrun_bind, rrun_modify, rrun_ret, stats_world. destruct s; apply Hr.
Qed.

Lemma push_keeps s m w : world_ok w -> message_ok m ->
  rrun (push (transport_send Transport.depth) s m) w (fun _ w' => world_ok w').
Proof.
  intros Hw Hm. unfold push. apply rrun_bind, rrun_get.
  destruct (is_open (endpoint_of s w)) eqn:Ho; cbn [negb]; [|by apply rrun_ret].
  apply rrun_bind. eapply rrun_conseq; [apply send_message_keeps; [done|by destruct Hm|done]|].
  intros [[frame|]|e|] w2 Hns Hk; [| |apply Hk|done]; apply rrun_bind, rrun_modify, rrun_ret, stats_world, Hk.
Qed.

(** Every operation ends, and leaves the invariant. *)
Lemma run_op_ok o w : world_ok w -> op_ok o w -> rrun (run_op o) w (fun _ w' => world_ok w').
Proof.
  intros Hw Ho. destruct o as [s m h options|s m|s|s|s server|now]; cbn [run_op].
  - apply rrun_bind. eapply rrun_conseq; [by apply send_keeps|]. by intros [|?|] w' Hns ?.
  - apply rrun_bind. eapply rrun_conseq; [by apply push_keeps|]. by intros [|?|] w' Hns ?.
  - unfold poll_timeouts. apply rrun_bind, rrun_get, rrun_bind. unfold r_now, rrun at 1.
    destruct (PendingCallRegistry.expire order (w_now w) (ep_pending (endpoint_of s w))) as [calls pending] eqn:E.
    apply rrun_bind, rrun_modify. unfold r_calls, rrun.
    pose proof (registry_keeps s w calls pending (OpExpire (w_now w)) order Horder Hw eq_refl) as Hr.
    cbn [reg_step] in Hr. rewrite E in Hr. specialize (Hr eq_refl). destruct s; apply Hr.
  - unfold Transport.close. apply rrun_bind, rrun_get. case_if; [by apply rrun_ret|].
    apply rrun_bind, rrun_modify.
    assert (world_ok (put_endpoint s (with_open false (endpoint_of s w)) w)) by (apply (put_keeps s _ w Hw); [apply Hw|done..]).
    case_if; by apply rrun_ret.
  - apply rrun_modify. intros s'. rewrite trace_put. destruct (decide (s' = s)) as [->|Hne]; [|by rewrite endpoint_put_ne].
    rewrite endpoint_put_eq. destruct (Hw s) as [Hb Hsrv Hh]. constructor; [done| |done]. intros srv [= ->]. exact Ho.
  - unfold rrun. intros s. specialize (Hw s). by destruct s.
Qed.

(** One step of the system: an operation and the world it leaves. *)
Definition rpc_step (w w' : RpcWorld) : Prop := exists o x, op_ok o w /\ run_op o w = (x, w').

Lemma rpc_step_ok w w' : world_ok w -> rpc_step w w' -> world_ok w'.
Proof.
  intros Hw (o & x & Ho & E). pose proof (run_op_ok o w Hw Ho) as Hr. unfold rrun in Hr. rewrite E in Hr. by destruct x.
Qed.
End Operations.

(** Two fresh sessions. *)
Definition session_pair (a b : Endpoint) (now : Z) : RpcWorld := mkRpc a b now [].
Definition fresh_endpoint (e : Endpoint) : Prop :=
  ep_buffer e = [] /\ ep_pending e = PendingCallRegistry.empty
  /\ forall server, ep_server e = Some server -> server_ok server.

Lemma session_pair_ok a b now : fresh_endpoint a -> fresh_endpoint b -> world_ok (session_pair a b now).
Proof.
  intros (Hb1 & Hp1 & Hs1) (Hb2 & Hp2 & Hs2) [|]; (constructor; [done|done|]);
    exists []; cbn [endpoint_of session_pair near far]; rewrite ?Hp1, ?Hp2; (split; [apply history_empty|done]).
Qed.
