(* ===== verification/RpcCallFacts.v ===== *)
(** One call over a connected pair of sessions, step by step. *)
From S2P Require Import Prelude Endian RpcTypes RpcWire RpcWireFacts RpcRegistry RpcRegistryFacts RpcSession.
From S2P Require Import RpcSessionFacts.
Import RpcTypes RpcWire RpcSession.

Lemma R_bind_eq {A B} (m : R A) (f : A -> R B) w a w1 : m w = (Ret a, w1) -> (m ≫= f) w = f a w1.
Proof. unfold mbind, R_bind. by intros ->. Qed.

(** * What crosses the wire *)
Definition received_message (m : Message) : Message :=
  mkMessage (m_kind m) (m_request_id m) (m_coroutine_id m) 0 (m_session_id m) (m_peer_service_id m) (m_auth_token m)
    (mkRoute (rt_service (m_route m)) (rt_method (m_route m)) []) no_peer no_peer (m_serialization m)
    (m_compression m) (m_encryption m) (m_key_id m) (m_nonce m) (m_flags m) ∅ (m_payload m).
Definition received_response (r : Response) : Response :=
  mkResponse (r_request_id r) (r_coroutine_id r) 0 (r_session_id r) (r_peer_service_id r) (r_auth_token r)
    (r_status r) [] (r_serialization r) (r_compression r) (r_encryption r) (r_key_id r) (r_nonce r) (r_flags r)
    ∅ (r_payload r).
Definition message_frame (m : Message) : DecodedFrame :=
  mkFrame (set_payload_size (zlen (m_payload m)) (message_header m)) (m_payload m).
Definition response_frame (r : Response) : DecodedFrame :=
  mkFrame (set_payload_size (zlen (r_payload r)) (response_header r)) (r_payload r).

Lemma to_message_frame m : to_message (message_frame m) = received_message m.
Proof. done. Qed.
Lemma to_response_frame r : to_response (response_frame r) = received_response r.
Proof. done. Qed.

(** A frame sent by one endpoint can be read by the other. *)
Definition readable (from to : Endpoint) : Prop := ciphers_agree (ep_encrypt from) (decrypt (ep_decode to)).

Lemma encode_message_encoded from to m b : readable from to -> message_ok m ->
  zlen (m_payload m) <= max_frame_size (ep_decode to) -> encode_message (ep_encrypt from) m = Some b ->
  encoded (ep_decode to) b (message_frame m).
Proof. intros Hc Hm Hmax. unfold encode_message. by apply encode_frame_encoded. Qed.
Lemma encode_response_encoded from to r b : readable from to -> response_ok r ->
  zlen (r_payload r) <= max_frame_size (ep_decode to) -> encode_response (ep_encrypt from) r = Some b ->
  encoded (ep_decode to) b (response_frame r).
Proof. intros Hc Hm Hmax. unfold encode_response. by apply encode_frame_encoded. Qed.

(** * Steps *)
Section Steps.
Variable send_frame : side -> bytes -> R bool.

Lemma receive_encoded s b f w w' : ep_buffer (endpoint_of s w) = [] ->
  encoded (ep_decode (endpoint_of s w)) b f ->
  handle_frame send_frame s f (counted s (zlen b) w) = (Ret tt, w') -> ep_buffer (endpoint_of s w') = [] ->
  receive_bytes send_frame s b w = (Ret tt, w').
Proof.
  intros Hb He Hh Hb'. unfold receive_bytes.
  rewrite (R_bind_eq _ _ _ (endpoint_of s w) w) by done. rewrite Hb. unfold append. cbn [app].
  set (w1 := put_endpoint s (with_buffer b (endpoint_of s w)) w).
  rewrite (R_bind_eq _ _ _ tt w1) by done. cbn [receive_loop].
  rewrite (R_bind_eq _ _ _ (with_buffer b (endpoint_of s w)) w1); [|unfold r_get, w1; by rewrite endpoint_put_eq].
  cbn [ep_buffer ep_decode with_buffer].
  pose proof (next_encoded (ep_decode (endpoint_of s w)) b f [] He) as Hn. rewrite app_nil_r in Hn.
  rewrite (R_bind_eq _ _ _ (Decoded (zlen b) f, []) w1); [|unfold r_lift; by rewrite Hn].
  rewrite (R_bind_eq _ _ _ tt w).
  2:{ unfold r_modify, w1. rewrite endpoint_put_eq, put_put. do 2 f_equal.
      transitivity (put_endpoint s (endpoint_of s w) w); [|apply put_same]. f_equal.
      unfold with_buffer. rewrite <- Hb. cbn. by destruct (endpoint_of s w). }
  rewrite (R_bind_eq _ _ _ tt (counted s (zlen b) w)) by done.
  rewrite (R_bind_eq _ _ _ tt w') by done.
  pose proof (encoded_len _ _ _ He) as Hl. destruct b as [|c b]; [unfold zlen in Hl; simpl in Hl; lia|].
  cbn [length]. by apply loop_empty.
Qed.

(** Completing a pending call. *)
Lemma complete_found s resp w call : PendingCallRegistry.calls_ (ep_pending (endpoint_of s w)) !! r_request_id resp = Some call ->
  complete s resp w
  = (Ret tt,
     let w1 := put_endpoint s (with_pending
       (PendingCallRegistry.mk (PendingCallRegistry.next_id_ (ep_pending (endpoint_of s w)))
          (delete (r_request_id resp) (PendingCallRegistry.calls_ (ep_pending (endpoint_of s w))))) (endpoint_of s w)) w in
     mkRpc (near w1) (far w1) (w_now w1) (w_trace w1 ++
       [Called s (PendingCallRegistry.pc_handler call)
          (if continuation_id resp =? 0 then set_continuation_id (PendingCallRegistry.pc_continuation_id call) resp else resp)])).
Proof.
  intros Hc. unfold complete. rewrite (R_bind_eq _ _ _ (endpoint_of s w) w) by done.
  unfold PendingCallRegistry.complete, PendingCallRegistry.take. rewrite Hc. cbn beta iota zeta. done.
Qed.
End Steps.

Lemma deliver n s b w w' : ep_transport (endpoint_of s w) = Loopback true -> ep_open (endpoint_of s w) = true ->
  ep_open (endpoint_of (other s) w) = true -> ep_receiving (endpoint_of (other s) w) = true ->
  receive_bytes (Transport.send_frame n) (other s) b w = (Ret tt, w') ->
  Transport.send_frame (S n) s b w = (Ret true, w').
Proof.
  intros Ht Ho Hp Hr Hrcv. cbn [Transport.send_frame].
  rewrite (R_bind_eq _ _ _ (endpoint_of s w) w) by done. rewrite (R_bind_eq _ _ _ (endpoint_of (other s) w) w) by done.
  rewrite Ht, Ho, Hp, Hr. cbn [negb orb]. by rewrite (R_bind_eq _ _ _ tt w').
Qed.

(** Both ends of a connected pair, at rest. *)
Record connected_at (s : side) (w : RpcWorld) : Prop := {
  ca_transport : ep_transport (endpoint_of s w) = Loopback true;
  ca_open : ep_open (endpoint_of s w) = true;
  ca_receiving : ep_receiving (endpoint_of s w) = true;
  ca_buffer : ep_buffer (endpoint_of s w) = []
}.

Lemma other_ne s : other s <> s.
Proof. by destruct s. Qed.
Lemma other_other s : other (other s) = s.
Proof. by destruct s. Qed.

(** The world after the server has been given a message. *)
Definition handled (s : side) (m : Message) (w : RpcWorld) : RpcWorld :=
  mkRpc (near w) (far w) (w_now w) (w_trace w ++ [Handled s m]).

(** A request, at the end that serves it. *)
Lemma handle_request send_frame s f w server reply out w2 :
  h_kind (f_header f) = kind_request -> ep_server (endpoint_of s w) = Some server ->
  Server.handle (to_message f) server = inl reply ->
  encode_response (ep_encrypt (endpoint_of s w)) (reply_to (to_message f) reply) = Some out ->
  is_open (endpoint_of s w) = true -> send_frame s out (handled s (to_message f) w) = (Ret true, w2) ->
  handle_frame send_frame s f w
  = (Ret tt, put_endpoint s (with_stats (count_sent (zlen out)) (endpoint_of s w2)) w2).
Proof.
  intros Hk Hs Hh He Ho Hsend. unfold handle_frame. rewrite Hk. change (kind_request =? kind_response) with false. cbn iota.
  rewrite (R_bind_eq _ _ _ (endpoint_of s w) w) by done. rewrite Hs. cbv zeta.
  rewrite (R_bind_eq _ _ _ tt (handled s (to_message f) w)) by done.
  rewrite Hh. change (m_kind (to_message f)) with (h_kind (f_header f)). rewrite Hk.
  change (kind_request =? kind_push) with false. cbn iota. rewrite He, Ho.
  rewrite (R_bind_eq _ _ _ (Some out) w2); [done|]. by rewrite (R_bind_eq _ _ _ true w2).
Qed.

(** * The whole call *)
Section Call.
Variables (s : side) (m : Message) (h : Z) (options : CallOptions) (w : RpcWorld) (server : Server.t) (reply : Response).
Let client := endpoint_of s w.
Let peer := endpoint_of (other s) w.
Let id := PendingCallRegistry.next_id_ (ep_pending client).
Let request := outgoing id options m.
Let response := reply_to (received_message request) reply.
Variables (frame out : bytes).

Hypothesis (Hnear : connected_at s w) (Hfar : connected_at (other s) w).
Hypothesis (Hserver : ep_server peer = Some server).
Hypothesis (Hto : readable client peer) (Hfrom : readable peer client).
Hypothesis (Hm : message_ok m) (Ho : options_ok options) (Hid : 1 <= id /\ id + 1 < 2 ^ 64).
Hypothesis (Hfree : PendingCallRegistry.calls_ (ep_pending client) !! id = None).
Hypothesis (Hframe : encode_message (ep_encrypt client) request = Some frame).
Hypothesis (Hfit : zlen (m_payload m) <= max_frame_size (ep_decode peer)).
Hypothesis (Hreply : Server.handle (received_message request) server = inl reply) (Hrok : response_ok reply).
Hypothesis (Hout : encode_response (ep_encrypt peer) response = Some out).
Hypothesis (Hback : zlen (r_payload reply) <= max_frame_size (ep_decode client)).

(** The pending entry of the call. *)
Let call := PendingCallRegistry.mkCall h (if 0 <? o_timeout options then w_now w + o_timeout options * 1000000 else 0)
              (o_metadata options) (o_coroutine_id options).
(** The endpoints after the call. *)
Let client' := with_stats (count_sent (zlen frame)) (with_pending
  (PendingCallRegistry.mk (id + 1) (delete id (<[id := call]> (PendingCallRegistry.calls_ (ep_pending client)))))
  (with_stats (count_received (zlen out)) (with_pending (PendingCallRegistry.mk (id + 1)
     (<[id := call]> (PendingCallRegistry.calls_ (ep_pending client)))) client))).
Let peer' := with_stats (count_sent (zlen out)) (with_stats (count_received (zlen frame)) peer).

Lemma received_ok : response_ok response.
Proof.
  subst response. destruct Hrok. pose proof (outgoing_ok id options m Hm Ho) as [].
  { unfold is_u64. lia. }
  constructor; cbn in *; try done; by case_if.
Qed.

Lemma answered_response : (if continuation_id (received_response response) =? 0
    then set_continuation_id (o_coroutine_id options) (received_response response) else received_response response)
  = received_response response.
Proof.
  unfold continuation_id. change (r_coroutine_id (received_response response)) with (m_coroutine_id request).
  case_if; [|done]. unfold received_response, set_continuation_id. f_equal.
  change (r_coroutine_id response) with (m_coroutine_id request). cbn.
  unfold request, outgoing in *. cbn in *. case_if; lia.
Qed.

(** * The states the call goes through *)
(** The call is pending; the request has arrived; it has been served; the response has
    arrived; the handler has been called; the response is counted. *)
Let pending1 := PendingCallRegistry.mk (id + 1) (<[id := call]> (PendingCallRegistry.calls_ (ep_pending client))).
Let c1 := with_pending pending1 client.
Let w1 := put_endpoint s c1 w.
Let w2 := counted (other s) (zlen frame) w1.
Let w3 := handled (other s) (received_message request) w2.
Let w4 := counted s (zlen out) w3.
Let c5 := with_pending
  (PendingCallRegistry.mk (id + 1) (delete id (<[id := call]> (PendingCallRegistry.calls_ (ep_pending client)))))
  (with_stats (count_received (zlen out)) c1).
Let p5 := with_stats (count_received (zlen frame)) peer.
Let w5 := mkRpc (match s with Near => c5 | Far => p5 end) (match s with Near => p5 | Far => c5 end) (w_now w)
  (w_trace w ++ [Handled (other s) (received_message request); Called s h (received_response response)]).
Let w6 := put_endpoint (other s) (with_stats (count_sent (zlen out)) (endpoint_of (other s) w5)) w5.

Lemma client_at_w1 : endpoint_of s w1 = c1.
Proof. apply endpoint_put_eq. Qed.
Lemma peer_at_w1 : endpoint_of (other s) w1 = peer.
Proof. apply endpoint_put_ne, other_ne. Qed.
Lemma peer_at_w2 : endpoint_of (other s) w2 = p5.
Proof. unfold w2, counted. rewrite endpoint_put_eq. by rewrite peer_at_w1. Qed.
Lemma peer_at_w3 : endpoint_of (other s) w3 = p5.
Proof. rewrite <- peer_at_w2. unfold w3, handled. by destruct s. Qed.
Lemma client_at_w3 : endpoint_of s w3 = c1.
Proof. rewrite <- client_at_w1. unfold w3, w2, handled, counted. by destruct s. Qed.
Lemma client_at_w4 : endpoint_of s w4 = with_stats (count_received (zlen out)) c1.
Proof. unfold w4, counted. rewrite endpoint_put_eq. by rewrite client_at_w3. Qed.

Lemma open_at (s' : side) (e : Endpoint) : ep_transport e = Loopback true -> ep_open e = true -> is_open e = true.
Proof. unfold is_open. by intros -> ->. Qed.

(** The response completes the call. *)
Lemma response_handled : handle_frame (Transport.send_frame 0) s (response_frame response) w4 = (Ret tt, w5).
Proof.
  unfold handle_frame. cbn [f_header response_frame set_payload_size response_header h_kind].
  change (kind_response =? kind_response) with true. cbn iota. rewrite to_response_frame.
  rewrite (complete_found s _ w4 call).
  2:{ rewrite client_at_w4. change (r_request_id (received_response response)) with id.
      cbn [ep_pending with_stats with_pending c1 pending1 PendingCallRegistry.calls_]. by rewrite lookup_insert_eq. }
  change (PendingCallRegistry.pc_continuation_id call) with (o_coroutine_id options).
  rewrite answered_response, client_at_w4. change (r_request_id (received_response response)) with id. cbv zeta.
  unfold w5, w4, w3, w2, w1, counted, handled. f_equal. destruct s; cbn; by rewrite <- app_assoc.
Qed.

(** The peer's response frame reaches the client. *)
Lemma response_delivered : Transport.send_frame 1 (other s) out w3 = (Ret true, w5).
Proof.
  apply deliver; rewrite ?other_other, ?peer_at_w3, ?client_at_w3; try apply Hfar; try apply Hnear.
  apply (receive_encoded _ s out (response_frame response)); rewrite ?client_at_w3.
  - apply Hnear.
  - apply (encode_response_encoded peer); [exact Hfrom|apply received_ok|exact Hback|exact Hout].
  - exact response_handled.
  - pose proof (ca_buffer _ _ Hnear) as Hb. unfold w5. subst client. by destruct s.
Qed.

(** The peer serves the request. *)
Lemma request_handled : handle_frame (Transport.send_frame 1) (other s) (message_frame request) w2 = (Ret tt, w6).
Proof.
  apply (handle_request _ (other s) _ w2 server reply); rewrite ?peer_at_w2, ?to_message_frame; try done.
  - apply (open_at s); apply Hfar.
  - exact response_delivered.
Qed.

(** The client's request frame reaches the peer. *)
Lemma request_delivered : Transport.send_frame Transport.depth s frame w1 = (Ret true, w6).
Proof.
  apply deliver; rewrite ?client_at_w1, ?peer_at_w1; try apply Hnear; try apply Hfar.
  apply (receive_encoded _ (other s) frame (message_frame request)); rewrite ?peer_at_w1.
  - apply Hfar.
  - apply (encode_message_encoded client); [exact Hto| |exact Hfit|exact Hframe].
    apply outgoing_ok; [done|done|unfold is_u64; lia].
  - exact request_handled.
  - unfold w6. rewrite endpoint_put_eq. pose proof (ca_buffer _ _ Hfar) as Hb. unfold w5. subst peer. by destruct s.
Qed.

Lemma call_runs : send (Transport.send_frame Transport.depth) s m (Some h) options w
  = (Ret true, mkRpc (match s with Near => client' | Far => peer' end) (match s with Near => peer' | Far => client' end)
       (w_now w) (w_trace w ++ [Handled (other s) (received_message request); Called s h (received_response response)])).
Proof.
  unfold send. rewrite (R_bind_eq _ _ _ client w) by done.
  rewrite (open_at s) by apply Hnear. cbn [negb]. rewrite (R_bind_eq _ _ _ (w_now w) w) by done.
  unfold PendingCallRegistry.create. rewrite draw_id_ok by (fold id; lia). fold id. rewrite Hfree. cbn beta iota zeta.
  assert (u64 (id + 1) = id + 1) as -> by (apply Z.mod_small; lia). fold call. fold pending1. fold c1.
  rewrite (R_bind_eq _ _ _ tt w1) by done. case_if; [lia|]. fold request. unfold send_message.
  rewrite (R_bind_eq _ _ _ (Some frame) w6).
  2:{ rewrite (R_bind_eq _ _ _ c1 w1); [|unfold r_get; by rewrite client_at_w1].
      change (ep_encrypt c1) with (ep_encrypt client). rewrite Hframe. by rewrite (R_bind_eq _ _ _ true w6) by apply request_delivered. }
  rewrite (R_bind_eq _ _ _ tt (put_endpoint s (with_stats (count_sent (zlen frame)) (endpoint_of s w6)) w6)) by done.
  unfold mret, R_ret. f_equal. unfold w6, w5, client', peer', c5, p5, c1, pending1. by destruct s.
Qed.
End Call.
