(* ===== verification/MqttProtocol.v ===== *)
(** MQTT constants, enumerations and packet structures:
    [protocol/mqtt/include/mqtt_protocol.h], [mqtt_packet.h] and the data of
    [mqtt_properties.h].

    Enumerations that the program only ever holds at a listed value are inductive
    types. [QoS] and the reason codes are [uint8_t] values compared as numbers (a
    [static_cast<QoS>] may produce 3), so they are [Z] with named constants. *)
From S2P Require Import Prelude.

(** * Enumerations *)

(** [PacketType], as cast from the high nibble of a first byte: the nibble 0 is
    none of the listed enumerators. *)
Inductive PacketType : Type :=
| RESERVED | CONNECT | CONNACK | PUBLISH | PUBACK | PUBREC | PUBREL | PUBCOMP
| SUBSCRIBE | SUBACK | UNSUBSCRIBE | UNSUBACK | PINGREQ | PINGRESP | DISCONNECT | AUTH.

#[export] Instance PacketType_eq_dec : EqDecision PacketType.
Proof. solve_decision. Defined.

Definition PacketType_val (t : PacketType) : Z :=
  match t with
  | RESERVED => 0 | CONNECT => 1 | CONNACK => 2 | PUBLISH => 3 | PUBACK => 4 | PUBREC => 5
  | PUBREL => 6 | PUBCOMP => 7 | SUBSCRIBE => 8 | SUBACK => 9 | UNSUBSCRIBE => 10
  | UNSUBACK => 11 | PINGREQ => 12 | PINGRESP => 13 | DISCONNECT => 14 | AUTH => 15
  end.

(** [static_cast<PacketType>(v)] for a nibble [v]. *)
Definition PacketType_cast (v : Z) : PacketType :=
  match v with
  | 1 => CONNECT | 2 => CONNACK | 3 => PUBLISH | 4 => PUBACK | 5 => PUBREC | 6 => PUBREL
  | 7 => PUBCOMP | 8 => SUBSCRIBE | 9 => SUBACK | 10 => UNSUBSCRIBE | 11 => UNSUBACK
  | 12 => PINGREQ | 13 => PINGRESP | 14 => DISCONNECT | 15 => AUTH | _ => RESERVED
  end.

Inductive ProtocolLevel : Type := V3_1_1 | V5_0.

#[export] Instance ProtocolLevel_eq_dec : EqDecision ProtocolLevel.
Proof. solve_decision. Defined.

Definition ProtocolLevel_val (l : ProtocolLevel) : Z := match l with V3_1_1 => 4 | V5_0 => 5 end.

(** A protocol level byte; a byte that is neither level is rejected by its reader. *)
Definition ProtocolLevel_cast (v : Z) : option ProtocolLevel :=
  match v with 4 => Some V3_1_1 | 5 => Some V5_0 | _ => None end.

Definition is_v5 (l : ProtocolLevel) : bool := match l with V5_0 => true | V3_1_1 => false end.

Abbreviation QoS := Z (only parsing).
Definition AT_MOST_ONCE : QoS := 0.
Definition AT_LEAST_ONCE : QoS := 1.
Definition EXACTLY_ONCE : QoS := 2.

Module ConnackCode.
Definition ACCEPTED : Z := 0.
Definition UNACCEPTABLE_PROTOCOL_VERSION : Z := 1.
Definition IDENTIFIER_REJECTED : Z := 2.
Definition BAD_USER_NAME_OR_PASSWORD : Z := 4.
Definition NOT_AUTHORIZED : Z := 5.
Definition V5_UNSUPPORTED_PROTOCOL_VERSION : Z := 0x84.
Definition V5_BAD_USER_NAME_OR_PASSWORD : Z := 0x86.
Definition V5_NOT_AUTHORIZED : Z := 0x87.
End ConnackCode.

Module SubackReason.
Definition UNSPECIFIED_ERROR : Z := 0x80.
Definition NOT_AUTHORIZED : Z := 0x87.
Definition TOPIC_FILTER_INVALID : Z := 0x8F.
Definition SHARED_SUBSCRIPTION_NOT_SUPPORTED : Z := 0x9E.
Definition SUBSCRIPTION_IDENTIFIERS_NOT_SUPPORTED : Z := 0xA1.
Definition WILDCARD_SUBSCRIPTIONS_NOT_SUPPORTED : Z := 0xA2.
End SubackReason.

Module UnsubackReason.
Definition SUCCESS : Z := 0.
End UnsubackReason.

Module PubackReason.
Definition SUCCESS : Z := 0.
Definition NOT_AUTHORIZED : Z := 0x87.
End PubackReason.

Module PubrecReason.
Definition SUCCESS : Z := 0.
Definition NOT_AUTHORIZED : Z := 0x87.
Definition PACKET_IDENTIFIER_IN_USE : Z := 0x91.
End PubrecReason.

Module PubrelReason.
Definition SUCCESS : Z := 0.
End PubrelReason.

Module PubcompReason.
Definition SUCCESS : Z := 0.
Definition PACKET_IDENTIFIER_NOT_FOUND : Z := 0x92.
End PubcompReason.

Module DisconnectReason.
Definition DISCONNECT_WITH_WILL_MESSAGE : Z := 0x04.
Definition MALFORMED_PACKET : Z := 0x81.
Definition PROTOCOL_ERROR : Z := 0x82.
Definition BAD_AUTHENTICATION_METHOD : Z := 0x8C.
Definition RECEIVE_MAXIMUM_EXCEEDED : Z := 0x93.
Definition TOPIC_ALIAS_INVALID : Z := 0x94.
Definition PACKET_TOO_LARGE : Z := 0x95.
End DisconnectReason.

Module AuthReason.
Definition SUCCESS : Z := 0.
End AuthReason.

Inductive PropertyId : Type :=
| PAYLOAD_FORMAT_INDICICATOR | MESSAGE_EXPIRY_INTERVAL | CONTENT_TYPE | RESPONSE_TOPIC
| CORRELATION_DATA | SUBSCRIPTION_IDENTIFIER | SESSION_EXPIRY_INTERVAL | ASSIGNED_CLIENT_IDENTIFIER
| SERVER_KEEP_ALIVE | AUTHENTICATION_METHOD | AUTHENTICATION_DATA | REQUEST_PROBLEM_INFORMATION
| WILL_DELAY_INTERVAL | REQUEST_RESPONSE_INFORMATION | RESPONSE_INFORMATION | SERVER_REFERENCE
| REASON_STRING | RECEIVE_MAXIMUM | TOPIC_ALIAS_MAXIMUM | TOPIC_ALIAS
| MAXIMUM_QOS | RETAIN_AVAILABLE | USER_PROPERTY | MAXIMUM_PACKET_SIZE
| WILDCARD_SUBSCRIPTION_AVAILABLE | SUBSCRIPTION_IDENTIFIER_AVAILABLE | SHARED_SUBSCRIPTION_AVAILABLE.

#[export] Instance PropertyId_eq_dec : EqDecision PropertyId.
Proof. solve_decision. Defined.

Definition PropertyId_val (id : PropertyId) : Z :=
  match id with
  | PAYLOAD_FORMAT_INDICICATOR => 0x01 | MESSAGE_EXPIRY_INTERVAL => 0x02
  | CONTENT_TYPE => 0x03 | RESPONSE_TOPIC => 0x08
  | CORRELATION_DATA => 0x09 | SUBSCRIPTION_IDENTIFIER => 0x0B
  | SESSION_EXPIRY_INTERVAL => 0x11 | ASSIGNED_CLIENT_IDENTIFIER => 0x12
  | SERVER_KEEP_ALIVE => 0x13 | AUTHENTICATION_METHOD => 0x15
  | AUTHENTICATION_DATA => 0x16 | REQUEST_PROBLEM_INFORMATION => 0x17
  | WILL_DELAY_INTERVAL => 0x18 | REQUEST_RESPONSE_INFORMATION => 0x19
  | RESPONSE_INFORMATION => 0x1A | SERVER_REFERENCE => 0x1C
  | REASON_STRING => 0x1F | RECEIVE_MAXIMUM => 0x21
  | TOPIC_ALIAS_MAXIMUM => 0x22 | TOPIC_ALIAS => 0x23
  | MAXIMUM_QOS => 0x24 | RETAIN_AVAILABLE => 0x25
  | USER_PROPERTY => 0x26 | MAXIMUM_PACKET_SIZE => 0x27
  | WILDCARD_SUBSCRIPTION_AVAILABLE => 0x28 | SUBSCRIPTION_IDENTIFIER_AVAILABLE => 0x29
  | SHARED_SUBSCRIPTION_AVAILABLE => 0x2A
  end.

(** The [switch] on [static_cast<PropertyId>(id)]; [None] is its [default]. *)
Definition PropertyId_cast (v : Z) : option PropertyId :=
  match v with
  | 0x01 => Some PAYLOAD_FORMAT_INDICICATOR | 0x02 => Some MESSAGE_EXPIRY_INTERVAL
  | 0x03 => Some CONTENT_TYPE | 0x08 => Some RESPONSE_TOPIC
  | 0x09 => Some CORRELATION_DATA | 0x0B => Some SUBSCRIPTION_IDENTIFIER
  | 0x11 => Some SESSION_EXPIRY_INTERVAL | 0x12 => Some ASSIGNED_CLIENT_IDENTIFIER
  | 0x13 => Some SERVER_KEEP_ALIVE | 0x15 => Some AUTHENTICATION_METHOD
  | 0x16 => Some AUTHENTICATION_DATA | 0x17 => Some REQUEST_PROBLEM_INFORMATION
  | 0x18 => Some WILL_DELAY_INTERVAL | 0x19 => Some REQUEST_RESPONSE_INFORMATION
  | 0x1A => Some RESPONSE_INFORMATION | 0x1C => Some SERVER_REFERENCE
  | 0x1F => Some REASON_STRING | 0x21 => Some RECEIVE_MAXIMUM
  | 0x22 => Some TOPIC_ALIAS_MAXIMUM | 0x23 => Some TOPIC_ALIAS
  | 0x24 => Some MAXIMUM_QOS | 0x25 => Some RETAIN_AVAILABLE
  | 0x26 => Some USER_PROPERTY | 0x27 => Some MAXIMUM_PACKET_SIZE
  | 0x28 => Some WILDCARD_SUBSCRIPTION_AVAILABLE | 0x29 => Some SUBSCRIPTION_IDENTIFIER_AVAILABLE
  | 0x2A => Some SHARED_SUBSCRIPTION_AVAILABLE
  | _ => None
  end.

(** * Constants *)
Definition MQTT_CONNECT_FLAG_USERNAME : Z := 0x80.
Definition MQTT_CONNECT_FLAG_PASSWORD : Z := 0x40.
Definition MQTT_CONNECT_FLAG_WILL_RETAIN : Z := 0x20.
Definition MQTT_CONNECT_FLAG_WILL_QOS_SHIFT : Z := 3.
Definition MQTT_CONNECT_FLAG_WILL_FLAG : Z := 0x04.
Definition MQTT_CONNECT_FLAG_CLEAN_START : Z := 0x02.
Definition MQTT_PUBLISH_FLAG_DUP : Z := 0x08.
Definition MQTT_PUBLISH_FLAG_QOS_SHIFT : Z := 1.
Definition MQTT_PUBLISH_FLAG_RETAIN : Z := 0x01.
Definition MQTT_KEEP_ALIVE_DEFAULT : Z := 60.
Definition MQTT_MAX_REMAINING_LENGTH : Z := 268435455.
Definition MQTT_VARIABLE_BYTE_INT_MAX_SIZE : Z := 4.
Definition MQTT_PROTOCOL_NAME_V5 : bytes := str "MQTT".

(** [(flags & mask) != 0] *)
Definition flag_set (flags mask : Z) : bool := negb (Z.land flags mask =? 0).

(** * Properties *)
Record UserProperty : Type := mkUserProperty { up_key : bytes; up_value : bytes }.

Record MqttProperties : Type := mkProps {
  payload_format_indicator : option Z;
  message_expiry_interval : option Z;
  content_type : option bytes;
  response_topic : option bytes;
  correlation_data : option bytes;
  subscription_identifier : option Z;
  session_expiry_interval : option Z;
  assigned_client_identifier : option bytes;
  server_keep_alive : option Z;
  authentication_method : option bytes;
  authentication_data : option bytes;
  request_problem_information : option Z;
  will_delay_interval : option Z;
  request_response_information : option Z;
  response_information : option bytes;
  server_reference : option bytes;
  reason_string : option bytes;
  receive_maximum : option Z;
  topic_alias_maximum : option Z;
  topic_alias : option Z;
  maximum_qos : option Z;
  retain_available : option Z;
  maximum_packet_size : option Z;
  wildcard_subscription_available : option Z;
  subscription_identifier_available : option Z;
  shared_subscription_available : option Z;
  user_properties : list UserProperty
}.

(** [MqttProperties{}] *)
Definition no_props : MqttProperties :=
  mkProps None None None None None None None None None None None None None None None None None None None None None None None None None None [].

(** ** Assignments to one member *)

Definition set_payload_format_indicator (v : option Z) (p : MqttProperties) : MqttProperties :=
  match p with mkProps _ x1 x2 x3 x4 x5 x6 x7 x8 x9 x10 x11 x12 x13 x14 x15 x16 x17 x18 x19 x20 x21 x22 x23 x24 x25 x26 =>
    mkProps v x1 x2 x3 x4 x5 x6 x7 x8 x9 x10 x11 x12 x13 x14 x15 x16 x17 x18 x19 x20 x21 x22 x23 x24 x25 x26 end.
Definition set_message_expiry_interval (v : option Z) (p : MqttProperties) : MqttProperties :=
  match p with mkProps x0 _ x2 x3 x4 x5 x6 x7 x8 x9 x10 x11 x12 x13 x14 x15 x16 x17 x18 x19 x20 x21 x22 x23 x24 x25 x26 =>
    mkProps x0 v x2 x3 x4 x5 x6 x7 x8 x9 x10 x11 x12 x13 x14 x15 x16 x17 x18 x19 x20 x21 x22 x23 x24 x25 x26 end.
Definition set_content_type (v : option bytes) (p : MqttProperties) : MqttProperties :=
  match p with mkProps x0 x1 _ x3 x4 x5 x6 x7 x8 x9 x10 x11 x12 x13 x14 x15 x16 x17 x18 x19 x20 x21 x22 x23 x24 x25 x26 =>
    mkProps x0 x1 v x3 x4 x5 x6 x7 x8 x9 x10 x11 x12 x13 x14 x15 x16 x17 x18 x19 x20 x21 x22 x23 x24 x25 x26 end.
Definition set_response_topic (v : option bytes) (p : MqttProperties) : MqttProperties :=
  match p with mkProps x0 x1 x2 _ x4 x5 x6 x7 x8 x9 x10 x11 x12 x13 x14 x15 x16 x17 x18 x19 x20 x21 x22 x23 x24 x25 x26 =>
    mkProps x0 x1 x2 v x4 x5 x6 x7 x8 x9 x10 x11 x12 x13 x14 x15 x16 x17 x18 x19 x20 x21 x22 x23 x24 x25 x26 end.
Definition set_correlation_data (v : option bytes) (p : MqttProperties) : MqttProperties :=
  match p with mkProps x0 x1 x2 x3 _ x5 x6 x7 x8 x9 x10 x11 x12 x13 x14 x15 x16 x17 x18 x19 x20 x21 x22 x23 x24 x25 x26 =>
    mkProps x0 x1 x2 x3 v x5 x6 x7 x8 x9 x10 x11 x12 x13 x14 x15 x16 x17 x18 x19 x20 x21 x22 x23 x24 x25 x26 end.
Definition set_subscription_identifier (v : option Z) (p : MqttProperties) : MqttProperties :=
  match p with mkProps x0 x1 x2 x3 x4 _ x6 x7 x8 x9 x10 x11 x12 x13 x14 x15 x16 x17 x18 x19 x20 x21 x22 x23 x24 x25 x26 =>
    mkProps x0 x1 x2 x3 x4 v x6 x7 x8 x9 x10 x11 x12 x13 x14 x15 x16 x17 x18 x19 x20 x21 x22 x23 x24 x25 x26 end.
Definition set_session_expiry_interval (v : option Z) (p : MqttProperties) : MqttProperties :=
  match p with mkProps x0 x1 x2 x3 x4 x5 _ x7 x8 x9 x10 x11 x12 x13 x14 x15 x16 x17 x18 x19 x20 x21 x22 x23 x24 x25 x26 =>
    mkProps x0 x1 x2 x3 x4 x5 v x7 x8 x9 x10 x11 x12 x13 x14 x15 x16 x17 x18 x19 x20 x21 x22 x23 x24 x25 x26 end.
Definition set_assigned_client_identifier (v : option bytes) (p : MqttProperties) : MqttProperties :=
  match p with mkProps x0 x1 x2 x3 x4 x5 x6 _ x8 x9 x10 x11 x12 x13 x14 x15 x16 x17 x18 x19 x20 x21 x22 x23 x24 x25 x26 =>
    mkProps x0 x1 x2 x3 x4 x5 x6 v x8 x9 x10 x11 x12 x13 x14 x15 x16 x17 x18 x19 x20 x21 x22 x23 x24 x25 x26 end.
Definition set_server_keep_alive (v : option Z) (p : MqttProperties) : MqttProperties :=
  match p with mkProps x0 x1 x2 x3 x4 x5 x6 x7 _ x9 x10 x11 x12 x13 x14 x15 x16 x17 x18 x19 x20 x21 x22 x23 x24 x25 x26 =>
    mkProps x0 x1 x2 x3 x4 x5 x6 x7 v x9 x10 x11 x12 x13 x14 x15 x16 x17 x18 x19 x20 x21 x22 x23 x24 x25 x26 end.
Definition set_authentication_method (v : option bytes) (p : MqttProperties) : MqttProperties :=
  match p with mkProps x0 x1 x2 x3 x4 x5 x6 x7 x8 _ x10 x11 x12 x13 x14 x15 x16 x17 x18 x19 x20 x21 x22 x23 x24 x25 x26 =>
    mkProps x0 x1 x2 x3 x4 x5 x6 x7 x8 v x10 x11 x12 x13 x14 x15 x16 x17 x18 x19 x20 x21 x22 x23 x24 x25 x26 end.
Definition set_authentication_data (v : option bytes) (p : MqttProperties) : MqttProperties :=
  match p with mkProps x0 x1 x2 x3 x4 x5 x6 x7 x8 x9 _ x11 x12 x13 x14 x15 x16 x17 x18 x19 x20 x21 x22 x23 x24 x25 x26 =>
    mkProps x0 x1 x2 x3 x4 x5 x6 x7 x8 x9 v x11 x12 x13 x14 x15 x16 x17 x18 x19 x20 x21 x22 x23 x24 x25 x26 end.
Definition set_request_problem_information (v : option Z) (p : MqttProperties) : MqttProperties :=
  match p with mkProps x0 x1 x2 x3 x4 x5 x6 x7 x8 x9 x10 _ x12 x13 x14 x15 x16 x17 x18 x19 x20 x21 x22 x23 x24 x25 x26 =>
    mkProps x0 x1 x2 x3 x4 x5 x6 x7 x8 x9 x10 v x12 x13 x14 x15 x16 x17 x18 x19 x20 x21 x22 x23 x24 x25 x26 end.
Definition set_will_delay_interval (v : option Z) (p : MqttProperties) : MqttProperties :=
  match p with mkProps x0 x1 x2 x3 x4 x5 x6 x7 x8 x9 x10 x11 _ x13 x14 x15 x16 x17 x18 x19 x20 x21 x22 x23 x24 x25 x26 =>
    mkProps x0 x1 x2 x3 x4 x5 x6 x7 x8 x9 x10 x11 v x13 x14 x15 x16 x17 x18 x19 x20 x21 x22 x23 x24 x25 x26 end.
Definition set_request_response_information (v : option Z) (p : MqttProperties) : MqttProperties :=
  match p with mkProps x0 x1 x2 x3 x4 x5 x6 x7 x8 x9 x10 x11 x12 _ x14 x15 x16 x17 x18 x19 x20 x21 x22 x23 x24 x25 x26 =>
    mkProps x0 x1 x2 x3 x4 x5 x6 x7 x8 x9 x10 x11 x12 v x14 x15 x16 x17 x18 x19 x20 x21 x22 x23 x24 x25 x26 end.
Definition set_response_information (v : option bytes) (p : MqttProperties) : MqttProperties :=
  match p with mkProps x0 x1 x2 x3 x4 x5 x6 x7 x8 x9 x10 x11 x12 x13 _ x15 x16 x17 x18 x19 x20 x21 x22 x23 x24 x25 x26 =>
    mkProps x0 x1 x2 x3 x4 x5 x6 x7 x8 x9 x10 x11 x12 x13 v x15 x16 x17 x18 x19 x20 x21 x22 x23 x24 x25 x26 end.
Definition set_server_reference (v : option bytes) (p : MqttProperties) : MqttProperties :=
  match p with mkProps x0 x1 x2 x3 x4 x5 x6 x7 x8 x9 x10 x11 x12 x13 x14 _ x16 x17 x18 x19 x20 x21 x22 x23 x24 x25 x26 =>
    mkProps x0 x1 x2 x3 x4 x5 x6 x7 x8 x9 x10 x11 x12 x13 x14 v x16 x17 x18 x19 x20 x21 x22 x23 x24 x25 x26 end.
Definition set_reason_string (v : option bytes) (p : MqttProperties) : MqttProperties :=
  match p with mkProps x0 x1 x2 x3 x4 x5 x6 x7 x8 x9 x10 x11 x12 x13 x14 x15 _ x17 x18 x19 x20 x21 x22 x23 x24 x25 x26 =>
    mkProps x0 x1 x2 x3 x4 x5 x6 x7 x8 x9 x10 x11 x12 x13 x14 x15 v x17 x18 x19 x20 x21 x22 x23 x24 x25 x26 end.
Definition set_receive_maximum (v : option Z) (p : MqttProperties) : MqttProperties :=
  match p with mkProps x0 x1 x2 x3 x4 x5 x6 x7 x8 x9 x10 x11 x12 x13 x14 x15 x16 _ x18 x19 x20 x21 x22 x23 x24 x25 x26 =>
    mkProps x0 x1 x2 x3 x4 x5 x6 x7 x8 x9 x10 x11 x12 x13 x14 x15 x16 v x18 x19 x20 x21 x22 x23 x24 x25 x26 end.
Definition set_topic_alias_maximum (v : option Z) (p : MqttProperties) : MqttProperties :=
  match p with mkProps x0 x1 x2 x3 x4 x5 x6 x7 x8 x9 x10 x11 x12 x13 x14 x15 x16 x17 _ x19 x20 x21 x22 x23 x24 x25 x26 =>
    mkProps x0 x1 x2 x3 x4 x5 x6 x7 x8 x9 x10 x11 x12 x13 x14 x15 x16 x17 v x19 x20 x21 x22 x23 x24 x25 x26 end.
Definition set_topic_alias (v : option Z) (p : MqttProperties) : MqttProperties :=
  match p with mkProps x0 x1 x2 x3 x4 x5 x6 x7 x8 x9 x10 x11 x12 x13 x14 x15 x16 x17 x18 _ x20 x21 x22 x23 x24 x25 x26 =>
    mkProps x0 x1 x2 x3 x4 x5 x6 x7 x8 x9 x10 x11 x12 x13 x14 x15 x16 x17 x18 v x20 x21 x22 x23 x24 x25 x26 end.
Definition set_maximum_qos (v : option Z) (p : MqttProperties) : MqttProperties :=
  match p with mkProps x0 x1 x2 x3 x4 x5 x6 x7 x8 x9 x10 x11 x12 x13 x14 x15 x16 x17 x18 x19 _ x21 x22 x23 x24 x25 x26 =>
    mkProps x0 x1 x2 x3 x4 x5 x6 x7 x8 x9 x10 x11 x12 x13 x14 x15 x16 x17 x18 x19 v x21 x22 x23 x24 x25 x26 end.
Definition set_retain_available (v : option Z) (p : MqttProperties) : MqttProperties :=
  match p with mkProps x0 x1 x2 x3 x4 x5 x6 x7 x8 x9 x10 x11 x12 x13 x14 x15 x16 x17 x18 x19 x20 _ x22 x23 x24 x25 x26 =>
    mkProps x0 x1 x2 x3 x4 x5 x6 x7 x8 x9 x10 x11 x12 x13 x14 x15 x16 x17 x18 x19 x20 v x22 x23 x24 x25 x26 end.
Definition set_maximum_packet_size (v : option Z) (p : MqttProperties) : MqttProperties :=
  match p with mkProps x0 x1 x2 x3 x4 x5 x6 x7 x8 x9 x10 x11 x12 x13 x14 x15 x16 x17 x18 x19 x20 x21 _ x23 x24 x25 x26 =>
    mkProps x0 x1 x2 x3 x4 x5 x6 x7 x8 x9 x10 x11 x12 x13 x14 x15 x16 x17 x18 x19 x20 x21 v x23 x24 x25 x26 end.
Definition set_wildcard_subscription_available (v : option Z) (p : MqttProperties) : MqttProperties :=
  match p with mkProps x0 x1 x2 x3 x4 x5 x6 x7 x8 x9 x10 x11 x12 x13 x14 x15 x16 x17 x18 x19 x20 x21 x22 _ x24 x25 x26 =>
    mkProps x0 x1 x2 x3 x4 x5 x6 x7 x8 x9 x10 x11 x12 x13 x14 x15 x16 x17 x18 x19 x20 x21 x22 v x24 x25 x26 end.
Definition set_subscription_identifier_available (v : option Z) (p : MqttProperties) : MqttProperties :=
  match p with mkProps x0 x1 x2 x3 x4 x5 x6 x7 x8 x9 x10 x11 x12 x13 x14 x15 x16 x17 x18 x19 x20 x21 x22 x23 _ x25 x26 =>
    mkProps x0 x1 x2 x3 x4 x5 x6 x7 x8 x9 x10 x11 x12 x13 x14 x15 x16 x17 x18 x19 x20 x21 x22 x23 v x25 x26 end.
Definition set_shared_subscription_available (v : option Z) (p : MqttProperties) : MqttProperties :=
  match p with mkProps x0 x1 x2 x3 x4 x5 x6 x7 x8 x9 x10 x11 x12 x13 x14 x15 x16 x17 x18 x19 x20 x21 x22 x23 x24 _ x26 =>
    mkProps x0 x1 x2 x3 x4 x5 x6 x7 x8 x9 x10 x11 x12 x13 x14 x15 x16 x17 x18 x19 x20 x21 x22 x23 x24 v x26 end.
Definition set_user_properties (v : list UserProperty) (p : MqttProperties) : MqttProperties :=
  match p with mkProps x0 x1 x2 x3 x4 x5 x6 x7 x8 x9 x10 x11 x12 x13 x14 x15 x16 x17 x18 x19 x20 x21 x22 x23 x24 x25 _ =>
    mkProps x0 x1 x2 x3 x4 x5 x6 x7 x8 x9 x10 x11 x12 x13 x14 x15 x16 x17 x18 x19 x20 x21 x22 x23 x24 x25 v end.

(** * Packets *)
Record MqttConnectPacket : Type := mkConnect {
  cp_protocol_level : ProtocolLevel;
  cp_connect_flags : Z;
  cp_keep_alive : Z;
  cp_client_id : bytes;
  cp_will_topic : option bytes;
  cp_will_payload : option bytes;
  cp_username : option bytes;
  cp_password : option bytes;
  cp_properties : MqttProperties;
  cp_will_properties : MqttProperties
}.

Record MqttConnackPacket : Type := mkConnack {
  ca_session_present : Z;
  ca_reason_code : Z;
  ca_properties : MqttProperties
}.

Record MqttPublishPacket : Type := mkPublish {
  pb_dup : Z;
  pb_qos : QoS;
  pb_retain : Z;
  pb_topic : bytes;
  pb_packet_id : option Z;
  pb_payload : bytes;
  pb_properties : MqttProperties
}.

(** [MqttPubackPacket], [MqttPubrecPacket], [MqttPubrelPacket], [MqttPubcompPacket]:
    four structures with the same members. *)
Record MqttAckPacket : Type := mkAck {
  ack_packet_id : Z;
  ack_reason_code : Z;
  ack_properties : MqttProperties
}.

Record MqttSubOption : Type := mkSubOption {
  so_topic_filter : bytes;
  so_maximum_qos : QoS;
  so_no_local : Z;
  so_retain_as_published : Z;
  so_retain_handling : Z
}.

Record MqttSubscribePacket : Type := mkSubscribe {
  sb_packet_id : Z;
  sb_subscriptions : list MqttSubOption;
  sb_properties : MqttProperties
}.

Record MqttUnsubscribePacket : Type := mkUnsubscribe {
  us_packet_id : Z;
  us_topic_filters : list bytes;
  us_properties : MqttProperties
}.

(** [MqttDisconnectPacket] and [MqttAuthPacket]. *)
Record MqttReasonPacket : Type := mkReason {
  rp_reason_code : Z;
  rp_properties : MqttProperties
}.

(** * Lemmas *)
Lemma PacketType_cast_val t : PacketType_cast (PacketType_val t) = t.
Proof. by destruct t. Qed.

Lemma PropertyId_cast_val id : PropertyId_cast (PropertyId_val id) = Some id.
Proof. by destruct id. Qed.

Lemma PropertyId_val_u8 id : is_u8 (PropertyId_val id).
Proof. unfold is_u8. destruct id; simpl; lia. Qed.
