(* ===== verification/MqttProperties.v ===== *)
(** MQTT 5 properties: [protocol/mqtt/src/mqtt_properties.cpp].

    The encoder writes the members that are present, in a fixed order, to a scratch
    buffer and prefixes its length; the decoder is a loop over identifiers. The
    specification between them is the list of (identifier, value) items of a
    property set: encoding writes the items one after the other, decoding folds
    [apply_prop] over them. *)
From S2P Require Import Prelude ByteBuffer ByteBufferFacts MqttProtocol.

Module MqttProperties.

(** * [MqttProperties] members *)
Definition is_some {A} (o : option A) : bool := match o with Some _ => true | None => false end.
Definition is_empty {A} (l : list A) : bool := match l with [] => true | _ => false end.

Definition has_any (p : MqttProperties) : bool :=
  is_some (p.(payload_format_indicator)) ||
  is_some (p.(message_expiry_interval)) ||
  is_some (p.(content_type)) ||
  is_some (p.(response_topic)) ||
  is_some (p.(correlation_data)) ||
  is_some (p.(subscription_identifier)) ||
  is_some (p.(session_expiry_interval)) ||
  is_some (p.(assigned_client_identifier)) ||
  is_some (p.(server_keep_alive)) ||
  is_some (p.(authentication_method)) ||
  is_some (p.(authentication_data)) ||
  is_some (p.(request_problem_information)) ||
  is_some (p.(will_delay_interval)) ||
  is_some (p.(request_response_information)) ||
  is_some (p.(response_information)) ||
  is_some (p.(server_reference)) ||
  is_some (p.(reason_string)) ||
  is_some (p.(receive_maximum)) ||
  is_some (p.(topic_alias_maximum)) ||
  is_some (p.(topic_alias)) ||
  is_some (p.(maximum_qos)) ||
  is_some (p.(retain_available)) ||
  is_some (p.(maximum_packet_size)) ||
  is_some (p.(wildcard_subscription_available)) ||
  is_some (p.(subscription_identifier_available)) ||
  is_some (p.(shared_subscription_available)) ||
  negb (is_empty (p.(user_properties))).

(** Resetting every member, one assignment per member as in the code. *)
Definition clear (p : MqttProperties) : MqttProperties :=
  let p := set_payload_format_indicator None p in
  let p := set_message_expiry_interval None p in
  let p := set_content_type None p in
  let p := set_response_topic None p in
  let p := set_correlation_data None p in
  let p := set_subscription_identifier None p in
  let p := set_session_expiry_interval None p in
  let p := set_assigned_client_identifier None p in
  let p := set_server_keep_alive None p in
  let p := set_authentication_method None p in
  let p := set_authentication_data None p in
  let p := set_request_problem_information None p in
  let p := set_will_delay_interval None p in
  let p := set_request_response_information None p in
  let p := set_response_information None p in
  let p := set_server_reference None p in
  let p := set_reason_string None p in
  let p := set_receive_maximum None p in
  let p := set_topic_alias_maximum None p in
  let p := set_topic_alias None p in
  let p := set_maximum_qos None p in
  let p := set_retain_available None p in
  let p := set_maximum_packet_size None p in
  let p := set_wildcard_subscription_available None p in
  let p := set_subscription_identifier_available None p in
  let p := set_shared_subscription_available None p in
  set_user_properties [] p.

Definition variable_byte_int_size (value : Z) : Z :=
  if value <? 128 then 1
  else if value <? 16384 then 2
  else if value <? 2097152 then 3
  else 4.

(** [if (opt) total += n] *)
Definition opt_size {A} (o : option A) (n : A -> Z) : Z := match o with Some a => n a | None => 0 end.

Definition encoded_size (p : MqttProperties) : Z :=
  opt_size (p.(payload_format_indicator)) (fun _ => 2) +
  opt_size (p.(message_expiry_interval)) (fun _ => 5) +
  opt_size (p.(content_type)) (fun s => 1 + 2 + zlen s) +
  opt_size (p.(response_topic)) (fun s => 1 + 2 + zlen s) +
  opt_size (p.(correlation_data)) (fun s => 1 + 2 + zlen s) +
  opt_size (p.(subscription_identifier)) (fun v => 1 + variable_byte_int_size v) +
  opt_size (p.(session_expiry_interval)) (fun _ => 5) +
  opt_size (p.(assigned_client_identifier)) (fun s => 1 + 2 + zlen s) +
  opt_size (p.(server_keep_alive)) (fun _ => 3) +
  opt_size (p.(authentication_method)) (fun s => 1 + 2 + zlen s) +
  opt_size (p.(authentication_data)) (fun s => 1 + 2 + zlen s) +
  opt_size (p.(request_problem_information)) (fun _ => 2) +
  opt_size (p.(will_delay_interval)) (fun _ => 5) +
  opt_size (p.(request_response_information)) (fun _ => 2) +
  opt_size (p.(response_information)) (fun s => 1 + 2 + zlen s) +
  opt_size (p.(server_reference)) (fun s => 1 + 2 + zlen s) +
  opt_size (p.(reason_string)) (fun s => 1 + 2 + zlen s) +
  opt_size (p.(receive_maximum)) (fun _ => 3) +
  opt_size (p.(topic_alias_maximum)) (fun _ => 3) +
  opt_size (p.(topic_alias)) (fun _ => 3) +
  opt_size (p.(maximum_qos)) (fun _ => 2) +
  opt_size (p.(retain_available)) (fun _ => 2) +
  opt_size (p.(maximum_packet_size)) (fun _ => 5) +
  opt_size (p.(wildcard_subscription_available)) (fun _ => 2) +
  opt_size (p.(subscription_identifier_available)) (fun _ => 2) +
  opt_size (p.(shared_subscription_available)) (fun _ => 2) +
  foldr (fun up total => 1 + 2 + zlen (up_key up) + 2 + zlen (up_value up) + total) 0 (p.(user_properties)).

(** * Encoding *)
Section Encode.
Context {B : Type} `{ByteSink B}.
Local Open Scope W.

(** The [do .. while (value > 0)] of [encode_variable_byte_int]; a [uint32_t]
    takes at most five rounds. *)
Fixpoint encode_variable_byte_int_loop (fuel : nat) (value : Z) : writer B :=
  match fuel with
  | O => fun _ => Diverge
  | S fuel =>
      let byte := Z.land value 127 in
      let value := Z.shiftr value 7 in
      let byte := if 0 <? value then Z.lor byte 128 else byte in
      sink_u8 byte ;;
      w_if (0 <? value) (encode_variable_byte_int_loop fuel value)
  end.
Definition encode_variable_byte_int (value : Z) : writer B := encode_variable_byte_int_loop 5 value.

Definition write_utf8_string (s : bytes) : writer B :=
  sink_u16 (u16 (zlen s)) ;; sink_append s.

Definition write_binary_data (data : bytes) : writer B :=
  sink_u16 (u16 (zlen data)) ;; w_if (negb (is_empty data)) (sink_append data).

Definition write_byte_prop (id : PropertyId) (val : Z) : writer B :=
  sink_u8 (PropertyId_val id) ;; sink_u8 val.
Definition write_u16_prop (id : PropertyId) (val : Z) : writer B :=
  sink_u8 (PropertyId_val id) ;; sink_u16 val.
Definition write_u32_prop (id : PropertyId) (val : Z) : writer B :=
  sink_u8 (PropertyId_val id) ;; sink_u32 val.
Definition write_str_prop (id : PropertyId) (s : bytes) : writer B :=
  sink_u8 (PropertyId_val id) ;; write_utf8_string s.
Definition write_bin_prop (id : PropertyId) (s : bytes) : writer B :=
  sink_u8 (PropertyId_val id) ;; write_binary_data s.
Definition write_var_prop (id : PropertyId) (val : Z) : writer B :=
  sink_u8 (PropertyId_val id) ;; encode_variable_byte_int val.
Definition write_user_prop (up : UserProperty) : writer B :=
  sink_u8 (PropertyId_val USER_PROPERTY) ;; write_utf8_string (up_key up) ;; write_utf8_string (up_value up).

(** The body that fills [prop_buf]. *)
Definition write_members (p : MqttProperties) : writer B :=
  w_opt (p.(payload_format_indicator)) (write_byte_prop PAYLOAD_FORMAT_INDICICATOR) ;;
  w_opt (p.(message_expiry_interval)) (write_u32_prop MESSAGE_EXPIRY_INTERVAL) ;;
  w_opt (p.(content_type)) (write_str_prop CONTENT_TYPE) ;;
  w_opt (p.(response_topic)) (write_str_prop RESPONSE_TOPIC) ;;
  w_opt (p.(correlation_data)) (write_bin_prop CORRELATION_DATA) ;;
  w_opt (p.(subscription_identifier)) (write_var_prop SUBSCRIPTION_IDENTIFIER) ;;
  w_opt (p.(session_expiry_interval)) (write_u32_prop SESSION_EXPIRY_INTERVAL) ;;
  w_opt (p.(assigned_client_identifier)) (write_str_prop ASSIGNED_CLIENT_IDENTIFIER) ;;
  w_opt (p.(server_keep_alive)) (write_u16_prop SERVER_KEEP_ALIVE) ;;
  w_opt (p.(authentication_method)) (write_str_prop AUTHENTICATION_METHOD) ;;
  w_opt (p.(authentication_data)) (write_bin_prop AUTHENTICATION_DATA) ;;
  w_opt (p.(request_problem_information)) (write_byte_prop REQUEST_PROBLEM_INFORMATION) ;;
  w_opt (p.(will_delay_interval)) (write_u32_prop WILL_DELAY_INTERVAL) ;;
  w_opt (p.(request_response_information)) (write_byte_prop REQUEST_RESPONSE_INFORMATION) ;;
  w_opt (p.(response_information)) (write_str_prop RESPONSE_INFORMATION) ;;
  w_opt (p.(server_reference)) (write_str_prop SERVER_REFERENCE) ;;
  w_opt (p.(reason_string)) (write_str_prop REASON_STRING) ;;
  w_opt (p.(receive_maximum)) (write_u16_prop RECEIVE_MAXIMUM) ;;
  w_opt (p.(topic_alias_maximum)) (write_u16_prop TOPIC_ALIAS_MAXIMUM) ;;
  w_opt (p.(topic_alias)) (write_u16_prop TOPIC_ALIAS) ;;
  w_opt (p.(maximum_qos)) (write_byte_prop MAXIMUM_QOS) ;;
  w_opt (p.(retain_available)) (write_byte_prop RETAIN_AVAILABLE) ;;
  w_opt (p.(maximum_packet_size)) (write_u32_prop MAXIMUM_PACKET_SIZE) ;;
  w_opt (p.(wildcard_subscription_available)) (write_byte_prop WILDCARD_SUBSCRIPTION_AVAILABLE) ;;
  w_opt (p.(subscription_identifier_available)) (write_byte_prop SUBSCRIPTION_IDENTIFIER_AVAILABLE) ;;
  w_opt (p.(shared_subscription_available)) (write_byte_prop SHARED_SUBSCRIPTION_AVAILABLE) ;;
  w_for (p.(user_properties)) write_user_prop.

Definition encode_properties (p : MqttProperties) : writer B := fun buf =>
  if negb (has_any p) then encode_variable_byte_int 0 buf
  else
    prop_buf ← w_run (encoded_size p + 4) (write_members p);
    (encode_variable_byte_int (u32 (sink_write_offset prop_buf)) ;;
     sink_append (sink_contents prop_buf)) buf.
End Encode.

(** * Decoding

    A reader takes the data, the end it may not pass and an offset, and returns its
    result with the advanced offset; the failure value ([nullopt], or the [0] of
    [decode_properties]) is [Reject]. The offset a failing reader leaves behind is
    not returned: every caller gives up on a failure. *)
Fixpoint decode_variable_byte_int_loop (n : nat) (data : bytes) (len offset : Z)
    (value multiplier consumed : Z) : outcome (Z * Z) :=
  match n with
  | O => Reject
  | S n =>
      if offset + consumed <? len then
        byte ← rd data (offset + consumed);
        let value := u32 (value + Z.land byte 127 * multiplier) in
        let multiplier := u32 (multiplier * 128) in
        if Z.land byte 128 =? 0 then Ok (value, offset + (consumed + 1))
        else decode_variable_byte_int_loop n data len offset value multiplier (consumed + 1)
      else Reject
  end.
Definition decode_variable_byte_int (data : bytes) (len offset : Z) : outcome (Z * Z) :=
  decode_variable_byte_int_loop 4 data len offset 0 1 0.

Definition read_utf8_string (data : bytes) (len offset : Z) : outcome (bytes * Z) :=
  if len <? offset + 2 then Reject
  else
    hi ← rd data offset; lo ← rd data (offset + 1);
    let slen := u16 (Z.lor (Z.shiftl hi 8) lo) in
    let offset := offset + 2 in
    if len <? offset + slen then Reject
    else result ← rd_range data offset slen; Ok (result, offset + slen).

Definition read_binary_data (data : bytes) (len offset : Z) : outcome (bytes * Z) :=
  if len <? offset + 2 then Reject
  else
    hi ← rd data offset; lo ← rd data (offset + 1);
    let dlen := u16 (Z.lor (Z.shiftl hi 8) lo) in
    let offset := offset + 2 in
    if len <? offset + dlen then Reject
    else result ← rd_range data offset dlen; Ok (result, offset + dlen).

(** The inline reads of the switch: one byte, a 16-bit and a 32-bit integer. *)
Definition read_prop_u8 (data : bytes) (prop_end offset : Z) : outcome (Z * Z) :=
  if prop_end <? offset + 1 then Reject else b ← rd data offset; Ok (b, offset + 1).
Definition read_prop_u16 (data : bytes) (prop_end offset : Z) : outcome (Z * Z) :=
  if prop_end <? offset + 2 then Reject
  else
    a ← rd data offset; b ← rd data (offset + 1);
    Ok (u16 (Z.lor (Z.shiftl a 8) b), offset + 2).
Definition read_prop_u32 (data : bytes) (prop_end offset : Z) : outcome (Z * Z) :=
  if prop_end <? offset + 4 then Reject
  else
    a ← rd data offset; b ← rd data (offset + 1); c ← rd data (offset + 2); d ← rd data (offset + 3);
    Ok (u32 (Z.lor (Z.lor (Z.lor (Z.shiftl a 24) (Z.shiftl b 16)) (Z.shiftl c 8)) d), offset + 4).
Definition read_user_property (data : bytes) (prop_end offset : Z) : outcome (UserProperty * Z) :=
  '(k, offset) ← read_utf8_string data prop_end offset;
  '(v, offset) ← read_utf8_string data prop_end offset;
  Ok (mkUserProperty k v, offset).

(** A case of the switch: read a value and assign the member. *)
Definition assign {A} (set : A -> MqttProperties -> MqttProperties) (p : MqttProperties)
    (r : outcome (A * Z)) : outcome (MqttProperties * Z) :=
  '(v, offset) ← r; Ok (set v p, offset).

(** The switch of [decode_properties], its cases from REQUEST_PROBLEM_INFORMATION on. *)
Definition decode_property_tail (id : PropertyId) (data : bytes) (prop_end offset : Z) (p : MqttProperties)
    : outcome (MqttProperties * Z) :=
  match id with
  | REQUEST_PROBLEM_INFORMATION => assign (fun v => set_request_problem_information (Some v)) p (read_prop_u8 data prop_end offset)
  | WILL_DELAY_INTERVAL => assign (fun v => set_will_delay_interval (Some v)) p (read_prop_u32 data prop_end offset)
  | REQUEST_RESPONSE_INFORMATION => assign (fun v => set_request_response_information (Some v)) p (read_prop_u8 data prop_end offset)
  | RESPONSE_INFORMATION => assign (fun v => set_response_information (Some v)) p (read_utf8_string data prop_end offset)
  | SERVER_REFERENCE => assign (fun v => set_server_reference (Some v)) p (read_utf8_string data prop_end offset)
  | REASON_STRING => assign (fun v => set_reason_string (Some v)) p (read_utf8_string data prop_end offset)
  | RECEIVE_MAXIMUM => assign (fun v => set_receive_maximum (Some v)) p (read_prop_u16 data prop_end offset)
  | TOPIC_ALIAS_MAXIMUM => assign (fun v => set_topic_alias_maximum (Some v)) p (read_prop_u16 data prop_end offset)
  | TOPIC_ALIAS => assign (fun v => set_topic_alias (Some v)) p (read_prop_u16 data prop_end offset)
  | MAXIMUM_QOS => assign (fun v => set_maximum_qos (Some v)) p (read_prop_u8 data prop_end offset)
  | RETAIN_AVAILABLE => assign (fun v => set_retain_available (Some v)) p (read_prop_u8 data prop_end offset)
  | MAXIMUM_PACKET_SIZE => assign (fun v => set_maximum_packet_size (Some v)) p (read_prop_u32 data prop_end offset)
  | WILDCARD_SUBSCRIPTION_AVAILABLE => assign (fun v => set_wildcard_subscription_available (Some v)) p (read_prop_u8 data prop_end offset)
  | SUBSCRIPTION_IDENTIFIER_AVAILABLE => assign (fun v => set_subscription_identifier_available (Some v)) p (read_prop_u8 data prop_end offset)
  | SHARED_SUBSCRIPTION_AVAILABLE => assign (fun v => set_shared_subscription_available (Some v)) p (read_prop_u8 data prop_end offset)
  | USER_PROPERTY =>
      assign (fun up p => set_user_properties (user_properties p ++ [up]) p) p
        (read_user_property data prop_end offset)
  | _ => Reject
  end.

(** One iteration's switch. *)
Definition decode_property (id : PropertyId) (data : bytes) (prop_end offset : Z) (p : MqttProperties)
    : outcome (MqttProperties * Z) :=
  match id with
  | PAYLOAD_FORMAT_INDICICATOR => assign (fun v => set_payload_format_indicator (Some v)) p (read_prop_u8 data prop_end offset)
  | MESSAGE_EXPIRY_INTERVAL => assign (fun v => set_message_expiry_interval (Some v)) p (read_prop_u32 data prop_end offset)
  | CONTENT_TYPE => assign (fun v => set_content_type (Some v)) p (read_utf8_string data prop_end offset)
  | RESPONSE_TOPIC => assign (fun v => set_response_topic (Some v)) p (read_utf8_string data prop_end offset)
  | CORRELATION_DATA => assign (fun v => set_correlation_data (Some v)) p (read_binary_data data prop_end offset)
  | SUBSCRIPTION_IDENTIFIER => assign (fun v => set_subscription_identifier (Some v)) p (decode_variable_byte_int data prop_end offset)
  | SESSION_EXPIRY_INTERVAL => assign (fun v => set_session_expiry_interval (Some v)) p (read_prop_u32 data prop_end offset)
  | ASSIGNED_CLIENT_IDENTIFIER => assign (fun v => set_assigned_client_identifier (Some v)) p (read_utf8_string data prop_end offset)
  | SERVER_KEEP_ALIVE => assign (fun v => set_server_keep_alive (Some v)) p (read_prop_u16 data prop_end offset)
  | AUTHENTICATION_METHOD => assign (fun v => set_authentication_method (Some v)) p (read_utf8_string data prop_end offset)
  | AUTHENTICATION_DATA => assign (fun v => set_authentication_data (Some v)) p (read_binary_data data prop_end offset)
  | id => decode_property_tail id data prop_end offset p
  end.

(** [while (offset < prop_end)]; every iteration consumes at least the identifier,
    so [prop_end - offset] rounds are enough. *)
Fixpoint decode_properties_loop (fuel : nat) (data : bytes) (prop_end offset : Z) (p : MqttProperties)
    : outcome (MqttProperties * Z) :=
  if offset <? prop_end then
    match fuel with
    | O => Diverge
    | S fuel =>
        id ← rd data offset;
        match PropertyId_cast id with
        | Some id =>
            '(p, offset) ← decode_property id data prop_end (offset + 1) p;
            decode_properties_loop fuel data prop_end offset p
        | None => Reject
        end
    end
  else Ok (p, offset).

(** The result is the returned size together with the two reference arguments. *)
Definition decode_properties (data : bytes) (len offset : Z) (props : MqttProperties)
    : outcome (Z * MqttProperties * Z) :=
  if len <=? offset then Reject
  else
    let prop_start := offset in
    '(prop_len, offset) ← decode_variable_byte_int data len offset;
    let prop_end := offset + prop_len in
    if len <? prop_end then Reject
    else
      '(props, offset) ← decode_properties_loop (Z.to_nat (prop_end - offset)) data prop_end offset props;
      Ok (prop_end - prop_start, props, offset).

(** The callers' [if (decode_properties(...) == 0) return nullopt]. *)
Definition read_properties (data : bytes) (len offset : Z) (props : MqttProperties)
    : outcome (MqttProperties * Z) :=
  '(n, props, offset) ← decode_properties data len offset props;
  if n =? 0 then Reject else Ok (props, offset).

(** * Specification: a property set as a list of items *)
Inductive prop_value : Type :=
| PByte (v : Z) | PU16 (v : Z) | PU32 (v : Z) | PVar (v : Z)
| PStr (s : bytes) | PBin (s : bytes) | PPair (up : UserProperty).

Abbreviation item := (PropertyId * prop_value)%type (only parsing).

(** The bytes of a variable byte integer (MQTT 5, section 1.5.5). *)
Fixpoint vbi (n : nat) (v : Z) : bytes :=
  match n with
  | O => []
  | S n => if v <? 128 then [v] else (v mod 128 + 128) :: vbi n (v / 128)
  end.

Definition prefixed (s : bytes) : bytes := be16 (u16 (zlen s)) ++ s.

#[global] Arguments prefixed : simpl never.
#[global] Arguments vbi : simpl never.

Definition enc_value (v : prop_value) : bytes :=
  match v with
  | PByte v => [u8 v] | PU16 v => be16 v | PU32 v => be32 v | PVar v => vbi 5 v
  | PStr s | PBin s => prefixed s
  | PPair up => prefixed (up_key up) ++ prefixed (up_value up)
  end.
Definition enc_item (i : item) : bytes := PropertyId_val i.1 :: enc_value i.2.

Definition opt_item {A} (o : option A) (id : PropertyId) (k : A -> prop_value) : list item :=
  match o with Some v => [(id, k v)] | None => [] end.

Definition props_items (p : MqttProperties) : list item :=
  opt_item (p.(payload_format_indicator)) PAYLOAD_FORMAT_INDICICATOR PByte ++
  opt_item (p.(message_expiry_interval)) MESSAGE_EXPIRY_INTERVAL PU32 ++
  opt_item (p.(content_type)) CONTENT_TYPE PStr ++
  opt_item (p.(response_topic)) RESPONSE_TOPIC PStr ++
  opt_item (p.(correlation_data)) CORRELATION_DATA PBin ++
  opt_item (p.(subscription_identifier)) SUBSCRIPTION_IDENTIFIER PVar ++
  opt_item (p.(session_expiry_interval)) SESSION_EXPIRY_INTERVAL PU32 ++
  opt_item (p.(assigned_client_identifier)) ASSIGNED_CLIENT_IDENTIFIER PStr ++
  opt_item (p.(server_keep_alive)) SERVER_KEEP_ALIVE PU16 ++
  opt_item (p.(authentication_method)) AUTHENTICATION_METHOD PStr ++
  opt_item (p.(authentication_data)) AUTHENTICATION_DATA PBin ++
  opt_item (p.(request_problem_information)) REQUEST_PROBLEM_INFORMATION PByte ++
  opt_item (p.(will_delay_interval)) WILL_DELAY_INTERVAL PU32 ++
  opt_item (p.(request_response_information)) REQUEST_RESPONSE_INFORMATION PByte ++
  opt_item (p.(response_information)) RESPONSE_INFORMATION PStr ++
  opt_item (p.(server_reference)) SERVER_REFERENCE PStr ++
  opt_item (p.(reason_string)) REASON_STRING PStr ++
  opt_item (p.(receive_maximum)) RECEIVE_MAXIMUM PU16 ++
  opt_item (p.(topic_alias_maximum)) TOPIC_ALIAS_MAXIMUM PU16 ++
  opt_item (p.(topic_alias)) TOPIC_ALIAS PU16 ++
  opt_item (p.(maximum_qos)) MAXIMUM_QOS PByte ++
  opt_item (p.(retain_available)) RETAIN_AVAILABLE PByte ++
  opt_item (p.(maximum_packet_size)) MAXIMUM_PACKET_SIZE PU32 ++
  opt_item (p.(wildcard_subscription_available)) WILDCARD_SUBSCRIPTION_AVAILABLE PByte ++
  opt_item (p.(subscription_identifier_available)) SUBSCRIPTION_IDENTIFIER_AVAILABLE PByte ++
  opt_item (p.(shared_subscription_available)) SHARED_SUBSCRIPTION_AVAILABLE PByte ++
  map (fun up => (USER_PROPERTY, PPair up)) (p.(user_properties)).

(** The bytes [encode_properties] is to write. *)
Definition enc_items (l : list item) : bytes := concat (map enc_item l).
Definition enc_props (p : MqttProperties) : bytes :=
  let body := enc_items (props_items p) in vbi 5 (u32 (zlen body)) ++ body.

(** The effect of decoding one item. *)
Definition apply_prop (p : MqttProperties) (i : item) : MqttProperties :=
  match i with
  | (PAYLOAD_FORMAT_INDICICATOR, PByte v) => set_payload_format_indicator (Some v) p
  | (MESSAGE_EXPIRY_INTERVAL, PU32 v) => set_message_expiry_interval (Some v) p
  | (CONTENT_TYPE, PStr v) => set_content_type (Some v) p
  | (RESPONSE_TOPIC, PStr v) => set_response_topic (Some v) p
  | (CORRELATION_DATA, PBin v) => set_correlation_data (Some v) p
  | (SUBSCRIPTION_IDENTIFIER, PVar v) => set_subscription_identifier (Some v) p
  | (SESSION_EXPIRY_INTERVAL, PU32 v) => set_session_expiry_interval (Some v) p
  | (ASSIGNED_CLIENT_IDENTIFIER, PStr v) => set_assigned_client_identifier (Some v) p
  | (SERVER_KEEP_ALIVE, PU16 v) => set_server_keep_alive (Some v) p
  | (AUTHENTICATION_METHOD, PStr v) => set_authentication_method (Some v) p
  | (AUTHENTICATION_DATA, PBin v) => set_authentication_data (Some v) p
  | (REQUEST_PROBLEM_INFORMATION, PByte v) => set_request_problem_information (Some v) p
  | (WILL_DELAY_INTERVAL, PU32 v) => set_will_delay_interval (Some v) p
  | (REQUEST_RESPONSE_INFORMATION, PByte v) => set_request_response_information (Some v) p
  | (RESPONSE_INFORMATION, PStr v) => set_response_information (Some v) p
  | (SERVER_REFERENCE, PStr v) => set_server_reference (Some v) p
  | (REASON_STRING, PStr v) => set_reason_string (Some v) p
  | (RECEIVE_MAXIMUM, PU16 v) => set_receive_maximum (Some v) p
  | (TOPIC_ALIAS_MAXIMUM, PU16 v) => set_topic_alias_maximum (Some v) p
  | (TOPIC_ALIAS, PU16 v) => set_topic_alias (Some v) p
  | (MAXIMUM_QOS, PByte v) => set_maximum_qos (Some v) p
  | (RETAIN_AVAILABLE, PByte v) => set_retain_available (Some v) p
  | (MAXIMUM_PACKET_SIZE, PU32 v) => set_maximum_packet_size (Some v) p
  | (WILDCARD_SUBSCRIPTION_AVAILABLE, PByte v) => set_wildcard_subscription_available (Some v) p
  | (SUBSCRIPTION_IDENTIFIER_AVAILABLE, PByte v) => set_subscription_identifier_available (Some v) p
  | (SHARED_SUBSCRIPTION_AVAILABLE, PByte v) => set_shared_subscription_available (Some v) p
  | (USER_PROPERTY, PPair up) => set_user_properties (user_properties p ++ [up]) p
  | _ => p
  end.

(** The value of an item is of the kind its identifier has, within its width. *)
Definition str_ok (s : bytes) : Prop := zlen s < 65536.
Definition item_ok (i : item) : Prop :=
  match i with
  | (PAYLOAD_FORMAT_INDICICATOR, PByte v) => is_u8 v
  | (MESSAGE_EXPIRY_INTERVAL, PU32 v) => is_u32 v
  | (CONTENT_TYPE, PStr v) => str_ok v
  | (RESPONSE_TOPIC, PStr v) => str_ok v
  | (CORRELATION_DATA, PBin v) => str_ok v
  | (SUBSCRIPTION_IDENTIFIER, PVar v) => 0 <= v < 268435456
  | (SESSION_EXPIRY_INTERVAL, PU32 v) => is_u32 v
  | (ASSIGNED_CLIENT_IDENTIFIER, PStr v) => str_ok v
  | (SERVER_KEEP_ALIVE, PU16 v) => is_u16 v
  | (AUTHENTICATION_METHOD, PStr v) => str_ok v
  | (AUTHENTICATION_DATA, PBin v) => str_ok v
  | (REQUEST_PROBLEM_INFORMATION, PByte v) => is_u8 v
  | (WILL_DELAY_INTERVAL, PU32 v) => is_u32 v
  | (REQUEST_RESPONSE_INFORMATION, PByte v) => is_u8 v
  | (RESPONSE_INFORMATION, PStr v) => str_ok v
  | (SERVER_REFERENCE, PStr v) => str_ok v
  | (REASON_STRING, PStr v) => str_ok v
  | (RECEIVE_MAXIMUM, PU16 v) => is_u16 v
  | (TOPIC_ALIAS_MAXIMUM, PU16 v) => is_u16 v
  | (TOPIC_ALIAS, PU16 v) => is_u16 v
  | (MAXIMUM_QOS, PByte v) => is_u8 v
  | (RETAIN_AVAILABLE, PByte v) => is_u8 v
  | (MAXIMUM_PACKET_SIZE, PU32 v) => is_u32 v
  | (WILDCARD_SUBSCRIPTION_AVAILABLE, PByte v) => is_u8 v
  | (SUBSCRIPTION_IDENTIFIER_AVAILABLE, PByte v) => is_u8 v
  | (SHARED_SUBSCRIPTION_AVAILABLE, PByte v) => is_u8 v
  | (USER_PROPERTY, PPair up) => str_ok (up_key up) /\ str_ok (up_value up)
  | _ => False
  end.

(** A property set that fits the wire format: every value in its width, every
    string short enough for its 16-bit prefix, the whole within a variable byte
    integer. *)
Definition props_ok (p : MqttProperties) : Prop :=
  Forall item_ok (props_items p) /\ zlen (enc_items (props_items p)) <= MQTT_MAX_REMAINING_LENGTH.

End MqttProperties.
