(* ===== verification/MqttPropertiesFacts.v ===== *)
(** MQTT 5 properties: the encoder writes the items of the specification, the
    decoder reads them back, and reads nothing outside its bounds. *)
From S2P Require Import Prelude ByteBuffer ByteBufferFacts MqttProtocol MqttProperties.
Import MqttProperties.

(** * Variable byte integers *)
Lemma set_high_bit b : 0 <= b < 128 -> Z.lor b 128 = b + 128.
Proof.
  intros. rewrite Z.lor_comm. pose proof (lor_shiftl_add 1 b 7) as E.
  change (Z.shiftl 1 7) with 128 in E. change (2 ^ 7) with 128 in E. rewrite E; lia.
Qed.

Lemma test_high_bit b : 0 <= b < 256 -> (Z.land b 128 =? 0) = (b <? 128).
Proof.
  intros Hb. destruct (Z.ltb_spec b 128).
  - assert (Z.land b 128 = 0) as ->; [|done].
    change 128 with (2 ^ 7). rewrite Z.land_comm. apply Z.bits_inj'. intros n Hn.
    rewrite Z.land_spec, Z.pow2_bits_eqb, Z.bits_0 by lia. destruct (Z.eqb_spec 7 n) as [<-|]; [|done].
    rewrite <- (Z.mod_small b (2 ^ 7)) by (change (2 ^ 7) with 128; lia).
    by rewrite Z.mod_pow2_bits_high by lia.
  - replace b with (Z.lor (b - 128) 128) by (rewrite set_high_bit; lia).
    apply Z.eqb_neq. intros E. apply (f_equal (fun z => Z.testbit z 7)) in E.
    rewrite Z.land_spec, Z.lor_spec in E. change (Z.testbit 128 7) with true in E.
    rewrite orb_true_r in E. discriminate.
Qed.

Lemma vbi_S n v : vbi (S n) v = if v <? 128 then [v] else (v mod 128 + 128) :: vbi n (v / 128).
Proof. reflexivity. Qed.

Lemma vbi_len n v : (n <> 0)%nat -> 1 <= zlen (vbi n v).
Proof. destruct n; [done|]. rewrite vbi_S. case_if; zlia. Qed.

Lemma vbi_len_le n v : zlen (vbi n v) <= Z.of_nat n.
Proof.
  revert v; induction n as [|n IH]; intros v; [done|]. rewrite ?vbi_S.
  case_if; [zlia|]. specialize (IH (v / 128)). zlia.
Qed.

Lemma vbi_u8 n v : 0 <= v -> Forall is_u8 (vbi n v).
Proof.
  revert v; induction n as [|n IH]; intros v Hv; [constructor|]. rewrite ?vbi_S.
  case_if; repeat apply Forall_cons_2; try apply IH; try constructor;
    unfold is_u8; Z.to_euclidean_division_equations; lia.
Qed.

Lemma vbi_fuel n m v : v < 128 ^ Z.of_nat n -> (n <= m)%nat -> (n <> 0)%nat -> vbi m v = vbi n v.
Proof.
  revert m v; induction n as [|n IH]; intros m v Hv Hm Hn; [done|].
  destruct m as [|m]; [lia|]. rewrite ?vbi_S. case_if; [done|]. f_equal.
  rewrite Nat2Z.inj_succ, Z.pow_succ_r in Hv by lia.
  apply IH; [|lia|].
  - apply Z.div_lt_upper_bound; lia.
  - intros ->. simpl in Hv. lia.
Qed.

Section EncodeVbi.
Context {B : Type} `{ByteSink B}.

Lemma emits_vbi_loop n v : 0 <= v < 128 ^ Z.of_nat n -> (n <> 0)%nat ->
  emits (encode_variable_byte_int_loop n v) (vbi n v).
Proof.
  revert v; induction n as [|n IH]; intros v Hv Hn; [done|].
  cbn [encode_variable_byte_int_loop]. rewrite vbi_S. rewrite land_127, shiftr_7.
  rewrite Nat2Z.inj_succ, Z.pow_succ_r in Hv by lia.
  destruct (Z.ltb_spec v 128) as [Hlt|Hge].
  - replace (v / 128) with 0 by (symmetry; apply Z.div_small; lia). simpl.
    eapply emits_eq; [eauto with emits|].
    rewrite (Z.mod_small v 128), u8_id by (unfold is_u8; lia). done.
  - assert (0 < v / 128) as Hpos by (apply Z.div_str_pos; lia).
    case_if; [|lia]. simpl. rewrite set_high_bit by (apply Z.mod_pos_bound; lia).
    eapply emits_eq; [apply emits_seq; [apply emits_u8|apply IH]|].
    + split; [lia|]. apply Z.div_lt_upper_bound; lia.
    + intros ->. simpl in Hv. lia.
    + rewrite u8_id; [done|]. pose proof (Z.mod_pos_bound v 128). unfold is_u8. lia.
Qed.

Lemma emits_vbi v : is_u32 v -> emits (encode_variable_byte_int v) (vbi 5 v).
Proof. unfold is_u32. intros. apply emits_vbi_loop; [|done]. change (128 ^ Z.of_nat 5) with 34359738368. lia. Qed.
End EncodeVbi.

(** The decoder's loop adds the digits it meets to the value so far. *)
Lemma decode_vbi_loop n pre post hi o value mult c v :
  (n <> 0)%nat -> 0 <= v < 128 ^ Z.of_nat n -> 0 <= value < mult -> mult * 128 ^ Z.of_nat n <= 268435456 ->
  o + c = zlen pre -> zlen pre + zlen (vbi n v) <= hi ->
  decode_variable_byte_int_loop n (pre ++ vbi n v ++ post) hi o value mult c
  = Ok (value + v * mult, zlen pre + zlen (vbi n v)).
Proof.
  revert pre value mult c v. induction n as [|n IH]; intros pre value mult c v Hn Hv Hval Hmult Ho Hhi; [done|].
  cbn [decode_variable_byte_int_loop] in *. rewrite vbi_S in *.
  rewrite Nat2Z.inj_succ, Z.pow_succ_r in Hv, Hmult by lia.
  assert (mult * 128 <= 268435456) as Hm1.
  { assert (1 <= 128 ^ Z.of_nat n) by (pose proof (Z.pow_pos_nonneg 128 (Z.of_nat n)); lia). nia. }
  rewrite Ho. revert Hhi.
  destruct (Z.ltb_spec v 128) as [Hlt|Hge]; intros Hhi.
  - case_if; [|zlia]. cbn [app]. rewrite rd_app. simpl. rewrite test_high_bit by lia.
    destruct (Z.ltb_spec v 128); [|lia]. rewrite land_127, Z.mod_small by lia.
    rewrite u32_id by (unfold is_u32; nia). f_equal. f_equal. zlia.
  - pose proof (Z.mod_pos_bound v 128) as Hmod.
    case_if; [|zlia]. cbn [app]. rewrite rd_app. simpl. rewrite test_high_bit by lia.
    destruct (Z.ltb_spec (v mod 128 + 128) 128); [lia|].
    rewrite land_127. replace ((v mod 128 + 128) mod 128) with (v mod 128)
      by (rewrite <- (Z.mul_1_l 128) at 3; rewrite Z_mod_plus_full, Zmod_mod; done).
    rewrite !u32_id by (unfold is_u32; nia).
    replace (pre ++ (v mod 128 + 128) :: vbi n (v / 128) ++ post)
      with ((pre ++ [v mod 128 + 128]) ++ vbi n (v / 128) ++ post) by (by rewrite <- app_assoc).
    rewrite IH.
    + f_equal. f_equal; [|zlia]. rewrite (Z.div_mod v 128) at 3 by lia. lia.
    + intros ->. simpl in Hv. lia.
    + split; [apply Z.div_pos; lia|]. apply Z.div_lt_upper_bound; lia.
    + nia.
    + lia.
    + zlia.
    + zlia.
Qed.

Lemma decodes_vbi v : 0 <= v < 268435456 -> decodes decode_variable_byte_int (vbi 5 v) v.
Proof.
  intros Hv pre post hi Hhi. unfold decode_variable_byte_int.
  assert (128 ^ Z.of_nat 4 = 268435456) as E4 by reflexivity.
  rewrite (vbi_fuel 4 5) in * by lia.
  rewrite decode_vbi_loop by lia. f_equal. f_equal. lia.
Qed.

Lemma decode_vbi_bounds n data hi o value mult c :
  0 <= o -> 0 <= c -> hi <= zlen data ->
  in_bounds (o + c + 1) hi (decode_variable_byte_int_loop n data hi o value mult c).
Proof.
  revert value mult c; induction n as [|n IH]; intros value mult c Ho Hc Hhi; [exact I|].
  cbn [decode_variable_byte_int_loop]. case_if; [|exact I].
  apply in_bounds_read; [apply rd_safe; lia|]. intros b _.
  case_if; [simpl; lia|]. eapply in_bounds_weaken; [apply IH|..]; lia.
Qed.

Lemma decode_vbi_nonneg n data hi o value mult c v o' :
  0 <= value -> decode_variable_byte_int_loop n data hi o value mult c = Ok (v, o') -> 0 <= v.
Proof.
  revert value mult c; induction n as [|n IH]; intros value mult c Hv H; [discriminate|].
  cbn [decode_variable_byte_int_loop] in H. case_if_in H; [|discriminate].
  apply outcome_bind_inv in H as (b & _ & H).
  case_if_in H; [injection H as <- _; apply u32_range|]. eapply IH; [|exact H]. apply u32_range.
Qed.

Lemma decode_vbi_offset n data hi o value mult c v o' :
  decode_variable_byte_int_loop n data hi o value mult c = Ok (v, o') -> o + c < o'.
Proof.
  revert value mult c; induction n as [|n IH]; intros value mult c H; [discriminate|].
  cbn [decode_variable_byte_int_loop] in H. case_if_in H; [|discriminate].
  apply outcome_bind_inv in H as (b & _ & H).
  case_if_in H; [injection H as _ <-; lia|]. apply IH in H. lia.
Qed.

(** * Reading what was written, value by value *)
Lemma decodes_eq {A} (r : bytes -> Z -> Z -> outcome (A * Z)) c c' a :
  decodes r c a -> c = c' -> decodes r c' a.
Proof. by intros ? <-. Qed.

(** The offset of the byte after [x] is that of [x] plus one. *)
Lemma rd_app1 pre x b post i : i = zlen pre + 1 -> rd (pre ++ x :: b :: post) i = Ok b.
Proof.
  intros ->. replace (pre ++ x :: b :: post) with ((pre ++ [x]) ++ b :: post) by (by rewrite <- app_assoc).
  replace (zlen pre + 1) with (zlen (pre ++ [x])) by zlia. apply rd_app.
Qed.
Lemma rd_app2 pre x y b post i : i = zlen pre + 2 -> rd (pre ++ x :: y :: b :: post) i = Ok b.
Proof.
  intros ->. replace (pre ++ x :: y :: b :: post) with ((pre ++ [x]) ++ y :: b :: post) by (by rewrite <- app_assoc).
  apply rd_app1. zlia.
Qed.
Lemma rd_app3 pre x y z b post i : i = zlen pre + 3 -> rd (pre ++ x :: y :: z :: b :: post) i = Ok b.
Proof.
  intros ->. replace (pre ++ x :: y :: z :: b :: post) with ((pre ++ [x]) ++ y :: z :: b :: post) by (by rewrite <- app_assoc).
  apply rd_app2. zlia.
Qed.

Lemma decodes_u8 v : is_u8 v -> decodes read_prop_u8 [u8 v] v.
Proof.
  intros Hv pre post hi Hhi. unfold read_prop_u8. autorewrite with zlen in *.
  case_if; [lia|]. cbn [app]. rewrite rd_app. simpl. by rewrite u8_id.
Qed.

Lemma decodes_u16 v : is_u16 v -> decodes read_prop_u16 (be16 v) v.
Proof.
  intros Hv pre post hi Hhi. unfold read_prop_u16, be16 in *. autorewrite with zlen in *.
  case_if; [lia|]. cbn [app]. rewrite rd_app. simpl.
  rewrite rd_app1 by done. simpl. by rewrite be16_decode.
Qed.

Lemma decodes_u32 v : is_u32 v -> decodes read_prop_u32 (be32 v) v.
Proof.
  intros Hv pre post hi Hhi. unfold read_prop_u32, be32 in *. autorewrite with zlen in *.
  case_if; [lia|]. cbn [app]. rewrite rd_app. simpl.
  rewrite (rd_app1 _ _ _ _ (zlen pre + 1)) by done. simpl.
  rewrite (rd_app2 _ _ _ _ _ (zlen pre + 2)) by done. simpl.
  rewrite (rd_app3 _ _ _ _ _ _ (zlen pre + 3)) by done. simpl. by rewrite be32_decode.
Qed.

Lemma zlen_prefixed s : zlen (prefixed s) = 2 + zlen s.
Proof. unfold prefixed. rewrite zlen_app, zlen_be16. lia. Qed.
#[export] Hint Rewrite zlen_prefixed : zlen.

Lemma decodes_str s : str_ok s -> decodes read_utf8_string (prefixed s) s.
Proof.
  unfold str_ok. intros Hs pre post hi Hhi. unfold read_utf8_string. autorewrite with zlen in *. zlen_pos.
  case_if; [lia|]. unfold prefixed, be16. rewrite <- app_assoc. cbn [app].
  rewrite rd_app. simpl. rewrite rd_app1 by done. simpl.
  rewrite be16_decode, u16_id by (try apply u16_range; unfold is_u16; lia).
  case_if; [lia|].
  replace (pre ++ u8 (Z.shiftr (zlen s) 8) :: u8 (zlen s) :: s ++ post)
    with ((pre ++ be16 (zlen s)) ++ s ++ post) by (by rewrite <- app_assoc).
  replace (zlen pre + 2) with (zlen (pre ++ be16 (zlen s))) by zlia.
  rewrite rd_range_app. simpl. f_equal. f_equal. zlia.
Qed.

Lemma decodes_bin s : str_ok s -> decodes read_binary_data (prefixed s) s.
Proof. exact (decodes_str s). Qed.

Lemma decodes_pair up : str_ok (up_key up) -> str_ok (up_value up) ->
  decodes read_user_property (prefixed (up_key up) ++ prefixed (up_value up)) up.
Proof.
  intros Hk Hv pre post hi Hhi. unfold read_user_property. autorewrite with zlen in Hhi. zlen_pos.
  rewrite <- app_assoc, (decodes_str _ Hk) by zlia. mstep.
  replace (pre ++ prefixed (up_key up) ++ prefixed (up_value up) ++ post)
    with ((pre ++ prefixed (up_key up)) ++ prefixed (up_value up) ++ post) by (by rewrite <- app_assoc).
  replace (zlen pre + zlen (prefixed (up_key up))) with (zlen (pre ++ prefixed (up_key up))) by zlia.
  rewrite (decodes_str _ Hv) by zlia. mstep. rewrite !zlen_app, Z.add_assoc. by destruct up.
Qed.

(** * Items *)
Lemma decode_property_item id v pre post hi p :
  item_ok (id, v) -> zlen pre + zlen (enc_value v) <= hi ->
  decode_property id (pre ++ enc_value v ++ post) hi (zlen pre) p
  = Ok (apply_prop p (id, v), zlen pre + zlen (enc_value v)).
Proof.
  intros Hok Hhi.
  destruct id, v; cbn [item_ok] in Hok; try contradiction;
    cbn [decode_property decode_property_tail apply_prop enc_value] in *; unfold assign.
  all: first
    [ rewrite (decodes_u8 _ Hok) by done | rewrite (decodes_u16 _ Hok) by done
    | rewrite (decodes_u32 _ Hok) by done | rewrite (decodes_vbi _ Hok) by done
    | rewrite (decodes_str _ Hok) by done | rewrite (decodes_bin _ Hok) by done
    | rewrite decodes_pair by (tauto || done) ]; reflexivity.
Qed.

Lemma enc_items_cons i l : enc_items (i :: l) = enc_item i ++ enc_items l.
Proof. reflexivity. Qed.

(** The loop consumes a list of items and folds their effect. *)
Lemma decode_properties_loop_items l : forall fuel pre post p,
  Forall item_ok l -> zlen (enc_items l) <= Z.of_nat fuel ->
  decode_properties_loop fuel (pre ++ enc_items l ++ post) (zlen pre + zlen (enc_items l)) (zlen pre) p
  = Ok (foldl apply_prop p l, zlen pre + zlen (enc_items l)).
Proof.
  induction l as [|[id v] l IH]; intros fuel pre post p Hok Hfuel.
  { destruct fuel; simpl; rewrite Z.add_0_r, Z.ltb_irrefl; done. }
  apply Forall_cons in Hok as [Hi Hok]. rewrite enc_items_cons in *.
  unfold enc_item in *; cbn [fst snd] in *. autorewrite with zlen in *. zlen_pos.
  destruct fuel as [|fuel]; [lia|]. cbn [decode_properties_loop].
  case_if; [|lia]. cbn [app]. rewrite rd_app. mstep.
  rewrite PropertyId_cast_val.
  replace (pre ++ PropertyId_val id :: (enc_value v ++ enc_items l) ++ post)
    with ((pre ++ [PropertyId_val id]) ++ enc_value v ++ enc_items l ++ post)
    by (by rewrite <- !app_assoc).
  replace (zlen pre + 1) with (zlen (pre ++ [PropertyId_val id])) by zlia.
  rewrite decode_property_item by (done || zlia). mstep.
  replace ((pre ++ [PropertyId_val id]) ++ enc_value v ++ enc_items l ++ post)
    with ((pre ++ PropertyId_val id :: enc_value v) ++ enc_items l ++ post) by (by rewrite <- !app_assoc).
  replace (zlen (pre ++ [PropertyId_val id]) + zlen (enc_value v))
    with (zlen (pre ++ PropertyId_val id :: enc_value v)) by zlia.
  specialize (IH fuel (pre ++ PropertyId_val id :: enc_value v) post (apply_prop p (id, v)) Hok ltac:(lia)).
  autorewrite with zlen in *.
  replace (zlen pre + (1 + zlen (enc_value v) + zlen (enc_items l)))
    with (zlen pre + (1 + zlen (enc_value v)) + zlen (enc_items l)) by lia.
  exact IH.
Qed.

(** Folding the items of a property set over the empty one rebuilds it. *)
Lemma foldl_opt_item {A} (set : option A -> MqttProperties -> MqttProperties) (o : option A) id k p :
  (forall v, apply_prop p (id, k v) = set (Some v) p) -> set None p = p ->
  foldl apply_prop p (opt_item o id k) = set o p.
Proof. intros H1 H2. destruct o; cbn [foldl opt_item]; [by rewrite H1|by rewrite H2]. Qed.

Lemma foldl_user_items l p :
  foldl apply_prop p (map (fun up => (USER_PROPERTY, PPair up)) l)
  = set_user_properties (user_properties p ++ l) p.
Proof.
  revert p; induction l as [|up l IH]; intros p; simpl.
  - rewrite app_nil_r. by destruct p.
  - rewrite IH. destruct p; simpl. by rewrite <- app_assoc.
Qed.

Ltac fold_item set :=
  rewrite foldl_app, (foldl_opt_item set) by (intros; reflexivity); cbn [set].

Lemma items_rebuild p : foldl apply_prop no_props (props_items p) = p.
Proof.
  destruct p as [a0 a1 a2 a3 a4 a5 a6 a7 a8 a9 a10 a11 a12 a13 a14 a15 a16 a17 a18 a19 a20 a21 a22 a23 a24 a25 a26].
  unfold props_items, no_props.
  cbn [payload_format_indicator message_expiry_interval content_type response_topic correlation_data
    subscription_identifier session_expiry_interval assigned_client_identifier server_keep_alive
    authentication_method authentication_data request_problem_information will_delay_interval
    request_response_information response_information server_reference reason_string receive_maximum
    topic_alias_maximum topic_alias maximum_qos retain_available maximum_packet_size
    wildcard_subscription_available subscription_identifier_available shared_subscription_available
    user_properties].
  fold_item @set_payload_format_indicator.
  fold_item @set_message_expiry_interval.
  fold_item @set_content_type.
  fold_item @set_response_topic.
  fold_item @set_correlation_data.
  fold_item @set_subscription_identifier.
  fold_item @set_session_expiry_interval.
  fold_item @set_assigned_client_identifier.
  fold_item @set_server_keep_alive.
  fold_item @set_authentication_method.
  fold_item @set_authentication_data.
  fold_item @set_request_problem_information.
  fold_item @set_will_delay_interval.
  fold_item @set_request_response_information.
  fold_item @set_response_information.
  fold_item @set_server_reference.
  fold_item @set_reason_string.
  fold_item @set_receive_maximum.
  fold_item @set_topic_alias_maximum.
  fold_item @set_topic_alias.
  fold_item @set_maximum_qos.
  fold_item @set_retain_available.
  fold_item @set_maximum_packet_size.
  fold_item @set_wildcard_subscription_available.
  fold_item @set_subscription_identifier_available.
  fold_item @set_shared_subscription_available.
  rewrite foldl_user_items. reflexivity.
Qed.

(** * The encoder writes the items *)
Section Encode.
Context {B : Type} `{ByteSink B}.

Lemma emits_str s : emits (write_utf8_string s) (prefixed s).
Proof. unfold write_utf8_string, prefixed. eauto with emits. Qed.

Lemma emits_bin s : emits (write_binary_data s) (prefixed s).
Proof.
  unfold write_binary_data, prefixed. apply emits_seq; [eauto with emits|].
  destruct s; simpl; eauto with emits.
Qed.
Hint Resolve emits_str emits_bin : emits.

Lemma emits_item_u8 id v : emits (write_byte_prop id v) (enc_item (id, PByte v)).
Proof. unfold write_byte_prop. eapply emits_eq; [eauto with emits|]. simpl. by rewrite u8_id by apply PropertyId_val_u8. Qed.
Lemma emits_item_u16 id v : emits (write_u16_prop id v) (enc_item (id, PU16 v)).
Proof. unfold write_u16_prop. eapply emits_eq; [eauto with emits|]. simpl. by rewrite u8_id by apply PropertyId_val_u8. Qed.
Lemma emits_item_u32 id v : emits (write_u32_prop id v) (enc_item (id, PU32 v)).
Proof. unfold write_u32_prop. eapply emits_eq; [eauto with emits|]. simpl. by rewrite u8_id by apply PropertyId_val_u8. Qed.
Lemma emits_item_str id v : emits (write_str_prop id v) (enc_item (id, PStr v)).
Proof. unfold write_str_prop. eapply emits_eq; [eauto with emits|]. simpl. by rewrite u8_id by apply PropertyId_val_u8. Qed.
Lemma emits_item_bin id v : emits (write_bin_prop id v) (enc_item (id, PBin v)).
Proof. unfold write_bin_prop. eapply emits_eq; [eauto with emits|]. simpl. by rewrite u8_id by apply PropertyId_val_u8. Qed.
Lemma emits_item_pair up : emits (write_user_prop up) (enc_item (USER_PROPERTY, PPair up)).
Proof. unfold write_user_prop. eapply emits_eq; [eauto with emits|]. reflexivity. Qed.
Lemma emits_item_var id v : is_u32 v -> emits (write_var_prop id v) (enc_item (id, PVar v)).
Proof.
  intros Hv. unfold write_var_prop. eapply emits_eq; [apply emits_seq; [apply emits_u8|by apply emits_vbi]|].
  simpl. by rewrite u8_id by apply PropertyId_val_u8.
Qed.

Lemma emits_opt_item {A} (o : option A) id (k : A -> prop_value) (w : A -> writer B) :
  (forall a, o = Some a -> emits (w a) (enc_item (id, k a))) ->
  emits (w_opt o w) (enc_items (opt_item o id k)).
Proof.
  intros Hw. destruct o as [a|]; simpl; [|apply emits_skip].
  unfold enc_items; simpl. rewrite app_nil_r. auto.
Qed.

Lemma emits_items_seq (w1 w2 : writer B) l1 l2 :
  emits w1 (enc_items l1) -> emits w2 (enc_items l2) -> emits (w_seq w1 w2) (enc_items (l1 ++ l2)).
Proof. intros. unfold enc_items. rewrite map_app, concat_app. by apply emits_seq. Qed.

(** [subscription_identifier] is a [uint32_t]. *)
Definition ids_u32 (p : MqttProperties) : Prop :=
  match subscription_identifier p with Some v => is_u32 v | None => True end.

Lemma emits_members p : ids_u32 p -> emits (write_members p) (enc_items (props_items p)).
Proof.
  intros Hids. unfold write_members, props_items.
  repeat apply emits_items_seq;
    try (apply emits_opt_item; intros;
         first [ apply emits_item_u8 | apply emits_item_u16 | apply emits_item_u32
               | apply emits_item_str | apply emits_item_bin
               | apply emits_item_var ]).
  - unfold ids_u32 in Hids. by case_match; simplify_eq.
  - unfold enc_items. rewrite map_map. apply emits_for. intros up. apply emits_item_pair.
Qed.

Lemma has_any_items p : has_any p = false -> props_items p = [].
Proof.
  unfold has_any, props_items. rewrite !orb_false_iff. intros Hf. destruct_and!.
  repeat match goal with H : is_some ?o = false |- _ => destruct o; [discriminate H|clear H] end.
  destruct (user_properties p); [reflexivity|discriminate].
Qed.

Lemma opt_size_nonneg {A} (o : option A) n : (forall a, 0 <= n a) -> 0 <= opt_size o n.
Proof. destruct o; simpl; auto. lia. Qed.

Lemma variable_byte_int_size_pos v : 1 <= variable_byte_int_size v <= 4.
Proof. unfold variable_byte_int_size. repeat case_if; lia. Qed.

Lemma encoded_size_nonneg p : 0 <= encoded_size p.
Proof.
  unfold encoded_size.
  repeat apply Z.add_nonneg_nonneg;
    try (apply opt_size_nonneg; intros; zlen_pos;
         try match goal with |- context [variable_byte_int_size ?v] => pose proof (variable_byte_int_size_pos v) end; lia).
  induction (user_properties p); simpl; [lia|zlia].
Qed.

(** [encode_properties] writes the bytes of the specification, whatever the size
    hint it computed for its scratch buffer. *)
Lemma emits_properties p : ids_u32 p -> emits (encode_properties p) (enc_props p).
Proof.
  intros Hids b Hb. unfold encode_properties, enc_props. destruct (has_any p) eqn:Hany; simpl.
  - destruct (encodes_inv _ _ (encodes_run (encoded_size p + 4) _ _
      ltac:(pose proof (encoded_size_nonneg p); lia) (emits_members p Hids)))
      as (buf & -> & Hbuf & Hc & Ho). mstep. rewrite Hc, Ho.
    apply emits_seq; [apply emits_vbi, u32_range|apply emits_append|done].
  - rewrite has_any_items by done. apply emits_vbi; [unfold is_u32; lia|done].
Qed.
End Encode.
#[export] Hint Resolve emits_str emits_bin emits_properties : emits.

(** * The decoder on an encoded property set *)
Lemma enc_items_nonneg l : 0 <= zlen (enc_items l).
Proof. apply zlen_nonneg. Qed.

Lemma decode_properties_enc p pre post hi :
  props_ok p -> zlen pre + zlen (enc_props p) <= hi ->
  decode_properties (pre ++ enc_props p ++ post) hi (zlen pre) no_props
  = Ok (zlen (enc_props p), p, zlen pre + zlen (enc_props p)).
Proof.
  intros [Hok Hlen] Hhi. unfold enc_props in *. unfold MQTT_MAX_REMAINING_LENGTH in Hlen.
  set (body := enc_items (props_items p)) in *. pose proof (zlen_nonneg body) as Hb0.
  rewrite u32_id in * by (unfold is_u32; lia).
  pose proof (vbi_len 5 (zlen body) ltac:(lia)) as Hv1.
  unfold decode_properties. rewrite zlen_app in *. case_if; [zlia|].
  rewrite <- app_assoc, decodes_vbi by zlia. mstep.
  case_if; [lia|].
  replace (pre ++ vbi 5 (zlen body) ++ body ++ post) with ((pre ++ vbi 5 (zlen body)) ++ body ++ post)
    by (by rewrite <- app_assoc).
  pose proof (decode_properties_loop_items (props_items p)
    (Z.to_nat (zlen pre + zlen (vbi 5 (zlen body)) + zlen body - (zlen pre + zlen (vbi 5 (zlen body)))))
    (pre ++ vbi 5 (zlen body)) post no_props Hok) as E.
  fold body in E. rewrite zlen_app in E. rewrite E by lia. mstep.
  rewrite items_rebuild. f_equal. f_equal; [f_equal|]; lia.
Qed.

Lemma zlen_enc_props p : 1 <= zlen (enc_props p).
Proof. unfold enc_props. pose proof (vbi_len 5 (u32 (zlen (enc_items (props_items p))))). zlia. Qed.

Lemma decodes_properties p : props_ok p ->
  decodes (fun data hi o => read_properties data hi o no_props) (enc_props p) p.
Proof.
  intros Hok pre post hi Hhi. unfold read_properties.
  rewrite decode_properties_enc by done. mstep. pose proof (zlen_enc_props p).
  case_if; [lia|done].
Qed.

Lemma props_ok_ids p : props_ok p -> ids_u32 p.
Proof.
  intros [Hok _]. unfold ids_u32. destruct (subscription_identifier p) as [v|] eqn:E; [|done].
  rewrite Forall_forall in Hok.
  assert (item_ok (SUBSCRIPTION_IDENTIFIER, PVar v)) as Hv.
  { apply Hok. unfold props_items. rewrite E. rewrite !elem_of_app. cbn [opt_item].
    rewrite list_elem_of_singleton. tauto. }
  simpl in Hv. unfold is_u32. lia.
Qed.

(** * No reader leaves its bounds *)
Lemma read_utf8_string_bounds data hi o : 0 <= o -> hi <= zlen data ->
  in_bounds (o + 2) hi (read_utf8_string data hi o).
Proof.
  intros Ho Hhi. unfold read_utf8_string. case_if; [exact I|].
  apply in_bounds_read; [apply rd_safe; lia|]. intros a _.
  apply in_bounds_read; [apply rd_safe; lia|]. intros b _.
  pose proof (u16_range (Z.lor (Z.shiftl a 8) b)) as Hr. unfold is_u16 in Hr.
  case_if; [exact I|].
  apply in_bounds_read; [apply rd_range_safe; lia|]. intros s _. simpl. lia.
Qed.

Lemma read_binary_data_bounds data hi o : 0 <= o -> hi <= zlen data ->
  in_bounds (o + 2) hi (read_binary_data data hi o).
Proof. exact (read_utf8_string_bounds data hi o). Qed.

Lemma read_prop_u8_bounds data hi o : 0 <= o -> hi <= zlen data -> in_bounds (o + 1) hi (read_prop_u8 data hi o).
Proof.
  intros. unfold read_prop_u8. case_if; [exact I|].
  apply in_bounds_read; [apply rd_safe; lia|]. simpl. lia.
Qed.

Lemma read_prop_u16_bounds data hi o : 0 <= o -> hi <= zlen data -> in_bounds (o + 2) hi (read_prop_u16 data hi o).
Proof.
  intros. unfold read_prop_u16. case_if; [exact I|].
  do 2 (apply in_bounds_read; [apply rd_safe; lia|]; intros ? _). simpl. lia.
Qed.

Lemma read_prop_u32_bounds data hi o : 0 <= o -> hi <= zlen data -> in_bounds (o + 4) hi (read_prop_u32 data hi o).
Proof.
  intros. unfold read_prop_u32. case_if; [exact I|].
  do 4 (apply in_bounds_read; [apply rd_safe; lia|]; intros ? _). simpl. lia.
Qed.

Lemma decode_variable_byte_int_bounds data hi o : 0 <= o -> hi <= zlen data ->
  in_bounds (o + 1) hi (decode_variable_byte_int data hi o).
Proof. intros. eapply in_bounds_weaken; [apply decode_vbi_bounds|..]; lia. Qed.

Lemma read_user_property_bounds data hi o : 0 <= o -> hi <= zlen data ->
  in_bounds (o + 4) hi (read_user_property data hi o).
Proof.
  intros. unfold read_user_property.
  eapply in_bounds_bind; [by apply read_utf8_string_bounds|]. intros k o' _ Ho'.
  eapply in_bounds_bind; [apply read_utf8_string_bounds; lia|]. intros v o'' _ Ho''. simpl. lia.
Qed.

Lemma assign_bounds {A} lo hi (set : A -> MqttProperties -> MqttProperties) p r :
  in_bounds lo hi r -> in_bounds lo hi (assign set p r).
Proof. destruct r as [[]| | |]; simpl; auto. Qed.

Lemma decode_property_bounds id data hi o p : 0 <= o -> hi <= zlen data ->
  in_bounds o hi (decode_property id data hi o p).
Proof.
  intros Ho Hhi. destruct id; cbn [decode_property decode_property_tail]; apply assign_bounds;
    (eapply in_bounds_weaken;
     [ first [ by apply read_prop_u8_bounds | by apply read_prop_u16_bounds | by apply read_prop_u32_bounds
             | by apply decode_variable_byte_int_bounds | by apply read_user_property_bounds
             | by apply read_utf8_string_bounds | by apply read_binary_data_bounds ]
     | lia | lia ]).
Qed.

Lemma decode_properties_loop_bounds fuel data hi o p :
  0 <= o <= hi -> hi <= zlen data -> hi - o <= Z.of_nat fuel ->
  in_bounds o hi (decode_properties_loop fuel data hi o p).
Proof.
  revert o p; induction fuel as [|fuel IH]; intros o p Ho Hhi Hf; cbn [decode_properties_loop].
  { case_if; simpl; lia. }
  case_if; [|simpl; lia].
  apply in_bounds_read; [apply rd_safe; lia|]. intros b _.
  destruct (PropertyId_cast b) as [id|]; [|exact I].
  eapply in_bounds_bind; [apply decode_property_bounds; lia|]. intros p' o' _ Ho'.
  eapply in_bounds_weaken; [apply IH; lia|lia|lia].
Qed.

Lemma read_properties_bounds data hi o p : 0 <= o -> hi <= zlen data ->
  in_bounds (o + 1) hi (read_properties data hi o p).
Proof.
  intros Ho Hhi. unfold read_properties, decode_properties. case_if; [exact I|].
  destruct (decode_variable_byte_int data hi o) as [[n o1]| | |] eqn:Ed;
    pose proof (decode_variable_byte_int_bounds data hi o Ho Hhi) as Hb; rewrite Ed in Hb;
    simpl in Hb; try done. mstep.
  apply decode_vbi_nonneg in Ed as Hn; [|lia].
  case_if; [exact I|].
  pose proof (decode_properties_loop_bounds (Z.to_nat (o1 + n - o1)) data (o1 + n) o1 p) as Hl.
  destruct (decode_properties_loop _ _ _ _ _) as [[p' o2]| | |]; simpl in Hl; try (apply Hl; lia).
  mstep. case_if; [exact I|]. simpl. lia.
Qed.
#[export] Hint Resolve read_utf8_string_bounds read_binary_data_bounds read_properties_bounds : s2p.

(** * Sizes and resets *)
Lemma vbi_size v : 0 <= v < 268435456 -> variable_byte_int_size v = zlen (vbi 5 v).
Proof.
  intros Hv. unfold variable_byte_int_size.
  rewrite (vbi_S 4), (vbi_S 3), (vbi_S 2), (vbi_S 1).
  rewrite !Z.div_div by lia. change (128 * 128) with 16384. change (16384 * 128) with 2097152.
  replace (v / 128 <? 128) with (v <? 16384) by (Z.to_euclidean_division_equations; lia).
  replace (v / 16384 <? 128) with (v <? 2097152) by (Z.to_euclidean_division_equations; lia).
  replace (v / 2097152 <? 128) with true by (Z.to_euclidean_division_equations; lia).
  repeat case_if; reflexivity.
Qed.

Lemma encoded_size_exact p : props_ok p -> encoded_size p = zlen (enc_items (props_items p)).
Proof.
  intros [Hok _]. unfold props_items, encoded_size in *. unfold enc_items.
  rewrite !map_app, !concat_app, !zlen_app, !Z.add_assoc. rewrite !Forall_app in Hok. destruct_and!.
  assert (forall {A} (o : option A) id k n,
    (forall v, Forall item_ok [(id, k v)] -> n v = zlen (enc_item (id, k v))) ->
    Forall item_ok (opt_item o id k) ->
    opt_size o n = zlen (concat (map enc_item (opt_item o id k)))) as Hopt.
  { intros A o id k n Hn Ho. destruct o as [v|]; simpl; [|done]. rewrite app_nil_r. auto. }
  repeat f_equal;
    try (apply Hopt; [|assumption]; intros v Hv; apply Forall_inv in Hv; cbn [item_ok] in Hv;
         unfold enc_item; cbn [fst snd enc_value]; rewrite zlen_cons;
         first [ reflexivity | rewrite zlen_prefixed; lia | idtac ]).
  - by rewrite vbi_size.
  - clear. induction (user_properties p) as [|up l IH]; [done|]. cbn [foldr map concat].
    unfold enc_item at 1; cbn [fst snd enc_value]. rewrite IH. zlia.
Qed.

Lemma has_any_no_props p : has_any p = false -> p = no_props.
Proof.
  intros Hf%has_any_items. rewrite <- (items_rebuild p), Hf. reflexivity.
Qed.
