(* ===== verification/MqttCodec.v ===== *)
(** MQTT packet codec: [protocol/mqtt/src/mqtt_codec.cpp].

    Decoders take the bytes from a pointer to the end of the memory it points
    into, and the length the caller passes; encoders build a byte sink. *)
From S2P Require Import Prelude ByteBuffer ByteBufferFacts MqttProtocol MqttProperties.

Module MqttCodec.

(** * Remaining length and strings *)

(** The [do .. while (value > 0)] that fills [out]; [out] is the part of the
    caller's array written so far, and the array holds
    [MQTT_VARIABLE_BYTE_INT_MAX_SIZE] bytes. *)
Fixpoint encode_remaining_length_loop (fuel : nat) (value : Z) (out : bytes) : outcome bytes :=
  match fuel with
  | O => Diverge
  | S fuel =>
      let byte := Z.land value 127 in
      let value := Z.shiftr value 7 in
      let byte := if 0 <? value then Z.lor byte 128 else byte in
      if MQTT_VARIABLE_BYTE_INT_MAX_SIZE <=? zlen out then Fault
      else
        let out := out ++ [byte] in
        if 0 <? value then encode_remaining_length_loop fuel value out else Ok out
  end.
Definition encode_remaining_length (value : Z) : outcome bytes := encode_remaining_length_loop 5 value [].

(** Returns the value with [bytes_consumed]. *)
Fixpoint decode_remaining_length_loop (n : nat) (data : bytes) (len i value multiplier : Z) : outcome (Z * Z) :=
  match n with
  | O => Reject
  | S n =>
      if i <? len then
        byte ← rd data i;
        let value := u32 (value + Z.land byte 127 * multiplier) in
        let multiplier := u32 (multiplier * 128) in
        let bytes_consumed := i + 1 in
        if Z.land byte 128 =? 0 then Ok (value, bytes_consumed)
        else decode_remaining_length_loop n data len (i + 1) value multiplier
      else Reject
  end.
Definition decode_remaining_length (data : bytes) (len : Z) : outcome (Z * Z) :=
  decode_remaining_length_loop 4 data len 0 0 1.

Definition read_utf8_string (data : bytes) (len offset : Z) : outcome (bytes * Z) :=
  if len <? offset + 2 then Reject
  else
    hi ← rd data offset; lo ← rd data (offset + 1);
    let slen := u16 (Z.lor (Z.shiftl hi 8) lo) in
    let offset := offset + 2 in
    if len <? offset + slen then Reject
    else result ← rd_range data offset slen; Ok (result, offset + slen).

Definition read_binary_data (data : bytes) (len offset : Z) : outcome (bytes * Z) :=
  if len <? offset + 2 then Reject
  else
    hi ← rd data offset; lo ← rd data (offset + 1);
    let dlen := u16 (Z.lor (Z.shiftl hi 8) lo) in
    let offset := offset + 2 in
    if len <? offset + dlen then Reject
    else result ← rd_range data offset dlen; Ok (result, offset + dlen).

(** [try_decode]: the type and total length of the packet at the front of the data. *)
Definition try_decode (data : bytes) (len : Z) : outcome (PacketType * Z) :=
  if len <? 2 then Reject
  else
    first_byte ← rd data 0;
    let type_val := Z.shiftr first_byte 4 in
    if (type_val <? PacketType_val CONNECT) || (PacketType_val AUTH <? type_val) then Reject
    else
      '(remaining, vbi_bytes) ← decode_remaining_length (drop 1 data) (len - 1);
      let total := 1 + vbi_bytes + remaining in
      if len <? total then Reject else Ok (PacketType_cast type_val, total).

(** * Decoders *)

(** [if (offset + 1 > len) return nullopt; ... data[offset++]] *)
Definition read_byte (data : bytes) (len offset : Z) : outcome (Z * Z) :=
  if len <? offset + 1 then Reject else b ← rd data offset; Ok (b, offset + 1).

(** [if (offset + 2 > len) return nullopt; ... (data[offset] << 8) | data[offset + 1]] *)
Definition read_u16 (data : bytes) (len offset : Z) : outcome (Z * Z) :=
  if len <? offset + 2 then Reject
  else
    a ← rd data offset; b ← rd data (offset + 1);
    Ok (u16 (Z.lor (Z.shiftl a 8) b), offset + 2).

(** [if (cond) { ... }] around a read into an [std::optional] member. *)
Definition read_if {A} (cond : bool) (read : Z -> outcome (A * Z)) (offset : Z) : outcome (option A * Z) :=
  if cond then '(a, offset) ← read offset; Ok (Some a, offset) else Ok (None, offset).

(** [if (level == V5_0) { if (decode_properties(...) == 0) return nullopt; }] *)
Definition read_level_properties (level : ProtocolLevel) (data : bytes) (len offset : Z)
    : outcome (MqttProperties * Z) :=
  if is_v5 level then MqttProperties.read_properties data len offset no_props else Ok (no_props, offset).

(** The rules on the connect flags. *)
Definition connect_flags_valid (connect_flags : Z) : bool :=
  let will_flag := flag_set connect_flags MQTT_CONNECT_FLAG_WILL_FLAG in
  let will_qos := Z.land (Z.shiftr connect_flags MQTT_CONNECT_FLAG_WILL_QOS_SHIFT) 3 in
  let will_retain := flag_set connect_flags MQTT_CONNECT_FLAG_WILL_RETAIN in
  if flag_set connect_flags 1 then false
  else if negb will_flag && (negb (will_qos =? 0) || will_retain) then false
  else if 2 <? will_qos then false
  else if flag_set connect_flags MQTT_CONNECT_FLAG_PASSWORD
          && negb (flag_set connect_flags MQTT_CONNECT_FLAG_USERNAME) then false
  else true.

Definition decode_connect (data : bytes) (len : Z) : outcome MqttConnectPacket :=
  '(proto_name, offset) ← read_utf8_string data len 0;
  if negb (bool_decide (proto_name = MQTT_PROTOCOL_NAME_V5)) then Reject
  else
    '(level, offset) ← read_byte data len offset;
    match ProtocolLevel_cast level with
    | None => Reject
    | Some level =>
        '(connect_flags, offset) ← read_byte data len offset;
        if negb (connect_flags_valid connect_flags) then Reject
        else
          '(keep_alive, offset) ← read_u16 data len offset;
          '(properties, offset) ← read_level_properties level data len offset;
          '(client_id, offset) ← read_utf8_string data len offset;
          let will_flag := flag_set connect_flags MQTT_CONNECT_FLAG_WILL_FLAG in
          '(will_properties, offset) ←
            (if will_flag then read_level_properties level data len offset else Ok (no_props, offset));
          '(will_topic, offset) ← read_if will_flag (read_utf8_string data len) offset;
          '(will_payload, offset) ← read_if will_flag (read_binary_data data len) offset;
          '(username, offset) ←
            read_if (flag_set connect_flags MQTT_CONNECT_FLAG_USERNAME) (read_utf8_string data len) offset;
          '(password, offset) ←
            read_if (flag_set connect_flags MQTT_CONNECT_FLAG_PASSWORD) (read_utf8_string data len) offset;
          Ok (mkConnect level connect_flags keep_alive client_id will_topic will_payload username password
                properties will_properties)
    end.

Definition decode_publish (data : bytes) (len flags : Z) (level : ProtocolLevel) : outcome MqttPublishPacket :=
  let dup := if flag_set flags MQTT_PUBLISH_FLAG_DUP then 1 else 0 in
  let qos := Z.land (Z.shiftr flags MQTT_PUBLISH_FLAG_QOS_SHIFT) 3 in
  let retain := Z.land flags MQTT_PUBLISH_FLAG_RETAIN in
  if qos =? 3 then Reject
  else
    '(topic, offset) ← read_utf8_string data len 0;
    '(packet_id, offset) ← read_if (negb (qos =? AT_MOST_ONCE)) (read_u16 data len) offset;
    (* if (pkt.packet_id.value_or(0) == 0) return nullopt, inside the QoS branch *)
    if negb (qos =? AT_MOST_ONCE) && (default 0 packet_id =? 0) then Reject
    else
      '(properties, offset) ← read_level_properties level data len offset;
      payload ← (if offset <? len then rd_range data offset (len - offset) else Ok []);
      Ok (mkPublish dup qos retain topic packet_id payload properties).

(** One round of the loop over the topic filters of a SUBSCRIBE. *)
Definition read_subscription (level : ProtocolLevel) (data : bytes) (len offset : Z)
    : outcome (MqttSubOption * Z) :=
  '(topic_filter, offset) ← read_utf8_string data len offset;
  '(options, offset) ← read_byte data len offset;
  Ok (if is_v5 level
      then mkSubOption topic_filter (Z.land options 3) (Z.land (Z.shiftr options 2) 1)
             (Z.land (Z.shiftr options 3) 1) (Z.land (Z.shiftr options 4) 3)
      else mkSubOption topic_filter (Z.land options 3) 0 0 0, offset).

(** [while (offset < len)]: collects what [read] returns. *)
Fixpoint read_all {A} (fuel : nat) (read : Z -> outcome (A * Z)) (len offset : Z) : outcome (list A) :=
  if offset <? len then
    match fuel with
    | O => Diverge
    | S fuel =>
        '(a, offset) ← read offset;
        rest ← read_all fuel read len offset;
        Ok (a :: rest)
    end
  else Ok [].

Definition decode_subscribe (data : bytes) (len : Z) (level : ProtocolLevel) : outcome MqttSubscribePacket :=
  '(packet_id, offset) ← read_u16 data len 0;
  '(properties, offset) ← read_level_properties level data len offset;
  subscriptions ← read_all (Z.to_nat (len - offset)) (read_subscription level data len) len offset;
  Ok (mkSubscribe packet_id subscriptions properties).

Definition decode_unsubscribe (data : bytes) (len : Z) (level : ProtocolLevel) : outcome MqttUnsubscribePacket :=
  '(packet_id, offset) ← read_u16 data len 0;
  '(properties, offset) ← read_level_properties level data len offset;
  topic_filters ← read_all (Z.to_nat (len - offset)) (read_utf8_string data len) len offset;
  Ok (mkUnsubscribe packet_id topic_filters properties).

Definition decode_packet_id (data : bytes) (len : Z) : outcome Z :=
  if len <? 2 then Reject
  else a ← rd data 0; b ← rd data 1; Ok (u16 (Z.lor (Z.shiftl a 8) b)).

Definition decode_simple_ack (data : bytes) (len : Z) (level : ProtocolLevel) : outcome MqttAckPacket :=
  if len <? 2 then Reject
  else
    a ← rd data 0; b ← rd data 1;
    let packet_id := u16 (Z.lor (Z.shiftl a 8) b) in
    if is_v5 level && (2 <? len) then
      reason_code ← rd data 2;
      '(props, _) ← MqttProperties.read_properties data len 3 no_props;
      Ok (mkAck packet_id reason_code props)
    else Ok (mkAck packet_id 0 no_props).

(** [decode_puback] calls [decode_simple_ack]; the other three repeat its body. *)
Definition decode_puback (data : bytes) (len : Z) (level : ProtocolLevel) : outcome MqttAckPacket :=
  decode_simple_ack data len level.

Definition decode_pubrec (data : bytes) (len : Z) (level : ProtocolLevel) : outcome MqttAckPacket :=
  if len <? 2 then Reject
  else
    a ← rd data 0; b ← rd data 1;
    let packet_id := u16 (Z.lor (Z.shiftl a 8) b) in
    if is_v5 level && (2 <? len) then
      reason_code ← rd data 2;
      '(props, _) ← MqttProperties.read_properties data len 3 no_props;
      Ok (mkAck packet_id reason_code props)
    else Ok (mkAck packet_id 0 no_props).

Definition decode_pubrel (data : bytes) (len : Z) (level : ProtocolLevel) : outcome MqttAckPacket :=
  if len <? 2 then Reject
  else
    a ← rd data 0; b ← rd data 1;
    let packet_id := u16 (Z.lor (Z.shiftl a 8) b) in
    if is_v5 level && (2 <? len) then
      reason_code ← rd data 2;
      '(props, _) ← MqttProperties.read_properties data len 3 no_props;
      Ok (mkAck packet_id reason_code props)
    else Ok (mkAck packet_id 0 no_props).

Definition decode_pubcomp (data : bytes) (len : Z) (level : ProtocolLevel) : outcome MqttAckPacket :=
  if len <? 2 then Reject
  else
    a ← rd data 0; b ← rd data 1;
    let packet_id := u16 (Z.lor (Z.shiftl a 8) b) in
    if is_v5 level && (2 <? len) then
      reason_code ← rd data 2;
      '(props, _) ← MqttProperties.read_properties data len 3 no_props;
      Ok (mkAck packet_id reason_code props)
    else Ok (mkAck packet_id 0 no_props).

Definition decode_disconnect (data : bytes) (len : Z) : outcome MqttReasonPacket :=
  if 1 <=? len then
    reason_code ← rd data 0;
    if 1 <? len then
      '(props, _) ← MqttProperties.read_properties data len 1 no_props;
      Ok (mkReason reason_code props)
    else Ok (mkReason reason_code no_props)
  else Ok (mkReason 0 no_props).

Definition decode_auth (data : bytes) (len : Z) : outcome MqttReasonPacket :=
  if 1 <=? len then
    reason_code ← rd data 0;
    if 1 <? len then
      '(props, _) ← MqttProperties.read_properties data len 1 no_props;
      Ok (mkReason reason_code props)
    else Ok (mkReason reason_code no_props)
  else Ok (mkReason 0 no_props).

(** * Encoders *)
Section Encode.
Context {B : Type} `{ByteSink B}.
Local Open Scope W.

Definition write_utf8_string (s : bytes) : writer B :=
  sink_u16 (u16 (zlen s)) ;; sink_append s.

Definition write_binary_data (data : bytes) : writer B :=
  sink_u16 (u16 (zlen data)) ;; w_if (negb (MqttProperties.is_empty data)) (sink_append data).

Definition build_fixed_header (type : PacketType) (flags remaining_length : Z) : outcome B :=
  let first_byte := u8 (Z.lor (Z.shiftl (PacketType_val type) 4) (Z.land flags 15)) in
  vbi ← encode_remaining_length (u32 remaining_length);
  w_run (1 + zlen vbi) (sink_u8 first_byte ;; sink_append vbi).

(** [result = build_fixed_header(..., body.write_offset());
    result.append(body.readable_span()); return result;] *)
Definition finish_packet (type : PacketType) (flags : Z) (body : outcome B) : outcome B :=
  body ← body;
  result ← build_fixed_header type flags (sink_write_offset body);
  sink_append (sink_contents body) result.

(** [if (level == V5_0) encode_properties(body, props)] *)
Definition write_level_properties (level : ProtocolLevel) (props : MqttProperties) : writer B :=
  w_if (is_v5 level) (MqttProperties.encode_properties props).

Definition encode_connack (pkt : MqttConnackPacket) (level : ProtocolLevel) : outcome B :=
  finish_packet CONNACK 0 (w_run 64
    (sink_u8 (Z.land (ca_session_present pkt) 1) ;;
     sink_u8 (ca_reason_code pkt) ;;
     write_level_properties level (ca_properties pkt))).

Definition encode_publish (pkt : MqttPublishPacket) (level : ProtocolLevel) : outcome B :=
  let flags := u8 (Z.lor (Z.lor (Z.shiftl (pb_dup pkt) 3) (Z.shiftl (pb_qos pkt) MQTT_PUBLISH_FLAG_QOS_SHIFT))
                         (Z.land (pb_retain pkt) MQTT_PUBLISH_FLAG_RETAIN)) in
  finish_packet PUBLISH flags (w_run 256
    (write_utf8_string (pb_topic pkt) ;;
     w_if (negb (pb_qos pkt =? AT_MOST_ONCE)) (sink_u16 (default 0 (pb_packet_id pkt))) ;;
     write_level_properties level (pb_properties pkt) ;;
     w_if (negb (MqttProperties.is_empty (pb_payload pkt))) (sink_append (pb_payload pkt)))).

Definition encode_suback (packet_id : Z) (reason_codes : list Z) (level : ProtocolLevel)
    (props : MqttProperties) : outcome B :=
  finish_packet SUBACK 0 (w_run (64 + zlen reason_codes)
    (sink_u16 packet_id ;;
     write_level_properties level props ;;
     w_for reason_codes sink_u8)).

Definition encode_simple_ack (type : PacketType) (fixed_flags packet_id reason_code : Z)
    (level : ProtocolLevel) (props : MqttProperties) : outcome B :=
  finish_packet type fixed_flags (w_run 16
    (sink_u16 packet_id ;;
     w_if (is_v5 level) (sink_u8 reason_code ;; MqttProperties.encode_properties props))).

Definition encode_puback (packet_id reason_code : Z) (level : ProtocolLevel) (props : MqttProperties) : outcome B :=
  encode_simple_ack PUBACK 0 packet_id reason_code level props.
Definition encode_pubrec (packet_id reason_code : Z) (level : ProtocolLevel) (props : MqttProperties) : outcome B :=
  encode_simple_ack PUBREC 0 packet_id reason_code level props.
Definition encode_pubrel (packet_id reason_code : Z) (level : ProtocolLevel) (props : MqttProperties) : outcome B :=
  encode_simple_ack PUBREL 2 packet_id reason_code level props.
Definition encode_pubcomp (packet_id reason_code : Z) (level : ProtocolLevel) (props : MqttProperties) : outcome B :=
  encode_simple_ack PUBCOMP 0 packet_id reason_code level props.

Definition encode_unsuback (packet_id : Z) (reason_codes : list Z) (level : ProtocolLevel)
    (props : MqttProperties) : outcome B :=
  finish_packet UNSUBACK 0 (w_run (64 + zlen reason_codes)
    (sink_u16 packet_id ;;
     w_if (is_v5 level) (MqttProperties.encode_properties props ;; w_for reason_codes sink_u8))).

Definition encode_pingresp : outcome B := w_run 2 (sink_u8 0xD0 ;; sink_u8 0x00).

Definition encode_disconnect (reason_code : Z) (level : ProtocolLevel) (props : MqttProperties) : outcome B :=
  if negb (is_v5 level) then w_run 2 (sink_u8 0xE0 ;; sink_u8 0x00)
  else finish_packet DISCONNECT 0 (w_run 16 (sink_u8 reason_code ;; MqttProperties.encode_properties props)).

Definition encode_auth (reason_code : Z) (props : MqttProperties) : outcome B :=
  finish_packet AUTH 0 (w_run 16 (sink_u8 reason_code ;; MqttProperties.encode_properties props)).
End Encode.

(** * Wire format

    The packets as the protocol lays them out, against which the encoders and
    decoders are proved. *)
Definition enc_level_props (level : ProtocolLevel) (p : MqttProperties) : bytes :=
  if is_v5 level then MqttProperties.enc_props p else [].

(** A packet: first byte, remaining length, body. *)
Definition frame (type : PacketType) (flags : Z) (body : bytes) : bytes :=
  (PacketType_val type * 16 + flags) :: MqttProperties.vbi 5 (zlen body) ++ body.

Definition opt_bytes {A} (o : option A) (enc : A -> bytes) : bytes :=
  match o with Some a => enc a | None => [] end.

Definition connect_body (p : MqttConnectPacket) : bytes :=
  MqttProperties.prefixed MQTT_PROTOCOL_NAME_V5 ++
  [ProtocolLevel_val (cp_protocol_level p); cp_connect_flags p] ++
  be16 (cp_keep_alive p) ++
  enc_level_props (cp_protocol_level p) (cp_properties p) ++
  MqttProperties.prefixed (cp_client_id p) ++
  (if flag_set (cp_connect_flags p) MQTT_CONNECT_FLAG_WILL_FLAG
   then enc_level_props (cp_protocol_level p) (cp_will_properties p) else []) ++
  opt_bytes (cp_will_topic p) MqttProperties.prefixed ++
  opt_bytes (cp_will_payload p) MqttProperties.prefixed ++
  opt_bytes (cp_username p) MqttProperties.prefixed ++
  opt_bytes (cp_password p) MqttProperties.prefixed.

Definition publish_flags (p : MqttPublishPacket) : Z := pb_dup p * 8 + pb_qos p * 2 + pb_retain p.

Definition publish_body (p : MqttPublishPacket) (level : ProtocolLevel) : bytes :=
  MqttProperties.prefixed (pb_topic p) ++
  (if pb_qos p =? AT_MOST_ONCE then [] else be16 (default 0 (pb_packet_id p))) ++
  enc_level_props level (pb_properties p) ++
  pb_payload p.

Definition ack_body (packet_id reason_code : Z) (level : ProtocolLevel) (p : MqttProperties) : bytes :=
  be16 packet_id ++ (if is_v5 level then u8 reason_code :: MqttProperties.enc_props p else []).

Definition connack_body (pkt : MqttConnackPacket) (level : ProtocolLevel) : bytes :=
  [u8 (Z.land (ca_session_present pkt) 1); u8 (ca_reason_code pkt)] ++ enc_level_props level (ca_properties pkt).

Definition suback_body (packet_id : Z) (reason_codes : list Z) (level : ProtocolLevel) (p : MqttProperties) : bytes :=
  be16 packet_id ++ enc_level_props level p ++ map u8 reason_codes.

(** An MQTT 3.1.1 UNSUBACK has no reason codes. *)
Definition unsuback_body (packet_id : Z) (reason_codes : list Z) (level : ProtocolLevel) (p : MqttProperties) : bytes :=
  be16 packet_id ++ (if is_v5 level then MqttProperties.enc_props p ++ map u8 reason_codes else []).

Definition reason_body (reason_code : Z) (p : MqttProperties) : bytes :=
  u8 reason_code :: MqttProperties.enc_props p.

End MqttCodec.
