(* ===== verification/MqttCodecFacts.v ===== *)
(** MQTT packet codec: framing, encoders against the wire format, round trips,
    memory safety of the decoders. *)
From S2P Require Import Prelude ByteBuffer ByteBufferFacts MqttProtocol MqttProperties MqttPropertiesFacts.
From S2P Require Import MqttCodec.
Import MqttProperties MqttCodec.

(** * Remaining length *)
Lemma encode_remaining_length_loop_ok n fuel v out :
  0 <= v < 128 ^ Z.of_nat n -> (n <> 0)%nat -> (n <= fuel)%nat -> zlen out + Z.of_nat n <= 4 ->
  encode_remaining_length_loop fuel v out = Ok (out ++ vbi n v).
Proof.
  revert fuel v out; induction n as [|n IH]; intros fuel v out Hv Hn Hf Hout; [done|].
  destruct fuel as [|fuel]; [lia|]. cbn [encode_remaining_length_loop].
  rewrite vbi_S, land_127, shiftr_7. rewrite Nat2Z.inj_succ, Z.pow_succ_r in Hv by lia.
  unfold MQTT_VARIABLE_BYTE_INT_MAX_SIZE. pose proof (zlen_nonneg out).
  replace (4 <=? zlen out) with false by lia.
  destruct (Z.ltb_spec v 128) as [Hlt|Hge].
  - rewrite (Z.div_small v 128), Z.mod_small by lia. done.
  - assert (0 < v / 128) by (apply Z.div_str_pos; lia).
    replace (0 <? v / 128) with true by lia.
    rewrite set_high_bit by (apply Z.mod_pos_bound; lia).
    rewrite IH; try zlia.
    + by rewrite <- app_assoc.
    + split; [lia|]. apply Z.div_lt_upper_bound; lia.
    + intros ->. simpl in Hv. lia.
Qed.

(** A value of five digits runs past the caller's four-byte array. *)
Lemma encode_remaining_length_loop_fault n fuel v out :
  128 ^ Z.of_nat n <= v -> (n < fuel)%nat -> zlen out + Z.of_nat n = 4 ->
  encode_remaining_length_loop fuel v out = Fault.
Proof.
  revert fuel v out; induction n as [|n IH]; intros fuel v out Hv Hf Hout;
    (destruct fuel as [|fuel]; [lia|]); cbn [encode_remaining_length_loop];
    unfold MQTT_VARIABLE_BYTE_INT_MAX_SIZE.
  - by replace (4 <=? zlen out) with true by lia.
  - rewrite land_127, shiftr_7. replace (4 <=? zlen out) with false by lia.
    rewrite Nat2Z.inj_succ, Z.pow_succ_r in Hv by lia.
    assert (128 ^ Z.of_nat n <= v / 128) by (apply Z.div_le_lower_bound; lia).
    assert (0 < 128 ^ Z.of_nat n) by (apply Z.pow_pos_nonneg; lia).
    replace (0 <? v / 128) with true by lia.
    apply IH; [done|lia|zlia].
Qed.

Lemma pow_128_4 : 128 ^ Z.of_nat 4 = 268435456.
Proof. reflexivity. Qed.

Lemma encode_remaining_length_ok v : 0 <= v <= MQTT_MAX_REMAINING_LENGTH ->
  encode_remaining_length v = Ok (vbi 5 v).
Proof.
  unfold MQTT_MAX_REMAINING_LENGTH. intros Hv. unfold encode_remaining_length.
  rewrite (encode_remaining_length_loop_ok 4) by (rewrite ?pow_128_4; zlia).
  by rewrite (vbi_fuel 4 5) by (rewrite ?pow_128_4; lia).
Qed.

Lemma encode_remaining_length_fault v : MQTT_MAX_REMAINING_LENGTH < v -> encode_remaining_length v = Fault.
Proof.
  unfold MQTT_MAX_REMAINING_LENGTH. intros Hv. unfold encode_remaining_length.
  apply (encode_remaining_length_loop_fault 4); rewrite ?pow_128_4; zlia.
Qed.

(** The codec's reader of a remaining length is the properties' reader of a variable
    byte integer at offset zero. *)
Lemma decode_remaining_length_loop_eq n data len i value mult :
  decode_remaining_length_loop n data len i value mult
  = decode_variable_byte_int_loop n data len 0 value mult i.
Proof.
  revert i value mult; induction n as [|n IH]; intros i value mult; [done|].
  cbn [decode_remaining_length_loop decode_variable_byte_int_loop]. rewrite Z.add_0_l.
  case_if; [|done]. destruct (rd data i); try done. mstep. case_if; [done|]. apply IH.
Qed.

Lemma decode_remaining_length_eq data len :
  decode_remaining_length data len = decode_variable_byte_int data len 0.
Proof. apply decode_remaining_length_loop_eq. Qed.

(** A variable byte integer that is cut off is rejected. *)
Lemma decode_vbi_loop_short n pre post hi o value mult c v :
  (n <> 0)%nat -> 0 <= v < 128 ^ Z.of_nat n -> o + c = zlen pre -> hi < zlen pre + zlen (vbi n v) ->
  decode_variable_byte_int_loop n (pre ++ vbi n v ++ post) hi o value mult c = Reject.
Proof.
  revert pre value mult c v. induction n as [|n IH]; intros pre value mult c v Hn Hv Ho Hhi; [done|].
  cbn [decode_variable_byte_int_loop] in *. rewrite vbi_S in *.
  rewrite Nat2Z.inj_succ, Z.pow_succ_r in Hv by lia.
  rewrite Ho. revert Hhi. destruct (Z.ltb_spec v 128) as [Hlt|Hge]; intros Hhi.
  - case_if; [zlia|done].
  - pose proof (Z.mod_pos_bound v 128). case_if; [|done]. cbn [app]. rewrite rd_app. mstep.
    rewrite test_high_bit by lia. replace (v mod 128 + 128 <? 128) with false by lia.
    replace (pre ++ (v mod 128 + 128) :: vbi n (v / 128) ++ post)
      with ((pre ++ [v mod 128 + 128]) ++ vbi n (v / 128) ++ post) by (by rewrite <- app_assoc).
    apply IH; try zlia.
    + intros ->. simpl in Hv. lia.
    + split; [apply Z.div_pos; lia|]. apply Z.div_lt_upper_bound; lia.
Qed.

(** * Framing *)
Definition packet_flags (flags : Z) : Prop := 0 <= flags < 16.

Lemma zlen_frame t f body : zlen (frame t f body) = 1 + zlen (vbi 5 (zlen body)) + zlen body.
Proof. unfold frame. zlia. Qed.

Lemma frame_first_byte t f : packet_flags f -> Z.shiftr (PacketType_val t * 16 + f) 4 = PacketType_val t.
Proof.
  unfold packet_flags. intros. rewrite shiftr_div by lia. change (2 ^ 4) with 16.
  rewrite Z.add_comm, Z_div_plus by lia. rewrite Z.div_small by lia. lia.
Qed.

(** [try_decode] on data that starts with a packet, of which [len] bytes have arrived:
    it accepts exactly when the packet is complete. *)
Lemma try_decode_frame t f body rest len :
  t <> RESERVED -> packet_flags f -> zlen body <= MQTT_MAX_REMAINING_LENGTH ->
  try_decode (frame t f body ++ rest) len
  = if zlen (frame t f body) <=? len then Ok (t, zlen (frame t f body)) else Reject.
Proof.
  intros Ht Hf Hb. unfold MQTT_MAX_REMAINING_LENGTH in Hb. rewrite zlen_frame.
  pose proof (vbi_len 5 (zlen body) ltac:(lia)). pose proof (zlen_nonneg body).
  unfold try_decode. case_if; [case_if; [lia|done]|].
  unfold frame. cbn [app]. change (rd (?x :: ?l) 0) with (Ok x). mstep. rewrite frame_first_byte by done.
  replace ((_ <? _) || (_ <? _)) with false by (destruct t; done).
  rewrite PacketType_cast_val, decode_remaining_length_eq. cbn [skipn]. rewrite drop_0.
  destruct (Z.le_gt_cases (zlen (vbi 5 (zlen body))) (len - 1)) as [Hle|Hgt].
  - pose proof (decodes_vbi (zlen body) ltac:(lia) [] (body ++ rest) (len - 1)) as E.
    rewrite zlen_nil in E. cbn [app] in E. rewrite <- app_assoc, E by lia. mstep.
    rewrite Z.add_0_l.
    destruct (Z.ltb_spec len (1 + zlen (vbi 5 (zlen body)) + zlen body)), 
      (Z.leb_spec (1 + zlen (vbi 5 (zlen body)) + zlen body) len); done || lia.
  - replace (_ <=? len) with false by lia.
    unfold decode_variable_byte_int.
    rewrite (vbi_fuel 4 5) in * by (rewrite ?pow_128_4; lia).
    assert (0 <= zlen body < 128 ^ Z.of_nat 4) as Hb4 by (rewrite pow_128_4; lia).
    pose proof (decode_vbi_loop_short 4 [] (body ++ rest) (len - 1) 0 0 1 0 (zlen body)
                  ltac:(lia) Hb4 eq_refl Hgt) as E.
    rewrite <- app_assoc. cbn [app] in E. by rewrite E.
Qed.

(** * Encoders write the wire format *)
Section Encoders.
Context {B : Type} `{ByteSink B}.

Lemma build_fixed_header_ok t f n : packet_flags f -> 0 <= n <= MQTT_MAX_REMAINING_LENGTH ->
  encodes (build_fixed_header t f n) ((PacketType_val t * 16 + f) :: vbi 5 n).
Proof.
  intros Hf Hn. unfold build_fixed_header. rewrite u32_id by (unfold is_u32, MQTT_MAX_REMAINING_LENGTH in *; lia).
  rewrite encode_remaining_length_ok by done. mstep.
  apply encodes_run; [zlia|]. eapply emits_eq; [eauto with emits|].
  simpl. f_equal. change 15 with (Z.ones 4). rewrite Z.land_ones by lia. unfold packet_flags in Hf.
  rewrite Z.mod_small by (change (2 ^ 4) with 16; lia).
  rewrite lor_shiftl_add by (change (2 ^ 4) with 16; lia). change (2 ^ 4) with 16.
  rewrite !u8_id; unfold is_u8, u8; [done| |apply Z.mod_pos_bound; lia].
  destruct t; simpl; lia.
Qed.

Lemma finish_packet_ok t f body x : packet_flags f -> zlen x <= MQTT_MAX_REMAINING_LENGTH ->
  encodes body x -> encodes (finish_packet t f body) (frame t f x).
Proof.
  intros Hf Hx (b & -> & Hb & Hc & Ho)%encodes_inv. unfold finish_packet. mstep.
  rewrite Ho, Hc. pose proof (zlen_nonneg x).
  destruct (build_fixed_header_ok t f (zlen x) Hf) as (r & -> & Hr & Hrc); [lia|]. mstep.
  destruct (sink_append_ok x r Hr) as (r' & -> & Hr' & Hrc'). exists r'.
  split; [done|]. split; [done|]. by rewrite Hrc', Hrc.
Qed.

(** A body that does not fit the remaining length overruns the header's array. *)
Lemma finish_packet_fault t f body x : MQTT_MAX_REMAINING_LENGTH < zlen x -> is_u32 (zlen x) ->
  encodes body x -> finish_packet t f body = Fault.
Proof.
  intros Hx Hx32 (b & -> & Hb & Hc & Ho)%encodes_inv. unfold finish_packet, build_fixed_header. mstep.
  rewrite Ho, u32_id by done. by rewrite encode_remaining_length_fault.
Qed.

Lemma emits_codec_str s : emits (write_utf8_string s) (prefixed s).
Proof. exact (emits_str s). Qed.
Hint Resolve emits_codec_str : emits.

Lemma emits_level_props level p : ids_u32 p -> emits (write_level_properties level p) (enc_level_props level p).
Proof. intros. destruct level; [apply emits_skip|by apply emits_properties]. Qed.
Hint Resolve emits_level_props : emits.

Lemma emits_payload s : emits (w_if (negb (is_empty s)) (sink_append s)) s.
Proof. destruct s; [apply emits_skip|apply emits_append]. Qed.
Hint Resolve emits_payload : emits.

Lemma ids_u32_no_props : ids_u32 no_props.
Proof. exact I. Qed.
Hint Resolve ids_u32_no_props : emits.

(** The first byte of a PUBLISH, from its three flags. *)
Lemma publish_flags_eq p : 0 <= pb_dup p <= 1 -> 0 <= pb_qos p <= 3 -> 0 <= pb_retain p <= 1 ->
  u8 (Z.lor (Z.lor (Z.shiftl (pb_dup p) 3) (Z.shiftl (pb_qos p) MQTT_PUBLISH_FLAG_QOS_SHIFT))
            (Z.land (pb_retain p) MQTT_PUBLISH_FLAG_RETAIN)) = publish_flags p.
Proof.
  intros. unfold publish_flags.
  assert (pb_dup p = 0 \/ pb_dup p = 1) as [-> | ->] by lia;
    assert (pb_qos p = 0 \/ pb_qos p = 1 \/ pb_qos p = 2 \/ pb_qos p = 3) as [-> | [-> | [-> | ->]]] by lia;
    assert (pb_retain p = 0 \/ pb_retain p = 1) as [-> | ->] by lia; reflexivity.
Qed.

Lemma encodes_publish_body p level : ids_u32 (pb_properties p) ->
  encodes (w_run 256
    (w_seq (write_utf8_string (pb_topic p))
    (w_seq (w_if (negb (pb_qos p =? AT_MOST_ONCE)) (sink_u16 (default 0 (pb_packet_id p))))
    (w_seq (write_level_properties level (pb_properties p))
      (w_if (negb (is_empty (pb_payload p))) (sink_append (pb_payload p))))))) (publish_body p level).
Proof.
  intros Hids. apply encodes_run; [lia|]. unfold publish_body. apply emits_seq; [eauto with emits|].
  apply emits_seq; [destruct (pb_qos p =? AT_MOST_ONCE); simpl; eauto with emits|].
  eauto with emits.
Qed.

Lemma encode_publish_frame p level : 0 <= pb_dup p <= 1 -> 0 <= pb_qos p <= 3 -> 0 <= pb_retain p <= 1 ->
  ids_u32 (pb_properties p) -> zlen (publish_body p level) <= MQTT_MAX_REMAINING_LENGTH ->
  encodes (encode_publish p level) (frame PUBLISH (publish_flags p) (publish_body p level)).
Proof.
  intros Hd Hq Hr Hids Hlen. unfold encode_publish. rewrite publish_flags_eq by done.
  apply finish_packet_ok; [unfold packet_flags, publish_flags; lia|done|by apply encodes_publish_body].
Qed.

Lemma emits_ack packet_id reason level p : ids_u32 p ->
  emits (w_seq (sink_u16 packet_id)
          (w_if (is_v5 level) (w_seq (sink_u8 reason) (encode_properties p))))
        (ack_body packet_id reason level p).
Proof.
  intros. unfold ack_body. apply emits_seq; [eauto with emits|].
  destruct level; simpl; [eauto with emits|]. apply (emits_seq _ _ [u8 reason]); eauto with emits.
Qed.

Lemma encode_simple_ack_frame t f packet_id reason level p : packet_flags f -> ids_u32 p ->
  zlen (ack_body packet_id reason level p) <= MQTT_MAX_REMAINING_LENGTH ->
  encodes (encode_simple_ack t f packet_id reason level p) (frame t f (ack_body packet_id reason level p)).
Proof.
  intros. unfold encode_simple_ack. apply finish_packet_ok; [done|done|].
  apply encodes_run; [lia|]. by apply emits_ack.
Qed.

Lemma emits_codes codes : emits (w_for codes sink_u8) (map u8 codes).
Proof. induction codes as [|c codes IH]; [apply emits_skip|]. apply (emits_seq _ _ [u8 c]); eauto with emits. Qed.
Hint Resolve emits_codes : emits.

Lemma encode_connack_frame pkt level : ids_u32 (ca_properties pkt) ->
  zlen (connack_body pkt level) <= MQTT_MAX_REMAINING_LENGTH ->
  encodes (encode_connack pkt level) (frame CONNACK 0 (connack_body pkt level)).
Proof.
  intros. unfold encode_connack. apply finish_packet_ok; [unfold packet_flags; lia|done|].
  apply encodes_run; [lia|]. unfold connack_body.
  apply (emits_seq _ _ [_]); [eauto with emits|]. apply (emits_seq _ _ [_]); eauto with emits.
Qed.

Lemma encode_suback_frame packet_id codes level p : ids_u32 p ->
  zlen (suback_body packet_id codes level p) <= MQTT_MAX_REMAINING_LENGTH ->
  encodes (encode_suback packet_id codes level p) (frame SUBACK 0 (suback_body packet_id codes level p)).
Proof.
  intros. unfold encode_suback. apply finish_packet_ok; [unfold packet_flags; lia|done|].
  apply encodes_run; [zlia|]. unfold suback_body. eauto with emits.
Qed.

Lemma encode_unsuback_frame packet_id codes level p : ids_u32 p ->
  zlen (unsuback_body packet_id codes level p) <= MQTT_MAX_REMAINING_LENGTH ->
  encodes (encode_unsuback packet_id codes level p) (frame UNSUBACK 0 (unsuback_body packet_id codes level p)).
Proof.
  intros. unfold encode_unsuback. apply finish_packet_ok; [unfold packet_flags; lia|done|].
  apply encodes_run; [zlia|]. unfold unsuback_body.
  apply emits_seq; [eauto with emits|]. destruct level; simpl; [apply emits_skip|].
  apply emits_seq; [by apply emits_properties|eauto with emits].
Qed.

Lemma encode_pingresp_bytes : encodes encode_pingresp [208; 0].
Proof. unfold encode_pingresp. apply encodes_run; [lia|]. apply (emits_seq _ _ [208] [0]); apply emits_u8. Qed.

Lemma encode_disconnect_frame reason level p : ids_u32 p ->
  zlen (reason_body reason p) <= MQTT_MAX_REMAINING_LENGTH ->
  encodes (encode_disconnect reason level p)
    (if is_v5 level then frame DISCONNECT 0 (reason_body reason p) else [224; 0]).
Proof.
  intros. unfold encode_disconnect. destruct level; simpl.
  - apply encodes_run; [lia|]. apply (emits_seq _ _ [224] [0]); apply emits_u8.
  - apply finish_packet_ok; [unfold packet_flags; lia|done|]. apply encodes_run; [lia|].
    apply (emits_seq _ _ [_]); [eauto with emits|by apply emits_properties].
Qed.

Lemma encode_auth_frame reason p : ids_u32 p ->
  zlen (reason_body reason p) <= MQTT_MAX_REMAINING_LENGTH ->
  encodes (encode_auth reason p) (frame AUTH 0 (reason_body reason p)).
Proof.
  intros. unfold encode_auth. apply finish_packet_ok; [unfold packet_flags; lia|done|].
  apply encodes_run; [lia|]. apply (emits_seq _ _ [_]); [eauto with emits|by apply emits_properties].
Qed.
End Encoders.

(** * Decoders read the wire format back *)

(** Advance past a chunk that has been read: the data regrouped after it. *)
Ltac next_chunk :=
  mstep;
  match goal with
  | |- context [zlen ?p + zlen ?c] => rewrite <- (zlen_app p c), ?(app_assoc p c)
  end.

Lemma decodes_codec_str s : str_ok s -> decodes read_utf8_string (prefixed s) s.
Proof. exact (decodes_str s). Qed.
Lemma decodes_codec_bin s : str_ok s -> decodes read_binary_data (prefixed s) s.
Proof. exact (decodes_str s). Qed.
Lemma decodes_codec_u16 v : is_u16 v -> decodes read_u16 (be16 v) v.
Proof. exact (decodes_u16 v). Qed.

Lemma decodes_byte b : decodes read_byte [b] b.
Proof.
  intros pre post hi Hhi. unfold read_byte. autorewrite with zlen in *. case_if; [lia|].
  cbn [app]. by rewrite rd_app.
Qed.

(** A protocol level and the properties it allows. *)
Definition level_props_ok (level : ProtocolLevel) (p : MqttProperties) : Prop :=
  if is_v5 level then props_ok p else p = no_props.

Lemma decodes_level_props level p : level_props_ok level p ->
  decodes (read_level_properties level) (enc_level_props level p) p.
Proof.
  unfold level_props_ok, read_level_properties, enc_level_props. intros Hok pre post hi Hhi.
  destruct level; simpl in *.
  - subst p. f_equal. f_equal. zlia.
  - by apply decodes_properties.
Qed.

(** An optional chunk, present exactly under its condition. *)
Definition present {A} (cond : bool) (o : option A) : Prop := cond = true <-> is_Some o.

Lemma decodes_opt {A} cond (o : option A) enc (read : bytes -> Z -> Z -> outcome (A * Z)) :
  present cond o -> (forall a, o = Some a -> decodes read (enc a) a) ->
  decodes (fun data hi => read_if cond (read data hi)) (opt_bytes o enc) o.
Proof.
  intros Hp Hr pre post hi Hhi. unfold read_if, present in *. destruct o as [a|], cond; simpl in *.
  - rewrite (Hr a) by done. done.
  - destruct Hp as [_ Hp]. discriminate Hp. eauto.
  - destruct Hp as [Hp _]. destruct (Hp eq_refl). discriminate.
  - f_equal. f_equal. zlia.
Qed.

(** ** PUBLISH *)
Definition publish_ok (p : MqttPublishPacket) (level : ProtocolLevel) : Prop :=
  0 <= pb_dup p <= 1 /\ 0 <= pb_qos p <= 2 /\ 0 <= pb_retain p <= 1 /\
  str_ok (pb_topic p) /\
  (if pb_qos p =? AT_MOST_ONCE then pb_packet_id p = None
   else exists id, pb_packet_id p = Some id /\ 0 < id < 65536) /\
  level_props_ok level (pb_properties p) /\
  zlen (publish_body p level) <= MQTT_MAX_REMAINING_LENGTH.

Lemma publish_flags_fields p : 0 <= pb_dup p <= 1 -> 0 <= pb_qos p <= 3 -> 0 <= pb_retain p <= 1 ->
  (if flag_set (publish_flags p) MQTT_PUBLISH_FLAG_DUP then 1 else 0) = pb_dup p /\
  Z.land (Z.shiftr (publish_flags p) MQTT_PUBLISH_FLAG_QOS_SHIFT) 3 = pb_qos p /\
  Z.land (publish_flags p) MQTT_PUBLISH_FLAG_RETAIN = pb_retain p.
Proof.
  intros. unfold publish_flags.
  assert (pb_dup p = 0 \/ pb_dup p = 1) as [-> | ->] by lia;
    assert (pb_qos p = 0 \/ pb_qos p = 1 \/ pb_qos p = 2 \/ pb_qos p = 3) as [-> | [-> | [-> | ->]]] by lia;
    assert (pb_retain p = 0 \/ pb_retain p = 1) as [-> | ->] by lia; auto.
Qed.

Lemma decode_publish_body p level post : publish_ok p level ->
  decode_publish (publish_body p level ++ post) (zlen (publish_body p level)) (publish_flags p) level = Ok p.
Proof.
  intros (Hd & Hq & Hr & Ht & Hid & Hp & _). unfold decode_publish.
  destruct (publish_flags_fields p) as (-> & -> & ->); try lia. case_if; [lia|].
  set (len := zlen (publish_body p level)). assert (zlen (publish_body p level) <= len) as Hlen by lia.
  unfold publish_body in *. rewrite <- !app_assoc.
  set (idb := if pb_qos p =? AT_MOST_ONCE then [] else be16 (default 0 (pb_packet_id p))) in *.
  autorewrite with zlen in Hlen. zlen_pos.
  pose proof (decodes_codec_str _ Ht []) as E. cbn [app] in E. rewrite zlen_nil in E.
  rewrite E by zlia. mstep. rewrite Z.add_0_l.
  set (pre := prefixed (pb_topic p)).
  assert (decodes (fun data hi => read_if (negb (pb_qos p =? AT_MOST_ONCE)) (read_u16 data hi)) idb (pb_packet_id p)) as Did.
  { assert (idb = opt_bytes (pb_packet_id p) be16) as ->
      by (unfold idb; destruct (pb_qos p =? AT_MOST_ONCE); [by rewrite Hid|by destruct Hid as (? & -> & _)]).
    apply decodes_opt.
    - unfold present. destruct (pb_qos p =? AT_MOST_ONCE); simpl; [rewrite Hid; split; [done|by intros []]|].
      destruct Hid as (id & -> & _). split; eauto.
    - intros id E'. apply decodes_codec_u16. unfold is_u16.
      destruct (pb_qos p =? AT_MOST_ONCE); [congruence|].
      destruct Hid as (id' & E'' & ?). simplify_eq. lia. }
  rewrite Did by (unfold pre; zlia). next_chunk.
  replace (_ && _) with false.
  2:{ destruct (pb_qos p =? AT_MOST_ONCE); [done|]. destruct Hid as (id & -> & ?). simpl. lia. }
  rewrite (decodes_level_props _ _ Hp) by (unfold pre; zlia). next_chunk.
  assert (len = zlen ((pre ++ idb) ++ enc_level_props level (pb_properties p)) + zlen (pb_payload p)) as Elen
    by (unfold len, pre; zlia).
  destruct (pb_payload p) as [|b pl] eqn:Epl.
  - autorewrite with zlen in Elen. case_if; [zlia|]. mstep. destruct p; simpl in *; congruence.
  - rewrite <- Epl in *. case_if; [|rewrite Epl in Elen; zlia].
    replace (len - _) with (zlen (pb_payload p)) by lia. rewrite rd_range_app. mstep.
    by destruct p.
Qed.

(** ** Acknowledgements *)
Lemma decode_simple_ack_body packet_id reason level p post :
  is_u16 packet_id -> is_u8 reason -> level_props_ok level p -> (level = V3_1_1 -> reason = 0) ->
  decode_simple_ack (ack_body packet_id reason level p ++ post) (zlen (ack_body packet_id reason level p)) level
  = Ok (mkAck packet_id reason p).
Proof.
  intros Hid Hr Hp H3. unfold decode_simple_ack, ack_body. rewrite <- app_assoc.
  change (be16 packet_id) with [u8 (Z.shiftr packet_id 8); u8 packet_id]. cbn [app]. change (rd (?x :: ?l) 0) with (Ok x). change (rd (?x :: ?y :: ?l) 1) with (Ok y).
  autorewrite with zlen. zlen_pos. case_if; [zlia|]. mstep. rewrite be16_decode by done.
  destruct level; simpl in *.
  - by rewrite H3, Hp.
  - pose proof (zlen_enc_props p). case_if; [|zlia].
    change (rd (?x :: ?y :: ?z :: ?l) 2) with (Ok z). mstep. rewrite u8_id by done.
    pose proof (fun hi => decodes_properties p Hp [u8 (Z.shiftr packet_id 8); u8 packet_id; reason] post hi) as E.
    change (zlen [_; _; _]) with 3 in E. cbn [app] in E.
    rewrite E by zlia. done.
Qed.

Lemma decode_pubrec_eq data len level : decode_pubrec data len level = decode_simple_ack data len level.
Proof. reflexivity. Qed.
Lemma decode_pubrel_eq data len level : decode_pubrel data len level = decode_simple_ack data len level.
Proof. reflexivity. Qed.
Lemma decode_pubcomp_eq data len level : decode_pubcomp data len level = decode_simple_ack data len level.
Proof. reflexivity. Qed.

Lemma flag_testbit f k : 0 <= k -> flag_set f (2 ^ k) = Z.testbit f k.
Proof.
  intros Hk. unfold flag_set.
  assert (Z.land f (2 ^ k) = if Z.testbit f k then 2 ^ k else 0) as ->.
  { apply Z.bits_inj'. intros n Hn. rewrite Z.land_spec, Z.pow2_bits_eqb by done.
    destruct (Z.eqb_spec k n) as [->|Hne].
    - destruct (Z.testbit f n) eqn:E; [by rewrite Z.pow2_bits_eqb, Z.eqb_refl by done|by rewrite Z.bits_0].
    - rewrite andb_false_r. destruct (Z.testbit f k); [|by rewrite Z.bits_0].
      rewrite Z.pow2_bits_eqb by done. symmetry. by apply Z.eqb_neq. }
  assert (0 < 2 ^ k) by (by apply Z.pow_pos_nonneg). destruct (Z.testbit f k); lia.
Qed.

(** The rules that the protocol gives for the flag byte, bit by bit. *)
Definition flags_rules (f : Z) : Prop :=
  let will_qos := Z.land (Z.shiftr f 3) 3 in
  Z.testbit f 0 = false
  /\ (Z.testbit f 2 = false -> will_qos = 0 /\ Z.testbit f 5 = false)
  /\ will_qos <= 2
  /\ (Z.testbit f 6 = true -> Z.testbit f 7 = true).

Lemma connect_flags_spec f : connect_flags_valid f = true <-> flags_rules f.
Proof.
  unfold connect_flags_valid, flags_rules. cbv zeta.
  unfold MQTT_CONNECT_FLAG_WILL_FLAG, MQTT_CONNECT_FLAG_WILL_RETAIN, MQTT_CONNECT_FLAG_PASSWORD,
    MQTT_CONNECT_FLAG_USERNAME, MQTT_CONNECT_FLAG_WILL_QOS_SHIFT.
  rewrite (flag_testbit f 0 ltac:(lia) : flag_set f 1 = _), (flag_testbit f 2 ltac:(lia) : flag_set f 4 = _),
    (flag_testbit f 5 ltac:(lia) : flag_set f 32 = _), (flag_testbit f 6 ltac:(lia) : flag_set f 64 = _),
    (flag_testbit f 7 ltac:(lia) : flag_set f 128 = _).
  set (q := Z.land _ _). destruct (Z.testbit f 0), (Z.testbit f 2), (Z.testbit f 5), (Z.testbit f 6), (Z.testbit f 7);
    cbn [negb andb orb]; repeat case_match; intuition (lia || congruence).
Qed.

(** ** CONNECT *)
Definition connect_ok (p : MqttConnectPacket) : Prop :=
  let f := cp_connect_flags p in
  let level := cp_protocol_level p in
  is_u8 f /\ flags_rules f /\ is_u16 (cp_keep_alive p) /\
  level_props_ok level (cp_properties p) /\ str_ok (cp_client_id p) /\
  (if flag_set f MQTT_CONNECT_FLAG_WILL_FLAG then level_props_ok level (cp_will_properties p)
   else cp_will_properties p = no_props) /\
  present (flag_set f MQTT_CONNECT_FLAG_WILL_FLAG) (cp_will_topic p) /\
  present (flag_set f MQTT_CONNECT_FLAG_WILL_FLAG) (cp_will_payload p) /\
  present (flag_set f MQTT_CONNECT_FLAG_USERNAME) (cp_username p) /\
  present (flag_set f MQTT_CONNECT_FLAG_PASSWORD) (cp_password p) /\
  Forall (fun o => forall s, o = Some s -> str_ok s)
    [cp_will_topic p; cp_will_payload p; cp_username p; cp_password p].

Lemma ProtocolLevel_cast_val l : ProtocolLevel_cast (ProtocolLevel_val l) = Some l.
Proof. by destruct l. Qed.

Lemma decode_connect_body p post : connect_ok p ->
  decode_connect (connect_body p ++ post) (zlen (connect_body p)) = Ok p.
Proof.
  intros (Hf & Hfv & Hka & Hp & Hid & Hwp & Hwt & Hwpl & Hu & Hpw & Hs).
  rewrite !Forall_cons in Hs. destruct Hs as (S1 & S2 & S3 & S4 & _). apply connect_flags_spec in Hfv.
  unfold decode_connect.
  set (len := zlen (connect_body p)). assert (zlen (connect_body p) <= len) as Hlen by lia.
  unfold connect_body in *. clearbody len. rewrite <- !app_assoc.
  set (name := prefixed MQTT_PROTOCOL_NAME_V5) in *.
  set (wp := if flag_set _ MQTT_CONNECT_FLAG_WILL_FLAG then enc_level_props _ _ else []) in *.
  autorewrite with zlen in Hlen. zlen_pos.
  pose proof (decodes_codec_str MQTT_PROTOCOL_NAME_V5 eq_refl []) as E. fold name in E.
  cbn [app] in E. rewrite zlen_nil in E. rewrite E by lia. mstep. rewrite Z.add_0_l.
  rewrite bool_decide_eq_true_2 by done. cbn [negb].
  change ([?a; ?b] ++ ?l) with ([a] ++ [b] ++ l).
  rewrite decodes_byte by zlia. next_chunk. rewrite ProtocolLevel_cast_val.
  rewrite decodes_byte by zlia. next_chunk. rewrite Hfv. cbn [negb].
  rewrite (decodes_codec_u16 _ Hka) by zlia. next_chunk.
  rewrite (decodes_level_props _ _ Hp) by zlia. next_chunk.
  rewrite (decodes_codec_str _ Hid) by zlia. next_chunk.
  set (wf := flag_set (cp_connect_flags p) MQTT_CONNECT_FLAG_WILL_FLAG) in *.
  assert (decodes (fun data hi o => if wf then read_level_properties (cp_protocol_level p) data hi o
                                    else Ok (no_props, o)) wp (cp_will_properties p)) as Dw.
  { intros pre' post' hi' Hhi'. unfold wp in *. destruct wf.
    - by apply decodes_level_props.
    - rewrite Hwp. f_equal. f_equal. zlia. }
  rewrite Dw by zlia. next_chunk.
  rewrite (decodes_opt _ _ prefixed _ Hwt ltac:(intros; apply decodes_codec_str; auto)) by zlia. next_chunk.
  rewrite (decodes_opt _ _ prefixed _ Hwpl ltac:(intros; apply decodes_codec_bin; auto)) by zlia. next_chunk.
  rewrite (decodes_opt _ _ prefixed _ Hu ltac:(intros; apply decodes_codec_str; auto)) by zlia. next_chunk.
  rewrite (decodes_opt _ _ prefixed _ Hpw ltac:(intros; apply decodes_codec_str; auto)) by zlia. mstep.
  by destruct p.
Qed.

Create HintDb bounds.

(** * Memory safety of the decoders

    The caller's obligation is that [len] bytes are there: [len <= zlen data]. *)
Section Safety.
Variables (data : bytes) (len : Z).
Hypothesis Hlen : 0 <= len <= zlen data.

Lemma codec_str_bounds o : 0 <= o -> in_bounds (o + 2) len (read_utf8_string data len o).
Proof. intros. apply (read_utf8_string_bounds data len o); lia. Qed.
Lemma codec_bin_bounds o : 0 <= o -> in_bounds (o + 2) len (read_binary_data data len o).
Proof. intros. apply (read_utf8_string_bounds data len o); lia. Qed.
Lemma codec_u16_bounds o : 0 <= o -> in_bounds (o + 2) len (read_u16 data len o).
Proof. intros. apply (read_prop_u16_bounds data len o); lia. Qed.
Lemma codec_byte_bounds o : 0 <= o -> in_bounds (o + 1) len (read_byte data len o).
Proof. intros. apply (read_prop_u8_bounds data len o); lia. Qed.

Lemma level_props_bounds level o : 0 <= o <= len -> in_bounds o len (read_level_properties level data len o).
Proof.
  intros. unfold read_level_properties. destruct level; simpl; [lia|].
  eapply in_bounds_weaken; [apply read_properties_bounds|..]; lia.
Qed.

Lemma read_if_bounds {A} c (read : Z -> outcome (A * Z)) o : 0 <= o <= len ->
  in_bounds o len (read o) -> in_bounds o len (read_if c read o).
Proof.
  intros. unfold read_if. destruct c; [|simpl; lia].
  eapply in_bounds_bind; [eassumption|]. simpl. intros. lia.
Qed.

Lemma will_props_bounds (c : bool) level o : 0 <= o <= len ->
  in_bounds o len (if c then read_level_properties level data len o else Ok (no_props, o)).
Proof. intros. destruct c; [by apply level_props_bounds|simpl; lia]. Qed.

Lemma opt_str_bounds c o : 0 <= o <= len -> in_bounds o len (read_if c (read_utf8_string data len) o).
Proof. intros. apply read_if_bounds; [lia|]. eapply in_bounds_weaken; [apply codec_str_bounds|..]; lia. Qed.
Lemma opt_bin_bounds c o : 0 <= o <= len -> in_bounds o len (read_if c (read_binary_data data len) o).
Proof. intros. apply read_if_bounds; [lia|]. eapply in_bounds_weaken; [apply codec_bin_bounds|..]; lia. Qed.
Lemma opt_u16_bounds c o : 0 <= o <= len -> in_bounds o len (read_if c (read_u16 data len) o).
Proof. intros. apply read_if_bounds; [lia|]. eapply in_bounds_weaken; [apply codec_u16_bounds|..]; lia. Qed.

Lemma read_all_safe {A} (read : Z -> outcome (A * Z)) :
  (forall o, 0 <= o <= len -> in_bounds (o + 1) len (read o)) ->
  forall fuel o, 0 <= o <= len -> len - o <= Z.of_nat fuel -> safe (read_all fuel read len o).
Proof.
  intros Hr. induction fuel as [|fuel IH]; intros o Ho Hf; cbn [read_all].
  { case_if; [lia|exact I]. }
  case_if; [|exact I].
  eapply safe_bind_in; [by apply Hr|]. intros a o' _ Ho'.
  apply safe_bind; [apply IH; lia|]. intros. exact I.
Qed.

Lemma read_subscription_bounds level o : 0 <= o -> in_bounds (o + 1) len (read_subscription level data len o).
Proof.
  intros. unfold read_subscription.
  eapply in_bounds_bind; [by apply codec_str_bounds|]. intros s o' _ Ho'.
  eapply in_bounds_bind; [apply codec_byte_bounds; lia|]. intros b o'' _ Ho''. simpl. lia.
Qed.

Hint Extern 2 (in_bounds _ _ (MqttCodec.read_utf8_string _ _ _)) => apply codec_str_bounds; lia : bounds.
Hint Extern 2 (in_bounds _ _ (read_byte _ _ _)) => apply codec_byte_bounds; lia : bounds.
Hint Extern 2 (in_bounds _ _ (read_u16 _ _ _)) => apply codec_u16_bounds; lia : bounds.
Hint Extern 2 (in_bounds _ _ (read_level_properties _ _ _ _)) => apply level_props_bounds; lia : bounds.
Hint Extern 2 (in_bounds _ _ (read_if _ (MqttCodec.read_utf8_string _ _) _)) => apply opt_str_bounds; lia : bounds.
Hint Extern 2 (in_bounds _ _ (read_if _ (MqttCodec.read_binary_data _ _) _)) => apply opt_bin_bounds; lia : bounds.
Hint Extern 2 (in_bounds _ _ (read_if _ (read_u16 _ _) _)) => apply opt_u16_bounds; lia : bounds.

Hint Extern 2 (in_bounds _ _ (if _ then _ else _)) => apply will_props_bounds; lia : bounds.

(** One read of a decoder: it is in bounds, and so is the offset it returns. *)
Ltac safe_read := eapply safe_bind_in; [eauto with bounds|]; intros ? ? _ ?.

Lemma decode_connect_safe : safe (decode_connect data len).
Proof.
  unfold decode_connect. safe_read. case_if; [exact I|]. safe_read.
  destruct (ProtocolLevel_cast _) as [level|]; [|exact I].
  safe_read. case_if; [exact I|]. do 3 safe_read.
  do 5 safe_read. exact I.
Qed.

Lemma decode_publish_safe flags level : safe (decode_publish data len flags level).
Proof.
  unfold decode_publish. case_if; [exact I|]. do 2 safe_read. case_if; [exact I|]. safe_read.
  apply safe_bind; [|intros; exact I]. case_if; [apply rd_range_safe; lia|exact I].
Qed.

Lemma decode_subscribe_safe level : safe (decode_subscribe data len level).
Proof.
  unfold decode_subscribe. do 2 safe_read.
  apply safe_bind; [|intros; exact I].
  apply read_all_safe; [|lia|lia]. intros. apply read_subscription_bounds. lia.
Qed.

Lemma decode_unsubscribe_safe level : safe (decode_unsubscribe data len level).
Proof.
  unfold decode_unsubscribe. do 2 safe_read.
  apply safe_bind; [|intros; exact I].
  apply read_all_safe; [|lia|lia]. intros. eapply in_bounds_weaken; [apply codec_str_bounds|..]; lia.
Qed.

Lemma decode_simple_ack_safe level : safe (decode_simple_ack data len level).
Proof.
  unfold decode_simple_ack. case_if; [exact I|].
  do 2 (apply safe_bind; [apply rd_safe; lia|]; intros ? _).
  case_if; [|exact I]. apply safe_bind; [apply rd_safe; lia|]. intros ? _.
  eapply safe_bind_in; [apply read_properties_bounds; lia|]. intros. exact I.
Qed.

Lemma decode_reason_safe : safe (decode_disconnect data len).
Proof.
  unfold decode_disconnect. case_if; [|exact I].
  apply safe_bind; [apply rd_safe; lia|]. intros ? _. case_if; [|exact I].
  eapply safe_bind_in; [apply read_properties_bounds; lia|]. intros. exact I.
Qed.

Lemma decode_auth_safe : safe (decode_auth data len).
Proof. exact decode_reason_safe. Qed.

Lemma try_decode_safe : safe (try_decode data len).
Proof.
  unfold try_decode. case_if; [exact I|].
  apply safe_bind; [apply rd_safe; lia|]. intros ? _. case_if; [exact I|].
  rewrite decode_remaining_length_eq. eapply safe_bind_in.
  - apply decode_variable_byte_int_bounds; [lia|]. unfold zlen in *. rewrite length_drop. lia.
  - intros. case_if; exact I.
Qed.
End Safety.

(** What [try_decode] accepts lies within the data. *)
Lemma try_decode_inv data len t n : try_decode data len = Ok (t, n) -> 2 <= n <= len /\ t <> RESERVED.
Proof.
  unfold try_decode. case_if; [discriminate|].
  intros (b & Hb & H)%outcome_bind_inv. case_if_in H; [discriminate|].
  apply outcome_bind_inv in H as ([r v] & Hr & H). case_if_in H; [discriminate|].
  injection H as <- <-. rewrite decode_remaining_length_eq in Hr.
  assert (0 <= r) by (eapply decode_vbi_nonneg; [|exact Hr]; lia).
  apply decode_vbi_offset in Hr.
  split; [lia|].
  change (PacketType_val CONNECT) with 1 in *. change (PacketType_val AUTH) with 15 in *.
  assert (1 <= Z.shiftr b 4 <= 15) as Hr' by lia.
  generalize dependent (Z.shiftr b 4). intros z _ Hz.
  assert (z = 1 \/ z = 2 \/ z = 3 \/ z = 4 \/ z = 5 \/ z = 6 \/ z = 7 \/ z = 8 \/ z = 9 \/ z = 10 \/
          z = 11 \/ z = 12 \/ z = 13 \/ z = 14 \/ z = 15) as Hcases by lia.
  by intuition subst.
Qed.
