(* ===== verification/MqttDecodeSound.v ===== *)
(** What the decoders accept.

    Every value a decoder returns is one the wire format can carry, and encoding it
    again takes no more bytes than were read: the decoders are sound with respect to
    the wire format, as [MqttCodecFacts] shows them complete. *)
From S2P Require Import Prelude MqttProtocol MqttProperties MqttPropertiesFacts MqttCodec MqttCodecFacts.
Import MqttProperties MqttCodec.

(** A read that returned: the value satisfies [P], and its encoding [enc] fits the
    bytes that were consumed. *)
Definition sound_read {A} (P : A -> Prop) (enc : A -> bytes) (o : Z) (r : outcome (A * Z)) : Prop :=
  forall a o', r = Ok (a, o') -> P a /\ zlen (enc a) <= o' - o.

Lemma sound_read_bind {A C} (P : A -> Prop) enc (Q : C -> Prop) encQ o r (f : A -> Z -> outcome (C * Z)) :
  sound_read P enc o r ->
  (forall a o1, r = Ok (a, o1) -> P a -> zlen (enc a) <= o1 - o -> sound_read Q encQ o (f a o1)) ->
  sound_read Q encQ o ('(a, o1) ← r; f a o1).
Proof.
  intros Hr Hf c o' ([a o1] & E & H)%outcome_bind_inv. destruct (Hr a o1 E). by apply (Hf a o1).
Qed.

(** * Primitive reads *)
Lemma rd_range_inv data i n s : rd_range data i n = Ok s -> 0 <= i /\ 0 <= n /\ i + n <= zlen data /\ zlen s = n.
Proof.
  intros H. pose proof (rd_range_len _ _ _ _ H) as Hl. unfold rd_range in H.
  case_if_in H; [discriminate|]. lia.
Qed.

Lemma read_utf8_string_inv data hi o s o' :
  read_utf8_string data hi o = Ok (s, o') -> str_ok s /\ o' = o + 2 + zlen s /\ o' <= hi.
Proof.
  unfold read_utf8_string. case_if; [discriminate|].
  intros (a & _ & (b & _ & H)%outcome_bind_inv)%outcome_bind_inv. case_if_in H; [discriminate|].
  apply outcome_bind_inv in H as (x & Hx%rd_range_inv & [= <- <-]).
  pose proof (u16_range (Z.lor (Z.shiftl a 8) b)) as Hr. unfold is_u16, str_ok in *. lia.
Qed.

Lemma sound_str data hi o : sound_read str_ok prefixed o (read_utf8_string data hi o).
Proof. intros s o' (Hs & -> & _)%read_utf8_string_inv. split; [done|]. zlia. Qed.
Lemma sound_bin data hi o : sound_read str_ok prefixed o (read_binary_data data hi o).
Proof. exact (sound_str data hi o). Qed.

Lemma sound_u16 data hi o : sound_read is_u16 be16 o (read_prop_u16 data hi o).
Proof.
  unfold read_prop_u16. intros v o'. case_if; [discriminate|].
  intros (a & _ & (b & _ & [= <- <-])%outcome_bind_inv)%outcome_bind_inv.
  split; [apply u16_range|]. rewrite zlen_be16. lia.
Qed.

Lemma sound_u32 data hi o : sound_read is_u32 be32 o (read_prop_u32 data hi o).
Proof.
  unfold read_prop_u32. intros v o'. case_if; [discriminate|].
  intros (a & _ & (b & _ & (c & _ & (d & _ & [= <- <-])%outcome_bind_inv)%outcome_bind_inv)%outcome_bind_inv)%outcome_bind_inv.
  split; [apply u32_range|]. unfold be32. zlia.
Qed.

Lemma sound_u8 data hi o : Forall is_u8 data -> sound_read is_u8 (fun v => [u8 v]) o (read_prop_u8 data hi o).
Proof.
  unfold read_prop_u8. intros Hd v o'. case_if; [discriminate|].
  intros (a & Ha & [= <- <-])%outcome_bind_inv. split; [by eapply rd_is_u8|]. zlia.
Qed.

Lemma sound_pair data hi o :
  sound_read (fun up => str_ok (up_key up) /\ str_ok (up_value up))
    (fun up => prefixed (up_key up) ++ prefixed (up_value up)) o (read_user_property data hi o).
Proof.
  unfold read_user_property. intros up o'.
  intros ([k o1] & (Hk & -> & _)%read_utf8_string_inv & H)%outcome_bind_inv.
  apply outcome_bind_inv in H as ([v o2] & (Hv & -> & _)%read_utf8_string_inv & [= <- <-]).
  simpl. split; [done|]. zlia.
Qed.

(** A variable byte integer, however it was padded, is re-encoded in no more bytes. *)
Lemma decode_vbi_loop_inv n data hi o value mult c v o' :
  0 <= value < mult -> 0 < mult -> mult * 128 ^ Z.of_nat n <= 268435456 ->
  decode_variable_byte_int_loop n data hi o value mult c = Ok (v, o') ->
  exists k, (k < n)%nat /\ o' = o + c + Z.of_nat k + 1 /\ 0 <= v < mult * 128 ^ (Z.of_nat k + 1).
Proof.
  revert value mult c; induction n as [|n IH]; intros value mult c Hv Hm Hb H; [discriminate|].
  cbn [decode_variable_byte_int_loop] in H. case_if_in H; [|discriminate].
  apply outcome_bind_inv in H as (b & _ & H). rewrite land_127 in H.
  rewrite Nat2Z.inj_succ, Z.pow_succ_r in Hb by lia.
  assert (0 < 128 ^ Z.of_nat n) by lia.
  pose proof (Z.mod_pos_bound b 128 ltac:(lia)) as Hmod.
  assert (0 <= value + b mod 128 * mult < mult * 128) by nia.
  assert (mult * 128 <= 268435456) by nia.
  rewrite (u32_id (value + _)) in H by (unfold is_u32; lia).
  rewrite (u32_id (mult * 128)) in H by (unfold is_u32; lia).
  case_if_in H.
  - injection H as <- <-. exists 0%nat. split; [lia|]. split; [lia|]. simpl. lia.
  - apply IH in H as (k & Hk & -> & Hv'); [|lia|lia|lia].
    exists (S k). split; [lia|]. split; [lia|].
    replace (Z.of_nat (S k) + 1) with (Z.succ (Z.of_nat k + 1)) by lia. rewrite Z.pow_succ_r by lia. lia.
Qed.

Lemma vbi_len_bound n k v : (0 < k)%nat -> 0 <= v < 128 ^ Z.of_nat k -> zlen (vbi n v) <= Z.of_nat k.
Proof.
  revert k v; induction n as [|n IH]; intros k v Hk Hv; [change (zlen (vbi 0 v)) with 0; lia|].
  rewrite vbi_S. destruct (Z.ltb_spec v 128); [zlia|].
  destruct k as [|[|k]]; [lia|simpl in Hv; lia|].
  rewrite Nat2Z.inj_succ, Z.pow_succ_r in Hv by lia.
  specialize (IH (S k) (v / 128)). rewrite zlen_cons.
  assert (0 <= v / 128 < 128 ^ Z.of_nat (S k)) by (split; [apply Z.div_pos|apply Z.div_lt_upper_bound]; lia).
  lia.
Qed.

Lemma sound_vbi data hi o : sound_read (fun v => 0 <= v < 268435456) (vbi 5) o (decode_variable_byte_int data hi o).
Proof.
  intros v o' (k & Hk & -> & Hv)%decode_vbi_loop_inv; [|lia|lia|simpl; lia].
  assert (128 ^ (Z.of_nat k + 1) <= 128 ^ 4) by (apply Z.pow_le_mono_r; lia).
  change (128 ^ 4) with 268435456 in *. split; [lia|].
  pose proof (vbi_len_bound 5 (S k) v ltac:(lia)) as Hl. rewrite Nat2Z.inj_succ in Hl.
  rewrite <- Z.add_1_r in Hl. lia.
Qed.

Lemma vbi_len_mono n a b : 0 <= a <= b -> zlen (vbi n a) <= zlen (vbi n b).
Proof.
  revert a b; induction n as [|n IH]; intros a b Hab; [done|]. rewrite !vbi_S.
  destruct (Z.ltb_spec a 128), (Z.ltb_spec b 128); try zlia.
  rewrite !zlen_cons. specialize (IH (a / 128) (b / 128)).
  assert (0 <= a / 128 <= b / 128) by (split; [apply Z.div_pos|apply Z.div_le_mono]; lia). lia.
Qed.

(** * Properties *)
Lemma decode_property_inv id data hi o p p' o' : Forall is_u8 data ->
  decode_property id data hi o p = Ok (p', o') ->
  exists v, p' = apply_prop p (id, v) /\ item_ok (id, v) /\ zlen (enc_value v) <= o' - o.
Proof.
  intros Hd H.
  destruct id; cbn [decode_property decode_property_tail] in H; unfold assign in H;
    apply outcome_bind_inv in H as ([x o1] & Hr & [= <- <-]);
    first
    [ apply (sound_u8 data hi o Hd) in Hr as [??]; by exists (PByte x)
    | apply sound_u16 in Hr as [??]; by exists (PU16 x)
    | apply sound_u32 in Hr as [??]; by exists (PU32 x)
    | apply sound_vbi in Hr as [??]; by exists (PVar x)
    | apply sound_pair in Hr as [??]; by exists (PPair x)
    | apply sound_str in Hr as [??]; by exists (PStr x)
    | apply sound_bin in Hr as [??]; by exists (PBin x) ].
Qed.

(** The encoded length of the members. *)
Definition weight (p : MqttProperties) : Z := zlen (enc_items (props_items p)).

Lemma enc_items_app l k : enc_items (l ++ k) = enc_items l ++ enc_items k.
Proof. unfold enc_items. by rewrite map_app, concat_app. Qed.

Lemma zlen_enc_opt {A} (o : option A) id k : 0 <= zlen (enc_items (opt_item o id k)).
Proof. apply zlen_nonneg. Qed.

Lemma zlen_enc_one i : zlen (enc_items [i]) = zlen (enc_item i).
Proof. unfold enc_items. cbn [map concat]. by rewrite app_nil_r. Qed.

Lemma opt_item_some {A} (v : A) id k : opt_item (Some v) id k = [(id, k v)].
Proof. reflexivity. Qed.

(** Assigning one member adds at most its item. *)
Lemma apply_prop_weight p i : weight (apply_prop p i) <= weight p + zlen (enc_item i).
Proof.
  destruct p as [a0 a1 a2 a3 a4 a5 a6 a7 a8 a9 a10 a11 a12 a13 a14 a15 a16 a17 a18 a19 a20 a21 a22 a23 a24 a25 a26].
  pose proof (zlen_nonneg (enc_item i)) as Hi. unfold weight, props_items.
  destruct i as [id v]; destruct id, v; cbn [apply_prop] in *; try lia;
  cbn [set_payload_format_indicator set_message_expiry_interval set_content_type set_response_topic set_correlation_data
    set_subscription_identifier set_session_expiry_interval set_assigned_client_identifier set_server_keep_alive
    set_authentication_method set_authentication_data set_request_problem_information set_will_delay_interval
    set_request_response_information set_response_information set_server_reference set_reason_string set_receive_maximum
    set_topic_alias_maximum set_topic_alias set_maximum_qos set_retain_available set_maximum_packet_size
    set_wildcard_subscription_available set_subscription_identifier_available set_shared_subscription_available
    set_user_properties
    payload_format_indicator message_expiry_interval content_type response_topic correlation_data
    subscription_identifier session_expiry_interval assigned_client_identifier server_keep_alive
    authentication_method authentication_data request_problem_information will_delay_interval
    request_response_information response_information server_reference reason_string receive_maximum
    topic_alias_maximum topic_alias maximum_qos retain_available maximum_packet_size
    wildcard_subscription_available subscription_identifier_available shared_subscription_available user_properties];
  rewrite ?map_app, !enc_items_app, !zlen_app, ?opt_item_some, ?zlen_enc_one; cbn [map]; rewrite ?zlen_enc_one; zlen_pos; lia.
Qed.

Lemma Forall_opt_item {A} (v : A) id k : item_ok (id, k v) -> Forall item_ok (opt_item (Some v) id k).
Proof. intros. by apply Forall_singleton. Qed.

Lemma apply_prop_ok p i : Forall item_ok (props_items p) -> item_ok i -> Forall item_ok (props_items (apply_prop p i)).
Proof.
  destruct p as [a0 a1 a2 a3 a4 a5 a6 a7 a8 a9 a10 a11 a12 a13 a14 a15 a16 a17 a18 a19 a20 a21 a22 a23 a24 a25 a26].
  intros Hp Hi. destruct i as [id v]; destruct id, v; cbn [apply_prop] in *; try done;
  unfold props_items in *;
  cbn [set_payload_format_indicator set_message_expiry_interval set_content_type set_response_topic set_correlation_data
    set_subscription_identifier set_session_expiry_interval set_assigned_client_identifier set_server_keep_alive
    set_authentication_method set_authentication_data set_request_problem_information set_will_delay_interval
    set_request_response_information set_response_information set_server_reference set_reason_string set_receive_maximum
    set_topic_alias_maximum set_topic_alias set_maximum_qos set_retain_available set_maximum_packet_size
    set_wildcard_subscription_available set_subscription_identifier_available set_shared_subscription_available
    set_user_properties
    payload_format_indicator message_expiry_interval content_type response_topic correlation_data
    subscription_identifier session_expiry_interval assigned_client_identifier server_keep_alive
    authentication_method authentication_data request_problem_information will_delay_interval
    request_response_information response_information server_reference reason_string receive_maximum
    topic_alias_maximum topic_alias maximum_qos retain_available maximum_packet_size
    wildcard_subscription_available subscription_identifier_available shared_subscription_available user_properties] in *;
  rewrite ?map_app;
  repeat (let H := fresh in apply Forall_app in Hp as [H Hp]);
  repeat (apply Forall_app_2; [first [assumption | apply Forall_singleton; exact Hi]|]);
  first [assumption | apply Forall_singleton; exact Hi].
Qed.

Lemma zlen_enc_item i : zlen (enc_item i) = 1 + zlen (enc_value i.2).
Proof. unfold enc_item. zlia. Qed.

Lemma decode_properties_loop_inv fuel data hi o p p' o' : Forall is_u8 data ->
  Forall item_ok (props_items p) -> decode_properties_loop fuel data hi o p = Ok (p', o') ->
  Forall item_ok (props_items p') /\ weight p' <= weight p + (o' - o) /\ o <= o' /\ hi <= o'.
Proof.
  intros Hd. revert o p; induction fuel as [|fuel IH]; intros o p Hp H; cbn [decode_properties_loop] in H;
    case_if_in H; try discriminate; try (injection H as <- <-; split_and!; [done|lia..]).
  apply outcome_bind_inv in H as (b & _ & H).
  destruct (PropertyId_cast b) as [id|]; [|discriminate].
  apply outcome_bind_inv in H as ([p1 o1] & (v & -> & Hi & Hl)%decode_property_inv & H); [|done].
  apply IH in H as (Hok & Hw & Ho & Hhi); [|by apply apply_prop_ok].
  pose proof (apply_prop_weight p (id, v)) as Hw'. rewrite zlen_enc_item in Hw'. cbn [snd] in Hw'.
  pose proof (zlen_nonneg (enc_value v)). split_and!; [done|lia..].
Qed.

Lemma weight_no_props : weight no_props = 0.
Proof. reflexivity. Qed.

Lemma read_properties_inv data hi o p o' : Forall is_u8 data -> 0 <= o -> hi <= zlen data ->
  read_properties data hi o no_props = Ok (p, o') -> props_ok p /\ zlen (enc_props p) <= o' - o.
Proof.
  intros Hd Ho Hhi H.
  pose proof (read_properties_bounds data hi o no_props Ho Hhi) as Hb. rewrite H in Hb. simpl in Hb.
  unfold read_properties, decode_properties in H. case_if_in H; [discriminate|].
  apply outcome_bind_inv in H as ([[n p1] o1] & H & Hn).
  apply outcome_bind_inv in H as ([l o2] & Hl & H).
  pose proof (decode_variable_byte_int_bounds data hi o Ho Hhi) as Hob. rewrite Hl in Hob. simpl in Hob.
  apply sound_vbi in Hl as [Hl Hvl]. case_if_in H; [discriminate|].
  apply outcome_bind_inv in H as ([p2 o3] & H & [= <- <- <-]).
  pose proof (decode_properties_loop_bounds (Z.to_nat (o2 + l - o2)) data (o2 + l) o2 no_props) as Hlb.
  rewrite H in Hlb. simpl in Hlb.
  apply decode_properties_loop_inv in H as (Hok & Hw & _ & _); [|done|constructor].
  rewrite weight_no_props in Hw. case_if_in Hn; [discriminate|]. injection Hn as <- <-.
  specialize (Hlb ltac:(lia) ltac:(lia) ltac:(lia)).
  unfold weight in Hw. unfold props_ok, MQTT_MAX_REMAINING_LENGTH. split; [split; [done|lia]|].
  unfold enc_props. pose proof (zlen_nonneg (enc_items (props_items p2))) as H0.
  rewrite u32_id by (unfold is_u32; lia). rewrite zlen_app.
  pose proof (vbi_len_mono 5 (zlen (enc_items (props_items p2))) l ltac:(lia)). lia.
Qed.

Lemma sound_level_props level data len o : Forall is_u8 data -> 0 <= o -> len <= zlen data ->
  sound_read (level_props_ok level) (enc_level_props level) o (read_level_properties level data len o).
Proof.
  intros Hd Ho Hl p o' H. unfold read_level_properties, level_props_ok, enc_level_props in *.
  destruct level; simpl in *; [injection H as <- <-; split; [done|zlia]|].
  by apply read_properties_inv in H.
Qed.

(** * Packets *)
Lemma sound_byte data len o : Forall is_u8 data -> sound_read is_u8 (fun v => [u8 v]) o (read_byte data len o).
Proof. exact (sound_u8 data len o). Qed.
Lemma sound_codec_u16 data len o : sound_read is_u16 be16 o (MqttCodec.read_u16 data len o).
Proof. exact (sound_u16 data len o). Qed.
Lemma sound_codec_str data len o : sound_read str_ok prefixed o (MqttCodec.read_utf8_string data len o).
Proof. exact (sound_str data len o). Qed.

Lemma sound_if {A} (P : A -> Prop) enc c o (read : Z -> outcome (A * Z)) :
  sound_read P enc o (read o) ->
  sound_read (fun a => present c a /\ forall x, a = Some x -> P x) (fun a => opt_bytes a enc) o (read_if c read o).
Proof.
  intros Hr a o' H. unfold read_if, present in *. destruct c.
  - apply outcome_bind_inv in H as ([x o1] & E & [= <- <-]). apply Hr in E as [Hx Hl].
    split; [|done]. split; [split; eauto|]. by intros ? [= <-].
  - injection H as <- <-. split; [|simpl; zlia]. split; [split; [done|by intros []]|done].
Qed.

Lemma publish_flags_range flags : 0 <= flags < 16 ->
  exists d q r, flags = d * 8 + q * 2 + r /\ 0 <= d <= 1 /\ 0 <= q <= 3 /\ 0 <= r <= 1.
Proof.
  intros. exists (flags / 8), (flags mod 8 / 2), (flags mod 2). Z.to_euclidean_division_equations; lia.
Qed.

Lemma decode_publish_inv data len flags level p : Forall is_u8 data -> 0 <= len <= zlen data ->
  len <= MQTT_MAX_REMAINING_LENGTH -> 0 <= flags < 16 ->
  decode_publish data len flags level = Ok p ->
  publish_ok p level /\ zlen (publish_body p level) <= len /\ publish_flags p = flags.
Proof.
  intros Hd Hlen Hmax Hf H. destruct (publish_flags_range flags Hf) as (d & q & r & -> & Hdr & Hqr & Hrr).
  destruct (publish_flags_fields (mkPublish d q r [] None [] no_props) Hdr Hqr Hrr) as (E1 & E2 & E3).
  unfold publish_flags in E1, E2, E3. cbn [pb_dup pb_qos pb_retain] in E1, E2, E3.
  unfold decode_publish in H. rewrite E1, E2, E3 in H. case_if_in H; [discriminate|].
  apply outcome_bind_inv in H as ([topic o1] & Ht & H).
  pose proof (codec_str_bounds data len Hlen 0 ltac:(lia)) as B1. rewrite Ht in B1. simpl in B1.
  apply sound_codec_str in Ht as [Ht Htl].
  apply outcome_bind_inv in H as ([pid o2] & Hp & H).
  pose proof (opt_u16_bounds data len Hlen (negb (q =? AT_MOST_ONCE)) o1 ltac:(lia)) as B2. rewrite Hp in B2. simpl in B2.
  eapply sound_if in Hp as [[Hpp Hp] Hpl]; [|apply sound_codec_u16].
  case_if_in H; [discriminate|].
  apply outcome_bind_inv in H as ([props o3] & Hpr & H).
  pose proof (level_props_bounds data len Hlen level o2 ltac:(lia)) as B3. rewrite Hpr in B3. simpl in B3.
  apply sound_level_props in Hpr as [Hpr Hprl]; [|done|lia|lia].
  apply outcome_bind_inv in H as (payload & Hpay & [= <-]).
  assert (zlen payload <= len - o3) as Hpayl.
  { case_if_in Hpay; [apply rd_range_inv in Hpay; lia|]. injection Hpay as <-. zlia. }
  unfold publish_ok. cbn [pb_dup pb_qos pb_retain pb_topic pb_packet_id pb_payload pb_properties].
  assert (zlen (publish_body (mkPublish d q r topic pid payload props) level) <= len) as Hbl.
  { unfold publish_body. cbn [pb_dup pb_qos pb_retain pb_topic pb_packet_id pb_payload pb_properties].
    rewrite !zlen_app. unfold present in Hpp. destruct (q =? AT_MOST_ONCE).
    - rewrite zlen_nil. pose proof (zlen_nonneg (opt_bytes pid be16)). lia.
    - destruct pid as [id|]; [|destruct (proj1 Hpp eq_refl); done]. simpl in *. lia. }
  split; [|split; [done|unfold publish_flags; done]].
  split_and!; try lia; try done.
  unfold present in Hpp. destruct (q =? AT_MOST_ONCE).
  - destruct pid; [|done]. pose proof (proj2 Hpp ltac:(eauto)). done.
  - destruct pid as [id|]; [|destruct (proj1 Hpp eq_refl); done]. exists id. split; [done|].
    specialize (Hp id eq_refl). unfold is_u16 in Hp. simpl in *. lia.
Qed.

Lemma connect_will_props (c : bool) level data len o : Forall is_u8 data -> 0 <= o -> len <= zlen data ->
  sound_read (fun p => if c then level_props_ok level p else p = no_props)
    (fun p => if c then enc_level_props level p else []) o
    (if c then read_level_properties level data len o else Ok (no_props, o)).
Proof.
  intros. destruct c; [by apply sound_level_props|]. intros p o' [= <- <-]. split; [done|zlia].
Qed.

Lemma decode_connect_inv data len p : Forall is_u8 data -> 0 <= len <= zlen data ->
  decode_connect data len = Ok p -> connect_ok p /\ zlen (connect_body p) <= len.
Proof.
  intros Hd Hlen H. unfold decode_connect in H.
  apply outcome_bind_inv in H as ([name o1] & Hn & H).
  pose proof (codec_str_bounds data len Hlen 0 ltac:(lia)) as B1. rewrite Hn in B1. simpl in B1.
  apply sound_codec_str in Hn as [_ Hnl].
  case_if_in H; [discriminate|]. apply negb_false_iff, bool_decide_eq_true in Hif as ->.
  apply outcome_bind_inv in H as ([lv o2] & Hv & H).
  pose proof (codec_byte_bounds data len Hlen o1 ltac:(lia)) as B2. rewrite Hv in B2. simpl in B2.
  destruct (ProtocolLevel_cast lv) as [level|]; [|discriminate].
  apply outcome_bind_inv in H as ([f o3] & Hf & H).
  pose proof (codec_byte_bounds data len Hlen o2 ltac:(lia)) as B3. rewrite Hf in B3. simpl in B3.
  apply sound_byte in Hf as [Hf _]; [|done]. case_if_in H; [discriminate|].
  apply negb_false_iff, connect_flags_spec in Hif.
  apply outcome_bind_inv in H as ([ka o4] & Hka & H).
  pose proof (codec_u16_bounds data len Hlen o3 ltac:(lia)) as B4. rewrite Hka in B4. simpl in B4.
  apply sound_codec_u16 in Hka as [Hka _].
  apply outcome_bind_inv in H as ([props o5] & Hp & H).
  pose proof (level_props_bounds data len Hlen level o4 ltac:(lia)) as B5. rewrite Hp in B5. simpl in B5.
  apply sound_level_props in Hp as [Hp Hpl]; [|done|lia|lia].
  apply outcome_bind_inv in H as ([cid o6] & Hc & H).
  pose proof (codec_str_bounds data len Hlen o5 ltac:(lia)) as B6. rewrite Hc in B6. simpl in B6.
  apply sound_codec_str in Hc as [Hc Hcl].
  apply outcome_bind_inv in H as ([wp o7] & Hw & H).
  pose proof (will_props_bounds data len Hlen (flag_set f MQTT_CONNECT_FLAG_WILL_FLAG) level o6 ltac:(lia)) as B7.
  rewrite Hw in B7. simpl in B7. apply connect_will_props in Hw as [Hw Hwl]; [|done|lia|lia].
  apply outcome_bind_inv in H as ([wt o8] & Hwt & H).
  pose proof (opt_str_bounds data len Hlen (flag_set f MQTT_CONNECT_FLAG_WILL_FLAG) o7 ltac:(lia)) as B8.
  rewrite Hwt in B8. simpl in B8. eapply sound_if in Hwt as [[Hwtp Hwt] Hwtl]; [|apply sound_codec_str].
  apply outcome_bind_inv in H as ([wpl o9] & Hwp & H).
  pose proof (opt_bin_bounds data len Hlen (flag_set f MQTT_CONNECT_FLAG_WILL_FLAG) o8 ltac:(lia)) as B9.
  rewrite Hwp in B9. simpl in B9. eapply sound_if in Hwp as [[Hwpp Hwp] Hwpl]; [|apply sound_codec_str].
  apply outcome_bind_inv in H as ([un o10] & Hu & H).
  pose proof (opt_str_bounds data len Hlen (flag_set f MQTT_CONNECT_FLAG_USERNAME) o9 ltac:(lia)) as B10.
  rewrite Hu in B10. simpl in B10. eapply sound_if in Hu as [[Hup Hu] Hul]; [|apply sound_codec_str].
  apply outcome_bind_inv in H as ([pw o11] & Hpw & [= <-]).
  pose proof (opt_str_bounds data len Hlen (flag_set f MQTT_CONNECT_FLAG_PASSWORD) o10 ltac:(lia)) as B11.
  rewrite Hpw in B11. simpl in B11. eapply sound_if in Hpw as [[Hpwp Hpw] Hpwl]; [|apply sound_codec_str].
  split.
  - unfold connect_ok. cbn [cp_connect_flags cp_protocol_level cp_keep_alive cp_properties cp_client_id
      cp_will_properties cp_will_topic cp_will_payload cp_username cp_password].
    split; [done|]. split; [done|]. split_and!; try done.
    repeat apply Forall_cons_2; try constructor; done.
  - unfold connect_body. cbn [cp_connect_flags cp_protocol_level cp_keep_alive cp_properties cp_client_id
      cp_will_properties cp_will_topic cp_will_payload cp_username cp_password].
    rewrite !zlen_app, zlen_be16, !zlen_cons, zlen_nil. lia.
Qed.

(** Each element that [read_all] returns was read by [read], which advances. *)
Lemma read_all_inv {A} (P : A -> Prop) (read : Z -> outcome (A * Z)) len fuel o l :
  (forall o a o', 0 <= o <= len -> read o = Ok (a, o') -> P a /\ o + 1 <= o' <= len) ->
  0 <= o <= len -> read_all fuel read len o = Ok l -> Forall P l /\ zlen l <= len - o.
Proof.
  intros Hr. revert o l; induction fuel as [|fuel IH]; intros o l Ho H; cbn [read_all] in H; case_if_in H;
    try discriminate; try (injection H as <-; split; [constructor|zlia]).
  apply outcome_bind_inv in H as ([a o1] & Ha & H). apply outcome_bind_inv in H as (rest & H & [= <-]).
  apply Hr in Ha as [Ha Ho1]; [|done]. apply IH in H as [Hl Hz]; [|lia].
  split; [by constructor|]. rewrite zlen_cons. lia.
Qed.

Lemma land_3 x : 0 <= Z.land x 3 <= 3.
Proof.
  replace (Z.land x 3) with (x mod 4); [pose proof (Z.mod_pos_bound x 4); lia|].
  change 4 with (2 ^ 2). by rewrite <- Z.land_ones by lia.
Qed.

Lemma decode_subscribe_inv data len level p : Forall is_u8 data -> 0 <= len <= zlen data ->
  decode_subscribe data len level = Ok p ->
  Forall (fun s => str_ok (so_topic_filter s) /\ 0 <= so_maximum_qos s <= 3) (sb_subscriptions p)
  /\ zlen (sb_subscriptions p) <= len /\ level_props_ok level (sb_properties p).
Proof.
  intros Hd Hlen H. unfold decode_subscribe in H.
  apply outcome_bind_inv in H as ([id o1] & Hid & H).
  pose proof (codec_u16_bounds data len Hlen 0 ltac:(lia)) as B1. rewrite Hid in B1. simpl in B1.
  apply outcome_bind_inv in H as ([props o2] & Hp & H).
  pose proof (level_props_bounds data len Hlen level o1 ltac:(lia)) as B2. rewrite Hp in B2. simpl in B2.
  apply sound_level_props in Hp as [Hp _]; [|done|lia|lia].
  apply outcome_bind_inv in H as (subs & Hs & [= <-]). cbn [sb_subscriptions sb_properties].
  apply (read_all_inv (fun s => str_ok (so_topic_filter s) /\ 0 <= so_maximum_qos s <= 3)) in Hs as [Hs Hl]; [split; [done|split; [lia|done]]| |lia].
  - intros o s o' Ho Hr. pose proof (read_subscription_bounds data len Hlen level o ltac:(lia)) as Hb.
    rewrite Hr in Hb. simpl in Hb. split; [|done].
    unfold read_subscription in Hr. apply outcome_bind_inv in Hr as ([f o3] & Hf%sound_codec_str & Hr).
    apply outcome_bind_inv in Hr as ([op o4] & _ & [= <- <-]). destruct level; simpl; split; try apply Hf; apply land_3.
Qed.

Lemma decode_unsubscribe_inv data len level p : Forall is_u8 data -> 0 <= len <= zlen data ->
  decode_unsubscribe data len level = Ok p -> zlen (us_topic_filters p) <= len.
Proof.
  intros Hd Hlen H. unfold decode_unsubscribe in H.
  apply outcome_bind_inv in H as ([id o1] & Hid & H).
  pose proof (codec_u16_bounds data len Hlen 0 ltac:(lia)) as B1. rewrite Hid in B1. simpl in B1.
  apply outcome_bind_inv in H as ([props o2] & Hp & H).
  pose proof (level_props_bounds data len Hlen level o1 ltac:(lia)) as B2. rewrite Hp in B2. simpl in B2.
  apply outcome_bind_inv in H as (fs & Hs & [= <-]). cbn [us_topic_filters].
  apply (read_all_inv (fun _ => True)) in Hs as [_ Hl]; [lia| |lia].
  intros o s o' Ho Hr. pose proof (codec_str_bounds data len Hlen o ltac:(lia)) as Hb.
  rewrite Hr in Hb. simpl in Hb. split; [done|lia].
Qed.
