(* ===== verification/MqttTopicTree.v ===== *)
(** The subscription tree: [protocol/mqtt/src/mqtt_topic_tree.cpp].

    A node has its children by literal level, the two wildcard children and the
    subscriptions made at it. A pointer into the tree that an operation obtains and
    then uses is a path, and the use is the continuation applied at the node. *)
From S2P Require Import Prelude Containers Strings MqttProtocol.

Record MqttSubscription : Type := mkSubscription {
  sub_session_id : Z;
  sub_qos : QoS;
  sub_no_local : Z;
  sub_retain_as_published : Z;
  sub_retain_handling : Z;
  sub_subscription_identifier : option Z;
  sub_shared_group : bytes;
  sub_shared_filter : bytes
}.

Module MqttTopicTree.

(** * Topic levels *)
Definition level_plus : bytes := [chr_plus].
Definition level_hash : bytes := [chr_hash].

(** [while ((pos = topic.find('/', start)) != npos)] *)
Fixpoint split_topic_loop (fuel : nat) (topic : bytes) (start : nat) : list bytes :=
  match fuel with
  | O => []
  | S fuel =>
      match find chr_slash topic start with
      | Some pos => substr topic start (pos - start) :: split_topic_loop fuel topic (pos + 1)
      | None => [substr_from topic start]
      end
  end.
Definition split_topic (topic : bytes) : list bytes := split_topic_loop (S (length topic)) topic 0.

(** [filter.size() > 7 && filter.compare(0, 7, "$share/") == 0] *)
Definition share_prefix : bytes := str "$share/".
Definition is_shared_subscription (filter : bytes) : bool :=
  (7 <? zlen filter) && str_eqb (substr filter 0 7) share_prefix.

Definition shared_group (filter : bytes) : bytes :=
  if negb (is_shared_subscription filter) then []
  else match find chr_slash filter 7 with
       | None => []
       | Some second_slash => substr filter 7 (second_slash - 7)
       end.

Definition shared_topic_filter (filter : bytes) : bytes :=
  if negb (is_shared_subscription filter) then []
  else match find chr_slash filter 7 with
       | None => []
       | Some second_slash => substr_from filter (second_slash + 1)
       end.

(** The loop over the levels of a filter; [rest] are the levels after the current one. *)
Fixpoint validate_levels (levels : list bytes) : bool :=
  match levels with
  | [] => true
  | level :: rest =>
      if str_eqb level level_plus then validate_levels rest
      else if contains chr_plus level then false
      else if str_eqb level level_hash then
        match rest with [] => validate_levels rest | _ :: _ => false end
      else if contains chr_hash level then false
      else validate_levels rest
  end.

(** [validate_topic_filter]; a shared filter validates its inner filter, a shorter
    string, so its length bounds the recursion. *)
Fixpoint validate_topic_filter_fuel (fuel : nat) (filter : bytes) : bool :=
  match fuel with
  | O => false
  | S fuel =>
      match filter with
      | [] => false
      | _ :: _ =>
          if is_shared_subscription filter then
            match find chr_slash filter 7 with
            | None => false
            | Some second_slash =>
                let group := substr filter 7 (second_slash - 7) in
                let inner := substr_from filter (second_slash + 1) in
                if str_eqb group [] || str_eqb inner [] then false
                else if contains chr_plus group || contains chr_hash group then false
                else validate_topic_filter_fuel fuel inner
            end
          else if contains 0 filter then false
          else validate_levels (split_topic filter)
      end
  end.
Definition validate_topic_filter (filter : bytes) : bool :=
  validate_topic_filter_fuel (S (length filter)) filter.

Definition validate_topic_name (topic : bytes) : bool :=
  match topic with
  | [] => false
  | _ :: _ => forallb (fun c => negb ((c =? chr_plus) || (c =? chr_hash) || (c =? 0))) topic
  end.

(** * The tree *)
Inductive Node : Type := mkNode {
  children : list (bytes * Node);
  single_level_wildcard : option Node;
  multi_level_wildcard : option Node;
  subscriptions_of : list MqttSubscription
}.

(** [Node{}], also [root_] of a new tree. *)
Definition empty_node : Node := mkNode [] None None [].

(** [find_or_create_node(filter)] followed by the use [k] of the node it returns. *)
Fixpoint find_or_create_node {A} (levels : list bytes) (k : Node -> Node * A) (node : Node) : Node * A :=
  match levels with
  | [] => k node
  | level :: levels =>
      let 'mkNode ch slw mlw subs := node in
      if str_eqb level level_plus then
        let '(n, a) := find_or_create_node levels k (default empty_node slw) in
        (mkNode ch (Some n) mlw subs, a)
      else if str_eqb level level_hash then
        let '(n, a) := find_or_create_node levels k (default empty_node mlw) in
        (mkNode ch slw (Some n) subs, a)
      else
        let '(n, a) := find_or_create_node levels k (default empty_node (map_find level ch)) in
        (mkNode (map_insert level n ch) slw mlw subs, a)
  end.

(** The walk of [unsubscribe] to an existing node and its use [k]; [None] when a node
    of the path does not exist. *)
Fixpoint find_node {A} (levels : list bytes) (k : Node -> Node * A) (node : Node) : option (Node * A) :=
  match levels with
  | [] => Some (k node)
  | level :: levels =>
      let 'mkNode ch slw mlw subs := node in
      if str_eqb level level_plus then
        n ← slw; '(n, a) ← find_node levels k n; Some (mkNode ch (Some n) mlw subs, a)
      else if str_eqb level level_hash then
        n ← mlw; '(n, a) ← find_node levels k n; Some (mkNode ch slw (Some n) subs, a)
      else
        n ← map_find level ch; '(n, a) ← find_node levels k n;
        Some (mkNode (map_insert level n ch) slw mlw subs, a)
  end.

(** The loop of [subscribe] over the node's subscriptions: replace the session's own,
    returning its old QoS, or append. *)
Fixpoint upsert (sub : MqttSubscription) (subs : list MqttSubscription) : list MqttSubscription * option QoS :=
  match subs with
  | [] => ([sub], None)
  | existing :: rest =>
      if sub_session_id existing =? sub_session_id sub then (sub :: rest, Some (sub_qos existing))
      else let '(rest, old) := upsert sub rest in (existing :: rest, old)
  end.

Definition actual_filter (topic_filter : bytes) : bytes :=
  if is_shared_subscription topic_filter then shared_topic_filter topic_filter else topic_filter.

Definition subscribe (topic_filter : bytes) (sub : MqttSubscription) (root : Node) : Node * option QoS :=
  find_or_create_node (split_topic (actual_filter topic_filter))
    (fun node =>
       let '(subs, old) := upsert sub (subscriptions_of node) in
       (mkNode (children node) (single_level_wildcard node) (multi_level_wildcard node) subs, old))
    root.

(** The erase loop of [unsubscribe]: the session's first subscription at the node. *)
Fixpoint erase_first (session_id : Z) (subs : list MqttSubscription) : list MqttSubscription * bool :=
  match subs with
  | [] => ([], false)
  | it :: rest =>
      if sub_session_id it =? session_id then (rest, true)
      else let '(rest, found) := erase_first session_id rest in (it :: rest, found)
  end.

Definition unsubscribe (topic_filter : bytes) (session_id : Z) (root : Node) : Node * bool :=
  match find_node (split_topic (actual_filter topic_filter))
          (fun node =>
             let '(subs, found) := erase_first session_id (subscriptions_of node) in
             (mkNode (children node) (single_level_wildcard node) (multi_level_wildcard node) subs, found))
          root with
  | Some r => r
  | None => (root, false)
  end.

Definition wildcard_subs (node : Node) : list MqttSubscription :=
  match multi_level_wildcard node with Some m => subscriptions_of m | None => [] end.

(** [match_recursive]; the levels from [level_index] on are the list. *)
Fixpoint match_recursive (node : Node) (levels : list bytes) : list MqttSubscription :=
  match levels with
  | [] => subscriptions_of node ++ wildcard_subs node
  | current :: levels =>
      match map_find current (children node) with Some n => match_recursive n levels | None => [] end ++
      match single_level_wildcard node with Some n => match_recursive n levels | None => [] end ++
      wildcard_subs node
  end.

Definition starts_with_dollar (s : bytes) : bool :=
  match s with c :: _ => c =? chr_dollar | [] => false end.

Definition match_topic (topic : bytes) (root : Node) : list MqttSubscription :=
  match split_topic topic with
  | [] => []
  | level0 :: levels =>
      if starts_with_dollar level0 then
        match map_find level0 (children root) with Some n => match_recursive n levels | None => [] end
      else match_recursive root (level0 :: levels)
  end.

(** [remove_all]: every node of the tree loses the session's subscriptions. The code
    visits the nodes with an explicit stack; the visits are independent. *)
Fixpoint remove_all (session_id : Z) (node : Node) : Node :=
  let 'mkNode ch slw mlw subs := node in
  mkNode (map (fun kv => (kv.1, remove_all session_id kv.2)) ch)
    (match slw with Some n => Some (remove_all session_id n) | None => None end)
    (match mlw with Some n => Some (remove_all session_id n) | None => None end)
    (List.filter (fun sub => negb (sub_session_id sub =? session_id)) subs).

Fixpoint node_count (node : Node) : nat :=
  let 'mkNode ch slw mlw _ := node in
  S (foldr Nat.add O (map (fun kv => node_count kv.2) ch) +
     match slw with Some n => node_count n | None => O end +
     match mlw with Some n => node_count n | None => O end).

Definition child_path (path level : bytes) : bytes :=
  match path with [] => level | _ :: _ => path ++ chr_slash :: level end.

(** The stack loop of [subscriptions]; the head of [stack] is the vector's back. Every
    node is popped once, so the number of nodes is enough fuel. *)
Fixpoint subscriptions_loop (fuel : nat) (session_id : Z) (stack : list (Node * bytes)) : outcome (list bytes) :=
  match stack with
  | [] => Ok []
  | (node, path) :: stack =>
      match fuel with
      | O => Diverge
      | S fuel =>
          let here := map (fun _ => path)
                        (List.filter (fun sub => sub_session_id sub =? session_id) (subscriptions_of node)) in
          let stack := rev (map (fun kv => (kv.2, child_path path kv.1)) (children node)) ++ stack in
          let stack := match multi_level_wildcard node with
                       | Some n => (n, child_path path level_hash) :: stack | None => stack end in
          let stack := match single_level_wildcard node with
                       | Some n => (n, child_path path level_plus) :: stack | None => stack end in
          rest ← subscriptions_loop fuel session_id stack;
          Ok (here ++ rest)
      end
  end.
Definition subscriptions (session_id : Z) (root : Node) : outcome (list bytes) :=
  subscriptions_loop (node_count root) session_id [(root, [])].

(** * Specification *)

(** The MQTT matching relation between the levels of a filter and of a topic name. *)
Inductive filter_matches : list bytes -> list bytes -> Prop :=
| fm_nil : filter_matches [] []
| fm_hash t : filter_matches [level_hash] t
| fm_plus f x t : filter_matches f t -> filter_matches (level_plus :: f) (x :: t)
| fm_level f x t : x <> level_plus -> x <> level_hash -> filter_matches f t -> filter_matches (x :: f) (x :: t).

(** Topics that start with [$] are not matched by a filter that starts with a wildcard. *)
Definition dollar_rule (f t : list bytes) : Prop :=
  match f, t with
  | fl :: _, tl :: _ => starts_with_dollar tl = true -> fl <> level_plus /\ fl <> level_hash
  | _, _ => True
  end.
Definition topic_matches (f t : list bytes) : Prop := filter_matches f t /\ dollar_rule f t.

(** The subscriptions a tree holds at a filter: the abstraction of the tree is this
    function of the filter's levels. *)
Fixpoint subs_at (node : Node) (f : list bytes) : list MqttSubscription :=
  match f with
  | [] => subscriptions_of node
  | level :: f =>
      match (if str_eqb level level_plus then single_level_wildcard node
             else if str_eqb level level_hash then multi_level_wildcard node
             else map_find level (children node)) with
      | Some n => subs_at n f
      | None => []
      end
  end.

(** The filters that match a topic name, in the order the tree visits them. *)
Fixpoint filters_of (t : list bytes) : list (list bytes) :=
  match t with
  | [] => [[]; [level_hash]]
  | x :: t => map (cons x) (filters_of t) ++ map (cons level_plus) (filters_of t) ++ [[level_hash]]
  end.

End MqttTopicTree.
