(* ===== verification/MqttRetainedStore.v ===== *)
(** Retained messages: [protocol/mqtt/src/mqtt_retained_store.cpp].

    The store maps a topic to its retained message, in topic order; [match_filter]
    is [MqttRetainedStore::match]. Clock readings are arguments, in nanoseconds. The
    two file operations are in [MqttPersistence]. *)
From S2P Require Import Prelude Containers Strings MqttProtocol MqttTopicTree.

Record MqttRetainedMessage : Type := mkRetained {
  rm_topic : bytes;
  rm_payload : bytes;
  rm_qos : QoS;
  rm_stored_time : Z;
  rm_message_expiry_interval : option Z;
  rm_payload_format_indicator : option Z;
  rm_content_type : option bytes;
  rm_user_properties : list UserProperty
}.

Module MqttRetainedStore.

(** [messages_] *)
Abbreviation t := (list (bytes * MqttRetainedMessage)).

Fixpoint split_topic_loop (fuel : nat) (topic : bytes) (start : nat) (pos : option nat) : list bytes :=
  match pos with
  | None => [substr_from topic start]
  | Some p =>
      match fuel with
      | O => []
      | S fuel =>
          substr topic start (p - start)
          :: split_topic_loop fuel topic (p + 1) (find chr_slash topic (p + 1))
      end
  end.
Definition split_topic (topic : bytes) : list bytes :=
  split_topic_loop (length topic) topic 0 (find chr_slash topic 0).

(** The positions [ti] and [fi] of the loop are the suffixes that start at them. *)
Fixpoint topic_matches_filter (topic_levels filter_levels : list bytes) {struct filter_levels} : bool :=
  match filter_levels with
  | [] => match topic_levels with [] => true | _ :: _ => false end
  | f :: filter_levels =>
      if str_eqb f MqttTopicTree.level_hash then true
      else match topic_levels with
           | [] => false
           | t :: topic_levels =>
               if str_eqb f MqttTopicTree.level_plus then topic_matches_filter topic_levels filter_levels
               else if negb (str_eqb f t) then false
               else topic_matches_filter topic_levels filter_levels
           end
  end.

Definition store (now : Z) (msg : MqttRetainedMessage) (messages : t) : t :=
  match rm_payload msg with
  | [] => map_erase (rm_topic msg) messages
  | _ :: _ =>
      map_insert (rm_topic msg)
        (mkRetained (rm_topic msg) (rm_payload msg) (rm_qos msg) now (rm_message_expiry_interval msg)
           (rm_payload_format_indicator msg) (rm_content_type msg) (rm_user_properties msg)) messages
  end.

Definition starts_with (c : Z) (s : bytes) : bool := match s with x :: _ => x =? c | [] => false end.

(** The body of the loop of [match]: whether [msg] is pushed. *)
Definition selects (topic_filter : bytes) (filter_levels : list bytes) (has_wildcard : bool) (topic : bytes) : bool :=
  if has_wildcard then
    if starts_with chr_dollar topic
       && (str_eqb topic_filter MqttTopicTree.level_hash || starts_with chr_plus topic_filter
           || starts_with chr_hash topic_filter)
    then false
    else topic_matches_filter (split_topic topic) filter_levels
  else str_eqb topic topic_filter.

Fixpoint match_loop (topic_filter : bytes) (filter_levels : list bytes) (has_wildcard : bool) (messages : t)
  : list MqttRetainedMessage :=
  match messages with
  | [] => []
  | (topic, msg) :: messages =>
      if selects topic_filter filter_levels has_wildcard topic
      then msg :: match_loop topic_filter filter_levels has_wildcard messages
      else match_loop topic_filter filter_levels has_wildcard messages
  end.

Definition match_filter (topic_filter : bytes) (messages : t) : list MqttRetainedMessage :=
  match topic_filter with
  | [] => []
  | _ :: _ =>
      let filter_levels := split_topic topic_filter in
      let has_wildcard := contains chr_plus topic_filter || contains chr_hash topic_filter in
      match_loop topic_filter filter_levels has_wildcard messages
  end.

(** [duration_cast<seconds>] truncates towards zero. *)
Definition seconds_between (from to : Z) : Z := Z.quot (to - from) 1000000000.

Definition expired (now : Z) (msg : MqttRetainedMessage) : bool :=
  match rm_message_expiry_interval msg with
  | Some interval => interval <=? seconds_between (rm_stored_time msg) now
  | None => false
  end.

Fixpoint cleanup_expired (now : Z) (messages : t) : t :=
  match messages with
  | [] => []
  | (topic, msg) :: messages =>
      if expired now msg then cleanup_expired now messages
      else (topic, msg) :: cleanup_expired now messages
  end.

Definition size (messages : t) : Z := zlen messages.

(** * Invariant: every message is filed under its own topic, with a payload. *)
Definition store_ok (messages : t) : Prop :=
  map_sorted messages
  /\ Forall (fun tm => rm_topic tm.2 = tm.1 /\ rm_payload tm.2 <> []) messages.

(** * Lemmas *)
Lemma retained_split_spec fuel topic start :
  (length topic - start <= fuel)%nat -> (start <= length topic)%nat ->
  split_topic_loop fuel topic start (find chr_slash topic start) = split_on chr_slash (drop start topic).
Proof.
  revert start; induction fuel as [|fuel IH]; intros start Hf Hs;
    unfold find at 1; destruct (index_of chr_slash (drop start topic)) as [i|] eqn:E;
    cbn [fmap option_fmap option_map split_topic_loop].
  - apply index_of_lt in E. rewrite length_drop in E. lia.
  - by rewrite (split_on_index_none _ _ E).
  - pose proof (index_of_lt _ _ _ E) as Hi. rewrite length_drop in Hi.
    rewrite IH by lia. rewrite (split_on_index_some _ _ _ E), drop_drop.
    unfold substr. do 2 f_equal; [|f_equal]; lia.
  - by rewrite (split_on_index_none _ _ E).
Qed.

Lemma retained_split_levels topic : split_topic topic = split_on chr_slash topic.
Proof. unfold split_topic. rewrite retained_split_spec by lia. by rewrite drop_0. Qed.

Lemma match_loop_filter topic_filter levels w messages :
  match_loop topic_filter levels w messages
  = map snd (List.filter (fun tm => selects topic_filter levels w tm.1) messages).
Proof. induction messages as [|[topic msg] m IH]; [done|]. simpl. case_if; simpl; by rewrite IH. Qed.

Lemma cleanup_expired_filter now messages :
  cleanup_expired now messages = List.filter (fun tm => negb (expired now tm.2)) messages.
Proof. induction messages as [|[topic msg] m IH]; [done|]. simpl. case_if; simpl; by rewrite IH. Qed.

Lemma store_ok_empty : store_ok [].
Proof. split; constructor. Qed.

Lemma store_ok_store now msg messages : store_ok messages -> store_ok (store now msg messages).
Proof.
  intros [Hs Hf]. unfold store. destruct (rm_payload msg) as [|b p] eqn:E; split; auto with s2p.
  - rewrite Forall_forall in *. intros kv ?%map_erase_elem. auto.
  - rewrite Forall_forall in *. intros kv [->|]%map_insert_elem; auto.
Qed.

Lemma store_ok_filter p messages : store_ok messages -> store_ok (List.filter p messages).
Proof.
  intros [Hs Hf]. induction messages as [|[k v] m IH]; [done|].
  destruct Hs as [Ha Hs]. apply Forall_cons in Hf as [Hkv Hf]. specialize (IH Hs Hf) as [IHs IHf].
  simpl. destruct (p (k, v)); [|done]. split; [|by constructor]. split; [|done].
  unfold keys_above in *. rewrite Forall_forall in *. intros kv [_ ?]%elem_of_filter. auto.
Qed.

Lemma store_ok_cleanup now messages : store_ok messages -> store_ok (cleanup_expired now messages).
Proof. rewrite cleanup_expired_filter. apply store_ok_filter. Qed.
#[export] Hint Resolve store_ok_empty store_ok_store store_ok_cleanup : s2p.

End MqttRetainedStore.
