(* ===== verification/MqttTopicTreeFacts.v ===== *)
(** Facts about the subscription tree.

    The tree is related to its abstraction [subs_at], the function from filters to the
    subscriptions made at them: [match] collects it over the filters that match the
    topic, the mutators are pointwise updates of it, and [subscriptions] lists it. *)
From S2P Require Import Prelude Containers Strings MqttProtocol MqttTopicTree MqttRetainedStore.
Import MqttTopicTree.

(** * Topic levels *)
Lemma split_topic_loop_spec fuel topic start :
  (length topic - start < fuel)%nat -> (start <= length topic)%nat ->
  split_topic_loop fuel topic start = split_on chr_slash (drop start topic).
Proof.
  revert start; induction fuel as [|fuel IH]; intros start Hf Hs; [lia|]. simpl.
  unfold find. destruct (index_of chr_slash (drop start topic)) as [i|] eqn:E; cbn [fmap option_fmap option_map].
  - pose proof (index_of_lt _ _ _ E) as Hi. rewrite length_drop in Hi.
    rewrite (split_on_index_some _ _ _ E), IH, drop_drop by lia.
    unfold substr. do 2 f_equal; [|f_equal]; lia.
  - by rewrite (split_on_index_none _ _ E).
Qed.

Lemma split_topic_levels topic : split_topic topic = split_on chr_slash topic.
Proof. unfold split_topic. rewrite split_topic_loop_spec by lia. by rewrite drop_0. Qed.

(** A level that is not one of the wildcards. *)
Definition literal (level : bytes) : Prop := level <> level_plus /\ level <> level_hash.

Lemma str_eqb_spec s t : str_eqb s t = true <-> s = t.
Proof. apply bool_decide_eq_true. Qed.
Lemma str_eqb_false s t : str_eqb s t = false <-> s <> t.
Proof. apply bool_decide_eq_false. Qed.

Lemma str_eqb_refl s : str_eqb s s = true.
Proof. by apply str_eqb_spec. Qed.

Lemma literal_eqb level : literal level -> str_eqb level level_plus = false /\ str_eqb level level_hash = false.
Proof. intros [??]. by rewrite !str_eqb_false. Qed.

Lemma valid_topic_levels topic : validate_topic_name topic = true -> Forall literal (split_topic topic).
Proof.
  intros Hv. rewrite split_topic_levels, Forall_forall. intros l Hl.
  assert (forall c, c ∈ l -> c <> chr_plus /\ c <> chr_hash) as Hc.
  { intros c Hc. pose proof (split_on_chars _ _ _ _ Hl Hc) as Ht.
    destruct topic as [|c0 topic]; [by apply not_elem_of_nil in Ht|].
    unfold validate_topic_name in Hv. rewrite forallb_forall in Hv.
    specialize (Hv c). rewrite <- list_elem_of_In in Hv. specialize (Hv Ht). lia. }
  split; intros ->; [destruct (Hc chr_plus)|destruct (Hc chr_hash)]; try done;
    by apply list_elem_of_singleton.
Qed.

(** * Matching *)

(** The child a walk takes for a filter's level. *)
Definition step (level : bytes) (node : Node) : option Node :=
  if str_eqb level level_plus then single_level_wildcard node
  else if str_eqb level level_hash then multi_level_wildcard node
  else map_find level (children node).

Lemma subs_at_cons node level f :
  subs_at node (level :: f) = match step level node with Some n => subs_at n f | None => [] end.
Proof. reflexivity. Qed.

Lemma step_literal level node : literal level -> step level node = map_find level (children node).
Proof. intros [H1 H2]%literal_eqb. unfold step. by rewrite H1, H2. Qed.

Lemma flat_map_cons_subs node level fs :
  flat_map (subs_at node) (map (cons level) fs)
  = match step level node with Some n => flat_map (subs_at n) fs | None => [] end.
Proof.
  induction fs as [|f fs IH]; [by destruct (step level node)|].
  cbn [map flat_map]. rewrite IH, subs_at_cons. by destruct (step level node).
Qed.

Lemma wildcard_subs_at node : wildcard_subs node = subs_at node [level_hash].
Proof. reflexivity. Qed.

Lemma match_recursive_filters node t : Forall literal t ->
  match_recursive node t = flat_map (subs_at node) (filters_of t).
Proof.
  intros Ht. revert node. induction Ht as [|x t Hx Ht IH]; intros node.
  - simpl. by rewrite app_nil_r.
  - cbn [filters_of match_recursive].
    rewrite 2!flat_map_app, 2!flat_map_cons_subs, (step_literal x node Hx).
    change (step level_plus node) with (single_level_wildcard node).
    cbn [flat_map]. rewrite app_nil_r, wildcard_subs_at.
    f_equal; [by destruct (map_find x _)|f_equal; by destruct (single_level_wildcard node)].
Qed.

Lemma filters_of_spec t f : Forall literal t -> f ∈ filters_of t <-> filter_matches f t.
Proof.
  intros Ht. revert f. induction Ht as [|x t [Hx1 Hx2] Ht IH]; intros f; cbn [filters_of].
  - split.
    + intros [->|[->|[]%not_elem_of_nil]%elem_of_cons]%elem_of_cons; constructor.
    + inversion 1; subst; rewrite ?elem_of_cons; auto.
  - rewrite !elem_of_app, list_elem_of_singleton, (elem_of_map (cons x)), (elem_of_map (cons level_plus)). split.
    + intros [[g [-> Hg]]|[[g [-> Hg]]| ->]]; [| |constructor]; apply IH in Hg; by constructor.
    + inversion 1; subst; [auto| |].
      * right; left. eexists. split; [done|]. by apply IH.
      * left. eexists. split; [done|]. by apply IH.
Qed.

Lemma match_topic_filters topic root : Forall literal (split_topic topic) ->
  forall sub, sub ∈ match_topic topic root <->
    exists f, topic_matches f (split_topic topic) /\ sub ∈ subs_at root f.
Proof.
  intros Ht sub. unfold match_topic. destruct (split_topic topic) as [|l0 t] eqn:E.
  { rewrite split_topic_levels in E. by apply split_on_ne in E. }
  pose proof Ht as [[Hp Hh] Ht']%Forall_cons.
  destruct (starts_with_dollar l0) eqn:Ed.
  - transitivity (sub ∈ flat_map (subs_at root) (map (cons l0) (filters_of t))).
    { rewrite flat_map_cons_subs, step_literal by done.
      destruct (map_find l0 (children root)); [by rewrite match_recursive_filters|done]. }
    rewrite elem_of_flat_map.
    apply exist_proper. intros f. apply and_iff_compat_r.
    rewrite elem_of_map. unfold topic_matches. split.
    + intros [g [-> Hg]]. rewrite filters_of_spec in Hg by done. split; [by constructor|done].
    + intros [Hm Hd]. inversion Hm; subst; simpl in Hd; try (destruct (Hd Ed); contradiction).
      eexists. split; [done|]. by rewrite filters_of_spec.
  - rewrite match_recursive_filters by done.
    rewrite elem_of_flat_map.
    apply exist_proper. intros f. apply and_iff_compat_r. rewrite filters_of_spec by done.
    unfold topic_matches. split; [|tauto]. intros Hm. split; [done|].
    unfold dollar_rule. destruct f; [done|]. congruence.
Qed.

(** * The mutators as updates of [subs_at] *)
Lemma map_find_insert_dec {V} k k' (v : V) m :
  map_find k' (map_insert (K:=bytes) k v m) = if str_eqb k' k then Some v else map_find k' m.
Proof.
  destruct (str_eqb k' k) eqn:E.
  - apply str_eqb_spec in E as ->. apply map_find_insert_eq.
  - apply str_eqb_false in E. by apply map_find_insert_ne.
Qed.

Lemma subs_at_empty f : subs_at empty_node f = [].
Proof. destruct f as [|l f]; [done|]. rewrite subs_at_cons. unfold step. by repeat case_match. Qed.

Lemma subs_at_default o f :
  subs_at (default empty_node o) f = match o with Some n => subs_at n f | None => [] end.
Proof. destruct o; [done|]. apply subs_at_empty. Qed.

(** What a continuation does to a node's own subscriptions, leaving its children. *)
Definition local_update {A} (k : Node -> Node * A) (u : list MqttSubscription -> list MqttSubscription)
    (r : list MqttSubscription -> A) : Prop :=
  forall node, children (k node).1 = children node
    /\ single_level_wildcard (k node).1 = single_level_wildcard node
    /\ multi_level_wildcard (k node).1 = multi_level_wildcard node
    /\ subscriptions_of (k node).1 = u (subscriptions_of node)
    /\ (k node).2 = r (subscriptions_of node).

Lemma local_update_at {A} (k : Node -> Node * A) u r node f : local_update k u r ->
  subs_at (k node).1 f = if decide (f = []) then u (subs_at node f) else subs_at node f.
Proof.
  intros Hk. destruct (Hk node) as (Hc & Hs & Hm & Hu & _).
  destruct f as [|l f]; [done|]. rewrite decide_False by done. rewrite !subs_at_cons.
  unfold step. by rewrite Hc, Hs, Hm.
Qed.

Section Walk.
Context {A : Type} (k : Node -> Node * A) (u : list MqttSubscription -> list MqttSubscription)
  (r : list MqttSubscription -> A).
Hypothesis Hk : local_update k u r.

Lemma find_or_create_node_at levels node f :
  subs_at (find_or_create_node levels k node).1 f
  = (if decide (f = levels) then u (subs_at node f) else subs_at node f).
Proof.
  revert node f; induction levels as [|level levels IH]; intros node f; simpl.
  { rewrite (local_update_at k u r) by done. by repeat case_decide. }
  destruct node as [ch slw mlw subs].
  destruct (str_eqb level level_plus) eqn:Ep; [|destruct (str_eqb level level_hash) eqn:Eh].
  all: destruct (find_or_create_node levels k _) as [n a] eqn:E; cbn [fst].
  all: apply (f_equal fst) in E; simpl in E; subst n.
  all: destruct f as [|l f]; [by rewrite decide_False|].
  all: rewrite !subs_at_cons; unfold step;
       cbn [children single_level_wildcard multi_level_wildcard].
  - apply str_eqb_spec in Ep as ->. destruct (str_eqb l level_plus) eqn:El.
    + apply str_eqb_spec in El as ->. rewrite IH, subs_at_default.
      repeat case_decide; simplify_eq; done.
    + apply str_eqb_false in El. rewrite decide_False by congruence. done.
  - apply str_eqb_spec in Eh as ->. destruct (str_eqb l level_plus) eqn:El; [|destruct (str_eqb l level_hash) eqn:El'].
    + apply str_eqb_spec in El as ->. rewrite decide_False by done. done.
    + apply str_eqb_spec in El' as ->. rewrite IH, subs_at_default.
      repeat case_decide; simplify_eq; done.
    + apply str_eqb_false in El'. rewrite decide_False by congruence. done.
  - apply str_eqb_false in Ep, Eh.
    destruct (str_eqb l level_plus) eqn:El; [|destruct (str_eqb l level_hash) eqn:El'].
    + apply str_eqb_spec in El as ->. rewrite decide_False by congruence. done.
    + apply str_eqb_spec in El' as ->. rewrite decide_False by congruence. done.
    + rewrite map_find_insert_dec. destruct (str_eqb l level) eqn:E.
      * apply str_eqb_spec in E as ->. rewrite IH, subs_at_default.
        repeat case_decide; simplify_eq; done.
      * apply str_eqb_false in E. rewrite decide_False by congruence. done.
Qed.

Lemma find_or_create_node_result levels node :
  (find_or_create_node levels k node).2 = r (subs_at node levels).
Proof.
  revert node; induction levels as [|level levels IH]; intros node; simpl.
  { by destruct (Hk node) as (_ & _ & _ & _ & ->). }
  destruct node as [ch slw mlw subs]. cbn [children single_level_wildcard multi_level_wildcard].
  repeat case_if; destruct (find_or_create_node levels k _) as [n a] eqn:E;
    apply (f_equal snd) in E; simpl in E; subst a; cbn [snd]; rewrite IH, subs_at_default; done.
Qed.

Hypothesis Hnil : u [] = [] .

Lemma find_node_at levels node :
  match find_node levels k node with
  | Some (n, a) =>
      (forall f, subs_at n f = if decide (f = levels) then u (subs_at node f) else subs_at node f)
      /\ a = r (subs_at node levels)
  | None => subs_at node levels = []
  end.
Proof.
  revert node; induction levels as [|level levels IH]; intros node; simpl.
  { destruct (k node) as [n a] eqn:E. destruct (Hk node) as (_ & _ & _ & _ & Hr).
    pose proof (fun f => local_update_at k u r node f Hk) as Hf. rewrite E in *. split; [|done].
    intros f. specialize (Hf f). cbn [fst] in Hf. rewrite Hf. by repeat case_decide. }
  destruct node as [ch slw mlw subs]. cbn [children single_level_wildcard multi_level_wildcard].
  destruct (str_eqb level level_plus) eqn:Ep; [|destruct (str_eqb level level_hash) eqn:Eh].
  - apply str_eqb_spec in Ep as ->. destruct slw as [n|]; [|done]. simpl.
    specialize (IH n). destruct (find_node levels k n) as [[n' a]|]; [|done]. simpl.
    destruct IH as [Hf Hr]. split; [|done]. intros [|l f]; [done|].
    rewrite !subs_at_cons. unfold step. cbn [children single_level_wildcard multi_level_wildcard].
    destruct (str_eqb l level_plus) eqn:El.
    + apply str_eqb_spec in El as ->. rewrite Hf. repeat case_decide; simplify_eq; done.
    + apply str_eqb_false in El. rewrite decide_False by congruence. done.
  - apply str_eqb_spec in Eh as ->. destruct mlw as [n|]; [|done]. simpl.
    specialize (IH n). destruct (find_node levels k n) as [[n' a]|]; [|done]. simpl.
    destruct IH as [Hf Hr]. split; [|done]. intros [|l f]; [done|].
    rewrite !subs_at_cons. unfold step. cbn [children single_level_wildcard multi_level_wildcard].
    destruct (str_eqb l level_plus) eqn:El; [|destruct (str_eqb l level_hash) eqn:El'].
    + apply str_eqb_spec in El as ->. rewrite decide_False by done. done.
    + apply str_eqb_spec in El' as ->. rewrite Hf. repeat case_decide; simplify_eq; done.
    + apply str_eqb_false in El'. rewrite decide_False by congruence. done.
  - apply str_eqb_false in Ep, Eh. destruct (map_find level ch) as [n|] eqn:Ec; [|done]. simpl.
    specialize (IH n). destruct (find_node levels k n) as [[n' a]|]; [|done]. simpl.
    destruct IH as [Hf Hr]. split; [|done]. intros [|l f]; [done|].
    rewrite !subs_at_cons. unfold step. cbn [children single_level_wildcard multi_level_wildcard].
    destruct (str_eqb l level_plus) eqn:El; [|destruct (str_eqb l level_hash) eqn:El'].
    + apply str_eqb_spec in El as ->. rewrite decide_False by congruence. done.
    + apply str_eqb_spec in El' as ->. rewrite decide_False by congruence. done.
    + rewrite map_find_insert_dec. destruct (str_eqb l level) eqn:E.
      * apply str_eqb_spec in E as ->. rewrite Hf, Ec. repeat case_decide; simplify_eq; done.
      * apply str_eqb_false in E. rewrite decide_False by congruence. done.
Qed.
End Walk.

Lemma local_update_subs (u : list MqttSubscription -> list MqttSubscription * option QoS) :
  local_update
    (fun node => let '(subs, old) := u (subscriptions_of node) in
       (mkNode (children node) (single_level_wildcard node) (multi_level_wildcard node) subs, old))
    (fun subs => (u subs).1) (fun subs => (u subs).2).
Proof. intros node. simpl. by destruct (u (subscriptions_of node)). Qed.

Lemma local_update_erase (u : list MqttSubscription -> list MqttSubscription * bool) :
  local_update
    (fun node => let '(subs, old) := u (subscriptions_of node) in
       (mkNode (children node) (single_level_wildcard node) (multi_level_wildcard node) subs, old))
    (fun subs => (u subs).1) (fun subs => (u subs).2).
Proof. intros node. simpl. by destruct (u (subscriptions_of node)). Qed.

(** The levels at which a filter, shared or not, is filed. *)
Definition filed_at (topic_filter : bytes) : list bytes := split_topic (actual_filter topic_filter).

Lemma subscribe_at topic_filter sub root f :
  subs_at (subscribe topic_filter sub root).1 f
  = (if decide (f = filed_at topic_filter) then (upsert sub (subs_at root f)).1 else subs_at root f).
Proof. unfold subscribe. by rewrite (find_or_create_node_at _ _ _ (local_update_subs (upsert sub))). Qed.

Lemma subscribe_result topic_filter sub root :
  (subscribe topic_filter sub root).2 = (upsert sub (subs_at root (filed_at topic_filter))).2.
Proof. unfold subscribe. by rewrite (find_or_create_node_result _ _ _ (local_update_subs (upsert sub))). Qed.

Lemma unsubscribe_at topic_filter session_id root f :
  subs_at (unsubscribe topic_filter session_id root).1 f
  = (if decide (f = filed_at topic_filter) then (erase_first session_id (subs_at root f)).1 else subs_at root f).
Proof.
  unfold unsubscribe. pose proof (find_node_at _ _ _ (local_update_erase (erase_first session_id))
    (filed_at topic_filter) root) as H. unfold filed_at in *.
  destruct (find_node _ _ root) as [[n a]|]; [destruct H as [-> _]; done|].
  case_decide; [subst f; by rewrite H|done].
Qed.

Lemma unsubscribe_result topic_filter session_id root :
  (unsubscribe topic_filter session_id root).2 = (erase_first session_id (subs_at root (filed_at topic_filter))).2.
Proof.
  unfold unsubscribe. pose proof (find_node_at _ _ _ (local_update_erase (erase_first session_id))
    (filed_at topic_filter) root) as H. unfold filed_at in *.
  destruct (find_node _ _ root) as [[n a]|]; [by destruct H as [_ ->]|by rewrite H].
Qed.

Definition not_of (session_id : Z) (sub : MqttSubscription) : bool := negb (sub_session_id sub =? session_id).

Lemma map_find_map {V W} (g : V -> W) (k : bytes) m :
  map_find k (map (fun kv => (kv.1, g kv.2)) m) = g <$> map_find k m.
Proof. induction m as [|[k' v] m IH]; [done|]. simpl. destruct (bytes_cmp k k'); auto. Qed.

Lemma remove_all_at session_id root f :
  subs_at (remove_all session_id root) f = List.filter (not_of session_id) (subs_at root f).
Proof.
  revert root; induction f as [|l f IH]; intros [ch slw mlw subs]; [done|].
  rewrite !subs_at_cons. unfold step. cbn [remove_all children single_level_wildcard multi_level_wildcard].
  repeat case_if; [by destruct slw|by destruct mlw|].
  rewrite map_find_map. destruct (map_find l ch); simpl; auto.
Qed.

(** * One subscription per session and filter *)
Definition sessions_of (subs : list MqttSubscription) : list Z := map sub_session_id subs.
Definition one_per_session (root : Node) : Prop := forall f, NoDup (sessions_of (subs_at root f)).

Lemma upsert_spec sub subs :
  NoDup (sessions_of subs) ->
  NoDup (sessions_of (upsert sub subs).1)
  /\ (forall x, x ∈ (upsert sub subs).1 <-> x = sub \/ (x ∈ subs /\ sub_session_id x <> sub_session_id sub))
  /\ (forall q, (upsert sub subs).2 = Some q <->
        exists x, x ∈ subs /\ sub_session_id x = sub_session_id sub /\ sub_qos x = q).
Proof.
  induction subs as [|y subs IH]; simpl.
  - intros _. split_and!; [repeat constructor; apply not_elem_of_nil| |].
    + intros x. rewrite list_elem_of_singleton. split; [auto|]. intros [|[[]%not_elem_of_nil _]]; done.
    + intros q. split; [done|]. intros (x & []%not_elem_of_nil & _).
  - intros [Hy Hnd]%NoDup_cons. case_if.
    + assert (E : sub_session_id y = sub_session_id sub) by lia. cbn [fst snd].
      assert (Hsess : forall x, x ∈ subs -> sub_session_id x <> sub_session_id sub).
      { intros x Hx Hs. apply Hy. apply elem_of_map. exists x. split; [congruence|done]. }
      split_and!.
      * simpl. rewrite <- E. by constructor.
      * intros x. rewrite !elem_of_cons. split; [intros [|Hx]; auto|]. intros [|[[->|] ?]]; auto. done.
      * intros q. split; [intros [= <-]; exists y; split_and!; auto; by left|].
        intros (x & [->|Hx]%elem_of_cons & Hs & <-); [done|]. by apply Hsess in Hx.
    + assert (E : sub_session_id y <> sub_session_id sub) by lia.
      destruct (IH Hnd) as (IH1 & IH2 & IH3). destruct (upsert sub subs) as [rest old]. cbn [fst snd] in *.
      split_and!.
      * simpl. constructor; [|done]. intros (x & Hs & [->|[Hx _]]%IH2)%elem_of_map; [congruence|].
        apply Hy. apply elem_of_map. eauto.
      * intros x. rewrite !elem_of_cons, IH2. intuition congruence.
      * intros q. rewrite IH3. split; intros (x & Hx & Hs & <-).
        -- exists x. split_and!; auto. by right.
        -- apply elem_of_cons in Hx as [->|Hx]; [congruence|]. eauto.
Qed.

Lemma erase_first_spec session_id subs :
  NoDup (sessions_of subs) ->
  erase_first session_id subs
  = (List.filter (not_of session_id) subs, bool_decide (session_id ∈ sessions_of subs)).
Proof.
  induction subs as [|y subs IH]; simpl; [done|]. intros [Hy Hnd]%NoDup_cons.
  unfold not_of at 1. destruct (sub_session_id y =? session_id) eqn:E; cbn [negb].
  - assert (sub_session_id y = session_id) as <- by lia. f_equal.
    + clear IH Hnd. induction subs as [|z subs IH]; [done|]. simpl in Hy. simpl.
      apply not_elem_of_cons in Hy as [Hz Hy]. unfold not_of. rewrite (proj2 (Z.eqb_neq _ _)) by congruence.
      cbn [negb]. f_equal. by apply IH.
    + symmetry. apply bool_decide_eq_true. by left.
  - rewrite IH by done. cbn [fst]. f_equal. apply bool_decide_ext.
    rewrite elem_of_cons. split; [auto|]. intros [->|]; [lia|done].
Qed.

Lemma sessions_filter_NoDup p subs : NoDup (sessions_of subs) -> NoDup (sessions_of (List.filter p subs)).
Proof.
  induction subs as [|y subs IH]; [done|]. simpl. intros [Hy Hnd]%NoDup_cons.
  destruct (p y); simpl; auto. constructor; auto.
  intros (x & Hx & [_ Hin]%elem_of_filter)%elem_of_map. apply Hy. apply elem_of_map. eauto.
Qed.

Lemma one_per_session_empty : one_per_session empty_node.
Proof. intros f. rewrite subs_at_empty. constructor. Qed.

Lemma one_per_session_subscribe topic_filter sub root :
  one_per_session root -> one_per_session (subscribe topic_filter sub root).1.
Proof. intros H f. rewrite subscribe_at. case_decide; [by apply upsert_spec|done]. Qed.

Lemma one_per_session_unsubscribe topic_filter session_id root :
  one_per_session root -> one_per_session (unsubscribe topic_filter session_id root).1.
Proof.
  intros H f. rewrite unsubscribe_at. case_decide; [|done].
  rewrite erase_first_spec by done. by apply sessions_filter_NoDup.
Qed.

Lemma one_per_session_remove_all session_id root :
  one_per_session root -> one_per_session (remove_all session_id root).
Proof. intros H f. rewrite remove_all_at. by apply sessions_filter_NoDup. Qed.
#[export] Hint Resolve one_per_session_empty one_per_session_subscribe
  one_per_session_unsubscribe one_per_session_remove_all : s2p.

(** * The shape of the tree *)

(** Children are ordered and literal: a wildcard level is never a key. *)
Inductive tree_ok : Node -> Prop :=
| tree_ok_node ch slw mlw subs :
    map_sorted ch -> (forall level n, (level, n) ∈ ch -> literal level) ->
    (forall level n, (level, n) ∈ ch -> tree_ok n) ->
    (forall n, slw = Some n -> tree_ok n) -> (forall n, mlw = Some n -> tree_ok n) ->
    tree_ok (mkNode ch slw mlw subs).

Lemma tree_ok_empty : tree_ok empty_node.
Proof. constructor; try done; by intros ?? []%not_elem_of_nil. Qed.

Lemma tree_ok_default o : (forall n, o = Some n -> tree_ok n) -> tree_ok (default empty_node o).
Proof. destruct o; simpl; eauto using tree_ok_empty. Qed.

Lemma tree_ok_insert ch slw mlw subs level n :
  tree_ok (mkNode ch slw mlw subs) -> literal level -> tree_ok n ->
  tree_ok (mkNode (map_insert level n ch) slw mlw subs).
Proof.
  inversion 1; subst. intros Hl Hn. constructor; auto with s2p;
    intros level' n' [[= -> ->]|]%map_insert_elem; eauto.
Qed.

Lemma tree_ok_child ch slw mlw subs level n :
  tree_ok (mkNode ch slw mlw subs) -> map_find level ch = Some n -> tree_ok n.
Proof. inversion 1; subst. intros ?%map_find_elem. eauto. Qed.

Section WalkShape.
Context {A : Type} (k : Node -> Node * A).
Hypothesis Hk : forall node, tree_ok node -> tree_ok (k node).1.

Lemma find_or_create_node_shape levels node : tree_ok node -> tree_ok (find_or_create_node levels k node).1.
Proof.
  revert node; induction levels as [|level levels IH]; intros node Hn; simpl; [auto|].
  destruct node as [ch slw mlw subs].
  pose proof Hn as Hn'. inversion Hn'; subst.
  destruct (str_eqb level level_plus) eqn:Ep; [|destruct (str_eqb level level_hash) eqn:Eh].
  all: destruct (find_or_create_node levels k _) as [n a] eqn:E; cbn [fst].
  all: apply (f_equal fst) in E; simpl in E; subst n.
  - constructor; try done. intros ? [= <-]. apply IH. by apply tree_ok_default.
  - constructor; try done. intros ? [= <-]. apply IH. by apply tree_ok_default.
  - apply str_eqb_false in Ep, Eh. apply tree_ok_insert; [done|by split|].
    apply IH, tree_ok_default. intros ??. by eapply tree_ok_child.
Qed.

Lemma find_node_shape levels node :
  tree_ok node -> forall r, find_node levels k node = Some r -> tree_ok r.1.
Proof.
  revert node; induction levels as [|level levels IH]; intros node Hn r; simpl; [by intros [= <-]; auto|].
  destruct node as [ch slw mlw subs]. pose proof Hn as Hn'. inversion Hn'; subst.
  destruct (str_eqb level level_plus) eqn:Ep; [|destruct (str_eqb level level_hash) eqn:Eh].
  - intros (n & Hs & ([n' a] & Hf & [= <-])%bind_Some)%bind_Some. apply IH in Hf; [|auto].
    constructor; try done. by intros ? [= <-].
  - intros (n & Hs & ([n' a] & Hf & [= <-])%bind_Some)%bind_Some. apply IH in Hf; [|auto].
    constructor; try done. by intros ? [= <-].
  - apply str_eqb_false in Ep, Eh.
    intros (n & Hs & ([n' a] & Hf & [= <-])%bind_Some)%bind_Some.
    apply IH in Hf; [|by eapply tree_ok_child]. by apply tree_ok_insert.
Qed.
End WalkShape.

Lemma tree_ok_subs ch slw mlw subs subs' :
  tree_ok (mkNode ch slw mlw subs) -> tree_ok (mkNode ch slw mlw subs').
Proof. inversion 1; subst. by constructor. Qed.

Lemma subscribe_shape topic_filter sub root : tree_ok root -> tree_ok (subscribe topic_filter sub root).1.
Proof.
  apply find_or_create_node_shape. intros [ch slw mlw subs]. simpl.
  destruct (upsert sub subs). apply tree_ok_subs.
Qed.

Lemma unsubscribe_shape topic_filter session_id root :
  tree_ok root -> tree_ok (unsubscribe topic_filter session_id root).1.
Proof.
  intros Hr. unfold unsubscribe. destruct (find_node _ _ root) as [r|] eqn:E; [|done].
  eapply find_node_shape; [|done|exact E]. intros [ch slw mlw subs]. simpl.
  destruct (erase_first session_id subs). apply tree_ok_subs.
Qed.

Lemma keys_above_map {V W} (g : V -> W) (k : bytes) m :
  keys_above k (map (fun kv => (kv.1, g kv.2)) m) <-> keys_above k m.
Proof.
  unfold keys_above. rewrite !Forall_forall. split.
  - intros H kv Hin. apply (H (kv.1, g kv.2)). apply elem_of_map. eauto.
  - intros H kv (kv' & -> & Hin)%elem_of_map. apply (H kv' Hin).
Qed.

Lemma map_sorted_map {V W} (g : V -> W) (m : list (bytes * V)) :
  map_sorted m -> map_sorted (map (fun kv => (kv.1, g kv.2)) m).
Proof.
  induction m as [|[k v] m IH]; [done|]. intros [Hk Hs].
  change (keys_above k (map (fun kv => (kv.1, g kv.2)) m)
          /\ map_sorted (map (fun kv => (kv.1, g kv.2)) m)).
  split; [|auto]. by apply keys_above_map.
Qed.

Lemma remove_all_shape session_id root : tree_ok root -> tree_ok (remove_all session_id root).
Proof.
  induction 1 as [ch slw mlw subs Hs Hl _ IHc _ IHs _ IHm]. simpl. constructor.
  - by apply map_sorted_map.
  - intros level n ([level' n'] & [= -> ->] & Hin)%elem_of_map. eauto.
  - intros level n ([level' n'] & [= -> ->] & Hin)%elem_of_map. eauto.
  - destruct slw; [|done]. intros ? [= <-]. auto.
  - destruct mlw; [|done]. intros ? [= <-]. auto.
Qed.
#[export] Hint Resolve tree_ok_empty subscribe_shape unsubscribe_shape remove_all_shape : s2p.

(** * Listing a session's subscriptions *)

(** The paths [subscriptions] lists below a node, by recursion on the tree. *)
Fixpoint paths_of (session_id : Z) (node : Node) (path : bytes) : list bytes :=
  let 'mkNode ch slw mlw subs := node in
  map (fun _ => path) (List.filter (fun sub => sub_session_id sub =? session_id) subs)
  ++ match slw with Some n => paths_of session_id n (child_path path level_plus) | None => [] end
  ++ match mlw with Some n => paths_of session_id n (child_path path level_hash) | None => [] end
  ++ concat (rev (map (fun kv => paths_of session_id kv.2 (child_path path kv.1)) ch)).

Definition stack_size (stack : list (Node * bytes)) : nat := foldr (fun np => Nat.add (node_count np.1)) O stack.

Lemma stack_size_cons n p s : stack_size ((n, p) :: s) = (node_count n + stack_size s)%nat.
Proof. reflexivity. Qed.

Lemma stack_size_app s1 s2 : stack_size (s1 ++ s2) = (stack_size s1 + stack_size s2)%nat.
Proof. induction s1 as [|x s1 IH]; [done|]. unfold stack_size in *. simpl. lia. Qed.

Lemma stack_size_children (ch : list (bytes * Node)) path :
  stack_size (rev (map (fun kv => (kv.2, child_path path kv.1)) ch))
  = foldr Nat.add O (map (fun kv => node_count kv.2) ch).
Proof.
  induction ch as [|kv ch IH]; [done|]. simpl. rewrite stack_size_app, IH. unfold stack_size. simpl. lia.
Qed.

Lemma flat_map_children session_id (ch : list (bytes * Node)) path :
  flat_map (fun np => paths_of session_id np.1 np.2) (rev (map (fun kv => (kv.2, child_path path kv.1)) ch))
  = concat (rev (map (fun kv => paths_of session_id kv.2 (child_path path kv.1)) ch)).
Proof.
  induction ch as [|kv ch IH]; [done|]. simpl. rewrite flat_map_app, concat_app, IH. done.
Qed.

Lemma subscriptions_loop_spec session_id fuel stack :
  (stack_size stack <= fuel)%nat ->
  subscriptions_loop fuel session_id stack = Ok (flat_map (fun np => paths_of session_id np.1 np.2) stack).
Proof.
  revert stack; induction fuel as [|fuel IH]; intros [|[[ch slw mlw subs] path] stack] Hf; try done.
  - unfold stack_size in Hf. simpl in Hf. lia.
  - cbn [subscriptions_loop children single_level_wildcard multi_level_wildcard subscriptions_of].
    change (stack_size ((mkNode ch slw mlw subs, path) :: stack))
      with (node_count (mkNode ch slw mlw subs) + stack_size stack)%nat in Hf.
    cbn [node_count] in Hf. rewrite <- (stack_size_children ch path) in Hf.
    rewrite IH.
    + mstep. f_equal. cbn [flat_map paths_of fst snd]. rewrite <- !app_assoc. f_equal.
      rewrite <- (flat_map_children session_id).
      destruct slw, mlw; cbn [flat_map app fst snd]; by rewrite flat_map_app, ?app_assoc.
    + destruct slw, mlw; rewrite ?stack_size_cons, stack_size_app; lia.
Qed.

Lemma subscriptions_paths session_id root :
  subscriptions session_id root = Ok (paths_of session_id root []).
Proof.
  unfold subscriptions. rewrite subscriptions_loop_spec.
  - cbn [flat_map fst snd]. by rewrite app_nil_r.
  - rewrite stack_size_cons. unfold stack_size. simpl. lia.
Qed.

(** The path of a filter as [subscriptions] builds it level by level. *)
Definition filter_path (path : bytes) (f : list bytes) : bytes := foldl child_path path f.

Lemma paths_of_spec session_id node : tree_ok node -> forall path p,
  p ∈ paths_of session_id node path <->
  exists f sub, sub ∈ subs_at node f /\ sub_session_id sub = session_id /\ p = filter_path path f.
Proof.
  induction 1 as [ch slw mlw subs Hs Hl _ IHc _ IHs _ IHm]. intros path p. cbn [paths_of].
  rewrite !elem_of_app. split.
  - intros [Hp|[Hp|[Hp|Hp]]].
    + apply elem_of_map in Hp as (sub & -> & [? ?]%elem_of_filter). exists [], sub. split_and!; [done|lia|done].
    + destruct slw as [n|]; [|by apply not_elem_of_nil in Hp].
      apply (IHs n eq_refl) in Hp as (f & sub & ? & ? & ->). by exists (level_plus :: f), sub.
    + destruct mlw as [n|]; [|by apply not_elem_of_nil in Hp].
      apply (IHm n eq_refl) in Hp as (f & sub & ? & ? & ->). by exists (level_hash :: f), sub.
    + apply list_elem_of_In, in_concat in Hp as (l & Hin & Hp). apply list_elem_of_In in Hp.
      apply in_rev, list_elem_of_In, elem_of_map in Hin as ([level n] & -> & Hin).
      apply (IHc level n Hin) in Hp as (f & sub & Hsub & ? & ->).
      exists (level :: f), sub. split_and!; try done. rewrite subs_at_cons, step_literal by eauto.
      cbn [children]. by rewrite (map_sorted_find level n ch Hs Hin).
  - intros ([|level f] & sub & Hsub & Hid & ->).
    + left. apply elem_of_map. exists sub. split; [done|]. apply elem_of_filter. split; [lia|done].
    + right. rewrite subs_at_cons in Hsub. unfold step in Hsub.
      cbn [children single_level_wildcard multi_level_wildcard] in Hsub.
      destruct (str_eqb level level_plus) eqn:Ep; [|destruct (str_eqb level level_hash) eqn:Eh].
      * apply str_eqb_spec in Ep as ->. left. destruct slw as [n|]; [|by apply not_elem_of_nil in Hsub].
        apply (IHs n eq_refl). by exists f, sub.
      * apply str_eqb_spec in Eh as ->. right; left. destruct mlw as [n|]; [|by apply not_elem_of_nil in Hsub].
        apply (IHm n eq_refl). by exists f, sub.
      * right; right. destruct (map_find level ch) as [n|] eqn:E; [|by apply not_elem_of_nil in Hsub].
        apply map_find_elem in E. apply list_elem_of_In, in_concat.
        exists (paths_of session_id n (child_path path level)). split.
        -- apply -> in_rev. apply list_elem_of_In, elem_of_map. by exists (level, n).
        -- apply list_elem_of_In, (IHc level n E). by exists f, sub.
Qed.

(** The path is the filter again, unless the filter starts with an empty level. *)
Lemma filter_path_join path f :
  path <> [] -> filter_path path f = join_with chr_slash (path :: f).
Proof.
  revert path; induction f as [|l f IH]; intros path Hp; [done|].
  unfold filter_path in *. cbn [foldl]. destruct path as [|c path]; [done|].
  rewrite IH by done. cbn [child_path]. destruct f; cbn [join_with]; [done|].
  rewrite <- app_assoc. done.
Qed.

Lemma filter_path_levels l f : l <> [] -> filter_path [] (l :: f) = join_with chr_slash (l :: f).
Proof. intros Hl. unfold filter_path. cbn [foldl child_path]. by apply filter_path_join. Qed.

(** * Facts about retained messages: the filter matching of the retained store is the
    matching relation that the subscription tree implements. *)
Import MqttTopicTree MqttRetainedStore.

(** * Filters that [validate_topic_filter] accepts *)
Lemma validate_topic_filter_plain filter :
  validate_topic_filter filter = true -> is_shared_subscription filter = false ->
  filter <> [] /\ validate_levels (split_on chr_slash filter) = true.
Proof.
  unfold validate_topic_filter. destruct filter as [|c filter]; [done|].
  cbn [validate_topic_filter_fuel]. intros Hv Hs. rewrite Hs in Hv.
  destruct (contains 0 _); [done|]. by rewrite MqttTopicTreeFacts.split_topic_levels in Hv.
Qed.

Lemma contains_false c s : contains c s = false <-> c ∉ s.
Proof. rewrite <- contains_spec. by destruct (contains c s). Qed.

(** A level of a valid filter: a wildcard alone, or free of wildcard characters. *)
Definition clean (level : bytes) : Prop := (chr_plus ∉ level) /\ (chr_hash ∉ level).

Lemma validate_levels_cons level rest : validate_levels (level :: rest) = true ->
  validate_levels rest = true /\
  (level = level_plus \/ (level = level_hash /\ rest = []) \/ clean level).
Proof.
  simpl. destruct (str_eqb level level_plus) eqn:Ep; [apply str_eqb_spec in Ep as ->; auto|].
  destruct (contains chr_plus level) eqn:Ecp; [done|].
  destruct (str_eqb level level_hash) eqn:Eh; [apply str_eqb_spec in Eh as ->; destruct rest; auto; done|].
  destruct (contains chr_hash level) eqn:Ech; [done|].
  intros Hr. split; [done|]. right; right. by rewrite contains_false in Ecp, Ech.
Qed.

Lemma clean_literal level : clean level -> literal level.
Proof.
  intros [Hp Hh]. split; intros ->; [apply Hp|apply Hh]; by apply list_elem_of_singleton.
Qed.

Lemma topic_matches_filter_spec f t : validate_levels f = true ->
  topic_matches_filter t f = true <-> filter_matches f t.
Proof.
  revert t; induction f as [|l f IH]; intros t Hv.
  - destruct t; simpl; split; try done; [constructor|inversion 1].
  - apply validate_levels_cons in Hv as [Hv [->|[[-> ->]|Hl]]].
    + destruct t as [|x t]; simpl; [split; [done|inversion 1]|].
      rewrite IH by done. split; [by constructor|].
      inversion 1; subst; congruence.
    + simpl. split; [constructor|done].
    + apply clean_literal in Hl as [Hp Hh]. simpl.
      apply str_eqb_false in Hp as Hp', Hh as Hh'. rewrite Hp', Hh'.
      destruct t as [|x t]; [split; [done|inversion 1; congruence]|].
      destruct (str_eqb l x) eqn:E; simpl.
      * apply str_eqb_spec in E as ->. rewrite IH by done.
        split; [by constructor|]. inversion 1; subst; congruence.
      * apply str_eqb_false in E. split; [done|]. inversion 1; subst; congruence.
Qed.

(** Literal filters match exactly their own topic. *)
Lemma filter_matches_literal f t : Forall literal f -> filter_matches f t <-> f = t.
Proof.
  intros Hf. split.
  - intros Hm. induction Hm; try done.
    + apply Forall_cons in Hf as [[_ []] _]. done.
    + apply Forall_cons in Hf as [[[] _] _]. done.
    + apply Forall_cons in Hf as [_ Hf]. f_equal. auto.
  - intros <-. induction Hf as [|l f [??] _ IH]; by constructor.
Qed.

Lemma clean_levels s : chr_plus ∉ s -> chr_hash ∉ s -> Forall literal (split_on chr_slash s).
Proof.
  intros Hp Hh. apply Forall_forall. intros l Hl. apply clean_literal.
  split; intros Hc; [apply Hp|apply Hh]; by eapply split_on_chars.
Qed.

(** The first level begins as the string does. *)
Lemma split_on_starts c s : c <> chr_slash ->
  match split_on chr_slash s with l :: _ => starts_with c l | [] => false end = starts_with c s.
Proof.
  intros Hc. destruct s as [|x s]; [done|]. simpl. case_if; [simpl; lia|].
  by destruct (split_on chr_slash s).
Qed.

Lemma valid_starts level rest c : validate_levels (level :: rest) = true -> c = chr_plus \/ c = chr_hash ->
  starts_with c level = true -> level = [c].
Proof.
  intros [_ Hl]%validate_levels_cons Hc Hs. destruct level as [|x level]; [done|].
  simpl in Hs. assert (x = c) as -> by lia.
  destruct Hl as [Hl|[[Hl _]|[Hp Hh]]]; [| |exfalso].
  - unfold level_plus in Hl. injection Hl as -> ->. done.
  - unfold level_hash in Hl. injection Hl as -> ->. done.
  - destruct Hc as [->| ->]; [apply Hp|apply Hh]; left.
Qed.

(** The [$] test of the loop is the negation of [dollar_rule]. *)
Lemma dollar_test f t : validate_levels (split_on chr_slash f) = true ->
  starts_with chr_dollar t && (str_eqb f level_hash || starts_with chr_plus f || starts_with chr_hash f) = false
  <-> dollar_rule (split_on chr_slash f) (split_on chr_slash t).
Proof.
  intros Hv. rewrite <- (split_on_starts chr_dollar t), <- (split_on_starts chr_plus f),
    <- (split_on_starts chr_hash f) by done.
  unfold dollar_rule, starts_with_dollar.
  pose proof (join_split chr_slash f) as Hj.
  destruct (split_on chr_slash f) as [|fl fs] eqn:Ef; [by apply split_on_ne in Ef|].
  destruct (split_on chr_slash t) as [|tl ts] eqn:Et; [by apply split_on_ne in Et|].
  destruct (starts_with chr_dollar tl) eqn:Ed; unfold starts_with in Ed; rewrite Ed; cbn [andb];
    [|split; [intros _ ?; done|done]].
  split.
  - intros Hn _. split; intros ->; simpl in Hn; rewrite ?orb_true_r in Hn; done.
  - intros [Hp Hh]%(fun H => H eq_refl).
    destruct (starts_with chr_plus fl) eqn:E1; [by apply (valid_starts _ _ _ Hv) in E1; auto|].
    destruct (starts_with chr_hash fl) eqn:E2; [by apply (valid_starts _ _ _ Hv) in E2; auto|].
    rewrite !orb_false_r. apply str_eqb_false. intros ->. simpl in Ef. by injection Ef as <- <-.
Qed.

Lemma selects_spec f topic :
  f <> [] -> validate_levels (split_on chr_slash f) = true ->
  selects f (split_topic f) (contains chr_plus f || contains chr_hash f) topic = true
  <-> topic_matches (split_on chr_slash f) (split_on chr_slash topic).
Proof.
  intros Hne Hv. unfold selects, topic_matches. rewrite !retained_split_levels.
  destruct (contains chr_plus f || contains chr_hash f) eqn:Ew.
  - rewrite <- dollar_test, <- topic_matches_filter_spec by done.
    destruct (starts_with chr_dollar topic && _); [split; [done|intros [_ ?]; done]|tauto].
  - apply orb_false_iff in Ew as [Hp Hh]. apply contains_false in Hp, Hh.
    rewrite filter_matches_literal, str_eqb_spec by (by apply clean_levels). split.
    + intros ->. split; [done|]. pose proof (clean_levels f Hp Hh) as Hc.
      unfold dollar_rule. destruct (split_on chr_slash f); [done|].
      apply Forall_cons in Hc as [? _]. done.
    + intros [E _]. symmetry. by eapply split_on_inj.
Qed.

Lemma match_filter_elem f messages msg :
  validate_topic_filter f = true -> is_shared_subscription f = false ->
  msg ∈ match_filter f messages <->
  exists topic, (topic, msg) ∈ messages /\ topic_matches (split_on chr_slash f) (split_on chr_slash topic).
Proof.
  intros Hv Hs. apply validate_topic_filter_plain in Hv as [Hne Hv]; [|done].
  assert (match_filter f messages = match_loop f (split_topic f) (contains chr_plus f || contains chr_hash f) messages)
    as -> by (by destruct f).
  rewrite match_loop_filter, elem_of_map. split.
  - intros ([topic m] & -> & [Hsel Hin]%elem_of_filter). exists topic.
    by apply selects_spec in Hsel.
  - intros (topic & Hin & Hm). exists (topic, msg). split; [done|]. apply elem_of_filter.
    split; [by apply selects_spec|done].
Qed.
