(* ===== verification/MqttSession.v ===== *)
(** Client sessions: [protocol/mqtt/include/mqtt_session.h] and
    [protocol/mqtt/src/mqtt_session.cpp].

    A session is an object that its connection's coroutine and the manager share, so
    sessions live in a heap of objects; the identity of an object is the session id
    the constructor draws from the process-wide counter. A connection is an
    identifier, and the [weak_ptr] to it yields a connection while that identifier is
    in the set of live connections. Times are nanoseconds of the steady clock. Module
    [MqttSession] is the session object, [MqttSessionManager] the registry; the files of
    sessions are in [MqttPersistence]. *)
From S2P Require Import Prelude Containers MqttProtocol.
Inductive MqttSessionState : Type := disconnected | connecting | connected | disconnecting.
#[export] Instance MqttSessionState_eq_dec : EqDecision MqttSessionState.
Proof. solve_decision. Defined.

Definition state_eqb (a b : MqttSessionState) : bool := bool_decide (a = b).

Record MqttWillMessage : Type := mkWill {
  will_topic : bytes;
  will_payload : bytes;
  will_qos : QoS;
  will_retain : bool;
  will_will_delay_interval : option Z;
  will_payload_format_indicator : option Z;
  will_message_expiry_interval : option Z;
  will_content_type : option bytes;
  will_response_topic : option bytes;
  will_correlation_data : option bytes;
  will_user_properties : list UserProperty
}.

Module MqttSession.

Record t : Type := mk {
  session_id_ : Z;
  conn_owner_ : option Z;
  client_id_ : bytes;
  protocol_level_ : ProtocolLevel;
  state_ : MqttSessionState;
  keep_alive_ : Z;
  last_activity_ : Z;
  subscriptions_ : list (bytes * QoS);
  next_packet_id_ : Z;
  inflight_packet_ids_ : gset Z;
  outgoing_packet_ids_ : gset Z;
  will_message_ : option MqttWillMessage;
  clean_start_ : bool;
  session_expiry_interval_ : Z;
  receive_maximum_ : Z;
  client_receive_maximum_ : Z;
  maximum_packet_size_ : Z;
  topic_alias_maximum_ : Z;
  topic_aliases_ : list (Z * bytes)
}.

Definition set_client_id (x : bytes) (s : t) : t :=
  mk (session_id_ s) (conn_owner_ s) x (protocol_level_ s) (state_ s) (keep_alive_ s) (last_activity_ s)
    (subscriptions_ s) (next_packet_id_ s) (inflight_packet_ids_ s) (outgoing_packet_ids_ s) (will_message_ s)
    (clean_start_ s) (session_expiry_interval_ s) (receive_maximum_ s) (client_receive_maximum_ s)
    (maximum_packet_size_ s) (topic_alias_maximum_ s) (topic_aliases_ s).
Definition set_protocol_level (x : ProtocolLevel) (s : t) : t :=
  mk (session_id_ s) (conn_owner_ s) (client_id_ s) x (state_ s) (keep_alive_ s) (last_activity_ s)
    (subscriptions_ s) (next_packet_id_ s) (inflight_packet_ids_ s) (outgoing_packet_ids_ s) (will_message_ s)
    (clean_start_ s) (session_expiry_interval_ s) (receive_maximum_ s) (client_receive_maximum_ s)
    (maximum_packet_size_ s) (topic_alias_maximum_ s) (topic_aliases_ s).
Definition set_state (x : MqttSessionState) (s : t) : t :=
  mk (session_id_ s) (conn_owner_ s) (client_id_ s) (protocol_level_ s) x (keep_alive_ s) (last_activity_ s)
    (subscriptions_ s) (next_packet_id_ s) (inflight_packet_ids_ s) (outgoing_packet_ids_ s) (will_message_ s)
    (clean_start_ s) (session_expiry_interval_ s) (receive_maximum_ s) (client_receive_maximum_ s)
    (maximum_packet_size_ s) (topic_alias_maximum_ s) (topic_aliases_ s).
Definition set_keep_alive (x : Z) (s : t) : t :=
  mk (session_id_ s) (conn_owner_ s) (client_id_ s) (protocol_level_ s) (state_ s) x (last_activity_ s)
    (subscriptions_ s) (next_packet_id_ s) (inflight_packet_ids_ s) (outgoing_packet_ids_ s) (will_message_ s)
    (clean_start_ s) (session_expiry_interval_ s) (receive_maximum_ s) (client_receive_maximum_ s)
    (maximum_packet_size_ s) (topic_alias_maximum_ s) (topic_aliases_ s).
Definition set_last_activity (x : Z) (s : t) : t :=
  mk (session_id_ s) (conn_owner_ s) (client_id_ s) (protocol_level_ s) (state_ s) (keep_alive_ s) x
    (subscriptions_ s) (next_packet_id_ s) (inflight_packet_ids_ s) (outgoing_packet_ids_ s) (will_message_ s)
    (clean_start_ s) (session_expiry_interval_ s) (receive_maximum_ s) (client_receive_maximum_ s)
    (maximum_packet_size_ s) (topic_alias_maximum_ s) (topic_aliases_ s).
Definition set_subscriptions (x : list (bytes * QoS)) (s : t) : t :=
  mk (session_id_ s) (conn_owner_ s) (client_id_ s) (protocol_level_ s) (state_ s) (keep_alive_ s)
    (last_activity_ s) x (next_packet_id_ s) (inflight_packet_ids_ s) (outgoing_packet_ids_ s) (will_message_
    s) (clean_start_ s) (session_expiry_interval_ s) (receive_maximum_ s) (client_receive_maximum_ s)
    (maximum_packet_size_ s) (topic_alias_maximum_ s) (topic_aliases_ s).
Definition set_next_packet_id (x : Z) (s : t) : t :=
  mk (session_id_ s) (conn_owner_ s) (client_id_ s) (protocol_level_ s) (state_ s) (keep_alive_ s)
    (last_activity_ s) (subscriptions_ s) x (inflight_packet_ids_ s) (outgoing_packet_ids_ s) (will_message_
    s) (clean_start_ s) (session_expiry_interval_ s) (receive_maximum_ s) (client_receive_maximum_ s)
    (maximum_packet_size_ s) (topic_alias_maximum_ s) (topic_aliases_ s).
Definition set_inflight (x : gset Z) (s : t) : t :=
  mk (session_id_ s) (conn_owner_ s) (client_id_ s) (protocol_level_ s) (state_ s) (keep_alive_ s)
    (last_activity_ s) (subscriptions_ s) (next_packet_id_ s) x (outgoing_packet_ids_ s) (will_message_ s)
    (clean_start_ s) (session_expiry_interval_ s) (receive_maximum_ s) (client_receive_maximum_ s)
    (maximum_packet_size_ s) (topic_alias_maximum_ s) (topic_aliases_ s).
Definition set_outgoing (x : gset Z) (s : t) : t :=
  mk (session_id_ s) (conn_owner_ s) (client_id_ s) (protocol_level_ s) (state_ s) (keep_alive_ s)
    (last_activity_ s) (subscriptions_ s) (next_packet_id_ s) (inflight_packet_ids_ s) x (will_message_ s)
    (clean_start_ s) (session_expiry_interval_ s) (receive_maximum_ s) (client_receive_maximum_ s)
    (maximum_packet_size_ s) (topic_alias_maximum_ s) (topic_aliases_ s).
Definition set_will (x : option MqttWillMessage) (s : t) : t :=
  mk (session_id_ s) (conn_owner_ s) (client_id_ s) (protocol_level_ s) (state_ s) (keep_alive_ s)
    (last_activity_ s) (subscriptions_ s) (next_packet_id_ s) (inflight_packet_ids_ s) (outgoing_packet_ids_
    s) x (clean_start_ s) (session_expiry_interval_ s) (receive_maximum_ s) (client_receive_maximum_ s)
    (maximum_packet_size_ s) (topic_alias_maximum_ s) (topic_aliases_ s).
Definition set_clean_start (x : bool) (s : t) : t :=
  mk (session_id_ s) (conn_owner_ s) (client_id_ s) (protocol_level_ s) (state_ s) (keep_alive_ s)
    (last_activity_ s) (subscriptions_ s) (next_packet_id_ s) (inflight_packet_ids_ s) (outgoing_packet_ids_
    s) (will_message_ s) x (session_expiry_interval_ s) (receive_maximum_ s) (client_receive_maximum_ s)
    (maximum_packet_size_ s) (topic_alias_maximum_ s) (topic_aliases_ s).
Definition set_session_expiry_interval (x : Z) (s : t) : t :=
  mk (session_id_ s) (conn_owner_ s) (client_id_ s) (protocol_level_ s) (state_ s) (keep_alive_ s)
    (last_activity_ s) (subscriptions_ s) (next_packet_id_ s) (inflight_packet_ids_ s) (outgoing_packet_ids_
    s) (will_message_ s) (clean_start_ s) x (receive_maximum_ s) (client_receive_maximum_ s)
    (maximum_packet_size_ s) (topic_alias_maximum_ s) (topic_aliases_ s).
Definition set_receive_maximum (x : Z) (s : t) : t :=
  mk (session_id_ s) (conn_owner_ s) (client_id_ s) (protocol_level_ s) (state_ s) (keep_alive_ s)
    (last_activity_ s) (subscriptions_ s) (next_packet_id_ s) (inflight_packet_ids_ s) (outgoing_packet_ids_
    s) (will_message_ s) (clean_start_ s) (session_expiry_interval_ s) x (client_receive_maximum_ s)
    (maximum_packet_size_ s) (topic_alias_maximum_ s) (topic_aliases_ s).
Definition set_client_receive_maximum (x : Z) (s : t) : t :=
  mk (session_id_ s) (conn_owner_ s) (client_id_ s) (protocol_level_ s) (state_ s) (keep_alive_ s)
    (last_activity_ s) (subscriptions_ s) (next_packet_id_ s) (inflight_packet_ids_ s) (outgoing_packet_ids_
    s) (will_message_ s) (clean_start_ s) (session_expiry_interval_ s) (receive_maximum_ s) x
    (maximum_packet_size_ s) (topic_alias_maximum_ s) (topic_aliases_ s).
Definition set_maximum_packet_size (x : Z) (s : t) : t :=
  mk (session_id_ s) (conn_owner_ s) (client_id_ s) (protocol_level_ s) (state_ s) (keep_alive_ s)
    (last_activity_ s) (subscriptions_ s) (next_packet_id_ s) (inflight_packet_ids_ s) (outgoing_packet_ids_
    s) (will_message_ s) (clean_start_ s) (session_expiry_interval_ s) (receive_maximum_ s)
    (client_receive_maximum_ s) x (topic_alias_maximum_ s) (topic_aliases_ s).
Definition set_topic_alias_maximum (x : Z) (s : t) : t :=
  mk (session_id_ s) (conn_owner_ s) (client_id_ s) (protocol_level_ s) (state_ s) (keep_alive_ s)
    (last_activity_ s) (subscriptions_ s) (next_packet_id_ s) (inflight_packet_ids_ s) (outgoing_packet_ids_
    s) (will_message_ s) (clean_start_ s) (session_expiry_interval_ s) (receive_maximum_ s)
    (client_receive_maximum_ s) (maximum_packet_size_ s) x (topic_aliases_ s).
Definition set_topic_aliases (x : list (Z * bytes)) (s : t) : t :=
  mk (session_id_ s) (conn_owner_ s) (client_id_ s) (protocol_level_ s) (state_ s) (keep_alive_ s)
    (last_activity_ s) (subscriptions_ s) (next_packet_id_ s) (inflight_packet_ids_ s) (outgoing_packet_ids_
    s) (will_message_ s) (clean_start_ s) (session_expiry_interval_ s) (receive_maximum_ s)
    (client_receive_maximum_ s) (maximum_packet_size_ s) (topic_alias_maximum_ s) x.

(** [MqttSession(conn)] at time [now], with the id drawn from the counter. *)
Definition create (session_id now : Z) (conn : option Z) : t :=
  mk session_id conn [] V3_1_1 disconnected MQTT_KEEP_ALIVE_DEFAULT now [] 1 ∅ ∅ None true 0 65535 65535 0 0 [].

Definition add_subscription (filter : bytes) (qos : QoS) (s : t) : t :=
  set_subscriptions (map_insert filter qos (subscriptions_ s)) s.
Definition remove_subscription (filter : bytes) (s : t) : t :=
  set_subscriptions (map_erase filter (subscriptions_ s)) s.
Definition subscription_qos (filter : bytes) (s : t) : QoS :=
  match map_find filter (subscriptions_ s) with Some q => q | None => AT_MOST_ONCE end.

Definition next_packet_id (s : t) : Z * t :=
  let id := next_packet_id_ s in
  let next := u16 (next_packet_id_ s + 1) in
  (id, set_next_packet_id (if next =? 0 then 1 else next) s).

Definition add_inflight_packet_id (pid : Z) (s : t) : bool * t :=
  (bool_decide (pid ∉ inflight_packet_ids_ s), set_inflight ({[pid]} ∪ inflight_packet_ids_ s) s).
Definition has_inflight_packet_id (pid : Z) (s : t) : bool := bool_decide (pid ∈ inflight_packet_ids_ s).
Definition remove_inflight_packet_id (pid : Z) (s : t) : t :=
  set_inflight (inflight_packet_ids_ s ∖ {[pid]}) s.
Definition inflight_count (s : t) : Z := Z.of_nat (size (inflight_packet_ids_ s)).
Definition add_outgoing_packet_id (pid : Z) (s : t) : t :=
  set_outgoing ({[pid]} ∪ outgoing_packet_ids_ s) s.
Definition has_outgoing_packet_id (pid : Z) (s : t) : bool := bool_decide (pid ∈ outgoing_packet_ids_ s).
Definition remove_outgoing_packet_id (pid : Z) (s : t) : t :=
  set_outgoing (outgoing_packet_ids_ s ∖ {[pid]}) s.

Definition will_message (s : t) : option MqttWillMessage := will_message_ s.
Definition set_will_message (will : MqttWillMessage) (s : t) : t := set_will (Some will) s.
Definition clear_will_message (s : t) : t := set_will None s.

Definition set_topic_alias (alias : Z) (topic : bytes) (s : t) : t :=
  set_topic_aliases (map_insert alias topic (topic_aliases_ s)) s.
Definition resolve_topic_alias (alias : Z) (s : t) : option bytes := map_find alias (topic_aliases_ s).

Definition update_last_activity (now : Z) (s : t) : t := set_last_activity now s.

(** [conn_owner_.lock()] *)
Definition connection (alive : gset Z) (s : t) : option Z :=
  c ← conn_owner_ s; if bool_decide (c ∈ alive) then Some c else None.

(** * Packet identifiers *)

(** [n] successive calls of [next_packet_id]. *)
Fixpoint packet_ids (n : nat) (s : t) : list Z :=
  match n with
  | O => []
  | S n => let '(id, s) := next_packet_id s in id :: packet_ids n s
  end.

Definition packet_id_ok (id : Z) : Prop := 1 <= id <= 65535.

Lemma next_packet_id_ok s : packet_id_ok (next_packet_id_ s) ->
  packet_id_ok (next_packet_id s).1 /\ packet_id_ok (next_packet_id_ (next_packet_id s).2).
Proof. unfold packet_id_ok, next_packet_id, u16. simpl. intros. case_if; Z.to_euclidean_division_equations; lia. Qed.

Lemma next_packet_id_next s : packet_id_ok (next_packet_id_ s) ->
  next_packet_id_ (next_packet_id s).2 = 1 + next_packet_id_ s mod 65535.
Proof.
  unfold packet_id_ok, next_packet_id, u16. simpl. intros.
  case_if; Z.to_euclidean_division_equations; lia.
Qed.

Lemma packet_ids_nth n s k : packet_id_ok (next_packet_id_ s) -> (k < n)%nat ->
  packet_ids n s !! k = Some (1 + (next_packet_id_ s - 1 + Z.of_nat k) mod 65535).
Proof.
  revert s k; induction n as [|n IH]; intros s k Hs Hk; [lia|].
  cbn [packet_ids]. pose proof (next_packet_id_next s Hs) as Hn. pose proof (next_packet_id_ok s Hs) as [_ Ho].
  destruct (next_packet_id s) as [id s'] eqn:E. simpl in Hn, Ho.
  destruct k as [|k]; cbn [lookup list_lookup].
  - assert (id = next_packet_id_ s) as -> by (unfold next_packet_id in E; congruence).
    unfold packet_id_ok in Hs. f_equal. rewrite Z.mod_small by lia. lia.
  - change (packet_ids n s' !! k = Some (1 + (next_packet_id_ s - 1 + Z.of_nat (S k)) mod 65535)).
    rewrite IH by (done || lia). rewrite Hn. do 2 f_equal.
    rewrite <- Z.add_mod_idemp_l by lia. rewrite <- (Z.add_mod_idemp_l (next_packet_id_ s - 1)) by lia.
    unfold packet_id_ok in Hs. Z.to_euclidean_division_equations; lia.
Qed.

End MqttSession.

(** * The session manager: [MqttSessionManager] of [protocol/mqtt/src/mqtt_session.cpp].

    The state holds the heap of session objects, the process-wide id counter, the
    registered sessions and the client-id index. Erasing a session from the registry
    drops the manager's reference; the object stays while its coroutine owns it, so
    the heap keeps it. A pointer to an object that does not exist faults. *)
Module MqttSessionManager.

Record t : Type := mk {
  objects : gmap Z MqttSession.t;
  global_session_id : Z;
  sessions_ : list (Z * Z);
  client_id_index_ : list (bytes * Z)
}.

Definition empty : t := mk ∅ 1 [] [].

Definition set_objects (o : gmap Z MqttSession.t) (m : t) : t :=
  mk o (global_session_id m) (sessions_ m) (client_id_index_ m).
Definition set_sessions (s : list (Z * Z)) (m : t) : t :=
  mk (objects m) (global_session_id m) s (client_id_index_ m).
Definition set_index (i : list (bytes * Z)) (m : t) : t :=
  mk (objects m) (global_session_id m) (sessions_ m) i.

(** [*loc], and an assignment through it. *)
Definition deref (loc : Z) (m : t) : outcome MqttSession.t :=
  match objects m !! loc with Some s => Ok s | None => Fault end.
Definition assign (loc : Z) (s : MqttSession.t) (m : t) : t := set_objects (<[loc := s]> (objects m)) m.

Definition create_session_owner (now : Z) (conn : option Z) (m : t) : Z * t :=
  let sid := global_session_id m in
  (sid, mk (<[sid := MqttSession.create sid now conn]> (objects m)) (u64 (sid + 1))
          (map_insert sid sid (sessions_ m)) (client_id_index_ m)).

Definition bind_client_id (loc : Z) (client_id : bytes) (m : t) : outcome t :=
  session ← deref loc m;
  let old_client_id := MqttSession.client_id_ session in
  let m := if negb (bool_decide (old_client_id = [])) && negb (bool_decide (old_client_id = client_id))
           then set_index (map_erase old_client_id (client_id_index_ m)) m else m in
  let m := assign loc (MqttSession.set_client_id client_id session) m in
  Ok (if negb (bool_decide (client_id = []))
      then set_index (map_insert client_id (MqttSession.session_id_ session) (client_id_index_ m)) m else m).

Definition remove_session (sid : Z) (m : t) : outcome t :=
  match map_find sid (sessions_ m) with
  | None => Ok m
  | Some loc =>
      session ← deref loc m;
      let client_id := MqttSession.client_id_ session in
      let m := if negb (bool_decide (client_id = [])) then
                 match map_find client_id (client_id_index_ m) with
                 | Some owner =>
                     if owner =? sid then set_index (map_erase client_id (client_id_index_ m)) m else m
                 | None => m
                 end
               else m in
      Ok (set_sessions (map_erase sid (sessions_ m)) m)
  end.

(** The scan of [find_by_client_id], which also repairs the index. *)
Fixpoint scan_client_id (client_id : bytes) (pairs : list (Z * Z)) (m : t) : outcome (option Z * t) :=
  match pairs with
  | [] => Ok (None, m)
  | (sid, loc) :: pairs =>
      session ← deref loc m;
      if bool_decide (MqttSession.client_id_ session = client_id)
      then Ok (Some loc, set_index (map_insert client_id sid (client_id_index_ m)) m)
      else scan_client_id client_id pairs m
  end.

(** The lookup through the index. *)
Definition indexed_client_id (client_id : bytes) (m : t) : outcome (option Z) :=
  match map_find client_id (client_id_index_ m) with
  | None => Ok None
  | Some sid =>
      match map_find sid (sessions_ m) with
      | None => Ok None
      | Some loc =>
          session ← deref loc m;
          Ok (if bool_decide (MqttSession.client_id_ session = client_id) then Some loc else None)
      end
  end.

Definition find_by_client_id (client_id : bytes) (m : t) : outcome (option Z * t) :=
  hit ← indexed_client_id client_id m;
  match hit with
  | Some loc => Ok (Some loc, m)
  | None => scan_client_id client_id (sessions_ m) m
  end.

Fixpoint scan_connection (alive : gset Z) (conn : Z) (pairs : list (Z * Z)) (m : t) : outcome (option Z) :=
  match pairs with
  | [] => Ok None
  | (_, loc) :: pairs =>
      session ← deref loc m;
      if bool_decide (MqttSession.connection alive session = Some conn) then Ok (Some loc)
      else scan_connection alive conn pairs m
  end.
Definition find_by_connection (alive : gset Z) (conn : Z) (m : t) : outcome (option Z) :=
  scan_connection alive conn (sessions_ m) m.

Definition all_sessions (m : t) : list Z := map snd (sessions_ m).

Definition session_expired (now : Z) (s : MqttSession.t) : bool :=
  state_eqb (MqttSession.state_ s) disconnected
  && (0 <? MqttSession.session_expiry_interval_ s)
  && (MqttSession.last_activity_ s + MqttSession.session_expiry_interval_ s * 1000000000 <=? now).

(** The loop of [cleanup_expired]; [it] is the rest of the iteration. *)
Fixpoint cleanup_loop (now : Z) (it : list (Z * Z)) (m : t) : outcome t :=
  match it with
  | [] => Ok m
  | (sid, loc) :: it =>
      session ← deref loc m;
      if session_expired now session then
        let client_id := MqttSession.client_id_ session in
        let m := if negb (bool_decide (client_id = []))
                 then set_index (map_erase client_id (client_id_index_ m)) m else m in
        cleanup_loop now it (set_sessions (map_erase sid (sessions_ m)) m)
      else cleanup_loop now it m
  end.
Definition cleanup_expired (now : Z) (m : t) : outcome t := cleanup_loop now (sessions_ m) m.

(** * Invariant *)
Record sessions_ok (m : t) : Prop := {
  so_sorted : map_sorted (sessions_ m);
  so_own sid loc : (sid, loc) ∈ sessions_ m -> loc = sid /\ is_Some (objects m !! loc);
  so_ids loc s : objects m !! loc = Some s -> MqttSession.session_id_ s = loc /\ loc < global_session_id m
}.

(** A session the manager knows. *)
Definition registered (m : t) (loc : Z) (s : MqttSession.t) : Prop :=
  map_find loc (sessions_ m) = Some loc /\ objects m !! loc = Some s.

(** * Lemmas *)
Lemma deref_ok loc s m : objects m !! loc = Some s -> deref loc m = Ok s.
Proof. unfold deref. by intros ->. Qed.

Lemma deref_inv loc s m : deref loc m = Ok s -> objects m !! loc = Some s.
Proof. unfold deref. destruct (objects m !! loc); congruence. Qed.

Lemma sessions_ok_empty : sessions_ok empty.
Proof. constructor; simpl; [done|by intros ?? []%not_elem_of_nil|by intros ?? ?%lookup_empty_Some]. Qed.

Lemma sessions_ok_index i m : sessions_ok m -> sessions_ok (set_index i m).
Proof. by intros []. Qed.

Lemma sessions_ok_assign loc s m : sessions_ok m -> is_Some (objects m !! loc) ->
  MqttSession.session_id_ s = loc -> sessions_ok (assign loc s m).
Proof.
  intros [Hs Ho Hi] [s0 Hl] Hid. constructor; simpl; [done| |].
  - intros sid l Hin. destruct (Ho sid l Hin) as [-> Hsome]. split; [done|].
    rewrite lookup_insert_is_Some. destruct (decide (loc = sid)); auto.
  - intros l s' [[-> ->]|[? ?]]%lookup_insert_Some; [|auto].
    split; [done|]. apply Hi in Hl. lia.
Qed.

Lemma sessions_ok_erase sid m : sessions_ok m -> sessions_ok (set_sessions (map_erase sid (sessions_ m)) m).
Proof.
  intros [Hs Ho Hi]. constructor; simpl; auto with s2p.
  intros s l ?%map_erase_elem. auto.
Qed.

Lemma sessions_ok_create now conn m :
  sessions_ok m -> 0 < global_session_id m < 2 ^ 64 - 1 -> sessions_ok (create_session_owner now conn m).2.
Proof.
  intros [Hs Ho Hi] Hg. constructor; simpl; auto with s2p.
  - intros s l [[= -> ->]|Hin]%map_insert_elem.
    + split; [done|]. rewrite lookup_insert_eq. eauto.
    + destruct (Ho s l Hin) as [-> ?]. split; [done|]. rewrite lookup_insert_is_Some.
      destruct (decide (global_session_id m = s)); auto.
  - intros l s [[<- <-]|[? ?]]%lookup_insert_Some; unfold u64; rewrite Z.mod_small by lia.
    + simpl. lia.
    + apply Hi in H0 as [-> ?]. lia.
Qed.

Lemma registered_elem m sid loc : sessions_ok m -> (sid, loc) ∈ sessions_ m ->
  exists s, loc = sid /\ registered m loc s.
Proof.
  intros Hok Hin. destruct (so_own m Hok sid loc Hin) as [-> [s Hs]].
  exists s. split; [done|]. split; [|done]. by apply map_sorted_find; [apply Hok|].
Qed.

Lemma registered_in m loc s : registered m loc s -> (loc, loc) ∈ sessions_ m.
Proof. intros [?%map_find_elem _]. done. Qed.

Lemma scan_client_id_spec cid pairs m :
  sessions_ok m -> (forall kv, kv ∈ pairs -> kv ∈ sessions_ m) ->
  exists r i, scan_client_id cid pairs m = Ok (r, set_index i m)
    /\ match r with
       | Some loc => exists s, registered m loc s /\ MqttSession.client_id_ s = cid
       | None => forall loc s, (loc, loc) ∈ pairs -> registered m loc s -> MqttSession.client_id_ s <> cid
       end.
Proof.
  intros Hok. induction pairs as [|[sid loc] pairs IH]; intros Hin; cbn [scan_client_id].
  - exists None, (client_id_index_ m). split; [by destruct m|]. intros ?? []%not_elem_of_nil.
  - destruct (registered_elem m sid loc) as (s & -> & Hreg); [done|apply Hin; left|].
    rewrite (deref_ok sid s) by apply Hreg. mstep. case_bool_decide as Hc.
    + exists (Some sid). eexists. split; [done|]. eauto.
    + destruct IH as (r & i & -> & Hr); [by intros; apply Hin; right|].
      exists r, i. split; [done|]. destruct r; [done|].
      intros l s' [[= ->]|Hl]%elem_of_cons Hs'; [|by apply (Hr l)].
      destruct Hreg as [_ H1], Hs' as [_ H2]. congruence.
Qed.

Lemma indexed_client_id_spec cid m : sessions_ok m ->
  exists r, indexed_client_id cid m = Ok r
    /\ match r with Some loc => exists s, registered m loc s /\ MqttSession.client_id_ s = cid | None => True end.
Proof.
  intros Hok. unfold indexed_client_id.
  destruct (map_find cid _) as [sid|]; [|by exists None].
  destruct (map_find sid (sessions_ m)) as [loc|] eqn:E; [|by exists None].
  apply map_find_elem in E. destruct (registered_elem m sid loc Hok E) as (s & -> & Hreg).
  rewrite (deref_ok sid s) by apply Hreg. mstep. eexists. split; [done|].
  case_bool_decide; [eauto|done].
Qed.

(** Whatever the index holds, the lookup decides whether a registered session has the
    client id, and changes nothing but the index. *)
Lemma find_by_client_id_total cid m : sessions_ok m ->
  exists r i, find_by_client_id cid m = Ok (r, set_index i m)
    /\ match r with
       | Some loc => exists s, registered m loc s /\ MqttSession.client_id_ s = cid
       | None => forall loc s, registered m loc s -> MqttSession.client_id_ s <> cid
       end.
Proof.
  intros Hok. unfold find_by_client_id.
  destruct (indexed_client_id_spec cid m Hok) as ([loc|] & -> & Hr); mstep.
  - exists (Some loc), (client_id_index_ m). split; [by destruct m|done].
  - destruct (scan_client_id_spec cid (sessions_ m) m Hok) as (r & i & -> & Hs); [done|].
    exists r, i. split; [done|]. destruct r; [done|]. intros l s Hreg. apply (Hs l); [|done].
    by eapply registered_in.
Qed.

Lemma bind_client_id_ok loc s cid m : sessions_ok m -> objects m !! loc = Some s ->
  exists m', bind_client_id loc cid m = Ok m' /\ sessions_ok m'
    /\ sessions_ m' = sessions_ m /\ global_session_id m' = global_session_id m
    /\ objects m' = <[loc := MqttSession.set_client_id cid s]> (objects m)
    /\ (cid <> [] -> map_find cid (client_id_index_ m') = Some loc).
Proof.
  intros Hok Hl. unfold bind_client_id. rewrite (deref_ok loc s) by done. mstep.
  eexists. split; [done|].
  pose proof (so_ids m Hok loc s Hl) as [Hid _].
  assert (forall i, sessions_ok (assign loc (MqttSession.set_client_id cid s) (set_index i m))) as Ha.
  { intros i. apply sessions_ok_assign; [by apply sessions_ok_index|simpl; eauto|done]. }
  assert (sessions_ok (assign loc (MqttSession.set_client_id cid s) m)) as Ha'.
  { apply sessions_ok_assign; [done|eauto|done]. }
  destruct (negb (bool_decide (MqttSession.client_id_ s = [])) && _) eqn:E1;
    destruct (negb (bool_decide (cid = []))) eqn:E2; split_and!; try done;
    try (by apply sessions_ok_index); try (intros _; simpl; rewrite map_find_insert_eq; congruence).
  all: intros Hne; apply negb_false_iff, bool_decide_eq_true in E2; done.
Qed.

Lemma remove_session_ok sid m : sessions_ok m ->
  exists m', remove_session sid m = Ok m' /\ sessions_ok m'
    /\ objects m' = objects m /\ global_session_id m' = global_session_id m
    /\ sessions_ m' = map_erase sid (sessions_ m).
Proof.
  intros Hok. unfold remove_session. destruct (map_find sid (sessions_ m)) as [loc|] eqn:E.
  - apply map_find_elem in E. destruct (registered_elem m sid loc Hok E) as (s & -> & Hreg).
    rewrite (deref_ok sid s) by apply Hreg. mstep. eexists. split; [done|].
    assert (Hset : forall i, sessions_ok (set_sessions (map_erase sid (sessions_ m)) (set_index i m))).
    { intros i. by apply (sessions_ok_erase sid (set_index i m)), sessions_ok_index. }
    repeat case_match; split_and!; try done; apply Hset || by apply sessions_ok_erase.
  - exists m. split_and!; try done. clear Hok. revert E.
    induction (sessions_ m) as [|[k v] l IH]; [done|]. simpl.
    destruct (sid ?= k); [done| |]; intros ?; f_equal; auto.
Qed.

Lemma all_sessions_in m loc : sessions_ok m -> loc ∈ all_sessions m <-> exists s, registered m loc s.
Proof.
  intros Hok. unfold all_sessions. rewrite elem_of_map. split.
  - intros ([sid l] & -> & Hin). destruct (registered_elem m sid l Hok Hin) as (s & -> & ?). eauto.
  - intros (s & Hreg). exists (loc, loc). split; [done|]. by eapply registered_in.
Qed.

(** Whether the object a registry entry points to has expired. *)
Definition entry_expired (now : Z) (m : t) (kv : Z * Z) : bool :=
  match objects m !! kv.2 with Some s => session_expired now s | None => false end.

Lemma cleanup_loop_ok now it m : sessions_ok m -> (forall kv, kv ∈ it -> is_Some (objects m !! kv.2)) ->
  exists m', cleanup_loop now it m = Ok m' /\ sessions_ok m' /\ objects m' = objects m
    /\ forall loc, map_find loc (sessions_ m') =
        if existsb (fun kv => (kv.1 =? loc) && entry_expired now m kv) it then None else map_find loc (sessions_ m).
Proof.
  revert m; induction it as [|[sid loc] it IH]; intros m Hok Hin; cbn [cleanup_loop]; [eauto|].
  destruct (Hin (sid, loc)) as [s Hs]; [left|]. simpl in Hs.
  rewrite (deref_ok loc s) by done. mstep. cbn [existsb]. unfold entry_expired at 1. cbn [fst snd]. rewrite Hs.
  destruct (session_expired now s).
  - set (m1 := if negb (bool_decide (MqttSession.client_id_ s = [])) then _ else m).
    assert (sessions_ok m1 /\ objects m1 = objects m /\ sessions_ m1 = sessions_ m) as (Hok1 & Ho1 & Hs1).
    { subst m1. case_if; split_and!; try done. by apply sessions_ok_index. }
    destruct (IH (set_sessions (map_erase sid (sessions_ m1)) m1)) as (m' & -> & Hok' & Ho & Hf).
    + by apply sessions_ok_erase.
    + simpl. rewrite Ho1. intros; apply Hin. by right.
    + exists m'. split_and!; try done; [by rewrite Ho|]. intros l. rewrite Hf.
      unfold entry_expired. simpl. rewrite Ho1, Hs1.
      destruct (sid =? l) eqn:El; simpl.
      * assert (sid = l) as -> by lia. rewrite map_find_erase_eq. by case_if.
      * rewrite map_find_erase_ne by lia. done.
  - destruct (IH m Hok) as (m' & -> & Hok' & Ho & Hf); [intros; apply Hin; by right|].
    exists m'. split_and!; try done. intros l. rewrite Hf. by rewrite andb_false_r.
Qed.

(** Cleanup unregisters exactly the sessions that are offline past their expiry. *)
Lemma cleanup_expired_ok now m : sessions_ok m ->
  exists m', cleanup_expired now m = Ok m' /\ sessions_ok m'
    /\ forall loc s, registered m' loc s <-> registered m loc s /\ session_expired now s = false.
Proof.
  intros Hok. destruct (cleanup_loop_ok now (sessions_ m) m Hok) as (m' & E & Hok' & Ho & Hf).
  { intros [sid loc] Hin. by apply (so_own m Hok sid loc). }
  exists m'. split_and!; try done. intros loc s. unfold registered. rewrite Hf, Ho.
  destruct (existsb _ (sessions_ m)) eqn:Ex.
  - apply existsb_exists in Ex as ([sid l] & Hin & He). simpl in He. apply list_elem_of_In in Hin.
    destruct (registered_elem m sid l Hok Hin) as (s' & -> & Hreg).
    apply andb_prop in He as [Hsid He]. assert (sid = loc) as -> by lia.
    unfold entry_expired in He. destruct Hreg as [H1 H2]. simpl in He. rewrite H2 in He.
    split; [by intros []|]. intros [[_ Hs] Hn]. congruence.
  - split; [|tauto]. intros [Hm Hs]. split; [done|].
    destruct (session_expired now s) eqn:E'; [|done].
    assert (existsb (fun kv => (kv.1 =? loc) && entry_expired now m kv) (sessions_ m) = true) as Ht; [|congruence].
    apply existsb_exists. exists (loc, loc). split; [by apply list_elem_of_In, map_find_elem|].
    unfold entry_expired. simpl. rewrite Hs. lia.
Qed.

End MqttSessionManager.
