(* ===== verification/Json.v ===== *)
(** JSON documents, as the persistence code sees them through [nlohmann::json].

    The library is not part of the repository. A document is one of the library's
    documented value kinds; an object is a [std::map] from names to documents. What
    the code asks of the library is the class [JsonLibrary]: [dump] (which throws on a
    string that is not UTF-8), the parser behind [operator>>] (which throws on text
    that is no JSON) and the conversion of a number to an integer type (which throws on
    a document that is not a number). [JsonLaws] is what its documentation promises of
    them: a dumped document parses to itself, up to the kind of an integer that is not
    negative, which the parser reads as unsigned; an integer converts to its value. *)
From Stdlib Require Import SpecFloat.
From stdpp Require Import countable.
From S2P Require Import Prelude Containers.
Inductive json : Type :=
| JNull
| JBoolean (b : bool)
| JInteger (z : Z)
| JUnsigned (z : Z)
| JFloat (f : spec_float)
| JString (s : bytes)
| JArray (elements : list json)
| JObject (members : list (bytes * json)).

Definition is_object (j : json) : bool := match j with JObject _ => true | _ => false end.
Definition is_array (j : json) : bool := match j with JArray _ => true | _ => false end.
Definition is_string (j : json) : bool := match j with JString _ => true | _ => false end.
Definition is_boolean (j : json) : bool := match j with JBoolean _ => true | _ => false end.
Definition is_number_unsigned (j : json) : bool := match j with JUnsigned _ => true | _ => false end.
Definition is_number_integer (j : json) : bool :=
  match j with JInteger _ | JUnsigned _ => true | _ => false end.

(** [j.contains(key)] with [j[key]] *)
Definition member (key : bytes) (j : json) : option json :=
  match j with JObject members => map_find key members | _ => None end.

(** [if (item.contains(key) && item[key].is_string()) ... item[key].get<std::string>()],
    and the like. *)
Definition string_member (key : bytes) (j : json) : option bytes :=
  match member key j with Some (JString s) => Some s | _ => None end.
Definition boolean_member (key : bytes) (j : json) : option bool :=
  match member key j with Some (JBoolean b) => Some b | _ => None end.
Definition unsigned_member (key : bytes) (j : json) : option Z :=
  match member key j with Some (JUnsigned z) => Some z | _ => None end.
Definition integer_member (key : bytes) (j : json) : option Z :=
  match member key j with Some (JInteger z) | Some (JUnsigned z) => Some z | _ => None end.
Definition array_member (key : bytes) (j : json) : option (list json) :=
  match member key j with Some (JArray l) => Some l | _ => None end.

(** [item[key] = value], and the same behind an [if (opt.has_value())]. *)
Definition put (key : bytes) (value : json) (members : list (bytes * json)) : list (bytes * json) :=
  map_insert key value members.
Definition put_opt {A} (key : bytes) (f : A -> json) (value : option A) (members : list (bytes * json))
  : list (bytes * json) :=
  match value with Some a => put key (f a) members | None => members end.

(** [json(std::vector<uint8_t>)] *)
Definition byte_array (data : bytes) : json := JArray (map JUnsigned data).

(** * The library *)
Class JsonLibrary := {
  dump : json -> option bytes;
  parse : bytes -> option json;
  get_integer : json -> option Z
}.

(** The document the parser makes of a dumped one. *)
Fixpoint reread (j : json) : json :=
  match j with
  | JInteger z => if 0 <=? z then JUnsigned z else JInteger z
  | JArray l => JArray (map reread l)
  | JObject m => JObject (map (fun kv => (kv.1, reread kv.2)) m)
  | j => j
  end.

(** The names of an object are in the order of the [std::map]. *)
Fixpoint ascending (keys : list bytes) : bool :=
  match keys with
  | [] => true
  | k :: keys => forallb (fun k' => bool_decide (kcmp k k' = Lt)) keys && ascending keys
  end.

(** Documents the laws speak of: without floating-point numbers, integers in the range
    of their type, objects that a [std::map] can be. *)
Fixpoint exact (j : json) : bool :=
  match j with
  | JInteger z => (-9223372036854775808 <=? z) && (z <? 9223372036854775808)
  | JUnsigned z => (0 <=? z) && (z <? 18446744073709551616)
  | JFloat _ => false
  | JArray l => forallb exact l
  | JObject m => ascending (map fst m) && forallb (fun kv => exact kv.2) m
  | _ => true
  end.

Class JsonLaws `{JsonLibrary} : Prop := {
  parse_dump j text : exact j = true -> dump j = Some text -> parse text = Some (reread j);
  get_integer_unsigned z : get_integer (JUnsigned z) = Some z;
  get_integer_integer z : get_integer (JInteger z) = Some z
}.

(** * Lemmas *)
Lemma ascending_sorted {V} (m : list (bytes * V)) : map_sorted m -> ascending (map fst m) = true.
Proof.
  induction m as [|[k v] m IH]; [done|]. intros [Ha Hs]. simpl. rewrite IH by done. rewrite andb_true_r.
  apply forallb_forall. intros k' (kv & <- & Hin)%in_map_iff. apply list_elem_of_In in Hin.
  unfold keys_above in Ha. rewrite Forall_forall in Ha. apply bool_decide_eq_true. by apply Ha.
Qed.

Lemma put_sorted key v m : map_sorted m -> map_sorted (put key v m).
Proof. apply map_sorted_insert. Qed.
Lemma put_opt_sorted {A} key (f : A -> json) v m : map_sorted m -> map_sorted (put_opt key f v m).
Proof. destruct v; [apply map_sorted_insert|done]. Qed.

(** The members of an object all satisfy [exact]. *)
Definition exact_members (m : list (bytes * json)) : Prop :=
  map_sorted m /\ forallb (fun kv => exact kv.2) m = true.

Lemma exact_object m : exact_members m -> exact (JObject m) = true.
Proof. intros [Hs Hf]. cbn [exact]. by rewrite (ascending_sorted m Hs), Hf. Qed.

Lemma exact_nil : exact_members [].
Proof. done. Qed.

Lemma exact_put key v m : exact v = true -> exact_members m -> exact_members (put key v m).
Proof.
  intros Hv [Hs Hf]. split; [by apply put_sorted|].
  apply forallb_forall. intros kv Hin%list_elem_of_In. apply map_insert_elem in Hin as [->|Hin]; [done|].
  rewrite forallb_forall in Hf. by apply Hf, list_elem_of_In.
Qed.

Lemma exact_put_opt {A} key (f : A -> json) v m :
  (forall a, v = Some a -> exact (f a) = true) -> exact_members m -> exact_members (put_opt key f v m).
Proof. destruct v; [|done]. intros Hv. by apply exact_put, Hv. Qed.

Lemma exact_unsigned z : 0 <= z < 18446744073709551616 -> exact (JUnsigned z) = true.
Proof. intros. cbn [exact]. lia. Qed.

Lemma exact_byte_array data : Forall is_u8 data -> exact (byte_array data) = true.
Proof.
  intros Hd. cbn [exact byte_array]. apply forallb_forall. intros j (b & <- & Hb)%in_map_iff.
  rewrite Forall_forall in Hd. apply list_elem_of_In, Hd in Hb. unfold is_u8 in Hb. apply exact_unsigned. lia.
Qed.
#[export] Hint Resolve exact_nil exact_put exact_put_opt exact_unsigned exact_byte_array exact_object : s2p.

(** Looking a member up in the document that is read back. *)
Lemma member_reread key m :
  member key (reread (JObject m)) = reread <$> map_find key m.
Proof.
  cbn [member reread]. induction m as [|[k v] m IH]; [done|]. cbn [map map_find fst snd].
  by destruct (kcmp key k).
Qed.

Lemma find_put key key' v m :
  map_find key (put key' v m) = if bool_decide (key' = key) then Some v else map_find key m.
Proof.
  unfold put. case_bool_decide as E; [by subst; rewrite map_find_insert_eq|by rewrite map_find_insert_ne].
Qed.
Lemma find_put_opt {A} key key' (f : A -> json) v m :
  map_find key (put_opt key' f v m)
  = if bool_decide (key' = key) then match v with Some a => Some (f a) | None => map_find key m end
    else map_find key m.
Proof. destruct v; cbn [put_opt]; [apply find_put|by case_bool_decide]. Qed.

(** * A JSON library that satisfies [JsonLaws]: documents are written in binary digits of
    a code number of their tree. It shows that the laws the persistence theorems
    assume can hold together. *)
(** Induction over documents, with the hypothesis for every element and member. *)
Section Induction.
Variable P : json -> Prop.
Hypothesis (Hnull : P JNull) (Hbool : forall b, P (JBoolean b)) (Hint : forall z, P (JInteger z)).
Hypothesis (Huns : forall z, P (JUnsigned z)) (Hfloat : forall f, P (JFloat f)) (Hstr : forall s, P (JString s)).
Hypothesis (Harr : forall l, Forall P l -> P (JArray l)).
Hypothesis (Hobj : forall m, Forall (fun kv => P kv.2) m -> P (JObject m)).

Fixpoint json_induction (j : json) : P j :=
  match j with
  | JNull => Hnull | JBoolean b => Hbool b | JInteger z => Hint z | JUnsigned z => Huns z
  | JFloat f => Hfloat f | JString s => Hstr s
  | JArray l =>
      Harr l ((fix go l : Forall P l :=
        match l with [] => @List.Forall_nil _ P | j :: l => @List.Forall_cons _ P j l (json_induction j) (go l) end) l)
  | JObject m =>
      Hobj m ((fix go m : Forall (fun kv => P kv.2) m :=
        match m with [] => @List.Forall_nil _ _ | kv :: m => @List.Forall_cons _ (fun kv => P kv.2) kv m (json_induction kv.2) (go m) end) m)
  end.
End Induction.

Definition leaf (z : Z) (s : bytes) : gen_tree (Z * bytes) := GenLeaf (z, s).

Fixpoint to_tree (j : json) : gen_tree (Z * bytes) :=
  match j with
  | JNull | JFloat _ => GenNode 0 []
  | JBoolean b => GenNode 1 [leaf (if b then 1 else 0) []]
  | JInteger z => GenNode 2 [leaf z []]
  | JUnsigned z => GenNode 3 [leaf z []]
  | JString s => GenNode 4 [leaf 0 s]
  | JArray l => GenNode 5 (map to_tree l)
  | JObject m => GenNode 6 (map (fun kv => GenNode 7 [leaf 0 kv.1; to_tree kv.2]) m)
  end.

Fixpoint of_tree (t : gen_tree (Z * bytes)) : json :=
  match t with
  | GenNode 1 [GenLeaf (z, _)] => JBoolean (z =? 1)
  | GenNode 2 [GenLeaf (z, _)] => JInteger z
  | GenNode 3 [GenLeaf (z, _)] => JUnsigned z
  | GenNode 4 [GenLeaf (_, s)] => JString s
  | GenNode 5 l => JArray (map of_tree l)
  | GenNode 6 l =>
      JObject (map (fun t => match t with
                             | GenNode _ [GenLeaf (_, k); v] => (k, of_tree v)
                             | _ => ([], JNull)
                             end) l)
  | _ => JNull
  end.

Lemma of_to_tree j : exact j = true -> of_tree (to_tree j) = j.
Proof.
  induction j as [|b| | | | |l IH|m IH] using json_induction; intros Hj; try done; [by destruct b| |].
  - cbn [to_tree of_tree]. f_equal. rewrite map_map. cbn [exact] in Hj. rewrite forallb_forall in Hj.
    rewrite <- (map_id l) at 2. apply map_ext_in. intros j Hin.
    rewrite List.Forall_forall in IH. auto.
  - cbn [to_tree of_tree]. f_equal. rewrite map_map. cbn [exact] in Hj. apply andb_prop in Hj as [_ Hj].
    rewrite forallb_forall in Hj. rewrite <- (map_id m) at 2. apply map_ext_in. intros [k j] Hin. cbn [fst snd leaf].
    rewrite List.Forall_forall in IH. f_equal. exact (IH _ Hin (Hj _ Hin)).
Qed.

(** A positive number in binary digits, the lowest first; one is the empty text. *)
Fixpoint digits (p : positive) : bytes :=
  match p with xH => [] | xO p => 48 :: digits p | xI p => 49 :: digits p end.
Fixpoint number (s : bytes) : positive :=
  match s with [] => xH | c :: s => if c =? 48 then xO (number s) else xI (number s) end.

Lemma number_digits p : number (digits p) = p.
Proof. induction p; simpl; congruence. Qed.

#[export] Instance tree_json : JsonLibrary := {|
  dump j := Some (123 :: digits (encode (to_tree j)));
  parse text := match text with
                | 123 :: text => (reread ∘ of_tree) <$> decode (number text)
                | _ => None
                end;
  get_integer j := match j with JInteger z | JUnsigned z => Some z | _ => None end
|}.

#[export] Instance tree_json_laws : JsonLaws.
Proof.
  constructor; [|done..]. intros j text Hj [= <-]. cbn [parse tree_json].
  rewrite number_digits, decode_encode. cbn [fmap option_fmap option_map compose]. by rewrite of_to_tree.
Qed.
