(* ===== verification/MqttPersistence.v ===== *)
(** The files of the broker's persistent state: [save_to_file] and [load_from_file] of
    [MqttRetainedStore] and [MqttSessionManager] (protocol/mqtt/src).

    A file system maps a path to the text of the file; [can_open] says whether a path
    can be opened for writing, which truncates the file. The operating system is taken
    to complete a write it has started. A call reads the steady clock several times;
    the readings of one call are one argument. Seconds and nanoseconds are not bounded:
    the code's conversion of an elapsed time read from a file may overflow. *)
From S2P Require Import Prelude Containers Endian Strings MqttProtocol MqttRetainedStore.
From S2P Require Import MqttSession Json.

(** [std::ofstream] and [std::ifstream]; a call returns, or an exception leaves it. *)
Abbreviation files := (gmap bytes bytes).
Inductive io_result : Type := Returned (result : bool) | Thrown.

Section Persistence.
Context `{JsonLibrary}.

(** [std::ofstream out(path, trunc); ... out << root.dump(2); return out.good();] *)
Definition write_document (can_open : bytes -> bool) (path : bytes) (root : json) (disk : files)
  : io_result * files :=
  if can_open path then
    match dump root with
    | Some text => (Returned true, <[path := text]> disk)
    | None => (Thrown, <[path := []]> disk)
    end
  else (Returned false, disk).

(** [std::ifstream in(path); ... in >> root], with the [return false] of both failures. *)
Definition read_document (path : bytes) (disk : files) : option json := text ← disk !! path; parse text.

Definition user_property_json (up : UserProperty) : json :=
  JObject (put (str "value") (JString (up_value up)) (put (str "key") (JString (up_key up)) [])).
Definition user_properties_json (ups : list UserProperty) : json := JArray (map user_property_json ups).

(** [if (!ups.empty())] *)
Definition nonempty {A} (l : list A) : option (list A) := match l with [] => None | _ :: _ => Some l end.

(** The loop over ["user_properties"] of both loaders. *)
Fixpoint load_user_properties (elements : list json) : list UserProperty :=
  match elements with
  | [] => []
  | up :: elements =>
      match string_member (str "key") up, string_member (str "value") up with
      | Some key, Some value => mkUserProperty key value :: load_user_properties elements
      | _, _ => load_user_properties elements
      end
  end.
Definition user_properties_member (item : json) : list UserProperty :=
  match array_member (str "user_properties") item with
  | Some elements => load_user_properties elements
  | None => []
  end.

(** [qos_u8 <= 2 ? static_cast<QoS>(qos_u8) : QoS::AT_MOST_ONCE] *)
Definition qos_of_u8 (qos_u8 : Z) : QoS := if qos_u8 <=? 2 then qos_u8 else AT_MOST_ONCE.

(** * Retained messages *)
Definition message_json (now : Z) (msg : MqttRetainedMessage) : json :=
  let item := put (str "topic") (JString (rm_topic msg)) [] in
  let item := put (str "payload_hex") (JString (StringUtil.to_hex (rm_payload msg))) item in
  let item := put (str "qos") (JUnsigned (rm_qos msg)) item in
  let item := put_opt (str "message_expiry_interval") JUnsigned (rm_message_expiry_interval msg) item in
  let item := put_opt (str "payload_format_indicator") JUnsigned (rm_payload_format_indicator msg) item in
  let item := put_opt (str "content_type") JString (rm_content_type msg) item in
  let item := put_opt (str "user_properties") user_properties_json (nonempty (rm_user_properties msg)) item in
  let item := put_opt (str "stored_elapsed_seconds")
                (fun _ => JInteger (MqttRetainedStore.seconds_between (rm_stored_time msg) now))
                (rm_message_expiry_interval msg) item in
  JObject item.

Definition retained_document (now : Z) (messages : MqttRetainedStore.t) : json :=
  JArray (map (fun entry => message_json now entry.2) messages).

Definition save_retained (can_open : bytes -> bool) (path : bytes) (now : Z) (messages : MqttRetainedStore.t)
    (disk : files) : io_result * files :=
  write_document can_open path (retained_document now messages) disk.

(** [msg.stored_time] *)
Definition load_stored_time (now : Z) (expiry : option Z) (item : json) : Z :=
  match expiry, integer_member (str "stored_elapsed_seconds") item with
  | Some _, Some elapsed => now - Z.max 0 (signed 64 elapsed) * 1000000000
  | _, _ => now
  end.

(** One round of the loop over the document; [None] when an exception leaves it. *)
Definition load_message (now : Z) (item : json) (loaded : MqttRetainedStore.t) : option MqttRetainedStore.t :=
  if is_object item then
    match string_member (str "topic") item, string_member (str "payload_hex") item with
    | Some topic, Some hex =>
        qos ← match member (str "qos") item with Some value => get_integer value | None => Some 0 end;
        let expiry := u32 <$> unsigned_member (str "message_expiry_interval") item in
        let msg := mkRetained topic (StringUtil.from_hex hex) (qos_of_u8 (u8 qos)) (load_stored_time now expiry item)
                     expiry (u8 <$> unsigned_member (str "payload_format_indicator") item)
                     (string_member (str "content_type") item) (user_properties_member item) in
        Some (if negb (bool_decide (rm_topic msg = [])) && negb (bool_decide (rm_payload msg = []))
              then map_insert (rm_topic msg) msg loaded else loaded)
    | _, _ => Some loaded
    end
  else Some loaded.

Fixpoint load_messages (now : Z) (items : list json) (loaded : MqttRetainedStore.t) : option MqttRetainedStore.t :=
  match items with
  | [] => Some loaded
  | item :: items => loaded ← load_message now item loaded; load_messages now items loaded
  end.

Definition load_retained (path : bytes) (now : Z) (disk : files) (messages : MqttRetainedStore.t)
  : io_result * MqttRetainedStore.t :=
  match read_document path disk with
  | Some (JArray items) =>
      match load_messages now items [] with
      | Some loaded => (Returned true, MqttRetainedStore.cleanup_expired now loaded)
      | None => (Thrown, messages)
      end
  | _ => (Returned false, messages)
  end.

(** * Sessions *)
Definition state_val (s : MqttSessionState) : Z :=
  match s with disconnected => 0 | connecting => 1 | connected => 2 | disconnecting => 3 end.
Definition state_of_int (st : Z) : MqttSessionState :=
  if st =? 0 then disconnected else if st =? 1 then connecting
  else if st =? 2 then connected else if st =? 3 then disconnecting else disconnected.

Definition subscription_json (sub : bytes * QoS) : json :=
  JObject (put (str "qos") (JUnsigned sub.2) (put (str "topic_filter") (JString sub.1) [])).

Definition will_json (will : MqttWillMessage) : json :=
  let jwill := put (str "topic") (JString (will_topic will)) [] in
  let jwill := put (str "payload") (byte_array (will_payload will)) jwill in
  let jwill := put (str "qos") (JUnsigned (will_qos will)) jwill in
  let jwill := put (str "retain") (JBoolean (will_retain will)) jwill in
  let jwill := put_opt (str "will_delay_interval") JUnsigned (will_will_delay_interval will) jwill in
  let jwill := put_opt (str "payload_format_indicator") JUnsigned (will_payload_format_indicator will) jwill in
  let jwill := put_opt (str "message_expiry_interval") JUnsigned (will_message_expiry_interval will) jwill in
  let jwill := put_opt (str "content_type") JString (will_content_type will) jwill in
  let jwill := put_opt (str "response_topic") JString (will_response_topic will) jwill in
  let jwill := put_opt (str "correlation_data") byte_array (will_correlation_data will) jwill in
  let jwill := put (str "user_properties") (user_properties_json (will_user_properties will)) jwill in
  JObject jwill.

Definition session_json (s : MqttSession.t) : json :=
  let item := put (str "session_id") (JUnsigned (MqttSession.session_id_ s)) [] in
  let item := put (str "client_id") (JString (MqttSession.client_id_ s)) item in
  let item := put (str "protocol_level") (JUnsigned (ProtocolLevel_val (MqttSession.protocol_level_ s))) item in
  let item := put (str "state") (JInteger (state_val (MqttSession.state_ s))) item in
  let item := put (str "keep_alive") (JUnsigned (MqttSession.keep_alive_ s)) item in
  let item := put (str "clean_start") (JBoolean (MqttSession.clean_start_ s)) item in
  let item := put (str "session_expiry_interval") (JUnsigned (MqttSession.session_expiry_interval_ s)) item in
  let item := put (str "receive_maximum") (JUnsigned (MqttSession.receive_maximum_ s)) item in
  let item := put (str "client_receive_maximum") (JUnsigned (MqttSession.client_receive_maximum_ s)) item in
  let item := put (str "maximum_packet_size") (JUnsigned (MqttSession.maximum_packet_size_ s)) item in
  let item := put (str "topic_alias_maximum") (JUnsigned (MqttSession.topic_alias_maximum_ s)) item in
  let item := put (str "subscriptions") (JArray (map subscription_json (MqttSession.subscriptions_ s))) item in
  let item := put_opt (str "will_message") will_json (MqttSession.will_message s) item in
  JObject item.

(** The items of the loop over [sessions_]. *)
Fixpoint session_items (pairs : list (Z * Z)) (m : MqttSessionManager.t) : outcome (list json) :=
  match pairs with
  | [] => Ok []
  | (_, loc) :: pairs =>
      session ← MqttSessionManager.deref loc m;
      items ← session_items pairs m;
      Ok (session_json session :: items)
  end.

Definition save_sessions (can_open : bytes -> bool) (path : bytes) (m : MqttSessionManager.t) (disk : files)
  : outcome (io_result * files) :=
  match path with
  | [] => Ok (Returned false, disk)
  | _ :: _ =>
      items ← session_items (MqttSessionManager.sessions_ m) m;
      Ok (write_document can_open path (JArray items) disk)
  end.

(** [j.get<std::vector<uint8_t>>()] of an array *)
Fixpoint get_bytes (elements : list json) : option bytes :=
  match elements with
  | [] => Some []
  | e :: elements => v ← get_integer e; rest ← get_bytes elements; Some (u8 v :: rest)
  end.
Definition bytes_member (key : bytes) (item : json) : option (option bytes) :=
  match array_member key item with
  | Some elements => Some <$> get_bytes elements
  | None => Some None
  end.

(** [will], as the file describes it; [None] when an exception leaves the loader. *)
Definition load_will (jwill : json) : option MqttWillMessage :=
  payload ← bytes_member (str "payload") jwill;
  correlation_data ← bytes_member (str "correlation_data") jwill;
  Some (mkWill (default [] (string_member (str "topic") jwill)) (default [] payload)
          (default AT_MOST_ONCE (qos_of_u8 ∘ u8 <$> unsigned_member (str "qos") jwill))
          (default false (boolean_member (str "retain") jwill))
          (u32 <$> unsigned_member (str "will_delay_interval") jwill)
          (u8 <$> unsigned_member (str "payload_format_indicator") jwill)
          (u32 <$> unsigned_member (str "message_expiry_interval") jwill)
          (string_member (str "content_type") jwill) (string_member (str "response_topic") jwill)
          correlation_data (user_properties_member jwill)).

Fixpoint load_subscriptions (subs : list json) (session : MqttSession.t) : MqttSession.t :=
  match subs with
  | [] => session
  | sub :: subs =>
      load_subscriptions subs
        match string_member (str "topic_filter") sub, unsigned_member (str "qos") sub with
        | Some filter, Some qos => MqttSession.add_subscription filter (qos_of_u8 (u8 qos)) session
        | _, _ => session
        end
  end.

(** [if (item.contains(key) && ...) session->set_...(item[key].get<...>());] *)
Definition with_member {A} (value : option A) (set : A -> MqttSession.t -> MqttSession.t) (session : MqttSession.t)
  : MqttSession.t :=
  match value with Some a => set a session | None => session end.

(** What one item makes of the new session. *)
Definition load_session (item : json) (session : MqttSession.t) : option MqttSession.t :=
  let session := with_member (string_member (str "client_id") item) MqttSession.set_client_id session in
  let session := with_member (unsigned_member (str "protocol_level") item)
    (fun lvl => MqttSession.set_protocol_level (if u8 lvl =? ProtocolLevel_val V5_0 then V5_0 else V3_1_1)) session in
  let session := MqttSession.set_state
    (match integer_member (str "state") item with
     | Some st => state_of_int (signed 32 st)
     | None => disconnected
     end) session in
  let session := with_member (unsigned_member (str "keep_alive") item)
    (fun v => MqttSession.set_keep_alive (u16 v)) session in
  let session := with_member (boolean_member (str "clean_start") item) MqttSession.set_clean_start session in
  let session := with_member (unsigned_member (str "session_expiry_interval") item)
    (fun v => MqttSession.set_session_expiry_interval (u32 v)) session in
  let session := with_member (unsigned_member (str "receive_maximum") item)
    (fun v => MqttSession.set_receive_maximum (u16 v)) session in
  let session := with_member (unsigned_member (str "client_receive_maximum") item)
    (fun v => MqttSession.set_client_receive_maximum (u16 v)) session in
  let session := with_member (unsigned_member (str "maximum_packet_size") item)
    (fun v => MqttSession.set_maximum_packet_size (u32 v)) session in
  let session := with_member (unsigned_member (str "topic_alias_maximum") item)
    (fun v => MqttSession.set_topic_alias_maximum (u16 v)) session in
  let session := with_member (array_member (str "subscriptions") item) load_subscriptions session in
  match member (str "will_message") item with
  | Some (JObject members) =>
      will ← load_will (JObject members);
      Some (if bool_decide (will_topic will = []) then session else MqttSession.set_will_message will session)
  | _ => Some session
  end.

(** The loop over the document. The session of an item that throws is destroyed, but
    its id is spent. *)
Fixpoint load_items (now : Z) (items : list json) (m : MqttSessionManager.t) : io_result * MqttSessionManager.t :=
  match items with
  | [] => (Returned true, m)
  | item :: items =>
      if is_object item then
        let sid := MqttSessionManager.global_session_id m in
        let m := MqttSessionManager.mk (MqttSessionManager.objects m) (u64 (sid + 1))
                   (MqttSessionManager.sessions_ m) (MqttSessionManager.client_id_index_ m) in
        match load_session item (MqttSession.create sid now None) with
        | None => (Thrown, m)
        | Some session =>
            let m := MqttSessionManager.mk (<[sid := session]> (MqttSessionManager.objects m))
                       (MqttSessionManager.global_session_id m)
                       (map_insert sid sid (MqttSessionManager.sessions_ m))
                       (MqttSessionManager.client_id_index_ m) in
            load_items now items
              (if bool_decide (MqttSession.client_id_ session = []) then m
               else MqttSessionManager.set_index
                      (map_insert (MqttSession.client_id_ session) sid (MqttSessionManager.client_id_index_ m)) m)
        end
      else load_items now items m
  end.

Definition load_sessions (path : bytes) (now : Z) (disk : files) (m : MqttSessionManager.t)
  : io_result * MqttSessionManager.t :=
  match path with
  | [] => (Returned false, m)
  | _ :: _ =>
      match read_document path disk with
      | Some (JArray items) => load_items now items (MqttSessionManager.set_index [] (MqttSessionManager.set_sessions [] m))
      | _ => (Returned false, m)
      end
  end.
End Persistence.
