(* ===== verification/MqttPersistenceFacts.v ===== *)
(** What the persistence code writes, read back: the members of the documents of a
    retained message, a will and a session, and what the loaders make of them. *)
From S2P Require Import Prelude Containers Endian Strings MqttProtocol MqttRetainedStore.
From S2P Require Import MqttSession Json MqttPersistence.

(** [find_member]: the value under a literal name of a document built with [put]. *)
Ltac find_member :=
  unfold string_member, boolean_member, unsigned_member, integer_member, array_member;
  rewrite member_reread;
  repeat (first [rewrite find_put | rewrite find_put_opt];
          match goal with
          | |- context [bool_decide (str ?a = str ?b)] =>
              let v := eval vm_compute in (bool_decide (str a = str b)) in
              change (bool_decide (str a = str b)) with v
          end;
          cbn iota).

(** The member a [put_opt] wrote, with the conversion of its value. *)
Lemma opt_member_match {A B} (f : A -> json) (g : json -> option B) (v : option A) (h : A -> B) :
  (forall a, g (reread (f a)) = Some (h a)) ->
  match reread <$> match v with Some a => Some (f a) | None => None end with Some j => g j | None => None end
  = h <$> v.
Proof. destruct v; [|done]. intros Hg. apply Hg. Qed.

(** The three levels a publisher may ask for. *)
Definition valid_qos (q : QoS) : Prop := 0 <= q <= 2.

Section Facts.
Context `{HL : JsonLibrary} `{!JsonLaws}.

(** * User properties *)
Lemma user_properties_reread ups :
  load_user_properties (map reread (map user_property_json ups)) = ups.
Proof.
  induction ups as [|[k v] ups IH]; [done|]. cbn [map load_user_properties].
  assert (string_member (str "key") (reread (user_property_json (mkUserProperty k v))) = Some k) as -> by by (unfold user_property_json; find_member).
  assert (string_member (str "value") (reread (user_property_json (mkUserProperty k v))) = Some v) as -> by by (unfold user_property_json; find_member).
  by rewrite IH.
Qed.

Lemma user_properties_exact ups : exact (user_properties_json ups) = true.
Proof.
  cbn [exact user_properties_json]. apply forallb_forall. intros j (up & <- & _)%in_map_iff.
  apply exact_object. by repeat apply exact_put.
Qed.

Lemma qos_of_u8_id q : valid_qos q -> qos_of_u8 (u8 q) = q.
Proof. unfold valid_qos, qos_of_u8. intros. rewrite u8_id by (unfold is_u8; lia). case_if; [done|lia]. Qed.

(** * Retained messages *)
Record message_ok (saved : Z) (msg : MqttRetainedMessage) : Prop := {
  mo_payload : Forall is_u8 (rm_payload msg);
  mo_qos : valid_qos (rm_qos msg);
  mo_expiry : forall v, rm_message_expiry_interval msg = Some v -> is_u32 v;
  mo_indicator : forall v, rm_payload_format_indicator msg = Some v -> is_u8 v;
  mo_elapsed : 0 <= MqttRetainedStore.seconds_between (rm_stored_time msg) saved < 2 ^ 63
}.

(** The message a file written at [saved] yields at [now]: only its age is carried over,
    and only when it can expire. *)
Definition restored_message (saved now : Z) (msg : MqttRetainedMessage) : MqttRetainedMessage :=
  mkRetained (rm_topic msg) (rm_payload msg) (rm_qos msg)
    (match rm_message_expiry_interval msg with
     | Some _ => now - Z.max 0 (MqttRetainedStore.seconds_between (rm_stored_time msg) saved) * 1000000000
     | None => now
     end)
    (rm_message_expiry_interval msg) (rm_payload_format_indicator msg) (rm_content_type msg)
    (rm_user_properties msg).

Lemma message_exact saved msg : message_ok saved msg -> exact (message_json saved msg) = true.
Proof.
  intros [Hp Hq He Hi Hs]. apply exact_object. unfold message_json.
  apply exact_put_opt; [intros; cbn [exact]; lia|].
  apply exact_put_opt; [intros; apply user_properties_exact|].
  apply exact_put_opt; [done|].
  apply exact_put_opt; [intros v Hv; apply exact_unsigned; pose proof (Hi _ Hv); unfold is_u8 in *; lia|].
  apply exact_put_opt; [intros v Hv; apply exact_unsigned; pose proof (He _ Hv); unfold is_u32 in *; lia|].
  apply exact_put; [apply exact_unsigned; unfold valid_qos in *; lia|].
  by repeat apply exact_put.
Qed.

Lemma fmap_id_range (f : Z -> Z) (v : option Z) : (forall x, v = Some x -> f x = x) -> f <$> v = v.
Proof. destruct v; [|done]. intros E. simpl. by rewrite E. Qed.

Lemma signed_64_id v : - 2 ^ 63 <= v < 2 ^ 63 -> signed 64 v = v.
Proof. intros. unfold signed. cbv zeta. case_if; Z.to_euclidean_division_equations; lia. Qed.

Lemma message_members saved msg : let j := reread (message_json saved msg) in
  string_member (str "topic") j = Some (rm_topic msg)
  /\ string_member (str "payload_hex") j = Some (StringUtil.to_hex (rm_payload msg))
  /\ member (str "qos") j = Some (JUnsigned (rm_qos msg))
  /\ unsigned_member (str "message_expiry_interval") j = rm_message_expiry_interval msg
  /\ unsigned_member (str "payload_format_indicator") j = rm_payload_format_indicator msg
  /\ string_member (str "content_type") j = rm_content_type msg
  /\ user_properties_member j = rm_user_properties msg
  /\ integer_member (str "stored_elapsed_seconds") j
     = (fun _ => MqttRetainedStore.seconds_between (rm_stored_time msg) saved) <$> rm_message_expiry_interval msg.
Proof.
  cbv zeta. unfold message_json, user_properties_member.
  split_and!; find_member; try done.
  - destruct (rm_message_expiry_interval msg); reflexivity.
  - destruct (rm_payload_format_indicator msg); reflexivity.
  - destruct (rm_content_type msg); reflexivity.
  - destruct (rm_user_properties msg) as [|up ups]; [done|]. exact (user_properties_reread (up :: ups)).
  - destruct (rm_message_expiry_interval msg); [|done]. cbn [fmap option_fmap option_map reread]. by case_if.
Qed.

Lemma load_message_json saved now msg loaded : message_ok saved msg -> rm_payload msg <> [] ->
  load_message now (reread (message_json saved msg)) loaded
  = Some (if bool_decide (rm_topic msg = []) then loaded
          else map_insert (rm_topic msg) (restored_message saved now msg) loaded).
Proof.
  intros [Hp Hq He Hi Hs] Hne. unfold load_message.
  destruct (message_members saved msg) as (-> & -> & -> & Hexp & Hind & -> & -> & Hel).
  change (is_object _) with true. cbn iota. rewrite get_integer_unsigned. mstep.
  unfold load_stored_time. rewrite Hexp, Hind, Hel. cbn [mbind option_bind].
  rewrite qos_of_u8_id, StringUtil.from_to_hex by done.
  rewrite (fmap_id_range u32) by (intros; apply u32_id; eauto).
  rewrite (fmap_id_range u8) by (intros; apply u8_id; eauto).
  cbn [rm_topic rm_payload]. rewrite (bool_decide_eq_false_2 (rm_payload msg = [])) by done.
  case_bool_decide; [done|]. cbn [negb andb]. unfold restored_message.
  destruct (rm_message_expiry_interval msg); [|done]. cbn [fmap option_fmap option_map].
  rewrite signed_64_id by lia. done.
Qed.

(** The messages of a file, restored, under the topics that are not empty. *)
Definition restored_messages (saved now : Z) (messages : MqttRetainedStore.t) : MqttRetainedStore.t :=
  map (fun e => (e.1, restored_message saved now e.2))
    (List.filter (fun e => negb (bool_decide (e.1 = []))) messages).

Lemma load_messages_json saved now messages loaded : MqttRetainedStore.store_ok messages ->
  Forall (fun e => message_ok saved e.2) messages ->
  Forall (fun e => keys_above e.1 messages) loaded ->
  load_messages now (map (fun e => reread (message_json saved e.2)) messages) loaded
  = Some (loaded ++ restored_messages saved now messages).
Proof.
  intros Hok Hm. revert loaded. induction messages as [|[k msg] messages IH]; intros loaded Hl.
  { cbn. by rewrite app_nil_r. }
  destruct Hok as [[Ha Hs] [[Hk Hp] Hf]%Forall_cons]. apply Forall_cons in Hm as [Hmsg Hm]. cbn [fst snd] in *.
  cbn [map load_messages snd]. rewrite load_message_json by done. cbn [mbind option_bind].
  specialize (IH (conj Hs Hf) Hm). unfold restored_messages. cbn [List.filter fst].
  rewrite Hk. case_bool_decide as E.
  - apply IH. eapply Forall_impl; [exact Hl|]. intros e He. unfold keys_above in *. by apply Forall_cons in He as [_ He].
  - rewrite map_insert_last.
    2:{ eapply Forall_impl; [exact Hl|]. intros e He. unfold keys_above in He. by apply Forall_cons in He as [He _]. }
    cbn [negb map fst snd]. rewrite IH; [by rewrite <- app_assoc|].
    apply Forall_app. split; [|by repeat constructor].
    eapply Forall_impl; [exact Hl|]. intros e He. unfold keys_above in *. by apply Forall_cons in He as [_ He].
Qed.

(** * Wills *)
Record will_file_ok (will : MqttWillMessage) : Prop := {
  wf_payload : Forall is_u8 (will_payload will);
  wf_qos : valid_qos (will_qos will);
  wf_delay : forall v, will_will_delay_interval will = Some v -> is_u32 v;
  wf_indicator : forall v, will_payload_format_indicator will = Some v -> is_u8 v;
  wf_expiry : forall v, will_message_expiry_interval will = Some v -> is_u32 v;
  wf_correlation : forall v, will_correlation_data will = Some v -> Forall is_u8 v
}.

Lemma will_exact will : will_file_ok will -> exact (will_json will) = true.
Proof.
  intros [Hp Hq Hd Hi He Hc]. apply exact_object. unfold will_json.
  apply exact_put; [apply user_properties_exact|].
  apply exact_put_opt; [intros v Hv; by apply exact_byte_array, Hc|].
  apply exact_put_opt; [done|]. apply exact_put_opt; [done|].
  apply exact_put_opt; [intros v Hv; apply exact_unsigned; pose proof (He _ Hv); unfold is_u32 in *; lia|].
  apply exact_put_opt; [intros v Hv; apply exact_unsigned; pose proof (Hi _ Hv); unfold is_u8 in *; lia|].
  apply exact_put_opt; [intros v Hv; apply exact_unsigned; pose proof (Hd _ Hv); unfold is_u32 in *; lia|].
  apply exact_put; [done|].
  apply exact_put; [apply exact_unsigned; unfold valid_qos in *; lia|].
  apply exact_put; [by apply exact_byte_array|]. by apply exact_put.
Qed.

Lemma get_bytes_array data : Forall is_u8 data -> get_bytes (map reread (map JUnsigned data)) = Some data.
Proof.
  induction 1 as [|b data Hb _ IH]; [done|]. cbn [map reread get_bytes].
  rewrite get_integer_unsigned. cbn [mbind option_bind]. rewrite IH. cbn [mbind option_bind]. by rewrite u8_id.
Qed.

Lemma will_members will : will_file_ok will -> let j := reread (will_json will) in
  string_member (str "topic") j = Some (will_topic will)
  /\ bytes_member (str "payload") j = Some (Some (will_payload will))
  /\ unsigned_member (str "qos") j = Some (will_qos will)
  /\ boolean_member (str "retain") j = Some (will_retain will)
  /\ unsigned_member (str "will_delay_interval") j = will_will_delay_interval will
  /\ unsigned_member (str "payload_format_indicator") j = will_payload_format_indicator will
  /\ unsigned_member (str "message_expiry_interval") j = will_message_expiry_interval will
  /\ string_member (str "content_type") j = will_content_type will
  /\ string_member (str "response_topic") j = will_response_topic will
  /\ bytes_member (str "correlation_data") j = Some (will_correlation_data will)
  /\ user_properties_member j = will_user_properties will.
Proof.
  intros Hok. cbv zeta. unfold will_json, bytes_member, user_properties_member.
  split_and!; find_member; try done.
  - cbn [fmap option_fmap option_map reread byte_array]. by rewrite (get_bytes_array _ (wf_payload _ Hok)).
  - destruct (will_will_delay_interval will); reflexivity.
  - destruct (will_payload_format_indicator will); reflexivity.
  - destruct (will_message_expiry_interval will); reflexivity.
  - destruct (will_content_type will); reflexivity.
  - destruct (will_response_topic will); reflexivity.
  - destruct (will_correlation_data will) as [d|] eqn:E; [|done].
    cbn [fmap option_fmap option_map reread byte_array]. by rewrite (get_bytes_array _ (wf_correlation _ Hok _ E)).
  - apply user_properties_reread.
Qed.

Lemma load_will_json will : will_file_ok will -> load_will (reread (will_json will)) = Some will.
Proof.
  intros Hok. unfold load_will.
  destruct (will_members will Hok) as (-> & -> & -> & -> & -> & -> & -> & -> & -> & -> & ->).
  destruct Hok as [Hp Hq Hd Hi He Hc]. cbn [mbind option_bind default fmap option_fmap option_map compose].
  rewrite qos_of_u8_id by done.
  rewrite (fmap_id_range u32 (will_will_delay_interval will)) by (intros; apply u32_id; eauto).
  rewrite (fmap_id_range u32 (will_message_expiry_interval will)) by (intros; apply u32_id; eauto).
  rewrite (fmap_id_range u8) by (intros; apply u8_id; eauto). by destruct will.
Qed.

(** * Sessions *)
Record session_file_ok (s : MqttSession.t) : Prop := {
  sf_id : is_u64 (MqttSession.session_id_ s);
  sf_keep_alive : is_u16 (MqttSession.keep_alive_ s);
  sf_expiry : is_u32 (MqttSession.session_expiry_interval_ s);
  sf_receive : is_u16 (MqttSession.receive_maximum_ s);
  sf_client_receive : is_u16 (MqttSession.client_receive_maximum_ s);
  sf_packet_size : is_u32 (MqttSession.maximum_packet_size_ s);
  sf_alias : is_u16 (MqttSession.topic_alias_maximum_ s);
  sf_sorted : map_sorted (MqttSession.subscriptions_ s);
  sf_qos : Forall (fun sub => valid_qos sub.2) (MqttSession.subscriptions_ s);
  sf_will : forall will, MqttSession.will_message_ s = Some will -> will_file_ok will
}.

(** The session the file of [s] yields: a new id, no connection and no packet in flight. *)
Definition restored_session (sid now : Z) (s : MqttSession.t) : MqttSession.t :=
  MqttSession.mk sid None (MqttSession.client_id_ s) (MqttSession.protocol_level_ s) (MqttSession.state_ s)
    (MqttSession.keep_alive_ s) now (MqttSession.subscriptions_ s) 1 ∅ ∅
    (match MqttSession.will_message_ s with
     | Some will => if bool_decide (will_topic will = []) then None else Some will
     | None => None
     end)
    (MqttSession.clean_start_ s) (MqttSession.session_expiry_interval_ s) (MqttSession.receive_maximum_ s)
    (MqttSession.client_receive_maximum_ s) (MqttSession.maximum_packet_size_ s)
    (MqttSession.topic_alias_maximum_ s) [].

Lemma session_exact s : session_file_ok s -> exact (session_json s) = true.
Proof.
  intros [Hid Hk He Hr Hc Hp Ha Hs Hq Hw]. unfold is_u64, is_u16, is_u32 in *.
  apply exact_object. unfold session_json.
  apply exact_put_opt; [intros will E; by apply will_exact, Hw|].
  apply exact_put.
  { cbn [exact]. apply forallb_forall. intros j (sub & <- & Hin)%in_map_iff. apply list_elem_of_In in Hin.
    rewrite Forall_forall in Hq. apply Hq in Hin. unfold valid_qos in Hin. apply exact_object.
    apply exact_put; [apply exact_unsigned; lia|]. by apply exact_put. }
  repeat (apply exact_put; [try done; try (apply exact_unsigned; lia)|]); try done.
  - by destruct (MqttSession.state_ s).
  - by destruct (MqttSession.protocol_level_ s).
Qed.

Lemma session_members s : let j := reread (session_json s) in
  string_member (str "client_id") j = Some (MqttSession.client_id_ s)
  /\ unsigned_member (str "protocol_level") j = Some (ProtocolLevel_val (MqttSession.protocol_level_ s))
  /\ integer_member (str "state") j = Some (state_val (MqttSession.state_ s))
  /\ unsigned_member (str "keep_alive") j = Some (MqttSession.keep_alive_ s)
  /\ boolean_member (str "clean_start") j = Some (MqttSession.clean_start_ s)
  /\ unsigned_member (str "session_expiry_interval") j = Some (MqttSession.session_expiry_interval_ s)
  /\ unsigned_member (str "receive_maximum") j = Some (MqttSession.receive_maximum_ s)
  /\ unsigned_member (str "client_receive_maximum") j = Some (MqttSession.client_receive_maximum_ s)
  /\ unsigned_member (str "maximum_packet_size") j = Some (MqttSession.maximum_packet_size_ s)
  /\ unsigned_member (str "topic_alias_maximum") j = Some (MqttSession.topic_alias_maximum_ s)
  /\ array_member (str "subscriptions") j = Some (map reread (map subscription_json (MqttSession.subscriptions_ s)))
  /\ member (str "will_message") j = reread ∘ will_json <$> MqttSession.will_message_ s.
Proof.
  cbv zeta. unfold session_json, MqttSession.will_message.
  split_and!; find_member; try done.
  - by destruct (MqttSession.state_ s).
  - destruct (MqttSession.will_message_ s); reflexivity.
Qed.

Lemma load_subscriptions_json subs session :
  Forall (fun sub => valid_qos sub.2) subs ->
  load_subscriptions (map reread (map subscription_json subs)) session
  = MqttSession.set_subscriptions
      (foldl (fun m sub => map_insert sub.1 sub.2 m) (MqttSession.subscriptions_ session) subs) session.
Proof.
  intros Hq. revert session. induction Hq as [|[f q] subs Hq _ IH]; intros session; [by destruct session|].
  cbn [map load_subscriptions].
  assert (string_member (str "topic_filter") (reread (subscription_json (f, q))) = Some f) as ->
    by by (unfold subscription_json; find_member).
  assert (unsigned_member (str "qos") (reread (subscription_json (f, q))) = Some q) as ->
    by by (unfold subscription_json; find_member).
  rewrite qos_of_u8_id by done. rewrite IH. by destruct session.
Qed.

Lemma load_session_json sid now s : session_file_ok s ->
  load_session (reread (session_json s)) (MqttSession.create sid now None) = Some (restored_session sid now s).
Proof.
  intros [Hid Hk He Hr Hc Hp Ha Hs Hq Hw]. unfold load_session.
  destruct (session_members s) as (-> & -> & -> & -> & -> & -> & -> & -> & -> & -> & -> & ->).
  cbn [with_member]. rewrite load_subscriptions_json by done. rewrite !u16_id, !u32_id by done.
  rewrite foldl_insert_sorted; [|done|constructor].
  assert (state_of_int (signed 32 (state_val (MqttSession.state_ s))) = MqttSession.state_ s) as ->
    by by destruct (MqttSession.state_ s).
  assert ((if u8 (ProtocolLevel_val (MqttSession.protocol_level_ s)) =? ProtocolLevel_val V5_0 then V5_0 else V3_1_1)
          = MqttSession.protocol_level_ s) as -> by by destruct (MqttSession.protocol_level_ s).
  unfold restored_session. destruct (MqttSession.will_message_ s) as [will|] eqn:E; [|done].
  cbn [fmap option_fmap option_map compose].
  pose proof (load_will_json will (Hw will eq_refl)) as Hl. unfold will_json in *. cbn [reread] in *.
  rewrite Hl. cbn [mbind option_bind]. by case_bool_decide.
Qed.

(** The registry a file of the sessions [ss] yields, from the id [sid] on. *)
Fixpoint restored_objects (sid now : Z) (ss : list MqttSession.t) (o : gmap Z MqttSession.t) : gmap Z MqttSession.t :=
  match ss with
  | [] => o
  | s :: ss => restored_objects (sid + 1) now ss (<[sid := restored_session sid now s]> o)
  end.
Fixpoint restored_index (sid : Z) (ss : list MqttSession.t) (i : list (bytes * Z)) : list (bytes * Z) :=
  match ss with
  | [] => i
  | s :: ss =>
      restored_index (sid + 1) ss
        (if bool_decide (MqttSession.client_id_ s = []) then i else map_insert (MqttSession.client_id_ s) sid i)
  end.
Definition restored_registry (sid : Z) (n : nat) : list (Z * Z) :=
  map (fun i => (sid + Z.of_nat i, sid + Z.of_nat i)) (List.seq 0 n).

Lemma restored_registry_S sid n : restored_registry sid (S n) = (sid, sid) :: restored_registry (sid + 1) n.
Proof.
  unfold restored_registry. cbn [List.seq map]. rewrite Z.add_0_r. f_equal.
  rewrite <- List.seq_shift, map_map. apply map_ext. intros. f_equal; lia.
Qed.

Lemma map_insert_last_Z {V} k (v : V) (l : list (Z * V)) :
  Forall (fun e => e.1 < k) l -> map_insert k v l = l ++ [(k, v)].
Proof.
  induction 1 as [|[k' v'] l E _ IH]; [done|]. simpl in *.
  destruct (Z.compare_spec k k'); [lia|lia|]. by rewrite IH.
Qed.

Lemma load_items_json now ss m : Forall session_file_ok ss ->
  let sid := MqttSessionManager.global_session_id m in
  0 <= sid -> sid + Z.of_nat (length ss) < 2 ^ 64 -> Forall (fun e => e.1 < sid) (MqttSessionManager.sessions_ m) ->
  load_items now (map (fun s => reread (session_json s)) ss) m
  = (Returned true,
     MqttSessionManager.mk (restored_objects sid now ss (MqttSessionManager.objects m))
       (sid + Z.of_nat (length ss)) (MqttSessionManager.sessions_ m ++ restored_registry sid (length ss))
       (restored_index sid ss (MqttSessionManager.client_id_index_ m))).
Proof.
  intros Hss. revert m. induction Hss as [|s ss Hs _ IH]; intros m sid H0 Hlt Hreg.
  { cbn. rewrite app_nil_r, Z.add_0_r. by destruct m. }
  cbn [map load_items length restored_objects restored_index] in *. change (is_object (reread (session_json s))) with true. cbn iota.
  fold sid. cbn [MqttSessionManager.global_session_id MqttSessionManager.objects MqttSessionManager.sessions_
    MqttSessionManager.client_id_index_].
  rewrite load_session_json by done. change (MqttSession.client_id_ (restored_session sid now s)) with (MqttSession.client_id_ s).
  rewrite map_insert_last_Z by done. assert (u64 (sid + 1) = sid + 1) as -> by (apply Z.mod_small; lia).
  assert (Hfin : forall i, load_items now (map (fun s => reread (session_json s)) ss)
      (MqttSessionManager.mk (<[sid:=restored_session sid now s]> (MqttSessionManager.objects m)) (sid + 1)
         (MqttSessionManager.sessions_ m ++ [(sid, sid)]) i)
    = (Returned true, MqttSessionManager.mk
         (restored_objects (sid + 1) now ss (<[sid:=restored_session sid now s]> (MqttSessionManager.objects m)))
         (sid + Z.of_nat (S (length ss))) (MqttSessionManager.sessions_ m ++ restored_registry sid (S (length ss)))
         (restored_index (sid + 1) ss i))).
  { intros i. rewrite IH; cbn [MqttSessionManager.global_session_id MqttSessionManager.objects MqttSessionManager.sessions_
      MqttSessionManager.client_id_index_]; [|lia|lia|].
    - rewrite restored_registry_S, <- app_assoc. do 2 f_equal. lia.
    - apply Forall_app. split; [|repeat constructor; simpl; lia]. eapply Forall_impl; [exact Hreg|]. simpl. lia. }
  case_bool_decide; apply Hfin.
Qed.
End Facts.
