(* ===== verification/MqttBroker.v ===== *)
(** The broker's shared state: configuration, application handler, the components
    that the dispatcher and the server hold references to, and the state monad in
    which their methods are written.

    [protocol/mqtt/include/mqtt_config.h], [mqtt_handler.h] and the members of
    [MqttDispatcher] and [MqttServer]. What the broker does to the outside (writes to
    and closes of connections, notifications of the handler) is a trace of events. *)
From S2P Require Import Prelude Containers MqttProtocol MqttSession MqttTopicTree.
From S2P Require Import MqttRetainedStore.

(** The member [keep_alive_factor], a floating-point number that no code reads, is left out. *)
Record MqttServerConfig : Type := mkConfig {
  cf_port : Z;
  cf_max_connections : Z;
  cf_max_message_size : Z;
  cf_max_packet_size : Z;
  cf_keep_alive_default : Z;
  cf_topic_alias_maximum : Z;
  cf_receive_maximum : Z;
  cf_maximum_qos : Z;
  cf_retain_available : bool;
  cf_wildcard_subscription_available : bool;
  cf_subscription_identifier_available : bool;
  cf_shared_subscription_available : bool;
  cf_require_authentication : bool;
  cf_idle_timeout_ms : Z;
  cf_supported_versions : list ProtocolLevel
}.

Definition default_config : MqttServerConfig :=
  mkConfig 1883 10000 (256 * 1024) (256 * 1024) MQTT_KEEP_ALIVE_DEFAULT 0 65535 2 true true true true false 0 [V3_1_1; V5_0].

(** The handler's callbacks that return a decision; an application overrides them. A
    callback is given the session it may read; that it does not change the broker is
    an assumption of the model. *)
Record MqttHandler : Type := mkHandler {
  on_connect : MqttSession.t -> bytes -> bytes -> bytes -> bool;
  on_auth : MqttSession.t -> bytes -> bytes -> bool;
  on_publish : MqttSession.t -> bytes -> bytes -> QoS -> bool -> bool;
  on_subscribe : MqttSession.t -> bytes -> QoS -> bool
}.

(** [MqttHandler]'s own implementation of them. *)
Definition default_handler : MqttHandler :=
  mkHandler (fun _ _ _ _ => true) (fun _ _ _ => false) (fun _ _ _ _ _ => true) (fun _ _ _ => true).

Inductive event : Type :=
| EvWrite (conn : Z) (data : bytes)
| EvClose (conn : Z)
| EvConnected (sid : Z)
| EvDisconnected (sid reason : Z)
| EvUnsubscribe (sid : Z) (filter : bytes)
| EvDelivered (sid packet_id : Z).

Record World : Type := mkWorld {
  session_mgr_ : MqttSessionManager.t;
  topic_tree_ : MqttTopicTree.Node;
  retained_store_ : MqttRetainedStore.t;
  alive : gset Z;
  now : Z;
  trace : list event
}.

Definition M (A : Type) : Type := World -> outcome (A * World).

#[export] Instance M_ret : MRet M := fun A a w => Ok (a, w).
#[export] Instance M_bind : MBind M :=
  fun A B f m w => match m w with
                   | Ok (a, w) => f a w
                   | Reject => Reject | Fault => Fault | Diverge => Diverge
                   end.

Definition mlift {A} (o : outcome A) : M A := fun w => a ← o; Ok (a, w).
Definition mget : M World := fun w => Ok (w, w).
Definition memit (e : event) : M unit :=
  fun w => Ok (tt, mkWorld (session_mgr_ w) (topic_tree_ w) (retained_store_ w) (alive w) (now w) (trace w ++ [e])).
Definition mskip : M unit := mret tt.

(** A callee that answers [std::optional]. *)
Definition mtry {A} (o : outcome A) : M (option A) :=
  fun w => match o with
           | Ok a => Ok (Some a, w) | Reject => Ok (None, w) | Fault => Fault | Diverge => Diverge
           end.

Definition put_mgr (m : MqttSessionManager.t) : M unit :=
  fun w => Ok (tt, mkWorld m (topic_tree_ w) (retained_store_ w) (alive w) (now w) (trace w)).
Definition put_tree (n : MqttTopicTree.Node) : M unit :=
  fun w => Ok (tt, mkWorld (session_mgr_ w) n (retained_store_ w) (alive w) (now w) (trace w)).
Definition put_retained (r : MqttRetainedStore.t) : M unit :=
  fun w => Ok (tt, mkWorld (session_mgr_ w) (topic_tree_ w) r (alive w) (now w) (trace w)).

(** Reading and updating the session object behind a reference. *)
Definition get_session (loc : Z) : M MqttSession.t :=
  w ← mget; mlift (MqttSessionManager.deref loc (session_mgr_ w)).
Definition put_session (loc : Z) (s : MqttSession.t) : M unit :=
  w ← mget; put_mgr (MqttSessionManager.assign loc s (session_mgr_ w)).
Definition modify_session (loc : Z) (f : MqttSession.t -> MqttSession.t) : M unit :=
  s ← get_session loc; put_session loc (f s).

Definition find_by_client_id (client_id : bytes) : M (option Z) :=
  w ← mget;
  '(r, m) ← mlift (MqttSessionManager.find_by_client_id client_id (session_mgr_ w));
  _ ← put_mgr m; mret r.
Definition bind_client_id (loc : Z) (client_id : bytes) : M unit :=
  w ← mget; m ← mlift (MqttSessionManager.bind_client_id loc client_id (session_mgr_ w)); put_mgr m.
Definition remove_session (sid : Z) : M unit :=
  w ← mget; m ← mlift (MqttSessionManager.remove_session sid (session_mgr_ w)); put_mgr m.
Definition tree_subscribe (filter : bytes) (sub : MqttSubscription) : M unit :=
  w ← mget; put_tree (MqttTopicTree.subscribe filter sub (topic_tree_ w)).1.
Definition tree_unsubscribe (filter : bytes) (sid : Z) : M unit :=
  w ← mget; put_tree (MqttTopicTree.unsubscribe filter sid (topic_tree_ w)).1.
Definition tree_remove_all (sid : Z) : M unit :=
  w ← mget; put_tree (MqttTopicTree.remove_all sid (topic_tree_ w)).
Definition retained_store (msg : MqttRetainedMessage) : M unit :=
  w ← mget; put_retained (MqttRetainedStore.store (now w) msg (retained_store_ w)).

Definition mwhen (b : bool) (m : M unit) : M unit := if b then m else mskip.

Fixpoint mfor {A} (l : list A) (body : A -> M unit) : M unit :=
  match l with
  | [] => mskip
  | a :: l => _ ← body a; mfor l body
  end.

Fixpoint mmap {A B} (l : list A) (body : A -> M B) : M (list B) :=
  match l with
  | [] => mret []
  | a :: l => b ← body a; rest ← mmap l body; mret (b :: rest)
  end.
