(* ===== verification/MqttBrokerFacts.v ===== *)
(** The broker's invariant and the total-correctness logic of its monad.

    [wp m w Q]: from [w] the computation returns (it neither faults nor diverges), the
    invariant [broker_ok] holds again, the world only evolved ([evolves]), and [Q]
    holds of the result. *)
From S2P Require Import Prelude Containers Strings MqttProtocol MqttProperties MqttPropertiesFacts MqttCodec.
From S2P Require Import MqttCodecFacts MqttDecodeSound MqttSession MqttTopicTree.
From S2P Require Import MqttTopicTreeFacts MqttRetainedStore MqttBroker.
Import MqttProperties.

(** * The invariant *)

(** The largest payload and properties of a message in the broker: they leave room for
    the topic and the header in a remaining length. *)
Definition MESSAGE_MAX : Z := 268000000.

Definition qos_ok (q : QoS) : Prop := 0 <= q <= 3.

(** The properties that a retained message keeps, and those of a will. *)
Definition kept_props (expiry indicator : option Z) (ctype : option bytes) (ups : list UserProperty) : MqttProperties :=
  set_payload_format_indicator indicator
    (set_message_expiry_interval expiry (set_content_type ctype (set_user_properties ups no_props))).

Definition retained_props (rm : MqttRetainedMessage) : MqttProperties :=
  kept_props (rm_message_expiry_interval rm) (rm_payload_format_indicator rm) (rm_content_type rm)
    (rm_user_properties rm).

Definition will_props (will : MqttWillMessage) : MqttProperties :=
  set_payload_format_indicator (will_payload_format_indicator will)
    (set_message_expiry_interval (will_message_expiry_interval will)
    (set_content_type (will_content_type will)
    (set_response_topic (will_response_topic will)
    (set_correlation_data (will_correlation_data will)
    (set_user_properties (will_user_properties will) no_props))))).

Definition message_ok (topic payload : bytes) (qos : QoS) (p : MqttProperties) : Prop :=
  str_ok topic /\ qos_ok qos /\ ids_u32 p /\ zlen payload + weight p <= MESSAGE_MAX.

Definition retained_ok (rm : MqttRetainedMessage) : Prop :=
  message_ok (rm_topic rm) (rm_payload rm) (rm_qos rm) (retained_props rm).

Definition will_ok (will : MqttWillMessage) : Prop :=
  message_ok (will_topic will) (will_payload will) (will_qos will) (will_props will).

Record session_ok (s : MqttSession.t) : Prop := {
  se_packet_id : MqttSession.packet_id_ok (MqttSession.next_packet_id_ s);
  se_will will : MqttSession.will_message_ s = Some will -> will_ok will;
  se_alias alias topic : (alias, topic) ∈ MqttSession.topic_aliases_ s -> str_ok topic
}.

Definition subscription_ok (sub : MqttSubscription) : Prop :=
  qos_ok (sub_qos sub)
  /\ match sub_subscription_identifier sub with Some i => is_u32 i | None => True end.

Record broker_ok (w : World) : Prop := {
  bo_sessions : MqttSessionManager.sessions_ok (session_mgr_ w);
  bo_session loc s : MqttSessionManager.objects (session_mgr_ w) !! loc = Some s -> session_ok s;
  bo_tree : tree_ok (topic_tree_ w) /\ one_per_session (topic_tree_ w);
  bo_subs f sub : sub ∈ MqttTopicTree.subs_at (topic_tree_ w) f -> subscription_ok sub;
  bo_store : MqttRetainedStore.store_ok (retained_store_ w);
  bo_retained topic rm : (topic, rm) ∈ retained_store_ w -> retained_ok rm
}.

(** An object that exists. *)
Definition live (w : World) (loc : Z) : Prop := is_Some (MqttSessionManager.objects (session_mgr_ w) !! loc).

(** What a computation of the dispatcher may do to the world. *)
Record evolves (w w' : World) : Prop := {
  ev_sessions : MqttSessionManager.sessions_ (session_mgr_ w') = MqttSessionManager.sessions_ (session_mgr_ w);
  ev_counter : MqttSessionManager.global_session_id (session_mgr_ w')
               = MqttSessionManager.global_session_id (session_mgr_ w);
  ev_live loc : live w loc -> live w' loc;
  ev_env : alive w' = alive w /\ now w' = now w;
  ev_trace : exists evs, trace w' = trace w ++ evs
}.

Lemma evolves_refl w : evolves w w.
Proof. constructor; auto. exists []. by rewrite app_nil_r. Qed.

Lemma evolves_trans w1 w2 w3 : evolves w1 w2 -> evolves w2 w3 -> evolves w1 w3.
Proof.
  intros [? ? ? [? ?] [e1 He1]] [? ? ? [? ?] [e2 He2]]. constructor; try congruence; auto.
  - split; congruence.
  - exists (e1 ++ e2). by rewrite He2, He1, app_assoc.
Qed.
#[export] Hint Resolve evolves_refl : s2p.
#[export] Hint Resolve ev_live : s2p.

(** * The logic *)
Definition wp {A} (m : M A) (w : World) (Q : A -> World -> Prop) : Prop :=
  match m w with Ok (a, w') => broker_ok w' /\ evolves w w' /\ Q a w' | _ => False end.

Lemma wp_ret {A} (a : A) w (Q : A -> World -> Prop) : broker_ok w -> Q a w -> wp (mret a) w Q.
Proof. intros. split; [done|]. split; [apply evolves_refl|done]. Qed.

Lemma wp_bind {A C} (m : M A) (f : A -> M C) w Q : wp m w (fun a w1 => wp (f a) w1 Q) -> wp (m ≫= f) w Q.
Proof.
  unfold wp. change ((m ≫= f) w) with (match m w with Ok (a, w1) => f a w1 | Reject => Reject | Fault => Fault | Diverge => Diverge end).
  destruct (m w) as [[a w1]| | |]; try done. intros (Hok & Hev & H).
  destruct (f a w1) as [[c w2]| | |]; try done. destruct H as (? & ? & ?).
  split; [done|]. split; [by eapply evolves_trans|done].
Qed.

Lemma wp_conseq {A} (m : M A) w (P Q : A -> World -> Prop) : wp m w P ->
  (forall a w', broker_ok w' -> evolves w w' -> P a w' -> Q a w') -> wp m w Q.
Proof. unfold wp. destruct (m w) as [[a w1]| | |]; try done. intros (? & ? & ?) HQ. auto. Qed.

(** A call of a computation known to run, then the rest. *)
Lemma wp_call {A C} (m : M A) (f : A -> M C) w P Q : wp m w P ->
  (forall a w', broker_ok w' -> evolves w w' -> P a w' -> wp (f a) w' Q) -> wp (m ≫= f) w Q.
Proof. intros Hm Hf. apply wp_bind. eapply wp_conseq; eauto. Qed.

Lemma wp_inv {A} (m : M A) w Q : wp m w Q -> exists a w', m w = Ok (a, w') /\ broker_ok w' /\ evolves w w' /\ Q a w'.
Proof. unfold wp. destruct (m w) as [[a w']| | |]; try done. eauto. Qed.

Lemma wp_skip w (Q : unit -> World -> Prop) : broker_ok w -> Q tt w -> wp mskip w Q.
Proof. apply wp_ret. Qed.

Lemma wp_lift {A} (o : outcome A) a w (Q : A -> World -> Prop) : broker_ok w -> o = Ok a -> Q a w -> wp (mlift o) w Q.
Proof. intros ? -> ?. split; [done|]. split; [apply evolves_refl|done]. Qed.

Lemma wp_get w (Q : World -> World -> Prop) : broker_ok w -> Q w w -> wp mget w Q.
Proof. intros. split; [done|]. split; [apply evolves_refl|done]. Qed.

Lemma wp_try {A} (o : outcome A) w (Q : option A -> World -> Prop) : broker_ok w -> safe o ->
  (forall a, o = Ok a -> Q (Some a) w) -> (o = Reject -> Q None w) -> wp (mtry o) w Q.
Proof.
  intros ? Hs H1 H2. unfold wp, mtry. destruct o; try done; split; auto; split; auto; apply evolves_refl.
Qed.

Lemma wp_when b m w (Q : unit -> World -> Prop) : broker_ok w ->
  (b = true -> wp m w Q) -> (b = false -> Q tt w) -> wp (mwhen b m) w Q.
Proof. intros ? H1 H2. unfold mwhen. destruct b; [auto|]. apply wp_skip; auto. Qed.

Lemma wp_emit e w (Q : unit -> World -> Prop) : broker_ok w ->
  (forall w', broker_ok w' -> evolves w w' -> Q tt w') -> wp (memit e) w Q.
Proof.
  intros Hok HQ. unfold wp, memit.
  assert (evolves w (mkWorld (session_mgr_ w) (topic_tree_ w) (retained_store_ w) (alive w) (now w) (trace w ++ [e])))
    by (constructor; simpl; eauto).
  assert (broker_ok (mkWorld (session_mgr_ w) (topic_tree_ w) (retained_store_ w) (alive w) (now w) (trace w ++ [e])))
    by (destruct Hok; by constructor).
  auto.
Qed.

(** A list of computations, each of which runs wherever the invariant holds and [P],
    which the world's evolution keeps, does. *)
Lemma wp_for {A} (l : list A) (body : A -> M unit) (P : World -> Prop) w (Q : unit -> World -> Prop) :
  broker_ok w -> P w -> (forall w w', evolves w w' -> P w -> P w') ->
  (forall a w', a ∈ l -> broker_ok w' -> P w' -> wp (body a) w' (fun _ _ => True)) ->
  (forall w', broker_ok w' -> evolves w w' -> Q tt w') -> wp (mfor l body) w Q.
Proof.
  intros Hok HP Hst. revert w Hok HP Q; induction l as [|a l IH]; intros w Hok HP Q Hb HQ; simpl.
  - apply wp_skip; [done|]. apply HQ; [done|apply evolves_refl].
  - eapply wp_call; [apply Hb; [left|done|done]|]. intros _ w1 Hok1 Hev1 _.
    apply IH; [done|by eapply Hst| |].
    + intros. apply Hb; [by right|done|done].
    + intros. apply HQ; [done|by eapply evolves_trans].
Qed.

Lemma wp_map {A C} (l : list A) (body : A -> M C) (P : World -> Prop) w (R : A -> C -> Prop)
    (Q : list C -> World -> Prop) :
  broker_ok w -> P w -> (forall w w', evolves w w' -> P w -> P w') ->
  (forall a w', a ∈ l -> broker_ok w' -> P w' -> wp (body a) w' (fun c _ => R a c)) ->
  (forall cs w', broker_ok w' -> evolves w w' -> Forall2 R l cs -> Q cs w') -> wp (mmap l body) w Q.
Proof.
  intros Hok HP Hst. revert w Hok HP Q; induction l as [|a l IH]; intros w Hok HP Q Hb HQ; simpl.
  - apply wp_ret; [done|]. apply HQ; [done|apply evolves_refl|constructor].
  - eapply wp_call; [apply Hb; [left|done|done]|]. intros c w1 Hok1 Hev1 Hc.
    apply wp_bind. apply IH; [done|by eapply Hst| |].
    + intros. apply Hb; [by right|done|done].
    + intros cs w2 Hok2 Hev2 Hcs. apply wp_ret; [done|].
      apply HQ; [done|by eapply evolves_trans|by constructor].
Qed.

(** * The primitives *)

(** The manager's operations, as far as the world is concerned. *)
Record mgr_evolves (m m' : MqttSessionManager.t) : Prop := {
  mg_sessions : MqttSessionManager.sessions_ m' = MqttSessionManager.sessions_ m;
  mg_counter : MqttSessionManager.global_session_id m' = MqttSessionManager.global_session_id m;
  mg_live loc : is_Some (MqttSessionManager.objects m !! loc) -> is_Some (MqttSessionManager.objects m' !! loc)
}.

Lemma wp_put_mgr m w (Q : unit -> World -> Prop) : broker_ok w ->
  MqttSessionManager.sessions_ok m -> mgr_evolves (session_mgr_ w) m ->
  (forall loc s, MqttSessionManager.objects m !! loc = Some s -> session_ok s) ->
  (forall w', broker_ok w' -> evolves w w' -> session_mgr_ w' = m -> topic_tree_ w' = topic_tree_ w ->
     retained_store_ w' = retained_store_ w -> Q tt w') -> wp (put_mgr m) w Q.
Proof.
  intros Hok Hm [Hs Hc Hl] Hses HQ. unfold wp, put_mgr.
  set (w' := mkWorld m (topic_tree_ w) (retained_store_ w) (alive w) (now w) (trace w)).
  assert (evolves w w') by (constructor; simpl; auto; exists []; by rewrite app_nil_r).
  assert (broker_ok w') by (destruct Hok; by constructor). auto.
Qed.

Lemma wp_put_tree n w (Q : unit -> World -> Prop) : broker_ok w ->
  tree_ok n -> one_per_session n -> (forall f sub, sub ∈ MqttTopicTree.subs_at n f -> subscription_ok sub) ->
  (forall w', broker_ok w' -> evolves w w' -> Q tt w') -> wp (put_tree n) w Q.
Proof.
  intros Hok Ht Ho Hs HQ. unfold wp, put_tree.
  set (w' := mkWorld (session_mgr_ w) n (retained_store_ w) (alive w) (now w) (trace w)).
  assert (evolves w w') by (constructor; simpl; auto; exists []; by rewrite app_nil_r).
  assert (broker_ok w') by (destruct Hok; by constructor). auto.
Qed.

Lemma wp_retained_store msg w (Q : unit -> World -> Prop) : broker_ok w -> retained_ok msg ->
  (forall w', broker_ok w' -> evolves w w' -> Q tt w') -> wp (retained_store msg) w Q.
Proof.
  intros Hok Hm HQ. unfold retained_store. apply wp_bind, wp_get; [done|]. unfold wp, put_retained.
  set (w' := mkWorld (session_mgr_ w) (topic_tree_ w) (MqttRetainedStore.store (now w) msg (retained_store_ w))
               (alive w) (now w) (trace w)).
  assert (evolves w w') by (constructor; simpl; auto; exists []; by rewrite app_nil_r).
  assert (broker_ok w').
  { destruct Hok as [? ? ? ? Hst Hr]. constructor; simpl; auto; [by apply MqttRetainedStore.store_ok_store|].
    intros topic rm Hin. unfold MqttRetainedStore.store in Hin.
    destruct (rm_payload msg) as [|b p] eqn:E; [apply map_erase_elem in Hin; eauto|].
    apply map_insert_elem in Hin as [[= -> ->]|Hin]; [|eauto].
    unfold retained_ok, retained_props in *. simpl. by rewrite E in Hm. }
  auto.
Qed.

Lemma wp_get_session loc w (Q : MqttSession.t -> World -> Prop) : broker_ok w -> live w loc ->
  (forall s, MqttSessionManager.objects (session_mgr_ w) !! loc = Some s -> session_ok s ->
     MqttSession.session_id_ s = loc -> Q s w) -> wp (get_session loc) w Q.
Proof.
  intros Hok [s Hs] HQ. unfold get_session. apply wp_bind, wp_get; [done|].
  eapply wp_lift; [done|by apply MqttSessionManager.deref_ok|].
  apply HQ; [done|by eapply bo_session|]. by apply (MqttSessionManager.so_ids _ (bo_sessions w Hok)) in Hs as [? _].
Qed.

Lemma wp_put_session loc s w (Q : unit -> World -> Prop) : broker_ok w -> live w loc -> session_ok s ->
  MqttSession.session_id_ s = loc ->
  (forall w', broker_ok w' -> evolves w w' ->
     MqttSessionManager.objects (session_mgr_ w') = <[loc := s]> (MqttSessionManager.objects (session_mgr_ w)) ->
     topic_tree_ w' = topic_tree_ w -> retained_store_ w' = retained_store_ w -> Q tt w') ->
  wp (put_session loc s) w Q.
Proof.
  intros Hok Hl Hs Hid HQ. unfold put_session. apply wp_bind, wp_get; [done|].
  apply wp_put_mgr; [done| | | |].
  - apply MqttSessionManager.sessions_ok_assign; [apply Hok|done|done].
  - constructor; simpl; try done. intros l Hl'. rewrite lookup_insert_is_Some.
    destruct (decide (loc = l)); auto.
  - simpl. intros l s' [[<- <-]|[_ ?]]%lookup_insert_Some; [done|by eapply bo_session].
  - intros w' ? ? E ? ?. apply HQ; try done. by rewrite E.
Qed.

Lemma wp_modify loc f w (Q : unit -> World -> Prop) : broker_ok w -> live w loc ->
  (forall s, session_ok s -> session_ok (f s) /\ MqttSession.session_id_ (f s) = MqttSession.session_id_ s) ->
  (forall w', broker_ok w' -> evolves w w' -> Q tt w') -> wp (modify_session loc f) w Q.
Proof.
  intros Hok Hl Hf HQ. unfold modify_session. apply wp_bind, wp_get_session; [done|done|].
  intros s Hs Hsok Hid. destruct (Hf s Hsok) as [Hfs Hfid].
  apply wp_put_session; auto. congruence.
Qed.

Lemma wp_tree_subscribe filter sub w (Q : unit -> World -> Prop) : broker_ok w -> subscription_ok sub ->
  (forall w', broker_ok w' -> evolves w w' -> Q tt w') -> wp (tree_subscribe filter sub) w Q.
Proof.
  intros Hok Hsub HQ. unfold tree_subscribe. apply wp_bind, wp_get; [done|].
  destruct (bo_tree w Hok) as [Ht Ho]. apply wp_put_tree; auto with s2p.
  intros f x. rewrite subscribe_at. case_decide; [|by apply bo_subs].
  intros Hx. pose proof (upsert_spec sub (MqttTopicTree.subs_at (topic_tree_ w) f) (Ho f)) as (_ & Hin & _).
  apply Hin in Hx as [->|[Hx _]]; [done|by eapply bo_subs].
Qed.

Lemma wp_tree_unsubscribe filter sid w (Q : unit -> World -> Prop) : broker_ok w ->
  (forall w', broker_ok w' -> evolves w w' -> Q tt w') -> wp (tree_unsubscribe filter sid) w Q.
Proof.
  intros Hok HQ. unfold tree_unsubscribe. apply wp_bind, wp_get; [done|].
  destruct (bo_tree w Hok) as [Ht Ho]. apply wp_put_tree; auto with s2p.
  intros f x. rewrite unsubscribe_at. case_decide; [|by apply bo_subs].
  rewrite erase_first_spec by done. intros [_ Hx]%elem_of_filter. by eapply bo_subs.
Qed.

Lemma wp_tree_remove_all sid w (Q : unit -> World -> Prop) : broker_ok w ->
  (forall w', broker_ok w' -> evolves w w' -> Q tt w') -> wp (tree_remove_all sid) w Q.
Proof.
  intros Hok HQ. unfold tree_remove_all. apply wp_bind, wp_get; [done|].
  destruct (bo_tree w Hok) as [Ht Ho]. apply wp_put_tree; auto with s2p.
  intros f x. rewrite remove_all_at. intros [_ Hx]%elem_of_filter. by eapply bo_subs.
Qed.

Lemma wp_find_by_client_id cid w (Q : option Z -> World -> Prop) : broker_ok w ->
  (forall r w', broker_ok w' -> evolves w w' -> (forall loc, r = Some loc -> live w' loc) -> Q r w') ->
  wp (find_by_client_id cid) w Q.
Proof.
  intros Hok HQ. unfold find_by_client_id. apply wp_bind, wp_get; [done|].
  destruct (MqttSessionManager.find_by_client_id_total cid (session_mgr_ w) (bo_sessions w Hok)) as (r & i & E & Hr).
  apply wp_bind. eapply wp_lift; [done|exact E|]. cbv beta iota.
  eapply wp_call with (P := fun _ w' => session_mgr_ w' = MqttSessionManager.set_index i (session_mgr_ w)).
  - apply wp_put_mgr; [done|apply MqttSessionManager.sessions_ok_index, Hok|by constructor| |auto].
    simpl. intros loc s. by apply bo_session.
  - intros _ w' Hok' Hev' Ew. apply wp_ret; [done|]. apply HQ; [done|done|].
    intros loc ->. destruct Hr as (s & [_ Hs] & _). unfold live. rewrite Ew. simpl. eauto.
Qed.

Lemma wp_bind_client_id loc cid w (Q : unit -> World -> Prop) : broker_ok w -> live w loc ->
  (forall w', broker_ok w' -> evolves w w' -> Q tt w') -> wp (bind_client_id loc cid) w Q.
Proof.
  intros Hok [s Hs] HQ. unfold bind_client_id. apply wp_bind, wp_get; [done|].
  destruct (MqttSessionManager.bind_client_id_ok loc s cid (session_mgr_ w) (bo_sessions w Hok) Hs)
    as (m' & E & Hok' & Hses & Hcnt & Hobj & _).
  apply wp_bind. eapply wp_lift; [done|exact E|]. apply wp_put_mgr; [done|done| | |auto].
  - constructor; try done. intros l Hl. rewrite Hobj, lookup_insert_is_Some. destruct (decide (loc = l)); auto.
  - rewrite Hobj. intros l s' [[<- <-]|[_ Hl]]%lookup_insert_Some; [|by eapply bo_session].
    apply (bo_session w Hok) in Hs as []. by constructor.
Qed.

(** A registered session is an object. *)
Lemma all_sessions_live w loc : broker_ok w -> loc ∈ MqttSessionManager.all_sessions (session_mgr_ w) -> live w loc.
Proof.
  intros Hok Hin. apply MqttSessionManager.all_sessions_in in Hin as (s & _ & Hs); [|apply Hok].
  unfold live. eauto.
Qed.
