(* ===== verification/MqttDispatcher.v ===== *)
(** The packet dispatcher: [protocol/mqtt/src/mqtt_dispatcher.cpp].

    Every handler is a computation of the broker monad that returns the response
    buffer; a session reference is the location of its object. The definitions are
    parameterised by the byte sink the encoders write to, the configuration and the
    handler. *)
From S2P Require Import Prelude Containers Strings ByteBuffer MqttProtocol MqttProperties MqttCodec.
From S2P Require Import MqttSession MqttTopicTree MqttRetainedStore MqttBroker.

Module MqttDispatcher.

(** * Packet checks *)
Definition is_valid_publish_flags (flags : Z) : bool :=
  let qos_bits := Z.land (Z.shiftr flags MQTT_PUBLISH_FLAG_QOS_SHIFT) 3 in
  if qos_bits =? 3 then false
  else if (qos_bits =? 0) && flag_set flags MQTT_PUBLISH_FLAG_DUP then false
  else true.

Definition is_valid_packet_flags (type : PacketType) (flags : Z) : bool :=
  match type with
  | PUBREL | SUBSCRIBE | UNSUBSCRIBE => flags =? 2
  | PUBLISH => is_valid_publish_flags flags
  | _ => flags =? 0
  end.

(** The loop of [parse_remaining_length] and the value of [consumed] it ends with. *)
Fixpoint parse_remaining_length_loop (n : nat) (data : bytes) (len consumed value multiplier : Z)
    : outcome (Z * Z) :=
  match n with
  | O => Ok (value, consumed)
  | S n =>
      if 1 + consumed <? len then
        byte ← rd data (1 + consumed);
        let value := u32 (value + Z.land byte 127 * multiplier) in
        let multiplier := u32 (multiplier * 128) in
        if Z.land byte 128 =? 0 then Ok (value, consumed)
        else parse_remaining_length_loop n data len (consumed + 1) value multiplier
      else Ok (value, consumed)
  end.

(** Returns [header_len] and [body_len]; [false] is [Reject]. *)
Definition parse_remaining_length (data : bytes) (len : Z) : outcome (Z * Z) :=
  if len <? 2 then Reject
  else
    '(value, consumed) ← parse_remaining_length_loop 4 data len 0 0 1;
    if MQTT_VARIABLE_BYTE_INT_MAX_SIZE <=? consumed then Reject
    else
      byte ← rd data (1 + consumed);
      if negb (Z.land byte 128 =? 0) then Reject
      else
        let header_len := 1 + consumed + 1 in
        let body_len := value in
        if header_len + body_len =? len then Ok (header_len, body_len) else Reject.

(** * Shared subscriptions *)
Definition extract_shared_group (filter : bytes) : option bytes :=
  if negb (MqttTopicTree.is_shared_subscription filter) then None
  else match MqttTopicTree.shared_group filter with [] => None | group => Some group end.

(** [score = score * 131 + ch] over the group name, in 64 bits. *)
Definition group_score (group : bytes) : Z := foldl (fun score ch => u64 (score * 131 + ch)) 0 group.

(** The first loop: subscriptions without a group, and the groups in name order. *)
Fixpoint split_groups (matches : list MqttSubscription) (result : list MqttSubscription)
    (shared_groups : list (bytes * list MqttSubscription))
    : list MqttSubscription * list (bytes * list MqttSubscription) :=
  match matches with
  | [] => (result, shared_groups)
  | sub :: matches =>
      match sub_shared_group sub with
      | [] => split_groups matches (result ++ [sub]) shared_groups
      | group =>
          split_groups matches result
            (map_insert group (default [] (map_find group shared_groups) ++ [sub]) shared_groups)
      end
  end.

(** The subscription of a group that receives the message. *)
Definition pick_group (entry : bytes * list MqttSubscription) : list MqttSubscription :=
  let subs := entry.2 in
  match subs with
  | [] => []
  | _ :: _ =>
      match subs !! Z.to_nat (group_score entry.1 mod zlen subs) with Some sub => [sub] | None => [] end
  end.

Definition apply_shared_subscription_policy (matches : list MqttSubscription) : list MqttSubscription :=
  match matches with
  | [] => []
  | _ :: _ =>
      let '(result, shared_groups) := split_groups matches [] [] in
      result ++ flat_map pick_group shared_groups
  end.

Section Dispatcher.
Context {B : Type} `{ByteSink B}.
Variables (config_ : MqttServerConfig) (handler_ : option MqttHandler).
Implicit Types (session : Z).

(** [return {}] *)
Definition no_response : M B := mret (sink_new ByteBuffer.kDefaultCapacity).

Definition notify (e : event) : M unit := match handler_ with Some _ => memit e | None => mskip end.

(** [handler_ && !handler_->callback(...)] *)
Definition refused (callback : MqttHandler -> bool) : bool :=
  match handler_ with Some h => negb (callback h) | None => false end.

Definition close_session_connection session : M unit :=
  s ← get_session session; w ← mget;
  match MqttSession.connection (alive w) s with Some conn => memit (EvClose conn) | None => mskip end.

Definition protocol_error_disconnect session (reason : Z) : M B :=
  s ← get_session session;
  if negb (is_v5 (MqttSession.protocol_level_ s)) then no_response
  else mlift (MqttCodec.encode_disconnect reason (MqttSession.protocol_level_ s) no_props).

Definition set_state session (st : MqttSessionState) : M unit := modify_session session (MqttSession.set_state st).

(** * Delivery *)

(** [conn->write_and_flush(buf)] *)
Definition write_and_flush (conn : Z) (buf : outcome B) : M unit :=
  b ← mlift buf; memit (EvWrite conn (sink_contents b)).

(** The scan of [all_sessions()] for a session id. *)
Fixpoint find_session (sid : Z) (all : list Z) : M (option Z) :=
  match all with
  | [] => mret None
  | loc :: all =>
      s ← get_session loc;
      if MqttSession.session_id_ s =? sid then mret (Some loc) else find_session sid all
  end.

Definition next_packet_id session : M Z :=
  s ← get_session session;
  let '(id, s) := MqttSession.next_packet_id s in
  _ ← put_session session s; mret id.

(** The packet that [publish_to_subscribers] builds for one subscription. *)
Definition subscriber_packet (pkt : MqttPublishPacket) (sub : MqttSubscription) (packet_id : option Z)
    (v5 : bool) : MqttPublishPacket :=
  mkPublish 0 (if sub_qos sub <? pb_qos pkt then sub_qos sub else pb_qos pkt)
    (if sub_retain_as_published sub =? 1 then pb_retain pkt else 0) (pb_topic pkt) packet_id (pb_payload pkt)
    (if v5 then set_subscription_identifier (sub_subscription_identifier sub) (pb_properties pkt) else no_props).

Definition deliver (source_sid : Z) (pkt : MqttPublishPacket) (sub : MqttSubscription) : M unit :=
  if negb (sub_no_local sub =? 0) && (sub_session_id sub =? source_sid) then mskip
  else
    w ← mget;
    found ← find_session (sub_session_id sub) (MqttSessionManager.all_sessions (session_mgr_ w));
    match found with
    | None => mskip
    | Some sub_session =>
        s ← get_session sub_session;
        if negb (state_eqb (MqttSession.state_ s) connected) then mskip
        else match MqttSession.connection (alive w) s with
             | None => mskip
             | Some sub_conn =>
                 let pub_qos := pb_qos (subscriber_packet pkt sub None false) in
                 packet_id ← (if negb (pub_qos =? AT_MOST_ONCE)
                              then id ← next_packet_id sub_session; mret (Some id) else mret None);
                 let level := MqttSession.protocol_level_ s in
                 write_and_flush sub_conn
                   (MqttCodec.encode_publish (subscriber_packet pkt sub packet_id (is_v5 level)) level)
             end
    end.

Definition publish_to_subscribers session (pkt : MqttPublishPacket) : M unit :=
  source ← get_session session; w ← mget;
  mfor (apply_shared_subscription_policy (MqttTopicTree.match_topic (pb_topic pkt) (topic_tree_ w)))
    (deliver (MqttSession.session_id_ source) pkt).

(** The retained message of a PUBLISH. *)
Definition retained_of (pkt : MqttPublishPacket) (qos : QoS) (v5 : bool) : MqttRetainedMessage :=
  match pb_payload pkt with
  | [] => mkRetained (pb_topic pkt) [] AT_MOST_ONCE 0 None None None []
  | _ :: _ =>
      let p := pb_properties pkt in
      if v5 then mkRetained (pb_topic pkt) (pb_payload pkt) qos 0 (message_expiry_interval p)
                   (payload_format_indicator p) (content_type p) (user_properties p)
      else mkRetained (pb_topic pkt) (pb_payload pkt) qos 0 None None None []
  end.

(** * PUBLISH and its acknowledgements *)

(** The answer to a PUBLISH that the handler refuses. *)
Definition refuse_publish (qos packet_id : Z) (level : ProtocolLevel) : M B :=
  if qos =? AT_LEAST_ONCE then
    mlift (MqttCodec.encode_puback packet_id PubackReason.NOT_AUTHORIZED level no_props)
  else if qos =? EXACTLY_ONCE then
    mlift (MqttCodec.encode_pubrec packet_id PubrecReason.NOT_AUTHORIZED level no_props)
  else no_response.

(** The topic of the packet, through the topic aliases of the session; [None] is the
    return with [TOPIC_ALIAS_INVALID]. *)
Definition resolve_topic session (pkt : MqttPublishPacket) : M (option bytes) :=
  s ← get_session session;
  match (if is_v5 (MqttSession.protocol_level_ s) then topic_alias (pb_properties pkt) else None) with
  | None => mret (Some (pb_topic pkt))
  | Some alias =>
      let maximum := MqttSession.topic_alias_maximum_ s in
      if alias =? 0 then mret None
      else if (0 <? maximum) && (maximum <? alias) then mret None
      else match pb_topic pkt with
           | [] => match MqttSession.resolve_topic_alias alias s with
                   | None => mret None
                   | Some [] => mret None
                   | Some topic => mret (Some topic)
                   end
           | topic => _ ← put_session session (MqttSession.set_topic_alias alias topic s); mret (Some topic)
           end
  end.

Definition with_topic (topic : bytes) (pkt : MqttPublishPacket) : MqttPublishPacket :=
  mkPublish (pb_dup pkt) (pb_qos pkt) (pb_retain pkt) topic (pb_packet_id pkt) (pb_payload pkt) (pb_properties pkt).

(** The part of [handle_publish] after the checks: retain, deliver, acknowledge. *)
Definition accept_publish session (pkt : MqttPublishPacket) (qos retain : Z) : M B :=
  s ← get_session session;
  let level := MqttSession.protocol_level_ s in
  _ ← mwhen (negb (retain =? 0)) (retained_store (retained_of pkt qos (is_v5 level)));
  _ ← publish_to_subscribers session pkt;
  if qos =? AT_MOST_ONCE then no_response
  else if qos =? AT_LEAST_ONCE then
    mlift (MqttCodec.encode_puback (default 0 (pb_packet_id pkt)) PubackReason.SUCCESS level no_props)
  else
    let pid := default 0 (pb_packet_id pkt) in
    _ ← modify_session session (fun s => (MqttSession.add_inflight_packet_id pid s).2);
    mlift (MqttCodec.encode_pubrec pid PubrecReason.SUCCESS level no_props).

Definition handle_publish session (data : bytes) (len flags : Z) : M B :=
  let qos := Z.land (Z.shiftr flags MQTT_PUBLISH_FLAG_QOS_SHIFT) 3 in
  let retain := if flag_set flags MQTT_PUBLISH_FLAG_RETAIN then 1 else 0 in
  s ← get_session session;
  publish_opt ← mtry (MqttCodec.decode_publish data len flags (MqttSession.protocol_level_ s));
  match publish_opt with
  | None => protocol_error_disconnect session DisconnectReason.MALFORMED_PACKET
  | Some pkt =>
      topic ← resolve_topic session pkt;
      match topic with
      | None => protocol_error_disconnect session DisconnectReason.TOPIC_ALIAS_INVALID
      | Some topic =>
          let pkt := with_topic topic pkt in
          if bool_decide (topic = []) || negb (MqttTopicTree.validate_topic_name topic) then
            protocol_error_disconnect session DisconnectReason.TOPIC_ALIAS_INVALID
          else if negb (qos =? AT_MOST_ONCE) && bool_decide (pb_packet_id pkt = None) then
            protocol_error_disconnect session DisconnectReason.MALFORMED_PACKET
          else if negb (qos =? AT_MOST_ONCE) && (default 0 (pb_packet_id pkt) =? 0) then
            protocol_error_disconnect session DisconnectReason.MALFORMED_PACKET
          else
            s ← get_session session;
            if (qos =? EXACTLY_ONCE) && (MqttSession.receive_maximum_ s <=? MqttSession.inflight_count s) then
              protocol_error_disconnect session DisconnectReason.RECEIVE_MAXIMUM_EXCEEDED
            else if (qos =? EXACTLY_ONCE)
                    && match pb_packet_id pkt with
                       | Some pid => MqttSession.has_inflight_packet_id pid s | None => false end then
              mlift (MqttCodec.encode_pubrec (default 0 (pb_packet_id pkt)) PubrecReason.PACKET_IDENTIFIER_IN_USE
                       (MqttSession.protocol_level_ s) no_props)
            else if refused (fun h => on_publish h s topic (pb_payload pkt) qos (negb (retain =? 0))) then
              refuse_publish qos (default 0 (pb_packet_id pkt)) (MqttSession.protocol_level_ s)
            else accept_publish session pkt qos retain
      end
  end.

Definition handle_puback session (data : bytes) (len : Z) : M B :=
  s ← get_session session;
  puback_opt ← mtry (MqttCodec.decode_puback data len (MqttSession.protocol_level_ s));
  match puback_opt with
  | None => protocol_error_disconnect session DisconnectReason.MALFORMED_PACKET
  | Some puback =>
      _ ← notify (EvDelivered (MqttSession.session_id_ s) (ack_packet_id puback));
      no_response
  end.

Definition handle_pubrec session (data : bytes) (len : Z) : M B :=
  s ← get_session session;
  pubrec_opt ← mtry (MqttCodec.decode_pubrec data len (MqttSession.protocol_level_ s));
  match pubrec_opt with
  | None => protocol_error_disconnect session DisconnectReason.MALFORMED_PACKET
  | Some pubrec =>
      if ack_packet_id pubrec =? 0 then protocol_error_disconnect session DisconnectReason.PROTOCOL_ERROR
      else mlift (MqttCodec.encode_pubrel (ack_packet_id pubrec) PubrelReason.SUCCESS
                    (MqttSession.protocol_level_ s) no_props)
  end.

Definition handle_pubrel session (data : bytes) (len : Z) : M B :=
  s ← get_session session;
  pubrel_opt ← mtry (MqttCodec.decode_pubrel data len (MqttSession.protocol_level_ s));
  match pubrel_opt with
  | None => protocol_error_disconnect session DisconnectReason.MALFORMED_PACKET
  | Some pubrel =>
      let pid := ack_packet_id pubrel in
      let level := MqttSession.protocol_level_ s in
      if pid =? 0 then protocol_error_disconnect session DisconnectReason.PROTOCOL_ERROR
      else if negb (MqttSession.has_inflight_packet_id pid s) then
        mlift (MqttCodec.encode_pubcomp pid PubcompReason.PACKET_IDENTIFIER_NOT_FOUND level no_props)
      else
        _ ← modify_session session (MqttSession.remove_inflight_packet_id pid);
        mlift (MqttCodec.encode_pubcomp pid PubcompReason.SUCCESS level no_props)
  end.

Definition handle_pubcomp session (data : bytes) (len : Z) : M B :=
  s ← get_session session;
  pubcomp_opt ← mtry (MqttCodec.decode_pubcomp data len (MqttSession.protocol_level_ s));
  match pubcomp_opt with
  | None => protocol_error_disconnect session DisconnectReason.MALFORMED_PACKET
  | Some pubcomp =>
      _ ← modify_session session (MqttSession.remove_outgoing_packet_id (ack_packet_id pubcomp));
      no_response
  end.

(** * SUBSCRIBE and UNSUBSCRIBE *)

(** The reason code with which a filter is refused, if it is. *)
Definition subscribe_refusal (v5 : bool) (identifier : option Z) (s : MqttSession.t) (sub : MqttSubOption)
    : option Z :=
  let code v := if v5 then v else SubackReason.UNSPECIFIED_ERROR in
  let filter := so_topic_filter sub in
  if negb (MqttTopicTree.validate_topic_filter filter) then Some (code SubackReason.TOPIC_FILTER_INVALID)
  else if MqttTopicTree.is_shared_subscription filter && negb (cf_shared_subscription_available config_) then
    Some (code SubackReason.SHARED_SUBSCRIPTION_NOT_SUPPORTED)
  else if negb (cf_wildcard_subscription_available config_) && (contains chr_plus filter || contains chr_hash filter)
  then Some (code SubackReason.WILDCARD_SUBSCRIPTIONS_NOT_SUPPORTED)
  else if v5 && match identifier with Some _ => true | None => false end
          && negb (cf_subscription_identifier_available config_) then
    Some SubackReason.SUBSCRIPTION_IDENTIFIERS_NOT_SUPPORTED
  else if refused (fun h => on_subscribe h s filter (so_maximum_qos sub)) then
    Some (code SubackReason.NOT_AUTHORIZED)
  else None.

Definition granted_qos (sub : MqttSubOption) : QoS :=
  if cf_maximum_qos config_ <? so_maximum_qos sub then cf_maximum_qos config_ else so_maximum_qos sub.

Definition tree_subscription (sid : Z) (v5 : bool) (identifier : option Z) (sub : MqttSubOption)
    : MqttSubscription :=
  let group := extract_shared_group (so_topic_filter sub) in
  mkSubscription sid (granted_qos sub) (so_no_local sub) (so_retain_as_published sub) (so_retain_handling sub)
    (if v5 then identifier else None)
    (default [] group) (match group with Some _ => so_topic_filter sub | None => [] end).

(** The packet that carries a retained message to a new subscriber. *)
Definition retained_packet (rm : MqttRetainedMessage) (granted : QoS) (packet_id : option Z) (v5 : bool)
    : MqttPublishPacket :=
  mkPublish 0 (if rm_qos rm <? granted then rm_qos rm else granted) 1 (rm_topic rm) packet_id (rm_payload rm)
    (if v5 then
       set_payload_format_indicator (rm_payload_format_indicator rm)
         (set_message_expiry_interval (rm_message_expiry_interval rm)
            (set_content_type (rm_content_type rm) (set_user_properties (rm_user_properties rm) no_props)))
     else no_props).

Definition send_retained session (sub : MqttSubOption) (granted : QoS) (rm : MqttRetainedMessage) : M unit :=
  if so_retain_handling sub =? 2 then mskip
  else
    let ret_qos := pb_qos (retained_packet rm granted None false) in
    packet_id ← (if negb (ret_qos =? AT_MOST_ONCE)
                 then id ← next_packet_id session; mret (Some id) else mret None);
    s ← get_session session; w ← mget;
    match MqttSession.connection (alive w) s with
    | None => mskip
    | Some conn =>
        let level := MqttSession.protocol_level_ s in
        write_and_flush conn (MqttCodec.encode_publish (retained_packet rm granted packet_id (is_v5 level)) level)
    end.

(** One round of the loop of [handle_subscribe]: the reason code pushed. *)
Definition subscribe_one session (identifier : option Z) (sub : MqttSubOption) : M Z :=
  s ← get_session session;
  let v5 := is_v5 (MqttSession.protocol_level_ s) in
  match subscribe_refusal v5 identifier s sub with
  | Some code => mret code
  | None =>
      let granted := granted_qos sub in
      _ ← tree_subscribe (so_topic_filter sub) (tree_subscription (MqttSession.session_id_ s) v5 identifier sub);
      _ ← modify_session session (MqttSession.add_subscription (so_topic_filter sub) granted);
      w ← mget;
      _ ← mfor (MqttRetainedStore.match_filter (so_topic_filter sub) (retained_store_ w))
            (send_retained session sub granted);
      mret granted
  end.

Definition handle_subscribe session (data : bytes) (len : Z) : M B :=
  s ← get_session session;
  sub_opt ← mtry (MqttCodec.decode_subscribe data len (MqttSession.protocol_level_ s));
  match sub_opt with
  | None => protocol_error_disconnect session DisconnectReason.MALFORMED_PACKET
  | Some sub_pkt =>
      if (sb_packet_id sub_pkt =? 0) || bool_decide (sb_subscriptions sub_pkt = []) then
        protocol_error_disconnect session DisconnectReason.MALFORMED_PACKET
      else
        reason_codes ← mmap (sb_subscriptions sub_pkt)
          (subscribe_one session (subscription_identifier (sb_properties sub_pkt)));
        s ← get_session session;
        mlift (MqttCodec.encode_suback (sb_packet_id sub_pkt) reason_codes (MqttSession.protocol_level_ s) no_props)
  end.

Definition unsubscribe_one session (filter : bytes) : M Z :=
  s ← get_session session;
  _ ← tree_unsubscribe filter (MqttSession.session_id_ s);
  _ ← modify_session session (MqttSession.remove_subscription filter);
  _ ← notify (EvUnsubscribe (MqttSession.session_id_ s) filter);
  mret UnsubackReason.SUCCESS.

Definition handle_unsubscribe session (data : bytes) (len : Z) : M B :=
  s ← get_session session;
  unsub_opt ← mtry (MqttCodec.decode_unsubscribe data len (MqttSession.protocol_level_ s));
  match unsub_opt with
  | None => protocol_error_disconnect session DisconnectReason.MALFORMED_PACKET
  | Some unsub_pkt =>
      if (us_packet_id unsub_pkt =? 0) || bool_decide (us_topic_filters unsub_pkt = []) then
        protocol_error_disconnect session DisconnectReason.MALFORMED_PACKET
      else
        reason_codes ← mmap (us_topic_filters unsub_pkt) (unsubscribe_one session);
        s ← get_session session;
        mlift (MqttCodec.encode_unsuback (us_packet_id unsub_pkt) reason_codes (MqttSession.protocol_level_ s) no_props)
  end.

(** * CONNECT *)

(** The refusals of [handle_connect]: set the level, leave, answer CONNACK. *)
Definition refuse_connect session (level : ProtocolLevel) (code : Z) : M B :=
  _ ← modify_session session (MqttSession.set_protocol_level level);
  _ ← set_state session disconnecting;
  mlift (MqttCodec.encode_connack (mkConnack 0 code no_props) level).

(** Disconnecting the session that holds the client id. *)
Definition take_over session (old_session : option Z) (clean_start : bool) : M unit :=
  match old_session with
  | None => mskip
  | Some old =>
      if old =? session then mskip
      else
        s ← get_session old;
        let old_online := state_eqb (MqttSession.state_ s) connected || state_eqb (MqttSession.state_ s) connecting in
        if old_online || clean_start then
          _ ← notify (EvDisconnected (MqttSession.session_id_ s) 0);
          _ ← set_state old disconnecting;
          close_session_connection old
        else mskip
  end.

Definition find_session_present session (client_id : bytes) (clean_start : bool) : M Z :=
  if negb (bool_decide (client_id = [])) && negb clean_start then
    existing ← find_by_client_id client_id;
    match existing with
    | None => mret 0
    | Some loc =>
        s ← get_session loc;
        mret (if negb (loc =? session) && state_eqb (MqttSession.state_ s) disconnected
                 && (0 <? MqttSession.session_expiry_interval_ s) then 1 else 0)
    end
  else mret 0.

(** [clean_start]: the subscriptions of the previous session go. *)
Definition drop_previous session (client_id : bytes) (clean_start : bool) : M unit :=
  if clean_start then
    existing ← find_by_client_id client_id;
    match existing with
    | None => mskip
    | Some loc =>
        if loc =? session then mskip
        else s ← get_session loc; tree_remove_all (MqttSession.session_id_ s)
    end
  else mskip.

Definition will_of (connect : MqttConnectPacket) (v5 : bool) : MqttWillMessage :=
  let f := cp_connect_flags connect in
  let p := cp_will_properties connect in
  let topic := default [] (cp_will_topic connect) in
  let payload := default [] (cp_will_payload connect) in
  let qos := Z.land (Z.shiftr f MQTT_CONNECT_FLAG_WILL_QOS_SHIFT) 3 in
  let retain := flag_set f MQTT_CONNECT_FLAG_WILL_RETAIN in
  if v5 then
    mkWill topic payload qos retain (will_delay_interval p) (payload_format_indicator p)
      (message_expiry_interval p) (content_type p) (response_topic p) (correlation_data p) (user_properties p)
  else mkWill topic payload qos retain None None None None None None [].

(** The session members that the CONNECT properties set. *)
Definition apply_connect_properties (p : MqttProperties) (s : MqttSession.t) : MqttSession.t :=
  let s := match receive_maximum p with Some v => MqttSession.set_client_receive_maximum v s | None => s end in
  let s := MqttSession.set_receive_maximum
             (Z.min (MqttSession.client_receive_maximum_ s) (cf_receive_maximum config_)) s in
  let s := MqttSession.set_topic_alias_maximum
             (default (cf_topic_alias_maximum config_) (topic_alias_maximum p)) s in
  let s := match maximum_packet_size p with Some v => MqttSession.set_maximum_packet_size v s | None => s end in
  match session_expiry_interval p with Some v => MqttSession.set_session_expiry_interval v s | None => s end.

Definition flag_byte (b : bool) : Z := if b then 1 else 0.

Definition server_keep_alive_for (connect : MqttConnectPacket) : option Z :=
  if (cp_keep_alive connect =? 0) && negb (cf_keep_alive_default config_ =? MQTT_KEEP_ALIVE_DEFAULT)
  then Some (cf_keep_alive_default config_) else None.

Definition connack_properties (connect : MqttConnectPacket) (client_id : bytes) : MqttProperties :=
  set_receive_maximum (Some (cf_receive_maximum config_))
    (set_topic_alias_maximum (Some (cf_topic_alias_maximum config_))
    (set_maximum_qos (Some (cf_maximum_qos config_))
    (set_retain_available (Some (flag_byte (cf_retain_available config_)))
    (set_wildcard_subscription_available (Some (flag_byte (cf_wildcard_subscription_available config_)))
    (set_subscription_identifier_available (Some (flag_byte (cf_subscription_identifier_available config_)))
    (set_shared_subscription_available (Some (flag_byte (cf_shared_subscription_available config_)))
    (set_maximum_packet_size (Some (cf_max_packet_size config_))
    (set_assigned_client_identifier (Some client_id)
    (set_server_keep_alive (server_keep_alive_for connect) no_props))))))))).

(** What an accepted CONNECT does to the session object. *)
Definition connect_session (connect : MqttConnectPacket) (s : MqttSession.t) : MqttSession.t :=
  let v5 := is_v5 (cp_protocol_level connect) in
  let f := cp_connect_flags connect in
  let keep_alive := if cp_keep_alive connect =? 0 then cf_keep_alive_default config_ else cp_keep_alive connect in
  let s := MqttSession.set_protocol_level (cp_protocol_level connect) s in
  let s := MqttSession.set_keep_alive keep_alive s in
  let s := MqttSession.set_clean_start (flag_set f MQTT_CONNECT_FLAG_CLEAN_START) s in
  let s := MqttSession.set_state connected s in
  let s := if flag_set f MQTT_CONNECT_FLAG_WILL_FLAG
           then MqttSession.set_will_message (will_of connect v5) s else s in
  if v5 then
    let s := apply_connect_properties (cp_properties connect) s in
    match server_keep_alive_for connect with Some v => MqttSession.set_keep_alive v s | None => s end
  else s.

(** [handle_connect] from [bind_client_id] on. *)
Definition accept_connect session (connect : MqttConnectPacket) (client_id : bytes) (session_present : Z) : M B :=
  let v5 := is_v5 (cp_protocol_level connect) in
  _ ← bind_client_id session client_id;
  _ ← modify_session session (connect_session connect);
  s ← get_session session;
  _ ← notify (EvConnected (MqttSession.session_id_ s));
  mlift (MqttCodec.encode_connack
           (mkConnack session_present ConnackCode.ACCEPTED
              (if v5 then connack_properties connect client_id else no_props))
           (MqttSession.protocol_level_ s)).

(** [handle_connect] with the client id settled. *)
Definition connect_client session (connect : MqttConnectPacket) (client_id : bytes) : M B :=
  let level := cp_protocol_level connect in
  let f := cp_connect_flags connect in
  let clean_start := flag_set f MQTT_CONNECT_FLAG_CLEAN_START in
  old_session ← find_by_client_id client_id;
  _ ← take_over session old_session clean_start;
  let username := if flag_set f MQTT_CONNECT_FLAG_USERNAME then default [] (cp_username connect) else [] in
  let password := if flag_set f MQTT_CONNECT_FLAG_PASSWORD then default [] (cp_password connect) else [] in
  s ← get_session session;
  if cf_require_authentication config_ && bool_decide (username = []) then
    refuse_connect session level
      (if is_v5 level then ConnackCode.V5_BAD_USER_NAME_OR_PASSWORD else ConnackCode.BAD_USER_NAME_OR_PASSWORD)
  else if refused (fun h => on_connect h s client_id username password) then
    refuse_connect session level
      (if is_v5 level then ConnackCode.V5_NOT_AUTHORIZED else ConnackCode.NOT_AUTHORIZED)
  else
    session_present ← find_session_present session client_id clean_start;
    _ ← drop_previous session client_id clean_start;
    accept_connect session connect client_id session_present.

Definition handle_connect session (data : bytes) (len : Z) : M B :=
  connect_opt ← mtry (MqttCodec.decode_connect data len);
  match connect_opt with
  | None =>
      _ ← set_state session disconnecting;
      protocol_error_disconnect session DisconnectReason.MALFORMED_PACKET
  | Some connect =>
      let level := cp_protocol_level connect in
      if negb (existsb (fun v => bool_decide (v = level)) (cf_supported_versions config_)) then
        refuse_connect session level
          (if is_v5 level then ConnackCode.V5_UNSUPPORTED_PROTOCOL_VERSION
           else ConnackCode.UNACCEPTABLE_PROTOCOL_VERSION)
      else match cp_client_id connect with
           | [] =>
               if negb (is_v5 level) then refuse_connect session level ConnackCode.IDENTIFIER_REJECTED
               else
                 s ← get_session session;
                 connect_client session connect (str "auto-" ++ to_string (MqttSession.session_id_ s))
           | client_id => connect_client session connect client_id
           end
  end.

(** * The remaining packets *)
Definition handle_pingreq session : M B :=
  w ← mget;
  _ ← modify_session session (MqttSession.update_last_activity (now w));
  mlift MqttCodec.encode_pingresp.

Definition handle_disconnect session (data : bytes) (len : Z) : M B :=
  s ← get_session session;
  let was_connected := state_eqb (MqttSession.state_ s) connected in
  _ ← set_state session disconnected;
  keep_will ← (if is_v5 (MqttSession.protocol_level_ s) && (0 <? len) then
                 disc_opt ← mtry (MqttCodec.decode_disconnect data len);
                 mret match disc_opt with
                      | Some disc => rp_reason_code disc =? DisconnectReason.DISCONNECT_WITH_WILL_MESSAGE
                      | None => false
                      end
               else mret false);
  _ ← mwhen (negb keep_will) (modify_session session MqttSession.clear_will_message);
  _ ← mwhen (was_connected && (MqttSession.session_expiry_interval_ s =? 0))
        (tree_remove_all (MqttSession.session_id_ s));
  no_response.

Definition handle_auth session (data : bytes) (len : Z) : M B :=
  s ← get_session session;
  if negb (is_v5 (MqttSession.protocol_level_ s)) then no_response
  else
    auth_opt ← mtry (MqttCodec.decode_auth data len);
    match auth_opt with
    | None => protocol_error_disconnect session DisconnectReason.MALFORMED_PACKET
    | Some auth =>
        let method := default [] (authentication_method (rp_properties auth)) in
        let auth_data := default [] (authentication_data (rp_properties auth)) in
        if bool_decide (method = []) then
          protocol_error_disconnect session DisconnectReason.BAD_AUTHENTICATION_METHOD
        else if match handler_ with Some h => on_auth h s method auth_data | None => false end then
          mlift (MqttCodec.encode_auth AuthReason.SUCCESS no_props)
        else
          mlift (MqttCodec.encode_disconnect DisconnectReason.BAD_AUTHENTICATION_METHOD
                   (MqttSession.protocol_level_ s) no_props)
    end.

(** The [switch] of [dispatch]. *)
Definition handle_packet session (type : PacketType) (flags : Z) (body : bytes) (body_len : Z) : M B :=
  match type with
  | CONNECT => handle_connect session body body_len
  | PUBLISH => handle_publish session body body_len flags
  | PUBACK => handle_puback session body body_len
  | PUBREC => handle_pubrec session body body_len
  | PUBREL => handle_pubrel session body body_len
  | PUBCOMP => handle_pubcomp session body body_len
  | SUBSCRIBE => handle_subscribe session body body_len
  | UNSUBSCRIBE => handle_unsubscribe session body body_len
  | PINGREQ => handle_pingreq session
  | DISCONNECT => handle_disconnect session body body_len
  | AUTH => handle_auth session body body_len
  | _ => no_response
  end.

Definition dispatch session (data : bytes) (len : Z) : M B :=
  if len =? 0 then no_response
  else
    first_byte ← mlift (rd data 0);
    let pkt_type := PacketType_cast (Z.land (Z.shiftr first_byte 4) 15) in
    let flags := Z.land first_byte 15 in
    s ← get_session session;
    let is_connected := state_eqb (MqttSession.state_ s) connected in
    if negb is_connected && negb (bool_decide (pkt_type = CONNECT)) then
      protocol_error_disconnect session DisconnectReason.PROTOCOL_ERROR
    else if is_connected && bool_decide (pkt_type = CONNECT) then
      _ ← set_state session disconnecting;
      _ ← close_session_connection session;
      protocol_error_disconnect session DisconnectReason.PROTOCOL_ERROR
    else if negb (is_valid_packet_flags pkt_type flags) then
      _ ← set_state session disconnecting;
      protocol_error_disconnect session DisconnectReason.MALFORMED_PACKET
    else
      lens ← mtry (parse_remaining_length data len);
      match lens with
      | None => protocol_error_disconnect session DisconnectReason.MALFORMED_PACKET
      | Some (fixed_header_len, body_len) =>
          handle_packet session pkt_type flags (drop (Z.to_nat fixed_header_len) data) body_len
      end.

(** * Leaving *)

Definition will_packet (will : MqttWillMessage) (v5 : bool) : MqttPublishPacket :=
  mkPublish 0 (will_qos will) (if will_retain will then 1 else 0) (will_topic will) None (will_payload will)
    (if v5 then
       set_payload_format_indicator (will_payload_format_indicator will)
         (set_message_expiry_interval (will_message_expiry_interval will)
         (set_content_type (will_content_type will)
         (set_response_topic (will_response_topic will)
         (set_correlation_data (will_correlation_data will)
         (set_user_properties (will_user_properties will) no_props)))))
     else no_props).

Definition will_retained (will : MqttWillMessage) (v5 : bool) : MqttRetainedMessage :=
  if v5 then mkRetained (will_topic will) (will_payload will) (will_qos will) 0 (will_message_expiry_interval will)
               (will_payload_format_indicator will) (will_content_type will) (will_user_properties will)
  else mkRetained (will_topic will) (will_payload will) (will_qos will) 0 None None None [].

Definition send_will_message session : M unit :=
  s ← get_session session;
  match MqttSession.will_message s with
  | None => mskip
  | Some will =>
      let v5 := is_v5 (MqttSession.protocol_level_ s) in
      _ ← publish_to_subscribers session (will_packet will v5);
      _ ← mwhen (will_retain will) (retained_store (will_retained will v5));
      modify_session session MqttSession.clear_will_message
  end.

(** Whether the will delay has not elapsed yet. *)
Definition will_delayed (time : Z) (s : MqttSession.t) : bool :=
  if is_v5 (MqttSession.protocol_level_ s) then
    match MqttSession.will_message s with
    | Some will =>
        match will_will_delay_interval will with
        | Some delay =>
            (0 <? delay)
            && (MqttRetainedStore.seconds_between (MqttSession.last_activity_ s) time <? delay)
        | None => false
        end
    | None => false
    end
  else false.

Definition on_session_closed session : M unit :=
  s ← get_session session; w ← mget;
  _ ← mwhen (negb (will_delayed (now w) s)) (send_will_message session);
  s ← get_session session;
  _ ← mwhen (MqttSession.session_expiry_interval_ s =? 0) (tree_remove_all (MqttSession.session_id_ s));
  _ ← notify (EvDisconnected (MqttSession.session_id_ s) 0);
  set_state session disconnected.

Definition build_publish_for_session session (topic payload : bytes) (qos : QoS) (retain : bool)
    (props : MqttProperties) : M B :=
  packet_id ← (if negb (qos =? AT_MOST_ONCE) then id ← next_packet_id session; mret (Some id) else mret None);
  s ← get_session session;
  mlift (MqttCodec.encode_publish (mkPublish 0 qos (if retain then 1 else 0) topic packet_id payload props)
           (MqttSession.protocol_level_ s)).

End Dispatcher.

End MqttDispatcher.
