(* ===== verification/MqttDispatcherFacts.v ===== *)
(** The dispatcher runs to completion.

    For a broker in its invariant and a packet that fits the memory it is read from,
    every handler returns: no read leaves the packet, no header overruns, no pointer
    dangles, no loop diverges, and the invariant of the whole broker holds again. *)
From S2P Require Import Prelude Containers Strings ByteBuffer ByteBufferFacts MqttProtocol MqttProperties.
From S2P Require Import MqttPropertiesFacts MqttCodec MqttCodecFacts MqttDecodeSound MqttSession.
From S2P Require Import MqttTopicTree MqttTopicTreeFacts MqttRetainedStore MqttBroker.
From S2P Require Import MqttBrokerFacts MqttDispatcher.
Import MqttProperties MqttCodec MqttDispatcher.

(** * Sizes *)
Ltac weigh p :=
  destruct p as [a0 a1 a2 a3 a4 a5 a6 a7 a8 a9 a10 a11 a12 a13 a14 a15 a16 a17 a18 a19 a20 a21 a22 a23 a24 a25 a26];
  unfold weight, props_items, kept_props, no_props;
  cbn [set_payload_format_indicator set_message_expiry_interval set_content_type set_response_topic set_correlation_data
    set_subscription_identifier set_user_properties
    payload_format_indicator message_expiry_interval content_type response_topic correlation_data
    subscription_identifier session_expiry_interval assigned_client_identifier server_keep_alive
    authentication_method authentication_data request_problem_information will_delay_interval
    request_response_information response_information server_reference reason_string receive_maximum
    topic_alias_maximum topic_alias maximum_qos retain_available maximum_packet_size
    wildcard_subscription_available subscription_identifier_available shared_subscription_available user_properties];
  rewrite ?enc_items_app, ?zlen_app; change (@opt_item ?A None ?id ?k) with (@nil (PropertyId * prop_value));
  change (enc_items []) with (@nil Z); rewrite ?zlen_nil; zlen_pos; lia.

(** Keeping some members of a property set does not make it longer. *)
Lemma weight_kept p :
  weight (kept_props (message_expiry_interval p) (payload_format_indicator p) (content_type p) (user_properties p))
  <= weight p.
Proof. weigh p. Qed.

Lemma weight_will p :
  weight (set_payload_format_indicator (payload_format_indicator p)
    (set_message_expiry_interval (message_expiry_interval p)
    (set_content_type (content_type p)
    (set_response_topic (response_topic p)
    (set_correlation_data (correlation_data p)
    (set_user_properties (user_properties p) no_props)))))) <= weight p.
Proof. weigh p. Qed.

Lemma weight_set_identifier o p :
  match o with Some i => is_u32 i | None => True end -> weight (set_subscription_identifier o p) <= weight p + 6.
Proof.
  intros Ho. assert (zlen (enc_items (opt_item o SUBSCRIPTION_IDENTIFIER PVar)) <= 6) as Hl.
  { destruct o as [i|]; [|change (0 <= 6); lia]. rewrite opt_item_some, zlen_enc_one, zlen_enc_item.
    cbn [snd enc_value]. pose proof (vbi_len_le 5 i). lia. }
  weigh p.
Qed.

Lemma ids_set_identifier o p :
  match o with Some i => is_u32 i | None => True end -> ids_u32 (set_subscription_identifier o p).
Proof. destruct p. done. Qed.

Lemma zlen_enc_props_weight p : weight p <= MESSAGE_MAX + 6 -> zlen (enc_props p) <= 5 + weight p.
Proof.
  unfold enc_props, weight, MESSAGE_MAX. intros. rewrite zlen_app.
  pose proof (vbi_len_le 5 (u32 (zlen (enc_items (props_items p))))). lia.
Qed.

Lemma weight_le_enc_props p : weight p <= zlen (enc_props p).
Proof. unfold enc_props, weight. zlia. Qed.

Lemma weight_nonneg p : 0 <= weight p.
Proof. apply zlen_nonneg. Qed.

Lemma zlen_level_props level p : weight p <= MESSAGE_MAX + 6 -> 0 <= zlen (enc_level_props level p) <= 5 + weight p.
Proof.
  intros. pose proof (weight_nonneg p). unfold enc_level_props. split; [apply zlen_nonneg|].
  destruct level; simpl; [zlia|]. by apply zlen_enc_props_weight.
Qed.

Lemma publish_body_small pkt level : str_ok (pb_topic pkt) ->
  zlen (pb_payload pkt) + weight (pb_properties pkt) <= MESSAGE_MAX + 6 ->
  zlen (publish_body pkt level) <= MQTT_MAX_REMAINING_LENGTH.
Proof.
  unfold str_ok, publish_body. intros Ht Hw. pose proof (zlen_nonneg (pb_payload pkt)) as H0.
  pose proof (zlen_level_props level (pb_properties pkt) ltac:(lia)) as Hl.
  rewrite !zlen_app, zlen_prefixed.
  assert (zlen (if pb_qos pkt =? AT_MOST_ONCE then [] else be16 (default 0 (pb_packet_id pkt))) <= 2)
    by (case_if; [zlia|rewrite zlen_be16; lia]).
  unfold MQTT_MAX_REMAINING_LENGTH, MESSAGE_MAX in *. lia.
Qed.

(** The packet a PUBLISH decodes to, before it is delivered. *)
Definition packet_ok (pkt : MqttPublishPacket) : Prop :=
  message_ok (pb_topic pkt) (pb_payload pkt) (pb_qos pkt) (pb_properties pkt) /\ 0 <= pb_retain pkt <= 1.

Lemma ack_small packet_id reason level :
  zlen (ack_body packet_id reason level no_props) <= MQTT_MAX_REMAINING_LENGTH.
Proof. unfold ack_body. rewrite zlen_app, zlen_be16. unfold MQTT_MAX_REMAINING_LENGTH. destruct level; simpl; [zlia|]. rewrite zlen_cons. change (zlen (enc_props no_props)) with 1. lia. Qed.

Lemma reason_small reason : zlen (reason_body reason no_props) <= MQTT_MAX_REMAINING_LENGTH.
Proof. unfold reason_body. rewrite zlen_cons. change (zlen (enc_props no_props)) with 1. unfold MQTT_MAX_REMAINING_LENGTH. lia. Qed.

Section Runs.
Context {B : Type} `{ByteSink B}.
Variables (config_ : MqttServerConfig) (handler_ : option MqttHandler).
Implicit Types (w : World) (session : Z).

(** A response: a buffer that holds [x]. *)
Definition reply (x : bytes) (b : B) (w : World) : Prop := sink_ok b /\ sink_contents b = x.
Definition any_reply (b : B) (w : World) : Prop := sink_ok b.

Lemma wp_encodes m x w : broker_ok w -> encodes m x -> wp (mlift m) w (reply x).
Proof. intros Hok (b & E & Hb & Hc). by eapply wp_lift. Qed.

Lemma wp_any m x w : broker_ok w -> encodes m x -> wp (mlift m) w any_reply.
Proof. intros Hok (b & E & Hb & Hc). by eapply wp_lift. Qed.

Lemma wp_no_response w : broker_ok w -> wp no_response w (reply []).
Proof. intros. apply wp_ret; [done|]. apply sink_new_ok. unfold ByteBuffer.kDefaultCapacity. lia. Qed.

Lemma wp_no_response_any w : broker_ok w -> wp no_response w any_reply.
Proof. intros. eapply wp_conseq; [by apply wp_no_response|]. by intros ? ? ? ? []. Qed.

Lemma disconnect_encodes reason level :
  encodes (encode_disconnect (B:=B) reason level no_props)
    (if is_v5 level then frame DISCONNECT 0 (reason_body reason no_props) else [224; 0]).
Proof. apply encode_disconnect_frame; [exact I|apply reason_small]. Qed.

Lemma ack_encodes t f packet_id reason level : packet_flags f ->
  encodes (encode_simple_ack (B:=B) t f packet_id reason level no_props)
    (frame t f (ack_body packet_id reason level no_props)).
Proof. intros. apply encode_simple_ack_frame; [done|exact I|apply ack_small]. Qed.

(** What [protocol_error_disconnect] answers to a session. *)
Definition error_bytes (s : MqttSession.t) (reason : Z) : bytes :=
  if is_v5 (MqttSession.protocol_level_ s) then frame DISCONNECT 0 (reason_body reason no_props) else [].

Lemma wp_error session reason w : broker_ok w -> live w session ->
  wp (protocol_error_disconnect session reason) w any_reply.
Proof.
  intros Hok Hl. unfold protocol_error_disconnect. apply wp_bind, wp_get_session; [done|done|].
  intros s _ _ _. case_if; [by apply wp_no_response_any|]. eapply wp_any; [done|apply disconnect_encodes].
Qed.

Lemma wp_notify e w (Q : unit -> World -> Prop) : broker_ok w ->
  (forall w', broker_ok w' -> evolves w w' -> Q tt w') -> wp (notify handler_ e) w Q.
Proof.
  intros Hok HQ. unfold notify. destruct handler_; [by apply wp_emit|].
  apply wp_skip; [done|]. apply HQ; [done|apply evolves_refl].
Qed.

Lemma wp_set_state session st w (Q : unit -> World -> Prop) : broker_ok w -> live w session ->
  (forall w', broker_ok w' -> evolves w w' -> Q tt w') -> wp (set_state session st) w Q.
Proof. intros. apply wp_modify; try done. intros s []. split; [by constructor|done]. Qed.

Lemma wp_close session w (Q : unit -> World -> Prop) : broker_ok w -> live w session ->
  (forall w', broker_ok w' -> evolves w w' -> Q tt w') -> wp (close_session_connection session) w Q.
Proof.
  intros Hok Hl HQ. unfold close_session_connection. apply wp_bind, wp_get_session; [done|done|].
  intros s _ _ _. apply wp_bind, wp_get; [done|].
  destruct (MqttSession.connection _ _); [by apply wp_emit|].
  apply wp_skip; [done|]. apply HQ; [done|apply evolves_refl].
Qed.

(** * Delivery *)
Lemma wp_find_session sid all w : broker_ok w -> (forall loc, loc ∈ all -> live w loc) ->
  wp (find_session sid all) w (fun r _ => forall loc, r = Some loc -> live w loc).
Proof.
  intros Hok. induction all as [|loc all IH]; intros Hl; cbn [find_session].
  - by apply wp_ret.
  - apply wp_bind, wp_get_session; [done|apply Hl; left|]. intros s _ _ _. case_if.
    + apply wp_ret; [done|]. intros ? [= <-]. apply Hl; left.
    + apply IH. intros; apply Hl; by right.
Qed.

Lemma wp_next_packet_id session w : broker_ok w -> live w session ->
  wp (next_packet_id session) w (fun id _ => 1 <= id <= 65535).
Proof.
  intros Hok Hl. unfold next_packet_id. apply wp_bind, wp_get_session; [done|done|].
  intros s _ Hs Hid. pose proof (MqttSession.next_packet_id_ok s (se_packet_id s Hs)) as [Hid1 Hid2].
  destruct (MqttSession.next_packet_id s) as [id s'] eqn:E. simpl in Hid1, Hid2.
  assert (session_ok s' /\ MqttSession.session_id_ s' = MqttSession.session_id_ s) as [Hs' Hid'].
  { unfold MqttSession.next_packet_id in E. injection E as <- <-. destruct Hs. split; [by constructor|done]. }
  apply wp_bind, wp_put_session; [done|done|done|congruence|].
  intros. by apply wp_ret.
Qed.

Lemma wp_write conn m x w : broker_ok w -> encodes m x ->
  wp (write_and_flush conn m) w (fun _ _ => True).
Proof.
  intros Hok Hm. unfold write_and_flush. eapply wp_call; [by apply wp_encodes|].
  intros. by apply wp_emit.
Qed.

Lemma wp_optional_id (c : bool) session w : broker_ok w -> live w session ->
  wp (if c then id ← next_packet_id session; mret (Some id) else mret None) w (fun _ _ => True).
Proof.
  intros. destruct c; [|by apply wp_ret]. eapply wp_call; [by apply wp_next_packet_id|].
  intros. by apply wp_ret.
Qed.

Lemma subscriber_packet_encodes pkt sub id level : packet_ok pkt -> subscription_ok sub ->
  encodes (encode_publish (B:=B) (subscriber_packet pkt sub id (is_v5 level)) level)
    (frame PUBLISH (publish_flags (subscriber_packet pkt sub id (is_v5 level)))
       (publish_body (subscriber_packet pkt sub id (is_v5 level)) level)).
Proof.
  intros [(Ht & Hq & Hi & Hw) Hr] [Hsq Hsi]. unfold qos_ok in *.
  pose proof (zlen_nonneg (pb_payload pkt)) as H0.
  apply encode_publish_frame; cbn [subscriber_packet pb_dup pb_qos pb_retain pb_properties].
  - lia.
  - case_if; lia.
  - case_if; lia.
  - case_if; [by apply ids_set_identifier|exact I].
  - apply publish_body_small; cbn [subscriber_packet pb_topic pb_payload pb_properties]; [done|].
    case_if; [pose proof (weight_set_identifier _ (pb_properties pkt) Hsi); lia|].
    rewrite weight_no_props. unfold MESSAGE_MAX in *. pose proof (weight_nonneg (pb_properties pkt)). lia.
Qed.

Lemma wp_deliver sid pkt sub w : broker_ok w -> packet_ok pkt -> subscription_ok sub ->
  wp (deliver (B:=B) sid pkt sub) w (fun _ _ => True).
Proof.
  intros Hok Hp Hs. unfold deliver. case_if; [by apply wp_skip|].
  apply wp_bind, wp_get; [done|].
  eapply wp_call; [apply wp_find_session; [done|]; intros; by eapply all_sessions_live|].
  intros [loc|] w1 Hok1 Hev1 Hl; [|by apply wp_skip]. specialize (Hl loc eq_refl).
  apply wp_bind, wp_get_session; [done|by eapply ev_live|]. intros s _ _ _. case_if; [by apply wp_skip|].
  destruct (MqttSession.connection (alive w) s) as [conn|]; [|by apply wp_skip].
  eapply wp_call; [apply wp_optional_id; [done|by eapply ev_live]|]. intros id w2 Hok2 Hev2 _.
  eapply wp_write; [done|by apply subscriber_packet_encodes].
Qed.

(** The subscriptions chosen for delivery are among the matches. *)
Lemma split_groups_incl matches result groups r g :
  split_groups matches result groups = (r, g) ->
  (forall sub, sub ∈ r -> sub ∈ result \/ sub ∈ matches)
  /\ (forall entry sub, entry ∈ g -> sub ∈ entry.2 ->
        (exists entry', entry' ∈ groups /\ sub ∈ entry'.2) \/ sub ∈ matches).
Proof.
  revert result groups; induction matches as [|m matches IH]; intros result groups; simpl.
  { intros [= <- <-]. split; [auto|]. eauto. }
  destruct (sub_shared_group m) as [|c group] eqn:E; intros [IH1 IH2]%IH; split.
  - intros sub [Hin|]%IH1; [|rewrite elem_of_cons; auto].
    apply elem_of_app in Hin as [Hin|Hin]; [|apply list_elem_of_singleton in Hin as ->]; rewrite ?elem_of_cons; auto.
  - intros entry sub He Hs. destruct (IH2 entry sub He Hs); rewrite ?elem_of_cons; auto.
  - intros sub [|]%IH1; rewrite ?elem_of_cons; auto.
  - intros entry sub He Hs. destruct (IH2 entry sub He Hs) as [(e' & Hin & Hs')|]; [|rewrite elem_of_cons; auto].
    apply map_insert_elem in Hin as [->|Hin]; [|eauto]. simpl in Hs'.
    apply elem_of_app in Hs' as [Hs'|Hs']; [|apply list_elem_of_singleton in Hs' as ->; right; left].
    destruct (map_find (c :: group) groups) as [l|] eqn:Ef; [|by apply not_elem_of_nil in Hs'].
    apply map_find_elem in Ef. left. by exists (c :: group, l).
Qed.

Lemma apply_policy_incl matches sub : sub ∈ apply_shared_subscription_policy matches -> sub ∈ matches.
Proof.
  unfold apply_shared_subscription_policy. destruct matches as [|m ms]; [done|].
  destruct (split_groups (m :: ms) [] []) as [r g] eqn:E. apply split_groups_incl in E as [H1 H2].
  intros [Hin|Hin]%elem_of_app.
  - destruct (H1 sub Hin) as [Hnil|Hnil]; [by apply not_elem_of_nil in Hnil|done].
  - apply elem_of_flat_map in Hin as (entry & He & Hs). unfold pick_group in Hs.
    destruct entry.2 as [|x l] eqn:E; [by apply not_elem_of_nil in Hs|].
    destruct ((x :: l) !! _) as [y|] eqn:El; [|by apply not_elem_of_nil in Hs].
    apply list_elem_of_singleton in Hs as ->. apply list_elem_of_lookup_2 in El. rewrite <- E in El.
    destruct (H2 entry y He El) as [(e' & Hnil & _)|Hnil]; [by apply not_elem_of_nil in Hnil|done].
Qed.

(** What [match] returns are subscriptions of the tree. *)
Lemma match_recursive_subs node t sub :
  sub ∈ MqttTopicTree.match_recursive node t -> tree_ok node -> exists f, sub ∈ MqttTopicTree.subs_at node f.
Proof.
  revert node; induction t as [|x t IH]; intros node Hin Hn; simpl in Hin.
  - apply elem_of_app in Hin as [?|?]; [by exists []|by exists [MqttTopicTree.level_hash]].
  - destruct Hn as [ch slw mlw subs Hs Hl Hc Hsw Hmw]. simpl in Hin.
    apply elem_of_app in Hin as [Hin|[Hin|Hin]%elem_of_app].
    + destruct (map_find x ch) as [n|] eqn:E; [|by apply not_elem_of_nil in Hin].
      pose proof (map_find_elem _ _ _ E) as He. destruct (IH n Hin (Hc x n He)) as [f Hf]. exists (x :: f).
      rewrite subs_at_cons, step_literal by eauto. cbn [MqttTopicTree.children]. by rewrite E.
    + destruct slw as [n|]; [|by apply not_elem_of_nil in Hin].
      destruct (IH n Hin (Hsw n eq_refl)) as [f Hf]. by exists (MqttTopicTree.level_plus :: f).
    + by exists [MqttTopicTree.level_hash].
Qed.

Lemma match_topic_subs topic root sub : tree_ok root ->
  sub ∈ MqttTopicTree.match_topic topic root -> exists f, sub ∈ MqttTopicTree.subs_at root f.
Proof.
  intros Hr. unfold MqttTopicTree.match_topic. destruct (MqttTopicTree.split_topic topic) as [|l0 t]; [by intros ?%not_elem_of_nil|].
  case_if; [|intros; by eapply match_recursive_subs].
  destruct (map_find l0 (MqttTopicTree.children root)) as [n|] eqn:E; [|by intros ?%not_elem_of_nil].
  destruct Hr as [ch slw mlw subs Hs Hl Hc Hsw Hmw]. simpl in E. pose proof (map_find_elem _ _ _ E) as He.
  intros Hin. destruct (match_recursive_subs n t sub Hin (Hc l0 n He)) as [f Hf]. exists (l0 :: f).
  rewrite subs_at_cons, step_literal by eauto. cbn [MqttTopicTree.children]. by rewrite E.
Qed.

Lemma wp_publish_to_subscribers session pkt w : broker_ok w -> live w session -> packet_ok pkt ->
  wp (publish_to_subscribers (B:=B) session pkt) w (fun _ _ => True).
Proof.
  intros Hok Hl Hp. unfold publish_to_subscribers. apply wp_bind, wp_get_session; [done|done|].
  intros s _ _ _. apply wp_bind, wp_get; [done|].
  apply wp_for with (P := fun _ => True); [done|done|done| |done].
  intros sub w' Hin Hok' _. apply wp_deliver; [done|done|].
  apply apply_policy_incl, match_topic_subs in Hin as [f Hf]; [|apply Hok]. by apply (bo_subs w Hok f).
Qed.

(** * The packet handlers *)

(** A packet body of [len] bytes at the start of the memory [data]. *)
Definition packet_memory (data : bytes) (len : Z) : Prop :=
  Forall is_u8 data /\ 0 <= len <= zlen data /\ len <= MESSAGE_MAX.

Lemma level_props_ids level p : level_props_ok level p -> ids_u32 p.
Proof. unfold level_props_ok. destruct level; simpl; [by intros ->|apply props_ok_ids]. Qed.

Lemma level_props_weight level p : level_props_ok level p -> weight p <= zlen (enc_level_props level p).
Proof.
  unfold level_props_ok, enc_level_props. destruct level; simpl; [by intros ->|].
  intros _. apply weight_le_enc_props.
Qed.

Lemma decoded_packet_ok data len flags level pkt topic : packet_memory data len -> 0 <= flags < 16 ->
  decode_publish data len flags level = Ok pkt -> str_ok topic -> packet_ok (with_topic topic pkt).
Proof.
  intros (Hd & Hl & Hm) Hf Hdec Ht. unfold MESSAGE_MAX in Hm.
  apply decode_publish_inv in Hdec as ((_ & Hq & Hr & _ & _ & Hp & _) & Hb & _);
    [|done|done|unfold MQTT_MAX_REMAINING_LENGTH; lia|done].
  unfold packet_ok, message_ok, qos_ok, with_topic. cbn [pb_topic pb_payload pb_qos pb_properties pb_retain].
  split_and!; try lia; [done|by eapply level_props_ids|].
  pose proof (level_props_weight _ _ Hp). unfold publish_body in Hb. rewrite !zlen_app in Hb. zlen_pos.
  unfold MESSAGE_MAX. lia.
Qed.

Lemma kept_message_ok pkt qos v5 : packet_ok pkt -> qos_ok qos -> retained_ok (retained_of pkt qos v5).
Proof.
  intros [(Ht & _ & Hi & Hw) _] Hq. unfold retained_of, retained_ok, message_ok, retained_props.
  destruct (pb_payload pkt) as [|b p] eqn:E.
  - cbn [rm_topic rm_qos rm_payload rm_message_expiry_interval rm_payload_format_indicator rm_content_type rm_user_properties].
    split_and!; try done; unfold qos_ok, AT_MOST_ONCE; lia.
  - rewrite <- E in *. clear E b p. pose proof (weight_kept (pb_properties pkt)). pose proof (weight_nonneg (pb_properties pkt)).
    destruct v5; cbn [rm_topic rm_qos rm_payload rm_message_expiry_interval rm_payload_format_indicator rm_content_type rm_user_properties];
      (split_and!; [done|done|done|]).
    + lia.
    + change (weight _) with 0. lia.
Qed.

Lemma wp_resolve_topic session pkt w : broker_ok w -> live w session -> str_ok (pb_topic pkt) ->
  wp (resolve_topic session pkt) w (fun r _ => forall topic, r = Some topic -> str_ok topic).
Proof.
  intros Hok Hl Ht. unfold resolve_topic. apply wp_bind, wp_get_session; [done|done|]. intros s _ Hs Hid.
  destruct (if is_v5 _ then _ else _) as [alias|]; [|by apply wp_ret; [|intros ? [= <-]]].
  case_if; [by apply wp_ret|]. case_if; [by apply wp_ret|].
  destruct (pb_topic pkt) as [|c topic] eqn:E.
  - unfold MqttSession.resolve_topic_alias.
    destruct (map_find alias (MqttSession.topic_aliases_ s)) as [[|c topic]|] eqn:Ef; [by apply wp_ret| |by apply wp_ret].
    apply map_find_elem in Ef. apply wp_ret; [done|]. intros ? [= <-]. by eapply se_alias.
  - apply wp_bind, wp_put_session; [done|done| |done|].
    + destruct Hs as [H1 H2 H3]. constructor; [done|done|]. simpl.
      intros a t [[= -> ->]|]%map_insert_elem; [done|by eapply H3].
    + intros. apply wp_ret; [done|]. by intros ? [= <-].
Qed.

Lemma wp_accept_publish session pkt qos retain w : broker_ok w -> live w session -> packet_ok pkt -> qos_ok qos ->
  wp (accept_publish (B:=B) session pkt qos retain) w any_reply.
Proof.
  intros Hok Hl Hp Hq. unfold accept_publish. apply wp_bind, wp_get_session; [done|done|]. intros s _ _ _.
  eapply wp_call with (P := fun _ _ => True).
  { apply wp_when; [done| |done]. intros _. apply wp_retained_store; [done|by apply kept_message_ok|done]. }
  intros _ w1 Hok1 Hev1 _.
  eapply wp_call; [apply wp_publish_to_subscribers; [done|by eapply ev_live|done]|]. intros _ w2 Hok2 Hev2 _.
  assert (live w2 session) by eauto with s2p.
  case_if; [by apply wp_no_response_any|].
  case_if; [eapply wp_any; [done|by apply ack_encodes]|].
  apply wp_bind, wp_modify; [done|done| |].
  - intros s' []. split; [by constructor|done].
  - intros w3 Hok3 Hev3. eapply wp_any; [done|by apply ack_encodes].
Qed.

Lemma flags_qos flags : qos_ok (Z.land (Z.shiftr flags MQTT_PUBLISH_FLAG_QOS_SHIFT) 3).
Proof.
  unfold qos_ok. change 3 with (Z.ones 2) at 1 2. rewrite Z.land_ones by lia.
  pose proof (Z.mod_pos_bound (Z.shiftr flags MQTT_PUBLISH_FLAG_QOS_SHIFT) (2 ^ 2)). lia.
Qed.

Lemma wp_handle_publish session data len flags w : broker_ok w -> live w session ->
  packet_memory data len -> 0 <= flags < 16 ->
  wp (handle_publish handler_ session data len flags) w any_reply.
Proof.
  intros Hok Hl Hm Hf. unfold handle_publish. apply wp_bind, wp_get_session; [done|done|]. intros s _ Hs Hid.
  apply wp_bind, wp_try; [done|apply decode_publish_safe, Hm| |intros _; by apply wp_error].
  intros pkt Hdec.
  assert (str_ok (pb_topic pkt)) as Ht.
  { destruct Hm as (? & ? & ?). apply decode_publish_inv in Hdec as ((_ & _ & _ & ? & _) & _); try done.
    unfold MESSAGE_MAX, MQTT_MAX_REMAINING_LENGTH in *. lia. }
  eapply wp_call; [by apply wp_resolve_topic|]. intros [topic|] w1 Hok1 Hev1 Htopic;
    [|by apply wp_error; [|eapply ev_live]].
  specialize (Htopic topic eq_refl). cbv zeta.
  pose proof (decoded_packet_ok _ _ _ _ _ _ Hm Hf Hdec Htopic) as Hp.
  assert (live w1 session) by eauto with s2p.
  case_if; [by apply wp_error|]. case_if; [by apply wp_error|]. case_if; [by apply wp_error|].
  apply wp_bind, wp_get_session; [done|done|]. intros s1 _ _ _.
  case_if; [by apply wp_error|]. case_if; [eapply wp_any; [done|by apply ack_encodes]|].
  case_if.
  - unfold refuse_publish. case_if; [eapply wp_any; [done|by apply ack_encodes]|].
    case_if; [eapply wp_any; [done|by apply ack_encodes]|by apply wp_no_response_any].
  - apply wp_accept_publish; [done|done|done|apply flags_qos].
Qed.

Lemma ack_safe data len level : packet_memory data len -> safe (decode_simple_ack data len level).
Proof. intros (_ & ? & _). by apply decode_simple_ack_safe. Qed.

Lemma wp_handle_puback session data len w : broker_ok w -> live w session -> packet_memory data len ->
  wp (handle_puback (B:=B) handler_ session data len) w any_reply.
Proof.
  intros Hok Hl Hm. unfold handle_puback. apply wp_bind, wp_get_session; [done|done|]. intros s _ _ _.
  apply wp_bind, wp_try; [done|by apply ack_safe| |intros _; by apply wp_error].
  intros ack _. apply wp_bind, wp_notify; [done|]. intros. by apply wp_no_response_any.
Qed.

Lemma wp_handle_pubrec session data len w : broker_ok w -> live w session -> packet_memory data len ->
  wp (handle_pubrec (B:=B) session data len) w any_reply.
Proof.
  intros Hok Hl Hm. unfold handle_pubrec. apply wp_bind, wp_get_session; [done|done|]. intros s _ _ _.
  apply wp_bind, wp_try; [done|by apply ack_safe| |intros _; by apply wp_error].
  intros ack _. case_if; [by apply wp_error|]. eapply wp_any; [done|by apply ack_encodes].
Qed.

Lemma wp_handle_pubrel session data len w : broker_ok w -> live w session -> packet_memory data len ->
  wp (handle_pubrel (B:=B) session data len) w any_reply.
Proof.
  intros Hok Hl Hm. unfold handle_pubrel. apply wp_bind, wp_get_session; [done|done|]. intros s _ _ _.
  apply wp_bind, wp_try; [done|by apply ack_safe| |intros _; by apply wp_error].
  intros ack _. cbv zeta. case_if; [by apply wp_error|]. case_if; [eapply wp_any; [done|by apply ack_encodes]|].
  apply wp_bind, wp_modify; [done|done| |].
  - intros s' []. split; [by constructor|done].
  - intros. eapply wp_any; [done|by apply ack_encodes].
Qed.

Lemma wp_handle_pubcomp session data len w : broker_ok w -> live w session -> packet_memory data len ->
  wp (handle_pubcomp (B:=B) session data len) w any_reply.
Proof.
  intros Hok Hl Hm. unfold handle_pubcomp. apply wp_bind, wp_get_session; [done|done|]. intros s _ _ _.
  apply wp_bind, wp_try; [done|by apply ack_safe| |intros _; by apply wp_error].
  intros ack _. apply wp_bind, wp_modify; [done|done| |].
  - intros s' []. split; [by constructor|done].
  - intros. by apply wp_no_response_any.
Qed.

(** ** SUBSCRIBE and UNSUBSCRIBE *)
Hypothesis Hmaxqos : 0 <= cf_maximum_qos config_.

Lemma granted_ok sub : 0 <= so_maximum_qos sub <= 3 -> qos_ok (granted_qos config_ sub).
Proof. unfold qos_ok, granted_qos. intros. case_if; lia. Qed.

Lemma retained_packet_encodes rm granted id level : retained_ok rm -> qos_ok granted ->
  encodes (encode_publish (B:=B) (retained_packet rm granted id (is_v5 level)) level)
    (frame PUBLISH (publish_flags (retained_packet rm granted id (is_v5 level)))
       (publish_body (retained_packet rm granted id (is_v5 level)) level)).
Proof.
  intros (Ht & Hq & Hi & Hw) Hg. unfold qos_ok in *.
  apply encode_publish_frame; cbn [retained_packet pb_dup pb_qos pb_retain pb_properties]; try lia.
  - case_if; lia.
  - case_if; [exact Hi|exact I].
  - apply publish_body_small; cbn [retained_packet pb_topic pb_payload pb_properties]; [done|].
    pose proof (weight_nonneg (retained_props rm)). case_if; [unfold retained_props, kept_props in *; lia|].
    rewrite weight_no_props. lia.
Qed.

Lemma wp_send_retained session sub granted rm w : broker_ok w -> live w session -> retained_ok rm -> qos_ok granted ->
  wp (send_retained (B:=B) session sub granted rm) w (fun _ _ => True).
Proof.
  intros Hok Hl Hr Hg. unfold send_retained. case_if; [by apply wp_skip|].
  eapply wp_call; [by apply wp_optional_id|]. intros id w1 Hok1 Hev1 _.
  apply wp_bind, wp_get_session; [done|by eapply ev_live|]. intros s _ _ _.
  apply wp_bind, wp_get; [done|].
  destruct (MqttSession.connection _ _); [|by apply wp_skip].
  eapply wp_write; [done|by apply retained_packet_encodes].
Qed.

Lemma tree_subscription_ok sid v5 identifier sub : 0 <= so_maximum_qos sub <= 3 ->
  match identifier with Some i => is_u32 i | None => True end ->
  subscription_ok (tree_subscription config_ sid v5 identifier sub).
Proof.
  intros Hq Hi. split; [by apply granted_ok|]. unfold tree_subscription. simpl. by destruct v5.
Qed.

Lemma match_filter_stored f messages rm : rm ∈ MqttRetainedStore.match_filter f messages ->
  exists topic, (topic, rm) ∈ messages.
Proof.
  unfold MqttRetainedStore.match_filter. destruct f; [by intros ?%not_elem_of_nil|].
  rewrite MqttRetainedStore.match_loop_filter, elem_of_map. intros ([topic m] & -> & [_ Hin]%elem_of_filter). eauto.
Qed.

Lemma live_stable session w w' : evolves w w' -> live w session -> live w' session.
Proof. intros. by eapply ev_live. Qed.

Lemma wp_subscribe_one session identifier sub w : broker_ok w -> live w session ->
  0 <= so_maximum_qos sub <= 3 -> match identifier with Some i => is_u32 i | None => True end ->
  wp (subscribe_one (B:=B) config_ handler_ session identifier sub) w (fun _ _ => True).
Proof.
  intros Hok Hl Hq Hi. unfold subscribe_one. apply wp_bind, wp_get_session; [done|done|]. intros s _ _ _.
  cbv zeta. destruct (subscribe_refusal _ _ _ _ _ _); [by apply wp_ret|].
  apply wp_bind, wp_tree_subscribe; [done|by apply tree_subscription_ok|]. intros w1 Hok1 Hev1.
  apply wp_bind, wp_modify; [done|by eapply ev_live| |].
  { intros s' []. split; [by constructor|done]. }
  intros w2 Hok2 Hev2. apply wp_bind, wp_get; [done|].
  apply wp_bind. apply wp_for with (P := fun w => live w session); [done|eauto with s2p|eauto using live_stable| |].
  - intros rm w3 Hin Hok3 Hl3. apply match_filter_stored in Hin as [topic Hin].
    apply wp_send_retained; [done|done|by apply (bo_retained w2 Hok2 topic)|by apply granted_ok].
  - intros w3 Hok3 Hev3. by apply wp_ret.
Qed.

Lemma zlen_map_u8 l : zlen (map u8 l) = zlen l.
Proof. unfold zlen. by rewrite length_map. Qed.

Lemma Forall2_zlen {A C} (R : A -> C -> Prop) l k : Forall2 R l k -> zlen k = zlen l.
Proof. intros Hf%Forall2_length. unfold zlen. lia. Qed.

Lemma zlen_level_no_props level : zlen (enc_level_props level no_props) <= 1.
Proof. destruct level; [change (0 <= 1)|change (1 <= 1)]; lia. Qed.

Lemma wp_handle_subscribe session data len w : broker_ok w -> live w session -> packet_memory data len ->
  wp (handle_subscribe config_ handler_ session data len) w any_reply.
Proof.
  intros Hok Hl Hm. pose proof Hm as (Hd & Hlen & Hmax). unfold handle_subscribe.
  apply wp_bind, wp_get_session; [done|done|]. intros s _ _ _.
  apply wp_bind, wp_try; [done|by apply decode_subscribe_safe| |intros _; by apply wp_error].
  intros pkt Hdec. apply decode_subscribe_inv in Hdec as (Hsubs & Hn & Hp); [|done|done].
  case_if; [by apply wp_error|].
  apply wp_bind. apply wp_map with (P := fun w => live w session) (R := fun _ _ => True);
    [done|done|eauto using live_stable| |].
  - intros sub w1 Hin Hok1 Hl1. rewrite Forall_forall in Hsubs. apply Hsubs in Hin as [_ Hq].
    apply wp_subscribe_one; [done|done|done|]. by apply level_props_ids in Hp.
  - intros codes w1 Hok1 Hev1 Hcodes%Forall2_zlen.
    apply wp_bind, wp_get_session; [done|by eapply ev_live|]. intros s1 _ _ _.
    eapply wp_any; [done|]. apply encode_suback_frame; [exact I|].
    unfold suback_body. rewrite !zlen_app, zlen_be16, zlen_map_u8, Hcodes.
    pose proof (zlen_level_no_props (MqttSession.protocol_level_ s1)).
    unfold MESSAGE_MAX, MQTT_MAX_REMAINING_LENGTH in *. lia.
Qed.

Lemma wp_unsubscribe_one session filter w : broker_ok w -> live w session ->
  wp (unsubscribe_one handler_ session filter) w (fun _ _ => True).
Proof.
  intros Hok Hl. unfold unsubscribe_one. apply wp_bind, wp_get_session; [done|done|]. intros s _ _ _.
  apply wp_bind, wp_tree_unsubscribe; [done|]. intros w1 Hok1 Hev1.
  apply wp_bind, wp_modify; [done|by eapply ev_live| |].
  { intros s' []. split; [by constructor|done]. }
  intros w2 Hok2 Hev2. apply wp_bind, wp_notify; [done|]. intros. by apply wp_ret.
Qed.

Lemma wp_handle_unsubscribe session data len w : broker_ok w -> live w session -> packet_memory data len ->
  wp (handle_unsubscribe (B:=B) handler_ session data len) w any_reply.
Proof.
  intros Hok Hl (Hd & Hlen & Hmax). unfold handle_unsubscribe.
  apply wp_bind, wp_get_session; [done|done|]. intros s _ _ _.
  apply wp_bind, wp_try; [done|by apply decode_unsubscribe_safe| |intros _; by apply wp_error].
  intros pkt Hdec. apply decode_unsubscribe_inv in Hdec as Hn; [|done|done].
  case_if; [by apply wp_error|].
  apply wp_bind. apply wp_map with (P := fun w => live w session) (R := fun _ _ => True);
    [done|done|eauto using live_stable| |].
  - intros filter w1 _ Hok1 Hl1. by apply wp_unsubscribe_one.
  - intros codes w1 Hok1 Hev1 Hcodes%Forall2_zlen.
    apply wp_bind, wp_get_session; [done|by eapply ev_live|]. intros s1 _ _ _.
    eapply wp_any; [done|]. apply encode_unsuback_frame; [exact I|].
    unfold unsuback_body. rewrite zlen_app, zlen_be16.
    assert (zlen (if is_v5 (MqttSession.protocol_level_ s1) then enc_props no_props ++ map u8 codes else [])
            <= 1 + zlen codes).
    { case_if; [rewrite zlen_app, zlen_map_u8; change (zlen (enc_props no_props)) with 1; lia|zlia]. }
    unfold MESSAGE_MAX, MQTT_MAX_REMAINING_LENGTH in *. lia.
Qed.

(** ** CONNECT *)
Definition connect_memory (data : bytes) (len : Z) : Prop := packet_memory data len.

Lemma connect_will_ok connect len : connect_ok connect -> zlen (connect_body connect) <= len -> len <= MESSAGE_MAX ->
  flag_set (cp_connect_flags connect) MQTT_CONNECT_FLAG_WILL_FLAG = true ->
  forall v5, will_ok (will_of connect v5).
Proof.
  intros (Hf & Hfv & _ & _ & _ & Hwp & Hwt & Hwpl & _ & _ & Hs) Hb Hm Hflag v5.
  rewrite Hflag in *. rewrite !Forall_cons in Hs. destruct Hs as (S1 & S2 & _).
  unfold present in Hwt, Hwpl. destruct (proj1 Hwt eq_refl) as [topic Et]. destruct (proj1 Hwpl eq_refl) as [payload Ep].
  assert (zlen payload + weight (cp_will_properties connect) <= len) as Hw.
  { unfold connect_body in Hb. rewrite Hflag, Et, Ep in Hb. cbn [opt_bytes] in Hb.
    rewrite !zlen_app in Hb. rewrite !zlen_prefixed in Hb. zlen_pos.
    pose proof (level_props_weight _ _ Hwp). lia. }
  unfold will_ok, message_ok, will_of, will_props. rewrite Et, Ep.
  change (default [] (Some topic)) with topic. change (default [] (Some payload)) with payload.
  destruct v5; cbn [will_topic will_payload will_qos will_payload_format_indicator will_message_expiry_interval
    will_content_type will_response_topic will_correlation_data will_user_properties];
    (split_and!; [by apply S1|apply land_3|done|]).
  - pose proof (weight_will (cp_will_properties connect)). lia.
  - change (weight _) with 0. pose proof (weight_nonneg (cp_will_properties connect)). lia.
Qed.

Lemma connect_session_ok connect len s : connect_ok connect -> zlen (connect_body connect) <= len -> len <= MESSAGE_MAX ->
  session_ok s -> session_ok (connect_session config_ connect s)
    /\ MqttSession.session_id_ (connect_session config_ connect s) = MqttSession.session_id_ s.
Proof.
  intros Hc Hb Hm [H1 H2 H3].
  assert (forall will, MqttSession.will_message_ (connect_session config_ connect s) = Some will -> will_ok will) as Hw.
  { unfold connect_session, apply_connect_properties. intros will.
    destruct (flag_set (cp_connect_flags connect) MQTT_CONNECT_FLAG_WILL_FLAG) eqn:E.
    - intros Hwill. enough (will = will_of connect (is_v5 (cp_protocol_level connect))) as -> by (by eapply connect_will_ok).
      revert Hwill. repeat case_match; simpl; congruence.
    - intros Hwill. apply H2. revert Hwill. repeat case_match; simpl; auto. }
  split; [constructor|]; [|done| |]; unfold connect_session, apply_connect_properties; repeat case_match; simpl; auto.
Qed.

Lemma zlen_enc_items_cons i l : zlen (enc_items (i :: l)) = 1 + zlen (enc_value i.2) + zlen (enc_items l).
Proof. rewrite enc_items_cons, zlen_app, zlen_enc_item. lia. Qed.

Lemma connack_weight connect cid : weight (connack_properties config_ connect cid) <= 64 + zlen cid.
Proof.
  unfold connack_properties, no_props. unfold weight, props_items.
  cbn [set_receive_maximum set_topic_alias_maximum set_maximum_qos set_retain_available
    set_wildcard_subscription_available set_subscription_identifier_available set_shared_subscription_available
    set_maximum_packet_size set_assigned_client_identifier set_server_keep_alive
    payload_format_indicator message_expiry_interval content_type response_topic correlation_data
    subscription_identifier session_expiry_interval assigned_client_identifier server_keep_alive
    authentication_method authentication_data request_problem_information will_delay_interval
    request_response_information response_information server_reference reason_string receive_maximum
    topic_alias_maximum topic_alias maximum_qos retain_available maximum_packet_size
    wildcard_subscription_available subscription_identifier_available shared_subscription_available user_properties
    opt_item map app].
  destruct (server_keep_alive_for config_ connect); cbn [opt_item app];
    rewrite !zlen_enc_items_cons; cbn [snd enc_value]; rewrite ?zlen_be16, ?zlen_prefixed;
    change (zlen (enc_items [])) with 0; unfold be32; zlia.
Qed.

Lemma connack_encodes present code level p : ids_u32 p -> weight p <= 65600 ->
  encodes (encode_connack (B:=B) (mkConnack present code p) level)
    (frame CONNACK 0 (connack_body (mkConnack present code p) level)).
Proof.
  intros Hi Hw. apply encode_connack_frame; [done|]. unfold connack_body. cbn [ca_properties].
  pose proof (zlen_level_props level p). unfold MESSAGE_MAX, MQTT_MAX_REMAINING_LENGTH in *. zlia.
Qed.

Lemma wp_refuse_connect session level code w : broker_ok w -> live w session ->
  wp (refuse_connect (B:=B) session level code) w any_reply.
Proof.
  intros Hok Hl. unfold refuse_connect. apply wp_bind, wp_modify; [done|done| |].
  { intros s []. split; [by constructor|done]. }
  intros w1 Hok1 Hev1. apply wp_bind, wp_set_state; [done|by eapply ev_live|]. intros w2 Hok2 Hev2.
  eapply wp_any; [done|apply connack_encodes; [exact I|rewrite weight_no_props; lia]].
Qed.

Lemma wp_take_over session old clean w : broker_ok w -> (forall loc, old = Some loc -> live w loc) ->
  wp (take_over handler_ session old clean) w (fun _ _ => True).
Proof.
  intros Hok Hl. unfold take_over. destruct old as [old|]; [|by apply wp_skip].
  specialize (Hl old eq_refl). case_if; [by apply wp_skip|].
  apply wp_bind, wp_get_session; [done|done|]. intros s _ _ _. cbv zeta. case_if; [|by apply wp_skip].
  apply wp_bind, wp_notify; [done|]. intros w1 Hok1 Hev1.
  apply wp_bind, wp_set_state; [done|by eapply ev_live|]. intros w2 Hok2 Hev2.
  apply wp_close; [done|eauto with s2p|done].
Qed.

Lemma wp_find_session_present session cid clean w : broker_ok w ->
  wp (find_session_present session cid clean) w (fun _ _ => True).
Proof.
  intros Hok. unfold find_session_present. case_if; [|by apply wp_ret].
  apply wp_bind, wp_find_by_client_id; [done|]. intros [loc|] w1 Hok1 Hev1 Hl; [|by apply wp_ret].
  apply wp_bind, wp_get_session; [done|by apply Hl|]. intros s _ _ _. by apply wp_ret.
Qed.

Lemma wp_drop_previous session cid clean w : broker_ok w ->
  wp (drop_previous session cid clean) w (fun _ _ => True).
Proof.
  intros Hok. unfold drop_previous. destruct clean; [|by apply wp_skip].
  apply wp_bind, wp_find_by_client_id; [done|]. intros [loc|] w1 Hok1 Hev1 Hl; [|by apply wp_skip].
  case_if; [by apply wp_skip|].
  apply wp_bind, wp_get_session; [done|by apply Hl|]. intros s _ _ _. by apply wp_tree_remove_all.
Qed.

(** A CONNECT that its decoder produced from [len] bytes. *)
Definition connect_fits (connect : MqttConnectPacket) : Prop :=
  connect_ok connect /\ zlen (connect_body connect) <= MESSAGE_MAX.

Lemma wp_accept_connect session connect cid present w : broker_ok w -> live w session -> connect_fits connect ->
  str_ok cid -> wp (accept_connect (B:=B) config_ handler_ session connect cid present) w any_reply.
Proof.
  intros Hok Hl [Hc Hb] Hcid. unfold accept_connect.
  apply wp_bind, wp_bind_client_id; [done|done|]. intros w1 Hok1 Hev1.
  apply wp_bind, wp_modify; [done|by eapply ev_live| |].
  { intros s Hs. by apply (connect_session_ok connect (zlen (connect_body connect))). }
  intros w2 Hok2 Hev2. apply wp_bind, wp_get_session; [done|eauto with s2p|]. intros s _ _ _.
  apply wp_bind, wp_notify; [done|]. intros w3 Hok3 Hev3.
  eapply wp_any; [done|]. apply connack_encodes.
  - destruct (is_v5 _); [|exact I]. unfold connack_properties, no_props. exact I.
  - case_if; [|rewrite weight_no_props; lia]. pose proof (connack_weight connect cid).
    unfold str_ok in Hcid. lia.
Qed.

Lemma wp_connect_client session connect cid w : broker_ok w -> live w session -> connect_fits connect ->
  str_ok cid -> wp (connect_client (B:=B) config_ handler_ session connect cid) w any_reply.
Proof.
  intros Hok Hl Hc Hcid. unfold connect_client.
  apply wp_bind, wp_find_by_client_id; [done|]. intros old w1 Hok1 Hev1 Hold.
  eapply wp_call; [by apply wp_take_over|]. intros _ w2 Hok2 Hev2 _. cbv zeta.
  assert (live w2 session) as Hl2 by eauto with s2p.
  apply wp_bind, wp_get_session; [done|done|]. intros s _ _ _.
  case_if; [by apply wp_refuse_connect|]. case_if; [by apply wp_refuse_connect|].
  eapply wp_call; [by apply wp_find_session_present|]. intros present w3 Hok3 Hev3 _.
  eapply wp_call; [by apply wp_drop_previous|]. intros _ w4 Hok4 Hev4 _.
  apply wp_accept_connect; eauto with s2p.
Qed.

Lemma wp_handle_connect session data len w : broker_ok w -> live w session -> packet_memory data len ->
  wp (handle_connect (B:=B) config_ handler_ session data len) w any_reply.
Proof.
  intros Hok Hl (Hd & Hlen & Hmax). unfold handle_connect.
  apply wp_bind, wp_try; [done|by apply decode_connect_safe| |].
  - intros connect Hdec. apply decode_connect_inv in Hdec as [Hc Hb]; [|done|done].
    assert (connect_fits connect) as Hfit by (split; [done|lia]).
    case_if; [by apply wp_refuse_connect|].
    destruct (cp_client_id connect) as [|c cid] eqn:Ec.
    + case_if; [by apply wp_refuse_connect|].
      apply wp_bind, wp_get_session; [done|done|]. intros s _ _ _. apply wp_connect_client; [done|done|done|].
      unfold str_ok. rewrite zlen_app. pose proof (to_string_len (MqttSession.session_id_ s)).
      change (zlen (str "auto-")) with 5. lia.
    + apply wp_connect_client; [done|done|done|]. rewrite <- Ec. apply Hc.
  - intros _. apply wp_bind, wp_set_state; [done|done|]. intros w1 Hok1 Hev1. by apply wp_error; [|eapply ev_live].
Qed.

(** ** The remaining packets *)
Lemma wp_handle_pingreq session w : broker_ok w -> live w session ->
  wp (handle_pingreq (B:=B) session) w any_reply.
Proof.
  intros Hok Hl. unfold handle_pingreq. apply wp_bind, wp_get; [done|]. apply wp_bind, wp_modify; [done|done| |].
  { intros s []. split; [by constructor|done]. }
  intros. eapply wp_any; [done|apply encode_pingresp_bytes].
Qed.

Lemma wp_handle_disconnect session data len w : broker_ok w -> live w session -> packet_memory data len ->
  wp (handle_disconnect (B:=B) session data len) w any_reply.
Proof.
  intros Hok Hl (Hd & Hlen & Hmax). unfold handle_disconnect. apply wp_bind, wp_get_session; [done|done|].
  intros s _ _ _. cbv zeta. apply wp_bind, wp_set_state; [done|done|]. intros w1 Hok1 Hev1.
  eapply wp_call with (P := fun _ _ => True).
  { case_if; [|by apply wp_ret]. apply wp_bind, wp_try; [done|by apply decode_reason_safe| |]; intros; by apply wp_ret. }
  intros keep w2 Hok2 Hev2 _. eapply wp_call with (P := fun _ _ => True).
  { apply wp_when; [done| |done]. intros _. apply wp_modify; [done|eauto with s2p| |done].
    intros s' []. split; [by constructor|done]. }
  intros _ w3 Hok3 Hev3 _. eapply wp_call with (P := fun _ _ => True).
  { apply wp_when; [done| |done]. intros _. by apply wp_tree_remove_all. }
  intros _ w4 Hok4 Hev4 _. by apply wp_no_response_any.
Qed.

Lemma wp_handle_auth session data len w : broker_ok w -> live w session -> packet_memory data len ->
  wp (handle_auth (B:=B) handler_ session data len) w any_reply.
Proof.
  intros Hok Hl (Hd & Hlen & Hmax). unfold handle_auth. apply wp_bind, wp_get_session; [done|done|].
  intros s _ _ _. case_if; [by apply wp_no_response_any|].
  apply wp_bind, wp_try; [done|by apply decode_auth_safe| |intros _; by apply wp_error].
  intros auth _. cbv zeta. case_if; [by apply wp_error|].
  case_if; [eapply wp_any; [done|apply encode_auth_frame; [exact I|apply reason_small]]|].
  eapply wp_any; [done|apply disconnect_encodes].
Qed.

Lemma wp_handle_packet session type flags data len w : broker_ok w -> live w session -> packet_memory data len ->
  0 <= flags < 16 -> wp (handle_packet (B:=B) config_ handler_ session type flags data len) w any_reply.
Proof.
  intros. destruct type; cbn [handle_packet];
    first [by apply wp_no_response_any | by apply wp_handle_connect | by apply wp_handle_publish
      | by apply wp_handle_puback | by apply wp_handle_pubrec | by apply wp_handle_pubrel | by apply wp_handle_pubcomp
      | by apply wp_handle_subscribe | by apply wp_handle_unsubscribe | by apply wp_handle_pingreq
      | by apply wp_handle_disconnect | by apply wp_handle_auth].
Qed.

(** ** Dispatch *)
Lemma rd_drop1 data c : 0 <= c -> rd (drop 1 data) c = rd data (1 + c).
Proof.
  intros Hc. unfold rd. case_if; [lia|]. case_if; [lia|]. rewrite lookup_drop.
  replace (1 + Z.to_nat c)%nat with (Z.to_nat (1 + c)) by lia. done.
Qed.

(** The dispatcher's own parse of a framed packet agrees with the framing. *)
Lemma parse_loop_framed n data hi len c value mult v o' : 0 <= c ->
  decode_variable_byte_int_loop n (drop 1 data) hi 0 value mult c = Ok (v, o') -> 1 + o' <= len ->
  parse_remaining_length_loop n data len c value mult = Ok (v, o' - 1)
  /\ (exists b, rd data o' = Ok b /\ Z.land b 128 = 0) /\ c < o' <= c + Z.of_nat n.
Proof.
  revert c value mult; induction n as [|n IH]; intros c value mult Hc Hr0 Ho; [discriminate|].
  cbn [decode_variable_byte_int_loop parse_remaining_length_loop] in *. case_if_in Hr0; [|discriminate].
  apply outcome_bind_inv in Hr0 as (b & Hb & Hr0). rewrite Z.add_0_l, rd_drop1 in Hb by done.
  case_if_in Hr0.
  - injection Hr0 as <- <-. rewrite Z.add_0_l in *. case_if; [|lia]. rewrite Hb. mstep. case_if; [|lia].
    split; [do 2 f_equal; lia|]. split; [|lia]. exists b. replace (c + 1) with (1 + c) by lia. split; [done|lia].
  - apply decode_vbi_offset in Hr0 as Hlt. apply (IH (c + 1)) in Hr0 as (Hr0 & Hh & Hr); [|lia|done].
    case_if; [|lia]. rewrite Hb. mstep. case_if; [congruence|]. split; [done|]. split; [done|lia].
Qed.

Lemma parse_remaining_length_framed data n t len : try_decode data n = Ok (t, len) ->
  exists h, parse_remaining_length data len = Ok (h, len - h) /\ 2 <= h <= len.
Proof.
  intros Hr0. unfold try_decode in Hr0. case_if_in Hr0; [discriminate|].
  apply outcome_bind_inv in Hr0 as (b & _ & Hr0). case_if_in Hr0; [discriminate|].
  apply outcome_bind_inv in Hr0 as ([v o] & Hv & Hr0). case_if_in Hr0; [discriminate|]. injection Hr0 as _ <-.
  rewrite decode_remaining_length_eq in Hv. unfold decode_variable_byte_int in Hv.
  assert (0 <= v) as Hv0 by (eapply decode_vbi_nonneg; [|exact Hv]; lia).
  apply (parse_loop_framed _ _ _ (1 + o + v)) in Hv as (Hp & (x & Hx & Hx0) & Ho); [|lia|lia].
  exists (1 + o). unfold parse_remaining_length. case_if; [lia|]. rewrite Hp. mstep.
  unfold MQTT_VARIABLE_BYTE_INT_MAX_SIZE. case_if; [lia|].
  replace (1 + (o - 1)) with o by lia. rewrite Hx. mstep. rewrite Hx0. change (0 =? 0) with true. cbn [negb].
  case_if; [|lia]. split; [|lia]. do 2 f_equal; lia.
Qed.

Lemma first_flags b : 0 <= Z.land b 15 < 16.
Proof. change 15 with (Z.ones 4). rewrite Z.land_ones by lia. pose proof (Z.mod_pos_bound b (2 ^ 4)). lia. Qed.

Lemma wp_dispatch session data n t len w : broker_ok w -> live w session ->
  Forall is_u8 data -> 0 <= n <= zlen data -> try_decode data n = Ok (t, len) -> len <= MESSAGE_MAX ->
  wp (dispatch (B:=B) config_ handler_ session data len) w any_reply.
Proof.
  intros Hok Hl Hd Hn Ht Hm. apply try_decode_inv in Ht as Hlen. destruct Hlen as [Hlen _].
  destruct (parse_remaining_length_framed data n t len Ht) as (h & Hp & Hh).
  unfold dispatch. case_if; [lia|].
  destruct (rd_ok data 0) as [b Hb]; [lia|]. apply wp_bind. eapply wp_lift; [done|exact Hb|]. cbv zeta.
  apply wp_bind, wp_get_session; [done|done|]. intros s _ _ _.
  case_if; [by apply wp_error|]. case_if.
  { apply wp_bind, wp_set_state; [done|done|]. intros w1 Hok1 Hev1.
    apply wp_bind, wp_close; [done|by eapply ev_live|]. intros w2 Hok2 Hev2. apply wp_error; eauto with s2p. }
  case_if.
  { apply wp_bind, wp_set_state; [done|done|]. intros w1 Hok1 Hev1. by apply wp_error; [|eapply ev_live]. }
  rewrite Hp. apply wp_bind, wp_try; [done|done| |done]. intros [h' l'] [= <- <-].
  apply wp_handle_packet; [done|done| |apply first_flags].
  split; [by apply Forall_drop|]. unfold zlen in *. rewrite length_drop. lia.
Qed.

(** ** Leaving *)
Lemma will_packet_ok will v5 : will_ok will -> packet_ok (will_packet will v5).
Proof.
  intros (Ht & Hq & Hi & Hw). pose proof (weight_nonneg (will_props will)).
  split; [|cbn [will_packet pb_retain]; case_if; lia].
  unfold will_packet, message_ok. cbn [pb_topic pb_payload pb_qos pb_properties].
  split_and!; [done|done| |]; (case_if; [try exact Hi; exact Hw|]); [exact I|rewrite weight_no_props; lia].
Qed.

Lemma will_retained_ok will v5 : will_ok will -> retained_ok (will_retained will v5).
Proof.
  intros (Ht & Hq & Hi & Hw). pose proof (weight_nonneg (will_props will)).
  unfold retained_ok, message_ok, retained_props, will_retained.
  pose proof (weight_kept (will_props will)) as Hk.
  case_if; cbn [rm_topic rm_payload rm_qos rm_message_expiry_interval rm_payload_format_indicator rm_content_type
    rm_user_properties]; (split_and!; [done|done|exact I|]).
  - unfold will_props in *.
    cbn [set_payload_format_indicator set_message_expiry_interval set_content_type set_response_topic
      set_correlation_data set_user_properties no_props payload_format_indicator message_expiry_interval content_type
      user_properties] in *. lia.
  - change (weight _) with 0. lia.
Qed.

Lemma wp_send_will session w : broker_ok w -> live w session ->
  wp (send_will_message (B:=B) session) w (fun _ _ => True).
Proof.
  intros Hok Hl. unfold send_will_message. apply wp_bind, wp_get_session; [done|done|]. intros s _ Hs _.
  unfold MqttSession.will_message.
  destruct (MqttSession.will_message_ s) as [will|] eqn:E; [|by apply wp_skip].
  pose proof (se_will s Hs will E) as Hwill. cbv zeta.
  eapply wp_call; [apply wp_publish_to_subscribers; [done|done|by apply will_packet_ok]|].
  intros _ w1 Hok1 Hev1 _. eapply wp_call with (P := fun _ _ => True).
  { apply wp_when; [done| |done]. intros _. by apply wp_retained_store; [done|apply will_retained_ok|]. }
  intros _ w2 Hok2 Hev2 _. apply wp_modify; [done|eauto with s2p| |done].
  intros s' []. split; [by constructor|done].
Qed.

Lemma wp_on_session_closed session w : broker_ok w -> live w session ->
  wp (on_session_closed (B:=B) handler_ session) w (fun _ _ => True).
Proof.
  intros Hok Hl. unfold on_session_closed. apply wp_bind, wp_get_session; [done|done|]. intros s _ _ _.
  apply wp_bind, wp_get; [done|]. eapply wp_call with (P := fun _ _ => True).
  { apply wp_when; [done| |done]. intros _. by apply wp_send_will. }
  intros _ w1 Hok1 Hev1 _. apply wp_bind, wp_get_session; [done|by eapply ev_live|]. intros s1 _ _ _.
  eapply wp_call with (P := fun _ _ => True).
  { apply wp_when; [done| |done]. intros _. by apply wp_tree_remove_all. }
  intros _ w2 Hok2 Hev2 _. apply wp_bind, wp_notify; [done|]. intros w3 Hok3 Hev3.
  apply wp_set_state; [done|eauto with s2p|done].
Qed.

Lemma wp_build_publish session topic payload qos retain props w : broker_ok w -> live w session ->
  message_ok topic payload qos props ->
  wp (build_publish_for_session (B:=B) session topic payload qos retain props) w any_reply.
Proof.
  intros Hok Hl (Ht & Hq & Hi & Hw). unfold build_publish_for_session.
  eapply wp_call; [by apply wp_optional_id|]. intros id w1 Hok1 Hev1 _.
  apply wp_bind, wp_get_session; [done|by eapply ev_live|]. intros s _ _ _.
  eapply wp_any; [done|]. unfold qos_ok in Hq.
  apply encode_publish_frame; cbn [pb_dup pb_qos pb_retain pb_properties]; try lia; [case_if; lia|done|].
  apply publish_body_small; cbn [pb_topic pb_payload pb_properties]; [done|lia].
Qed.
End Runs.
