(* ===== verification/MqttServer.v ===== *)
(** The broker's connections: [protocol/mqtt/src/mqtt_server.cpp].

    [handle_connection] is a coroutine. It suspends at every [co_await]; what the
    rest of the process does meanwhile is the parameter [await], a computation on the
    same world. The reads of a connection are the list of the buffers that
    [read_awaiter] delivers until it fails or the connection is gone. Sockets, the
    listener, the runtime and logging are not modelled. *)
From S2P Require Import Prelude Containers ByteBuffer MqttProtocol MqttCodec MqttSession.
From S2P Require Import MqttTopicTree MqttRetainedStore MqttBroker MqttDispatcher.

Module MqttServer.

(** The local variables of a [handle_connection] frame. *)
Record Frame : Type := mkFrame {
  fr_session : Z;
  fr_conn : Z;
  recv_buf : ByteBuffer.t;
  first_packet : bool;
  ever_connected : bool
}.

Definition set_recv_buf (b : ByteBuffer.t) (f : Frame) : Frame :=
  mkFrame (fr_session f) (fr_conn f) b (first_packet f) (ever_connected f).
Definition set_first_packet (x : bool) (f : Frame) : Frame :=
  mkFrame (fr_session f) (fr_conn f) (recv_buf f) x (ever_connected f).
Definition set_ever_connected (x : bool) (f : Frame) : Frame :=
  mkFrame (fr_session f) (fr_conn f) (recv_buf f) (first_packet f) x.

(** How a round of the packet loop ends: [break], next round, or [co_return]. *)
Inductive progress : Type :=
| NeedMore (f : Frame)
| Next (f : Frame)
| Closed.

Section Server.
Variable little : bool.
Variables (config_ : MqttServerConfig) (handler_ : option MqttHandler) (await : M unit).

#[local] Instance sink : ByteSink ByteBuffer.t := ByteBuffer_sink little.

(** The lambda [cleanup_session]; each path through the coroutine calls it once, so
    [cleaned_up] is always false when it runs. *)
Definition cleanup_session (f : Frame) : M unit :=
  _ ← (if ever_connected f then MqttDispatcher.on_session_closed handler_ (fr_session f)
       else modify_session (fr_session f) (MqttSession.set_state disconnected));
  s ← get_session (fr_session f);
  remove_session (MqttSession.session_id_ s).

(** [ctx.close(); cleanup_session(); co_return;] *)
Definition close_connection (f : Frame) : M progress :=
  _ ← memit (EvClose (fr_conn f));
  _ ← cleanup_session f;
  mret Closed.

(** [if (buf.readable_bytes() > 0) co_await ctx.write_async(std::move(buf))] *)
Definition write_async (f : Frame) (buf : ByteBuffer.t) : M unit :=
  mwhen (0 <? ByteBuffer.readable_bytes buf)
    (data ← mlift (ByteBuffer.readable_span buf);
     _ ← memit (EvWrite (fr_conn f) data);
     await).

Definition packet_too_large (f : Frame) : M progress :=
  s ← get_session (fr_session f);
  let level := MqttSession.protocol_level_ s in
  _ ← mwhen (is_v5 level)
        (disc ← mlift (MqttCodec.encode_disconnect DisconnectReason.PACKET_TOO_LARGE level no_props);
         write_async f disc);
  close_connection f.

(** One round of [while (recv_buf.readable_bytes() > 0)]. *)
Definition process_packet (f : Frame) : M progress :=
  let data := drop (Z.to_nat (ByteBuffer.read_offset_ (recv_buf f))) (ByteBuffer.storage_ (recv_buf f)) in
  let readable := ByteBuffer.readable_bytes (recv_buf f) in
  decoded ← mtry (MqttCodec.try_decode data readable);
  match decoded with
  | None => if cf_max_packet_size config_ <? readable then packet_too_large f else mret (NeedMore f)
  | Some (type, pkt_len) =>
      let is_connect := bool_decide (type = CONNECT) in
      if cf_max_packet_size config_ <? pkt_len then packet_too_large f
      else if first_packet f && negb is_connect then close_connection f
      else
        let f := set_first_packet false f in
        s ← get_session (fr_session f);
        if negb is_connect && negb (state_eqb (MqttSession.state_ s) connected) then close_connection f
        else
          response ← MqttDispatcher.dispatch config_ handler_ (fr_session f) data pkt_len;
          s ← get_session (fr_session f);
          let f := if state_eqb (MqttSession.state_ s) connected then set_ever_connected true f else f in
          let f := set_recv_buf (ByteBuffer.consume pkt_len (recv_buf f)) f in
          _ ← write_async f response;
          s ← get_session (fr_session f);
          if state_eqb (MqttSession.state_ s) disconnected || state_eqb (MqttSession.state_ s) disconnecting
          then close_connection f
          else mret (Next f)
  end.

(** The packet loop; [None] when the coroutine has returned. *)
Fixpoint process_loop (fuel : nat) (f : Frame) : M (option Frame) :=
  if 0 <? ByteBuffer.readable_bytes (recv_buf f) then
    match fuel with
    | O => fun _ => Diverge
    | S fuel =>
        p ← process_packet f;
        match p with
        | NeedMore f => mret (Some f)
        | Next f => process_loop fuel f
        | Closed => mret None
        end
    end
  else mret (Some f).

(** What one successful read does. Every packet has a byte at least, so the readable
    bytes bound the rounds. *)
Definition on_read (f : Frame) (data : ByteBuffer.t) : M (option Frame) :=
  buf ← mlift (ByteBuffer.append_buffer data (recv_buf f));
  w ← mget;
  _ ← modify_session (fr_session f) (MqttSession.update_last_activity (now w));
  r ← process_loop (Z.to_nat (ByteBuffer.readable_bytes buf)) (set_recv_buf buf f);
  match r with
  | None => mret None
  | Some f =>
      if ByteBuffer.readable_bytes (recv_buf f) =? 0
      then mret (Some (set_recv_buf (ByteBuffer.clear (recv_buf f)) f))
      else buf ← mlift (ByteBuffer.compact (recv_buf f)); mret (Some (set_recv_buf buf f))
  end.

Fixpoint connection_loop (f : Frame) (reads : list ByteBuffer.t) : M unit :=
  match reads with
  | [] =>
      _ ← cleanup_session f;
      memit (EvClose (fr_conn f))
  | data :: reads =>
      _ ← await;
      r ← on_read f data;
      match r with
      | None => mskip
      | Some f => connection_loop f reads
      end
  end.

Definition create_session_owner (conn : Z) : M Z :=
  w ← mget;
  let '(loc, m) := MqttSessionManager.create_session_owner (now w) (Some conn) (session_mgr_ w) in
  _ ← put_mgr m; mret loc.

Definition handle_connection (conn : Z) (reads : list ByteBuffer.t) : M unit :=
  loc ← create_session_owner conn;
  _ ← modify_session loc (MqttSession.set_state connecting);
  connection_loop (mkFrame loc conn ByteBuffer.default true false) reads.

(** The end of a coroutine frame releases its session: the object is destroyed. *)
Definition destroy_session (loc : Z) : M unit :=
  w ← mget;
  put_mgr (MqttSessionManager.set_objects (delete loc (MqttSessionManager.objects (session_mgr_ w))) (session_mgr_ w)).

(** What a write on a connection does to the rest of the process before it returns: a
    write that fails closes the connection and resumes the coroutine that waits for its
    data, here and now. *)
Variable flush : Z -> M unit.

(** [MqttServer::publish]: one subscriber. [sessions] are the raw pointers collected
    before the first write. *)
Definition publish_one (topic payload : bytes) (qos : QoS) (sessions : list Z) (sub : MqttSubscription) : M unit :=
  target ← MqttDispatcher.find_session (sub_session_id sub) sessions;
  match target with
  | None => mskip
  | Some target =>
      s ← get_session target;
      if negb (state_eqb (MqttSession.state_ s) connected) then mskip
      else
        pkt ← MqttDispatcher.build_publish_for_session target topic payload (Z.min qos (sub_qos sub)) false no_props;
        s ← get_session target; w ← mget;
        match MqttSession.connection (alive w) s with
        | Some conn =>
            mwhen (0 <? ByteBuffer.readable_bytes pkt)
              (data ← mlift (ByteBuffer.readable_span pkt); _ ← memit (EvWrite conn data); flush conn)
        | None => mskip
        end
  end.

Definition publish (topic payload : bytes) (qos : QoS) (retain : bool) : M unit :=
  _ ← mwhen retain (retained_store (mkRetained topic payload qos 0 None None None []));
  w ← mget;
  mfor (MqttTopicTree.match_topic topic (topic_tree_ w))
    (publish_one topic payload qos (MqttSessionManager.all_sessions (session_mgr_ w))).

(** [stop]: nothing on a server that runs in another's runtime. The connections are
    collected before any is closed; closing the listener and the runtime, and the
    hand-over to the runtime's thread, are not modelled. *)
Definition session_connection (loc : Z) : M (option Z) :=
  s ← get_session loc; w ← mget; mret (MqttSession.connection (alive w) s).
Definition close_one (conn : option Z) : M unit :=
  match conn with Some conn => memit (EvClose conn) | None => mskip end.
Definition stop (owned_runtime : bool) : M unit :=
  mwhen owned_runtime
    (w ← mget;
     connections ← mmap (MqttSessionManager.all_sessions (session_mgr_ w)) session_connection;
     mfor connections close_one).

Definition connected_clients (w : World) : Z := zlen (MqttSessionManager.all_sessions (session_mgr_ w)).
End Server.

End MqttServer.
