(* ===== verification/MqttServerFacts.v ===== *)
(** A connection runs to completion and leaves no session behind.

    Whatever a client sends, in whatever pieces, and whatever the other connections do
    while its coroutine is suspended, [handle_connection] returns, the broker's
    invariant holds and the connection's session is no longer registered. *)
From S2P Require Import Prelude Containers ByteBuffer ByteBufferFacts MqttProtocol MqttProperties.
From S2P Require Import MqttPropertiesFacts MqttCodec MqttCodecFacts MqttSession.
From S2P Require Import MqttTopicTree MqttRetainedStore MqttBroker MqttBrokerFacts MqttDispatcher.
From S2P Require Import MqttDispatcherFacts MqttServer.
Import MqttCodec MqttServer.

(** * Sizes of the receive buffer *)

Lemma zlen_copy_into st off src st' : ByteBuffer.copy_into st off src = Ok st' -> zlen st' = zlen st.
Proof.
  unfold ByteBuffer.copy_into. case_if; [discriminate|]. intros [= <-].
  unfold zlen in *. rewrite !length_app, length_take, length_drop. lia.
Qed.

Lemma reserve_storage n b b' : 0 <= n -> ByteBuffer.reserve n b = Ok b' ->
  zlen (ByteBuffer.storage_ b') <= Z.max (zlen (ByteBuffer.storage_ b)) n.
Proof.
  intros Hn. unfold ByteBuffer.reserve. case_if; [intros [= ->]; lia|]. case_if.
  - intros (src & _ & (st & Hst & [= <-])%outcome_bind_inv)%outcome_bind_inv. simpl.
    apply zlen_copy_into in Hst. rewrite ByteBuffer.zlen_zeros in Hst by done. lia.
  - intros [= <-]. simpl. rewrite ByteBuffer.zlen_zeros by done. lia.
Qed.

Lemma compact_storage b b' : ByteBuffer.compact b = Ok b' ->
  zlen (ByteBuffer.storage_ b') = zlen (ByteBuffer.storage_ b)
  /\ (ByteBuffer.wf b -> ByteBuffer.readable_bytes b' = ByteBuffer.readable_bytes b).
Proof.
  unfold ByteBuffer.compact, ByteBuffer.readable_bytes. case_if; [intros [= ->]; done|].
  case_if; [intros [= <-]; simpl; split; [done|lia]|].
  intros (src & _ & (st & Hst & [= <-])%outcome_bind_inv)%outcome_bind_inv. simpl.
  apply zlen_copy_into in Hst. split; [done|lia].
Qed.

Lemma append_storage src b b' : ByteBuffer.wf b -> ByteBuffer.append src b = Ok b' ->
  zlen (ByteBuffer.storage_ b')
  <= Z.max (zlen (ByteBuffer.storage_ b)) (ByteBuffer.readable_bytes b + zlen src).
Proof.
  intros Hwf H. unfold ByteBuffer.append in H.
  apply outcome_bind_inv in H as (b1 & H1 & H). apply outcome_bind_inv in H as (st & Hst & [= <-]). simpl.
  apply zlen_copy_into in Hst. rewrite Hst. clear Hst st.
  pose proof (zlen_nonneg src). assert (0 <= ByteBuffer.readable_bytes b) as Hr
    by (destruct Hwf; unfold ByteBuffer.readable_bytes; lia).
  unfold ByteBuffer.ensure_writable in H1. case_if_in H1; [injection H1 as <-; lia|]. case_if_in H1.
  - apply outcome_bind_inv in H1 as (b2 & [Hs Hrd]%compact_storage & H1). specialize (Hrd Hwf).
    case_if_in H1; [injection H1 as <-; lia|]. apply reserve_storage in H1; [|lia]. lia.
  - apply reserve_storage in H1; [|lia]. lia.
Qed.

(** Bytes stay bytes. *)
Lemma copy_into_u8 st off src st' : ByteBuffer.copy_into st off src = Ok st' ->
  Forall is_u8 st -> Forall is_u8 src -> Forall is_u8 st'.
Proof.
  unfold ByteBuffer.copy_into. case_if; [discriminate|]. intros [= <-] Hst Hsrc.
  repeat apply Forall_app_2; [by apply Forall_take|done|by apply Forall_drop].
Qed.

Lemma zeros_u8 n : Forall is_u8 (ByteBuffer.zeros n).
Proof. unfold ByteBuffer.zeros. apply Forall_replicate. unfold is_u8. lia. Qed.

Lemma readable_span_u8 b s : ByteBuffer.readable_span b = Ok s -> Forall is_u8 (ByteBuffer.storage_ b) -> Forall is_u8 s.
Proof.
  unfold ByteBuffer.readable_span, rd_range. case_if; [discriminate|]. intros [= <-] Hs.
  by apply Forall_take, Forall_drop.
Qed.

Lemma reserve_u8 n b b' : ByteBuffer.reserve n b = Ok b' -> Forall is_u8 (ByteBuffer.storage_ b) ->
  Forall is_u8 (ByteBuffer.storage_ b').
Proof.
  unfold ByteBuffer.reserve. case_if; [by intros [= ->]|]. case_if.
  - intros (src & Hs & (st & Hst & [= <-])%outcome_bind_inv)%outcome_bind_inv Hu. simpl.
    eapply copy_into_u8; [done|apply zeros_u8|by eapply readable_span_u8].
  - intros [= <-] _. apply zeros_u8.
Qed.

Lemma compact_u8 b b' : ByteBuffer.compact b = Ok b' -> Forall is_u8 (ByteBuffer.storage_ b) ->
  Forall is_u8 (ByteBuffer.storage_ b').
Proof.
  unfold ByteBuffer.compact. case_if; [by intros [= ->]|]. case_if; [by intros [= <-]|].
  intros (src & Hs & (st & Hst & [= <-])%outcome_bind_inv)%outcome_bind_inv Hu. simpl.
  eapply copy_into_u8; [done|done|by eapply readable_span_u8].
Qed.

Lemma append_u8s src b b' : ByteBuffer.append src b = Ok b' -> Forall is_u8 (ByteBuffer.storage_ b) ->
  Forall is_u8 src -> Forall is_u8 (ByteBuffer.storage_ b').
Proof.
  intros H Hb Hs. unfold ByteBuffer.append in H.
  apply outcome_bind_inv in H as (b1 & H1 & H). apply outcome_bind_inv in H as (st & Hst & [= <-]). simpl.
  eapply copy_into_u8; [done| |done]. unfold ByteBuffer.ensure_writable in H1.
  case_if_in H1; [by injection H1 as <-|]. case_if_in H1.
  - apply outcome_bind_inv in H1 as (b2 & H2 & H1). apply compact_u8 in H2; [|done].
    case_if_in H1; [by injection H1 as <-|]. by eapply reserve_u8.
  - by eapply reserve_u8.
Qed.

(** * The logic across suspensions

    As [wp], but the registry may change: other connections run. Objects persist. *)
Definition run {A} (m : M A) (w : World) (Q : A -> World -> Prop) : Prop :=
  match m w with
  | Ok (a, w') => broker_ok w' /\ (forall loc, live w loc -> live w' loc) /\ Q a w'
  | _ => False
  end.

Lemma run_wp {A} (m : M A) w (Q : A -> World -> Prop) : wp m w Q -> run m w Q.
Proof.
  unfold wp, run. destruct (m w) as [[a w']| | |]; try done. intros (? & Hev & ?). split_and!; try done.
  intros. by eapply ev_live.
Qed.

Lemma run_bind {A C} (m : M A) (f : A -> M C) w Q : run m w (fun a w1 => run (f a) w1 Q) -> run (m ≫= f) w Q.
Proof.
  unfold run. change ((m ≫= f) w) with (match m w with Ok (a, w1) => f a w1 | Reject => Reject | Fault => Fault | Diverge => Diverge end).
  destruct (m w) as [[a w1]| | |]; try done. intros (Hok & Hl & H).
  destruct (f a w1) as [[c w2]| | |]; try done. destruct H as (? & ? & ?). split_and!; auto.
Qed.

Lemma run_conseq {A} (m : M A) w (P Q : A -> World -> Prop) : run m w P ->
  (forall a w', broker_ok w' -> (forall loc, live w loc -> live w' loc) -> P a w' -> Q a w') -> run m w Q.
Proof. unfold run. destruct (m w) as [[a w1]| | |]; try done. intros (? & ? & ?) HQ. auto. Qed.

Lemma run_call {A C} (m : M A) (f : A -> M C) w P Q : run m w P ->
  (forall a w', broker_ok w' -> (forall loc, live w loc -> live w' loc) -> P a w' -> run (f a) w' Q) ->
  run (m ≫= f) w Q.
Proof. intros Hm Hf. apply run_bind. eapply run_conseq; eauto. Qed.

(** A computation of the dispatcher, then the rest. *)
Lemma run_step {A C} (m : M A) (f : A -> M C) w P Q : wp m w P ->
  (forall a w', broker_ok w' -> evolves w w' -> P a w' -> run (f a) w' Q) -> run (m ≫= f) w Q.
Proof.
  intros Hm Hf. apply run_bind. unfold wp, run in *. destruct (m w) as [[a w1]| | |]; try done.
  destruct Hm as (Hok & Hev & HP). split_and!; [done|intros; by eapply ev_live|by apply Hf].
Qed.

Lemma run_ret {A} (a : A) w (Q : A -> World -> Prop) : broker_ok w -> Q a w -> run (mret a) w Q.
Proof. intros. split_and!; done. Qed.

Lemma run_skip w (Q : unit -> World -> Prop) : broker_ok w -> Q tt w -> run mskip w Q.
Proof. apply run_ret. Qed.

Lemma run_when b m w (Q : unit -> World -> Prop) : broker_ok w ->
  (b = true -> run m w Q) -> (b = false -> Q tt w) -> run (mwhen b m) w Q.
Proof. intros ? H1 H2. unfold mwhen. destruct b; [auto|]. apply run_skip; auto. Qed.

(** A list of computations, while the objects [locs] persist. *)
Lemma run_for {A} (l : list A) (body : A -> M unit) (locs : list Z) w :
  broker_ok w -> (forall loc, loc ∈ locs -> live w loc) ->
  (forall a w', a ∈ l -> broker_ok w' -> (forall loc, loc ∈ locs -> live w' loc) -> run (body a) w' (fun _ _ => True)) ->
  run (mfor l body) w (fun _ _ => True).
Proof.
  revert w; induction l as [|a l IH]; intros w Hok Hl Hb; cbn [mfor]; [by apply run_skip|].
  eapply run_call; [apply Hb; [left|done|done]|]. intros _ w1 Hok1 Hl1 _.
  apply IH; [done|auto|]. intros. apply Hb; [by right|done|done].
Qed.

Section Server.
Variable little : bool.
Variables (config_ : MqttServerConfig) (handler_ : option MqttHandler).
#[local] Instance sink : ByteSink ByteBuffer.t := ByteBuffer_sink little.

(** The largest piece of data a read delivers, and the room the buffer may take. *)
Definition READ_MAX : Z := 4294967296.

Definition buffer_ok (b : ByteBuffer.t) : Prop :=
  ByteBuffer.wf b /\ Forall is_u8 (ByteBuffer.storage_ b) /\ zlen (ByteBuffer.storage_ b) <= 2 * READ_MAX.

(** A piece of data as it is read. *)
Definition read_ok (data : ByteBuffer.t) : Prop :=
  ByteBuffer.wf data /\ Forall is_u8 (ByteBuffer.contents data) /\ zlen (ByteBuffer.contents data) <= READ_MAX.

Definition unregistered (loc : Z) (w : World) : Prop :=
  map_find loc (MqttSessionManager.sessions_ (session_mgr_ w)) = None.

Lemma wp_to_run {A} (m : M A) w (P Q : A -> World -> Prop) : wp m w P ->
  (forall a w', broker_ok w' -> evolves w w' -> P a w' -> Q a w') -> run m w Q.
Proof. intros. apply run_wp. by eapply wp_conseq. Qed.

Lemma run_cleanup f w : broker_ok w -> live w (fr_session f) ->
  run (cleanup_session little handler_ f) w (fun _ => unregistered (fr_session f)).
Proof.
  intros Hok Hl. unfold cleanup_session. eapply run_step with (P := fun _ _ => True).
  { case_if; [by apply wp_on_session_closed|]. apply wp_modify; [done|done| |done].
    intros s []. split; [by constructor|done]. }
  intros _ w1 Hok1 Hev1 _. eapply run_step with (P := fun s _ => MqttSession.session_id_ s = fr_session f).
  { apply wp_get_session; [done|by eapply ev_live|done]. }
  intros s w2 Hok2 Hev2 ->. unfold remove_session. eapply run_step; [apply (wp_get w2 (fun a b => a = b)); done|].
  intros w3 w4 Hok4 Hev4 ->.
  destruct (MqttSessionManager.remove_session_ok (fr_session f) (session_mgr_ w4) (bo_sessions w4 Hok4))
    as (m' & E & Hm' & Hobj & Hcnt & Hs).
  unfold run. change ((mlift ?o ≫= ?k) w4) with (match (a ← o; Ok (a, w4)) with Ok (a, w1) => k a w1 | Reject => Reject | Fault => Fault | Diverge => Diverge end).
  rewrite E. mstep. unfold put_mgr.
  split; [|split].
  - destruct Hok4 as [? Hses ? ? ? ?]. constructor; try done. simpl. rewrite Hobj. done.
  - unfold live. simpl. by rewrite Hobj.
  - unfold unregistered. simpl. rewrite Hs. apply map_find_erase_eq.
Qed.

(** A frame in the packet loop of the connection [loc]. *)
Definition frame_ok (loc : Z) (f : Frame) : Prop := fr_session f = loc /\ buffer_ok (recv_buf f).

Lemma buffer_view b : buffer_ok b ->
  Forall is_u8 (drop (Z.to_nat (ByteBuffer.read_offset_ b)) (ByteBuffer.storage_ b))
  /\ 0 <= ByteBuffer.readable_bytes b
       <= zlen (drop (Z.to_nat (ByteBuffer.read_offset_ b)) (ByteBuffer.storage_ b)).
Proof.
  intros ([? ?] & Hu & _). split; [by apply Forall_drop|].
  unfold ByteBuffer.readable_bytes, zlen in *. rewrite length_drop. lia.
Qed.

Lemma consume_buffer n b : buffer_ok b -> 0 <= n <= ByteBuffer.readable_bytes b ->
  buffer_ok (ByteBuffer.consume n b) /\ ByteBuffer.readable_bytes (ByteBuffer.consume n b) = ByteBuffer.readable_bytes b - n.
Proof.
  intros (Hwf & Hu & Hs) Hn. unfold ByteBuffer.readable_bytes in *. pose proof Hwf as [Hw1 Hw2].
  unfold READ_MAX in Hs.
  destruct (ByteBuffer.consume_ok n b Hwf) as [Hwf' _]; [lia|lia|lia|].
  split; [split; [done|split; [done|unfold READ_MAX; done]]|].
  unfold ByteBuffer.consume, u64. simpl. rewrite Z.mod_small by lia. lia.
Qed.

Lemma run_create_session conn w : broker_ok w ->
  0 < MqttSessionManager.global_session_id (session_mgr_ w) < 2 ^ 64 - 1 ->
  run (create_session_owner conn) w
    (fun loc w' => loc = MqttSessionManager.global_session_id (session_mgr_ w) /\ live w' loc).
Proof.
  intros Hok Hc. set (loc := MqttSessionManager.global_session_id (session_mgr_ w)) in *.
  unfold create_session_owner. eapply run_step; [apply (wp_get w (fun a b => a = w /\ b = w)); done|].
  intros w0 w1 Hok1 _ [-> ->]. unfold MqttSessionManager.create_session_owner. fold loc.
  pose proof (MqttSessionManager.sessions_ok_create (now w) (Some conn) (session_mgr_ w)) as Hso.
  unfold run. split; [|split].
  - destruct Hok1 as [? Hses ? ? ? ?]. constructor; simpl; try done.
    + by apply Hso.
    + intros l s [[<- <-]|[_ Hs]]%lookup_insert_Some; [|by eapply Hses].
      constructor; simpl; [unfold MqttSession.packet_id_ok; lia|done|by intros ?? ?%not_elem_of_nil].
  - intros l Hl. unfold live in *. simpl. rewrite lookup_insert_is_Some.
    destruct (decide (loc = l)); auto.
  - split; [done|]. unfold live. simpl. rewrite lookup_insert_eq. eauto.
Qed.

End Server.
