(* ===== verification/MqttDeliveryFacts.v ===== *)
(** What a delivery does, event by event.

    [steps R m]: whenever [m] returns, it moved the world along [R]. [delivers] is the
    relation of a delivery: packet identifiers are drawn and events appended, nothing
    else changes. The second part has exchanges on the wire: what the dispatcher does with
    the bytes of a frame. *)
From S2P Require Import Prelude Containers ByteBuffer ByteBufferFacts Strings MqttProtocol MqttProperties MqttPropertiesFacts MqttCodec.
From S2P Require Import MqttCodecFacts MqttDecodeSound MqttTopicTree MqttRetainedStore MqttTopicTreeFacts MqttSession MqttBroker MqttBrokerFacts.
From S2P Require Import MqttDispatcher MqttDispatcherFacts.
Import MqttProperties MqttCodec MqttDispatcher.

Definition steps {A} (R : World -> World -> Prop) (m : M A) : Prop :=
  forall w a w', m w = Ok (a, w') -> R w w'.

Section Steps.
Context (R : World -> World -> Prop) `{!PreOrder R}.

Lemma steps_ret {A} (a : A) : steps R (mret a).
Proof. intros w a' w' [= <- <-]. reflexivity. Qed.
Lemma steps_skip : steps R mskip.
Proof. apply steps_ret. Qed.
Lemma steps_get : steps R mget.
Proof. intros w a w' [= <- <-]. reflexivity. Qed.
Lemma steps_lift {A} (o : outcome A) : steps R (mlift o).
Proof. intros w a w' H. unfold mlift in H. destruct o; simplify_eq/=. reflexivity. Qed.
Lemma steps_bind {A C} (m : M A) (f : A -> M C) : steps R m -> (forall a, steps R (f a)) -> steps R (m ≫= f).
Proof.
  intros Hm Hf w c w' H. unfold mbind, M_bind in H. destruct (m w) as [[a w1]| | |] eqn:E; try done.
  transitivity w1; [by eapply Hm|by eapply Hf].
Qed.
Lemma steps_for {A} (l : list A) body : (forall a, a ∈ l -> steps R (body a)) -> steps R (mfor l body).
Proof.
  induction l as [|a l IH]; intros Hb; simpl; [apply steps_skip|].
  apply steps_bind; [apply Hb; left|]. intros _. apply IH. intros; apply Hb; by right.
Qed.
Lemma steps_get_session loc : steps R (get_session loc).
Proof. apply steps_bind; [apply steps_get|intros; apply steps_lift]. Qed.
Lemma steps_find_session sid all : steps R (find_session sid all).
Proof.
  induction all as [|loc all IH]; cbn [find_session]; [apply steps_ret|].
  apply steps_bind; [apply steps_get_session|]. intros s. case_if; [apply steps_ret|apply IH].
Qed.
End Steps.

(** The session objects, up to their packet counters. *)
Record delivers (w w' : World) : Prop := {
  dl_objects loc s : MqttSessionManager.objects (session_mgr_ w) !! loc = Some s ->
    exists n, MqttSessionManager.objects (session_mgr_ w') !! loc = Some (MqttSession.set_next_packet_id n s);
  dl_sessions : MqttSessionManager.sessions_ (session_mgr_ w') = MqttSessionManager.sessions_ (session_mgr_ w);
  dl_rest : topic_tree_ w' = topic_tree_ w /\ retained_store_ w' = retained_store_ w /\ alive w' = alive w /\ now w' = now w;
  dl_trace : exists evs, trace w' = trace w ++ evs
}.

Lemma set_next_packet_id_same s : MqttSession.set_next_packet_id (MqttSession.next_packet_id_ s) s = s.
Proof. by destruct s. Qed.

#[export] Instance delivers_preorder : PreOrder delivers.
Proof.
  split.
  - intros w. constructor; auto.
    + intros loc s Hs. exists (MqttSession.next_packet_id_ s). by rewrite set_next_packet_id_same.
    + exists []. by rewrite app_nil_r.
  - intros w1 w2 w3 [O1 S1 (? & ? & ? & ?) [e1 E1]] [O2 S2 (? & ? & ? & ?) [e2 E2]]. constructor.
    + intros loc s (n & Hn)%O1. apply O2 in Hn as (n' & Hn'). exists n'. by rewrite Hn'.
    + congruence.
    + split_and!; congruence.
    + exists (e1 ++ e2). by rewrite E2, E1, app_assoc.
Qed.

Lemma get_session_ok loc s w :
  MqttSessionManager.objects (session_mgr_ w) !! loc = Some s -> get_session loc w = Ok (s, w).
Proof.
  intros Hs. unfold get_session, mget, mlift, mbind, M_bind. by rewrite (MqttSessionManager.deref_ok _ _ _ Hs).
Qed.

(** The world with other session objects. *)
Definition with_objects (o : gmap Z MqttSession.t) (w : World) : World :=
  mkWorld (MqttSessionManager.set_objects o (session_mgr_ w)) (topic_tree_ w) (retained_store_ w) (alive w) (now w) (trace w).

Lemma put_session_ok loc s w :
  put_session loc s w = Ok (tt, with_objects (<[loc := s]> (MqttSessionManager.objects (session_mgr_ w))) w).
Proof. reflexivity. Qed.

Lemma modify_session_ok loc f s w : MqttSessionManager.objects (session_mgr_ w) !! loc = Some s ->
  modify_session loc f w = Ok (tt, with_objects (<[loc := f s]> (MqttSessionManager.objects (session_mgr_ w))) w).
Proof.
  intros Hs. unfold modify_session. unfold mbind at 1, M_bind at 1. rewrite (get_session_ok loc s w Hs). apply put_session_ok.
Qed.

Lemma steps_next_packet_id loc : steps delivers (next_packet_id loc).
Proof.
  intros w id w' H. unfold next_packet_id in H. unfold mbind at 1, M_bind at 1 in H.
  destruct (get_session loc w) as [[s w1]| | |] eqn:E; try done.
  assert (w1 = w /\ MqttSessionManager.objects (session_mgr_ w) !! loc = Some s) as [-> Hs].
  { unfold get_session, mget, mlift, mbind, M_bind in E.
    destruct (MqttSessionManager.deref loc (session_mgr_ w)) eqn:Ed; simplify_eq/=.
    split; [done|]. by apply MqttSessionManager.deref_inv. }
  unfold MqttSession.next_packet_id in H. unfold mbind, M_bind in H. rewrite put_session_ok in H.
  injection H as _ <-. constructor; simpl; auto; [|exists []; by rewrite app_nil_r].
  intros l s' Hl. destruct (decide (loc = l)) as [<-|].
  - rewrite lookup_insert_eq. assert (s' = s) as -> by congruence. eauto.
  - rewrite lookup_insert_ne by done. exists (MqttSession.next_packet_id_ s'). by rewrite set_next_packet_id_same.
Qed.

Lemma steps_emit e : steps delivers (memit e).
Proof.
  intros w a w' [= <- <-]. constructor; simpl; auto; [|eauto].
  intros loc s Hs. exists (MqttSession.next_packet_id_ s). by rewrite set_next_packet_id_same.
Qed.

Section Delivery.
Context {B : Type} `{ByteSink B}.

Lemma steps_write conn (m : outcome B) : steps delivers (write_and_flush conn m).
Proof. unfold write_and_flush. apply steps_bind; [apply _|apply steps_lift, _|intros; apply steps_emit]. Qed.

Lemma steps_optional_id (c : bool) loc :
  steps delivers (if c then id ← next_packet_id loc; mret (Some id) else mret None).
Proof.
  destruct c; [|apply steps_ret, _]. apply steps_bind; [apply _|apply steps_next_packet_id|intros; apply steps_ret, _].
Qed.

Lemma steps_deliver sid pkt sub : steps delivers (deliver (B:=B) sid pkt sub).
Proof.
  unfold deliver. case_if; [apply steps_skip, _|].
  apply steps_bind; [apply _|apply steps_get, _|]. intros w.
  apply steps_bind; [apply _|apply steps_find_session, _|]. intros [loc|]; [|apply steps_skip, _].
  apply steps_bind; [apply _|apply steps_get_session, _|]. intros s. case_if; [apply steps_skip, _|].
  destruct (MqttSession.connection (alive w) s); [|apply steps_skip, _].
  apply steps_bind; [apply _|apply steps_optional_id|]. intros id. apply steps_write.
Qed.

Lemma steps_publish session pkt : steps delivers (publish_to_subscribers (B:=B) session pkt).
Proof.
  unfold publish_to_subscribers. apply steps_bind; [apply _|apply steps_get_session, _|]. intros s.
  apply steps_bind; [apply _|apply steps_get, _|]. intros w. apply steps_for; [apply _|]. intros. apply steps_deliver.
Qed.

(** * Finding the subscriber *)
Lemma find_session_spec sid m w : MqttSessionManager.sessions_ok (session_mgr_ w) ->
  (forall kv, kv ∈ m -> kv ∈ MqttSessionManager.sessions_ (session_mgr_ w)) ->
  find_session sid (map snd m) w = Ok (map_find sid m, w).
Proof.
  intros Hok. induction m as [|[k loc] m IH]; intros Hin; [done|].
  destruct (MqttSessionManager.registered_elem _ k loc Hok) as (s & -> & _ & Hs); [apply Hin; left|].
  pose proof (MqttSessionManager.so_ids _ Hok _ _ Hs) as [Hid _].
  cbn [map snd find_session map_find]. unfold mbind, M_bind. rewrite (get_session_ok k s w Hs). rewrite Hid.
  cbn [kcmp OrdKey_Z]. destruct (Z.compare_spec sid k) as [->|?|?].
  - rewrite Z.eqb_refl. done.
  - replace (k =? sid) with false by lia. apply IH. intros; apply Hin; by right.
  - replace (k =? sid) with false by lia. apply IH. intros; apply Hin; by right.
Qed.

(** The session that a subscription's messages go to, with its connection. *)
Definition target (w : World) (sub : MqttSubscription) : option (MqttSession.t * Z) :=
  loc ← map_find (sub_session_id sub) (MqttSessionManager.sessions_ (session_mgr_ w));
  s ← MqttSessionManager.objects (session_mgr_ w) !! loc;
  conn ← (if state_eqb (MqttSession.state_ s) connected then MqttSession.connection (alive w) s else None);
  Some (s, conn).

(** The subscription asks not to see its own session's messages. *)
Definition excluded (sid : Z) (sub : MqttSubscription) : bool :=
  negb (sub_no_local sub =? 0) && (sub_session_id sub =? sid).

(** The bytes of the PUBLISH for a subscriber. *)
Definition delivery_bytes (pkt : MqttPublishPacket) (sub : MqttSubscription) (s : MqttSession.t) (id : option Z) : bytes :=
  let level := MqttSession.protocol_level_ s in
  let p := subscriber_packet pkt sub id (is_v5 level) in
  frame PUBLISH (publish_flags p) (publish_body p level).

Lemma memit_ok e w : memit e w = Ok (tt, mkWorld (session_mgr_ w) (topic_tree_ w) (retained_store_ w) (alive w) (now w) (trace w ++ [e])).
Proof. reflexivity. Qed.

Lemma find_target sub w : broker_ok w ->
  find_session (sub_session_id sub) (MqttSessionManager.all_sessions (session_mgr_ w)) w
  = Ok (map_find (sub_session_id sub) (MqttSessionManager.sessions_ (session_mgr_ w)), w).
Proof. intros Hok. apply find_session_spec; [apply Hok|done]. Qed.

(** A delivery without packet identifier appends one write, or nothing. *)
Lemma deliver_qos0 sid pkt sub w : broker_ok w -> packet_ok pkt -> subscription_ok sub -> pb_qos pkt = 0 ->
  deliver (B:=B) sid pkt sub w =
    Ok (tt, mkWorld (session_mgr_ w) (topic_tree_ w) (retained_store_ w) (alive w) (now w)
      (trace w ++ if excluded sid sub then [] else
         match target w sub with Some (s, conn) => [EvWrite conn (delivery_bytes pkt sub s None)] | None => [] end)).
Proof.
  intros Hok Hp Hs Hq0. destruct w as [mgr tree ret al nw tr] eqn:Ew. rewrite <- Ew in *.
  assert (forall x : list event, x = [] -> Ok (tt, w) = Ok (tt, mkWorld mgr tree ret al nw (tr ++ x))) as Hnil.
  { intros x ->. by rewrite app_nil_r, Ew. }
  rewrite Ew at 2 3 4 5 6 7. cbn [session_mgr_ topic_tree_ retained_store_ alive now trace].
  unfold deliver, excluded. case_if; [by apply Hnil|].
  unfold mbind at 1, M_bind at 1, mget. unfold mbind at 1, M_bind at 1. rewrite find_target by done.
  unfold target. destruct (map_find _ _) as [loc|] eqn:E; [|by apply Hnil].
  destruct (MqttSessionManager.registered_elem _ (sub_session_id sub) loc (bo_sessions w Hok)) as (s & El & _ & Hobj);
    [by apply map_find_elem|].
  unfold mbind at 1, M_bind at 1. rewrite (get_session_ok loc s w Hobj).
  cbn [mbind option_bind]. rewrite Hobj. cbn [mbind option_bind].
  destruct (state_eqb (MqttSession.state_ s) connected); [|by apply Hnil]. cbn [negb].
  destruct (MqttSession.connection (alive w) s) as [conn|]; [|by apply Hnil].
  cbv zeta. cbn [subscriber_packet pb_qos]. rewrite Hq0.
  replace (if sub_qos sub <? 0 then sub_qos sub else 0) with 0 by (destruct Hs as [[? ?] _]; case_if; lia).
  change (negb (0 =? AT_MOST_ONCE)) with false. cbn [mbind option_bind]. unfold mbind at 1, M_bind at 1, mret at 1, M_ret at 1.
  unfold write_and_flush. unfold mbind at 1, M_bind at 1, mlift.
  destruct (subscriber_packet_encodes (B:=B) pkt sub None (MqttSession.protocol_level_ s) Hp Hs) as (b & Eb & _ & Hb).
  rewrite Eb. mstep. rewrite memit_ok, Ew. cbn [session_mgr_ topic_tree_ retained_store_ alive now trace].
  unfold delivery_bytes. by rewrite Hb.
Qed.

(** What a message without packet identifier appends to the trace. *)
Definition delivery_events (w : World) (sid : Z) (pkt : MqttPublishPacket) (sub : MqttSubscription) : list event :=
  if excluded sid sub then []
  else match target w sub with Some (s, conn) => [EvWrite conn (delivery_bytes pkt sub s None)] | None => [] end.

Definition with_trace (evs : list event) (w : World) : World :=
  mkWorld (session_mgr_ w) (topic_tree_ w) (retained_store_ w) (alive w) (now w) (trace w ++ evs).

Lemma with_trace_nil w : with_trace [] w = w.
Proof. destruct w. unfold with_trace. simpl. by rewrite app_nil_r. Qed.
Lemma with_trace_app a b w : with_trace b (with_trace a w) = with_trace (a ++ b) w.
Proof. unfold with_trace. simpl. by rewrite app_assoc. Qed.

Lemma broker_ok_trace evs w : broker_ok w -> broker_ok (with_trace evs w).
Proof. intros []. by constructor. Qed.

Lemma deliver_all_qos0 sid pkt subs w : broker_ok w -> packet_ok pkt -> pb_qos pkt = 0 ->
  (forall sub, sub ∈ subs -> subscription_ok sub) ->
  mfor subs (deliver (B:=B) sid pkt) w = Ok (tt, with_trace (flat_map (delivery_events w sid pkt) subs) w).
Proof.
  intros Hok Hp Hq. revert w Hok; induction subs as [|sub subs IH]; intros w Hok Hs; simpl.
  { by rewrite with_trace_nil. }
  unfold mbind, M_bind. rewrite deliver_qos0; [|done|done|apply Hs; left|done].
  change (mkWorld _ _ _ _ _ _) with (with_trace (delivery_events w sid pkt sub) w).
  rewrite IH; [|by apply broker_ok_trace|intros; apply Hs; by right].
  by rewrite with_trace_app.
Qed.

Lemma match_subs_ok w topic sub : broker_ok w ->
  sub ∈ MqttTopicTree.match_topic topic (topic_tree_ w) -> subscription_ok sub.
Proof.
  intros Hok Hin. apply match_topic_subs in Hin as [f Hf]; [|apply Hok]. by apply (bo_subs w Hok f).
Qed.

Lemma publish_qos0 session s pkt w : broker_ok w -> packet_ok pkt -> pb_qos pkt = 0 ->
  MqttSessionManager.objects (session_mgr_ w) !! session = Some s ->
  publish_to_subscribers (B:=B) session pkt w =
    Ok (tt, with_trace (flat_map (delivery_events w session pkt)
              (apply_shared_subscription_policy (MqttTopicTree.match_topic (pb_topic pkt) (topic_tree_ w)))) w).
Proof.
  intros Hok Hp Hq Hs. unfold publish_to_subscribers. unfold mbind at 1, M_bind at 1.
  rewrite (get_session_ok session s w Hs). unfold mbind at 1, M_bind at 1, mget.
  destruct (MqttSessionManager.so_ids _ (bo_sessions w Hok) _ _ Hs) as [-> _].
  apply deliver_all_qos0; [done|done|done|]. intros sub Hin%apply_policy_incl. by eapply match_subs_ok.
Qed.

(** * Every quality of service: each subscriber is written to *)
Lemma target_delivers w w' sub s conn : delivers w w' -> target w sub = Some (s, conn) ->
  exists n, target w' sub = Some (MqttSession.set_next_packet_id n s, conn).
Proof.
  intros [Ho Hs (_ & _ & Ha & _) _]. unfold target. rewrite Hs, Ha.
  intros (loc & -> & H2)%bind_Some. apply bind_Some in H2 as (s0 & Hobj & H2).
  apply bind_Some in H2 as (c & Hc & [= -> ->]). apply Ho in Hobj as (n & Hn). exists n.
  cbn [mbind option_bind]. rewrite Hn. cbn [mbind option_bind]. simpl.
  change (MqttSession.connection (alive w) (MqttSession.set_next_packet_id n s)) with (MqttSession.connection (alive w) s).
  by rewrite Hc.
Qed.

Lemma delivery_bytes_counter pkt sub n s id :
  delivery_bytes pkt sub (MqttSession.set_next_packet_id n s) id = delivery_bytes pkt sub s id.
Proof. reflexivity. Qed.

(** The identifier a delivery carries. *)
Definition id_for (pkt : MqttPublishPacket) (sub : MqttSubscription) (id : option Z) : Prop :=
  if Z.min (sub_qos sub) (pb_qos pkt) =? 0 then id = None else exists n, id = Some n /\ 1 <= n <= 65535.

Lemma deliver_writes sid pkt sub s conn w : broker_ok w -> packet_ok pkt -> subscription_ok sub ->
  excluded sid sub = false -> target w sub = Some (s, conn) ->
  exists id w', deliver (B:=B) sid pkt sub w = Ok (tt, w') /\ id_for pkt sub id
    /\ EvWrite conn (delivery_bytes pkt sub s id) ∈ trace w'.
Proof.
  intros Hok Hp Hs Hx Ht. unfold deliver. unfold excluded in Hx. rewrite Hx.
  unfold mbind at 1, M_bind at 1, mget. unfold mbind at 1, M_bind at 1. rewrite find_target by done.
  unfold target in Ht. apply bind_Some in Ht as (loc & -> & Ht).
  apply bind_Some in Ht as (s0 & Hobj & Ht). apply bind_Some in Ht as (c & Hc & [= -> ->]).
  unfold mbind at 1, M_bind at 1. rewrite (get_session_ok loc s w Hobj).
  destruct (state_eqb _ _); [|done]. cbn [negb]. rewrite Hc. cbv zeta. cbn [subscriber_packet pb_qos].
  replace (if sub_qos sub <? pb_qos pkt then sub_qos sub else pb_qos pkt) with (Z.min (sub_qos sub) (pb_qos pkt))
    by (case_if; lia).
  unfold AT_MOST_ONCE.
  pose proof (wp_next_packet_id loc w Hok) as Hnext. unfold live in Hnext.
  assert (exists id w1, (if negb (Z.min (sub_qos sub) (pb_qos pkt) =? 0)
      then id ← next_packet_id loc; mret (Some id) else mret None) w = Ok (id, w1) /\ id_for pkt sub id) as (id & w1 & E & Hid).
  { unfold id_for. destruct (Z.min _ _ =? 0); simpl; [by eexists _, _|].
    destruct (wp_inv _ _ _ (Hnext ltac:(eauto))) as (id & w1 & E & _ & _ & Hr).
    eexists _, w1. unfold mbind, M_bind. rewrite E. split; [done|eauto]. }
  exists id. unfold mbind at 1, M_bind at 1. rewrite E.
  unfold write_and_flush. unfold mbind at 1, M_bind at 1, mlift.
  destruct (subscriber_packet_encodes (B:=B) pkt sub id (MqttSession.protocol_level_ s) Hp Hs) as (b & Eb & _ & Hb).
  rewrite Eb. mstep. rewrite memit_ok. eexists. split; [done|]. split; [done|]. simpl. rewrite Hb.
  apply elem_of_app. right. apply list_elem_of_singleton. reflexivity.
Qed.

Lemma deliver_all_writes sid pkt subs sub s conn w : broker_ok w -> packet_ok pkt ->
  (forall x, x ∈ subs -> subscription_ok x) -> sub ∈ subs ->
  excluded sid sub = false -> target w sub = Some (s, conn) ->
  exists id w', mfor subs (deliver (B:=B) sid pkt) w = Ok (tt, w') /\ id_for pkt sub id
    /\ EvWrite conn (delivery_bytes pkt sub s id) ∈ trace w'.
Proof.
  intros Hok Hp. revert w Hok s. induction subs as [|x subs IH]; intros w Hok s Hs Hin Hx Ht;
    [by apply not_elem_of_nil in Hin|].
  assert (forall w1, broker_ok w1 -> exists w2, mfor subs (deliver (B:=B) sid pkt) w1 = Ok (tt, w2)) as Htail.
  { intros w1 Hok1. assert (wp (mfor subs (deliver (B:=B) sid pkt)) w1 (fun _ _ => True)) as Hw.
    { apply wp_for with (P := fun _ => True); try done. intros y w2 Hy Hok2 _.
      apply wp_deliver; [done|done|]. apply Hs. by right. }
    apply wp_inv in Hw as ([] & w2 & E & _). eauto. }
  simpl. unfold mbind, M_bind. apply elem_of_cons in Hin as [->|Hin].
  - destruct (deliver_writes sid pkt x s conn w Hok Hp) as (id & w1 & E & Hid & Hev); [apply Hs; left|done|done|].
    pose proof (wp_deliver (B:=B) sid pkt x w Hok Hp ltac:(apply Hs; left)) as Hw.
    apply wp_inv in Hw as ([] & w1' & E' & Hok1 & _). rewrite E in *. simplify_eq.
    destruct (Htail w1' Hok1) as (w2 & E2). exists id, w2. rewrite E2. split; [done|]. split; [done|].
    assert (delivers w1' w2) as [_ _ _ [evs ->]].
    { eapply (steps_for delivers subs); [|exact E2]. intros. apply steps_deliver. }
    apply elem_of_app. by left.
  - pose proof (wp_deliver (B:=B) sid pkt x w Hok Hp ltac:(apply Hs; left)) as Hw.
    apply wp_inv in Hw as ([] & w1 & E & Hok1 & _). rewrite E.
    apply steps_deliver in E as Hd. destruct (target_delivers _ _ _ _ _ Hd Ht) as (n & Ht1).
    destruct (IH w1 Hok1 _ ltac:(intros; apply Hs; by right) Hin Hx Ht1) as (id & w2 & E2 & Hid & Hev).
    exists id, w2. done.
Qed.

Lemma publish_writes session pkt sub s0 s conn w : broker_ok w -> packet_ok pkt ->
  MqttSessionManager.objects (session_mgr_ w) !! session = Some s0 ->
  sub ∈ apply_shared_subscription_policy (MqttTopicTree.match_topic (pb_topic pkt) (topic_tree_ w)) ->
  excluded session sub = false -> target w sub = Some (s, conn) ->
  exists id w', publish_to_subscribers (B:=B) session pkt w = Ok (tt, w') /\ id_for pkt sub id
    /\ EvWrite conn (delivery_bytes pkt sub s id) ∈ trace w'.
Proof.
  intros Hok Hp Hs Hin Hx Ht. unfold publish_to_subscribers. unfold mbind at 1, M_bind at 1.
  rewrite (get_session_ok session s0 w Hs). unfold mbind at 1, M_bind at 1, mget.
  destruct (MqttSessionManager.so_ids _ (bo_sessions w Hok) _ _ Hs) as [-> _].
  apply deliver_all_writes; try done. intros x Hx'%apply_policy_incl. by eapply match_subs_ok.
Qed.
End Delivery.

(** * The shared-subscription policy *)
Definition group_of (g : bytes) (sub : MqttSubscription) : bool := bool_decide (sub_shared_group sub = g).

(** The groups that [split_groups] has collected: in order, each under its own name
    with the subscriptions of that name. *)
Definition groups_ok (groups : list (bytes * list MqttSubscription)) : Prop :=
  map_sorted groups
  /\ forall entry, entry ∈ groups -> entry.1 <> [] /\ entry.2 <> [] /\ Forall (fun sub => sub_shared_group sub = entry.1) entry.2.

Lemma split_groups_spec matches result groups r g : groups_ok groups ->
  split_groups matches result groups = (r, g) ->
  groups_ok g
  /\ r = result ++ List.filter (group_of []) matches
  /\ (forall name, name <> [] ->
        default [] (map_find name g) = default [] (map_find name groups) ++ List.filter (group_of name) matches).
Proof.
  revert result groups; induction matches as [|m matches IH]; intros result groups Hg; simpl.
  { intros [= <- <-]. split_and!; [done|by rewrite app_nil_r|]. intros. by rewrite app_nil_r. }
  destruct (sub_shared_group m) as [|c name] eqn:E; intros H.
  - apply IH in H as (Hg' & -> & Hf); [|done]. split_and!; [done| |].
    + assert (group_of [] m = true) as -> by (by apply bool_decide_eq_true). by rewrite <- app_assoc.
    + intros n Hn. assert (group_of n m = false) as -> by (apply bool_decide_eq_false; congruence). by apply Hf.
  - apply IH in H as (Hg' & -> & Hf).
    + assert (group_of [] m = false) as -> by (apply bool_decide_eq_false; congruence). split_and!; [done|done|].
      intros n Hn. rewrite Hf by done. destruct (decide (n = c :: name)) as [->|Hne].
      * rewrite map_find_insert_eq. assert (group_of (c :: name) m = true) as -> by (by apply bool_decide_eq_true).
        change (default [] (Some ?x)) with x. by rewrite <- app_assoc.
      * rewrite map_find_insert_ne by done. assert (group_of n m = false) as -> by (apply bool_decide_eq_false; congruence). done.
    + destruct Hg as [Hs He]. split; [by apply map_sorted_insert|].
      intros entry [->|Hin]%map_insert_elem; [|by apply He]. simpl. split; [done|].
      split; [by destruct (default [] (map_find (c :: name) groups))|].
      apply Forall_app_2; [|by apply Forall_singleton].
      destruct (map_find (c :: name) groups) as [l|] eqn:Ef; [|constructor].
      apply map_find_elem in Ef. by apply (He _ Ef).
Qed.

(** A group delivers to exactly one of its members. *)
Lemma pick_group_one entry : entry.2 <> [] -> exists sub, pick_group entry = [sub] /\ sub ∈ entry.2.
Proof.
  intros Hne. unfold pick_group. destruct entry.2 as [|x l] eqn:E; [done|].
  destruct (lookup_lt_is_Some_2 (x :: l) (Z.to_nat (group_score entry.1 mod zlen (x :: l)))) as [sub Hsub].
  { pose proof (Z.mod_pos_bound (group_score entry.1) (zlen (x :: l))) as Hb. rewrite zlen_cons in *.
    pose proof (zlen_nonneg l). unfold zlen in *. simpl. lia. }
  rewrite Hsub. exists sub. split; [done|]. by eapply list_elem_of_lookup_2.
Qed.

Lemma filter_app_bool {A} (p : A -> bool) l k : List.filter p (l ++ k) = List.filter p l ++ List.filter p k.
Proof. apply List.filter_app. Qed.

Lemma filter_none {A} (p : A -> bool) l : (forall x, x ∈ l -> p x = false) -> List.filter p l = [].
Proof.
  induction l as [|x l IH]; intros Hp; [done|]. simpl. rewrite (Hp x) by left. apply IH. intros; apply Hp; by right.
Qed.

Lemma pick_groups_count groups name : groups_ok groups -> name <> [] ->
  length (List.filter (group_of name) (flat_map pick_group groups))
  = match map_find name groups with Some _ => 1%nat | None => 0%nat end.
Proof.
  intros [Hs He] Hn. induction groups as [|[k l] groups IH]; [done|]. destruct Hs as [Ha Hs].
  assert (forall entry, entry ∈ groups -> entry.1 <> [] /\ entry.2 <> [] /\
    Forall (fun sub => sub_shared_group sub = entry.1) entry.2) as He' by (intros; apply He; by right).
  destruct (He (k, l)) as (Hk & Hl & Hall); [left|]. simpl in Hk, Hl, Hall.
  destruct (pick_group_one (k, l) Hl) as (sub & Hp & Hin). simpl in Hin. rewrite Forall_forall in Hall.
  cbn [flat_map]. rewrite Hp, filter_app_bool, length_app, (IH Hs He'). cbn [map_find].
  destruct (decide (name = k)) as [->|Hne].
  - rewrite kcmp_refl. simpl. assert (group_of k sub = true) as -> by (apply bool_decide_eq_true; auto).
    assert (map_find k groups = None) as ->; [|done]. by apply keys_above_find.
  - simpl. assert (group_of name sub = false) as ->.
    { apply bool_decide_eq_false. rewrite (Hall sub Hin). congruence. }
    destruct (bytes_cmp name k) eqn:E; [|done|done]. apply bytes_cmp_eq in E. congruence.
Qed.

Lemma groups_ok_nil : groups_ok [].
Proof. split; [done|]. by intros ? ?%not_elem_of_nil. Qed.

Lemma policy_split matches : exists g, groups_ok g
  /\ apply_shared_subscription_policy matches = List.filter (group_of []) matches ++ flat_map pick_group g
  /\ forall name, name <> [] -> default [] (map_find name g) = List.filter (group_of name) matches.
Proof.
  unfold apply_shared_subscription_policy. destruct matches as [|m ms].
  { exists []. split; [apply groups_ok_nil|]. split; [done|]. done. }
  destruct (split_groups (m :: ms) [] []) as [r g] eqn:E.
  apply split_groups_spec in E as (Hg & -> & Hf); [|apply groups_ok_nil].
  exists g. split; [done|]. split; [done|]. intros name Hn. by rewrite Hf.
Qed.

Lemma pick_groups_named groups sub : groups_ok groups -> sub ∈ flat_map pick_group groups -> sub_shared_group sub <> [].
Proof.
  intros [_ He] (entry & Hin & Hs)%elem_of_flat_map. destruct (He entry Hin) as (Hk & Hl & Hall).
  destruct (pick_group_one entry Hl) as (x & Hp & Hx). rewrite Hp in Hs. apply list_elem_of_singleton in Hs as ->.
  rewrite Forall_forall in Hall. by rewrite (Hall x Hx).
Qed.

Lemma policy_unshared matches : List.filter (group_of []) (apply_shared_subscription_policy matches)
  = List.filter (group_of []) matches.
Proof.
  destruct (policy_split matches) as (g & Hg & -> & _). rewrite filter_app_bool.
  rewrite (filter_none _ (flat_map pick_group g)), app_nil_r.
  - induction matches as [|m ms IH]; [done|]. simpl. destruct (group_of [] m) eqn:E; simpl; [rewrite E; by f_equal|done].
  - intros x Hx%pick_groups_named; [|done]. by apply bool_decide_eq_false.
Qed.

Lemma policy_shared matches name : name <> [] ->
  length (List.filter (group_of name) (apply_shared_subscription_policy matches))
  = match List.filter (group_of name) matches with [] => 0%nat | _ :: _ => 1%nat end.
Proof.
  intros Hn. destruct (policy_split matches) as (g & Hg & -> & Hf). rewrite filter_app_bool, length_app.
  rewrite pick_groups_count by done. rewrite <- (Hf name Hn).
  assert (List.filter (group_of name) (List.filter (group_of []) matches) = []) as ->.
  { apply filter_none. intros x [Hx _]%elem_of_filter. apply bool_decide_eq_true in Hx.
    apply bool_decide_eq_false. congruence. }
  destruct (map_find name g) as [l|] eqn:E; [|done]. apply map_find_elem in E.
  destruct Hg as [_ He]. destruct (He _ E) as (_ & Hl & _). simpl in Hl. by destruct l.
Qed.

(** * Exchanges on the wire: what the dispatcher does with a packet given as the bytes of
    a frame, and what it leaves behind. *)
Import MqttProperties MqttCodec MqttDispatcher.

Lemma frame_flags t f : packet_flags f -> Z.land (PacketType_val t * 16 + f) 15 = f.
Proof.
  unfold packet_flags. intros. change 15 with (Z.ones 4). rewrite Z.land_ones by lia. change (2 ^ 4) with 16.
  Z.to_euclidean_division_equations; lia.
Qed.

Lemma frame_type t f : packet_flags f -> PacketType_cast (Z.land (Z.shiftr (PacketType_val t * 16 + f) 4) 15) = t.
Proof. intros Hf. rewrite frame_first_byte by done. by destruct t. Qed.

Lemma parse_remaining_length_frame t f body rest : zlen body <= MQTT_MAX_REMAINING_LENGTH ->
  parse_remaining_length (frame t f body ++ rest) (zlen (frame t f body))
  = Ok (1 + zlen (vbi 5 (zlen body)), zlen body).
Proof.
  unfold MQTT_MAX_REMAINING_LENGTH. intros Hb. pose proof (zlen_nonneg body) as H0.
  pose proof (vbi_len 5 (zlen body) ltac:(lia)) as Hv.
  set (data := frame t f body ++ rest). rewrite zlen_frame.
  set (len := 1 + zlen (vbi 5 (zlen body)) + zlen body).
  assert (drop 1 data = [] ++ vbi 5 (zlen body) ++ body ++ rest) as Hd.
  { unfold data, frame. cbn [app]. by rewrite <- app_assoc. }
  pose proof (decodes_vbi (zlen body) ltac:(lia) [] (body ++ rest) len) as Hdec.
  rewrite <- Hd in Hdec. change (zlen []) with 0 in Hdec. rewrite Z.add_0_l in Hdec. specialize (Hdec ltac:(lia)).
  unfold decode_variable_byte_int in Hdec.
  apply (parse_loop_framed _ _ _ len) in Hdec as (Hp & (x & Hx & Hx0) & Ho); [|lia|lia].
  unfold parse_remaining_length. case_if; [lia|]. rewrite Hp. mstep.
  unfold MQTT_VARIABLE_BYTE_INT_MAX_SIZE. case_if; [lia|].
  replace (1 + (zlen (vbi 5 (zlen body)) - 1)) with (zlen (vbi 5 (zlen body))) by lia.
  rewrite Hx. mstep. rewrite Hx0. change (0 =? 0) with true. cbn [negb]. case_if; [|lia]. do 2 f_equal. lia.
Qed.

Lemma drop_frame t f body rest :
  drop (Z.to_nat (1 + zlen (vbi 5 (zlen body)))) (frame t f body ++ rest) = body ++ rest.
Proof.
  unfold frame. pose proof (zlen_nonneg (vbi 5 (zlen body))) as H0.
  replace (Z.to_nat (1 + zlen (vbi 5 (zlen body)))) with (S (length (vbi 5 (zlen body)))) by (unfold zlen in *; lia).
  cbn [app drop skipn]. rewrite <- app_assoc. by rewrite drop_app_length.
Qed.

Lemma bind_ok {A C} (m : M A) (f : A -> M C) w a w' : m w = Ok (a, w') -> (m ≫= f) w = f a w'.
Proof. intros E. unfold mbind, M_bind. by rewrite E. Qed.

Lemma mlift_ok {A} (o : outcome A) a w : o = Ok a -> mlift o w = Ok (a, w).
Proof. by intros ->. Qed.

Lemma mtry_ok {A} (o : outcome A) a w : o = Ok a -> mtry o w = Ok (Some a, w).
Proof. by intros ->. Qed.

Section Exchange.
Context {B : Type} `{ByteSink B}.
Variables (config_ : MqttServerConfig) (handler_ : option MqttHandler).
Implicit Types (w : World) (session : Z) (s : MqttSession.t).

(** The object [s] at [session]. *)
Definition holds_session w session s : Prop := MqttSessionManager.objects (session_mgr_ w) !! session = Some s.

(** A packet from a connected session reaches its handler. *)
Lemma dispatch_frame session s t f body rest w :
  holds_session w session s -> MqttSession.state_ s = connected -> t <> CONNECT ->
  is_valid_packet_flags t f = true -> packet_flags f -> zlen body <= MQTT_MAX_REMAINING_LENGTH ->
  dispatch (B:=B) config_ handler_ session (frame t f body ++ rest) (zlen (frame t f body)) w
  = handle_packet config_ handler_ session t f (body ++ rest) (zlen body) w.
Proof.
  intros Hs Hc Ht Hv Hf Hb. unfold dispatch.
  pose proof (zlen_nonneg body) as H0. pose proof (vbi_len 5 (zlen body) ltac:(lia)) as Hvb.
  case_if; [rewrite zlen_frame in *; lia|].
  erewrite bind_ok; [|apply mlift_ok; unfold frame; cbn [app]; reflexivity]. cbv zeta.
  rewrite frame_type, frame_flags by done.
  erewrite bind_ok; [|by apply get_session_ok]. rewrite Hc.
  change (state_eqb connected connected) with true. cbn [negb andb].
  rewrite bool_decide_eq_false_2 by done. rewrite Hv. cbn [negb].
  erewrite bind_ok; [|apply mtry_ok; by apply parse_remaining_length_frame].
  cbv beta iota. by rewrite drop_frame.
Qed.

(** The reply of a packet that only answers. *)
Definition answers (m : outcome (B * World)) (x : bytes) w : Prop :=
  exists b, m = Ok (b, w) /\ sink_contents b = x.

Lemma answers_encodes m x w : encodes m x -> answers (mlift m w) x w.
Proof. intros (b & -> & _ & Hb). by exists b. Qed.

Lemma error_answers session s reason w : holds_session w session s ->
  answers (protocol_error_disconnect (B:=B) session reason w) (error_bytes s reason) w.
Proof.
  intros Hs. unfold protocol_error_disconnect, error_bytes. erewrite bind_ok; [|by apply get_session_ok].
  destruct (MqttSession.protocol_level_ s); cbn [is_v5 negb].
  - eexists. split; [done|]. apply sink_new_ok. unfold ByteBuffer.kDefaultCapacity. lia.
  - apply answers_encodes. apply (disconnect_encodes reason V5_0).
Qed.

(** ** PUBREL *)
Lemma handle_pubrel_ok session s pid reason p rest w :
  let level := MqttSession.protocol_level_ s in
  holds_session w session s -> 0 < pid < 65536 -> is_u8 reason -> level_props_ok level p ->
  (level = V3_1_1 -> reason = 0) ->
  let body := ack_body pid reason level p in
  if MqttSession.has_inflight_packet_id pid s then
    answers (handle_pubrel (B:=B) session (body ++ rest) (zlen body) w)
      (frame PUBCOMP 0 (ack_body pid PubcompReason.SUCCESS level no_props))
      (with_objects (<[session := MqttSession.remove_inflight_packet_id pid s]>
                       (MqttSessionManager.objects (session_mgr_ w))) w)
  else
    answers (handle_pubrel (B:=B) session (body ++ rest) (zlen body) w)
      (frame PUBCOMP 0 (ack_body pid PubcompReason.PACKET_IDENTIFIER_NOT_FOUND level no_props)) w.
Proof.
  intros level Hs Hpid Hr Hp H3 body.
  assert (handle_pubrel (B:=B) session (body ++ rest) (zlen body) w
    = (if negb (MqttSession.has_inflight_packet_id pid s) then
         mlift (encode_pubcomp pid PubcompReason.PACKET_IDENTIFIER_NOT_FOUND level no_props)
       else
         _ ← modify_session session (MqttSession.remove_inflight_packet_id pid);
         mlift (encode_pubcomp pid PubcompReason.SUCCESS level no_props)) w) as ->.
  { unfold handle_pubrel. erewrite bind_ok; [|by apply get_session_ok].
    erewrite bind_ok; [|apply mtry_ok; rewrite decode_pubrel_eq; apply decode_simple_ack_body; (unfold is_u16; lia) || done].
    cbn [ack_packet_id]. cbv zeta. case_if; [lia|done]. }
  destruct (MqttSession.has_inflight_packet_id pid s); cbn [negb].
  - erewrite bind_ok; [|by apply modify_session_ok]. apply answers_encodes. by apply ack_encodes.
  - apply answers_encodes. by apply ack_encodes.
Qed.

(** ** PUBLISH *)

(** A publish without topic alias to a valid topic. *)
Definition plain_publish (p : MqttPublishPacket) (level : ProtocolLevel) : Prop :=
  publish_ok p level /\ MqttTopicTree.validate_topic_name (pb_topic p) = true
  /\ topic_alias (pb_properties p) = None /\ zlen (publish_body p level) <= MESSAGE_MAX.

Lemma resolve_topic_plain session s p w : holds_session w session s ->
  topic_alias (pb_properties p) = None -> resolve_topic session p w = Ok (Some (pb_topic p), w).
Proof.
  intros Hs Ha. unfold resolve_topic. erewrite bind_ok; [|by apply get_session_ok].
  rewrite Ha. by case_if.
Qed.

Lemma publish_flags_qos p : 0 <= pb_dup p <= 1 -> 0 <= pb_qos p <= 3 -> 0 <= pb_retain p <= 1 ->
  Z.land (Z.shiftr (publish_flags p) MQTT_PUBLISH_FLAG_QOS_SHIFT) 3 = pb_qos p
  /\ flag_set (publish_flags p) MQTT_PUBLISH_FLAG_RETAIN = (pb_retain p =? 1).
Proof.
  intros. destruct (publish_flags_fields p) as (_ & -> & Hr); [done|done|done|]. split; [done|].
  unfold flag_set. rewrite Hr. lia.
Qed.

Lemma with_topic_same p : with_topic (pb_topic p) p = p.
Proof. by destruct p. Qed.

(** [handle_publish] on a plain publish, after its decoding and checks. *)
Definition publish_decision session s (p : MqttPublishPacket) : M B :=
  let level := MqttSession.protocol_level_ s in
  if (pb_qos p =? EXACTLY_ONCE) && (MqttSession.receive_maximum_ s <=? MqttSession.inflight_count s) then
    protocol_error_disconnect session DisconnectReason.RECEIVE_MAXIMUM_EXCEEDED
  else if (pb_qos p =? EXACTLY_ONCE)
          && match pb_packet_id p with Some pid => MqttSession.has_inflight_packet_id pid s | None => false end then
    mlift (encode_pubrec (default 0 (pb_packet_id p)) PubrecReason.PACKET_IDENTIFIER_IN_USE level no_props)
  else if refused handler_ (fun h => on_publish h s (pb_topic p) (pb_payload p) (pb_qos p) (pb_retain p =? 1)) then
    refuse_publish (pb_qos p) (default 0 (pb_packet_id p)) level
  else accept_publish session p (pb_qos p) (pb_retain p).

Lemma handle_publish_plain session s p rest w :
  let level := MqttSession.protocol_level_ s in
  let body := publish_body p level in
  holds_session w session s -> plain_publish p level ->
  handle_publish handler_ session (body ++ rest) (zlen body) (publish_flags p) w = publish_decision session s p w.
Proof.
  intros level body Hs (Hok & Hv & Ha & Hm). unfold handle_publish.
  pose proof Hok as (Hd & Hq & Hr & Ht & Hid & Hp & _).
  destruct (publish_flags_qos p) as [-> ->]; [lia|lia|lia|].
  erewrite bind_ok; [|by apply get_session_ok]. cbv beta.
  erewrite bind_ok; [|apply mtry_ok; by apply decode_publish_body]. cbv beta iota.
  erewrite bind_ok; [|by eapply resolve_topic_plain]. cbv beta iota zeta. rewrite with_topic_same, Hv.
  rewrite bool_decide_eq_false_2 by (intros E; by rewrite E in Hv). cbn [negb orb].
  assert (negb (pb_qos p =? AT_MOST_ONCE) && bool_decide (pb_packet_id p = None) = false) as ->.
  { destruct (pb_qos p =? AT_MOST_ONCE); [done|]. destruct Hid as (id & -> & _). done. }
  assert (negb (pb_qos p =? AT_MOST_ONCE) && (default 0 (pb_packet_id p) =? 0) = false) as ->.
  { destruct (pb_qos p =? AT_MOST_ONCE); [done|]. destruct Hid as (id & -> & Hid).
    change (default 0 (Some id)) with id. cbn [negb andb]. lia. }
  cbv iota. erewrite bind_ok; [|by apply get_session_ok]. cbv beta iota zeta.
  unfold publish_decision.
  replace (if pb_retain p =? 1 then 1 else 0) with (pb_retain p) by (case_if; lia).
  replace (negb (pb_retain p =? 0)) with (pb_retain p =? 1) by lia. done.
Qed.

Lemma publish_ok_packet p level : plain_publish p level -> packet_ok p.
Proof.
  intros ((_ & Hq & Hr & Ht & _ & Hp & _) & _ & _ & Hm).
  split; [|lia]. split; [done|]. split; [unfold qos_ok; lia|]. split; [by eapply level_props_ids|].
  pose proof (level_props_weight _ _ Hp). unfold publish_body in Hm. rewrite !zlen_app in Hm. zlen_pos. lia.
Qed.

(** Accepting a QoS 2 publish records its identifier and changes no other member of
    the session but the packet counter. *)
Lemma accept_publish_qos2 session s p w : broker_ok w -> holds_session w session s -> packet_ok p -> pb_qos p = 2 ->
  exists b w' n, accept_publish (B:=B) session p 2 (pb_retain p) w = Ok (b, w') /\ broker_ok w'
    /\ holds_session w' session
         (MqttSession.add_inflight_packet_id (default 0 (pb_packet_id p)) (MqttSession.set_next_packet_id n s)).2
    /\ sink_contents b = frame PUBREC 0 (ack_body (default 0 (pb_packet_id p)) PubrecReason.SUCCESS
                                           (MqttSession.protocol_level_ s) no_props).
Proof.
  intros Hok Hs Hp Hq.
  assert (live w session) as Hl by (unfold live; rewrite Hs; eauto).
  pose proof (wp_accept_publish (B:=B) session p 2 (pb_retain p) w Hok Hl Hp ltac:(unfold qos_ok; lia)) as Hw.
  apply wp_inv in Hw as (b & w' & E & Hok' & _ & _). exists b, w'. rewrite E.
  unfold accept_publish in E. erewrite bind_ok in E; [|by apply get_session_ok]. cbv zeta in E.
  set (level := MqttSession.protocol_level_ s) in *.
  unfold mbind at 1, M_bind at 1 in E.
  destruct (mwhen _ _ w) as [[[] w1]| | |] eqn:E1; try done.
  assert (session_mgr_ w1 = session_mgr_ w) as Hm1.
  { unfold mwhen, retained_store, put_retained, mget, mskip in E1. case_if_in E1; unfold mbind, M_bind in E1; by injection E1 as <-. }
  unfold mbind at 1, M_bind at 1 in E.
  destruct (publish_to_subscribers session p w1) as [[[] w2]| | |] eqn:E2; try done.
  apply steps_publish in E2 as [Hobj _ _ _].
  destruct (Hobj session s) as (n & Hn); [by rewrite Hm1|].
  change (2 =? AT_MOST_ONCE) with false in E. change (2 =? AT_LEAST_ONCE) with false in E. cbv iota in E.
  erewrite bind_ok in E; [|by apply modify_session_ok].
  destruct (ack_encodes (B:=B) PUBREC 0 (default 0 (pb_packet_id p)) PubrecReason.SUCCESS level) as (b' & Eb & _ & Hb);
    [unfold packet_flags; lia|].
  unfold mlift, encode_pubrec in E. rewrite Eb in E. injection E as <- <-.
  exists n. split; [done|]. split; [done|]. split; [|done].
  unfold holds_session, with_objects. simpl. by rewrite lookup_insert_eq.
Qed.

Lemma publish_flags_valid p : 0 <= pb_dup p <= 1 -> 0 <= pb_qos p <= 2 -> 0 <= pb_retain p <= 1 ->
  (pb_qos p = 0 -> pb_dup p = 0) -> is_valid_packet_flags PUBLISH (publish_flags p) = true.
Proof.
  intros Hd Hq Hr Hdup. unfold is_valid_packet_flags, is_valid_publish_flags.
  destruct (publish_flags_fields p) as (Hdf & -> & _); [lia|lia|lia|].
  destruct (pb_qos p =? 3) eqn:?; [lia|]. destruct (pb_qos p =? 0) eqn:?; [|done].
  destruct (flag_set (publish_flags p) MQTT_PUBLISH_FLAG_DUP); [lia|done].
Qed.

(** A plain publish in a packet: what the dispatcher decides. *)
Lemma dispatch_publish session s p rest w :
  let level := MqttSession.protocol_level_ s in
  let body := publish_body p level in
  holds_session w session s -> MqttSession.state_ s = connected -> plain_publish p level ->
  (pb_qos p = 0 -> pb_dup p = 0) ->
  dispatch (B:=B) config_ handler_ session (frame PUBLISH (publish_flags p) body ++ rest)
    (zlen (frame PUBLISH (publish_flags p) body)) w = publish_decision session s p w.
Proof.
  intros level body Hs Hc Hp Hdup. pose proof Hp as ((Hd & Hq & Hr & _) & _ & _ & Hm).
  rewrite (dispatch_frame session s); [by apply handle_publish_plain|done|done|done| | |].
  - by apply publish_flags_valid.
  - unfold packet_flags, publish_flags. lia.
  - unfold MESSAGE_MAX, MQTT_MAX_REMAINING_LENGTH in *. subst body. lia.
Qed.

(** A PUBREL in a packet. *)
Lemma dispatch_pubrel session s pid rest w :
  let level := MqttSession.protocol_level_ s in
  let body := ack_body pid PubrelReason.SUCCESS level no_props in
  holds_session w session s -> MqttSession.state_ s = connected -> 0 < pid < 65536 ->
  dispatch (B:=B) config_ handler_ session (frame PUBREL 2 body ++ rest) (zlen (frame PUBREL 2 body)) w
  = handle_pubrel session (body ++ rest) (zlen body) w.
Proof.
  intros level body Hs Hc Hp. by rewrite (dispatch_frame session s) by (done || apply ack_small).
Qed.

Lemma no_props_ok level : level_props_ok level no_props.
Proof. destruct level; [done|]. split; [constructor|]. vm_compute. congruence. Qed.

(** Retaining a message changes the retained store only. *)
Definition with_store (st : MqttRetainedStore.t) w : World :=
  mkWorld (session_mgr_ w) (topic_tree_ w) st (alive w) (now w) (trace w).

Lemma when_retained_ok c msg w : exists st, mwhen c (retained_store msg) w = Ok (tt, with_store st w).
Proof.
  destruct c; [by eexists|]. exists (retained_store_ w). by destruct w.
Qed.

(** Accepting a publish writes it to every selected subscriber that is connected. *)
Lemma accept_publish_writes session s0 p qos retain sub s conn w :
  broker_ok w -> holds_session w session s0 -> packet_ok p -> qos_ok qos ->
  sub ∈ apply_shared_subscription_policy (MqttTopicTree.match_topic (pb_topic p) (topic_tree_ w)) ->
  excluded session sub = false -> target w sub = Some (s, conn) ->
  exists id b w', accept_publish (B:=B) session p qos retain w = Ok (b, w') /\ id_for p sub id
    /\ EvWrite conn (delivery_bytes p sub s id) ∈ trace w'.
Proof.
  intros Hok Hs Hp Hq Hsub Hex Ht. unfold accept_publish. erewrite bind_ok; [|by apply get_session_ok]. cbv zeta.
  set (level := MqttSession.protocol_level_ s0).
  assert (Hmsg : retained_ok (retained_of p qos (is_v5 level))) by by apply kept_message_ok.
  destruct (when_retained_ok (negb (retain =? 0)) (retained_of p qos (is_v5 level)) w) as (st & Est).
  assert (Hok1 : broker_ok (with_store st w)).
  { assert (wp (mwhen (negb (retain =? 0)) (retained_store (retained_of p qos (is_v5 level)))) w (fun _ _ => True)) as Hw.
    { apply wp_when; [done| |done]. intros _. by apply wp_retained_store. }
    apply wp_inv in Hw as (u & w1 & E & ? & _). rewrite Est in E. by injection E as _ <-. }
  erewrite bind_ok; [|exact Est].
  destruct (publish_writes (B:=B) session p sub s0 s conn (with_store st w)) as (id & w2 & E2 & Hid & Hin); try done.
  erewrite bind_ok; [|exact E2].
  assert (holds_session w2 session s0 \/ exists n, holds_session w2 session (MqttSession.set_next_packet_id n s0)) as Hs2.
  { apply steps_publish in E2 as [Hobj _ _ _]. right. apply (Hobj session s0). done. }
  assert (exists s2, holds_session w2 session s2) as (s2 & Hs2') by (destruct Hs2 as [|[]]; eauto). clear Hs2.
  exists id. destruct (qos =? AT_MOST_ONCE); [by eexists; eexists|]. destruct (qos =? AT_LEAST_ONCE).
  - destruct (ack_encodes (B:=B) PUBACK 0 (default 0 (pb_packet_id p)) PubackReason.SUCCESS level) as (b & Eb & _);
      [unfold packet_flags; lia|]. exists b, w2. unfold mlift, encode_puback. by rewrite Eb.
  - destruct (ack_encodes (B:=B) PUBREC 0 (default 0 (pb_packet_id p)) PubrecReason.SUCCESS level) as (b & Eb & _);
      [unfold packet_flags; lia|]. erewrite bind_ok; [|by apply modify_session_ok].
    eexists b, _. unfold mlift, encode_pubrec. by rewrite Eb.
Qed.

(** A publish that is accepted is written to each selected subscriber. *)
Lemma dispatch_publish_writes session s p rest w f sub s1 conn :
  let level := MqttSession.protocol_level_ s in
  let packet := frame PUBLISH (publish_flags p) (publish_body p level) in
  broker_ok w -> holds_session w session s -> MqttSession.state_ s = connected -> plain_publish p level ->
  (pb_qos p = 0 -> pb_dup p = 0) ->
  (pb_qos p = 2 -> MqttSession.inflight_count s < MqttSession.receive_maximum_ s
     /\ MqttSession.has_inflight_packet_id (default 0 (pb_packet_id p)) s = false) ->
  refused handler_ (fun h => on_publish h s (pb_topic p) (pb_payload p) (pb_qos p) (pb_retain p =? 1)) = false ->
  sub ∈ MqttTopicTree.subs_at (topic_tree_ w) f -> sub_shared_group sub = [] ->
  MqttTopicTree.topic_matches f (split_on chr_slash (pb_topic p)) ->
  excluded session sub = false -> target w sub = Some (s1, conn) ->
  exists id b w', dispatch (B:=B) config_ handler_ session (packet ++ rest) (zlen packet) w = Ok (b, w')
    /\ id_for p sub id /\ EvWrite conn (delivery_bytes p sub s1 id) ∈ trace w'.
Proof.
  intros level packet Hok Hs Hc Hp Hdup H2 Hacc Hat Hsh Hm Hex Ht. unfold packet, level.
  rewrite (dispatch_publish session s p rest w Hs Hc Hp Hdup).
  pose proof Hp as ((_ & Hq & _ & _ & Hid & _) & Hv & _).
  assert (E : publish_decision session s p w = accept_publish session p (pb_qos p) (pb_retain p) w).
  { unfold publish_decision. rewrite Hacc. destruct (pb_qos p =? EXACTLY_ONCE) eqn:E2; [|done].
    unfold EXACTLY_ONCE in E2. assert (pb_qos p = 2) as Hq2 by lia. destruct (H2 Hq2) as [Hroom Hnew].
    rewrite Hq2 in Hid. destruct Hid as (pid & Epid & _). rewrite Epid in *.
    change (default 0 (Some pid)) with pid in Hnew. rewrite Hnew.
    by replace (MqttSession.receive_maximum_ s <=? MqttSession.inflight_count s) with false by lia. }
  rewrite E. apply (accept_publish_writes session s p (pb_qos p) (pb_retain p) sub s1 conn w); try done.
  - by eapply publish_ok_packet.
  - unfold qos_ok. lia.
  - assert (sub ∈ List.filter (group_of []) (apply_shared_subscription_policy
      (MqttTopicTree.match_topic (pb_topic p) (topic_tree_ w)))) as Hin.
    { rewrite policy_unshared. apply elem_of_filter. split; [by apply bool_decide_eq_true|].
      apply match_topic_filters; [by apply valid_topic_levels|]. exists f. by rewrite split_topic_levels. }
    by apply elem_of_filter in Hin as [_ ?].
Qed.

(** The same packet, marked as a retransmission. *)
Definition with_dup (p : MqttPublishPacket) : MqttPublishPacket :=
  mkPublish 1 (pb_qos p) (pb_retain p) (pb_topic p) (pb_packet_id p) (pb_payload p) (pb_properties p).

Lemma plain_with_dup p level : plain_publish p level -> plain_publish (with_dup p) level.
Proof.
  intros ((_ & Hok) & Hv & Ha & Hm). split; [split; [simpl; lia|exact Hok]|]. done.
Qed.
End Exchange.
