(* ===== verification/MqttSubscribeFacts.v ===== *)
(** SUBSCRIBE and UNSUBSCRIBE: their wire format, and what handling one does to the
    subscription tree, filter by filter. *)
From S2P Require Import Prelude Containers Strings ByteBuffer ByteBufferFacts MqttProtocol MqttProperties.
From S2P Require Import MqttPropertiesFacts MqttCodec MqttCodecFacts MqttDecodeSound MqttSession.
From S2P Require Import MqttTopicTree MqttTopicTreeFacts MqttRetainedStore MqttBroker.
From S2P Require Import MqttBrokerFacts MqttDispatcher MqttDispatcherFacts MqttDeliveryFacts.
Import MqttProperties MqttCodec MqttDispatcher.

(** * Wire format *)

(** The options byte of a topic filter. *)
Definition option_byte (o : MqttSubOption) : Z :=
  so_maximum_qos o + 4 * so_no_local o + 8 * so_retain_as_published o + 16 * so_retain_handling o.

Definition option_ok (level : ProtocolLevel) (o : MqttSubOption) : Prop :=
  str_ok (so_topic_filter o) /\ 0 <= so_maximum_qos o <= 3
  /\ if is_v5 level then 0 <= so_no_local o <= 1 /\ 0 <= so_retain_as_published o <= 1 /\ 0 <= so_retain_handling o <= 3
     else so_no_local o = 0 /\ so_retain_as_published o = 0 /\ so_retain_handling o = 0.

Definition option_bytes (o : MqttSubOption) : bytes := prefixed (so_topic_filter o) ++ [option_byte o].

Definition subscribe_body (p : MqttSubscribePacket) (level : ProtocolLevel) : bytes :=
  be16 (sb_packet_id p) ++ enc_level_props level (sb_properties p) ++ concat (map option_bytes (sb_subscriptions p)).

Definition unsubscribe_body (p : MqttUnsubscribePacket) (level : ProtocolLevel) : bytes :=
  be16 (us_packet_id p) ++ enc_level_props level (us_properties p) ++ concat (map prefixed (us_topic_filters p)).

Lemma option_fields o : 0 <= so_maximum_qos o <= 3 -> 0 <= so_no_local o <= 1 ->
  0 <= so_retain_as_published o <= 1 -> 0 <= so_retain_handling o <= 3 ->
  Z.land (option_byte o) 3 = so_maximum_qos o
  /\ Z.land (Z.shiftr (option_byte o) 2) 1 = so_no_local o
  /\ Z.land (Z.shiftr (option_byte o) 3) 1 = so_retain_as_published o
  /\ Z.land (Z.shiftr (option_byte o) 4) 3 = so_retain_handling o.
Proof.
  intros. assert (L3 : forall x, Z.land x 3 = x mod 4) by (intros; by rewrite (Z.land_ones _ 2) by lia).
  assert (L1 : forall x, Z.land x 1 = x mod 2) by (intros; by rewrite (Z.land_ones _ 1) by lia).
  unfold option_byte. rewrite !L3, !L1, !shiftr_div by lia. change (2 ^ 2) with 4. change (2 ^ 3) with 8.
  change (2 ^ 4) with 16. repeat split; Z.to_euclidean_division_equations; lia.
Qed.

Lemma decodes_subscription level o : option_ok level o ->
  decodes (read_subscription level) (option_bytes o) o.
Proof.
  intros (Hf & Hq & Hl) pre post hi Hhi. unfold option_bytes in *. rewrite zlen_app in *. change (zlen [_]) with 1 in *.
  unfold read_subscription. rewrite <- app_assoc.
  rewrite (decodes_codec_str _ Hf pre ([option_byte o] ++ post)) by lia. mstep.
  pose proof (decodes_byte (option_byte o) (pre ++ prefixed (so_topic_filter o)) post hi) as Hb.
  rewrite <- app_assoc, !zlen_app in Hb. change (zlen [_]) with 1 in Hb. rewrite Hb by lia. mstep.
  destruct (is_v5 level).
  - destruct (option_fields o) as (-> & -> & -> & ->); try lia. rewrite Z.add_assoc. by destruct o.
  - destruct Hl as (Hn & Hr & Hh). destruct (option_fields o) as (-> & _); try lia. rewrite Z.add_assoc.
    destruct o; simpl in *. by subst.
Qed.

Lemma decodes_all {A} (read : bytes -> Z -> Z -> outcome (A * Z)) (enc : A -> bytes) l : forall fuel pre post,
  Forall (fun a => decodes read (enc a) a /\ 0 < zlen (enc a)) l ->
  zlen (concat (map enc l)) <= Z.of_nat fuel ->
  let hi := zlen pre + zlen (concat (map enc l)) in
  read_all fuel (read (pre ++ concat (map enc l) ++ post) hi) hi (zlen pre) = Ok l.
Proof.
  induction l as [|a l IH]; intros fuel pre post Hl Hfuel; cbn [map concat] in *; cbv zeta.
  - change (zlen []) with 0. rewrite Z.add_0_r. destruct fuel; cbn [read_all]; by case_if; [lia|].
  - apply Forall_cons in Hl as [[Ha Hpos] Hl]. rewrite zlen_app in *. pose proof (zlen_nonneg (concat (map enc l))) as H0.
    destruct fuel as [|fuel]; [lia|]. cbn [read_all]. case_if; [|lia].
    rewrite <- app_assoc. rewrite Ha by lia. mstep.
    specialize (IH fuel (pre ++ enc a) post Hl ltac:(lia)). cbv zeta in IH.
    rewrite <- app_assoc, zlen_app in IH. rewrite Z.add_assoc. rewrite IH. done.
Qed.

Lemma zlen_option_bytes o : 0 < zlen (option_bytes o).
Proof. unfold option_bytes. rewrite zlen_app. change (zlen [_]) with 1. pose proof (zlen_nonneg (prefixed (so_topic_filter o))). lia. Qed.

(** The two decoders share their shape: identifier, properties, items. *)
Lemma decode_items {A} (read : bytes -> Z -> Z -> outcome (A * Z)) (enc : A -> bytes) pid level p l post :
  is_u16 pid -> level_props_ok level p -> Forall (fun a => decodes read (enc a) a /\ 0 < zlen (enc a)) l ->
  let body := be16 pid ++ enc_level_props level p ++ concat (map enc l) in
  exists o, read_u16 (body ++ post) (zlen body) 0 = Ok (pid, 2)
    /\ read_level_properties level (body ++ post) (zlen body) 2 = Ok (p, o)
    /\ read_all (Z.to_nat (zlen body - o)) (read (body ++ post) (zlen body)) (zlen body) o = Ok l.
Proof.
  intros Hpid Hp Hl body. set (c := concat (map enc l)) in *. set (e := enc_level_props level p) in *.
  assert (Hz : zlen body = 2 + zlen e + zlen c) by (unfold body; rewrite !zlen_app, zlen_be16; lia).
  pose proof (zlen_nonneg e). pose proof (zlen_nonneg c). exists (2 + zlen e). split; [|split].
  - pose proof (decodes_codec_u16 pid Hpid [] (e ++ c ++ post) (zlen body)) as Hd. rewrite zlen_be16 in Hd.
    change (zlen []) with 0 in Hd. unfold body. rewrite <- !app_assoc. apply Hd. lia.
  - pose proof (decodes_level_props level p Hp (be16 pid) (c ++ post) (zlen body)) as Hd. rewrite zlen_be16 in Hd.
    unfold body at 1. rewrite <- !app_assoc. apply Hd. fold e. lia.
  - pose proof (decodes_all read enc l (Z.to_nat (zlen body - (2 + zlen e))) (be16 pid ++ e) post Hl) as Hd.
    fold c in Hd. cbv zeta in Hd. rewrite zlen_app, zlen_be16 in Hd. rewrite <- app_assoc in Hd.
    unfold body at 2. rewrite <- !app_assoc. rewrite Hz in *. apply Hd. lia.
Qed.

Lemma decode_subscribe_body p level post : is_u16 (sb_packet_id p) -> level_props_ok level (sb_properties p) ->
  Forall (option_ok level) (sb_subscriptions p) ->
  decode_subscribe (subscribe_body p level ++ post) (zlen (subscribe_body p level)) level = Ok p.
Proof.
  intros Hpid Hp Hl.
  destruct (decode_items (read_subscription level) option_bytes (sb_packet_id p) level (sb_properties p)
    (sb_subscriptions p) post Hpid Hp) as (o & E1 & E2 & E3).
  { eapply Forall_impl; [exact Hl|]. intros x Hx. split; [by apply decodes_subscription|apply zlen_option_bytes]. }
  unfold decode_subscribe, subscribe_body. rewrite E1. mstep. rewrite E2. mstep. rewrite E3. by destruct p.
Qed.

Lemma decode_unsubscribe_body p level post : is_u16 (us_packet_id p) -> level_props_ok level (us_properties p) ->
  Forall str_ok (us_topic_filters p) ->
  decode_unsubscribe (unsubscribe_body p level ++ post) (zlen (unsubscribe_body p level)) level = Ok p.
Proof.
  intros Hpid Hp Hl.
  destruct (decode_items read_utf8_string prefixed (us_packet_id p) level (us_properties p)
    (us_topic_filters p) post Hpid Hp) as (o & E1 & E2 & E3).
  { eapply Forall_impl; [exact Hl|]. intros x Hx. split; [by apply decodes_codec_str|].
    rewrite zlen_prefixed. pose proof (zlen_nonneg x). lia. }
  unfold decode_unsubscribe, unsubscribe_body. rewrite E1. mstep. rewrite E2. mstep. rewrite E3. by destruct p.
Qed.

(** * Effects *)

(** What handling a SUBSCRIBE may do to a session object: move its packet counter and
    file subscriptions. *)
Definition same_session (s s' : MqttSession.t) : Prop :=
  exists n l, s' = MqttSession.set_subscriptions l (MqttSession.set_next_packet_id n s).

Lemma same_session_refl s : same_session s s.
Proof. exists (MqttSession.next_packet_id_ s), (MqttSession.subscriptions_ s). by destruct s. Qed.

Lemma same_session_trans s1 s2 s3 : same_session s1 s2 -> same_session s2 s3 -> same_session s1 s3.
Proof. intros (n1 & l1 & ->) (n2 & l2 & ->). exists n2, l2. by destruct s1. Qed.

Record sub_evolves (w w' : World) : Prop := {
  sv_objects loc s : holds_session w loc s -> exists s', holds_session w' loc s' /\ same_session s s';
  sv_sessions : MqttSessionManager.sessions_ (session_mgr_ w') = MqttSessionManager.sessions_ (session_mgr_ w);
  sv_rest : retained_store_ w' = retained_store_ w /\ alive w' = alive w /\ now w' = now w;
  sv_trace : exists evs, trace w' = trace w ++ evs
}.

#[export] Instance sub_evolves_preorder : PreOrder sub_evolves.
Proof.
  split.
  - intros w. constructor; try done; [|by exists []; rewrite app_nil_r]. eauto using same_session_refl.
  - intros w1 w2 w3 [O1 S1 [R1 [A1 N1]] [e1 T1]] [O2 S2 [R2 [A2 N2]] [e2 T2]]. constructor; try congruence.
    + intros loc s Hs. destruct (O1 loc s Hs) as (s' & Hs' & ?). destruct (O2 loc s' Hs') as (s2 & ? & ?).
      eauto using same_session_trans.
    + split_and!; congruence.
    + exists (e1 ++ e2). by rewrite T2, T1, app_assoc.
Qed.

Lemma delivers_sub_evolves w w' : delivers w w' -> sub_evolves w w'.
Proof.
  intros [O S (T & R & A & N) Tr]. constructor; try done. intros loc s Hs. destruct (O loc s Hs) as (n & Hn).
  exists (MqttSession.set_next_packet_id n s). split; [done|]. exists n, (MqttSession.subscriptions_ s). by destruct s.
Qed.

Section Effects.
Context {B : Type} `{ByteSink B}.
Variables (config_ : MqttServerConfig) (handler_ : option MqttHandler).
Implicit Types (w : World) (session : Z) (s : MqttSession.t).

Lemma steps_send_retained session sub granted rm : steps delivers (send_retained (B:=B) session sub granted rm).
Proof.
  unfold send_retained. destruct (so_retain_handling sub =? 2); [apply steps_skip; apply _|].
  apply steps_bind; [apply _|apply steps_optional_id|]. intros id.
  apply steps_bind; [apply _|apply steps_get_session; apply _|]. intros s.
  apply steps_bind; [apply _|apply steps_get; apply _|]. intros w.
  destruct (MqttSession.connection _ s); [apply steps_write|apply steps_skip; apply _].
Qed.

Definition with_tree (n : MqttTopicTree.Node) w : World :=
  mkWorld (session_mgr_ w) n (retained_store_ w) (alive w) (now w) (trace w).

Lemma tree_subscribe_ok filter sub w :
  tree_subscribe filter sub w = Ok (tt, with_tree (MqttTopicTree.subscribe filter sub (topic_tree_ w)).1 w).
Proof. done. Qed.

Lemma tree_unsubscribe_ok filter sid w :
  tree_unsubscribe filter sid w = Ok (tt, with_tree (MqttTopicTree.unsubscribe filter sid (topic_tree_ w)).1 w).
Proof. done. Qed.

(** A refusal is an error code; a grant is a QoS. *)
Lemma refusal_code v5 identifier s sub code :
  subscribe_refusal config_ handler_ v5 identifier s sub = Some code -> 128 <= code.
Proof. unfold subscribe_refusal. repeat case_if; try done; intros [= <-]; destruct v5; vm_compute; congruence. Qed.

Lemma granted_code sub : 0 <= so_maximum_qos sub <= 3 -> 0 <= cf_maximum_qos config_ ->
  granted_qos config_ sub = Z.min (so_maximum_qos sub) (cf_maximum_qos config_) /\ 0 <= granted_qos config_ sub < 128.
Proof. unfold granted_qos. intros. case_if; lia. Qed.

(** The reason code of a filter, for a session as it is when the filter is handled. *)
Definition code_of identifier s sub : Z :=
  default (granted_qos config_ sub)
    (subscribe_refusal config_ handler_ (is_v5 (MqttSession.protocol_level_ s)) identifier s sub).

(** The tree after a filter with its reason code. *)
Definition after_filter identifier s (tree : MqttTopicTree.Node) (oc : MqttSubOption * Z) : MqttTopicTree.Node :=
  if oc.2 <? 128 then
    (MqttTopicTree.subscribe (so_topic_filter oc.1)
       (tree_subscription config_ (MqttSession.session_id_ s) (is_v5 (MqttSession.protocol_level_ s)) identifier oc.1) tree).1
  else tree.

Hypothesis Hmaxqos : 0 <= cf_maximum_qos config_.

Lemma subscribe_one_effect session identifier sub s w : broker_ok w -> holds_session w session s ->
  0 <= so_maximum_qos sub <= 3 -> match identifier with Some i => is_u32 i | None => True end ->
  exists w', subscribe_one (B:=B) config_ handler_ session identifier sub w = Ok (code_of identifier s sub, w')
    /\ broker_ok w' /\ sub_evolves w w'
    /\ topic_tree_ w' = after_filter identifier s (topic_tree_ w) (sub, code_of identifier s sub).
Proof.
  intros Hok Hs Hq Hid.
  assert (live w session) as Hl by (unfold live; rewrite Hs; eauto).
  pose proof (wp_subscribe_one (B:=B) config_ handler_ Hmaxqos session identifier sub w Hok Hl Hq Hid) as Hw.
  apply wp_inv in Hw as (code & w' & E & Hok' & _). revert E. unfold subscribe_one, code_of, after_filter.
  erewrite bind_ok; [|by apply get_session_ok]. cbv zeta. cbn [fst snd].
  destruct (subscribe_refusal _ _ _ _ s sub) as [c|] eqn:Er.
  { intros [= <- <-]. exists w. apply refusal_code in Er. change (default ?x (Some c)) with c.
    split; [done|]. split; [done|]. split; [done|]. by case_if; [lia|]. }
  change (default ?x None) with x. destruct (granted_code sub Hq Hmaxqos) as [_ Hg].
  erewrite bind_ok; [|apply tree_subscribe_ok]. set (w1 := with_tree _ w).
  erewrite bind_ok; [|by apply modify_session_ok]. set (w2 := with_objects _ w1).
  erewrite bind_ok; [|reflexivity]. unfold mbind at 1, M_bind at 1.
  destruct (mfor _ _ w2) as [[[] w3]| | |] eqn:E3; try done. intros [= <- <-].
  assert (delivers w2 w3) as Hd.
  { revert E3. apply steps_for; [apply _|]. intros rm _. apply steps_send_retained. }
  exists w3. split; [by erewrite bind_ok|]. split; [done|]. split.
  - etrans; [|by apply delivers_sub_evolves]. constructor; try done; [|by exists []; rewrite app_nil_r].
    intros loc s0 Hs0. unfold holds_session, w2, with_objects. simpl. destruct (decide (loc = session)) as [->|Hne].
    + rewrite lookup_insert_eq. eexists. split; [done|]. unfold holds_session in *. rewrite Hs in Hs0. injection Hs0 as <-.
      exists (MqttSession.next_packet_id_ s). eexists. by destruct s.
    + rewrite lookup_insert_ne by done. eauto using same_session_refl.
  - destruct Hd as [_ _ (-> & _) _]. by case_if; [|lia].
Qed.

Lemma same_session_level s s' : same_session s s' ->
  MqttSession.protocol_level_ s' = MqttSession.protocol_level_ s
  /\ MqttSession.session_id_ s' = MqttSession.session_id_ s /\ MqttSession.state_ s' = MqttSession.state_ s.
Proof. by intros (n & l & ->). Qed.

(** All filters, in order: the codes, and the tree they lead to. *)
Lemma subscribe_all_effect session identifier subs : forall s w, broker_ok w -> holds_session w session s ->
  Forall (fun sub => 0 <= so_maximum_qos sub <= 3) subs ->
  match identifier with Some i => is_u32 i | None => True end ->
  exists codes w' s', mmap subs (subscribe_one (B:=B) config_ handler_ session identifier) w = Ok (codes, w')
    /\ broker_ok w' /\ sub_evolves w w' /\ holds_session w' session s' /\ same_session s s'
    /\ Forall2 (fun sub code => exists s1, same_session s s1 /\ code = code_of identifier s1 sub) subs codes
    /\ topic_tree_ w' = foldl (after_filter identifier s) (topic_tree_ w) (zip subs codes).
Proof.
  induction subs as [|sub subs IH]; intros s w Hok Hs Hq Hid.
  { exists [], w, s. split_and!; try done. apply same_session_refl. }
  apply Forall_cons in Hq as [Hq Hqs].
  destruct (subscribe_one_effect session identifier sub s w Hok Hs Hq Hid) as (w1 & E1 & Hok1 & Hev1 & Ht1).
  destruct (sv_objects w w1 Hev1 session s Hs) as (s1 & Hs1 & Hss1).
  destruct (IH s1 w1 Hok1 Hs1 Hqs Hid) as (codes & w2 & s2 & E2 & Hok2 & Hev2 & Hs2 & Hss2 & Hcodes & Ht2).
  exists (code_of identifier s sub :: codes), w2, s2. cbn [mmap].
  split; [erewrite bind_ok by exact E1; by erewrite bind_ok by exact E2|].
  split; [done|]. split; [by etrans|]. split; [done|]. split; [by eapply same_session_trans|]. split.
  - constructor; [by exists s; split; [apply same_session_refl|]|].
    eapply Forall2_impl; [exact Hcodes|]. intros x c (s3 & ? & ->). exists s3. split; [by eapply same_session_trans|done].
  - rewrite Ht2, Ht1. cbn [zip_with foldl]. apply same_session_level in Hss1 as (Hlev & Hsid & _).
    unfold after_filter. by rewrite Hlev, Hsid.
Qed.

Definition subscribe_packet_ok (p : MqttSubscribePacket) (level : ProtocolLevel) : Prop :=
  0 < sb_packet_id p < 65536 /\ level_props_ok level (sb_properties p) /\ sb_subscriptions p <> []
  /\ Forall (option_ok level) (sb_subscriptions p) /\ zlen (subscribe_body p level) <= MESSAGE_MAX.

Lemma subscribe_items_small p level : zlen (sb_subscriptions p) <= zlen (subscribe_body p level).
Proof.
  unfold subscribe_body. rewrite !zlen_app.
  assert (zlen (sb_subscriptions p) <= zlen (concat (map option_bytes (sb_subscriptions p)))); [|zlen_pos; lia].
  induction (sb_subscriptions p) as [|o l IH]; [done|]. cbn [map concat]. rewrite zlen_app, zlen_cons.
  pose proof (zlen_option_bytes o). lia.
Qed.

Lemma props_identifier level p : level_props_ok level p ->
  match subscription_identifier p with Some i => is_u32 i | None => True end.
Proof. apply level_props_ids. Qed.

Lemma dispatch_subscribe session s p rest w :
  let level := MqttSession.protocol_level_ s in
  let body := subscribe_body p level in
  let identifier := subscription_identifier (sb_properties p) in
  broker_ok w -> holds_session w session s -> MqttSession.state_ s = connected -> subscribe_packet_ok p level ->
  exists b w' codes,
    dispatch (B:=B) config_ handler_ session (frame SUBSCRIBE 2 body ++ rest) (zlen (frame SUBSCRIBE 2 body)) w = Ok (b, w')
    /\ sink_contents b = frame SUBACK 0 (suback_body (sb_packet_id p) codes level no_props)
    /\ broker_ok w' /\ sub_evolves w w'
    /\ Forall2 (fun sub code => exists s1, same_session s s1 /\ code = code_of identifier s1 sub) (sb_subscriptions p) codes
    /\ topic_tree_ w' = foldl (after_filter identifier s) (topic_tree_ w) (zip (sb_subscriptions p) codes).
Proof.
  intros level body identifier Hok Hs Hc (Hpid & Hp & Hne & Hl & Hm).
  pose proof (subscribe_items_small p level) as Hn. fold body in Hm, Hn. unfold MESSAGE_MAX in Hm.
  rewrite (dispatch_frame config_ handler_ session s) by
    (done || (unfold packet_flags; lia) || (unfold MQTT_MAX_REMAINING_LENGTH; lia)).
  cbn [handle_packet]. unfold handle_subscribe. erewrite bind_ok; [|by apply get_session_ok].
  erewrite bind_ok; [|apply mtry_ok; apply decode_subscribe_body; [unfold is_u16; lia|done|done]]. cbv beta iota.
  replace ((sb_packet_id p =? 0) || bool_decide (sb_subscriptions p = [])) with false
    by (rewrite bool_decide_eq_false_2 by done; lia).
  destruct (subscribe_all_effect session identifier (sb_subscriptions p) s w Hok Hs)
    as (codes & w' & s' & E & Hok' & Hev & Hs' & Hss & Hcodes & Ht).
  { eapply Forall_impl; [exact Hl|]. by intros o (_ & ? & _). }
  { by eapply props_identifier. }
  erewrite bind_ok by exact E. erewrite bind_ok; [|by apply get_session_ok].
  apply same_session_level in Hss as (Hlev & _). rewrite Hlev. fold level.
  apply Forall2_length in Hcodes as Hlen.
  destruct (encode_suback_frame (B:=B) (sb_packet_id p) codes level no_props) as (b & Eb & _ & Hb); [done| |].
  { unfold suback_body. rewrite !zlen_app, zlen_be16, zlen_map_u8. pose proof (zlen_level_no_props level).
    unfold zlen in *. unfold MQTT_MAX_REMAINING_LENGTH. lia. }
  exists b, w', codes. split; [by apply mlift_ok|]. done.
Qed.

(** ** UNSUBSCRIBE *)
Lemma notify_ok e w : exists evs, notify handler_ e w = Ok (tt, with_trace evs w).
Proof. unfold notify. destruct handler_; [by exists [e]|]. exists []. by rewrite with_trace_nil. Qed.

Lemma unsubscribe_one_effect session filter s w : broker_ok w -> holds_session w session s ->
  exists w' s', unsubscribe_one handler_ session filter w = Ok (UnsubackReason.SUCCESS, w')
    /\ broker_ok w' /\ sub_evolves w w' /\ holds_session w' session s' /\ same_session s s'
    /\ topic_tree_ w' = (MqttTopicTree.unsubscribe filter session (topic_tree_ w)).1.
Proof.
  intros Hok Hs. assert (live w session) as Hl by (unfold live; rewrite Hs; eauto).
  assert (MqttSession.session_id_ s = session) as Hid by (by apply (MqttSessionManager.so_ids _ (bo_sessions w Hok)) in Hs as [? _]).
  pose proof (wp_unsubscribe_one handler_ session filter w Hok Hl) as Hw.
  apply wp_inv in Hw as (code & w' & E & Hok' & _). revert E. unfold unsubscribe_one.
  erewrite bind_ok; [|by apply get_session_ok]. erewrite bind_ok; [|apply tree_unsubscribe_ok]. set (w1 := with_tree _ w).
  erewrite bind_ok; [|by apply modify_session_ok]. set (w2 := with_objects _ w1).
  destruct (notify_ok (EvUnsubscribe (MqttSession.session_id_ s) filter) w2) as (evs & En).
  erewrite bind_ok by exact En. intros [= <- <-].
  exists (with_trace evs w2), (MqttSession.remove_subscription filter s). split; [done|]. split; [done|].
  assert (Hs2 : holds_session w2 session (MqttSession.remove_subscription filter s)) by apply lookup_insert_eq.
  assert (Hss : same_session s (MqttSession.remove_subscription filter s)).
  { exists (MqttSession.next_packet_id_ s). eexists. by destruct s. }
  split; [|split; [exact Hs2|split; [done|by rewrite <- Hid]]]. constructor; try done; [|by eexists].
  intros loc s0 Hs0. destruct (decide (loc = session)) as [->|Hne].
  - unfold holds_session in *. rewrite Hs in Hs0. injection Hs0 as <-. eauto.
  - exists s0. split; [|apply same_session_refl]. unfold holds_session, w2, with_objects. simpl. by rewrite lookup_insert_ne.
Qed.

Lemma unsubscribe_all_effect session filters : forall s w, broker_ok w -> holds_session w session s ->
  exists codes w' s', mmap filters (unsubscribe_one handler_ session) w = Ok (codes, w')
    /\ broker_ok w' /\ sub_evolves w w' /\ holds_session w' session s' /\ same_session s s'
    /\ codes = map (fun _ => UnsubackReason.SUCCESS) filters
    /\ topic_tree_ w' = foldl (fun tree f => (MqttTopicTree.unsubscribe f session tree).1) (topic_tree_ w) filters.
Proof.
  induction filters as [|f filters IH]; intros s w Hok Hs.
  { exists [], w, s. split_and!; try done. apply same_session_refl. }
  destruct (unsubscribe_one_effect session f s w Hok Hs) as (w1 & s1 & E1 & Hok1 & Hev1 & Hs1 & Hss1 & Ht1).
  destruct (IH s1 w1 Hok1 Hs1) as (codes & w2 & s2 & E2 & Hok2 & Hev2 & Hs2 & Hss2 & -> & Ht2).
  eexists _, w2, s2. cbn [mmap].
  split; [erewrite bind_ok by exact E1; by erewrite bind_ok by exact E2|].
  split; [done|]. split; [by etrans|]. split; [done|]. split; [by eapply same_session_trans|]. split; [done|].
  by rewrite Ht2, Ht1.
Qed.

(** Unsubscribing from several filters. *)
Lemma unsubscribe_all_at session filters : forall tree f sub, one_per_session tree ->
  sub ∈ MqttTopicTree.subs_at (foldl (fun tree f => (MqttTopicTree.unsubscribe f session tree).1) tree filters) f
  <-> sub ∈ MqttTopicTree.subs_at tree f /\ ~ (sub_session_id sub = session /\ f ∈ map filed_at filters).
Proof.
  induction filters as [|g filters IH]; intros tree f sub Ho; cbn [foldl map].
  { split; [|tauto]. intros ?. split; [done|]. by intros [_ []%not_elem_of_nil]. }
  rewrite IH by (by apply one_per_session_unsubscribe). rewrite unsubscribe_at, elem_of_cons. case_decide as Hf.
  - rewrite erase_first_spec by apply Ho. cbn [fst]. rewrite elem_of_filter. unfold not_of.
    rewrite negb_true_iff, Z.eqb_neq. tauto.
  - tauto.
Qed.

Definition unsubscribe_packet_ok (p : MqttUnsubscribePacket) (level : ProtocolLevel) : Prop :=
  0 < us_packet_id p < 65536 /\ level_props_ok level (us_properties p) /\ us_topic_filters p <> []
  /\ Forall str_ok (us_topic_filters p) /\ zlen (unsubscribe_body p level) <= MESSAGE_MAX.

Lemma unsubscribe_items_small p level : zlen (us_topic_filters p) <= zlen (unsubscribe_body p level).
Proof.
  unfold unsubscribe_body. rewrite !zlen_app.
  assert (zlen (us_topic_filters p) <= zlen (concat (map prefixed (us_topic_filters p)))); [|zlen_pos; lia].
  induction (us_topic_filters p) as [|o l IH]; [done|]. cbn [map concat]. rewrite zlen_app, zlen_cons, zlen_prefixed.
  pose proof (zlen_nonneg o). lia.
Qed.

Lemma dispatch_unsubscribe session s p rest w :
  let level := MqttSession.protocol_level_ s in
  let body := unsubscribe_body p level in
  broker_ok w -> holds_session w session s -> MqttSession.state_ s = connected -> unsubscribe_packet_ok p level ->
  exists b w',
    dispatch (B:=B) config_ handler_ session (frame UNSUBSCRIBE 2 body ++ rest) (zlen (frame UNSUBSCRIBE 2 body)) w = Ok (b, w')
    /\ sink_contents b = frame UNSUBACK 0 (unsuback_body (us_packet_id p) (map (fun _ => UnsubackReason.SUCCESS) (us_topic_filters p)) level no_props)
    /\ broker_ok w' /\ sub_evolves w w'
    /\ topic_tree_ w' = foldl (fun tree f => (MqttTopicTree.unsubscribe f session tree).1) (topic_tree_ w) (us_topic_filters p).
Proof.
  intros level body Hok Hs Hc (Hpid & Hp & Hne & Hl & Hm).
  pose proof (unsubscribe_items_small p level) as Hn. fold body in Hm, Hn. unfold MESSAGE_MAX in Hm.
  rewrite (dispatch_frame config_ handler_ session s) by
    (done || (unfold packet_flags; lia) || (unfold MQTT_MAX_REMAINING_LENGTH; lia)).
  cbn [handle_packet]. unfold handle_unsubscribe. erewrite bind_ok; [|by apply get_session_ok].
  erewrite bind_ok; [|apply mtry_ok; apply decode_unsubscribe_body; [unfold is_u16; lia|done|done]]. cbv beta iota.
  replace ((us_packet_id p =? 0) || bool_decide (us_topic_filters p = [])) with false
    by (rewrite bool_decide_eq_false_2 by done; lia).
  destruct (unsubscribe_all_effect session (us_topic_filters p) s w Hok Hs)
    as (codes & w' & s' & E & Hok' & Hev & Hs' & Hss & -> & Ht).
  erewrite bind_ok by exact E. erewrite bind_ok; [|by apply get_session_ok].
  apply same_session_level in Hss as (Hlev & _). rewrite Hlev. fold level.
  set (codes := map _ _) in *. assert (length codes = length (us_topic_filters p)) as Hlen by apply length_map.
  destruct (encode_unsuback_frame (B:=B) (us_packet_id p) codes level no_props) as (b & Eb & _ & Hb); [done| |].
  { unfold unsuback_body. rewrite zlen_app, zlen_be16. unfold MQTT_MAX_REMAINING_LENGTH.
    destruct (is_v5 level); [|change (zlen []) with 0; lia]. rewrite zlen_app, zlen_map_u8.
    change (zlen (enc_props no_props)) with 1. unfold zlen in *. lia. }
  exists b, w'. split; [by apply mlift_ok|]. done.
Qed.
End Effects.
