(* ===== verification/MqttConnectFacts.v ===== *)
(** CONNECT: what accepting a client does to its session, to the registry and to the
    session that held its client id. *)
From S2P Require Import Prelude Containers ByteBuffer ByteBufferFacts Strings MqttProtocol MqttProperties MqttPropertiesFacts MqttCodec.
From S2P Require Import MqttCodecFacts MqttDecodeSound MqttTopicTree MqttTopicTreeFacts MqttRetainedStore MqttSession MqttBroker MqttBrokerFacts.
From S2P Require Import MqttDispatcher MqttDispatcherFacts MqttDeliveryFacts MqttSubscribeFacts.

(** * A session that leaves: its will, its subscriptions, its state. *)
Import MqttProperties MqttCodec MqttDispatcher.

Section Departure.
Context {B : Type} `{ByteSink B}.
Variables (config_ : MqttServerConfig) (handler_ : option MqttHandler).
Implicit Types (w : World) (session : Z) (s : MqttSession.t).

(** The session object after its will has been dealt with. *)
Definition will_sent s s' : Prop := exists n, s' = MqttSession.clear_will_message (MqttSession.set_next_packet_id n s).

(** The retained store after the will has been dealt with. *)
Definition store_after_will w s : MqttRetainedStore.t :=
  match MqttSession.will_message_ s with
  | Some will =>
      if will_retain will
      then MqttRetainedStore.store (now w) (will_retained will (is_v5 (MqttSession.protocol_level_ s))) (retained_store_ w)
      else retained_store_ w
  | None => retained_store_ w
  end.

(** What sending the will leaves behind. *)
Record will_effect session s w w' : Prop := {
  we_ok : broker_ok w';
  we_session : exists s', holds_session w' session s' /\ will_sent s s';
  we_tree : topic_tree_ w' = topic_tree_ w;
  we_store : retained_store_ w' = store_after_will w s;
  we_env : alive w' = alive w /\ now w' = now w;
  we_trace : exists evs, trace w' = trace w ++ evs;
  we_delivered will sub s1 conn : MqttSession.will_message_ s = Some will ->
    let pkt := will_packet will (is_v5 (MqttSession.protocol_level_ s)) in
    sub ∈ apply_shared_subscription_policy (MqttTopicTree.match_topic (will_topic will) (topic_tree_ w)) ->
    excluded session sub = false -> target w sub = Some (s1, conn) ->
    exists id, id_for pkt sub id /\ EvWrite conn (delivery_bytes pkt sub s1 id) ∈ trace w'
}.

Lemma when_retained_exact (c : bool) msg w :
  mwhen c (retained_store msg) w
  = Ok (tt, with_store (if c then MqttRetainedStore.store (now w) msg (retained_store_ w) else retained_store_ w) w).
Proof. destruct c; [done|]. by destruct w. Qed.

Lemma send_will_effect session s w : broker_ok w -> holds_session w session s ->
  exists w', send_will_message (B:=B) session w = Ok (tt, w') /\ will_effect session s w w'.
Proof.
  intros Hok Hs. assert (live w session) as Hl by (unfold live; rewrite Hs; eauto).
  pose proof (wp_send_will (B:=B) session w Hok Hl) as Hw. apply wp_inv in Hw as ([] & w' & E & Hok' & _).
  exists w'. split; [done|]. revert E. unfold send_will_message.
  erewrite bind_ok; [|by apply get_session_ok]. unfold MqttSession.will_message.
  destruct (MqttSession.will_message_ s) as [will|] eqn:Ew; cbv zeta.
  2: { intros [= <-]. constructor; try done; [|by unfold store_after_will; rewrite Ew|by exists []; rewrite app_nil_r|intros; congruence].
       exists s. split; [done|]. exists (MqttSession.next_packet_id_ s). destruct s; simpl in *. by subst. }
  set (pkt := will_packet will (is_v5 (MqttSession.protocol_level_ s))).
  assert (packet_ok pkt) as Hp by (apply will_packet_ok; apply (bo_session w Hok session s Hs); done).
  unfold mbind at 1, M_bind at 1.
  destruct (publish_to_subscribers session pkt w) as [[[] w1]| | |] eqn:E1; try done.
  erewrite bind_ok; [|apply when_retained_exact].
  apply steps_publish in E1 as Hd. destruct Hd as [Hobj _ (Ht & Hr & Ha & Hn) [evs Htr]].
  destruct (Hobj session s Hs) as (n & Hn1).
  rewrite (modify_session_ok session _ (MqttSession.set_next_packet_id n s)) by exact Hn1.
  intros [= <-]. constructor; try done; simpl.
  - eexists. split; [apply lookup_insert_eq|]. by exists n.
  - unfold store_after_will. rewrite Ew, Hr, Hn. done.
  - by exists evs.
  - intros will' sub s1 conn Ew' Hin Hx Htar. rewrite Ew in Ew'. injection Ew' as <-.
    destruct (publish_writes (B:=B) session pkt sub s s1 conn w Hok Hp Hs Hin Hx Htar) as (id & w2 & E2 & Hid & Hev).
    rewrite E1 in E2. injection E2 as <-. by exists id.
Qed.

(** The tree after a session with this expiry interval has left. *)
Definition tree_after_departure s session (tree : MqttTopicTree.Node) : MqttTopicTree.Node :=
  if MqttSession.session_expiry_interval_ s =? 0 then MqttTopicTree.remove_all session tree else tree.

Lemma when_remove_all (c : bool) sid w :
  mwhen c (tree_remove_all sid) w
  = Ok (tt, with_tree (if c then MqttTopicTree.remove_all sid (topic_tree_ w) else topic_tree_ w) w).
Proof. destruct c; [done|]. by destruct w. Qed.

Lemma set_will_same s : MqttSession.set_will (MqttSession.will_message_ s) s = s.
Proof. by destruct s. Qed.

(** [on_session_closed]: the will goes out unless it is delayed, a session that does not
    outlive its connection loses its subscriptions, and the session is disconnected. *)
Lemma on_session_closed_effect session s w : broker_ok w -> holds_session w session s ->
  let delayed := will_delayed (now w) s in
  exists w' n, on_session_closed (B:=B) handler_ session w = Ok (tt, w') /\ broker_ok w'
    /\ holds_session w' session (MqttSession.set_state disconnected
         (MqttSession.set_will (if delayed then MqttSession.will_message_ s else None)
           (MqttSession.set_next_packet_id n s)))
    /\ topic_tree_ w' = tree_after_departure s session (topic_tree_ w)
    /\ retained_store_ w' = (if delayed then retained_store_ w else store_after_will w s)
    /\ (exists evs, trace w' = trace w ++ evs)
    /\ forall will sub s1 conn, delayed = false -> MqttSession.will_message_ s = Some will ->
         let pkt := will_packet will (is_v5 (MqttSession.protocol_level_ s)) in
         sub ∈ apply_shared_subscription_policy (MqttTopicTree.match_topic (will_topic will) (topic_tree_ w)) ->
         excluded session sub = false -> target w sub = Some (s1, conn) ->
         exists id, id_for pkt sub id /\ EvWrite conn (delivery_bytes pkt sub s1 id) ∈ trace w'.
Proof.
  intros Hok Hs delayed. assert (live w session) as Hl by (unfold live; rewrite Hs; eauto).
  assert (Hid : MqttSession.session_id_ s = session)
    by (by apply (MqttSessionManager.so_ids _ (bo_sessions w Hok)) in Hs as [? _]).
  pose proof (wp_on_session_closed (B:=B) handler_ session w Hok Hl) as Hw.
  apply wp_inv in Hw as ([] & w' & E & Hok' & _). revert E. unfold on_session_closed.
  erewrite bind_ok; [|by apply get_session_ok]. erewrite bind_ok; [|reflexivity]. fold delayed.
  assert (exists w1 n, mwhen (negb delayed) (send_will_message (B:=B) session) w = Ok (tt, w1)
    /\ holds_session w1 session (MqttSession.set_will (if delayed then MqttSession.will_message_ s else None) (MqttSession.set_next_packet_id n s))
    /\ topic_tree_ w1 = topic_tree_ w /\ retained_store_ w1 = (if delayed then retained_store_ w else store_after_will w s)
    /\ (exists evs, trace w1 = trace w ++ evs)
    /\ (delayed = false -> will_effect session s w w1)) as (w1 & n & E1 & Hs1 & Ht1 & Hr1 & (evs1 & He1) & Hwill).
  { destruct delayed; cbn [negb mwhen].
    - exists w, (MqttSession.next_packet_id_ s). rewrite set_next_packet_id_same, set_will_same.
      split_and!; try done. exists []. by rewrite app_nil_r.
    - destruct (send_will_effect session s w Hok Hs) as (w1 & E1 & He). exists w1.
      destruct (we_session _ _ _ _ He) as (s' & Hs' & (n & ->)). exists n. split_and!; try done; by apply He. }
  erewrite bind_ok by exact E1. set (s1 := MqttSession.set_will _ _) in *.
  erewrite bind_ok; [|by apply get_session_ok]. erewrite bind_ok; [|apply when_remove_all].
  change (MqttSession.session_id_ s1) with (MqttSession.session_id_ s).
  change (MqttSession.session_expiry_interval_ s1) with (MqttSession.session_expiry_interval_ s). rewrite Hid.
  set (w2 := with_tree _ w1).
  destruct (notify_ok handler_ (EvDisconnected session 0) w2) as (evs & En). erewrite bind_ok by exact En.
  unfold set_state. erewrite modify_session_ok; [|exact Hs1]. intros [= <-].
  eexists _, n. split; [done|]. split; [done|]. split; [apply lookup_insert_eq|]. simpl. rewrite Ht1, Hr1, He1.
  split; [done|]. split; [done|]. split; [exists (evs1 ++ evs); by rewrite app_assoc|].
  intros will sub s2 conn Hd Ew Hin Hx Htar.
  destruct (we_delivered _ _ _ _ (Hwill Hd) will sub s2 conn Ew Hin Hx Htar) as (id & Hid' & Hev).
  exists id. split; [done|]. rewrite <- He1. apply elem_of_app. by left.
Qed.
End Departure.
Import MqttProperties MqttCodec MqttDispatcher.

(** Steps that leave every object and the registry alone; the client-id index, the tree
    and the trace may change. *)
Record keeps_sessions (w w' : World) : Prop := {
  ks_objects : MqttSessionManager.objects (session_mgr_ w') = MqttSessionManager.objects (session_mgr_ w);
  ks_sessions : MqttSessionManager.sessions_ (session_mgr_ w') = MqttSessionManager.sessions_ (session_mgr_ w);
  ks_alive : alive w' = alive w;
  ks_trace : exists evs, trace w' = trace w ++ evs
}.

#[export] Instance keeps_sessions_preorder : PreOrder keeps_sessions.
Proof.
  split.
  - intros w. constructor; try done. exists []. by rewrite app_nil_r.
  - intros w1 w2 w3 [O1 S1 A1 [e1 T1]] [O2 S2 A2 [e2 T2]]. constructor; try congruence.
    exists (e1 ++ e2). by rewrite T2, T1, app_assoc.
Qed.

Section Connect.
Context {B : Type} `{ByteSink B}.
Variables (config_ : MqttServerConfig) (handler_ : option MqttHandler).
Implicit Types (w : World) (session : Z) (s : MqttSession.t).

Definition with_mgr (m : MqttSessionManager.t) w : World :=
  mkWorld m (topic_tree_ w) (retained_store_ w) (alive w) (now w) (trace w).

Lemma find_by_client_id_ok cid r m w :
  MqttSessionManager.find_by_client_id cid (session_mgr_ w) = Ok (r, m) ->
  find_by_client_id cid w = Ok (r, with_mgr m w).
Proof.
  intros E. unfold find_by_client_id. erewrite bind_ok; [|reflexivity].
  erewrite bind_ok; [|apply mlift_ok; exact E]. cbv beta iota. by erewrite bind_ok; [|reflexivity].
Qed.

Lemma keeps_index i w : keeps_sessions w (with_mgr (MqttSessionManager.set_index i (session_mgr_ w)) w).
Proof. constructor; try done. exists []. by rewrite app_nil_r. Qed.

(** What a lookup does, and what it finds. *)
Lemma find_client cid w : broker_ok w -> exists r w',
  find_by_client_id cid w = Ok (r, w') /\ broker_ok w' /\ keeps_sessions w w' /\ topic_tree_ w' = topic_tree_ w
  /\ (forall loc, r = Some loc -> live w' loc)
  /\ exists m, MqttSessionManager.find_by_client_id cid (session_mgr_ w) = Ok (r, m).
Proof.
  intros Hok. pose proof (wp_find_by_client_id cid w (fun r w' => forall loc, r = Some loc -> live w' loc) Hok ltac:(auto)) as Hw.
  apply wp_inv in Hw as (r & w' & E & Hok' & _ & Hl).
  destruct (MqttSessionManager.find_by_client_id_total cid (session_mgr_ w) (bo_sessions w Hok)) as (r' & i & Ef & _).
  rewrite (find_by_client_id_ok cid r' _ w Ef) in E. injection E as -> <-.
  exists r, (with_mgr (MqttSessionManager.set_index i (session_mgr_ w)) w).
  split; [by apply find_by_client_id_ok|]. split; [done|]. split; [apply keeps_index|]. eauto.
Qed.

(** [take_over]: the holder of the client id, if it is another session and is online or
    the client starts clean, is made to disconnect and its connection is closed. *)
Definition displaced session (old : option Z) (clean_start : bool) w : option (Z * MqttSession.t) :=
  loc ← old;
  if loc =? session then None
  else
    s ← MqttSessionManager.objects (session_mgr_ w) !! loc;
    if state_eqb (MqttSession.state_ s) connected || state_eqb (MqttSession.state_ s) connecting || clean_start
    then Some (loc, s) else None.

Lemma close_ok session s w : holds_session w session s ->
  close_session_connection session w
  = Ok (tt, with_trace (match MqttSession.connection (alive w) s with Some conn => [EvClose conn] | None => [] end) w).
Proof.
  intros Hs. unfold close_session_connection. erewrite bind_ok; [|by apply get_session_ok].
  erewrite bind_ok; [|reflexivity]. destruct (MqttSession.connection (alive w) s); [done|]. by rewrite with_trace_nil.
Qed.

Lemma take_over_effect session old clean_start w : broker_ok w -> (forall loc, old = Some loc -> live w loc) ->
  exists w', take_over handler_ session old clean_start w = Ok (tt, w') /\ broker_ok w'
    /\ match displaced session old clean_start w with
       | None => w' = w
       | Some (loc, s) =>
           loc <> session /\ holds_session w loc s
           /\ MqttSessionManager.objects (session_mgr_ w')
              = <[loc := MqttSession.set_state disconnecting s]> (MqttSessionManager.objects (session_mgr_ w))
           /\ MqttSessionManager.sessions_ (session_mgr_ w') = MqttSessionManager.sessions_ (session_mgr_ w)
           /\ alive w' = alive w
           /\ exists evs, trace w' = trace w ++ evs
                ++ match MqttSession.connection (alive w) s with Some conn => [EvClose conn] | None => [] end
       end.
Proof.
  intros Hok Hl. pose proof (wp_take_over handler_ session old clean_start w Hok Hl) as Hw.
  apply wp_inv in Hw as ([] & w' & E & Hok' & _). exists w'. split; [done|]. split; [done|].
  revert E. unfold take_over, displaced. destruct old as [loc|]; [|by intros [= <-]]. cbn.
  destruct (loc =? session) eqn:El; [by intros [= <-]|]. destruct (Hl loc eq_refl) as [s Hs].
  erewrite bind_ok; [|by apply get_session_ok]. rewrite Hs. cbn.
  destruct (_ || clean_start); [|by intros [= <-]].
  destruct (notify_ok handler_ (EvDisconnected (MqttSession.session_id_ s) 0) w) as (evs & En).
  erewrite bind_ok by exact En. erewrite bind_ok; [|by apply (modify_session_ok loc _ s)].
  erewrite close_ok; [|apply lookup_insert_eq]. intros [= <-].
  split; [lia|]. split; [done|]. split; [done|]. split; [done|]. split; [done|].
  exists evs. simpl. by rewrite app_assoc.
Qed.

Lemma find_session_present_effect session cid clean_start w : broker_ok w ->
  exists present w', find_session_present session cid clean_start w = Ok (present, w') /\ broker_ok w'
    /\ keeps_sessions w w' /\ 0 <= present <= 1 /\ (clean_start = true -> present = 0).
Proof.
  intros Hok. unfold find_session_present. case_if; [|by exists 0, w].
  destruct (find_client cid w Hok) as (r & w' & E & Hok' & Hk & _ & Hl & _). erewrite bind_ok by exact E.
  assert (clean_start = false) as -> by (by destruct clean_start, (bool_decide (cid = []))).
  destruct r as [loc|]; [|by exists 0, w']. destruct (Hl loc eq_refl) as [s Hs].
  erewrite bind_ok; [|by apply get_session_ok]. eexists _, w'. split; [done|]. split; [done|]. split; [done|].
  split; [case_if; lia|done].
Qed.

Lemma drop_previous_effect session cid clean_start w : broker_ok w ->
  exists w', drop_previous session cid clean_start w = Ok (tt, w') /\ broker_ok w' /\ keeps_sessions w w'.
Proof.
  intros Hok. pose proof (wp_drop_previous session cid clean_start w Hok) as Hw.
  apply wp_inv in Hw as ([] & w' & E & Hok' & _). exists w'. split; [done|]. split; [done|].
  revert E. unfold drop_previous. destruct clean_start; [|by intros [= <-]].
  destruct (find_client cid w Hok) as (r & w1 & E & Hok1 & Hk & _ & Hl & _). erewrite bind_ok by exact E.
  destruct r as [loc|]; [|by intros [= <-]]. destruct (loc =? session); [by intros [= <-]|].
  destruct (Hl loc eq_refl) as [s Hs]. erewrite bind_ok; [|by apply get_session_ok]. intros [= <-].
  etrans; [done|]. constructor; try done. exists []. by rewrite app_nil_r.
Qed.

(** ** Acceptance *)
Definition connected_session (connect : MqttConnectPacket) (cid : bytes) s : MqttSession.t :=
  connect_session config_ connect (MqttSession.set_client_id cid s).

Definition connack_answer (connect : MqttConnectPacket) (cid : bytes) (present : Z) : bytes :=
  let level := cp_protocol_level connect in
  frame CONNACK 0 (connack_body
    (mkConnack present ConnackCode.ACCEPTED (if is_v5 level then connack_properties config_ connect cid else no_props)) level).

Lemma connected_session_level connect cid s :
  MqttSession.protocol_level_ (connected_session connect cid s) = cp_protocol_level connect.
Proof. unfold connected_session, connect_session, apply_connect_properties. repeat case_match; reflexivity. Qed.

Lemma connected_session_state connect cid s :
  MqttSession.state_ (connected_session connect cid s) = connected
  /\ MqttSession.client_id_ (connected_session connect cid s) = cid.
Proof. unfold connected_session, connect_session, apply_connect_properties. repeat case_match; by split. Qed.

Lemma bind_client_id_run session cid s w : broker_ok w -> holds_session w session s -> exists m,
  bind_client_id session cid w = Ok (tt, with_mgr m w)
  /\ MqttSessionManager.sessions_ m = MqttSessionManager.sessions_ (session_mgr_ w)
  /\ MqttSessionManager.objects m = <[session := MqttSession.set_client_id cid s]> (MqttSessionManager.objects (session_mgr_ w))
  /\ (cid <> [] -> map_find cid (MqttSessionManager.client_id_index_ m) = Some session).
Proof.
  intros Hok Hs.
  destruct (MqttSessionManager.bind_client_id_ok session s cid (session_mgr_ w) (bo_sessions w Hok) Hs)
    as (m & E & _ & Hse & _ & Ho & Hi).
  exists m. split; [|done]. unfold bind_client_id. erewrite bind_ok; [|reflexivity].
  by erewrite bind_ok; [|apply mlift_ok; exact E].
Qed.

Lemma connack_ok connect cid present : str_ok cid ->
  encodes (encode_connack (B:=B)
    (mkConnack present ConnackCode.ACCEPTED
       (if is_v5 (cp_protocol_level connect) then connack_properties config_ connect cid else no_props))
    (cp_protocol_level connect)) (connack_answer connect cid present).
Proof.
  intros Hcid. unfold connack_answer. apply connack_encodes.
  - destruct (is_v5 _); [|exact I]. unfold connack_properties, no_props. exact I.
  - case_if; [|rewrite weight_no_props; lia]. pose proof (connack_weight config_ connect cid).
    unfold str_ok in Hcid. lia.
Qed.

(** What accepting a CONNECT leaves behind. *)
Record accepted session connect cid s w w' : Prop := {
  ac_ok : broker_ok w';
  ac_objects : MqttSessionManager.objects (session_mgr_ w')
               = <[session := connected_session connect cid s]> (MqttSessionManager.objects (session_mgr_ w));
  ac_sessions : MqttSessionManager.sessions_ (session_mgr_ w') = MqttSessionManager.sessions_ (session_mgr_ w);
  ac_index : cid <> [] -> map_find cid (MqttSessionManager.client_id_index_ (session_mgr_ w')) = Some session;
  ac_tree : topic_tree_ w' = topic_tree_ w;
  ac_trace : exists evs, trace w' = trace w ++ evs
}.

Lemma accept_connect_effect session connect cid present s w :
  broker_ok w -> holds_session w session s -> connect_fits connect -> str_ok cid ->
  exists b w', accept_connect config_ handler_ session connect cid present w = Ok (b, w')
    /\ sink_contents b = connack_answer connect cid present /\ accepted session connect cid s w w'.
Proof.
  intros Hok Hs Hfit Hcid. assert (live w session) as Hl by (unfold live; rewrite Hs; eauto).
  pose proof (wp_accept_connect (B:=B) config_ handler_ session connect cid present w Hok Hl Hfit Hcid) as Hw.
  apply wp_inv in Hw as (b & w' & E & Hok' & _). revert E. unfold accept_connect.
  destruct (bind_client_id_run session cid s w Hok Hs) as (m & Eb & Hse & Ho & Hi).
  erewrite bind_ok by exact Eb.
  assert (holds_session (with_mgr m w) session (MqttSession.set_client_id cid s)) as Hs1.
  { unfold holds_session. simpl. rewrite Ho. apply lookup_insert_eq. }
  erewrite bind_ok; [|by apply modify_session_ok]. fold (connected_session connect cid s).
  erewrite bind_ok; [|apply get_session_ok, lookup_insert_eq]. rewrite connected_session_level.
  set (w2 := with_objects _ _).
  destruct (notify_ok handler_ (EvConnected (MqttSession.session_id_ (connected_session connect cid s))) w2)
    as (evs & En). erewrite bind_ok by exact En.
  destruct (connack_ok connect cid present Hcid) as (b' & Eb' & _ & Hb).
  rewrite (mlift_ok _ b' _ Eb'). intros [= <- <-]. eexists _, _. split; [done|]. split; [done|].
  constructor; try done; simpl.
  - rewrite Ho. apply insert_insert_eq.
  - by exists evs.
Qed.

(** The session objects once the holder [old] of the client id has been displaced. *)
Definition displace session (old : option Z) (clean_start : bool) w : gmap Z MqttSession.t :=
  match displaced session old clean_start w with
  | None => MqttSessionManager.objects (session_mgr_ w)
  | Some (loc, s) => <[loc := MqttSession.set_state disconnecting s]> (MqttSessionManager.objects (session_mgr_ w))
  end.

Lemma displaced_objects session old clean_start w w' :
  MqttSessionManager.objects (session_mgr_ w') = MqttSessionManager.objects (session_mgr_ w) ->
  displaced session old clean_start w' = displaced session old clean_start w.
Proof. unfold displaced. by intros ->. Qed.

Definition connect_username (connect : MqttConnectPacket) : bytes :=
  if flag_set (cp_connect_flags connect) MQTT_CONNECT_FLAG_USERNAME then default [] (cp_username connect) else [].
Definition connect_password (connect : MqttConnectPacket) : bytes :=
  if flag_set (cp_connect_flags connect) MQTT_CONNECT_FLAG_PASSWORD then default [] (cp_password connect) else [].
Definition clean_start_of (connect : MqttConnectPacket) : bool :=
  flag_set (cp_connect_flags connect) MQTT_CONNECT_FLAG_CLEAN_START.

(** The holder of the client id leaves: the state after the search and the take-over. *)
Lemma displace_effect session cid clean_start s w : broker_ok w -> holds_session w session s ->
  exists r m w1 w2, MqttSessionManager.find_by_client_id cid (session_mgr_ w) = Ok (r, m)
    /\ find_by_client_id cid w = Ok (r, w1) /\ take_over handler_ session r clean_start w1 = Ok (tt, w2)
    /\ broker_ok w2 /\ holds_session w2 session s
    /\ MqttSessionManager.objects (session_mgr_ w2) = displace session r clean_start w
    /\ MqttSessionManager.sessions_ (session_mgr_ w2) = MqttSessionManager.sessions_ (session_mgr_ w)
    /\ forall loc s1 conn, displaced session r clean_start w = Some (loc, s1) ->
         MqttSession.connection (alive w) s1 = Some conn -> EvClose conn ∈ trace w2.
Proof.
  intros Hok Hs. destruct (find_client cid w Hok) as (r & w1 & E1 & Hok1 & [Ko Ks Ka _] & _ & Hl & m & Em).
  destruct (take_over_effect session r clean_start w1 Hok1 Hl) as (w2 & E2 & Hok2 & He).
  exists r, m, w1, w2. split; [done|]. split; [done|]. split; [done|]. split; [done|]. unfold displace.
  rewrite (displaced_objects session r clean_start w w1 Ko) in He. unfold holds_session in *.
  destruct (displaced session r clean_start w) as [[loc s1]|].
  - destruct He as (Hne & Hs1 & Ho & Hse & Ha & evs & Ht). rewrite Ho, Hse, Ko, Ks.
    split; [by rewrite lookup_insert_ne by lia|]. split; [done|]. split; [done|].
    intros ? ? conn [= <- <-] Hc. rewrite Ht, Ka, Hc. by apply elem_of_app; right; apply elem_of_app; right; left.
  - subst w2. rewrite Ko, Ks. done.
Qed.

(** An accepted CONNECT, from the search for the client id to the CONNACK. *)
Lemma connect_client_effect session connect cid s w :
  broker_ok w -> holds_session w session s -> connect_fits connect -> str_ok cid ->
  cf_require_authentication config_ && bool_decide (connect_username connect = []) = false ->
  refused handler_ (fun h => on_connect h s cid (connect_username connect) (connect_password connect)) = false ->
  exists r m b w' present, MqttSessionManager.find_by_client_id cid (session_mgr_ w) = Ok (r, m)
    /\ connect_client config_ handler_ session connect cid w = Ok (b, w')
    /\ sink_contents b = connack_answer connect cid present
    /\ 0 <= present <= 1 /\ (clean_start_of connect = true -> present = 0)
    /\ broker_ok w'
    /\ MqttSessionManager.objects (session_mgr_ w')
       = <[session := connected_session connect cid s]> (displace session r (clean_start_of connect) w)
    /\ MqttSessionManager.sessions_ (session_mgr_ w') = MqttSessionManager.sessions_ (session_mgr_ w)
    /\ (cid <> [] -> map_find cid (MqttSessionManager.client_id_index_ (session_mgr_ w')) = Some session)
    /\ forall loc s1 conn, displaced session r (clean_start_of connect) w = Some (loc, s1) ->
         MqttSession.connection (alive w) s1 = Some conn -> EvClose conn ∈ trace w'.
Proof.
  intros Hok Hs Hfit Hcid Hauth Hacc.
  destruct (displace_effect session cid (clean_start_of connect) s w Hok Hs)
    as (r & m & w1 & w2 & Em & E1 & E2 & Hok2 & Hs2 & Ho2 & Hse2 & Hcl).
  destruct (find_session_present_effect session cid (clean_start_of connect) w2 Hok2)
    as (present & w3 & E3 & Hok3 & K3 & Hp & Hpc).
  destruct (drop_previous_effect session cid (clean_start_of connect) w3 Hok3) as (w4 & E4 & Hok4 & K4).
  pose proof (transitivity K3 K4) as [Ko Ks Ka [evs Kt]].
  assert (holds_session w4 session s) as Hs4 by (unfold holds_session in *; by rewrite Ko).
  destruct (accept_connect_effect session connect cid present s w4 Hok4 Hs4 Hfit Hcid)
    as (b & w' & E & Hb & [Aok Ao As Ai At [evs' Atr]]).
  exists r, m, b, w', present. split; [done|]. split.
  { unfold connect_client. erewrite bind_ok by exact E1. unfold clean_start_of in *. erewrite bind_ok by exact E2.
    cbv zeta. erewrite bind_ok; [|by apply get_session_ok].
    unfold connect_username, connect_password in *. rewrite Hauth, Hacc.
    erewrite bind_ok by exact E3. by erewrite bind_ok by exact E4. }
  split; [done|]. split; [done|]. split; [done|]. split; [done|].
  split; [by rewrite Ao, Ko, Ho2|]. split; [by rewrite As, Ks|]. split; [done|].
  intros loc s1 conn Hd Hc. rewrite Atr, Kt. repeat (apply elem_of_app; left). by eapply Hcl.
Qed.

(** A CONNECT frame on a session that is not connected reaches [handle_connect]. *)
Lemma dispatch_connect session s connect rest w :
  holds_session w session s -> MqttSession.state_ s <> connected -> connect_ok connect ->
  zlen (connect_body connect) <= MQTT_MAX_REMAINING_LENGTH ->
  let packet := frame CONNECT 0 (connect_body connect) in
  dispatch (B:=B) config_ handler_ session (packet ++ rest) (zlen packet) w
  = handle_connect config_ handler_ session (connect_body connect ++ rest) (zlen (connect_body connect)) w.
Proof.
  intros Hs Hc Hp Hb packet. unfold dispatch, packet.
  pose proof (zlen_nonneg (connect_body connect)) as H0. pose proof (vbi_len 5 (zlen (connect_body connect)) ltac:(lia)) as Hvb.
  case_if; [rewrite zlen_frame in *; lia|].
  erewrite bind_ok; [|apply mlift_ok; unfold frame; cbn [app]; reflexivity]. cbv zeta.
  assert (packet_flags 0) as Hf by (unfold packet_flags; lia).
  rewrite frame_type, frame_flags by done.
  erewrite bind_ok; [|by apply get_session_ok]. unfold state_eqb.
  rewrite (bool_decide_eq_false_2 (MqttSession.state_ s = connected)) by done.
  rewrite bool_decide_eq_true_2 by done. cbn [negb andb].
  change (negb (is_valid_packet_flags CONNECT 0)) with false. cbv iota.
  erewrite bind_ok; [|apply mtry_ok; by apply parse_remaining_length_frame].
  cbv beta iota. by rewrite drop_frame.
Qed.

(** ... and goes on with the client id it names. *)
Lemma handle_connect_named session connect rest w : connect_ok connect -> cp_client_id connect <> [] ->
  cp_protocol_level connect ∈ cf_supported_versions config_ ->
  handle_connect (B:=B) config_ handler_ session (connect_body connect ++ rest) (zlen (connect_body connect)) w
  = connect_client config_ handler_ session connect (cp_client_id connect) w.
Proof.
  intros Hp Hcid Hv. unfold handle_connect. erewrite bind_ok; [|apply mtry_ok; by apply decode_connect_body].
  cbv zeta iota beta.
  assert (existsb (fun v => bool_decide (v = cp_protocol_level connect)) (cf_supported_versions config_) = true) as ->.
  { apply existsb_exists. exists (cp_protocol_level connect). split; [by apply list_elem_of_In|by apply bool_decide_eq_true]. }
  cbn [negb]. by destruct (cp_client_id connect).
Qed.
End Connect.
