(* ===== verification/MqttSystem.v ===== *)
(** The broker as a transition system: what the coroutines of the connections, the
    application and the environment may do to the shared state, one step at a time.

    A coroutine runs between two suspension points without interruption, so what the
    rest of the process does during a suspension is a sequence of these steps, which are
    finer than the stretches between suspension points. *)
From stdpp Require Import relations.
From S2P Require Import Prelude Containers Strings ByteBuffer ByteBufferFacts MqttProtocol MqttProperties.
From S2P Require Import MqttPropertiesFacts MqttCodec MqttCodecFacts MqttDecodeSound MqttSession.
From S2P Require Import MqttTopicTree MqttTopicTreeFacts MqttRetainedStore MqttBroker.
From S2P Require Import MqttBrokerFacts MqttDispatcher MqttDispatcherFacts MqttServer MqttServerFacts.
Import MqttProperties MqttCodec MqttServer.

Definition initial_world : World :=
  mkWorld MqttSessionManager.empty MqttTopicTree.empty_node [] ∅ 0 [].

Section System.
Variable little : bool.
Variables (config_ : MqttServerConfig) (handler_ : option MqttHandler).

#[local] Instance sink : ByteSink ByteBuffer.t := ByteBuffer_sink little.

(** The first stretch of [handle_connection]. *)
Definition accept (conn : Z) : M Z :=
  loc ← create_session_owner conn;
  _ ← modify_session loc (MqttSession.set_state connecting);
  mret loc.

(** What connections and the application may hand to the broker. *)
Definition framed (data : bytes) (len : Z) : Prop :=
  exists n t, Forall is_u8 data /\ 0 <= n <= zlen data /\ try_decode data n = Ok (t, len)
    /\ len <= cf_max_packet_size config_.

Definition publishable (topic payload : bytes) (qos : QoS) : Prop :=
  str_ok topic /\ qos_ok qos /\ zlen payload <= MESSAGE_MAX.

Inductive broker_step (w : World) : World -> Prop :=
| step_accept conn loc w' :
    0 < MqttSessionManager.global_session_id (session_mgr_ w) < 2 ^ 64 - 1 ->
    accept conn w = Ok (loc, w') -> broker_step w w'
| step_activity loc w' : live w loc ->
    modify_session loc (MqttSession.update_last_activity (now w)) w = Ok (tt, w') -> broker_step w w'
| step_dispatch loc data len b w' : live w loc -> framed data len ->
    MqttDispatcher.dispatch config_ handler_ loc data len w = Ok (b, w') -> broker_step w w'
| step_emit e w' : memit e w = Ok (tt, w') -> broker_step w w'
| step_leave f w' : live w (fr_session f) -> cleanup_session little handler_ f w = Ok (tt, w') -> broker_step w w'
| step_publish topic payload qos retain w' : publishable topic payload qos ->
    MqttServer.publish little (fun _ => mskip) topic payload qos retain w = Ok (tt, w') -> broker_step w w'
| step_stop owned w' : MqttServer.stop owned w = Ok (tt, w') -> broker_step w w'
| step_expire_sessions m : MqttSessionManager.cleanup_expired (now w) (session_mgr_ w) = Ok m ->
    broker_step w (mkWorld m (topic_tree_ w) (retained_store_ w) (alive w) (now w) (trace w))
| step_expire_retained :
    broker_step w (mkWorld (session_mgr_ w) (topic_tree_ w)
      (MqttRetainedStore.cleanup_expired (now w) (retained_store_ w)) (alive w) (now w) (trace w))
| step_environment alive' now' :
    broker_step w (mkWorld (session_mgr_ w) (topic_tree_ w) (retained_store_ w) alive' now' (trace w)).

Definition broker_steps : World -> World -> Prop := rtc broker_step.
Definition reachable (w : World) : Prop := broker_steps initial_world w.

Hypothesis Hmaxqos : 0 <= cf_maximum_qos config_.
Hypothesis Hmaxsize : 0 <= cf_max_packet_size config_ <= MESSAGE_MAX.

(** * The operations run *)
Lemma run_accept conn w : broker_ok w ->
  0 < MqttSessionManager.global_session_id (session_mgr_ w) < 2 ^ 64 - 1 ->
  run (accept conn) w (fun loc w' => loc = MqttSessionManager.global_session_id (session_mgr_ w) /\ live w' loc).
Proof.
  intros Hok Hc. unfold accept. eapply run_call; [by apply run_create_session|].
  intros l w1 Hok1 Hl1 [-> Hlive]. eapply run_step with (P := fun _ w' => live w' _); [|].
  { apply wp_modify; [done|exact Hlive| |]; [intros s []; split; [by constructor|done]|]. intros. by eapply ev_live. }
  intros u w2 Hok2 Hev2 Hl2. by apply run_ret.
Qed.

Lemma run_dispatch loc data len w : broker_ok w -> live w loc -> framed data len ->
  run (MqttDispatcher.dispatch config_ handler_ loc data len) w any_reply.
Proof.
  intros Hok Hl (n & t & Hd & Hn & E & Hlen). apply run_wp.
  eapply wp_dispatch; try done. lia.
Qed.

(** A write that returns, keeps the invariant and destroys no session. *)
Definition flush_ok (flush : Z -> M unit) : Prop :=
  forall conn w, broker_ok w -> run (flush conn) w (fun _ _ => True).

Lemma flush_skip_ok : flush_ok (fun _ => mskip).
Proof. intros conn w Hok. by apply run_skip. Qed.

Lemma run_publish_one flush topic payload qos sessions sub w : flush_ok flush ->
  broker_ok w -> publishable topic payload qos ->
  subscription_ok sub -> (forall loc, loc ∈ sessions -> live w loc) ->
  run (publish_one little flush topic payload qos sessions sub) w (fun _ _ => True).
Proof.
  intros Hf Hok (Ht & Hq & Hp) [Hsq _] Hall. unfold publish_one.
  eapply run_step; [by apply wp_find_session|]. intros [loc|] w1 Hok1 Hev1 Hl; [|by apply run_skip].
  specialize (Hl loc eq_refl). apply (ev_live _ _ Hev1) in Hl.
  eapply run_step; [apply (wp_get_session loc w1 (fun _ _ => True)); done|]. intros s w1' Hok1' Hev1' _. case_if.
  { by apply run_skip. }
  apply (ev_live _ _ Hev1') in Hl. eapply run_step.
  { apply wp_build_publish; [done|done|]. split; [done|]. split; [unfold qos_ok in *; lia|]. split; [done|].
    rewrite weight_no_props. lia. }
  intros b w2 Hok2 Hev2 [Hwf _]. apply (ev_live _ _ Hev2) in Hl.
  eapply run_step; [apply (wp_get_session loc w2 (fun _ _ => True)); done|]. intros s2 w3 Hok3 Hev3 _.
  eapply run_step; [by apply (wp_get w3 (fun _ _ => True))|]. intros w4 w5 Hok5 _ _.
  destruct (MqttSession.connection (alive w4) s2) as [conn|]; [|by apply run_skip].
  apply run_when; [done| |done]. intros _.
  eapply run_step; [by eapply (wp_lift _ _ _ (fun _ _ => True)); [|by apply ByteBuffer.readable_span_ok|]|].
  intros data w6 Hok6 _ _.
  eapply run_step; [by apply (wp_emit _ _ (fun _ _ => True))|]. intros _ w7 Hok7 _ _. by apply Hf.
Qed.

Lemma run_publish flush topic payload qos retain w : flush_ok flush -> broker_ok w -> publishable topic payload qos ->
  run (MqttServer.publish little flush topic payload qos retain) w (fun _ _ => True).
Proof.
  intros Hf Hok Hp. pose proof Hp as (Ht & Hq & Hpay). unfold MqttServer.publish.
  eapply run_step with (P := fun _ _ => True).
  { apply wp_when; [done| |done]. intros _. apply wp_retained_store; [done| |done].
    split; [done|]. split; [done|]. split; [done|]. cbn [rm_payload]. change (weight _) with 0. lia. }
  intros u w1 Hok1 Hev1 _. eapply run_step; [apply (wp_get w1 (fun a b => a = b)); done|]. intros w2 w3 Hok3 _ ->.
  apply run_for with (locs := MqttSessionManager.all_sessions (session_mgr_ w3)); [done|..].
  - intros. by apply all_sessions_live.
  - intros sub w4 Hin Hok4 Hl. apply run_publish_one; [done|done|done| |done].
    apply match_topic_subs in Hin as (f & Hin); [|by destruct (bo_tree _ Hok3)]. by apply (bo_subs w3 Hok3 f).
Qed.

(** The live connections of the sessions [locs]. *)
Definition live_connections (w : World) (locs : list Z) : list Z :=
  omap (fun loc => s ← MqttSessionManager.objects (session_mgr_ w) !! loc; MqttSession.connection (alive w) s) locs.

Lemma session_connections_run w locs : (forall loc, loc ∈ locs -> live w loc) ->
  exists cs, mmap locs session_connection w = Ok (cs, w) /\ omap id cs = live_connections w locs.
Proof.
  induction locs as [|loc locs IH]; intros Hl; [by exists []|].
  destruct (Hl loc) as [s Hs]; [left|]. destruct IH as (cs & E & Ho); [intros; apply Hl; by right|].
  exists (MqttSession.connection (alive w) s :: cs). split.
  - cbn [mmap]. unfold session_connection, get_session, mget, mlift, MqttSessionManager.deref, mbind, M_bind.
    rewrite Hs. cbn. change (mmap locs _ w) with (mmap locs session_connection w). by rewrite E.
  - unfold live_connections. cbn [omap list_omap]. rewrite Hs. cbn [mbind option_bind].
    destruct (MqttSession.connection (alive w) s); cbn [omap list_omap id];
      fold (omap (M:=list) id cs); by rewrite Ho.
Qed.

(** [stop] closes the live connections of all the sessions, in their order, and touches
    nothing else. *)
Definition emitted (es : list event) (w : World) : World :=
  mkWorld (session_mgr_ w) (topic_tree_ w) (retained_store_ w) (alive w) (now w) (trace w ++ es).

Lemma close_all_run cs w : mfor cs close_one w = Ok (tt, emitted (map EvClose (omap id cs)) w).
Proof.
  revert w; induction cs as [|c cs IH]; intros w; cbn [mfor].
  - unfold emitted. cbn. rewrite app_nil_r. by destruct w.
  - unfold mbind, M_bind. destruct c as [c|]; cbn [close_one]; [|apply IH].
    unfold memit. rewrite IH. unfold emitted. cbn. by rewrite <- app_assoc.
Qed.

Lemma stop_run owned w : broker_ok w ->
  MqttServer.stop owned w
  = Ok (tt, if owned then emitted (map EvClose (live_connections w (MqttSessionManager.all_sessions (session_mgr_ w)))) w
            else w).
Proof.
  intros Hok. destruct owned; [|done]. unfold MqttServer.stop, mwhen, mget, mbind, M_bind.
  destruct (session_connections_run w (MqttSessionManager.all_sessions (session_mgr_ w))) as (cs & -> & <-).
  { intros. by apply all_sessions_live. }
  apply close_all_run.
Qed.

(** * The invariant *)
Lemma initial_ok : broker_ok initial_world.
Proof.
  constructor; simpl.
  - apply MqttSessionManager.sessions_ok_empty.
  - by intros ?? ?%lookup_empty_Some.
  - split; [apply tree_ok_empty|apply one_per_session_empty].
  - intros f sub. rewrite subs_at_empty. by intros []%not_elem_of_nil.
  - apply MqttRetainedStore.store_ok_empty.
  - by intros ?? []%not_elem_of_nil.
Qed.

(** What holds after a step that is a computation known to run. *)
Lemma run_result {A} (m : M A) w Q a w' : run m w Q -> m w = Ok (a, w') ->
  broker_ok w' /\ (forall loc, live w loc -> live w' loc).
Proof. unfold run. intros Hr E. rewrite E in Hr. tauto. Qed.

Lemma wp_result {A} (m : M A) w Q a w' : wp m w Q -> m w = Ok (a, w') ->
  broker_ok w' /\ (forall loc, live w loc -> live w' loc).
Proof. intros Hw%run_wp. by apply run_result with (Q := Q). Qed.

Lemma expire_sessions_ok m w : broker_ok w ->
  MqttSessionManager.cleanup_expired (now w) (session_mgr_ w) = Ok m ->
  MqttSessionManager.sessions_ok m /\ MqttSessionManager.objects m = MqttSessionManager.objects (session_mgr_ w).
Proof.
  intros Hok E.
  destruct (MqttSessionManager.cleanup_loop_ok (now w) (MqttSessionManager.sessions_ (session_mgr_ w)) (session_mgr_ w))
    as (m' & E' & Hm & Ho & _); [apply Hok| |].
  { intros [sid loc] Hin. by apply (MqttSessionManager.so_own _ (bo_sessions w Hok) sid loc). }
  unfold MqttSessionManager.cleanup_expired in E. rewrite E' in E. by injection E as <-.
Qed.

Lemma step_ok w w' : broker_ok w -> broker_step w w' ->
  broker_ok w' /\ (forall loc, live w loc -> live w' loc).
Proof.
  intros Hok Hst. destruct Hst as [conn loc w' Hc E|loc w' Hl E|loc data len b w' Hl Hd E|e w' E|f w' Hl E
    |topic payload qos retain w' Hp E|owned w' E|m E| |alive' now'].
  - eapply run_result; [|exact E]. by apply run_accept.
  - eapply (wp_result _ w (fun _ _ => True)); [|exact E]. apply wp_modify; [done|done| |done].
    intros s []. split; [by constructor|done].
  - eapply run_result; [|exact E]. by apply run_dispatch.
  - eapply (wp_result _ w (fun _ _ => True)); [|exact E]. by apply wp_emit.
  - eapply run_result; [|exact E]. by apply run_cleanup.
  - eapply run_result; [|exact E]. apply run_publish; [apply flush_skip_ok|done|done].
  - rewrite stop_run in E by done. injection E as <-. destruct owned; [|done].
    split; [by destruct Hok; constructor|done].
  - destruct (expire_sessions_ok m w Hok E) as [Hm Ho]. split.
    + destruct Hok. constructor; try done. simpl. by rewrite Ho.
    + unfold live. simpl. by rewrite Ho.
  - split; [|done]. destruct Hok as [? ? ? ? Hst Hr]. constructor; try done; simpl.
    + by apply MqttRetainedStore.store_ok_cleanup.
    + intros topic rm. rewrite MqttRetainedStore.cleanup_expired_filter. intros [_ Hin]%elem_of_filter. eauto.
  - split; [|done]. destruct Hok. by constructor.
Qed.

Lemma steps_ok w w' : broker_ok w -> broker_steps w w' ->
  broker_ok w' /\ (forall loc, live w loc -> live w' loc).
Proof.
  intros Hok Hst. revert Hok. induction Hst as [w|w1 w2 w3 H12 _ IH]; intros Hok; [done|].
  destruct (step_ok w1 w2 Hok H12) as [Hok2 Hl2]. destruct (IH Hok2) as [Hok3 Hl3]. auto.
Qed.

Lemma reachable_ok w : reachable w -> broker_ok w.
Proof. intros Hr. apply (steps_ok initial_world w); [apply initial_ok|done]. Qed.

(** A suspension in which the rest of the process makes steps. *)
Definition others_step (await : M unit) : Prop :=
  forall w, broker_ok w -> exists w', await w = Ok (tt, w') /\ broker_steps w w'.
End System.
