(* ===== verification/MqttConnectionFacts.v ===== *)
(** A connection's coroutine, as a sequence of the broker's steps.

    [srun m w Q]: from [w] the computation returns, having taken the broker from [w]
    through a sequence of its steps, its own and those that others take while it is
    suspended; the invariant holds again, and [Q] holds of the result. *)
From stdpp Require Import relations.
From S2P Require Import Prelude Containers Strings ByteBuffer ByteBufferFacts MqttProtocol MqttProperties.
From S2P Require Import MqttPropertiesFacts MqttCodec MqttCodecFacts MqttDecodeSound MqttSession.
From S2P Require Import MqttTopicTree MqttTopicTreeFacts MqttRetainedStore MqttBroker.
From S2P Require Import MqttBrokerFacts MqttDispatcher MqttDispatcherFacts MqttServer MqttServerFacts.
From S2P Require Import MqttDeliveryFacts MqttSystem.
Import MqttCodec MqttServer.

Section Connection.
Variable little : bool.
Variables (config_ : MqttServerConfig) (handler_ : option MqttHandler) (await : M unit).

#[local] Instance sink : ByteSink ByteBuffer.t := ByteBuffer_sink little.

Abbreviation step := (broker_step little config_ handler_).
Abbreviation steps := (broker_steps little config_ handler_).

Hypothesis Hmaxqos : 0 <= cf_maximum_qos config_.
Hypothesis Hmaxsize : 0 <= cf_max_packet_size config_ <= MESSAGE_MAX.
Hypothesis Hawait : others_step little config_ handler_ await.

(** * The logic *)
Definition srun {A} (m : M A) (w : World) (Q : A -> World -> Prop) : Prop :=
  exists a w', m w = Ok (a, w') /\ broker_ok w' /\ steps w w' /\ Q a w'.

Lemma srun_call {A C} (m : M A) (f : A -> M C) w P Q : broker_ok w -> srun m w P ->
  (forall a w', broker_ok w' -> (forall loc, live w loc -> live w' loc) -> P a w' -> srun (f a) w' Q) ->
  srun (m ≫= f) w Q.
Proof.
  intros Hok (a & w1 & E & Hok1 & Hst1 & HP) Hf.
  destruct (steps_ok little config_ handler_ Hmaxqos Hmaxsize w w1 Hok Hst1) as [_ Hl].
  destruct (Hf a w1 Hok1 Hl HP) as (c & w2 & E2 & Hok2 & Hst2 & HQ).
  exists c, w2. split; [by erewrite bind_ok|]. split; [done|]. split; [by etrans|done].
Qed.

Lemma srun_conseq {A} (m : M A) w (P Q : A -> World -> Prop) : srun m w P ->
  (forall a w', P a w' -> Q a w') -> srun m w Q.
Proof. intros (a & w' & ? & ? & ? & ?) HQ. exists a, w'. auto. Qed.

Lemma srun_ret {A} (a : A) w (Q : A -> World -> Prop) : broker_ok w -> Q a w -> srun (mret a) w Q.
Proof. intros. exists a, w. split; [done|]. split; [done|]. split; [apply rtc_refl|done]. Qed.

(** A computation that only looks, then the rest. *)
Lemma srun_look {A C} (m : M A) (f : A -> M C) w a Q : m w = Ok (a, w) -> srun (f a) w Q -> srun (m ≫= f) w Q.
Proof. intros E (c & w' & E' & ?). exists c, w'. by erewrite bind_ok. Qed.

Lemma srun_get_session {C} loc (f : MqttSession.t -> M C) w Q : live w loc ->
  (forall s, MqttSessionManager.objects (session_mgr_ w) !! loc = Some s -> srun (f s) w Q) ->
  srun (get_session loc ≫= f) w Q.
Proof. intros [s Hs] Hf. eapply srun_look; [by apply get_session_ok|by apply Hf]. Qed.

(** One step of the broker. *)
Lemma srun_step {A} (m : M A) w Q : run m w Q -> (forall a w', m w = Ok (a, w') -> step w w') -> srun m w Q.
Proof.
  unfold run. intros Hr Hst. destruct (m w) as [[a w']| | |] eqn:E; try done. destruct Hr as (Hok & _ & HQ).
  exists a, w'. split; [done|]. split; [done|]. split; [by apply rtc_once, (Hst a)|done].
Qed.

Lemma srun_emit e w (Q : unit -> World -> Prop) : broker_ok w ->
  (forall w', broker_ok w' -> Q tt w') -> srun (memit e) w Q.
Proof.
  intros Hok HQ. apply srun_step; [apply run_wp, wp_emit; auto|]. intros [] w' E. by eapply step_emit.
Qed.

Lemma srun_await w : broker_ok w -> srun await w (fun _ _ => True).
Proof.
  intros Hok. destruct (Hawait w Hok) as (w' & E & Hst). exists tt, w'. split; [done|].
  split; [by eapply steps_ok|done].
Qed.

Lemma srun_cleanup f w : broker_ok w -> live w (fr_session f) ->
  srun (cleanup_session little handler_ f) w (fun _ => unregistered (fr_session f)).
Proof.
  intros. apply srun_step; [by apply run_cleanup|]. intros [] w' E. by eapply step_leave.
Qed.

(** * The packet loop *)
Lemma srun_close f w : broker_ok w -> live w (fr_session f) ->
  srun (close_connection little handler_ f) w (fun p w' => p = Closed /\ unregistered (fr_session f) w').
Proof.
  intros Hok Hl. unfold close_connection.
  eapply srun_call with (P := fun _ _ => True); [done|by apply srun_emit|].
  intros u w1 Hok1 Hl1 _. eapply srun_call; [done|apply srun_cleanup; auto|].
  intros u2 w2 Hok2 Hl2 Hu. by apply srun_ret.
Qed.

Lemma srun_write f buf w : broker_ok w -> ByteBuffer.wf buf ->
  srun (write_async await f buf) w (fun _ _ => True).
Proof.
  intros Hok Hb. unfold write_async, mwhen. case_if; [|by apply srun_ret].
  eapply srun_look; [by apply mlift_ok, ByteBuffer.readable_span_ok|].
  eapply srun_call with (P := fun _ _ => True); [done|by apply srun_emit|]. intros u w2 Hok2 _ _. by apply srun_await.
Qed.

Lemma srun_too_large f w : broker_ok w -> live w (fr_session f) ->
  srun (packet_too_large little handler_ await f) w (fun p w' => p = Closed /\ unregistered (fr_session f) w').
Proof.
  intros Hok Hl. unfold packet_too_large. apply srun_get_session; [done|]. intros s Hs. cbv zeta.
  eapply srun_call with (P := fun _ _ => True); [done| |].
  { unfold mwhen. case_if; [|by apply srun_ret].
    destruct (disconnect_encodes (B:=ByteBuffer.t) DisconnectReason.PACKET_TOO_LARGE (MqttSession.protocol_level_ s))
      as (b & E & [Hb _] & _). eapply srun_look; [by apply mlift_ok|by apply srun_write]. }
  intros u w2 Hok2 Hl2 _. apply srun_close; auto.
Qed.

(** How a round may end, for the connection [loc] whose buffer held [readable] bytes. *)
Definition round_end (loc : Z) (f : Frame) (p : progress) (w' : World) : Prop :=
  match p with
  | NeedMore f' => f' = f /\ ByteBuffer.readable_bytes (recv_buf f) <= cf_max_packet_size config_
  | Next f' => frame_ok loc f' /\ ByteBuffer.readable_bytes (recv_buf f') < ByteBuffer.readable_bytes (recv_buf f)
  | Closed => unregistered loc w'
  end.

Lemma closed_round loc f (m : M progress) w :
  srun m w (fun p w' => p = Closed /\ unregistered loc w') -> srun m w (round_end loc f).
Proof. intros Hm. eapply srun_conseq; [exact Hm|]. by intros p w' [-> Hun]. Qed.

(** A round on a framed packet, from its dispatch on. *)
Lemma srun_serve loc f n t data w (f0 : Frame) : broker_ok w -> live w loc -> frame_ok loc f ->
  data = drop (Z.to_nat (ByteBuffer.read_offset_ (recv_buf f))) (ByteBuffer.storage_ (recv_buf f)) ->
  try_decode data (ByteBuffer.readable_bytes (recv_buf f)) = Ok (t, n) -> n <= cf_max_packet_size config_ ->
  recv_buf f0 = recv_buf f ->
  srun (response ← MqttDispatcher.dispatch config_ handler_ (fr_session f) data n;
        s ← get_session (fr_session f);
        let f := if state_eqb (MqttSession.state_ s) connected then set_ever_connected true f else f in
        let f := set_recv_buf (ByteBuffer.consume n (recv_buf f)) f in
        _ ← write_async await f response;
        s ← get_session (fr_session f);
        if state_eqb (MqttSession.state_ s) disconnected || state_eqb (MqttSession.state_ s) disconnecting
        then close_connection little handler_ f
        else mret (Next f)) w (round_end loc f0).
Proof.
  intros Hok Hl [<- Hb] -> Hdec Hmax Hf0. destruct (buffer_view _ Hb) as [Hu Hr].
  set (data := drop _ _) in *. apply try_decode_inv in Hdec as Hn. destruct Hn as [Hn _].
  assert (framed config_ data n) as Hfr by (by exists (ByteBuffer.readable_bytes (recv_buf f)), t).
  eapply srun_call; [done| |].
  { apply srun_step; [by apply run_dispatch|]. intros b w' E. by eapply step_dispatch. }
  intros response w1 Hok1 Hl1 [Hresp _]. apply srun_get_session; [by apply Hl1|]. intros s1 Hs1. cbv zeta.
  set (f1 := if state_eqb _ _ then _ else _).
  assert (fr_session f1 = fr_session f /\ recv_buf f1 = recv_buf f) as [Hf1 Hrb] by (subst f1; by case_if).
  destruct (consume_buffer n (recv_buf f) Hb) as [Hb' Hrd]; [lia|].
  eapply srun_call; [done|by apply srun_write|]. intros u w2 Hok2 Hl2 _.
  assert (live w2 (fr_session f)) as Hlf by auto.
  apply srun_get_session; [simpl; by rewrite Hf1|]. intros s2 Hs2. case_if.
  - apply closed_round. eapply srun_conseq; [apply srun_close; [done|simpl; by rewrite Hf1]|].
    simpl. by rewrite Hf1.
  - apply srun_ret; [done|]. unfold round_end, frame_ok. simpl. rewrite Hf0, Hrb, Hrd. split; [by split|lia].
Qed.

Lemma srun_process_packet loc f w : broker_ok w -> live w loc -> frame_ok loc f ->
  srun (process_packet little config_ handler_ await f) w (round_end loc f).
Proof.
  intros Hok Hl Hf. pose proof Hf as [Hloc Hb]. destruct (buffer_view _ Hb) as [Hu Hr]. unfold process_packet. cbv zeta.
  set (data := drop _ _) in *. set (readable := ByteBuffer.readable_bytes (recv_buf f)) in *.
  assert (live w (fr_session f)) as Hlf by (by rewrite Hloc).
  assert (Hclose : forall g w1, fr_session g = fr_session f -> broker_ok w1 -> live w1 (fr_session f) ->
    srun (close_connection little handler_ g) w1 (round_end loc f)).
  { intros g w1 Hg Hok1 Hl1. apply closed_round. rewrite <- Hloc, <- Hg. apply srun_close; [done|by rewrite Hg]. }
  assert (Hlarge : srun (packet_too_large little handler_ await f) w (round_end loc f)).
  { apply closed_round. rewrite <- Hloc. by apply srun_too_large. }
  pose proof (try_decode_safe data readable Hr) as Hsafe.
  destruct (try_decode data readable) as [[t n]| | |] eqn:Hdec; try done.
  2: { eapply srun_look; [by unfold mtry; rewrite ?Hdec|]. cbv beta iota. case_if; [done|].
       apply srun_ret; [done|]. split; [done|]. fold readable. lia. }
  eapply srun_look; [by apply mtry_ok|]. cbv beta iota.
  case_if; [done|]. case_if; [by apply Hclose|].
  apply srun_get_session; [done|]. intros s Hs. case_if; [by apply (Hclose (set_first_packet false f))|].
  apply (srun_serve loc (set_first_packet false f) n t); [done|done|by split|done|done|lia|done].
Qed.

Definition frame_end (loc : Z) (r : option Frame) (w' : World) : Prop :=
  match r with
  | Some f' => frame_ok loc f' /\ live w' loc
               /\ ByteBuffer.readable_bytes (recv_buf f') <= cf_max_packet_size config_
  | None => unregistered loc w'
  end.

Lemma srun_process_loop loc fuel f w : broker_ok w -> live w loc -> frame_ok loc f ->
  ByteBuffer.readable_bytes (recv_buf f) <= Z.of_nat fuel ->
  srun (process_loop little config_ handler_ await fuel f) w (frame_end loc).
Proof.
  revert f w; induction fuel as [|fuel IH]; intros f w Hok Hl Hf Hfuel; cbn [process_loop].
  { case_if; [lia|]. apply srun_ret; [done|]. split_and!; [done|done|lia]. }
  case_if; [|apply srun_ret; [done|]; split_and!; [done|done|lia]].
  eapply srun_call; [done|by apply srun_process_packet|]. intros [f1|f1|] w1 Hok1 Hl1 Hp.
  - destruct Hp as [-> Hr]. apply srun_ret; [done|]. split_and!; auto.
  - destruct Hp as [Hf1 Hr]. apply IH; auto. lia.
  - by apply srun_ret.
Qed.

(** * A connection *)
Lemma srun_on_read loc f data w : broker_ok w -> live w loc -> frame_ok loc f -> read_ok data ->
  ByteBuffer.readable_bytes (recv_buf f) <= cf_max_packet_size config_ ->
  srun (on_read little config_ handler_ await f data) w (frame_end loc).
Proof.
  intros Hok Hl [Hloc (Hwf & Hu & Hs)] (Hdwf & Hdu & Hds) Hr. unfold on_read.
  destruct (ByteBuffer.append_holds (ByteBuffer.contents data) (recv_buf f) Hwf) as (buf & Hbuf & Hbwf & Hc & _).
  assert (buffer_ok buf) as Hbok.
  { split; [done|]. split; [by eapply append_u8s|]. apply append_storage in Hbuf; [|done].
    unfold MESSAGE_MAX, READ_MAX in *. lia. }
  eapply srun_look.
  { apply mlift_ok. unfold ByteBuffer.append_buffer. rewrite ByteBuffer.readable_span_ok by done. exact Hbuf. }
  eapply srun_look; [done|]. eapply srun_call with (P := fun _ _ => True); [done| |].
  { apply srun_step.
    - apply run_wp, wp_modify; [done|by rewrite Hloc| |done]. intros s []. split; [by constructor|done].
    - intros [] w' E. eapply step_activity; [|exact E]. by rewrite Hloc. }
  intros u w4 Hok4 Hl4 _. eapply srun_call; [done| |].
  { apply (srun_process_loop loc); [done|by apply Hl4|by split|simpl].
    destruct Hbwf. unfold ByteBuffer.readable_bytes in *. lia. }
  intros [f1|] w5 Hok5 Hl5 H5; [|by apply srun_ret]. destruct H5 as ((Hloc1 & Hwf1 & Hu1 & Hs1) & Hlive & Hr1).
  case_if.
  - apply srun_ret; [done|]. split_and!; [split; [done|]|done|].
    + split; [by apply ByteBuffer.clear_wf|]. by split.
    + unfold ByteBuffer.clear, ByteBuffer.readable_bytes. simpl. lia.
  - destruct (ByteBuffer.compact_ok (recv_buf f1) Hwf1) as (b2 & Hb2 & Hwf2 & _ & _).
    eapply srun_look; [by apply mlift_ok|]. apply srun_ret; [done|].
    pose proof (compact_storage _ _ Hb2) as [Hst Hrd]. specialize (Hrd Hwf1).
    split_and!; [split; [done|]|done|simpl; lia]. split; [done|]. split; [by eapply compact_u8|simpl; lia].
Qed.

Lemma srun_connection_loop loc reads f w : broker_ok w -> live w loc -> frame_ok loc f -> Forall read_ok reads ->
  ByteBuffer.readable_bytes (recv_buf f) <= cf_max_packet_size config_ ->
  srun (connection_loop little config_ handler_ await f reads) w (fun _ => unregistered loc).
Proof.
  intros Hok Hl Hf Hreads. revert f w Hok Hl Hf; induction Hreads as [|data reads Hd Hreads IH];
    intros f w Hok Hl Hf Hr; cbn [connection_loop].
  - destruct Hf as [<- Hb]. eapply srun_call; [done|by apply srun_cleanup|].
    intros u w1 Hok1 Hl1 Hun. apply srun_step.
    + unfold run, memit. split; [|split; [by intros|done]]. destruct Hok1. by constructor.
    + intros [] w' E. by eapply step_emit.
  - eapply srun_call; [done|by apply srun_await|]. intros u w1 Hok1 Hl1 _.
    eapply srun_call; [done|apply (srun_on_read loc); auto|]. intros [f1|] w2 Hok2 Hl2 H2.
    + destruct H2 as (Hf1 & Hl1' & Hr1). by apply IH.
    + by apply srun_ret.
Qed.

Lemma handle_connection_accept conn reads w : handle_connection little config_ handler_ await conn reads w
  = (loc ← accept conn; connection_loop little config_ handler_ await (mkFrame loc conn ByteBuffer.default true false) reads) w.
Proof.
  unfold handle_connection, accept, mbind, M_bind. destruct (create_session_owner conn w) as [[loc w1]| | |]; try done.
  by destruct (modify_session loc _ w1) as [[[] w2]| | |].
Qed.

Lemma srun_handle_connection conn reads w : broker_ok w ->
  0 < MqttSessionManager.global_session_id (session_mgr_ w) < 2 ^ 64 - 1 -> Forall read_ok reads ->
  srun (handle_connection little config_ handler_ await conn reads) w
    (fun _ => unregistered (MqttSessionManager.global_session_id (session_mgr_ w))).
Proof.
  intros Hok Hc Hreads. unfold srun. setoid_rewrite handle_connection_accept. apply srun_call with
    (P := fun loc w' => loc = MqttSessionManager.global_session_id (session_mgr_ w) /\ live w' loc); [done| |].
  { apply srun_step; [by apply run_accept|]. intros loc w' E. by eapply step_accept. }
  intros l w1 Hok1 Hl1 [-> Hlive]. apply srun_connection_loop; [done|done| |done|].
  - split; [done|]. unfold ByteBuffer.default.
    destruct (ByteBuffer.with_capacity_wf ByteBuffer.kDefaultCapacity) as [Hwf _]; [unfold ByteBuffer.kDefaultCapacity; lia|].
    split; [done|]. split; [apply zeros_u8|]. simpl. rewrite ByteBuffer.zlen_zeros by (unfold ByteBuffer.kDefaultCapacity; lia).
    unfold ByteBuffer.kDefaultCapacity, READ_MAX. lia.
  - simpl. unfold ByteBuffer.readable_bytes. simpl. lia.
Qed.
End Connection.
