(* ===== verification/BrokerTheorems.v ===== *)
(** What the dispatcher promises to clients, packet by packet. *)
From S2P Require Import Prelude Containers Strings ByteBuffer ByteBufferFacts MqttProtocol MqttProperties.
From S2P Require Import MqttPropertiesFacts MqttCodec MqttCodecFacts MqttDecodeSound MqttSession.
From S2P Require Import MqttTopicTree MqttTopicTreeFacts MqttRetainedStore MqttBroker.
From S2P Require Import MqttBrokerFacts MqttDispatcher MqttDispatcherFacts MqttDeliveryFacts.
From S2P Require Import MqttSubscribeFacts MqttConnectFacts MqttServer MqttServerFacts.
From S2P Require Import MqttSystem.
Import MqttProperties MqttCodec MqttDispatcher.

(** The witnesses run on the byte buffer of a little-endian host. *)
#[local] Instance host_sink : ByteSink ByteBuffer.t := ByteBuffer_sink true.

(** A world with one connected MQTT 5 session: session 1 on connection 5. *)
Definition sample_session : MqttSession.t :=
  MqttSession.set_protocol_level V5_0 (MqttSession.set_state connected (MqttSession.create 1 0 (Some 5))).
Definition sample_world : World :=
  mkWorld (MqttSessionManager.assign 1 sample_session
             (MqttSessionManager.create_session_owner 0 (Some 5) MqttSessionManager.empty).2)
    MqttTopicTree.empty_node [] {[5]} 0 [].

Lemma sample_world_ok : broker_ok sample_world.
Proof.
  pose proof initial_ok as [Hs _ Ht Hsub Hst Hr]. constructor; simpl; try done.
  - apply MqttSessionManager.sessions_ok_assign; [|vm_compute; eauto|done].
    apply (MqttSessionManager.sessions_ok_create 0 (Some 5) MqttSessionManager.empty);
      [apply MqttSessionManager.sessions_ok_empty|simpl; lia].
  - intros loc s [[<- <-]|[_ [[<- <-]|[_ []%lookup_empty_Some]]%lookup_insert_Some]]%lookup_insert_Some;
      (constructor; simpl; [unfold MqttSession.packet_id_ok; lia|done|by intros ?? ?%not_elem_of_nil]).
Qed.

Lemma sample_holds : holds_session sample_world 1 sample_session.
Proof. reflexivity. Qed.

(** * Connecting *)

(** Before a session is connected, a packet other than CONNECT changes nothing and is
    answered with PROTOCOL_ERROR, which an MQTT 3.1.1 client never sees. *)
Theorem connect_required {B : Type} `{ByteSink B} config_ handler_ session s first data len w :
  holds_session w session s -> MqttSession.state_ s <> connected -> 0 < len ->
  PacketType_cast (Z.land (Z.shiftr first 4) 15) <> CONNECT ->
  answers (dispatch (B:=B) config_ handler_ session (first :: data) len w)
    (error_bytes s DisconnectReason.PROTOCOL_ERROR) w.
Proof.
  intros Hs Hc Hlen Ht. unfold dispatch. case_if; [lia|].
  erewrite bind_ok; [|apply mlift_ok; reflexivity]. cbv zeta. erewrite bind_ok; [|by apply get_session_ok].
  unfold state_eqb. rewrite !bool_decide_eq_false_2 by done. cbn [negb andb]. by apply error_answers.
Qed.

Lemma connect_required_witness :
  let w := with_objects {[1 := MqttSession.create 1 0 (Some 5)]} sample_world in
  answers (dispatch (B:=ByteBuffer.t) default_config None 1 [192; 0] 2 w) [] w.
Proof.
  apply (connect_required default_config None 1 (MqttSession.create 1 0 (Some 5)) 192 [0] 2); [reflexivity|done|lia|done].
Defined.

(** A second CONNECT on a connected session leaves it disconnecting, closes its
    connection and touches nothing else of the broker. *)
Theorem second_connect_closes {B : Type} `{ByteSink B} config_ handler_ session s first data len w :
  holds_session w session s -> MqttSession.state_ s = connected -> 0 < len ->
  PacketType_cast (Z.land (Z.shiftr first 4) 15) = CONNECT ->
  exists b, dispatch (B:=B) config_ handler_ session (first :: data) len w
    = Ok (b, with_trace (match MqttSession.connection (alive w) s with Some conn => [EvClose conn] | None => [] end)
               (with_objects (<[session := MqttSession.set_state disconnecting s]>
                  (MqttSessionManager.objects (session_mgr_ w))) w))
    /\ sink_contents b = error_bytes s DisconnectReason.PROTOCOL_ERROR.
Proof.
  intros Hs Hc Hlen Ht. unfold dispatch. case_if; [lia|].
  erewrite bind_ok; [|apply mlift_ok; reflexivity]. cbv zeta. erewrite bind_ok; [|by apply get_session_ok].
  rewrite Hc, Ht. change (state_eqb connected connected) with true. rewrite bool_decide_eq_true_2 by done. cbn [negb andb].
  erewrite bind_ok; [|by apply modify_session_ok]. set (s' := MqttSession.set_state disconnecting s).
  set (w1 := with_objects _ w).
  assert (Hs1 : holds_session w1 session s') by apply lookup_insert_eq.
  assert (Hcl : close_session_connection session w1
    = Ok (tt, with_trace (match MqttSession.connection (alive w) s with Some conn => [EvClose conn] | None => [] end) w1)).
  { unfold close_session_connection. erewrite bind_ok; [|by apply get_session_ok].
    erewrite bind_ok; [|reflexivity].
    change (MqttSession.connection (alive w1) s') with (MqttSession.connection (alive w) s).
    destruct (MqttSession.connection (alive w) s); [done|]. by rewrite with_trace_nil. }
  erewrite bind_ok; [|exact Hcl].
  destruct (error_answers (B:=B) session s' DisconnectReason.PROTOCOL_ERROR
    (with_trace (match MqttSession.connection (alive w) s with Some conn => [EvClose conn] | None => [] end) w1) Hs1)
    as (b & Eb & Hb).
  exists b. split; [exact Eb|exact Hb].
Qed.

Lemma second_connect_closes_witness :
  exists b, dispatch (B:=ByteBuffer.t) default_config None 1 [16; 0] 2 sample_world
    = Ok (b, with_trace [EvClose 5]
               (with_objects (<[1 := MqttSession.set_state disconnecting sample_session]>
                  (MqttSessionManager.objects (session_mgr_ sample_world))) sample_world))
    /\ sink_contents b = error_bytes sample_session DisconnectReason.PROTOCOL_ERROR.
Proof. apply (second_connect_closes default_config None 1 sample_session 16 [0] 2); [reflexivity|done|lia|done]. Defined.

(** * Publishing *)

(** C5: QoS 2 publishes are processed exactly once. From a connected session whose window
    has room ([inflight_count + 1 < receive_maximum]: with a full window the
    retransmission is refused, see [qos2_window_full]), a plain QoS 2 publish (well
    formed, to a valid topic, without a topic alias, of at most 268000000 bytes) that the
    application's handler accepts and whose identifier is not in flight is accepted:
    answered PUBREC with success and its identifier recorded. Its retransmission then
    changes nothing at all and is answered PUBREC with PACKET_IDENTIFIER_IN_USE. The
    PUBREL forgets the identifier, changes nothing else and is answered PUBCOMP with
    success. *)
Theorem qos2_exactly_once {B : Type} `{ByteSink B} config_ handler_ session s p pid r1 r2 r3 w :
  let level := MqttSession.protocol_level_ s in
  let packet q rest := frame PUBLISH (publish_flags q) (publish_body q level) ++ rest in
  let packet_len q := zlen (frame PUBLISH (publish_flags q) (publish_body q level)) in
  let release := frame PUBREL 2 (ack_body pid PubrelReason.SUCCESS level no_props) in
  broker_ok w -> holds_session w session s -> MqttSession.state_ s = connected ->
  plain_publish p level -> pb_qos p = 2 -> pb_packet_id p = Some pid ->
  MqttSession.has_inflight_packet_id pid s = false ->
  MqttSession.inflight_count s + 1 < MqttSession.receive_maximum_ s ->
  refused handler_ (fun h => on_publish h s (pb_topic p) (pb_payload p) 2 (pb_retain p =? 1)) = false ->
  exists b1 w1 s1 b3,
    dispatch (B:=B) config_ handler_ session (packet p r1) (packet_len p) w = Ok (b1, w1)
    /\ sink_contents b1 = frame PUBREC 0 (ack_body pid PubrecReason.SUCCESS level no_props)
    /\ broker_ok w1 /\ holds_session w1 session s1 /\ MqttSession.has_inflight_packet_id pid s1 = true
    /\ answers (dispatch (B:=B) config_ handler_ session (packet (with_dup p) r2) (packet_len (with_dup p)) w1)
         (frame PUBREC 0 (ack_body pid PubrecReason.PACKET_IDENTIFIER_IN_USE level no_props)) w1
    /\ dispatch (B:=B) config_ handler_ session (release ++ r3) (zlen release) w1
       = Ok (b3, with_objects (<[session := MqttSession.remove_inflight_packet_id pid s1]>
                   (MqttSessionManager.objects (session_mgr_ w1))) w1)
    /\ sink_contents b3 = frame PUBCOMP 0 (ack_body pid PubcompReason.SUCCESS level no_props).
Proof.
  intros level packet packet_len release Hok Hs Hc Hp Hq Hpid Hnew Hroom Hacc.
  pose proof Hp as ((_ & _ & _ & _ & Hid & _) & _).
  assert (0 < pid < 65536) as Hpid'.
  { rewrite Hq in Hid. destruct Hid as (id & Hid & ?). congruence. }
  destruct (accept_publish_qos2 (B:=B) session s p w Hok Hs (publish_ok_packet p level Hp) Hq)
    as (b1 & w1 & n & E1 & Hok1 & Hs1 & Hb1). rewrite Hpid in Hs1, Hb1. cbn [default] in Hs1, Hb1.
  change (default 0 (Some pid)) with pid in *.
  set (s1 := (MqttSession.add_inflight_packet_id pid (MqttSession.set_next_packet_id n s)).2) in *.
  assert (Hnotin : pid ∉ MqttSession.inflight_packet_ids_ s) by (by apply bool_decide_eq_false in Hnew).
  assert (Hcount : MqttSession.inflight_count s1 = MqttSession.inflight_count s + 1).
  { unfold MqttSession.inflight_count, s1. simpl. rewrite size_union by set_solver. rewrite size_singleton. lia. }
  assert (Hin1 : MqttSession.has_inflight_packet_id pid s1 = true).
  { apply bool_decide_eq_true. unfold s1. simpl. set_solver. }
  assert (Hrec : (MqttSession.receive_maximum_ s <=? MqttSession.inflight_count s) = false) by lia.
  assert (Hrec1 : (MqttSession.receive_maximum_ s1 <=? MqttSession.inflight_count s1) = false).
  { rewrite Hcount. change (MqttSession.receive_maximum_ s1) with (MqttSession.receive_maximum_ s). lia. }
  pose proof (handle_pubrel_ok (B:=B) session s1 pid PubrelReason.SUCCESS no_props r3 w1 Hs1 Hpid') as Hrel.
  cbv zeta in Hrel. rewrite Hin1 in Hrel.
  destruct Hrel as (b3 & E3 & Hb3); [unfold is_u8, PubrelReason.SUCCESS; lia|apply no_props_ok|done|].
  exists b1, w1, s1, b3. split.
  { unfold packet, packet_len, level. rewrite (dispatch_publish (B:=B) config_ handler_ session s p r1 w Hs Hc Hp); [|lia].
    unfold publish_decision. rewrite Hq, Hpid, Hrec, Hnew, Hacc. exact E1. }
  split; [exact Hb1|]. split; [done|]. split; [done|]. split; [done|]. split.
  { unfold packet, packet_len.
    rewrite (dispatch_publish (B:=B) config_ handler_ session s1 (with_dup p) r2 w1 Hs1 Hc (plain_with_dup p level Hp));
      [|cbn [pb_qos with_dup]; lia].
    unfold publish_decision. cbn [pb_qos pb_packet_id with_dup]. rewrite Hq, Hpid, Hrec1, Hin1.
    apply answers_encodes, ack_encodes. unfold packet_flags. lia. }
  split; [|exact Hb3]. rewrite <- E3. unfold release.
  by apply (dispatch_pubrel config_ handler_ session s1 pid r3 w1).
Qed.

Definition qos2_publish : MqttPublishPacket := mkPublish 0 2 0 (str "a") (Some 7) [1] no_props.

Lemma qos2_publish_plain : plain_publish qos2_publish V5_0.
Proof.
  split; [|split; [reflexivity|split; [reflexivity|vm_compute; congruence]]].
  unfold publish_ok, qos2_publish. cbn [pb_dup pb_qos pb_retain pb_topic pb_packet_id pb_properties].
  split; [lia|]. split; [lia|]. split; [lia|]. split; [done|].
  split; [exists 7; split; [done|lia]|]. split; [apply no_props_ok|]. vm_compute. congruence.
Qed.

Lemma qos2_exactly_once_witness :
  let packet q rest := frame PUBLISH (publish_flags q) (publish_body q V5_0) ++ rest in
  let packet_len q := zlen (frame PUBLISH (publish_flags q) (publish_body q V5_0)) in
  let release := frame PUBREL 2 (ack_body 7 PubrelReason.SUCCESS V5_0 no_props) in
  exists b1 w1 s1 b3,
    dispatch (B:=ByteBuffer.t) default_config None 1 (packet qos2_publish []) (packet_len qos2_publish) sample_world = Ok (b1, w1)
    /\ sink_contents b1 = frame PUBREC 0 (ack_body 7 PubrecReason.SUCCESS V5_0 no_props)
    /\ broker_ok w1 /\ holds_session w1 1 s1 /\ MqttSession.has_inflight_packet_id 7 s1 = true
    /\ answers (dispatch (B:=ByteBuffer.t) default_config None 1 (packet (with_dup qos2_publish) []) (packet_len (with_dup qos2_publish)) w1)
         (frame PUBREC 0 (ack_body 7 PubrecReason.PACKET_IDENTIFIER_IN_USE V5_0 no_props)) w1
    /\ dispatch (B:=ByteBuffer.t) default_config None 1 (release ++ []) (zlen release) w1
       = Ok (b3, with_objects (<[1 := MqttSession.remove_inflight_packet_id 7 s1]>
                   (MqttSessionManager.objects (session_mgr_ w1))) w1)
    /\ sink_contents b3 = frame PUBCOMP 0 (ack_body 7 PubcompReason.SUCCESS V5_0 no_props).
Proof.
  exact (qos2_exactly_once default_config None 1 sample_session qos2_publish 7 [] [] [] sample_world
    sample_world_ok sample_holds eq_refl qos2_publish_plain eq_refl eq_refl eq_refl eq_refl eq_refl).
Defined.

(** When a client's QoS 2 window is full, its next QoS 2 publish changes nothing and is
    answered with RECEIVE_MAXIMUM_EXCEEDED, even if it retransmits one that is in flight. *)
Theorem qos2_window_full {B : Type} `{ByteSink B} config_ handler_ session s p rest w :
  let level := MqttSession.protocol_level_ s in
  let packet := frame PUBLISH (publish_flags p) (publish_body p level) in
  holds_session w session s -> MqttSession.state_ s = connected -> plain_publish p level -> pb_qos p = 2 ->
  MqttSession.receive_maximum_ s <= MqttSession.inflight_count s ->
  answers (dispatch (B:=B) config_ handler_ session (packet ++ rest) (zlen packet) w)
    (error_bytes s DisconnectReason.RECEIVE_MAXIMUM_EXCEEDED) w.
Proof.
  intros level packet Hs Hc Hp Hq Hfull. unfold packet, level.
  rewrite (dispatch_publish (B:=B) config_ handler_ session s p rest w Hs Hc Hp); [|lia].
  unfold publish_decision. rewrite Hq.
  replace (MqttSession.receive_maximum_ s <=? MqttSession.inflight_count s) with true by lia. by apply error_answers.
Qed.

Lemma qos2_window_full_witness :
  let s := MqttSession.set_receive_maximum 0 sample_session in
  let w := with_objects {[1 := s]} sample_world in
  let packet := frame PUBLISH (publish_flags qos2_publish) (publish_body qos2_publish V5_0) in
  answers (dispatch (B:=ByteBuffer.t) default_config None 1 (packet ++ []) (zlen packet) w)
    (error_bytes s DisconnectReason.RECEIVE_MAXIMUM_EXCEEDED) w.
Proof.
  apply (qos2_window_full default_config None 1 (MqttSession.set_receive_maximum 0 sample_session) qos2_publish []);
    [reflexivity|reflexivity|apply qos2_publish_plain|reflexivity|vm_compute; congruence].
Defined.

(** what a QoS 0 publish does, exactly. A plain one that is not retained and that the
    handler accepts gets no answer and changes nothing but the trace, to which it adds, in
    the tree's order and after the shared-subscription policy, one write to each matching
    subscriber that is connected, and none to the publisher's own no-local subscriptions. *)
Theorem qos0_publish_exact {B : Type} `{ByteSink B} config_ handler_ session s p rest w :
  let level := MqttSession.protocol_level_ s in
  let packet := frame PUBLISH (publish_flags p) (publish_body p level) in
  broker_ok w -> holds_session w session s -> MqttSession.state_ s = connected -> plain_publish p level ->
  pb_qos p = 0 -> pb_dup p = 0 -> pb_retain p = 0 ->
  refused handler_ (fun h => on_publish h s (pb_topic p) (pb_payload p) 0 false) = false ->
  exists b, dispatch (B:=B) config_ handler_ session (packet ++ rest) (zlen packet) w
      = Ok (b, with_trace (flat_map (delivery_events w session p)
          (apply_shared_subscription_policy (MqttTopicTree.match_topic (pb_topic p) (topic_tree_ w)))) w)
    /\ sink_contents b = [].
Proof.
  intros level packet Hok Hs Hc Hp Hq Hdup Hret Hacc. unfold packet, level.
  rewrite (dispatch_publish (B:=B) config_ handler_ session s p rest w Hs Hc Hp); [|done].
  unfold publish_decision. rewrite Hq, Hret. change (0 =? EXACTLY_ONCE) with false. cbn [andb].
  change (0 =? 1) with false. rewrite Hacc. unfold accept_publish.
  erewrite bind_ok; [|by apply get_session_ok]. cbv zeta. erewrite bind_ok; [|reflexivity].
  erewrite bind_ok; [|by apply (publish_qos0 session s p w Hok (publish_ok_packet p _ Hp) Hq)].
  change (0 =? AT_MOST_ONCE) with true. cbv iota.
  eexists. split; [reflexivity|]. apply sink_new_ok. unfold ByteBuffer.kDefaultCapacity. lia.
Qed.

(** Session 1 subscribes "a" and "#" through its connection 5. *)
Definition with_subscription (f : bytes) (sub : MqttSubscription) (w : World) : World :=
  mkWorld (session_mgr_ w) (MqttTopicTree.subscribe f sub (topic_tree_ w)).1 (retained_store_ w) (alive w) (now w) (trace w).
Definition sample_sub : MqttSubscription := mkSubscription 1 1 0 0 0 None [] [].
Definition subscribed_world : World := with_subscription (str "#") sample_sub (with_subscription (str "a") sample_sub sample_world).

Lemma with_subscription_ok f sub w : broker_ok w -> subscription_ok sub -> broker_ok (with_subscription f sub w).
Proof.
  intros Hok Hs. pose proof (wp_tree_subscribe f sub w (fun _ _ => True) Hok Hs ltac:(done)) as Hw.
  by apply wp_inv in Hw as (u & w' & [= <- <-] & ? & _).
Qed.

Lemma subscribed_world_ok : broker_ok subscribed_world.
Proof.
  assert (subscription_ok sample_sub) by (split; [unfold qos_ok; simpl; lia|done]).
  apply with_subscription_ok; [|done]. apply with_subscription_ok; [apply sample_world_ok|done].
Qed.

Definition qos0_publish : MqttPublishPacket := mkPublish 0 0 0 (str "a") None [1] no_props.

Lemma qos0_publish_plain level : plain_publish qos0_publish level.
Proof.
  split; [|split; [reflexivity|split; [reflexivity|destruct level; vm_compute; congruence]]].
  unfold publish_ok, qos0_publish. cbn [pb_dup pb_qos pb_retain pb_topic pb_packet_id pb_properties].
  split; [lia|]. split; [lia|]. split; [lia|]. split; [done|]. split; [done|]. split; [apply no_props_ok|].
  destruct level; vm_compute; congruence.
Qed.

Lemma qos0_publish_exact_witness :
  let packet := frame PUBLISH 0 (publish_body qos0_publish V5_0) in
  exists b, dispatch (B:=ByteBuffer.t) default_config None 1 (packet ++ []) (zlen packet) subscribed_world
      = Ok (b, with_trace [EvWrite 5 [48; 5; 0; 1; 97; 0; 1]; EvWrite 5 [48; 5; 0; 1; 97; 0; 1]] subscribed_world)
    /\ sink_contents b = [].
Proof.
  exact (qos0_publish_exact (B:=ByteBuffer.t) default_config None 1 sample_session qos0_publish [] subscribed_world
    subscribed_world_ok eq_refl eq_refl (qos0_publish_plain V5_0) eq_refl eq_refl eq_refl eq_refl).
Defined.

(** A publish reaches its subscribers. When the handler accepts a plain publish (and,
    at QoS 2, its identifier is new and the window has room), every subscription that is
    not shared, whose filter matches the topic and whose session is connected, other than
    a no-local one of the publisher, is sent the message on its session's connection, at
    the lower of the two QoS and with an identifier of its own when that is not 0. *)
Theorem publish_reaches_subscriber {B : Type} `{ByteSink B} config_ handler_ session s p rest w f sub s1 conn :
  let level := MqttSession.protocol_level_ s in
  let packet := frame PUBLISH (publish_flags p) (publish_body p level) in
  broker_ok w -> holds_session w session s -> MqttSession.state_ s = connected -> plain_publish p level ->
  (pb_qos p = 0 -> pb_dup p = 0) ->
  (pb_qos p = 2 -> MqttSession.inflight_count s < MqttSession.receive_maximum_ s
     /\ MqttSession.has_inflight_packet_id (default 0 (pb_packet_id p)) s = false) ->
  refused handler_ (fun h => on_publish h s (pb_topic p) (pb_payload p) (pb_qos p) (pb_retain p =? 1)) = false ->
  sub ∈ MqttTopicTree.subs_at (topic_tree_ w) f -> sub_shared_group sub = [] ->
  MqttTopicTree.topic_matches f (split_on chr_slash (pb_topic p)) ->
  excluded session sub = false -> target w sub = Some (s1, conn) ->
  exists id b w', dispatch (B:=B) config_ handler_ session (packet ++ rest) (zlen packet) w = Ok (b, w')
    /\ id_for p sub id /\ EvWrite conn (delivery_bytes p sub s1 id) ∈ trace w'.
Proof. apply dispatch_publish_writes. Qed.

Lemma sample_matches : MqttTopicTree.topic_matches [str "#"] (split_on chr_slash (str "a")).
Proof. split; [apply MqttTopicTree.fm_hash|done]. Qed.

Lemma publish_reaches_subscriber_witness :
  let packet := frame PUBLISH (publish_flags qos2_publish) (publish_body qos2_publish V5_0) in
  exists id b w', dispatch (B:=ByteBuffer.t) default_config None 1 (packet ++ [1]) (zlen packet) subscribed_world = Ok (b, w')
    /\ id_for qos2_publish sample_sub id /\ EvWrite 5 (delivery_bytes qos2_publish sample_sub sample_session id) ∈ trace w'.
Proof.
  apply (publish_reaches_subscriber (B:=ByteBuffer.t) default_config None 1 sample_session qos2_publish [1] subscribed_world
    [str "#"] sample_sub sample_session 5); try reflexivity; try done.
  - apply subscribed_world_ok.
  - apply qos2_publish_plain.
  - vm_compute. left.
  - apply sample_matches.
Defined.

(** the shared-subscription policy delivers to exactly one member of each group: of
    the matches it keeps every subscription without a group, in order, exactly one of each
    group that matches, and none of a group that does not; and it invents none. *)
Theorem shared_policy_exact matches :
  List.filter (group_of []) (apply_shared_subscription_policy matches) = List.filter (group_of []) matches
  /\ (forall name, name <> [] ->
       length (List.filter (group_of name) (apply_shared_subscription_policy matches))
       = if existsb (group_of name) matches then 1%nat else 0%nat)
  /\ (forall sub, sub ∈ apply_shared_subscription_policy matches -> sub ∈ matches).
Proof.
  split; [apply policy_unshared|]. split; [|apply apply_policy_incl].
  intros name Hn. rewrite policy_shared by done. clear Hn.
  induction matches as [|x l IH]; [done|]. cbn [List.filter existsb]. by destruct (group_of name x).
Qed.

(** * Subscribing *)

(** a well-formed SUBSCRIBE is answered by a SUBACK with one code per filter, in order:
    the code with which the filter is refused (128 or more), or the granted QoS, which is
    the lower of the requested and the broker's maximum. The tree then holds exactly the
    granted subscriptions, filed one after the other, and other sessions are untouched but
    for their packet counters. *)
Theorem subscribe_answers {B : Type} `{ByteSink B} config_ handler_ session s p rest w :
  let level := MqttSession.protocol_level_ s in
  let packet := frame SUBSCRIBE 2 (subscribe_body p level) in
  let identifier := subscription_identifier (sb_properties p) in
  0 <= cf_maximum_qos config_ ->
  broker_ok w -> holds_session w session s -> MqttSession.state_ s = connected -> subscribe_packet_ok p level ->
  exists b w' codes,
    dispatch (B:=B) config_ handler_ session (packet ++ rest) (zlen packet) w = Ok (b, w')
    /\ sink_contents b = frame SUBACK 0 (suback_body (sb_packet_id p) codes level no_props)
    /\ broker_ok w' /\ sub_evolves w w'
    /\ Forall2 (fun sub code => exists s1, same_session s s1 /\
         match subscribe_refusal config_ handler_ (is_v5 level) identifier s1 sub with
         | Some refusal => code = refusal /\ 128 <= code
         | None => code = Z.min (so_maximum_qos sub) (cf_maximum_qos config_)
         end) (sb_subscriptions p) codes
    /\ topic_tree_ w' = foldl (after_filter config_ identifier s) (topic_tree_ w) (zip (sb_subscriptions p) codes).
Proof.
  intros level packet identifier Hq Hok Hs Hc Hp.
  destruct (dispatch_subscribe (B:=B) config_ handler_ Hq session s p rest w Hok Hs Hc Hp)
    as (b & w' & codes & E & Hb & Hok' & Hev & Hcodes & Ht).
  exists b, w', codes. split; [exact E|]. split; [exact Hb|]. split; [done|]. split; [done|]. split; [|exact Ht].
  destruct Hp as (_ & _ & _ & Hl & _). clear -Hcodes Hl Hq. induction Hcodes as [|o c os cs (s1 & Hs1 & ->) _ IH]; [done|].
  apply Forall_cons in Hl as [(_ & Ho & _) Hl]. constructor; [|by apply IH]. exists s1. split; [done|].
  unfold code_of. apply same_session_level in Hs1 as (-> & _). fold level identifier.
  destruct (subscribe_refusal _ _ _ _ s1 o) as [c|] eqn:Er.
  - split; [done|]. by apply refusal_code in Er.
  - by apply granted_code.
Qed.

Definition sample_option : MqttSubOption := mkSubOption (str "a/+") 1 0 0 0.
Definition sample_subscribe : MqttSubscribePacket := mkSubscribe 9 [sample_option] no_props.

Lemma sample_subscribe_ok : subscribe_packet_ok sample_subscribe V5_0.
Proof.
  split; [simpl; lia|]. split; [apply no_props_ok|]. split; [done|]. split; [|vm_compute; congruence].
  repeat constructor; simpl; lia.
Qed.

Lemma subscribe_answers_witness :
  let packet := frame SUBSCRIBE 2 (subscribe_body sample_subscribe V5_0) in
  exists b w' codes,
    dispatch (B:=ByteBuffer.t) default_config None 1 (packet ++ []) (zlen packet) sample_world = Ok (b, w')
    /\ sink_contents b = frame SUBACK 0 (suback_body 9 codes V5_0 no_props)
    /\ broker_ok w' /\ sub_evolves sample_world w'
    /\ Forall2 (fun sub code => exists s1, same_session sample_session s1 /\
         match subscribe_refusal default_config None true None s1 sub with
         | Some refusal => code = refusal /\ 128 <= code
         | None => code = Z.min (so_maximum_qos sub) 2
         end) [sample_option] codes
    /\ topic_tree_ w' = foldl (after_filter default_config None sample_session) MqttTopicTree.empty_node (zip [sample_option] codes).
Proof.
  apply (subscribe_answers (B:=ByteBuffer.t) default_config None 1 sample_session sample_subscribe [] sample_world);
    [simpl; lia|apply sample_world_ok|reflexivity|reflexivity|apply sample_subscribe_ok].
Defined.

(** C4: subscribing works end to end. After the broker has handled a SUBSCRIBE for one
    filter that is not shared and not refused, any plain publish that it accepts, from any
    connected client and on any topic that the filter matches, is sent to the subscriber's
    connection (unless the subscriber publishes it itself and asked for no-local). *)
Theorem subscribe_then_publish {B : Type} `{ByteSink B} config_ handler_ session s p o conn rest w :
  let level := MqttSession.protocol_level_ s in
  let packet := frame SUBSCRIBE 2 (subscribe_body p level) in
  let identifier := subscription_identifier (sb_properties p) in
  let sub := tree_subscription config_ session (is_v5 level) identifier o in
  0 <= cf_maximum_qos config_ -> broker_ok w ->
  MqttSessionManager.registered (session_mgr_ w) session s -> MqttSession.state_ s = connected ->
  MqttSession.connection (alive w) s = Some conn ->
  subscribe_packet_ok p level -> sb_subscriptions p = [o] ->
  MqttTopicTree.is_shared_subscription (so_topic_filter o) = false ->
  (forall s1, same_session s s1 -> subscribe_refusal config_ handler_ (is_v5 level) identifier s1 o = None) ->
  exists b w', dispatch (B:=B) config_ handler_ session (packet ++ rest) (zlen packet) w = Ok (b, w')
    /\ sink_contents b = frame SUBACK 0 (suback_body (sb_packet_id p) [granted_qos config_ o] level no_props)
    /\ forall source s' q rest',
      holds_session w' source s' -> MqttSession.state_ s' = connected ->
      plain_publish q (MqttSession.protocol_level_ s') -> (pb_qos q = 0 -> pb_dup q = 0) ->
      (pb_qos q = 2 -> MqttSession.inflight_count s' < MqttSession.receive_maximum_ s'
         /\ MqttSession.has_inflight_packet_id (default 0 (pb_packet_id q)) s' = false) ->
      refused handler_ (fun h => on_publish h s' (pb_topic q) (pb_payload q) (pb_qos q) (pb_retain q =? 1)) = false ->
      MqttTopicTree.topic_matches (split_on chr_slash (so_topic_filter o)) (split_on chr_slash (pb_topic q)) ->
      excluded source sub = false ->
      let publish := frame PUBLISH (publish_flags q) (publish_body q (MqttSession.protocol_level_ s')) in
      exists id b' w'', dispatch (B:=B) config_ handler_ source (publish ++ rest') (zlen publish) w' = Ok (b', w'')
        /\ id_for q sub id /\ EvWrite conn (delivery_bytes q sub s id) ∈ trace w''.
Proof.
  intros level packet identifier sub Hq Hok [Hreg Hs] Hc Hconn Hp Ho Hsh Href.
  destruct (dispatch_subscribe (B:=B) config_ handler_ Hq session s p rest w Hok Hs Hc Hp)
    as (b & w' & codes & E & Hb & Hok' & Hev & Hcodes & Ht).
  rewrite Ho in Hcodes, Ht. apply Forall2_cons_inv_l in Hcodes as (c & cs & (s1 & Hs1 & ->) & Hnil%Forall2_nil_inv_l & ->).
  subst cs. unfold code_of in Hb, Ht. destruct (same_session_level s s1 Hs1) as (Hlev & _).
  rewrite Hlev in Hb, Ht. fold level identifier in Hb, Ht. rewrite (Href s1 Hs1) in Hb, Ht.
  change (default ?x None) with x in *.
  assert (0 <= so_maximum_qos o <= 3) as Hoq.
  { destruct Hp as (_ & _ & _ & Hl & _). rewrite Ho in Hl. by apply Forall_cons in Hl as [(_ & ? & _) _]. }
  destruct (granted_code config_ o Hoq Hq) as [_ Hg].
  assert (Hid : MqttSession.session_id_ s = session) by (by apply (MqttSessionManager.so_ids _ (bo_sessions w Hok)) in Hs as [? _]).
  cbn [zip zip_with foldl] in Ht. unfold after_filter in Ht. cbn [fst snd] in Ht.
  replace (granted_qos config_ o <? 128) with true in Ht by lia. rewrite Hid in Ht. fold level identifier sub in Ht.
  exists b, w'. split; [exact E|]. split; [exact Hb|].
  intros source s' q rest' Hs' Hc' Hpl Hdup H2 Hacc Hm Hex publish.
  assert (Hat : sub ∈ MqttTopicTree.subs_at (topic_tree_ w') (split_on chr_slash (so_topic_filter o))).
  { rewrite Ht, subscribe_at. unfold filed_at, MqttTopicTree.actual_filter. rewrite Hsh, split_topic_levels.
    rewrite decide_True by done. destruct (bo_tree w Hok) as [_ Hone].
    apply (upsert_spec sub (MqttTopicTree.subs_at (topic_tree_ w) (split_on chr_slash (so_topic_filter o))) (Hone _)). by left. }
  destruct (sv_objects w w' Hev session s Hs) as (s2 & Hs2 & Hss2).
  assert (Htar : target w' sub = Some (s2, conn)).
  { unfold target. change (sub_session_id sub) with session. rewrite (sv_sessions w w' Hev), Hreg. cbn.
    rewrite Hs2. cbn. destruct Hss2 as (n & l & ->). destruct (sv_rest w w' Hev) as (_ & -> & _).
    simpl. rewrite Hc. change (state_eqb connected connected) with true. cbv iota.
    unfold MqttSession.connection in *. simpl. by rewrite Hconn. }
  assert (Hgrp : sub_shared_group sub = []).
  { unfold sub, tree_subscription, extract_shared_group. by rewrite Hsh. }
  destruct (dispatch_publish_writes (B:=B) config_ handler_ source s' q rest' w' _ sub s2 conn Hok' Hs' Hc' Hpl Hdup H2 Hacc
    Hat Hgrp Hm Hex Htar) as (id & b' & w'' & E' & Hid' & Hin).
  exists id, b', w''. split; [exact E'|]. split; [done|].
  assert (delivery_bytes q sub s2 id = delivery_bytes q sub s id) as <-; [|done].
  unfold delivery_bytes. by destruct Hss2 as (n & l & ->).
Qed.

Lemma subscribe_then_publish_witness :
  let packet := frame SUBSCRIBE 2 (subscribe_body sample_subscribe V5_0) in
  let sub := tree_subscription default_config 1 true None sample_option in
  exists b w', dispatch (B:=ByteBuffer.t) default_config None 1 (packet ++ []) (zlen packet) sample_world = Ok (b, w')
    /\ sink_contents b = frame SUBACK 0 (suback_body 9 [1] V5_0 no_props)
    /\ forall source s' q rest',
      holds_session w' source s' -> MqttSession.state_ s' = connected ->
      plain_publish q (MqttSession.protocol_level_ s') -> (pb_qos q = 0 -> pb_dup q = 0) ->
      (pb_qos q = 2 -> MqttSession.inflight_count s' < MqttSession.receive_maximum_ s'
         /\ MqttSession.has_inflight_packet_id (default 0 (pb_packet_id q)) s' = false) ->
      false = false ->
      MqttTopicTree.topic_matches (split_on chr_slash (str "a/+")) (split_on chr_slash (pb_topic q)) ->
      excluded source sub = false ->
      let publish := frame PUBLISH (publish_flags q) (publish_body q (MqttSession.protocol_level_ s')) in
      exists id b' w'', dispatch (B:=ByteBuffer.t) default_config None source (publish ++ rest') (zlen publish) w' = Ok (b', w'')
        /\ id_for q sub id /\ EvWrite 5 (delivery_bytes q sub sample_session id) ∈ trace w''.
Proof.
  apply (subscribe_then_publish (B:=ByteBuffer.t) default_config None 1 sample_session sample_subscribe sample_option 5 [] sample_world);
    [simpl; lia|apply sample_world_ok|split; reflexivity|reflexivity|reflexivity|apply sample_subscribe_ok|reflexivity|reflexivity|].
  intros s1 _. reflexivity.
Defined.

(** After a well-formed UNSUBSCRIBE, which is answered by one SUCCESS per filter, the
    session has no subscription left at any of the filters; other sessions' subscriptions,
    and its own at other filters, are what they were. *)
Theorem unsubscribe_stops {B : Type} `{ByteSink B} config_ handler_ session s p rest w :
  let level := MqttSession.protocol_level_ s in
  let packet := frame UNSUBSCRIBE 2 (unsubscribe_body p level) in
  broker_ok w -> holds_session w session s -> MqttSession.state_ s = connected -> unsubscribe_packet_ok p level ->
  exists b w',
    dispatch (B:=B) config_ handler_ session (packet ++ rest) (zlen packet) w = Ok (b, w')
    /\ sink_contents b = frame UNSUBACK 0
         (unsuback_body (us_packet_id p) (map (fun _ => UnsubackReason.SUCCESS) (us_topic_filters p)) level no_props)
    /\ broker_ok w'
    /\ forall f sub, sub ∈ MqttTopicTree.subs_at (topic_tree_ w') f <->
         sub ∈ MqttTopicTree.subs_at (topic_tree_ w) f
         /\ ~ (sub_session_id sub = session /\ f ∈ map filed_at (us_topic_filters p)).
Proof.
  intros level packet Hok Hs Hc Hp.
  destruct (dispatch_unsubscribe (B:=B) config_ handler_ session s p rest w Hok Hs Hc Hp)
    as (b & w' & E & Hb & Hok' & _ & Ht).
  exists b, w'. split; [exact E|]. split; [exact Hb|]. split; [done|]. rewrite Ht. intros f sub.
  apply unsubscribe_all_at. apply (bo_tree w Hok).
Qed.

Definition sample_unsubscribe : MqttUnsubscribePacket := mkUnsubscribe 3 [str "a"] no_props.

Lemma unsubscribe_stops_witness :
  let packet := frame UNSUBSCRIBE 2 (unsubscribe_body sample_unsubscribe V5_0) in
  exists b w',
    dispatch (B:=ByteBuffer.t) default_config None 1 (packet ++ []) (zlen packet) subscribed_world = Ok (b, w')
    /\ sink_contents b = frame UNSUBACK 0 (unsuback_body 3 [0] V5_0 no_props)
    /\ broker_ok w'
    /\ forall f sub, sub ∈ MqttTopicTree.subs_at (topic_tree_ w') f <->
         sub ∈ MqttTopicTree.subs_at (topic_tree_ subscribed_world) f
         /\ ~ (sub_session_id sub = 1 /\ f ∈ map filed_at [str "a"]).
Proof.
  apply (unsubscribe_stops (B:=ByteBuffer.t) default_config None 1 sample_session sample_unsubscribe [] subscribed_world);
    [apply subscribed_world_ok|reflexivity|reflexivity|].
  split; [simpl; lia|]. split; [apply no_props_ok|]. split; [done|]. split; [repeat constructor; done|vm_compute; congruence].
Defined.

(** * Being accepted, and leaving *)

(** C31: a well-formed CONNECT with a client id, from a registered session that is not yet
    connected, that needs no user name it does not carry and that the handler accepts, is
    answered CONNACK with code 0. The session is then the connected one that the packet
    describes and the one the client id leads to; the previous holder of the client id, if
    it is online or the client starts clean, is disconnecting and its connection is closed;
    no other session object changes. A clean start never reports a session present. *)
Theorem connect_accepted {B : Type} `{ByteSink B} config_ handler_ session s p rest w :
  let packet := frame CONNECT 0 (connect_body p) in
  let cid := cp_client_id p in
  broker_ok w -> MqttSessionManager.registered (session_mgr_ w) session s -> MqttSession.state_ s <> connected ->
  connect_ok p -> zlen (connect_body p) <= MESSAGE_MAX -> cid <> [] ->
  cp_protocol_level p ∈ cf_supported_versions config_ ->
  cf_require_authentication config_ && bool_decide (connect_username p = []) = false ->
  refused handler_ (fun h => on_connect h s cid (connect_username p) (connect_password p)) = false ->
  exists holder m b w' present,
    MqttSessionManager.find_by_client_id cid (session_mgr_ w) = Ok (holder, m)
    /\ dispatch (B:=B) config_ handler_ session (packet ++ rest) (zlen packet) w = Ok (b, w')
    /\ sink_contents b = connack_answer config_ p cid present
    /\ 0 <= present <= 1 /\ (clean_start_of p = true -> present = 0)
    /\ broker_ok w'
    /\ MqttSession.state_ (connected_session config_ p cid s) = connected
    /\ MqttSessionManager.objects (session_mgr_ w')
       = <[session := connected_session config_ p cid s]> (displace session holder (clean_start_of p) w)
    /\ MqttSessionManager.find_by_client_id cid (session_mgr_ w') = Ok (Some session, session_mgr_ w')
    /\ forall loc s1 conn, displaced session holder (clean_start_of p) w = Some (loc, s1) ->
         MqttSession.connection (alive w) s1 = Some conn -> EvClose conn ∈ trace w'.
Proof.
  intros packet cid Hok [Hreg Hs] Hst Hp Hlen Hcid Hv Hauth Hacc.
  assert (str_ok cid) as Hcs by apply Hp.
  destruct (connect_client_effect (B:=B) config_ handler_ session p cid s w Hok Hs (conj Hp Hlen) Hcs Hauth Hacc)
    as (r & m & b & w' & present & Em & E & Hb & Hpr & Hpc & Hok' & Ho & Hse & Hi & Hcl).
  exists r, m, b, w', present. split; [done|]. split.
  { unfold packet. rewrite (dispatch_connect (B:=B) config_ handler_ session s) by (done || unfold MESSAGE_MAX, MQTT_MAX_REMAINING_LENGTH in *; lia).
    by rewrite handle_connect_named. }
  split; [done|]. split; [done|]. split; [done|]. split; [done|]. split; [apply connected_session_state|].
  split; [done|]. split; [|done].
  unfold MqttSessionManager.find_by_client_id, MqttSessionManager.indexed_client_id. rewrite (Hi Hcid), Hse, Hreg.
  rewrite (MqttSessionManager.deref_ok session (connected_session config_ p cid s)) by (rewrite Ho; apply lookup_insert_eq).
  mstep. destruct (connected_session_state config_ p cid s) as [_ ->]. by rewrite bool_decide_eq_true_2.
Qed.

(** Session 1 holds the client id "c"; session 2, on connection 6, is connecting. *)
Definition rival_session : MqttSession.t := MqttSession.set_state connecting (MqttSession.create 2 0 (Some 6)).
Definition rival_world : World :=
  mkWorld (MqttSessionManager.mk
      {[1 := MqttSession.set_client_id (str "c") sample_session; 2 := rival_session]} 3 [(1, 1); (2, 2)] [])
    MqttTopicTree.empty_node [] {[5; 6]} 0 [].
Definition rival_connect : MqttConnectPacket :=
  mkConnect V5_0 2 60 (str "c") None None None None no_props no_props.

Lemma rival_objects loc s : MqttSessionManager.objects (session_mgr_ rival_world) !! loc = Some s ->
  loc = 1 /\ s = MqttSession.set_client_id (str "c") sample_session \/ loc = 2 /\ s = rival_session.
Proof.
  simpl. intros [[<- <-]|[_ Hl]]%lookup_insert_Some; [by left|].
  apply lookup_singleton_Some in Hl as [<- <-]. by right.
Qed.

Lemma rival_world_ok : broker_ok rival_world.
Proof.
  pose proof initial_ok as [_ _ Ht Hsub Hst Hr]. constructor; try done.
  - constructor.
    + simpl. repeat constructor.
    + intros sid loc. simpl. rewrite !elem_of_cons. intros [[= -> ->]|[[= -> ->]|[]%not_elem_of_nil]]; vm_compute; eauto.
    + intros loc s Hl. apply rival_objects in Hl as [[-> ->]|[-> ->]]; by vm_compute.
  - intros loc s Hl. apply rival_objects in Hl as [[-> ->]|[-> ->]];
      (constructor; simpl; [unfold MqttSession.packet_id_ok; lia|done|by intros ?? ?%not_elem_of_nil]).
Qed.

Lemma rival_connect_ok : connect_ok rival_connect.
Proof.
  assert (Hn : forall b, b = false -> present b (@None bytes)).
  { intros b ->. split; [done|]. by intros [? ?]. }
  unfold connect_ok, rival_connect. simpl. split; [unfold is_u8; lia|]. split; [by apply connect_flags_spec|].
  split; [unfold is_u16; lia|]. split; [apply (no_props_ok V5_0)|]. split; [done|].
  split; [done|]. repeat (split; [by apply Hn|]).
  repeat (apply Forall_cons; split; [done|]). done.
Qed.

Lemma connect_accepted_witness :
  let packet := frame CONNECT 0 (connect_body rival_connect) in
  exists holder m b w' present,
    MqttSessionManager.find_by_client_id (str "c") (session_mgr_ rival_world) = Ok (holder, m)
    /\ dispatch (B:=ByteBuffer.t) default_config None 2 (packet ++ []) (zlen packet) rival_world = Ok (b, w')
    /\ sink_contents b = connack_answer default_config rival_connect (str "c") present
    /\ 0 <= present <= 1 /\ (true = true -> present = 0)
    /\ broker_ok w'
    /\ MqttSession.state_ (connected_session default_config rival_connect (str "c") rival_session) = connected
    /\ MqttSessionManager.objects (session_mgr_ w')
       = <[2 := connected_session default_config rival_connect (str "c") rival_session]> (displace 2 holder true rival_world)
    /\ MqttSessionManager.find_by_client_id (str "c") (session_mgr_ w') = Ok (Some 2, session_mgr_ w')
    /\ forall loc s1 conn, displaced 2 holder true rival_world = Some (loc, s1) ->
         MqttSession.connection (alive rival_world) s1 = Some conn -> EvClose conn ∈ trace w'.
Proof.
  apply (connect_accepted (B:=ByteBuffer.t) default_config None 2 rival_session rival_connect [] rival_world);
    [apply rival_world_ok|split; reflexivity|discriminate|apply rival_connect_ok|vm_compute; congruence|discriminate| |reflexivity|reflexivity].
  right. left.
Defined.

(** what is left of a session whose connection has closed. It is disconnected and
    keeps nothing else but its packet counter's progress; unless its will is delayed the
    will is cleared, after it has been retained if it asks for that and sent to every
    connected subscriber that the policy selects; and if its expiry interval is 0, its
    subscriptions, and only they, are gone from the tree. *)
Theorem session_departure {B : Type} `{ByteSink B} handler_ session s w :
  let delayed := will_delayed (now w) s in
  broker_ok w -> holds_session w session s ->
  exists w' n, on_session_closed (B:=B) handler_ session w = Ok (tt, w') /\ broker_ok w'
    /\ holds_session w' session (MqttSession.set_state disconnected
         (MqttSession.set_will (if delayed then MqttSession.will_message_ s else None)
           (MqttSession.set_next_packet_id n s)))
    /\ (forall f sub, sub ∈ MqttTopicTree.subs_at (topic_tree_ w') f <->
         sub ∈ MqttTopicTree.subs_at (topic_tree_ w) f
         /\ ~ (MqttSession.session_expiry_interval_ s = 0 /\ sub_session_id sub = session))
    /\ retained_store_ w' = (if delayed then retained_store_ w else store_after_will w s)
    /\ forall will sub s1 conn, delayed = false -> MqttSession.will_message_ s = Some will ->
         let pkt := will_packet will (is_v5 (MqttSession.protocol_level_ s)) in
         sub ∈ apply_shared_subscription_policy (MqttTopicTree.match_topic (will_topic will) (topic_tree_ w)) ->
         excluded session sub = false -> target w sub = Some (s1, conn) ->
         exists id, id_for pkt sub id /\ EvWrite conn (delivery_bytes pkt sub s1 id) ∈ trace w'.
Proof.
  intros delayed Hok Hs.
  destruct (on_session_closed_effect (B:=B) handler_ session s w Hok Hs) as (w' & n & E & Hok' & Hs' & Ht & Hr & _ & Hd).
  exists w', n. split; [done|]. split; [done|]. split; [done|]. split; [|done].
  intros f sub. rewrite Ht. unfold tree_after_departure. destruct (MqttSession.session_expiry_interval_ s =? 0) eqn:Ee.
  - rewrite remove_all_at, elem_of_filter. assert (MqttSession.session_expiry_interval_ s = 0) as -> by lia.
    unfold not_of. destruct (sub_session_id sub =? session) eqn:E1; intuition (lia || congruence).
  - split; [|tauto]. intros Hin. split; [done|]. intros [? _]. lia.
Qed.

(** Session 1 leaves a retained will on "a", to which it is subscribed. *)
Definition sample_will : MqttWillMessage := mkWill (str "a") [9] 0 true None None None None None None [].
Definition departing_session : MqttSession.t := MqttSession.set_will (Some sample_will) sample_session.
Definition departing_world : World :=
  with_objects (<[1 := departing_session]> (MqttSessionManager.objects (session_mgr_ subscribed_world))) subscribed_world.

Lemma departing_world_ok : broker_ok departing_world.
Proof.
  assert (live subscribed_world 1) as Hl by (vm_compute; eauto).
  assert (Hf : forall s, session_ok s -> session_ok (MqttSession.set_will (Some sample_will) s)
    /\ MqttSession.session_id_ (MqttSession.set_will (Some sample_will) s) = MqttSession.session_id_ s).
  { intros s []. split; [constructor; [done| |done]|done]. simpl. intros ? [= <-].
    split; [done|]. split; [unfold qos_ok; simpl; lia|]. split; [done|]. vm_compute. congruence. }
  pose proof (wp_modify 1 (MqttSession.set_will (Some sample_will)) subscribed_world (fun _ _ => True)
    subscribed_world_ok Hl Hf ltac:(done)) as Hw.
  apply wp_inv in Hw as (u & w' & E & Hok & _). by injection E as _ <-.
Qed.

Lemma session_departure_witness :
  exists w' n, on_session_closed (B:=ByteBuffer.t) None 1 departing_world = Ok (tt, w') /\ broker_ok w'
    /\ holds_session w' 1 (MqttSession.set_state disconnected
         (MqttSession.set_will None (MqttSession.set_next_packet_id n departing_session)))
    /\ (forall f sub, sub ∈ MqttTopicTree.subs_at (topic_tree_ w') f <->
         sub ∈ MqttTopicTree.subs_at (topic_tree_ departing_world) f /\ ~ (0 = 0 /\ sub_session_id sub = 1))
    /\ retained_store_ w' = [(str "a", mkRetained (str "a") [9] 0 0 None None None [])]
    /\ forall will sub s1 conn, false = false -> Some sample_will = Some will ->
         let pkt := will_packet will true in
         sub ∈ apply_shared_subscription_policy (MqttTopicTree.match_topic (will_topic will) (topic_tree_ departing_world)) ->
         excluded 1 sub = false -> target departing_world sub = Some (s1, conn) ->
         exists id, id_for pkt sub id /\ EvWrite conn (delivery_bytes pkt sub s1 id) ∈ trace w'.
Proof. exact (session_departure (B:=ByteBuffer.t) None 1 departing_session departing_world departing_world_ok eq_refl). Defined.
