(* ===== verification/CodecTheorems.v ===== *)
(** What the MQTT codec promises: packets survive the wire, decoders stay inside their
    input and accept only well-formed packets, and the framing of the server and of the
    dispatcher agree. *)
From S2P Require Import Prelude Endian ByteBuffer ByteBufferFacts MqttProtocol MqttProperties MqttPropertiesFacts MqttCodec MqttCodecFacts.
From S2P Require Import MqttDecodeSound MqttDispatcher MqttDispatcherFacts MqttDeliveryFacts.

(** * What the byte buffer promises: it refines a queue of bytes, and its integers travel
    in network byte order on hosts of either byte order. *)
Section Buffer.
Import ByteBuffer.







Lemma read_trivial_ok n b : wf b -> 0 <= n ->
  if zlen (contents b) <? n then read_trivial n b = Reject
  else exists b', read_trivial n b = Ok (take (Z.to_nat n) (contents b), b')
         /\ wf b' /\ contents b' = drop (Z.to_nat n) (contents b).
Proof.
  intros Hwf Hn. rewrite (zlen_contents b) by done. unfold read_trivial. case_if; [done|].
  destruct (split_eq b Hwf) as (p & s & E). pose proof (zlen_contents b Hwf) as Hc.
  assert (exists c1 c2, contents b = c1 ++ c2 /\ length c1 = Z.to_nat n) as (c1 & c2 & Ec & Hl).
  { exists (take (Z.to_nat n) (contents b)), (drop (Z.to_nat n) (contents b)). rewrite take_drop.
    split; [done|]. unfold zlen in *. rewrite length_take. lia. }
  rewrite Ec in *. rewrite <- Hl, take_app_length, drop_app_length. rewrite E. cbn [storage_ read_offset_ write_offset_].
  assert (n = zlen c1) as -> by (unfold zlen; lia).
  rewrite <- app_assoc, rd_range_app. mstep. eexists. split; [done|].
  rewrite (app_assoc p). replace (zlen p + zlen c1) with (zlen (p ++ c1)) by zlia.
  replace (zlen p + zlen (c1 ++ c2)) with (zlen (p ++ c1) + zlen c2) by zlia.
  split; [apply contents_wf|apply contents_of].
Qed.



(** * Theorems *)



(** The eight integer types of the buffer: four widths, unsigned and signed. *)
Inductive width : Type := W8 | W16 | W32 | W64.
Inductive int_type : Type := Unsigned (w : width) | Signed (w : width).

Definition width_bytes (w : width) : nat := match w with W8 => 1 | W16 => 2 | W32 => 4 | W64 => 8 end.
Definition type_bytes (ty : int_type) : nat := match ty with Unsigned w | Signed w => width_bytes w end.

(** The values of a type. *)
Definition in_type (ty : int_type) (v : Z) : Prop :=
  match ty with
  | Unsigned w => 0 <= v < 2 ^ (8 * Z.of_nat (width_bytes w))
  | Signed w => - 2 ^ (8 * Z.of_nat (width_bytes w) - 1) <= v < 2 ^ (8 * Z.of_nat (width_bytes w) - 1)
  end.

Definition append_int (little : bool) (ty : int_type) : Z -> t -> outcome t :=
  match ty with
  | Unsigned W8 => append_u8 little | Unsigned W16 => append_u16 little
  | Unsigned W32 => append_u32 little | Unsigned W64 => append_u64 little
  | Signed W8 => append_i8 little | Signed W16 => append_i16 little
  | Signed W32 => append_i32 little | Signed W64 => append_i64 little
  end.
Definition read_int (little : bool) (ty : int_type) : t -> outcome (Z * t) :=
  match ty with
  | Unsigned W8 => read_u8 little | Unsigned W16 => read_u16 little
  | Unsigned W32 => read_u32 little | Unsigned W64 => read_u64 little
  | Signed W8 => read_i8 little | Signed W16 => read_i16 little
  | Signed W32 => read_i32 little | Signed W64 => read_i64 little
  end.

(** An integer as [n] bytes in two's complement, most significant first. *)
Definition big_endian (n : nat) (v : Z) : bytes := rev (le_bytes n v).

(** The network form of an unsigned integer in the memory of a host. *)
Lemma network_bytes little w v :
  host_bytes little (width_bytes w)
    match w with
    | W8 => v | W16 => hostToNetwork16 little v | W32 => hostToNetwork32 little v | W64 => hostToNetwork64 little v
    end = big_endian (width_bytes w) v.
Proof.
  unfold big_endian, host_bytes, hostToNetwork16, hostToNetwork32, hostToNetwork64, htons, htonl, htonll, isLittleEndian,
    byteSwap16, byteSwap32, byteSwap64.
  destruct w; cbn [width_bytes]; destruct little; by rewrite ?swap_bytes.
Qed.

Lemma big_endian_mod n v : big_endian n (v mod 256 ^ Z.of_nat n) = big_endian n v.
Proof. unfold big_endian. by rewrite le_bytes_mod. Qed.

(** What is appended is the network form of the integer. *)
Lemma append_int_append little ty v b : append_int little ty v b = append (big_endian (type_bytes ty) v) b.
Proof.
  destruct ty as [w|w]; cbn [type_bytes].
  - by rewrite <- (network_bytes little w v); destruct w.
  - destruct w; cbn [append_int].
    + by rewrite <- (network_bytes little W8 v).
    + by rewrite <- big_endian_mod, <- (network_bytes little W16).
    + by rewrite <- big_endian_mod, <- (network_bytes little W32).
    + by rewrite <- big_endian_mod, <- (network_bytes little W64).
Qed.

Lemma outcome_bind_eq {A C} (m : outcome A) (f : A -> outcome C) a : m = Ok a -> (m ≫= f) = f a.
Proof. by intros ->. Qed.

(** The host's value of the network form, converted back. *)
Lemma network_value little w v : 0 <= v < 256 ^ Z.of_nat (width_bytes w) ->
  let x := host_value little (big_endian (width_bytes w) v) in
  0 <= x < 256 ^ Z.of_nat (width_bytes w)
  /\ match w with
     | W8 => x | W16 => networkToHost16 little x | W32 => networkToHost32 little x | W64 => networkToHost64 little x
     end = v.
Proof.
  intros Hv x. unfold x, host_value, big_endian. split.
  - destruct little; [|rewrite rev_involutive, le_bytes_value; done].
    pose proof (le_value_range (rev (le_bytes (width_bytes w) v))) as Hr.
    rewrite length_rev, le_bytes_length in Hr. apply Hr, Forall_rev, le_bytes_u8.
  - unfold networkToHost16, ntohs, byteSwap16, networkToHost32, ntohl, byteSwap32, networkToHost64, ntohll, htonll,
      isLittleEndian, byteSwap64.
    destruct little; [|rewrite rev_involutive, le_bytes_value by done; by destruct w].
    destruct w; cbn [width_bytes] in *; try (by apply swap_involutive). by apply (le_bytes_value 1).
Qed.

(** What is read is the integer whose network form the bytes are. *)
Lemma read_int_value little ty v b b' : in_type ty v ->
  read_trivial (Z.of_nat (type_bytes ty)) b = Ok (big_endian (type_bytes ty) v, b') ->
  read_int little ty b = Ok (v, b').
Proof.
  intros Hv Hr. destruct ty as [w|w]; cbn [type_bytes in_type] in *.
  - destruct (network_value little w v) as [_ Hx]; [by destruct w|].
    destruct w; cbn [read_int width_bytes] in *; unfold read_u8, read_u16, read_u32, read_u64;
      (erewrite outcome_bind_eq; [|exact Hr]); mstep; by rewrite Hx.
  - rewrite <- big_endian_mod in Hr. set (u := v mod _) in Hr.
    assert (0 <= u < 256 ^ Z.of_nat (width_bytes w)) as Hu by (apply Z.mod_pos_bound, Z.pow_pos_nonneg; lia).
    destruct (network_value little w u Hu) as [Hx Hxu]. cbv zeta in *. set (x := host_value _ _) in *.
    assert (signed (8 * Z.of_nat (width_bytes w)) u = v) as Hs.
    { unfold u. destruct w; cbn [width_bytes] in *; by apply signed_id. }
    destruct w; cbn [read_int width_bytes] in *; unfold read_i8, read_i16, read_i32, read_i64;
      (erewrite outcome_bind_eq; [|exact Hr]); mstep; fold x; (etrans; [|by rewrite <- Hs]).
    + by rewrite Hxu.
    + unfold u16. change 65536 with (2 ^ 16). rewrite signed_mod by done. by rewrite Hxu.
    + unfold u32. change 4294967296 with (2 ^ 32). rewrite signed_mod by done. by rewrite Hxu.
    + unfold u64. change 18446744073709551616 with (2 ^ 64). rewrite signed_mod by done. by rewrite Hxu.
Qed.

(** An integer of any of the eight types, signed ones included, appended to the
    buffer of one host and read from the buffer of another, whatever their byte orders, is
    the same integer; the bytes between them are its network form. *)
Theorem integer_exchange little1 little2 ty v b b2 rest :
  wf b -> wf b2 -> in_type ty v ->
  contents b2 = big_endian (type_bytes ty) v ++ rest ->
  (exists b', append_int little1 ty v b = Ok b' /\ wf b' /\ contents b' = contents b ++ big_endian (type_bytes ty) v)
  /\ exists b2', read_int little2 ty b2 = Ok (v, b2') /\ wf b2' /\ contents b2' = rest.
Proof.
  intros Hwf Hwf2 Hv Hc. split.
  - rewrite append_int_append. destruct (append_holds (big_endian (type_bytes ty) v) b Hwf) as (b' & ? & ? & ? & _). eauto.
  - assert (length (big_endian (type_bytes ty) v) = type_bytes ty) as Hl
      by (unfold big_endian; by rewrite length_rev, le_bytes_length).
    pose proof (read_trivial_ok (Z.of_nat (type_bytes ty)) b2 Hwf2 ltac:(lia)) as Hr.
    assert (Ht : take (type_bytes ty) (contents b2) = big_endian (type_bytes ty) v
      /\ drop (type_bytes ty) (contents b2) = rest).
    { rewrite Hc. split; [rewrite take_app_length' by done|rewrite drop_app_length' by done]; done. }
    rewrite Nat2Z.id in Hr. destruct Ht as [Ht Hd]. rewrite Ht, Hd in Hr.
    destruct (_ <? _) eqn:E; [rewrite Hc in E; unfold zlen in E; rewrite length_app in E; lia|].
    destruct Hr as (b' & Hr & Hwf' & Hc'). exists b'. split; [|done]. by apply read_int_value.
Qed.

Lemma integer_exchange_witness :
  (exists b', append_int true (Signed W16) (-2) default = Ok b' /\ wf b' /\ contents b' = contents default ++ [255; 254])
  /\ exists b2', read_int false (Signed W16) (mk [255; 254; 7] 0 3) = Ok (-2, b2') /\ wf b2' /\ contents b2' = [7].
Proof.
  apply (integer_exchange true false (Signed W16) (-2) default (mk [255; 254; 7] 0 3) [7]);
    [apply with_capacity_wf; done|unfold wf; vm_compute; intuition congruence|vm_compute; intuition congruence|reflexivity].
Defined.
End Buffer.

Import MqttProperties MqttCodec MqttDispatcher.

(** The witnesses run on the byte buffer of a little-endian host. *)
#[local] Instance host_sink : ByteSink ByteBuffer.t := ByteBuffer_sink true.

Ltac crunch := vm_compute; intuition congruence.

(** * Framing *)

(** [try_decode] finds a packet at the front of the received bytes exactly when all
    of it has arrived, whatever follows, and then reports its type and its length. *)
Theorem try_decode_exact t f body rest len :
  t <> RESERVED -> packet_flags f -> zlen body <= MQTT_MAX_REMAINING_LENGTH ->
  try_decode (frame t f body ++ rest) len
  = if zlen (frame t f body) <=? len then Ok (t, zlen (frame t f body)) else Reject.
Proof. intros. by apply try_decode_frame. Qed.

Lemma try_decode_exact_witness :
  try_decode (frame PINGREQ 0 [] ++ [1]) 3 = Ok (PINGREQ, 2).
Proof. apply (try_decode_exact PINGREQ 0 [] [1] 3); [done|unfold packet_flags; lia|crunch]. Defined.

(** The dispatcher parses the length of a packet a second time; on every packet that
    [try_decode] has accepted the two parses agree, and reading stays inside it. *)
Theorem parse_remaining_length_agrees data n t len :
  try_decode data n = Ok (t, len) ->
  exists h, parse_remaining_length data len = Ok (h, len - h) /\ 2 <= h <= len /\ len <= n.
Proof.
  intros E. destruct (parse_remaining_length_framed data n t len E) as (h & Hp & Hh).
  exists h. split; [done|]. split; [done|].
  apply try_decode_inv in E as [? _]. lia.
Qed.

Lemma parse_remaining_length_agrees_witness :
  exists h, parse_remaining_length [192; 0; 7] 2 = Ok (h, 2 - h) /\ 2 <= h <= 2 /\ 2 <= 3.
Proof. apply (parse_remaining_length_agrees [192; 0; 7] 3 PINGREQ 2). reflexivity. Defined.

(** Over bytes that all have the continuation bit the loop runs to the end of them. *)
Lemma parse_loop_continued n l pre value mult : Forall (fun b => 128 <= b < 256) l -> (length l < n)%nat ->
  exists v, parse_remaining_length_loop n (pre ++ l) (zlen pre + zlen l) (zlen pre - 1) value mult
            = Ok (v, zlen pre + zlen l - 1).
Proof.
  revert n pre value mult; induction l as [|b l IH]; intros n pre value mult Hb Hn;
    (destruct n as [|n]; [simpl in Hn; lia|]); cbn [parse_remaining_length_loop].
  - case_if; [zlia|]. exists value. do 2 f_equal. zlia.
  - apply Forall_cons in Hb as [Hb Hl]. cbn [length] in Hn. case_if; [|zlia].
    replace (1 + (zlen pre - 1)) with (zlen pre) by lia. rewrite rd_app. mstep.
    rewrite test_high_bit by lia. case_if; [lia|].
    destruct (IH n (pre ++ [b]) (u32 (value + Z.land b 127 * mult)) (u32 (mult * 128)) Hl) as (v & Hv); [lia|].
    exists v. rewrite <- app_assoc in Hv. rewrite zlen_app, !zlen_cons in *. change (zlen []) with 0 in Hv.
    replace (zlen pre - 1 + 1) with (zlen pre + (1 + 0) - 1) by lia.
    replace (zlen pre + (1 + zlen l)) with (zlen pre + (1 + 0) + zlen l) by lia. exact Hv.
Qed.

(** On a truncated header, where every length byte present has its continuation bit
    set, [parse_remaining_length] reads the byte after the end of its input. *)
Theorem parse_remaining_length_overread first l :
  (1 <= length l <= 3)%nat -> Forall (fun b => 128 <= b < 256) l ->
  parse_remaining_length (first :: l) (1 + zlen l) = Fault.
Proof.
  intros Hl Hb. destruct (parse_loop_continued 4 l [first] 0 1 Hb) as (v & Hv); [lia|].
  change (zlen [first]) with 1 in Hv. change (1 - 1) with 0 in Hv. cbn [app] in Hv.
  assert (zlen l = Z.of_nat (length l)) as Hz by done.
  unfold parse_remaining_length. case_if; [lia|]. rewrite Hv. mstep. unfold MQTT_VARIABLE_BYTE_INT_MAX_SIZE.
  case_if; [lia|]. assert (rd (first :: l) (1 + (1 + zlen l - 1)) = Fault) as ->; [|done].
  unfold rd. case_if; [done|]. rewrite lookup_ge_None_2; [done|]. cbn [length]. lia.
Qed.

Lemma parse_remaining_length_overread_witness : parse_remaining_length [48; 128] 2 = Fault.
Proof. apply (parse_remaining_length_overread 48 [128]); [simpl; lia|repeat constructor; lia]. Defined.

(** A packet whose body is longer than a remaining length can say, but shorter than
    4 GiB, makes the encoder write past its four-byte array. *)
Theorem encode_publish_overflow {B : Type} `{ByteSink B} p level :
  0 <= pb_dup p <= 1 -> 0 <= pb_qos p <= 3 -> 0 <= pb_retain p <= 1 -> ids_u32 (pb_properties p) ->
  MQTT_MAX_REMAINING_LENGTH < zlen (publish_body p level) < 4294967296 ->
  encode_publish (B:=B) p level = Fault.
Proof.
  intros Hd Hq Hr Hids [Hlo Hhi]. unfold encode_publish. rewrite publish_flags_eq by done.
  eapply finish_packet_fault; [exact Hlo|unfold is_u32; zlen_pos; lia|by apply encodes_publish_body].
Qed.

Lemma encode_publish_overflow_witness :
  let p := mkPublish 0 0 0 [65] None (replicate (Z.to_nat 268435456) 0) no_props in
  encode_publish (B:=ByteBuffer.t) p V3_1_1 = Fault.
Proof.
  apply encode_publish_overflow; [simpl; lia..|done|].
  unfold publish_body, MQTT_MAX_REMAINING_LENGTH. rewrite !zlen_app, zlen_prefixed.
  cbn [pb_topic pb_qos pb_payload pb_properties enc_level_props is_v5]. unfold zlen.
  rewrite length_replicate, Z2Nat.id by lia. change (0 =? AT_MOST_ONCE) with true. cbn [length]. lia.
Defined.

(** * Round trips *)

(** C36: a PUBLISH survives the wire. The encoder produces it; the receiver's framing
    finds it at the front of whatever has arrived; the dispatcher's header parse and the
    decoder, given the flags of the first byte, return the packet itself. *)
Theorem publish_roundtrip {B : Type} `{ByteSink B} p level rest n :
  publish_ok p level ->
  exists b h, encode_publish (B:=B) p level = Ok b /\
    let x := sink_contents b in
    (zlen x <= n -> try_decode (x ++ rest) n = Ok (PUBLISH, zlen x))
    /\ parse_remaining_length (x ++ rest) (zlen x) = Ok (h, zlen x - h)
    /\ decode_publish (drop (Z.to_nat h) (x ++ rest)) (zlen x - h) (Z.land (hd 0 x) 15) level = Ok p.
Proof.
  intros Hp. pose proof Hp as (Hd & Hq & Hr & _ & _ & Hl & Hsize).
  destruct (encode_publish_frame (B:=B) p level) as (b & E & _ & Hc); [done|lia|done| |done|].
  { by eapply level_props_ids. }
  exists b, (1 + zlen (vbi 5 (zlen (publish_body p level)))). split; [done|]. rewrite Hc. cbv zeta.
  assert (Hf : packet_flags (publish_flags p)) by (unfold packet_flags, publish_flags; lia).
  replace (zlen (frame PUBLISH (publish_flags p) (publish_body p level))
           - (1 + zlen (vbi 5 (zlen (publish_body p level))))) with (zlen (publish_body p level))
    by (rewrite zlen_frame; lia).
  split; [|split].
  - intros Hn. rewrite try_decode_frame by done. by case_if; [|lia].
  - by apply parse_remaining_length_frame.
  - rewrite drop_frame. cbn [hd frame]. rewrite frame_flags by done. by apply decode_publish_body.
Qed.

Definition sample_publish : MqttPublishPacket := mkPublish 1 1 0 [97; 47; 98] (Some 7) [1; 2; 3] no_props.

Lemma sample_publish_ok : publish_ok sample_publish V5_0.
Proof.
  unfold publish_ok, sample_publish. cbn [pb_dup pb_qos pb_retain pb_topic pb_packet_id pb_properties].
  split; [lia|]. split; [lia|]. split; [lia|]. split; [done|].
  split; [exists 7; split; [done|lia]|]. split; [apply no_props_ok|]. vm_compute. congruence.
Qed.

Lemma publish_roundtrip_witness :
  exists b h, encode_publish (B:=ByteBuffer.t) sample_publish V5_0 = Ok b /\
    let x := sink_contents b in
    (zlen x <= 20 -> try_decode (x ++ [9]) 20 = Ok (PUBLISH, zlen x))
    /\ parse_remaining_length (x ++ [9]) (zlen x) = Ok (h, zlen x - h)
    /\ decode_publish (drop (Z.to_nat h) (x ++ [9])) (zlen x - h) (Z.land (hd 0 x) 15) V5_0 = Ok sample_publish.
Proof. exact (publish_roundtrip sample_publish V5_0 [9] 20 sample_publish_ok). Defined.

(** Acknowledgements survive the wire: what each of the four encoders writes for a
    16-bit identifier, a reason and properties, the matching decoder reads back; an MQTT
    3.1.1 acknowledgement carries the identifier only. *)
Theorem ack_roundtrip {B : Type} `{ByteSink B} pid reason level p :
  is_u16 pid -> is_u8 reason -> level_props_ok level p -> (level = V3_1_1 -> reason = 0) ->
  zlen (ack_body pid reason level p) <= MQTT_MAX_REMAINING_LENGTH ->
  let survives (enc : Z -> Z -> ProtocolLevel -> MqttProperties -> outcome B) dec :=
    exists b h, enc pid reason level p = Ok b /\
      dec (drop h (sink_contents b)) (zlen (sink_contents b) - Z.of_nat h) level = Ok (mkAck pid reason p) in
  survives encode_puback decode_puback /\ survives encode_pubrec decode_pubrec
  /\ survives encode_pubrel decode_pubrel /\ survives encode_pubcomp decode_pubcomp.
Proof.
  intros Hpid Hr Hp H3 Hsize survives.
  assert (Hall : forall t f, packet_flags f ->
    survives (encode_simple_ack t f) decode_simple_ack).
  { intros t f Hf. destruct (encode_simple_ack_frame (B:=B) t f pid reason level p) as (b & E & _ & Hc);
      [done|by eapply level_props_ids|done|].
    exists b, (S (length (vbi 5 (zlen (ack_body pid reason level p))))). split; [done|].
    rewrite Hc, zlen_frame. unfold frame. cbn [drop skipn]. rewrite drop_app_length.
    pose proof (decode_simple_ack_body pid reason level p [] Hpid Hr Hp H3) as Hd. rewrite app_nil_r in Hd.
    rewrite <- Hd. f_equal. unfold zlen. lia. }
  assert (packet_flags 0 /\ packet_flags 2) as [H0 H2] by (unfold packet_flags; lia).
  exact (conj (Hall PUBACK 0 H0) (conj (Hall PUBREC 0 H0) (conj (Hall PUBREL 2 H2) (Hall PUBCOMP 0 H0)))).
Qed.

Lemma ack_roundtrip_witness :
  exists b h, encode_pubrel (B:=ByteBuffer.t) 300 0 V3_1_1 no_props = Ok b /\
    decode_pubrel (drop h (sink_contents b)) (zlen (sink_contents b) - Z.of_nat h) V3_1_1 = Ok (mkAck 300 0 no_props).
Proof.
  refine (proj1 (proj2 (proj2 (ack_roundtrip (B:=ByteBuffer.t) 300 0 V3_1_1 no_props _ _ _ _ _))));
    [unfold is_u16; lia|unfold is_u8; lia|apply no_props_ok|done|vm_compute; congruence].
Defined.

(** A CONNECT laid out as the protocol says, with valid flags and every field within
    its width, is decoded to exactly its fields, whatever bytes follow it. *)
Theorem decode_connect_complete p post :
  connect_ok p -> decode_connect (connect_body p ++ post) (zlen (connect_body p)) = Ok p.
Proof. apply decode_connect_body. Qed.

(** Client id "c", user "u", will "w" at QoS 1. *)
Definition sample_connect : MqttConnectPacket :=
  mkConnect V5_0 0x8E 60 [99] (Some [119]) (Some [1]) (Some [117]) None no_props no_props.

Lemma sample_connect_ok : connect_ok sample_connect.
Proof.
  assert (Hs : Forall (fun o : option bytes => forall s, o = Some s -> str_ok s) [Some [119]; Some [1]; Some [117]; None]).
  { repeat constructor; intros s [= <-]; done. }
  unfold connect_ok, sample_connect, present. simpl. split; [unfold is_u8; lia|]. split; [by apply connect_flags_spec|].
  split; [unfold is_u16; lia|]. split; [apply (no_props_ok V5_0)|]. split; [done|].
  change (flag_set 142 MQTT_CONNECT_FLAG_WILL_FLAG) with true. change (flag_set 142 MQTT_CONNECT_FLAG_USERNAME) with true.
  change (flag_set 142 MQTT_CONNECT_FLAG_PASSWORD) with false.
  split; [apply (no_props_ok V5_0)|]. split_and!; [by split; eauto..| |done].
  split; [done|]. by intros [? ?].
Qed.

Lemma decode_connect_complete_witness :
  decode_connect (connect_body sample_connect ++ [1; 2]) (zlen (connect_body sample_connect)) = Ok sample_connect.
Proof. exact (decode_connect_complete sample_connect [1; 2] sample_connect_ok). Defined.

(** conversely, whatever bytes decode as a CONNECT give a packet within the widths of
    the protocol, with consistent flags and exactly the fields its flags announce, and no
    longer than its input. *)
Theorem decode_connect_sound data len p :
  Forall is_u8 data -> 0 <= len <= zlen data -> decode_connect data len = Ok p ->
  connect_ok p /\ zlen (connect_body p) <= len.
Proof. apply decode_connect_inv. Qed.

Lemma decode_connect_sound_witness :
  connect_ok sample_connect /\ zlen (connect_body sample_connect) <= zlen (connect_body sample_connect).
Proof.
  apply (decode_connect_sound (connect_body sample_connect) (zlen (connect_body sample_connect)));
    [|vm_compute; intuition congruence|reflexivity].
  let l := eval vm_compute in (connect_body sample_connect) in change (connect_body sample_connect) with l.
  repeat constructor; done.
Defined.

(** Whatever bytes decode as a PUBLISH give a packet whose re-encoding has the same
    flags, is no longer than the input and decodes to the same packet. *)
Theorem decode_publish_sound {B : Type} `{ByteSink B} data len flags level p :
  Forall is_u8 data -> 0 <= len <= zlen data -> len <= MQTT_MAX_REMAINING_LENGTH -> 0 <= flags < 16 ->
  decode_publish data len flags level = Ok p ->
  zlen (publish_body p level) <= len
  /\ encodes (encode_publish (B:=B) p level) (frame PUBLISH flags (publish_body p level))
  /\ decode_publish (publish_body p level) (zlen (publish_body p level)) flags level = Ok p.
Proof.
  intros Hd Hl Hm Hf E. destruct (decode_publish_inv data len flags level p Hd Hl Hm Hf E) as (Hp & Hlen & <-).
  pose proof Hp as (? & ? & ? & _ & _ & Hlp & ?). split; [done|]. split.
  - apply encode_publish_frame; try done; [lia|by eapply level_props_ids].
  - pose proof (decode_publish_body p level [] Hp) as Hb. by rewrite app_nil_r in Hb.
Qed.

Lemma decode_publish_sound_witness :
  let p := mkPublish 0 1 1 [97] (Some 5) [9] no_props in
  zlen (publish_body p V3_1_1) <= 6
  /\ encodes (encode_publish (B:=ByteBuffer.t) p V3_1_1) (frame PUBLISH 3 (publish_body p V3_1_1))
  /\ decode_publish (publish_body p V3_1_1) (zlen (publish_body p V3_1_1)) 3 V3_1_1 = Ok p.
Proof.
  apply (decode_publish_sound (B:=ByteBuffer.t) [0; 1; 97; 0; 5; 9] 6 3 V3_1_1);
    [repeat constructor; done|vm_compute; intuition congruence|vm_compute; congruence|lia|reflexivity].
Defined.

(** C37: on arbitrary bytes, with a length that is not longer than the memory, every
    decoder terminates with a packet or a rejection and reads nothing outside. *)
Theorem decoders_memory_safe data len flags level :
  0 <= len <= zlen data ->
  safe (try_decode data len) /\ safe (decode_connect data len) /\ safe (decode_publish data len flags level)
  /\ safe (decode_subscribe data len level) /\ safe (decode_unsubscribe data len level)
  /\ safe (decode_puback data len level) /\ safe (decode_pubrec data len level)
  /\ safe (decode_pubrel data len level) /\ safe (decode_pubcomp data len level)
  /\ safe (decode_disconnect data len) /\ safe (decode_auth data len).
Proof.
  intros Hlen. pose proof (decode_simple_ack_safe data len Hlen level).
  split_and!; try done; eauto using try_decode_safe, decode_connect_safe, decode_publish_safe, decode_subscribe_safe,
    decode_unsubscribe_safe, decode_reason_safe, decode_auth_safe.
Qed.

Lemma decoders_memory_safe_witness :
  safe (decode_subscribe [0; 9; 255; 255] 4 V3_1_1).
Proof.
  refine (proj1 (proj2 (proj2 (proj2 (decoders_memory_safe [0; 9; 255; 255] 4 0 V3_1_1 _))))). vm_compute. intuition congruence.
Defined.

(** * Properties *)

(** a property set survives the wire: the encoder writes its items after their
    length, [encoded_size] is that length, and the decoder, wherever the bytes lie in a
    packet, rebuilds the set, its user properties in order, and stops after it. *)
Theorem properties_roundtrip {B : Type} `{ByteSink B} p pre post b :
  props_ok p -> sink_ok b ->
  exists b' x, encode_properties p b = Ok b' /\ sink_contents b' = sink_contents b ++ x
    /\ zlen x = variable_byte_int_size (encoded_size p) + encoded_size p
    /\ decode_properties (pre ++ x ++ post) (zlen pre + zlen x) (zlen pre) no_props
       = Ok (zlen x, p, zlen pre + zlen x).
Proof.
  intros Hp Hb. destruct (emits_properties p (props_ok_ids p Hp) b Hb) as (b' & E & _ & Hc).
  exists b', (enc_props p). split; [done|]. split; [done|]. pose proof (enc_items_nonneg (props_items p)) as H0.
  pose proof Hp as [_ Hmax]. unfold MQTT_MAX_REMAINING_LENGTH in Hmax. split.
  - rewrite encoded_size_exact, vbi_size by (done || lia). unfold enc_props. rewrite zlen_app, u32_id; [done|].
    unfold is_u32. lia.
  - apply decode_properties_enc; [done|lia].
Qed.

Definition sample_props : MqttProperties :=
  set_receive_maximum (Some 10) (set_content_type (Some [97]) (set_user_properties [mkUserProperty [107] [118]] no_props)).

Lemma properties_roundtrip_witness :
  exists b' x, encode_properties sample_props ByteBuffer.default = Ok b'
    /\ sink_contents b' = sink_contents ByteBuffer.default ++ x
    /\ zlen x = variable_byte_int_size (encoded_size sample_props) + encoded_size sample_props
    /\ decode_properties ([5] ++ x ++ [6]) (zlen [5] + zlen x) (zlen [5]) no_props = Ok (zlen x, sample_props, zlen [5] + zlen x).
Proof.
  apply (properties_roundtrip (B:=ByteBuffer.t) sample_props [5] [6] ByteBuffer.default).
  - split; [repeat constructor; vm_compute; congruence|vm_compute; congruence].
  - split; [by apply ByteBuffer.with_capacity_wf|done].
Defined.

(** Whatever bytes decode as a property set give one that fits the protocol, every
    value within its width, and whose encoding is no longer than what was consumed. *)
Theorem properties_sound data hi o n p o' :
  Forall is_u8 data -> 0 <= o -> hi <= zlen data ->
  decode_properties data hi o no_props = Ok (n, p, o') -> n <> 0 ->
  props_ok p /\ zlen (enc_props p) <= o' - o /\ o' <= hi.
Proof.
  intros Hd Ho Hhi E Hn.
  assert (Hr : read_properties data hi o no_props = Ok (p, o')).
  { unfold read_properties. rewrite E. mstep. by case_if; [lia|]. }
  destruct (read_properties_inv data hi o p o' Hd Ho Hhi Hr). split; [done|]. split; [done|].
  pose proof (read_properties_bounds data hi o no_props Ho Hhi) as Hb. rewrite Hr in Hb. simpl in Hb. lia.
Qed.

Lemma properties_sound_witness :
  props_ok (set_receive_maximum (Some 10) no_props)
  /\ zlen (enc_props (set_receive_maximum (Some 10) no_props)) <= 4 - 0 /\ 4 <= 4.
Proof.
  apply (properties_sound [3; 33; 0; 10] 4 0 4); [repeat constructor; done|lia|vm_compute; congruence|reflexivity|done].
Defined.
