(* ===== verification/SystemTheorems.v ===== *)
(** What the broker as a whole promises, whatever its clients send and however their
    coroutines interleave: it keeps its invariant, none of its operations faults, and
    every connection is served to its end. *)
From stdpp Require Import relations.
From S2P Require Import Prelude Containers ByteBuffer ByteBufferFacts MqttProtocol MqttProperties MqttCodec MqttCodecFacts MqttTopicTree.
From S2P Require Import MqttRetainedStore MqttSession MqttBroker MqttBrokerFacts MqttDispatcher MqttDispatcherFacts MqttServer MqttServerFacts.
From S2P Require Import MqttSystem MqttConnectionFacts.
Import MqttCodec MqttServer.

(** C1: every state the broker can reach, through any interleaving of accepted
    connections, packets, departures, publications by the application, expiry runs and
    changes of time and of the live connections, satisfies the broker's invariant: the
    registry and the heap of sessions agree, packet counters are in range, the
    subscription tree is well-shaped with one subscription per session and filter, and
    the stored wills and retained messages fit in a packet. *)
Theorem reachable_invariant little config_ handler_ w :
  0 <= cf_maximum_qos config_ -> 0 <= cf_max_packet_size config_ <= MESSAGE_MAX ->
  reachable little config_ handler_ w -> broker_ok w.
Proof. intros. by eapply reachable_ok. Qed.

(** C2: in every reachable state every operation of the broker runs to its end: it
    neither faults nor diverges, whatever the bytes of a framed packet are, and [stop]
    closes exactly the live connections of the registered sessions. A packet is framed
    when [try_decode] gives its length and that is at most [max_packet_size], which is at
    most 268000000; the counter of session ids has not reached 2^64 - 1. For the
    publication of the application the topic fits a string of the protocol, the payload
    has at most 268000000 bytes, and the writes to the subscribers return and destroy no
    session: a write that fails may resume the coroutine of its connection, which frees a
    session that the loop of [publish] still points to, and then [publish] does fault
    ([publish_flush_faults]). The writes inside the handling of a packet, which looks its
    subscribers up again for each delivery, are recorded and have no other effect. *)
Theorem reachable_progress little config_ handler_ w :
  0 <= cf_maximum_qos config_ -> 0 <= cf_max_packet_size config_ <= MESSAGE_MAX ->
  reachable little config_ handler_ w ->
  (forall conn, 0 < MqttSessionManager.global_session_id (session_mgr_ w) < 2 ^ 64 - 1 ->
     exists loc w', accept conn w = Ok (loc, w') /\ live w' loc)
  /\ (forall loc data len, live w loc -> framed config_ data len ->
     exists b w', MqttDispatcher.dispatch (B:=ByteBuffer.t) (H:=ByteBuffer_sink little) config_ handler_ loc data len w = Ok (b, w')
       /\ ByteBuffer.wf b)
  /\ (forall f, live w (fr_session f) -> exists w', cleanup_session little handler_ f w = Ok (tt, w')
       /\ map_find (fr_session f) (MqttSessionManager.sessions_ (session_mgr_ w')) = None)
  /\ (forall flush topic payload qos retain, flush_ok flush -> publishable topic payload qos ->
     exists w', MqttServer.publish little flush topic payload qos retain w = Ok (tt, w') /\ broker_ok w')
  /\ MqttServer.stop true w
     = Ok (tt, emitted (map EvClose (live_connections w (MqttSessionManager.all_sessions (session_mgr_ w)))) w)
  /\ (exists m, MqttSessionManager.cleanup_expired (now w) (session_mgr_ w) = Ok m).
Proof.
  intros Hq Hs Hr. assert (broker_ok w) as Hok by by eapply reachable_ok.
  assert (Hrun : forall A (m : M A) Q, run m w Q -> exists a w', m w = Ok (a, w') /\ Q a w').
  { unfold run. intros A m Q. destruct (m w) as [[a w']| | |]; [|done..]. intros (_ & _ & HQ). eauto. }
  split; [|split; [|split; [|split; [|split; [by apply (stop_run true)|]]]]].
  - intros conn Hc. destruct (Hrun _ _ _ (run_accept conn w Hok Hc)) as (loc & w' & E & _ & Hl). eauto.
  - intros loc data len Hl Hd.
    destruct (Hrun _ _ _ (run_dispatch little config_ handler_ Hq Hs loc data len w Hok Hl Hd)) as (b & w' & E & [Hb _]). eauto.
  - intros f Hl. destruct (Hrun _ _ _ (run_cleanup little handler_ f w Hok Hl)) as ([] & w' & E & Hu). eauto.
  - intros flush topic payload qos retain Hf Hp.
    pose proof (run_publish little flush topic payload qos retain w Hf Hok Hp) as Hw.
    destruct (Hrun _ _ _ Hw) as ([] & w' & E & _). exists w'. split; [done|]. unfold run in Hw. rewrite E in Hw. tauto.
  - destruct (MqttSessionManager.cleanup_expired_ok (now w) (session_mgr_ w) (bo_sessions w Hok)) as (m & E & _). eauto.
Qed.

(** C3: a connection is served to its end. Whatever its reads deliver, and whatever steps
    the other coroutines take while it is suspended, [handle_connection] returns, having
    only taken the broker through steps of the transition system; the state it leaves is
    reachable, and the connection's session is no longer registered in it. *)
Theorem handle_connection_completes little config_ handler_ await conn reads w :
  0 <= cf_maximum_qos config_ -> 0 <= cf_max_packet_size config_ <= MESSAGE_MAX ->
  others_step little config_ handler_ await -> reachable little config_ handler_ w ->
  0 < MqttSessionManager.global_session_id (session_mgr_ w) < 2 ^ 64 - 1 -> Forall read_ok reads ->
  exists w', handle_connection little config_ handler_ await conn reads w = Ok (tt, w')
    /\ broker_steps little config_ handler_ w w' /\ reachable little config_ handler_ w'
    /\ map_find (MqttSessionManager.global_session_id (session_mgr_ w)) (MqttSessionManager.sessions_ (session_mgr_ w')) = None.
Proof.
  intros Hq Hs Ha Hr Hc Hreads. assert (broker_ok w) as Hok by by eapply reachable_ok.
  destruct (srun_handle_connection little config_ handler_ await Hq Hs Ha conn reads w Hok Hc Hreads)
    as ([] & w' & E & _ & Hst & Hu).
  exists w'. split; [done|]. split; [done|]. split; [unfold reachable, broker_steps in *; by etrans|done].
Qed.

(** The default configuration satisfies the bounds. *)
Lemma default_qos : 0 <= cf_maximum_qos default_config.
Proof. simpl. lia. Qed.
Lemma default_size : 0 <= cf_max_packet_size default_config <= MESSAGE_MAX.
Proof. unfold MESSAGE_MAX. simpl. lia. Qed.

(** A world with one accepted connection. *)
Definition accepted_world : World :=
  match accept 5 initial_world with Ok (_, w) => w | _ => initial_world end.

Lemma accepted_reachable : reachable true default_config None accepted_world.
Proof.
  eapply rtc_once, (step_accept _ _ _ _ 5 1); [simpl; lia|reflexivity].
Qed.

Lemma reachable_invariant_witness : broker_ok accepted_world.
Proof.
  exact (reachable_invariant true default_config None accepted_world default_qos default_size accepted_reachable).
Defined.

(** A PINGREQ is answered, or refused, without a fault. *)
Lemma ping_framed : framed default_config [192; 0] 2.
Proof.
  exists 2, PINGREQ. split; [repeat constructor; done|]. split; [vm_compute; intuition congruence|].
  split; [reflexivity|simpl; lia].
Qed.

Lemma reachable_progress_witness :
  (exists b w', MqttDispatcher.dispatch (B:=ByteBuffer.t) (H:=ByteBuffer_sink true) default_config None 1 [192; 0] 2 accepted_world
    = Ok (b, w') /\ ByteBuffer.wf b)
  /\ (exists w', MqttServer.publish true (fun _ => mskip) (str "a") [1] 1 true accepted_world = Ok (tt, w') /\ broker_ok w').
Proof.
  destruct (reachable_progress true default_config None accepted_world default_qos default_size accepted_reachable)
    as (_ & Hd & _ & Hp & _).
  split; [apply Hd; [vm_compute; eauto|apply ping_framed]|].
  apply Hp; [apply flush_skip_ok|]. split; [done|]. split; [unfold qos_ok; lia|vm_compute; congruence].
Defined.

(** Sessions 1 and 2 of the connections 5 and 6, connected and subscribed to "a". *)
Definition two_subscribers : outcome World :=
  let member conn : M unit :=
    loc ← create_session_owner conn;
    _ ← modify_session loc (MqttSession.set_state connected);
    tree_subscribe (str "a") (mkSubscription loc 1 0 0 0 None [] []) in
  match (_ ← member 5; member 6) initial_world with
  | Ok (_, w) => Ok (mkWorld (session_mgr_ w) (topic_tree_ w) (retained_store_ w) {[5; 6]} (now w) (trace w))
  | Reject => Reject | Fault => Fault | Diverge => Diverge
  end.

(** A write that fails: the coroutine of the connection runs [cleanup_session] and ends,
    and its session is destroyed. *)
Definition failing_flush (conn : Z) : M unit :=
  _ ← cleanup_session true None (mkFrame (conn - 4) conn ByteBuffer.default true true);
  destroy_session (conn - 4).

(** With writes that succeed both subscribers get the message; when the first write fails,
    the search for the second subscriber reads the session that was freed. *)
Lemma publish_flush_faults :
  (w ← two_subscribers; r ← MqttServer.publish true (fun _ => mskip) (str "a") [1] 0 false w; Ok (trace r.2))
    = Ok [EvWrite 5 [48; 4; 0; 1; 97; 1]; EvWrite 6 [48; 4; 0; 1; 97; 1]]
  /\ (w ← two_subscribers; MqttServer.publish true failing_flush (str "a") [1] 0 false w) = Fault.
Proof. split; vm_compute; reflexivity. Qed.

(** A CONNECT with client id "c", then a PINGREQ. *)
Definition sample_read : ByteBuffer.t :=
  let data := [16; 13; 0; 4; 77; 81; 84; 84; 4; 2; 0; 60; 0; 1; 99; 192; 0] in ByteBuffer.mk data 0 17.

Lemma handle_connection_completes_witness :
  exists w', handle_connection true default_config None mskip 6 [sample_read; sample_read] accepted_world = Ok (tt, w')
    /\ broker_steps true default_config None accepted_world w' /\ reachable true default_config None w'
    /\ map_find 2 (MqttSessionManager.sessions_ (session_mgr_ w')) = None.
Proof.
  apply (handle_connection_completes true default_config None mskip 6 [sample_read; sample_read] accepted_world);
    [apply default_qos|apply default_size| |apply accepted_reachable|vm_compute; intuition congruence|].
  - intros w _. exists w. split; [done|apply rtc_refl].
  - repeat constructor; try (vm_compute; congruence);
      (let l := eval vm_compute in (ByteBuffer.contents sample_read) in change (ByteBuffer.contents sample_read) with l);
      repeat constructor; done.
Defined.

(** * What sessions and their manager promise: packet identifiers that do not repeat within
    a cycle, and a client-id lookup that is right whatever the index holds. *)
Import MqttSessionManager.

(** Successive packet identifiers run through 1..65535 in a cycle: the [k]-th one is
    [k] steps after the counter, so none of them is 0 and among 65535 successive ones no
    two are equal. *)
Theorem packet_ids_cycle n s : MqttSession.packet_id_ok (MqttSession.next_packet_id_ s) ->
  length (MqttSession.packet_ids n s) = n
  /\ (forall k, (k < n)%nat ->
        MqttSession.packet_ids n s !! k = Some (1 + (MqttSession.next_packet_id_ s - 1 + Z.of_nat k) mod 65535))
  /\ Forall MqttSession.packet_id_ok (MqttSession.packet_ids n s)
  /\ ((n <= Z.to_nat 65535)%nat -> NoDup (MqttSession.packet_ids n s)).
Proof.
  intros Hs.
  assert (Hl : length (MqttSession.packet_ids n s) = n).
  { clear Hs. revert s; induction n as [|n IH]; intros s; [done|]. cbn [MqttSession.packet_ids].
    destruct (MqttSession.next_packet_id s). cbn [length]. by rewrite IH. }
  assert (Hn : forall k, (k < n)%nat -> MqttSession.packet_ids n s !! k
    = Some (1 + (MqttSession.next_packet_id_ s - 1 + Z.of_nat k) mod 65535))
    by (intros; by apply MqttSession.packet_ids_nth).
  split; [done|]. split; [done|]. unfold MqttSession.packet_id_ok in *. split.
  - apply Forall_lookup. intros k x Hk. pose proof (lookup_lt_Some _ _ _ Hk). rewrite Hn in Hk by lia.
    injection Hk as <-. Z.to_euclidean_division_equations; lia.
  - intros Hle. apply NoDup_alt. intros i j x Hi Hj.
    pose proof (lookup_lt_Some _ _ _ Hi). pose proof (lookup_lt_Some _ _ _ Hj). rewrite Hn in Hi, Hj by lia.
    injection Hi as <-. injection Hj as Hj. Z.to_euclidean_division_equations; lia.
Qed.

Lemma packet_ids_cycle_witness :
  let s := MqttSession.set_next_packet_id 65534 (MqttSession.create 1 0 None) in
  length (MqttSession.packet_ids 3 s) = 3%nat
  /\ (forall k, (k < 3)%nat -> MqttSession.packet_ids 3 s !! k = Some (1 + (65534 - 1 + Z.of_nat k) mod 65535))
  /\ Forall MqttSession.packet_id_ok (MqttSession.packet_ids 3 s)
  /\ ((3 <= Z.to_nat 65535)%nat -> NoDup (MqttSession.packet_ids 3 s)).
Proof.
  apply (packet_ids_cycle 3 (MqttSession.set_next_packet_id 65534 (MqttSession.create 1 0 None))).
  unfold MqttSession.packet_id_ok. simpl. lia.
Defined.

(** The client-id lookup decides whether some registered session has the id, whatever
    the index holds: it answers such a session or that there is none, and changes nothing
    but the index. *)
Theorem find_by_client_id_decides cid m : sessions_ok m ->
  exists r i, find_by_client_id cid m = Ok (r, set_index i m)
    /\ match r with
       | Some loc => exists s, registered m loc s /\ MqttSession.client_id_ s = cid
       | None => forall loc s, registered m loc s -> MqttSession.client_id_ s <> cid
       end.
Proof. apply find_by_client_id_total. Qed.

(** One session with id "c", whose index entry points to a session that is gone. *)
Definition stale_index : t :=
  set_index [([99], 7)]
    (assign 1 (MqttSession.set_client_id [99] (MqttSession.create 1 0 None)) (create_session_owner 0 None empty).2).

Lemma stale_index_ok : sessions_ok stale_index.
Proof.
  apply sessions_ok_index, sessions_ok_assign; [|vm_compute; eauto|done].
  apply sessions_ok_create; [apply sessions_ok_empty|simpl; lia].
Qed.

Lemma find_by_client_id_decides_witness :
  exists r i, find_by_client_id [99] stale_index = Ok (r, set_index i stale_index)
    /\ match r with
       | Some loc => exists s, registered stale_index loc s /\ MqttSession.client_id_ s = [99]
       | None => forall loc s, registered stale_index loc s -> MqttSession.client_id_ s <> [99]
       end.
Proof. apply (find_by_client_id_decides [99] stale_index), stale_index_ok. Defined.

(** The last session to bind a client id is the one that the lookup finds, even while
    other registered sessions still carry the same id. *)
Theorem last_binding_wins loc s cid m : sessions_ok m -> registered m loc s -> cid <> [] ->
  exists m', bind_client_id loc cid m = Ok m' /\ sessions_ok m'
    /\ registered m' loc (MqttSession.set_client_id cid s)
    /\ find_by_client_id cid m' = Ok (Some loc, m').
Proof.
  intros Hok [Hreg Hobj] Hcid. destruct (bind_client_id_ok loc s cid m Hok Hobj) as (m' & E & Hok' & Hs & _ & Ho & Hi).
  assert (objects m' !! loc = Some (MqttSession.set_client_id cid s)) as Hl by (rewrite Ho; apply lookup_insert_eq).
  exists m'. split; [done|]. split; [done|]. split; [by split; [rewrite Hs|]|].
  unfold find_by_client_id, indexed_client_id. rewrite Hi by done. rewrite Hs, Hreg.
  rewrite (deref_ok _ _ _ Hl). mstep. by rewrite bool_decide_eq_true_2.
Qed.

Definition two_sessions : t := (create_session_owner 0 None stale_index).2.

Lemma last_binding_wins_witness :
  exists m', bind_client_id 2 [99] two_sessions = Ok m' /\ sessions_ok m'
    /\ registered m' 2 (MqttSession.set_client_id [99] (MqttSession.create 2 0 None))
    /\ find_by_client_id [99] m' = Ok (Some 2, m').
Proof.
  apply (last_binding_wins 2 (MqttSession.create 2 0 None) [99] two_sessions); [|split; reflexivity|done].
  apply sessions_ok_create; [apply stale_index_ok|vm_compute; intuition congruence].
Defined.

(** [cleanup_expired] unregisters exactly the sessions that are disconnected and whose
    expiry interval has passed since their last activity. *)
Theorem session_cleanup_exact now m : sessions_ok m ->
  exists m', cleanup_expired now m = Ok m' /\ sessions_ok m'
    /\ forall loc s, registered m' loc s <->
         registered m loc s
         /\ ~ (MqttSession.state_ s = disconnected /\ 0 < MqttSession.session_expiry_interval_ s
               /\ MqttSession.last_activity_ s + MqttSession.session_expiry_interval_ s * 1000000000 <= now).
Proof.
  intros Hok. destruct (cleanup_expired_ok now m Hok) as (m' & E & Hok' & Hr). exists m'. split; [done|]. split; [done|].
  intros loc s. rewrite Hr. unfold session_expired, state_eqb.
  destruct (bool_decide_reflect (MqttSession.state_ s = disconnected)); cbn [andb].
  - rewrite andb_false_iff, Z.ltb_ge, Z.leb_gt. split; intros [? Hc]; split; try done; [lia|].
    assert (~ (0 < MqttSession.session_expiry_interval_ s
      /\ MqttSession.last_activity_ s + MqttSession.session_expiry_interval_ s * 1000000000 <= now)) by tauto. lia.
  - split; intros [? _]; split; try done. by intros [? _].
Qed.

Lemma session_cleanup_exact_witness :
  exists m', cleanup_expired 5 two_sessions = Ok m' /\ sessions_ok m'
    /\ forall loc s, registered m' loc s <->
         registered two_sessions loc s
         /\ ~ (MqttSession.state_ s = disconnected /\ 0 < MqttSession.session_expiry_interval_ s
               /\ MqttSession.last_activity_ s + MqttSession.session_expiry_interval_ s * 1000000000 <= 5).
Proof.
  apply (session_cleanup_exact 5 two_sessions).
  apply sessions_ok_create; [apply stale_index_ok|vm_compute; intuition congruence].
Defined.
