(* ===== verification/TopicTheorems.v ===== *)
(** What subscriptions and retained messages promise: the tree refines a table from
    filters to subscriptions, matching is the relation of the MQTT specification for
    live and for retained messages, and both structures keep their shape. The last part
    has the persistent files of the broker, read back. *)
From S2P Require Import Prelude Containers Endian Strings MqttProtocol MqttTopicTree MqttRetainedStore MqttTopicTreeFacts.
From S2P Require Import MqttSession Json MqttPersistence MqttPersistenceFacts.
Import MqttTopicTree.

(** * The abstract subscription table *)

(** A subscription table: the subscriptions made at a filter, given by its levels. *)
Definition table : Type := list bytes -> list MqttSubscription.

Inductive tree_op : Type :=
| OpSubscribe (topic_filter : bytes) (sub : MqttSubscription)
| OpUnsubscribe (topic_filter : bytes) (session_id : Z)
| OpRemoveAll (session_id : Z).

(** What an operation returns: the session's previous QoS, whether it was subscribed. *)
Inductive tree_answer : Type := AnsQos (old : option QoS) | AnsFound (found : bool) | AnsUnit.

Definition run_tree_op (o : tree_op) (root : Node) : tree_answer * Node :=
  match o with
  | OpSubscribe f sub => let '(root, old) := subscribe f sub root in (AnsQos old, root)
  | OpUnsubscribe f sid => let '(root, found) := unsubscribe f sid root in (AnsFound found, root)
  | OpRemoveAll sid => (AnsUnit, remove_all sid root)
  end.

(** The session's own subscription among those made at one filter. *)
Definition own (sid : Z) (subs : list MqttSubscription) : list MqttSubscription :=
  List.filter (fun sub => sub_session_id sub =? sid) subs.
Definition others (sid : Z) (subs : list MqttSubscription) : list MqttSubscription :=
  List.filter (fun sub => negb (sub_session_id sub =? sid)) subs.

(** Two tables hold the same subscriptions at every filter, in whatever order. *)
Definition table_equiv (t1 t2 : table) : Prop := forall f sub, sub ∈ t1 f <-> sub ∈ t2 f.

(** Subscribing replaces the session's subscription at the filter, unsubscribing drops
    it, and leaving drops the session's subscriptions everywhere. *)
Definition table_op (o : tree_op) (t : table) : tree_answer * table :=
  match o with
  | OpSubscribe tf sub =>
      (AnsQos (sub_qos <$> head (own (sub_session_id sub) (t (filed_at tf)))),
       fun f => if decide (f = filed_at tf) then sub :: others (sub_session_id sub) (t f) else t f)
  | OpUnsubscribe tf sid =>
      (AnsFound (negb (bool_decide (own sid (t (filed_at tf)) = []))),
       fun f => if decide (f = filed_at tf) then others sid (t f) else t f)
  | OpRemoveAll sid => (AnsUnit, fun f => others sid (t f))
  end.

#[local] Instance table_equiv_equivalence : Equivalence table_equiv.
Proof. split; unfold table_equiv; repeat intro; [done|by symmetry|]. etrans; [apply H|apply H0]. Qed.

(** * Lemmas *)
Lemma own_elem sid subs sub : sub ∈ own sid subs <-> sub_session_id sub = sid /\ sub ∈ subs.
Proof. unfold own. rewrite elem_of_filter. split; intros [? ?]; split; try done; lia. Qed.

Lemma others_elem sid subs sub : sub ∈ others sid subs <-> sub_session_id sub <> sid /\ sub ∈ subs.
Proof. unfold others. rewrite elem_of_filter. split; intros [? ?]; split; try done; lia. Qed.

Lemma upsert_answer sub subs : (upsert sub subs).2 = sub_qos <$> head (own (sub_session_id sub) subs).
Proof.
  induction subs as [|x subs IH]; [done|]. cbn [upsert own List.filter].
  destruct (sub_session_id x =? sub_session_id sub); [done|]. by destruct (upsert sub subs).
Qed.

Lemma erase_answer sid subs : (erase_first sid subs).2 = negb (bool_decide (own sid subs = [])).
Proof.
  induction subs as [|x subs IH]; [done|]. cbn [erase_first own List.filter].
  destruct (sub_session_id x =? sid); [done|]. by destruct (erase_first sid subs).
Qed.

(** One step refines. *)
Lemma tree_op_refines o root : one_per_session root ->
  (run_tree_op o root).1 = (table_op o (subs_at root)).1
  /\ table_equiv (subs_at (run_tree_op o root).2) (table_op o (subs_at root)).2
  /\ one_per_session (run_tree_op o root).2.
Proof.
  intros Ho. destruct o as [tf sub|tf sid|sid]; cbn [run_tree_op table_op].
  - pose proof (subscribe_result tf sub root) as Hr. pose proof (subscribe_at tf sub root) as Ha.
    pose proof (one_per_session_subscribe tf sub root Ho) as Hp.
    destruct (subscribe tf sub root) as [root' old]. simpl in *. split; [by rewrite Hr, upsert_answer|].
    split; [|done]. intros f x. rewrite Ha. case_decide; [|done].
    destruct (upsert_spec sub (subs_at root f) (Ho f)) as (_ & Hin & _). rewrite Hin.
    rewrite elem_of_cons, others_elem. tauto.
  - pose proof (unsubscribe_result tf sid root) as Hr. pose proof (unsubscribe_at tf sid root) as Ha.
    pose proof (one_per_session_unsubscribe tf sid root Ho) as Hp.
    destruct (unsubscribe tf sid root) as [root' found]. simpl in *. split; [by rewrite Hr, erase_answer|].
    split; [|done]. intros f x. rewrite Ha. case_decide; [|done]. by rewrite erase_first_spec by apply Ho.
  - split; [done|]. split; [|by apply one_per_session_remove_all]. intros f x. simpl. by rewrite remove_all_at.
Qed.

(** ** Equivalent tables answer alike *)
Definition unique (t : table) : Prop := forall f, NoDup (sessions_of (t f)).

Lemma own_one sid subs : NoDup (sessions_of subs) -> own sid subs = [] \/ exists x, own sid subs = [x].
Proof.
  induction subs as [|x subs IH]; [by left|]. unfold sessions_of. cbn [map]. intros [Hx Hn]%NoDup_cons.
  cbn [own List.filter]. case_if; [|by apply IH]. right. exists x. f_equal.
  destruct (own sid subs) as [|y l] eqn:E; [done|]. exfalso. apply Hx.
  assert (y ∈ own sid subs) as [Hy Hin]%own_elem by (rewrite E; left).
  apply elem_of_map. exists y. split; [lia|done].
Qed.

Lemma own_equiv sid l1 l2 : NoDup (sessions_of l1) -> NoDup (sessions_of l2) ->
  (forall sub, sub ∈ l1 <-> sub ∈ l2) -> own sid l1 = own sid l2.
Proof.
  intros H1 H2 He.
  assert (forall x, x ∈ own sid l1 <-> x ∈ own sid l2) as Ho by (intros; rewrite !own_elem, He; done).
  destruct (own_one sid l1 H1) as [E1|[x1 E1]], (own_one sid l2 H2) as [E2|[x2 E2]]; rewrite E1, E2 in *; try done.
  - specialize (Ho x2). set_solver.
  - specialize (Ho x1). set_solver.
  - specialize (Ho x1). f_equal. set_solver.
Qed.

Lemma unique_others sid l : NoDup (sessions_of l) -> NoDup (sessions_of (others sid l)).
Proof. apply sessions_filter_NoDup. Qed.

Lemma table_op_unique o t : unique t -> unique (table_op o t).2.
Proof.
  intros Hu f. destruct o as [tf sub|tf sid|sid]; cbn [table_op snd]; try case_decide; try apply Hu;
    try (by apply unique_others).
  unfold sessions_of. cbn [map]. apply NoDup_cons. split; [|by apply unique_others].
  intros (x & Hx & [Hne _]%others_elem)%elem_of_map. congruence.
Qed.

Lemma table_op_equiv o t1 t2 : unique t1 -> unique t2 -> table_equiv t1 t2 ->
  (table_op o t1).1 = (table_op o t2).1 /\ table_equiv (table_op o t1).2 (table_op o t2).2.
Proof.
  intros H1 H2 He. destruct o as [tf sub|tf sid|sid]; cbn [table_op fst snd].
  1,2: rewrite (own_equiv _ (t1 (filed_at tf)) (t2 (filed_at tf))) by auto.
  all: split; [done|]; intros f x; try case_decide; rewrite ?elem_of_cons, ?others_elem, (He f x); done.
Qed.

(** ** Sequences of operations *)
Fixpoint run_tree_ops (os : list tree_op) (root : Node) : list tree_answer * Node :=
  match os with
  | [] => ([], root)
  | o :: os => let '(a, root) := run_tree_op o root in let '(l, root) := run_tree_ops os root in (a :: l, root)
  end.

Fixpoint table_ops (os : list tree_op) (t : table) : list tree_answer * table :=
  match os with
  | [] => ([], t)
  | o :: os => let '(a, t) := table_op o t in let '(l, t) := table_ops os t in (a :: l, t)
  end.

Lemma run_refines os root t :
  one_per_session root -> unique t -> table_equiv (subs_at root) t ->
  (run_tree_ops os root).1 = (table_ops os t).1
  /\ table_equiv (subs_at (run_tree_ops os root).2) (table_ops os t).2.
Proof.
  revert root t; induction os as [|o os IH]; intros root t Ho Hu He; [done|]. cbn [run_tree_ops table_ops].
  destruct (tree_op_refines o root Ho) as (Ha & Ht & Ho').
  destruct (table_op_equiv o (subs_at root) t Ho Hu He) as [Ha' Ht'].
  pose proof (table_op_unique o t Hu) as Hu'.
  destruct (run_tree_op o root) as [a root'], (table_op o t) as [a' t']; simpl in *.
  destruct (IH root' t') as [Hl Hf]; [done|done|by etrans|].
  destruct (run_tree_ops os root'), (table_ops os t'); simpl in *. split; [congruence|done].
Qed.

(** C30: the subscription tree refines the table. Any sequence of operations on a tree
    answers what it answers on the table the tree represents, and leaves a tree that
    represents the table then reached; a publish to a valid topic name finds in that tree
    exactly the subscriptions that the table has under a filter that matches the topic by
    the rules of MQTT, the [$] rule included. The operations are subscribe, unsubscribe
    and remove_all, in any order. *)
Theorem tree_refines_table os root t :
  one_per_session root -> unique t -> table_equiv (subs_at root) t ->
  (run_tree_ops os root).1 = (table_ops os t).1
  /\ table_equiv (subs_at (run_tree_ops os root).2) (table_ops os t).2
  /\ (forall topic sub, validate_topic_name topic = true ->
       sub ∈ match_topic topic (run_tree_ops os root).2 <->
       exists f, topic_matches f (split_on chr_slash topic) /\ sub ∈ (table_ops os t).2 f).
Proof.
  intros Ho Hu He. destruct (run_refines os root t Ho Hu He) as [Ha Ht]. split; [done|]. split; [done|].
  intros topic sub Hv. rewrite match_topic_filters by by apply valid_topic_levels.
  rewrite split_topic_levels. apply exist_proper. intros f. apply and_iff_compat_l, Ht.
Qed.

Definition sample_sub (sid qos : Z) : MqttSubscription := mkSubscription sid qos 0 0 0 None [] [].

Lemma tree_refines_table_witness :
  let os := [OpSubscribe (str "a/+") (sample_sub 1 1); OpSubscribe (str "#") (sample_sub 2 0);
             OpSubscribe (str "a/+") (sample_sub 1 0); OpUnsubscribe (str "#") 1; OpRemoveAll 1] in
  (run_tree_ops os empty_node).1 = (table_ops os (fun _ => [])).1
  /\ table_equiv (subs_at (run_tree_ops os empty_node).2) (table_ops os (fun _ => [])).2
  /\ (forall topic sub, validate_topic_name topic = true ->
       sub ∈ match_topic topic (run_tree_ops os empty_node).2 <->
       exists f, topic_matches f (split_on chr_slash topic) /\ sub ∈ (table_ops os (fun _ => [])).2 f).
Proof.
  refine (tree_refines_table _ empty_node (fun _ => []) one_per_session_empty _ _).
  - intros f. apply NoDup_nil_2.
  - intros f sub. by rewrite subs_at_empty.
Defined.

(** * Reachable trees *)

(** The trees a broker can hold. *)
Inductive tree_reachable : Node -> Prop :=
| reach_new : tree_reachable empty_node
| reach_op o root : tree_reachable root -> tree_reachable (run_tree_op o root).2.

Lemma run_tree_op_shape o root : tree_ok root -> tree_ok (run_tree_op o root).2.
Proof.
  intros Ht. destruct o as [tf sub|tf sid|sid]; cbn [run_tree_op].
  - pose proof (subscribe_shape tf sub root Ht). by destruct (subscribe tf sub root).
  - pose proof (unsubscribe_shape tf sid root Ht). by destruct (unsubscribe tf sid root).
  - by apply remove_all_shape.
Qed.

Lemma run_tree_op_unique o root : one_per_session root -> one_per_session (run_tree_op o root).2.
Proof.
  intros Ho. destruct o as [tf sub|tf sid|sid]; cbn [run_tree_op].
  - pose proof (one_per_session_subscribe tf sub root Ho). by destruct (subscribe tf sub root).
  - pose proof (one_per_session_unsubscribe tf sid root Ho). by destruct (unsubscribe tf sid root).
  - by apply one_per_session_remove_all.
Qed.

Lemma reachable_inv root : tree_reachable root -> tree_ok root /\ one_per_session root.
Proof.
  induction 1 as [|o root _ [IHt IHo]]; [split; [apply tree_ok_empty|apply one_per_session_empty]|].
  split; [by apply run_tree_op_shape|by apply run_tree_op_unique].
Qed.

(** in every tree that operations can build, children are in key order under literal
    levels (the wildcards have their own links), a filter holds at most one subscription
    of a session, and a publish to a topic reaches exactly the subscriptions whose filter
    matches the topic by the rules of MQTT, the [$] rule included. *)
Theorem reachable_tree_matches root topic sub :
  tree_reachable root -> validate_topic_name topic = true ->
  tree_ok root /\ one_per_session root
  /\ (sub ∈ match_topic topic root <->
      exists f, topic_matches f (split_on chr_slash topic) /\ sub ∈ subs_at root f).
Proof.
  intros Hr Hv. destruct (reachable_inv root Hr). split; [done|]. split; [done|].
  rewrite <- split_topic_levels. by apply match_topic_filters, valid_topic_levels.
Qed.

(** Session 1 on "a/+", session 2 on "#". *)
Definition sample_tree : Node :=
  (run_tree_op (OpSubscribe (str "#") (sample_sub 2 0))
     (run_tree_op (OpSubscribe (str "a/+") (sample_sub 1 1)) empty_node).2).2.

Lemma sample_tree_reachable : tree_reachable sample_tree.
Proof. do 2 apply reach_op. apply reach_new. Qed.

Lemma reachable_tree_matches_witness :
  tree_ok sample_tree /\ one_per_session sample_tree
  /\ (sample_sub 1 1 ∈ match_topic (str "a/b") sample_tree <->
      exists f, topic_matches f (split_on chr_slash (str "a/b")) /\ sample_sub 1 1 ∈ subs_at sample_tree f).
Proof. apply (reachable_tree_matches sample_tree (str "a/b") (sample_sub 1 1)); [apply sample_tree_reachable|reflexivity]. Defined.

(** * Listing a session's subscriptions *)

(** A filter without the slashes it starts with. *)
Fixpoint strip_slashes (s : bytes) : bytes :=
  match s with
  | [] => []
  | c :: s' => if c =? chr_slash then strip_slashes s' else s
  end.

Lemma filter_path_strip tf : filter_path [] (split_on chr_slash tf) = strip_slashes tf.
Proof.
  induction tf as [|c s IH]; [done|]. cbn [split_on strip_slashes]. case_if; [exact IH|].
  pose proof (join_split chr_slash (c :: s)) as Hj. cbn [split_on] in Hj. rewrite Hif in Hj.
  pose proof (split_on_ne chr_slash s) as Hne. destruct (split_on chr_slash s) as [|l ls]; [done|].
  by rewrite filter_path_levels.
Qed.

(** Subscriptions are made at the levels of some filter. *)
Lemma reachable_filed root f sub : tree_reachable root -> sub ∈ subs_at root f ->
  exists tf, f = split_on chr_slash tf.
Proof.
  intros Hr. revert f sub; induction Hr as [|o root Hr IH]; intros f sub.
  - rewrite subs_at_empty. by intros []%not_elem_of_nil.
  - destruct (reachable_inv root Hr) as [_ Ho]. destruct o as [tf s|tf sid|sid]; cbn [run_tree_op].
    + pose proof (subscribe_at tf s root f) as Ha. destruct (subscribe tf s root) as [root' old]. simpl in *.
      rewrite Ha. case_decide as Hf; [|apply IH]. intros _. unfold filed_at in Hf.
      rewrite split_topic_levels in Hf. eauto.
    + pose proof (unsubscribe_at tf sid root f) as Ha. destruct (unsubscribe tf sid root) as [root' found]. simpl in *.
      rewrite Ha. case_decide; [|apply IH]. rewrite erase_first_spec by done. intros [_ Hs]%elem_of_filter. eauto.
    + cbn. rewrite remove_all_at. intros [_ Hs]%elem_of_filter. eauto.
Qed.

(** [subscriptions] terminates on every tree that operations can build, and lists for
    each subscription of the session the filter it was made at, but without the slashes
    the filter starts with: "/a" and "a" are both listed as "a". *)
Theorem subscriptions_listed sid root : tree_reachable root ->
  exists l, subscriptions sid root = Ok l
    /\ forall p, p ∈ l <-> exists tf sub, sub ∈ subs_at root (split_on chr_slash tf)
                              /\ sub_session_id sub = sid /\ p = strip_slashes tf.
Proof.
  intros Hr. destruct (reachable_inv root Hr) as [Ht _]. rewrite subscriptions_paths. eexists. split; [done|].
  intros p. rewrite paths_of_spec by done. split.
  - intros (f & sub & Hs & Hid & ->). destruct (reachable_filed root f sub Hr Hs) as (tf & ->).
    exists tf, sub. by rewrite filter_path_strip.
  - intros (tf & sub & Hs & Hid & ->). exists (split_on chr_slash tf), sub. by rewrite filter_path_strip.
Qed.

Lemma subscriptions_listed_witness :
  exists l, subscriptions 1 sample_tree = Ok l
    /\ forall p, p ∈ l <-> exists tf sub, sub ∈ subs_at sample_tree (split_on chr_slash tf)
                              /\ sub_session_id sub = 1 /\ p = strip_slashes tf.
Proof. apply (subscriptions_listed 1 sample_tree), sample_tree_reachable. Defined.

(** * Retained messages *)

(** A new subscription gets exactly the retained messages it would have matched live:
    for a valid filter that is not shared, [match] selects the stored messages whose topic
    the filter matches by the relation of the subscription tree. *)
Theorem retained_match_agrees topic_filter messages msg :
  validate_topic_filter topic_filter = true -> is_shared_subscription topic_filter = false ->
  msg ∈ MqttRetainedStore.match_filter topic_filter messages <->
  exists topic, (topic, msg) ∈ messages
    /\ topic_matches (split_on chr_slash topic_filter) (split_on chr_slash topic).
Proof. apply match_filter_elem. Qed.

Definition sample_message (topic payload : bytes) (expiry : option Z) : MqttRetainedMessage :=
  mkRetained topic payload 1 0 expiry None None [].

Lemma retained_match_agrees_witness :
  let m := sample_message (str "a/b") [1] None in
  m ∈ MqttRetainedStore.match_filter (str "a/+") [(str "a/b", m)] <->
  exists topic, (topic, m) ∈ [(str "a/b", m)]
    /\ topic_matches (split_on chr_slash (str "a/+")) (split_on chr_slash topic).
Proof. apply (retained_match_agrees (str "a/+")); reflexivity. Defined.

(** The retained store keeps the last message of each topic. After a store, the topic
    has the message with its time, or nothing when the payload is empty, every other topic
    has what it had, and the store stays in topic order with no empty message. *)
Theorem retained_store_last now msg messages topic :
  MqttRetainedStore.store_ok messages ->
  MqttRetainedStore.store_ok (MqttRetainedStore.store now msg messages)
  /\ map_find topic (MqttRetainedStore.store now msg messages)
     = if str_eqb topic (rm_topic msg) then
         match rm_payload msg with
         | [] => None
         | _ => Some (mkRetained (rm_topic msg) (rm_payload msg) (rm_qos msg) now (rm_message_expiry_interval msg)
                       (rm_payload_format_indicator msg) (rm_content_type msg) (rm_user_properties msg))
         end
       else map_find topic messages.
Proof.
  intros Hok. split; [by apply MqttRetainedStore.store_ok_store|]. unfold MqttRetainedStore.store.
  destruct (str_eqb topic (rm_topic msg)) eqn:E.
  - apply str_eqb_spec in E as ->. destruct (rm_payload msg); [apply map_find_erase_eq|apply map_find_insert_eq].
  - apply str_eqb_false in E. destruct (rm_payload msg); [apply map_find_erase_ne|apply map_find_insert_ne]; congruence.
Qed.

Lemma retained_store_last_witness :
  MqttRetainedStore.store_ok (MqttRetainedStore.store 5 (sample_message [97] [] None) [])
  /\ map_find [97] (MqttRetainedStore.store 5 (sample_message [97] [] None) []) = None.
Proof. apply (retained_store_last 5 (sample_message [97] [] None) [] [97]). apply MqttRetainedStore.store_ok_empty. Defined.

(** Cleaning the retained store at time [now] (in nanoseconds, as all times) removes
    exactly the messages whose expiry interval has elapsed: a message stays if it has no
    interval, or if the whole seconds since it was stored are fewer than the interval. *)
Theorem retained_cleanup_exact now messages topic msg :
  Forall (fun tm => rm_stored_time tm.2 <= now) messages ->
  (topic, msg) ∈ MqttRetainedStore.cleanup_expired now messages <->
  (topic, msg) ∈ messages
  /\ match rm_message_expiry_interval msg with
     | None => True
     | Some interval => (now - rm_stored_time msg) / 1000000000 < interval
     end.
Proof.
  rewrite Forall_forall. intros Ht. rewrite MqttRetainedStore.cleanup_expired_filter, elem_of_filter.
  assert (Heq : (topic, msg) ∈ messages -> negb (MqttRetainedStore.expired now msg) = true <->
    match rm_message_expiry_interval msg with
    | None => True | Some interval => (now - rm_stored_time msg) / 1000000000 < interval end).
  { intros Hin%Ht. simpl in Hin. unfold MqttRetainedStore.expired, MqttRetainedStore.seconds_between.
    destruct (rm_message_expiry_interval msg); [|done]. rewrite Z.quot_div_nonneg by lia. lia. }
  simpl. split; intros [? ?]; split; try done; tauto.
Qed.

Lemma retained_cleanup_exact_witness :
  let m := sample_message [97] [1] (Some 2) in
  ([97], m) ∈ MqttRetainedStore.cleanup_expired 1999999999 [([97], m)] <->
  ([97], m) ∈ [([97], m)] /\ (1999999999 - 0) / 1000000000 < 2.
Proof.
  apply (retained_cleanup_exact 1999999999 [([97], sample_message [97] [1] (Some 2))] [97]).
  repeat constructor. vm_compute. congruence.
Defined.

(** * The persistent files of the broker: what a file holds, read back. *)
Lemma restored_expired saved now msg : message_ok saved msg ->
  MqttRetainedStore.expired now (restored_message saved now msg) = MqttRetainedStore.expired saved msg.
Proof.
  intros []. unfold MqttRetainedStore.expired, restored_message. cbn [rm_message_expiry_interval rm_stored_time].
  destruct (rm_message_expiry_interval msg); [|done].
  unfold MqttRetainedStore.seconds_between at 1. rewrite Z.max_r by lia.
  replace (now - (now - MqttRetainedStore.seconds_between (rm_stored_time msg) saved * 1000000000))
    with (MqttRetainedStore.seconds_between (rm_stored_time msg) saved * 1000000000) by lia.
  by rewrite Z.quot_mul by lia.
Qed.

Lemma restored_cleanup saved now messages : Forall (fun e => message_ok saved e.2) messages ->
  MqttRetainedStore.cleanup_expired now (restored_messages saved now messages)
  = restored_messages saved now (MqttRetainedStore.cleanup_expired saved messages).
Proof.
  unfold restored_messages. induction 1 as [|[k msg] messages Hm _ IH]; [done|].
  cbn [List.filter MqttRetainedStore.cleanup_expired fst snd] in *.
  rewrite <- (restored_expired saved now msg Hm).
  destruct (negb (bool_decide (k = []))) eqn:E; cbn [map MqttRetainedStore.cleanup_expired fst snd];
    destruct (MqttRetainedStore.expired now (restored_message saved now msg));
    cbn [List.filter fst snd]; rewrite ?E; cbn [map fst snd]; by rewrite ?IH.
Qed.

Section Roundtrips.
Context `{HL : JsonLibrary} `{!JsonLaws}.

Lemma read_written can_open path root disk disk' : exact root = true ->
  write_document can_open path root disk = (Returned true, disk') ->
  read_document path disk' = Some (reread root) /\ forall p, p <> path -> disk' !! p = disk !! p.
Proof.
  unfold write_document, read_document. intros He. case_if; [|done].
  destruct (dump root) as [text|] eqn:E; intros [= <-]. split.
  - rewrite lookup_insert_eq. cbn. by apply parse_dump.
  - intros. by rewrite lookup_insert_ne.
Qed.

(** a retained-message file reads back as the messages it was written from.
    Whatever the store held before, after loading it holds exactly the messages that
    had not expired when the file was written (and whose topic is not empty), with
    their topic, payload, quality of service, properties and age: the time between
    saving and loading does not count towards the expiry. No other file changes. *)
Theorem retained_file_roundtrip can_open path saved now messages disk disk' other :
  MqttRetainedStore.store_ok messages -> Forall (fun e => message_ok saved e.2) messages ->
  save_retained can_open path saved messages disk = (Returned true, disk') ->
  load_retained path now disk' other
  = (Returned true, restored_messages saved now (MqttRetainedStore.cleanup_expired saved messages))
  /\ forall p, p <> path -> disk' !! p = disk !! p.
Proof.
  intros Hok Hm Hsave. unfold save_retained in Hsave.
  apply read_written in Hsave as [Hread Hother].
  2:{ cbn [exact retained_document]. apply forallb_forall. intros j (e & <- & Hin)%in_map_iff.
      apply list_elem_of_In in Hin. rewrite Forall_forall in Hm. by apply message_exact, Hm. }
  split; [|done]. unfold load_retained. rewrite Hread. cbn [reread retained_document]. rewrite map_map.
  rewrite load_messages_json by (done || constructor). cbn [app]. by rewrite restored_cleanup.
Qed.

(** The sessions of a manager, in the order of their ids. *)
Definition manager_sessions (m : MqttSessionManager.t) : list MqttSession.t :=
  omap (fun kv => MqttSessionManager.objects m !! kv.2) (MqttSessionManager.sessions_ m).

Lemma session_items_ok m : MqttSessionManager.sessions_ok m ->
  session_items (MqttSessionManager.sessions_ m) m = Ok (map session_json (manager_sessions m)).
Proof.
  intros Hok. unfold manager_sessions.
  assert (Hin : forall kv, kv ∈ MqttSessionManager.sessions_ m -> is_Some (MqttSessionManager.objects m !! kv.2)).
  { intros [sid loc] Hin. by apply (MqttSessionManager.so_own m Hok sid loc). }
  revert Hin. induction (MqttSessionManager.sessions_ m) as [|[sid loc] pairs IH]; intros Hin; [done|].
  destruct (Hin (sid, loc)) as [s Hs]; [left|]. cbn [session_items omap list_omap snd] in *.
  rewrite (MqttSessionManager.deref_ok loc s) by done. mstep.
  rewrite IH by (intros; apply Hin; by right). mstep. by rewrite Hs.
Qed.

(** C39: a session file reads back as the sessions it was written from, in their order,
    and saving never faults. Loading replaces the registry and the client-id index:
    every session gets the next id of the running counter, keeps its client id,
    protocol level, state, flow-control limits, subscriptions and its will if the will
    has a topic, and starts without a connection, packets in flight or topic aliases. *)
Theorem session_file_roundtrip can_open path now m disk m0 :
  MqttSessionManager.sessions_ok m -> Forall session_file_ok (manager_sessions m) -> path <> [] ->
  0 <= MqttSessionManager.global_session_id m0 ->
  MqttSessionManager.global_session_id m0 + Z.of_nat (length (manager_sessions m)) < 2 ^ 64 ->
  exists r disk', save_sessions can_open path m disk = Ok (r, disk')
  /\ (r = Returned true ->
      let sid := MqttSessionManager.global_session_id m0 in
      let n := length (manager_sessions m) in
      load_sessions path now disk' m0
      = (Returned true,
         MqttSessionManager.mk
           (restored_objects sid now (manager_sessions m) (MqttSessionManager.objects m0)) (sid + Z.of_nat n)
           (restored_registry sid n) (restored_index sid (manager_sessions m) []))).
Proof.
  intros Hok Hf Hpath H0 Hlt. unfold save_sessions. destruct path as [|c path]; [done|].
  rewrite session_items_ok by done. mstep.
  destruct (write_document can_open (c :: path) (JArray (map session_json (manager_sessions m))) disk) as [r disk'] eqn:E.
  exists r, disk'. split; [done|]. intros ->. cbv zeta.
  apply read_written in E as [Hread _].
  2:{ cbn [exact]. apply forallb_forall. intros j (s & <- & Hin)%in_map_iff. apply list_elem_of_In in Hin.
      rewrite Forall_forall in Hf. by apply session_exact, Hf. }
  unfold load_sessions. rewrite Hread. cbn [reread]. rewrite map_map.
  rewrite load_items_json; [done|done|done|done|constructor].
Qed.

(** A document that cannot be written (a topic that is not UTF-8) loses the file: the
    exception leaves it truncated, and it no longer loads. *)
Lemma failed_save_loses_file can_open path saved now messages disk other :
  can_open path = true -> dump (retained_document saved messages) = None -> parse [] = None ->
  (save_retained can_open path saved messages disk).1 = Thrown
  /\ load_retained path now (save_retained can_open path saved messages disk).2 other = (Returned false, other).
Proof.
  intros Hc Hd Hp. unfold save_retained, write_document. rewrite Hc, Hd. split; [done|]. cbn [snd].
  unfold load_retained, read_document. rewrite lookup_insert_eq. cbn. by rewrite Hp.
Qed.

End Roundtrips.

(** * Concrete runs *)
Definition stored_message : MqttRetainedMessage :=
  mkRetained (str "a/b") [1; 255] 1 0 (Some 60) None (Some (str "text")) [mkUserProperty (str "k") (str "v")].

Lemma retained_file_roundtrip_witness :
  exists disk', save_retained (fun _ => true) (str "r.json") 5000000000 [(str "a/b", stored_message)] ∅
    = (Returned true, disk')
  /\ load_retained (str "r.json") 100000000000 disk' []
     = (Returned true, [(str "a/b", restored_message 5000000000 100000000000 stored_message)]).
Proof.
  eexists. split; [reflexivity|].
  eapply (retained_file_roundtrip (fun _ => true) (str "r.json") 5000000000 100000000000
    [(str "a/b", stored_message)] ∅ _ []); [| |reflexivity].
  - split; [repeat constructor|]. constructor; [|constructor]. split; [reflexivity|discriminate].
  - constructor; [|constructor]. constructor; cbn; unfold valid_qos, is_u32, is_u8.
    + repeat constructor; unfold is_u8; lia.
    + lia.
    + intros v [= <-]. lia.
    + discriminate.
    + vm_compute. split; [discriminate|reflexivity].
Defined.

Definition sample_session : MqttSession.t :=
  MqttSession.set_subscriptions [(str "a", 1)] (MqttSession.set_client_id (str "c") (MqttSession.create 1 0 None)).
Definition sample_manager : MqttSessionManager.t :=
  MqttSessionManager.mk {[1 := sample_session]} 2 [(1, 1)] [(str "c", 1)].

Lemma session_file_roundtrip_witness :
  exists r disk', save_sessions (fun _ => true) (str "s.json") sample_manager ∅ = Ok (r, disk')
  /\ (r = Returned true ->
      load_sessions (str "s.json") 7 disk' MqttSessionManager.empty
      = (Returned true,
         MqttSessionManager.mk
           (restored_objects 1 7 [sample_session] ∅) 2 [(1, 1)] (restored_index 1 [sample_session] []))).
Proof.
  apply (session_file_roundtrip (fun _ => true) (str "s.json") 7 sample_manager ∅ MqttSessionManager.empty).
  - constructor; cbn.
    + repeat constructor.
    + intros sid loc [= -> ->]%list_elem_of_singleton. split; [done|]. by rewrite lookup_singleton_eq.
    + intros loc s [<- <-]%lookup_singleton_Some. split; [done|lia].
  - constructor; [|constructor]. constructor; cbn; unfold is_u64, is_u16, is_u32, MQTT_KEEP_ALIVE_DEFAULT; try lia.
    + repeat constructor.
    + constructor; [|constructor]. unfold valid_qos. cbn. lia.
    + discriminate.
  - discriminate.
  - cbn. lia.
  - vm_compute. reflexivity.
Defined.
