(* ===== verification/RpcTheorems.v ===== *)
(** What the RPC library promises: calls are answered, once; frames are read back as they
    were written, however the stream is cut; routes are a map. *)
From stdpp Require Import relations.
From S2P Require Import Prelude Endian ByteBuffer ByteBufferFacts RpcTypes RpcWire RpcWireFacts.
From S2P Require Import RpcRegistry RpcRegistryFacts RpcSession RpcSessionFacts RpcCallFacts.
Import RpcTypes RpcWire.

(** * Calls *)
(** C7: a call over a connected pair of sessions is answered before [send] returns, when
    each side reads what the other writes (the ciphers agree), both encodings succeed,
    neither payload exceeds the [max_frame_size] of the side that decodes it, the fields
    of the message, the options and the response fit their types, the id is not pending
    already, and the peer's server answers without throwing. The
    peer's server is given the request as it crosses the wire (without metadata, route
    name and connection data, which docs/RPC_WIRE_PROTOCOL.md says are in the frame and
    the code does not write), and the caller's handler is called once, with the
    server's response under the call's id and continuation; what was pending before is
    pending after, and the next id is one further. Each side counts the frame it sent
    and the one it received. *)
Theorem rpc_call_answered s m h options w server reply frame out :
  let client := endpoint_of s w in
  let peer := endpoint_of (other s) w in
  let id := PendingCallRegistry.next_id_ (ep_pending client) in
  let request := RpcSession.outgoing id options m in
  let response := RpcSession.reply_to (received_message request) reply in
  connected_at s w -> connected_at (other s) w -> ep_server peer = Some server ->
  readable client peer -> readable peer client -> message_ok m -> options_ok options ->
  1 <= id /\ id + 1 < 2 ^ 64 -> PendingCallRegistry.calls_ (ep_pending client) !! id = None ->
  encode_message (ep_encrypt client) request = Some frame ->
  zlen (m_payload m) <= max_frame_size (ep_decode peer) ->
  Server.handle (received_message request) server = inl reply -> response_ok reply ->
  encode_response (ep_encrypt peer) response = Some out ->
  zlen (r_payload reply) <= max_frame_size (ep_decode client) ->
  exists w', RpcSession.send (Transport.send_frame Transport.depth) s m (Some h) options w = (Ret true, w')
    /\ w_trace w' = w_trace w ++ [Handled (other s) (received_message request); Called s h (received_response response)]
    /\ ep_pending (endpoint_of s w')
       = PendingCallRegistry.mk (id + 1) (PendingCallRegistry.calls_ (ep_pending client))
    /\ ep_stats (endpoint_of s w') = count_sent (zlen frame) (count_received (zlen out) (ep_stats client))
    /\ ep_stats (endpoint_of (other s) w') = count_sent (zlen out) (count_received (zlen frame) (ep_stats peer))
    /\ connected_at s w' /\ connected_at (other s) w'.
Proof.
  intros client peer id request response Hnear Hfar Hs Hto Hfrom Hm Ho Hid Hfree Hframe Hfit Hreply Hrok Hout Hback.
  eexists. split; [by apply (call_runs s m h options w server reply frame out)|].
  split; [done|]. split; [|split; [|split]].
  - assert (Hd : forall c : PendingCallRegistry.PendingCall, delete id (<[id := c]> (PendingCallRegistry.calls_ (ep_pending client)))
      = PendingCallRegistry.calls_ (ep_pending client)) by (intros; by apply delete_insert_id).
    destruct s; cbn; f_equal; apply Hd.
  - by destruct s.
  - by destruct s.
  - destruct Hnear, Hfar. split; constructor; destruct s; done.
Qed.

(** The handlers a session has called under an id. *)
Definition called_under (s : side) (id : Z) (trace : list rpc_event) : list Z :=
  omap (fun c : handler_call => if r_request_id c.2 =? id then Some c.1 else None) (calls_of s trace).

Lemma answered_of_handlers id log :
  answered_handlers id log
  = omap (fun c : handler_call => if r_request_id c.2 =? id then Some c.1 else None) (answered_of log).
Proof.
  induction log as [|[i h d|h r] log IH]; [done|exact IH|]. unfold answered_handlers, answered_of in *. cbn.
  destruct (r_request_id r =? id); [by f_equal|done].
Qed.

Lemma world_calls_once w s id : world_ok w ->
  let r := ep_pending (endpoint_of s w) in
  length (called_under s id (w_trace w) ++ pending_handlers id r)
  = if (1 <=? id) && (id <? PendingCallRegistry.next_id_ r) then 1%nat else 0%nat.
Proof.
  intros Hw. cbv zeta. destruct (Hw s) as [_ _ (log & Hlog & Hans)].
  unfold called_under. rewrite <- Hans, <- answered_of_handlers, <- (hi_balance _ _ Hlog id). case_if.
  - apply (hi_all _ _ Hlog). lia.
  - rewrite (hi_fresh _ _ Hlog); [done|lia].
Qed.

(** C6: every id a session has given out has had its handler called exactly once or is
    still pending, and no other id has. It holds in every state that two fresh sessions
    reach by sending, pushing, polling, closing and changing servers, whatever the
    servers answer and throw, whatever the ciphers do and whatever frames get lost, when
    the response handlers themselves return (one that throws in [expire] takes the other
    expired calls with it). *)
Theorem rpc_calls_answered_once order a b now w s id :
  (forall m, order m ≡ₚ map_to_list m) -> fresh_endpoint a -> fresh_endpoint b ->
  rtc (rpc_step order) (session_pair a b now) w ->
  let r := ep_pending (endpoint_of s w) in
  length (called_under s id (w_trace w) ++ pending_handlers id r)
  = if (1 <=? id) && (id <? PendingCallRegistry.next_id_ r) then 1%nat else 0%nat.
Proof.
  intros Ho Ha Hb Hr. apply world_calls_once.
  pose proof (session_pair_ok a b now Ha Hb) as Hw. induction Hr as [|w1 w2 w3 H12 _ IH]; [done|].
  apply IH. by apply (rpc_step_ok order Ho w1).
Qed.

(** in every such state every operation ends: it returns, or the exception of a
    dispatcher leaves it, but it neither reads outside a buffer nor nests deliveries
    deeper than a request and its response; and both decoders are empty again. *)
Theorem rpc_operations_end order a b now w o :
  (forall m, order m ≡ₚ map_to_list m) -> fresh_endpoint a -> fresh_endpoint b ->
  rtc (rpc_step order) (session_pair a b now) w -> op_ok o w ->
  (run_op order o w).1 <> Stuck
  /\ forall s, ep_buffer (endpoint_of s (run_op order o w).2) = [].
Proof.
  intros Ho Ha Hb Hr Hop.
  assert (world_ok w) as Hw.
  { pose proof (session_pair_ok a b now Ha Hb) as Hw0. clear Hop. induction Hr as [|w1 w2 w3 H12 _ IH]; [done|].
    apply IH. by apply (rpc_step_ok order Ho w1). }
  pose proof (run_op_ok order Ho o w Hw Hop) as Hrun. unfold rrun in Hrun.
  destruct (run_op order o w) as [[u|e|] w']; [| |done]; (split; [done|]); intros s; apply (Hrun s).
Qed.

(** C35: a call with a timeout does not stay unanswered. In any history of the registry in
    which fewer than 2^64 - 1 calls are made, once a call with a deadline has been
    created and [expire] has run at or after that deadline, its handler has been called,
    exactly once, whatever other calls, responses and cancellations come in between and
    afterwards. *)
Theorem pending_call_expires order before after now id h deadline :
  (forall m, order m ≡ₚ map_to_list m) -> creates (before ++ OpExpire now :: after) < 2 ^ 64 - 1 ->
  Created id h deadline ∈ (reg_run order before PendingCallRegistry.empty).1 -> deadline <> 0 -> deadline <= now ->
  answered_handlers id (reg_run order (before ++ OpExpire now :: after) PendingCallRegistry.empty).1 = [h].
Proof.
  intros Ho Hc Hin Hd0 Hd. unfold creates in Hc. rewrite List.filter_app in Hc. cbn [List.filter is_create] in Hc.
  pose proof (history_run order Ho [] before PendingCallRegistry.empty history_empty) as H1.
  rewrite reg_run_app. destruct (reg_run order before PendingCallRegistry.empty) as [l1 r1]. cbn [fst snd app] in *.
  destruct H1 as [H1 N1]; [cbn; unfold creates; zlia|].
  pose proof (expire_answered order Ho l1 r1 now id h deadline H1 Hin Hd0 Hd) as Ha.
  cbn [reg_run]. destruct (history_step order Ho l1 (OpExpire now) r1 H1) as [H2 N2]; [done|].
  destruct (reg_step order (OpExpire now) r1) as [l2 r2]. cbn [fst snd] in *.
  destruct (history_run order Ho (l1 ++ l2) after r2 H2) as [H3 _].
  { rewrite N2, N1. cbn. unfold creates. zlia. }
  destruct (reg_run order after r2) as [l3 r3]. cbn [fst snd] in *. rewrite app_assoc.
  by apply (history_answered _ l3 r2 r3).
Qed.

(** * Frames *)
(** C38: the decoder returns a result on every byte string, and the frames it returns are
    typed. It never reads outside the data; a frame it accepts has every header field
    within the width of its type, so that it can be sent on, and takes at least its
    header and at most the data given. *)
Theorem decode_frame_typed options data : Forall is_u8 data ->
  exists result, decode_frame options data (zlen data) = Ok result
  /\ match result with
     | Decoded consumed f =>
         header_ok (f_header f) /\ message_ok (to_message f) /\ response_ok (to_response f)
         /\ header_size <= consumed <= zlen data
     | Failed _ => True
     end.
Proof.
  intros Hd. unfold header_size. destruct (Z.lt_ge_cases (zlen data) 84) as [Hs|Hs].
  { exists (Failed need_more). split; [|done]. unfold decode_frame, header_size. case_if; [done|lia]. }
  destruct (raw_header_exists data Hd) as (m & v & h & enc & n & Hm & Hv & He & Hn & Hh & Henc & Hf); [done|].
  rewrite (decode_raw options data (zlen data) m v h enc n) by done.
  case_if; [by eexists|]. case_if; [by eexists|]. unfold decode_header, header_size.
  case_if; [by eexists|]. case_if; [by eexists|]. unfold is_u32 in Hn.
  destruct (rd_range data 84 n) as [body| | |] eqn:Er.
  2-4: exfalso; unfold rd_range in Er; by case_if_in Er; [lia|].
  mstep. destruct (open_body (decrypt options) h body) as [payload|]; eexists; (split; [done|]); [|done].
  split; [done|]. destruct Hh. split; [|split; [|lia]]; constructor; cbn; done || (unfold is_u8, is_u16, is_u32, kind_response; lia).
Qed.

(** The frame that an accepted prefix encodes. *)
Lemma decode_encoded_inv options data c f : Forall is_u8 data ->
  decode_frame options data (zlen data) = Ok (Decoded c f) ->
  exists b rest, data = b ++ rest /\ zlen b = c /\ encoded options b f.
Proof.
  intros Hd E. destruct (Z.lt_ge_cases (zlen data) 84) as [Hs|Hs].
  { unfold decode_frame, header_size in E. case_if_in E; [done|lia]. }
  destruct (raw_header_exists data Hd) as (m & v & h & enc & n & Hm & Hv & He & Hn & Hh & Henc & Hf); [done|].
  rewrite (decode_raw options data (zlen data) m v h enc n) in E by done.
  case_if_in E; [done|]. case_if_in E; [done|]. unfold decode_header, header_size in E.
  case_if_in E; [done|]. case_if_in E; [done|].
  destruct (rd_range data 84 n) as [body| | |] eqn:Er; [|done..]. cbn [mbind outcome_bind] in E.
  destruct (open_body (decrypt options) h body) as [payload|] eqn:Eo; [|done]. injection E as <- <-.
  apply rd_range_field_at in Er as [Hb Hl].
  assert (Ha : field_at data 0 (header_bytes h enc (h_payload_size h) n ++ body)).
  { apply field_at_split. rewrite zlen_header. split; [|exact Hb].
    assert (m = magic) as -> by lia. assert (v = version) as -> by lia. exact Hf. }
  destruct Ha as (pre & rest & -> & Hp). destruct pre; [|unfold zlen in Hp; simpl in Hp; lia].
  exists (header_bytes h enc (h_payload_size h) n ++ body), rest. split; [done|].
  split; [rewrite zlen_app, zlen_header; lia|].
  exists enc, body. cbn [f_header f_payload]. rewrite Hl. by split_and!; try (unfold is_u32 in *; lia).
Qed.

(** The decoder accepts exactly the well-formed frames. It returns a frame with [c]
    bytes consumed iff the data begin with [c] bytes that are a header of the current
    version with that frame's fields, the announced number of body bytes within the
    limit, and a body that opens to the frame's payload. *)
Theorem decode_frame_exact options data c f : Forall is_u8 data ->
  decode_frame options data (zlen data) = Ok (Decoded c f)
  <-> exists b rest, data = b ++ rest /\ zlen b = c /\ encoded options b f.
Proof.
  intros Hd. split; [by apply decode_encoded_inv|].
  intros (b & rest & -> & <- & He). apply decode_encoded; [done|zlia].
Qed.

(** a message that is encoded is decoded to itself, less what the format does not
    carry, whatever bytes follow it in the stream, when the decoder's cipher undoes the
    encoder's; and encoding succeeds exactly when the payload fits 32 bits and the
    cipher, where the message asks for one, is there and accepts it. *)
Theorem message_roundtrip encrypt options m rest :
  message_ok m -> ciphers_agree encrypt (decrypt options) -> zlen (m_payload m) <= max_frame_size options ->
  match encode_message encrypt m with
  | Some b =>
      decode_frame options (b ++ rest) (zlen (b ++ rest))
      = Ok (Decoded (zlen b) (mkFrame (set_payload_size (zlen (m_payload m)) (message_header m)) (m_payload m)))
      /\ to_message (mkFrame (set_payload_size (zlen (m_payload m)) (message_header m)) (m_payload m)) = received_message m
  | None =>
      UINT32_MAX < zlen (m_payload m)
      \/ m_encryption m <> enc_none
         /\ (encrypt = None \/ exists e, encrypt = Some e /\ e (crypto_context (message_header m)) (m_payload m) = None)
  end.
Proof.
  intros Hm Hc Hmax. destruct (encode_message encrypt m) as [b|] eqn:E.
  - split; [|done]. apply decode_encoded; [|zlia]. exact (encode_frame_encoded _ _ _ (m_metadata m) (rt_name (m_route m)) [] _ _ Hm Hc Hmax E).
  - apply (encode_frame_some _ _ (m_metadata m) (rt_name (m_route m)) [] _ Hm) in E. unfold frame_body in E. case_if_in E; [left; lia|].
    change (h_encryption (message_header m)) with (m_encryption m) in E.
    destruct (Z.eqb_spec (m_encryption m) enc_none) as [_|Hne]; cbn [mbind option_bind] in E.
    { case_if_in E; [lia|done]. }
    right. split; [done|]. destruct encrypt as [e|]; [|by left]. right. exists e. split; [done|].
    cbn [mbind option_bind] in E. destruct (e _ (m_payload m)) as [body|] eqn:Eb; [|done].
    destruct Hc as (d & _ & Hc). destruct (Hc _ _ _ Eb) as [Hl _]. cbn [mbind option_bind] in E.
    case_if_in E; [lia|done].
Qed.

(** the stream decoder does not depend on how the stream is cut. However the bytes of
    a sequence of frames are split into chunks (also empty ones, or in the middle of a
    header), feeding the chunks one after the other yields exactly these frames in their
    order, no error, and leaves nothing buffered. *)
Theorem stream_reassembles options frames bs chunks :
  Forall2 (encoded options) bs frames -> concat chunks = concat bs ->
  feed options chunks [] = Ok (frames, []).
Proof. intros H2 Hc. by apply (feed_frames options chunks bs). Qed.

(** What a wide integer adds to a buffer. *)
Definition appends (w : ByteBuffer.t -> outcome ByteBuffer.t) (x : bytes) : Prop :=
  forall b, ByteBuffer.wf b -> exists b', w b = Ok b' /\ ByteBuffer.wf b'
    /\ ByteBuffer.contents b' = ByteBuffer.contents b ++ x.

Lemma appends_raw x : appends (ByteBuffer.append x) x.
Proof. intros b Hb. destruct (ByteBuffer.append_holds x b Hb) as (b' & ? & ? & ? & _). eauto. Qed.
Lemma appends_seq w1 w2 x1 x2 : appends w1 x1 -> appends w2 x2 -> appends (w_seq w1 w2) (x1 ++ x2).
Proof.
  intros H1 H2 b Hb. destruct (H1 b Hb) as (b1 & E1 & Hb1 & C1). destruct (H2 b1 Hb1) as (b2 & E2 & Hb2 & C2).
  exists b2. unfold w_seq. rewrite E1. mstep. split; [done|]. split; [done|]. by rewrite C2, C1, app_assoc.
Qed.
Lemma appends_u8 little v : is_u8 v -> appends (ByteBuffer.append_u8 little v) [v].
Proof.
  intros Hv. unfold ByteBuffer.append_u8. replace (host_bytes little 1 v) with [v]; [apply appends_raw|].
  by destruct little; cbn; rewrite u8_id.
Qed.
Lemma appends_u16 little v : appends (ByteBuffer.append_u16 little v) (be16 v).
Proof. unfold ByteBuffer.append_u16. rewrite network_bytes16. apply appends_raw. Qed.
Lemma appends_u32 little v : appends (ByteBuffer.append_u32 little v) (be32 v).
Proof. unfold ByteBuffer.append_u32. rewrite network_bytes32. apply appends_raw. Qed.
Lemma appends_u64 little v : appends (ByteBuffer.append_u64 little v) (be64 v).
Proof. unfold ByteBuffer.append_u64. rewrite network_bytes64. apply appends_raw. Qed.

Ltac appends_field := lazymatch goal with
  | |- appends (ByteBuffer.append_u8 ?l ?v) _ => exact (appends_u8 l v ltac:(done))
  | |- appends (ByteBuffer.append_u16 ?l ?v) _ => exact (appends_u16 l v)
  | |- appends (ByteBuffer.append_u32 ?l ?v) _ => exact (appends_u32 l v)
  | |- appends (ByteBuffer.append_u64 ?l ?v) _ => exact (appends_u64 l v)
  end.

Lemma write_header_appends little h n : header_ok h ->
  appends (write_header little h n) (header_bytes h (h_encryption h) n n).
Proof.
  intros []. unfold write_header, header_bytes, raw_header.
  repeat (apply appends_seq; [appends_field|]). appends_field.
Qed.

(** The two encoders agree. On a host of either byte order, and whatever the caller's
    buffer held, encoding into the buffer leaves it holding exactly the bytes that the
    other overload returns, and fails exactly when that one does. *)
Theorem buffer_encoder_agrees little encrypt h md name error payload buf : header_ok h -> ByteBuffer.wf buf ->
  match encode_frame encrypt h md name error payload with
  | Some b => exists buf', encode_frame_to_buffer little encrypt h payload buf = Ok buf'
                /\ ByteBuffer.wf buf' /\ ByteBuffer.contents buf' = b
  | None => encode_frame_to_buffer little encrypt h payload buf = Reject
  end.
Proof.
  intros Hh Hwf. rewrite encode_frame_eq by done. unfold encode_frame_to_buffer.
  destruct (frame_body encrypt h payload) as [body|] eqn:E; [|done]. cbn [fmap option_fmap option_map].
  pose proof (zlen_nonneg body) as Hn.
  destruct (ByteBuffer.ensure_writable_ok (header_size + zlen body) (ByteBuffer.clear buf)) as (b1 & -> & Hb1 & C1 & _);
    [by apply ByteBuffer.clear_wf|unfold header_size; lia|]. mstep.
  change (ByteBuffer.contents (ByteBuffer.clear buf)) with (@nil Z) in C1.
  destruct (write_header_appends little h (zlen body) Hh b1 Hb1) as (b2 & -> & Hb2 & C2). mstep.
  assert (exists b3, (match body with [] => Ok b2 | _ :: _ => ByteBuffer.append body b2 end) = Ok b3 /\ ByteBuffer.wf b3
    /\ ByteBuffer.contents b3 = header_bytes h (h_encryption h) (zlen body) (zlen body) ++ body) as (b3 & -> & Hb3 & C3).
  { rewrite C1 in C2. cbn [app] in C2. destruct body as [|x body].
    - exists b2. by rewrite app_nil_r.
    - destruct (appends_raw (x :: body) b2 Hb2) as (b3 & E3 & Hb3 & C3). exists b3. by rewrite C3, C2. }
  mstep. exists b3. rewrite <- (ByteBuffer.zlen_contents b3) by done. rewrite C3, zlen_app, zlen_header.
  unfold header_size. case_if; [done|lia].
Qed.

(** A cipher that changes the length of the payload cannot be used: the encoder announces
    the length of the ciphertext where the decoder compares the length of the plaintext,
    so every such frame is refused. *)
Lemma resizing_cipher_refused e d options h payload body rest : header_ok h -> decrypt options = Some d ->
  h_encryption h <> enc_none -> frame_body (Some e) h payload = Some body ->
  d (crypto_context h) body = Some payload -> zlen body <> zlen payload -> zlen body <= max_frame_size options ->
  exists b, encode_frame (Some e) h ∅ [] [] payload = Some b
  /\ decode_frame options (b ++ rest) (zlen (b ++ rest)) = Ok (Failed malformed).
Proof.
  intros Hh Hd Hne Hb Hinv Hl Hmax. rewrite encode_frame_eq, Hb by done. eexists. split; [done|].
  pose proof (frame_body_len _ _ _ _ Hb) as Hn. pose proof (ho_encryption _ Hh) as He. unfold is_u8 in He.
  set (b := header_bytes h (h_encryption h) (zlen body) (zlen body) ++ body).
  assert (Hf : field_at (b ++ rest) 0 b) by by exists [], rest.
  unfold b in Hf at 2. apply field_at_split in Hf as [Hf Hfb]. rewrite zlen_header in Hfb. pose proof (zlen_nonneg rest).
  pose proof (zlen_nonneg body).
  erewrite (decode_raw _ _ _ magic version (set_payload_size (zlen body) h) (h_encryption h) (zlen body));
    [|done|done|unfold is_u16; lia|done|destruct Hh; by constructor|by rewrite u8_id|exact Hf|
      unfold b, header_size; rewrite !zlen_app, zlen_header; lia].
  rewrite !Z.eqb_refl. cbn [negb]. unfold decode_header, header_size. case_if; [lia|].
  case_if; [unfold b in *; rewrite !zlen_app, zlen_header in *; lia|].
  rewrite (field_at_rd_range _ 84 body) by done. mstep. unfold open_body.
  change (h_encryption (set_payload_size _ h)) with (h_encryption h).
  change (crypto_context (set_payload_size _ h)) with (crypto_context h). cbn [h_payload_size set_payload_size].
  destruct (Z.eqb_spec (h_encryption h) enc_none); [done|]. rewrite Hd. cbn [mbind option_bind]. rewrite Hinv.
  cbn [mbind option_bind]. case_if; [done|lia].
Qed.

(** * Failures *)
(** Why a frame of an open session is not sent: it cannot be encoded, or its loopback
    transport has no open peer. *)
Definition unsendable (s : side) (m : Message) (w : RpcWorld) : Prop :=
  encode_message (ep_encrypt (endpoint_of s w)) m = None
  \/ exists connected, ep_transport (endpoint_of s w) = Loopback connected
     /\ (connected = false \/ ep_open (endpoint_of (other s) w) = false).

Lemma send_message_fails s m w : unsendable s m w -> ep_open (endpoint_of s w) = true ->
  RpcSession.send_message (Transport.send_frame Transport.depth) s m w = (Ret None, w).
Proof.
  intros Hu Hopen. unfold RpcSession.send_message. rewrite (R_bind_eq _ _ _ (endpoint_of s w) w) by done.
  destruct (encode_message _ m) as [frame|] eqn:E; [|done].
  destruct Hu as [|(c & Ht & Hc)]; [congruence|]. rewrite (R_bind_eq _ _ _ false w); [done|].
  cbn [Transport.send_frame Transport.depth]. rewrite (R_bind_eq _ _ _ (endpoint_of s w) w) by done.
  rewrite (R_bind_eq _ _ _ (endpoint_of (other s) w) w) by done. rewrite Ht, Hopen.
  destruct Hc as [-> | ->]; [done|]. by destruct c.
Qed.

(** a call that cannot be sent is canceled before [send] returns. The result is
    false, the handler is called once with the status "canceled", the error "send
    failed" and the call's id and continuation, no call is left behind, a send error is
    counted, and the peer does not notice. *)
Theorem failed_send_canceled s m h options w :
  let client := endpoint_of s w in
  let id := PendingCallRegistry.next_id_ (ep_pending client) in
  RpcSession.is_open client = true -> unsendable s (RpcSession.outgoing id options m) w ->
  1 <= id /\ id + 1 < 2 ^ 64 -> PendingCallRegistry.calls_ (ep_pending client) !! id = None ->
  exists w', RpcSession.send (Transport.send_frame Transport.depth) s m (Some h) options w = (Ret false, w')
    /\ w_trace w' = w_trace w ++ [Called s h (set_failure st_canceled (str "send failed")
                      (set_continuation_id (o_coroutine_id options) (set_request_id id no_response)))]
    /\ endpoint_of s w' = with_stats count_send_error
         (with_pending (PendingCallRegistry.mk (id + 1) (PendingCallRegistry.calls_ (ep_pending client))) client)
    /\ endpoint_of (other s) w' = endpoint_of (other s) w.
Proof.
  intros client id Hopen Hu Hid Hfree. unfold RpcSession.send.
  rewrite (R_bind_eq _ _ _ client w) by done. rewrite Hopen. cbn [negb].
  rewrite (R_bind_eq _ _ _ (w_now w) w) by done. unfold PendingCallRegistry.create.
  rewrite draw_id_ok by (fold id; lia). fold id. rewrite Hfree. cbn beta iota zeta.
  assert (u64 (id + 1) = id + 1) as -> by (apply Z.mod_small; lia).
  set (call := PendingCallRegistry.mkCall h _ _ _). set (pending := PendingCallRegistry.mk (id + 1) (<[id := call]> _)).
  set (w1 := put_endpoint s (with_pending pending client) w).
  rewrite (R_bind_eq _ _ _ tt w1) by done. case_if; [lia|].
  rewrite (R_bind_eq _ _ _ None w1).
  2:{ apply send_message_fails; unfold w1.
      - unfold unsendable in *. rewrite endpoint_put_eq, endpoint_put_ne by apply other_ne. exact Hu.
      - rewrite endpoint_put_eq. cbn [ep_open with_pending]. unfold RpcSession.is_open in Hopen.
        by destruct (ep_transport client). }
  rewrite (R_bind_eq _ _ _ (with_pending pending client) w1); [|unfold r_get, w1; by rewrite endpoint_put_eq].
  unfold PendingCallRegistry.cancel, PendingCallRegistry.take.
  cbn [ep_pending with_pending PendingCallRegistry.calls_ pending]. rewrite lookup_insert_eq. cbn beta iota zeta.
  rewrite delete_insert_id by done. eexists. split; [reflexivity|]. subst w1 pending client. by destruct s.
Qed.

(** Closing a transport calls no handler: the close callback of the session promises to
    cancel what is pending, and does nothing. *)
Lemma close_keeps_calls s w : let '(x, w') := Transport.close s w in
  x = Ret tt /\ w_trace w' = w_trace w
  /\ ep_pending (endpoint_of s w') = ep_pending (endpoint_of s w) /\ ep_open (endpoint_of s w') = false.
Proof.
  unfold Transport.close. rewrite (R_bind_eq _ _ _ (endpoint_of s w) w) by done.
  destruct (ep_open (endpoint_of s w)) eqn:Eo; cbn [negb]; [|done].
  rewrite (R_bind_eq _ _ _ tt (put_endpoint s (with_open false (endpoint_of s w)) w)) by done.
  destruct (ep_receiving (endpoint_of s w)); cbn; rewrite trace_put, endpoint_put_eq; done.
Qed.

(** * Routes *)
(** the local bus is a map from route targets to handlers. Any sequence of bindings,
    unbindings, dispatches and size queries has on it the results that it has on a
    table keyed by the pair of service and method, or by the name when both are 0: the
    packed 64-bit key identifies no two routes, a second binding of a target is refused,
    and a dispatch answers with the request's id whatever the handler returns or throws. *)
Theorem bus_is_a_map ops : Forall bus_op_ok ops ->
  run_results bus_step ops LocalBus.empty = run_results table_step ops ∅.
Proof. intros Ho. apply bus_run_refines; [done|apply empty_refines]. Qed.

(** A route that has a name only does not survive the wire: whatever the peer's bus
    holds, the request that arrives is answered "not found". *)
Lemma named_route_unreachable b m : built b -> rt_service (m_route m) = 0 -> rt_method (m_route m) = 0 ->
  LocalBus.dispatch (received_message m) b
  = set_failure st_not_found (str "rpc route not found: ") (set_request_id (m_request_id m) no_response).
Proof.
  intros (x & Hx)%built_refines Hs Hm. unfold LocalBus.dispatch.
  assert (LocalBus.lookup (m_route (received_message m)) b = None) as ->.
  { unfold LocalBus.lookup, LocalBus.uses_numeric_route. cbn. rewrite Hs, Hm. apply (br_unnamed _ _ Hx). }
  cbn. unfold route_key. cbn. by rewrite Hs, Hm.
Qed.

(** * Examples *)
(** Two sessions over a loopback pair that encrypt with one key; the far server echoes
    the payloads of requests to service 1, method 2. *)
Definition demo_cipher : Cipher := xor_stream (str "key").
Definition demo_echo : RequestHandler := fun m =>
  inl (mkResponse 0 0 0 0 0 0 st_ok [] ser_raw comp_none enc_xor_stream 9 77 0 ∅ (m_payload m)).
Definition demo_server : Server.t :=
  (Server.register_handler (mkRoute 1 2 []) (Some demo_echo) Server.empty).2.
Definition demo_endpoint (server : option Server.t) : Endpoint :=
  with_receiving true (RpcSession.create_session (Loopback true) server (Some demo_cipher)
                         (mkDecode max_default_frame_size (Some demo_cipher))).
Definition demo_world : RpcWorld := session_pair (demo_endpoint None) (demo_endpoint (Some demo_server)) 1000.
Definition demo_options : CallOptions := mkOptions 3000 5 ser_json comp_none enc_xor_stream 9 12345 ∅.
Definition demo_call : Message := Client.call_message (mkRoute 1 2 []) (str "ping") demo_options.
Definition demo_frame : bytes := default [] (encode_message (Some demo_cipher) (RpcSession.outgoing 1 demo_options demo_call)).
Definition demo_reply : Response :=
  mkResponse 1 0 0 0 0 0 st_ok [] ser_raw comp_none enc_xor_stream 9 77 0 ∅ (str "ping").
Definition demo_out : bytes :=
  default [] (encode_response (Some demo_cipher)
    (RpcSession.reply_to (received_message (RpcSession.outgoing 1 demo_options demo_call)) demo_reply)).

Lemma demo_message_ok : message_ok demo_call.
Proof. by constructor. Qed.
Lemma demo_options_ok : options_ok demo_options.
Proof. by split_and!. Qed.
Lemma demo_connected s : connected_at s demo_world.
Proof. by destruct s. Qed.
Lemma demo_ciphers_agree : ciphers_agree (Some demo_cipher) (Some demo_cipher).
Proof. eexists. split; [done|]. apply xor_stream_inverse. Qed.
Lemma demo_reply_ok : response_ok demo_reply.
Proof. by constructor. Qed.

Lemma demo_server_ok : server_ok demo_server.
Proof.
  intros m r Hm. unfold Server.handle, LocalBus.dispatch, LocalBus.lookup. cbn [Server.dispatcher_ demo_server].
  assert (forall key, LocalBus.named_handlers_ (Server.bus_ demo_server) !! key = None) as -> by done.
  assert (H : forall h, Server.dispatcher_ demo_server = None /\ (LocalBus.numeric_handlers_ (Server.bus_ demo_server) !! h = None
    \/ LocalBus.numeric_handlers_ (Server.bus_ demo_server) !! h = Some demo_echo)).
  { intros h. split; [done|]. change (LocalBus.numeric_handlers_ (Server.bus_ demo_server)) with
      ({[LocalBus.numeric_route_key (mkRoute 1 2 []) := demo_echo]} : gmap Z RequestHandler).
    destruct (decide (h = LocalBus.numeric_route_key (mkRoute 1 2 []))) as [->|Hne];
      [right; apply lookup_singleton_eq|left; by apply lookup_singleton_ne]. }
  destruct (H (LocalBus.numeric_route_key (m_route m))) as [-> Hl]. pose proof (ho_request_id _ Hm).
  destruct (LocalBus.uses_numeric_route (m_route m)); [destruct Hl as [-> | ->]|]; intros [= <-]; by constructor.
Qed.
Lemma demo_fresh server : (server = None \/ server = Some demo_server) -> fresh_endpoint (demo_endpoint server).
Proof. intros H. split_and!; [done|done|]. intros x E. cbn in E. destruct H as [-> | ->]; [done|]. injection E as <-. apply demo_server_ok. Qed.
Lemma rpc_call_answered_witness :
  exists w', RpcSession.send (Transport.send_frame Transport.depth) Near demo_call (Some 7) demo_options demo_world = (Ret true, w')
    /\ w_trace w' = [Handled Far (received_message (RpcSession.outgoing 1 demo_options demo_call));
                     Called Near 7 (received_response (RpcSession.reply_to
                       (received_message (RpcSession.outgoing 1 demo_options demo_call)) demo_reply))]
    /\ ep_pending (endpoint_of Near w') = PendingCallRegistry.mk 2 ∅
    /\ ep_stats (endpoint_of Near w') = count_sent (zlen demo_frame) (count_received (zlen demo_out) no_stats)
    /\ ep_stats (endpoint_of Far w') = count_sent (zlen demo_out) (count_received (zlen demo_frame) no_stats)
    /\ connected_at Near w' /\ connected_at Far w'.
Proof.
  refine (rpc_call_answered Near demo_call 7 demo_options demo_world demo_server demo_reply demo_frame demo_out
    (demo_connected Near) (demo_connected Far) eq_refl demo_ciphers_agree demo_ciphers_agree demo_message_ok
    demo_options_ok _ eq_refl _ _ _ demo_reply_ok _ _).
  - by vm_compute.
  - by vm_compute.
  - by vm_compute.
  - by vm_compute.
  - by vm_compute.
  - by vm_compute.
Defined.

(** The pair after the call. *)
Definition demo_called : RpcWorld := (run_op map_to_list (OpSend Near demo_call (Some 7) demo_options) demo_world).2.
Lemma demo_after : rtc (rpc_step map_to_list) demo_world demo_called.
Proof.
  apply rtc_once. eexists _, _. split; [|apply surjective_pairing].
  split; [apply demo_message_ok|]. split; [apply demo_options_ok|done].
Qed.

Lemma rpc_calls_answered_once_witness :
  length (called_under Near 1 (w_trace demo_called) ++ pending_handlers 1 (ep_pending (endpoint_of Near demo_called))) = 1%nat.
Proof.
  refine (eq_trans (rpc_calls_answered_once map_to_list (demo_endpoint None) (demo_endpoint (Some demo_server)) 1000
    _ Near 1 (fun m => reflexivity _) (demo_fresh _ (or_introl eq_refl)) (demo_fresh _ (or_intror eq_refl)) demo_after) _).
  by vm_compute.
Defined.

Lemma rpc_operations_end_witness :
  (run_op map_to_list (OpClose Far) demo_called).1 <> Stuck
  /\ forall s, ep_buffer (endpoint_of s (run_op map_to_list (OpClose Far) demo_called).2) = [].
Proof.
  exact (rpc_operations_end map_to_list (demo_endpoint None) (demo_endpoint (Some demo_server)) 1000
    _ (OpClose Far) (fun m => reflexivity _) (demo_fresh _ (or_introl eq_refl)) (demo_fresh _ (or_intror eq_refl)) demo_after I).
Defined.

Lemma pending_call_expires_witness :
  answered_handlers 1 (reg_run map_to_list ([OpCreate 1000 (Some 7) 2 ∅ 0] ++ OpExpire 2001000 :: [OpComplete demo_reply])
    PendingCallRegistry.empty).1 = [7].
Proof.
  apply (pending_call_expires map_to_list [OpCreate 1000 (Some 7) 2 ∅ 0] [OpComplete demo_reply] 2001000 1 7 2001000).
  - done.
  - done.
  - apply list_elem_of_here.
  - done.
  - done.
Defined.

Definition demo_sent : Message := RpcSession.outgoing 1 demo_options demo_call.
Lemma demo_sent_ok : message_ok demo_sent.
Proof. by constructor. Qed.
Lemma demo_encoded : encoded (ep_decode (demo_endpoint None)) demo_frame (message_frame demo_sent).
Proof.
  apply (encode_message_encoded (demo_endpoint None) (demo_endpoint None)).
  - apply demo_ciphers_agree.
  - apply demo_sent_ok.
  - by vm_compute.
  - by vm_compute.
Qed.
Lemma demo_frame_u8 : Forall is_u8 demo_frame.
Proof. apply (bool_decide_unpack _). by vm_compute. Qed.

Lemma decode_frame_typed_witness :
  exists result, decode_frame (ep_decode (demo_endpoint None)) demo_frame (zlen demo_frame) = Ok result
  /\ match result with
     | Decoded consumed f =>
         header_ok (f_header f) /\ message_ok (to_message f) /\ response_ok (to_response f)
         /\ header_size <= consumed <= zlen demo_frame
     | Failed _ => True
     end.
Proof.
  apply (decode_frame_typed (ep_decode (demo_endpoint None)) demo_frame).
  apply demo_frame_u8.
Defined.

Lemma decode_frame_exact_witness : exists b rest, demo_frame ++ [1] = b ++ rest /\ zlen b = zlen demo_frame
  /\ encoded (ep_decode (demo_endpoint None)) b (message_frame (RpcSession.outgoing 1 demo_options demo_call)).
Proof.
  apply (decode_frame_exact (ep_decode (demo_endpoint None)) (demo_frame ++ [1])).
  - apply Forall_app. split; [apply demo_frame_u8|by repeat constructor].
  - by vm_compute.
Defined.

Lemma message_roundtrip_witness :
  decode_frame (ep_decode (demo_endpoint None)) (demo_frame ++ [1; 2]) (zlen (demo_frame ++ [1; 2]))
  = Ok (Decoded (zlen demo_frame) (message_frame demo_sent)) /\ to_message (message_frame demo_sent) = received_message demo_sent.
Proof.
  exact (message_roundtrip (Some demo_cipher) (ep_decode (demo_endpoint None)) demo_sent [1; 2] demo_sent_ok
    demo_ciphers_agree ltac:(by vm_compute)).
Defined.

Lemma stream_reassembles_witness :
  feed (ep_decode (demo_endpoint None)) [firstn 40 demo_frame; []; skipn 40 demo_frame] [] = Ok ([message_frame demo_sent], []).
Proof.
  apply (stream_reassembles (ep_decode (demo_endpoint None)) [message_frame demo_sent] [demo_frame]).
  - constructor; [|constructor]. apply demo_encoded.
  - by vm_compute.
Defined.

Lemma buffer_encoder_agrees_witness :
  match encode_frame (Some demo_cipher) (message_header demo_sent) ∅ [] [] (str "ping") with
  | Some b => exists buf', encode_frame_to_buffer true (Some demo_cipher) (message_header demo_sent) (str "ping") ByteBuffer.default = Ok buf'
                /\ ByteBuffer.wf buf' /\ ByteBuffer.contents buf' = b
  | None => encode_frame_to_buffer true (Some demo_cipher) (message_header demo_sent) (str "ping") ByteBuffer.default = Reject
  end.
Proof.
  apply (buffer_encoder_agrees true (Some demo_cipher) (message_header demo_sent) ∅ [] [] (str "ping") ByteBuffer.default).
  - apply demo_sent_ok.
  - by apply (ByteBuffer.with_capacity_wf ByteBuffer.kDefaultCapacity).
Defined.

Definition demo_closed : RpcWorld := session_pair (demo_endpoint None) (with_open false (demo_endpoint (Some demo_server))) 1000.

Lemma failed_send_canceled_witness :
  exists w', RpcSession.send (Transport.send_frame Transport.depth) Near demo_call (Some 7) demo_options demo_closed = (Ret false, w')
    /\ w_trace w' = [Called Near 7 (set_failure st_canceled (str "send failed")
                       (set_continuation_id 5 (set_request_id 1 no_response)))]
    /\ endpoint_of Near w' = with_stats count_send_error (with_pending (PendingCallRegistry.mk 2 ∅) (demo_endpoint None))
    /\ endpoint_of Far w' = endpoint_of Far demo_closed.
Proof.
  refine (failed_send_canceled Near demo_call 7 demo_options demo_closed eq_refl _ _ eq_refl).
  - right. exists true. split; [done|]. by right.
  - by vm_compute.
Defined.

Lemma bus_is_a_map_witness :
  run_results bus_step [BusBind (mkRoute 1 2 []) (Some demo_echo); BusBind (mkRoute 1 2 (str "x")) (Some demo_echo);
    BusDispatch demo_sent; BusUnbind (mkRoute 1 2 []); BusSize] LocalBus.empty
  = run_results table_step [BusBind (mkRoute 1 2 []) (Some demo_echo); BusBind (mkRoute 1 2 (str "x")) (Some demo_echo);
    BusDispatch demo_sent; BusUnbind (mkRoute 1 2 []); BusSize] ∅.
Proof. apply bus_is_a_map. repeat constructor; cbn; lia. Defined.
