(* ===== verification/Http1.v ===== *)
(** HTTP/1 requests, from the bytes of a connection to the request that is dispatched:
    [packet_parser.cpp], [request_parser.cpp], [packet.cpp], [request.cpp], the content
    parsers, [context.cpp] and [parse_request] of [http_server.cpp], under
    [protocol/http/src], and the URLs of [url.cpp].

    Module [Url] has percent-encoding and parameters, with their lemmas ([decode_url] and
    [encode_url], which the client uses, are left out), [Headers] is the header store,
    [Http1] the parser and the packet, [Chunked] the decoder of chunked bodies, [Multipart]
    the parsers of multipart bodies, [Http1Content] the other content parsers and [Http1Connection] the rounds of a connection.
    The buffer that the parser reads is a [ByteBuffer], since the limits depend on its read
    offset; buffers that are appended to and read whole are the list of what they hold. A
    hash table of parameters is a map from names to the values in order. Left out:
    responses, and the tasks that a handler may attach to a packet. *)
From stdpp Require Import gmap.
From S2P Require Import Prelude Strings ByteBuffer.

(** * URLs *)
Module Url.

(** [std::isalnum] in the C locale. *)
Definition isalnum (c : Z) : bool :=
  ((48 <=? c) && (c <=? 57)) || ((65 <=? c) && (c <=? 90)) || ((97 <=? c) && (c <=? 122)).
Definition unreserved (c : Z) : bool := isalnum c || (c =? 45) || (c =? 95) || (c =? 46) || (c =? 126).

(** A digit as a stream with [std::hex] and [std::uppercase] writes it. *)
Definition hex_digit (n : Z) : Z := if n <? 10 then 48 + n else 65 + (n - 10).

Fixpoint url_encode (s : bytes) : bytes :=
  match s with
  | [] => []
  | c :: s => if unreserved c then c :: url_encode s
              else 37 :: hex_digit (Z.shiftr c 4) :: hex_digit (Z.land c 15) :: url_encode s
  end.

Definition hex_val (ch : Z) : Z :=
  if (48 <=? ch) && (ch <=? 57) then ch - 48
  else if (97 <=? ch) && (ch <=? 102) then ch - 97 + 10
  else if (65 <=? ch) && (ch <=? 70) then ch - 65 + 10
  else -1.

Fixpoint url_decode (s : bytes) (is_query_string : bool) : bytes :=
  match s with
  | [] => []
  | c :: rest =>
      let plain := (if is_query_string && (c =? 43) then 32 else c) :: url_decode rest is_query_string in
      if c =? 37 then
        match rest with
        | h :: l :: after =>
            let hi := hex_val h in
            let lo := hex_val l in
            if (0 <=? hi) && (0 <=? lo) then u8 (Z.lor (Z.shiftl hi 4) lo) :: url_decode after is_query_string
            else plain
        | _ => plain
        end
      else plain
  end.

(** The loop of [decode_url_domain]: [segment] is what was read of the current one. *)
Fixpoint segments (rest segment : bytes) (needs_decode : bool) : list bytes :=
  let flush := match segment with [] => [] | _ => [if needs_decode then url_decode segment false else segment] end in
  match rest with
  | [] => flush
  | c :: rest =>
      if c =? 63 then flush
      else if c =? 47 then flush ++ segments rest [] needs_decode
      else segments rest (segment ++ [c]) needs_decode
  end.

(** [None] is the result false. *)
Definition decode_url_domain (url : bytes) : option (list bytes) :=
  match index_of 47 url with
  | None => None
  | Some pos =>
      let rest := substr_from url (S pos) in
      match rest with
      | [] => Some [[47]]
      | _ => Some (segments rest [] (contains 37 rest))
      end
  end.

(** [params[key].push_back(val)] *)
Definition push_param (key val : bytes) (params : gmap bytes (list bytes)) : gmap bytes (list bytes) :=
  <[key := default [] (params !! key) ++ [val]]> params.

(** The loop of [decode_parameters] over the parts between ampersands; it ends at the end
    of the string, where a last part is empty. *)
Fixpoint parameters_loop (parts : list bytes) (params : gmap bytes (list bytes)) (fromBody : bool)
  : bool * gmap bytes (list bytes) :=
  match parts with
  | [] | [[]] => (true, params)
  | part :: parts =>
      match index_of 61 part with
      | None | Some O => (negb fromBody, params)
      | Some eq_pos =>
          let key := url_decode (substr part 0 eq_pos) true in
          let val := url_decode (substr_from part (S eq_pos)) true in
          parameters_loop parts (push_param key val params) fromBody
      end
  end.

Definition decode_parameters (url : bytes) (params : gmap bytes (list bytes)) (fromBody : bool)
  : bool * gmap bytes (list bytes) :=
  match index_of 63 url with
  | None => if fromBody then parameters_loop (split_on 38 url) params fromBody else (true, params)
  | Some pos => parameters_loop (split_on 38 (substr_from url (S pos))) params fromBody
  end.

(** A query as a browser writes it: what [decode_parameters] is to read. *)
Definition encode_pair (kv : bytes * bytes) : bytes := url_encode (fst kv) ++ 61 :: url_encode (snd kv).
Definition encode_query (kvs : list (bytes * bytes)) : bytes := join_with 38 (map encode_pair kvs).
Definition params_of (kvs : list (bytes * bytes)) (params : gmap bytes (list bytes)) : gmap bytes (list bytes) :=
  foldl (fun params kv => push_param (fst kv) (snd kv) params) params kvs.

(** * Lemmas *)
Lemma hex_val_digit n : 0 <= n < 16 -> hex_val (hex_digit n) = n.
Proof.
  intros H. unfold hex_digit. destruct (n <? 10) eqn:Hn; unfold hex_val; repeat case_if; lia.
Qed.
Lemma hex_pair c : is_u8 c ->
  0 <= Z.shiftr c 4 < 16 /\ 0 <= Z.land c 15 < 16 /\ u8 (Z.lor (Z.shiftl (Z.shiftr c 4) 4) (Z.land c 15)) = c.
Proof.
  unfold is_u8, u8. intros Hc. rewrite Z.shiftr_div_pow2 by lia. change 15 with (Z.ones 4).
  rewrite Z.land_ones by lia. change (2 ^ 4) with 16.
  assert (0 <= c mod 16 < 16) by (apply Z.mod_pos_bound; lia).
  rewrite lor_shiftl_add by (change (2 ^ 4) with 16; lia). change (2 ^ 4) with 16.
  Z.to_euclidean_division_equations. lia.
Qed.

Lemma url_decode_escape h l s q : 0 <= hex_val h -> 0 <= hex_val l ->
  url_decode (37 :: h :: l :: s) q = u8 (Z.lor (Z.shiftl (hex_val h) 4) (hex_val l)) :: url_decode s q.
Proof.
  intros Hh Hl. cbn [url_decode]. change (37 =? 37) with true. cbv iota.
  assert ((0 <=? hex_val h) && (0 <=? hex_val l) = true) as -> by lia. reflexivity.
Qed.
Lemma url_decode_plain c s q : unreserved c = true -> url_decode (c :: s) q = c :: url_decode s q.
Proof.
  intros H. assert ((c =? 37) = false /\ (c =? 43) = false) as [E1 E2] by (unfold unreserved, isalnum in H; lia).
  cbn [url_decode]. rewrite E1, E2, andb_false_r. reflexivity.
Qed.

Lemma url_decode_encode s q : Forall is_u8 s -> url_decode (url_encode s) q = s.
Proof.
  induction 1 as [|c s Hc _ IH]; [done|]. cbn [url_encode]. destruct (unreserved c) eqn:E.
  - by rewrite url_decode_plain, IH.
  - destruct (hex_pair c Hc) as (H1 & H2 & H3).
    rewrite url_decode_escape; rewrite !hex_val_digit by done; [by rewrite H3, IH|lia..].
Qed.

(** What is encoded has none of the characters that separate. *)
Lemma url_encode_chars s : Forall is_u8 s -> Forall (fun c => unreserved c = true \/ c = 37) (url_encode s).
Proof.
  assert (forall n, 0 <= n < 16 -> unreserved (hex_digit n) = true) as D.
  { intros n Hn. unfold hex_digit, unreserved, isalnum. destruct (n <? 10) eqn:?; lia. }
  induction 1 as [|c s Hc _ IH]; [by constructor|]. cbn [url_encode]. destruct (unreserved c) eqn:E.
  - constructor; [by left|done].
  - destruct (hex_pair c Hc) as (H1 & H2 & _). apply Forall_cons; split; [by right|].
    apply Forall_cons; split; [left; auto|]. apply Forall_cons; split; [left; auto|done].
Qed.
Lemma url_encode_free x s : Forall is_u8 s -> unreserved x = false -> x <> 37 -> x ∉ url_encode s.
Proof.
  intros Hs Hx Hn Hin. apply url_encode_chars in Hs. rewrite Forall_forall in Hs.
  destruct (Hs x Hin); congruence.
Qed.
Lemma url_encode_nil s : url_encode s = [] -> s = [].
Proof. destruct s as [|c s]; [done|]. cbn [url_encode]. by destruct (unreserved c). Qed.

Lemma index_of_middle c l r : c ∉ l -> index_of c (l ++ c :: r) = Some (length l).
Proof.
  induction l as [|x l IH]; intros H; cbn [index_of app].
  - by rewrite Z.eqb_refl.
  - apply not_elem_of_cons in H as [H1 H2].
    assert ((x =? c) = false) as -> by lia. by rewrite IH.
Qed.

Lemma substr_middle c l r : substr (l ++ c :: r) 0 (length l) = l.
Proof. unfold substr. by rewrite drop_0, take_app_length. Qed.
Lemma substr_from_middle c l r : substr_from (l ++ c :: r) (S (length l)) = r.
Proof. unfold substr_from. rewrite cons_middle, app_assoc. apply drop_app_length'. rewrite length_app. cbn. lia. Qed.

(** The parameters of an encoded query. *)
Lemma parameters_loop_encoded kvs params b :
  Forall (fun kv => kv.1 <> [] /\ Forall is_u8 kv.1 /\ Forall is_u8 kv.2) kvs ->
  parameters_loop (map encode_pair kvs) params b = (true, params_of kvs params).
Proof.
  intros H. revert params. induction H as [|[k v] kvs (Hk & Hk8 & Hv8) _ IH]; intros params; [done|].
  cbn [fst snd] in *.
  assert (61 ∉ url_encode k) as Hf by (by apply url_encode_free).
  assert (index_of 61 (encode_pair (k, v)) = Some (length (url_encode k))) as E
    by (unfold encode_pair; cbn [fst snd]; by apply index_of_middle).
  assert (exists n, length (url_encode k) = S n) as [n Hn].
  { destruct (url_encode k) as [|x l] eqn:El; [by apply url_encode_nil in El|]. by exists (length l). }
  assert (exists x l, encode_pair (k, v) = x :: l) as (x & l & El).
  { unfold encode_pair. cbn [fst snd]. destruct (url_encode k); eauto. }
  cbn [map parameters_loop]. rewrite E, Hn, El.
  rewrite <- El, <- Hn. change (encode_pair (k, v)) with (url_encode k ++ 61 :: url_encode v).
  rewrite substr_middle, substr_from_middle.
  rewrite !url_decode_encode by done. apply IH.
Qed.

Lemma decode_parameters_encoded path kvs params b :
  63 ∉ path -> kvs <> [] ->
  Forall (fun kv => kv.1 <> [] /\ Forall is_u8 kv.1 /\ Forall is_u8 kv.2) kvs ->
  decode_parameters (path ++ 63 :: encode_query kvs) params b = (true, params_of kvs params).
Proof.
  intros Hp Hn H. unfold decode_parameters. rewrite index_of_middle by done.
  rewrite substr_from_middle. unfold encode_query. rewrite split_join.
  - by apply parameters_loop_encoded.
  - by destruct kvs.
  - rewrite Forall_fmap. eapply Forall_impl; [exact H|]. intros [k v] (_ & Hk & Hv) Hin. cbn [fst snd] in *.
    unfold compose, encode_pair in Hin. cbn [fst snd] in Hin.
    apply elem_of_app in Hin as [Hin|Hin]; [by apply (url_encode_free 38) in Hin|].
    apply elem_of_cons in Hin as [?|Hin]; [lia|by apply (url_encode_free 38) in Hin].
Qed.

(** How often a parameter was given, and with what. *)
Lemma params_of_lookup kvs params k :
  default [] (params_of kvs params !! k) = default [] (params !! k) ++ map snd (List.filter (fun kv => bool_decide (kv.1 = k)) kvs).
Proof.
  revert params. induction kvs as [|[k' v] kvs IH]; intros params; cbn [params_of foldl List.filter fst snd].
  - by rewrite app_nil_r.
  - unfold params_of in IH. rewrite IH. unfold push_param. case_bool_decide as E.
    + subst k'. rewrite lookup_insert_eq. cbn [default option_map map snd id from_option]. by rewrite <- (app_assoc _ [v]).
    + by rewrite lookup_insert_ne by done.
Qed.
End Url.

(** The outside of the parser: the limits and switches of [config], whether the JSON
    library accepts a text, the time and the random number in the name of an upload and
    whether a file of some path can be opened, whether a temporary file can be created,
    whether a write to it succeeds when it holds so many bytes, and the clock. *)
Record Env : Type := mkEnv {
  max_header_length : Z;
  client_max_content_length : Z;
  enable_http2 : bool;
  enable_http3 : bool;
  json_accepts : bytes -> bool;
  form_data_upload_save : bool;
  upload_stamp : bytes;
  upload_opens : bytes -> bool;
  disk_opens : bool;
  disk_writes : Z -> bool;
  now : Z
}.

(** * The header store *)
Module Headers.

Definition host : bytes := str "host".
Definition connection : bytes := str "connection".
Definition content_length : bytes := str "content-length".
Definition content_type : bytes := str "content-type".
Definition transfer_encoding : bytes := str "transfer-encoding".
Definition accept : bytes := str "accept".
Definition accept_encoding : bytes := str "accept-encoding".
Definition user_agent : bytes := str "user-agent".
Definition content_disposition : bytes := str "content-disposition".

Definition ascii_lower (ch : Z) : Z := if (65 <=? ch) && (ch <=? 90) then ch + (97 - 65) else ch.

Fixpoint equal_ci_loop (lhs rhs : bytes) : bool :=
  match lhs, rhs with
  | l :: lhs, r :: rhs => if ascii_lower l =? ascii_lower r then equal_ci_loop lhs rhs else false
  | _, _ => true
  end.
Definition header_key_equals_ci (lhs rhs : bytes) : bool :=
  if negb (zlen lhs =? zlen rhs) then false else equal_ci_loop lhs rhs.

(** [parsed_header_name], slot by slot. The comparison of pointers in [parsed_header_slot]
    is a short cut of the comparison of the names. *)
Definition slot_names : list bytes :=
  [host; connection; content_length; content_type; transfer_encoding; accept; accept_encoding; user_agent].
Fixpoint slot_loop (key : bytes) (names : list bytes) (slot : nat) : option nat :=
  match names with
  | [] => None
  | name :: names => if header_key_equals_ci key name then Some slot else slot_loop key names (S slot)
  end.
Definition parsed_header_slot (key : bytes) : option nat := slot_loop key slot_names 0.

(** A slot is its value when its bit in [parsed_header_present_] is set. The hash table has
    case-insensitive keys: a map from the lower-case key to the key and the value. *)
Record t : Type := mk {
  parsed_header_values_ : list (option bytes);
  headers_ : gmap bytes (bytes * bytes);
  body_related_header_present_ : bool
}.
Definition init : t := mk (replicate 8 None) ∅ false.

Definition fold_key (key : bytes) : bytes := map ascii_lower key.

(** [headers_[k] = v] keeps the key that is there. *)
Definition assign (k v : bytes) (m : gmap bytes (bytes * bytes)) : gmap bytes (bytes * bytes) :=
  match m !! fold_key k with
  | Some (k0, _) => <[fold_key k := (k0, v)]> m
  | None => <[fold_key k := (k, v)]> m
  end.

Definition get_header (key : bytes) (h : t) : option bytes :=
  if bool_decide (key = []) then None
  else
    match parsed_header_slot key ≫= fun slot => mjoin (parsed_header_values_ h !! slot) with
    | Some v => Some v
    | None => snd <$> headers_ h !! fold_key key
    end.

Definition remove_header (k : bytes) (h : t) : t :=
  if bool_decide (k = []) then h
  else
    let values := match parsed_header_slot k with
                  | Some slot => <[slot := None]> (parsed_header_values_ h)
                  | None => parsed_header_values_ h
                  end in
    mk values (delete (fold_key k) (headers_ h)) (body_related_header_present_ h).

Definition body_related (k : bytes) : bool :=
  header_key_equals_ci k content_length || header_key_equals_ci k content_type
  || header_key_equals_ci k transfer_encoding.

Definition add_header (k v : bytes) (h : t) : t :=
  let h := remove_header k h in
  mk (parsed_header_values_ h) (assign k v (headers_ h)) (body_related_header_present_ h || body_related k).

(** [k] is one of the names of [http_header_key], which are compared by their address. *)
Definition add_parsed_header (k v : bytes) (h : t) : t :=
  match parsed_header_slot k with
  | Some slot =>
      mk (<[slot := Some v]> (parsed_header_values_ h)) (headers_ h)
         (body_related_header_present_ h || str_eqb k content_length || str_eqb k content_type || str_eqb k transfer_encoding)
  | None => mk (parsed_header_values_ h) (assign k v (headers_ h)) (body_related_header_present_ h)
  end.

Definition clear_parsed_headers (h : t) : t := mk (replicate 8 None) (headers_ h) (body_related_header_present_ h).
Definition clear_header (h : t) : t :=
  let h := clear_parsed_headers (mk (parsed_header_values_ h) ∅ (body_related_header_present_ h)) in
  mk (parsed_header_values_ h) (headers_ h) false.

(** [headers()]: the table with the slots copied into it. *)
Fixpoint materialize_loop (names : list bytes) (values : list (option bytes)) (m : gmap bytes (bytes * bytes))
  : gmap bytes (bytes * bytes) :=
  match names, values with
  | name :: names, Some v :: values => materialize_loop names values (assign name v m)
  | _ :: names, None :: values => materialize_loop names values m
  | _, _ => m
  end.
Definition materialize_parsed_headers (h : t) : t :=
  mk (parsed_header_values_ h) (materialize_loop slot_names (parsed_header_values_ h) (headers_ h))
     (body_related_header_present_ h).

(** The literals are in lower case. *)
Fixpoint equals_ci_literal (k literal : bytes) : bool :=
  match k, literal with
  | [], [] => true
  | c :: k, l :: literal => if ascii_lower c =? l then equals_ci_literal k literal else false
  | _, _ => false
  end.

Definition canonical_header_key (key : bytes) : option bytes :=
  match length key with
  | 4%nat => if equals_ci_literal key host then Some host else None
  | 6%nat => if equals_ci_literal key accept then Some accept else None
  | 10%nat =>
      if equals_ci_literal key connection then Some connection
      else if equals_ci_literal key user_agent then Some user_agent else None
  | 14%nat =>
      if equals_ci_literal key content_type then Some content_type
      else if equals_ci_literal key content_length then Some content_length else None
  | 15%nat => if equals_ci_literal key accept_encoding then Some accept_encoding else None
  | 17%nat => if equals_ci_literal key transfer_encoding then Some transfer_encoding else None
  | _ => None
  end.

(** Spaces and tabs around a value or a token. *)
Definition is_ows (ch : Z) : bool := (ch =? 32) || (ch =? 9).
Fixpoint skip_ows (s : bytes) : bytes :=
  match s with c :: rest => if is_ows c then skip_ows rest else s | [] => [] end.
Definition trim_ows (s : bytes) : bytes := rev (skip_ows (rev (skip_ows s))).

Fixpoint token_loop (token expected : bytes) : bool :=
  match token, expected with
  | t :: token, e :: expected =>
      if StringUtil.lower_ascii_char t =? e then token_loop token expected else false
  | _, _ => true
  end.
Definition token_equals_ci (token expected : bytes) : bool :=
  if negb (zlen token =? zlen expected) then false else token_loop token expected.

Definition transfer_encoding_has_chunked (value : bytes) : bool :=
  existsb (fun part => token_equals_ci (trim_ows part) (str "chunked")) (split_on 44 value).

Definition is_chunked (h : t) : bool :=
  match get_header transfer_encoding h with
  | Some value => transfer_encoding_has_chunked value
  | None => false
  end.

Inductive ContentLengthParseState : Type := missing | valid (result : Z) | invalid.

Definition is_digit (c : Z) : bool := (48 <=? c) && (c <=? 57).
Definition decimal (digits : bytes) : Z := foldl (fun n c => n * 10 + (c - 48)) 0 digits.

(** The value of the header; [std::from_chars] of a [uint32_t] rejects what is out of range. *)
Definition content_length_of (length : bytes) : ContentLengthParseState :=
  let digits := trim_ows length in
  if bool_decide (digits = []) then invalid
  else if negb (forallb is_digit digits) then invalid
  else if 4294967295 <? decimal digits then invalid
  else valid (decimal digits).
Definition parse_content_length_header (h : t) : ContentLengthParseState :=
  match get_header content_length h with
  | None => missing
  | Some length => content_length_of length
  end.
End Headers.

(** * The decoder of chunked bodies *)
Module Chunked.

Inductive ParsePhase : Type := read_size | read_data | read_data_crlf | read_trailer | done | error.
Inductive ChunkState : Type := completed_ | need_more_ | invalid_chunk_ | internal_error_.

(** [file_stream_] is what the temporary file holds; a file that was closed keeps its path. *)
Record t : Type := mk {
  phase_ : ParsePhase;
  total_bytes_ : Z;
  remain_bytes_ : Z;
  size_buf_ : bytes;
  pending_buffer_ : bytes;
  mem_buffer_ : bytes;
  file_stream_ : option bytes;
  trailer_checksum_ : bytes
}.
Definition init : t := mk read_size 0 0 [] [] [] None [].
Definition max_chunk_size_ : Z := 1024 * 1024 * 1024.
Definition disk_spill_size_ : Z := 1 * 1024 * 1024.
Definition max_size_buf_length_ : Z := 16.
Definition exceed_save_file_ : bool := true.

Definition with_phase (ph : ParsePhase) (c : t) : t :=
  mk ph (total_bytes_ c) (remain_bytes_ c) (size_buf_ c) (pending_buffer_ c) (mem_buffer_ c) (file_stream_ c) (trailer_checksum_ c).
Definition with_pending (rest : bytes) (c : t) : t :=
  mk (phase_ c) (total_bytes_ c) (remain_bytes_ c) (size_buf_ c) rest (mem_buffer_ c) (file_stream_ c) (trailer_checksum_ c).
Definition push_size (ch : Z) (c : t) : t :=
  mk (phase_ c) (total_bytes_ c) (remain_bytes_ c) (size_buf_ c ++ [ch]) (pending_buffer_ c) (mem_buffer_ c) (file_stream_ c)
     (trailer_checksum_ c).
Definition with_size (chunk_size : Z) (c : t) : t :=
  mk (if chunk_size =? 0 then read_trailer else read_data) (total_bytes_ c) chunk_size [] (pending_buffer_ c) (mem_buffer_ c)
     (file_stream_ c) (trailer_checksum_ c).
Definition with_trailer (x : bytes) (c : t) : t :=
  mk (phase_ c) (total_bytes_ c) (remain_bytes_ c) (size_buf_ c) (pending_buffer_ c) (mem_buffer_ c) (file_stream_ c)
     (trailer_checksum_ c ++ x).

(** [std::from_chars] in base 16; at most sixteen digits fit a [size_t]. *)
Definition hex_number (digits : bytes) : option Z :=
  match digits with
  | [] => None
  | _ => Some (foldl (fun n ch => n * 16 + Url.hex_val ch) 0 digits)
  end.
Definition isxdigit (ch : Z) : bool := 0 <=? Url.hex_val ch.

(** The characters up to the first carriage return, and the rest. *)
Fixpoint to_cr (s : bytes) : bytes * bytes :=
  match s with
  | [] => ([], [])
  | c :: rest => if c =? 13 then ([], s) else let '(x, y) := to_cr rest in (c :: x, y)
  end.

Section Feed.
Variable env : Env.

(** A write of chunk data: to the file or to the memory. [None] is a failed write. *)
Definition store (x : bytes) (c : t) : option t :=
  match file_stream_ c with
  | Some file =>
      if disk_writes env (zlen file) then
        Some (mk (phase_ c) (total_bytes_ c) (remain_bytes_ c) (size_buf_ c) (pending_buffer_ c) (mem_buffer_ c) (Some (file ++ x))
                 (trailer_checksum_ c))
      else None
  | None =>
      Some (mk (phase_ c) (total_bytes_ c) (remain_bytes_ c) (size_buf_ c) (pending_buffer_ c) (mem_buffer_ c ++ x) None
               (trailer_checksum_ c))
  end.

(** The counters after [n] bytes of data, and the spill to a file. *)
Definition count (n : Z) (c : t) : t :=
  let remain := remain_bytes_ c - n in
  mk (if remain =? 0 then read_data_crlf else phase_ c) (total_bytes_ c + n) remain (size_buf_ c) (pending_buffer_ c)
     (mem_buffer_ c) (file_stream_ c) (trailer_checksum_ c).
Definition spill (c : t) : t :=
  match file_stream_ c with
  | None =>
      if (disk_spill_size_ <? total_bytes_ c) && exceed_save_file_ then
        if disk_opens env then
          mk (phase_ c) (total_bytes_ c) (remain_bytes_ c) (size_buf_ c) (pending_buffer_ c) [] (Some (mem_buffer_ c))
             (trailer_checksum_ c)
        else with_phase error c
      else c
  | Some _ => c
  end.

(** [feed_data]: [rest] is what lies between [pos] and [data_end]. *)
Fixpoint feed_loop (fuel : nat) (rest : bytes) (c : t) : outcome (ChunkState * t) :=
  match fuel with
  | O => Diverge
  | S fuel =>
      let finish :=
        Ok (match phase_ c with error => invalid_chunk_ | done => completed_ | _ => need_more_ end, with_pending rest c) in
      match rest with
      | [] => finish
      | ch :: after =>
          match phase_ c with
          | done | error => finish
          | read_size =>
              if ch =? 13 then
                match after with
                | lf :: after =>
                    if lf =? 10 then
                      match hex_number (size_buf_ c) with
                      | Some chunk_size =>
                          if max_chunk_size_ <? chunk_size then feed_loop fuel after (with_phase error c)
                          else feed_loop fuel after (with_size chunk_size c)
                      | None => feed_loop fuel after (with_phase error c)
                      end
                    else Ok (need_more_, with_pending rest c)
                | [] => Ok (need_more_, with_pending rest c)
                end
              else if isxdigit ch then
                if max_size_buf_length_ <=? zlen (size_buf_ c) then feed_loop fuel after (with_phase error c)
                else feed_loop fuel after (push_size ch c)
              else if ch =? 59 then
                let '(extension, after) := to_cr after in
                match after with
                | [] => Ok (need_more_, with_pending [List.last extension ch] c)
                | _ => feed_loop fuel after c
                end
              else feed_loop fuel after (with_phase error c)
          | read_data =>
              let to_read := Z.min (zlen rest) (remain_bytes_ c) in
              match store (take (Z.to_nat to_read) rest) c with
              | None => feed_loop fuel rest (with_phase error c)
              | Some c =>
                  if (0 <? to_read) &&
                     ((client_max_content_length env <? to_read) ||
                      (client_max_content_length env - to_read <? total_bytes_ c))
                  then feed_loop fuel rest (with_phase error c)
                  else feed_loop fuel (drop (Z.to_nat to_read) rest) (spill (count to_read c))
              end
          | read_data_crlf =>
              match rest with
              | 13 :: 10 :: after => feed_loop fuel after (with_phase read_size c)
              | 13 :: _ => Ok (need_more_, with_pending rest c)
              | _ => feed_loop fuel rest (with_phase error c)
              end
          | read_trailer =>
              match rest with
              | 13 :: 10 :: after => feed_loop fuel after (with_phase done c)
              | _ =>
                  let '(checksum, after) := to_cr rest in
                  let c := with_trailer (map StringUtil.lower_ascii_char checksum) c in
                  let after := match after with 13 :: 10 :: after => after | 13 :: after => after | after => after end in
                  match after with
                  | [] => Ok (need_more_, with_pending [] c)
                  | _ => feed_loop fuel after c
                  end
              end
          end
      end
  end.
(** A round consumes a byte or ends in [error]. *)
Definition feed_data (c : t) : outcome (ChunkState * t) :=
  feed_loop (S (S (length (pending_buffer_ c)))) (pending_buffer_ c) c.
End Feed.
End Chunked.

(** * The packet and its parser *)
Module Http1.

Inductive HttpMethod : Type :=
| invalid_ | get_ | post_ | put_ | delete_ | options_ | head_ | comment_ | trace_ | patch_ | propfind_ | proppatch_
| mkcol_ | copy_ | move_ | lock_ | unlock_ | report_ | acl_ | search_.
#[export] Instance HttpMethod_eq_dec : EqDecision HttpMethod.
Proof. solve_decision. Defined.

Inductive HttpVersion : Type := invalid_version | v_1_0 | v_1_1 | v_2_0 | v_3_0.

Inductive HeaderState : Type :=
| too_long | init | metohd | method_gap | url | url_gap | version | version_newline | version_gap | header_status
| header_status_gap | header_status_desc | header_status_desc_gap | header_key | header_value | header_end_lines.
#[export] Instance HeaderState_eq_dec : EqDecision HeaderState.
Proof. solve_decision. Defined.

Inductive BodyState : Type := body_init | body_empty | partial | attachment | fully | body_too_long.
#[export] Instance BodyState_eq_dec : EqDecision BodyState.
Proof. solve_decision. Defined.

Inductive ContentType : Type :=
| not_support | text_plain | text_html | text_style_sheet | text_javascript | application_json | multpart_form_data
| multpart_byte_ranges | x_www_form_urlencoded | audio_mpeg | audio_ogg | video_mp4 | video_flv | video_mkv.
#[export] Instance ContentType_eq_dec : EqDecision ContentType.
Proof. solve_decision. Defined.

(** A field of a form. The data of a file is in the body, or in a file of its own. *)
Inductive FormDataItem : Type :=
| FormDataStringItem (value : bytes)
| FormDataFileItem (origin_name content_type_ : bytes) (data : bytes + bytes).
Record RangeChunk : Type := mkRange { range_data : bytes; range_from : Z; range_to : Z; range_length : Z }.

(** What a content parser stores; the JSON value stays the text that was accepted. The file
    of a [ChunkedContent] is absent when the path is empty. *)
Inductive Content : Type :=
| TextContent (type_ : ContentType) (data : bytes)
| JsonContent (text : bytes)
| FormDataContent (fields : gmap bytes FormDataItem)
| RangeDataContent (chunks : list RangeChunk)
| ChunkedContent (tmp_file : option bytes) (total_bytes : Z) (trailer_checksum : bytes).

Definition payload_too_large : Z := 413.
Definition bad_request : Z := 400.
Definition internal_server_error : Z := 500.
Definition http_version_not_supported : Z := 505.

(** The parser object, the request line, the headers with the flags of the connection
    header, the body, and what the packet reports. [None] is [npos]. *)
Record Parser : Type := mkParser { header_state : HeaderState; body_state : BodyState }.
Record Line : Type := mkLine {
  method_ : HttpMethod;
  url_ : bytes;
  query_pos_ : option nat;
  params_ : gmap bytes (list bytes);
  version_ : HttpVersion
}.
Record Head : Type := mkHead {
  headers : Headers.t;
  connection_close_requested_ : bool;
  connection_keep_alive_requested_ : bool
}.
(** A body in a file: the length that is expected, whether the stream is open, and what was
    written. *)
Record Spool : Type := mkSpool { body_file_expected_ : Z; body_file_open : bool; body_file : bytes }.
Record Body : Type := mkBody {
  body_length_ : Z;
  content_type_ : ContentType;
  content_type_text_ : bytes;
  content_type_extra_ : gmap bytes bytes;
  body_content_ : option Content;
  pre_content_parser_ : option Chunked.t;
  chunked_checksum_ : bytes;
  original_file_name_ : bytes;
  spool_ : option Spool
}.
Record Status : Type := mkStatus { is_good_ : bool; error_code_ : Z; is_download_file_ : bool }.
Record Packet : Type := mkPacket {
  parser_ : Parser;
  line : Line;
  head : Head;
  body : Body;
  status : Status;
  input_cache_ : ByteBuffer.t
}.

(** [reset]: the text of the URL and the storage of the buffer stay. *)
Definition init_body : Body := mkBody 0 not_support [] ∅ None None [] [] None.
Definition reset (p : Packet) : Packet :=
  mkPacket (mkParser init body_init) (mkLine invalid_ (url_ (line p)) None ∅ v_1_1) (mkHead Headers.init false false)
    init_body (mkStatus false internal_server_error false) (ByteBuffer.clear (input_cache_ p)).
Definition new_packet : Packet :=
  mkPacket (mkParser init body_init) (mkLine invalid_ [] None ∅ v_1_1) (mkHead Headers.init false false)
    init_body (mkStatus false internal_server_error false) ByteBuffer.default.

Definition set_header_state (s : HeaderState) (p : Packet) : Packet :=
  mkPacket (mkParser s (body_state (parser_ p))) (line p) (head p) (body p) (status p) (input_cache_ p).
Definition set_body_state (s : BodyState) (p : Packet) : Packet :=
  mkPacket (mkParser (header_state (parser_ p)) s) (line p) (head p) (body p) (status p) (input_cache_ p).
Definition set_line (l : Line) (p : Packet) : Packet :=
  mkPacket (parser_ p) l (head p) (body p) (status p) (input_cache_ p).
Definition set_method (m : HttpMethod) (p : Packet) : Packet :=
  let l := line p in set_line (mkLine m (url_ l) (query_pos_ l) (params_ l) (version_ l)) p.
Definition set_url (u : bytes) (q : option nat) (p : Packet) : Packet :=
  let l := line p in set_line (mkLine (method_ l) u q (params_ l) (version_ l)) p.
Definition set_params (m : gmap bytes (list bytes)) (p : Packet) : Packet :=
  let l := line p in set_line (mkLine (method_ l) (url_ l) (query_pos_ l) m (version_ l)) p.
Definition set_version (v : HttpVersion) (p : Packet) : Packet :=
  let l := line p in set_line (mkLine (method_ l) (url_ l) (query_pos_ l) (params_ l) v) p.
Definition set_head (h : Head) (p : Packet) : Packet :=
  mkPacket (parser_ p) (line p) h (body p) (status p) (input_cache_ p).
Definition set_body (b : Body) (p : Packet) : Packet :=
  mkPacket (parser_ p) (line p) (head p) b (status p) (input_cache_ p).
Definition set_body_length (n : Z) (p : Packet) : Packet :=
  let b := body p in
  set_body (mkBody n (content_type_ b) (content_type_text_ b) (content_type_extra_ b) (body_content_ b)
              (pre_content_parser_ b) (chunked_checksum_ b) (original_file_name_ b) (spool_ b)) p.
Definition set_type (t : ContentType) (text : bytes) (extra : gmap bytes bytes) (p : Packet) : Packet :=
  let b := body p in
  set_body (mkBody (body_length_ b) t text extra (body_content_ b)
              (pre_content_parser_ b) (chunked_checksum_ b) (original_file_name_ b) (spool_ b)) p.
Definition set_content (c : option Content) (p : Packet) : Packet :=
  let b := body p in
  set_body (mkBody (body_length_ b) (content_type_ b) (content_type_text_ b) (content_type_extra_ b) c
              (pre_content_parser_ b) (chunked_checksum_ b) (original_file_name_ b) (spool_ b)) p.
Definition set_chunked (c : option Chunked.t) (checksum : bytes) (p : Packet) : Packet :=
  let b := body p in
  set_body (mkBody (body_length_ b) (content_type_ b) (content_type_text_ b) (content_type_extra_ b) (body_content_ b)
              c checksum (original_file_name_ b) (spool_ b)) p.
Definition set_file_name (name : bytes) (p : Packet) : Packet :=
  let b := body p in
  set_body (mkBody (body_length_ b) (content_type_ b) (content_type_text_ b) (content_type_extra_ b) (body_content_ b)
              (pre_content_parser_ b) (chunked_checksum_ b) name (spool_ b)) p.
Definition set_spool (s : option Spool) (p : Packet) : Packet :=
  let b := body p in
  set_body (mkBody (body_length_ b) (content_type_ b) (content_type_text_ b) (content_type_extra_ b) (body_content_ b)
              (pre_content_parser_ b) (chunked_checksum_ b) (original_file_name_ b) s) p.
Definition set_status (s : Status) (p : Packet) : Packet :=
  mkPacket (parser_ p) (line p) (head p) (body p) s (input_cache_ p).
Definition set_good (b : bool) (p : Packet) : Packet :=
  set_status (mkStatus b (error_code_ (status p)) (is_download_file_ (status p))) p.
Definition set_error_code (code : Z) (p : Packet) : Packet :=
  set_status (mkStatus (is_good_ (status p)) code (is_download_file_ (status p))) p.
Definition set_download_file (b : bool) (p : Packet) : Packet :=
  set_status (mkStatus (is_good_ (status p)) (error_code_ (status p)) b) p.
Definition set_input_cache (b : ByteBuffer.t) (p : Packet) : Packet :=
  mkPacket (parser_ p) (line p) (head p) (body p) (status p) b.

Definition good (p : Packet) : bool := is_good_ (status p) || is_download_file_ (status p).
Definition is_header_done (p : Packet) : bool := bool_decide (header_state (parser_ p) = header_end_lines).
Definition is_body_done (p : Packet) : bool :=
  bool_decide (body_state (parser_ p) = fully) || bool_decide (body_state (parser_ p) = body_empty).
Definition done (p : Packet) : bool := is_header_done p && (is_body_done p || is_download_file_ (status p)).
Definition is_chunked (p : Packet) : bool := Headers.is_chunked (headers (head p)).

Definition note_connection_header (value : bytes) (h : Head) : Head :=
  if str_eqb value (str "keep-alive") then mkHead (headers h) (connection_close_requested_ h) true
  else if str_eqb value (str "close") then mkHead (headers h) true (connection_keep_alive_requested_ h)
  else
    foldl (fun h part =>
             let token := Headers.trim_ows part in
             if Headers.token_equals_ci token (str "close") then mkHead (headers h) true (connection_keep_alive_requested_ h)
             else if Headers.token_equals_ci token (str "keep-alive")
                  then mkHead (headers h) (connection_close_requested_ h) true
                  else h)
          h (split_on 44 value).

(** [get_last_uri] *)
Fixpoint after_last (c : Z) (s : bytes) : option bytes :=
  match s with
  | [] => None
  | x :: rest => match after_last c rest with
                 | Some tail => Some tail
                 | None => if x =? c then Some rest else None
                 end
  end.
Definition get_last_uri (env : Env) (p : Packet) : bytes :=
  match url_ (line p) with
  | [] => str "tmp." ++ to_string (now env)
  | u => default u (after_last 47 u)
  end.

(** The [switch] over the length and the comparisons of [parse_method]. *)
Definition method_text (m : HttpMethod) : bytes :=
  match m with
  | invalid_ => []
  | get_ => str "GET" | put_ => str "PUT" | acl_ => str "ACL"
  | post_ => str "POST" | head_ => str "HEAD" | copy_ => str "COPY" | move_ => str "MOVE" | lock_ => str "LOCK"
  | trace_ => str "TRACE" | patch_ => str "PATCH" | mkcol_ => str "MKCOL"
  | delete_ => str "DELETE" | unlock_ => str "UNLOCK" | report_ => str "REPORT" | search_ => str "SEARCH"
  | options_ => str "OPTIONS" | comment_ => str "COMMENT"
  | propfind_ => str "PROPFIND" | proppatch_ => str "PROPPATCH"
  end.
Definition first_method (method : bytes) (ms : list HttpMethod) : option HttpMethod :=
  snd <$> list_find (fun m => method_text m = method) ms.
Definition method_of (method : bytes) : option HttpMethod :=
  match length method with
  | 3%nat => first_method method [get_; put_; acl_]
  | 4%nat => first_method method [post_; head_; copy_; move_; lock_]
  | 5%nat => first_method method [trace_; patch_; mkcol_]
  | 6%nat => first_method method [delete_; unlock_; report_; search_]
  | 7%nat => first_method method [options_; comment_]
  | 8%nat => first_method method [propfind_]
  | 9%nat => first_method method [proppatch_]
  | _ => None
  end.

(** The loop of [parse_method]: how many bytes it reads, and the token in upper case when a
    space ends it within sixteen characters. *)
Fixpoint method_loop (data method : bytes) (n : Z) : Z * option bytes :=
  match data with
  | [] => (n, None)
  | ch :: data =>
      if ch =? 32 then (n + 1, Some method)
      else if zlen method =? 16 then (n + 1, None)
      else method_loop data (method ++ [StringUtil.upper_ascii_char ch]) (n + 1)
  end.

Section Parse.
Variable env : Env.
Import ByteBuffer.
Abbreviation buffer := ByteBuffer.t (only parsing).

Definition parse_method (p : Packet) (buff : buffer) : outcome (bool * Packet * buffer) :=
  if readable_bytes buff =? 0 then Ok (false, p, buff)
  else
    let p := set_header_state metohd p in
    data ← readable_span buff;
    if Headers.equal_ci_loop (take 3 data) (str "get") && str_eqb (substr data 3 1) [32] && (4 <=? zlen data)
    then Ok (true, set_method get_ p, consume 4 buff)
    else
      let '(n, token) := method_loop data [] 0 in
      let buff := consume n buff in
      match token with
      | None | Some [] => Ok (false, p, buff)
      | Some method =>
          let p := match method_of method with Some m => set_method m p | None => p end in
          Ok (negb (bool_decide (method_ (line p) = invalid_)), p, buff)
      end.

Definition parse_url (p : Packet) (buff : buffer) : outcome (bool * Packet * buffer) :=
  if negb (bool_decide (header_state (parser_ p) = method_gap)) || (readable_bytes buff =? 0) then Ok (false, p, buff)
  else
    let p := set_header_state url p in
    data ← readable_span buff;
    match index_of 32 data with
    | None | Some O => Ok (false, p, buff)
    | Some token_len =>
        if max_header_length env <? read_offset_ buff + Z.of_nat token_len then Ok (false, set_header_state too_long p, buff)
        else
          let raw_url := take token_len data in
          let needs_decode := contains 37 raw_url in
          let query_pos := index_of 63 raw_url in
          let url_ := if needs_decode then Url.url_decode raw_url false else raw_url in
          let query_pos_ := match query_pos with
                            | Some pos => if needs_decode then index_of 63 url_ else Some pos
                            | None => None
                            end in
          let p := set_url url_ query_pos_ p in
          let buff := consume (Z.of_nat token_len + 1) buff in
          if match url_ with [] => true | c :: _ => negb (c =? 47) && negb (contains 47 url_) end then Ok (false, p, buff)
          else
            match query_pos with
            | None => Ok (true, p, buff)
            | Some pos =>
                let '(ok, params) := Url.decode_parameters (substr_from raw_url pos) (params_ (line p)) false in
                Ok (ok, set_params params p, buff)
            end
    end.

Definition version_of (v : bytes) : option HttpVersion :=
  if str_eqb v (str "1.0") then Some v_1_0
  else if str_eqb v (str "1.1") then Some v_1_1
  else if str_eqb v (str "2.0") then Some v_2_0
  else if str_eqb v (str "3.0") then Some v_3_0
  else None.

(** [next] is zero for the version of a response. *)
Definition parse_version (ending next : Z) (p : Packet) (buff : buffer) : outcome (bool * Packet * buffer) :=
  if (negb (bool_decide (header_state (parser_ p) = url_gap)) && negb (bool_decide (header_state (parser_ p) = init)))
     || (readable_bytes buff =? 0) then Ok (false, p, buff)
  else
    let p := set_header_state version p in
    data ← readable_span buff;
    if (ending =? 13) && (next =? 10) && str_eqb (take 10 data) (str "HTTP/1.1" ++ [13; 10])
    then Ok (true, set_version v_1_1 p, consume 10 buff)
    else
      match index_of ending data with
      | None => Ok (false, p, buff)
      | Some token_len =>
          if Nat.ltb token_len 6 then Ok (false, p, buff)
          else if negb (Headers.equal_ci_loop (take 4 data) (str "http") && str_eqb (substr data 4 1) (str "/"))
          then Ok (false, p, buff)
          else
            let consumed := S token_len in
            if negb (next =? 0) && negb (bool_decide (data !! consumed = Some next)) then Ok (false, p, buff)
            else
              let consumed := if next =? 0 then consumed else S consumed in
              match version_of (substr data 5 (token_len - 5)) with
              | None => Ok (false, p, buff)
              | Some v => Ok (true, set_version v p, consume (Z.of_nat consumed) buff)
              end
      end.

(** A line of [parse_header_keys], without its end: the headers after it, or the state in
    which the parser gives up. *)
Definition header_line (l : bytes) (h : Head) : HeaderState + Head :=
  match index_of 58 l with
  | None | Some O => inl header_key
  | Some colon =>
      let key := take colon l in
      let value := drop (S colon) l in
      let val := match value with c :: rest => if Headers.is_ows c then rest else value | [] => [] end in
      match Headers.canonical_header_key key with
      | Some canonical =>
          let h := if str_eqb canonical Headers.connection then note_connection_header val h else h in
          inr (mkHead (Headers.add_parsed_header canonical val (headers h)) (connection_close_requested_ h)
                      (connection_keep_alive_requested_ h))
      | None =>
          inr (mkHead (Headers.add_header (map Headers.ascii_lower key) val (headers h)) (connection_close_requested_ h)
                      (connection_keep_alive_requested_ h))
      end
  end.

(** The loop: [rest] is the data from [pos], [off] is [start_offset + pos]. The result has
    what is left after the empty line, or the state in which it gave up. *)
Fixpoint header_loop (fuel : nat) (rest : bytes) (off : Z) (s : HeaderState) (h : Head)
  : outcome ((HeaderState + bytes) * Head) :=
  match fuel with
  | O => Diverge
  | S fuel =>
      match rest with
      | [] => Ok (inl s, h)
      | _ =>
          match index_of 10 rest with
          | None => Ok (inl header_key, h)
          | Some line_end =>
              if max_header_length env <? off + Z.of_nat line_end then Ok (inl too_long, h)
              else
                match line_end with
                | O => Ok (inl header_key, h)
                | S line_len =>
                    if negb (bool_decide (rest !! line_len = Some 13)) then Ok (inl header_key, h)
                    else
                      let after := drop (S line_end) rest in
                      match line_len with
                      | O => Ok (inr after, h)
                      | _ =>
                          match header_line (take line_len rest) h with
                          | inl s => Ok (inl s, h)
                          | inr h => header_loop fuel after (off + Z.of_nat line_end + 1) header_value h
                          end
                      end
                end
          end
      end
  end.

Definition parse_header_keys (p : Packet) (buff : buffer) : outcome (bool * Packet * buffer) :=
  if (readable_bytes buff =? 0)
     || (negb (bool_decide (header_state (parser_ p) = version_newline))
         && negb (bool_decide (header_state (parser_ p) = header_status_desc_gap))) then Ok (false, p, buff)
  else
    data ← readable_span buff;
    '(r, h) ← header_loop (S (length data)) data (read_offset_ buff) (header_state (parser_ p)) (head p);
    let p := set_head h p in
    match r with
    | inl s => Ok (false, set_header_state s p, buff)
    | inr rest => Ok (true, set_header_state header_key p, consume (zlen data - zlen rest) buff)
    end.

Definition clear_header (p : Packet) : Packet :=
  set_head (mkHead (Headers.clear_header (headers (head p))) (connection_close_requested_ (head p))
                   (connection_keep_alive_requested_ (head p))) p.

(** The four stages of [parse_header]: each runs in its state, goes on to the next one, or
    goes back to where it began; then the length is checked. *)
Definition stage (here next : HeaderState) (parse : Packet -> buffer -> outcome (bool * Packet * buffer))
    (on_failure : Packet -> Packet) (p : Packet) (buff : buffer) : outcome (bool * Packet * buffer) :=
  '(ok, p, buff) ← (if bool_decide (header_state (parser_ p) = here) then
                      let from := read_offset_ buff in
                      '(ok, p, buff) ← parse p buff;
                      if ok : bool then Ok (true, set_header_state next p, buff)
                      else Ok (false, on_failure (set_header_state here p), set_read_offset from buff)
                    else Ok (true, p, buff));
  if negb ok then Ok (false, p, buff)
  else if max_header_length env <? read_offset_ buff then Ok (false, set_header_state too_long p, buff)
  else Ok (true, p, buff).

Definition parse_header (p : Packet) (buff : buffer) : outcome (bool * Packet * buffer) :=
  '(ok, p, buff) ← stage init method_gap parse_method id p buff;
  if negb ok then Ok (false, p, buff)
  else
    '(ok, p, buff) ← stage method_gap url_gap parse_url id p buff;
    if negb ok then Ok (false, p, buff)
    else
      '(ok, p, buff) ← stage url_gap version_newline (parse_version 13 10) id p buff;
      if negb ok then Ok (false, p, buff)
      else stage version_newline header_end_lines parse_header_keys clear_header p buff.

Definition kBodyFileSpoolThreshold : Z := 64 * 1024.
Definition should_spool_request_body (p : Packet) (length : Z) : bool :=
  if length <=? kBodyFileSpoolThreshold then false else bool_decide (method_ (line p) = put_).

Definition begin_body_file_spool (expected_length : Z) (p : Packet) : bool * Packet :=
  if expected_length =? 0 then (false, p)
  else
    match spool_ (body p) with
    | Some s => if body_file_open s then (true, p)
                else if disk_opens env then (true, set_spool (Some (mkSpool expected_length true [])) p)
                else (false, set_spool None p)
    | None => if disk_opens env then (true, set_spool (Some (mkSpool expected_length true [])) p)
              else (false, set_spool None p)
    end.
Definition body_file_received (p : Packet) : Z :=
  match spool_ (body p) with Some s => zlen (body_file s) | None => 0 end.
Definition append_body_file_bytes (data : bytes) (p : Packet) : bool * Packet :=
  match spool_ (body p) with
  | Some s =>
      if negb (body_file_open s) || bool_decide (data = []) then (bool_decide (data = []), p)
      else if disk_writes env (zlen (body_file s)) then
        let file := body_file s ++ data in
        (true, set_spool (Some (mkSpool (body_file_expected_ s) (negb (body_file_expected_ s <=? zlen file)) file)) p)
      else (false, p)
  | None => (bool_decide (data = []), p)
  end.
Definition body_file_spool_done (p : Packet) : bool :=
  match spool_ (body p) with
  | Some s => (0 <? body_file_expected_ s) && (body_file_expected_ s <=? zlen (body_file s))
  | None => false
  end.
Definition has_body_file (p : Packet) : bool := bool_decide (is_Some (spool_ (body p))).

Definition parse_body (length : Z) (p : Packet) (buff : buffer) : Z :=
  if negb (is_header_done p) then 0
  else if client_max_content_length env <? length then -1
  else if readable_bytes buff <? length then 0
  else 1.

(** [find_content_type] *)
Definition ContentType_mapping : list (bytes * ContentType) :=
  [(str "text/plain", text_plain); (str "text/html", text_html); (str "text/css", text_style_sheet);
   (str "text/javascript", text_javascript); (str "application/json", application_json);
   (str "multipart/form-data", multpart_form_data); (str "multipart/byteranges", multpart_byte_ranges);
   (str "application/x-www-form-urlencoded", x_www_form_urlencoded); (str "audio/mpeg", audio_mpeg);
   (str "audio/ogg", audio_ogg); (str "video/mp4", video_mp4); (str "video/flv", video_flv);
   (str "video/mkv", video_mkv)].
Definition find_content_type (name : bytes) : ContentType :=
  match list_find (fun e => fst e = name) ContentType_mapping with
  | Some (_, (_, t)) => t
  | None => not_support
  end.
(** [ContentParserFactory::can_parse] *)
Definition can_parse (t : ContentType) : bool :=
  match t with
  | text_plain | text_html | text_javascript | text_style_sheet | multpart_form_data | multpart_byte_ranges
  | application_json | x_www_form_urlencoded => true
  | _ => false
  end.

(** A body in a file: the branch of [parse] under [should_spool_request_body]. *)
Definition parse_spooled (length : Z) (p : Packet) (buff : buffer) : outcome (Z * Packet * buffer) :=
  let failed p buff := Ok (-2, set_body_state body_too_long p, buff) in
  let '(ok, p) := begin_body_file_spool length p in
  if negb ok then failed p buff
  else
    let remaining := u32 (length - u32 (body_file_received p)) in
    let to_write := Z.min remaining (u32 (readable_bytes buff)) in
    data ← rd_range (storage_ buff) (read_offset_ buff) to_write;
    let '(ok, p) := if 0 <? to_write then append_body_file_bytes data p else (true, p) in
    if negb ok then failed p buff
    else
      let buff := if 0 <? to_write then consume to_write buff else buff in
      if body_file_spool_done p then Ok (1, set_body_state fully p, buff)
      else Ok (0, set_body_state partial p, buff).

(** A body in the buffer: the branch after it, for a request. *)
Definition parse_buffered (length : Z) (p : Packet) (buff : buffer) : Z * Packet * buffer :=
  let res := parse_body length p buff in
  if res =? 0 then (0, set_body_state partial p, buff)
  else if res <? 0 then (-2, set_body_state body_too_long p, buff)
  else
    let p := set_body_state fully p in
    match Headers.get_header Headers.content_disposition (headers (head p)) with
    | Some _ => (-1, p, buff)
    | None =>
        match Headers.get_header Headers.content_type (headers (head p)) with
        | Some t =>
            if can_parse (find_content_type t) then (res, p, buff)
            else (1, set_file_name (get_last_uri env p) (set_download_file true p), buff)
        | None => (res, p, buff)
        end
    end.

(** [HttpPacketParser::parse]: the branch for a packet whose headers are complete. *)
Definition parse_message (p : Packet) (buff : buffer) : outcome (Z * Packet * buffer) :=
  let h := headers (head p) in
  if negb (Headers.body_related_header_present_ h) then Ok (1, set_body_state body_empty p, buff)
  else
    let has_transfer_encoding := bool_decide (is_Some (Headers.get_header Headers.transfer_encoding h)) in
    match Headers.parse_content_length_header h with
    | Headers.invalid => Ok (-1, p, buff)
    | length_state =>
        let has_content_length := match length_state with Headers.valid _ => true | _ => false end in
        let length := match length_state with Headers.valid n => n | _ => 0 end in
        if has_content_length && has_transfer_encoding then Ok (-1, p, buff)
        else if has_transfer_encoding then
          if negb (is_chunked p) then Ok (-1, p, buff) else Ok (1, set_body_state body_empty p, buff)
        else
          let p := if has_content_length then set_body_length length p else p in
          if 0 <? length then
            if should_spool_request_body p length then parse_spooled length p buff
            else Ok (parse_buffered length p buff)
          else Ok (1, set_body_state body_empty p, buff)
    end.

Definition parse (p : Packet) (buff : buffer) : outcome (Z * Packet * buffer) :=
  if done p then Ok (-2, set_body_state body_too_long p, buff)
  else
    '(ok, p, buff) ← (if is_header_done p then Ok (true, p, buff) else parse_header p buff);
    if negb ok then Ok (-1, p, buff)
    else if bool_decide (header_state (parser_ p) = too_long) then Ok (-2, p, buff)
    else if is_header_done p then parse_message p buff
    else Ok (if is_body_done p then 1 else 0, p, buff).

(** * What a connection does with a packet *)

(** [HttpPacket::parse_content_type]: whether it succeeds, the type appended to [ctype], the
    parameters, and what is left of the text. *)
Definition lower_trimmed (s : bytes) : bytes := map Headers.ascii_lower (StringUtil.trim_ascii s).
Fixpoint until (stop : Z -> bool) (s : bytes) : bytes * bytes :=
  match s with
  | [] => ([], [])
  | c :: rest => if stop c then ([], s) else let '(x, y) := until stop rest in (c :: x, y)
  end.
Fixpoint extra_loop (fuel : nat) (s : bytes) (extra : gmap bytes bytes) : outcome (gmap bytes bytes * bytes) :=
  match fuel with
  | O => Diverge
  | S fuel =>
      match s with
      | [] => Ok (extra, [])
      | _ =>
          let s := StringUtil.trim_front s in
          if match s with [] => true | c :: _ => c =? 13 end then Ok (extra, s)
          else
            let '(key, s) := until (fun c => (c =? 61) || (c =? 59) || (c =? 13)) s in
            match s with
            | [] => Ok (extra, [])
            | c :: s' =>
                if negb (c =? 61) then Ok (extra, s)
                else
                  let '(value, s) := until (fun c => (c =? 59) || (c =? 13)) s' in
                  let extra := match lower_trimmed key with [] => extra | k => <[k := lower_trimmed value]> extra end in
                  extra_loop fuel (match s with c :: rest => if c =? 59 then rest else s | [] => [] end) extra
            end
      end
  end.
Definition consume_crlf_if_any (s : bytes) : bytes :=
  match s with
  | c :: rest => if c =? 13 then match rest with d :: rest' => if d =? 10 then rest' else rest | [] => [] end else s
  | [] => []
  end.
Definition parse_content_type (text ctype : bytes) (extra : gmap bytes bytes) : outcome (bool * bytes * gmap bytes bytes * bytes) :=
  match text with
  | [] => Ok (false, ctype, extra, text)
  | _ =>
      let '(name, rest) := until (fun c => (c =? 59) || (c =? 13)) text in
      let ctype := ctype ++ lower_trimmed name in
      match rest with
      | c :: rest' =>
          if negb (c =? 59) then Ok (true, ctype, extra, consume_crlf_if_any rest)
          else if zlen ctype <? 256 then
            '(extra, rest) ← extra_loop (S (length rest')) rest' extra; Ok (true, ctype, extra, consume_crlf_if_any rest)
          else Ok (true, ctype, extra, consume_crlf_if_any rest')
      | [] => Ok (true, ctype, extra, [])
      end
  end.

Fixpoint complete_header_loop (data : bytes) : bool :=
  match data with
  | [] => false
  | c :: rest => bool_decide (take 4 data = [13; 10; 13; 10]) || complete_header_loop rest
  end.
Definition has_complete_http_header (buffer : buffer) : outcome bool :=
  data ← readable_span buffer; Ok (complete_header_loop data).

(** The sum of two [uint32_t]. *)
Definition get_max_packet_size : Z := u32 (max_header_length env + client_max_content_length env).

Definition parse_input_cache (p : Packet) : outcome (bool * Packet) :=
  if get_max_packet_size <? readable_bytes (input_cache_ p) then Ok (false, set_good false p)
  else
    '(res, p, buff) ← parse p (input_cache_ p);
    cache ← compact buff;
    let p := set_input_cache cache p in
    if res <? 0 then
      complete ← (if (res =? -1) && negb (is_header_done p) then has_complete_http_header cache else Ok true);
      if negb complete then
        if max_header_length env <? readable_bytes cache then Ok (false, set_good false p)
        else Ok (false, set_good true p)
      else Ok (false, set_good false (set_error_code (if res =? -2 then payload_too_large else bad_request) p))
    else if res =? 1 then
      let p := set_good true p in
      match Headers.get_header Headers.content_type (headers (head p)) with
      | None => Ok (true, p)
      | Some ctype =>
          '(ok, text, extra, _) ← parse_content_type ctype (content_type_text_ (body p)) (content_type_extra_ (body p));
          Ok (true, set_type (find_content_type text) text extra (set_good ok p))
      end
    else Ok (false, set_good true p).

(** [HttpPacket::parse(ByteBuffer &&)] *)
Definition packet_parse (buff : buffer) (p : Packet) : outcome (bool * Packet) :=
  if done p && negb (is_download_file_ (status p)) then
    p ← (if is_chunked p && bool_decide (body_state (parser_ p) = partial) && negb (ByteBuffer.empty buff)
         then cache ← append_buffer buff (input_cache_ p); Ok (set_input_cache cache p) else Ok p);
    Ok (true, p)
  else if is_download_file_ (status p) then Ok (false, p)
  else
    p ← (if negb (ByteBuffer.empty buff) then
           if ByteBuffer.empty (input_cache_ p) then Ok (set_input_cache buff p)
           else cache ← append_buffer buff (input_cache_ p); Ok (set_input_cache cache p)
         else Ok p);
    parse_input_cache p.

(** [take_leftover_buffer]: what it returns, and the buffer after it. *)
Definition take_leftover_buffer (p : Packet) : outcome (bytes * Packet) :=
  let cleared := set_input_cache (ByteBuffer.clear (input_cache_ p)) p in
  data ← readable_span (input_cache_ p);
  if has_body_file p && body_file_spool_done p then Ok (data, cleared)
  else if zlen data <=? body_length_ (body p) then Ok ([], cleared)
  else Ok (drop (Z.to_nat (body_length_ (body p))) data, cleared).

(** The bytes between [body_begin()] and [body_end()]; when the first exists and the second
    does not, a copy of the range is out of bounds. *)
Definition body_range (p : Packet) : outcome bytes :=
  if body_length_ (body p) =? 0 then Ok []
  else if readable_bytes (input_cache_ p) <=? 0 then Ok []
  else rd_range (storage_ (input_cache_ p)) (read_offset_ (input_cache_ p))
         (if body_length_ (body p) <=? readable_bytes (input_cache_ p) then body_length_ (body p) else -1).
End Parse.
End Http1.

(** * The parsers of multipart bodies
    The body is a [text] of which positions are offsets, [body_end] the one behind it. A
    position may lie behind the end: the parsers check that in some places and not in others.
    A read there is a fault: what it would find is not of the body, but what is behind it in
    the cache, if anything is. *)
Module Multipart.
Import Http1.

(** [header_util.cpp]. [str_cmp] lowers the case of the range and stops at the end of the C
    string. *)
Fixpoint str_cmp (range s : bytes) : bool :=
  match range, s with
  | [], [] => true
  | [], d :: _ => d =? 0
  | _ :: _, [] => false
  | c :: range, d :: s => if d =? 0 then false else if Headers.ascii_lower c =? d then str_cmp range s else false
  end.

Fixpoint identifier_loop (s : bytes) (quoted : bool) : bytes :=
  match s with
  | [] => []
  | ch :: s =>
      if ch =? 32 then identifier_loop s quoted
      else if ch =? 34 then if quoted then [] else identifier_loop s true
      else if (ch =? 61) || (ch =? 58) || (ch =? 59) || (ch =? 13) then []
      else Headers.ascii_lower ch :: identifier_loop s quoted
  end.

Fixpoint next_loop (s : bytes) (ending : Z) : outcome bytes :=
  match s with
  | [] => Fault
  | ch :: s => if ch =? ending then Ok [] else rest ← next_loop s ending; Ok (ch :: rest)
  end.

(** [std::stoul] in base 10, with an [unsigned long] of 64 bits: it skips spaces, takes a
    sign and the digits, and throws when there is no digit or the number is too large. *)
Fixpoint digits_loop (s : bytes) (n : Z) : Z :=
  match s with
  | c :: s => if (48 <=? c) && (c <=? 57) then digits_loop s (10 * n + (c - 48)) else n
  | [] => n
  end.
Definition stoul (s : bytes) : outcome Z :=
  let s := StringUtil.trim_front s in
  let '(negative, s) := match s with
                        | c :: rest => if c =? 45 then (true, rest) else if c =? 43 then (false, rest) else (false, s)
                        | [] => (false, [])
                        end in
  match s with
  | c :: _ =>
      if (48 <=? c) && (c <=? 57) then
        let n := digits_loop s 0 in
        if 18446744073709551615 <? n then Reject else Ok (if negative : bool then u64 (- n) else n)
      else Reject
  | [] => Reject
  end.
Definition safe_stoul (s : bytes) : outcome Z := v ← stoul s; Ok (if 4294967295 <? v then 4294967295 else v).

(** The name of the file for an upload. *)
Fixpoint sanitize_loop (value : bytes) (max_len : Z) (out : bytes) : bytes :=
  match value with
  | [] => out
  | ch :: value =>
      if max_len <=? zlen out then out
      else if Url.isalnum ch || (ch =? 46) || (ch =? 95) || (ch =? 45) then sanitize_loop value max_len (out ++ [ch])
      else if negb (bool_decide (out = [])) && negb (bool_decide (last out = Some 95)) then sanitize_loop value max_len (out ++ [95])
      else sanitize_loop value max_len out
  end.
Definition sanitize_tmp_component (value : bytes) (max_len : Z) : bytes :=
  let out := sanitize_loop value max_len [] in
  if bool_decide (out = [] \/ out = str "." \/ out = str "..") then str "file" else out.

(** [find_last_of] and [rfind]: the position of the last character that satisfies [f]. *)
Fixpoint last_index (f : Z -> bool) (s : bytes) : option nat :=
  match s with
  | [] => None
  | c :: s => match last_index f s with Some i => Some (S i) | None => if f c then Some O else None end
  end.
Definition gen_tmp_filename (stamp origin : bytes) : bytes :=
  let safe_origin := match last_index (fun c => (c =? 47) || (c =? 92)) origin with
                     | Some slash => drop (S slash) origin
                     | None => origin
                     end in
  let dot := last_index (fun c => c =? 46) safe_origin in
  let ext := match dot with
             | Some dot => if zlen (drop dot safe_origin) <=? 16 then sanitize_tmp_component (drop dot safe_origin) 16 else []
             | None => []
             end in
  let stem := sanitize_tmp_component (match dot with Some dot => take dot safe_origin | None => safe_origin end) 48 in
  str ".upload_tmp/form/upload_" ++ stamp ++ str "_" ++ stem ++ ext.

Section Text.
Variable env : Env.
Variable text : bytes.
Definition body_end : Z := zlen text.

Definition skip_new_line (p : Z) : outcome Z :=
  ch ← rd text p; Ok (if ch =? 13 then 2 else if ch =? 10 then 1 else 0).
(** [p += skip_new_line(p)] *)
Definition after_new_line (p : Z) : outcome Z := n ← skip_new_line p; Ok (p + n).

(** From a position behind the end, [p != end] lets the loop of [read_identifier] run on. *)
Definition read_identifier (p : Z) : outcome bytes :=
  if body_end <? p then Fault else Ok (identifier_loop (drop (Z.to_nat p) text) false).
(** [while (begin <= end)] reads at the end, too. *)
Definition read_next (p ending : Z) : outcome bytes :=
  if body_end <? p then Ok [] else next_loop (drop (Z.to_nat p) text) ending.
(** [str_cmp(p, p + size, str)] *)
Definition cmp_at (p size : Z) (s : bytes) : outcome bool := x ← rd_range text p size; Ok (str_cmp x s).

(** ** Form data *)
Fixpoint type_loop (s : bytes) : bytes * bytes :=
  match s with
  | [] => ([], [])
  | ch :: s =>
      if ch =? 32 then type_loop s
      else if ch =? 59 then ([], s)
      else let '(type, rest) := type_loop s in (Headers.ascii_lower ch :: type, rest)
  end.
Fixpoint params_loop (fuel : nat) (p : Z) (params : gmap bytes bytes) : outcome (Z * gmap bytes bytes) :=
  match fuel with
  | O => Diverge
  | S fuel =>
      if body_end <=? p then Ok (p, params)
      else
        key ← read_identifier p;
        if bool_decide (key = []) then Ok (p, params)
        else
          let p := p + (zlen key + 2) in
          val ← read_identifier p;
          if bool_decide (val = []) then Ok (p, params)
          else
            let params := <[key := val]> params in
            let p := p + (zlen val + 2) in
            if p <? body_end then ch ← rd text p; if ch =? 59 then params_loop fuel (p + 1) params else Ok (p, params)
            else Ok (p, params)
  end.
(** The length is 0 when there is no header, or no parameter. *)
Definition parse_content_disposition (begin : Z) : outcome (Z * (bytes * gmap bytes bytes)) :=
  if body_end - begin <? 20 then Ok (0, ([], ∅))
  else
    prefix ← cmp_at begin 20 (str "content-disposition:");
    if negb prefix then Ok (0, ([], ∅))
    else
      let '(type, rest) := type_loop (drop (Z.to_nat (begin + 20)) text) in
      '(p, params) ← params_loop (S (length text)) (body_end - zlen rest) ∅;
      Ok (if bool_decide (params = ∅) then 0 else u32 (p - begin), (type, params)).

Definition parse_text_part (begin : Z) : Z * bytes :=
  let value := if body_end <=? begin then [] else fst (until (fun c => (c =? 13) || (c =? 10)) (drop (Z.to_nat begin) text)) in
  (u32 (zlen value), value).

(** [while (p <= end - delim.size())] until the delimiter. *)
Fixpoint delim_loop (fuel : nat) (delim : bytes) (p : Z) : outcome Z :=
  match fuel with
  | O => Diverge
  | S fuel =>
      if p <=? body_end - zlen delim then
        found ← cmp_at p (zlen delim) delim;
        if found : bool then Ok p else delim_loop fuel delim (p + 1)
      else Ok p
  end.
(** The end of the data in front of [data_end], without the line end. *)
Definition strip_new_line (data_start data_end : Z) : outcome Z :=
  let '(check, at_) := (data_start + 1 <? data_end, data_end - 1) in
  data_end ← (if check : bool then c ← rd text at_; Ok (if c =? 10 then data_end - 1 else data_end) else Ok data_end);
  if data_start <? data_end then c ← rd text (data_end - 1); Ok (if c =? 13 then data_end - 1 else data_end) else Ok data_end.

Variable extra : gmap bytes bytes.

(** The type and the data of a file, or where it is saved, and the length of the part;
    [None] is the result -1. *)
Definition parse_file_part (begin : Z) (origin_filename : bytes) : outcome (option (FormDataItem * Z)) :=
  let here := if body_end <=? begin then [] else drop (Z.to_nat begin) text in
  let '(ctype_header, rest) := until (fun c => c =? 58) here in
  if negb (bool_decide (map Headers.ascii_lower ctype_header = Headers.content_type)) then Ok None
  else
    let p := begin + zlen ctype_header + 1 in
    p ← (if p <? body_end then c ← rd text p; Ok (if c =? 32 then p + 1 else p) else Ok p);
    '(ok, ctype_text, _, remains) ← (if body_end <? p then Ok (true, [], ∅, [])
                                  else parse_content_type (drop (Z.to_nat p) text) [] ∅);
    if negb (ok : bool) || bool_decide (ctype_text = []) then Ok None
    else
      p ← after_new_line (body_end - zlen remains);
      match extra !! str "boundary" with
      | None => Ok None
      | Some boundary =>
          let data_start := p in
          p ← delim_loop (S (length text)) (str "--" ++ boundary) p;
          data_end ← strip_new_line data_start p;
          data ← rd_range text data_start (data_end - data_start);
          let tmp_path := gen_tmp_filename (upload_stamp env) origin_filename in
          let saved := form_data_upload_save env && (data_start <? data_end) && upload_opens env tmp_path in
          Ok (Some (FormDataFileItem origin_filename ctype_text (if saved then inr tmp_path else inl data), u32 (p - begin)))
      end.

(** A part: [None] when the loop ends before it, or in it; otherwise the fields and the
    position after it. *)
Definition form_part (boundary : bytes) (pos : Z) (fields : gmap bytes FormDataItem)
  : outcome (option (gmap bytes FormDataItem * Z)) :=
  let delim_start := str "--" ++ boundary in
  pos ← after_new_line pos;
  if body_end - pos <? zlen delim_start then Ok None
  else
    dash ← rd text pos;
    dashes ← (if negb (dash =? 45) then Ok false else c ← rd text (pos + 1); Ok (c =? 45));
    if negb dashes then Ok None
    else
      pos ← after_new_line (pos + zlen delim_start);
      if body_end <? pos then Ok None
      else
        '(first, (_, params)) ← parse_content_disposition pos;
        if first =? 0 then Ok None
        else
          pos ← after_new_line (pos + first);
          match params !! str "name" with
          | None => Ok None
          | Some field_name =>
              pos ← after_new_line pos;
              match params !! str "filename" with
              | None =>
                  let '(consumed, value) := parse_text_part pos in
                  Ok (Some (if bool_decide (value = []) then fields else <[field_name := FormDataStringItem value]> fields,
                            pos + consumed))
              | Some filename =>
                  r ← parse_file_part pos filename;
                  Ok (option_map (fun '(item, n) => (<[field_name := item]> fields, pos + n)) r)
              end
          end.
Fixpoint form_loop (fuel : nat) (boundary : bytes) (pos : Z) (fields : gmap bytes FormDataItem) : outcome (gmap bytes FormDataItem) :=
  match fuel with
  | O => Diverge
  | S fuel =>
      if body_end <=? pos then Ok fields
      else
        r ← form_part boundary pos fields;
        match r with
        | None => Ok fields
        | Some (fields, pos) =>
            pos ← after_new_line pos;
            let delim_end := str "--" ++ boundary ++ str "--" in
            finished ← (if zlen delim_end <=? body_end - pos then cmp_at pos (zlen delim_end) delim_end else Ok false);
            if finished : bool then Ok fields else form_loop fuel boundary pos fields
        end
  end.
(** [MultipartFormDataParser::parse]; [None] is false. *)
Definition form_parse : outcome (option Content) :=
  if body_end <=? 0 then Ok None
  else
    match extra !! str "boundary" with
    | None | Some [] => Ok None
    | Some boundary => fields ← form_loop (S (length text)) boundary 0 ∅; Ok (Some (FormDataContent fields))
    end.

(** ** Byte ranges *)
Definition parse_content_range (begin : Z) : outcome (option (Z * Z * Z * Z)) :=
  named ← (if body_end - begin <? 13 then Ok false else cmp_at begin 13 (str "content-range"));
  if negb named then Ok None
  else
    let p := begin + 13 in
    c ← rd text p;
    p ← after_new_line (if c =? 58 then p + 1 else p);
    unit ← (if body_end - p <? 5 then Ok false else cmp_at p 5 (str "bytes"));
    if negb unit then Ok None
    else
      let p := p + 5 in
      p ← (if p <? body_end then c ← rd text p; Ok (if c =? 32 then p + 1 else p) else Ok p);
      s_from ← read_next p 45;
      let p := p + zlen s_from + (if bool_decide (s_from = []) then 0 else 1) in
      s_to ← read_next p 47;
      if bool_decide (s_to = []) then Ok None
      else
        let p := p + zlen s_to + 1 in
        s_sz ← read_next p 13;
        if bool_decide (s_sz = []) then Ok None
        else
          let p := p + zlen s_sz + 2 in
          from ← safe_stoul s_from; to ← safe_stoul s_to; length ← safe_stoul s_sz;
          Ok (Some (from, to, length, u32 (p - begin))).

(** [while (pos < end && *pos != '\r' && *pos != '\n') ++pos] *)
Definition line_end (p : Z) : Z :=
  if body_end <=? p then p else p + zlen (fst (until (fun c => (c =? 13) || (c =? 10)) (drop (Z.to_nat p) text))).
(** [while (pos < end - 1)] until two dashes. *)
Fixpoint dashes_loop (s : bytes) : Z :=
  match s with
  | a :: (b :: _) as s => if (a =? 45) && (b =? 45) then 0 else 1 + dashes_loop s
  | _ => 0
  end.
Definition find_dashes (p : Z) : Z := if body_end <=? p then p else p + dashes_loop (drop (Z.to_nat p) text).

Definition MAX_RANGE_DATA_SIZE : Z := 100 * 1024 * 1024.
Inductive round : Type := Stop | TooLarge | Range (chunk : RangeChunk) (pos : Z).
Definition range_part (boundary : bytes) (pos : Z) : outcome round :=
  let ds := str "--" ++ boundary in
  found ← (if body_end - pos <? zlen ds then Ok false else cmp_at pos (zlen ds) ds);
  if negb found then Ok Stop
  else
    pos ← after_new_line (pos + zlen ds);
    pos ← after_new_line (line_end pos);
    r ← parse_content_range pos;
    match r with
    | None => Ok Stop
    | Some (from, to, length, consumed) =>
        let dbegin := pos + consumed in
        let pos := find_dashes dbegin in
        dend ← strip_new_line dbegin pos;
        if MAX_RANGE_DATA_SIZE <? (if dbegin <? dend then dend - dbegin else 0) then Ok TooLarge
        else
          data ← rd_range text dbegin (dend - dbegin);
          pos ← after_new_line pos;
          Ok (Range (mkRange data from to length) pos)
    end.
Fixpoint ranges_loop (fuel : nat) (boundary : bytes) (pos : Z) (chunks : list RangeChunk) : outcome (option (list RangeChunk)) :=
  match fuel with
  | O => Diverge
  | S fuel =>
      if body_end <=? pos then Ok (Some chunks)
      else
        r ← range_part boundary pos;
        match r with
        | Stop => Ok (Some chunks)
        | TooLarge => Ok None
        | Range chunk pos =>
            let chunks := chunks ++ [chunk] in
            let de := str "--" ++ boundary ++ str "--" in
            finished ← (if zlen de <=? body_end - pos then cmp_at pos (zlen de) de else Ok false);
            if finished : bool then Ok (Some chunks) else ranges_loop fuel boundary pos chunks
        end
  end.
(** [MultipartByterangesParser::parse] of a packet without a content. *)
Definition ranges_parse : outcome (option Content) :=
  if body_end <=? 0 then Ok None
  else
    match extra !! str "boundary" with
    | None => Ok None
    | Some boundary =>
        chunks ← ranges_loop (S (length text)) boundary 0 [];
        Ok (option_map RangeDataContent chunks)
    end.
End Text.
End Multipart.

(** * The content parsers *)
Module Http1Content.
Import Http1.

Section Content.
Variable env : Env.

(** [ChunkedContentParser::parse_chunked]: the chunk parser is an argument. *)
Definition parse_chunked (c : Chunked.t) (p : Packet) : outcome (Chunked.ChunkState * Chunked.t * Packet) :=
  incoming ← ByteBuffer.readable_span (input_cache_ p);
  let p := set_input_cache (ByteBuffer.clear (input_cache_ p)) p in
  let c := Chunked.with_pending (Chunked.pending_buffer_ c ++ incoming) c in
  if bool_decide (Chunked.pending_buffer_ c = []) then Ok (Chunked.need_more_, c, p)
  else
    '(state, c) ← Chunked.feed_data env c;
    match state with
    | Chunked.completed_ =>
        p ← match Chunked.file_stream_ c with
            | Some _ => Ok p
            | None => b ← ByteBuffer.of_span (Chunked.mem_buffer_ c); Ok (set_input_cache b p)
            end;
        Ok (state, c, set_chunked (pre_content_parser_ (body p)) (Chunked.trailer_checksum_ c) p)
    | _ => Ok (state, c, p)
    end.

Definition chunked_parse (c : Chunked.t) (p : Packet) : outcome (bool * Chunked.t * Packet) :=
  '(state, c, p) ← parse_chunked c p;
  match state with
  | Chunked.need_more_ => Ok (false, c, set_body_state partial p)
  | Chunked.completed_ =>
      let total := Chunked.total_bytes_ c in
      let content := ChunkedContent (Chunked.file_stream_ c) total (Chunked.trailer_checksum_ c) in
      Ok (true, c, set_body_state fully (set_body_length (u32 total) (set_content (Some content) p)))
  | _ => Ok (false, c, p)
  end.

Definition is_some {A} (o : option A) : bool := match o with Some _ => true | None => false end.

(** The [parse] of the parser that the factory has for the type of the packet. *)
Definition text_parse (p : Packet) : outcome (bool * Packet) :=
  data ← body_range p; Ok (true, set_content (Some (TextContent (content_type_ (body p)) data)) p).
Definition url_encoded_parse (p : Packet) : outcome (bool * Packet) :=
  if is_some (body_content_ (body p)) then Ok (false, p)
  else
    text ← body_range p;
    let '(ok, params) := Url.decode_parameters (Url.url_decode text false) (params_ (line p)) true in
    Ok (ok, set_params params p).
Definition json_parse (p : Packet) : outcome (bool * Packet) :=
  match body_content_ (body p) with
  | None =>
      text ← body_range p;
      if json_accepts env text then Ok (true, set_content (Some (JsonContent text)) p) else Ok (false, p)
  | Some (ChunkedContent (Some file) _ _) =>
      if json_accepts env file then Ok (true, set_content (Some (JsonContent file)) p) else Ok (false, p)
  | Some _ => Ok (false, p)
  end.
(** The body between [body_begin()] and [body_end()], empty when one of them is null. *)
Definition body_text (p : Packet) : outcome bytes :=
  if ByteBuffer.readable_bytes (input_cache_ p) <? body_length_ (body p) then Ok [] else body_range p.
Definition multipart_parse (parse : bytes -> gmap bytes bytes -> outcome (option Content)) (p : Packet) : outcome (bool * Packet) :=
  text ← body_text p;
  r ← parse text (content_type_extra_ (body p));
  match r with
  | Some content => Ok (true, set_content (Some content) p)
  | None => Ok (false, p)
  end.
Definition form_data_parse (p : Packet) : outcome (bool * Packet) := multipart_parse (Multipart.form_parse env) p.
Definition byteranges_parse (p : Packet) : outcome (bool * Packet) :=
  if is_some (body_content_ (body p)) then Ok (false, p) else multipart_parse Multipart.ranges_parse p.
Definition content_parse (p : Packet) : outcome (bool * Packet) :=
  match content_type_ (body p) with
  | text_plain | text_html | text_javascript | text_style_sheet => text_parse p
  | application_json => json_parse p
  | x_www_form_urlencoded => url_encoded_parse p
  | multpart_form_data => form_data_parse p
  | multpart_byte_ranges => byteranges_parse p
  | _ => Ok (true, p)
  end.

(** [ContentParserFactory::parse_content] *)
Definition factory_parse_content (p : Packet) : outcome (bool * Packet) :=
  if is_chunked p then
    let c := default Chunked.init (pre_content_parser_ (body p)) in
    '(ok, c, p) ← chunked_parse c p;
    if negb ok then
      Ok (bool_decide (body_state (parser_ p) = partial), set_chunked (Some c) (chunked_checksum_ (body p)) p)
    else
      content_parse (set_chunked None (chunked_checksum_ (body p)) (set_body_length (u32 (Chunked.total_bytes_ c)) p))
  else content_parse p.

(** [HttpPacket::parse_content] *)
Definition parse_content (p : Packet) : outcome (bool * Packet) :=
  if negb (is_good_ (status p)) then Ok (false, p)
  else if has_body_file p then Ok (true, p)
  else if negb (Headers.body_related_header_present_ (headers (head p))) then Ok (true, p)
  else if negb (is_some (Headers.get_header Headers.content_type (headers (head p)))) && negb (is_chunked p) then Ok (true, p)
  else '(ok, p) ← factory_parse_content p; Ok (ok, set_good ok p).
End Content.
End Http1Content.

(** * The rounds of a connection *)
Module Http1Connection.
Import Http1 Http1Content.

(** [HttpSessionContext]: its request and whether it is being parsed. *)
Record t : Type := mk { has_parsed_ : bool; request : Packet }.
Definition init : t := mk false new_packet.

(** What a read comes to: a request is dispatched, a response with a code is sent and the
    connection is closed or goes on, or more input is awaited. *)
Inductive verdict : Type := dispatched | refused (codes : list Z) (closes : bool) | awaits.

Section Connection.
Variable env : Env.

(** [parse_from(ByteBuffer &&)]. A packet that downloads has no task here. *)
Definition parse_from (data : ByteBuffer.t) (c : t) : outcome (bool * t) :=
  let c := if negb (has_parsed_ c) then mk true (reset (request c)) else c in
  '(_, p) ← packet_parse env data (request c);
  Ok (good p, mk (has_parsed_ c) p).

Definition is_completed (c : t) : bool * t :=
  let p := request c in
  if done p then
    (true, mk (if negb (is_chunked p) || bool_decide (body_state (parser_ p) = fully) then false else has_parsed_ c) p)
  else (false, c).

Definition validate_request_version (p : Packet) : list Z :=
  match version_ (line p) with
  | v_1_0 | v_1_1 => []
  | v_2_0 => if enable_http2 env then [] else [http_version_not_supported]
  | v_3_0 => if enable_http3 env then [] else [http_version_not_supported]
  | invalid_version => [http_version_not_supported]
  end.

(** [parse_request(context, ByteBuffer &&)]: its result and the errors it answers with. *)
Definition parse_request (data : ByteBuffer.t) (c : t) : outcome (bool * list Z * t) :=
  '(ok, c) ← parse_from data c;
  if negb ok then Ok (false, [error_code_ (status (request c))], c)
  else
    let '(completed, c) := is_completed c in
    if negb completed then Ok (false, [], c)
    else
      '(ok, p) ← parse_content env (request c);
      let c := mk (has_parsed_ c) p in
      let waiting := is_chunked p && bool_decide (body_state (parser_ p) = partial) in
      if negb ok then Ok (false, if waiting then [] else [bad_request], c)
      else if waiting then Ok (false, [], c)
      else match validate_request_version p with
           | [] => Ok (true, [], c)
           | codes => Ok (false, codes, c)
           end.

(** The round of [handle_connection] with [parse_data]. *)
Definition on_read (data : ByteBuffer.t) (c : t) : outcome (verdict * t) :=
  '(ok, codes, c) ← parse_request data c;
  if ok : bool then Ok (dispatched, c)
  else if negb (good (request c)) then Ok (refused codes true, c)
  else match codes with [] => Ok (awaits, c) | _ => Ok (refused codes false, c) end.

(** The reads of a connection, until it is closed: what each comes to, with the state
    after it. *)
Fixpoint run (reads : list ByteBuffer.t) (c : t) : outcome (list (verdict * t)) :=
  match reads with
  | [] => Ok []
  | data :: reads =>
      '(v, c) ← on_read data c;
      match v with
      | refused _ true => Ok [(v, c)]
      | _ => rest ← run reads c; Ok ((v, c) :: rest)
      end
  end.
End Connection.
End Http1Connection.
