(* ===== verification/Http1Facts.v ===== *)
(** The parser of HTTP/1 requests as a function of the bytes that it is given: what a stage
    reads, that a stage may be cut anywhere, and what the rounds of a connection keep. *)
From stdpp Require Import gmap.
From S2P Require Import Prelude Strings ByteBuffer ByteBufferFacts Http1.
Import Http1.

(** * Strings *)
Lemma index_of_app c d e n : index_of c d = Some n -> index_of c (d ++ e) = Some n.
Proof.
  revert n. induction d as [|x d IH]; intros n H; cbn in *; [done|]. destruct (x =? c); [done|].
  destruct (index_of c d) as [m|]; [|done]. injection H as <-. by rewrite (IH m).
Qed.
Lemma take_app_lt {A} n (d e : list A) : (n <= length d)%nat -> take n (d ++ e) = take n d.
Proof. intros H. by rewrite take_app_le. Qed.
Lemma index_of_split c d n : index_of c d = Some n -> d = take n d ++ c :: drop (S n) d.
Proof.
  revert n. induction d as [|x d IH]; intros n H; cbn in *; [done|]. destruct (x =? c) eqn:E.
  - injection H as <-. cbn. f_equal. lia.
  - destruct (index_of c d) as [m|]; [|done]. injection H as <-. cbn. f_equal. by apply IH.
Qed.
Lemma zlen_drop_take {A} n (d : list A) : (n <= length d)%nat -> zlen d - zlen (drop n d) = Z.of_nat n.
Proof. intros H. unfold zlen. rewrite length_drop. lia. Qed.

Lemma ascii_lower_inv x l : Headers.ascii_lower x = Headers.ascii_lower l -> 97 <= l <= 122 -> x = l - 32 \/ x = l.
Proof. unfold Headers.ascii_lower. intros H Hl. assert ((65 <=? l) && (l <=? 90) = false) as E by lia. rewrite E in H. case_if_in H; lia. Qed.

(** * Headers without their buffer *)
Lemma decode_parameters_false u m : fst (Url.decode_parameters u m false) = true.
Proof.
  unfold Url.decode_parameters. destruct (index_of 63 u); [|done].
  generalize (split_on 38 (substr_from u (S n))) as parts. intros parts. revert m.
  induction parts as [|part parts IH]; intros m; [done|]. cbn [Url.parameters_loop].
  destruct part as [|x part]; [destruct parts; [done|reflexivity]|].
  destruct (index_of 61 (x :: part)) as [[|k]|]; [done|apply IH|done].
Qed.

(** The grammar of the request line. *)
Definition read_method (d : bytes) : option (HttpMethod * bytes) :=
  match index_of 32 d with
  | Some n => m ← method_of (map StringUtil.upper_ascii_char (take n d)); Some (m, drop (S n) d)
  | None => None
  end.
Definition url_of (raw : bytes) : bytes * option nat :=
  let decode := contains 37 raw in
  let u := if decode then Url.url_decode raw false else raw in
  (u, match index_of 63 raw with
      | Some pos => if decode then index_of 63 u else Some pos
      | None => None
      end).
Definition url_refused (u : bytes) : bool :=
  match u with [] => true | c :: _ => negb (c =? 47) && negb (contains 47 u) end.
Definition params_after (raw : bytes) (m : gmap bytes (list bytes)) : gmap bytes (list bytes) :=
  match index_of 63 raw with
  | None => m
  | Some pos => snd (Url.decode_parameters (substr_from raw pos) m false)
  end.
Definition read_version (d : bytes) : option (HttpVersion * bytes) :=
  match index_of 13 d with
  | Some n =>
      if Nat.ltb n 6 then None
      else if negb (Headers.equal_ci_loop (take 4 d) (str "http") && str_eqb (substr d 4 1) (str "/")) then None
      else if negb (bool_decide (d !! S n = Some 10)) then None
      else v ← version_of (substr d 5 (n - 5)); Some (v, drop (S (S n)) d)
  | None => None
  end.

(** The lines of the headers: [None] when it gives up. *)
Fixpoint read_fields (fuel : nat) (d : bytes) (h : Head) : option bytes * Head :=
  match fuel with
  | O => (None, h)
  | S fuel =>
      match index_of 10 d with
      | Some (S n) =>
          if bool_decide (d !! n = Some 13) then
            match n with
            | O => (Some (drop 2 d), h)
            | _ => match header_line (take n d) h with
                   | inl _ => (None, h)
                   | inr h => read_fields fuel (drop (S (S n)) d) h
                   end
            end
          else (None, h)
      | _ => (None, h)
      end
  end.

(** The four stages on the unread bytes. *)
Definition step := Packet -> bytes -> bool * Packet * bytes.
Definition step_method : step := fun p d =>
  if bool_decide (header_state (parser_ p) = init) then
    match read_method d with
    | Some (m, r) => (true, set_header_state method_gap (set_method m p), r)
    | None => (false, p, d)
    end
  else (true, p, d).
Definition step_url : step := fun p d =>
  if bool_decide (header_state (parser_ p) = method_gap) then
    match index_of 32 d with
    | Some (S n) =>
        let raw := take (S n) d in
        let p := set_url (fst (url_of raw)) (snd (url_of raw)) p in
        if url_refused (fst (url_of raw)) then (false, p, d)
        else (true, set_header_state url_gap (set_params (params_after raw (params_ (line p))) p), drop (S (S n)) d)
    | _ => (false, p, d)
    end
  else (true, p, d).
Definition step_version : step := fun p d =>
  if bool_decide (header_state (parser_ p) = url_gap) then
    match read_version d with
    | Some (v, r) => (true, set_header_state version_newline (set_version v p), r)
    | None => (false, p, d)
    end
  else (true, p, d).
Definition step_fields : step := fun p d =>
  if bool_decide (header_state (parser_ p) = version_newline) then
    match read_fields (S (length d)) d (head p) with
    | (Some r, h) => (true, set_header_state header_end_lines (set_head h p), r)
    | (None, h) => (false, clear_header (set_head h p), d)
    end
  else (true, p, d).
Definition seq (f g : step) : step := fun p d =>
  let '(ok, p, d) := f p d in if ok : bool then g p d else (false, p, d).
Definition read_head : step := seq step_method (seq step_url (seq step_version step_fields)).

(** * Input in pieces

    A stage that succeeds reads the same of a longer input; one that fails has kept what it
    did not read, and fails or succeeds on the longer input as if it had not been tried. *)
Definition state (p : Packet) : HeaderState := header_state (parser_ p).
Definition head_ok (p : Packet) : Prop :=
  (state p = init -> method_ (line p) = invalid_) /\
  (state p = header_end_lines \/
   state p ∈ [init; method_gap; url_gap; version_newline] /\ headers (head p) = Headers.init).

Definition cut_anywhere (f : step) : Prop := forall p d e, head_ok p ->
  match f p d with
  | (true, p', d') => f p (d ++ e) = (true, p', d' ++ e) /\ head_ok p'
  | (false, p', d') => f p' (d' ++ e) = f p (d ++ e) /\ head_ok p'
  end.
(** The stage runs in the states [S] alone, and fails in one of them. *)
Definition acts_in (S : list HeaderState) (f : step) : Prop :=
  (forall p d, state p ∉ S -> f p d = (true, p, d)) /\
  (forall p d p' d', f p d = (false, p', d') -> state p' ∈ S).

Lemma acts_seq S T f g : acts_in S f -> acts_in T g -> acts_in (S ++ T) (seq f g).
Proof.
  intros [F1 F2] [G1 G2]. split.
  - intros p d H. unfold seq. rewrite F1, G1; [done|set_solver..].
  - intros p d p' d' H. unfold seq in H. destruct (f p d) as [[[] p1] d1] eqn:E.
    + apply elem_of_app. right. by eapply G2.
    + injection H as -> ->. apply elem_of_app. left. by eapply F2.
Qed.
Lemma cut_seq S T f g : acts_in S f -> acts_in T g -> (forall s, s ∈ T -> s ∉ S) ->
  cut_anywhere f -> cut_anywhere g -> cut_anywhere (seq f g).
Proof.
  intros [F1 F2] [G1 G2] HST Hf Hg p d e Hp. pose proof (Hf p d e Hp) as H. unfold seq.
  destruct (f p d) as [[[] p1] d1] eqn:E.
  - destruct H as [H Hp1]. pose proof (Hg p1 d1 e Hp1) as H'. rewrite H.
    destruct (g p1 d1) as [[[] p2] d2] eqn:E2; [done|]. destruct H' as [H' Hp2]. split; [|done].
    rewrite F1 by eauto. done.
  - destruct H as [H Hp1]. split; [|done]. by rewrite H.
Qed.

Lemma set_header_state_same p s : state p = s -> set_header_state s p = p.
Proof. destruct p as [[] ? ? ? ? ?]. unfold state. cbn. by intros ->. Qed.

Lemma method_cut : cut_anywhere step_method.
Proof.
  intros p d e Hp. unfold step_method. fold (state p). destruct (decide (state p = init)) as [Es|Es].
  - rewrite bool_decide_eq_true_2 by done. unfold read_method at 1.
    destruct (index_of 32 d) as [n|] eqn:Ei; [|by rewrite bool_decide_eq_true_2].
    pose proof (index_of_lt _ _ _ Ei) as Hl. cbn [mbind option_bind].
    destruct (method_of _) as [m|] eqn:Em; cbn [mbind option_bind]; [|by rewrite bool_decide_eq_true_2].
    unfold read_method. rewrite (index_of_app _ _ _ _ Ei), take_app_le, Em by lia. cbn [mbind option_bind].
    rewrite drop_app_le by lia. split; [done|]. destruct Hp as [_ [Hp|[_ Hp]]]; [congruence|].
    split; [done|]. right. split; [|done]. set_solver.
  - rewrite bool_decide_eq_false_2 by done. done.
Qed.
Lemma method_acts : acts_in [init] step_method.
Proof.
  split.
  - intros p d H. unfold step_method. fold (state p). by rewrite bool_decide_eq_false_2 by set_solver.
  - intros p d p' d' H. unfold step_method in H. fold (state p) in H. case_bool_decide as E; [|done].
    destruct (read_method d) as [[]|]; [done|]. injection H as <- <-. set_solver.
Qed.

Lemma url_cut : cut_anywhere step_url.
Proof.
  intros p d e Hp. unfold step_url. fold (state p). destruct (decide (state p = method_gap)) as [Es|Es].
  - rewrite bool_decide_eq_true_2 by done.
    destruct (index_of 32 d) as [[|n]|] eqn:Ei; [by rewrite bool_decide_eq_true_2| |by rewrite bool_decide_eq_true_2].
    pose proof (index_of_lt _ _ _ Ei) as Hl. destruct Hp as [Hm Hp].
    destruct Hp as [Hp|[_ Hp]]; [congruence|].
    destruct (url_refused _) eqn:Er; rewrite (index_of_app _ _ _ _ Ei), take_app_le, Er by lia.
    + rewrite bool_decide_eq_true_2 by done. split; [reflexivity|]. split; [intros E; unfold state in *; cbn in E; congruence|].
      right. unfold state in *. cbn. rewrite Es. split; [set_solver|done].
    + rewrite drop_app_le by lia. split; [done|]. split; [done|]. right. split; [|done]. unfold state. cbn. set_solver.
  - rewrite bool_decide_eq_false_2 by done. done.
Qed.
Lemma url_acts : acts_in [method_gap] step_url.
Proof.
  split.
  - intros p d H. unfold step_url. fold (state p). by rewrite bool_decide_eq_false_2 by set_solver.
  - intros p d p' d' H. unfold step_url in H. fold (state p) in H. case_bool_decide as E; [|done].
    destruct (index_of 32 d) as [[|n]|]; [by injection H as <- <-; set_solver| |by injection H as <- <-; set_solver].
    destruct (url_refused _); [|done]. injection H as <- <-. unfold state in *. cbn. set_solver.
Qed.

Lemma read_version_app d e v r : read_version d = Some (v, r) -> read_version (d ++ e) = Some (v, r ++ e).
Proof.
  unfold read_version. destruct (index_of 13 d) as [n|] eqn:Ei; [|done]. rewrite (index_of_app _ _ _ _ Ei).
  pose proof (index_of_lt _ _ _ Ei) as Hl. case_if; [done|]. apply Nat.ltb_ge in Hif. unfold substr.
  rewrite (drop_app_le d e 4), (drop_app_le d e 5) by lia. rewrite !take_app_le by (rewrite ?length_drop; lia).
  case_if; [done|]. case_if; [done|]. apply negb_false_iff, bool_decide_eq_true_1 in Hif1.
  rewrite lookup_app_l by (by apply lookup_lt_Some in Hif1). rewrite bool_decide_eq_true_2 by done. cbn [negb].
  destruct (version_of _); [|done]. cbn [mbind option_bind]. intros [= <- <-].
  apply lookup_lt_Some in Hif1. by rewrite drop_app_le by lia.
Qed.
Lemma version_cut : cut_anywhere step_version.
Proof.
  intros p d e Hp. unfold step_version. fold (state p). destruct (decide (state p = url_gap)) as [Es|Es].
  - rewrite bool_decide_eq_true_2 by done. destruct (read_version d) as [[v r]|] eqn:E; [|by rewrite bool_decide_eq_true_2].
    rewrite (read_version_app _ _ _ _ E). split; [done|]. destruct Hp as [_ [Hp|[_ Hp]]]; [congruence|].
    split; [done|]. right. split; [|done]. unfold state. cbn. set_solver.
  - rewrite bool_decide_eq_false_2 by done. done.
Qed.
Lemma version_acts : acts_in [url_gap] step_version.
Proof.
  split.
  - intros p d H. unfold step_version. fold (state p). by rewrite bool_decide_eq_false_2 by set_solver.
  - intros p d p' d' H. unfold step_version in H. fold (state p) in H. case_bool_decide as E; [|done].
    destruct (read_version d) as [[]|]; [done|]. injection H as <- <-. set_solver.
Qed.

(** ** The lines of the headers

    A connection header that is read again, after the rest of its request has come, leaves
    the flags as they are. *)
Definition note (g : Head) (h : Head) : Head :=
  mkHead (headers h) (connection_close_requested_ h || connection_close_requested_ g)
         (connection_keep_alive_requested_ h || connection_keep_alive_requested_ g).
(** The flags of [g] are set in [h]. *)
Definition noted (g h : Head) : Prop := note g h = h.

Lemma noted_iff g h : noted g h <->
  (connection_close_requested_ g = true -> connection_close_requested_ h = true) /\
  (connection_keep_alive_requested_ g = true -> connection_keep_alive_requested_ h = true).
Proof.
  unfold noted, note. destruct h as [s c k], g as [s' c' k']. cbn. split.
  - intros [= E1 E2]. destruct c, k, c', k'; cbn in *; naive_solver.
  - intros [H1 H2]. destruct c, k, c', k'; cbn; naive_solver.
Qed.
Lemma noted_refl h : noted h h.
Proof. by apply noted_iff. Qed.
Lemma noted_trans g h k : noted g h -> noted h k -> noted g k.
Proof. rewrite !noted_iff. tauto. Qed.

Lemma note_connection g v h : note_connection_header v (note g h) = note g (note_connection_header v h).
Proof.
  destruct g as [s c k]. unfold note_connection_header. case_if; [|case_if].
  1,2: destruct h as [sh ch kh]; unfold note; cbn; f_equal; destruct ch, kh, c, k; reflexivity.
  generalize (split_on 44 v) as parts. intros parts. revert h. induction parts as [|x parts IH]; intros h; [done|].
  cbn [foldl]. rewrite <- IH. f_equal. destruct h as [sh ch kh]. unfold note. cbn.
  repeat case_if; cbn; f_equal; destruct ch, kh, c, k; reflexivity.
Qed.
Lemma note_connection_noted v h : noted h (note_connection_header v h).
Proof.
  unfold note_connection_header. case_if; [|case_if]; try (apply noted_iff; by cbn).
  generalize (split_on 44 v) as parts. intros parts. revert h. induction parts as [|x parts IH]; intros h; [apply noted_refl|].
  cbn [foldl]. eapply noted_trans; [|apply IH]. repeat case_if; apply noted_iff; by cbn.
Qed.

Lemma header_line_note g l h :
  header_line l (note g h) = match header_line l h with inl s => inl s | inr h => inr (note g h) end.
Proof.
  unfold header_line. destruct (index_of 58 l) as [[|n]|]; [done| |done].
  destruct (Headers.canonical_header_key _); [|done]. case_if; [|done]. rewrite note_connection. done.
Qed.
Lemma header_line_noted l h h' : header_line l h = inr h' -> noted h h'.
Proof.
  unfold header_line. destruct (index_of 58 l) as [[|n]|]; [done| |done].
  destruct (Headers.canonical_header_key _).
  - case_if; intros [= <-]; [|by apply noted_iff].
    pose proof (note_connection_noted (match drop (S (S n)) l with [] => [] | c :: rest => if Headers.is_ows c then rest else drop (S (S n)) l end) h) as H.
    rewrite noted_iff in *. done.
  - intros [= <-]. by apply noted_iff.
Qed.

Lemma read_fields_note g fuel d h :
  read_fields fuel d (note g h) = (fst (read_fields fuel d h), note g (snd (read_fields fuel d h))).
Proof.
  revert d h. induction fuel as [|fuel IH]; intros d h; [done|]. cbn [read_fields].
  destruct (index_of 10 d) as [[|n]|]; [done| |done]. case_if; [|done]. destruct n as [|n]; [done|].
  rewrite header_line_note. destruct (header_line _ h); [done|]. apply IH.
Qed.
Lemma read_fields_noted fuel d h : noted h (snd (read_fields fuel d h)).
Proof.
  revert d h. induction fuel as [|fuel IH]; intros d h; [apply noted_refl|]. cbn [read_fields].
  destruct (index_of 10 d) as [[|n]|]; [apply noted_refl| |apply noted_refl]. case_if; [|apply noted_refl].
  destruct n as [|n]; [apply noted_refl|]. destruct (header_line _ h) eqn:E; [apply noted_refl|].
  eapply noted_trans; [by eapply header_line_noted|apply IH].
Qed.

(** The fuel is enough. *)
Lemma read_fields_fuel f1 f2 d h : (length d < f1)%nat -> (length d < f2)%nat -> read_fields f1 d h = read_fields f2 d h.
Proof.
  revert f2 d h. induction f1 as [|f1 IH]; intros f2 d h H1 H2; [lia|]. destruct f2 as [|f2]; [lia|]. cbn [read_fields].
  destruct (index_of 10 d) as [[|n]|] eqn:E; [done| |done]. apply index_of_lt in E. case_if; [|done].
  destruct n as [|n]; [done|]. destruct (header_line _ h); [done|]. apply IH; rewrite length_drop; lia.
Qed.

(** More input: the lines that were read are read again. *)
Lemma read_fields_app f1 f2 d e h : (length d < f1)%nat -> (length (d ++ e) < f2)%nat ->
  match read_fields f1 d h with
  | (Some r, h') => read_fields f2 (d ++ e) h = (Some (r ++ e), h')
  | (None, h') => noted h' (snd (read_fields f2 (d ++ e) h))
  end.
Proof.
  revert f2 d h. induction f1 as [|f1 IH]; intros f2 d h H1 H2; [lia|]. destruct f2 as [|f2]; [lia|]. cbn [read_fields].
  pose proof (read_fields_noted (S f2) (d ++ e) h) as Hn. cbn [read_fields] in Hn.
  destruct (index_of 10 d) as [[|n]|] eqn:E; [done| |done].
  rewrite (index_of_app _ _ _ _ E) in *. apply index_of_lt in E.
  rewrite lookup_app_l in * by lia. destruct (bool_decide (d !! n = Some 13)); [|done]. destruct n as [|n].
  - by rewrite drop_app_le by lia.
  - rewrite take_app_le in * by lia. destruct (header_line _ h) as [s|h1]; [done|].
    rewrite drop_app_le by lia. rewrite length_app in H2. apply IH; rewrite ?length_app, length_drop; lia.
Qed.

Lemma read_fields_again d e h h1 : headers h = Headers.init -> read_fields (S (length d)) d h = (None, h1) ->
  read_fields (S (length (d ++ e))) (d ++ e) (mkHead Headers.init (connection_close_requested_ h1) (connection_keep_alive_requested_ h1))
  = read_fields (S (length (d ++ e))) (d ++ e) h.
Proof.
  intros Hi E. pose proof (read_fields_noted (S (length d)) d h) as Hn. rewrite E in Hn. cbn [snd] in Hn.
  assert (mkHead Headers.init (connection_close_requested_ h1) (connection_keep_alive_requested_ h1) = note h1 h) as ->.
  { apply noted_iff in Hn as [N1 N2]. destruct h as [s c k], h1 as [s1 c1 k1]. unfold note. cbn in *. subst s. f_equal.
    - destruct c, c1; cbn; naive_solver.
    - destruct k, k1; cbn; naive_solver. }
  rewrite read_fields_note. pose proof (read_fields_app (S (length d)) (S (length (d ++ e))) d e h) as H. rewrite E in H.
  specialize (H ltac:(lia) ltac:(lia)). unfold noted in H. rewrite H. by rewrite <- surjective_pairing.
Qed.

Lemma fields_cut : cut_anywhere step_fields.
Proof.
  intros p d e Hp. unfold step_fields. fold (state p). destruct (decide (state p = version_newline)) as [Es|Es].
  - rewrite bool_decide_eq_true_2 by done. destruct Hp as [Hm [Hp|[_ Hp]]]; [congruence|].
    destruct (read_fields (S (length d)) d (head p)) as [[r|] h] eqn:E.
    + pose proof (read_fields_app (S (length d)) (S (length (d ++ e))) d e (head p)) as H. rewrite E in H.
      rewrite H by lia. split; [done|]. split; [done|]. by left.
    + unfold clear_header. cbn [head set_head]. change (Headers.clear_header _) with Headers.init.
      cbn [header_state parser_ set_head]. fold (state p). rewrite bool_decide_eq_true_2 by done.
      rewrite (read_fields_again d e (head p) h) by done. split.
      * destruct (read_fields _ (d ++ e) (head p)) as [[r|] h2]; done.
      * split; [done|]. right. split; [|done]. unfold state in *. cbn. rewrite Es. set_solver.
  - rewrite bool_decide_eq_false_2 by done. done.
Qed.
Lemma fields_acts : acts_in [version_newline] step_fields.
Proof.
  split.
  - intros p d H. unfold step_fields. fold (state p). by rewrite bool_decide_eq_false_2 by set_solver.
  - intros p d p' d' H. unfold step_fields in H. fold (state p) in H. case_bool_decide as E; [|done].
    destruct (read_fields _ d _) as [[r|] h]; [done|]. injection H as <- <-. unfold state in *. cbn. set_solver.
Qed.

Lemma head_cut : cut_anywhere read_head.
Proof.
  assert (acts_in ([url_gap] ++ [version_newline]) (seq step_version step_fields)) as A1
    by (apply acts_seq; [apply version_acts|apply fields_acts]).
  assert (acts_in ([method_gap] ++ [url_gap] ++ [version_newline]) (seq step_url (seq step_version step_fields))) as A2
    by (apply acts_seq; [apply url_acts|done]).
  unfold read_head. eapply cut_seq; [apply method_acts|apply A2|set_solver|apply method_cut|].
  eapply cut_seq; [apply url_acts|apply A1|set_solver|apply url_cut|].
  eapply cut_seq; [apply version_acts|apply fields_acts|set_solver|apply version_cut|apply fields_cut].
Qed.

(** * The stages on a buffer *)
Section Stages.
Variable env : Env.
Import ByteBuffer.

(** The buffer holds [d], and the limit on the header is not reached. *)
Definition within (b : t) (d : bytes) : Prop :=
  view b d /\ read_offset_ b + zlen d <= max_header_length env /\ write_offset_ b < 18446744073709551616.
(** What is left of [d] is [r]. *)
Definition read_to (d r : bytes) (b : t) : t := advance (zlen d - zlen r) b.

Lemma within_suffix b d x r : within b d -> d = x ++ r -> within (read_to d r b) r.
Proof.
  intros (Hv & Hl & Hw) ->. unfold read_to. replace (zlen (x ++ r) - zlen r) with (zlen x) by zlia.
  split; [by apply view_advance|]. cbn. zlia.
Qed.
Lemma consume_to b d x r : view b d -> write_offset_ b < 18446744073709551616 -> d = x ++ r ->
  consume (zlen x) b = read_to d r b.
Proof.
  intros Hv Hw ->. unfold read_to. replace (zlen (x ++ r) - zlen r) with (zlen x) by zlia. by eapply consume_advance.
Qed.
Lemma consume_in b d n : view b d -> write_offset_ b < 18446744073709551616 -> 0 <= n <= zlen d -> consume n b = advance n b.
Proof.
  intros Hv Hw Hn. rewrite <- (take_drop (Z.to_nat n) d) in Hv.
  assert (zlen (take (Z.to_nat n) d) = n) as E by (unfold zlen in *; rewrite length_take; lia).
  rewrite <- E. by eapply consume_advance.
Qed.
Lemma read_to_here b d : read_to d d b = b.
Proof. unfold read_to, advance. destruct b. cbn. f_equal. lia. Qed.
Lemma read_to_trans b d d1 d2 : read_to d1 d2 (read_to d d1 b) = read_to d d2 b.
Proof. unfold read_to. rewrite advance_advance. f_equal. lia. Qed.

(** A stage is a step: it either reads a prefix or leaves the buffer as it was. *)
Definition implements (parse : Packet -> t -> outcome (bool * Packet * t)) (f : step) : Prop :=
  forall p b d, head_ok p -> within b d ->
    match f p d with
    | (ok, p', d') => parse p b = Ok (ok, p', read_to d d' b) /\ exists x, d = x ++ d'
    end.

(** What [stage] makes of a parse function that reads a prefix of [d] or fails. *)
Lemma stage_ok here next parse onf p b d p1 x r : state p = here -> within b d -> d = x ++ r ->
  parse p b = Ok (true, p1, read_to d r b) ->
  stage env here next parse onf p b = Ok (true, set_header_state next p1, read_to d r b).
Proof.
  intros Hs Hw E Hp. unfold stage. fold (state p). rewrite bool_decide_eq_true_2 by done. rewrite Hp. mstep. cbn [negb].
  destruct (within_suffix _ _ _ _ Hw E) as (_ & Hl & _). pose proof (zlen_nonneg r). case_if; [lia|done].
Qed.
Lemma stage_fail here next parse onf p b d p1 n : state p = here -> within b d ->
  parse p b = Ok (false, p1, advance n b) ->
  stage env here next parse onf p b = Ok (false, onf (set_header_state here p1), read_to d d b).
Proof.
  intros Hs (Hv & _) Hp. unfold stage. fold (state p). rewrite bool_decide_eq_true_2 by done. rewrite Hp. mstep.
  rewrite set_back by apply Hv. by rewrite read_to_here.
Qed.
Lemma stage_skip here next parse onf p b d : state p <> here -> within b d ->
  stage env here next parse onf p b = Ok (true, p, read_to d d b).
Proof.
  intros Hs (_ & Hl & _). unfold stage. fold (state p). rewrite bool_decide_eq_false_2 by done. mstep. cbn [negb].
  pose proof (zlen_nonneg d). case_if; [lia|]. by rewrite read_to_here.
Qed.

(** The loop over the method. *)
Lemma method_loop_spec d acc n : zlen acc <= 16 ->
  n <= fst (method_loop d acc n) <= n + zlen d /\
  match index_of 32 d with
  | Some k => if zlen acc + Z.of_nat k <=? 16
              then method_loop d acc n = (n + Z.of_nat k + 1, Some (acc ++ map StringUtil.upper_ascii_char (take k d)))
              else snd (method_loop d acc n) = None
  | None => snd (method_loop d acc n) = None
  end.
Proof.
  revert acc n. induction d as [|c d IH]; intros acc n Ha; cbn [method_loop index_of].
  - cbn. split; [unfold zlen; cbn; lia|done].
  - rewrite zlen_cons. pose proof (zlen_nonneg d). destruct (c =? 32) eqn:E.
    + cbn [fst]. split; [lia|]. case_if; [|lia]. rewrite app_nil_r. f_equal. lia.
    + destruct (zlen acc =? 16) eqn:E2.
      * cbn [fst snd]. split; [lia|]. destruct (index_of 32 d); [|done]. cbn [fmap option_fmap option_map].
        case_if; [lia|done].
      * destruct (IH (acc ++ [StringUtil.upper_ascii_char c]) (n + 1)) as [I1 I2]; [rewrite zlen_app; unfold zlen in *; cbn; lia|].
        split; [lia|]. destruct (index_of 32 d) as [k|]; [|done]. cbn [fmap option_fmap option_map].
        rewrite zlen_app in I2. change (zlen [StringUtil.upper_ascii_char c]) with 1 in I2.
        replace (zlen acc + Z.of_nat (S k)) with (zlen acc + 1 + Z.of_nat k) by lia. case_if; [|done].
        rewrite I2. cbn [take map]. rewrite <- app_assoc. f_equal. lia.
Qed.

Lemma first_method_some m l x : first_method m l = Some x -> x ∈ l /\ m = method_text x.
Proof.
  unfold first_method. intros ([i y] & H & ->)%fmap_Some. apply list_find_Some in H as (H & E & _).
  split; [by eapply list_elem_of_lookup_2|done].
Qed.
Lemma method_of_some m x : method_of m = Some x -> m = method_text x /\ x <> invalid_.
Proof.
  unfold method_of. generalize (length m). intros n H. destruct n as [|[|[|[|[|[|[|[|[|[|n]]]]]]]]]]; try done.
  all: apply first_method_some in H as [H ->]; split; [done|]; intros ->;
    repeat (apply elem_of_cons in H as [H|H]; [discriminate H|]); by apply not_elem_of_nil in H.
Qed.
Lemma method_of_short m x : method_of m = Some x -> zlen m <= 9 /\ m <> [] /\ x <> invalid_.
Proof. intros [-> H]%method_of_some. split; [|split; [|done]]; destruct x; done. Qed.

Lemma parse_method_view p b d : method_ (line p) = invalid_ -> view b d -> write_offset_ b < 18446744073709551616 ->
  match read_method d with
  | Some (m, r) => parse_method p b = Ok (true, set_method m (set_header_state metohd p), read_to d r b)
  | None => exists n q, 0 <= n <= zlen d /\ parse_method p b = Ok (false, q, advance n b) /\
              set_header_state init q = set_header_state init p
  end.
Proof.
  intros Hm Hv Hw. unfold parse_method. rewrite (view_readable _ _ Hv). destruct (zlen d =? 0) eqn:Ez.
  { destruct d; [|unfold zlen in Ez; cbn in Ez; lia]. cbn. exists 0, p. split; [unfold zlen; cbn; lia|]. split; [|done].
    unfold advance. destruct b. cbn. do 2 f_equal. f_equal. lia. }
  rewrite (view_span _ _ Hv). mstep. destruct (method_loop_spec d [] 0) as [L1 L2]; [done|].
  case_if.
  - (* GET *)
    apply andb_true_iff in Hif as [[H1 H2]%andb_true_iff H4]. unfold str_eqb in H2. apply bool_decide_eq_true_1 in H2.
    destruct d as [|c1 [|c2 [|c3 [|c4 d]]]]; try (unfold zlen in H4; cbn in H4; lia).
    cbn in H2. injection H2 as ->. change (str "get") with [103; 101; 116] in H1. cbn [take Headers.equal_ci_loop] in H1.
    assert ((c1 = 71 \/ c1 = 103) /\ (c2 = 69 \/ c2 = 101) /\ (c3 = 84 \/ c3 = 116)) as (E1 & E2 & E3).
    { repeat (case_if_in H1; [|done]). apply Z.eqb_eq in Hif, Hif0, Hif1.
      apply ascii_lower_inv in Hif, Hif0, Hif1; [|lia..]. lia. }
    assert (read_method (c1 :: c2 :: c3 :: 32 :: d) = Some (get_, d)) as ->
      by (destruct E1 as [-> | ->], E2 as [-> | ->], E3 as [-> | ->]; reflexivity).
    f_equal. f_equal. exact (consume_to b _ [c1; c2; c3; 32] d Hv Hw eq_refl).
  - unfold read_method. destruct (index_of 32 d) as [k|] eqn:Ek.
    + pose proof (index_of_lt _ _ _ Ek) as Hk. change (zlen []) with 0 in L2. rewrite Z.add_0_l in L2. destruct (Z.of_nat k <=? 16) eqn:E16.
      * rewrite L2. cbn [app]. rewrite L2 in L1. cbn [fst] in L1.
        generalize (map StringUtil.upper_ascii_char (take k d)) as m. intros m.
        destruct (method_of m) as [x|] eqn:Ex; cbn [mbind option_bind].
        -- destruct (method_of_short _ _ Ex) as (_ & Hne & Hx). destruct m as [|c m]; [done|].
           rewrite (bool_decide_eq_false_2 _ Hx). cbn [negb line set_method set_line method_]. f_equal. f_equal.
           pose proof (index_of_split _ _ _ Ek) as Es.
           replace (Z.of_nat k + 1) with (zlen (take k d ++ [32])) by (rewrite zlen_app; unfold zlen; rewrite length_take; cbn; lia).
           apply consume_to; [done..|]. by rewrite <- app_assoc.
        -- exists (Z.of_nat k + 1), (set_header_state metohd p). split; [lia|]. rewrite (consume_in b d) by (done || lia).
           destruct m as [|c m]; [done|]. rewrite bool_decide_eq_true_2 by done. done.
      * assert (method_of (map StringUtil.upper_ascii_char (take k d)) = None) as ->.
        { destruct (method_of _) eqn:Ex; [|done]. apply method_of_short in Ex as [Hz _].
          unfold zlen in Hz. rewrite length_map, length_take in Hz. lia. }
        cbn [mbind option_bind]. destruct (method_loop d [] 0) as [n tok]. cbn [fst snd] in *. subst tok.
        exists n, (set_header_state metohd p). split; [lia|]. by rewrite (consume_in b d) by (done || lia).
    + destruct (method_loop d [] 0) as [n tok]. cbn [fst snd] in *. subst tok.
      exists n, (set_header_state metohd p). split; [lia|]. by rewrite (consume_in b d) by (done || lia).
Qed.

Lemma read_method_suffix d m r : read_method d = Some (m, r) -> exists x, d = x ++ r.
Proof.
  unfold read_method. destruct (index_of 32 d) as [n|] eqn:E; [|done]. destruct (method_of _); [|done].
  cbn [mbind option_bind]. intros [= _ <-]. exists (take (S n) d). by rewrite take_drop.
Qed.

Lemma stage_method : implements (stage env init method_gap parse_method id) step_method.
Proof.
  intros p b d Hp Hw. unfold step_method. fold (state p). case_bool_decide as Es.
  - pose proof (parse_method_view p b d (proj1 Hp Es) (proj1 Hw) (proj2 (proj2 Hw))) as H.
    destruct (read_method d) as [[m r]|] eqn:Er.
    + destruct (read_method_suffix _ _ _ Er) as [x Ex]. split; [|by exists x].
      by rewrite (stage_ok _ _ _ _ _ _ _ _ _ _ Es Hw Ex H).
    + destruct H as (n & q & _ & H & E). split; [|by exists []].
      rewrite (stage_fail _ _ _ _ _ _ _ _ _ Es Hw H). unfold id. by rewrite E, set_header_state_same.
  - split; [by apply stage_skip|by exists []].
Qed.

Lemma split_prefix c d n : index_of c d = Some n -> d = take (S n) d ++ drop (S n) d /\ zlen (take (S n) d) = Z.of_nat n + 1.
Proof.
  intros H%index_of_lt. split; [by rewrite take_drop|]. unfold zlen. rewrite length_take. lia.
Qed.

Lemma advance_0 b : advance 0 b = b.
Proof. destruct b. unfold advance. cbn. f_equal. lia. Qed.

(** What a parse function does in the state of its stage, in terms of the step. *)
Definition views (here next : HeaderState) (onf : Packet -> Packet)
    (parse : Packet -> t -> outcome (bool * Packet * t)) (f : step) : Prop :=
  forall p b d, head_ok p -> state p = here -> within b d ->
    match f p d with
    | (true, p', d') => exists q, p' = set_header_state next q /\ parse p b = Ok (true, q, read_to d d' b) /\ exists x, d = x ++ d'
    | (false, p', d') => exists q n, p' = onf (set_header_state here q) /\ d' = d /\ parse p b = Ok (false, q, advance n b)
    end.
Lemma views_implements here next onf parse f : acts_in [here] f -> views here next onf parse f ->
  implements (stage env here next parse onf) f.
Proof.
  intros [A _] V p b d Hp Hw. destruct (decide (state p = here)) as [Es|Es].
  - pose proof (V p b d Hp Es Hw) as H. destruct (f p d) as [[[] p'] d'].
    + destruct H as (q & -> & H & x & Ex). split; [|by exists x]. by rewrite (stage_ok _ _ _ _ _ _ _ _ _ _ Es Hw Ex H).
    + destruct H as (q & n & -> & -> & H). split; [|by exists []]. by rewrite (stage_fail _ _ _ _ _ _ _ _ _ Es Hw H).
  - rewrite A by set_solver. split; [by apply stage_skip|by exists []].
Qed.

Lemma url_views : views method_gap url_gap id (parse_url env) step_url.
Proof.
  intros p b d Hp Es Hw. unfold step_url, parse_url. fold (state p). pose proof Hw as (Hv & Hl & Hb).
  rewrite (bool_decide_eq_true_2 _ Es). cbn [negb orb]. rewrite (view_readable _ _ Hv), (view_span _ _ Hv). mstep.
  assert (forall q, set_header_state method_gap q = p ->
            exists q' n, p = id (set_header_state method_gap q') /\ d = d /\ Ok (false, q, b) = Ok (false, q', advance n b)) as F.
  { intros q E. exists q, 0. rewrite advance_0. done. }
  destruct (zlen d =? 0) eqn:Ez.
  { destruct d; [|unfold zlen in Ez; cbn in Ez; lia]. cbn [index_of]. apply F. by apply set_header_state_same. }
  destruct (index_of 32 d) as [[|n]|] eqn:Ei; [apply F, (set_header_state_same p _ Es)| |apply F, (set_header_state_same p _ Es)].
  destruct (split_prefix _ _ _ Ei) as [Ed En]. pose proof (index_of_lt _ _ _ Ei) as Hlt.
  assert ((max_header_length env <? read_offset_ b + Z.of_nat (S n)) = false) as -> by (unfold zlen in Hl; lia).
  set (raw := take (S n) d).
  assert (consume (Z.of_nat (S n) + 1) b = read_to d (drop (S (S n)) d) b) as Ec by (rewrite <- En; by apply consume_to).
  change (if contains 37 raw then Url.url_decode raw false else raw) with (fst (url_of raw)).
  change (match index_of 63 raw with Some pos => if contains 37 raw then index_of 63 (fst (url_of raw)) else Some pos | None => None end)
    with (snd (url_of raw)).
  change (match fst (url_of raw) with [] => true | c :: _ => negb (c =? 47) && negb (contains 47 (fst (url_of raw))) end)
    with (url_refused (fst (url_of raw))).
  destruct (url_refused _).
  - exists (set_url (fst (url_of raw)) (snd (url_of raw)) (set_header_state url p)), (Z.of_nat (S n) + 1).
    split; [|split; [done|]]; [|by rewrite (consume_in b d) by (done || unfold zlen; lia)].
    unfold id. rewrite <- (set_header_state_same p _ Es) at 1. reflexivity.
  - rewrite Ec. unfold params_after. destruct (index_of 63 raw) as [pos|] eqn:Eq.
    + pose proof (decode_parameters_false (substr_from raw pos) (params_ (line p))) as Ht.
      change (params_ (line (set_url _ _ (set_header_state url p)))) with (params_ (line p)).
      change (params_ (line (set_url _ _ p))) with (params_ (line p)).
      destruct (Url.decode_parameters _ _ false) as [ok params]. cbn [fst snd] in *. subst ok.
      eexists. split; [|split; [reflexivity|by exists (take (S (S n)) d)]]. done.
    + eexists. split; [|split; [reflexivity|by exists (take (S (S n)) d)]]. done.
Qed.

Lemma version_views : views url_gap version_newline id (parse_version 13 10) step_version.
Proof.
  intros p b d Hp Es Hw. unfold step_version, parse_version. fold (state p). pose proof Hw as (Hv & Hl & Hb).
  rewrite (bool_decide_eq_true_2 _ Es). cbn [negb andb orb]. rewrite (view_readable _ _ Hv), (view_span _ _ Hv). mstep.
  assert (forall q, set_header_state url_gap q = p ->
            exists q' n, p = id (set_header_state url_gap q') /\ d = d /\ Ok (false, q, b) = Ok (false, q', advance n b)) as F.
  { intros q E. exists q, 0. rewrite advance_0. done. }
  destruct (zlen d =? 0) eqn:Ez.
  { destruct d; [|unfold zlen in Ez; cbn in Ez; lia]. cbn. apply F. by apply set_header_state_same. }
  change ((13 =? 13) && (10 =? 10)) with true. cbn [andb].
  destruct (str_eqb (take 10 d) (str "HTTP/1.1" ++ [13; 10])) eqn:E10.
  - unfold str_eqb in E10. apply bool_decide_eq_true_1 in E10. pose proof (take_drop 10 d) as Ed. rewrite E10 in Ed.
    assert (read_version d = Some (v_1_1, drop 10 d)) as ->.
    { rewrite <- Ed at 1. generalize (drop 10 d) as r. intros r. reflexivity. }
    exists (set_version v_1_1 (set_header_state version p)).
    split; [reflexivity|split; [|by exists (str "HTTP/1.1" ++ [13; 10])]]. f_equal. f_equal.
    by apply (consume_to b d (str "HTTP/1.1" ++ [13; 10])).
  - unfold read_version. destruct (index_of 13 d) as [n|] eqn:Ei; [|apply F, (set_header_state_same p _ Es)].
    destruct (Nat.ltb n 6); [apply F, (set_header_state_same p _ Es)|].
    destruct (negb (Headers.equal_ci_loop _ _ && _)); [apply F, (set_header_state_same p _ Es)|].
    change (negb (10 =? 0)) with true. change (10 =? 0) with false. cbv iota. cbn [andb].
    destruct (negb (bool_decide (d !! S n = Some 10))) eqn:E2; [apply F, (set_header_state_same p _ Es)|].
    destruct (version_of _) as [v|]; cbn [mbind option_bind]; [|apply F, (set_header_state_same p _ Es)].
    apply negb_false_iff, bool_decide_eq_true_1, lookup_lt_Some in E2.
    exists (set_version v (set_header_state version p)).
    split; [reflexivity|split; [|by exists (take (S (S n)) d); rewrite take_drop]]. f_equal. f_equal.
    rewrite <- (consume_to b d (take (S (S n)) d)) by (done || by rewrite take_drop).
    f_equal. unfold zlen. rewrite length_take. lia.
Qed.

Lemma header_loop_view fuel d off s h : (length d < fuel)%nat -> off + zlen d <= max_header_length env ->
  exists s', header_loop env fuel d off s h
    = Ok (match fst (read_fields fuel d h) with Some r => inr r | None => inl s' end, snd (read_fields fuel d h)).
Proof.
  revert d off s h. induction fuel as [|fuel IH]; intros d off s h Hf Hl; [lia|]. cbn [header_loop read_fields].
  destruct d as [|c d]; [by eexists|]. set (l := c :: d) in *.
  destruct (index_of 10 l) as [n|] eqn:Ei; [|by eexists]. pose proof (index_of_lt _ _ _ Ei) as Hlt.
  assert ((max_header_length env <? off + Z.of_nat n) = false) as -> by (unfold zlen in Hl; lia).
  destruct n as [|n]; [by eexists|].
  destruct (bool_decide (l !! n = Some 13)); cbn [negb]; [|by eexists].
  destruct n as [|n]; [by exists s|].
  destruct (header_line _ h) as [s'|h']; [by eexists|]. apply IH; [rewrite length_drop; lia|].
  unfold zlen in *. rewrite length_drop. lia.
Qed.
Lemma read_fields_suffix fuel d h r : fst (read_fields fuel d h) = Some r -> exists x, d = x ++ r.
Proof.
  revert d h. induction fuel as [|fuel IH]; intros d h H; [done|]. cbn [read_fields] in H.
  destruct (index_of 10 d) as [[|n]|] eqn:Ei; [done| |done]. case_if_in H; [|done]. destruct n as [|n].
  - injection H as <-. exists (take 2 d). by rewrite take_drop.
  - destruct (header_line _ h) as [|h']; [done|]. apply IH in H as [x Hx]. exists (take (S (S (S n))) d ++ x).
    by rewrite <- app_assoc, <- Hx, take_drop.
Qed.
Lemma fields_views : views version_newline header_end_lines clear_header (parse_header_keys env) step_fields.
Proof.
  intros p b d Hp Es Hw. unfold step_fields, parse_header_keys. fold (state p). pose proof Hw as (Hv & Hl & Hb).
  rewrite (bool_decide_eq_true_2 _ Es). cbn [negb andb orb]. rewrite (view_readable _ _ Hv), (view_span _ _ Hv). mstep.
  destruct (zlen d =? 0) eqn:Ez; cbn [orb].
  { destruct d; [|unfold zlen in Ez; cbn in Ez; lia]. cbn [read_fields index_of]. exists p, 0. rewrite advance_0.
    split; [|done]. rewrite set_header_state_same by done. by destruct p. }
  destruct (header_loop_view (S (length d)) d (read_offset_ b) (state p) (head p)) as [s' E]; [lia|done|].
  rewrite E. clear E. mstep. destruct (read_fields (S (length d)) d (head p)) as [[r|] h] eqn:Er; cbn [fst snd].
  - destruct (read_fields_suffix _ _ _ _ (f_equal fst Er)) as [x Hx].
    exists (set_header_state header_key (set_head h p)). split; [reflexivity|split; [|by exists x]]. f_equal. f_equal.
    replace (zlen d - zlen r) with (zlen x) by (rewrite Hx; zlia). by apply consume_to.
  - exists (set_header_state s' (set_head h p)), 0. rewrite advance_0. split; [|done].
    rewrite <- (set_header_state_same p _ Es) at 1. reflexivity.
Qed.

(** [parse_header] is [read_head]. *)
Lemma header_view : implements (parse_header env) read_head.
Proof.
  intros p b d Hp Hw. unfold parse_header, read_head, seq.
  pose proof (stage_method p b d Hp Hw) as H1. pose proof (method_cut p d [] Hp) as C1.
  destruct (step_method p d) as [[[] p1] d1]; destruct H1 as [-> [x1 E1]]; mstep; cbn [negb]; [|by split; [|exists x1]].
  pose proof (within_suffix _ _ _ _ Hw E1) as Hw1. destruct C1 as [_ Hp1].
  pose proof (views_implements _ _ _ _ _ url_acts url_views p1 _ d1 Hp1 Hw1) as H2. pose proof (url_cut p1 d1 [] Hp1) as C2.
  destruct (step_url p1 d1) as [[[] p2] d2]; destruct H2 as [-> [x2 E2]]; mstep; cbn [negb]; rewrite read_to_trans;
    [|by split; [|exists (x1 ++ x2); rewrite <- app_assoc, <- E2]].
  pose proof (within_suffix b d (x1 ++ x2) d2 Hw) as Hw2. rewrite <- app_assoc, <- E2 in Hw2. specialize (Hw2 E1).
  destruct C2 as [_ Hp2].
  pose proof (views_implements _ _ _ _ _ version_acts version_views p2 _ d2 Hp2 Hw2) as H3. pose proof (version_cut p2 d2 [] Hp2) as C3.
  destruct (step_version p2 d2) as [[[] p3] d3]; destruct H3 as [-> [x3 E3]]; mstep; cbn [negb]; rewrite read_to_trans;
    [|by split; [|exists (x1 ++ x2 ++ x3); rewrite <- !app_assoc, <- E3, <- E2]].
  pose proof (within_suffix b d (x1 ++ x2 ++ x3) d3 Hw) as Hw3. rewrite <- !app_assoc, <- E3, <- E2 in Hw3. specialize (Hw3 E1).
  destruct C3 as [_ Hp3].
  pose proof (views_implements _ _ _ _ _ fields_acts fields_views p3 _ d3 Hp3 Hw3) as H4.
  destruct (step_fields p3 d3) as [[ok p4] d4]. destruct H4 as [-> [x4 E4]]. rewrite read_to_trans. split; [done|].
  exists (x1 ++ x2 ++ x3 ++ x4). by rewrite <- !app_assoc, <- E4, <- E3, <- E2.
Qed.

(** * The body *)
Definition bounded (b : t) (d : bytes) : Prop := view b d /\ write_offset_ b < 18446744073709551616.
Lemma within_bounded b d : within b d -> bounded b d.
Proof. intros (H1 & _ & H2). done. Qed.
Lemma bounded_zlen b d : bounded b d -> zlen d < 18446744073709551616.
Proof. intros [Hv Hw]. pose proof (view_write _ _ Hv). destruct (proj1 Hv). lia. Qed.
(** A buffer that holds [d] and nothing else. *)
Definition canon (d : bytes) : t := mk d 0 (zlen d).
Lemma canon_bounded d : zlen d < 18446744073709551616 -> bounded (canon d) d.
Proof.
  intros H. split; [|done]. pose proof (view_mk [] d []) as Hv. cbn [app] in Hv. rewrite app_nil_r in Hv. exact Hv.
Qed.

(** The result depends on what the buffer holds. *)
Definition uniform {A} (d : bytes) (f : t -> outcome (A * t)) : Prop :=
  exists a n, 0 <= n <= zlen d /\ forall b, bounded b d -> f b = Ok (a, advance n b).
Lemma uniform_here {A} d (a : A) : uniform d (fun b => Ok (a, b)).
Proof. exists a, 0. split; [pose proof (zlen_nonneg d); lia|]. intros b _. by rewrite advance_0. Qed.

Lemma parse_spooled_uniform len p d : uniform d (parse_spooled env len p).
Proof.
  unfold parse_spooled. destruct (begin_body_file_spool env len p) as [ok q]. destruct ok; cbn [negb]; [|apply uniform_here].
  set (to_write := Z.min (u32 (len - u32 (body_file_received q))) (u32 (zlen d))).
  assert (0 <= to_write <= zlen d) as Ht.
  { pose proof (zlen_nonneg d). unfold to_write, u32. Z.to_euclidean_division_equations. lia. }
  set (data := take (Z.to_nat to_write) d).
  assert (forall b, bounded b d -> rd_range (storage_ b) (read_offset_ b) to_write = Ok data) as Hrd.
  { intros b [Hv _]. pose proof (view_window b [] data (drop (Z.to_nat to_write) d)) as H.
    unfold data in *. rewrite <- (take_drop (Z.to_nat to_write) d) in Hv at 1. specialize (H Hv).
    change (zlen []) with 0 in H. rewrite Z.add_0_r in H. rewrite <- H. f_equal. unfold zlen. rewrite length_take. unfold zlen in Ht. lia. }
  assert (exists ok2 q2, (if 0 <? to_write then append_body_file_bytes env data q else (true, q)) = (ok2, q2)) as (ok2 & q2 & E)
    by (destruct (if 0 <? to_write then _ else _); eauto).
  destruct ok2; [destruct (body_file_spool_done q2) eqn:Ed|].
  - exists (1, set_body_state fully q2), to_write. split; [done|]. intros b Hb. rewrite (view_readable _ _ (proj1 Hb)). fold to_write.
    rewrite (Hrd b Hb). mstep. rewrite E. cbn [negb]. rewrite Ed. rewrite (consume_in b d) by (apply Hb || done).
    case_if; [done|]. replace to_write with 0 by lia. by rewrite advance_0.
  - exists (0, set_body_state partial q2), to_write. split; [done|]. intros b Hb. rewrite (view_readable _ _ (proj1 Hb)). fold to_write.
    rewrite (Hrd b Hb). mstep. rewrite E. cbn [negb]. rewrite Ed. rewrite (consume_in b d) by (apply Hb || done).
    case_if; [done|]. replace to_write with 0 by lia. by rewrite advance_0.
  - exists (-2, set_body_state body_too_long q2), 0. split; [lia|]. intros b Hb. rewrite (view_readable _ _ (proj1 Hb)). fold to_write.
    rewrite (Hrd b Hb). mstep. rewrite E. cbn [negb]. by rewrite advance_0.
Qed.
Lemma parse_buffered_uniform len p d : uniform d (fun b => Ok (parse_buffered env len p b)).
Proof.
  assert (exists r q, forall b, bounded b d -> parse_buffered env len p b = (r, q, b)) as (r & q & H).
  { unfold parse_buffered, parse_body. destruct (negb (is_header_done p)); [by repeat eexists|].
    destruct (client_max_content_length env <? len); [by repeat eexists|].
    destruct (zlen d <? len) eqn:E.
    - exists 0, (set_body_state partial p). intros b Hb. by rewrite (view_readable _ _ (proj1 Hb)), E.
    - set (q := set_body_state fully p).
      destruct (Headers.get_header Headers.content_disposition (headers (head q))) eqn:E1; [|destruct (Headers.get_header Headers.content_type (headers (head q))) as [t0|] eqn:E2; [destruct (can_parse (find_content_type t0)) eqn:E3|]].
      1: exists (-1), q. 2: exists 1, q. 3: exists 1, (set_file_name (get_last_uri env q) (set_download_file true q)). 4: exists 1, q.
      all: intros b Hb; rewrite (view_readable _ _ (proj1 Hb)), E; change (1 =? 0) with false; change (1 <? 0) with false;
        cbv zeta iota; fold q; rewrite ?E1, ?E2, ?E3; done. }
  exists (r, q), 0. split; [pose proof (zlen_nonneg d); lia|]. intros b Hb. by rewrite H, advance_0.
Qed.
Lemma parse_message_uniform p d : uniform d (parse_message env p).
Proof.
  unfold parse_message. destruct (negb (Headers.body_related_header_present_ _)); [apply uniform_here|].
  destruct (Headers.parse_content_length_header _) as [|len|]; [| |apply uniform_here]; cbn [andb].
  - destruct (bool_decide _); [|apply uniform_here]. destruct (negb _); apply uniform_here.
  - destruct (bool_decide _); [apply uniform_here|]. destruct (0 <? len); [|apply uniform_here].
    destruct (should_spool_request_body _ len); [apply parse_spooled_uniform|apply parse_buffered_uniform].
Qed.

(** The branch for a complete header, on the unread bytes. *)
Definition message (p : Packet) (d : bytes) : Z * Packet * bytes :=
  match parse_message env p (canon d) with
  | Ok (r, p', b) => (r, p', drop (Z.to_nat (read_offset_ b)) d)
  | _ => (0, p, d)
  end.
Lemma message_view p b d : bounded b d ->
  match message p d with
  | (r, p', d') => parse_message env p b = Ok (r, p', read_to d d' b) /\ exists x, d = x ++ d'
  end.
Proof.
  intros Hb. destruct (parse_message_uniform p d) as ([r q] & n & Hn & H). unfold message.
  rewrite (H (canon d)) by (apply canon_bounded; by eapply bounded_zlen). rewrite (H b Hb). cbn [read_offset_ advance canon].
  split; [|exists (take (Z.to_nat (0 + n)) d); by rewrite take_drop]. f_equal. f_equal. unfold read_to. f_equal.
  unfold zlen in *. rewrite length_drop. lia.
Qed.

(** [parse] on the unread bytes. *)
Definition parse_bytes (p : Packet) (d : bytes) : Z * Packet * bytes :=
  if done p then (-2, set_body_state body_too_long p, d)
  else
    let '(ok, p, d) := if is_header_done p then (true, p, d) else read_head p d in
    if ok : bool then message p d else (-1, p, d).

Lemma fields_end p d p' d' : state p ∈ [version_newline; header_end_lines] -> step_fields p d = (true, p', d') ->
  state p' = header_end_lines.
Proof.
  intros Hs. unfold step_fields. fold (state p). case_bool_decide as E.
  - destruct (read_fields _ _ _) as [[r|] h]; [|done]. by intros [= <- <-].
  - intros [= <- <-]. apply elem_of_cons in Hs as [?|Hs]; [done|]. by apply list_elem_of_singleton in Hs.
Qed.
Lemma head_end p d p' d' : head_ok p -> read_head p d = (true, p', d') -> state p' = header_end_lines.
Proof.
  intros Hp. unfold read_head, seq.
  assert (state p ∈ [init; method_gap; url_gap; version_newline; header_end_lines]) as Hs.
  { destruct Hp as [_ [-> |[Hp _]]]; set_solver. }
  destruct (step_method p d) as [[[] p1] d1] eqn:E1; [|done].
  assert (state p1 ∈ [method_gap; url_gap; version_newline; header_end_lines]) as Hs1.
  { unfold step_method in E1. fold (state p) in E1. case_bool_decide as E.
    - destruct (read_method d) as [[]|]; [|done]. injection E1 as <- <-. cbn. set_solver.
    - injection E1 as <- <-. set_solver. }
  destruct (step_url p1 d1) as [[[] p2] d2] eqn:E2; [|done].
  assert (state p2 ∈ [url_gap; version_newline; header_end_lines]) as Hs2.
  { unfold step_url in E2. fold (state p1) in E2. case_bool_decide as E.
    - destruct (index_of 32 d1) as [[|n]|]; [done| |done]. destruct (url_refused _); [done|]. injection E2 as <- <-. cbn. set_solver.
    - injection E2 as <- <-. set_solver. }
  destruct (step_version p2 d2) as [[[] p3] d3] eqn:E3; [|done].
  intros H. eapply fields_end; [|exact H].
  unfold step_version in E3. fold (state p2) in E3. case_bool_decide as E.
  - destruct (read_version d2) as [[]|]; [|done]. injection E3 as <- <-. cbn. set_solver.
  - injection E3 as <- <-. set_solver.
Qed.
Lemma is_header_done_iff p : is_header_done p = true <-> state p = header_end_lines.
Proof. unfold is_header_done. apply bool_decide_eq_true. Qed.

Lemma parse_view p b d : head_ok p -> bounded b d -> state p = header_end_lines \/ within b d ->
  match parse_bytes p d with
  | (r, p', d') => parse env p b = Ok (r, p', read_to d d' b) /\ exists x, d = x ++ d'
  end.
Proof.
  intros Hp Hb Hw. unfold parse_bytes, parse. destruct (done p); [split; [by rewrite read_to_here|by exists []]|].
  destruct (is_header_done p) eqn:Eh.
  - mstep. cbn [negb]. fold (state p). pose proof Eh as Es. apply is_header_done_iff in Es. rewrite Es, bool_decide_eq_false_2 by done.
    rewrite Eh. by apply message_view.
  - destruct Hw as [Hw|Hw]; [apply is_header_done_iff in Hw; congruence|]. pose proof (header_view p b d Hp Hw) as H.
    destruct (read_head p d) as [[[] p1] d1] eqn:E; destruct H as [-> [x Ex]]; mstep; cbn [negb]; [|split; [done|by exists x]].
    pose proof (head_end _ _ _ _ Hp E) as Es. fold (state p1). rewrite Es, bool_decide_eq_false_2 by done.
    apply is_header_done_iff in Es. rewrite Es.
    pose proof (message_view p1 (read_to d d1 b) d1 (within_bounded _ _ (within_suffix _ _ _ _ Hw Ex))) as Hm.
    destruct (message p1 d1) as [[r p2] d2]. destruct Hm as [-> [x2 Ex2]]. rewrite read_to_trans. split; [done|].
    exists (x ++ x2). by rewrite <- app_assoc, <- Ex2.
Qed.

(** ** Bodies in pieces *)
Lemma parse_buffered_again len p b : parse_buffered env len (set_body_state partial p) b = parse_buffered env len p b.
Proof.
  unfold parse_buffered. change (parse_body env len (set_body_state partial p) b) with (parse_body env len p b).
  destruct (parse_body env len p b =? 0); [done|]. by destruct (parse_body env len p b <? 0).
Qed.
Lemma parse_spooled_zero len p b p' b' : parse_spooled env len p b = Ok (0, p', b') -> spool_ (body p') <> None.
Proof.
  unfold parse_spooled. destruct (begin_body_file_spool env len p) as [ok q] eqn:Eb. destruct ok; cbn [negb]; [|done].
  intros (data & _ & H)%outcome_bind_inv.
  assert (spool_ (body q) <> None) as Hq.
  { unfold begin_body_file_spool in Eb. case_if_in Eb; [done|]. destruct (spool_ (body p)) as [s0|] eqn:Es.
    - destruct (body_file_open s0); [injection Eb as <-; by rewrite Es|]. destruct (disk_opens env); [|done]. by injection Eb as <-.
    - destruct (disk_opens env); [|done]. by injection Eb as <-. }
  destruct (if 0 <? _ then append_body_file_bytes env data q else (true, q)) as [ok2 q2] eqn:Ea.
  assert (spool_ (body q2) <> None) as Hq2.
  { case_if_in Ea; [|by injection Ea as <- <-]. unfold append_body_file_bytes in Ea.
    destruct (spool_ (body q)) as [s0|] eqn:Es; [|done]. case_if_in Ea; [injection Ea as <- <-; by rewrite Es|].
    destruct (disk_writes env _); injection Ea as <- <-; [done|by rewrite Es]. }
  destruct ok2; cbn [negb] in H; [|done]. destruct (body_file_spool_done q2); [done|]. by injection H as <- _.
Qed.

(** A message that is not complete: it is tried again, with more bytes. *)
Lemma parse_message_zero p b p' b' : parse_message env p b = Ok (0, p', b') -> spool_ (body p') = None ->
  b' = b /\ state p' = state p /\ body_state (parser_ p') = partial /\ status p' = status p /\ head p' = head p /\
  forall b, parse_message env p' b = parse_message env p b.
Proof.
  unfold parse_message at 1. destruct (negb (Headers.body_related_header_present_ _)) eqn:Er; [done|].
  destruct (Headers.parse_content_length_header _) as [|len|] eqn:El; [| |done]; cbn [andb].
  { intros H. change (0 <? 0) with false in H. repeat case_if_in H; discriminate H. }
  destruct (bool_decide _) eqn:Et; [done|]. destruct (0 <? len) eqn:E0; [|done].
  destruct (should_spool_request_body (set_body_length len p) len) eqn:Es.
  { intros H Hs. by apply parse_spooled_zero in H. }
  unfold parse_buffered. intros H Hs. set (q := set_body_length len p) in *.
  destruct (parse_body env len q b =? 0) eqn:Eb.
  - injection H as <- <-. repeat (split; [done|]). intros b0. unfold parse_message.
    cbn [head set_body_state q set_body_length set_body]. rewrite Er, El, Et. cbn [andb]. rewrite E0.
    change (should_spool_request_body (set_body_length len (set_body_state partial q)) len) with (should_spool_request_body q len).
    fold q. rewrite Es. f_equal.
  - destruct (parse_body env len q b <? 0); [done|].
    destruct (Headers.get_header Headers.content_disposition _); [done|].
    unfold parse_body in *. destruct (Headers.get_header Headers.content_type _) as [t0|]; [destruct (can_parse _); [|done]|];
      repeat case_if_in H; try done; repeat case_if_in Eb; done.
Qed.
Lemma message_zero p d p' d' : zlen d < 18446744073709551616 -> message p d = (0, p', d') -> spool_ (body p') = None ->
  d' = d /\ state p' = state p /\ body_state (parser_ p') = partial /\ status p' = status p /\ head p' = head p /\
  forall x, zlen x < 18446744073709551616 -> message p' x = message p x.
Proof.
  intros Hd E Hs. unfold message in E. destruct (parse_message_uniform p d) as ([r q] & n & Hn & H).
  pose proof (H (canon d) (canon_bounded _ Hd)) as Hc. rewrite Hc in E. injection E as -> -> <-.
  destruct (parse_message_zero _ _ _ _ Hc Hs) as (Ec & E1 & E2 & E3 & E4 & E5).
  assert (n = 0) as -> by (unfold advance, canon in Ec; injection Ec; lia). split; [done|]. repeat (split; [done|]). intros x Hx. unfold message. rewrite E5.
  destruct (parse_message_uniform p x) as ([r2 q2] & n2 & Hn2 & H2).
  by rewrite (H2 (canon x) (canon_bounded _ Hx)).
Qed.
Lemma message_head p d : zlen d < 18446744073709551616 ->
  match message p d with (r, p', d') => state p' = state p /\ head p' = head p /\ exists x, d = x ++ d' end.
Proof.
  intros Hd. unfold message. destruct (parse_message_uniform p d) as ([r q] & n & Hn & H).
  rewrite (H (canon d) (canon_bounded _ Hd)). cut (state q = state p /\ head q = head p).
  { intros [H1 H2]. split; [done|]. split; [done|]. exists (take (Z.to_nat (read_offset_ (advance n (canon d)))) d). by rewrite take_drop. }
  specialize (H (canon d) (canon_bounded _ Hd)). unfold parse_message in H.
  case_if_in H; [by injection H as <- <-|].
  destruct (Headers.parse_content_length_header _) as [|len|]; [| |by injection H as <- <-]; cbn [andb] in H.
  { change (0 <? 0) with false in H. repeat case_if_in H; by injection H as <- <-. }
  destruct (bool_decide (is_Some _)) in H; [by injection H as <- <-|]. destruct (0 <? len); [|by injection H as <- <-].
  destruct (should_spool_request_body _ len) in H.
  - unfold parse_spooled in H. destruct (begin_body_file_spool env len _) as [ok q0] eqn:Eb.
    assert (state q0 = state p /\ head q0 = head p) as [E1 E2].
    { unfold begin_body_file_spool in Eb. repeat case_if_in Eb; repeat (destruct (spool_ _)); repeat case_if_in Eb; injection Eb as _ <-; done. }
    destruct ok; cbn [negb] in H; [|by injection H as <- <-]. apply outcome_bind_inv in H as (data & _ & H).
    destruct (if 0 <? _ then append_body_file_bytes env data q0 else (true, q0)) as [ok2 q2] eqn:Ea.
    assert (state q2 = state q0 /\ head q2 = head q0) as [E3 E4].
    { case_if_in Ea; [|by injection Ea as <- <-]. unfold append_body_file_bytes in Ea.
      destruct (spool_ _); repeat case_if_in Ea; by injection Ea as <- <-. }
    unfold state in *.
    destruct ok2; cbn [negb] in H; [destruct (body_file_spool_done q2)|]; injection H as <- <-; cbn; split; congruence.
  - unfold parse_buffered in H. destruct (_ =? 0) in H; [by injection H as <- <-|]. destruct (_ <? 0) in H; [by injection H as <- <-|].
    destruct (Headers.get_header Headers.content_disposition _) in H; [by injection H as <- <-|].
    destruct (Headers.get_header Headers.content_type _) as [t0|] in H; [destruct (can_parse _) in H|]; by injection H as <- <-.
Qed.

(** ** The parser does not look at the buffer of the packet, nor at its verdict *)
Definition mark (g : bool) (k : t) (p : Packet) : Packet := set_input_cache k (set_good g p).
Definition mark3 {A B} (g : bool) (k : t) (r : A * Packet * B) : A * Packet * B :=
  let '(a, p, b) := r in (a, mark g k p, b).

Lemma step_method_mark g k p d : step_method (mark g k p) d = mark3 g k (step_method p d).
Proof. unfold step_method. cbn. case_bool_decide; [|done]. by destruct (read_method d) as [[]|]. Qed.
Lemma step_url_mark g k p d : step_url (mark g k p) d = mark3 g k (step_url p d).
Proof. unfold step_url. cbn. case_bool_decide; [|done]. destruct (index_of 32 d) as [[|n]|]; [done| |done]. by destruct (url_refused _). Qed.
Lemma step_version_mark g k p d : step_version (mark g k p) d = mark3 g k (step_version p d).
Proof. unfold step_version. cbn. case_bool_decide; [|done]. by destruct (read_version d) as [[]|]. Qed.
Lemma step_fields_mark g k p d : step_fields (mark g k p) d = mark3 g k (step_fields p d).
Proof. unfold step_fields. cbn -[read_fields]. case_bool_decide; [|done]. by destruct (read_fields _ d _) as [[]]. Qed.
Lemma read_head_mark g k p d : read_head (mark g k p) d = mark3 g k (read_head p d).
Proof.
  unfold read_head, seq. rewrite step_method_mark. destruct (step_method p d) as [[[] p1] d1]; [cbn [mark3]|done].
  rewrite step_url_mark. destruct (step_url p1 d1) as [[[] p2] d2]; [cbn [mark3]|done].
  rewrite step_version_mark. destruct (step_version p2 d2) as [[[] p3] d3]; [cbn [mark3]|done]. apply step_fields_mark.
Qed.

Lemma spool_mark g k len p :
  begin_body_file_spool env len (mark g k p) = (fst (begin_body_file_spool env len p), mark g k (snd (begin_body_file_spool env len p))).
Proof.
  unfold begin_body_file_spool. case_if; [done|]. cbn [mark set_input_cache set_good set_status body].
  destruct (spool_ (body p)) as [s|]; [destruct (body_file_open s); [done|]|]; by destruct (disk_opens env).
Qed.
Lemma append_mark g k x p :
  append_body_file_bytes env x (mark g k p) = (fst (append_body_file_bytes env x p), mark g k (snd (append_body_file_bytes env x p))).
Proof.
  unfold append_body_file_bytes. cbn [mark set_input_cache set_good set_status body].
  destruct (spool_ (body p)) as [s|]; [|done]. case_if; [done|]. by destruct (disk_writes env _).
Qed.
Definition omap {A B} (f : A -> B) (m : outcome A) : outcome B := a ← m; Ok (f a).
Lemma parse_message_mark g k p b : parse_message env (mark g k p) b = omap (mark3 g k) (parse_message env p b).
Proof.
  unfold parse_message. change (headers (head (mark g k p))) with (headers (head p)).
  change (is_chunked (mark g k p)) with (is_chunked p).
  case_if; [done|]. destruct (Headers.parse_content_length_header _) as [|len|]; [| |done]; cbn [andb].
  { change (0 <? 0) with false. repeat case_if; done. }
  destruct (bool_decide _); [done|]. destruct (0 <? len); [|done].
  change (set_body_length len (mark g k p)) with (mark g k (set_body_length len p)). set (q := set_body_length len p).
  change (should_spool_request_body (mark g k q) len) with (should_spool_request_body q len).
  destruct (should_spool_request_body q len).
  - unfold parse_spooled. rewrite spool_mark. destruct (begin_body_file_spool env len q) as [ok q1]. cbn [fst snd].
    destruct ok; cbn [negb]; [|done]. change (body_file_received (mark g k q1)) with (body_file_received q1).
    unfold omap. destruct (rd_range _ _ _) as [data| | |]; [mstep|done..]. rewrite append_mark.
    assert ((if 0 <? Z.min (u32 (len - u32 (body_file_received q1))) (u32 (readable_bytes b))
             then (fst (append_body_file_bytes env data q1), mark g k (snd (append_body_file_bytes env data q1))) else (true, mark g k q1))
            = (fst (if 0 <? Z.min (u32 (len - u32 (body_file_received q1))) (u32 (readable_bytes b)) then append_body_file_bytes env data q1 else (true, q1)),
               mark g k (snd (if 0 <? Z.min (u32 (len - u32 (body_file_received q1))) (u32 (readable_bytes b)) then append_body_file_bytes env data q1 else (true, q1))))) as ->
      by (by destruct (0 <? _)).
    destruct (if 0 <? _ then append_body_file_bytes env data q1 else (true, q1)) as [ok2 q2]. cbn [fst snd].
    destruct ok2; cbn [negb]; [|done]. change (body_file_spool_done (mark g k q2)) with (body_file_spool_done q2).
    by destruct (body_file_spool_done q2).
  - unfold parse_buffered, omap. mstep. change (parse_body env len (mark g k q) b) with (parse_body env len q b).
    destruct (parse_body env len q b =? 0); [done|]. destruct (parse_body env len q b <? 0); [done|].
    change (headers (head (set_body_state fully (mark g k q)))) with (headers (head (set_body_state fully q))).
    destruct (Headers.get_header Headers.content_disposition _); [done|].
    destruct (Headers.get_header Headers.content_type _) as [t0|]; [|done]. by destruct (can_parse _).
Qed.
Lemma message_mark g k p d : message (mark g k p) d = mark3 g k (message p d).
Proof.
  unfold message. rewrite parse_message_mark. unfold omap. by destruct (parse_message env p (canon d)) as [[[r q] b]| | |].
Qed.
Lemma parse_bytes_mark g k p d : parse_bytes (mark g k p) d = mark3 g k (parse_bytes p d).
Proof.
  unfold parse_bytes. change (done (mark g k p)) with (done p). destruct (done p); [done|].
  change (is_header_done (mark g k p)) with (is_header_done p). destruct (is_header_done p); [apply message_mark|].
  rewrite read_head_mark. destruct (read_head p d) as [[[] p1] d1]; [|done]. apply message_mark.
Qed.

(** ** A message that waits for more *)
Definition waiting (r : Z) (p : Packet) : Prop :=
  r = -1 /\ is_header_done p = false \/ r = 0 /\ spool_ (body p) = None.
Lemma read_head_fails p d p' d' : head_ok p -> is_header_done p = false -> read_head p d = (false, p', d') ->
  is_header_done p' = false /\ head_ok p'.
Proof.
  intros Hp Hd E. pose proof (head_cut p d [] Hp) as C. rewrite E in C. destruct C as [_ C]. split; [|done].
  assert (acts_in ([init] ++ [method_gap] ++ [url_gap] ++ [version_newline]) read_head) as [_ A].
  { repeat apply acts_seq; [apply method_acts|apply url_acts|apply version_acts|apply fields_acts]. }
  apply A in E. unfold is_header_done. fold (state p'). apply bool_decide_eq_false. intros Hs. rewrite Hs in E. set_solver.
Qed.
Lemma not_done_header p : is_header_done p = false -> done p = false.
Proof. unfold done. by intros ->. Qed.

(** The stages keep what is not the head, and leave a suffix. *)
Definition keeps (f : step) : Prop := forall p d,
  match f p d with (_, p', d') => status p' = status p /\ body p' = body p /\ input_cache_ p' = input_cache_ p /\ exists x, d = x ++ d' end.
Lemma keeps_seq f g : keeps f -> keeps g -> keeps (seq f g).
Proof.
  intros F G p d. unfold seq. pose proof (F p d) as HF. destruct (f p d) as [[[] p1] d1]; [|done].
  destruct HF as (H1 & H2 & H3 & x & H4). pose proof (G p1 d1) as HG. destruct (g p1 d1) as [[ok p2] d2].
  destruct HG as (G1 & G2 & G3 & y & G4). split; [congruence|]. split; [congruence|]. split; [congruence|].
  exists (x ++ y). by rewrite <- app_assoc, <- G4.
Qed.
Lemma head_keeps : keeps read_head.
Proof.
  repeat apply keeps_seq; intros p d.
  - unfold step_method. case_bool_decide; [|by repeat (split; [done|]); exists []].
    destruct (read_method d) as [[m r]|] eqn:E; [|by repeat (split; [done|]); exists []].
    repeat (split; [done|]). by eapply read_method_suffix.
  - unfold step_url. case_bool_decide; [|by repeat (split; [done|]); exists []].
    destruct (index_of 32 d) as [[|n]|]; try by repeat (split; [done|]); exists [].
    destruct (url_refused _); repeat (split; [done|]); [by exists []|]. exists (take (S (S n)) d). by rewrite take_drop.
  - unfold step_version. case_bool_decide; [|by repeat (split; [done|]); exists []].
    destruct (read_version d) as [[v r]|] eqn:E; [|by repeat (split; [done|]); exists []].
    repeat (split; [done|]). unfold read_version in E. destruct (index_of 13 d) as [n|]; [|done].
    repeat (case_if_in E; [done|]). destruct (version_of _); [|done]. injection E as _ <-. exists (take (S (S n)) d). by rewrite take_drop.
  - unfold step_fields. case_bool_decide; [|by repeat (split; [done|]); exists []].
    destruct (read_fields _ d _) as [[r|] h] eqn:E; repeat (split; [done|]); [|by exists []].
    by eapply read_fields_suffix, (f_equal fst E).
Qed.

Lemma parse_bytes_cut p d e : head_ok p -> is_download_file_ (status p) = false -> zlen (d ++ e) < 18446744073709551616 ->
  match parse_bytes p d with
  | (r, p', d') => waiting r p' ->
      parse_bytes p' (d' ++ e) = parse_bytes p (d ++ e) /\ head_ok p' /\ done p' = false /\ status p' = status p /\ exists x, d = x ++ d'
  end.
Proof.
  intros Hp Hdl Hz. assert (zlen d < 18446744073709551616) as Hzd by (pose proof (zlen_nonneg e); rewrite zlen_app in Hz; lia).
  assert (forall q d1, state q = header_end_lines -> is_download_file_ (status q) = false -> zlen (d1 ++ e) < 18446744073709551616 ->
    match message q d1 with
    | (r, p', d') => waiting r p' ->
        d' = d1 /\ done p' = false /\ is_header_done p' = true /\ status p' = status q /\ head_ok p' /\ message p' (d' ++ e) = message q (d1 ++ e)
    end) as M.
  { intros q d1 Hs Hq Hz1. assert (zlen d1 < 18446744073709551616) as Hzd1 by (pose proof (zlen_nonneg e); rewrite zlen_app in Hz1; lia).
    pose proof (message_head q d1 Hzd1) as Hh. destruct (message q d1) as [[r p'] d'] eqn:E. destruct Hh as (Hs' & _ & _).
    rewrite Hs in Hs'. pose proof (proj2 (is_header_done_iff p') Hs') as Hh. intros [[_ Hn]|[-> Hn]]; [congruence|].
    destruct (message_zero _ _ _ _ Hzd1 E Hn) as (-> & _ & Hb & Hst & _ & Hm). split; [done|].
    split; [|split; [done|split; [done|split; [|by apply Hm]]]].
    - unfold done, is_body_done. rewrite Hb, Hst, Hq. cbn. apply andb_false_r.
    - split; [congruence|by left]. }
  unfold parse_bytes at 1. destruct (done p) eqn:Ed; [intros [[? _]|[? _]]; lia|]. destruct (is_header_done p) eqn:Eh.
  - pose proof (M p d (proj1 (is_header_done_iff p) Eh) Hdl Hz) as H. destruct (message p d) as [[r p'] d']. intros W.
    destruct (H W) as (-> & Hd' & Hh' & Hst & Hok & Hm). split; [|split; [done|split; [done|split; [done|by exists []]]]].
    unfold parse_bytes. by rewrite Hd', Hh', Ed, Eh.
  - pose proof (head_cut p d e Hp) as C. destruct (read_head p d) as [[[] p1] d1] eqn:E.
    + destruct C as [C C1]. pose proof (head_end _ _ _ _ Hp E) as Hs1.
      pose proof (head_keeps p d) as K. rewrite E in K. destruct K as (Hst1 & _ & _ & x & Hx).
      pose proof (M p1 d1 Hs1) as H. rewrite Hst1 in H. specialize (H Hdl).
      rewrite Hx, <- app_assoc, zlen_app in Hz. pose proof (zlen_nonneg x). specialize (H ltac:(lia)).
      destruct (message p1 d1) as [[r p'] d']. intros W. destruct (H W) as (-> & Hd' & Hh' & Hst & Hok & Hm).
      split; [|split; [done|split; [done|split; [by rewrite Hst|by exists x]]]].
      unfold parse_bytes. by rewrite Hd', Hh', Ed, Eh, C.
    + destruct C as [C C1]. intros _. destruct (read_head_fails _ _ _ _ Hp Eh E) as [Hn Hok].
      pose proof (head_keeps p d) as K. rewrite E in K. destruct K as (Hst & _ & _ & Hx).
      split; [|split; [done|split; [by apply not_done_header|done]]].
      unfold parse_bytes. by rewrite (not_done_header _ Hn), Hn, Ed, Eh, C.
Qed.

(** * Rounds *)

(** The end of [parse_input_cache], with what is left in the buffer. *)
Definition conclude (r : Z) (p : Packet) (d : bytes) : outcome (bool * Packet) :=
  if r <? 0 then
    if (r =? -1) && negb (is_header_done p) && negb (complete_header_loop d)
    then Ok (false, set_good (negb (max_header_length env <? zlen d)) p)
    else Ok (false, set_good false (set_error_code (if r =? -2 then payload_too_large else bad_request) p))
  else if r =? 1 then
    let p := set_good true p in
    match Headers.get_header Headers.content_type (headers (head p)) with
    | None => Ok (true, p)
    | Some ctype =>
        '(ok, text, extra, _) ← parse_content_type ctype (content_type_text_ (body p)) (content_type_extra_ (body p));
        Ok (true, set_type (find_content_type text) text extra (set_good ok p))
    end
  else Ok (false, set_good true p).

Lemma parse_input_cache_view p d : head_ok p -> bounded (input_cache_ p) d ->
  state p = header_end_lines \/ within (input_cache_ p) d -> zlen d <= get_max_packet_size env ->
  match parse_bytes p d with
  | (r, p1, d1) => exists k, view k d1 /\ read_offset_ k = 0 /\ parse_input_cache env p = conclude r (set_input_cache k p1) d1
  end.
Proof.
  intros Hp Hb Hs Hz. pose proof (parse_view p (input_cache_ p) d Hp Hb Hs) as H.
  destruct (parse_bytes p d) as [[r p1] d1]. destruct H as [E [x Hx]].
  destruct (compact_view (read_to d d1 (input_cache_ p)) d1) as (k & Ek & Hk & Ho).
  { rewrite Hx in Hb |- *. unfold read_to. replace (zlen (x ++ d1) - zlen d1) with (zlen x) by zlia. apply view_advance, Hb. }
  exists k. split; [done|]. split; [done|]. unfold parse_input_cache. rewrite (view_readable _ _ (proj1 Hb)).
  assert ((get_max_packet_size env <? zlen d) = false) as -> by lia. rewrite E. mstep. rewrite Ek. mstep.
  unfold conclude. destruct (r <? 0) eqn:Er; [|done].
  change (is_header_done (set_input_cache k p1)) with (is_header_done p1).
  destruct ((r =? -1) && negb (is_header_done p1)) eqn:E1; mstep; [|done].
  unfold has_complete_http_header. rewrite (view_span _ _ Hk). mstep. rewrite (view_readable _ _ Hk). cbn [andb].
  destruct (complete_header_loop d1); cbn [negb]; [done|]. by destruct (max_header_length env <? zlen d1).
Qed.

(** States that differ in the storage of their buffer. *)
Definition alike (p q : Packet) : Prop :=
  exists d k, view (input_cache_ p) d /\ read_offset_ (input_cache_ p) = 0 /\ view k d /\ read_offset_ k = 0 /\ q = set_input_cache k p.
Definition both {A} (R : A -> A -> Prop) (m m' : outcome A) : Prop :=
  match m, m' with
  | Ok a, Ok a' => R a a'
  | Reject, Reject | Fault, Fault | Diverge, Diverge => True
  | _, _ => False
  end.
Lemma both_bind {A B} (R : A -> A -> Prop) (S : B -> B -> Prop) m m' f f' :
  both R m m' -> (forall a a', R a a' -> both S (f a) (f' a')) -> both S (m ≫= f) (m' ≫= f').
Proof. destruct m, m'; cbn; try done. auto. Qed.

Definition alike1 {A} (x y : A * Packet) : Prop := fst x = fst y /\ alike (snd x) (snd y).
Lemma alike_update p q (f : Packet -> Packet) : alike p q ->
  (forall k p, f (set_input_cache k p) = set_input_cache k (f p)) -> (forall p, input_cache_ (f p) = input_cache_ p) ->
  alike (f p) (f q).
Proof. intros (d & k & H1 & H2 & H3 & H4 & ->) Hf Hc. exists d, k. rewrite Hc. by rewrite Hf. Qed.
Lemma alike_clear p q : alike p q ->
  alike (set_input_cache (ByteBuffer.clear (input_cache_ p)) p) (set_input_cache (ByteBuffer.clear (input_cache_ q)) q).
Proof.
  intros (d & k & (H1 & _) & _ & (H3 & _) & _ & ->). exists [], (ByteBuffer.clear k). cbn.
  assert (forall b, wf b -> view (ByteBuffer.clear b) []) as C by (intros b Hb; split; [by apply clear_wf|done]).
  split; [by apply C|]. split; [done|]. split; [by apply C|]. done.
Qed.
Lemma alike_set p q b d : alike p q -> view b d -> read_offset_ b = 0 -> alike (set_input_cache b p) (set_input_cache b q).
Proof. intros (d0 & k & _ & _ & _ & _ & ->) Hb Ho. by exists d, b. Qed.

Lemma body_range_view p d : view (input_cache_ p) d ->
  body_range p = if body_length_ (body p) =? 0 then Ok []
                 else if zlen d <=? 0 then Ok []
                 else if body_length_ (body p) <=? zlen d
                      then (if body_length_ (body p) <? 0 then Fault else Ok (take (Z.to_nat (body_length_ (body p))) d))
                      else Fault.
Proof.
  intros Hv. unfold body_range. rewrite (view_readable _ _ Hv). destruct (body_length_ (body p) =? 0); [done|].
  destruct (zlen d <=? 0); [done|]. destruct (body_length_ (body p) <=? zlen d) eqn:E.
  - destruct (body_length_ (body p) <? 0) eqn:E2.
    + unfold rd_range. assert ((read_offset_ (input_cache_ p) <? 0) || (body_length_ (body p) <? 0) || (zlen (storage_ (input_cache_ p)) <? read_offset_ (input_cache_ p) + body_length_ (body p)) = true) as -> by lia. done.
    + set (n := body_length_ (body p)) in *. pose proof (view_window (input_cache_ p) [] (take (Z.to_nat n) d) (drop (Z.to_nat n) d)) as H.
      cbn [app] in H. rewrite take_drop in H. specialize (H Hv). change (zlen []) with 0 in H. rewrite Z.add_0_r in H.
      rewrite <- H. f_equal. unfold zlen in *. rewrite length_take. lia.
  - unfold rd_range. destruct (read_offset_ (input_cache_ p) <? 0); done.
Qed.
Lemma alike_body_range p q : alike p q -> body_range p = body_range q.
Proof.
  intros (d & k & H1 & _ & H3 & _ & ->). rewrite (body_range_view p d H1), (body_range_view (set_input_cache k p) d H3). done.
Qed.

Lemma alike_readable p q : alike p q -> readable_bytes (input_cache_ p) = readable_bytes (input_cache_ q).
Proof. intros (d & k & H1 & _ & H3 & _ & ->). rewrite (view_readable _ _ H1). by rewrite (view_readable (input_cache_ (set_input_cache k p)) d H3). Qed.

Import Http1Content Http1Connection.
Lemma of_span_at x : exists b, of_span x = Ok b /\ view b x /\ read_offset_ b = 0.
Proof.
  unfold of_span. destruct (append_view (with_capacity (zlen x)) [] x) as (b & E & Hb & Ho); [apply view_new, zlen_nonneg|].
  exists b. split; [done|]. split; [done|]. by apply Ho.
Qed.

Definition alike2 {A B} (x y : A * B * Packet) : Prop := fst x = fst y /\ alike (snd x) (snd y).
Lemma parse_chunked_alike c p q : alike p q -> both alike2 (parse_chunked env c p) (parse_chunked env c q).
Proof.
  intros H. unfold parse_chunked. pose proof (alike_clear p q H) as Hc. destruct H as (d & k & H1 & _ & H3 & _ & ->).
  cbn [input_cache_ set_input_cache]. rewrite (view_span _ _ H1), (view_span _ _ H3). mstep.
  set (c1 := Chunked.with_pending _ c). destruct (bool_decide _); [by split|].
  destruct (Chunked.feed_data env c1) as [[st c2]| | |]; mstep; try done. destruct st; try by split.
  destruct (Chunked.file_stream_ c2); mstep.
  - split; [done|]. by apply (alike_update _ _ (fun p => set_chunked (pre_content_parser_ (body p)) (Chunked.trailer_checksum_ c2) p)).
  - destruct (of_span_at (Chunked.mem_buffer_ c2)) as (b & -> & Hb & Ho). mstep. split; [done|].
    apply (alike_update _ _ (fun p => set_chunked (pre_content_parser_ (body p)) (Chunked.trailer_checksum_ c2) p)); [|done..].
    by eapply alike_set.
Qed.
Lemma chunked_parse_alike c p q : alike p q -> both alike2 (chunked_parse env c p) (chunked_parse env c q).
Proof.
  intros H. unfold chunked_parse. eapply both_bind; [by apply parse_chunked_alike|].
  intros [[st c1] p1] [[st' c1'] q1] [[= <- <-] Hq]. destruct st; cbn; (split; [done|]); cbn [snd] in *; try done.
  - by apply (alike_update _ _ (fun p => set_body_state fully (set_body_length (u32 (Chunked.total_bytes_ c1))
      (set_content (Some (ChunkedContent (Chunked.file_stream_ c1) (Chunked.total_bytes_ c1) (Chunked.trailer_checksum_ c1))) p)))).
  - by apply (alike_update _ _ (set_body_state partial)).
Qed.
Lemma alike_body p q : alike p q -> body q = body p /\ head q = head p /\ status q = status p /\ line q = line p /\ parser_ q = parser_ p.
Proof. by intros (d & k & _ & _ & _ & _ & ->). Qed.
Lemma content_parse_alike p q : alike p q -> both alike1 (content_parse env p) (content_parse env q).
Proof.
  intros H. destruct (alike_body p q H) as (Eb & _ & _ & El & _). unfold content_parse. rewrite Eb.
  assert (both alike1 (text_parse p) (text_parse q)) as T.
  { unfold text_parse. rewrite Eb, (alike_body_range p q H). destruct (body_range q) as [a| | |]; mstep; try done. split; [done|].
    by apply (alike_update _ _ (set_content (Some (TextContent (content_type_ (body p)) a)))). }
  assert (forall f, both alike1 (multipart_parse f p) (multipart_parse f q)) as M.
  { intros f. unfold multipart_parse, body_text. rewrite (alike_readable p q H), (alike_body_range p q H), Eb.
    destruct (if readable_bytes (input_cache_ q) <? _ then _ else _) as [a| | |]; mstep; try done.
    destruct (f a _) as [[c|]| | |]; mstep; try done. split; [done|]. by apply (alike_update _ _ (set_content (Some c))). }
  destruct (content_type_ (body p)); try exact T; try exact (M _); try by split.
  - unfold json_parse. rewrite Eb. destruct (body_content_ (body p)) as [[]|]; try by split.
    + destruct tmp_file as [a|]; [|by split]. case_if; (split; [done|]); [|done]. by apply (alike_update _ _ (set_content (Some (JsonContent a)))).
    + rewrite (alike_body_range p q H). destruct (body_range q) as [a| | |]; mstep; try done.
      case_if; (split; [done|]); [|done]. by apply (alike_update _ _ (set_content (Some (JsonContent a)))).
  - unfold byteranges_parse. rewrite Eb. case_if; [by split|apply M].
  - unfold url_encoded_parse. rewrite Eb. case_if; [by split|]. rewrite (alike_body_range p q H), El.
    destruct (body_range q) as [a| | |]; mstep; try done. destruct (Url.decode_parameters _ _ true) as [ok params]. split; [done|].
    by apply (alike_update _ _ (set_params params)).
Qed.
Lemma parse_content_alike p q : alike p q -> both alike1 (parse_content env p) (parse_content env q).
Proof.
  intros H. destruct (alike_body p q H) as (Eb & Eh & Es & El & Ep). unfold parse_content, is_chunked, has_body_file. rewrite Es, Eb, Eh.
  case_if; [by split|]. case_if; [by split|]. case_if; [by split|]. case_if; [by split|].
  apply (both_bind alike1).
  - unfold factory_parse_content, is_chunked. rewrite Eh, Eb. case_if; [|by apply content_parse_alike].
    eapply both_bind; [by apply chunked_parse_alike|]. intros [[ok c1] p1] [[ok' c1'] q1] [[= <- <-] Hq]. cbn [snd] in Hq.
    destruct (alike_body p1 q1 Hq) as (Eb1 & _ & _ & _ & Ep1). destruct ok; cbn [negb].
    + rewrite Eb1. apply content_parse_alike.
      by apply (alike_update _ _ (fun p => set_chunked None (chunked_checksum_ (body p1)) (set_body_length (u32 (Chunked.total_bytes_ c1)) p))).
    + rewrite Eb1, Ep1. split; [done|]. by apply (alike_update _ _ (set_chunked (Some c1) (chunked_checksum_ (body p1)))).
  - intros [ok p1] [ok' q1] [E Hq]. cbn [fst snd] in *. subst ok'. split; [done|]. by apply (alike_update _ _ (set_good ok)).
Qed.

(** What a round does after its packet has taken the bytes. *)
Definition verdict_of (ok : bool) (codes : list Z) (c : Http1Connection.t) : verdict :=
  if ok then dispatched
  else if negb (good (request c)) then refused codes true
  else match codes with [] => awaits | _ => refused codes false end.
Definition round (c : Http1Connection.t) : outcome (verdict * Http1Connection.t) :=
  '(ok, codes, c) ← (if negb (good (request c)) then Ok (false, [error_code_ (status (request c))], c)
       else
         let '(completed, c) := is_completed c in
         if negb completed then Ok (false, [], c)
         else
           '(ok, p) ← parse_content env (request c);
           let c := Http1Connection.mk (has_parsed_ c) p in
           let waiting := is_chunked p && bool_decide (body_state (parser_ p) = partial) in
           if negb ok then Ok (false, if waiting then [] else [bad_request], c)
           else if waiting then Ok (false, [], c)
           else match validate_request_version env p with
                | [] => Ok (true, [], c)
                | codes => Ok (false, codes, c)
                end);
  Ok (verdict_of ok codes c, c).
Lemma on_read_round data c :
  on_read env data c =
    let c := if negb (has_parsed_ c) then Http1Connection.mk true (reset (request c)) else c in
    '(_, p) ← packet_parse env data (request c); round (Http1Connection.mk (has_parsed_ c) p).
Proof.
  unfold on_read, parse_request, parse_from, round. cbv zeta. set (c1 := if negb (has_parsed_ c) then _ else c).
  destruct (packet_parse env data (request c1)) as [[b p]| | |]; mstep; [|done..].
  destruct (if negb (good _) then _ else _) as [[[ok codes] c2]| | |]; mstep; [|done..]. unfold verdict_of.
  destruct ok; [done|]. destruct (negb (good (request c2))); [done|]. by destruct codes.
Qed.

Definition alike_conn (c c' : Http1Connection.t) : Prop := has_parsed_ c = has_parsed_ c' /\ alike (request c) (request c').
Definition alikev (x y : verdict * Http1Connection.t) : Prop := fst x = fst y /\ alike_conn (snd x) (snd y).
Lemma round_alike c c' : alike_conn c c' -> both alikev (round c) (round c').
Proof.
  destruct c as [h p], c' as [h' q]. intros [E H]. cbn [has_parsed_ request] in *. subst h'.
  destruct (alike_body p q H) as (Eb & Eh & Es & El & Ep). unfold round. cbn [request has_parsed_].
  apply (both_bind (fun x y => fst x = fst y /\ alike_conn (snd x) (snd y))).
  - unfold good, is_completed, done, is_header_done, is_body_done, is_chunked. cbn [request has_parsed_]. rewrite Es, Ep, Eh. case_if; [by split|].
    set (done1 := bool_decide _ && _). set (h1 := if negb (Headers.is_chunked _) || _ then false else h).
    destruct done1; cbn [negb]; [|by split]. cbn [request has_parsed_].
    eapply both_bind; [by apply parse_content_alike|]. intros [ok p1] [ok' q1] [E1 Hq]. cbn [fst snd] in *. subst ok'.
    destruct (alike_body p1 q1 Hq) as (_ & Eh1 & _ & El1 & Ep1). unfold validate_request_version. rewrite Eh1, Ep1, El1.
    destruct (version_ (line p1)); repeat case_if; by split.
  - intros [[ok codes] [h1 p1]] [[ok' codes'] [h1' q1]] [E1 [E2 Hq]]. cbn [fst snd has_parsed_ request] in *. injection E1 as <- <-. subst h1'.
    destruct (alike_body p1 q1 Hq) as (_ & _ & Es1 & _). split; [|by split]. cbn [fst]. unfold verdict_of, good. cbn [request]. by rewrite Es1.
Qed.

(** ** What the parser may come to *)
Definition outcome_of (p : Packet) (r : Z) (p' : Packet) : Prop :=
  r = 1 /\ done p' = true \/
  status p' = status p /\ (r = 0 /\ body_state (parser_ p') = partial \/ r = -1 \/ r = -2).
Lemma begin_status len p : status (snd (begin_body_file_spool env len p)) = status p /\ parser_ (snd (begin_body_file_spool env len p)) = parser_ p.
Proof. unfold begin_body_file_spool. destruct (len =? 0); [done|]. destruct (spool_ _) as [s|]; [destruct (body_file_open s); [done|]|]; by destruct (disk_opens env). Qed.
Lemma append_status x p : status (snd (append_body_file_bytes env x p)) = status p /\ parser_ (snd (append_body_file_bytes env x p)) = parser_ p.
Proof. unfold append_body_file_bytes. destruct (spool_ _) as [s|]; [|done]. case_if; [done|]. by destruct (disk_writes env _). Qed.
Lemma done_with s p : state p = header_end_lines -> s = fully \/ s = body_empty -> done (set_body_state s p) = true.
Proof. intros Hs H. unfold done, is_header_done, is_body_done. cbn. fold (state p). rewrite Hs. by destruct H as [-> | ->]. Qed.

Lemma parse_message_outcome p b r p' b' : state p = header_end_lines -> parse_message env p b = Ok (r, p', b') -> outcome_of p r p'.
Proof.
  intros Hs. unfold parse_message. case_if; [intros [= <- <- _]; left; split; [done|by apply done_with; auto]|].
  destruct (Headers.parse_content_length_header _) as [|len|]; [| |intros [= <- <- _]; right; split; [done|auto]]; cbn [andb].
  { change (0 <? 0) with false. repeat case_if; intros [= <- <- _]; try (right; split; [done|by auto]); left; (split; [done|by apply done_with; auto]). }
  destruct (bool_decide _); [intros [= <- <- _]; right; split; [done|auto]|].
  destruct (0 <? len) eqn:E0; [|intros [= <- <- _]; left; split; [done|by apply done_with; auto]].
  set (q := set_body_length len p). assert (state q = header_end_lines) as Hq by done. destruct (should_spool_request_body q len).
  - unfold parse_spooled. destruct (begin_status len q) as [B1 B2]. destruct (begin_body_file_spool env len q) as [ok q1]. cbn [fst snd] in *.
    destruct ok; cbn [negb]; [|intros [= <- <- _]; right; split; [done|auto]]. intros (data & _ & H)%outcome_bind_inv.
    assert (status (snd (if 0 <? Z.min (u32 (len - u32 (body_file_received q1))) (u32 (readable_bytes b)) then append_body_file_bytes env data q1 else (true, q1))) = status q1 /\
            parser_ (snd (if 0 <? Z.min (u32 (len - u32 (body_file_received q1))) (u32 (readable_bytes b)) then append_body_file_bytes env data q1 else (true, q1))) = parser_ q1) as [A1 A2]
      by (case_if; [apply append_status|done]).
    destruct (if 0 <? _ then append_body_file_bytes env data q1 else (true, q1)) as [ok2 q2]. cbn [fst snd] in *.
    destruct ok2; cbn [negb] in H; [|injection H as <- <- _; right; split; [change (status q2 = status p); by rewrite A1, B1|auto]].
    destruct (body_file_spool_done q2); injection H as <- <- _.
    + left. split; [done|]. apply done_with; [|auto]. unfold state in *. congruence.
    + right. split; [change (status q2 = status p); by rewrite A1, B1|auto].
  - unfold parse_buffered. unfold parse_body. rewrite (proj2 (is_header_done_iff q) Hq). cbn [negb].
    destruct (client_max_content_length env <? len); [intros [= <- <- _]; right; split; [done|auto]|].
    destruct (readable_bytes b <? len); [intros [= <- <- _]; right; split; [done|auto]|]. change (1 =? 0) with false. change (1 <? 0) with false. cbv iota.
    assert (done (set_body_state fully q) = true) as Hd by (by apply done_with; auto).
    destruct (Headers.get_header Headers.content_disposition _); [intros [= <- <- _]; right; split; [done|auto]|].
    destruct (Headers.get_header Headers.content_type _) as [t0|]; [destruct (can_parse _)|]; intros [= <- <- _]; left; split; try done.
Qed.
Lemma parse_bytes_outcome p d : head_ok p -> done p = false -> zlen d < 18446744073709551616 ->
  match parse_bytes p d with (r, p', d') => outcome_of p r p' end.
Proof.
  intros Hp Hd Hz. unfold parse_bytes. rewrite Hd.
  assert (forall q d1, state q = header_end_lines -> status q = status p -> zlen d1 < 18446744073709551616 ->
            match message q d1 with (r, p', d') => outcome_of p r p' end) as M.
  { intros q d1 Hs Hq H1. unfold message. destruct (parse_message_uniform q d1) as ([r q'] & n & Hn & H).
    specialize (H (canon d1) (canon_bounded _ H1)). rewrite H. apply parse_message_outcome in H; [|done].
    unfold outcome_of in *. by rewrite Hq in H. }
  destruct (is_header_done p) eqn:Eh; [apply M; [by apply is_header_done_iff|done..]|].
  pose proof (head_keeps p d) as K. destruct (read_head p d) as [[[] p1] d1] eqn:E; destruct K as (K1 & _ & _ & x & Hx); [|right; split; [done|auto]]. apply M; [by eapply head_end|done|]. rewrite Hx, zlen_app in Hz. pose proof (zlen_nonneg x). lia.
Qed.

(** ** Reads that end inside a request *)

(** A fresh packet. *)
Lemma reset_ok p : head_ok (reset p) /\ done (reset p) = false /\ is_download_file_ (status (reset p)) = false.
Proof.
  split; [|done]. split; [done|]. right. split; [|done]. unfold state. cbn. set_solver.
Qed.
(** What a round makes of a request whose bytes so far are [d]. *)
Definition spec (p : Packet) (d : bytes) : outcome (verdict * Http1Connection.t) :=
  let '(r, p1, d1) := parse_bytes p d in
  '(_, p) ← conclude r (set_input_cache (canon d1) p1) d1; round (Http1Connection.mk true p).
(** After the bytes [d] of a request that began when its packet was [reset p]. *)
Definition amid (p : Packet) (d : bytes) (c : Http1Connection.t) : Prop :=
  has_parsed_ c = false /\ p = request c /\ d = [] /\ wf (input_cache_ p) \/
  has_parsed_ c = true /\
  exists r p1 d1 k, parse_bytes (reset p) d = (r, p1, d1) /\ waiting r p1 /\ view k d1 /\ read_offset_ k = 0 /\ request c = mark true k p1.
Definition incoming (data : ByteBuffer.t) (x : bytes) : Prop := view data x /\ read_offset_ data = 0.

Lemma packet_parse_more data x p d : done p = false -> is_download_file_ (status p) = false ->
  incoming data x -> view (input_cache_ p) d -> read_offset_ (input_cache_ p) = 0 ->
  exists k, view k (d ++ x) /\ read_offset_ k = 0 /\ packet_parse env data p = parse_input_cache env (set_input_cache k p).
Proof.
  intros Hd Hdl [Hv Ho] Hp Hpo. unfold packet_parse. rewrite Hd, Hdl. cbn [andb].
  rewrite (view_empty _ _ Hv), (view_empty _ _ Hp). destruct (bool_decide (x = [])) eqn:Ex; cbn [negb]; mstep.
  - apply bool_decide_eq_true_1 in Ex. subst x. rewrite app_nil_r. exists (input_cache_ p). by destruct p.
  - destruct (bool_decide (d = [])) eqn:Ed; mstep.
    + apply bool_decide_eq_true_1 in Ed. subst d. by exists data.
    + destruct (append_buffer_view (input_cache_ p) d data x Hp Hv) as (b & E & Hb & Hbo). rewrite E. mstep. exists b. auto.
Qed.

Lemma conclude_alike r p q d : alike p q -> both alike1 (conclude r p d) (conclude r q d).
Proof.
  intros H. destruct (alike_body p q H) as (Eb & Eh & Es & El & Ep). unfold conclude, is_header_done. rewrite Ep.
  assert (forall g code, alike (set_good g (set_error_code code p)) (set_good g (set_error_code code q))) as A
    by (intros; by apply (alike_update _ _ (fun p => set_good g (set_error_code code p)))).
  assert (forall g, alike (set_good g p) (set_good g q)) as G by (intros; by apply (alike_update _ _ (set_good g))).
  case_if; [case_if; split; [done|apply G|done|apply A]|]. case_if; [|split; [done|apply G]].
  change (head (set_good true p)) with (head p). change (head (set_good true q)) with (head q). rewrite Eh.
  destruct (Headers.get_header _ _); [|split; [done|apply G]].
  change (body (set_good true p)) with (body p). change (body (set_good true q)) with (body q). rewrite Eb.
  destruct (parse_content_type _ _ _) as [[[[ok text] extra] ?]| | |]; mstep; try done. split; [done|].
  by apply (alike_update _ _ (fun p => set_type (find_content_type text) text extra (set_good ok (set_good true p)))).
Qed.
Lemma conclude_good r g p d : conclude r (set_good g p) d = conclude r p d.
Proof. unfold conclude. change (is_header_done (set_good g p)) with (is_header_done p). destruct (r <? 0); [done|]. by destruct (r =? 1). Qed.
Lemma conclude_spec r p k d : view k d -> read_offset_ k = 0 -> zlen d < 18446744073709551616 ->
  both alikev ('(_, q) ← conclude r (set_input_cache k p) d; round (Http1Connection.mk true q))
              ('(_, q) ← conclude r (set_input_cache (canon d) p) d; round (Http1Connection.mk true q)).
Proof.
  intros Hk Ho Hz. eapply both_bind; [apply (conclude_alike r _ (set_input_cache (canon d) p))|].
  - exists d, (canon d). by destruct (canon_bounded d Hz).
  - intros [b q] [b' q'] [_ H]. apply round_alike. by split.
Qed.

(** The limits of the configuration are those of a [uint32_t]. *)
Definition env_ok : Prop :=
  0 <= max_header_length env < 4294967296 /\ 0 <= client_max_content_length env /\
  max_header_length env + client_max_content_length env < 4294967296.

Lemma parse_at p d k : env_ok -> head_ok p -> view k d -> read_offset_ k = 0 -> zlen d <= max_header_length env ->
  match parse_bytes p d with
  | (r, p1, d1) => exists k1, view k1 d1 /\ read_offset_ k1 = 0 /\
      parse_input_cache env (set_input_cache k p) = conclude r (set_input_cache k1 p1) d1
  end.
Proof.
  intros (E1 & E2 & E3) Hp Hk Ho Hz.
  assert (bounded k d) as Hb by (split; [done|]; rewrite (view_write _ _ Hk); lia).
  pose proof (parse_input_cache_view (set_input_cache k p) d Hp Hb) as H.
  assert (parse_bytes (set_input_cache k p) d = mark3 (is_good_ (status p)) k (parse_bytes p d)) as E.
  { rewrite <- parse_bytes_mark. f_equal. by destruct p as [? ? ? ? [] ?]. }
  rewrite E in H. destruct (parse_bytes p d) as [[r p1] d1]. cbn [mark3] in H. destruct H as (k1 & Hk1 & Ho1 & H).
  - right. split; [done|]. cbn. split; [lia|apply Hb].
  - unfold get_max_packet_size, u32. rewrite Z.mod_small by lia. lia.
  - exists k1. split; [done|]. split; [done|]. rewrite H. unfold mark.
    change (set_input_cache k1 (set_input_cache k (set_good (is_good_ (status p)) p1))) with (set_good (is_good_ (status p)) (set_input_cache k1 p1)).
    apply conclude_good.
Qed.

Lemma amid_read p d c data x : env_ok -> amid p d c -> incoming data x -> zlen (d ++ x) <= max_header_length env ->
  both alikev (on_read env data c) (spec (reset p) (d ++ x)).
Proof.
  intros He Ha Hx Hz. rewrite on_read_round. destruct (reset_ok p) as (R1 & R2 & R3). cbv zeta.
  assert (forall r p1 d1, parse_bytes (reset p) (d ++ x) = (r, p1, d1) -> zlen d1 < 18446744073709551616) as L.
  { intros r p1 d1 E. destruct He as (He1 & _).
    assert (exists y, d ++ x = y ++ d1) as [y Hy].
    { pose proof (parse_view (reset p) (canon (d ++ x)) (d ++ x) R1) as H. rewrite E in H. apply H.
      - apply canon_bounded. lia.
      - right. split; [apply canon_bounded; lia|]. cbn. lia. }
    rewrite Hy, zlen_app in Hz. pose proof (zlen_nonneg y). lia. }
  destruct Ha as [(Hh & -> & -> & Hwf)|(Hh & r & p1 & d1 & k & Ep & W & Hk & Ho & Er)]; rewrite Hh; cbn [negb request has_parsed_].
  - cbn [app] in *. destruct (packet_parse_more data x (reset (request c)) [] R2 R3 Hx) as (k & Hk & Ho & ->).
    { split; [by apply clear_wf|done]. }
    { done. }
    cbn [app] in Hk. pose proof (parse_at (reset (request c)) x k He R1 Hk Ho Hz) as H. unfold spec.
    destruct (parse_bytes (reset (request c)) x) as [[r p1] d1] eqn:E. destruct H as (k1 & Hk1 & Ho1 & ->).
    apply conclude_spec; [done..|by eapply L].
  - pose proof (parse_bytes_cut (reset p) d x R1 R3) as C. rewrite Ep in C. destruct He as (He1 & He2 & He3).
    destruct (C ltac:(lia) W) as (C1 & C2 & C3 & C4 & y & Hy). clear C.
    rewrite Er. destruct (packet_parse_more data x (mark true k p1) d1) as (k2 & Hk2 & Ho2 & ->).
    { exact C3. } { change (is_download_file_ (status p1) = false). by rewrite C4. } { done. } { exact Hk. } { exact Ho. }
    change (set_input_cache k2 (mark true k p1)) with (mark true k2 p1).
    assert (zlen (d1 ++ x) <= max_header_length env) as Hz1.
    { rewrite Hy, <- app_assoc, zlen_app in Hz. pose proof (zlen_nonneg y). lia. }
    assert (set_good true p1 = mark true (input_cache_ p1) p1) as Em by (unfold mark; by destruct p1).
    pose proof (parse_at (set_good true p1) (d1 ++ x) k2 ltac:(done) C2 Hk2 Ho2 Hz1) as H. unfold spec.
    rewrite Em, parse_bytes_mark, C1, <- Em in H. change (mark true k2 p1) with (set_input_cache k2 (set_good true p1)).
    destruct (parse_bytes (reset p) (d ++ x)) as [[r2 p2] d2] eqn:E. cbn [mark3] in H. destruct H as (k1 & Hk1 & Ho1 & ->).
    change (set_input_cache k1 (mark true (input_cache_ p1) p2)) with (set_good true (set_input_cache k1 p2)). rewrite conclude_good.
    rewrite Hh. apply conclude_spec; [done..|by eapply L].
Qed.

(** Such a read leaves the connection in the middle of the request. *)
Lemma content_awaits c v c' : done (request c) = true -> round c = Ok (v, c') -> v = awaits -> is_chunked (request c') = true.
Proof.
  intros Hd. unfold round. destruct (negb (good (request c))) eqn:Eg.
  { mstep. unfold verdict_of. rewrite Eg. by intros [= <- <-]. }
  unfold is_completed. rewrite Hd. cbn [negb request has_parsed_].
  destruct (parse_content env (request c)) as [[ok p]| | |]; mstep; [|done..].
  intros H ->. apply outcome_bind_inv in H as ([[ok1 codes] c1] & H1 & H2). injection H2 as Hv <-.
  destruct (is_chunked p) eqn:Ec; cbn [andb] in H1.
  - destruct ok; cbn [negb] in H1; [|by injection H1 as _ _ <-].
    destruct (bool_decide (body_state (parser_ p) = partial)); [by injection H1 as _ _ <-|].
    destruct (validate_request_version env p); by injection H1 as _ _ <-.
  - exfalso. unfold verdict_of in Hv. destruct ok; cbn [negb] in H1.
    + destruct (validate_request_version env p); injection H1 as <- <- <-; [done|]; repeat case_if_in Hv; discriminate Hv.
    + injection H1 as <- <- <-. repeat case_if_in Hv; discriminate Hv.
Qed.
Lemma not_done_round p : done p = false -> good p = true -> round (Http1Connection.mk true p) = Ok (awaits, Http1Connection.mk true p).
Proof.
  intros Hd Hg. unfold round. cbn [request]. rewrite Hg. unfold is_completed. cbn [request negb]. rewrite Hd. mstep. cbn [negb].
  mstep. unfold verdict_of. cbn [request].
  by rewrite Hg.
Qed.

Lemma bad_round p v c' : good p = false -> round (Http1Connection.mk true p) = Ok (v, c') -> v <> awaits.
Proof. intros Hg. unfold round. cbn [request]. rewrite Hg. cbn [negb]. mstep. unfold verdict_of. cbn [request]. rewrite Hg. by intros [= <- _]. Qed.

Lemma spec_awaits p d c' : zlen d < 18446744073709551616 ->
  spec (reset p) d = Ok (awaits, c') -> is_chunked (request c') = false -> spool_ (body (request c')) = None ->
  match parse_bytes (reset p) d with (r, p1, d1) => waiting r p1 /\ c' = Http1Connection.mk true (mark true (canon d1) p1) end.
Proof.
  intros Hz. destruct (reset_ok p) as (R1 & R2 & R3). unfold spec. pose proof (parse_bytes_outcome (reset p) d R1 R2 Hz) as O.
  destruct (parse_bytes (reset p) d) as [[r p1] d1]. intros H Hc Hs. unfold conclude in H.
  destruct O as [[-> Hd]|[Hst [[-> Hb]|Hr]]].
  - exfalso. change (1 <? 0) with false in H. change (1 =? 1) with true in H. cbv iota zeta in H.
    set (q := set_good true (set_input_cache (canon d1) p1)) in H.
    assert (forall q', done q' = true -> round (Http1Connection.mk true q') = Ok (awaits, c') -> False) as K.
    { intros q' Hq E. pose proof (content_awaits (Http1Connection.mk true q') _ _ Hq E eq_refl). congruence. }
    destruct (Headers.get_header _ _); [|by apply (K q)].
    destruct (parse_content_type _ _ _) as [[[[ok text] extra] ?]| | |]; mstep; try discriminate H.
    by apply (K (set_type (find_content_type text) text extra (set_good ok q))).
  - change (0 <? 0) with false in H. change (0 =? 1) with false in H. cbv iota in H. cbn [mbind outcome_bind] in H.
    rewrite not_done_round in H.
    + injection H as <-. split; [|done]. right. split; [done|]. done.
    + unfold done, is_body_done. cbn. rewrite Hb, Hst. cbn. apply andb_false_r.
    + done.
  - assert ((r <? 0) = true) as E by lia. rewrite E in H.
    destruct ((r =? -1) && negb (is_header_done (set_input_cache (canon d1) p1)) && negb (complete_header_loop d1)) eqn:Ei;
      cbn [mbind outcome_bind] in H.
    + destruct (max_header_length env <? zlen d1); cbn [negb] in H.
      { exfalso. eapply bad_round; [|exact H|done]. unfold good. cbn. by rewrite Hst. }
      assert (is_header_done p1 = false) as Eh.
      { destruct (is_header_done p1) eqn:Eh; [|done]. change (is_header_done (set_input_cache (canon d1) p1)) with (is_header_done p1) in Ei.
        rewrite Eh in Ei. rewrite andb_false_r in Ei. done. }
      rewrite not_done_round in H; [|by apply not_done_header|done]. injection H as <-. split; [|done]. left. split; [lia|done].
    + exfalso. eapply bad_round; [|exact H|done]. unfold good. cbn. by rewrite Hst.
Qed.

Lemma view_inj b d d' : view b d -> view b d' -> d = d'.
Proof. intros [_ <-] [_ <-]. done. Qed.
Lemma alike_cache p q : alike p q -> q = set_input_cache (input_cache_ q) p /\ p = set_input_cache (input_cache_ p) q.
Proof. intros (d & k & _ & _ & _ & _ & ->). by destruct p. Qed.
Lemma alike_join p q r : alike p r -> alike q r -> alike p q.
Proof.
  intros (d & k & H1 & H2 & H3 & H4 & E) H. destruct (alike_cache _ _ H) as [_ Eq]. destruct H as (d' & k' & G1 & G2 & G3 & G4 & E').
  assert (k' = k) as -> by (apply (f_equal input_cache_) in E; apply (f_equal input_cache_) in E'; cbn in *; congruence).
  rewrite (view_inj _ _ _ G3 H3) in G1. exists d, (input_cache_ q). split; [done|]. split; [done|]. split; [done|]. split; [done|].
  rewrite Eq, E. by destruct p.
Qed.
Lemma alikev_join x y z : both alikev x z -> both alikev y z -> both alikev x y.
Proof.
  destruct x as [[v c]| | |], y as [[v' c']| | |], z as [[w c1]| | |]; cbn; try done.
  intros [E1 [E2 H]] [E1' [E2' H']]. cbn in *. split; [cbn; congruence|]. split; [cbn; congruence|]. by eapply alike_join.
Qed.

(** A body that is neither chunked nor kept in a file. *)
Definition plain (p : Packet) : Prop := is_chunked p = false /\ spool_ (body p) = None.
Lemma amid_step p d c data x c' : env_ok -> amid p d c -> incoming data x -> zlen (d ++ x) <= max_header_length env ->
  on_read env data c = Ok (awaits, c') -> plain (request c') -> amid p (d ++ x) c'.
Proof.
  intros He Ha Hx Hz E [Hc Hs]. pose proof (amid_read p d c data x He Ha Hx Hz) as H. rewrite E in H.
  destruct (spec (reset p) (d ++ x)) as [[v c2]| | |] eqn:Es; try done. destruct H as [Hv [Hh H]]. cbn [fst snd] in *. subst v.
  destruct (alike_body _ _ H) as (Eb & Eh & _).
  assert (zlen (d ++ x) < 18446744073709551616) as Hl by (destruct He as (? & _); lia).
  pose proof (spec_awaits p (d ++ x) c2 Hl Es) as W. unfold is_chunked in *. rewrite Eh, Eb in W. specialize (W Hc Hs).
  destruct (parse_bytes (reset p) (d ++ x)) as [[r p1] d1] eqn:Ep. destruct W as [W ->]. cbn [request has_parsed_] in *.
  right. split; [done|]. destruct (alike_cache _ _ H) as [_ Er]. destruct H as (dd & k & H1 & H2 & H3 & H4 & Ek).
  exists r, p1, d1, (input_cache_ (request c')). split; [done|]. split; [done|].
  assert (k = canon d1) as -> by (apply (f_equal input_cache_) in Ek; by cbn in Ek).
  assert (dd = d1) as ->.
  { eapply view_inj; [exact H3|]. apply canon_bounded.
    destruct (reset_ok p) as (R1 & _). pose proof (parse_view (reset p) (canon (d ++ x)) (d ++ x) R1) as V. rewrite Ep in V.
    destruct V as [_ [y Hy]]; [by apply canon_bounded|right; split; [by apply canon_bounded|cbn; lia]|].
    rewrite Hy, zlen_app in Hl. pose proof (zlen_nonneg y). lia. }
  split; [done|]. split; [done|]. rewrite Er. done.
Qed.

(** Reads after each of which the rest of the request is awaited. *)
Fixpoint held (reads : list ByteBuffer.t) (c c' : Http1Connection.t) : Prop :=
  match reads with
  | [] => c' = c
  | data :: reads => exists c1, on_read env data c = Ok (awaits, c1) /\ plain (request c1) /\ held reads c1 c'
  end.
Lemma held_amid reads pieces p d c c' : env_ok -> amid p d c -> Forall2 incoming reads pieces -> held reads c c' ->
  zlen (d ++ concat pieces) <= max_header_length env -> amid p (d ++ concat pieces) c'.
Proof.
  intros He Ha H. revert d c Ha. induction H as [|data x reads pieces Hx _ IH]; intros d c Ha Hh Hz; cbn [held concat] in *.
  - subst c'. by rewrite app_nil_r.
  - destruct Hh as (c1 & E & Hp & Hh). rewrite app_assoc in Hz |- *.
    apply (IH (d ++ x) c1); [|done|done]. eapply amid_step; try done. rewrite zlen_app in Hz. pose proof (zlen_nonneg (concat pieces)). lia.
Qed.
Lemma http1_pieces reads pieces data x whole c c' : env_ok -> has_parsed_ c = false -> wf (input_cache_ (request c)) ->
  Forall2 incoming reads pieces -> incoming data x -> incoming whole (concat pieces ++ x) ->
  zlen (concat pieces ++ x) <= max_header_length env -> held reads c c' ->
  both alikev (on_read env data c') (on_read env whole c).
Proof.
  intros He Hh Hwf Hr Hx Hw Hz H. pose proof (zlen_nonneg x). rewrite zlen_app in Hz.
  assert (amid (request c) [] c) as Ha by (left; done).
  pose proof (held_amid _ _ _ _ _ _ He Ha Hr H ltac:(cbn [app]; lia)) as Ha'. cbn [app] in Ha'.
  eapply alikev_join.
  - eapply amid_read; [done|exact Ha'|exact Hx|rewrite zlen_app; lia].
  - pose proof (amid_read _ _ _ _ _ He Ha Hw) as H1. cbn [app] in H1. apply H1. rewrite zlen_app. lia.
Qed.
End Stages.

(** * The header store is a map *)
Section HeaderStore.
Import Headers.

Lemma equal_ci_loop_spec a b : length a = length b -> equal_ci_loop a b = true <-> fold_key a = fold_key b.
Proof.
  unfold fold_key. revert b. induction a as [|x a IH]; intros [|y b] H; try done. cbn in *. destruct (ascii_lower x =? ascii_lower y) eqn:E.
  - apply Z.eqb_eq in E. rewrite IH by lia. split; [by intros ->; rewrite E|]. by intros [= _ ->].
  - split; [done|]. intros [= Ex _]. lia.
Qed.
Lemma header_key_equals_ci_spec a b : header_key_equals_ci a b = true <-> fold_key a = fold_key b.
Proof.
  unfold header_key_equals_ci. destruct (zlen a =? zlen b) eqn:E; cbn [negb].
  - apply equal_ci_loop_spec. unfold zlen in E. lia.
  - split; [done|]. intros H. apply (f_equal length) in H. unfold fold_key in H. rewrite !length_map in H. unfold zlen in E. lia.
Qed.
Lemma fold_key_fold k : fold_key (fold_key k) = fold_key k.
Proof.
  unfold fold_key. rewrite map_map. apply map_ext. intros c. unfold ascii_lower.
  repeat case_if; lia.
Qed.
Lemma slot_loop_fold k k' names n : fold_key k = fold_key k' -> slot_loop k names n = slot_loop k' names n.
Proof.
  intros H. revert n. induction names as [|name names IH]; intros n; [done|]. cbn [slot_loop]. rewrite IH.
  assert (header_key_equals_ci k name = header_key_equals_ci k' name) as ->; [|done].
  apply eq_true_iff_eq. rewrite !header_key_equals_ci_spec. by rewrite H.
Qed.
Lemma slot_fold k k' : fold_key k = fold_key k' -> parsed_header_slot k = parsed_header_slot k'.
Proof. apply slot_loop_fold. Qed.
Lemma slot_loop_name k names n i : slot_loop k names n = Some i ->
  exists name, (n <= i)%nat /\ names !! (i - n)%nat = Some name /\ fold_key k = fold_key name.
Proof.
  revert n. induction names as [|name names IH]; intros n H; [done|]. cbn [slot_loop] in H. case_if_in H.
  - injection H as <-. exists name. rewrite Nat.sub_diag. split; [lia|]. split; [done|]. by apply header_key_equals_ci_spec.
  - destruct (IH _ H) as (m & H1 & H2 & H3). exists m. split; [lia|]. split; [|done].
    replace (i - n)%nat with (S (i - S n)) by lia. done.
Qed.
Lemma slot_name k i : parsed_header_slot k = Some i -> exists name, slot_names !! i = Some name /\ fold_key k = fold_key name.
Proof. intros H. destruct (slot_loop_name _ _ _ _ H) as (name & _ & H1 & H2). rewrite Nat.sub_0_r in H1. eauto. Qed.
Lemma slot_inj k k' i : parsed_header_slot k = Some i -> parsed_header_slot k' = Some i -> fold_key k = fold_key k'.
Proof. intros (n & H1 & H2)%slot_name (n' & H3 & H4)%slot_name. congruence. Qed.
Lemma slot_lt k i : parsed_header_slot k = Some i -> (i < 8)%nat.
Proof. intros (n & H1 & _)%slot_name. by apply lookup_lt_Some in H1. Qed.

(** There are eight slots. *)
Definition store_ok (h : Headers.t) : Prop := length (parsed_header_values_ h) = 8%nat.
Lemma store_init : store_ok Headers.init.
Proof. done. Qed.
Lemma get_init k : get_header k Headers.init = None.
Proof.
  unfold get_header. case_if; [done|]. destruct (parsed_header_slot k) as [i|] eqn:E; [|done]. cbn [mbind option_bind].
  apply slot_lt in E. cbn [parsed_header_values_ Headers.init]. rewrite lookup_replicate_2 by done. done.
Qed.
Lemma store_remove k h : store_ok h -> store_ok (remove_header k h).
Proof. unfold store_ok, remove_header. intros H. case_if; [done|]. cbn [parsed_header_values_]. destruct (parsed_header_slot k); [by rewrite length_insert|done]. Qed.
Lemma assign_lookup k v m j : snd <$> assign k v m !! j = if bool_decide (j = fold_key k) then Some v else snd <$> m !! j.
Proof.
  unfold assign. case_bool_decide as E.
  - subst j. destruct (m !! fold_key k) as [[k0 v0]|]; by rewrite lookup_insert_eq.
  - destruct (m !! fold_key k) as [[k0 v0]|]; by rewrite lookup_insert_ne.
Qed.

Lemma get_remove k k' h : k <> [] -> k' <> [] -> store_ok h ->
  get_header k' (remove_header k h) = if bool_decide (fold_key k' = fold_key k) then None else get_header k' h.
Proof.
  intros Hk Hk' Hs. unfold get_header, remove_header. rewrite (bool_decide_eq_false_2 _ Hk), (bool_decide_eq_false_2 _ Hk').
  cbn [parsed_header_values_ headers_]. case_bool_decide as E.
  - rewrite (slot_fold _ _ E), E, lookup_delete_eq. destruct (parsed_header_slot k) as [i|] eqn:Ei; [|done]. cbn [mbind option_bind].
    rewrite list_lookup_insert_eq by (rewrite Hs; by eapply slot_lt). done.
  - rewrite lookup_delete_ne by done. destruct (parsed_header_slot k) as [i|] eqn:Ei; [|done].
    destruct (parsed_header_slot k') as [i'|] eqn:Ei'; [|done]. cbn [mbind option_bind].
    rewrite list_lookup_insert_ne; [done|]. intros <-. apply E. by eapply slot_inj.
Qed.
Lemma get_add k v k' h : k <> [] -> k' <> [] -> store_ok h ->
  get_header k' (add_header k v h) = if bool_decide (fold_key k' = fold_key k) then Some v else get_header k' h.
Proof.
  intros Hk Hk' Hs. pose proof (get_remove k k' h Hk Hk' Hs) as H. unfold add_header, get_header in *.
  rewrite (bool_decide_eq_false_2 _ Hk') in *. cbn [parsed_header_values_ headers_]. rewrite assign_lookup. case_bool_decide as E.
  - destruct (_ ≫= _) as [v'|]; [discriminate H|done].
  - exact H.
Qed.
Lemma store_add k v h : store_ok h -> store_ok (add_header k v h).
Proof. intros H. by apply store_remove. Qed.
Lemma get_add_parsed k v k' h : k' <> [] -> store_ok h -> is_Some (parsed_header_slot k) ->
  get_header k' (add_parsed_header k v h) = if bool_decide (fold_key k' = fold_key k) then Some v else get_header k' h.
Proof.
  intros Hk' Hs [i Ei]. unfold get_header, add_parsed_header. rewrite (bool_decide_eq_false_2 _ Hk'), Ei.
  cbn [parsed_header_values_ headers_]. case_bool_decide as E.
  - rewrite (slot_fold _ _ E), Ei. cbn [mbind option_bind]. rewrite list_lookup_insert_eq by (rewrite Hs; by eapply slot_lt). done.
  - destruct (parsed_header_slot k') as [i'|] eqn:Ei'; [|done]. cbn [mbind option_bind].
    rewrite list_lookup_insert_ne; [done|]. intros <-. apply E. by eapply slot_inj.
Qed.
Lemma store_add_parsed k v h : store_ok h -> store_ok (add_parsed_header k v h).
Proof. unfold store_ok, add_parsed_header. intros H. destruct (parsed_header_slot k); cbn [parsed_header_values_]; [by rewrite length_insert|done]. Qed.

Lemma equals_ci_literal_spec k l : equals_ci_literal k l = true -> fold_key k = l.
Proof.
  revert l. induction k as [|c k IH]; intros [|x l] H; try done. cbn in *. case_if_in H; [|done]. f_equal; [lia|by apply IH].
Qed.
Lemma canonical_spec k c : canonical_header_key k = Some c -> fold_key k = c /\ is_Some (parsed_header_slot c).
Proof.
  unfold canonical_header_key. generalize (length k). intros n H.
  do 18 try destruct n as [|n].
  all: try discriminate H; repeat case_if_in H; try done; injection H as <-; (split; [by apply equals_ci_literal_spec|by eexists]).
Qed.
Lemma fold_key_nil k : fold_key k = [] -> k = [].
Proof. by destruct k. Qed.

(** What [headers()] shows of a name. *)
Lemma materialize_loop_lookup names values m j : length values = length names -> NoDup (map fold_key names) ->
  snd <$> materialize_loop names values m !! j =
    match list_find (fun n => fold_key n = j) names with
    | Some (i, _) => match values !! i with Some (Some v) => Some v | _ => snd <$> m !! j end
    | None => snd <$> m !! j
    end.
Proof.
  revert values m. induction names as [|n names IH]; intros [|v values] m Hl Hd; try done. cbn in Hl. apply NoDup_cons in Hd as [Hn Hd].
  cbn [list_find]. assert (forall m', (forall j', j' <> fold_key n -> snd <$> m' !! j' = snd <$> m !! j') ->
    snd <$> materialize_loop names values m' !! j = (if bool_decide (j = fold_key n) then snd <$> m' !! j else
      match list_find (fun n => fold_key n = j) names with
      | Some (i, _) => match values !! i with Some (Some v) => Some v | _ => snd <$> m !! j end
      | None => snd <$> m !! j end)) as A.
  { intros m' Hm. rewrite IH by (done || lia). case_bool_decide as E.
    - destruct (list_find _ names) as [[i x]|] eqn:Ef; [|done]. apply list_find_Some in Ef as (E1 & E2 & _). exfalso. apply Hn.
      rewrite <- E, <- E2. apply list_elem_of_fmap. exists x. split; [done|]. by eapply list_elem_of_lookup_2.
    - by rewrite Hm. }
  destruct (decide (fold_key n = j)) as [E|E].
  - cbn [lookup list_lookup]. destruct v as [v|]; cbn [materialize_loop].
    + rewrite A by (intros j' Hj; rewrite assign_lookup, bool_decide_eq_false_2; done).
      rewrite bool_decide_eq_true_2 by done. by rewrite assign_lookup, bool_decide_eq_true_2.
    + rewrite A by done. by rewrite bool_decide_eq_true_2.
  - assert (snd <$> materialize_loop (n :: names) (v :: values) m !! j =
      match list_find (fun n => fold_key n = j) names with
      | Some (i, _) => match values !! i with Some (Some v) => Some v | _ => snd <$> m !! j end
      | None => snd <$> m !! j end) as ->.
    { destruct v as [v|]; cbn [materialize_loop].
      - rewrite A by (intros j' Hj; rewrite assign_lookup, bool_decide_eq_false_2; done). by rewrite bool_decide_eq_false_2.
      - rewrite A by done. by rewrite bool_decide_eq_false_2. }
    destruct (list_find _ names) as [[i x]|]; done.
Qed.

Lemma slot_loop_find k names n :
  slot_loop k names n = (fun x => (n + fst x)%nat) <$> list_find (fun name => fold_key name = fold_key k) names.
Proof.
  revert n. induction names as [|name names IH]; intros n; [done|]. cbn [slot_loop list_find].
  destruct (header_key_equals_ci k name) eqn:E.
  - apply header_key_equals_ci_spec in E. rewrite decide_True by done. cbn. f_equal. lia.
  - rewrite decide_False by (intros E'; symmetry in E'; apply header_key_equals_ci_spec in E'; congruence).
    rewrite IH. destruct (list_find _ names) as [[i x]|]; [|done]. cbn. f_equal. lia.
Qed.
Lemma materialize_get k h : k <> [] -> store_ok h ->
  snd <$> headers_ (materialize_parsed_headers h) !! fold_key k = get_header k h.
Proof.
  intros Hk Hs. unfold materialize_parsed_headers, get_header. rewrite (bool_decide_eq_false_2 _ Hk). cbn [headers_].
  rewrite materialize_loop_lookup by (done || by apply (bool_decide_unpack _)).
  unfold parsed_header_slot. rewrite slot_loop_find.
  destruct (list_find _ slot_names) as [[i n]|] eqn:E; [|done]. cbn [fmap option_fmap option_map fst mbind option_bind Nat.add].
  destruct (parsed_header_values_ h !! i) as [[v|]|]; done.
Qed.

(** ** A line of a header *)
Definition same_name (k name : bytes) : bool := bool_decide (fold_key k = fold_key name).
Definition field_line (f : bytes * bytes) : bytes := fst f ++ [58; 32] ++ snd f.
Lemma equals_ci_fold k k' name : fold_key k = fold_key k' -> header_key_equals_ci k name = header_key_equals_ci k' name.
Proof. intros H. apply eq_true_iff_eq. rewrite !header_key_equals_ci_spec. by rewrite H. Qed.
Lemma body_related_fold k k' : fold_key k = fold_key k' -> body_related k = body_related k'.
Proof. intros H. unfold body_related. by rewrite !(equals_ci_fold k k' _ H). Qed.
Lemma body_related_add k v h : body_related_header_present_ (add_header k v h) = body_related_header_present_ h || body_related k.
Proof. unfold add_header, remove_header. cbn. by case_bool_decide. Qed.
Lemma canonical_slot k c : canonical_header_key k = Some c -> c ∈ slot_names.
Proof.
  unfold canonical_header_key. generalize (length k). intros n H.
  do 18 try destruct n as [|n].
  all: try discriminate H; repeat case_if_in H; try done; injection H as <-; by apply (bool_decide_unpack _).
Qed.
Lemma body_related_add_parsed c v h : c ∈ slot_names ->
  body_related_header_present_ (add_parsed_header c v h) = body_related_header_present_ h || body_related c.
Proof.
  intros Hc. assert (Forall (fun c => is_Some (parsed_header_slot c) /\
      (str_eqb c content_length || str_eqb c content_type || str_eqb c transfer_encoding) = body_related c) slot_names) as F
    by (repeat constructor; eexists; reflexivity).
  rewrite Forall_forall in F. destruct (F c Hc) as [[i Ei] E]. unfold add_parsed_header. rewrite Ei. cbn [body_related_header_present_].
  by rewrite <- E, !orb_assoc.
Qed.

(** What a line adds to the headers. *)
Lemma header_line_field name v h : name <> [] -> 58 ∉ name -> store_ok (headers h) ->
  exists h', header_line (name ++ [58; 32] ++ v) h = inr h' /\ store_ok (headers h') /\
    (forall k, k <> [] -> get_header k (headers h') = if same_name k name then Some v else get_header k (headers h)) /\
    body_related_header_present_ (headers h') = body_related_header_present_ (headers h) || body_related name.
Proof.
  intros Hn Hc Hs. unfold header_line. cbn [app]. rewrite Url.index_of_middle by done.
  destruct (length name) as [|n] eqn:El; [by destruct name|]. rewrite <- El.
  rewrite take_app_length, cons_middle, app_assoc, drop_app_length' by (rewrite length_app; cbn; lia). change (is_ows 32) with true. cbv iota.
  destruct (canonical_header_key name) as [c|] eqn:Ec.
  - destruct (canonical_spec _ _ Ec) as [Ef Hsl]. pose proof (canonical_slot _ _ Ec) as Hin.
    set (h1 := if str_eqb c connection then _ else h). assert (headers h1 = headers h) as E1.
    { unfold h1. case_if; [|done]. unfold note_connection_header. repeat case_if; try done.
      generalize (split_on 44 v) as parts. intros parts. clear. generalize h. induction parts as [|x parts IH]; intros g; [done|]. cbn [foldl].
      rewrite IH. by repeat case_if. }
    eexists. split; [reflexivity|]. cbn [headers]. rewrite E1. split; [by apply store_add_parsed|]. split.
    + intros k Hk. rewrite get_add_parsed by done. unfold same_name. rewrite <- Ef, fold_key_fold. done.
    + rewrite body_related_add_parsed by done. f_equal. apply body_related_fold. by rewrite <- Ef, fold_key_fold.
  - eexists. split; [reflexivity|]. cbn [headers]. change (map ascii_lower name) with (fold_key name).
    assert (fold_key name <> []) as Hf by (intros E; by apply fold_key_nil in E). split; [by apply store_add|]. split.
    + intros k Hk. rewrite get_add by done. unfold same_name. by rewrite fold_key_fold.
    + rewrite body_related_add. f_equal. apply body_related_fold, fold_key_fold.
Qed.

(** The value of a name: that of the last field that has it. *)
Fixpoint last_value (k : bytes) (fields : list (bytes * bytes)) : option bytes :=
  match fields with
  | [] => None
  | f :: fields => match last_value k fields with Some v => Some v | None => if same_name k (fst f) then Some (snd f) else None end
  end.
Definition field_ok (f : bytes * bytes) : Prop := fst f <> [] /\ 58 ∉ fst f /\ 10 ∉ fst f /\ 10 ∉ snd f.
Definition header_text (fields : list (bytes * bytes)) : bytes :=
  concat (map (fun f => field_line f ++ [13; 10]) fields) ++ [13; 10].

Lemma read_fields_text fields rest h fuel : Forall field_ok fields -> store_ok (headers h) ->
  (length (header_text fields ++ rest) < fuel)%nat ->
  exists h', read_fields fuel (header_text fields ++ rest) h = (Some rest, h') /\ store_ok (headers h') /\
    (forall k, k <> [] -> get_header k (headers h') = match last_value k fields with Some v => Some v | None => get_header k (headers h) end) /\
    body_related_header_present_ (headers h') = body_related_header_present_ (headers h) || existsb (fun f => body_related (fst f)) fields.
Proof.
  intros Hf. revert h fuel. induction Hf as [|[name v] fields (Hn & Hc & Hl1 & Hl2) _ IH]; intros h fuel Hs Hfuel.
  - destruct fuel as [|fuel]; [cbn in Hfuel; lia|]. exists h. split; [done|]. split; [done|]. split; [done|]. cbn. by rewrite orb_false_r.
  - destruct fuel as [|fuel]; [lia|]. cbn [fst snd] in *.
    destruct (header_line_field name v h Hn Hc Hs) as (h1 & E1 & Hs1 & G1 & B1).
    assert (header_text ((name, v) :: fields) ++ rest = (field_line (name, v) ++ [13]) ++ 10 :: (header_text fields ++ rest)) as E.
    { unfold header_text. cbn [map concat]. by rewrite <- !app_assoc. }
    rewrite E in Hfuel |- *. set (l := field_line (name, v)) in *. cbn [read_fields].
    assert (10 ∉ l ++ [13]) as Hnl.
    { unfold l, field_line. cbn [fst snd]. rewrite !not_elem_of_app. split; [|set_solver]. split; [done|split; [set_solver|done]]. }
    rewrite Url.index_of_middle by done. rewrite length_app. cbn [length]. rewrite Nat.add_1_r.
    rewrite <- app_assoc. rewrite lookup_app_r, Nat.sub_diag by lia. cbn [app lookup list_lookup]. rewrite bool_decide_eq_true_2 by done.
    destruct (length l) as [|n] eqn:El; [unfold l, field_line in El; rewrite length_app in El; cbn in El; lia|]. rewrite <- El.
    rewrite take_app_length. unfold l at 1, field_line. cbn [fst snd]. rewrite E1.
    assert (drop (S (S (length l))) (l ++ 13 :: 10 :: header_text fields ++ rest) = header_text fields ++ rest) as ->.
    { change (l ++ 13 :: 10 :: header_text fields ++ rest) with (l ++ [13; 10] ++ (header_text fields ++ rest)). rewrite app_assoc.
      apply drop_app_length'. rewrite length_app. cbn. lia. }
    destruct (IH h1 fuel Hs1) as (h' & E2 & Hs2 & G2 & B2).
    { rewrite length_app in Hfuel. cbn in Hfuel. lia. }
    exists h'. split; [done|]. split; [done|]. split.
    + intros k Hk. rewrite G2 by done. cbn [last_value fst snd]. destruct (last_value k fields); [done|]. rewrite G1 by done. by case_if.
    + rewrite B2, B1. cbn [existsb fst]. by rewrite orb_assoc.
Qed.
End HeaderStore.

(** * The text of a request *)
Record Text : Type := mkText {
  t_method : HttpMethod;
  t_target : bytes;
  t_version : HttpVersion;
  t_fields : list (bytes * bytes);
  t_payload : bytes
}.
Definition version_text (v : HttpVersion) : bytes :=
  match v with
  | v_1_0 => str "HTTP/1.0" | v_1_1 => str "HTTP/1.1" | v_2_0 => str "HTTP/2.0" | v_3_0 => str "HTTP/3.0"
  | invalid_version => []
  end.
Definition head_text (t : Text) : bytes :=
  method_text (t_method t) ++ 32 :: t_target t ++ 32 :: version_text (t_version t) ++ [13; 10] ++ header_text (t_fields t).
Definition request_text (t : Text) : bytes := head_text t ++ t_payload t.
Definition text_ok (t : Text) : Prop :=
  t_method t <> invalid_ /\ (exists path, t_target t = 47 :: path) /\ 32 ∉ t_target t /\ t_version t <> invalid_version /\
  Forall field_ok (t_fields t).

(** A packet that has the request line and the headers of the text. *)
Definition parsed_as (t : Text) (p : Packet) : Prop :=
  line p = mkLine (t_method t) (fst (url_of (t_target t))) (snd (url_of (t_target t))) (params_after (t_target t) ∅) (t_version t) /\
  forall k, k <> [] -> Headers.get_header k (headers (head p)) = last_value k (t_fields t).

Lemma drop_middle (c : Z) l r : drop (S (length l)) (l ++ c :: r) = r.
Proof. exact (Url.substr_from_middle c l r). Qed.
Lemma read_method_text m r : m <> invalid_ -> read_method (method_text m ++ 32 :: r) = Some (m, r).
Proof.
  intros Hm. unfold read_method. rewrite Url.index_of_middle by (destruct m; by apply (bool_decide_unpack _)).
  rewrite take_app_length, drop_middle.
  assert (method_of (map StringUtil.upper_ascii_char (method_text m)) = Some m) as -> by (by destruct m).
  done.
Qed.
Lemma read_version_text v r : v <> invalid_version -> read_version (version_text v ++ 13 :: 10 :: r) = Some (v, r).
Proof. by destruct v. Qed.
Lemma url_decode_slash path : exists r, Url.url_decode (47 :: path) false = 47 :: r.
Proof. by eexists. Qed.
Lemma url_of_accepted path : url_refused (fst (url_of (47 :: path))) = false.
Proof. unfold url_of. cbn [fst]. destruct (contains 37 _); [|done]. by destruct (url_decode_slash path) as [r ->]. Qed.

Lemma read_head_text t p rest : text_ok t ->
  exists p1, read_head (reset p) (head_text t ++ rest) = (true, p1, rest) /\ state p1 = header_end_lines /\ parsed_as t p1 /\
    status p1 = status (reset p) /\ body p1 = body (reset p) /\ body_state (parser_ p1) = body_init /\
    Headers.body_related_header_present_ (headers (head p1)) = existsb (fun f => Headers.body_related (fst f)) (t_fields t).
Proof.
  intros (Hm & [path Hp] & Hsp & Hv & Hf). unfold head_text. rewrite <- app_assoc. cbn [app]. rewrite <- app_assoc. cbn [app].
  rewrite <- app_assoc. cbn [app]. unfold read_head, seq. unfold step_method at 1. cbn [header_state parser_ reset].
  rewrite bool_decide_eq_true_2 by done. rewrite read_method_text by done.
  set (d := t_target t ++ 32 :: _). set (p1 := set_header_state method_gap _).
  assert (exists n, length (t_target t) = S n) as [n Hn] by (rewrite Hp; by eexists).
  assert (step_url p1 d = (true, set_header_state url_gap (set_params (params_after (t_target t) ∅)
            (set_url (fst (url_of (t_target t))) (snd (url_of (t_target t))) p1)), version_text (t_version t) ++ 13 :: 10 :: header_text (t_fields t) ++ rest)) as ->.
  { unfold step_url. cbn [header_state parser_ p1 set_header_state]. rewrite bool_decide_eq_true_2 by done.
    unfold d. rewrite Url.index_of_middle by done. rewrite Hn. rewrite <- Hn, take_app_length, drop_middle.
    pose proof (url_of_accepted path) as Hr. rewrite <- Hp in Hr. rewrite Hr. done. }
  set (p2 := set_header_state url_gap _). unfold step_version at 1. cbn [header_state parser_ p2 set_header_state].
  rewrite bool_decide_eq_true_2 by done. rewrite read_version_text by done.
  set (p3 := set_header_state version_newline _). unfold step_fields. cbn [header_state parser_ p3 set_header_state].
  rewrite bool_decide_eq_true_2 by done.
  destruct (read_fields_text (t_fields t) rest (head p3) (S (length (header_text (t_fields t) ++ rest))) Hf) as (h & E & Hs & G & B); [done|lia|].
  rewrite E. eexists. split; [reflexivity|]. split; [done|]. split.
  - split; [by destruct t|]. cbn [head set_head set_header_state headers]. intros k Hk. rewrite G by done.
    destruct (last_value k _); [done|]. apply get_init.
  - split; [done|]. split; [done|]. split; [done|]. cbn [head set_head set_header_state headers]. by rewrite B.
Qed.

(** ** How long the body is *)
Definition framed (env : Env) (t : Text) : Prop :=
  last_value Headers.transfer_encoding (t_fields t) = None /\
  last_value Headers.content_disposition (t_fields t) = None /\
  match last_value Headers.content_length (t_fields t) with
  | None => t_payload t = []
  | Some v => Headers.content_length_of v = Headers.valid (zlen (t_payload t))
  end /\
  zlen (t_payload t) <= client_max_content_length env /\
  (t_method t = put_ -> zlen (t_payload t) <= kBodyFileSpoolThreshold).

Lemma last_value_related k fields v : Headers.body_related k = true -> last_value k fields = Some v ->
  existsb (fun f => Headers.body_related (fst f)) fields = true.
Proof.
  intros Hk. induction fields as [|f fields IH]; [done|]. cbn [last_value existsb]. intros H.
  destruct (last_value k fields); [rewrite IH by done; apply orb_true_r|]. case_if_in H; [|done].
  apply orb_true_iff. left. unfold same_name in Hif. apply bool_decide_eq_true_1 in Hif. by rewrite <- (body_related_fold _ _ Hif).
Qed.

(** A packet whose message is complete and in its buffer. *)
Definition complete (t : Text) (p : Packet) : Prop :=
  parsed_as t p /\ done p = true /\ spool_ (body p) = None /\
  Headers.body_related_header_present_ (headers (head p)) = existsb (fun f => Headers.body_related (fst f)) (t_fields t) /\
  body_length_ (body p) = zlen (t_payload t) /\ body_content_ (body p) = None.
(** Its type has not been looked at. *)
Definition untyped (p : Packet) : Prop :=
  content_type_text_ (body p) = [] /\ content_type_extra_ (body p) = ∅ /\ content_type_ (body p) = not_support.

Section Message.
Variable env : Env.

Lemma message_text t p1 rest : framed env t -> zlen (t_payload t ++ rest) < 18446744073709551616 ->
  state p1 = header_end_lines -> parsed_as t p1 -> body p1 = init_body ->
  Headers.body_related_header_present_ (headers (head p1)) = existsb (fun f => Headers.body_related (fst f)) (t_fields t) ->
  exists p2, message env p1 (t_payload t ++ rest) = (1, p2, t_payload t ++ rest) /\ complete t p2 /\ untyped p2.
Proof.
  intros (Hte & Hcd & Hcl & Hmax & Hput) Hz Hs [Hl Hg] Hb Hr. set (d := t_payload t ++ rest) in *.
  assert (zlen (t_payload t) <= zlen d) as Hzd by (unfold d; rewrite zlen_app; pose proof (zlen_nonneg rest); lia).
  assert (forall p2, parse_message env p1 (canon d) = Ok (1, p2, canon d) -> message env p1 d = (1, p2, d)) as M.
  { intros p2 E. unfold message. by rewrite E. }
  assert (forall s p2, (s = fully \/ s = body_empty) -> line p2 = line p1 -> head p2 = head p1 -> state p2 = header_end_lines ->
            body p2 = mkBody (zlen (t_payload t)) not_support [] ∅ None None [] [] None -> complete t (set_body_state s p2) /\ untyped (set_body_state s p2)) as C.
  { intros s p2 Hs2 H1 H2 H3 H4. unfold complete, parsed_as, untyped. cbn [set_body_state line head body]. rewrite H1, H2, H4.
    split; [|done]. split; [done|]. split; [by apply done_with|]. done. }
  unfold parse_message in M. destruct (Headers.body_related_header_present_ (headers (head p1))) eqn:Er; cbn [negb] in M.
  2:{ destruct (last_value Headers.content_length (t_fields t)) eqn:E; [apply last_value_related in E; [congruence|done]|].
      eexists. split; [by apply M|]. apply C; try done; [by right|]. by rewrite Hb, Hcl. }
  unfold Headers.parse_content_length_header in M. rewrite !Hg in M by done. rewrite Hte in M.
  rewrite (bool_decide_eq_false_2 (is_Some None)) in M by by intros [? ?].
  destruct (last_value Headers.content_length (t_fields t)) as [v|] eqn:E.
  - rewrite Hcl in M. cbn [andb] in M. set (q := set_body_length (zlen (t_payload t)) p1) in *.
    assert (body q = mkBody (zlen (t_payload t)) not_support [] ∅ None None [] [] None) as Hbq by (unfold q, set_body_length; cbn; by rewrite Hb).
    destruct (0 <? zlen (t_payload t)) eqn:E0; [|eexists; split; [by apply M|apply C; try done; by right]].
    assert (should_spool_request_body q (zlen (t_payload t)) = false) as Es.
    { unfold should_spool_request_body. destruct (zlen (t_payload t) <=? kBodyFileSpoolThreshold) eqn:E1; [done|].
      apply bool_decide_eq_false. cbn. rewrite Hl. cbn. intros Hp. specialize (Hput Hp). lia. }
    rewrite Es in M. unfold parse_buffered, parse_body in M. rewrite (proj2 (is_header_done_iff q) Hs) in M. cbn [negb] in M.
    assert ((client_max_content_length env <? zlen (t_payload t)) = false) as Ec by lia. rewrite Ec in M.
    assert ((ByteBuffer.readable_bytes (canon d) <? zlen (t_payload t)) = false) as Ed
      by (unfold ByteBuffer.readable_bytes; cbn [canon ByteBuffer.write_offset_ ByteBuffer.read_offset_]; lia). rewrite Ed in M.
    change (1 =? 0) with false in M. change (1 <? 0) with false in M. cbv iota zeta in M.
    change (headers (head (set_body_state fully q))) with (headers (head p1)) in M. rewrite !Hg in M by done. rewrite Hcd in M.
    destruct (last_value Headers.content_type (t_fields t)) as [ct|].
    + destruct (can_parse (find_content_type ct)).
      * eexists. split; [by apply M|]. apply C; try done. by left.
      * eexists. split; [by apply M|]. unfold complete, parsed_as, untyped. cbn -[Headers.get_header last_value]. rewrite Hb.
        split; [|done]. split; [done|]. split; [|by rewrite Er]. unfold done. cbn. rewrite orb_true_r. unfold is_header_done. cbn. fold (state p1). by rewrite Hs.
    + eexists. split; [by apply M|]. apply C; try done. by left.
  - cbn [andb] in M. change (0 <? 0) with false in M. eexists. split; [by apply M|]. apply C; try done; [by right|]. by rewrite Hb, Hcl.
Qed.
End Message.

(** ** Its content *)
Lemma until_length f s : (length (snd (until f s)) <= length s)%nat.
Proof. induction s as [|c s IH]; [done|]. cbn [until]. destruct (f c); [done|]. destruct (until f s). cbn in *. lia. Qed.
Lemma trim_front_length s : (length (StringUtil.trim_front s) <= length s)%nat.
Proof. induction s as [|c s IH]; [done|]. cbn [StringUtil.trim_front]. case_if; [cbn; lia|done]. Qed.
Lemma extra_loop_total fuel s m : (length s < fuel)%nat -> exists m' rest, (length rest <= length s)%nat /\ extra_loop fuel s m = Ok (m', rest).
Proof.
  revert s m. induction fuel as [|fuel IH]; intros s m H; [lia|]. cbn [extra_loop]. destruct s as [|c0 s0]; [by exists m, []|].
  pose proof (trim_front_length (c0 :: s0)) as H1. destruct (StringUtil.trim_front (c0 :: s0)) as [|c s]; [exists m, []; split; [cbn; lia|done]|].
  case_if; [by exists m, (c :: s)|]. pose proof (until_length (fun c => (c =? 61) || (c =? 59) || (c =? 13)) (c :: s)) as H2.
  destruct (until _ (c :: s)) as [key s1]. cbn [snd] in H2. destruct s1 as [|c1 s1]; [exists m, []; split; [cbn; lia|done]|].
  case_if; [exists m, (c1 :: s1); split; [lia|done]|].
  pose proof (until_length (fun c => (c =? 59) || (c =? 13)) s1) as H3. destruct (until _ s1) as [value s2]. cbn [snd] in H3. cbn [length] in *.
  match goal with |- context [extra_loop fuel ?x ?y] => destruct (IH x y) as (m' & rest & Hr & E) end.
  - destruct s2 as [|c2 s2]; [cbn; lia|]. case_if; cbn [length] in *; lia.
  - exists m', rest. split; [|exact E]. destruct s2 as [|c2 s2]; [cbn in *; lia|]. case_if_in Hr; cbn [length] in *; lia.
Qed.
Lemma consume_crlf_length s : (length (consume_crlf_if_any s) <= length s)%nat.
Proof. destruct s as [|c [|d s]]; cbn [consume_crlf_if_any length]; [lia|case_if; cbn [length]; lia|]. repeat case_if; cbn [length]; lia. Qed.
Lemma parse_content_type_total v text extra : exists text' extra' rest, (length rest <= length v)%nat /\
  parse_content_type v text extra = Ok (negb (bool_decide (v = [])), text', extra', rest).
Proof.
  unfold parse_content_type. destruct v as [|c v]; [by exists text, extra, []|]. rewrite bool_decide_eq_false_2 by done. cbn [negb].
  pose proof (until_length (fun c => (c =? 59) || (c =? 13)) (c :: v)) as H1.
  destruct (until _ (c :: v)) as [name rest]. cbn [snd] in H1. destruct rest as [|c1 rest]; [do 3 eexists; by split; [|reflexivity]; cbn; lia|].
  pose proof (consume_crlf_length (c1 :: rest)). pose proof (consume_crlf_length rest). cbn [length] in *.
  case_if; [do 3 eexists; by split; [|reflexivity]; lia|].
  case_if; [|do 3 eexists; by split; [|reflexivity]; lia].
  destruct (extra_loop_total (S (length rest)) rest extra) as (m & s & Hs & ->); [lia|]. pose proof (consume_crlf_length s).
  do 3 eexists. split; [|reflexivity]. lia.
Qed.

(** The type that a content-type header names. *)
Definition type_of (v : bytes) : ContentType :=
  match parse_content_type v [] ∅ with Ok (_, text, _, _) => find_content_type text | _ => not_support end.
Definition extra_of (v : bytes) : gmap bytes bytes :=
  match parse_content_type v [] ∅ with Ok (_, _, extra, _) => extra | _ => ∅ end.
(** What the parser of a multipart type makes of a body. *)
Definition multipart_of (env : Env) (v payload : bytes) : outcome (option Content) :=
  match type_of v with
  | multpart_form_data => Multipart.form_parse env payload (extra_of v)
  | multpart_byte_ranges => Multipart.ranges_parse payload (extra_of v)
  | _ => Ok None
  end.
Definition content_of (env : Env) (t : Text) : option Content :=
  match last_value Headers.content_type (t_fields t) with
  | None => None
  | Some v =>
      match type_of v with
      | application_json => Some (JsonContent (t_payload t))
      | (text_plain | text_html | text_javascript | text_style_sheet) as ty => Some (TextContent ty (t_payload t))
      | _ => match multipart_of env v (t_payload t) with Ok content => content | _ => None end
      end
  end.
Definition content_accepted (env : Env) (t : Text) : Prop :=
  match last_value Headers.content_type (t_fields t) with
  | None => True
  | Some v =>
      v <> [] /\
      match type_of v with
      | application_json => json_accepts env (t_payload t) = true
      | multpart_form_data | multpart_byte_ranges => exists content, multipart_of env v (t_payload t) = Ok (Some content)
      | x_www_form_urlencoded => False
      | _ => True
      end
  end.

Section Served.
Variable env : Env.
Import Http1Content Http1Connection.

(** A request as the handlers see it. *)
Definition served (t : Text) (c : Http1Connection.t) : Prop :=
  has_parsed_ c = false /\ parsed_as t (request c) /\ body_range (request c) = Ok (t_payload t) /\
  body_content_ (body (request c)) = content_of env t /\ ByteBuffer.wf (input_cache_ (request c)).

Lemma complete_range t q d : complete t q -> view (input_cache_ q) (t_payload t ++ d) -> body_range q = Ok (t_payload t).
Proof.
  intros (_ & _ & _ & _ & Hl & _) Hv. rewrite (body_range_view _ _ Hv), Hl. pose proof (zlen_nonneg (t_payload t)).
  pose proof (zlen_nonneg d). destruct (zlen (t_payload t) =? 0) eqn:E.
  - destruct (t_payload t); [done|unfold zlen in E; cbn in E; lia].
  - rewrite zlen_app. assert ((zlen (t_payload t) + zlen d <=? 0) = false) as -> by lia.
    assert ((zlen (t_payload t) <=? zlen (t_payload t) + zlen d) = true) as -> by lia.
    assert ((zlen (t_payload t) <? 0) = false) as -> by lia. f_equal. unfold zlen. rewrite Nat2Z.id. apply take_app_length.
Qed.

Lemma content_served t q d : complete t q -> view (input_cache_ q) (t_payload t ++ d) -> is_good_ (status q) = true ->
  last_value Headers.transfer_encoding (t_fields t) = None -> content_accepted env t ->
  content_type_ (body q) = match last_value Headers.content_type (t_fields t) with Some v => type_of v | None => not_support end ->
  content_type_extra_ (body q) = match last_value Headers.content_type (t_fields t) with Some v => extra_of v | None => ∅ end ->
  exists q', parse_content env q = Ok (true, q') /\ parsed_as t q' /\ body_range q' = Ok (t_payload t) /\
    body_content_ (body q') = content_of env t /\ good q' = true /\ input_cache_ q' = input_cache_ q.
Proof.
  intros Hq Hv Hg Hte Hca Ht Hex. pose proof (complete_range t q d Hq Hv) as Hr.
  assert (body_text q = Ok (t_payload t)) as Htext.
  { unfold body_text. rewrite (view_readable _ _ Hv). destruct Hq as (_ & _ & _ & _ & -> & _). rewrite zlen_app.
    pose proof (zlen_nonneg d). by assert ((zlen (t_payload t) + zlen d <? zlen (t_payload t)) = false) as -> by lia. }
  destruct Hq as ([Hl Hh] & Hd & Hsp & Hrel & Hlen & Hbc).
  assert (is_chunked q = false) as Hch by (unfold is_chunked, Headers.is_chunked; by rewrite Hh, Hte).
  assert (good q = true) as Hgood by (unfold good; by rewrite Hg).
  unfold parse_content. rewrite Hg. cbn [negb]. unfold has_body_file. rewrite Hsp.
  rewrite bool_decide_eq_false_2 by by intros [? ?]. rewrite Hch, Hrel, Hh by done. unfold content_of, content_accepted in *.
  destruct (last_value Headers.content_type (t_fields t)) as [v|] eqn:Ect.
  - destruct Hca as [Hv0 Hca]. rewrite (last_value_related Headers.content_type _ v) by done. cbn [is_some negb andb].
    unfold factory_parse_content. rewrite Hch. unfold content_parse. rewrite Ht.
    destruct (type_of v) eqn:Ety; try done; unfold text_parse, json_parse; rewrite ?Hbc, ?Hr; mstep; rewrite ?Hca; mstep.
    all: try (destruct Hca as [content Hca]; unfold multipart_of in *; rewrite Ety in Hca;
      unfold form_data_parse, byteranges_parse, multipart_parse; rewrite ?Hbc, Htext; cbn [is_some]; mstep; rewrite Hex, Hca; mstep).
    all: eexists; split; [reflexivity|]; split; [done|]; split; [exact Hr|]; split; [|by split]; cbn; unfold multipart_of;
      by rewrite ?Ht, ?Ety, ?Hca.
  - cbn [is_some negb andb]. destruct (existsb _ _); cbn [negb]; exists q; done.
Qed.

Lemma spec_served t p extra : env_ok env -> text_ok t -> (t_version t = v_1_0 \/ t_version t = v_1_1) -> framed env t ->
  content_accepted env t -> zlen (request_text t ++ extra) < 18446744073709551616 ->
  exists c', spec env (reset p) (request_text t ++ extra) = Ok (dispatched, c') /\ served t c'.
Proof.
  intros He Ht Hv Hf Hca Hz. unfold request_text in *. rewrite <- app_assoc in *.
  destruct (read_head_text t p (t_payload t ++ extra) Ht) as (p1 & E1 & Hs1 & Hp1 & Hst1 & Hb1 & _ & Hr1).
  rewrite zlen_app in Hz. pose proof (zlen_nonneg (head_text t)).
  destruct (message_text env t p1 extra Hf ltac:(lia) Hs1 Hp1 Hb1 Hr1) as (p2 & E2 & Hc & Hu).
  unfold spec, parse_bytes. destruct (reset_ok p) as (_ & -> & _). change (is_header_done (reset p)) with false. cbv iota.
  rewrite E1, E2. unfold conclude. change (1 <? 0) with false. change (1 =? 1) with true. cbv iota zeta.
  set (d := t_payload t ++ extra) in *. set (q := set_good true (set_input_cache (canon d) p2)).
  assert (view (canon d) d) as Hvd by (apply canon_bounded; lia).
  assert (Headers.get_header Headers.content_type (headers (head q)) = last_value Headers.content_type (t_fields t)) as Hct
    by (apply Hc; done). rewrite Hct.
  assert (forall q', complete t q' -> input_cache_ q' = canon d -> is_good_ (status q') = true ->
    content_type_ (body q') = match last_value Headers.content_type (t_fields t) with Some v => type_of v | None => not_support end ->
    content_type_extra_ (body q') = match last_value Headers.content_type (t_fields t) with Some v => extra_of v | None => ∅ end ->
    exists c', round env (Http1Connection.mk true q') = Ok (dispatched, c') /\ served t c') as K.
  { intros q' Hq' Hi Hg Hty Hex. destruct (content_served t q' extra Hq' ltac:(by rewrite Hi) Hg (proj1 Hf) Hca Hty Hex)
      as (q2 & Eq & Hp2 & Hr2 & Hb2 & Hg2 & Hi2).
    destruct Hq' as (Hpa & Hd & _). unfold round. cbn [request has_parsed_]. unfold good. rewrite Hg. cbn [orb negb].
    unfold is_completed. cbn [request has_parsed_]. rewrite Hd. cbn [negb request has_parsed_].
    assert (forall q, parsed_as t q -> is_chunked q = false) as Hnc.
    { intros q0 [_ Hh]. unfold is_chunked, Headers.is_chunked. rewrite Hh by done. by rewrite (proj1 Hf). }
    rewrite (Hnc q' Hpa). cbn [negb orb]. rewrite Eq. mstep. cbn [negb has_parsed_ request]. rewrite (Hnc q2 Hp2). cbn [andb].
    unfold validate_request_version. rewrite (proj1 Hp2). cbn [version_].
    destruct Hv as [-> | ->]; mstep; (eexists; split; [reflexivity|]); (split; [done|]); cbn [request];
      (split; [done|]); (split; [done|]); (split; [done|]); rewrite Hi2, Hi; apply Hvd. }
  destruct (last_value Headers.content_type (t_fields t)) as [v|] eqn:E.
  - destruct Hu as (U1 & U2 & _).
    change (content_type_text_ (body q)) with (content_type_text_ (body p2)).
    change (content_type_extra_ (body q)) with (content_type_extra_ (body p2)). rewrite U1, U2.
    destruct (parse_content_type_total v [] ∅) as (text & ex & rest & _ & Ep). rewrite Ep. mstep.
    unfold content_accepted in Hca. rewrite E in Hca. rewrite (bool_decide_eq_false_2 _ (proj1 Hca)). cbn [negb].
    apply K; [exact Hc|done..| |]; unfold type_of, extra_of; by rewrite Ep.
  - mstep. apply K; [exact Hc|done..| |]; apply Hu.
Qed.

Lemma served_alike t c c' : alike_conn c' c -> served t c -> served t c'.
Proof.
  intros [E H] (S1 & S2 & S3 & S4 & _). destruct (alike_body _ _ H) as (Eb & Eh & Es & El & Ep).
  unfold served, parsed_as in *. rewrite E, (alike_body_range _ _ H). rewrite Eb, Eh, El in *. repeat (split; [done|]).
  destruct H as (d & k & [Hw _] & _). exact Hw.
Qed.

(** A fresh connection reads a request. *)
Definition fresh (c : Http1Connection.t) : Prop := has_parsed_ c = false /\ ByteBuffer.wf (input_cache_ (request c)).
Lemma fresh_read c data x : env_ok env -> fresh c -> incoming data x -> zlen x <= max_header_length env ->
  both alikev (on_read env data c) (spec env (reset (request c)) x).
Proof. intros He [H1 H2] Hx Hz. apply (amid_read env (request c) [] c data x He); [left; done|done|done]. Qed.
Lemma read_served t c data extra : env_ok env -> fresh c -> text_ok t -> (t_version t = v_1_0 \/ t_version t = v_1_1) ->
  framed env t -> content_accepted env t -> incoming data (request_text t ++ extra) ->
  zlen (request_text t ++ extra) <= max_header_length env ->
  exists c', on_read env data c = Ok (dispatched, c') /\ served t c' /\ fresh c'.
Proof.
  intros He Hc Ht Hv Hf Hca Hx Hz. pose proof (fresh_read c data _ He Hc Hx Hz) as H.
  destruct (spec_served t (request c) extra He Ht Hv Hf Hca) as (c' & E & Hs); [destruct He; lia|]. rewrite E in H.
  destruct (on_read env data c) as [[v c2]| | |]; try done. destruct H as [Hv2 H]. cbn [fst snd] in *. subst v. exists c2.
  pose proof (served_alike _ _ _ H Hs) as Hs2. split; [done|]. split; [done|]. split; apply Hs2.
Qed.
Lemma run_served reads ts c : env_ok env -> fresh c ->
  Forall (fun te => text_ok (fst te) /\ (t_version (fst te) = v_1_0 \/ t_version (fst te) = v_1_1) /\ framed env (fst te) /\
                    content_accepted env (fst te) /\ zlen (request_text (fst te) ++ snd te) <= max_header_length env) ts ->
  Forall2 (fun data te => incoming data (request_text (fst te) ++ snd te)) reads ts ->
  exists rs, run env reads c = Ok rs /\ Forall2 (fun r te => fst r = dispatched /\ served (fst te) (snd r)) rs ts.
Proof.
  intros He Hc Hts H. revert c Hc Hts. induction H as [|data te reads ts Hx _ IH]; intros c Hc Hts.
  - exists []. split; [done|constructor].
  - apply Forall_cons in Hts as [(H1 & H2 & H3 & H4 & H5) Hts].
    destruct (read_served (fst te) c data (snd te) He Hc H1 H2 H3 H4 Hx H5) as (c' & E & Hs & Hc').
    destruct (IH c' Hc' Hts) as (rs & Er & Hr). exists ((dispatched, c') :: rs). cbn [run]. rewrite E. mstep. rewrite Er. mstep.
    split; [done|]. constructor; [done|exact Hr].
Qed.

(** ** Requests whose length is not acceptable *)
Definition unframed (t : Text) : Prop :=
  (exists v, last_value Headers.content_length (t_fields t) = Some v /\ Headers.content_length_of v = Headers.invalid) \/
  (is_Some (last_value Headers.content_length (t_fields t)) /\ is_Some (last_value Headers.transfer_encoding (t_fields t))) \/
  (exists v, last_value Headers.transfer_encoding (t_fields t) = Some v /\ Headers.transfer_encoding_has_chunked v = false).
Definition oversized (t : Text) : Prop :=
  last_value Headers.transfer_encoding (t_fields t) = None /\
  exists v n, last_value Headers.content_length (t_fields t) = Some v /\ Headers.content_length_of v = Headers.valid n /\
              client_max_content_length env < n /\ (t_method t = put_ -> n <= kBodyFileSpoolThreshold).

Lemma refused_round r p d code : (r = -1 /\ is_header_done p = true /\ code = bad_request \/ r = -2 /\ code = payload_too_large) ->
  is_download_file_ (status p) = false ->
  exists c', ('(_, q) ← conclude env r p d; round env (Http1Connection.mk true q)) = Ok (refused [code] true, c').
Proof.
  intros H Hd.
  assert (conclude env r p d = Ok (false, set_good false (set_error_code code p))) as ->.
  { unfold conclude. destruct H as [(-> & Hh & ->)|[-> ->]]; [|done]. rewrite Hh. done. }
  mstep. eexists. unfold round. cbn [request]. unfold good. cbn [status set_good set_status is_good_ is_download_file_ set_error_code].
  rewrite Hd. cbn [orb negb]. mstep. unfold verdict_of, good. cbn [request status set_good set_status is_good_ is_download_file_ set_error_code].
  rewrite Hd. cbn [orb negb error_code_]. reflexivity.
Qed.
Lemma message_refused t p1 d : zlen d < 18446744073709551616 -> state p1 = header_end_lines -> parsed_as t p1 ->
  Headers.body_related_header_present_ (headers (head p1)) = existsb (fun f => Headers.body_related (fst f)) (t_fields t) ->
  0 <= client_max_content_length env ->
  (unframed t -> message env p1 d = (-1, p1, d)) /\
  (oversized t -> exists p2, message env p1 d = (-2, p2, d) /\ status p2 = status p1 /\ state p2 = header_end_lines).
Proof.
  intros Hz Hs [Hl Hg] Hr He.
  assert (forall r p2, parse_message env p1 (canon d) = Ok (r, p2, canon d) -> message env p1 d = (r, p2, d)) as M
    by (intros r p2 E; unfold message; by rewrite E).
  unfold parse_message, Headers.parse_content_length_header in M. rewrite !Hg in M by done. split.
  - intros U. apply M.
    assert (existsb (fun f => Headers.body_related (fst f)) (t_fields t) = true) as Hrel.
    { destruct U as [(v & E & _)|[[_ [v E]]|(v & E & _)]]; by eapply last_value_related, E. }
    rewrite Hr, Hrel. cbn [negb]. unfold unframed in U.
    destruct (last_value Headers.content_length (t_fields t)) as [v|] eqn:Ecl.
    + destruct (Headers.content_length_of v) as [|n|] eqn:En; [|rewrite bool_decide_eq_true_2; [done|]|done].
      * unfold Headers.content_length_of in En. repeat case_if_in En; done.
      * destruct U as [(v' & [= <-] & E)|[[_ H]|(v' & E & _)]]; [congruence|done|by eexists].
    + destruct U as [(v' & [=] & E)|[[[? [=]] _]|(v' & E & Hnc)]]. cbn [andb].
      rewrite bool_decide_eq_true_2 by by eexists.
      assert (is_chunked p1 = false) as -> by (unfold is_chunked, Headers.is_chunked; rewrite Hg by done; by rewrite E). done.
  - intros (Hte & v & n & Ecl & En & Hn & Hput). rewrite Hte, Ecl, En in M. rewrite bool_decide_eq_false_2 in M by by intros [? ?].
    rewrite Hr, (last_value_related Headers.content_length _ v) in M by done. cbn [negb andb] in M.
    assert ((0 <? n) = true) as E0 by lia. rewrite E0 in M.
    assert (should_spool_request_body (set_body_length n p1) n = false) as Es.
    { unfold should_spool_request_body. destruct (n <=? kBodyFileSpoolThreshold) eqn:E; [done|]. apply bool_decide_eq_false.
      cbn. rewrite Hl. cbn. intros Hp. specialize (Hput Hp). lia. }
    rewrite Es in M. unfold parse_buffered, parse_body in M.
    rewrite (proj2 (is_header_done_iff (set_body_length n p1)) Hs) in M. cbn [negb] in M.
    assert ((client_max_content_length env <? n) = true) as Ec by lia. rewrite Ec in M.
    change (-1 =? 0) with false in M. change (-1 <? 0) with true in M. cbv iota zeta in M.
    eexists. split; [by apply M|]. done.
Qed.
Lemma read_refused t c data rest : env_ok env -> fresh c -> text_ok t -> incoming data (head_text t ++ rest) ->
  zlen (head_text t ++ rest) <= max_header_length env ->
  (unframed t -> exists c', on_read env data c = Ok (refused [bad_request] true, c')) /\
  (oversized t -> exists c', on_read env data c = Ok (refused [payload_too_large] true, c')).
Proof.
  intros He Hc Ht Hx Hz. pose proof (fresh_read c data _ He Hc Hx Hz) as H.
  destruct (read_head_text t (request c) rest Ht) as (p1 & E1 & Hs1 & Hp1 & Hst1 & _ & _ & Hr1).
  assert (zlen rest < 18446744073709551616) as Hzr by (destruct He; rewrite zlen_app in Hz; pose proof (zlen_nonneg (head_text t)); lia).
  destruct (message_refused t p1 rest Hzr Hs1 Hp1 Hr1) as [M1 M2]; [apply He|].
  assert (forall code r p2 d2, parse_bytes env (reset (request c)) (head_text t ++ rest) = (r, p2, d2) ->
    (r = -1 /\ is_header_done p2 = true /\ code = bad_request \/ r = -2 /\ code = payload_too_large) -> status p2 = status p1 ->
    exists c', on_read env data c = Ok (refused [code] true, c')) as K.
  { intros code r p2 d2 E Hr Hst. unfold spec in H. rewrite E in H.
    destruct (refused_round r (set_input_cache (canon d2) p2) d2 code) as [c' Ec]; [done|cbn; by rewrite Hst, Hst1|].
    rewrite Ec in H. destruct (on_read env data c) as [[v c2]| | |]; try done. destruct H as [Hv _]. cbn in Hv. subst v. by eexists. }
  unfold parse_bytes in K. destruct (reset_ok (request c)) as (_ & R & _). rewrite R in K.
  change (is_header_done (reset (request c))) with false in K. cbv iota in K. rewrite E1 in K. split.
  - intros U. eapply K; [by apply M1| |done]. left. split; [done|]. split; [by apply is_header_done_iff|done].
  - intros U. destruct (M2 U) as (p2 & E2 & Hst2 & _). eapply K; [exact E2| |done]. by right.
Qed.
End Served.
