(* ===== verification/Http1MultipartFacts.v ===== *)
(** Lemmas on the parsers of multipart bodies: they end on every body, with a content, a
    refusal, an exception or a fault, and what they make of a body that is well formed. *)
From stdpp Require Import gmap.
From S2P Require Import Prelude Strings ByteBuffer Http1 Http1Facts.
Import Http1 Multipart.

(** * The parsers end *)
Create HintDb settles.
Definition settles {A} (m : outcome A) : Prop := m <> Diverge.
Lemma settles_ok {A} (a : A) : settles (Ok a).
Proof. done. Qed.
Lemma settles_bind {A B} (m : outcome A) (f : A -> outcome B) : settles m -> (forall a, m = Ok a -> settles (f a)) -> settles (m ≫= f).
Proof. destruct m; unfold settles; cbn; try done. auto. Qed.
Lemma settles_if {A} (b : bool) (m m' : outcome A) : settles m -> settles m' -> settles (if b then m else m').
Proof. by destruct b. Qed.
Lemma rd_settles s i : settles (rd s i).
Proof. unfold rd. case_if; [done|]. by destruct (s !! _). Qed.
Lemma rd_range_settles s i n : settles (rd_range s i n).
Proof. unfold rd_range. by case_if. Qed.
#[export] Hint Resolve settles_ok rd_settles rd_range_settles : settles.

Lemma type_loop_length s : (length (snd (type_loop s)) <= length s)%nat.
Proof.
  induction s as [|ch s IH]; cbn [type_loop]; [done|]. case_if; [cbn [length]; lia|]. case_if; [cbn [snd length]; lia|].
  destruct (type_loop s). cbn [snd length] in *. lia.
Qed.
Lemma next_loop_settles s e : settles (next_loop s e).
Proof. induction s as [|c s IH]; cbn [next_loop]; [done|]. case_if; [done|]. by apply settles_bind. Qed.
Lemma stoul_settles s : settles (stoul s).
Proof.
  unfold stoul. destruct (match StringUtil.trim_front s with [] => _ | _ => _ end) as [negative d]. destruct d as [|c d]; [done|].
  case_if; [|done]. by case_if.
Qed.
Lemma safe_stoul_settles s : settles (safe_stoul s).
Proof. unfold safe_stoul. apply settles_bind; [apply stoul_settles|auto with settles]. Qed.
#[export] Hint Resolve next_loop_settles safe_stoul_settles : settles.

Section Text.
Variable env : Env.
Variable text : bytes.

Lemma rd_in i c : rd text i = Ok c -> 0 <= i < body_end text.
Proof.
  unfold rd, body_end, zlen. case_if; [done|]. destruct (text !! Z.to_nat i) eqn:E; [|done]. intros _.
  apply lookup_lt_Some in E. lia.
Qed.
Lemma after_new_line_in p q : after_new_line text p = Ok q -> 0 <= p < body_end text /\ p <= q <= p + 2.
Proof.
  unfold after_new_line, skip_new_line. intros H. apply outcome_bind_inv in H as (n & (c & Hc & [= <-])%outcome_bind_inv & [= <-]).
  apply rd_in in Hc. split; [done|]. repeat case_if; lia.
Qed.
Lemma after_new_line_settles p : settles (after_new_line text p).
Proof. apply settles_bind; [apply settles_bind; auto with settles|auto with settles]. Qed.
Lemma read_identifier_settles p : settles (read_identifier text p).
Proof. unfold read_identifier. by case_if. Qed.
Lemma read_next_settles p e : settles (read_next text p e).
Proof. unfold read_next. case_if; auto with settles. Qed.
Lemma cmp_at_settles p n s : settles (cmp_at text p n s).
Proof. apply settles_bind; auto with settles. Qed.
#[local] Hint Resolve after_new_line_settles read_identifier_settles read_next_settles cmp_at_settles : settles.

(** Enough rounds from a position on. *)
Definition enough (fuel : nat) (p : Z) : Prop := Z.max 0 (body_end text - p) < Z.of_nat fuel.
Lemma enough_next fuel p q : enough (S fuel) p -> p < body_end text -> p < q -> enough fuel q.
Proof. unfold enough. lia. Qed.
Lemma enough_start p : 0 <= p -> enough (S (length text)) p.
Proof. unfold enough, body_end, zlen. lia. Qed.

Lemma params_loop_settles fuel : forall p m, enough fuel p -> settles (params_loop text fuel p m).
Proof.
  induction fuel as [|fuel IH]; intros p m H; [unfold enough in H; lia|]. cbn [params_loop].
  destruct (Z.leb_spec (body_end text) p) as [Hle|Hlt]; [done|]. apply settles_bind; [auto with settles|]. intros key _. case_bool_decide; [done|].
  apply settles_bind; [auto with settles|]. intros val _. case_bool_decide; [done|]. case_if; [|done].
  apply settles_bind; [auto with settles|]. intros ch _. case_if; [|done]. apply IH. eapply enough_next; [exact H|done|].
  pose proof (zlen_nonneg key). pose proof (zlen_nonneg val). lia.
Qed.
Lemma parse_content_disposition_settles p : 0 <= p -> settles (parse_content_disposition text p).
Proof.
  intros Hp. unfold parse_content_disposition. case_if; [done|]. apply settles_bind; [auto with settles|]. intros prefix _. case_if; [done|].
  pose proof (type_loop_length (drop (Z.to_nat (p + 20)) text)) as Hl. destruct (type_loop _) as [type rest]. cbn [snd] in Hl.
  apply settles_bind; [|by intros [q m]]. apply params_loop_settles, enough_start. rewrite length_drop in Hl. unfold body_end, zlen. lia.
Qed.

Lemma delim_loop_settles delim fuel : 0 < zlen delim -> forall p, enough fuel p -> settles (delim_loop text fuel delim p).
Proof.
  intros Hd. induction fuel as [|fuel IH]; intros p H; [unfold enough in H; lia|]. cbn [delim_loop].
  destruct (Z.leb_spec p (body_end text - zlen delim)); [|done].
  apply settles_bind; [auto with settles|]. intros found Hf. case_if; [done|]. apply IH. eapply enough_next; [exact H|lia..].
Qed.
Lemma strip_new_line_settles a b : settles (strip_new_line text a b).
Proof.
  unfold strip_new_line. apply settles_bind; [case_if; [apply settles_bind|]; auto with settles|].
  intros q _. case_if; [apply settles_bind|]; auto with settles.
Qed.
#[local] Hint Resolve strip_new_line_settles : settles.
Lemma dashed_length b : 2 <= zlen (str "--" ++ b).
Proof. rewrite zlen_app. change (zlen (str "--")) with 2. pose proof (zlen_nonneg b). lia. Qed.

Lemma parse_file_part_settles extra p name : settles (parse_file_part env text extra p name).
Proof.
  unfold parse_file_part. destruct (until _ _) as [ctype_header rest]. case_if; [done|]. cbv zeta.
  apply settles_bind; [case_if; [apply settles_bind|]; auto with settles|]. intros q _. apply settles_bind.
  { case_if; [done|]. destruct (parse_content_type_total (drop (Z.to_nat q) text) [] ∅) as (? & ? & ? & _ & ->). done. }
  intros [[[ok ctype] ?] remains] _. case_if; [done|]. apply settles_bind; [auto with settles|]. intros r Hr%after_new_line_in.
  destruct (extra !! str "boundary") as [boundary|]; [|done]. pose proof (dashed_length boundary).
  apply settles_bind; [apply delim_loop_settles; [lia|apply enough_start; lia]|]. intros d _.
  apply settles_bind; [auto with settles|]. intros e _. apply settles_bind; auto with settles.
Qed.
Lemma u32_nonneg n : 0 <= u32 n.
Proof. apply u32_range. Qed.

Lemma form_part_settles extra boundary p fields : settles (form_part env text extra boundary p fields).
Proof.
  unfold form_part. cbv zeta. apply settles_bind; [auto with settles|]. intros p1 H1. case_if; [done|].
  apply settles_bind; [auto with settles|]. intros dash _. apply settles_bind; [case_if; [done|apply settles_bind; auto with settles]|].
  intros dashes _. case_if; [done|]. apply settles_bind; [auto with settles|]. intros p2 H2%after_new_line_in. case_if; [done|].
  apply settles_bind; [apply parse_content_disposition_settles; lia|]. intros [first [type params]] _. case_if; [done|].
  apply settles_bind; [auto with settles|]. intros p3 _. destruct (params !! str "name"); [|done].
  apply settles_bind; [auto with settles|]. intros p4 _. destruct (params !! str "filename"); [|done].
  apply settles_bind; [apply parse_file_part_settles|]. auto with settles.
Qed.
(** A part is never empty. *)
Lemma disposition_nonneg p n r : parse_content_disposition text p = Ok (n, r) -> 0 <= n.
Proof.
  unfold parse_content_disposition. case_if; [by intros [= <- _]|]. intros (prefix & _ & H)%outcome_bind_inv. case_if_in H; [by injection H as <- _|].
  destruct (type_loop _) as [type rest]. apply outcome_bind_inv in H as ([q m] & _ & [= <- _]). case_if; [done|apply u32_nonneg].
Qed.
Lemma file_part_nonneg extra p name item n : parse_file_part env text extra p name = Ok (Some (item, n)) -> 0 <= n.
Proof.
  unfold parse_file_part. destruct (until _ _) as [ctype_header rest]. case_if; [done|]. cbv zeta. intros (q & _ & H)%outcome_bind_inv.
  apply outcome_bind_inv in H as ([[[ok ctype] ?] remains] & _ & H). case_if_in H; [done|]. apply outcome_bind_inv in H as (r & _ & H).
  destruct (extra !! str "boundary"); [|done]. apply outcome_bind_inv in H as (d & _ & H). apply outcome_bind_inv in H as (e & _ & H).
  apply outcome_bind_inv in H as (data & _ & [= _ <-]). apply u32_nonneg.
Qed.
Lemma form_part_moves extra boundary p fields fields' q : form_part env text extra boundary p fields = Ok (Some (fields', q)) -> p < q.
Proof.
  unfold form_part. cbv zeta. intros (p1 & H1%after_new_line_in & H)%outcome_bind_inv. case_if_in H; [done|].
  apply outcome_bind_inv in H as (dash & _ & H). apply outcome_bind_inv in H as (dashes & _ & H). case_if_in H; [done|].
  apply outcome_bind_inv in H as (p2 & H2%after_new_line_in & H). case_if_in H; [done|].
  apply outcome_bind_inv in H as ([first [type params]] & Hd%disposition_nonneg & H). case_if_in H; [done|].
  apply outcome_bind_inv in H as (p3 & H3%after_new_line_in & H). destruct (params !! str "name"); [|done].
  apply outcome_bind_inv in H as (p4 & H4%after_new_line_in & H). pose proof (dashed_length boundary).
  destruct (params !! str "filename").
  - apply outcome_bind_inv in H as ([[item n]|] & Hf & [= _ <-]). apply file_part_nonneg in Hf. lia.
  - unfold parse_text_part in H. injection H as _ <-. match goal with |- context [u32 ?x] => pose proof (u32_nonneg x) end. lia.
Qed.

Lemma form_loop_settles extra boundary fuel : forall p fields, enough fuel p -> settles (form_loop env text extra fuel boundary p fields).
Proof.
  induction fuel as [|fuel IH]; intros p fields H; [unfold enough in H; lia|]. cbn [form_loop].
  destruct (Z.leb_spec (body_end text) p); [done|]. apply settles_bind; [apply form_part_settles|].
  intros [[fields' q]|] Hq; [|done]. apply form_part_moves in Hq. apply settles_bind; [auto with settles|]. intros r Hr%after_new_line_in. cbv zeta.
  apply settles_bind; [case_if; auto with settles|]. intros finished _. case_if; [done|]. apply IH. eapply enough_next; [exact H|lia..].
Qed.
Lemma form_parse_settles extra : settles (form_parse env text extra).
Proof.
  unfold form_parse. case_if; [done|]. destruct (extra !! _) as [[|c b]|]; [done| |done].
  apply settles_bind; [by apply form_loop_settles, enough_start|auto with settles].
Qed.

(** ** Byte ranges *)
Lemma parse_content_range_settles p : settles (parse_content_range text p).
Proof.
  unfold parse_content_range. apply settles_bind; [case_if; auto with settles|]. intros named _. case_if; [done|]. cbv zeta.
  apply settles_bind; [auto with settles|]. intros c _. apply settles_bind; [auto with settles|]. intros q _.
  apply settles_bind; [case_if; auto with settles|]. intros unit _. case_if; [done|].
  apply settles_bind; [case_if; [apply settles_bind|]; auto with settles|]. intros r _.
  apply settles_bind; [auto with settles|]. intros s_from _. apply settles_bind; [auto with settles|]. intros s_to _. case_bool_decide; [done|].
  apply settles_bind; [auto with settles|]. intros s_sz _. case_bool_decide; [done|].
  repeat (apply settles_bind; [auto with settles|]; intros ? _). done.
Qed.
Lemma content_range_nonneg p from to len n : parse_content_range text p = Ok (Some (from, to, len, n)) -> 0 <= n.
Proof.
  unfold parse_content_range. intros (named & _ & H)%outcome_bind_inv. case_if_in H; [done|]. cbv zeta in H.
  do 2 apply outcome_bind_inv in H as (? & _ & H). apply outcome_bind_inv in H as (unit & _ & H). case_if_in H; [done|].
  do 3 apply outcome_bind_inv in H as (? & _ & H). case_if_in H; [done|]. apply outcome_bind_inv in H as (? & _ & H). case_if_in H; [done|].
  do 3 apply outcome_bind_inv in H as (? & _ & H). injection H as _ _ _ <-. apply u32_nonneg.
Qed.
Lemma dashes_loop_nonneg s : 0 <= dashes_loop s.
Proof. induction s as [|a s IH]; [done|]. cbn [dashes_loop]. destruct s as [|b s]; [done|]. case_if; lia. Qed.
Lemma line_end_after p : p <= line_end text p.
Proof. unfold line_end. case_if; [done|]. match goal with |- context [zlen ?x] => pose proof (zlen_nonneg x) end. lia. Qed.
Lemma find_dashes_after p : p <= find_dashes text p.
Proof. unfold find_dashes. case_if; [done|]. match goal with |- context [dashes_loop ?x] => pose proof (dashes_loop_nonneg x) end. lia. Qed.

Lemma range_part_settles boundary p : settles (range_part text boundary p).
Proof.
  unfold range_part. cbv zeta. apply settles_bind; [case_if; auto with settles|]. intros found _. case_if; [done|].
  apply settles_bind; [auto with settles|]. intros p1 _. apply settles_bind; [auto with settles|]. intros p2 _.
  apply settles_bind; [apply parse_content_range_settles|]. intros [[[[from to] len] n]|] _; [|done].
  apply settles_bind; [auto with settles|]. intros dend _. case_if; [done|]. apply settles_bind; [auto with settles|]. intros data _.
  apply settles_bind; auto with settles.
Qed.
Lemma range_part_moves boundary p chunk q : range_part text boundary p = Ok (Range chunk q) -> p < q.
Proof.
  unfold range_part. cbv zeta. intros (found & _ & H)%outcome_bind_inv. case_if_in H; [done|].
  apply outcome_bind_inv in H as (p1 & H1%after_new_line_in & H). apply outcome_bind_inv in H as (p2 & H2%after_new_line_in & H).
  apply outcome_bind_inv in H as ([[[[from to] len] n]|] & Hr & H); [|done]. apply content_range_nonneg in Hr.
  apply outcome_bind_inv in H as (dend & _ & H). case_if_in H; [done|]. apply outcome_bind_inv in H as (data & _ & H).
  apply outcome_bind_inv in H as (p3 & H3%after_new_line_in & [= _ <-]).
  pose proof (dashed_length boundary). pose proof (line_end_after p1). pose proof (find_dashes_after (p2 + n)). lia.
Qed.
Lemma ranges_loop_settles boundary fuel : forall p chunks, enough fuel p -> settles (ranges_loop text fuel boundary p chunks).
Proof.
  induction fuel as [|fuel IH]; intros p chunks H; [unfold enough in H; lia|]. cbn [ranges_loop].
  destruct (Z.leb_spec (body_end text) p); [done|]. apply settles_bind; [apply range_part_settles|].
  intros [| |chunk q] Hq; [done..|]. apply range_part_moves in Hq. cbv zeta.
  apply settles_bind; [case_if; auto with settles|]. intros finished _. case_if; [done|]. apply IH. by eapply enough_next.
Qed.
Lemma ranges_parse_settles extra : settles (ranges_parse text extra).
Proof.
  unfold ranges_parse. case_if; [done|]. destruct (extra !! _) as [b|]; [|done].
  apply settles_bind; [by apply ranges_loop_settles, enough_start|auto with settles].
Qed.
End Text.

(** * Forms that are well formed
    What a client writes: each part a delimiter, its disposition, and a value or a file. *)
Inductive part : Type :=
| TextPart (name value : bytes)
| FilePart (name filename ctype data : bytes).
Definition quoted (s : bytes) : bytes := 34 :: s ++ [34].
Definition disposition (q : part) : bytes :=
  str "Content-Disposition: form-data; name=" ++
  match q with TextPart name _ => quoted name | FilePart name filename _ _ => quoted name ++ str "; filename=" ++ quoted filename end.
Definition part_body (q : part) : bytes :=
  match q with
  | TextPart _ value => [13; 10] ++ value
  | FilePart _ _ ctype data => str "Content-Type: " ++ ctype ++ [13; 10; 13; 10] ++ data
  end.
Definition part_text (b : bytes) (q : part) : bytes :=
  (str "--" ++ b) ++ [13; 10] ++ disposition q ++ [13; 10] ++ part_body q ++ [13; 10].
Definition form_text (b : bytes) (qs : list part) : bytes := concat (map (part_text b) qs) ++ str "--" ++ b ++ str "--".

(** A word has no upper case, which the parser folds, and nothing that ends it; a file does
    not contain the delimiter. *)
Definition word_char (c : Z) : Prop := Headers.ascii_lower c = c /\ c <> 32 /\ c <> 34 /\ c <> 61 /\ c <> 58 /\ c <> 59 /\ c <> 13.
Definition word (s : bytes) : Prop := s <> [] /\ Forall word_char s.
Definition boundary_ok (b : bytes) : Prop := b <> [] /\ Forall (fun c => Headers.ascii_lower c = c /\ c <> 0) b.
Definition part_ok (b : bytes) (q : part) : Prop :=
  match q with
  | TextPart name value => word name /\ Forall (fun c => c <> 13 /\ c <> 10) value
  | FilePart name filename ctype data =>
      word name /\ word filename /\ ctype <> [] /\ lower_trimmed ctype = ctype /\ Forall (fun c => c <> 59 /\ c <> 13) ctype /\
      forall i, (i < length data + 2)%nat ->
        str_cmp (take (length (str "--" ++ b)) (drop i (data ++ [13; 10] ++ str "--" ++ b))) (str "--" ++ b) = false
  end.

(** The fields that the parts come to. An empty value is not stored. *)
Definition saved_item (env : Env) (filename ctype data : bytes) : FormDataItem :=
  let tmp_path := gen_tmp_filename (upload_stamp env) filename in
  FormDataFileItem filename ctype
    (if form_data_upload_save env && negb (bool_decide (data = [])) && upload_opens env tmp_path then inr tmp_path else inl data).
Definition add_part (env : Env) (fields : gmap bytes FormDataItem) (q : part) : gmap bytes FormDataItem :=
  match q with
  | TextPart name value => if bool_decide (value = []) then fields else <[name := FormDataStringItem value]> fields
  | FilePart name filename ctype data => <[name := saved_item env filename ctype data]> fields
  end.
Definition form_fields (env : Env) (qs : list part) : gmap bytes FormDataItem := foldl (add_part env) ∅ qs.

Lemma str_cmp_app x s t : Forall (fun c => Headers.ascii_lower c = c /\ c <> 0) x -> str_cmp (x ++ s) (x ++ t) = str_cmp s t.
Proof.
  induction 1 as [|c x [Hc H0] _ IH]; [done|]. cbn [app str_cmp]. rewrite Hc, Z.eqb_refl, IH. by case_if; [lia|].
Qed.
Lemma delim_chars b : boundary_ok b -> Forall (fun c => Headers.ascii_lower c = c /\ c <> 0) (str "--" ++ b).
Proof. intros [_ Hb]. apply Forall_app. split; [by repeat constructor|done]. Qed.

Lemma identifier_word s rest c : Forall word_char s -> (c = 61 \/ c = 58 \/ c = 59 \/ c = 13) ->
  identifier_loop (s ++ c :: rest) false = s.
Proof.
  intros Hs Hc. induction Hs as [|a s (Ha & H) _ IH]; cbn [app identifier_loop].
  - assert ((c =? 32) = false /\ (c =? 34) = false /\ (c =? 61) || (c =? 58) || (c =? 59) || (c =? 13) = true) as (-> & -> & ->) by lia. done.
  - assert ((a =? 32) = false /\ (a =? 34) = false /\ (a =? 61) || (a =? 58) || (a =? 59) || (a =? 13) = false) as (-> & -> & ->) by lia.
    by rewrite Ha, IH.
Qed.
Lemma identifier_spaced s : identifier_loop (32 :: s) false = identifier_loop s false.
Proof. done. Qed.
Lemma identifier_inside s rest : Forall word_char s -> identifier_loop (s ++ 34 :: rest) true = s.
Proof.
  induction 1 as [|a s (Ha & H) _ IH]; cbn [app identifier_loop]; [done|].
  assert ((a =? 32) = false /\ (a =? 34) = false /\ (a =? 61) || (a =? 58) || (a =? 59) || (a =? 13) = false) as (-> & -> & ->) by lia.
  by rewrite Ha, IH.
Qed.
Lemma identifier_quoted s rest : Forall word_char s -> identifier_loop (quoted s ++ rest) false = s.
Proof. intros Hs. unfold quoted. cbn [app]. rewrite <- app_assoc. cbn [identifier_loop]. by apply identifier_inside. Qed.

Section Forms.
Variable env : Env.
Variable text : bytes.
Hypothesis Hsize : zlen text < 4294967296.

(** The text from a position on. *)
Definition from (p : Z) (s : bytes) : Prop := exists pre, text = pre ++ s /\ p = zlen pre.
Lemma from_start : from 0 text.
Proof. by exists []. Qed.
Lemma from_move p q x s : from p (x ++ s) -> q = p + zlen x -> from q s.
Proof. intros (pre & -> & ->) ->. exists (pre ++ x). rewrite <- app_assoc, zlen_app. done. Qed.
Lemma from_end p s : from p s -> 0 <= p /\ body_end text = p + zlen s.
Proof. intros (pre & -> & ->). unfold body_end. rewrite zlen_app. split; [apply zlen_nonneg|done]. Qed.
Lemma from_drop p s : from p s -> drop (Z.to_nat p) text = s.
Proof. intros (pre & -> & ->). unfold zlen. by rewrite Nat2Z.id, drop_app_length. Qed.
Lemma from_rd p c s : from p (c :: s) -> rd text p = Ok c.
Proof.
  intros (pre & -> & ->). unfold rd, zlen. assert ((Z.of_nat (length pre) <? 0) = false) as -> by lia.
  by rewrite Nat2Z.id, list_lookup_middle by done.
Qed.
Lemma from_range p x s : from p (x ++ s) -> rd_range text p (zlen x) = Ok x.
Proof.
  intros H. pose proof (from_drop p _ H) as Hd. destruct (from_end p _ H) as [Hp He]. unfold rd_range, body_end in *. rewrite zlen_app in He.
  pose proof (zlen_nonneg x). pose proof (zlen_nonneg s).
  assert ((p <? 0) || (zlen x <? 0) || (zlen text <? p + zlen x) = false) as -> by lia.
  rewrite Hd. unfold zlen. by rewrite Nat2Z.id, take_app_length.
Qed.
Lemma from_cmp p n x s d : from p (x ++ s) -> n = zlen x -> cmp_at text p n d = Ok (str_cmp x d).
Proof. intros H ->. unfold cmp_at. rewrite (from_range p x s H). by mstep. Qed.
Lemma from_line p d s : from p (13 :: d :: s) -> after_new_line text p = Ok (p + 2).
Proof. intros H. unfold after_new_line, skip_new_line. rewrite (from_rd _ _ _ H). by mstep. Qed.
Lemma from_no_line p c s : from p (c :: s) -> c <> 13 -> c <> 10 -> after_new_line text p = Ok p.
Proof.
  intros H H1 H2. unfold after_new_line, skip_new_line. rewrite (from_rd _ _ _ H). mstep.
  assert ((c =? 13) = false /\ (c =? 10) = false) as [-> ->] by lia. f_equal. lia.
Qed.

(** ** The disposition *)
Lemma read_at p s : from p s -> read_identifier text p = Ok (identifier_loop s false).
Proof.
  intros H. unfold read_identifier. destruct (from_end p s H) as [_ ->]. pose proof (zlen_nonneg s).
  assert ((p + zlen s <? p) = false) as -> by lia. by rewrite (from_drop p s H).
Qed.

Lemma param_step p q key val c rest m fuel : from p (32 :: key ++ 61 :: quoted val ++ c :: rest) -> word key -> word val ->
  q = p + (zlen key + 2) + (zlen val + 2) ->
  from q (c :: rest) /\ params_loop text (S fuel) p m =
    (if c =? 59 then params_loop text fuel (q + 1) (<[key := val]> m) else Ok (q, <[key := val]> m)).
Proof.
  intros H [Hk Hkc] [Hv Hvc] Hq.
  assert (from (p + (zlen key + 2)) (quoted val ++ c :: rest)) as H2.
  { apply (from_move p _ (32 :: key ++ [61]) _); [cbn [app]; rewrite <- app_assoc; exact H|]. rewrite zlen_cons, zlen_app. change (zlen [61]) with 1. lia. }
  assert (from q (c :: rest)) as H3.
  { apply (from_move _ _ (quoted val) _ H2). unfold quoted. rewrite zlen_cons, zlen_app. change (zlen [34]) with 1. lia. }
  split; [done|]. cbn [params_loop]. destruct (from_end _ _ H) as [Hp He].
  rewrite (read_at p _ H), identifier_spaced, identifier_word by auto. rewrite zlen_cons in He. match type of He with context [zlen ?x] => pose proof (zlen_nonneg x) end.
  assert ((body_end text <=? p) = false) as -> by lia. mstep. rewrite bool_decide_eq_false_2 by done. cbv zeta.
  rewrite (read_at _ _ H2), identifier_quoted by done. mstep. rewrite bool_decide_eq_false_2 by done. rewrite <- Hq.
  destruct (from_end _ _ H3) as [_ He3]. rewrite zlen_cons in He3. pose proof (zlen_nonneg rest).
  assert ((q <? body_end text) = true) as -> by lia. rewrite (from_rd _ _ _ H3). by mstep.
Qed.

Definition params_of (q : part) : gmap bytes bytes :=
  match q with
  | TextPart name _ => <[str "name" := name]> ∅
  | FilePart name filename _ _ => <[str "filename" := filename]> (<[str "name" := name]> ∅)
  end.
Definition named (q : part) : Prop :=
  match q with TextPart name _ => word name | FilePart name filename _ _ => word name /\ word filename end.

Lemma word_name : word (str "name").
Proof. split; [done|]. repeat constructor; done. Qed.
Lemma word_filename : word (str "filename").
Proof. split; [done|]. repeat constructor; done. Qed.

(** The parameters as they are written. *)
Definition params_text (q : part) : bytes :=
  match q with
  | TextPart name _ => 32 :: str "name" ++ 61 :: quoted name
  | FilePart name filename _ _ => 32 :: str "name" ++ 61 :: quoted name ++ 59 :: 32 :: str "filename" ++ 61 :: quoted filename
  end.
Lemma disposition_params q : disposition q = str "Content-Disposition:" ++ str " form-data;" ++ params_text q.
Proof. by destruct q. Qed.

Lemma params_read p q rest fuel : from p (params_text q ++ 13 :: rest) -> named q ->
  params_loop text (S (S fuel)) p ∅ = Ok (p + zlen (params_text q), params_of q).
Proof.
  intros H Hq. destruct q as [name value|name filename ctype data]; cbn [named params_of params_text] in *.
  - cbn [app] in H. rewrite <- app_assoc in H. cbn [app] in H.
    destruct (param_step p _ (str "name") name 13 rest ∅ (S fuel) H word_name Hq eq_refl) as [_ ->]. change (13 =? 59) with false. cbv iota.
    do 2 f_equal. unfold quoted. rewrite !zlen_cons, zlen_app, !zlen_cons, zlen_app. change (zlen [34]) with 1. lia.
  - destruct Hq as [Hn Hf]. cbn [app] in H. rewrite <- app_assoc in H. cbn [app] in H. rewrite <- app_assoc in H. cbn [app] in H. rewrite <- app_assoc in H. cbn [app] in H.
    destruct (param_step p _ (str "name") name 59 _ ∅ (S fuel) H word_name Hn eq_refl) as [H2 ->]. change (59 =? 59) with true. cbv iota.
    pose proof (from_move _ _ [59] _ H2 eq_refl) as H3. change (zlen [59]) with 1 in H3.
    destruct (param_step _ _ (str "filename") filename 13 rest (<[str "name" := name]> ∅) fuel H3 word_filename Hf eq_refl) as [_ ->].
    change (13 =? 59) with false. cbv iota. do 2 f_equal. unfold quoted. change (zlen [59]) with 1.
    repeat (rewrite zlen_cons || rewrite zlen_app). change (zlen []) with 0. lia.
Qed.

Lemma disposition_read p q rest : from p (disposition q ++ 13 :: rest) -> named q ->
  parse_content_disposition text p = Ok (zlen (disposition q), (str "form-data", params_of q)).
Proof.
  intros H Hq. destruct (from_end _ _ H) as [Hp He]. rewrite zlen_app, zlen_cons in He. pose proof (zlen_nonneg rest).
  rewrite disposition_params in H, He |- *. rewrite <- !app_assoc in H.
  pose proof (from_move _ _ _ _ H eq_refl) as H1. pose proof (from_move _ _ _ _ H1 eq_refl) as H2. pose proof (zlen_nonneg (params_text q)).
  change (zlen (str "Content-Disposition:")) with 20 in *. change (zlen (str " form-data;")) with 11 in *.
  rewrite zlen_app in He |- *. rewrite zlen_app in He |- *. change (zlen (str "Content-Disposition:")) with 20 in *. change (zlen (str " form-data;")) with 11 in *.
  unfold parse_content_disposition. assert ((body_end text - p <? 20) = false) as -> by lia.
  rewrite (from_cmp p 20 _ _ _ H) by done. mstep.
  replace (str_cmp _ _) with true by done. cbn [negb]. rewrite (from_drop _ _ H1).
  change (type_loop (str " form-data;" ++ ?x)) with (str "form-data", x). cbv iota beta.
  destruct (from_end _ _ H2) as [_ He2]. rewrite zlen_app, zlen_cons in He2.
  assert (body_end text - zlen (params_text q ++ 13 :: rest) = p + 20 + 11) as -> by (rewrite zlen_app, zlen_cons; lia).
  destruct (length text) as [|fuel] eqn:El.
  { unfold body_end, zlen in He. lia. }
  rewrite (params_read _ q rest fuel H2 Hq). mstep.
  rewrite bool_decide_eq_false_2 by (destruct q; apply insert_non_empty).
  do 2 f_equal. rewrite u32_id; [lia|]. unfold is_u32. unfold body_end in He. lia.
Qed.

(** ** The parts *)
Variable extra : gmap bytes bytes.
Variable b : bytes.
Hypothesis Hextra : extra !! str "boundary" = Some b.
Hypothesis Hb : boundary_ok b.
Definition part_name (q : part) : bytes := match q with TextPart name _ | FilePart name _ _ _ => name end.
Lemma part_ok_named q : part_ok b q -> named q.
Proof. destruct q; cbn; tauto. Qed.
Lemma params_name q : params_of q !! str "name" = Some (part_name q).
Proof. destruct q; cbn [params_of part_name]; [apply lookup_insert_eq|]. rewrite lookup_insert_ne by done. apply lookup_insert_eq. Qed.
Lemma disposition_front q : exists s, disposition q = 67 :: s /\ 0 < zlen (disposition q).
Proof. rewrite disposition_params. eexists. split; [done|]. pose proof (zlen_nonneg (params_text q)). rewrite !zlen_app. change (zlen (str "Content-Disposition:")) with 20. change (zlen (str " form-data;")) with 11. lia. Qed.

Lemma part_head p q rest fields : from p (part_text b q ++ rest) -> named q ->
  exists p1, from p1 (part_body q ++ [13; 10] ++ rest) /\
    form_part env text extra b p fields =
      (pos ← after_new_line text p1;
       match params_of q !! str "filename" with
       | None =>
           let '(consumed, value) := parse_text_part text pos in
           Ok (Some (if bool_decide (value = []) then fields else <[part_name q := FormDataStringItem value]> fields, pos + consumed))
       | Some filename =>
           r ← parse_file_part env text extra pos filename;
           Ok (option_map (fun '(item, n) => (<[part_name q := item]> fields, pos + n)) r)
       end).
Proof.
  intros H Hq. unfold part_text in H. repeat rewrite <- app_assoc in H.
  pose proof H as H0. rewrite app_assoc in H0. pose proof (from_move _ _ _ _ H0 eq_refl) as H1. cbn [app] in H1.
  pose proof (from_move _ (p + zlen (str "--" ++ b) + 2) [13; 10] _ H1 eq_refl) as H2.
  pose proof (from_move _ _ _ _ H2 eq_refl) as H3. cbn [app] in H3.
  pose proof (from_move _ (p + zlen (str "--" ++ b) + 2 + zlen (disposition q) + 2) [13; 10] _ H3 eq_refl) as H4.
  eexists. split; [exact H4|]. unfold form_part.
  destruct (from_end _ _ H1) as [_ He]. destruct (from_end _ _ H2) as [_ He2]. rewrite zlen_cons in He. 
  match type of He with context [zlen ?x] => pose proof (zlen_nonneg x) end.
  match type of He2 with _ = _ + zlen ?x => pose proof (zlen_nonneg x) end.
  change (str "--" ++ ?x) with (45 :: 45 :: x) in H. cbn [app] in H. rewrite (from_no_line _ _ _ H) by done. mstep.
  assert ((body_end text - p <? zlen (str "--" ++ b)) = false) as -> by lia.
  rewrite (from_rd _ _ _ H). mstep. change (negb (45 =? 45)) with false. cbv iota.
  rewrite (from_rd _ _ _ (from_move _ (p + 1) [45] _ H eq_refl)). mstep. change (negb (45 =? 45)) with false. cbv iota.
  rewrite (from_line _ _ _ H1). mstep. assert ((body_end text <? p + zlen (str "--" ++ b) + 2) = false) as -> by lia.
  rewrite (disposition_read _ q _ H2 Hq). mstep. destruct (disposition_front q) as (s & _ & Hpos).
  assert ((zlen (disposition q) =? 0) = false) as -> by lia. rewrite (from_line _ _ _ H3). mstep. by rewrite params_name.
Qed.
Lemma until_at stop s c rest : Forall (fun a => stop a = false) s -> stop c = true -> until stop (s ++ c :: rest) = (s, c :: rest).
Proof. intros Hs Hc. induction Hs as [|a s Ha _ IH]; cbn [app until]; [by rewrite Hc|]. by rewrite Ha, IH. Qed.

Lemma text_part p value rest : from p (value ++ 13 :: rest) -> Forall (fun c => c <> 13 /\ c <> 10) value ->
  parse_text_part text p = (zlen value, value).
Proof.
  intros H Hv. unfold parse_text_part. destruct (from_end _ _ H) as [Hp He]. rewrite zlen_app, zlen_cons in He.
  pose proof (zlen_nonneg value). pose proof (zlen_nonneg rest). assert ((body_end text <=? p) = false) as -> by lia.
  rewrite (from_drop _ _ H), until_at; [|eapply Forall_impl; [exact Hv|]; cbn; lia|done]. cbn [fst].
  rewrite u32_id; [done|]. unfold is_u32, body_end in *. lia.
Qed.

Lemma delim_found d x : Forall (fun c => Headers.ascii_lower c = c /\ c <> 0) d -> forall p fuel rest, from p (x ++ d ++ rest) ->
  (forall i, (i < length x)%nat -> str_cmp (take (length d) (drop i (x ++ d))) d = false) -> (length x < fuel)%nat ->
  delim_loop text fuel d p = Ok (p + zlen x).
Proof.
  intros Hd. induction x as [|c x IH]; intros p fuel rest H Hx Hf; destruct fuel as [|fuel]; cbn [length] in Hf; [lia| |lia|]; cbn [delim_loop];
    destruct (from_end _ _ H) as [Hp He]; rewrite !zlen_app in He; pose proof (zlen_nonneg rest).
  - change (zlen []) with 0 in *. assert ((p <=? body_end text - zlen d) = true) as -> by lia. cbn [app] in H.
    rewrite (from_cmp _ _ _ _ _ H eq_refl). mstep. rewrite <- (app_nil_r d), str_cmp_app by done. cbn [str_cmp]. f_equal. lia.
  - rewrite zlen_cons in He |- *. pose proof (zlen_nonneg x). assert ((p <=? body_end text - zlen d) = true) as -> by lia.
    assert (from p (take (length d) (c :: x ++ d) ++ (drop (length d) (c :: x ++ d)) ++ rest)) as Ht.
    { rewrite app_assoc, take_drop. cbn [app] in *. by rewrite <- app_assoc. }
    rewrite (from_cmp _ (zlen d) _ _ _ Ht) by (unfold zlen; rewrite length_take; cbn [length]; rewrite length_app; lia). mstep.
    pose proof (Hx 0%nat) as Hx0. cbn [drop length app] in Hx0. rewrite Hx0 by lia.
    rewrite (IH (p + 1) fuel rest); [f_equal; lia| | |lia].
    + by apply (from_move p _ [c] _ H).
    + intros i Hi. apply (Hx (S i)). cbn [length]. lia.
Qed.

Lemma new_line_stripped p data rest : from p (data ++ [13; 10] ++ rest) -> strip_new_line text p (p + zlen data + 2) = Ok (p + zlen data).
Proof.
  intros H. unfold strip_new_line. cbv zeta. pose proof (zlen_nonneg data). assert ((p + 1 <? p + zlen data + 2) = true) as -> by lia.
  pose proof (from_move _ _ _ _ H eq_refl) as H1. cbn [app] in H1.
  rewrite (from_rd (p + zlen data + 2 - 1) 10 rest) by (apply (from_move _ _ [13] _ H1); change (zlen [13]) with 1; lia). mstep.
  change (10 =? 10) with true. cbv iota. assert ((p <? p + zlen data + 2 - 1) = true) as -> by lia.
  rewrite (from_rd (p + zlen data + 2 - 1 - 1) 13 (10 :: rest)) by (replace (p + zlen data + 2 - 1 - 1) with (p + zlen data) by lia; done).
  mstep. change (13 =? 13) with true. cbv iota. f_equal. lia.
Qed.

Lemma type_read ctype rest : ctype <> [] -> lower_trimmed ctype = ctype -> Forall (fun c => c <> 59 /\ c <> 13) ctype ->
  parse_content_type (ctype ++ 13 :: 10 :: rest) [] ∅ = Ok (true, ctype, ∅, rest).
Proof.
  intros Hc Hl Hn. unfold parse_content_type. rewrite until_at; [|eapply Forall_impl; [exact Hn|]; cbn; lia|done].
  destruct ctype as [|c s]; [done|]. cbn [app]. change (negb (13 =? 59)) with true. cbv iota zeta. cbn [app]. by rewrite Hl.
Qed.
Lemma file_part p filename ctype data rest :
  from p (str "Content-Type: " ++ ctype ++ [13; 10; 13; 10] ++ data ++ [13; 10] ++ (str "--" ++ b) ++ rest) ->
  ctype <> [] -> lower_trimmed ctype = ctype -> Forall (fun c => c <> 59 /\ c <> 13) ctype ->
  (forall i, (i < length data + 2)%nat ->
     str_cmp (take (length (str "--" ++ b)) (drop i (data ++ [13; 10] ++ str "--" ++ b))) (str "--" ++ b) = false) ->
  exists p1, from p1 ((str "--" ++ b) ++ rest) /\
    parse_file_part env text extra p filename = Ok (Some (saved_item env filename ctype data, p1 - p)).
Proof.
  intros H Hc Hl Hn Hd. destruct (from_end _ _ H) as [Hp He].
  pose proof (from_move _ (p + 14) _ _ H eq_refl) as H1. change ([13; 10; 13; 10] ++ ?x) with (13 :: 10 :: 13 :: 10 :: x) in H1.
  pose proof (from_move _ _ _ _ H1 eq_refl) as H2. pose proof (from_move _ (p + 14 + zlen ctype + 4) [13; 10; 13; 10] _ H2 eq_refl) as H4.
  pose proof (from_move _ (p + 14 + zlen ctype + 2) [13; 10] _ H2 eq_refl) as H3. pose proof (from_move _ _ _ _ H4 eq_refl) as H5.
  pose proof (zlen_nonneg ctype). pose proof (zlen_nonneg data). destruct (from_end _ _ H1) as [_ He1]. destruct (from_end _ _ H3) as [_ He3].
  destruct (from_end _ _ H5) as [_ He5]. rewrite !zlen_app in He5. change (zlen [13; 10]) with 2 in He5. change (zlen (str "--")) with 2 in He5. pose proof (zlen_nonneg rest). pose proof (zlen_nonneg b).
  eexists. split; [exact (from_move _ (p + 14 + zlen ctype + 4 + zlen data + 2) [13; 10] _ H5 eq_refl)|]. unfold parse_file_part. assert ((body_end text <=? p) = false) as -> by lia.
  rewrite (from_drop _ _ H). change (until ?f (str "Content-Type: " ++ ?x)) with (str "Content-Type", 58 :: 32 :: x). cbv iota beta.
  rewrite bool_decide_eq_true_2 by done. cbn [negb]. change (zlen (str "Content-Type")) with 12. cbv zeta.
  assert ((p + 12 + 1 <? body_end text) = true) as -> by lia.
  rewrite (from_rd (p + 12 + 1) 32 _) by (apply (from_move p _ (str "Content-Type:") _ H); match goal with |- _ = _ + ?z => change z with 13 end; lia).
  mstep. change (32 =? 32) with true. cbv iota. replace (p + 12 + 1 + 1) with (p + 14) by lia.
  assert ((body_end text <? p + 14) = false) as -> by lia. rewrite (from_drop _ _ H1), type_read by done. mstep.
  rewrite bool_decide_eq_false_2 by done. cbn [negb orb]. replace (body_end text - zlen _) with (p + 14 + zlen ctype + 2) by (rewrite He3; lia).
  rewrite (from_line _ _ _ H3). mstep. rewrite Hextra. replace (p + 14 + zlen ctype + 2 + 2) with (p + 14 + zlen ctype + 4) by lia.
  rewrite (delim_found _ (data ++ [13; 10]) (delim_chars b Hb) _ _ rest).
  - rewrite zlen_app. change (zlen [13; 10]) with 2. mstep. rewrite Z.add_assoc, (new_line_stripped _ _ _ H4). mstep.
    replace (_ + zlen data - _) with (zlen data) by lia. rewrite (from_range _ _ _ H4). mstep. unfold saved_item.
    assert ((p + 14 + zlen ctype + 4 <? p + 14 + zlen ctype + 4 + zlen data) = negb (bool_decide (data = []))) as ->.
    { case_bool_decide as E; [by rewrite E, Z.add_0_r, Z.ltb_irrefl|]. destruct data as [|c data]; [done|]. rewrite zlen_cons. pose proof (zlen_nonneg data). cbn [negb]. lia. }
    do 3 f_equal. rewrite u32_id; [lia|]. unfold is_u32, body_end in *. lia.
  - by rewrite <- app_assoc.
  - intros i Hi. rewrite length_app in Hi. rewrite <- app_assoc. by apply Hd.
  - unfold body_end, zlen in *. rewrite length_app. cbn [length]. lia.
Qed.

Lemma part_step p q rest fields : part_ok b q -> from p (part_text b q ++ (str "--" ++ b) ++ rest) ->
  exists p1 p2, form_part env text extra b p fields = Ok (Some (add_part env fields q, p1)) /\
    after_new_line text p1 = Ok p2 /\ from p2 ((str "--" ++ b) ++ rest).
Proof.
  intros Hq H. destruct (part_head _ _ _ fields H (part_ok_named _ Hq)) as (p1 & H1 & E). rewrite E. clear E.
  destruct q as [name value|name filename ctype data]; cbn [part_body params_of part_name add_part part_ok] in *; repeat rewrite <- app_assoc in H1.
  - destruct Hq as [_ Hv]. pose proof (from_move _ (p1 + 2) [13; 10] _ H1 eq_refl) as H2. cbn [app] in H1. rewrite (from_line _ _ _ H1). mstep.
    rewrite (lookup_insert_ne _ (str "name") (str "filename")), lookup_empty by done. rewrite (text_part _ _ _ H2 Hv).
    pose proof (from_move _ _ _ _ H2 eq_refl) as H3. eexists _, _. split_and!; [done|by apply (from_line _ _ _ H3)|].
    by apply (from_move _ _ [13; 10] _ H3).
  - destruct Hq as (_ & _ & Hc & Hl & Hn & Hd). change (str "Content-Type: " ++ ?x) with (67 :: (str "ontent-Type: " ++ x)) in H1.
    rewrite (from_no_line _ _ _ H1) by done. mstep. rewrite lookup_insert_eq.
    destruct (file_part p1 filename ctype data rest) as (p2 & H2 & ->); [done..|]. mstep. cbn [option_map].
    exists p2, p2. split_and!; [by rewrite Zplus_minus| |done]. by apply (from_no_line _ _ _ H2).
Qed.
(** ** The form *)
Definition parts_text (qs : list part) (tail : bytes) : bytes := concat (map (part_text b) qs) ++ (str "--" ++ b) ++ str "--" ++ tail.
Lemma parts_text_cons q qs tail : parts_text (q :: qs) tail = part_text b q ++ parts_text qs tail.
Proof. unfold parts_text. cbn [map concat]. by rewrite <- app_assoc. Qed.
Lemma parts_text_front qs tail : exists rest, parts_text qs tail = (str "--" ++ b) ++ rest /\
  match qs with [] => rest = str "--" ++ tail | _ :: _ => exists s, rest = 13 :: 10 :: s end.
Proof.
  destruct qs as [|q qs]; [by exists (str "--" ++ tail)|]. rewrite parts_text_cons. unfold part_text. repeat rewrite <- (app_assoc (str "--" ++ b)).
  eexists. split; [done|]. cbn [app]. by eexists.
Qed.

Lemma end_at p qs tail : from p (parts_text qs tail) ->
  (if zlen (str "--" ++ b ++ str "--") <=? body_end text - p then cmp_at text p (zlen (str "--" ++ b ++ str "--")) (str "--" ++ b ++ str "--")
   else Ok false) = Ok (bool_decide (qs = [])).
Proof.
  intros H. destruct (parts_text_front qs tail) as (rest & E & Hr). rewrite E in H. destruct (from_end _ _ H) as [_ He].
  assert (str "--" ++ b ++ str "--" = (str "--" ++ b) ++ str "--") as -> by by rewrite app_assoc.
  assert (exists x y, rest = x ++ y /\ zlen x = 2 /\ str_cmp x (str "--") = bool_decide (qs = [])) as (x & y & -> & Hx & Hc).
  { destruct qs; [by exists (str "--"), tail|]. destruct Hr as [s ->]. by exists [13; 10], s. }
  rewrite !zlen_app in *. pose proof (zlen_nonneg y). change (zlen (str "--")) with 2 in *. assert ((2 + zlen b + 2 <=? body_end text - p) = true) as -> by lia.
  rewrite (app_assoc (str "--" ++ b)) in H. rewrite (from_cmp _ _ _ _ _ H) by (rewrite !zlen_app; change (zlen (str "--")) with 2; lia).
  by rewrite str_cmp_app, Hc by apply delim_chars, Hb.
Qed.

Lemma from_before p q s : from p (part_text b q ++ s) -> (body_end text <=? p) = false.
Proof.
  intros H. destruct (from_end _ _ H) as [_ He]. change (part_text b q ++ s) with (45 :: 45 :: (b ++ [13; 10] ++ disposition q ++ [13; 10] ++ part_body q ++ [13; 10]) ++ s) in He.
  rewrite !zlen_cons in He. match type of He with context [zlen ?x] => pose proof (zlen_nonneg x) end. lia.
Qed.
Lemma form_loop_run tail : forall qs q p fields fuel, Forall (part_ok b) (q :: qs) -> from p (parts_text (q :: qs) tail) ->
  (length qs < fuel)%nat -> form_loop env text extra fuel b p fields = Ok (foldl (add_part env) fields (q :: qs)).
Proof.
  induction qs as [|q' qs IH]; intros q p fields fuel Hqs H Hf; (destruct fuel as [|fuel]; [lia|]); cbn [length] in Hf; cbn [form_loop];
    apply Forall_cons in Hqs as [Hq Hqs]; rewrite parts_text_cons in H; rewrite (from_before _ _ _ H).
  - destruct (parts_text_front [] tail) as (rest & E & _). pose proof H as Hp. rewrite E in Hp.
    destruct (part_step p q rest fields Hq Hp) as (p1 & p2 & -> & Hn & H2). rewrite <- E in H2. mstep. rewrite Hn. mstep.
    by rewrite (end_at _ _ _ H2).
  - destruct (parts_text_front (q' :: qs) tail) as (rest & E & _). pose proof H as Hp. rewrite E in Hp.
    destruct (part_step p q rest fields Hq Hp) as (p1 & p2 & -> & Hn & H2). rewrite <- E in H2. mstep. rewrite Hn. mstep.
    rewrite (end_at _ _ _ H2). mstep. rewrite bool_decide_eq_false_2 by done. apply IH; [done..|lia].
Qed.

Lemma parts_text_length qs tail : (length qs < length (parts_text qs tail))%nat.
Proof.
  induction qs as [|q qs IH]; [unfold parts_text; cbn; lia|]. rewrite parts_text_cons, length_app. cbn [length]. unfold part_text.
  rewrite !length_app. cbn [length]. lia.
Qed.

(** A form that is well formed is read as its parts. *)
Lemma form_read qs tail : text = form_text b qs ++ tail -> qs <> [] -> Forall (part_ok b) qs ->
  form_parse env text extra = Ok (Some (FormDataContent (form_fields env qs))).
Proof.
  intros Ht Hq Hqs. destruct qs as [|q qs]; [done|].
  assert (text = parts_text (q :: qs) tail) as E.
  { rewrite Ht. unfold form_text, parts_text. by repeat rewrite <- app_assoc. }
  assert (from 0 (parts_text (q :: qs) tail)) as H0 by (rewrite <- E; apply from_start).
  unfold form_parse. rewrite parts_text_cons in H0. rewrite (from_before _ _ _ H0), Hextra. rewrite <- parts_text_cons in H0.
  assert (length qs < S (length text))%nat as Hl.
  { pose proof (parts_text_length (q :: qs) tail) as Hl. rewrite <- E in Hl. cbn [length] in Hl. lia. }
  rewrite (form_loop_run tail qs q 0 ∅ _ Hqs H0 Hl). mstep. destruct Hb as [Hne _]. by destruct b.
Qed.
End Forms.
