(* ===== verification/Http1BodyFacts.v ===== *)
(** The bodies of HTTP/1 requests: what the decoder of chunked bodies makes of a body, and
    that a connection never faults, whatever it reads. *)
From stdpp Require Import gmap.
From S2P Require Import Prelude Strings ByteBuffer ByteBufferFacts Http1 Http1Facts Http1MultipartFacts.
Import Http1.

(** * Chunked bodies *)
Section Chunks.
Variable env : Env.
Import Chunked.

(** A chunk: the digits of its size as they were written, and its data. *)
Definition chunk : Type := bytes * bytes.
Definition chunk_ok (k : chunk) : Prop :=
  Forall (fun c => isxdigit c = true) (fst k) /\ zlen (fst k) <= max_size_buf_length_ /\
  hex_number (fst k) = Some (zlen (snd k)) /\ snd k <> [] /\ zlen (snd k) <= max_chunk_size_.
(** The text of the chunks, of the last chunk and of an empty trailer. *)
Definition digits (ks : list chunk) : bytes := match ks with [] => str "0" | k :: _ => fst k end.
Fixpoint chunks_text (ks : list chunk) : bytes :=
  digits ks ++ 13 :: 10 :: match ks with [] => [13; 10] | k :: ks => snd k ++ 13 :: 10 :: chunks_text ks end.
Definition after_size (ks : list chunk) : bytes :=
  match ks with [] => [13; 10] | k :: ks => snd k ++ 13 :: 10 :: chunks_text ks end.
Definition chunks_data (ks : list chunk) : bytes := concat (map snd ks).

(** What is still to come when a body of chunks is decoded in memory: the decoder expects [s],
    and has the data [D] after it. *)
Definition expects (c : t) (s D : bytes) : Prop :=
  total_bytes_ c = zlen (mem_buffer_ c) /\ file_stream_ c = None /\ trailer_checksum_ c = [] /\
  match phase_ c with
  | read_size => exists ks ds, Forall chunk_ok ks /\ digits ks = size_buf_ c ++ ds /\ s = ds ++ 13 :: 10 :: after_size ks /\
                   D = mem_buffer_ c ++ chunks_data ks
  | read_data => exists ks x, Forall chunk_ok ks /\ size_buf_ c = [] /\ x <> [] /\ remain_bytes_ c = zlen x /\
                   s = x ++ 13 :: 10 :: chunks_text ks /\ D = mem_buffer_ c ++ x ++ chunks_data ks
  | read_data_crlf => exists ks, Forall chunk_ok ks /\ size_buf_ c = [] /\ s = 13 :: 10 :: chunks_text ks /\
                   D = mem_buffer_ c ++ chunks_data ks
  | read_trailer => s = [13; 10] /\ D = mem_buffer_ c
  | done | error => False
  end.
Lemma chunks_text_eq ks : chunks_text ks = digits ks ++ 13 :: 10 :: after_size ks.
Proof. by destruct ks. Qed.
Lemma expects_init ks : Forall chunk_ok ks -> expects Chunked.init (chunks_text ks) (chunks_data ks).
Proof. intros H. repeat (split; [done|]). exists ks, (digits ks). by rewrite chunks_text_eq. Qed.
Lemma expects_pending c s D x : expects (with_pending x c) s D <-> expects c s D.
Proof. done. Qed.
Lemma expects_some c s D : expects c s D -> (2 <= length s)%nat.
Proof.
  intros (_ & _ & _ & H). destruct (phase_ c); [destruct H as (ks & ds & _ & _ & -> & _)|destruct H as (ks & x & _ & _ & _ & _ & -> & _)
    |destruct H as (ks & _ & _ & -> & _)|destruct H as [-> _]|done|done]; rewrite ?length_app; cbn [length]; lia.
Qed.

Lemma isxdigit_not c : isxdigit c = true -> (c =? 13) = false.
Proof. unfold isxdigit. intros H. destruct (c =? 13) eqn:E; [|done]. apply Z.eqb_eq in E. by subst c. Qed.
Lemma digits_ok ks : Forall chunk_ok ks -> Forall (fun c => isxdigit c = true) (digits ks) /\ zlen (digits ks) <= max_size_buf_length_.
Proof. intros [|k ks' Hk _]; [|split; apply Hk]. split; [by repeat constructor|done]. Qed.

(** One step of the loop on what has come, [a], when [rest] comes later and [e] is not part of
    the body: it waits, it goes on, or the body is complete. *)
Definition fed (a rest e D : bytes) (fuel : nat) (c : t) (r : outcome (ChunkState * t)) : Prop :=
  rest <> [] /\ r = Ok (need_more_, with_pending a c) \/
  (exists c' a' s', (length a' < length a)%nat /\ expects c' s' D /\ a' ++ rest = s' ++ e /\ r = feed_loop env fuel a' c') \/
  rest = [] /\ D = mem_buffer_ c /\ (length e < length a)%nat /\ r = feed_loop env fuel e (with_phase done c).
Definition at_step (a rest e : bytes) (c : t) (s D : bytes) : Prop :=
  expects c s D -> zlen D <= client_max_content_length env -> zlen D <= disk_spill_size_ ->
  a <> [] -> a ++ rest = s ++ e -> rest = [] \/ (length e + 2 <= length rest)%nat ->
  forall fuel, fed a rest e D fuel c (feed_loop env (S fuel) a c).
Local Ltac unpack a c := intros (Ht & Hfile & Htr & H) Hmax Hspill Ha Hs Hr fuel; destruct a as [|ch a]; [done|];
  destruct c as [ph tot rem sz pend mem file tr];
  cbn [phase_ total_bytes_ remain_bytes_ size_buf_ mem_buffer_ file_stream_ trailer_checksum_] in *; subst.
Local Ltac goes_on s' := right; left; do 2 eexists; exists s'; split; [|split; [|split; [|reflexivity]]].

Lemma step_size a rest e c s D : phase_ c = read_size -> at_step a rest e c s D.
Proof.
  intros Hp. unpack a c. destruct H as (ks & ds & Hk & Hd & -> & ->). cbn [feed_loop phase_ size_buf_].
  destruct (digits_ok ks Hk) as [Hx Hz]. rewrite Hd in Hx, Hz. destruct ds as [|d ds].
  - cbn [app] in Hs. injection Hs as -> Hs. change (13 =? 13) with true. cbv iota. destruct a as [|lf a].
    { left. split; [|done]. by intros ->. }
    injection Hs as -> Hs. change (10 =? 10) with true. cbv iota. rewrite app_nil_r in Hd.
    destruct ks as [|k ks]; cbn [digits] in Hd; subst sz.
    + change (hex_number (str "0")) with (Some 0). change (max_chunk_size_ <? 0) with false. cbv iota.
      goes_on [13; 10]; [cbn; lia| |exact Hs]. repeat (split; [done|]). by rewrite app_nil_r.
    + apply Forall_cons in Hk as [(K1 & K2 & K3 & K4 & K5) Hk]. rewrite K3.
      assert ((max_chunk_size_ <? zlen (snd k)) = false) as -> by lia.
      assert ((zlen (snd k) =? 0) = false) as E0 by (destruct (snd k); [done|zlia]).
      goes_on (snd k ++ 13 :: 10 :: chunks_text ks); [cbn; lia| |exact Hs]. unfold expects, with_size. rewrite E0.
      repeat (split; [done|]). exists ks, (snd k). repeat (split; [done|]). done.
  - injection Hs as -> Hs. apply Forall_app in Hx as [_ Hx]. apply Forall_cons in Hx as [Hx _]. rewrite (isxdigit_not d Hx), Hx.
    assert ((max_size_buf_length_ <=? zlen sz) = false) as -> by zlia.
    goes_on (ds ++ 13 :: 10 :: after_size ks); [cbn; lia| |exact Hs]. repeat (split; [done|]).
    exists ks, ds. split; [done|]. cbn. by rewrite <- app_assoc.
Qed.

Lemma step_data a rest e c s D : phase_ c = read_data -> at_step a rest e c s D.
Proof.
  intros Hp. unpack a c. destruct H as (ks & x & Hk & -> & Hx & -> & -> & ->). set (w := ch :: a) in *. rewrite !zlen_app in *.
  assert (forall n y z, w = y ++ z -> x = y ++ drop n x -> n = length y -> y <> [] -> z ++ rest = drop n x ++ (13 :: 10 :: chunks_text ks) ++ e ->
    (drop n x = [] \/ z = []) -> Z.min (zlen w) (zlen x) = zlen y ->
    fed w rest e (mem ++ x ++ chunks_data ks) fuel (mk read_data (zlen mem) (zlen x) [] pend mem None [])
      (feed_loop env (S fuel) w (mk read_data (zlen mem) (zlen x) [] pend mem None []))) as K.
  { intros n y z Hw Hxy -> Hy Hz Hor Hm. assert (0 < zlen y) as Hy0 by (destruct y; [done|zlia]).
    unfold w in *. cbn [feed_loop phase_ remain_bytes_]. rewrite Hm, Hw.
    assert (take (Z.to_nat (zlen y)) (y ++ z) = y) as -> by (unfold zlen; rewrite Nat2Z.id; apply take_app_length).
    assert (drop (Z.to_nat (zlen y)) (y ++ z) = z) as -> by (unfold zlen; rewrite Nat2Z.id; apply drop_app_length).
    set (x' := drop (length y) x) in *. rewrite Hxy, zlen_app in *. pose proof (zlen_nonneg x'). pose proof (zlen_nonneg (chunks_data ks)).
    pose proof (zlen_nonneg mem). unfold store. cbn [file_stream_ phase_ total_bytes_ remain_bytes_ size_buf_ pending_buffer_ mem_buffer_ trailer_checksum_].
    assert ((0 <? zlen y) && ((client_max_content_length env <? zlen y) || (client_max_content_length env - zlen y <? zlen mem)) = false) as -> by lia.
    unfold count, spill. cbn [remain_bytes_ phase_ total_bytes_ size_buf_ pending_buffer_ mem_buffer_ file_stream_ trailer_checksum_].
    assert ((disk_spill_size_ <? zlen mem + zlen y) = false) as -> by lia. cbn [andb].
    goes_on (x' ++ (13 :: 10 :: chunks_text ks)); [rewrite length_app; destruct y; [done|cbn; lia]| |by rewrite <- app_assoc].
    unfold expects. cbn [remain_bytes_ phase_ total_bytes_ size_buf_ pending_buffer_ mem_buffer_ file_stream_ trailer_checksum_].
    rewrite zlen_app. split; [done|]. split; [done|]. split; [done|]. replace (zlen y + zlen x' - zlen y) with (zlen x') by lia.
    destruct x' as [|b x'].
    - change (zlen [] =? 0) with true. cbv iota. exists ks. rewrite app_nil_r, <- app_assoc. done.
    - assert ((zlen (b :: x') =? 0) = false) as -> by (pose proof (zlen_nonneg x'); rewrite zlen_cons; lia). exists ks, (b :: x').
      rewrite <- !app_assoc. done. }
  rewrite <- app_assoc in Hs. apply app_eq_inv in Hs as [(y & Hw & Hs)|(y & Hw & Hs)].
  - apply (K (length x) x y); rewrite ?drop_all; try done; [by rewrite app_nil_r|by left|rewrite Hw, zlen_app; zlia].
  - apply (K (length w) w []); rewrite ?Hw, ?drop_app_length; try done; [by rewrite app_nil_r|by right|rewrite zlen_app; zlia].
Qed.

Lemma step_crlf a rest e c s D : phase_ c = read_data_crlf -> at_step a rest e c s D.
Proof.
  intros Hp. unpack a c. destruct H as (ks & Hk & -> & -> & ->). injection Hs as -> Hs. cbn [feed_loop phase_]. destruct a as [|lf a].
  { left. split; [|done]. by intros ->. }
  injection Hs as -> Hs. goes_on (chunks_text ks); [cbn; lia| |exact Hs]. repeat (split; [done|]). exists ks, (digits ks).
  by rewrite chunks_text_eq.
Qed.
Lemma step_trailer a rest e c s D : phase_ c = read_trailer -> at_step a rest e c s D.
Proof.
  intros Hp. unpack a c. destruct H as [-> ->]. destruct Hr as [->|Hr]; [|apply (f_equal length) in Hs; rewrite !length_app in Hs; cbn in Hs; lia].
  rewrite app_nil_r in Hs. injection Hs as -> ->. right. right. repeat (split; [done|]). split; [cbn; lia|done].
Qed.
Lemma feed_step a rest e c s D : at_step a rest e c s D.
Proof.
  intros H. pose proof H as (_ & _ & _ & H'). destruct (phase_ c) eqn:E; [| | | |done|done]; revert H;
    [by apply (step_size a rest e c s D)|by apply (step_data a rest e c s D)|by apply (step_crlf a rest e c s D)
    |by apply (step_trailer a rest e c s D)].
Qed.

(** What has come, [a], is fed: more is awaited, or the body is complete and what is left is
    not part of it. *)
Lemma feed_piece fuel a rest e c s D : expects c s D -> zlen D <= client_max_content_length env -> zlen D <= disk_spill_size_ ->
  a ++ rest = s ++ e -> rest = [] \/ (length e + 2 <= length rest)%nat -> (length a < fuel)%nat ->
  (rest <> [] /\ exists c' s', feed_loop env fuel a c = Ok (need_more_, c') /\ expects c' s' D /\ pending_buffer_ c' ++ rest = s' ++ e) \/
  (rest = [] /\ exists c', feed_loop env fuel a c = Ok (completed_, c') /\ total_bytes_ c' = zlen D /\ mem_buffer_ c' = D /\
    file_stream_ c' = None /\ trailer_checksum_ c' = []).
Proof.
  intros Hc Hmax Hspill Hs Hr. revert a c s Hc Hs. induction fuel as [|fuel IH]; intros a c s Hc Hs Hf; [lia|].
  destruct a as [|ch a].
  - pose proof (expects_some _ _ _ Hc). left. split; [intros ->; apply (f_equal length) in Hs; rewrite !length_app in Hs; cbn in Hs; lia|].
    exists (with_pending [] c), s. split; [|done]. destruct Hc as (_ & _ & _ & Hc). cbn [feed_loop]. by destruct (phase_ c).
  - destruct (feed_step (ch :: a) rest e c s D Hc Hmax Hspill ltac:(done) Hs Hr fuel) as [(H1 & ->)|[(c' & a' & s' & H1 & H2 & H3 & ->)|(-> & -> & H0 & ->)]].
    + left. split; [done|]. by exists (with_pending (ch :: a) c), s.
    + apply (IH a' c' s' H2 H3). lia.
    + right. split; [done|]. exists (with_pending e (with_phase done c)). destruct Hc as (H1 & H2 & H3 & _).
      split; [|done]. destruct fuel; [cbn in *; lia|]. by destruct e.
Qed.
End Chunks.

(** * Requests with such a body *)
Section ChunkedRequests.
Variable env : Env.
Import Http1Content Http1Connection.

(** The headers ask for a chunked body, of no type. *)
Definition asks_chunked (t : Text) : Prop :=
  (exists v, last_value Headers.transfer_encoding (t_fields t) = Some v /\ Headers.transfer_encoding_has_chunked v = true) /\
  last_value Headers.content_length (t_fields t) = None /\ last_value Headers.content_type (t_fields t) = None.
(** A packet whose head is read. *)
Definition headed (t : Text) (q : Packet) : Prop :=
  parsed_as t q /\ state q = header_end_lines /\ is_download_file_ (status q) = false /\ spool_ (body q) = None /\
  Headers.body_related_header_present_ (headers (head q)) = true /\ content_type_ (body q) = not_support.
(** The decoder of the packet, new when there is none, and what it expects. *)
Definition decoding (q : Packet) (a s D : bytes) : Prop :=
  exists k, default Chunked.init (pre_content_parser_ (body q)) = k /\ expects k s D /\ Chunked.pending_buffer_ k = a.

(** In the middle of the body: [rest] is to come, with [e] after the body. *)
Definition mid_body (t : Text) (rest e D : bytes) (c : Http1Connection.t) : Prop :=
  has_parsed_ c = true /\ headed t (request c) /\ body_state (parser_ (request c)) = partial /\
  view (input_cache_ (request c)) [] /\ ByteBuffer.read_offset_ (input_cache_ (request c)) = 0 /\
  exists a s, decoding (request c) a s D /\ a ++ rest = s ++ e.
(** The request is complete, with the data in its buffer. The connection still counts it as
    being parsed. *)
Definition chunked_served (t : Text) (D : bytes) (c : Http1Connection.t) : Prop :=
  parsed_as t (request c) /\ body_range (request c) = Ok D /\
  body_content_ (body (request c)) = Some (ChunkedContent None (zlen D) []) /\
  has_parsed_ c = true /\ done (request c) = true /\ is_download_file_ (status (request c)) = false /\
  body_state (parser_ (request c)) <> partial.

Lemma headed_chunked t q : asks_chunked t -> parsed_as t q -> is_chunked q = true.
Proof. intros ((v & E & Hv) & _) [_ Hh]. unfold is_chunked, Headers.is_chunked. rewrite Hh by done. by rewrite E. Qed.

Lemma chunked_parse_piece q x a rest e s D : view (input_cache_ q) x -> decoding q a s D ->
  zlen D <= client_max_content_length env -> zlen D <= Chunked.disk_spill_size_ ->
  (a ++ x) ++ rest = s ++ e -> rest = [] \/ (length e + 2 <= length rest)%nat ->
  exists k q', (rest <> [] /\ chunked_parse env (default Chunked.init (pre_content_parser_ (body q))) q = Ok (false, k, set_body_state partial q') /\
      q' = set_input_cache (ByteBuffer.clear (input_cache_ q)) q /\
      exists s', expects k s' D /\ Chunked.pending_buffer_ k ++ rest = s' ++ e) \/
    (rest = [] /\ Chunked.total_bytes_ k = zlen D /\ view (input_cache_ q') D /\
     chunked_parse env (default Chunked.init (pre_content_parser_ (body q))) q =
       Ok (true, k, set_body_state fully (set_body_length (u32 (zlen D)) (set_content (Some (ChunkedContent None (zlen D) [])) q'))) /\
     exists b, q' = set_chunked (pre_content_parser_ (body q)) [] (set_input_cache b q)).
Proof.
  intros Hx (k & -> & Hk & Ha) Hmax Hspill Hs Hr. unfold chunked_parse, parse_chunked. rewrite (view_span _ _ Hx). mstep.
  rewrite Ha. cbn [Chunked.pending_buffer_ Chunked.with_pending].
  case_bool_decide as Ez.
  - mstep. rewrite Ez in Hs. cbn [app] in Hs. exists (Chunked.with_pending [] k), (set_input_cache (ByteBuffer.clear (input_cache_ q)) q).
    left. pose proof (expects_some _ _ _ Hk). split; [intros ->; apply (f_equal length) in Hs; rewrite length_app in Hs; cbn in Hs; lia|].
    rewrite Ez. split; [done|]. split; [done|]. by exists s.
  - unfold Chunked.feed_data. cbn [Chunked.pending_buffer_ Chunked.with_pending].
    destruct (feed_piece env (S (S (length (a ++ x)))) (a ++ x) rest e (Chunked.with_pending (a ++ x) k) s D Hk Hmax Hspill Hs Hr)
      as [(H1 & k' & s' & -> & H2 & H3)|(-> & k' & -> & H2 & H3 & H4 & H5)]; [lia| |]; mstep.
    + exists k', (set_input_cache (ByteBuffer.clear (input_cache_ q)) q). left. split; [done|]. split; [done|]. split; [done|]. by exists s'.
    + rewrite H4, H3. destruct (of_span_at D) as (b & Eb & Hb & _). rewrite Eb. mstep.
      exists k', (set_chunked (pre_content_parser_ (body q)) [] (set_input_cache b q)). right. rewrite H2, H4, H5. split; [done|]. split; [done|].
      split; [done|]. split; [done|]. exists b. done.
Qed.

(** A round when the message has just been looked at. *)
Lemma chunk_round t q x a rest e s D : asks_chunked t -> (t_version t = v_1_0 \/ t_version t = v_1_1) -> headed t q ->
  is_good_ (status q) = true -> body_state (parser_ q) = body_empty -> view (input_cache_ q) x -> decoding q a s D ->
  zlen D <= client_max_content_length env -> zlen D <= Chunked.disk_spill_size_ ->
  (a ++ x) ++ rest = s ++ e -> rest = [] \/ (length e + 2 <= length rest)%nat ->
  (rest <> [] /\ exists c', round env (Http1Connection.mk true q) = Ok (awaits, c') /\ mid_body t rest e D c') \/
  (rest = [] /\ exists c', round env (Http1Connection.mk true q) = Ok (dispatched, c') /\ chunked_served t D c').
Proof.
  intros Ht Hv (Hp & Hs1 & Hdl & Hsp & Hrel & Hty) Hg Hbs Hx Hd Hmax Hspill Hs Hr.
  pose proof (headed_chunked t q Ht Hp) as Hch.
  assert (done q = true) as Hdn by (unfold done, is_body_done; rewrite (proj2 (is_header_done_iff q) Hs1), Hbs; done).
  destruct (chunked_parse_piece q x a rest e s D Hx Hd Hmax Hspill Hs Hr) as (k & q' & H).
  assert (good q = true) as Hgq by (unfold good; by rewrite Hg).
  unfold round. cbn [request]. rewrite Hgq. cbn [negb]. unfold is_completed. cbn [request has_parsed_].
  rewrite Hdn, Hch. cbn [negb orb]. rewrite Hbs, bool_decide_eq_false_2 by done. cbn [request has_parsed_].
  unfold parse_content. rewrite Hg. cbn [negb]. unfold has_body_file. rewrite Hsp, bool_decide_eq_false_2 by (by intros [? ?]).
  rewrite Hrel, Hch. cbn [negb]. rewrite andb_false_r. unfold factory_parse_content. rewrite Hch.
  destruct H as [(H1 & -> & -> & s' & H2 & H3)|(-> & H1 & H2 & -> & b & ->)]; mstep; cbn [negb].
  - left. split; [done|]. rewrite bool_decide_eq_true_2 by done. mstep. cbn [negb has_parsed_ request].
    set (q2 := set_good true _). change (is_chunked q2) with (is_chunked q). rewrite Hch.
    rewrite (bool_decide_eq_true_2 (body_state (parser_ q2) = partial)) by done. mstep. exists (Http1Connection.mk true q2). split; [done|].
    split; [done|]. split; [by repeat (split; [done|])|]. split; [done|]. split; [split; [by apply ByteBuffer.clear_wf, Hx|done]|].
    split; [done|]. exists (Chunked.pending_buffer_ k), s'. split; [by exists k|done].
  - right. split; [done|]. unfold content_parse. set (q0 := set_chunked None _ _).
    change (content_type_ (body q0)) with (content_type_ (body q)). rewrite Hty. mstep. cbn [negb has_parsed_ request].
    set (q2 := set_good true q0). change (is_chunked q2) with (is_chunked q). rewrite Hch.
    rewrite (bool_decide_eq_false_2 (body_state (parser_ q2) = partial)) by done. cbn [andb].
    unfold validate_request_version. change (line q2) with (line q). rewrite (proj1 Hp). cbn [version_].
    assert (u32 (zlen D) = zlen D) as Hu.
    { apply u32_id. unfold is_u32. pose proof (zlen_nonneg D). unfold Chunked.disk_spill_size_ in Hspill. lia. }
    assert (chunked_served t D (Http1Connection.mk true q2)) as K.
    { split; [done|]. split; [|split; [done|]; split; [done|]; split; [|done]].
      - cbn [request]. rewrite (body_range_view q2 D H2). change (body_length_ (body q2)) with (u32 (Chunked.total_bytes_ k)).
        rewrite H1, Hu, Z.leb_refl. pose proof (zlen_nonneg D). destruct (zlen D =? 0) eqn:E0; [destruct D; [done|zlia]|].
        assert ((zlen D <=? 0) = false) as -> by lia. assert ((zlen D <? 0) = false) as -> by lia. f_equal. unfold zlen. rewrite Nat2Z.id. apply take_ge. lia.
      - cbn [request]. unfold Http1.done. change (is_header_done q2) with (is_header_done q). by rewrite (proj2 (is_header_done_iff q) Hs1). }
    destruct Hv as [-> | ->]; mstep; exists (Http1Connection.mk true q2); (split; [reflexivity|exact K]).
Qed.

Lemma message_chunked t q x : asks_chunked t -> parsed_as t q -> Headers.body_related_header_present_ (headers (head q)) = true ->
  message env q x = (1, set_body_state body_empty q, x).
Proof.
  intros Ht Hp Hrel. pose proof (headed_chunked t q Ht Hp) as Hch. destruct Ht as ((v & Hte & _) & Hcl & _). destruct Hp as [_ Hh].
  unfold message, parse_message, Headers.parse_content_length_header. rewrite Hrel, !Hh, Hte, Hcl, Hch by done. by rewrite bool_decide_eq_true_2.
Qed.
Lemma conclude_chunked t q d : asks_chunked t -> parsed_as t q -> conclude env 1 q d = Ok (true, set_good true q).
Proof.
  intros (_ & _ & Hct) [_ Hh]. unfold conclude. change (1 <? 0) with false. change (1 =? 1) with true. cbv iota zeta.
  change (headers (head (set_good true q))) with (headers (head q)). by rewrite Hh, Hct.
Qed.

(** ** The pieces of a body *)
Variables (t : Text) (D : bytes).
Hypothesis Henv : env_ok env.
Hypothesis Ht : asks_chunked t.
Hypothesis Hversion : t_version t = v_1_0 \/ t_version t = v_1_1.
Hypothesis Hmax : zlen D <= client_max_content_length env.
Hypothesis Hspill : zlen D <= Chunked.disk_spill_size_.

(** What a read comes to, when [rest] is to come. *)
Definition piece_read (rest e : bytes) (r : outcome (verdict * Http1Connection.t)) : Prop :=
  (rest <> [] /\ exists c', r = Ok (awaits, c') /\ mid_body t rest e D c') \/
  (rest = [] /\ exists c', r = Ok (dispatched, c') /\ chunked_served t D c').

Lemma mid_read c data x rest e : mid_body t (x ++ rest) e D c -> incoming data x -> zlen x <= max_header_length env ->
  rest = [] \/ (length e + 2 <= length rest)%nat -> piece_read rest e (on_read env data c).
Proof.
  intros (Hh & Hq & Hb & Hv & Ho & a & s & Hd & Hs) Hx Hz Hr. pose proof Hq as (Hp & Hs1 & Hdl & Hsp & Hrel & Hty).
  assert (done (request c) = false) as Hdn by (unfold done, is_body_done; rewrite Hb, Hdl; apply andb_false_r).
  rewrite on_read_round. cbv zeta. rewrite Hh. cbn [negb].
  destruct (packet_parse_more env data x (request c) [] Hdn Hdl Hx Hv Ho) as (k & Hk & Hko & ->). cbn [app] in Hk.
  assert (head_ok (request c)) as Hho by (split; [rewrite Hs1; done|by left]).
  pose proof (parse_at env (request c) x k Henv Hho Hk Hko Hz) as H. unfold parse_bytes in H.
  rewrite Hdn, (proj2 (is_header_done_iff (request c)) Hs1), (message_chunked t (request c) x Ht Hp Hrel) in H.
  destruct H as (k1 & Hk1 & _ & ->). rewrite (conclude_chunked t (set_input_cache k1 (set_body_state body_empty (request c))) x Ht Hp). mstep. rewrite Hh.
  apply (chunk_round t (set_good true (set_input_cache k1 (set_body_state body_empty (request c)))) x a rest e s D); try done.
  by rewrite <- app_assoc.
Qed.

Lemma piece_alike rest e r r' : both alikev r r' -> piece_read rest e r' -> piece_read rest e r.
Proof.
  intros H [(H1 & c' & -> & Hc)|(H1 & c' & -> & Hc)]; destruct r as [[v c]| | |]; try done; destruct H as [Hv [Ha Hb]]; cbn [fst snd] in *; subst v;
    destruct (alike_body _ _ Hb) as (Eb & Eh & Es & El & Ep).
  - left. split; [done|]. exists c. split; [done|]. destruct Hc as (C1 & C2 & C3 & C4 & C5 & C6).
    unfold mid_body, headed, parsed_as, decoding, state in *. rewrite Eb, Eh, Es, El, Ep in *.
    split; [congruence|]. split; [exact C2|]. split; [exact C3|]. destruct Hb as (d & k & V1 & V2 & V3 & V4 & Er). rewrite Er in C4.
    rewrite <- (view_inj k [] d C4 V3) in V1. split; [exact V1|]. split; [exact V2|exact C6].
  - right. split; [done|]. exists c. split; [done|]. destruct Hc as (C1 & C2 & C3 & C4 & C5 & C6 & C7).
    unfold chunked_served, parsed_as, done, is_body_done, is_header_done in *. rewrite (alike_body_range _ _ Hb), Eb, Eh, Es, El, Ep in *.
    split; [exact C1|]. split; [exact C2|]. split; [exact C3|]. split; [congruence|]. by split.
Qed.

Lemma first_read c data a rest e s : fresh c -> text_ok t -> expects Chunked.init s D -> incoming data (head_text t ++ a) ->
  zlen (head_text t ++ a) <= max_header_length env -> a ++ rest = s ++ e -> rest = [] \/ (length e + 2 <= length rest)%nat ->
  piece_read rest e (on_read env data c).
Proof.
  intros Hc Hok Hk Hx Hz Hs Hr. eapply piece_alike; [by apply fresh_read|]. unfold spec, parse_bytes.
  destruct (reset_ok (request c)) as (_ & -> & _). change (is_header_done (reset (request c))) with false. cbv iota.
  destruct (read_head_text t (request c) a Hok) as (p1 & -> & Hs1 & Hp1 & Hst & Hb & Hbs & Hrel).
  assert (existsb (fun f => Headers.body_related (fst f)) (t_fields t) = true) as Hex.
  { destruct Ht as ((v & E & _) & _). by apply (last_value_related Headers.transfer_encoding _ v). }
  rewrite Hex in Hrel. rewrite (message_chunked t p1 a Ht Hp1 Hrel), (conclude_chunked t _ a Ht) by done. mstep.
  assert (zlen a < 18446744073709551616) as Hza by (destruct Henv; rewrite zlen_app in Hz; pose proof (zlen_nonneg (head_text t)); lia).
  apply (chunk_round t (set_good true (set_input_cache (canon a) (set_body_state body_empty p1))) a [] rest e s D); try done.
  - repeat (split; [done|]). split; [cbn; by rewrite Hst|]. cbn. rewrite Hb. done.
  - apply canon_bounded. done.
  - exists Chunked.init. cbn. rewrite Hb. done.
Qed.

Lemma run_pieces reads ps last e c : mid_body t (concat ps ++ last) e D c -> Forall2 incoming reads (ps ++ [last]) ->
  Forall (fun x => zlen x <= max_header_length env) (ps ++ [last]) -> (length e + 2 <= length last)%nat ->
  exists ws c', run env reads c = Ok (ws ++ [(dispatched, c')]) /\ Forall (fun w => fst w = awaits) ws /\ chunked_served t D c'.
Proof.
  intros Hc H Hz Hl. revert reads c H Hc. induction ps as [|p ps IH]; intros reads c H Hc.
  - cbn [app concat] in *. apply Forall2_cons_inv_r in H as (data & reads' & Hx & H & ->). apply Forall2_nil_inv_r in H as ->.
    apply Forall_cons in Hz as [Hz _]. rewrite <- (app_nil_r last) in Hc.
    destruct (mid_read c data last [] e Hc Hx Hz) as [[[] _]|(_ & c' & E & Hs)]; [by left|done|].
    exists [], c'. cbn [run app]. by rewrite E.
  - cbn [app concat] in *. apply Forall2_cons_inv_r in H as (data & reads' & Hx & H & ->). apply Forall_cons in Hz as [Hz Hz'].
    rewrite <- app_assoc in Hc.
    assert (length e + 2 <= length (concat ps ++ last))%nat as Hl' by (rewrite length_app; lia).
    destruct (mid_read c data p (concat ps ++ last) e Hc Hx Hz) as [(_ & c1 & E & Hc1)|(E0 & _)];
      [by right| |rewrite E0 in Hl'; cbn in Hl'; lia].
    destruct (IH Hz' reads' c1 H Hc1) as (ws & c' & Er & Hw & Hs). exists ((awaits, c1) :: ws), c'. cbn [run app]. rewrite E. mstep. rewrite Er. mstep.
    split; [done|]. split; [by constructor|done].
Qed.

(** The head of a request comes with the first of the pieces of its body. *)
Definition attach (h : bytes) (pieces : list bytes) : list bytes :=
  match pieces with [] => [] | a :: pieces => (h ++ a) :: pieces end.
Lemma run_chunked ks ps last e reads c : fresh c -> text_ok t -> Forall chunk_ok ks -> chunks_data ks = D ->
  concat ps ++ last = chunks_text ks ++ e -> (length e + 2 <= length last)%nat ->
  Forall2 incoming reads (attach (head_text t) (ps ++ [last])) ->
  Forall (fun x => zlen x <= max_header_length env) (attach (head_text t) (ps ++ [last])) ->
  exists ws c', run env reads c = Ok (ws ++ [(dispatched, c')]) /\ Forall (fun w => fst w = awaits) ws /\ chunked_served t D c'.
Proof.
  intros Hc Hok Hks HD Hs Hl Hx Hz. pose proof (expects_init ks Hks) as Hk. rewrite HD in Hk. destruct ps as [|a ps].
  - cbn [app attach concat] in *. apply Forall2_cons_inv_r in Hx as (data & reads' & Hx & H & ->). apply Forall2_nil_inv_r in H as ->.
    apply Forall_cons in Hz as [Hz _].
    destruct (first_read c data last [] e _ Hc Hok Hk Hx Hz) as [[[] _]|(_ & c' & E & Hd)]; [by rewrite app_nil_r|by left|done|].
    exists [], c'. cbn [run app]. by rewrite E.
  - cbn [app attach concat] in *. apply Forall2_cons_inv_r in Hx as (data & reads' & Hx & H & ->). apply Forall_cons in Hz as [Hz Hz'].
    rewrite <- app_assoc in Hs.
    assert (length e + 2 <= length (concat ps ++ last))%nat as Hl' by (rewrite length_app; lia).
    destruct (first_read c data a (concat ps ++ last) e _ Hc Hok Hk Hx Hz Hs) as [(_ & c1 & E & Hc1)|(E0 & _)];
      [by right| |rewrite E0 in Hl'; cbn in Hl'; lia].
    destruct (run_pieces reads' ps last e c1 Hc1 H Hz' Hl) as (ws & c' & Er & Hw & Hd).
    exists ((awaits, c1) :: ws), c'. cbn [run app]. rewrite E. mstep. rewrite Er. mstep. split; [done|]. split; [by constructor|done].
Qed.

(** The next read is not looked at. *)
Lemma next_unread c data data' : chunked_served t D c -> on_read env data c = on_read env data' c.
Proof.
  intros (_ & _ & _ & Hh & Hd & Hdl & Hb). rewrite !on_read_round. cbv zeta. rewrite Hh. cbn [negb].
  unfold packet_parse. rewrite Hd, Hdl, (bool_decide_eq_false_2 _ Hb), andb_false_r. done.
Qed.
End ChunkedRequests.

(** * Every read ends
    Whatever is read, the parser neither leaves its input nor loops. *)
Section Total.
Variable env : Env.
Import ByteBuffer.

(** A part of the parser that may read some of its input, and changes the head alone. *)
Definition same_body (p p' : Packet) : Prop :=
  body p' = body p /\ status p' = status p /\ body_state (parser_ p') = body_state (parser_ p).
Definition tame (parse : Packet -> t -> outcome (bool * Packet * t)) : Prop :=
  forall p b d, bounded b d -> exists ok p' n, parse p b = Ok (ok, p', advance n b) /\ 0 <= n <= zlen d /\ same_body p p'.
Lemma same_refl p : same_body p p.
Proof. done. Qed.
Lemma same_trans p q r : same_body p q -> same_body q r -> same_body p r.
Proof. intros (H1 & H2 & H3) (K1 & K2 & K3). unfold same_body. by rewrite K1, K2, K3. Qed.
Lemma bounded_advance b d n : bounded b d -> 0 <= n <= zlen d -> exists d', bounded (advance n b) d' /\ zlen d' = zlen d - n.
Proof.
  intros [Hv Hw] Hn. rewrite <- (take_drop (Z.to_nat n) d) in Hv.
  assert (zlen (take (Z.to_nat n) d) = n) as E by (unfold zlen in *; rewrite length_take; lia).
  exists (drop (Z.to_nat n) d). split; [split; [rewrite <- E at 1; by eapply view_advance|done]|]. unfold zlen in *. rewrite length_drop. lia.
Qed.
Local Ltac reads p' n := eexists _, p', n; split; [|split; [|done]].

Lemma method_tame : tame parse_method.
Proof.
  intros p b d [Hv Hw]. unfold parse_method. rewrite (view_readable _ _ Hv). pose proof (zlen_nonneg d).
  destruct (zlen d =? 0) eqn:E0; [reads p 0; [by rewrite advance_0|lia]|]. rewrite (view_span _ _ Hv). mstep.
  destruct (_ && (4 <=? zlen d)) eqn:Eg.
  - apply andb_prop in Eg as [_ E4]. reads (set_method get_ (set_header_state metohd p)) 4; [|lia].
    by rewrite (consume_in b d) by (done || lia).
  - destruct (method_loop_spec d [] 0 ltac:(done)) as [Hn _]. destruct (method_loop d [] 0) as [n token]. cbn [fst] in Hn.
    rewrite (consume_in b d) by (done || lia). destruct token as [[|x l]|]; [reads (set_header_state metohd p) n; [done|lia]| |reads (set_header_state metohd p) n; [done|lia]].
    destruct (method_of (x :: l)) as [m|]; [reads (set_method m (set_header_state metohd p)) n|reads (set_header_state metohd p) n]; done || lia.
Qed.
Lemma url_tame : tame (parse_url env).
Proof.
  intros p b d [Hv Hw]. unfold parse_url. rewrite (view_readable _ _ Hv). pose proof (zlen_nonneg d).
  destruct (negb _ || _); [reads p 0; [by rewrite advance_0|lia]|]. rewrite (view_span _ _ Hv). mstep.
  set (p1 := set_header_state url p).
  destruct (index_of 32 d) as [[|k]|] eqn:Ei; [reads p1 0; [by rewrite advance_0|lia]| |reads p1 0; [by rewrite advance_0|lia]].
  pose proof (index_of_lt _ _ _ Ei) as Hlt. case_if; [reads (set_header_state too_long p1) 0; [by rewrite advance_0|lia]|].
  assert (0 <= Z.of_nat (S k) + 1 <= zlen d) as Hk by (unfold zlen; lia). rewrite (consume_in b d) by done.
  set (p2 := set_url _ _ p1). set (refused := match _ with [] => true | _ => _ end). destruct refused.
  - by reads p2 (Z.of_nat (S k) + 1).
  - destruct (index_of 63 _) as [pos|]; [|by reads p2 (Z.of_nat (S k) + 1)].
    destruct (Url.decode_parameters _ _ false) as [ok params]. by reads (set_params params p2) (Z.of_nat (S k) + 1).
Qed.
Lemma version_tame : tame (parse_version 13 10).
Proof.
  intros p b d [Hv Hw]. unfold parse_version. rewrite (view_readable _ _ Hv). pose proof (zlen_nonneg d).
  destruct (_ || _); [reads p 0; [by rewrite advance_0|lia]|]. rewrite (view_span _ _ Hv). mstep.
  set (p1 := set_header_state version p). change ((13 =? 13) && (10 =? 10)) with true. cbn [andb].
  destruct (str_eqb _ _) eqn:E.
  - apply bool_decide_eq_true in E. assert (10 <= zlen d) as Hd by (apply (f_equal length) in E; rewrite length_take in E; change (length (str "HTTP/1.1" ++ [13; 10])) with 10%nat in E; unfold zlen; lia).
    rewrite (consume_in b d) by (done || lia). by reads (set_version v_1_1 p1) 10.
  - destruct (index_of 13 d) as [k|] eqn:Ei; [|reads p1 0; [by rewrite advance_0|lia]].
    destruct (Nat.ltb k 6); [reads p1 0; [by rewrite advance_0|lia]|].
    destruct (negb (_ && _)); [reads p1 0; [by rewrite advance_0|lia]|].
    change (10 =? 0) with false. cbn [negb andb]. case_bool_decide as El; cbn [negb]; [|reads p1 0; [by rewrite advance_0|lia]].
    apply lookup_lt_Some in El. destruct (version_of _) as [v|]; [|reads p1 0; [by rewrite advance_0|lia]].
    assert (0 <= Z.of_nat (S (S k)) <= zlen d) as Hk by (unfold zlen; lia). rewrite (consume_in b d) by done.
    by reads (set_version v p1) (Z.of_nat (S (S k))).
Qed.
Lemma header_loop_total fuel d off s h : (length d < fuel)%nat ->
  exists r h', header_loop env fuel d off s h = Ok (r, h') /\ forall after, r = inr after -> zlen after <= zlen d.
Proof.
  revert d off s h. induction fuel as [|fuel IH]; intros d off s h Hf; [lia|]. cbn [header_loop].
  destruct d as [|c d]; [by repeat eexists|]. set (l := c :: d) in *.
  destruct (index_of 10 l) as [n|] eqn:Ei; [|by repeat eexists]. pose proof (index_of_lt _ _ _ Ei) as Hlt.
  case_if; [by repeat eexists|]. destruct n as [|n]; [by repeat eexists|].
  destruct (bool_decide (l !! n = Some 13)); cbn [negb]; [|by repeat eexists].
  assert (zlen (drop (S (S n)) l) <= zlen l) as Hd by (unfold zlen; rewrite length_drop; lia).
  destruct n as [|n]; [do 2 eexists; split; [done|]; by intros ? [= <-]|].
  destruct (header_line _ h) as [s'|h']; [by repeat eexists|].
  destruct (IH (drop (S (S (S n))) l) (off + Z.of_nat (S (S n)) + 1) header_value h') as (r & h2 & E & Hr); [rewrite length_drop; lia|].
  exists r, h2. split; [exact E|]. intros after Ha. specialize (Hr after Ha). lia.
Qed.
Lemma keys_tame : tame (parse_header_keys env).
Proof.
  intros p b d [Hv Hw]. unfold parse_header_keys. rewrite (view_readable _ _ Hv). pose proof (zlen_nonneg d).
  destruct (_ || _); [reads p 0; [by rewrite advance_0|lia]|]. rewrite (view_span _ _ Hv). mstep.
  destruct (header_loop_total (S (length d)) d (read_offset_ b) (header_state (parser_ p)) (head p)) as (r & h & E & Hr); [lia|].
  rewrite E. mstep. destruct r as [s|rest]; [reads (set_header_state s (set_head h p)) 0; [by rewrite advance_0|lia]|].
  specialize (Hr rest eq_refl). pose proof (zlen_nonneg rest). rewrite (consume_in b d) by (done || lia).
  reads (set_header_state header_key (set_head h p)) (zlen d - zlen rest); done || lia.
Qed.

Lemma stage_tame here next parse onf : tame parse -> (forall p, same_body p (onf p)) -> tame (stage env here next parse onf).
Proof.
  intros Hp Ho p b d Hb. pose proof (zlen_nonneg d). unfold stage.
  assert (exists ok p' n, (if bool_decide (header_state (parser_ p) = here) then
            '(ok, p, buff) ← parse p b;
            if ok : bool then Ok (true, set_header_state next p, buff)
            else Ok (false, onf (set_header_state here p), set_read_offset (read_offset_ b) buff) else Ok (true, p, b))
          = Ok (ok, p', advance n b) /\ 0 <= n <= zlen d /\ same_body p p') as (ok & p1 & n & E & Hn & Hs).
  { case_bool_decide; [|exists true, p, 0; rewrite advance_0; by repeat split].
    destruct (Hp p b d Hb) as (ok & p1 & n & -> & Hn & Hs). mstep. destruct ok.
    - by exists true, (set_header_state next p1), n.
    - exists false, (onf (set_header_state here p1)), 0. rewrite set_back, advance_0 by apply Hb. split; [done|]. split; [lia|].
      eapply same_trans; [|apply Ho]. exact Hs. }
  rewrite E. mstep. destruct ok; cbn [negb]; [|by exists false, p1, n].
  case_if; [by exists false, (set_header_state too_long p1), n|by exists true, p1, n].
Qed.
Lemma seq_tame (f g : Packet -> t -> outcome (bool * Packet * t)) : tame f -> tame g ->
  tame (fun p b => '(ok, p, b) ← f p b; if negb ok then Ok (false, p, b) else g p b).
Proof.
  intros Hf Hg p b d Hb. destruct (Hf p b d Hb) as (ok & p1 & n & -> & Hn & Hs). mstep. destruct ok; cbn [negb]; [|by exists false, p1, n].
  destruct (bounded_advance b d n Hb Hn) as (d1 & Hb1 & Hz). destruct (Hg p1 _ d1 Hb1) as (ok & p2 & m & -> & Hm & Hs2).
  exists ok, p2, (n + m). rewrite advance_advance. split; [done|]. split; [lia|]. by eapply same_trans.
Qed.
Lemma header_tame : tame (parse_header env).
Proof.
  assert (forall p, same_body p (clear_header p)) as Hc by done. assert (forall p, same_body p (id p)) as Hi by done.
  unfold parse_header. apply (seq_tame (stage env init method_gap parse_method id)); [by apply stage_tame, Hi; apply method_tame|].
  apply (seq_tame (stage env method_gap url_gap (parse_url env) id)); [by apply stage_tame, Hi; apply url_tame|].
  apply (seq_tame (stage env url_gap version_newline (parse_version 13 10) id)); [by apply stage_tame, Hi; apply version_tame|].
  by apply stage_tame, Hc; apply keys_tame.
Qed.

(** ** The length of the body *)
Definition sizes (p : Packet) : Prop :=
  0 <= body_length_ (body p) /\ (is_header_done p = false -> body_length_ (body p) = 0 /\ is_body_done p = false) /\
  (Headers.parse_content_length_header (headers (head p)) = Headers.missing ->
   Headers.get_header Headers.transfer_encoding (headers (head p)) = None -> body_length_ (body p) = 0).
(** A message that is complete: its body is in a file, chunked, or among the [n] bytes that
    are in the buffer. *)
Definition fits (p : Packet) (n : Z) : Prop :=
  spool_ (body p) <> None \/ is_chunked p = true \/ Headers.body_related_header_present_ (headers (head p)) = false \/
  body_length_ (body p) <= n.
Definition parsed (p : Packet) (r : Z) (p' : Packet) (n : Z) : Prop :=
  sizes p' /\ pre_content_parser_ (body p') = pre_content_parser_ (body p) /\
  (r = 1 -> done p' = true /\ fits p' n) /\ (r <> 1 -> is_download_file_ (status p') = is_download_file_ (status p)) /\
  (0 <= r -> r <> 1 -> is_body_done p' = false) /\
  (is_download_file_ (status p') = true -> is_download_file_ (status p) = true \/ is_chunked p' = false).

Lemma content_length_nonneg v n : Headers.content_length_of v = Headers.valid n -> 0 <= n.
Proof.
  unfold Headers.content_length_of. set (ds := Headers.trim_ows v). case_if; [done|]. destruct (forallb Headers.is_digit ds) eqn:E; [|done]. cbn [negb].
  case_if; [done|]. intros [= <-]. unfold Headers.decimal. rewrite forallb_forall in E.
  assert (forall l m, 0 <= m -> (forall x, In x l -> Headers.is_digit x = true) -> 0 <= foldl (fun n c => n * 10 + (c - 48)) m l) as K.
  { induction l as [|x l IH]; intros m Hm Hl; [done|]. cbn [foldl]. apply IH; [|intros y Hy; apply Hl; by right].
    specialize (Hl x (or_introl eq_refl)). unfold Headers.is_digit in Hl. lia. }
  by apply K.
Qed.
Lemma begin_spools len p : exists s, snd (begin_body_file_spool env len p) = set_spool s p.
Proof.
  assert (p = set_spool (spool_ (body p)) p) as E by (by destruct p as [? ? ? [] ? ?]).
  unfold begin_body_file_spool. destruct (len =? 0); [eauto|]. destruct (spool_ _) as [s|]; [destruct (body_file_open s); [eauto|]|]; destruct (disk_opens env); by eexists.
Qed.
Lemma append_spools x p : exists s, snd (append_body_file_bytes env x p) = set_spool s p.
Proof.
  assert (p = set_spool (spool_ (body p)) p) as E by (by destruct p as [? ? ? [] ? ?]).
  unfold append_body_file_bytes. destruct (spool_ _) as [s|]; [|eauto]. case_if; [eauto|]. destruct (disk_writes env _); cbn [snd]; eauto.
Qed.
Lemma spooled_parsed len p b d r p' b' : bounded b d -> is_header_done p = true -> parse_spooled env len p b = Ok (r, p', b') ->
  exists s bs, p' = set_body_state bs (set_spool s p) /\ (r = 1 /\ s <> None /\ bs = fully \/ r = 0 /\ bs = partial \/ r = -2).
Proof.
  intros Hb Hh. unfold parse_spooled. destruct (begin_spools len p) as [s Es]. destruct (begin_body_file_spool env len p) as [ok q]. cbn [snd] in Es. subst q.
  destruct ok; cbn [negb]; [|intros [= <- <- _]; exists s, body_too_long; auto].
  intros (data & _ & H)%outcome_bind_inv. set (q := set_spool s p) in *. set (w := Z.min _ _) in *.
  assert (exists s2, snd (if 0 <? w then append_body_file_bytes env data q else (true, q)) = set_spool s2 p) as [s2 E2].
  { case_if; [|by exists s]. destruct (append_spools data q) as [s2 ->]. by exists s2. }
  destruct (if 0 <? w then append_body_file_bytes env data q else (true, q)) as [ok2 q2]. cbn [snd] in E2. subst q2.
  destruct ok2; cbn [negb] in H; [|injection H as <- <- _; exists s2, body_too_long; auto].
  destruct (body_file_spool_done (set_spool s2 p)) eqn:Ed; injection H as <- <- _.
  - exists s2, fully. split; [done|]. left. split; [done|]. split; [|done]. intros ->. discriminate Ed.
  - exists s2, partial. auto.
Qed.

Lemma parsed_as_is p r bs n : is_header_done p = true -> sizes p -> (r = 1 -> (bs = fully \/ bs = body_empty) /\ fits p n) ->
  (0 <= r -> r <> 1 -> bs = partial) -> parsed p r (set_body_state bs p) n.
Proof.
  intros Hh (S1 & S2 & S3) H1 H0. split; [split; [done|split; [change (is_header_done p = false -> body_length_ (body p) = 0 /\ is_body_done (set_body_state bs p) = false); congruence|done]]|].
  split; [done|]. split; [|split; [done|split; [|by left]]].
  - intros Hr. destruct (H1 Hr) as [Hb Hf]. split; [|done]. apply done_with; [by apply is_header_done_iff|done].
  - intros Hr Hn. by rewrite (H0 Hr Hn).
Qed.
Lemma parsed_stays p r n : sizes p -> r < 0 -> parsed p r p n.
Proof. intros Hs Hr. split; [done|]. split; [done|]. split; [lia|]. split; [done|]. split; [lia|]. by left. Qed.
(** A length is set before the body is looked at. *)
Lemma parsed_length len p r p' n : parsed (set_body_length len p) r p' n -> parsed p r p' n.
Proof. done. Qed.

Lemma message_parsed p b d r p' b' : bounded b d -> is_header_done p = true -> sizes p -> parse_message env p b = Ok (r, p', b') ->
  parsed p r p' (readable_bytes b').
Proof.
  intros Hb Hh Hs. pose proof (zlen_nonneg d). unfold parse_message. destruct (Headers.body_related_header_present_ _) eqn:Er; cbn [negb].
  2:{ intros [= <- <- <-]. apply parsed_as_is; try done. intros _. split; [auto|]. right. right. by left. }
  destruct (Headers.parse_content_length_header _) as [|len|] eqn:Ecl; [| |intros [= <- <- <-]; by apply parsed_stays]; cbn [andb].
  - destruct (Headers.get_header Headers.transfer_encoding (headers (head p))) as [te|] eqn:Ete.
    + rewrite bool_decide_eq_true_2 by by eexists. destruct (is_chunked p) eqn:Ech; cbn [negb]; intros [= <- <- <-]; [|by apply parsed_stays].
      apply parsed_as_is; try done. intros _. split; [auto|]. right. by left.
    + rewrite bool_decide_eq_false_2 by by intros [? ?]. change (0 <? 0) with false. intros [= <- <- <-].
      apply parsed_as_is; try done. intros _. split; [auto|]. right. right. right. destruct Hs as (_ & _ & Hs). rewrite Hs by done.
      rewrite (view_readable _ _ (proj1 Hb)). lia.
  - case_bool_decide as Ete; [intros [= <- <- <-]; by apply parsed_stays|].
    assert (0 <= len) as Hlen.
    { unfold Headers.parse_content_length_header in Ecl. destruct (Headers.get_header _ _) as [v|]; [|done]. by eapply content_length_nonneg. }
    set (q := set_body_length len p). assert (is_header_done q = true) as Hhq by done.
    assert (sizes q) as Hsq. { split; [done|]. split; [congruence|]. change (headers (head q)) with (headers (head p)). congruence. }
    assert (is_chunked q = false) as Hch.
    { unfold is_chunked, Headers.is_chunked. change (headers (head q)) with (headers (head p)). destruct (Headers.get_header _ _); [|done]. destruct Ete. by eexists. }
    intros H1. apply (parsed_length len). fold q. destruct (0 <? len) eqn:E0.
    2:{ injection H1 as <- <- <-. apply parsed_as_is; try done. intros _. split; [auto|]. right. right. right. cbn.
        rewrite (view_readable _ _ (proj1 Hb)). lia. }
    destruct (should_spool_request_body q len).
    + destruct (spooled_parsed len q b d r p' b' Hb Hhq H1) as (s & bs & -> & Hr).
      assert (fits (set_spool s q) (readable_bytes b') \/ r <> 1) as Hfit by (destruct Hr as [(_ & Hn & _)|[(-> & _)| ->]]; [by left; left|by right..]).
      apply (parsed_as_is (set_spool s q) r bs); try done.
      * intros ->. destruct Hr as [(_ & _ & ->)|[(? & _)|?]]; [|done..]. destruct Hfit; [auto|done].
      * intros H0 H2. destruct Hr as [(? & _)|[(_ & ->)|?]]; [done|done|lia].
    + unfold parse_buffered, parse_body in H1. rewrite Hhq in H1. cbn [negb] in H1.
      destruct (client_max_content_length env <? len); [injection H1 as <- <- <-; by apply parsed_as_is|].
      destruct (readable_bytes b <? len) eqn:El; [injection H1 as <- <- <-; by apply parsed_as_is|].
      change (1 =? 0) with false in H1. change (1 <? 0) with false in H1. cbv iota zeta in H1.
      assert (fits q (readable_bytes b)) as Hfit by (right; right; right; cbn; lia).
      assert (parsed q 1 (set_body_state fully q) (readable_bytes b)) as K by (apply parsed_as_is; auto; done).
      destruct (Headers.get_header Headers.content_disposition _); [injection H1 as <- <- <-; by apply parsed_as_is|].
      destruct (Headers.get_header Headers.content_type _) as [ct|]; [|by injection H1 as <- <- <-].
      destruct (can_parse _); injection H1 as <- <- <-; [exact K|].
      split; [exact (proj1 K)|]. split; [done|]. split; [|split; [done|split; [done|by right]]]. intros _. split; [|exact Hfit].
      unfold done. cbn. rewrite orb_true_r. change (is_header_done q && true = true). by rewrite Hhq.
Qed.

(** ** A packet *)
Lemma parse_parsed p b d : bounded b d -> sizes p -> done p = false ->
  exists r p' n, parse env p b = Ok (r, p', advance n b) /\ 0 <= n <= zlen d /\ parsed p r p' (zlen d - n).
Proof.
  intros Hb Hs Hd. pose proof (zlen_nonneg d). unfold parse. rewrite Hd.
  assert (forall p b d, bounded b d -> is_header_done p = true -> sizes p -> exists r p' n,
            parse_message env p b = Ok (r, p', advance n b) /\ 0 <= n <= zlen d /\ parsed p r p' (zlen d - n)) as M.
  { clear. intros p b d Hb Hh Hs. destruct (parse_message_uniform env p d) as ([r p'] & n & Hn & H). specialize (H b Hb).
    exists r, p', n. split; [done|]. split; [done|]. destruct (bounded_advance b d n Hb Hn) as (d1 & [Hv _] & <-).
    rewrite <- (view_readable _ _ Hv). by eapply message_parsed. }
  destruct (is_header_done p) eqn:Hh.
  { mstep. cbn [negb]. rewrite bool_decide_eq_false_2; [|intros E; unfold is_header_done in Hh; rewrite E in Hh; done]. rewrite Hh. by apply M. }
  destruct Hs as (S1 & S2 & S3). destruct (S2 Hh) as [Hl Hbd].
  destruct (header_tame p b d Hb) as (ok & p1 & n & -> & Hn & (B1 & B2 & B3)). mstep.
  assert (is_body_done p1 = false) as Hbd1 by (unfold is_body_done in *; by rewrite B3).
  assert (sizes p1) as Hs1 by (unfold sizes; rewrite B1, Hl; done).
  assert (forall r, r < 0 \/ r = 0 -> parsed p r p1 (zlen d - n)) as K.
  { intros r Hr. split; [done|]. split; [by rewrite B1|]. split; [lia|]. split; [by rewrite B2|]. split; [done|]. left. congruence. }
  destruct ok; cbn [negb]; [|exists (-1), p1, n; (split; [done|]; split; [lia|]; apply K; lia)].
  case_bool_decide; [exists (-2), p1, n; (split; [done|]; split; [lia|]; apply K; lia)|]. destruct (is_header_done p1) eqn:Hh1.
  - destruct (bounded_advance b d n Hb Hn) as (d1 & Hb1 & Hz). destruct (M p1 _ d1 Hb1 Hh1 Hs1) as (r & p' & m & -> & Hm & HP).
    exists r, p', (n + m). rewrite advance_advance. split; [done|]. split; [lia|]. replace (zlen d - (n + m)) with (zlen d1 - m) by lia.
    unfold parsed in *. by rewrite B1, B2 in HP.
  - rewrite Hbd1. exists 0, p1, n. (split; [done|]; split; [lia|]; apply K; lia).
Qed.

(** After a read: a complete message can be handed on. *)
Definition ready_if_done (p : Packet) : Prop :=
  exists d, view (input_cache_ p) d /\ read_offset_ (input_cache_ p) = 0 /\ sizes p /\
    (is_download_file_ (status p) = true -> is_chunked p = false /\ done p = true) /\
    (good p = true -> done p = true -> fits p (zlen d)).

Lemma input_cache_parsed p d : view (input_cache_ p) d -> read_offset_ (input_cache_ p) = 0 -> sizes p -> done p = false ->
  is_download_file_ (status p) = false ->
  exists ok p', parse_input_cache env p = Ok (ok, p') /\ ready_if_done p' /\ pre_content_parser_ (body p') = pre_content_parser_ (body p).
Proof.
  intros Hv Ho Hs Hd Hdl. unfold parse_input_cache. rewrite (view_readable _ _ Hv).
  destruct (get_max_packet_size env <? zlen d) eqn:Emax.
  { exists false, (set_good false p). split; [done|]. split; [|done]. exists d. split; [done|]. split; [done|]. split; [done|].
    change (status (set_good false p)) with (mkStatus false (error_code_ (status p)) (is_download_file_ (status p))). cbn [is_download_file_].
    rewrite Hdl. split; [done|]. unfold good. cbn. rewrite Hdl. done. }
  assert (bounded (input_cache_ p) d) as Hb.
  { split; [done|]. rewrite (view_write _ _ Hv), Ho. unfold get_max_packet_size in Emax. pose proof (u32_range (max_header_length env + client_max_content_length env)) as U.
    unfold is_u32 in U. lia. }
  destruct (parse_parsed p _ d Hb Hs Hd) as (r & p1 & n & -> & Hn & (P1 & P2 & P3 & P4 & P5 & P6)). mstep.
  destruct (bounded_advance _ d n Hb Hn) as (d1 & [Hv1 _] & Hz). destruct (compact_view _ d1 Hv1) as (k & -> & Hk & Hko). mstep.
  set (p2 := set_input_cache k p1).
  assert (forall q, input_cache_ q = k -> sizes q -> is_download_file_ (status q) = is_download_file_ (status p1) -> is_chunked q = is_chunked p1 ->
            parser_ q = parser_ p1 -> (good q = true -> done q = true -> fits q (zlen d1)) -> ready_if_done q) as K.
  { intros q Q1 Q2 Q3 Q4 Q5 Q6. exists d1. rewrite Q1, Q3, Q4. split; [done|]. split; [done|]. split; [done|]. split; [|done].
    intros Hq2. split; [destruct (P6 Hq2); [congruence|done]|]. destruct (decide (r = 1)) as [Hr|Hr]; [|rewrite P4 in Hq2 by done; congruence].
    destruct (P3 Hr) as [Hd1 _]. unfold done, is_header_done, is_body_done in *. by rewrite Q3, Q5. }
  rewrite Hz in K. rewrite <- Hz in *.
  assert (r <> 1 -> is_download_file_ (status p1) = false) as Hdl1 by (intros Hr; rewrite P4 by done; exact Hdl).
  assert (forall e, r <> 1 -> ready_if_done (set_good false (set_error_code e p2))) as Kf.
  { intros e Hr. apply K; try done. unfold good. cbn. by rewrite Hdl1. }
  assert (r <> 1 -> ready_if_done (set_good false p2)) as Kf0.
  { intros Hr. apply K; try done. unfold good. cbn. by rewrite Hdl1. }
  destruct (r <? 0) eqn:Er.
  - assert (r <> 1) as Hr1 by lia.
    assert (exists c, (if (r =? -1) && negb (is_header_done p2) then has_complete_http_header k else Ok true) = Ok c /\
              (c = false -> is_header_done p2 = false)) as (c & -> & Hc).
    { destruct (is_header_done p2) eqn:E2; [rewrite andb_false_r; by exists true|]. destruct (r =? -1); [|by exists true].
      unfold has_complete_http_header. rewrite (view_span _ _ Hk). cbn [andb negb]. mstep. eexists. split; [reflexivity|done]. }
    mstep. destruct c; cbn [negb]; [do 2 eexists; split; [reflexivity|]; split; [by apply Kf|done]|].
    destruct (max_header_length env <? readable_bytes k); [do 2 eexists; split; [reflexivity|]; split; [by apply Kf0|done]|].
    do 2 eexists. split; [reflexivity|]. split; [|done]. apply K; try done. intros _. unfold done.
    change (is_header_done (set_good true p2)) with (is_header_done p2). by rewrite Hc.
  - destruct (r =? 1) eqn:E1.
    + assert (r = 1) as Hr1 by lia. destruct (P3 Hr1) as [Hd1 Hf]. cbv zeta.
      destruct (Headers.get_header Headers.content_type _) as [ct|].
      * destruct (parse_content_type_total ct (content_type_text_ (body (set_good true p2))) (content_type_extra_ (body (set_good true p2)))) as (text & ex & rest & _ & ->).
        mstep. do 2 eexists. split; [reflexivity|]. split; [|done]. apply K; try done.
      * do 2 eexists. split; [reflexivity|]. split; [|done]. apply K; try done.
    + do 2 eexists. split; [reflexivity|]. split; [|done]. apply K; try done. intros _. unfold done.
      change (is_body_done (set_good true p2)) with (is_body_done p1). change (is_download_file_ (status (set_good true p2))) with (is_download_file_ (status p1)).
      rewrite P5, Hdl1 by lia. by rewrite andb_false_r.
Qed.

(** ** The decoder *)
Definition chunk_fine (c : Chunked.t) : Prop :=
  0 <= Chunked.total_bytes_ c /\ (Chunked.phase_ c = Chunked.read_data -> 0 < Chunked.remain_bytes_ c) /\
  (Chunked.phase_ c <> Chunked.error -> Chunked.file_stream_ c = None -> Chunked.total_bytes_ c = zlen (Chunked.mem_buffer_ c)) /\
  Forall (fun x => Chunked.isxdigit x = true) (Chunked.size_buf_ c).
Definition ended (c : Chunked.t) : bool := match Chunked.phase_ c with Chunked.done | Chunked.error => true | _ => false end.
Definition rounds_left (s : bytes) (c : Chunked.t) : nat := if ended c then 0 else S (length s).
Lemma to_cr_length s : length s = (length (fst (Chunked.to_cr s)) + length (snd (Chunked.to_cr s)))%nat.
Proof. induction s as [|c s IH]; [done|]. cbn [Chunked.to_cr]. destruct (c =? 13); [done|]. destruct (Chunked.to_cr s). cbn in *. lia. Qed.
Lemma to_cr_first s : fst (Chunked.to_cr s) = [] -> s = [] \/ exists s', s = 13 :: s' /\ snd (Chunked.to_cr s) = s.
Proof.
  destruct s as [|c s]; [by left|]. cbn [Chunked.to_cr]. destruct (c =? 13) eqn:E; [|destruct (Chunked.to_cr s); intros [=]].
  apply Z.eqb_eq in E. subst c. intros _. right. by exists s.
Qed.
Lemma fine_error c : chunk_fine c -> chunk_fine (Chunked.with_phase Chunked.error c).
Proof. intros (H1 & _ & _ & H4). by repeat split. Qed.
Lemma hex_number_nonneg ds n : Forall (fun c => Chunked.isxdigit c = true) ds -> Chunked.hex_number ds = Some n -> 0 <= n.
Proof.
  intros Hd. assert (forall l m, 0 <= m -> Forall (fun c => Chunked.isxdigit c = true) l -> 0 <= foldl (fun n ch => n * 16 + Url.hex_val ch) m l) as K.
  { induction l as [|x l IH]; intros m Hm Hl; [done|]. apply Forall_cons in Hl as [Hx Hl]. cbn [foldl]. apply IH; [|done].
    unfold Chunked.isxdigit in Hx. lia. }
  destruct ds as [|x l]; [done|]. intros H.
  assert (Some (foldl (fun n ch => n * 16 + Url.hex_val ch) 0 (x :: l)) = Some n) as E by exact H. injection E as E. rewrite <- E.
  by apply (K (x :: l) 0).
Qed.

(** The matches on a line end. *)
Lemma match_13 {A} (c : Z) (x y : A) : match c with 13 => x | _ => y end = if c =? 13 then x else y.
Proof. destruct c as [|p|p]; [done| |done]. do 4 (destruct p as [p|p|]; try done). Qed.
Lemma match_10 {A} (c : Z) (x y : A) : match c with 10 => x | _ => y end = if c =? 10 then x else y.
Proof. destruct c as [|p|p]; [done| |done]. do 4 (destruct p as [p|p|]; try done). Qed.

(** A loop that has come to a state from which it ends. *)
Definition ends (r : outcome (Chunked.ChunkState * Chunked.t)) : Prop :=
  exists st c', r = Ok (st, c') /\ chunk_fine c' /\ (st = Chunked.completed_ -> Chunked.phase_ c' = Chunked.done).
Lemma ends_here st x c : chunk_fine c -> (st = Chunked.completed_ -> Chunked.phase_ c = Chunked.done) -> ends (Ok (st, Chunked.with_pending x c)).
Proof. intros Hc Hs. by exists st, (Chunked.with_pending x c). Qed.

Lemma feed_ends fuel s c : chunk_fine c -> (rounds_left s c < fuel)%nat -> ends (Chunked.feed_loop env fuel s c).
Proof.
  revert s c. induction fuel as [|fuel IH]; intros s c Hc Hf; [lia|]. cbn [Chunked.feed_loop].
  assert (forall f, (0 < f)%nat -> ends (Ok (match Chunked.phase_ c with Chunked.error => Chunked.invalid_chunk_ | Chunked.done => Chunked.completed_ | _ => Chunked.need_more_ end, Chunked.with_pending s c))) as Kend.
  { intros _ _. apply ends_here; [done|]. by destruct (Chunked.phase_ c). }
  specialize (Kend 1%nat ltac:(lia)). destruct s as [|ch after]; [exact Kend|].
  assert (forall s' c', chunk_fine c' -> (length s' < length (ch :: after))%nat -> (ended c = false) -> ends (Chunked.feed_loop env fuel s' c')) as Kgo.
  { intros s' c' Hc' Hl He. apply IH; [done|]. unfold rounds_left in *. rewrite He in Hf. destruct (ended c'); lia. }
  assert (forall s' c', chunk_fine c' -> (ended c = false) -> ends (Chunked.feed_loop env fuel s' (Chunked.with_phase Chunked.error c'))) as Kerr.
  { intros s' c' Hc' He. apply IH; [by apply fine_error|]. unfold rounds_left in *. rewrite He in Hf. cbn in *. lia. }
  pose proof Hc as (F1 & F2 & F3 & F4).
  destruct (Chunked.phase_ c) eqn:Ep; [| | | |exact Kend|exact Kend]; assert (ended c = false) as He by (unfold ended; by rewrite Ep).
  - destruct (ch =? 13); [|destruct (Chunked.isxdigit ch) eqn:Ex; [|destruct (ch =? 59)]].
    + destruct after as [|lf after]; [by apply ends_here|]. destruct (lf =? 10); [|by apply ends_here].
      destruct (Chunked.hex_number (Chunked.size_buf_ c)) as [n|] eqn:En; [|by apply Kerr]. destruct (Chunked.max_chunk_size_ <? n); [by apply Kerr|].
      pose proof (hex_number_nonneg _ _ F4 En). apply Kgo; [|cbn; lia|done]. unfold chunk_fine, Chunked.with_size. cbn.
      split; [done|]. split; [destruct (n =? 0) eqn:E0; [done|lia]|]. split; [|done]. intros _. apply F3. congruence.
    + destruct (Chunked.max_size_buf_length_ <=? _); [by apply Kerr|]. apply Kgo; [|cbn; lia|done]. unfold chunk_fine, Chunked.push_size. cbn. rewrite Ep.
      split; [done|]. split; [done|]. split; [done|]. apply Forall_app. split; [done|]. by repeat constructor.
    + pose proof (to_cr_length after) as Hl. destruct (Chunked.to_cr after) as [x [|y l]]; [by apply ends_here|]. cbn [fst snd] in Hl. apply Kgo; [done|cbn in *; lia|done].
    + by apply Kerr.
  - specialize (F2 eq_refl). set (n := Z.min (zlen (ch :: after)) (Chunked.remain_bytes_ c)).
    assert (0 < n <= zlen (ch :: after)) as Hn by (unfold n; rewrite zlen_cons; pose proof (zlen_nonneg after); lia).
    assert (zlen (take (Z.to_nat n) (ch :: after)) = n) as Hx by (unfold zlen in *; rewrite length_take; lia).
    destruct (Chunked.store env (take (Z.to_nat n) (ch :: after)) c) as [c1|] eqn:Es; [|by apply Kerr].
    assert (Chunked.total_bytes_ c1 = Chunked.total_bytes_ c /\ Chunked.remain_bytes_ c1 = Chunked.remain_bytes_ c /\ Chunked.size_buf_ c1 = Chunked.size_buf_ c /\
            Chunked.phase_ c1 = Chunked.phase_ c /\
            (Chunked.file_stream_ c1 = None -> Chunked.file_stream_ c = None /\ zlen (Chunked.mem_buffer_ c1) = zlen (Chunked.mem_buffer_ c) + n)) as (S1 & S2 & S3 & S4 & S5).
    { unfold Chunked.store in Es. destruct (Chunked.file_stream_ c) as [f|] eqn:Ef; [case_if_in Es; [|done]|]; injection Es as <-; cbn;
        do 4 (split; [done|]); [done|]. intros _. rewrite zlen_app, Hx. done. }
    case_if; [|].
    + apply IH; [unfold chunk_fine, Chunked.with_phase; cbn; rewrite S1, S3; by repeat split|]. unfold rounds_left in *. rewrite He in Hf. cbn in *. lia.
    + apply Kgo; [|rewrite length_drop; unfold zlen in Hn; lia|done].
      assert (chunk_fine (Chunked.count n c1)) as Hcnt.
      { unfold chunk_fine, Chunked.count. cbn. rewrite S1, S2, S3. split; [lia|]. split; [|split; [|done]].
        - intros Hp. destruct (Chunked.remain_bytes_ c - n =? 0) eqn:E0; [done|]. lia.
        - intros Hp Hfile. destruct (S5 Hfile) as [Hf0 ->]. rewrite F3; [done|congruence|done]. }
      unfold Chunked.spill. destruct (Chunked.file_stream_ (Chunked.count n c1)); [done|]. case_if; [|done].
      destruct (disk_opens env); [|by apply fine_error]. destruct Hcnt as (C1 & C2 & _ & C4). by repeat split.
  - rewrite match_13. destruct (ch =? 13); [|by apply Kerr]. destruct after as [|lf after]; [by apply ends_here|].
    rewrite match_10. destruct (lf =? 10); [|by apply ends_here]. apply Kgo; [|cbn; lia|done]. unfold chunk_fine, Chunked.with_phase. cbn.
    split; [done|]. split; [done|]. split; [|done]. intros _. apply F3. congruence.
  - set (s := ch :: after) in *.
    assert (forall s' c', chunk_fine c' -> (length s' < length s)%nat -> ends match s' with [] => Ok (Chunked.need_more_, Chunked.with_pending [] c') | _ => Chunked.feed_loop env fuel s' c' end) as Kon.
    { intros [|y l] c' Hc' Hl; [by apply ends_here|]. by apply Kgo. }
    assert (ends (let '(checksum, after0) := Chunked.to_cr s in
                  let c0 := Chunked.with_trailer (map StringUtil.lower_ascii_char checksum) c in
                  let after1 := match after0 with 13 :: 10 :: after2 => after2 | 13 :: after2 => after2 | after2 => after2 end in
                  match after1 with [] => Ok (Chunked.need_more_, Chunked.with_pending [] c0) | _ => Chunked.feed_loop env fuel after1 c0 end)) as Ktr.
    { assert (0 < length s)%nat as Hs0 by (unfold s; cbn; lia). pose proof (to_cr_length s) as Hl. pose proof (to_cr_first s) as Hfirst. destruct (Chunked.to_cr s) as [x r]. cbn [fst snd] in *. cbv zeta.
      apply Kon; [done|]. destruct r as [|y r]; [cbn [length] in *; lia|]. rewrite match_13. destruct (y =? 13) eqn:Ey.
      - destruct r as [|z r]; [cbn [length] in *; lia|]. rewrite match_10. destruct (z =? 10); cbn [length] in *; lia.
      - destruct x; [|cbn [length] in *; lia]. destruct (Hfirst eq_refl) as [E|(s' & E1 & E2)];
          [rewrite E in Hs0; cbn in Hs0; lia|rewrite E1 in E2; injection E2 as -> _; done]. }
    unfold s in *. rewrite match_13. destruct (ch =? 13) eqn:E13; [|exact Ktr]. destruct after as [|lf after]; [exact Ktr|].
    rewrite match_10. destruct (lf =? 10) eqn:E10; [|exact Ktr]. apply Kgo; [|cbn; lia|done]. unfold chunk_fine, Chunked.with_phase. cbn.
    split; [done|]. split; [done|]. split; [|done]. intros _. apply F3. congruence.
Qed.
Lemma feed_data_ends c : chunk_fine c -> ends (Chunked.feed_data env c).
Proof. intros Hc. apply feed_ends; [done|]. unfold rounds_left. destruct (ended c); lia. Qed.

End Total.

(** ** A connection *)
Section Connections.
Variable env : Env.
Import Http1Content Http1Connection.

(** A packet in the middle of a request. *)
Definition open_packet (p : Packet) : Prop :=
  (exists d, view (input_cache_ p) d /\ ByteBuffer.read_offset_ (input_cache_ p) = 0) /\ sizes p /\ is_download_file_ (status p) = false /\
  chunk_fine (default Chunked.init (pre_content_parser_ (body p))) /\ (done p = true -> is_chunked p = true).
Definition open_connection (c : Http1Connection.t) : Prop :=
  ByteBuffer.wf (input_cache_ (request c)) /\ (has_parsed_ c = true -> open_packet (request c)).
Lemma open_connection_init : open_connection Http1Connection.init.
Proof. split; [by apply (bool_decide_unpack _)|done]. Qed.
Lemma open_reset p: ByteBuffer.wf (input_cache_ p) -> open_packet (reset p).
Proof. intros H. split; [exists []; split; [split; [by apply ByteBuffer.clear_wf|done]|done]|]. repeat split; done. Qed.

(** What the parser of a type does to a packet. *)
Definition contented (p p' : Packet) : Prop :=
  input_cache_ p' = input_cache_ p /\ status p' = status p /\ head p' = head p /\ parser_ p' = parser_ p /\
  body_length_ (body p') = body_length_ (body p) /\ pre_content_parser_ (body p') = pre_content_parser_ (body p).
(** The parsers of multipart bodies may leave the body, or throw. *)
Definition is_multipart (t : ContentType) : bool :=
  match t with multpart_form_data | multpart_byte_ranges => true | _ => false end.
Definition gives_up {A} (p : Packet) (m : outcome A) : Prop :=
  is_multipart (content_type_ (body p)) = true /\ (m = Fault \/ m = Reject).
Lemma gives_up_bind {A B} p (m : outcome A) (f : A -> outcome B) : gives_up p m -> gives_up p (m ≫= f).
Proof. intros [H [-> | ->]]; (split; [done|]); auto. Qed.

Lemma multipart_parse_total p x f : body_range p = Ok x -> is_multipart (content_type_ (body p)) = true ->
  (forall text extra, settles (f text extra)) ->
  (exists ok p', multipart_parse f p = Ok (ok, p') /\ contented p p') \/ gives_up p (multipart_parse f p).
Proof.
  intros Hx Ht Hf. unfold multipart_parse, body_text. rewrite Hx.
  assert (exists y, (if ByteBuffer.readable_bytes (input_cache_ p) <? body_length_ (body p) then Ok [] else Ok x) = Ok y) as [y ->]
    by (case_if; by eexists). mstep. specialize (Hf y (content_type_extra_ (body p))).
  destruct (f y _) as [[c|]| | |]; mstep; [left; by do 2 eexists|left; by do 2 eexists|right..|done]; split; auto.
Qed.
Lemma content_parse_total p x : body_range p = Ok x ->
  (exists ok p', content_parse env p = Ok (ok, p') /\ contented p p') \/ gives_up p (content_parse env p).
Proof.
  intros Hx. unfold content_parse, text_parse, json_parse, url_encoded_parse, form_data_parse, byteranges_parse.
  destruct (content_type_ (body p)) eqn:Et; try (left; rewrite ?Hx; mstep; by do 2 eexists).
  - left. rewrite Hx. destruct (body_content_ (body p)) as [[| | | |[file|] ? ?]|]; mstep; try (by do 2 eexists); destruct (json_accepts env _); by do 2 eexists.
  - eapply multipart_parse_total; [exact Hx|by rewrite Et|]. intros. apply form_parse_settles.
  - case_if; [left; by do 2 eexists|]. eapply multipart_parse_total; [exact Hx|by rewrite Et|]. intros. apply ranges_parse_settles.
  - left. destruct (is_some _); [by do 2 eexists|]. rewrite Hx. mstep. destruct (Url.decode_parameters _ _ true) as [ok params]. by do 2 eexists.
Qed.
Lemma fits_range p d : view (input_cache_ p) d -> 0 <= body_length_ (body p) <= zlen d -> exists x, body_range p = Ok x.
Proof.
  intros Hv Hl. rewrite (body_range_view p d Hv). destruct (_ =? 0); [by eexists|]. destruct (zlen d <=? 0); [by eexists|].
  assert ((body_length_ (body p) <=? zlen d) = true) as -> by lia. assert ((body_length_ (body p) <? 0) = false) as -> by lia. by eexists.
Qed.
Lemma file_range p : view (input_cache_ p) [] -> exists x, body_range p = Ok x.
Proof. intros Hv. rewrite (body_range_view p [] Hv). destruct (_ =? 0); by eexists. Qed.

(** A piece of a chunked body: the packet has its cache emptied, and is given the data when
    the body is complete and in memory. *)
Lemma chunked_parse_total p d c : view (input_cache_ p) d -> chunk_fine c ->
  exists ok c' p' x, chunked_parse env c p = Ok (ok, c', p') /\ chunk_fine c' /\ view (input_cache_ p') x /\
    ByteBuffer.read_offset_ (input_cache_ p') = 0 /\ head p' = head p /\ status p' = status p /\ header_state (parser_ p') = header_state (parser_ p) /\
    (ok = true -> u32 (Chunked.total_bytes_ c') <= zlen x \/ x = []) /\
    (ok = false -> body_state (parser_ p') = partial \/ body_state (parser_ p') = body_state (parser_ p)) /\
    (ok = false -> body_length_ (body p') = body_length_ (body p)) /\ content_type_ (body p') = content_type_ (body p).
Proof.
  intros Hv Hc. unfold chunked_parse, parse_chunked. rewrite (view_span _ _ Hv). mstep.
  set (c1 := Chunked.with_pending _ c). set (p1 := set_input_cache (ByteBuffer.clear (input_cache_ p)) p).
  assert (view (input_cache_ p1) [] /\ ByteBuffer.read_offset_ (input_cache_ p1) = 0) as [Hv1 Ho1]
    by (split; [split; [by apply ByteBuffer.clear_wf, Hv|done]|done]).
  case_bool_decide; [mstep; exists false, c1, (set_body_state partial p1), []; repeat (split; [done|]); auto|].
  destruct (feed_data_ends env c1 Hc) as (st & c2 & -> & Hc2 & Hst). mstep. destruct st; mstep.
  - assert (exists p2 x, (p0 ← match Chunked.file_stream_ c2 with Some _ => Ok p1 | None => b ← ByteBuffer.of_span (Chunked.mem_buffer_ c2); Ok (set_input_cache b p1) end;
              Ok (Chunked.completed_, c2, set_chunked (pre_content_parser_ (body p0)) (Chunked.trailer_checksum_ c2) p0)) = Ok (Chunked.completed_, c2, p2) /\
            view (input_cache_ p2) x /\ ByteBuffer.read_offset_ (input_cache_ p2) = 0 /\ head p2 = head p /\ status p2 = status p /\ parser_ p2 = parser_ p /\
            content_type_ (body p2) = content_type_ (body p) /\
            (u32 (Chunked.total_bytes_ c2) <= zlen x \/ x = [])) as (p2 & x & -> & V & O & H1 & H2 & H3 & Hct & H4).
    { destruct (Chunked.file_stream_ c2) as [f|] eqn:Ef; mstep.
      - do 2 eexists. split; [reflexivity|]. repeat (split; [done|]). by right.
      - destruct (of_span_at (Chunked.mem_buffer_ c2)) as (b & -> & Hb & Hbo). mstep. do 2 eexists. split; [reflexivity|]. split; [exact Hb|].
        repeat (split; [done|]). left. destruct Hc2 as (F1 & _ & F3 & _). rewrite <- F3; [|by rewrite Hst|done]. unfold u32. apply Z.mod_le; lia. }
    mstep. do 4 eexists. split; [reflexivity|]. split; [done|]. split; [exact V|]. split; [done|]. split; [done|]. split; [done|].
    split; [by rewrite <- H3|]. split; [done|]. split; [done|]. split; [done|exact Hct].
  - exists false, c2, (set_body_state partial p1), []. repeat (split; [done|]). auto.
  - exists false, c2, p1, []. repeat (split; [done|]). auto.
  - exists false, c2, p1, []. repeat (split; [done|]). auto.
Qed.

Lemma open_chunked p x : view (input_cache_ p) x -> ByteBuffer.read_offset_ (input_cache_ p) = 0 -> state p = header_end_lines ->
  0 <= body_length_ (body p) -> is_chunked p = true -> is_download_file_ (status p) = false ->
  chunk_fine (default Chunked.init (pre_content_parser_ (body p))) -> open_packet p.
Proof.
  intros Hv Ho Hs Hl Hch Hdl Hc. split; [by exists x|]. split; [|by split].
  split; [done|]. split; [rewrite (proj2 (is_header_done_iff p) Hs); done|]. intros _ Hte. unfold is_chunked, Headers.is_chunked in Hch. by rewrite Hte in Hch.
Qed.
Lemma parse_content_total p : ready_if_done p -> good p = true -> done p = true ->
  chunk_fine (default Chunked.init (pre_content_parser_ (body p))) ->
  (exists ok p', parse_content env p = Ok (ok, p') /\ ByteBuffer.wf (input_cache_ p') /\ (is_chunked p = true -> open_packet p'))
  \/ gives_up p (parse_content env p).
Proof.
  intros (d & Hv & Ho & Hs & Hdl & Hf) Hg Hd Hc. specialize (Hf Hg Hd).
  assert (state p = header_end_lines) as Hst by (apply is_header_done_iff; unfold done in Hd; by apply andb_prop in Hd as [? _]).
  assert (is_chunked p = true -> is_download_file_ (status p) = false) as Hdl1.
  { intros Hch. destruct (is_download_file_ (status p)); [|done]. destruct (Hdl eq_refl). congruence. }
  assert (is_chunked p = true -> open_packet p) as Hop by (intros Hch; apply (open_chunked p d); try done; [apply Hs|auto]).
  assert (ByteBuffer.wf (input_cache_ p)) as Hwf by apply Hv.
  unfold parse_content. destruct (is_good_ (status p)) eqn:Eg; cbn [negb]; [|left; by do 2 eexists].
  unfold has_body_file. case_bool_decide as Esp; [left; by do 2 eexists|].
  destruct (Headers.body_related_header_present_ _) eqn:Er; cbn [negb]; [|left; by do 2 eexists].
  destruct (negb _ && negb _); [left; by do 2 eexists|]. unfold factory_parse_content. destruct (is_chunked p) eqn:Ech.
  - destruct (chunked_parse_total p d _ Hv Hc) as (ok & c' & p1 & x & -> & Hc' & V & O & H1 & H2 & H3 & H4 & H5 & H6 & H7). mstep.
    assert (is_chunked p1 = true) as Hch1 by (unfold is_chunked; by rewrite H1).
    destruct ok; cbn [negb].
    + set (p2 := set_chunked None _ _).
      assert (exists y, body_range p2 = Ok y) as [y Hy].
      { destruct (H4 eq_refl) as [Hx| ->]; [|by apply file_range]. apply (fits_range p2 x); [exact V|].
        split; [|exact Hx]. destruct (u32_range (Chunked.total_bytes_ c')). done. }
      destruct (content_parse_total p2 y Hy) as [(ok & p3 & -> & (K1 & K2 & K3 & K4 & K5 & K6))|[Hm Hr]].
      2: { right. change (content_type_ (body p2)) with (content_type_ (body p1)) in Hm. rewrite H7 in Hm. apply gives_up_bind. by split. }
      mstep. left. do 2 eexists. split; [reflexivity|].
      split; [change (ByteBuffer.wf (input_cache_ p3)); rewrite K1; apply V|]. intros _.
      apply (open_chunked (set_good ok p3) x).
      * cbn. by rewrite K1.
      * cbn. by rewrite K1.
      * unfold state. cbn. rewrite K4. cbn. by rewrite H3.
      * cbn. rewrite K5. cbn. destruct (u32_range (Chunked.total_bytes_ c')). done.
      * unfold is_chunked. cbn. rewrite K3. exact Hch1.
      * cbn. rewrite K2. cbn. rewrite H2. auto.
      * cbn. rewrite K6. repeat split; done.
    + left. do 2 eexists. split; [reflexivity|]. split; [apply V|]. intros _. apply (open_chunked _ x); try done.
      * unfold state. cbn. by rewrite H3.
      * cbn. rewrite H6 by done. apply Hs.
      * cbn. rewrite H2. auto.
  - assert (exists y, body_range p = Ok y) as [y Hy].
    { apply (fits_range p d); [exact Hv|]. split; [apply Hs|]. destruct Hf as [?|[?|[?|?]]]; try congruence. destruct Esp. destruct (spool_ (body p)); [by eexists|done]. }
    destruct (content_parse_total p y Hy) as [(ok & p3 & -> & (K1 & _))|Hm]; [|right; by apply gives_up_bind].
    mstep. left. do 2 eexists. split; [reflexivity|].
    split; [cbn; by rewrite K1|done].
Qed.

Definition closes (v : verdict) : bool := match v with refused _ true => true | _ => false end.
Lemma round_total p : ready_if_done p -> chunk_fine (default Chunked.init (pre_content_parser_ (body p))) ->
  (exists v c', round env (Http1Connection.mk true p) = Ok (v, c') /\ (closes v = false -> open_connection c'))
  \/ gives_up p (round env (Http1Connection.mk true p)).
Proof.
  intros Hp Hc. unfold round. cbn [request]. destruct (good p) eqn:Hg; cbn [negb].
  2:{ mstep. unfold verdict_of. cbn [request]. rewrite Hg. cbn [negb]. left. by do 2 eexists. }
  unfold is_completed. cbn [request has_parsed_]. destruct (done p) eqn:Hd; cbn [negb].
  2:{ mstep. unfold verdict_of. cbn [request]. rewrite Hg. cbn [negb]. left. do 2 eexists. split; [reflexivity|]. intros _.
      destruct Hp as (d & Hv & Ho & Hs & Hdl & _). split; [apply Hv|]. intros _. split; [by exists d|]. split; [done|]. split; [|split; [done|]].
      - destruct (is_download_file_ (status p)) eqn:E; [|done]. cbn [request] in *. destruct (Hdl eq_refl). congruence.
      - cbn [request]. by rewrite Hd. }
  destruct (parse_content_total p Hp Hg Hd Hc) as [(ok & p' & E & Hwf & Hch)|Hm]; cbn [has_parsed_ request].
  2:{ right. by do 2 apply gives_up_bind. }
  rewrite E. mstep. cbn [has_parsed_ request].
  set (h := if negb (is_chunked p) || _ then false else true).
  assert (open_connection (Http1Connection.mk h p')) as Hop.
  { split; [exact Hwf|]. cbn [has_parsed_ request]. unfold h. destruct (is_chunked p); [by auto|done]. }
  left. destruct ok; cbn [negb]; [destruct (_ && _); [|destruct (validate_request_version env p')]|]; mstep; by do 2 eexists.
Qed.

(** The packet of a read has a multipart type. *)
Definition multipart_read (data : ByteBuffer.t) (c : Http1Connection.t) : bool :=
  match parse_from env data c with Ok (_, c) => is_multipart (content_type_ (body (request c))) | _ => false end.
(** A read, or several, that a multipart parser does not return from. *)
Definition stops {A} (m : outcome A) : Prop := m = Fault \/ m = Reject.

Lemma on_read_total data c x : open_connection c -> incoming data x ->
  (exists v c', on_read env data c = Ok (v, c') /\ (closes v = false -> open_connection c'))
  \/ multipart_read data c = true /\ stops (on_read env data c).
Proof.
  intros [Hwf Hc] Hx. rewrite on_read_round. unfold multipart_read, parse_from. cbv zeta. set (c1 := if negb (has_parsed_ c) then _ else c).
  assert (has_parsed_ c1 = true /\ open_packet (request c1)) as [-> ((d & Hv & Ho) & Hs & Hdl & Hf & Hch)].
  { unfold c1. destruct (has_parsed_ c) eqn:E; cbn [negb]; [by auto|]. split; [done|]. by apply open_reset. }
  destruct (done (request c1)) eqn:Hd.
  - specialize (Hch eq_refl).
    assert (exists ok, packet_parse env data (request c1) = Ok (ok, request c1)) as [ok ->].
    { unfold packet_parse. rewrite Hd, Hdl. cbn [andb negb]. rewrite (bool_decide_eq_false_2 (body_state _ = partial)); [rewrite andb_false_r; by exists true|].
      intros E. unfold done, is_body_done in Hd. rewrite E, Hdl in Hd. cbn in Hd. by rewrite andb_false_r in Hd. }
    mstep. apply round_total; [|done]. exists d. rewrite Hdl. repeat (split; [done|]). intros _ _. right. by left.
  - destruct (packet_parse_more env data x (request c1) d Hd Hdl Hx Hv Ho) as (k & Hk & Hko & ->).
    destruct (input_cache_parsed env (set_input_cache k (request c1)) (d ++ x)) as (ok & p' & -> & Hp & Hpre); try done.
    mstep. apply round_total; [done|]. by rewrite Hpre.
Qed.

(** The connection after its reads. *)
Definition after (rs : list (verdict * Http1Connection.t)) (c : Http1Connection.t) : Http1Connection.t := default c (snd <$> last rs).
Lemma after_cons r rs c : after (r :: rs) c = after rs (snd r).
Proof. unfold after. rewrite last_cons. by destruct (last rs). Qed.
Lemma run_total reads xs c : open_connection c -> Forall2 incoming reads xs ->
  (exists rs, run env reads c = Ok rs /\ (length rs = length reads \/ exists r, last rs = Some r /\ closes (fst r) = true))
  \/ stops (run env reads c) /\ exists before data rest rs, reads = before ++ data :: rest /\ run env before c = Ok rs
       /\ multipart_read data (after rs c) = true.
Proof.
  intros Hc H. revert c Hc. induction H as [|data x reads xs Hx _ IH]; intros c Hc; cbn [run]; [left; exists []; auto|].
  destruct (on_read_total data c x Hc Hx) as [(v & c' & E & Hc')|[Hm Hs]].
  2:{ right. split; [(destruct Hs as [-> | ->]; [by left|by right])|]. by exists [], data, reads, []. }
  rewrite E. mstep. destruct (closes v) eqn:Ev.
  - left. destruct v as [|codes []|]; try done. mstep. eexists. split; [reflexivity|]. right. by eexists.
  - destruct (IH c' (Hc' eq_refl)) as [(rs & -> & Hr)|[Hs (before & data' & rest & rs & -> & Hrun & Hm)]].
    + left. assert (length ((v, c') :: rs) = length (data :: reads) \/ exists r, last ((v, c') :: rs) = Some r /\ closes (fst r) = true) as Hr'.
      { destruct Hr as [Hr|(r & Hr & Hcl)]; [left; cbn; by rewrite Hr|right; exists r; split; [|done]]. rewrite last_cons, Hr. done. }
      destruct v as [|codes []|]; try done; mstep; eexists; (split; [reflexivity|exact Hr']).
    + right. split; [destruct v as [|codes []|]; try done; (destruct Hs as [-> | ->]; [by left|by right])|].
      exists (data :: before), data', rest, ((v, c') :: rs). split; [done|]. split; [|by rewrite after_cons].
      cbn [run]. rewrite E. mstep. rewrite Hrun. by destruct v as [|codes []|].
Qed.
End Connections.
