(* ===== verification/Http1Theorems.v ===== *)
(** What an HTTP/1 connection and its parser promise. *)
From stdpp Require Import gmap.
From S2P Require Import Prelude Strings ByteBuffer ByteBufferFacts Http1 Http1Facts Http1MultipartFacts Http1BodyFacts.
Import Http1 Http1Connection.

(** * The header store as a map
    What is done to the headers of a packet, on the store and on a map of the lower-case
    names. *)
Inductive header_call : Type :=
| call_add (k v : bytes)
| call_parsed (k v : bytes)
| call_remove (k : bytes)
| call_clear.
Definition call_ok (o : header_call) : Prop :=
  match o with
  | call_add k _ | call_remove k => k <> []
  | call_parsed k _ => is_Some (Headers.canonical_header_key k)
  | call_clear => True
  end.
Definition on_store (o : header_call) (h : Headers.t) : Headers.t :=
  match o with
  | call_add k v => Headers.add_header k v h
  | call_parsed k v => Headers.add_parsed_header (default k (Headers.canonical_header_key k)) v h
  | call_remove k => Headers.remove_header k h
  | call_clear => Headers.clear_header h
  end.
Definition on_map (o : header_call) (m : gmap bytes bytes) : gmap bytes bytes :=
  match o with
  | call_add k v | call_parsed k v => <[Headers.fold_key k := v]> m
  | call_remove k => delete (Headers.fold_key k) m
  | call_clear => ∅
  end.
Definition all_on_store (ops : list header_call) : Headers.t := foldl (fun h o => on_store o h) Headers.init ops.
Definition all_on_map (ops : list header_call) : gmap bytes bytes := foldl (fun m o => on_map o m) ∅ ops.

(** The store stands for the map. *)
Definition stands_for (h : Headers.t) (m : gmap bytes bytes) : Prop :=
  store_ok h /\ forall k, k <> [] -> Headers.get_header k h = m !! Headers.fold_key k.
Lemma canonical_idem k c : Headers.canonical_header_key k = Some c -> Headers.fold_key c = Headers.fold_key k.
Proof. intros H. destruct (canonical_spec k c H) as [<- _]. apply fold_key_fold. Qed.
Lemma call_stands o h m : call_ok o -> stands_for h m -> stands_for (on_store o h) (on_map o m).
Proof.
  intros Ho [Hs H]. destruct o as [k v|k v|k|]; cbn [on_store on_map call_ok] in *.
  - split; [by apply store_add|]. intros k' Hk'. rewrite get_add, H by done. case_bool_decide as E; [by rewrite E, lookup_insert_eq|].
    by rewrite lookup_insert_ne.
  - destruct Ho as [c Hc]. rewrite Hc. cbn [default option_map from_option id]. destruct (canonical_spec k c Hc) as [Hf Hslot].
    split; [by apply store_add_parsed|]. intros k' Hk'. rewrite get_add_parsed, H, (canonical_idem k c Hc) by done.
    case_bool_decide as E; [by rewrite E, lookup_insert_eq|]. by rewrite lookup_insert_ne.
  - split; [by apply store_remove|]. intros k' Hk'. rewrite get_remove, H by done.
    case_bool_decide as E; [by rewrite E, lookup_delete_eq|]. by rewrite lookup_delete_ne.
  - split; [done|]. intros k' Hk'. rewrite lookup_empty. apply (get_init k').
Qed.
Lemma calls_stand ops h m : Forall call_ok ops -> stands_for h m ->
  stands_for (foldl (fun h o => on_store o h) h ops) (foldl (fun m o => on_map o m) m ops).
Proof. intros H. revert h m. induction H as [|o ops Ho _ IH]; intros h m Hm; [done|]. apply IH. by apply call_stands. Qed.

(** C22: The headers of a packet, kept in eight slots and a hash table, are a map with case-insensitive names: after any calls of [add_header], of the parser's [add_parsed_header], of [remove_header] and of [clear_header], the value of a header is what a map of the lower-case names has after the same calls, and the table that [headers()] hands out has the same value once the slots are copied into it. *)
Theorem http1_headers_refine ops k : Forall call_ok ops -> k <> [] ->
  Headers.get_header k (all_on_store ops) = all_on_map ops !! Headers.fold_key k /\
  snd <$> Headers.headers_ (Headers.materialize_parsed_headers (all_on_store ops)) !! Headers.fold_key k
    = all_on_map ops !! Headers.fold_key k.
Proof.
  intros Ho Hk. destruct (calls_stand ops Headers.init ∅ Ho) as [Hs H].
  - split; [done|]. intros k' _. rewrite lookup_empty. apply get_init.
  - rewrite materialize_get by done. by split; apply H.
Qed.
Lemma http1_headers_refine_witness :
  let ops := [call_parsed (str "Host") (str "a"); call_add (str "X-Id") (str "1"); call_add (str "HOST") (str "b"); call_remove (str "x-id")] in
  Headers.get_header (str "host") (all_on_store ops) = all_on_map ops !! Headers.fold_key (str "host") /\
  snd <$> Headers.headers_ (Headers.materialize_parsed_headers (all_on_store ops)) !! Headers.fold_key (str "host")
    = all_on_map ops !! Headers.fold_key (str "host").
Proof.
  apply (http1_headers_refine _ (str "host")); [|done].
  apply Forall_cons; split; [by eexists|]. repeat (apply Forall_cons; split; [done|]). by apply Forall_nil.
Defined.

(** * The data of the witnesses *)
Definition some_env : Env := mkEnv 1048576 5242880 false false (fun _ => true) false [] (fun _ => true) true (fun _ => true) 0.
Definition buffer_with (x : bytes) : ByteBuffer.t := ByteBuffer.mk x 0 (zlen x).
Lemma buffer_incoming x : incoming (buffer_with x) x.
Proof. split; [|done]. pose proof (view_mk [] x []) as H. by rewrite app_nil_l, app_nil_r in H. Qed.
Lemma some_env_ok : env_ok some_env.
Proof. by apply (bool_decide_unpack _). Qed.
Lemma init_fresh : fresh Http1Connection.init.
Proof. split; [done|]. by apply (bool_decide_unpack _). Qed.
Definition get_root : Text := mkText get_ (str "/") v_1_1 [(str "Host", str "a")] [].
Definition post_form : Text :=
  mkText post_ (str "/form?q=1") v_1_1 [(str "Host", str "a"); (str "Content-Type", str "text/plain"); (str "Content-Length", str "5")] (str "hello").
Definition post_chunks : Text :=
  mkText post_ (str "/up") v_1_1 [(str "Host", str "a"); (str "Transfer-Encoding", str "gzip, chunked")] [].
Lemma get_root_text : text_ok get_root.
Proof. split; [done|]. split; [by eexists|]. split; [by apply (bool_decide_unpack _)|]. split; [done|]. by apply (bool_decide_unpack _). Qed.
Lemma post_form_text : text_ok post_form.
Proof. split; [done|]. split; [by eexists|]. split; [by apply (bool_decide_unpack _)|]. split; [done|]. by apply (bool_decide_unpack _). Qed.
Lemma post_chunks_text : text_ok post_chunks.
Proof. split; [done|]. split; [by eexists|]. split; [by apply (bool_decide_unpack _)|]. split; [done|]. by apply (bool_decide_unpack _). Qed.
Lemma get_root_framed : framed some_env get_root.
Proof. repeat split; by apply (bool_decide_unpack _). Qed.
Lemma post_form_framed : framed some_env post_form.
Proof. repeat split; by apply (bool_decide_unpack _). Qed.

(** A request with a form of the parts [qs]. *)
Definition form_request (b : bytes) (qs : list part) (t : Text) : Prop :=
  (exists v, last_value Headers.content_type (t_fields t) = Some v /\ v <> [] /\ type_of v = multpart_form_data /\
             extra_of v !! str "boundary" = Some b) /\
  boundary_ok b /\ qs <> [] /\ Forall (part_ok b) qs /\ (exists tail, t_payload t = form_text b qs ++ tail) /\ zlen (t_payload t) < 4294967296.
Lemma form_content env b qs t : form_request b qs t ->
  content_accepted env t /\ content_of env t = Some (FormDataContent (form_fields env qs)).
Proof.
  intros ((v & Hv & Hne & Hty & Hex) & Hb & Hq & Hqs & [tail Ht] & Hz).
  assert (multipart_of env v (t_payload t) = Ok (Some (FormDataContent (form_fields env qs)))) as E
    by (unfold multipart_of; rewrite Hty; by apply (form_read env _ Hz _ b Hex Hb qs tail)).
  unfold content_accepted, content_of. rewrite Hv, Hty, E. eauto.
Qed.

(** C17: On a connection that is not in the middle of a request, every read that holds a complete request of HTTP/1.0 or 1.1 is dispatched as exactly that request: its line, every header under any case of its name, its body and the content made of the body are those of the text. The next read starts from a clean packet, so what follows the body in the same read is dropped. The request has a known method, a target that starts with a slash and has no space, header fields without a line feed whose names are not empty and have no colon, and, with what follows it in the read, at most max_header_length bytes; its body has the length that its Content-Length says, within client_max_content_length (and within the spool threshold for PUT, whose larger bodies go to a file), or there is none. There is no Transfer-Encoding, no Content-Disposition (such a request is answered 400), and the content type, if one is given, is not empty, is not x-www-form-urlencoded, and its parser accepts the body: the JSON library does for JSON, and for a multipart type the parser of the repository returns a content, which is then the content. For a multipart form that parser does, and the content has the fields of the parts: the values under their names, and the files with their name, type and data, in memory or in the file that they are saved to, when the form has a part, every part is written as its disposition and its value or its type and its data, the delimiter is not in the data, names and file names are not empty and have no upper case, space, quote or separator, values have no line end, types are in lower case and have no parameters, and the boundary is not empty, in lower case and without a zero byte. *)
Theorem http1_requests_served env reads ts c : env_ok env -> fresh c ->
  Forall (fun te => text_ok (fst te) /\ (t_version (fst te) = v_1_0 \/ t_version (fst te) = v_1_1) /\ framed env (fst te) /\
                    content_accepted env (fst te) /\ zlen (request_text (fst te) ++ snd te) <= max_header_length env) ts ->
  Forall2 (fun data te => incoming data (request_text (fst te) ++ snd te)) reads ts ->
  (exists rs, run env reads c = Ok rs /\ Forall2 (fun r te => fst r = dispatched /\ served env (fst te) (snd r)) rs ts) /\
  forall b qs t, form_request b qs t -> content_accepted env t /\ content_of env t = Some (FormDataContent (form_fields env qs)).
Proof. intros He Hc Ht Hr. split; [by apply (run_served env reads ts)|]. intros b qs t. apply form_content. Qed.
Definition some_parts : list part := [TextPart (str "user") (str "Ann"); FilePart (str "file") (str "a.txt") (str "text/plain") (str "hi")].
Definition post_parts : Text :=
  mkText post_ (str "/up") v_1_1 [(str "Content-Type", str "multipart/form-data; boundary=bb"); (str "Content-Length", str "165")]
    (form_text (str "bb") some_parts).
Lemma post_parts_text : text_ok post_parts.
Proof. split; [done|]. split; [by eexists|]. split; [by apply (bool_decide_unpack _)|]. split; [done|]. by apply (bool_decide_unpack _). Qed.
Lemma post_parts_framed : framed some_env post_parts.
Proof. repeat split; by apply (bool_decide_unpack _). Qed.
Lemma post_parts_request : form_request (str "bb") some_parts post_parts.
Proof.
  split; [eexists; split_and!; [reflexivity|done|by apply (bool_decide_unpack _)|by apply (bool_decide_unpack _)]|].
  split; [split; [done|by repeat constructor]|]. split; [done|]. split; [|split; [exists []; by apply (bool_decide_unpack _)|by vm_compute]].
  assert (forall s, s <> [] -> Forall word_char s -> word s) as W by done.
  apply Forall_cons; split; [|apply Forall_cons; split; [|by apply Forall_nil]].
  - split; [apply W; [done|by repeat constructor]|by repeat constructor].
  - cbn [part_ok]. split_and!; [apply W; [done|by repeat constructor]|apply W; [done|by repeat constructor]|done|done|by repeat constructor|].
    intros i Hi. cbn in Hi. do 4 (destruct i as [|i]; [by vm_compute|]). lia.
Qed.
Lemma http1_requests_served_witness :
  let ts := [(post_form, str "GET "); (post_parts, []); (get_root, [])] in
  (exists rs, run some_env (map (fun te => buffer_with (request_text (fst te) ++ snd te)) ts) Http1Connection.init = Ok rs /\
    Forall2 (fun r te => fst r = dispatched /\ served some_env (fst te) (snd r)) rs ts) /\
  content_of some_env post_parts = Some (FormDataContent (form_fields some_env some_parts)).
Proof.
  intros ts. edestruct (http1_requests_served some_env (map (fun te => buffer_with (request_text (fst te) ++ snd te)) ts) ts Http1Connection.init) as [H K].
  - apply some_env_ok.
  - apply init_fresh.
  - apply Forall_cons; split; [|apply Forall_cons; split; [|apply Forall_cons; split; [|by apply Forall_nil]]].
    + split; [apply post_form_text|]. split; [by right|]. split; [apply post_form_framed|]. by split; apply (bool_decide_unpack _).
    + split; [apply post_parts_text|]. split; [by right|]. split; [apply post_parts_framed|]. split; [|by apply (bool_decide_unpack _)].
      by apply (form_content some_env _ _ _ post_parts_request).
    + split; [apply get_root_text|]. split; [by right|]. split; [apply get_root_framed|]. by split; apply (bool_decide_unpack _).
  - repeat (apply Forall2_cons; split; [apply buffer_incoming|]). by apply Forall2_nil.
  - split; [exact H|]. by apply (K _ _ _ post_parts_request).
Defined.

(** C19: A chunked request is decoded whatever the pieces its body arrives in, as long as the last read brings at least the last line end of the body (and what follows it): every earlier read leaves the connection waiting, and the last dispatches the request of the head, with the data of the chunks as its body, in order. The connection goes on counting the request as being parsed, though: what it does at the next read does not depend on what was read, so the next request is lost. The request has no Content-Type (chunked JSON, for one, is answered 400), its chunks no extensions and its end no trailers, each chunk is within the size limit of the decoder, all the data within client_max_content_length and within the megabyte after which it goes to a file, and each read, the head with the first, within max_header_length. *)
Theorem http1_chunked_served env t ks ps last e reads c : env_ok env -> asks_chunked t ->
  (t_version t = v_1_0 \/ t_version t = v_1_1) -> zlen (chunks_data ks) <= client_max_content_length env ->
  zlen (chunks_data ks) <= Chunked.disk_spill_size_ -> fresh c -> text_ok t -> Forall chunk_ok ks ->
  concat ps ++ last = chunks_text ks ++ e -> (length e + 2 <= length last)%nat ->
  Forall2 incoming reads (attach (head_text t) (ps ++ [last])) ->
  Forall (fun x => zlen x <= max_header_length env) (attach (head_text t) (ps ++ [last])) ->
  exists ws c', run env reads c = Ok (ws ++ [(dispatched, c')]) /\ Forall (fun w => fst w = awaits) ws /\
    chunked_served t (chunks_data ks) c' /\ forall data data', on_read env data c' = on_read env data' c'.
Proof.
  intros He Ht Hv Hm Hs Hc Hok Hk Hcut Hl Hx Hz.
  destruct (run_chunked env t (chunks_data ks) He Ht Hv Hm Hs ks ps last e reads c Hc Hok Hk eq_refl Hcut Hl Hx Hz) as (ws & c' & E & Hw & H).
  exists ws, c'. split; [done|]. split; [done|]. split; [done|]. intros data data'. by apply (next_unread env t (chunks_data ks)).
Qed.
Definition two_chunks : list chunk := [(str "5", str "hello"); (str "0001", str "!")].
Lemma http1_chunked_served_witness :
  let pieces := [take 4 (chunks_text two_chunks); drop 4 (chunks_text two_chunks)] in
  exists ws c', run some_env (map buffer_with (attach (head_text post_chunks) pieces)) Http1Connection.init = Ok (ws ++ [(dispatched, c')]) /\
    Forall (fun w => fst w = awaits) ws /\ chunked_served post_chunks (chunks_data two_chunks) c' /\
    forall data data', on_read some_env data c' = on_read some_env data' c'.
Proof.
  apply (http1_chunked_served some_env post_chunks two_chunks [take 4 (chunks_text two_chunks)] (drop 4 (chunks_text two_chunks)) []);
    try (by apply (bool_decide_unpack _)).
  - split; [by eexists|done].
  - by right.
  - apply post_chunks_text.
Defined.

(** C20: How a request of known length is cut into reads does not matter, as long as the reads together have at most max_header_length bytes and the body is neither chunked nor kept in a file: when the reads before the last have left the connection waiting, the last read comes to the same as one read of all the bytes on the connection as it was: the same verdict, and the same state but for the storage of the buffer. *)
Theorem http1_pieces_agree env reads pieces data x whole c c' : env_ok env -> fresh c ->
  Forall2 incoming reads pieces -> incoming data x -> incoming whole (concat pieces ++ x) ->
  zlen (concat pieces ++ x) <= max_header_length env -> held env reads c c' ->
  both alikev (on_read env data c') (on_read env whole c).
Proof. intros He [H1 H2]. by apply http1_pieces. Qed.
Definition waits (r : outcome (verdict * Http1Connection.t)) : bool :=
  match r with
  | Ok (awaits, c) => negb (is_chunked (request c)) && bool_decide (spool_ (body (request c)) = None)
  | _ => false
  end.
Lemma held_once env data c : waits (on_read env data c) = true -> exists c', held env [data] c c'.
Proof.
  intros H. destruct (on_read env data c) as [[[] c']| | |] eqn:E; try done. cbn [waits] in H. apply andb_prop in H as [H1 H2].
  exists c', c'. split; [done|]. split; [split; [by apply negb_true_iff|by apply bool_decide_eq_true in H2]|done].
Qed.
Lemma http1_pieces_agree_witness :
  exists c', held some_env [buffer_with (take 30 (request_text post_form))] Http1Connection.init c' /\
    both alikev (on_read some_env (buffer_with (drop 30 (request_text post_form))) c')
                (on_read some_env (buffer_with (request_text post_form)) Http1Connection.init).
Proof.
  destruct (held_once some_env (buffer_with (take 30 (request_text post_form))) Http1Connection.init) as [c' Hc']; [by vm_compute|].
  exists c'. split; [exact Hc'|].
  apply (http1_pieces_agree some_env [buffer_with (take 30 (request_text post_form))] [take 30 (request_text post_form)]
           (buffer_with (drop 30 (request_text post_form))) (drop 30 (request_text post_form)));
    [apply some_env_ok|apply init_fresh| |apply buffer_incoming| |by apply (bool_decide_unpack _)|exact Hc'].
  - apply Forall2_cons; split; [apply buffer_incoming|by apply Forall2_nil].
  - apply buffer_incoming.
Defined.

(** C21: A request whose length is not acceptable is answered and the connection closed, whatever its body: 400 when its Content-Length is not a number of 32 bits, when it has both a Content-Length and a Transfer-Encoding, or when its Transfer-Encoding is not chunked; 413 when its length is more than the limit. A PUT of more than 64 KiB is not covered: its body goes to a file, and the limit is not tested. *)
Theorem http1_framing_refused env t c data rest code : env_ok env -> fresh c -> text_ok t ->
  incoming data (head_text t ++ rest) -> zlen (head_text t ++ rest) <= max_header_length env ->
  unframed t /\ code = bad_request \/ oversized env t /\ code = payload_too_large ->
  exists c', on_read env data c = Ok (refused [code] true, c').
Proof.
  intros He Hc Ht Hx Hz H. destruct (read_refused env t c data rest He Hc Ht Hx Hz) as [H1 H2].
  destruct H as [[H ->]|[H ->]]; [by apply H1|by apply H2].
Qed.
Definition smuggled : Text :=
  mkText post_ (str "/") v_1_1 [(str "Content-Length", str "5"); (str "transfer-encoding", str "chunked")] [].
Lemma http1_framing_refused_witness :
  exists c', on_read some_env (buffer_with (head_text smuggled ++ str "0")) Http1Connection.init = Ok (refused [400] true, c').
Proof.
  apply (http1_framing_refused some_env smuggled Http1Connection.init (buffer_with (head_text smuggled ++ str "0")) (str "0") 400);
    [apply some_env_ok|apply init_fresh| |apply buffer_incoming|by apply (bool_decide_unpack _)|].
  - split; [done|]. split; [by eexists|]. split; [by apply (bool_decide_unpack _)|]. split; [done|]. by apply (bool_decide_unpack _).
  - left. split; [|done]. right. left. split; by eexists.
Defined.

(** The target of a request with a query. *)
Definition with_query (path : bytes) (kvs : list (bytes * bytes)) : bytes := 47 :: path ++ 63 :: Url.encode_query kvs.
Definition values_of (k : bytes) (kvs : list (bytes * bytes)) : list bytes :=
  map snd (List.filter (fun kv => bool_decide (kv.1 = k)) kvs).

(** The parameters of a query survive the way from a client: when the target of a request is a path and a query of percent-encoded pairs of any bytes, the request that is dispatched has, under each name, the values it was given, decoded and in order, and none under any other name. *)
Theorem http1_query_read env t path kvs c data extra : env_ok env -> fresh c -> text_ok t ->
  (t_version t = v_1_0 \/ t_version t = v_1_1) -> framed env t -> content_accepted env t ->
  incoming data (request_text t ++ extra) -> zlen (request_text t ++ extra) <= max_header_length env ->
  t_target t = with_query path kvs -> 63 ∉ path -> kvs <> [] ->
  Forall (fun kv => kv.1 <> [] /\ Forall is_u8 kv.1 /\ Forall is_u8 kv.2) kvs ->
  exists c', on_read env data c = Ok (dispatched, c') /\
    forall k, default [] (params_ (line (request c')) !! k) = values_of k kvs.
Proof.
  intros He Hc Ht Hv Hf Hca Hx Hz Htt Hp Hn Hk.
  destruct (read_served env t c data extra He Hc Ht Hv Hf Hca Hx Hz) as (c' & E & (_ & [Hl _] & _) & _).
  exists c'. split; [done|]. intros k. rewrite Hl, Htt. cbn [params_]. unfold params_after, with_query.
  assert (63 ∉ 47 :: path) as Hp' by (apply not_elem_of_cons; done).
  change (47 :: path ++ 63 :: Url.encode_query kvs) with ((47 :: path) ++ 63 :: Url.encode_query kvs).
  rewrite Url.index_of_middle by done.
  assert (substr_from ((47 :: path) ++ 63 :: Url.encode_query kvs) (length (47 :: path)) = [] ++ 63 :: Url.encode_query kvs) as ->
    by (unfold substr_from; by apply drop_app_length').
  rewrite Url.decode_parameters_encoded by (done || apply not_elem_of_nil). cbn [snd]. by rewrite Url.params_of_lookup, lookup_empty.
Qed.
Definition some_query : list (bytes * bytes) := [(str "q", str "a&b=c"); (str "page", str "2"); (str "q", str "x y")].
Definition get_query : Text := mkText get_ (with_query (str "find") some_query) v_1_1 [(str "Host", str "a")] [].
Lemma http1_query_read_witness :
  exists c', on_read some_env (buffer_with (request_text get_query ++ [])) Http1Connection.init = Ok (dispatched, c') /\
    forall k, default [] (params_ (line (request c')) !! k) = values_of k some_query.
Proof.
  apply (http1_query_read some_env get_query (str "find") some_query Http1Connection.init (buffer_with (request_text get_query ++ [])) []);
    [apply some_env_ok|apply init_fresh| |by right| |done|apply buffer_incoming|by apply (bool_decide_unpack _)|done|by apply (bool_decide_unpack _)|done|].
  - split; [done|]. split; [by eexists|]. split; [by apply (bool_decide_unpack _)|]. split; [done|]. by apply (bool_decide_unpack _).
  - repeat split; by apply (bool_decide_unpack _).
  - by apply (bool_decide_unpack _).
Defined.

(** C18: Whatever a client sends, in whatever pieces and with whatever limits, no loop of the parser and of the decoders of bodies runs on, and every read ends in a verdict, with no byte read that was not received, until the client stops or a verdict closes the connection; the one exception is a read whose packet has a multipart type. There the parser of the multipart body may read past the end of the body or throw: when the reads have no verdicts for each, the reads before some read have, and that read is one of a packet with the type multipart/form-data or multipart/byteranges. *)
Theorem http1_total env reads xs c : open_connection c -> Forall2 incoming reads xs ->
  (exists rs, run env reads c = Ok rs /\ (length rs = length reads \/ exists r, last rs = Some r /\ closes (fst r) = true)) \/
  stops (run env reads c) /\
  exists before data rest rs, reads = before ++ data :: rest /\ run env before c = Ok rs /\ multipart_read env data (after rs c) = true.
Proof. apply run_total. Qed.
Lemma http1_total_witness :
  let reads := [buffer_with (str "PUT"); buffer_with [32; 255; 0]; buffer_with []] in
  (exists rs, run some_env reads Http1Connection.init = Ok rs /\
    (length rs = length reads \/ exists r, last rs = Some r /\ closes (fst r) = true)) \/
  stops (run some_env reads Http1Connection.init) /\
  exists before data rest rs, reads = before ++ data :: rest /\ run some_env before Http1Connection.init = Ok rs /\
    multipart_read some_env data (after rs Http1Connection.init) = true.
Proof.
  apply (http1_total some_env _ [str "PUT"; [32; 255; 0]; []] Http1Connection.init); [apply open_connection_init|].
  repeat (apply Forall2_cons; split; [apply buffer_incoming|]). by apply Forall2_nil.
Defined.

(** Both happen. A form whose last delimiter is missing makes the parser read behind the body,
    and a range of another unit of length makes [std::stoul] throw. *)
Definition of_type (type body : bytes) : ByteBuffer.t :=
  buffer_with (request_text (mkText post_ (str "/") v_1_1
    [(str "Content-Type", type ++ str "; boundary=bb"); (str "Content-Length", to_string (zlen body))] body)).
Example form_unfinished :
  on_read some_env (of_type (str "multipart/form-data")
    (str "--bb" ++ [13; 10] ++ disposition (TextPart (str "a") []) ++ [13; 10; 13; 10] ++ str "Hello")) Http1Connection.init = Fault.
Proof. by vm_compute. Qed.
Example range_unknown :
  on_read some_env (of_type (str "multipart/byteranges")
    (str "--bb" ++ [13; 10] ++ str "Content-Type: text/plain" ++ [13; 10] ++ str "Content-Range:bytes 0-4/*" ++ [13; 10] ++ str "Hello--bb--"))
    Http1Connection.init = Reject.
Proof. by vm_compute. Qed.
