(* ===== verification/Http2Theorems.v ===== *)
(** What an HTTP/2 session and the server over it promise. *)
From stdpp Require Import gmap.
From S2P Require Import Prelude ByteBuffer ByteBufferFacts Strings Huffman Hpack HpackFacts Http2Frame.
From S2P Require Import Http2Session Http2SessionFacts Http2ReceiveFacts Http2Bridge Http2BridgeFacts Http2System.

(** * Theorems on header compression: the Huffman code and HPACK header blocks. *)
Section HeaderCompression.
Import HpackTable.

(** C16: The Huffman decoder accepts exactly the bit strings that are the codes of some bytes followed by fewer than 30 ones, and returns those bytes: its table is a prefix code, so they are the only ones. The encoder's output is accepted, with at most 7 bits of padding. *)
Theorem huffman_exact data r :
  (Huffman.huffman_decode data [] = Ok r <->
     Forall is_u8 r /\ exists k, (k < 30)%nat /\ bits_of data = code_of r ++ replicate k true)
  /\ safe (Huffman.huffman_decode data [])
  /\ (Forall is_u8 r -> exists x k, Huffman.huffman_encode r [] = Ok x /\ (k < 8)%nat /\ bits_of x = code_of r ++ replicate k true
        /\ Huffman.huffman_decode x [] = Ok r).
Proof.
  split; [|split; [apply huffman_decode_total|]].
  - rewrite huffman_decode_iff. split.
    + intros (s & k & -> & Hs & Hk & Hb). split; [done|]. by exists k.
    + intros (Hs & k & Hk & Hb). by exists r, k.
  - intros Hr. destruct (huffman_encode_ok r [] Hr) as (x & k & E & Hk & Hx & Hb). exists x, k. split; [done|]. split; [done|].
    split; [done|]. apply huffman_decode_iff. exists r, k. split; [done|]. split; [done|]. split; [lia|done].
Qed.
Lemma huffman_exact_witness : exists x, Huffman.huffman_encode (str "www.example.com") [] = Ok x /\ Huffman.huffman_decode x [] = Ok (str "www.example.com").
Proof.
  destruct (huffman_exact [] (str "www.example.com")) as (_ & _ & H). destruct H as (x & k & E & _ & _ & D); [by apply (bool_decide_unpack _)|].
  exists x. split; [exact E|exact D].
Defined.

(** C15: A header block that the encoder writes is read by a decoder whose dynamic table is the encoder's up to the case of the names: the decoder yields a field for each header, with its name up to case and its value, and the two tables agree again after it. When all names are in lower case, as HTTP/2 has them, the headers are exactly what was sent. *)
Theorem hpack_roundtrip hs e d : Forall header_wf hs -> synced e d ->
  exists x e' fs d', HpackEncoder.encode_headers hs e [] = Ok (x, e')
    /\ HpackDecoder.decode x d = Ok (true, fs, d') /\ synced e' d'
    /\ Forall2 field_ci fs hs
    /\ (lower_table d -> Forall (fun h => is_lower h.1) hs -> map (fun f => (field_name f, field_value f)) fs = hs /\ lower_table d').
Proof.
  intros Hh Hs. destruct (decode_headers_sent hs e d Hh Hs) as (x & e' & fs & d' & H1 & _ & H2 & H3 & H4 & H5).
  by exists x, e', fs, d'.
Qed.
Lemma hpack_roundtrip_witness :
  let hs := [(str ":status", str "200"); (str "x-a", str "b"); (str "x-a", str "b")] in
  exists x e' fs d', HpackEncoder.encode_headers hs HpackEncoder.init [] = Ok (x, e')
    /\ HpackDecoder.decode x HpackEncoder.init = Ok (true, fs, d') /\ synced e' d'
    /\ Forall2 field_ci fs hs
    /\ (lower_table HpackEncoder.init -> Forall (fun h => is_lower h.1) hs -> map (fun f => (field_name f, field_value f)) fs = hs /\ lower_table d').
Proof.
  apply (hpack_roundtrip [(str ":status", str "200"); (str "x-a", str "b"); (str "x-a", str "b")]).
  - apply Forall_forall. intros h Hh. assert (Forall (fun h => str_wf h.1 /\ str_wf h.2) [(str ":status", str "200"); (str "x-a", str "b"); (str "x-a", str "b")]) as H.
    { unfold str_wf. apply (bool_decide_unpack _). vm_compute. exact I. }
    rewrite Forall_forall in H. by apply H.
  - split; [by repeat split|done|]. split; [constructor|done].
Defined.

(** On any bytes, the decoder returns: it reads nothing outside the block, each round takes at least a byte of it, and the dynamic table stays within its limit and counts its entries right. *)
Theorem hpack_decode_total block d : decoder_ok d ->
  exists ok fs d', HpackDecoder.decode block d = Ok (ok, fs, d') /\ decoder_ok d'
    /\ dynamic_table_size_ d' = entries_size (dynamic_table_ d') /\ dynamic_table_size_ d' <= max_table_size_ d'.
Proof.
  intros Hd. destruct (decode_any block d Hd) as (ok & fs & d' & E & Hd'). exists ok, fs, d'. split; [done|]. split; [done|].
  by destruct Hd' as [(_ & H1 & H2) _].
Qed.
Lemma hpack_decode_total_witness :
  exists ok fs d', HpackDecoder.decode [63; 255] HpackDecoder.init = Ok (ok, fs, d') /\ decoder_ok d'
    /\ dynamic_table_size_ d' = entries_size (dynamic_table_ d') /\ dynamic_table_size_ d' <= max_table_size_ d'.
Proof. apply hpack_decode_total. split; [by repeat split|done]. Defined.
End HeaderCompression.

Import Http2 Http2Session H2Bridge H2Connection.

(** * The data of the witnesses
    A session that has had the peer's SETTINGS, and a server that answers 404. *)
Definition started : Http2Session.t := set_progress (mkProgress 1 true true false true) (Http2Session.init true h2_bridges).
Definition not_found (tr : list event) (req : HttpRequest) : HttpResponse :=
  mkResponse 404 (Some (str "text/plain")) ByteBuffer.default.
Definition kept (s : bytes) : bytes := s.

Lemma started_ok : session_ok started.
Proof. by destruct (session_init_ok h2_bridges). Qed.
Lemma not_found_answers : answers not_found.
Proof.
  intros tr req. split; [by apply (bool_decide_unpack _)|]. split; [done|]. by apply ByteBuffer.with_capacity_wf.
Qed.
Lemma kept_ok : stale_ok kept.
Proof. done. Qed.
Lemma silent_polite : polite (fun _ => []).
Proof. done. Qed.
Lemma init_synced : synced HpackEncoder.init HpackEncoder.init.
Proof. split; [by repeat split|done|]. split; [constructor|done]. Qed.
(** A buffer that holds [x]. *)
Definition buffer_of (x : bytes) : ByteBuffer.t := ByteBuffer.mk x 0 (zlen x).
Lemma buffer_of_view x : view (buffer_of x) x.
Proof. pose proof (view_mk [] x []) as H. by rewrite app_nil_l, app_nil_r in H. Qed.
Lemma buffer_of_small x : zlen x < 1000 -> small (buffer_of x).
Proof. unfold small, buffer_of. cbn. lia. Qed.

Lemma get_root_ok : request_ok [(str ":method", str "GET"); (str ":path", str "/")] [] (str "GET") (str "/") [].
Proof.
  split; try done; try reflexivity.
  - repeat (apply Forall_cons; split; [split; [reflexivity|split; [by apply (bool_decide_unpack _)|reflexivity]]|]). by apply Forall_nil.
  - apply NoDup_cons. split; [|apply NoDup_singleton]. by intros H%list_elem_of_singleton.
  - unfold header_wf, str_wf. apply (bool_decide_unpack _). vm_compute. exact I.
Qed.

(** C12: A client whose HPACK tables agree with the server's sends a request without a body in one HEADERS frame, on a new stream of a session that has room for it. The server decodes it, hands the dispatcher the request that was sent (path, authority, the headers as the server keeps them, with one value for a name and without host, content-length and transfer-encoding, and the method, where one that the server does not know is taken for GET), and writes the response of the dispatcher on the stream: a HEADERS frame that the client decodes to the status, the content type and, for a response with a body, a content-length field, then the body in DATA frames of which the last ends the stream; what the windows do not allow is parked. The value of content-length is what is found where the code left a dangling string_view: it is as long as the decimal length of the body, but need not be it. The tables agree again after it. The stream stays behind, half closed: the bridge is called before its state changes, so the end of the response does not erase it. The request has its pseudo-headers once each and first, lower-case header names, values without line breaks or blanks around them, at most 65536 bytes of headers and a block of at most 16384; names in the dynamic tables are lower-case; the response has a content type shorter than 16000000 bytes. *)
Theorem http2_request_answered little order stale dispatch id ps rs method path authority e d c :
  stale_ok stale -> answers dispatch -> session_ok c -> accepts id c -> assemble order stale dispatch [] (trace_ c) ∅ !! id = None ->
  request_ok ps rs method path authority -> list_size (ps ++ rs) <= 65536 ->
  synced e (hpack_decoder_ c) -> lower_table (hpack_decoder_ c) -> synced (hpack_encoder_ c) d -> lower_table d ->
  let tr := trace_ c ++ [Headers id (flat_map line_of (ps ++ rs)) true] in
  exists x e', HpackEncoder.encode_headers (ps ++ rs) e [] = Ok (x, e') /\ (zlen x <= 16384 ->
    exists c', Http2Session.handle_frame little (react order stale dispatch) (headers_frame id x true) c = Ok (true, c')
      /\ replied stale id (dispatch tr (request_of order (assembled ps rs) method path authority)) d c c'
      /\ synced e' (hpack_decoder_ c') /\ stream_state id c' = half_closed_remote).
Proof. intros Hs Hd. apply request_answered; done. Qed.
Lemma http2_request_answered_witness :
  let ps := [(str ":method", str "GET"); (str ":path", str "/")] in
  let tr := trace_ started ++ [Headers 1 (flat_map line_of (ps ++ [])) true] in
  exists x e', HpackEncoder.encode_headers (ps ++ []) HpackEncoder.init [] = Ok (x, e') /\ (zlen x <= 16384 ->
    exists c', Http2Session.handle_frame true (react map_to_list kept not_found) (headers_frame 1 x true) started = Ok (true, c')
      /\ replied kept 1 (not_found tr (request_of map_to_list (assembled ps []) (str "GET") (str "/") [])) HpackEncoder.init started c'
      /\ synced e' (hpack_decoder_ c') /\ stream_state 1 c' = half_closed_remote).
Proof.
  apply (http2_request_answered true map_to_list kept not_found 1 [(str ":method", str "GET"); (str ":path", str "/")] []).
  - apply kept_ok.
  - apply not_found_answers.
  - apply started_ok.
  - split; done || reflexivity.
  - reflexivity.
  - apply get_root_ok.
  - apply Z.leb_le. reflexivity.
  - apply init_synced.
  - constructor.
  - apply init_synced.
  - constructor.
Defined.

(** C13: A session that is given any bytes, up to a read that ends it, while the application makes well-formed calls in any order (and, when it is called about a stream, does not reset that stream), satisfies: every byte it has written belongs to a well-formed frame; its invariant holds (stream ids and windows in range, HPACK tables within their limits, parked writes within their data); the data it has sent and the connection window it has left are together the initial window and what the peer has added to it. What it does next, a call of the application or the flush of what is parked after a WINDOW_UPDATE, writes on each stream that is there no more data than the stream's own window, which shrinks by exactly that, and none on other streams. So neither the connection nor a stream is ever sent more than its window. *)
Theorem http2_session_invariant little react b c n : polite react -> reachable little react b c n ->
  accounted c n
  /\ (forall k, call_ok k -> exists c' fs, run_call little k c = Ok c' /\ written c' = written c ++ frames_bytes fs
        /\ Forall frame_wf fs /\ spends (streams_ c) (streams_ c') fs)
  /\ (exists c' fs, flush_pending_writes little c = Ok c' /\ written c' = written c ++ frames_bytes fs
        /\ Forall frame_wf fs /\ spends (streams_ c) (streams_ c') fs).
Proof.
  intros Hr Hc%reachable_accounted; [|done]. split; [done|]. destruct Hc as [Hok _]. split.
  - intros k Hk. destruct (run_call_ok little k c Hok Hk) as (c' & fs & E & [] & _). by exists c', fs.
  - destruct (flush_ok little c Hok) as (c' & fs & E & []). by exists c', fs.
Qed.
Lemma http2_session_invariant_witness : exists c, reachable true (fun _ => []) h2_bridges c 0 /\ accounted c 0.
Proof.
  destruct (preface_moves true (Http2Session.init true h2_bridges) (session_init_ok _)) as (c & fs & E & _).
  assert (reachable true (fun _ => []) h2_bridges c 0) as H by by apply reach_start.
  exists c. split; [exact H|]. exact (proj1 (http2_session_invariant true (fun _ => []) h2_bridges c 0 silent_polite H)).
Defined.

(** C14: A reachable session never faults, throws or loops: it handles any input and any call of the application, as long as the application, when it is called about a stream, does not reset that stream. *)
Theorem http2_session_total little react b c n : polite react -> reachable little react b c n ->
  (forall input x, view input x -> small input -> Forall is_u8 x -> has_value (Http2Session.on_bytes little react input c) = true)
  /\ forall k, call_ok k -> has_value (run_call little k c) = true.
Proof.
  intros Hr Hc%reachable_accounted; [|done]. split.
  - intros input x Hv Hs Hu. by destruct (on_bytes_view little react Hr input x c Hv Hs Hu (ac_ok _ _ Hc)) as (? & ? & ? & -> & _).
  - intros k Hk. by destruct (run_call_ok little k c (ac_ok _ _ Hc) Hk) as (? & ? & -> & _).
Qed.
Lemma http2_session_total_witness : exists c, has_value (Http2Session.on_bytes true (fun _ => []) (buffer_of [1; 2; 3]) c) = true.
Proof.
  destruct (preface_moves true (Http2Session.init true h2_bridges) (session_init_ok _)) as (c & fs & E & _).
  assert (reachable true (fun _ => []) h2_bridges c 0) as H by by apply reach_start.
  exists c. apply (proj1 (http2_session_total true (fun _ => []) h2_bridges c 0 silent_polite H) (buffer_of [1; 2; 3]) [1; 2; 3]).
  - apply buffer_of_view.
  - by apply buffer_of_small.
  - by apply (bool_decide_unpack _).
Defined.

(** It does not matter to the session how its input is cut into pieces, as long as what it leaves in the buffer is put before the next piece: the frames that are handled, what is written and where it stops are those of the whole input. *)
Theorem http2_pieces_agree little react x y b1 b2 c : polite react ->
  view b1 x -> small b1 -> Forall is_u8 x -> view b2 (x ++ y) -> small b2 -> Forall is_u8 y -> session_ok c ->
  exists ok1 r1 c1 ok r2 c2, Http2Session.on_bytes little react b1 c = Ok (ok1, r1, c1)
    /\ Http2Session.on_bytes little react b2 c = Ok (ok, r2, c2)
    /\ if ok1 : bool then
         exists rest, view r1 rest /\ forall b3, view b3 (rest ++ y) -> small b3 ->
           exists r3, Http2Session.on_bytes little react b3 c1 = Ok (ok, r3, c2)
       else ok = false /\ c2 = c1.
Proof. intros Hr. by apply pieces_agree. Qed.
Lemma http2_pieces_agree_witness :
  exists ok1 r1 c1 ok r2 c2, Http2Session.on_bytes true (fun _ => []) (buffer_of [0; 0]) started = Ok (ok1, r1, c1)
    /\ Http2Session.on_bytes true (fun _ => []) (buffer_of ([0; 0] ++ [8; 6])) started = Ok (ok, r2, c2)
    /\ if ok1 : bool then
         exists rest, view r1 rest /\ forall b3, view b3 (rest ++ [8; 6]) -> small b3 ->
           exists r3, Http2Session.on_bytes true (fun _ => []) b3 c1 = Ok (ok, r3, c2)
       else ok = false /\ c2 = c1.
Proof.
  apply (http2_pieces_agree true (fun _ => []) [0; 0] [8; 6]); try (by apply (bool_decide_unpack _)); try apply buffer_of_view; try (by apply buffer_of_small).
  - apply silent_polite.
  - apply started_ok.
Defined.

(** C33: The server hands each read to the session in a buffer of its own and drops what the session leaves in it: what a read comes to depends on the whole frames in it alone. A frame that is cut between two reads is lost, and the second read is taken to start with a frame. *)
Theorem h2_reads_drop_the_rest little react cf b1 b2 x y now s c : polite react -> serving s c -> session_ok s ->
  view b1 x -> small b1 -> Forall is_u8 x -> view b2 y -> small b2 -> Forall is_u8 y -> (frames_of x).1 = (frames_of y).1 ->
  H2Connection.on_read little react cf b1 now c = H2Connection.on_read little react cf b2 now c.
Proof. intros Hr. by apply read_depends_on_frames. Qed.
(** A PING frame without its last bytes is nothing. *)
Lemma h2_reads_drop_the_rest_witness :
  let cf := H2Connection.mkConfig true false in
  let c := H2Connection.with_session started (H2Connection.mk true true false ByteBuffer.default ByteBuffer.default None 0) in
  H2Connection.on_read true (fun _ => []) cf (buffer_of [0; 0; 8; 6; 0; 0; 0; 0; 0; 1; 2; 3]) 0 c
  = H2Connection.on_read true (fun _ => []) cf (buffer_of []) 0 c.
Proof.
  apply (h2_reads_drop_the_rest true (fun _ => []) (H2Connection.mkConfig true false) (buffer_of [0; 0; 8; 6; 0; 0; 0; 0; 0; 1; 2; 3]) (buffer_of [])
    [0; 0; 8; 6; 0; 0; 0; 0; 0; 1; 2; 3] [] 0 started);
    try (by apply (bool_decide_unpack _)); try apply buffer_of_view; try (by apply buffer_of_small); try done.
Defined.

(** Data that is sent on a stream with nothing parked goes out in DATA frames, each non-empty and no larger than the peer allows, whose payloads are the data in order; the end of the stream is on the last one, when all is sent, and the stream is then closed on this side. When a window is exhausted the rest is parked, and the stream queued, with nothing lost or sent twice. *)
Theorem http2_data_sent little id data fin s c : session_ok c -> streams_ c !! id = Some s -> has_pending_write (flow s) = false -> data <> [] ->
  exists all c1 parts s1, send_data little id data fin c = Ok (after_send id (all && fin) c1)
    /\ written c1 = written c ++ frames_bytes (data_frames id parts (all && fin))
    /\ Forall (part_ok c) parts /\ streams_ c1 !! id = Some s1
    /\ connection_send_window_ (windows c1) + zlen (concat parts) = connection_send_window_ (windows c)
    /\ if all : bool then concat parts = data
       else exists rest, concat parts ++ rest = data /\ rest <> [] /\ parked rest fin s1
            /\ pending_write_queue_ c1 = pending_write_queue_ c ++ [id].
Proof.
  intros Hok Hs Hp Hd. destruct (send_data_fresh little id data fin s c Hok Hs Hp Hd) as (all & c1 & parts & s1 & E & ([He Hk Hparts Hdata Hall _] & Hs1 & Hrest) & _).
  exists all, c1, parts, s1. split; [done|]. split; [apply He|]. split; [done|]. split; [done|].
  change (Z.to_nat 0) with 0%nat in *. rewrite drop_0 in *. split.
  { rewrite (ext_window _ _ _ He), data_frames_total; [lia|]. eapply Forall_impl; [exact Hparts|]. unfold part_ok.
    pose proof (ok_peer c Hok) as [? _]. intros p Hpp. cbn in Hpp. lia. }
  destruct all; [done|]. exists (drop (List.length (concat parts)) data). rewrite Hdata at 1. split; [apply take_drop|].
  destruct Hrest as [Hpk Hq]. split; [|done]. intros H0. apply (f_equal List.length) in H0. rewrite length_drop in H0. cbn in H0.
  unfold zlen in Hall. lia.
Qed.
Lemma http2_data_sent_witness : let c := assign 1 new_stream started in
  exists all c1 parts s1, send_data true 1 [7] true c = Ok (after_send 1 (all && true) c1)
    /\ written c1 = written c ++ frames_bytes (data_frames 1 parts (all && true))
    /\ Forall (part_ok c) parts /\ streams_ c1 !! 1 = Some s1
    /\ connection_send_window_ (windows c1) + zlen (concat parts) = connection_send_window_ (windows c)
    /\ if all : bool then concat parts = [7]
       else exists rest, concat parts ++ rest = [7] /\ rest <> [] /\ parked rest true s1
            /\ pending_write_queue_ c1 = pending_write_queue_ c ++ [1].
Proof.
  apply (http2_data_sent true 1 [7] true new_stream).
  - apply assign_ok; [apply started_ok|]. split; [lia|]. split; unfold is_window, zlen; cbn; lia.
  - apply assign_get.
  - done.
  - done.
Defined.

(** C32: The frames of [violation] end the connection: the session writes GOAWAY with the error of the violation and the last stream it knows, closes, and changes nothing else. They are: a first frame that is not SETTINGS, or acknowledges with a payload; later, SETTINGS on a stream or of a size that is no multiple of 6 (of 0, for an acknowledgement), PING that has not 8 bytes or is on a stream, PRIORITY that has not 5 or RST_STREAM that has not 4, either on no stream, HEADERS on no stream, an even one, or one that is neither new nor there, DATA and CONTINUATION on no stream or on a missing one that is even or new, WINDOW_UPDATE that has not 4 bytes, and an increment of zero for the connection. The violations of [tolerated] leave the connection open and the state as it is: a zero increment for a stream is answered RST_STREAM with PROTOCOL_ERROR, and DATA or CONTINUATION on a missing odd stream that is not new is ignored without an answer. A first SETTINGS frame of a wrong size or on a stream is in neither class: the session accepts it. *)
Theorem http2_violations_close little react f c : session_ok c -> frame_in f ->
  (forall e, violation f c = Some e -> Http2Session.handle_frame little react f c
     = Ok (false, emit [Write (frame_bytes (FrameCodec.make_goaway e (last_stream_id_ c))); Close] c))
  /\ (forall es, tolerated f c = Some es -> Http2Session.handle_frame little react f c = Ok (true, emit es c)).
Proof. intros Hok Hf. split; intros; [by apply violation_closes|by apply tolerated_ok]. Qed.
Lemma http2_violations_close_witness :
  Http2Session.handle_frame true (fun _ => []) (mkFrame (mkHeader 0 type_headers 5 2) []) started
  = Ok (false, emit [Write (frame_bytes (FrameCodec.make_goaway protocol_error (last_stream_id_ started))); Close] started)
  /\ Http2Session.handle_frame true (fun _ => []) (mkFrame (mkHeader 4 type_window_update 0 1) [0; 0; 0; 0]) started
  = Ok (true, emit [Write (frame_bytes (rst_frame 1 protocol_error))] started).
Proof.
  split.
  - apply http2_violations_close; [apply started_ok| |reflexivity]. split; cbn; try done; unfold is_u8; lia.
  - apply http2_violations_close; [apply started_ok| |reflexivity].
    split; cbn; try done; try lia. repeat constructor; unfold is_u8; lia.
Defined.

(** A session with 128 streams that count as open refuses any other: RST_STREAM with REFUSED_STREAM, and nothing else happens. Since the streams of answered requests stay half closed, such a session refuses everything. *)
Theorem http2_full_session_refuses little react f c : session_ok c -> seen_non_settings_frame_ (progress c) = true ->
  type (header f) = type_headers -> Z.odd (stream_id (header f)) = true -> last_stream_id_ c < stream_id (header f) -> 0 <= last_stream_id_ c ->
  streams_ c !! stream_id (header f) = None -> 128 <= open_stream_count c ->
  Http2Session.handle_frame little react f c = Ok (true, emit [Write (frame_bytes (rst_frame (stream_id (header f)) refused_stream))] c).
Proof. apply full_session_refuses. Qed.
(** 128 answered requests. *)
Definition full : Http2Session.t :=
  set_last_stream 255 (set_streams (list_to_map (map (fun n => (2 * Z.of_nat n + 1, set_state half_closed_remote new_stream)) (seq 0 128))) started).
Lemma full_ok : session_ok full.
Proof.
  assert (map_Forall stream_ok (streams_ full)) as Hs; [|destruct started_ok; split; assumption].
  intros id s H. apply elem_of_list_to_map_2 in H.
  apply list_elem_of_fmap in H as (n & E & Hn). injection E as -> ->. apply elem_of_seq in Hn.
  split; [lia|]. split; unfold is_window, zlen; cbn; lia.
Qed.
Lemma http2_full_session_refuses_witness :
  Http2Session.handle_frame true (fun _ => []) (mkFrame (mkHeader 0 type_headers 5 257) []) full
  = Ok (true, emit [Write (frame_bytes (rst_frame 257 refused_stream))] full).
Proof.
  apply (http2_full_session_refuses true (fun _ => []) (mkFrame (mkHeader 0 type_headers 5 257) []) full);
    [apply full_ok|reflexivity|reflexivity|reflexivity|reflexivity|vm_compute; discriminate|vm_compute; reflexivity|vm_compute; discriminate].
Defined.
