(* ===== verification/Dns.v ===== *)
(** DNS: packets and their text forms ([dns_packet.cpp]), the server ([dns_server.cpp]) and
    the client ([dns_client.cpp]) of [protocol/dns/src].

    Module [DnsText] has the functions of the anonymous namespace, [Dns] the packets,
    [DnsServer] and [DnsClient] the two ends. Enumerations with a fixed underlying type are
    the integers of that type, since the code casts any integer of the wire to them. The
    sockets are left out: a datagram is a [ByteBuffer] that a handler is given or returns,
    and what the client receives is a list of reads, each with the clock before it. *)
From stdpp Require Import gmap.
From S2P Require Import Prelude Endian Strings ByteBuffer ByteBufferFacts.

(** * Text forms *)
Module DnsText.

Fixpoint uint16_loop (text : bytes) (acc : Z) : option Z :=
  match text with
  | [] => Some (u16 acc)
  | ch :: text =>
      if (ch <? 48) || (57 <? ch) then None
      else let acc := u32 (u32 (acc * 10) + u32 (ch - 48)) in
           if 65535 <? acc then None else uint16_loop text acc
  end.
Definition parse_uint16_decimal (text : bytes) : option Z :=
  match text with [] => None | _ => uint16_loop text 0 end.

(** The digits of a part of an IPv4 address, from [start] to [end]. *)
Fixpoint octet_loop (digits : bytes) (value : Z) : option Z :=
  match digits with
  | [] => Some value
  | ch :: digits =>
      if (ch <? 48) || (57 <? ch) then None
      else let value := u32 (u32 (value * 10) + u32 (ch - 48)) in
           if 255 <? value then None else octet_loop digits value
  end.
(** The parts that are left, [n] more after this one. *)
Fixpoint ipv4_loop (n : nat) (text : bytes) (start : nat) (out : bytes) : option bytes :=
  let dot := find 46 text start in
  let is_last := match n with O => true | S _ => false end in
  if negb (Bool.eqb (match dot with None => true | Some _ => false end) is_last) then None
  else
    let end_ := match dot with Some dot => if is_last then length text else dot | None => length text end in
    if Nat.eqb end_ start then None
    else
      value ← octet_loop (substr text start (end_ - start)) 0;
      let out := out ++ [u8 value] in
      match n with O => Some out | S n => ipv4_loop n text (end_ + 1) out end.
Definition parse_ipv4_bytes (text : bytes) : option bytes := ipv4_loop 3 text 0 [].

Definition hex_digit_value (ch : Z) : option Z :=
  if (48 <=? ch) && (ch <=? 57) then Some (u8 (ch - 48))
  else if (97 <=? ch) && (ch <=? 102) then Some (u8 (10 + (ch - 97)))
  else if (65 <=? ch) && (ch <=? 70) then Some (u8 (10 + (ch - 65)))
  else None.
Fixpoint word_loop (token : bytes) (acc : Z) : option Z :=
  match token with
  | [] => Some acc
  | ch :: token => digit ← hex_digit_value ch; word_loop token (u16 (Z.lor (Z.shiftl acc 4) digit))
  end.
Definition parse_ipv6_word (token : bytes) : option Z :=
  if bool_decide (token = []) || (Nat.ltb 4 (length token)) then None else word_loop token 0.

(** What a token adds to the words; [last] is [end == text.size()]. *)
Definition token_words (token : bytes) (allow_ipv4_tail last : bool) : option (list Z) :=
  if contains 46 token then
    if negb allow_ipv4_tail || negb last then None
    else
      match parse_ipv4_bytes token with
      | Some [a; b; c; d] => Some [u16 (Z.lor (Z.shiftl a 8) b); u16 (Z.lor (Z.shiftl c 8) d)]
      | _ => None
      end
  else (fun word => [word]) <$> parse_ipv6_word token.

(** Each round but the last goes past a colon: the length of the text, plus one, is enough
    fuel, and its result without fuel is the loop's end. *)
Fixpoint sequence_loop (fuel : nat) (text : bytes) (allow_ipv4_tail : bool) (start : nat) (words : list Z) : option (list Z) :=
  match fuel with
  | O => Some words
  | S fuel =>
      if Nat.leb start (length text) then
        let colon := find 58 text start in
        let end_ := match colon with None => length text | Some colon => colon end in
        if Nat.eqb end_ start then None
        else
          let token := substr text start (end_ - start) in
          added ← token_words token allow_ipv4_tail (Nat.eqb end_ (length text));
          let words := words ++ added in
          match colon with
          | None => Some words
          | Some colon => sequence_loop fuel text allow_ipv4_tail (colon + 1) words
          end
      else Some words
  end.
Definition parse_ipv6_sequence (text : bytes) (allow_ipv4_tail : bool) (words : list Z) : option (list Z) :=
  match text with
  | [] => Some words
  | _ => sequence_loop (S (length text)) text allow_ipv4_tail 0 words
  end.

(** [text.find("::", start)] *)
Fixpoint index_of_colons (s : bytes) : option nat :=
  match s with
  | x :: s => match s with
              | y :: _ => if (x =? 58) && (y =? 58) then Some O else S <$> index_of_colons s
              | [] => None
              end
  | [] => None
  end.
Definition find_colons (s : bytes) (start : nat) : option nat :=
  (fun i => (start + i)%nat) <$> index_of_colons (drop start s).

(** [words.resize(n, 0)] *)
Definition resize (n : nat) (words : list Z) : list Z := take n words ++ replicate (n - length words) 0.
(** The bytes of the words, as both loops of [parse_ipv6_bytes] store them. *)
Definition words_bytes (words : list Z) : bytes :=
  flat_map (fun w => [u8 (Z.land (Z.shiftr w 8) 255); u8 (Z.land w 255)]) words.

Definition parse_ipv6_bytes (text : bytes) : option bytes :=
  match text with
  | [] => None
  | _ =>
      match find_colons text 0 with
      | None =>
          words ← parse_ipv6_sequence text true [];
          if Nat.eqb (length words) 8 then Some (words_bytes words) else None
      | Some first_double_colon =>
          match find_colons text (first_double_colon + 2) with
          | Some _ => None
          | None =>
              let left_text := substr text 0 first_double_colon in
              let right_text := substr_from text (first_double_colon + 2) in
              left_words ← parse_ipv6_sequence left_text false [];
              right_words ← parse_ipv6_sequence right_text true [];
              if Nat.leb 8 (length left_words + length right_words) then None
              else
                let words := resize (8 - length right_words) left_words ++ right_words in
                if negb (Nat.eqb (length words) 8) then None else Some (words_bytes words)
          end
      end
  end.

(** The words of an address of 16 bytes. *)
Fixpoint address_words (rdata : bytes) : list Z :=
  match rdata with
  | a :: b :: rdata => u16 (Z.lor (Z.shiftl a 8) b) :: address_words rdata
  | _ => []
  end.

(** [j - i], where the words from [i] to [j] are zero. *)
Fixpoint zero_run (words : list Z) : nat :=
  match words with w :: words => if w =? 0 then S (zero_run words) else O | [] => O end.
(** The longest run of zero words; each round advances, so that as many rounds as there are
    words are enough. *)
Fixpoint best_loop (fuel : nat) (words : list Z) (i best_start best_len : nat) : nat * nat :=
  match fuel with
  | O => (best_start, best_len)
  | S fuel =>
      match words !! i with
      | None => (best_start, best_len)
      | Some w =>
          if negb (w =? 0) then best_loop fuel words (i + 1) best_start best_len
          else
            let run_len := zero_run (drop i words) in
            let j := (i + run_len)%nat in
            if Nat.ltb best_len run_len then best_loop fuel words j i run_len
            else best_loop fuel words j best_start best_len
      end
  end.

(** [snprintf("%x")] of a word. *)
Definition hex_char (n : Z) : Z := if n <? 10 then 48 + n else 97 + (n - 10).
Fixpoint hex_loop (fuel : nat) (n : Z) (acc : bytes) : bytes :=
  match fuel with
  | O => acc
  | S fuel =>
      let acc := hex_char (n mod 16) :: acc in
      if n <? 16 then acc else hex_loop fuel (n / 16) acc
  end.
Definition hex_word (w : Z) : bytes := hex_loop 8 w [].

Fixpoint format_loop (fuel : nat) (words : list Z) (best_start best_len i : nat) (out : bytes) : bytes :=
  match fuel with
  | O => out
  | S fuel =>
      match words !! i with
      | None => out
      | Some w =>
          if Nat.ltb 0 best_len && Nat.eqb i best_start
          then format_loop fuel words best_start best_len (i + best_len) (out ++ str "::")
          else
            let out := if negb (bool_decide (out = [])) && negb (bool_decide (last out = Some 58)) then out ++ [58] else out in
            format_loop fuel words best_start best_len (i + 1) (out ++ hex_word w)
      end
  end.
Definition format_ipv6_bytes (rdata : bytes) : bytes :=
  if negb (zlen rdata =? 16) then []
  else
    let words := address_words rdata in
    let '(best_start, best_len) := best_loop (length words) words 0 0 0 in
    let best_len := if Nat.ltb best_len 2 then O else best_len in
    let out := format_loop (length words) words best_start best_len 0 [] in
    match out with [] => str "::" | _ => out end.

Definition is_blank (ch : Z) : bool := (ch =? 32) || (ch =? 9).
Fixpoint skip_blanks (text : bytes) : bytes :=
  match text with ch :: text => if is_blank ch then skip_blanks text else ch :: text | [] => [] end.
Definition trim_copy (text : bytes) : bytes := rev (skip_blanks (rev (skip_blanks text))).
(** [text.find_first_of(" \t")] *)
Fixpoint find_blank (text : bytes) : option nat :=
  match text with ch :: text => if is_blank ch then Some O else S <$> find_blank text | [] => None end.
End DnsText.

(** * Packets *)
Module Dns.
Import DnsText.

(** [enum class DnsType : uint16_t] and the others. *)
Definition A : Z := 1.
Definition NS : Z := 2.
Definition CNAME : Z := 5.
Definition SOA : Z := 6.
Definition MX : Z := 15.
Definition TXT : Z := 16.
Definition AAAA : Z := 28.
Definition ANY : Z := 255.
Definition IN : Z := 1.
Definition QUERY : Z := 0.
Definition IQUERY : Z := 1.
Definition STATUS : Z := 2.
Definition NO_ERROR : Z := 0.
Definition FORMAT_ERROR : Z := 1.
Definition SERVER_FAILURE : Z := 2.
Definition NAME_ERROR : Z := 3.
Definition NOT_IMPLEMENTED : Z := 4.
Definition REFUSED : Z := 5.

Record DnsQuestion : Type := mkQuestion { q_name : bytes; q_type : Z; q_class : Z }.
Record DnsResourceRecord : Type := mkRecord { name : bytes; type : Z; class_ : Z; ttl : Z; rdata : bytes }.
#[export] Instance DnsQuestion_eq_dec : EqDecision DnsQuestion.
Proof. solve_decision. Defined.
#[export] Instance DnsResourceRecord_eq_dec : EqDecision DnsResourceRecord.
Proof. solve_decision. Defined.

Record DnsPacket : Type := mkPacket {
  session_id_ : Z;
  is_response_ : bool;
  opcode_ : Z;
  authoritative_answer_ : bool;
  truncated_ : bool;
  recursion_desired_ : bool;
  recursion_available_ : bool;
  response_code_ : Z;
  questions_ : list DnsQuestion;
  answers_ : list DnsResourceRecord;
  authorities_ : list DnsResourceRecord;
  additionals_ : list DnsResourceRecord
}.

(** [DnsPacket()], and what [reset()] leaves. *)
Definition empty_packet : DnsPacket := mkPacket 0 false QUERY false false false false NO_ERROR [] [] [] [].
Definition reset (p : DnsPacket) : DnsPacket := empty_packet.

Definition set_session_id (id : Z) (p : DnsPacket) : DnsPacket :=
  mkPacket id (is_response_ p) (opcode_ p) (authoritative_answer_ p) (truncated_ p) (recursion_desired_ p)
    (recursion_available_ p) (response_code_ p) (questions_ p) (answers_ p) (authorities_ p) (additionals_ p).
Definition set_is_response (v : bool) (p : DnsPacket) : DnsPacket :=
  mkPacket (session_id_ p) v (opcode_ p) (authoritative_answer_ p) (truncated_ p) (recursion_desired_ p)
    (recursion_available_ p) (response_code_ p) (questions_ p) (answers_ p) (authorities_ p) (additionals_ p).
Definition set_opcode (v : Z) (p : DnsPacket) : DnsPacket :=
  mkPacket (session_id_ p) (is_response_ p) v (authoritative_answer_ p) (truncated_ p) (recursion_desired_ p)
    (recursion_available_ p) (response_code_ p) (questions_ p) (answers_ p) (authorities_ p) (additionals_ p).
Definition set_authoritative_answer (v : bool) (p : DnsPacket) : DnsPacket :=
  mkPacket (session_id_ p) (is_response_ p) (opcode_ p) v (truncated_ p) (recursion_desired_ p)
    (recursion_available_ p) (response_code_ p) (questions_ p) (answers_ p) (authorities_ p) (additionals_ p).
Definition set_truncated (v : bool) (p : DnsPacket) : DnsPacket :=
  mkPacket (session_id_ p) (is_response_ p) (opcode_ p) (authoritative_answer_ p) v (recursion_desired_ p)
    (recursion_available_ p) (response_code_ p) (questions_ p) (answers_ p) (authorities_ p) (additionals_ p).
Definition set_recursion_desired (v : bool) (p : DnsPacket) : DnsPacket :=
  mkPacket (session_id_ p) (is_response_ p) (opcode_ p) (authoritative_answer_ p) (truncated_ p) v
    (recursion_available_ p) (response_code_ p) (questions_ p) (answers_ p) (authorities_ p) (additionals_ p).
Definition set_recursion_available (v : bool) (p : DnsPacket) : DnsPacket :=
  mkPacket (session_id_ p) (is_response_ p) (opcode_ p) (authoritative_answer_ p) (truncated_ p) (recursion_desired_ p)
    v (response_code_ p) (questions_ p) (answers_ p) (authorities_ p) (additionals_ p).
Definition set_response_code (v : Z) (p : DnsPacket) : DnsPacket :=
  mkPacket (session_id_ p) (is_response_ p) (opcode_ p) (authoritative_answer_ p) (truncated_ p) (recursion_desired_ p)
    (recursion_available_ p) v (questions_ p) (answers_ p) (authorities_ p) (additionals_ p).
(** The four lists, for [clear] and [push_back]. *)
Definition set_questions (l : list DnsQuestion) (p : DnsPacket) : DnsPacket :=
  mkPacket (session_id_ p) (is_response_ p) (opcode_ p) (authoritative_answer_ p) (truncated_ p) (recursion_desired_ p)
    (recursion_available_ p) (response_code_ p) l (answers_ p) (authorities_ p) (additionals_ p).
Definition set_answers (l : list DnsResourceRecord) (p : DnsPacket) : DnsPacket :=
  mkPacket (session_id_ p) (is_response_ p) (opcode_ p) (authoritative_answer_ p) (truncated_ p) (recursion_desired_ p)
    (recursion_available_ p) (response_code_ p) (questions_ p) l (authorities_ p) (additionals_ p).
Definition set_authorities (l : list DnsResourceRecord) (p : DnsPacket) : DnsPacket :=
  mkPacket (session_id_ p) (is_response_ p) (opcode_ p) (authoritative_answer_ p) (truncated_ p) (recursion_desired_ p)
    (recursion_available_ p) (response_code_ p) (questions_ p) (answers_ p) l (additionals_ p).
Definition set_additionals (l : list DnsResourceRecord) (p : DnsPacket) : DnsPacket :=
  mkPacket (session_id_ p) (is_response_ p) (opcode_ p) (authoritative_answer_ p) (truncated_ p) (recursion_desired_ p)
    (recursion_available_ p) (response_code_ p) (questions_ p) (answers_ p) (authorities_ p) l.
Definition add_question (q : DnsQuestion) (p : DnsPacket) : DnsPacket := set_questions (questions_ p ++ [q]) p.
Definition add_answer (r : DnsResourceRecord) (p : DnsPacket) : DnsPacket := set_answers (answers_ p ++ [r]) p.
Definition add_authority (r : DnsResourceRecord) (p : DnsPacket) : DnsPacket := set_authorities (authorities_ p ++ [r]) p.
Definition add_additional (r : DnsResourceRecord) (p : DnsPacket) : DnsPacket := set_additionals (additionals_ p ++ [r]) p.

(** ** Writing *)
Section Writing.
Context {B : Type} `{ByteSink B}.

(** Each round goes past a label and its dot: the length of the name, plus one, is enough fuel. *)
Fixpoint encode_loop (fuel : nat) (name : bytes) (start : nat) : writer B :=
  match fuel with
  | O => fun _ => Diverge
  | S fuel =>
      if Nat.ltb start (length name) then
        let dot_pos := match find 46 name start with Some dot_pos => dot_pos | None => length name end in
        let length := (dot_pos - start)%nat in
        w_seq (sink_u8 (u8 (Z.of_nat length)))
        (w_seq (sink_append (substr name start length))
               (encode_loop fuel name (dot_pos + 1)))
      else w_skip
  end.
Definition encode_name (name : bytes) : writer B :=
  match name with
  | [] => sink_u8 0
  | _ => w_seq (encode_loop (S (length name)) name 0) (sink_u8 0)
  end.

Definition question_serialize (q : DnsQuestion) : writer B :=
  w_seq (encode_name (q_name q))
  (w_seq (sink_u16 (u16 (q_type q)))
         (sink_u16 (u16 (q_class q)))).
Definition record_serialize (r : DnsResourceRecord) : writer B :=
  w_seq (encode_name (name r))
  (w_seq (sink_u16 (u16 (type r)))
  (w_seq (sink_u16 (u16 (class_ r)))
  (w_seq (sink_u32 (ttl r))
  (w_seq (sink_u16 (u16 (zlen (rdata r))))
         (sink_append (rdata r)))))).

Definition flags_of (p : DnsPacket) : Z :=
  let flags := 0 in
  let flags := if is_response_ p then Z.lor flags 32768 else flags in
  let flags := u16 (Z.lor flags (Z.shiftl (Z.land (u8 (opcode_ p)) 15) 11)) in
  let flags := if authoritative_answer_ p then Z.lor flags 1024 else flags in
  let flags := if truncated_ p then Z.lor flags 512 else flags in
  let flags := if recursion_desired_ p then Z.lor flags 256 else flags in
  let flags := if recursion_available_ p then Z.lor flags 128 else flags in
  u16 (Z.lor flags (Z.land (u8 (response_code_ p)) 15)).
Definition serialize (p : DnsPacket) : writer B :=
  w_seq (sink_u16 (session_id_ p))
  (w_seq (sink_u16 (flags_of p))
  (w_seq (sink_u16 (u16 (zlen (questions_ p))))
  (w_seq (sink_u16 (u16 (zlen (answers_ p))))
  (w_seq (sink_u16 (u16 (zlen (authorities_ p))))
  (w_seq (sink_u16 (u16 (zlen (additionals_ p))))
  (w_seq (w_for (questions_ p) question_serialize)
  (w_seq (w_for (answers_ p) record_serialize)
  (w_seq (w_for (authorities_ p) record_serialize)
         (w_for (additionals_ p) record_serialize))))))))).
End Writing.

(** ** Reading names
    [data] is the whole object that [data] and [size] describe. A round marks a position that
    was not marked: the size, plus one, is enough fuel. The result is the name and the new
    [pos]. *)
Fixpoint name_loop (fuel : nat) (data : bytes) (visited : list bool) (current next_pos : Z) (advanced : bool) (jumps : Z)
    (name : bytes) : outcome (bytes * Z) :=
  match fuel with
  | O => Diverge
  | S fuel =>
      let size := zlen data in
      if current <? size then
        seen ← (match visited !! Z.to_nat current with Some seen => Ok seen | None => Fault end);
        if (seen : bool) then Reject
        else
          let visited := <[Z.to_nat current := true]> visited in
          byte ← rd data current;
          if byte =? 0 then Ok (name, if advanced then next_pos else current + 1)
          else
            let label_type := Z.land byte 192 in
            if label_type =? 192 then
              if size <=? current + 1 then Reject
              else
                low ← rd data (current + 1);
                let offset := u16 (Z.lor (Z.shiftl (Z.land byte 63) 8) low) in
                if size <=? offset then Reject
                else
                  let next_pos := if advanced then next_pos else current + 2 in
                  let jumps := jumps + 1 in
                  if size <? jumps then Reject else name_loop fuel data visited offset next_pos true jumps name
            else if negb (label_type =? 0) then Reject
            else
              let label_length := byte in
              if (label_length =? 0) || (63 <? label_length) then Reject
              else
                let label_start := current + 1 in
                if size <? label_start + label_length then Reject
                else
                  let name := match name with [] => [] | _ => name ++ [46] end in
                  label ← rd_range data label_start label_length;
                  let current := label_start + label_length in
                  name_loop fuel data visited current (if advanced then next_pos else current) advanced jumps (name ++ label)
      else if advanced then Ok (name, next_pos) else Reject
  end.
Definition decode_name (data : bytes) (pos : Z) : outcome (bytes * Z) :=
  if zlen data <=? pos then Reject
  else name_loop (S (length data)) data (replicate (length data) false) pos pos false 0 [].

(** ** Reading packets *)
Section Reading.
Variable little : bool.

(** [ntohs] and [ntohl] of the integer at [data + pos]. *)
Definition net16 (data : bytes) (pos : Z) : outcome Z := v ← rd_range data pos 2; Ok (ntohs little (host_value little v)).
Definition net32 (data : bytes) (pos : Z) : outcome Z := v ← rd_range data pos 4; Ok (ntohl little (host_value little v)).

(** [Reject] is the pair with [false]; the buffer is then as it was. *)
Definition question_deserialize (b : ByteBuffer.t) : outcome (DnsQuestion * ByteBuffer.t) :=
  let original_read_offset := ByteBuffer.read_offset_ b in
  data ← ByteBuffer.readable_span b;
  let size := zlen data in
  '(name, pos) ← decode_name data 0;
  if size <? pos + 4 then Reject
  else
    type ← net16 data pos;
    let pos := pos + 2 in
    class ← net16 data pos;
    let pos := pos + 2 in
    Ok (mkQuestion name type class, ByteBuffer.set_read_offset (original_read_offset + pos) b).
Definition record_deserialize (b : ByteBuffer.t) : outcome (DnsResourceRecord * ByteBuffer.t) :=
  let original_read_offset := ByteBuffer.read_offset_ b in
  data ← ByteBuffer.readable_span b;
  let size := zlen data in
  '(name, pos) ← decode_name data 0;
  if size <? pos + 10 then Reject
  else
    type ← net16 data pos;
    let pos := pos + 2 in
    class ← net16 data pos;
    let pos := pos + 2 in
    ttl ← net32 data pos;
    let pos := pos + 4 in
    rdlength ← net16 data pos;
    let pos := pos + 2 in
    if size <? pos + rdlength then Reject
    else
      rdata ← rd_range data pos rdlength;
      let pos := pos + rdlength in
      Ok (mkRecord name type class ttl rdata, ByteBuffer.set_read_offset (original_read_offset + pos) b).

(** A list of the packet: [n] elements that [read] reads and [push] adds; what is returned,
    the packet and the buffer. *)
Fixpoint read_loop {E : Type} (read : ByteBuffer.t -> outcome (E * ByteBuffer.t)) (push : E -> DnsPacket -> DnsPacket)
    (n : nat) (p : DnsPacket) (b : ByteBuffer.t) : outcome (bool * DnsPacket * ByteBuffer.t) :=
  match n with
  | O => Ok (true, p, b)
  | S n =>
      match read b with
      | Ok (e, b) => read_loop read push n (push e p) b
      | Reject => Ok (false, p, b)
      | Fault => Fault
      | Diverge => Diverge
      end
  end.
(** [return false], or the rest. *)
Definition if_read (m : outcome (bool * DnsPacket * ByteBuffer.t))
    (rest : DnsPacket -> ByteBuffer.t -> outcome (bool * DnsPacket * ByteBuffer.t)) : outcome (bool * DnsPacket * ByteBuffer.t) :=
  '(ok, p, b) ← m;
  if (ok : bool) then rest p b else Ok (false, p, b).

Definition set_flags (flags : Z) (p : DnsPacket) : DnsPacket :=
  let p := set_is_response (negb (Z.land flags 32768 =? 0)) p in
  let p := set_opcode (Z.land (Z.shiftr flags 11) 15) p in
  let p := set_authoritative_answer (negb (Z.land flags 1024 =? 0)) p in
  let p := set_truncated (negb (Z.land flags 512 =? 0)) p in
  let p := set_recursion_desired (negb (Z.land flags 256 =? 0)) p in
  let p := set_recursion_available (negb (Z.land flags 128 =? 0)) p in
  set_response_code (Z.land flags 15) p.

(** What is returned, the packet and the buffer, which are changed also when it is false. *)
Definition deserialize (p : DnsPacket) (b : ByteBuffer.t) : outcome (bool * DnsPacket * ByteBuffer.t) :=
  let original_read_offset := ByteBuffer.read_offset_ b in
  data ← ByteBuffer.readable_span b;
  if zlen data <? 12 then Ok (false, p, b)
  else
    id ← net16 data 0;
    flags ← net16 data 2;
    qdcount ← net16 data 4;
    ancount ← net16 data 6;
    nscount ← net16 data 8;
    arcount ← net16 data 10;
    let p := set_flags flags (set_session_id id p) in
    let b := ByteBuffer.set_read_offset (original_read_offset + 12) b in
    if_read (read_loop question_deserialize add_question (Z.to_nat qdcount) (set_questions [] p) b) (fun p b =>
    if_read (read_loop record_deserialize add_answer (Z.to_nat ancount) (set_answers [] p) b) (fun p b =>
    if_read (read_loop record_deserialize add_authority (Z.to_nat nscount) (set_authorities [] p) b) (fun p b =>
    read_loop record_deserialize add_additional (Z.to_nat arcount) (set_additionals [] p) b))).
End Reading.

(** ** The text of a record's data *)
(** [snprintf("%d.%d.%d.%d")]: four numbers below 256 fit in the 16 bytes of the array. *)
Definition ipv4_text (rdata : bytes) : bytes :=
  match rdata with
  | [a; b; c; d] => to_string a ++ 46 :: to_string b ++ 46 :: to_string c ++ 46 :: to_string d
  | _ => []
  end.
(** Each round consumes a byte at least. *)
Fixpoint txt_loop (fuel : nat) (rdata : bytes) (pos : Z) (result : bytes) : outcome bytes :=
  match fuel with
  | O => Diverge
  | S fuel =>
      if pos <? zlen rdata then
        if zlen rdata <? pos + 1 then Ok result
        else
          len ← rd rdata pos;
          let pos := pos + 1 in
          if zlen rdata <? pos + len then Ok result
          else
            part ← rd_range rdata pos len;
            let result := result ++ part in
            let pos := pos + len in
            txt_loop fuel rdata pos (if pos <? zlen rdata then result ++ [32] else result)
      else Ok result
  end.
Definition exchange_text (rdata : bytes) : outcome bytes :=
  if zlen rdata <? 3 then Ok []
  else
    high ← rd rdata 0;
    low ← rd rdata 1;
    let preference := u16 (Z.lor (Z.shiftl high 8) low) in
    match decode_name rdata 2 with
    | Ok (exchange, pos) =>
        if bool_decide (exchange = []) then Ok []
        else if negb (pos =? zlen rdata) then Ok []
        else Ok (to_string preference ++ [32] ++ exchange)
    | Reject => Ok []
    | Fault => Fault
    | Diverge => Diverge
    end.
Definition get_rdata_as_string (r : DnsResourceRecord) : outcome bytes :=
  let data := rdata r in
  if bool_decide (data = []) then Ok []
  else if type r =? A then Ok (ipv4_text data)
  else if type r =? AAAA then Ok (format_ipv6_bytes data)
  else if type r =? TXT then txt_loop (S (length data)) data 0 []
  else if (type r =? CNAME) || (type r =? NS) || (type r =? MX) then exchange_text data
  else Ok [].

Section Text.
Context {B : Type} `{ByteSink B}.

Definition with_rdata (r : DnsResourceRecord) (data : bytes) : DnsResourceRecord :=
  mkRecord (name r) (type r) (class_ r) (ttl r) data.
(** The bytes of a buffer that a name was encoded into. *)
Definition encoded_name (name : bytes) : outcome bytes :=
  b ← w_run ByteBuffer.kDefaultCapacity (encode_name name); Ok (sink_contents b).
(** Each round goes past a space. *)
Fixpoint split_loop (fuel : nat) (data : bytes) (start : nat) (rdata : bytes) : outcome bytes :=
  match fuel with
  | O => Diverge
  | S fuel =>
      if Nat.ltb start (length data) then
        let space_pos := match find 32 data start with Some space_pos => space_pos | None => length data end in
        let part := substr data start (space_pos - start) in
        let part := if Nat.ltb 255 (length part) then substr part 0 255 else part in
        split_loop fuel data (space_pos + 1) (rdata ++ [u8 (zlen part)] ++ part)
      else Ok rdata
  end.
(** The preference and the exchange of the text of an MX record. *)
Definition mx_parts (mx_text : bytes) : Z * bytes :=
  match find_blank mx_text with
  | None => (10, mx_text)
  | Some split =>
      let pref_text := substr mx_text 0 split in
      let rest := trim_copy (substr_from mx_text (split + 1)) in
      match rest, parse_uint16_decimal pref_text with
      | _ :: _, Some parsed_pref => (parsed_pref, rest)
      | _, _ => (10, mx_text)
      end
  end.
Definition set_rdata_from_string (data : bytes) (r : DnsResourceRecord) : outcome DnsResourceRecord :=
  if type r =? A then
    Ok (match parse_ipv4_bytes data with Some ipv4 => with_rdata r ipv4 | None => r end)
  else if type r =? AAAA then
    Ok (match parse_ipv6_bytes data with Some ipv6 => with_rdata r ipv6 | None => r end)
  else if type r =? TXT then
    rdata ← split_loop (S (length data)) data 0 []; Ok (with_rdata r rdata)
  else if (type r =? CNAME) || (type r =? NS) then
    rdata ← encoded_name data; Ok (with_rdata r rdata)
  else if type r =? MX then
    let mx_text := trim_copy data in
    if bool_decide (mx_text = []) then Ok (with_rdata r [])
    else
      let '(preference, exchange) := mx_parts mx_text in
      if bool_decide (exchange = []) then Ok (with_rdata r [])
      else
        span ← encoded_name exchange;
        Ok (with_rdata r ([u8 (Z.land (Z.shiftr preference 8) 255); u8 (Z.land preference 255)] ++ span))
  else Ok (with_rdata r data).
End Text.
End Dns.

(** * The server *)
Module DnsServer.
Import Dns.

Abbreviation records := (gmap bytes (list DnsResourceRecord)) (only parsing).
(** The handler of the application is given the query and the response, and may add records
    to the server. *)
Definition DnsQueryHandler : Type := DnsPacket -> DnsPacket -> records -> DnsPacket * records.
Record t : Type := mk { dns_records_ : records; query_handler_ : option DnsQueryHandler }.

Fixpoint drop_dots (name : bytes) : bytes :=
  match name with ch :: rest => if ch =? 46 then drop_dots rest else name | [] => [] end.
Definition normalize_name (name : bytes) : bytes :=
  map (fun ch => if (65 <=? ch) && (ch <=? 90) then ch - 65 + 97 else ch) (rev (drop_dots (rev name))).

Definition find_records (s : t) (name : bytes) (type_ : Z) : list DnsResourceRecord :=
  match dns_records_ s !! normalize_name name with
  | None => []
  | Some l => List.filter (fun record => (type_ =? ANY) || (type record =? type_)) l
  end.
Definition has_name (s : t) (name : bytes) : bool :=
  match dns_records_ s !! normalize_name name with Some _ => true | None => false end.

Definition set_query_handler (handler : option DnsQueryHandler) (s : t) : t := mk (dns_records_ s) handler.

(** The answer to one question of the query. *)
Definition answer_question (query : DnsPacket) (question : DnsQuestion) (response : DnsPacket) (s : t)
  : DnsPacket * t * bool :=
  let response := add_question question response in
  let '(response, s) :=
    match query_handler_ s with
    | Some handler => let '(response, l) := handler query response (dns_records_ s) in (response, mk l (query_handler_ s))
    | None => (response, s)
    end in
  match find_records s (q_name question) (q_type question) with
  | [] => (response, s, negb (has_name s (q_name question)))
  | l => (foldl (fun response record => add_answer record response) response l, s, false)
  end.
Fixpoint question_loop (query : DnsPacket) (questions : list DnsQuestion) (response : DnsPacket) (s : t) (has_missing_name : bool)
  : DnsPacket * t * bool :=
  match questions with
  | [] => (response, s, has_missing_name)
  | question :: questions =>
      let '(response, s, missing) := answer_question query question response s in
      question_loop query questions response s (has_missing_name || missing)
  end.
Definition create_response (query response : DnsPacket) (s : t) : DnsPacket * t :=
  let response := set_session_id (session_id_ query) response in
  let response := set_is_response true response in
  let response := set_opcode (opcode_ query) response in
  let response := set_recursion_desired (recursion_desired_ query) response in
  let response := set_recursion_available true response in
  let response := set_authoritative_answer true response in
  if negb (opcode_ query =? QUERY) then (set_response_code NOT_IMPLEMENTED response, s)
  else
    let '(response, s, has_missing_name) := question_loop query (questions_ query) response s false in
    if bool_decide (answers_ response = []) && has_missing_name && (response_code_ response =? NO_ERROR)
    then (set_response_code NAME_ERROR response, s)
    else (response, s).

Section Server.
Context {B : Type} `{ByteSink B}.
Variable little : bool.

(** The record that [add_record] and [has_record] build. *)
Definition make_record (name_ ip : bytes) (type_ ttl_ : Z) : outcome DnsResourceRecord :=
  set_rdata_from_string ip (mkRecord (normalize_name name_) type_ IN ttl_ []).
Definition same_data (record existing : DnsResourceRecord) : bool :=
  (type existing =? type record) && bool_decide (rdata existing = rdata record).
(** [find_if], and the record in the place of what it finds, or at the end. *)
Fixpoint put_record (record : DnsResourceRecord) (l : list DnsResourceRecord) : list DnsResourceRecord :=
  match l with
  | [] => [record]
  | existing :: l => if same_data record existing then record :: l else existing :: put_record record l
  end.
Definition add_record (name_ ip : bytes) (type_ : Z) (s : t) : outcome t :=
  record ← make_record name_ ip type_ 3600;
  if bool_decide (rdata record = []) then Ok s
  else
    let l := match dns_records_ s !! name record with Some l => l | None => [] end in
    Ok (mk (<[name record := put_record record l]> (dns_records_ s)) (query_handler_ s)).
(** The member [ttl] of the record of [has_record] has no value; it is not read. *)
Definition has_record (s : t) (name_ : bytes) (type_ : Z) (value : bytes) : outcome bool :=
  record ← make_record name_ value type_ 0;
  if bool_decide (rdata record = []) then Ok false
  else
    match dns_records_ s !! normalize_name name_ with
    | None => Ok false
    | Some l => Ok (existsb (same_data record) l)
    end.
(** [DnsServer()] *)
Definition init : outcome t := add_record (str "localhost") (str "127.0.0.1") A (mk ∅ None).

(** The datagram that is written, if any. *)
Definition handle_dns_query (byte_buffer : ByteBuffer.t) (s : t) : outcome (option B * t) :=
  if ByteBuffer.readable_bytes byte_buffer =? 0 then Ok (None, s)
  else
    '(ok, query, _) ← deserialize little Dns.empty_packet byte_buffer;
    if negb ok then Ok (None, s)
    else
      let '(response, s) := create_response query Dns.empty_packet s in
      response_buffer ← w_run ByteBuffer.kDefaultCapacity (serialize response);
      Ok (Some response_buffer, s).
End Server.
End DnsServer.

(** * The client *)
Module DnsClient.
Import Dns.

Record t : Type := mk { next_session_id_ : Z; last_response_ : DnsPacket }.
Definition init : t := mk 1 Dns.empty_packet.

(** What [receive_async] returns: whether its status is [success], and the data. *)
Record Received : Type := mkReceived { success : bool; data : ByteBuffer.t }.
(** A round of the wait: the milliseconds since its start, and the read that is made, which
    is given the time to wait. *)
Definition round : Type := Z * (Z -> Received).

Section Client.
Context {B : Type} `{ByteSink B}.
Variable little : bool.

Definition build_query_packet (domain : bytes) (type_ session_id : Z) : outcome B :=
  let packet := set_recursion_desired true (set_is_response false (set_session_id session_id Dns.empty_packet)) in
  let packet := add_question (mkQuestion domain type_ IN) packet in
  w_run ByteBuffer.kDefaultCapacity (serialize packet).

(** [while (true)]: the packet that is returned, or [None] when the client still waits after
    the rounds that are given. *)
Fixpoint wait_loop (timeout_ms session_id : Z) (rounds : list round) (c : t) : outcome (option DnsPacket * t) :=
  match rounds with
  | [] => Ok (None, c)
  | (elapsed, receive_async) :: rounds =>
      if (0 <? timeout_ms) && (timeout_ms <=? elapsed) then Ok (Some Dns.empty_packet, c)
      else
        let wait_ms := if 0 <? timeout_ms then u32 (timeout_ms - elapsed) else timeout_ms in
        let read_result := receive_async wait_ms in
        if negb (success read_result) then Ok (Some Dns.empty_packet, c)
        else if ByteBuffer.readable_bytes (data read_result) =? 0 then wait_loop timeout_ms session_id rounds c
        else
          '(ok, response, _) ← deserialize little Dns.empty_packet (data read_result);
          if negb ok then wait_loop timeout_ms session_id rounds c
          else if negb (is_response_ response) || negb (session_id_ response =? session_id)
          then wait_loop timeout_ms session_id rounds c
          else Ok (Some response, mk (next_session_id_ c) response)
  end.

(** The packet, if the client does not wait any more, the datagram that it sent, and its
    next state; [send] is whether a datagram is sent. *)
Definition query_async (connected : bool) (send : B -> bool) (domain : bytes) (type_ timeout_ms : Z) (rounds : list round) (c : t)
  : outcome (option DnsPacket * option B * t) :=
  if negb connected then Ok (Some Dns.empty_packet, None, c)
  else
    let session_id := next_session_id_ c in
    let c := mk (u16 (next_session_id_ c + 1)) (last_response_ c) in
    datagram ← build_query_packet domain type_ session_id;
    if negb (send datagram) then Ok (Some Dns.empty_packet, Some datagram, c)
    else
      '(result, c) ← wait_loop timeout_ms session_id rounds c;
      Ok (result, Some datagram, c).
End Client.
End DnsClient.
