(* ===== verification/DnsFacts.v ===== *)
(** The names, the packets and the records of DNS: what the reader of names accepts, what is
    written and that it is read back. *)
From stdpp Require Import gmap.
From S2P Require Import Prelude Endian Strings ByteBuffer ByteBufferFacts Dns.
Import Dns.

(** * Names on the wire *)
(** The label [l] is at [i], and [j] comes after it. *)
Definition label_at (data : bytes) (i : Z) (l : bytes) (j : Z) : Prop :=
  exists n, rd data i = Ok n /\ 1 <= n <= 63 /\ rd_range data (i + 1) n = Ok l /\ j = i + 1 + n.
(** A pointer to [j] is at [i]. *)
Definition pointer_at (data : bytes) (i j : Z) : Prop :=
  exists hi lo, rd data i = Ok hi /\ 192 <= hi /\ rd data (i + 1) = Ok lo /\ j = (hi - 192) * 256 + lo /\ j < zlen data.

(** [spells data ended i ls e]: the labels [ls] are read from [i] on, and [e] is the end of
    the name: where its first pointer ends, if it has one, and [ended] is that end once it was
    met. After a pointer, the end of the data ends a name too. *)
Inductive spells (data : bytes) : option Z -> Z -> list bytes -> Z -> Prop :=
| spells_root ended i : rd data i = Ok 0 -> spells data ended i [] (default (i + 1) ended)
| spells_end e i : zlen data <= i -> spells data (Some e) i [] e
| spells_label ended i l j ls e : label_at data i l j -> spells data ended j ls e -> spells data ended i (l :: ls) e
| spells_pointer ended i j ls e : pointer_at data i j -> spells data (Some (default (i + 2) ended)) j ls e ->
    spells data ended i ls e.

(** The same, with the positions that are read. *)
Inductive trail (data : bytes) : option Z -> Z -> list bytes -> Z -> list Z -> Prop :=
| trail_root ended i : rd data i = Ok 0 -> trail data ended i [] (default (i + 1) ended) [i]
| trail_end e i : zlen data <= i -> trail data (Some e) i [] e []
| trail_label ended i l j ls e ps : label_at data i l j -> trail data ended j ls e ps ->
    trail data ended i (l :: ls) e (i :: ps)
| trail_pointer ended i j ls e ps : pointer_at data i j -> trail data (Some (default (i + 2) ended)) j ls e ps ->
    trail data ended i ls e (i :: ps).
Lemma spells_trail data ended i ls e : spells data ended i ls e -> exists ps, trail data ended i ls e ps.
Proof. induction 1 as [| |????? ?? _ [ps ?]|????? ? _ [ps ?]]; eexists; by econstructor. Qed.

Lemma label_at_lt data i l j : label_at data i l j -> 0 <= i < zlen data /\ i < j <= zlen data.
Proof.
  intros (n & (H & _)%rd_inv & ? & Hr & ->). unfold rd_range in Hr. case_if_in Hr; [done|]. lia.
Qed.
Lemma label_at_ne data i l j : label_at data i l j -> l <> [].
Proof. intros (n & _ & Hn & Hr & _) ->. apply rd_range_len in Hr. rewrite zlen_nil in Hr. lia. Qed.
Lemma pointer_at_lt data i j : Forall is_u8 data -> pointer_at data i j -> 0 <= i < zlen data /\ 0 <= j < zlen data.
Proof.
  intros Hu (hi & lo & Hh & ? & Hl & -> & ?). apply (rd_is_u8 _ _ _ Hu) in Hl as Hl'. apply rd_inv in Hh as [? _].
  unfold is_u8 in Hl'. lia.
Qed.
Lemma root_lt data i : rd data i = Ok 0 -> 0 <= i < zlen data.
Proof. by intros [H _]%rd_inv. Qed.

(** The kinds exclude each other, and each is a function of the position. *)
Lemma label_at_fun data i l j l' j' : label_at data i l j -> label_at data i l' j' -> l = l' /\ j = j'.
Proof. intros (n & H & _ & Hr & ->) (n' & H' & _ & Hr' & ->). assert (n = n') as <- by congruence. split; [congruence|done]. Qed.
Lemma pointer_at_fun data i j j' : pointer_at data i j -> pointer_at data i j' -> j = j'.
Proof. intros (h & l & H & _ & Hl & -> & _) (h' & l' & H' & _ & Hl' & -> & _). congruence. Qed.
Lemma root_label data i l j : rd data i = Ok 0 -> label_at data i l j -> False.
Proof. intros H (n & H' & ? & _). rewrite H in H'. injection H' as <-. lia. Qed.
Lemma root_pointer data i j : rd data i = Ok 0 -> pointer_at data i j -> False.
Proof. intros H (n & ? & H' & ? & _). rewrite H in H'. injection H' as <-. lia. Qed.
Lemma label_pointer data i l j j' : label_at data i l j -> pointer_at data i j' -> False.
Proof. intros (n & H & ? & _) (h & ? & H' & ? & _). rewrite H in H'. injection H' as <-. lia. Qed.

(** What is read does not depend on the end, and reading is a function. *)
Lemma trail_fun data ended i ls e ps : Forall is_u8 data -> trail data ended i ls e ps ->
  forall ended' ls' e' ps', trail data ended' i ls' e' ps' -> ls = ls' /\ ps = ps' /\ (ended = ended' -> e = e').
Proof.
  intros Hu. induction 1 as [ended i H|e i H|ended i l j ls e ps H _ IH|ended i j ls e ps H _ IH]; intros ended' ls' e' ps' H';
    inversion H'; subst;
    repeat match goal with
    | H : label_at _ _ _ _ |- _ => pose proof (label_at_lt _ _ _ _ H); generalize dependent H
    | H : pointer_at _ _ _ |- _ => pose proof (pointer_at_lt _ _ _ Hu H); generalize dependent H
    | H : rd _ _ = Ok 0 |- _ => pose proof (root_lt _ _ H); generalize dependent H
    end; intros; try lia; try (exfalso; eauto using root_label, root_pointer, label_pointer; fail).
  - by split_and!; [| |intros ->].
  - split_and!; [done..|congruence].
  - destruct (label_at_fun data i l j l0 j0) as [<- <-]; [done..|].
    clear H'. destruct (IH _ _ _ _ ltac:(eassumption)) as (<- & <- & He). done.
  - assert (j = j0) as <- by by eapply pointer_at_fun.
    clear H'. destruct (IH _ _ _ _ ltac:(eassumption)) as (<- & <- & He). split_and!; [done..|]. intros ->. by apply He.
Qed.
(** A name that ends does not come to a position twice. *)
Lemma trail_suffix data ended i ls e ps p : trail data ended i ls e ps -> p ∈ ps ->
  exists ended' ls' e' ps', trail data ended' p ls' e' ps' /\ (length ps' <= length ps)%nat.
Proof.
  induction 1 as [|e i|ended i l j ls e ps ? ? IH|ended i j ls e ps ? ? IH]; intros Hp.
  - apply list_elem_of_singleton in Hp as ->. exists None. eexists _, _, _. split; [by apply trail_root|done].
  - by apply not_elem_of_nil in Hp.
  - apply elem_of_cons in Hp as [->|Hp]; [eexists _, _, _, _; split; [by eapply trail_label|done]|].
    destruct (IH Hp) as (? & ? & ? & ? & ? & ?). eexists _, _, _, _. split; [done|]. cbn. lia.
  - apply elem_of_cons in Hp as [->|Hp]; [eexists _, _, _, _; split; [by eapply trail_pointer|done]|].
    destruct (IH Hp) as (? & ? & ? & ? & ? & ?). eexists _, _, _, _. split; [done|]. cbn. lia.
Qed.
Lemma trail_nodup data ended i ls e ps : Forall is_u8 data -> trail data ended i ls e ps -> NoDup ps.
Proof.
  intros Hu. assert (forall ended i ls e ps ps' ended0 ls0 e0, trail data ended i ls e (i :: ps) -> trail data ended0 i ls0 e0 ps' ->
    (length ps' <= length ps)%nat -> False) as Hno.
  { intros ?????? ??? H1 H2 H. destruct (trail_fun _ _ _ _ _ _ Hu H1 _ _ _ _ H2) as (_ & <- & _). cbn in H. lia. }
  induction 1 as [|e i|ended i l j ls e ps H H2 IH|ended i j ls e ps H H2 IH]; [apply NoDup_singleton|constructor| |];
    (constructor; [|done]); intros Hi; destruct (trail_suffix _ _ _ _ _ _ _ H2 Hi) as (? & ? & ? & ? & H3 & Hl).
  - eapply Hno; [by eapply trail_label|exact H3|done].
  - eapply Hno; [by eapply trail_pointer|exact H3|done].
Qed.

(** ** The loop *)
Definition unseen (v : list bool) : nat := length (List.filter negb v).
Lemma unseen_mark v n : v !! n = Some false -> unseen v = S (unseen (<[n := true]> v)).
Proof.
  revert n. induction v as [|b v IH]; intros [|n] H; cbn in *; [done|done| |].
  - by injection H as ->.
  - unfold unseen in *. cbn. destruct b; cbn; rewrite (IH n); done.
Qed.
Lemma unseen_new n : unseen (replicate n false) = n.
Proof. induction n as [|n IH]; [done|]. unfold unseen in *. cbn. by rewrite IH. Qed.
Lemma unseen_len v : (unseen v <= length v)%nat.
Proof. unfold unseen. apply filter_length_le. Qed.

(** What the variables of the loop say of the end of the name. *)
Definition ended_of (advanced : bool) (next_pos : Z) : option Z := if advanced then Some next_pos else None.
Definition dotted (name label : bytes) : bytes := match name with [] => [] | _ => name ++ [46] end ++ label.
Lemma join_snoc c acc l : acc <> [] -> join_with c (acc ++ [l]) = join_with c acc ++ c :: l.
Proof.
  induction acc as [|a [|b acc] IH]; intros H; [done|done|].
  change (a ++ c :: join_with c ((b :: acc) ++ [l]) = (a ++ c :: join_with c (b :: acc)) ++ c :: l).
  rewrite IH by done. by rewrite <- app_assoc.
Qed.
Lemma join_ne c a acc : a <> [] -> join_with c (a :: acc) <> [].
Proof. by destruct a, acc. Qed.
Lemma dotted_join acc l : Forall (fun l => l <> []) acc -> dotted (join_with 46 acc) l = join_with 46 (acc ++ [l]).
Proof.
  destruct acc as [|a acc]; intros H; [done|]. apply Forall_cons in H as [Ha _]. unfold dotted.
  destruct (join_with 46 (a :: acc)) eqn:E; [by apply (join_ne 46 a acc) in E|rewrite <- E].
  rewrite join_snoc by done. by rewrite <- app_assoc.
Qed.

(** The bits of a length byte. *)
Lemma label_type_cases byte : is_u8 byte ->
  (Z.land byte 192 =? 192) = (192 <=? byte) /\ (Z.land byte 192 =? 0) = (byte <? 64) /\
  (192 <= byte -> Z.land byte 63 = byte - 192).
Proof.
  intros Hb. unfold is_u8 in Hb. assert (Z.of_nat (Z.to_nat byte) = byte) as <- by lia.
  assert (Z.to_nat byte < 256)%nat as Hn by lia. clear Hb.
  assert (forallb (fun n => let byte := Z.of_nat n in
    Bool.eqb (Z.land byte 192 =? 192) (192 <=? byte) && Bool.eqb (Z.land byte 192 =? 0) (byte <? 64)
    && (negb (192 <=? byte) || (Z.land byte 63 =? byte - 192))) (seq 0 256) = true) as Hall by by vm_compute.
  rewrite forallb_forall in Hall. specialize (Hall (Z.to_nat byte)). rewrite in_seq in Hall.
  specialize (Hall ltac:(lia)). cbv zeta in Hall. rewrite !andb_true_iff, !eqb_true_iff in Hall.
  destruct Hall as ((H1 & H2) & H3). split; [done|]. split; [done|]. lia.
Qed.

Section Loop.
Variable data : bytes.
Hypothesis bytes_u8 : Forall is_u8 data.

Lemma loop_end fuel v i np adv jumps name : zlen data <= i ->
  name_loop (S fuel) data v i np adv jumps name = if adv then Ok (name, np) else Reject.
Proof. intros H. cbn [name_loop]. cbv zeta. by replace (i <? zlen data) with false by lia. Qed.
Lemma loop_root fuel v i np adv jumps name : rd data i = Ok 0 -> v !! Z.to_nat i = Some false ->
  name_loop (S fuel) data v i np adv jumps name = Ok (name, default (i + 1) (ended_of adv np)).
Proof.
  intros H Hv. pose proof (root_lt _ _ H). cbn [name_loop]. cbv zeta. replace (i <? zlen data) with true by lia.
  rewrite Hv. mstep. rewrite H. mstep. by destruct adv.
Qed.
Lemma loop_label fuel v i np adv jumps name l j : label_at data i l j -> v !! Z.to_nat i = Some false ->
  name_loop (S fuel) data v i np adv jumps name
  = name_loop fuel data (<[Z.to_nat i := true]> v) j (if adv then np else j) adv jumps (dotted name l).
Proof.
  intros H Hv. pose proof (label_at_lt _ _ _ _ H) as [Hi Hj]. destruct H as (n & H & Hn & Hl & ->).
  assert (is_u8 n) as (Ht & Ht' & _)%label_type_cases by (unfold is_u8; lia).
  cbn [name_loop]. cbv zeta. replace (i <? zlen data) with true by lia. rewrite Hv. mstep. rewrite H. mstep.
  rewrite Ht, Ht'. do 3 (case_if; [lia|]). case_if; [lia|]. case_if; [lia|]. by rewrite Hl.
Qed.
Lemma loop_pointer fuel v i np adv jumps name j : pointer_at data i j -> v !! Z.to_nat i = Some false -> jumps < zlen data ->
  name_loop (S fuel) data v i np adv jumps name
  = name_loop fuel data (<[Z.to_nat i := true]> v) j (default (i + 2) (ended_of adv np)) true (jumps + 1) name.
Proof.
  intros H Hv Hj. pose proof (pointer_at_lt _ _ _ bytes_u8 H) as [Hi Hp]. destruct H as (hi & lo & H & Hh & Hl & -> & Hlt).
  pose proof (rd_is_u8 _ _ _ bytes_u8 H) as Hu. pose proof (rd_is_u8 _ _ _ bytes_u8 Hl) as Hul.
  apply rd_inv in Hl as Hll. destruct Hll as [Hll _].
  destruct (label_type_cases hi Hu) as (Ht & _ & Hm).
  cbn [name_loop]. cbv zeta. replace (i <? zlen data) with true by lia. rewrite Hv. mstep. rewrite H. mstep.
  rewrite Ht, Hm by lia. case_if; [lia|]. case_if; [|lia]. case_if; [lia|]. rewrite Hl. mstep.
  rewrite be16_combine by (unfold is_u8 in *; lia). case_if; [lia|]. case_if; [lia|]. by destruct adv.
Qed.
Lemma loop_stuck fuel v i np adv jumps name : 0 <= i < zlen data -> length v = length data -> jumps < zlen data ->
  (rd data i = Ok 0 /\ v !! Z.to_nat i = Some false)
  \/ (exists l j, label_at data i l j /\ v !! Z.to_nat i = Some false)
  \/ (exists j, pointer_at data i j /\ v !! Z.to_nat i = Some false)
  \/ name_loop (S fuel) data v i np adv jumps name = Reject.
Proof.
  intros Hi Hv Hj. unfold zlen in *. destruct (lookup_lt_is_Some_2 v (Z.to_nat i)) as [[] Hs]; [lia| |].
  { do 3 right. cbn [name_loop]. cbv zeta. unfold zlen. case_if; [|lia]. by rewrite Hs. }
  destruct (rd_ok data i) as [n Hn]; [unfold zlen; lia|]. pose proof (rd_is_u8 _ _ _ bytes_u8 Hn) as Hu.
  destruct (label_type_cases n Hu) as (Ht & Ht' & Hm).
  destruct (decide (n = 0)) as [->|Hn0]; [by left|].
  destruct (decide (192 <= n)) as [Hp|Hp].
  - destruct (decide (i + 1 < zlen data)) as [Hl|Hl].
    + destruct (rd_ok data (i + 1)) as [lo Hlo]; [lia|]. pose proof (rd_is_u8 _ _ _ bytes_u8 Hlo) as Hul.
      destruct (decide ((n - 192) * 256 + lo < zlen data)) as [Ho|Ho].
      * right. right. left. eexists. split; [|done]. by exists n, lo.
      * do 3 right. cbn [name_loop]. cbv zeta. case_if; [|unfold zlen in *; lia]. rewrite Hs. mstep. rewrite Hn. mstep.
        rewrite Ht, Hm by lia. case_if; [lia|]. case_if; [|lia]. case_if; [lia|]. rewrite Hlo. mstep.
        rewrite be16_combine by (unfold is_u8 in *; lia). case_if; [done|lia].
    + do 3 right. cbn [name_loop]. cbv zeta. case_if; [|unfold zlen in *; lia]. rewrite Hs. mstep. rewrite Hn. mstep.
      rewrite Ht. case_if; [lia|]. case_if; [|lia]. case_if; [done|lia].
  - destruct (decide (1 <= n <= 63 /\ i + 1 + n <= zlen data)) as [[Hn1 Hn2]|Hno].
    + right. left. destruct (rd_range data (i + 1) n) as [l| | |] eqn:Hr.
      * exists l, (i + 1 + n). split; [|done]. by exists n.
      * unfold rd_range in Hr. by case_if_in Hr.
      * unfold rd_range in Hr. case_if_in Hr; [lia|done].
      * unfold rd_range in Hr. by case_if_in Hr.
    + do 3 right. cbn [name_loop]. cbv zeta. case_if; [|unfold zlen in *; lia]. rewrite Hs. mstep. rewrite Hn. mstep.
      rewrite Ht, Ht'. case_if; [lia|]. case_if; [lia|]. case_if; [done|]. case_if; [done|]. unfold is_u8 in Hu.
      case_if; [done|lia].
Qed.

(** The loop returns, and what it returns is spelled at its position. *)
Lemma loop_sound fuel : forall v i np adv jumps acc, (unseen v < fuel)%nat -> 0 <= i -> length v = length data ->
  jumps + Z.of_nat (unseen v) <= zlen data -> Forall (fun l => l <> []) acc -> (adv = false -> i < zlen data \/ acc <> []) ->
  match name_loop fuel data v i np adv jumps (join_with 46 acc) with
  | Ok (nm, e) => exists ls, spells data (ended_of adv np) i ls e /\ nm = join_with 46 (acc ++ ls) /\ Forall (fun l => l <> []) ls
  | Reject => True
  | Fault | Diverge => False
  end.
Proof.
  induction fuel as [|fuel IH]; intros v i np adv jumps acc Hf Hi Hv Hj Ha Hadv; [lia|].
  destruct (decide (zlen data <= i)) as [He|He].
  { rewrite loop_end by done. destruct adv; [|done]. exists []. rewrite app_nil_r. split; [by apply spells_end|done]. }
  destruct (decide (jumps < zlen data)) as [Hjl|Hjl].
  2:{ assert (unseen v = O) as Hu by lia.
      assert (v !! Z.to_nat i = Some true) as Hs.
      { destruct (v !! Z.to_nat i) as [[]|] eqn:Hs; [done| |].
        - apply unseen_mark in Hs. lia.
        - apply lookup_ge_None in Hs. unfold zlen in *. lia. }
      cbn [name_loop]. cbv zeta. case_if; [|lia]. by rewrite Hs. }
  destruct (loop_stuck fuel v i np adv jumps (join_with 46 acc)) as [[H Hs]|[(l & j & H & Hs)|[(j & H & Hs)| ->]]]; [lia|done|done| | | |done].
  - rewrite loop_root by done. exists []. rewrite app_nil_r. split; [by apply spells_root|done].
  - pose proof (unseen_mark v _ Hs) as Hu. pose proof (label_at_lt _ _ _ _ H) as [_ Hlt].
    pose proof (label_at_ne _ _ _ _ H) as Hl.
    rewrite (loop_label fuel v i np adv jumps _ l j), dotted_join by done.
    specialize (IH (<[Z.to_nat i := true]> v) j (if adv then np else j) adv jumps (acc ++ [l])).
    destruct (name_loop _ _ _ _ _ _ _ _) as [[nm e]| | |]; [|done|..];
      (destruct IH as (ls & Hsp & -> & Hls) || destruct IH);
      try (rewrite ?length_insert; lia || (apply Forall_app; split; [done|by constructor]) || (intros _; by right; destruct acc)).
    exists (l :: ls). rewrite <- app_assoc. split; [|split; [done|by constructor]]. eapply spells_label; [done|]. by destruct adv.
  - pose proof (unseen_mark v _ Hs) as Hu. pose proof (pointer_at_lt _ _ _ bytes_u8 H) as [_ Hlt].
    rewrite (loop_pointer fuel v i np adv jumps _ j) by done.
    specialize (IH (<[Z.to_nat i := true]> v) j (default (i + 2) (ended_of adv np)) true (jumps + 1) acc).
    destruct (name_loop _ _ _ _ _ _ _ _) as [[nm e]| | |]; [|done|..];
      (destruct IH as (ls & Hsp & -> & Hls) || destruct IH); try (rewrite ?length_insert; done || lia).
    exists ls. split; [|done]. by eapply spells_pointer.
Qed.

(** What is spelled along positions that were not seen yet is what the loop returns. *)
Lemma loop_complete ended i ls e ps : trail data ended i ls e ps ->
  forall fuel (v : list bool) np adv jumps acc, ended = ended_of adv np -> NoDup ps -> (forall p, p ∈ ps -> v !! Z.to_nat p = Some false) ->
  (unseen v < fuel)%nat -> length v = length data ->
  jumps + Z.of_nat (unseen v) <= zlen data -> Forall (fun l => l <> []) acc ->
  name_loop fuel data v i np adv jumps (join_with 46 acc) = Ok (join_with 46 (acc ++ ls), e).
Proof.
  assert (forall (v : list bool) i ps, 0 <= i -> NoDup (i :: ps) -> (forall p, p ∈ i :: ps -> v !! Z.to_nat p = Some false) -> (forall p, p ∈ ps -> 0 <= p) ->
    forall p, p ∈ ps -> <[Z.to_nat i := true]> v !! Z.to_nat p = Some false) as Hmark.
  { intros v k qs Hk [Hn _]%NoDup_cons Hs Hpos p Hp. rewrite list_lookup_insert_ne; [apply Hs; by right|].
    intros Heq. assert (p = k) as -> by (specialize (Hpos p Hp); lia). done. }
  assert (forall ended i ls e ps, trail data ended i ls e ps -> forall p, p ∈ ps -> 0 <= p) as Hpos.
  { induction 1 as [? k Hk|?|? k ? ? ? ? ? Hk _ IH|? k ? ? ? ? Hk _ IH]; intros p Hp.
    - apply list_elem_of_singleton in Hp as ->. apply root_lt in Hk. lia.
    - by apply not_elem_of_nil in Hp.
    - apply elem_of_cons in Hp as [->|Hp]; [apply label_at_lt in Hk; lia|by apply IH].
    - apply elem_of_cons in Hp as [->|Hp]; [apply pointer_at_lt in Hk; [lia|done]|by apply IH]. }
  induction 1 as [ended i H|e i H|ended i l j ls e ps H Ht IH|ended i j ls e ps H Ht IH];
    intros fuel v np adv jumps acc He Hn Hs Hf Hv Hj Ha; (destruct fuel as [|fuel]; [lia|]).
  - rewrite loop_root, app_nil_r, He; [done..|]. apply Hs. by left.
  - destruct adv; [|done]. injection He as ->. by rewrite loop_end, app_nil_r.
  - assert (v !! Z.to_nat i = Some false) as Hi by (apply Hs; by left). pose proof (unseen_mark v _ Hi) as Hu.
    pose proof (label_at_lt _ _ _ _ H) as [Hi0 _].
    pose proof (label_at_ne _ _ _ _ H) as Hl.
    rewrite (loop_label fuel v i np adv jumps _ l j), dotted_join by done.
    rewrite IH; [by rewrite <- app_assoc|rewrite He; by destruct adv|by apply NoDup_cons in Hn as [_ ?]|apply (Hmark v i ps); eauto; lia|lia|by rewrite length_insert|lia|].
    apply Forall_app. split; [done|by constructor].
  - assert (v !! Z.to_nat i = Some false) as Hi by (apply Hs; by left). pose proof (unseen_mark v _ Hi) as Hu.
    pose proof (pointer_at_lt _ _ _ bytes_u8 H) as [Hi0 _].
    rewrite (loop_pointer fuel v i np adv jumps _ j) by (done || lia).
    apply IH; [by rewrite He|by apply NoDup_cons in Hn as [_ ?]|apply (Hmark v i ps); eauto; lia|lia|by rewrite length_insert|lia|done].
Qed.
End Loop.

Lemma decode_name_exact data pos nm e : Forall is_u8 data -> 0 <= pos ->
  decode_name data pos = Ok (nm, e) <-> exists ls, spells data None pos ls e /\ nm = join_with 46 ls.
Proof.
  intros Hu Hp. unfold decode_name. split.
  - case_if; [done|]. intros E.
    pose proof (loop_sound data Hu (S (length data)) (replicate (length data) false) pos pos false 0 []) as H.
    rewrite unseen_new, length_replicate in H. unfold zlen in *. specialize (H ltac:(lia) Hp eq_refl ltac:(lia) ltac:(done) ltac:(lia)).
    change (join_with 46 []) with ([] : bytes) in H. rewrite E in H. destruct H as (ls & Hs & -> & _). by exists ls.
  - intros (ls & Hs & ->). case_if.
    { inversion Hs; subst.
      - match goal with H : rd _ _ = Ok 0 |- _ => apply root_lt in H; lia end.
      - match goal with H : label_at _ _ _ _ |- _ => apply label_at_lt in H; lia end.
      - match goal with H : pointer_at _ _ _ |- _ => apply pointer_at_lt in H; [lia|done] end. }
    apply spells_trail in Hs as [ps Ht]. pose proof (trail_nodup _ _ _ _ _ _ Hu Ht) as Hn.
    apply (loop_complete data Hu None pos ls e ps Ht (S (length data)) (replicate (length data) false) pos false 0 []);
      rewrite ?unseen_new, ?length_replicate; try done; try (unfold zlen; lia).
    intros p Hq. apply lookup_replicate_2.
    enough (0 <= p < zlen data) by (unfold zlen in *; lia). revert Hq.
    clear Hn Hif Hp. induction Ht as [? k Hk|?|? k ? ? ? ? ? Hk _ IH|? k ? ? ? ? Hk _ IH]; intros Hq.
    + apply list_elem_of_singleton in Hq as ->. by apply root_lt.
    + by apply not_elem_of_nil in Hq.
    + apply elem_of_cons in Hq as [->|Hq]; [by apply label_at_lt in Hk as [? _]|by apply IH].
    + apply elem_of_cons in Hq as [->|Hq]; [by apply pointer_at_lt in Hk as [? _]|by apply IH].
Qed.
Lemma decode_name_safe data pos : Forall is_u8 data -> 0 <= pos -> safe (decode_name data pos).
Proof.
  intros Hu Hp. unfold decode_name. case_if; [done|].
  pose proof (loop_sound data Hu (S (length data)) (replicate (length data) false) pos pos false 0 []) as H.
  rewrite unseen_new, length_replicate in H. unfold zlen in *. specialize (H ltac:(lia) Hp eq_refl ltac:(lia) ltac:(done) ltac:(lia)).
  change (join_with 46 []) with ([] : bytes) in H. by destruct (name_loop _ _ _ _ _ _ _ _) as [[]| | |].
Qed.

Lemma spells_ended data e' k ls e : spells data (Some e') k ls e -> e = e'.
Proof. intros Hs. remember (Some e') as ended eqn:E. induction Hs; subst; cbn in *; try congruence; auto. Qed.
Lemma spells_bounds data i ls e : Forall is_u8 data -> spells data None i ls e -> i < e <= zlen data.
Proof.
  intros Hu H. remember None as ended eqn:E. revert E.
  induction H as [ended i H|e i H|ended i l j ls e H _ IH|ended i j ls e H Ht _]; intros E; try discriminate; subst ended.
  - apply root_lt in H. cbn. lia.
  - apply label_at_lt in H. specialize (IH eq_refl). lia.
  - assert (forall e' k ls e, spells data (Some e') k ls e -> e = e') as Hend.
    { intros e' k ls' e0 Hs. remember (Some e') as ended eqn:E. induction Hs; subst; cbn in *; try congruence; auto. }
    apply Hend in Ht as ->. cbn. pose proof H as (hi & lo & _ & _ & Hlo & _). apply rd_inv in Hlo as [Hlo _].
    apply pointer_at_lt in H; [lia|done].
Qed.

(** ** Writing names *)
(** The labels that are written: those between the dots, and none after a last dot. *)
Fixpoint drop_last_empty (ls : list bytes) : list bytes :=
  match ls with
  | [] => []
  | l :: ls => match l, ls with [], [] => [] | _, _ => l :: drop_last_empty ls end
  end.
Definition name_labels (nm : bytes) : list bytes := drop_last_empty (split_on 46 nm).
Definition label_bytes (l : bytes) : bytes := u8 (zlen l) :: l.
Definition labels_bytes (ls : list bytes) : bytes := concat (map label_bytes ls) ++ [0].

Lemma drop_last_cons l ls : l <> [] \/ ls <> [] -> drop_last_empty (l :: ls) = l :: drop_last_empty ls.
Proof. by destruct l, ls; intros []. Qed.

Section WriteNames.
Context {B : Type} `{ByteSink B}.

Lemma encode_loop_emits nm fuel : forall start, (length nm - start < fuel)%nat ->
  emits (encode_loop fuel nm start) (concat (map label_bytes (name_labels (drop start nm)))).
Proof.
  induction fuel as [|fuel IH]; intros start Hf; [lia|]. cbn [encode_loop].
  destruct (Nat.ltb_spec start (length nm)) as [Hs|Hs].
  2:{ rewrite drop_ge by lia. apply emits_skip. }
  unfold find, name_labels. destruct (index_of 46 (drop start nm)) as [i|] eqn:E; cbn [fmap option_fmap option_map].
  - pose proof (index_of_lt _ _ _ E) as Hi. rewrite length_drop in Hi.
    rewrite (split_on_index_some _ _ _ E), drop_last_cons, drop_drop by (right; apply split_on_ne).
    replace (start + i - start)%nat with i by lia. cbn [map concat]. unfold label_bytes at 1. unfold substr.
    change ((u8 (zlen (take i (drop start nm))) :: take i (drop start nm)) ++ ?x)
      with ([u8 (zlen (take i (drop start nm)))] ++ take i (drop start nm) ++ x).
    assert (zlen (take i (drop start nm)) = Z.of_nat i) as Hl by (unfold zlen; rewrite length_take, length_drop; lia).
    rewrite Hl. apply emits_seq; [eapply emits_eq; [apply emits_u8|by rewrite u8_id by apply u8_range]|].
    apply emits_seq; [apply emits_append|]. replace (start + S i)%nat with (start + i + 1)%nat by lia. apply IH. lia.
  - rewrite (split_on_index_none _ _ E), drop_last_cons.
    2:{ left. intros Hd. apply (f_equal length) in Hd. rewrite length_drop in Hd. cbn in Hd. lia. }
    cbn [drop_last_empty map concat]. unfold label_bytes, substr. rewrite take_ge by (rewrite length_drop; lia).
    assert (zlen (drop start nm) = Z.of_nat (length nm - start)) as Hl by (unfold zlen; rewrite length_drop; lia).
    rewrite Hl, app_nil_r. change (u8 ?n :: ?x) with ([u8 n] ++ x). apply emits_seq; [eapply emits_eq; [apply emits_u8|by rewrite u8_id by apply u8_range]|].
    eapply emits_eq; [apply emits_seq; [apply emits_append|apply IH; lia]|].
    rewrite (drop_ge nm (length nm + 1)) by lia. cbn. by rewrite app_nil_r.
Qed.
Lemma encode_name_emits nm : emits (encode_name nm) (labels_bytes (name_labels nm)).
Proof.
  unfold labels_bytes, encode_name. destruct nm as [|c nm].
  { apply (emits_eq _ [u8 0]); [apply emits_u8|done]. }
  apply emits_seq; [apply (encode_loop_emits (c :: nm) _ O); cbn [length]; lia|].
  apply (emits_eq _ [u8 0]); [apply emits_u8|done].
Qed.
End WriteNames.

(** Names of labels of 1 to 63 bytes, and the root. *)
Definition label_ok (l : bytes) : Prop := 1 <= zlen l <= 63.
#[export] Instance label_ok_dec l : Decision (label_ok l).
Proof. unfold label_ok. apply _. Defined.
Definition name_ok (nm : bytes) : Prop := Forall is_u8 nm /\ (nm = [] \/ Forall label_ok (split_on 46 nm)).
#[export] Instance name_ok_dec nm : Decision (name_ok nm).
Proof. unfold name_ok. apply _. Defined.

Lemma name_ok_labels nm : name_ok nm -> Forall label_ok (name_labels nm) /\ join_with 46 (name_labels nm) = nm.
Proof.
  intros [_ [->|H]]; [split; [constructor|done]|]. unfold name_labels.
  assert (drop_last_empty (split_on 46 nm) = split_on 46 nm) as ->; [|split; [done|apply join_split]].
  induction H as [|l ls Hl _ IH]; [done|]. rewrite drop_last_cons, IH; [done|]. left. intros ->. unfold label_ok in Hl.
  rewrite zlen_nil in Hl. lia.
Qed.

Lemma spells_labels ls : forall pre post, Forall label_ok ls ->
  spells (pre ++ labels_bytes ls ++ post) None (zlen pre) ls (zlen pre + zlen (labels_bytes ls)).
Proof.
  induction ls as [|l ls IH]; intros pre post H.
  { apply (spells_root _ None). apply rd_app. }
  apply Forall_cons in H as [Hl H]. unfold label_ok in Hl. pose proof (IH (pre ++ label_bytes l) post H) as Hs.
  assert (pre ++ labels_bytes (l :: ls) ++ post = (pre ++ label_bytes l) ++ labels_bytes ls ++ post) as Hd.
  { unfold labels_bytes. cbn [map concat]. by rewrite <- !app_assoc. }
  assert (zlen (labels_bytes (l :: ls)) = zlen (label_bytes l) + zlen (labels_bytes ls)) as Hz.
  { unfold labels_bytes. cbn [map concat]. zlia. }
  rewrite Hd, Hz, Z.add_assoc, <- zlen_app. eapply spells_label; [|exact Hs].
  exists (zlen l). unfold label_bytes. rewrite u8_id by (unfold is_u8; lia). rewrite <- !app_assoc.
  split; [apply rd_app|]. split; [lia|]. split; [|autorewrite with zlen; lia].
  change ((zlen l :: l) ++ ?x) with ([zlen l] ++ l ++ x). rewrite (app_assoc pre [zlen l]).
  replace (zlen pre + 1) with (zlen (pre ++ [zlen l])) by zlia. apply rd_range_app.
Qed.

Lemma split_on_u8 c s : Forall is_u8 s -> Forall (Forall is_u8) (split_on c s).
Proof.
  intros H. apply Forall_forall. intros l Hl. apply Forall_forall. intros x Hx. rewrite Forall_forall in H.
  apply H. by eapply split_on_chars.
Qed.
Lemma labels_bytes_u8 nm : Forall is_u8 nm -> Forall is_u8 (labels_bytes (name_labels nm)).
Proof.
  intros H. apply (split_on_u8 46) in H. unfold labels_bytes. apply Forall_app. split; [|repeat constructor; unfold is_u8; lia].
  unfold name_labels. induction H as [|l ls Hl Hls IH]; [constructor|]. cbn [drop_last_empty].
  destruct l as [|x l]; [destruct ls; [constructor|]|]; cbn [map concat]; apply Forall_app; (split; [|done]);
    (constructor; [apply u8_range|done]).
Qed.

Lemma decode_written nm post : name_ok nm -> Forall is_u8 post ->
  decode_name (labels_bytes (name_labels nm) ++ post) 0 = Ok (nm, zlen (labels_bytes (name_labels nm))).
Proof.
  intros Hn Hp. destruct (name_ok_labels nm Hn) as [Hl Hj]. apply decode_name_exact; [|done|].
  { apply Forall_app. split; [|done]. apply labels_bytes_u8, Hn. }
  exists (name_labels nm). split; [|done]. apply (spells_labels _ [] post Hl).
Qed.

(** * Packets *)
Definition question_bytes (q : DnsQuestion) : bytes :=
  labels_bytes (name_labels (q_name q)) ++ be16 (q_type q) ++ be16 (q_class q).
Definition record_bytes (r : DnsResourceRecord) : bytes :=
  labels_bytes (name_labels (name r)) ++ be16 (type r) ++ be16 (class_ r) ++ be32 (ttl r) ++ be16 (zlen (rdata r)) ++ rdata r.
Definition packet_bytes (p : DnsPacket) : bytes :=
  be16 (session_id_ p) ++ be16 (flags_of p) ++ be16 (zlen (questions_ p)) ++ be16 (zlen (answers_ p))
  ++ be16 (zlen (authorities_ p)) ++ be16 (zlen (additionals_ p)) ++ concat (map question_bytes (questions_ p))
  ++ concat (map record_bytes (answers_ p)) ++ concat (map record_bytes (authorities_ p))
  ++ concat (map record_bytes (additionals_ p)).

Lemma be16_u16 v : be16 (u16 v) = be16 v.
Proof.
  unfold be16, u8, u16. rewrite !shiftr_8. f_equal; [|f_equal]; Z.to_euclidean_division_equations; lia.
Qed.

Section WritePackets.
Context {B : Type} `{ByteSink B}.

Lemma u16_emits v : emits (sink_u16 (u16 v)) (be16 v).
Proof. eapply emits_eq; [apply emits_u16|apply be16_u16]. Qed.
Lemma question_emits q : emits (question_serialize q) (question_bytes q).
Proof. apply emits_seq; [apply encode_name_emits|]. apply emits_seq; apply u16_emits. Qed.
Lemma record_emits r : emits (record_serialize r) (record_bytes r).
Proof.
  apply emits_seq; [apply encode_name_emits|]. repeat (apply emits_seq; [apply u16_emits||apply emits_u32|]).
  apply emits_append.
Qed.
Lemma serialize_emits p : emits (serialize p) (packet_bytes p).
Proof.
  unfold serialize. repeat (apply emits_seq; [apply u16_emits||apply emits_u16|]).
  apply emits_seq; [apply emits_for, question_emits|].
  do 2 (apply emits_seq; [apply emits_for, record_emits|]). apply emits_for, record_emits.
Qed.
Lemma serialize_encodes p : encodes (w_run ByteBuffer.kDefaultCapacity (serialize p)) (packet_bytes p).
Proof. apply encodes_run; [done|apply serialize_emits]. Qed.
End WritePackets.

(** What can be written as it is. *)
Definition question_ok (q : DnsQuestion) : Prop := name_ok (q_name q) /\ is_u16 (q_type q) /\ is_u16 (q_class q).
Definition record_ok (r : DnsResourceRecord) : Prop :=
  name_ok (name r) /\ is_u16 (type r) /\ is_u16 (class_ r) /\ is_u32 (ttl r) /\ Forall is_u8 (rdata r) /\ zlen (rdata r) < 65536.
Definition packet_ok (p : DnsPacket) : Prop :=
  is_u16 (session_id_ p) /\ 0 <= opcode_ p < 16 /\ 0 <= response_code_ p < 16
  /\ zlen (questions_ p) < 65536 /\ zlen (answers_ p) < 65536 /\ zlen (authorities_ p) < 65536 /\ zlen (additionals_ p) < 65536
  /\ Forall question_ok (questions_ p) /\ Forall record_ok (answers_ p) /\ Forall record_ok (authorities_ p)
  /\ Forall record_ok (additionals_ p).
#[export] Instance question_ok_dec q : Decision (question_ok q).
Proof. unfold question_ok, is_u16. apply _. Defined.
#[export] Instance record_ok_dec r : Decision (record_ok r).
Proof. unfold record_ok, is_u16, is_u32. apply _. Defined.
#[export] Instance packet_ok_dec p : Decision (packet_ok p).
Proof. unfold packet_ok, is_u16. apply _. Defined.

Lemma be16_is_u8 v : Forall is_u8 (be16 v).
Proof. repeat constructor; apply u8_range. Qed.
Lemma be32_is_u8 v : Forall is_u8 (be32 v).
Proof. repeat constructor; apply u8_range. Qed.
Lemma question_bytes_u8 q : Forall is_u8 (q_name q) -> Forall is_u8 (question_bytes q).
Proof. intros H. apply Forall_app; split; [by apply labels_bytes_u8|]. apply Forall_app; split; apply be16_is_u8. Qed.
Lemma record_bytes_u8 r : Forall is_u8 (name r) -> Forall is_u8 (rdata r) -> Forall is_u8 (record_bytes r).
Proof.
  intros H Hd. apply Forall_app; split; [by apply labels_bytes_u8|].
  repeat (apply Forall_app; split); try apply be16_is_u8; [apply be32_is_u8|done].
Qed.

Section ReadPackets.
Variable little : bool.

Lemma net16_app pre v post : is_u16 v -> net16 little (pre ++ be16 v ++ post) (zlen pre) = Ok v.
Proof.
  intros Hv. unfold net16. change 2 with (zlen (be16 v)). rewrite rd_range_app. mstep. f_equal. by apply network_value16.
Qed.
Lemma net32_app pre v post : is_u32 v -> net32 little (pre ++ be32 v ++ post) (zlen pre) = Ok v.
Proof.
  intros Hv. unfold net32. change 4 with (zlen (be32 v)). rewrite rd_range_app. mstep. f_equal. by apply network_value32.
Qed.

(** A field after what was read. *)
Lemma net16_at data pre v post pos : data = pre ++ be16 v ++ post -> pos = zlen pre -> is_u16 v -> net16 little data pos = Ok v.
Proof. intros -> -> Hv. by apply net16_app. Qed.
Lemma net32_at data pre v post pos : data = pre ++ be32 v ++ post -> pos = zlen pre -> is_u32 v -> net32 little data pos = Ok v.
Proof. intros -> -> Hv. by apply net32_app. Qed.

Lemma set_read_view b x y : view b (x ++ y) ->
  ByteBuffer.set_read_offset (ByteBuffer.read_offset_ b + zlen x) b = advance (zlen x) b.
Proof.
  intros H. pose proof (view_write _ _ H) as Hw. unfold ByteBuffer.set_read_offset. rewrite zlen_app in Hw.
  pose proof (zlen_nonneg y). case_if; [done|lia].
Qed.

Lemma question_read q b post : view b (question_bytes q ++ post) -> question_ok q -> Forall is_u8 post ->
  exists b', question_deserialize little b = Ok (q, b') /\ view b' post.
Proof.
  intros Hb (Hn & Ht & Hc) Hp. exists (advance (zlen (question_bytes q)) b). split; [|by apply view_advance].
  unfold question_deserialize. rewrite (view_span _ _ Hb). mstep.
  assert (decode_name (question_bytes q ++ post) 0 = Ok (q_name q, zlen (labels_bytes (name_labels (q_name q))))) as Hd.
  { unfold question_bytes. rewrite <- !app_assoc. apply decode_written; [done|].
    repeat (apply Forall_app; split); try apply be16_is_u8; done. }
  rewrite Hd. mstep.
  set (nb := labels_bytes (name_labels (q_name q))) in *.
  case_if; [unfold question_bytes in Hif; fold nb in Hif; zlia|].
  rewrite (net16_at _ nb (q_type q) (be16 (q_class q) ++ post) (zlen nb)); [|by unfold question_bytes; rewrite <- !app_assoc|done|done]. mstep.
  rewrite (net16_at _ (nb ++ be16 (q_type q)) (q_class q) post (zlen nb + 2)); [|by unfold question_bytes; rewrite <- !app_assoc|zlia|done]. mstep.
  rewrite <- (set_read_view b _ post Hb). destruct q. do 3 f_equal. unfold question_bytes. fold nb. zlia.
Qed.
Lemma record_read r b post : view b (record_bytes r ++ post) -> record_ok r -> Forall is_u8 post ->
  exists b', record_deserialize little b = Ok (r, b') /\ view b' post.
Proof.
  intros Hb (Hn & Ht & Hc & Hl & Hd & Hz) Hp. exists (advance (zlen (record_bytes r)) b). split; [|by apply view_advance].
  unfold record_deserialize. rewrite (view_span _ _ Hb). mstep.
  assert (decode_name (record_bytes r ++ post) 0 = Ok (name r, zlen (labels_bytes (name_labels (name r))))) as Hdn.
  { unfold record_bytes. rewrite <- !app_assoc. apply decode_written; [done|].
    repeat (apply Forall_app; split); try apply be16_is_u8; try apply be32_is_u8; done. }
  rewrite Hdn. mstep.
  set (nb := labels_bytes (name_labels (name r))) in *. pose proof (zlen_nonneg (rdata r)).
  assert (is_u16 (zlen (rdata r))) as Hu by (unfold is_u16; lia).
  case_if; [unfold record_bytes in Hif; fold nb in Hif; zlia|].
  rewrite (net16_at _ nb (type r) (be16 (class_ r) ++ be32 (ttl r) ++ be16 (zlen (rdata r)) ++ rdata r ++ post) (zlen nb));
    [|by unfold record_bytes; rewrite <- !app_assoc|done|done]. mstep.
  rewrite (net16_at _ (nb ++ be16 (type r)) (class_ r) (be32 (ttl r) ++ be16 (zlen (rdata r)) ++ rdata r ++ post) (zlen nb + 2));
    [|by unfold record_bytes; rewrite <- !app_assoc|zlia|done]. mstep.
  rewrite (net32_at _ (nb ++ be16 (type r) ++ be16 (class_ r)) (ttl r) (be16 (zlen (rdata r)) ++ rdata r ++ post) (zlen nb + 2 + 2));
    [|by unfold record_bytes; rewrite <- !app_assoc|zlia|done]. mstep.
  rewrite (net16_at _ (nb ++ be16 (type r) ++ be16 (class_ r) ++ be32 (ttl r)) (zlen (rdata r)) (rdata r ++ post) (zlen nb + 2 + 2 + 4));
    [|by unfold record_bytes; rewrite <- !app_assoc|zlia|done]. mstep.
  case_if; [unfold record_bytes in Hif0; fold nb in Hif0; zlia|].
  pose proof (rd_range_app (nb ++ be16 (type r) ++ be16 (class_ r) ++ be32 (ttl r) ++ be16 (zlen (rdata r))) (rdata r) post) as Hr.
  replace (record_bytes r ++ post) with ((nb ++ be16 (type r) ++ be16 (class_ r) ++ be32 (ttl r) ++ be16 (zlen (rdata r))) ++ rdata r ++ post)
    by by unfold record_bytes; rewrite <- !app_assoc.
  replace (zlen nb + 2 + 2 + 4 + 2) with (zlen (nb ++ be16 (type r) ++ be16 (class_ r) ++ be32 (ttl r) ++ be16 (zlen (rdata r)))) by zlia.
  rewrite Hr. mstep. rewrite <- (set_read_view b _ post Hb). destruct r. do 3 f_equal. unfold record_bytes. fold nb. zlia.
Qed.

(** A list of elements that are written one after the other is read. *)
Lemma read_loop_ok {E} (read : ByteBuffer.t -> outcome (E * ByteBuffer.t)) push (wire : E -> bytes) (ok : E -> Prop) post :
  (forall e b rest, view b (wire e ++ rest) -> ok e -> Forall is_u8 rest -> exists b', read b = Ok (e, b') /\ view b' rest) ->
  (forall e, ok e -> Forall is_u8 (wire e)) -> Forall is_u8 post ->
  forall es, Forall ok es -> forall p b, view b (concat (map wire es) ++ post) ->
  exists b', read_loop read push (length es) p b = Ok (true, foldl (fun p e => push e p) p es, b') /\ view b' post.
Proof.
  intros Hread Hu Hp es. induction 1 as [|e es He Hes IH]; intros p b Hb.
  { exists b. by split. }
  cbn [map concat] in Hb. rewrite <- app_assoc in Hb.
  destruct (Hread e b (concat (map wire es) ++ post) Hb He) as (b1 & E1 & Hb1).
  { apply Forall_app. split; [|done]. clear IH Hb. induction Hes as [|x l Hx _ IHl]; [constructor|].
    cbn [map concat]. apply Forall_app. split; [by apply Hu|done]. }
  cbn [read_loop length foldl]. rewrite E1. by apply IH.
Qed.
Lemma push_questions es p : foldl (fun p e => add_question e p) p es = set_questions (questions_ p ++ es) p.
Proof.
  revert p. induction es as [|e es IH]; intros p; cbn; [rewrite app_nil_r; by destruct p|]. rewrite IH. cbn.
  by rewrite <- app_assoc.
Qed.
Lemma push_answers es p : foldl (fun p e => add_answer e p) p es = set_answers (answers_ p ++ es) p.
Proof.
  revert p. induction es as [|e es IH]; intros p; cbn; [rewrite app_nil_r; by destruct p|]. rewrite IH. cbn.
  by rewrite <- app_assoc.
Qed.
Lemma push_authorities es p : foldl (fun p e => add_authority e p) p es = set_authorities (authorities_ p ++ es) p.
Proof.
  revert p. induction es as [|e es IH]; intros p; cbn; [rewrite app_nil_r; by destruct p|]. rewrite IH. cbn.
  by rewrite <- app_assoc.
Qed.
Lemma push_additionals es p : foldl (fun p e => add_additional e p) p es = set_additionals (additionals_ p ++ es) p.
Proof.
  revert p. induction es as [|e es IH]; intros p; cbn; [rewrite app_nil_r; by destruct p|]. rewrite IH. cbn.
  by rewrite <- app_assoc.
Qed.

(** The flags are read back. *)
Definition flags_packet (r a t d v : bool) (op rc : Z) : DnsPacket := mkPacket 0 r op a t d v rc [] [] [] [].
Lemma flags_of_packet p : flags_of p = flags_of (flags_packet (is_response_ p) (authoritative_answer_ p) (truncated_ p)
  (recursion_desired_ p) (recursion_available_ p) (opcode_ p) (response_code_ p)).
Proof. done. Qed.
Definition fields_eqb (fl : Z) (r a t d v : bool) (op rc : Z) : bool :=
  Bool.eqb (negb (Z.land fl 32768 =? 0)) r && Bool.eqb (negb (Z.land fl 1024 =? 0)) a && Bool.eqb (negb (Z.land fl 512 =? 0)) t
  && Bool.eqb (negb (Z.land fl 256 =? 0)) d && Bool.eqb (negb (Z.land fl 128 =? 0)) v && (Z.land (Z.shiftr fl 11) 15 =? op)
  && (Z.land fl 15 =? rc).
Definition flags_read (r a t d v : bool) (op rc : Z) : bool := fields_eqb (flags_of (flags_packet r a t d v op rc)) r a t d v op rc.
Definition all_flags (f : bool -> bool -> bool -> bool -> bool -> Z -> Z -> bool) : bool :=
  let ns := map Z.of_nat (seq 0 16) in
  let bs := [true; false] in
  forallb (fun op => forallb (fun rc => forallb (fun r => forallb (fun a => forallb (fun t => forallb (fun d => forallb (fun v =>
    f r a t d v op rc) bs) bs) bs) bs) bs) ns) ns.
Lemma flags_table : all_flags flags_read = true.
Proof. vm_cast_no_check (eq_refl true). Qed.
Lemma all_flags_spec f : all_flags f = true ->
  forall r a t d v op rc, 0 <= op < 16 -> 0 <= rc < 16 -> f r a t d v op rc = true.
Proof.
  intros H r a t d v op rc Ho Hr. unfold all_flags in H. cbv zeta in H.
  assert (forall b, In b [true; false]) as Hb by (intros []; cbn; tauto).
  assert (forall n, 0 <= n < 16 -> In n (map Z.of_nat (seq 0 16))) as Hn.
  { intros n Hn. apply in_map_iff. exists (Z.to_nat n). split; [lia|]. apply in_seq. lia. }
  rewrite forallb_forall in H. specialize (H _ (Hn op Ho)). cbv beta in H.
  rewrite forallb_forall in H. specialize (H _ (Hn rc Hr)). cbv beta in H.
  rewrite forallb_forall in H. specialize (H _ (Hb r)). cbv beta in H. rewrite forallb_forall in H.
  specialize (H _ (Hb a)). cbv beta in H. rewrite forallb_forall in H. specialize (H _ (Hb t)). cbv beta in H.
  rewrite forallb_forall in H. specialize (H _ (Hb d)). cbv beta in H. rewrite forallb_forall in H. exact (H _ (Hb v)).
Qed.
(** The fields of the flags. *)
Lemma set_flags_fields fl p p0 :
  fields_eqb fl (is_response_ p) (authoritative_answer_ p) (truncated_ p) (recursion_desired_ p) (recursion_available_ p)
    (opcode_ p) (response_code_ p) = true ->
  set_flags fl p0
  = mkPacket (session_id_ p0) (is_response_ p) (opcode_ p) (authoritative_answer_ p) (truncated_ p) (recursion_desired_ p)
      (recursion_available_ p) (response_code_ p) (questions_ p0) (answers_ p0) (authorities_ p0) (additionals_ p0).
Proof.
  unfold fields_eqb. rewrite !andb_true_iff, !eqb_true_iff, !Z.eqb_eq.
  intros ((((((<- & <-) & <-) & <-) & <-) & <-) & <-). reflexivity.
Qed.
Lemma set_flags_read p p0 : 0 <= opcode_ p < 16 -> 0 <= response_code_ p < 16 ->
  set_flags (flags_of p) p0
  = mkPacket (session_id_ p0) (is_response_ p) (opcode_ p) (authoritative_answer_ p) (truncated_ p) (recursion_desired_ p)
      (recursion_available_ p) (response_code_ p) (questions_ p0) (answers_ p0) (authorities_ p0) (additionals_ p0).
Proof.
  intros Ho Hr. rewrite flags_of_packet. apply set_flags_fields.
  exact (all_flags_spec _ flags_table (is_response_ p) (authoritative_answer_ p) (truncated_ p) (recursion_desired_ p)
    (recursion_available_ p) _ _ Ho Hr).
Qed.
Lemma flags_u16 p : is_u16 (flags_of p).
Proof. apply u16_range. Qed.

Lemma head_read f1 f2 f3 f4 f5 f6 rest : is_u16 f1 -> is_u16 f2 -> is_u16 f3 -> is_u16 f4 -> is_u16 f5 -> is_u16 f6 ->
  let data := be16 f1 ++ be16 f2 ++ be16 f3 ++ be16 f4 ++ be16 f5 ++ be16 f6 ++ rest in
  net16 little data 0 = Ok f1 /\ net16 little data 2 = Ok f2 /\ net16 little data 4 = Ok f3 /\ net16 little data 6 = Ok f4
  /\ net16 little data 8 = Ok f5 /\ net16 little data 10 = Ok f6.
Proof.
  intros. unfold data. split_and!.
  - by apply (net16_at _ [] f1 (be16 f2 ++ be16 f3 ++ be16 f4 ++ be16 f5 ++ be16 f6 ++ rest)).
  - by apply (net16_at _ (be16 f1) f2 (be16 f3 ++ be16 f4 ++ be16 f5 ++ be16 f6 ++ rest)).
  - by apply (net16_at _ (be16 f1 ++ be16 f2) f3 (be16 f4 ++ be16 f5 ++ be16 f6 ++ rest)).
  - by apply (net16_at _ (be16 f1 ++ be16 f2 ++ be16 f3) f4 (be16 f5 ++ be16 f6 ++ rest)).
  - by apply (net16_at _ (be16 f1 ++ be16 f2 ++ be16 f3 ++ be16 f4) f5 (be16 f6 ++ rest)).
  - by apply (net16_at _ (be16 f1 ++ be16 f2 ++ be16 f3 ++ be16 f4 ++ be16 f5) f6 rest).
Qed.
Lemma packet_read p b post p0 : view b (packet_bytes p ++ post) -> packet_ok p -> Forall is_u8 post ->
  exists b', deserialize little p0 b = Ok (true, p, b') /\ view b' post.
Proof.
  intros Hb (Hid & Hop & Hrc & Hqn & Han & Hun & Hdn & Hq & Ha & Hu & Hd) Hp.
  set (head := be16 (session_id_ p) ++ be16 (flags_of p) ++ be16 (zlen (questions_ p)) ++ be16 (zlen (answers_ p))
    ++ be16 (zlen (authorities_ p)) ++ be16 (zlen (additionals_ p))).
  set (qs := concat (map question_bytes (questions_ p))). set (ans := concat (map record_bytes (answers_ p))).
  set (aus := concat (map record_bytes (authorities_ p))). set (ads := concat (map record_bytes (additionals_ p))).
  assert (packet_bytes p ++ post = head ++ qs ++ ans ++ aus ++ ads ++ post) as Ep.
  { unfold packet_bytes, head. fold qs ans aus ads. by rewrite <- !app_assoc. }
  rewrite Ep in Hb. set (rest := qs ++ ans ++ aus ++ ads ++ post) in *.
  unfold deserialize. rewrite (view_span _ _ Hb). mstep.
  assert (zlen head = 12) as Hh by (unfold head; zlia). case_if; [rewrite zlen_app in Hif; pose proof (zlen_nonneg rest); lia|].
  pose proof (zlen_nonneg (questions_ p)). pose proof (zlen_nonneg (answers_ p)). pose proof (zlen_nonneg (authorities_ p)).
  pose proof (zlen_nonneg (additionals_ p)). pose proof (flags_u16 p).
  assert (net16 little (head ++ rest) 0 = Ok (session_id_ p) /\ net16 little (head ++ rest) 2 = Ok (flags_of p)
    /\ net16 little (head ++ rest) 4 = Ok (zlen (questions_ p)) /\ net16 little (head ++ rest) 6 = Ok (zlen (answers_ p))
    /\ net16 little (head ++ rest) 8 = Ok (zlen (authorities_ p)) /\ net16 little (head ++ rest) 10 = Ok (zlen (additionals_ p)))
    as (-> & -> & -> & -> & -> & ->).
  { unfold head. rewrite <- !app_assoc. by apply head_read. }
  mstep. rewrite set_flags_read by done. rewrite <- Hh, (set_read_view b head rest Hb).
  pose proof (view_advance b head rest Hb) as Hb0. unfold zlen. rewrite !Nat2Z.id.
  assert (forall es, Forall record_ok es -> Forall is_u8 (concat (map record_bytes es))) as Hrs.
  { induction 1 as [|r l Hr _ IH]; [constructor|]. cbn [map concat]. apply Forall_app. split; [|done].
    destruct Hr as ([Hn _] & _ & _ & _ & Hrd & _). by apply record_bytes_u8. }
  assert (forall e, record_ok e -> Forall is_u8 (record_bytes e)) as Hru.
  { intros r ([Hn _] & _ & _ & _ & Hrd & _). by apply record_bytes_u8. }
  assert (forall e b rest, view b (record_bytes e ++ rest) -> record_ok e -> Forall is_u8 rest ->
    exists b', record_deserialize little b = Ok (e, b') /\ view b' rest) as Hrr by (intros; by apply record_read).
  edestruct (read_loop_ok (question_deserialize little) add_question question_bytes question_ok (ans ++ aus ++ ads ++ post))
    as (b1 & E1 & Hb1); [intros; by apply question_read|intros q ([Hn _] & _); by apply question_bytes_u8| |exact Hq|exact Hb0|].
  { repeat (apply Forall_app; split); try apply Hrs; done. }
  unfold if_read at 1. rewrite E1. mstep. rewrite push_questions.
  edestruct (read_loop_ok (record_deserialize little) add_answer record_bytes record_ok (aus ++ ads ++ post))
    as (b2 & E2 & Hb2); [exact Hrr|exact Hru| |exact Ha|exact Hb1|].
  { repeat (apply Forall_app; split); try apply Hrs; done. }
  unfold if_read at 1. rewrite E2. mstep. rewrite push_answers.
  edestruct (read_loop_ok (record_deserialize little) add_authority record_bytes record_ok (ads ++ post))
    as (b3 & E3 & Hb3); [exact Hrr|exact Hru| |exact Hu|exact Hb2|].
  { repeat (apply Forall_app; split); try apply Hrs; done. }
  unfold if_read at 1. rewrite E3. mstep. rewrite push_authorities.
  edestruct (read_loop_ok (record_deserialize little) add_additional record_bytes record_ok post)
    as (b4 & E4 & Hb4); [exact Hrr|exact Hru|exact Hp|exact Hd|exact Hb3|].
  rewrite E4, push_additionals. exists b4. split; [|done]. cbn. by destruct p.
Qed.

(** ** Any bytes *)
Lemma be16_pair a b : is_u8 a -> is_u8 b -> [a; b] = be16 (a * 256 + b).
Proof. unfold is_u8, be16, u8. intros. rewrite shiftr_8. repeat f_equal; Z.to_euclidean_division_equations; lia. Qed.
Lemma be32_quad a b c d : is_u8 a -> is_u8 b -> is_u8 c -> is_u8 d -> [a; b; c; d] = be32 (((a * 256 + b) * 256 + c) * 256 + d).
Proof.
  unfold is_u8, be32, u8. intros. rewrite !shiftr_div by lia. change (2 ^ 24) with 16777216. change (2 ^ 16) with 65536.
  change (2 ^ 8) with 256. repeat f_equal; Z.to_euclidean_division_equations; lia.
Qed.
Lemma window_split (data : bytes) pos n : 0 <= pos -> 0 <= n -> pos + n <= zlen data ->
  exists x y z, data = x ++ y ++ z /\ zlen x = pos /\ zlen y = n.
Proof.
  intros. unfold zlen in *. exists (take (Z.to_nat pos) data), (take (Z.to_nat n) (drop (Z.to_nat pos) data)), (drop (Z.to_nat n) (drop (Z.to_nat pos) data)).
  split; [by rewrite !take_drop|]. rewrite !length_take, length_drop. lia.
Qed.
Lemma net16_ok data pos : Forall is_u8 data -> 0 <= pos -> pos + 2 <= zlen data -> exists v, net16 little data pos = Ok v /\ is_u16 v.
Proof.
  intros Hu Hp Hl. destruct (window_split data pos 2) as (x & y & z & -> & <- & Hy); [lia..|].
  apply Forall_app in Hu as [_ [Hu _]%Forall_app]. destruct y as [|a [|b [|c y]]]; try (exfalso; zlia).
  apply Forall_cons in Hu as [Ha [Hb _]%Forall_cons]. rewrite (be16_pair a b) by done. exists (a * 256 + b).
  assert (is_u16 (a * 256 + b)) by (unfold is_u8, is_u16 in *; lia). split; [by apply net16_app|done].
Qed.
Lemma net32_ok data pos : Forall is_u8 data -> 0 <= pos -> pos + 4 <= zlen data -> exists v, net32 little data pos = Ok v /\ is_u32 v.
Proof.
  intros Hu Hp Hl. destruct (window_split data pos 4) as (x & y & z & -> & <- & Hy); [lia..|].
  apply Forall_app in Hu as [_ [Hu _]%Forall_app]. destruct y as [|a [|b [|c [|d [|e y]]]]]; try (exfalso; zlia).
  rewrite !Forall_cons in Hu. destruct Hu as (Ha & Hb & Hc & Hd & _). rewrite (be32_quad a b c d) by done.
  eexists. assert (is_u32 (((a * 256 + b) * 256 + c) * 256 + d)) by (unfold is_u8, is_u32 in *; lia). split; [by apply net32_app|done].
Qed.
Lemma set_read_at b c pos : view b c -> 0 <= pos <= zlen c ->
  view (ByteBuffer.set_read_offset (ByteBuffer.read_offset_ b + pos) b) (drop (Z.to_nat pos) c).
Proof.
  intros Hb Hp. pose proof Hb as Hb'. rewrite <- (take_drop (Z.to_nat pos) c) in Hb'.
  assert (zlen (take (Z.to_nat pos) c) = pos) as E by (unfold zlen in *; rewrite length_take; lia).
  rewrite <- E at 1. rewrite (set_read_view b _ _ Hb'). by apply view_advance.
Qed.

(** What reading an element may come to: it is of the kind [ok], and some bytes are gone. *)
Definition reads_some {E} (m : outcome (E * ByteBuffer.t)) (c : bytes) (ok : E -> Prop) : Prop :=
  match m with
  | Ok (e, b) => ok e /\ exists n, 0 < n <= zlen c /\ view b (drop (Z.to_nat n) c)
  | Reject => True
  | Fault | Diverge => False
  end.
Definition question_typed (q : DnsQuestion) : Prop := is_u16 (q_type q) /\ is_u16 (q_class q) /\ Forall is_u8 (q_name q).
Definition record_typed (r : DnsResourceRecord) : Prop :=
  is_u16 (type r) /\ is_u16 (class_ r) /\ is_u32 (ttl r) /\ Forall is_u8 (name r) /\ Forall is_u8 (rdata r) /\ zlen (rdata r) < 65536.

Lemma decode_name_typed data nm e : Forall is_u8 data -> decode_name data 0 = Ok (nm, e) -> Forall is_u8 nm /\ 0 < e <= zlen data.
Proof.
  intros Hu (ls & Hs & ->)%decode_name_exact; [|done..]. split; [|by eapply spells_bounds in Hs].
  assert (Forall (Forall is_u8) ls) as Hl.
  { induction Hs as [| |? ? ? ? ? ? Hl _ IH|]; [constructor..|constructor|]; [|done..].
    destruct Hl as (n & _ & _ & Hr & _). unfold rd_range in Hr. case_if_in Hr; [done|]. injection Hr as <-.
    by apply Forall_take, Forall_drop. }
  clear Hs. induction Hl as [|l ls Hl Hls IH]; [constructor|]. destruct ls as [|l' ls]; [done|].
  change (Forall is_u8 (l ++ 46 :: join_with 46 (l' :: ls))). apply Forall_app. split; [done|]. by constructor.
Qed.
Lemma question_any b c : view b c -> Forall is_u8 c -> reads_some (question_deserialize little b) c question_typed.
Proof.
  intros Hb Hu. unfold question_deserialize. rewrite (view_span _ _ Hb). mstep.
  pose proof (decode_name_safe c 0 Hu ltac:(lia)) as Hs. destruct (decode_name c 0) as [[nm e]| | |] eqn:E; try done. mstep.
  apply decode_name_typed in E as [Hn He]; [|done]. case_if; [done|].
  destruct (net16_ok c e Hu) as (t & -> & Ht); [lia..|]. mstep. destruct (net16_ok c (e + 2) Hu) as (k & -> & Hk); [lia..|]. mstep.
  split; [done|]. exists (e + 2 + 2). split; [lia|]. apply set_read_at; [done|lia].
Qed.
Lemma record_any b c : view b c -> Forall is_u8 c -> reads_some (record_deserialize little b) c record_typed.
Proof.
  intros Hb Hu. unfold record_deserialize. rewrite (view_span _ _ Hb). mstep.
  pose proof (decode_name_safe c 0 Hu ltac:(lia)) as Hs. destruct (decode_name c 0) as [[nm e]| | |] eqn:E; try done. mstep.
  apply decode_name_typed in E as [Hn He]; [|done]. case_if; [done|].
  destruct (net16_ok c e Hu) as (t & -> & Ht); [lia..|]. mstep. destruct (net16_ok c (e + 2) Hu) as (k & -> & Hk); [lia..|]. mstep.
  destruct (net32_ok c (e + 2 + 2) Hu) as (l & -> & Hl); [lia..|]. mstep.
  destruct (net16_ok c (e + 2 + 2 + 4) Hu) as (n & -> & Hr); [lia..|]. mstep. case_if; [done|]. unfold is_u16 in Hr.
  destruct (window_split c (e + 2 + 2 + 4 + 2) n) as (x & y & z & Ec & Hx & Hy); [lia..|].
  pose proof (rd_range_app x y z) as Hrd. rewrite <- Ec, Hx, Hy in Hrd. rewrite Hrd. mstep.
  split; [|exists (e + 2 + 2 + 4 + 2 + n); split; [lia|]; apply set_read_at; [done|lia]].
  split_and!; try done; cbn; [|lia]. rewrite Ec in Hu. by apply Forall_app in Hu as [_ [? _]%Forall_app].
Qed.

(** Reading a list ends, whatever the bytes are. *)
Lemma read_loop_any {E} (read : ByteBuffer.t -> outcome (E * ByteBuffer.t)) push (ok : E -> Prop) (inv : DnsPacket -> Prop) :
  (forall b c, view b c -> Forall is_u8 c -> reads_some (read b) c ok) -> (forall e p, ok e -> inv p -> inv (push e p)) ->
  forall n p b c, view b c -> Forall is_u8 c -> inv p ->
  exists r p' b' m, read_loop read push n p b = Ok (r, p', b') /\ inv p' /\ 0 <= m <= zlen c /\ view b' (drop (Z.to_nat m) c).
Proof.
  intros Hread Hpush. induction n as [|n IH]; intros p b c Hb Hu Hp.
  { exists true, p, b, 0. pose proof (zlen_nonneg c). split_and!; done || lia || by rewrite drop_0. }
  cbn [read_loop]. pose proof (Hread b c Hb Hu) as H. destruct (read b) as [[e b1]| | |]; [|..].
  - destruct H as (He & k & Hk & Hb1). destruct (IH (push e p) b1 _ Hb1) as (r & p' & b' & m & E1 & Hp' & Hm & Hb'); [by apply Forall_drop|by apply Hpush|].
    exists r, p', b', (k + m). split; [done|]. split; [done|].
    unfold zlen in *. rewrite length_drop in Hm. split; [lia|]. rewrite drop_drop in Hb'. by replace (Z.to_nat (k + m)) with (Z.to_nat k + Z.to_nat m)%nat by lia.
  - exists false, p, b, 0. pose proof (zlen_nonneg c). split_and!; done || lia || by rewrite drop_0.
  - done.
  - done.
Qed.

(** The fields of a packet are in the range of their types. *)
Definition packet_typed (p : DnsPacket) : Prop :=
  is_u16 (session_id_ p) /\ 0 <= opcode_ p < 16 /\ 0 <= response_code_ p < 16 /\ Forall question_typed (questions_ p)
  /\ Forall record_typed (answers_ p) /\ Forall record_typed (authorities_ p) /\ Forall record_typed (additionals_ p).
Lemma land_15 z : 0 <= Z.land z 15 < 16.
Proof. change 15 with (Z.ones 4). rewrite Z.land_ones by lia. apply Z.mod_pos_bound. lia. Qed.

(** A packet is left, and some bytes of [c] are gone. *)
Definition read_some (c : bytes) (m : outcome (bool * DnsPacket * ByteBuffer.t)) : Prop :=
  exists r p b n, m = Ok (r, p, b) /\ packet_typed p /\ 0 <= n <= zlen c /\ view b (drop (Z.to_nat n) c).
Lemma if_read_some c m rest : read_some c m ->
  (forall p b n, packet_typed p -> 0 <= n <= zlen c -> view b (drop (Z.to_nat n) c) -> read_some c (rest p b)) ->
  read_some c (if_read m rest).
Proof.
  intros (r & p & b & n & -> & Hp & Hn & Hb) H. unfold if_read. mstep. destruct r; [by apply (H p b n)|]. by exists false, p, b, n.
Qed.
Lemma list_read_some {E} (read : ByteBuffer.t -> outcome (E * ByteBuffer.t)) push (ok : E -> Prop) c k p b n :
  Forall is_u8 c ->
  (forall b c, view b c -> Forall is_u8 c -> reads_some (read b) c ok) -> (forall e p, ok e -> packet_typed p -> packet_typed (push e p)) ->
  packet_typed p -> 0 <= n <= zlen c -> view b (drop (Z.to_nat n) c) -> read_some c (read_loop read push k p b).
Proof.
  intros Hu Hread Hpush Hp Hn Hb.
  destruct (read_loop_any read push ok packet_typed Hread Hpush k p b _ Hb) as (r & p' & b' & m & E1 & Hp' & Hm & Hb'); [by apply Forall_drop|done|].
  exists r, p', b', (n + m). split; [done|]. split; [done|]. unfold zlen in *. rewrite length_drop in Hm. split; [lia|].
  rewrite drop_drop in Hb'. by replace (Z.to_nat (n + m)) with (Z.to_nat n + Z.to_nat m)%nat by lia.
Qed.
Lemma push_typed p : packet_typed p ->
  (forall q, question_typed q -> packet_typed (add_question q p)) /\ (forall r, record_typed r -> packet_typed (add_answer r p))
  /\ (forall r, record_typed r -> packet_typed (add_authority r p)) /\ (forall r, record_typed r -> packet_typed (add_additional r p)).
Proof.
  intros (H1 & H2 & H3 & H4 & H5 & H6 & H7).
  split_and!; intros x Hx; unfold packet_typed; cbn; rewrite Forall_app, Forall_singleton; naive_solver.
Qed.
Lemma clear_typed p : packet_typed p -> packet_typed (set_questions [] p) /\ packet_typed (set_answers [] p)
  /\ packet_typed (set_authorities [] p) /\ packet_typed (set_additionals [] p).
Proof. intros (H1 & H2 & H3 & H4 & H5 & H6 & H7). split_and!; unfold packet_typed; cbn; rewrite Forall_nil; naive_solver. Qed.

Lemma deserialize_any p0 b c : view b c -> Forall is_u8 c -> packet_typed p0 -> read_some c (deserialize little p0 b).
Proof.
  intros Hb Hu (Ht1 & Ht2 & Ht3 & Ht4). unfold deserialize. rewrite (view_span _ _ Hb). mstep. pose proof (zlen_nonneg c).
  case_if; [exists false, p0, b, 0; split_and!; done || lia || by rewrite drop_0|].
  destruct (net16_ok c 0 Hu) as (id & -> & Hid); [lia..|]. mstep. destruct (net16_ok c 2 Hu) as (fl & -> & Hfl); [lia..|]. mstep.
  destruct (net16_ok c 4 Hu) as (qn & -> & _); [lia..|]. mstep. destruct (net16_ok c 6 Hu) as (an & -> & _); [lia..|]. mstep.
  destruct (net16_ok c 8 Hu) as (un & -> & _); [lia..|]. mstep. destruct (net16_ok c 10 Hu) as (dn & -> & _); [lia..|]. mstep.
  assert (packet_typed (set_flags fl (set_session_id id p0))) as Hp.
  { unfold packet_typed, set_flags. cbn -[Z.land]. split; [done|]. split; [apply land_15|]. split; [apply land_15|done]. }
  assert (view (ByteBuffer.set_read_offset (ByteBuffer.read_offset_ b + 12) b) (drop (Z.to_nat 12) c)) as Hb1 by (apply set_read_at; [done|lia]).
  generalize dependent (set_flags fl (set_session_id id p0)). generalize dependent (ByteBuffer.set_read_offset (ByteBuffer.read_offset_ b + 12) b).
  intros b1 Hb1 p Hp.
  apply if_read_some; [apply (list_read_some _ _ question_typed c _ _ _ 12); try done; [by apply question_any|intros; by apply push_typed|by apply clear_typed|lia]|].
  intros p1 b2 n1 Hp1 Hn1 Hb2.
  apply if_read_some; [apply (list_read_some _ _ record_typed c _ _ _ n1); try done; [by apply record_any|intros; by apply push_typed|by apply clear_typed]|].
  intros p2 b3 n2 Hp2 Hn2 Hb3.
  apply if_read_some; [apply (list_read_some _ _ record_typed c _ _ _ n2); try done; [by apply record_any|intros; by apply push_typed|by apply clear_typed]|].
  intros p3 b4 n3 Hp3 Hn3 Hb4.
  apply (list_read_some _ _ record_typed c _ _ _ n3); try done; [by apply record_any|intros; by apply push_typed|by apply clear_typed].
Qed.
End ReadPackets.
