(* ===== verification/DnsTextFacts.v ===== *)
(** The text forms of the data of DNS records: what is formatted is parsed again. *)
From stdpp Require Import gmap.
From S2P Require Import Prelude Endian Strings ByteBuffer ByteBufferFacts Dns DnsFacts.
Import DnsText Dns.

(** * Numbers *)
Definition is_digit (ch : Z) : bool := (48 <=? ch) && (ch <=? 57).
Lemma to_string_digits fuel n t : 0 <= n -> Forall (fun c => is_digit c = true) t ->
  Forall (fun c => is_digit c = true) (to_string_loop fuel n t).
Proof.
  revert n t. induction fuel as [|fuel IH]; intros n t Hn Ht; [done|]. cbn [to_string_loop]. cbv zeta.
  assert (0 <= n mod 10 < 10) by (apply Z.mod_pos_bound; lia).
  assert (Forall (fun c => is_digit c = true) ((48 + n mod 10) :: t)) as Hc by (constructor; [unfold is_digit; lia|done]).
  case_if; [done|]. apply IH; [apply Z.div_pos; lia|done].
Qed.
Lemma to_string_ne n : to_string n <> [].
Proof.
  unfold to_string. assert (forall fuel n t, t <> [] -> to_string_loop fuel n t <> []) as H.
  { induction fuel as [|fuel IH]; intros m t Ht; [done|]. cbn [to_string_loop]. cbv zeta. case_if; [done|]. by apply IH. }
  change (to_string_loop 20 n []) with (if n <? 10 then [48 + n mod 10] else to_string_loop 19 (n / 10) [48 + n mod 10]).
  case_if; [done|]. by apply H.
Qed.
Lemma uint16_loop_string fuel n t : 0 <= n < 65536 -> n < 10 ^ Z.of_nat fuel ->
  uint16_loop (to_string_loop fuel n t) 0 = uint16_loop t n.
Proof.
  revert n t. induction fuel as [|fuel IH]; intros n t Hn Hf; [cbn in *; by replace n with 0 by lia|].
  assert (0 <= n mod 10 < 10) by (apply Z.mod_pos_bound; lia).
  assert (forall acc, 0 <= acc -> acc * 10 + n mod 10 = n -> uint16_loop ((48 + n mod 10) :: t) acc = uint16_loop t n) as Hstep.
  { intros acc Ha Hd. cbn [uint16_loop]. case_if; [lia|]. cbv zeta.
    unfold u32. rewrite (Z.mod_small (acc * 10)), (Z.mod_small (48 + _ - 48)), (Z.mod_small (_ + _)) by lia.
    replace (acc * 10 + (48 + n mod 10 - 48)) with n by lia. case_if; [lia|done]. }
  cbn [to_string_loop]. cbv zeta. rewrite Nat2Z.inj_succ, Z.pow_succ_r in Hf by lia. case_if.
  - apply Hstep; [lia|]. rewrite Z.mod_small by lia. lia.
  - rewrite IH; [|Z.to_euclidean_division_equations; lia..]. apply Hstep; Z.to_euclidean_division_equations; lia.
Qed.
Lemma octet_loop_string fuel n t : 0 <= n < 256 -> n < 10 ^ Z.of_nat fuel ->
  octet_loop (to_string_loop fuel n t) 0 = octet_loop t n.
Proof.
  revert n t. induction fuel as [|fuel IH]; intros n t Hn Hf; [cbn in *; by replace n with 0 by lia|].
  assert (0 <= n mod 10 < 10) by (apply Z.mod_pos_bound; lia).
  assert (forall acc, 0 <= acc -> acc * 10 + n mod 10 = n -> octet_loop ((48 + n mod 10) :: t) acc = octet_loop t n) as Hstep.
  { intros acc Ha Hd. cbn [octet_loop]. case_if; [lia|]. cbv zeta.
    unfold u32. rewrite (Z.mod_small (acc * 10)), (Z.mod_small (48 + _ - 48)), (Z.mod_small (_ + _)) by lia.
    replace (acc * 10 + (48 + n mod 10 - 48)) with n by lia. case_if; [lia|done]. }
  cbn [to_string_loop]. cbv zeta. rewrite Nat2Z.inj_succ, Z.pow_succ_r in Hf by lia. case_if.
  - apply Hstep; [lia|]. rewrite Z.mod_small by lia. lia.
  - rewrite IH; [|Z.to_euclidean_division_equations; lia..]. apply Hstep; Z.to_euclidean_division_equations; lia.
Qed.
Lemma parse_uint16_string n : is_u16 n -> parse_uint16_decimal (to_string n) = Some n.
Proof.
  intros Hn. unfold is_u16 in Hn. unfold parse_uint16_decimal. pose proof (to_string_ne n). destruct (to_string n) eqn:E; [done|].
  rewrite <- E. unfold to_string. rewrite uint16_loop_string by (cbn; lia). cbn. by rewrite u16_id.
Qed.

(** The hexadecimal digits of a word. *)
Lemma hex_digit_char d : 0 <= d < 16 -> hex_digit_value (hex_char d) = Some d.
Proof.
  intros Hd. unfold hex_char, hex_digit_value. destruct (d <? 10) eqn:E.
  - case_if; [|lia]. f_equal. rewrite u8_id by (unfold is_u8; lia). lia.
  - case_if; [lia|]. case_if; [|lia]. f_equal. rewrite u8_id by (unfold is_u8; lia). lia.
Qed.
Lemma word_loop_hex fuel n t : 0 <= n < 65536 -> n < 16 ^ Z.of_nat fuel -> word_loop (hex_loop fuel n t) 0 = word_loop t n.
Proof.
  revert n t. induction fuel as [|fuel IH]; intros n t Hn Hf; [cbn in *; by replace n with 0 by lia|].
  assert (0 <= n mod 16 < 16) by (apply Z.mod_pos_bound; lia).
  assert (forall acc, 0 <= acc -> acc * 16 + n mod 16 = n -> word_loop (hex_char (n mod 16) :: t) acc = word_loop t n) as Hstep.
  { intros acc Ha Hd. cbn [word_loop]. rewrite hex_digit_char by done. cbn [mbind option_bind].
    rewrite lor_shiftl_add by (change (2 ^ 4) with 16; lia). change (2 ^ 4) with 16. rewrite Hd. by rewrite u16_id. }
  cbn [hex_loop]. cbv zeta. rewrite Nat2Z.inj_succ, Z.pow_succ_r in Hf by lia. case_if.
  - apply Hstep; [lia|]. rewrite Z.mod_small by lia. lia.
  - rewrite IH; [|Z.to_euclidean_division_equations; lia..]. apply Hstep; Z.to_euclidean_division_equations; lia.
Qed.
Definition is_hex (c : Z) : Prop := 48 <= c <= 57 \/ 97 <= c <= 102.
Lemma hex_loop_chars fuel n t : 0 <= n -> Forall is_hex t -> Forall is_hex (hex_loop fuel n t).
Proof.
  revert n t. induction fuel as [|fuel IH]; intros n t Hn Ht; [done|]. cbn [hex_loop]. cbv zeta.
  assert (0 <= n mod 16 < 16) by (apply Z.mod_pos_bound; lia).
  assert (Forall is_hex (hex_char (n mod 16) :: t)) as Hc by (constructor; [unfold hex_char, is_hex; case_if; lia|done]).
  case_if; [done|]. apply IH; [apply Z.div_pos; lia|done].
Qed.
Lemma hex_loop_len fuel k : forall n t, 0 <= n < 16 ^ Z.of_nat (S k) ->
  (length t < length (hex_loop (S fuel) n t) <= length t + S k)%nat.
Proof.
  revert k. induction fuel as [|fuel IH]; intros k n t Hn.
  { cbn. case_if; cbn; lia. }
  cbn [hex_loop] in *. cbv zeta in *. case_if; [cbn; lia|].
  destruct k as [|k]; [cbn in Hn; lia|]. specialize (IH k (n / 16) (hex_char (n mod 16) :: t)). cbn [hex_loop length] in IH. cbv zeta in IH.
  rewrite Nat2Z.inj_succ, Z.pow_succ_r in Hn by lia. cbn [length].
  destruct IH as [H1 H2]; [Z.to_euclidean_division_equations; lia|]. revert H1 H2. case_if; lia.
Qed.
Lemma hex_word_ok w : is_u16 w -> parse_ipv6_word (hex_word w) = Some w /\ hex_word w <> [] /\ Forall is_hex (hex_word w).
Proof.
  intros Hw. unfold is_u16 in Hw. unfold parse_ipv6_word, hex_word.
  pose proof (hex_loop_len 7 3 w [] ltac:(cbn; lia)) as [H1 H2]. change (length []) with O in *.
  assert (hex_loop 8 w [] <> []) as Hne by (intros E; rewrite E in H1; cbn in H1; lia).
  split; [|split; [done|apply hex_loop_chars; [lia|done]]].
  rewrite bool_decide_false by done. destruct (Nat.ltb_spec 4 (length (hex_loop 8 w []))); [lia|]. cbn [orb].
  rewrite word_loop_hex by (cbn; lia). done.
Qed.

(** * IPv4 *)
Lemma index_of_app_free c x s : c ∉ x -> index_of c (x ++ s) = (fun i => (length x + i)%nat) <$> index_of c s.
Proof.
  induction x as [|a x IH]; intros H; [cbn; by destruct (index_of c s)|]. apply not_elem_of_cons in H as [Ha Hx].
  cbn [app index_of length]. case_if; [lia|]. rewrite IH by done. by destruct (index_of c s).
Qed.
Lemma substr_app_l (x s : bytes) : substr (x ++ s) 0 (length x) = x.
Proof. unfold substr. rewrite drop_0. apply take_app_length. Qed.
Lemma substr_window (p x s : bytes) : substr (p ++ x ++ s) (length p) (length x) = x.
Proof. unfold substr. rewrite drop_app_length. apply take_app_length. Qed.
Lemma find_window c (p x s : bytes) : c ∉ x -> find c (p ++ x ++ c :: s) (length p) = Some (length p + length x)%nat.
Proof.
  intros H. unfold find. rewrite drop_app_length, index_of_app_free by done. cbn [index_of]. rewrite Z.eqb_refl. cbn.
  f_equal. lia.
Qed.
Lemma find_window_none c (p x : bytes) : c ∉ x -> find c (p ++ x) (length p) = None.
Proof. intros H. unfold find. rewrite drop_app_length. by apply index_of_none in H as ->. Qed.

Lemma digits_free c x : Forall (fun c => is_digit c = true) x -> is_digit c = false -> c ∉ x.
Proof. intros H Hc Hin. rewrite Forall_forall in H. specialize (H c Hin). congruence. Qed.
Lemma octet_text v : is_u8 v -> octet_loop (to_string v) 0 = Some v /\ 46 ∉ to_string v /\ (0 < length (to_string v))%nat.
Proof.
  unfold is_u8. intros Hv. pose proof (to_string_ne v). unfold to_string at 1. rewrite octet_loop_string by (cbn; lia).
  split; [done|]. split; [|destruct (to_string v); cbn; [done|lia]].
  apply digits_free; [|done]. apply to_string_digits; [lia|done].
Qed.

Lemma ipv4_part n p v s out : is_u8 v ->
  ipv4_loop (S n) (p ++ to_string v ++ 46 :: s) (length p) out
  = ipv4_loop n (p ++ to_string v ++ 46 :: s) (length (p ++ to_string v ++ [46])) (out ++ [v]).
Proof.
  intros Hv. destruct (octet_text v Hv) as (Ho & Hf & Hl). cbn [ipv4_loop]. cbv zeta. rewrite find_window by done.
  cbn [negb Bool.eqb]. destruct (Nat.eqb_spec (length p + length (to_string v)) (length p)); [lia|].
  replace (length p + length (to_string v) - length p)%nat with (length (to_string v)) by lia.
  rewrite substr_window, Ho. cbn [mbind option_bind]. rewrite u8_id by done.
  replace (length p + length (to_string v) + 1)%nat with (length (p ++ to_string v ++ [46])); [done|].
  rewrite !length_app. cbn. lia.
Qed.
Lemma ipv4_last p v out : is_u8 v -> ipv4_loop 0 (p ++ to_string v) (length p) out = Some (out ++ [v]).
Proof.
  intros Hv. destruct (octet_text v Hv) as (Ho & Hf & Hl). cbn [ipv4_loop]. cbv zeta. rewrite find_window_none by done.
  cbn [negb Bool.eqb]. rewrite length_app.
  destruct (Nat.eqb_spec (length p + length (to_string v)) (length p)); [lia|].
  replace (length p + length (to_string v) - length p)%nat with (length (to_string v)) by lia.
  pose proof (substr_window p (to_string v) []) as Hs. rewrite app_nil_r in Hs. rewrite Hs, Ho. cbn [mbind option_bind].
  by rewrite u8_id.
Qed.
Lemma ipv4_roundtrip a b c d : is_u8 a -> is_u8 b -> is_u8 c -> is_u8 d ->
  parse_ipv4_bytes (ipv4_text [a; b; c; d]) = Some [a; b; c; d].
Proof.
  intros Ha Hb Hc Hd. unfold parse_ipv4_bytes, ipv4_text.
  set (p1 := to_string a ++ [46]). set (p2 := p1 ++ to_string b ++ [46]). set (p3 := p2 ++ to_string c ++ [46]).
  pose proof (ipv4_part 2 [] a (to_string b ++ 46 :: to_string c ++ 46 :: to_string d) [] Ha) as H1.
  change ([] ++ ?x) with x in H1. change (length []) with O in H1. rewrite H1. fold p1. change ([] ++ ?x) with x.
  replace (to_string a ++ 46 :: to_string b ++ 46 :: to_string c ++ 46 :: to_string d)
    with (p1 ++ to_string b ++ 46 :: to_string c ++ 46 :: to_string d) by (unfold p1; by rewrite <- app_assoc).
  pose proof (ipv4_part 1 p1 b (to_string c ++ 46 :: to_string d) [a] Hb) as H2. fold p2 in H2. cbn [app] in H2 |- *. rewrite H2.
  replace (p1 ++ to_string b ++ 46 :: to_string c ++ 46 :: to_string d) with (p2 ++ to_string c ++ 46 :: to_string d)
    by (unfold p2; by rewrite <- !app_assoc).
  pose proof (ipv4_part 0 p2 c (to_string d) [a; b] Hc) as H3. fold p3 in H3. cbn [app] in H3. rewrite H3.
  replace (p2 ++ to_string c ++ 46 :: to_string d) with (p3 ++ to_string d) by (unfold p3; by rewrite <- !app_assoc).
  apply (ipv4_last p3 d [a; b; c] Hd).
Qed.

(** * IPv6 *)
Definition plain (ls : list bytes) : Prop := Forall (fun l => l <> [] /\ 58 ∉ l) ls.

(** No pair of colons but those between the parts. *)
Lemma colons_free x s : 58 ∉ x -> index_of_colons (x ++ s) = (fun i => (length x + i)%nat) <$> index_of_colons s.
Proof.
  induction x as [|a x IH]; intros H; [cbn [app join_with]; by destruct (index_of_colons s)|]. apply not_elem_of_cons in H as [Ha Hx].
  specialize (IH Hx). cbn [app index_of_colons length]. destruct (x ++ s) as [|y r] eqn:E.
  - apply app_eq_nil in E as [-> ->]. done.
  - replace (a =? 58) with false by lia. cbn [andb]. rewrite IH. by destruct (index_of_colons s).
Qed.
Lemma colons_join ls s : plain ls ->
  index_of_colons (join_with 58 ls ++ s) = (fun i => (length (join_with 58 ls) + i)%nat) <$> index_of_colons s.
Proof.
  intros H. destruct H as [|l ls [Hl Hf] H]; [cbn [app join_with]; by destruct (index_of_colons s)|].
  revert l Hl Hf. induction H as [|l2 ls [Hl2 Hf2] H IH]; intros l Hl Hf; [by apply colons_free|].
  change (join_with 58 (l :: l2 :: ls)) with (l ++ 58 :: join_with 58 (l2 :: ls)). rewrite <- app_assoc, colons_free by done.
  cbn [app]. specialize (IH l2 Hl2 Hf2).
  assert (index_of_colons (58 :: join_with 58 (l2 :: ls) ++ s)
    = S <$> index_of_colons (join_with 58 (l2 :: ls) ++ s)) as ->.
  { destruct l2 as [|c l2]; [done|]. apply not_elem_of_cons in Hf2 as [Hc _].
    assert (exists r, join_with 58 ((c :: l2) :: ls) ++ s = c :: r) as [r ->] by (destruct ls; by eexists).
    cbn [index_of_colons]. replace (c =? 58) with false by lia. done. }
  rewrite IH, !length_app. cbn [length]. destruct (index_of_colons s); cbn; [f_equal; lia|done].
Qed.

Lemma hex_words_plain ws : Forall is_u16 ws -> plain (map hex_word ws).
Proof.
  induction 1 as [|w ws Hw _ IH]; [constructor|]. constructor; [|done]. destruct (hex_word_ok w Hw) as (_ & Hne & Hh).
  split; [done|]. intros Hin. rewrite Forall_forall in Hh. apply Hh in Hin. unfold is_hex in Hin. lia.
Qed.
Lemma hex_token allow last w : is_u16 w -> token_words (hex_word w) allow last = Some [w].
Proof.
  intros Hw. destruct (hex_word_ok w Hw) as (Hp & Hne & Hh). unfold token_words.
  destruct (contains 46 (hex_word w)) eqn:E; [|by rewrite Hp]. apply contains_spec in E.
  rewrite Forall_forall in Hh. apply Hh in E. unfold is_hex in E. lia.
Qed.

Lemma hex_free w : is_u16 w -> 58 ∉ hex_word w /\ (0 < length (hex_word w))%nat.
Proof.
  intros Hw. destruct (hex_word_ok w Hw) as (_ & Hne & Hh). split; [|destruct (hex_word w); cbn; [done|lia]].
  intros Hin. rewrite Forall_forall in Hh. apply Hh in Hin. unfold is_hex in Hin. lia.
Qed.

Lemma sequence_last allow p w fuel words : is_u16 w ->
  sequence_loop (S fuel) (p ++ hex_word w) allow (length p) words = Some (words ++ [w]).
Proof.
  intros Hw. destruct (hex_free w Hw) as [Hf Hl]. cbn [sequence_loop]. rewrite length_app.
  destruct (Nat.leb_spec (length p) (length p + length (hex_word w))); [|lia]. rewrite find_window_none by done.
  destruct (Nat.eqb_spec (length p + length (hex_word w)) (length p)); [lia|].
  replace (length p + length (hex_word w) - length p)%nat with (length (hex_word w)) by lia.
  pose proof (substr_window p (hex_word w) []) as Hs. rewrite app_nil_r in Hs. by rewrite Hs, hex_token.
Qed.
Lemma sequence_more allow p w s fuel words : is_u16 w ->
  sequence_loop (S fuel) (p ++ hex_word w ++ 58 :: s) allow (length p) words
  = sequence_loop fuel ((p ++ hex_word w ++ [58]) ++ s) allow (length (p ++ hex_word w ++ [58])) (words ++ [w]).
Proof.
  intros Hw. destruct (hex_free w Hw) as [Hf Hl]. cbn [sequence_loop].
  destruct (Nat.leb_spec (length p) (length (p ++ hex_word w ++ 58 :: s))); [|rewrite length_app in *; lia].
  rewrite find_window by done. destruct (Nat.eqb_spec (length p + length (hex_word w)) (length p)); [lia|].
  replace (length p + length (hex_word w) - length p)%nat with (length (hex_word w)) by lia.
  rewrite substr_window, hex_token by done. cbn [mbind option_bind].
  replace (p ++ hex_word w ++ 58 :: s) with ((p ++ hex_word w ++ [58]) ++ s) by by rewrite <- !app_assoc.
  f_equal. rewrite !length_app. cbn. lia.
Qed.
Lemma sequence_words allow ws : forall p fuel words, Forall is_u16 ws -> ws <> [] -> (length ws <= fuel)%nat ->
  sequence_loop fuel (p ++ join_with 58 (map hex_word ws)) allow (length p) words = Some (words ++ ws).
Proof.
  induction ws as [|w ws IH]; intros p fuel words H Hne Hf; [done|]. apply Forall_cons in H as [Hw H].
  destruct fuel as [|fuel]; cbn in Hf; [lia|]. destruct ws as [|w2 ws]; [by apply sequence_last|].
  change (join_with 58 (map hex_word (w :: w2 :: ws))) with (hex_word w ++ 58 :: join_with 58 (map hex_word (w2 :: ws))).
  rewrite sequence_more by done. rewrite IH; [by rewrite <- app_assoc|done|done|lia].
Qed.
Lemma join_hex_len ws : Forall is_u16 ws -> (length ws <= length (join_with 58 (map hex_word ws)))%nat.
Proof.
  induction 1 as [|w ws Hw Hws IH]; [cbn; lia|]. destruct (hex_free w Hw) as [_ Hl]. destruct ws as [|w2 ws]; [exact Hl|].
  change (join_with 58 (map hex_word (w :: w2 :: ws))) with (hex_word w ++ 58 :: join_with 58 (map hex_word (w2 :: ws))).
  rewrite length_app. cbn [length] in *. lia.
Qed.
Lemma parse_sequence_words allow ws : Forall is_u16 ws ->
  parse_ipv6_sequence (join_with 58 (map hex_word ws)) allow [] = Some ws.
Proof.
  intros H. destruct (decide (ws = [])) as [->|Hne]; [done|]. pose proof (join_hex_len ws H) as Hl.
  unfold parse_ipv6_sequence. destruct (join_with 58 (map hex_word ws)) eqn:E; [destruct ws; cbn in Hl; [done|lia]|].
  rewrite <- E in *. apply (sequence_words allow ws [] _ []); [done|done|lia].
Qed.

(** ** Formatting *)
(** The loop's step for a word. *)
Definition add_word (out : bytes) (w : Z) : bytes :=
  (if negb (bool_decide (out = [])) && negb (bool_decide (last out = Some 58)) then out ++ [58] else out) ++ hex_word w.
Lemma format_words best_start best_len ws : forall pre post fuel out, (length ws <= fuel)%nat ->
  (best_len = O \/ best_start < length pre \/ length pre + length ws <= best_start)%nat ->
  format_loop fuel (pre ++ ws ++ post) best_start best_len (length pre) out
  = format_loop (fuel - length ws) (pre ++ ws ++ post) best_start best_len (length pre + length ws) (foldl add_word out ws).
Proof.
  induction ws as [|w ws IH]; intros pre post fuel out Hf Hb; cbn [length foldl].
  { by rewrite Nat.sub_0_r, Nat.add_0_r. }
  cbn in Hf, Hb. destruct fuel as [|fuel]; [lia|]. cbn [format_loop Nat.sub].
  rewrite lookup_app_r, Nat.sub_diag by lia. cbn [app lookup list_lookup].
  destruct (Nat.ltb 0 best_len && Nat.eqb (length pre) best_start) eqn:E.
  { apply andb_true_iff in E as [E1%Nat.ltb_lt E2%Nat.eqb_eq]. lia. }
  specialize (IH (pre ++ [w]) post fuel (add_word out w)). rewrite <- !app_assoc, length_app in IH. cbn [app length] in IH.
  replace (length pre + S (length ws))%nat with (length pre + 1 + length ws)%nat by lia. apply IH; lia.
Qed.
Lemma format_end words best_start best_len fuel i out : (length words <= i)%nat ->
  format_loop fuel words best_start best_len i out = out.
Proof. intros H. destruct fuel as [|fuel]; [done|]. cbn [format_loop]. by rewrite lookup_ge_None_2 by lia. Qed.

Lemma last_free c (l : bytes) : c ∉ l -> last l <> Some c.
Proof.
  intros H E. apply H. destruct l as [|x l _] using rev_ind; [done|]. rewrite last_snoc in E. injection E as ->.
  apply elem_of_app. right. by left.
Qed.
Lemma add_words_after ws : Forall is_u16 ws -> forall out w, is_u16 w ->
  foldl add_word (out ++ hex_word w) ws = out ++ join_with 58 (map hex_word (w :: ws)).
Proof.
  induction 1 as [|w2 ws Hw2 H IH]; intros out w Hw; [done|]. cbn [foldl]. destruct (hex_free w Hw) as [Hf Hl].
  change (join_with 58 (map hex_word (w :: w2 :: ws))) with (hex_word w ++ 58 :: join_with 58 (map hex_word (w2 :: ws))).
  assert (add_word (out ++ hex_word w) w2 = (out ++ hex_word w ++ [58]) ++ hex_word w2) as ->.
  { assert (last (out ++ hex_word w) <> Some 58) as Hlast.
    { rewrite last_app. pose proof (last_free 58 _ Hf). destruct (last (hex_word w)) eqn:E; [done|].
      apply last_None in E. by rewrite E in Hl; cbn in Hl; lia. }
    unfold add_word. rewrite (bool_decide_false _ Hlast), bool_decide_false.
    - cbn [negb andb]. by rewrite <- !app_assoc.
    - intros [_ E]%app_eq_nil. rewrite E in Hl. cbn in Hl. lia. }
  rewrite IH by done. by rewrite <- !app_assoc.
Qed.
Lemma add_words_join out ws : Forall is_u16 ws -> out = [] \/ last out = Some 58 ->
  foldl add_word out ws = out ++ join_with 58 (map hex_word ws).
Proof.
  intros H Ho. destruct H as [|w ws Hw H]; [by rewrite app_nil_r|]. cbn [foldl].
  assert (add_word out w = out ++ hex_word w) as ->; [|by apply add_words_after].
  unfold add_word. destruct Ho as [->|Ho]; [done|]. rewrite (bool_decide_true (last out = Some 58)) by done. by rewrite andb_false_r.
Qed.

(** The run that is left out: no word, or words that are zero. *)
Lemma zero_run_spec words : (zero_run words <= length words)%nat /\ take (zero_run words) words = replicate (zero_run words) 0.
Proof.
  induction words as [|w words [IH1 IH2]]; [done|]. cbn [zero_run]. case_if; [|cbn; split; [lia|done]].
  cbn. split; [lia|]. f_equal; [lia|done].
Qed.
Definition zero_range (words : list Z) (start len : nat) : Prop :=
  (start + len <= length words)%nat /\ take len (drop start words) = replicate len 0.
Lemma best_loop_range words fuel : forall i bs bl, zero_range words bs bl ->
  zero_range words (fst (best_loop fuel words i bs bl)) (snd (best_loop fuel words i bs bl)).
Proof.
  induction fuel as [|fuel IH]; intros i bs bl H; [done|]. cbn [best_loop]. destruct (words !! i) as [w|] eqn:E; [|done].
  apply lookup_lt_Some in E. case_if; [by apply IH|].
  destruct (Nat.ltb bl (zero_run (drop i words))); apply IH; [|done].
  pose proof (zero_run_spec (drop i words)) as [H1 H2]. rewrite length_drop in H1. split; [lia|done].
Qed.

Lemma address_words_u16 rdata : Forall is_u16 (address_words rdata).
Proof.
  assert (forall n rdata, (length rdata <= n)%nat -> Forall is_u16 (address_words rdata)) as H; [|by apply (H (length rdata))].
  induction n as [|n IH]; intros [|a [|b r]] Hl; cbn in *; try constructor; try lia; [apply u16_range|apply IH; lia].
Qed.
Lemma words_bytes_back rdata : Forall is_u8 rdata -> Nat.even (length rdata) = true -> words_bytes (address_words rdata) = rdata.
Proof.
  assert (forall n rdata, (length rdata <= n)%nat -> Forall is_u8 rdata -> Nat.even (length rdata) = true ->
    words_bytes (address_words rdata) = rdata) as H; [|by apply (H (length rdata))].
  induction n as [|n IH]; intros [|a [|b r]] Hl Hu He; cbn in *; try done; try lia.
  apply Forall_cons in Hu as [Ha [Hb Hr]%Forall_cons].
  rewrite be16_combine by done. change 255 with (Z.ones 8). rewrite !Z.land_ones, shiftr_8 by lia. change (2 ^ 8) with 256.
  unfold words_bytes in IH. cbn in IH. rewrite IH by (done || lia). unfold is_u8, u8 in *.
  f_equal; [|f_equal]; Z.to_euclidean_division_equations; lia.
Qed.
Lemma address_words_len rdata : length (address_words rdata) = Nat.div2 (length rdata).
Proof.
  assert (forall n rdata, (length rdata <= n)%nat -> length (address_words rdata) = Nat.div2 (length rdata)) as H; [|by apply (H (length rdata))].
  induction n as [|n IH]; intros [|a [|b r]] Hl; cbn in *; try done; try lia. f_equal. apply IH. lia.
Qed.

Lemma format_plain words bs : Forall is_u16 words ->
  format_loop (length words) words bs 0 0 [] = join_with 58 (map hex_word words).
Proof.
  intros H. pose proof (format_words bs 0 words [] [] (length words) []) as E. cbn [app length] in E. rewrite app_nil_r in E.
  rewrite E by lia. rewrite format_end by lia. apply add_words_join; [done|by left].
Qed.
Lemma format_gap left right bl : Forall is_u16 left -> Forall is_u16 right -> (2 <= bl)%nat ->
  let words := left ++ replicate bl 0 ++ right in
  format_loop (length words) words (length left) bl 0 []
  = join_with 58 (map hex_word left) ++ str "::" ++ join_with 58 (map hex_word right).
Proof.
  intros Hl Hr Hb words. assert (length words = length left + (bl + length right))%nat as Hlen
    by (unfold words; by rewrite !length_app, length_replicate).
  pose proof (format_words (length left) bl left [] (replicate bl 0 ++ right) (length words) []) as E. cbn [app length] in E.
  fold words in E. rewrite E by lia. clear E. rewrite (add_words_join [] left Hl) by by left.
  assert (exists f, (length words - length left = S f)%nat /\ (length right <= f)%nat) as (f & -> & Hf)
    by (exists (length words - length left - 1)%nat; lia).
  cbn [format_loop Nat.add]. assert (words !! length left = Some 0) as ->.
  { unfold words. rewrite lookup_app_r, Nat.sub_diag by lia. destruct bl; [lia|done]. }
  destruct (Nat.ltb_spec 0 bl); [|lia]. rewrite Nat.eqb_refl. cbn [andb].
  pose proof (format_words (length left) bl right (left ++ replicate bl 0) [] f (join_with 58 (map hex_word left) ++ str "::")) as E.
  rewrite <- !app_assoc, app_nil_r, length_app, length_replicate in E. cbn [app] in E |- *. fold words in E. rewrite E by lia.
  rewrite format_end by lia. rewrite add_words_join; [|done|right; by rewrite last_app].
  by rewrite <- !app_assoc.
Qed.

Lemma find_colons_join left s : Forall is_u16 left ->
  find_colons (join_with 58 (map hex_word left) ++ 58 :: 58 :: s) 0 = Some (length (join_with 58 (map hex_word left))).
Proof.
  intros H. unfold find_colons. rewrite drop_0, colons_join by by apply hex_words_plain. cbn. f_equal. lia.
Qed.
Lemma no_colons ws : Forall is_u16 ws -> index_of_colons (join_with 58 (map hex_word ws)) = None.
Proof.
  intros H. rewrite <- (app_nil_r (join_with _ _)), colons_join by by apply hex_words_plain. done.
Qed.

Lemma parse_plain words : Forall is_u16 words -> length words = 8%nat ->
  parse_ipv6_bytes (join_with 58 (map hex_word words)) = Some (words_bytes words).
Proof.
  intros H Hl. unfold parse_ipv6_bytes. pose proof (join_hex_len words H) as Hn.
  destruct (join_with 58 (map hex_word words)) eqn:E; [cbn in Hn; lia|]. rewrite <- E in *. clear E.
  unfold find_colons. rewrite drop_0, no_colons by done. cbn [fmap option_fmap option_map].
  rewrite parse_sequence_words by done. cbn [mbind option_bind]. by rewrite Hl.
Qed.
Lemma parse_gap left right bl : Forall is_u16 left -> Forall is_u16 right -> (2 <= bl)%nat -> (length left + bl + length right = 8)%nat ->
  parse_ipv6_bytes (join_with 58 (map hex_word left) ++ str "::" ++ join_with 58 (map hex_word right))
  = Some (words_bytes (left ++ replicate bl 0 ++ right)).
Proof.
  intros Hl Hr Hb Hlen. unfold parse_ipv6_bytes. set (jl := join_with 58 (map hex_word left)). set (jr := join_with 58 (map hex_word right)).
  change (str "::" ++ jr) with (58 :: 58 :: jr).
  destruct (jl ++ 58 :: 58 :: jr) eqn:E; [by apply app_eq_nil in E as [_ ?]|]. rewrite <- E. clear E.
  unfold jl at 1. rewrite find_colons_join by done. fold jl.
  assert (drop (length jl + 2) (jl ++ 58 :: 58 :: jr) = jr) as Hd by by rewrite <- drop_drop, drop_app_length.
  assert (index_of_colons jr = None) as Hnone by by apply no_colons.
  unfold find_colons, substr_from. rewrite Hd, Hnone. cbn [fmap option_fmap option_map].
  rewrite substr_app_l. unfold jl, jr. rewrite !parse_sequence_words by done. cbn [mbind option_bind].
  destruct (Nat.leb_spec 8 (length left + length right)); [lia|].
  assert (resize (8 - length right) left ++ right = left ++ replicate bl 0 ++ right) as ->.
  { unfold resize. rewrite take_ge by lia. rewrite <- app_assoc. by replace (8 - length right - length left)%nat with bl by lia. }
  rewrite !length_app, length_replicate. by replace (length left + (bl + length right))%nat with 8%nat by lia.
Qed.

Lemma ipv6_roundtrip rdata : Forall is_u8 rdata -> zlen rdata = 16 -> parse_ipv6_bytes (format_ipv6_bytes rdata) = Some rdata.
Proof.
  intros Hu Hz. assert (length rdata = 16%nat) as Hlen by (unfold zlen in Hz; lia).
  pose proof (address_words_len rdata) as Hw. rewrite Hlen in Hw. cbn in Hw. pose proof (address_words_u16 rdata) as Hr.
  rewrite <- (words_bytes_back rdata) at 2 by (done || by rewrite Hlen).
  unfold format_ipv6_bytes. rewrite Hz. cbn [Z.eqb Pos.eqb negb]. cbv zeta. set (words := address_words rdata) in *. clearbody words.
  pose proof (best_loop_range words (length words) 0 0 0) as Hrange.
  destruct (best_loop (length words) words 0 0 0) as [bs bl]. cbn [fst snd] in Hrange.
  destruct Hrange as [Hle Hzero]; [by split; [cbn; lia|]|].
  destruct (Nat.ltb_spec bl 2) as [Hb|Hb].
  - rewrite format_plain by done. pose proof (join_hex_len words Hr) as Hj.
    destruct (join_with 58 (map hex_word words)) eqn:E; [cbn in Hj; lia|]. rewrite <- E. by apply parse_plain.
  - set (left := take bs words). set (right := drop (bs + bl) words).
    assert (words = left ++ replicate bl 0 ++ right) as E.
    { unfold left, right. rewrite <- Hzero, <- drop_drop. by rewrite take_drop, take_drop. }
    assert (length left = bs) as Hll by (unfold left; rewrite length_take; lia).
    assert (Forall is_u16 left /\ Forall is_u16 right) as [Hl Hrr] by (split; [by apply Forall_take|by apply Forall_drop]).
    pose proof (format_gap left right bl Hl Hrr Hb) as Hf. cbv zeta in Hf. rewrite <- E, Hll in Hf. rewrite Hf.
    assert (length left + bl + length right = 8)%nat as H8.
    { rewrite <- Hw, E at 1. rewrite !length_app, length_replicate. lia. }
    destruct (join_with 58 (map hex_word left) ++ str "::" ++ join_with 58 (map hex_word right)) eqn:Et;
      [by apply app_eq_nil in Et as [_ ?]|]. rewrite <- Et, (parse_gap left right bl) by done. by rewrite <- E.
Qed.

(** * TXT *)
(** The strings of a TXT record that survive: without spaces, of a length that a byte can
    say, and not ending with an empty one. *)
Definition txt_ok (cs : list bytes) : Prop :=
  Forall (fun c => zlen c < 256 /\ 32 ∉ c) cs /\ cs <> [] /\ last cs <> Some [].
Definition txt_bytes (cs : list bytes) : bytes := concat (map label_bytes cs).

Lemma txt_loop_join cs : Forall (fun c => zlen c < 256) cs -> forall pre fuel result, (length (txt_bytes cs) < fuel)%nat ->
  txt_loop fuel (pre ++ txt_bytes cs) (zlen pre) result = Ok (result ++ join_with 32 cs).
Proof.
  induction 1 as [|c cs Hc Hcs IH]; intros pre fuel result Hf; (destruct fuel as [|fuel]; [lia|]); cbn [txt_loop]; cbv zeta.
  { unfold txt_bytes. cbn [map concat]. rewrite app_nil_r. replace (zlen pre <? zlen pre) with false by lia. by rewrite app_nil_r. }
  change (txt_bytes (c :: cs)) with ((u8 (zlen c) :: c) ++ txt_bytes cs) in *. pose proof (zlen_nonneg c). rewrite u8_id in * by (unfold is_u8; lia).
  set (data := pre ++ (zlen c :: c) ++ txt_bytes cs).
  assert (data = (pre ++ [zlen c]) ++ c ++ txt_bytes cs) as E1 by (unfold data; by rewrite <- app_assoc).
  assert (data = (pre ++ zlen c :: c) ++ txt_bytes cs) as E2 by (unfold data; by rewrite <- app_assoc).
  assert (zlen data = zlen pre + 1 + zlen c + zlen (txt_bytes cs)) as Hz by (rewrite E1; zlia). pose proof (zlen_nonneg (txt_bytes cs)).
  case_if; [|lia]. case_if; [lia|].
  assert (rd data (zlen pre) = Ok (zlen c)) as -> by apply rd_app. mstep. case_if; [lia|].
  pose proof (rd_range_app (pre ++ [zlen c]) c (txt_bytes cs)) as Hr. rewrite <- E1, zlen_app in Hr. change (zlen [zlen c]) with 1 in Hr.
  rewrite Hr. mstep. specialize (IH (pre ++ zlen c :: c)). rewrite <- E2 in IH.
  replace (zlen (pre ++ zlen c :: c)) with (zlen pre + 1 + zlen c) in IH by zlia.
  rewrite IH by (rewrite length_app in Hf; cbn in Hf; lia). destruct cs as [|c2 cs].
  - case_if; [change (zlen (txt_bytes [])) with 0 in *; lia|]. cbn. by rewrite app_nil_r.
  - assert (0 < zlen (txt_bytes (c2 :: cs))) by (change (txt_bytes (c2 :: cs)) with ((u8 (zlen c2) :: c2) ++ txt_bytes cs); zlia).
    case_if; [|lia]. change (join_with 32 (c :: c2 :: cs)) with (c ++ 32 :: join_with 32 (c2 :: cs)). by rewrite <- !app_assoc.
Qed.

Lemma split_loop_join cs : Forall (fun c => zlen c < 256 /\ 32 ∉ c) cs -> cs <> [] -> last cs <> Some [] ->
  forall pre fuel rdata, (length (join_with 32 cs) < fuel)%nat ->
  split_loop fuel (pre ++ join_with 32 cs) (length pre) rdata = Ok (rdata ++ txt_bytes cs).
Proof.
  induction 1 as [|c cs [Hc Hs] Hcs IH]; intros Hne Hlast pre fuel rdata Hf; [done|]. destruct fuel as [|fuel]; [lia|].
  cbn [split_loop]. unfold zlen in Hc. destruct cs as [|c2 cs].
  - cbn [join_with] in *. assert (0 < length c)%nat by (destruct c; cbn in *; [done|lia]).
    rewrite length_app. destruct (Nat.ltb_spec (length pre) (length pre + length c)); [|lia].
    rewrite find_window_none by done. replace (length pre + length c - length pre)%nat with (length c) by lia.
    pose proof (substr_window pre c []) as Hw. rewrite app_nil_r in Hw. rewrite Hw. destruct (Nat.ltb_spec 255 (length c)); [lia|].
    destruct fuel as [|fuel]; [lia|]. cbn [split_loop]. rewrite length_app.
    destruct (Nat.ltb_spec (length pre + length c + 1) (length pre + length c)); [lia|].
    unfold txt_bytes. cbn. by rewrite app_nil_r.
  - change (join_with 32 (c :: c2 :: cs)) with (c ++ 32 :: join_with 32 (c2 :: cs)) in *. rewrite length_app in Hf. cbn [length] in Hf.
    assert (length pre < length (pre ++ c ++ 32%Z :: join_with 32%Z (c2 :: cs)))%nat as Hlt by (rewrite !length_app; cbn [length]; lia).
    apply Nat.ltb_lt in Hlt as ->. rewrite find_window by done.
    replace (length pre + length c - length pre)%nat with (length c) by lia. rewrite substr_window.
    destruct (Nat.ltb_spec 255 (length c)); [lia|].
    specialize (IH ltac:(done) ltac:(done) (pre ++ c ++ [32]) fuel (rdata ++ [u8 (zlen c)] ++ c) ltac:(lia)).
    rewrite <- !app_assoc, !length_app in IH. cbn [app length] in IH. rewrite Nat.add_assoc in IH. cbn [app].
    rewrite IH. unfold txt_bytes. cbn [map concat]. reflexivity.
Qed.

(** * MX *)
Lemma trim_id text : text <> [] -> hd_error text <> Some 32 -> hd_error text <> Some 9 -> last text <> Some 32 -> last text <> Some 9 ->
  trim_copy text = text.
Proof.
  intros Hne H1 H2 H3 H4. unfold trim_copy.
  assert (forall t : bytes, hd_error t <> Some 32 -> hd_error t <> Some 9 -> skip_blanks t = t) as Hs.
  { intros [|c t] Ha Hb; [done|]. cbn in *. unfold is_blank. case_if; [|done]. destruct (Z.eqb_spec c 32) as [->|]; [done|].
    assert (c = 9) as -> by lia. done. }
  rewrite (Hs text), Hs; [apply rev_involutive|..|done|done]; destruct text as [|x t _] using rev_ind; try done;
    rewrite rev_app_distr; cbn; rewrite last_snoc in *; done.
Qed.
Definition blank_free (nm : bytes) : Prop := Forall (fun c => is_blank c = false) nm.
Lemma blank_free_ends nm c : blank_free nm -> is_blank c = true -> hd_error nm <> Some c /\ last nm <> Some c.
Proof.
  intros H Hc. unfold blank_free in H. rewrite Forall_forall in H. split; intros E.
  - destruct nm as [|x nm]; [done|]. injection E as ->. specialize (H c (list_elem_of_here _ _)). congruence.
  - assert (c ∈ nm) as Hin; [|apply H in Hin; congruence]. destruct nm as [|x nm _] using rev_ind; [done|]. rewrite last_snoc in E.
    injection E as ->. apply elem_of_app. right. by left.
Qed.
Lemma find_blank_free x s c : blank_free x -> is_blank c = true -> find_blank (x ++ c :: s) = Some (length x).
Proof.
  intros H Hc. induction H as [|a x Ha _ IH]; cbn; [by rewrite Hc|]. by rewrite Ha, IH.
Qed.
Lemma digits_blank_free x : Forall (fun c => is_digit c = true) x -> blank_free x.
Proof. intros H. eapply Forall_impl; [exact H|]. intros c. unfold is_digit, is_blank. lia. Qed.
Lemma mx_parts_text pref nm : is_u16 pref -> nm <> [] -> blank_free nm ->
  trim_copy (to_string pref ++ [32] ++ nm) = to_string pref ++ [32] ++ nm
  /\ mx_parts (to_string pref ++ [32] ++ nm) = (pref, nm).
Proof.
  intros Hp Hne Hb. assert (blank_free (to_string pref)) as Hd.
  { apply digits_blank_free, to_string_digits; [unfold is_u16 in Hp; lia|done]. }
  pose proof (to_string_ne pref) as Ht. split.
  - assert (hd_error (to_string pref ++ [32] ++ nm) = hd_error (to_string pref)) as Hh by by destruct (to_string pref).
    assert (last (to_string pref ++ [32] ++ nm) = last nm) as Hl.
    { rewrite !last_app. destruct (last nm) eqn:E; [done|]. by apply last_None in E. }
    apply trim_id; rewrite ?Hh, ?Hl; [by destruct (to_string pref)|by apply blank_free_ends..].
  - unfold mx_parts. cbn [app]. rewrite (find_blank_free _ _ 32) by done. rewrite substr_app_l.
    assert (substr_from (to_string pref ++ 32 :: nm) (length (to_string pref) + 1) = nm) as ->.
    { unfold substr_from. by rewrite <- drop_drop, drop_app_length. }
    rewrite trim_id, parse_uint16_string; [by destruct nm|done|done|by apply blank_free_ends..].
Qed.

(** * The data of records *)
(** The data that has a text form, by the type of its record. *)
Inductive text_data : Z -> bytes -> Prop :=
| data_a a b c d : is_u8 a -> is_u8 b -> is_u8 c -> is_u8 d -> text_data A [a; b; c; d]
| data_aaaa rdata : Forall is_u8 rdata -> zlen rdata = 16 -> text_data AAAA rdata
| data_txt cs : txt_ok cs -> text_data TXT (txt_bytes cs)
| data_mx pref nm : is_u16 pref -> name_ok nm -> nm <> [] -> blank_free nm ->
    text_data MX (be16 pref ++ labels_bytes (name_labels nm)).

Section Data.
Context {B : Type} `{ByteSink B}.

Lemma encoded_name_eq nm : encoded_name (B := B) nm = Ok (labels_bytes (name_labels nm)).
Proof.
  unfold encoded_name.
  pose proof (encodes_run ByteBuffer.kDefaultCapacity _ _ ltac:(done) (encode_name_emits (B := B) nm)) as He.
  apply encodes_bytes in He. exact He.
Qed.

Lemma exchange_text_ok pref nm : is_u16 pref -> name_ok nm -> nm <> [] ->
  exchange_text (be16 pref ++ labels_bytes (name_labels nm)) = Ok (to_string pref ++ [32] ++ nm).
Proof.
  intros Hp Hn Hne. unfold exchange_text. set (lb := labels_bytes (name_labels nm)).
  assert (1 <= zlen lb) as Hlb by (unfold lb, labels_bytes; zlia).
  rewrite zlen_app, zlen_be16. case_if; [lia|].
  change (rd (be16 pref ++ lb) 0) with (Ok (u8 (Z.shiftr pref 8))). change (rd (be16 pref ++ lb) 1) with (Ok (u8 pref)). mstep.
  rewrite be16_decode by done. destruct (name_ok_labels nm Hn) as [Hl Hj].
  assert (decode_name (be16 pref ++ lb) 2 = Ok (nm, 2 + zlen lb)) as ->.
  { apply decode_name_exact; [|lia|].
    - apply Forall_app. split; [apply be16_is_u8|apply labels_bytes_u8, Hn].
    - exists (name_labels nm). split; [|done]. pose proof (spells_labels _ (be16 pref) [] Hl) as Hs. by rewrite app_nil_r in Hs. }
  rewrite bool_decide_false by done. case_if; [lia|done].
Qed.

Lemma text_back r r' : text_data (type r) (rdata r) -> type r' = type r ->
  exists t, get_rdata_as_string r = Ok t /\ t <> [] /\ set_rdata_from_string (B := B) t r' = Ok (with_rdata r' (rdata r)).
Proof.
  destruct r as [nm ty cl tl data]. cbn [rdata type]. unfold get_rdata_as_string, set_rdata_from_string. cbn [rdata type].
  intros Hd ->. destruct Hd as [a b c d Ha Hb Hc Hd|data Hu Hz|cs (Hcs & Hne & Hlast)|pref nm2 Hp Hn Hne Hb].
  - exists (ipv4_text [a; b; c; d]). rewrite bool_decide_false by done. split; [done|].
    rewrite ipv4_roundtrip by done. split; [|done]. by intros [[]%to_string_ne _]%app_eq_nil.
  - exists (format_ipv6_bytes data). rewrite bool_decide_false by (intros ->; by cbn in Hz). split; [done|].
    pose proof (ipv6_roundtrip data Hu Hz) as E. rewrite E. split; [|done]. intros E0. by rewrite E0 in E.
  - exists (join_with 32 cs). assert (txt_bytes cs <> []) as Hnb by by destruct cs. rewrite bool_decide_false by done.
    split; [|split].
    + cbn [Z.eqb Pos.eqb]. change (TXT =? A) with false. change (TXT =? AAAA) with false. change (TXT =? TXT) with true. cbn iota.
      apply (txt_loop_join cs) with (pre := []); [|lia]. eapply Forall_impl; [exact Hcs|]. by intros c [? _].
    + intros E. destruct cs as [|c [|c2 cs]]; [done|cbn in *; by subst|]. by destruct c.
    + change (TXT =? A) with false. change (TXT =? AAAA) with false. change (TXT =? TXT) with true. cbn iota.
      pose proof (split_loop_join cs Hcs Hne Hlast [] (S (length (join_with 32 cs))) [] ltac:(lia)) as E.
      change ([] ++ ?x) with x in E. change (length []) with O in E. by rewrite E.
  - exists (to_string pref ++ [32] ++ nm2). change (MX =? A) with false. change (MX =? AAAA) with false. change (MX =? TXT) with false.
    change (MX =? CNAME) with false. change (MX =? NS) with false. change (MX =? MX) with true. cbn [orb]. cbn iota.
    rewrite bool_decide_false by done. split; [by apply exchange_text_ok|].
    split; [by destruct (to_string pref)|]. destruct (mx_parts_text pref nm2 Hp Hne Hb) as [-> ->].
    rewrite bool_decide_false by by destruct (to_string pref). rewrite bool_decide_false, encoded_name_eq by done. mstep.
    do 2 f_equal. f_equal. unfold be16. change 255 with (Z.ones 8). rewrite !Z.land_ones by lia. change (2 ^ 8) with 256.
    unfold u8. by rewrite !Z.mod_mod by lia.
Qed.

(** The text of a name that a CNAME or NS record holds: the reader takes the first two bytes
    for a preference, and the third, a letter, for a length. *)
Lemma name_text_lost r nm c1 c2 rest : type r = CNAME \/ type r = NS -> name_ok nm -> nm = c1 :: c2 :: rest -> 64 <= c2 < 192 ->
  exists r', set_rdata_from_string (B := B) nm r = Ok r' /\ rdata r' = labels_bytes (name_labels nm) /\ get_rdata_as_string r' = Ok [].
Proof.
  intros Ht Hn Enm Hc. exists (with_rdata r (labels_bytes (name_labels nm))).
  assert (type r =? A = false /\ type r =? AAAA = false /\ type r =? TXT = false /\ (type r =? CNAME) || (type r =? NS) = true)
    as (E1 & E2 & E3 & E4) by (destruct Ht as [-> | ->]; done).
  split; [|split; [done|]].
  { unfold set_rdata_from_string. by rewrite E1, E2, E3, E4, encoded_name_eq. }
  assert (exists x ls, name_labels nm = (c1 :: c2 :: x) :: ls) as (x & ls & El).
  { destruct Hn as [_ [->|Hl]]; [done|]. unfold name_labels. subst nm. cbn [split_on] in *. destruct (c1 =? 46).
    { apply Forall_cons in Hl as [Hl _]. unfold label_ok in Hl. rewrite zlen_nil in Hl. lia. }
    replace (c2 =? 46) with false in * by lia. pose proof (split_on_ne 46 rest). destruct (split_on 46 rest) as [|x ls]; [done|].
    exists x, (drop_last_empty ls). done. }
  assert (Forall is_u8 (labels_bytes (name_labels nm))) as Hu by apply labels_bytes_u8, Hn.
  revert Hu. rewrite El. unfold labels_bytes. cbn [map concat]. unfold label_bytes at 1 3. cbn [app].
  set (tl := _ ++ [0]). intros Hu. unfold get_rdata_as_string. cbn [type rdata with_rdata]. rewrite E1, E2, E3, E4. cbn [orb]. cbn iota.
  rewrite bool_decide_false by done. unfold exchange_text. case_if; [zlia|]. clear Hif.
  revert Hu. generalize (u8 (zlen (c1 :: c2 :: x))) as n. intros n Hu. set (data := n :: c1 :: c2 :: tl) in *.
  change (rd data 0) with (Ok n). change (rd data 1) with (Ok c1). mstep.
  pose proof (decode_name_safe data 2 Hu ltac:(lia)) as Hs. destruct (decode_name data 2) as [[ex pos]| | |] eqn:E; [|done..].
  exfalso. apply decode_name_exact in E as (ls' & Hsp & _); [|done|lia]. assert (rd data 2 = Ok c2) as Hr by done.
  inversion Hsp; subst.
  - match goal with H : rd _ _ = Ok 0 |- _ => rewrite Hr in H; injection H as H; lia end.
  - match goal with H : label_at _ _ _ _ |- _ => destruct H as (k & Hk & ? & _) end. rewrite Hr in Hk. injection Hk as <-. lia.
  - match goal with H : pointer_at _ _ _ |- _ => destruct H as (k & ? & Hk & ? & _) end. rewrite Hr in Hk. injection Hk as <-. lia.
Qed.
End Data.
