(* ===== verification/DnsTheorems.v ===== *)
(** What the DNS library promises: names and packets are read as they were written, the
    records of a server are a table, and a query of the client is answered from it. *)
From stdpp Require Import gmap.
From S2P Require Import Prelude Endian Strings ByteBuffer ByteBufferFacts Dns DnsFacts DnsTextFacts.
Import Dns.

(** * The records of a server *)
Section Records.
Context {B : Type} `{ByteSink B}.

Lemma split_loop_ok data fuel : forall start rdata, (length data - start < fuel)%nat ->
  exists r, split_loop fuel data start rdata = Ok r.
Proof.
  induction fuel as [|fuel IH]; intros start rdata Hf; [lia|]. cbn [split_loop].
  destruct (Nat.ltb_spec start (length data)) as [Hs|Hs]; [|by eexists]. cbv zeta. apply IH.
  unfold find. destruct (index_of 32 (drop start data)) as [i|]; cbn; lia.
Qed.
(** Setting the data of a record returns, changes nothing else, and depends on the type and
    the data only. *)
Lemma set_rdata_ok text r r0 : type r0 = type r -> rdata r0 = rdata r -> exists d,
  set_rdata_from_string (B := B) text r = Ok (with_rdata r d) /\ set_rdata_from_string (B := B) text r0 = Ok (with_rdata r0 d).
Proof.
  intros Ht Hd. assert (forall r, with_rdata r (rdata r) = r) as Hr by by intros [].
  assert (exists d, Ok r = Ok (with_rdata r d) /\ Ok r0 = Ok (with_rdata r0 d)) as Hkeep
    by (exists (rdata r); by rewrite <- Hd at 2; rewrite !Hr).
  unfold set_rdata_from_string. rewrite Ht.
  case_if; [destruct (DnsText.parse_ipv4_bytes text); [by eexists|done]|].
  case_if; [destruct (DnsText.parse_ipv6_bytes text); [by eexists|done]|].
  case_if; [destruct (split_loop_ok text (S (length text)) 0 []) as [d ->]; [lia|by eexists]|].
  case_if; [rewrite encoded_name_eq; by eexists|]. case_if; [|by eexists]. case_bool_decide; [by eexists|].
  destruct (mx_parts _) as [pr ex]. case_bool_decide; [by eexists|]. rewrite encoded_name_eq. by eexists.
Qed.

(** The data that a text stands for in a new record; the empty string where it stands for none. *)
Definition data_of (ty : Z) (text : bytes) : bytes :=
  match set_rdata_from_string (B := B) text (mkRecord [] ty IN 0 []) with Ok r => rdata r | _ => [] end.
Lemma make_record_ok nm text ty tl :
  DnsServer.make_record (B := B) nm text ty tl = Ok (mkRecord (DnsServer.normalize_name nm) ty IN tl (data_of ty text)).
Proof.
  unfold DnsServer.make_record, data_of.
  destruct (set_rdata_ok text (mkRecord (DnsServer.normalize_name nm) ty IN tl []) (mkRecord [] ty IN 0 []) eq_refl eq_refl) as (d & -> & ->).
  done.
Qed.

(** What is added, in order: the name, the text and the type of each call. *)
Definition call : Type := bytes * bytes * Z.
Fixpoint add_all (calls : list call) (s : DnsServer.t) : outcome DnsServer.t :=
  match calls with
  | [] => Ok s
  | (nm, text, ty) :: calls => s ← DnsServer.add_record (B := B) nm text ty s; add_all calls s
  end.

(** The table that the records stand for: distinct triples of a name, a type and data, in the
    order of their first call. *)
Definition entry : Type := bytes * Z * bytes.
Definition entry_of (c : call) : entry := let '(nm, text, ty) := c in (DnsServer.normalize_name nm, ty, data_of ty text).
Definition table_add (T : list entry) (c : call) : list entry :=
  let e := entry_of c in
  if bool_decide (snd e = []) || bool_decide (e ∈ T) then T else T ++ [e].
Definition table (calls : list call) : list entry := foldl table_add [] calls.

Definition entry_name (e : entry) : bytes := fst (fst e).
Definition entry_type (e : entry) : Z := snd (fst e).
Definition to_record (e : entry) : DnsResourceRecord := mkRecord (entry_name e) (entry_type e) IN 3600 (snd e).
Definition of_name (key : bytes) (T : list entry) : list entry := List.filter (fun e => bool_decide (entry_name e = key)) T.
Definition holds_table (s : DnsServer.t) (T : list entry) : Prop :=
  forall key, DnsServer.dns_records_ s !! key
    = match of_name key T with [] => None | l => Some (map to_record l) end.

Lemma same_data_entry e e' : entry_name e' = entry_name e -> DnsServer.same_data (to_record e) (to_record e') = bool_decide (e' = e).
Proof.
  destruct e as [[n t] d], e' as [[n' t'] d']. cbn. intros ->. unfold DnsServer.same_data. cbn.
  case_bool_decide; case_bool_decide; simplify_eq; lia || (rewrite Z.eqb_refl; done) || (destruct (Z.eqb_spec t' t); [subst|]; done).
Qed.
Lemma put_record_entries e l : Forall (fun e' => entry_name e' = entry_name e) l ->
  DnsServer.put_record (to_record e) (map to_record l) = map to_record (if bool_decide (e ∈ l) then l else l ++ [e]).
Proof.
  induction 1 as [|e' l He Hl IH]; [by rewrite bool_decide_false by apply not_elem_of_nil|].
  cbn [map DnsServer.put_record]. rewrite same_data_entry by done. destruct (decide (e' = e)) as [->|Hne].
  - rewrite bool_decide_true, bool_decide_true by (done || by left). done.
  - rewrite (bool_decide_false (e' = e)), IH by done. destruct (decide (e ∈ l)) as [Hin|Hin].
    + by rewrite !bool_decide_true by (done || by right).
    + rewrite !bool_decide_false; [done| |done]. intros [->|?]%elem_of_cons; done.
Qed.
Lemma elem_of_name key T e : e ∈ of_name key T <-> entry_name e = key /\ e ∈ T.
Proof. unfold of_name. by rewrite elem_of_filter, bool_decide_eq_true. Qed.
Lemma of_name_forall key T : Forall (fun e => entry_name e = key) (of_name key T).
Proof. apply Forall_forall. by intros e [? _]%elem_of_name. Qed.
Lemma of_name_app key T T' : of_name key (T ++ T') = of_name key T ++ of_name key T'.
Proof. apply List.filter_app. Qed.

Lemma add_record_table nm text ty s T : holds_table s T ->
  exists s', DnsServer.add_record (B := B) nm text ty s = Ok s' /\ holds_table s' (table_add T (nm, text, ty))
    /\ DnsServer.query_handler_ s' = DnsServer.query_handler_ s.
Proof.
  intros HT. unfold DnsServer.add_record. rewrite make_record_ok. mstep. unfold table_add. cbn [entry_of snd rdata name].
  set (key := DnsServer.normalize_name nm). set (d := data_of ty text). pose (e := (key, ty, d) : entry). change (key, ty, d) with e.
  destruct (decide (d = [])) as [Hd|Hd].
  { rewrite !(bool_decide_true (d = [])) by done. by exists s. }
  rewrite !(bool_decide_false (d = [])) by done. cbn [orb]. eexists. split; [done|]. split; [|done].
  assert (match DnsServer.dns_records_ s !! key with Some l => l | None => [] end = map to_record (of_name key T)) as ->
    by (rewrite (HT key); by destruct (of_name key T)).
  change (mkRecord key ty IN 3600 d) with (to_record e). rewrite put_record_entries by apply of_name_forall.
  intros k. cbn [DnsServer.dns_records_]. destruct (decide (k = key)) as [->|Hk].
  - rewrite lookup_insert. case_decide; [|done]. clear HT. destruct (decide (e ∈ T)) as [Hin|Hin].
    + rewrite !bool_decide_true; [|done|by apply elem_of_name]. assert (e ∈ of_name key T) as Hn by by apply elem_of_name.
      destruct (of_name key T); [by apply not_elem_of_nil in Hn|done].
    + rewrite !bool_decide_false; [|done|by intros [_ ?]%elem_of_name].
      assert (of_name key (T ++ [e]) = of_name key T ++ [e]) as ->; [|by destruct (of_name key T)].
      rewrite of_name_app. f_equal. unfold of_name. cbn. by rewrite bool_decide_true.
  - rewrite lookup_insert_ne by done. rewrite (HT k). case_bool_decide; [done|].
    assert (of_name k (T ++ [e]) = of_name k T) as ->; [|done].
    rewrite of_name_app. unfold of_name. cbn. rewrite bool_decide_false by done. by rewrite app_nil_r.
Qed.
Lemma add_all_table calls : forall s T, holds_table s T ->
  exists s', add_all calls s = Ok s' /\ holds_table s' (foldl table_add T calls) /\ DnsServer.query_handler_ s' = DnsServer.query_handler_ s.
Proof.
  induction calls as [|[[nm text] ty] calls IH]; intros s T HT; [by exists s|]. cbn [add_all foldl].
  destruct (add_record_table nm text ty s T HT) as (s1 & -> & HT1 & <-). mstep. by apply IH.
Qed.

(** What the table says of a question. *)
Definition asked (nm : bytes) (ty : Z) (e : entry) : bool :=
  bool_decide (entry_name e = DnsServer.normalize_name nm) && ((ty =? ANY) || (entry_type e =? ty)).
Lemma find_records_table s T nm ty : holds_table s T ->
  DnsServer.find_records s nm ty = map to_record (List.filter (asked nm ty) T).
Proof.
  intros HT. unfold DnsServer.find_records. rewrite (HT _).
  assert (forall p : DnsResourceRecord -> bool, forall l, List.filter p (map to_record l) = map to_record (List.filter (fun e => p (to_record e)) l)) as Hfm.
  { intros p l. induction l as [|e l IH]; [done|]. cbn. destruct (p (to_record e)); cbn; by rewrite IH. }
  assert (List.filter (fun e => (ty =? ANY) || (entry_type e =? ty)) (of_name (DnsServer.normalize_name nm) T) = List.filter (asked nm ty) T) as <-.
  { unfold of_name, asked. clear HT. induction T as [|e T IH]; [done|]. cbn. case_bool_decide; cbn; [|done]. case_if; cbn; by rewrite IH. }
  destruct (of_name _ T) as [|e l]; [done|]. by rewrite Hfm.
Qed.
Lemma has_name_table s T nm : holds_table s T -> DnsServer.has_name s nm = bool_decide (DnsServer.normalize_name nm ∈ map entry_name T).
Proof.
  intros HT. unfold DnsServer.has_name. rewrite (HT _). destruct (of_name _ T) as [|e l] eqn:E.
  - rewrite bool_decide_false; [done|]. intros (e & He & Hin)%elem_of_map.
    assert (e ∈ of_name (DnsServer.normalize_name nm) T) as Hn by by apply elem_of_name. rewrite E in Hn. by apply not_elem_of_nil in Hn.
  - rewrite bool_decide_true; [done|]. assert (e ∈ of_name (DnsServer.normalize_name nm) T) as [He Hin]%elem_of_name by (rewrite E; by left).
    apply elem_of_map. by exists e.
Qed.
Lemma has_record_table s T nm ty text : holds_table s T ->
  DnsServer.has_record (B := B) s nm ty text
  = Ok (negb (bool_decide (data_of ty text = [])) && bool_decide (entry_of (nm, text, ty) ∈ T)).
Proof.
  intros HT. unfold DnsServer.has_record. rewrite make_record_ok. mstep. cbn [rdata]. case_bool_decide as Hd; [done|]. cbn [negb andb].
  set (e := entry_of (nm, text, ty)). set (key := DnsServer.normalize_name nm). rewrite (HT key).
  assert (forall l, Forall (fun e' => entry_name e' = key) l ->
    existsb (DnsServer.same_data (mkRecord key ty IN 0 (data_of ty text))) (map to_record l) = bool_decide (e ∈ l)) as Hl.
  { induction 1 as [|e' l He' _ IH]; [by rewrite bool_decide_false by apply not_elem_of_nil|]. cbn [map existsb]. rewrite IH.
    pose proof (same_data_entry e e' He') as Hs. change (DnsServer.same_data (to_record e) (to_record e'))
      with (DnsServer.same_data (mkRecord key ty IN 0 (data_of ty text)) (to_record e')) in Hs. rewrite Hs.
    destruct (decide (e' = e)) as [->|Hne]; [rewrite bool_decide_true by done; symmetry; apply bool_decide_true; by left|].
    rewrite (bool_decide_false (e' = e)) by done. cbn [orb]. apply bool_decide_ext. rewrite elem_of_cons. naive_solver. }
  specialize (Hl (of_name key T) (of_name_forall key T)).
  assert (bool_decide (e ∈ of_name key T) = bool_decide (e ∈ T)) as E.
  { apply bool_decide_ext. rewrite elem_of_name. unfold e. cbn. naive_solver. }
  rewrite <- E, <- Hl. by destruct (of_name key T).
Qed.
End Records.

Definition empty_server (handler : option DnsServer.DnsQueryHandler) : DnsServer.t := DnsServer.mk ∅ handler.

(** C27: The records of a server are a table: whatever calls of add_record fill an empty server, they return; what is found for a name and a type are the entries of the table with that name (without its last dots, and with letters in either case) and that type, in the order in which they were first added; a name is known if an entry has it; and has_record says which data a name has. *)
Theorem dns_records_refine {B : Type} `{ByteSink B} calls handler :
  exists s, add_all (B := B) calls (empty_server handler) = Ok s /\ DnsServer.query_handler_ s = handler /\
  (forall nm ty, DnsServer.find_records s nm ty = map to_record (List.filter (asked nm ty) (table (B := B) calls))) /\
  (forall nm, DnsServer.has_name s nm = bool_decide (DnsServer.normalize_name nm ∈ map entry_name (table (B := B) calls))) /\
  (forall nm ty text, DnsServer.has_record (B := B) s nm ty text
     = Ok (negb (bool_decide (data_of (B := B) ty text = [])) && bool_decide (entry_of (B := B) (nm, text, ty) ∈ table (B := B) calls))).
Proof.
  destruct (add_all_table (B := B) calls (empty_server handler) []) as (s & E & HT & Hh); [done|].
  exists s. split; [done|]. split; [done|]. split; [|split]; intros.
  - by apply find_records_table.
  - by apply has_name_table.
  - by apply has_record_table.
Qed.

(** * A query and its answer *)
Definition question_of (domain : bytes) (ty : Z) : DnsQuestion := mkQuestion domain ty IN.
Definition query_of (id : Z) (domain : bytes) (ty : Z) : DnsPacket :=
  mkPacket id false QUERY false false true false NO_ERROR [question_of domain ty] [] [] [].
(** The response of a server without a handler of its own. *)
Definition answer_to (s : DnsServer.t) (id : Z) (domain : bytes) (ty : Z) : DnsPacket :=
  let found := DnsServer.find_records s domain ty in
  mkPacket id true QUERY true false true true
    (if bool_decide (found = []) && negb (DnsServer.has_name s domain) then NAME_ERROR else NO_ERROR)
    [question_of domain ty] found [] [].
Lemma create_response_one s id domain ty : DnsServer.query_handler_ s = None ->
  DnsServer.create_response (query_of id domain ty) Dns.empty_packet s = (answer_to s id domain ty, s).
Proof.
  intros Hh. unfold DnsServer.create_response, answer_to. cbn [opcode_ query_of questions_ DnsServer.question_loop].
  change (negb (QUERY =? QUERY)) with false. cbn iota. unfold DnsServer.answer_question. rewrite Hh. cbn [q_name q_type question_of].
  destruct (DnsServer.find_records s domain ty) as [|r l].
  - cbn [orb]. rewrite bool_decide_true, (bool_decide_true (@nil DnsResourceRecord = [])) by done. cbn [andb].
    destruct (DnsServer.has_name s domain); done.
  - rewrite (push_answers (r :: l)). cbn [orb andb]. rewrite andb_false_r, bool_decide_false by done. done.
Qed.

Section Exchange.
Context {B : Type} `{ByteSink B}.
Variable little : bool.

(** A round that the client goes over: it is in time, and its datagram is empty, no packet, or
    not the response. *)
Definition in_time (timeout elapsed : Z) : Prop := timeout <= 0 \/ elapsed < timeout.
Definition ignored (timeout id : Z) (r : DnsClient.round) : Prop :=
  in_time timeout (fst r) /\ exists b c, (forall wait, snd r wait = DnsClient.mkReceived true b) /\ view b c /\ Forall is_u8 c /\
  (c = [] \/ forall p b', deserialize little Dns.empty_packet b = Ok (true, p, b') -> is_response_ p = false \/ session_id_ p <> id).

Lemma packet_bytes_pos p : 0 < zlen (packet_bytes p).
Proof.
  unfold packet_bytes. rewrite zlen_app, zlen_be16. match goal with |- context [zlen ?l] => pose proof (zlen_nonneg l) end. lia.
Qed.
Lemma empty_typed : packet_typed Dns.empty_packet.
Proof. by apply (bool_decide_unpack _) || (unfold packet_typed, is_u16; cbn; split_and!; (lia || constructor)). Qed.
Lemma in_time_false timeout elapsed : in_time timeout elapsed -> (0 <? timeout) && (timeout <=? elapsed) = false.
Proof. unfold in_time. lia. Qed.
Lemma wait_ignored timeout id junk rounds c : Forall (ignored timeout id) junk ->
  DnsClient.wait_loop little timeout id (junk ++ rounds) c = DnsClient.wait_loop little timeout id rounds c.
Proof.
  induction 1 as [|[el recv] junk (Hin & b & d & Hr & Hv & Hu & Hd) _ IH]; [done|]. cbn [app DnsClient.wait_loop fst snd] in *. cbv zeta.
  rewrite in_time_false, !Hr by done. cbn [DnsClient.success DnsClient.data negb]. rewrite (view_readable _ _ Hv).
  case_if; [done|]. destruct Hd as [->|Hd]; [done|].
  destruct (deserialize_any little Dns.empty_packet b d Hv Hu empty_typed) as (r & p & b' & n & E & _). rewrite E. mstep.
  destruct r; [|done]. cbn [negb]. destruct (Hd p b' E) as [->|Hne]; [done|].
  replace (session_id_ p =? id) with false by lia. by rewrite orb_true_r.
Qed.

Lemma query_ok id domain ty : is_u16 id -> name_ok domain -> is_u16 ty -> packet_ok (query_of id domain ty).
Proof.
  intros Hi Hn Ht. unfold packet_ok. cbn. split_and!; try done; try lia; try constructor; [|constructor].
  by split_and!.
Qed.
Lemma answer_ok s id domain ty : is_u16 id -> name_ok domain -> is_u16 ty ->
  Forall record_ok (DnsServer.find_records s domain ty) -> zlen (DnsServer.find_records s domain ty) < 65536 ->
  packet_ok (answer_to s id domain ty).
Proof.
  intros Hi Hn Ht Hr Hl. unfold packet_ok. cbn. split_and!; try done; try lia; try (unfold NAME_ERROR, NO_ERROR; case_if; lia); try constructor; [|constructor].
  by split_and!.
Qed.
End Exchange.

(** C23: A query of the client is answered from the records of the server: the datagram that the client sends is answered by a datagram, and when the client reads it, whatever it had read before that was not a response to this query, it returns a response with the number of the query and its question, the records of that name and type as the only answers, and the code of an unknown name exactly when the server has no record of the name. The server has no query handler (which may add answers), the name is empty or made of labels of 1 to 63 bytes without a final dot (a name with one comes back without it), the records are well formed and fewer than 65536, and every read, the one of the answer too, comes in before the timeout. *)
Theorem dns_query_answered {B : Type} `{ByteSink B} little s c domain ty timeout junk elapsed rest :
  DnsServer.query_handler_ s = None -> name_ok domain -> is_u16 ty -> is_u16 (DnsClient.next_session_id_ c) ->
  Forall record_ok (DnsServer.find_records s domain ty) -> zlen (DnsServer.find_records s domain ty) < 65536 ->
  Forall (ignored little timeout (DnsClient.next_session_id_ c)) junk -> in_time timeout elapsed ->
  exists query reply, let answer := answer_to s (DnsClient.next_session_id_ c) domain ty in
  (forall b, view b (sink_contents (B := B) query) -> DnsServer.handle_dns_query little b s = Ok (Some reply, s)) /\
  (forall b, view b (sink_contents (B := B) reply) ->
     DnsClient.query_async little true (fun _ => true) domain ty timeout (junk ++ (elapsed, fun _ => DnsClient.mkReceived true b) :: rest) c
     = Ok (Some answer, Some query, DnsClient.mk (u16 (DnsClient.next_session_id_ c + 1)) answer)).
Proof.
  intros Hh Hn Ht Hid Hr Hl Hj Hin. set (id := DnsClient.next_session_id_ c) in *.
  pose proof (serialize_encodes (B := B) (query_of id domain ty)) as (query & Eq & _ & Cq).
  pose proof (serialize_encodes (B := B) (answer_to s id domain ty)) as (reply & Er & _ & Cr).
  exists query, reply. cbv zeta. split; intros b Hb.
  - rewrite Cq, <- (app_nil_r (packet_bytes _)) in Hb. unfold DnsServer.handle_dns_query.
    rewrite (view_readable _ _ Hb). case_if; [match goal with _ : context [packet_bytes ?p] |- _ => pose proof (packet_bytes_pos p); zlia end|].
    destruct (packet_read little _ b [] Dns.empty_packet Hb (query_ok id domain ty Hid Hn Ht) ltac:(constructor)) as (b' & -> & _). mstep. cbn [negb].
    rewrite create_response_one by done. by rewrite Er.
  - rewrite Cr, <- (app_nil_r (packet_bytes _)) in Hb. unfold DnsClient.query_async. cbn [negb].
    unfold DnsClient.build_query_packet. fold id. change (add_question _ _) with (query_of id domain ty). rewrite Eq. mstep. cbn [negb].
    rewrite wait_ignored by done. cbn [DnsClient.wait_loop]. cbv zeta. rewrite in_time_false by done.
    cbn [DnsClient.success DnsClient.data negb]. rewrite (view_readable _ _ Hb).
    case_if; [match goal with _ : context [packet_bytes ?p] |- _ => pose proof (packet_bytes_pos p); zlia end|].
    destruct (packet_read little _ b [] Dns.empty_packet Hb (answer_ok s id domain ty Hid Hn Ht Hr Hl) ltac:(constructor)) as (b' & -> & _). mstep.
    cbn [negb is_response_ answer_to session_id_ orb]. by rewrite Z.eqb_refl.
Qed.

(** * Any input *)
Section Any.
Context {B : Type} `{ByteSink B}.
Variable little : bool.

(** The rounds of a wait whose datagrams hold bytes. *)
Definition datagrams (rounds : list DnsClient.round) : Prop :=
  Forall (fun r => forall wait, exists ok b c, snd r wait = DnsClient.mkReceived ok b /\ view b c /\ Forall is_u8 c) rounds.
(** What a wait may come to: nothing yet, no response, or a response to the query, which the
    client keeps. *)
Definition waited (id : Z) (c : DnsClient.t) (r : option DnsPacket * DnsClient.t) : Prop :=
  match fst r with
  | None => snd r = c
  | Some p => (p = Dns.empty_packet /\ snd r = c)
      \/ (is_response_ p = true /\ session_id_ p = id /\ packet_typed p /\ snd r = DnsClient.mk (DnsClient.next_session_id_ c) p)
  end.
Lemma wait_any timeout id rounds c : datagrams rounds ->
  exists r, DnsClient.wait_loop little timeout id rounds c = Ok r /\ waited id c r.
Proof.
  induction 1 as [|[el recv] rounds Hr _ IH]; [by eexists|]. cbn [DnsClient.wait_loop snd] in *. cbv zeta.
  case_if; [eexists; split; [done|by left]|].
  set (wait := if 0 <? timeout then _ else _). destruct (Hr wait) as (ok & b & d & -> & Hv & Hu). cbn [DnsClient.success DnsClient.data].
  destruct ok; [|eexists; split; [done|by left]]. cbn [negb]. case_if; [done|].
  destruct (deserialize_any little Dns.empty_packet b d Hv Hu empty_typed) as (r & p & b' & n & E & Hp & _). rewrite E. mstep.
  destruct r; [|done]. cbn [negb]. case_if; [done|]. apply orb_false_iff in Hif1 as [Hres%negb_false_iff Hid%negb_false_iff].
  eexists. split; [done|]. right. cbn. split; [done|]. split; [lia|done].
Qed.
Lemma handle_any b c s : view b c -> Forall is_u8 c ->
  exists o s', DnsServer.handle_dns_query (B := B) little b s = Ok (o, s') /\ (o = None -> s' = s)
    /\ (DnsServer.query_handler_ s = None -> s' = s) /\ (forall reply, o = Some reply -> exists p, sink_contents reply = packet_bytes p).
Proof.
  intros Hb Hu. unfold DnsServer.handle_dns_query. case_if; [by eexists _, _|].
  destruct (deserialize_any little Dns.empty_packet b c Hb Hu empty_typed) as (r & q & b' & n & E & _). rewrite E. mstep.
  destruct r; [|by eexists _, _]. cbn [negb]. destruct (DnsServer.create_response q Dns.empty_packet s) as [p s'] eqn:Ec.
  destruct (serialize_encodes (B := B) p) as (reply & Er & _ & Cr). rewrite Er. mstep. eexists _, _. split; [done|]. split; [done|].
  split; [|intros x [= <-]; by exists p]. intros Hh. revert Ec. unfold DnsServer.create_response.
  assert (forall qs p m, (DnsServer.question_loop q qs p s m).1.2 = s) as Hloop.
  { induction qs as [|qu qs IH]; intros p1 m; [done|]. cbn [DnsServer.question_loop]. unfold DnsServer.answer_question at 1. rewrite Hh.
    destruct (DnsServer.find_records s _ _); apply IH. }
  case_if; [by intros [= _ <-]|]. match goal with |- context [DnsServer.question_loop q ?qs ?p ?s ?m] => specialize (Hloop qs p m);
    destruct (DnsServer.question_loop q qs p s m) as [[p1 s1] m1] end. cbn in Hloop. case_if; by intros [= _ <-].
Qed.
End Any.

(** A response as servers send them: the name of its answer is a pointer to the name of the
    question, which is at offset 12 of the message. *)
Definition compressed_response (id : Z) (nm : bytes) (ttl : Z) (ip : bytes) : bytes :=
  be16 id ++ be16 33152 ++ be16 1 ++ be16 1 ++ be16 0 ++ be16 0 ++ question_bytes (mkQuestion nm A IN)
  ++ [192; 12] ++ be16 A ++ be16 IN ++ be32 ttl ++ be16 4 ++ ip.
Lemma compressed_name_refused ttl a b c d : is_u8 a -> is_u8 b -> is_u8 c -> is_u8 d -> 4 <= a < 192 \/ 192 < a ->
  decode_name ([192; 12] ++ be16 A ++ be16 IN ++ be32 ttl ++ be16 4 ++ [a; b; c; d]) 0 = Reject.
Proof.
  intros Ha Hb Hc Hd Hr. set (data := _ ++ _).
  assert (Forall is_u8 data) as Hu.
  { apply Forall_app. split; [by apply (bool_decide_unpack _)|].
    do 4 (apply Forall_app; split; [apply be16_is_u8 || apply be32_is_u8|]). by repeat (constructor; [done|]). }
  pose proof (decode_name_safe data 0 Hu ltac:(lia)) as Hs. destruct (decode_name data 0) as [[nm e]| | |] eqn:E; [|done..].
  exfalso. apply decode_name_exact in E as (ls & Hsp & _); [|done|lia].
  assert (rd data 0 = Ok 192) as H0 by done. assert (rd data 1 = Ok 12) as H1 by done. assert (rd data 12 = Ok a) as H12 by done.
  assert (rd data 13 = Ok b) as H13 by done. assert (zlen data = 16) as Hz by done. clearbody data.
  inversion Hsp as [|?|????? ? Hl _|???? ? Hp Ht]; subst; [congruence| |].
  { destruct Hl as (n & Hn & ? & _). rewrite H0 in Hn. injection Hn as <-. lia. }
  destruct Hp as (hi & lo & Hhi & _ & Hlo & -> & _). rewrite H0 in Hhi. injection Hhi as <-.
  change (0 + 1) with 1 in Hlo. rewrite H1 in Hlo. injection Hlo as <-. change ((192 - 192) * 256 + 12) with 12 in Ht.
  inversion Ht as [? ? Hr0|? ? Hend|????? ? Hl _|???? ? Hp _]; subst.
  - rewrite H12 in Hr0. injection Hr0 as ->. lia.
  - lia.
  - apply label_at_lt in Hl as Hlt. destruct Hl as (n & Hn & ? & _ & ->). rewrite H12 in Hn. injection Hn as <-. lia.
  - apply pointer_at_lt in Hp as Hlt; [|done]. destruct Hp as (hi & lo & Hhi & ? & Hlo & -> & _). rewrite H12 in Hhi. injection Hhi as <-.
    change (12 + 1) with 13 in Hlo. rewrite H13 in Hlo. injection Hlo as <-. unfold is_u8 in *. lia.
Qed.

Lemma answer_refused little id fl q answer buf p0 : is_u16 id -> is_u16 fl -> question_ok q -> Forall is_u8 answer ->
  decode_name answer 0 = Reject ->
  view buf (be16 id ++ be16 fl ++ be16 1 ++ be16 1 ++ be16 0 ++ be16 0 ++ question_bytes q ++ answer) ->
  exists p buf', deserialize little p0 buf = Ok (false, p, buf') /\ questions_ p = [q] /\ answers_ p = [].
Proof.
  intros Hi Hf Hq Ha Hd Hv. set (rest := question_bytes q ++ answer) in *.
  set (head := be16 id ++ be16 fl ++ be16 1 ++ be16 1 ++ be16 0 ++ be16 0).
  assert (view buf (head ++ rest)) as Hv1 by (unfold head; by rewrite <- !app_assoc).
  unfold deserialize. rewrite (view_span _ _ Hv). mstep.
  case_if; [rewrite !zlen_app, !zlen_be16 in Hif; pose proof (zlen_nonneg rest); lia|].
  destruct (head_read little id fl 1 1 0 0 rest) as (-> & -> & -> & -> & -> & ->); [done..|]. mstep.
  pose proof (set_read_view buf head rest Hv1) as Hset. change (zlen head) with 12 in Hset. rewrite Hset.
  pose proof (view_advance buf head rest Hv1) as Hb1. change (zlen head) with 12 in Hb1. clear Hset Hif.
  generalize dependent (advance 12 buf). intros b0 Hb1.
  destruct (question_read little q b0 answer Hb1 Hq Ha) as (b1 & E1 & Hb2).
  assert (record_deserialize little b1 = Reject) as E2.
  { unfold record_deserialize. rewrite (view_span _ _ Hb2). mstep. by rewrite Hd. }
  generalize (set_flags fl (set_session_id id p0)). intros p1.
  change (Z.to_nat 1) with 1%nat. unfold if_read at 1. cbn [read_loop]. rewrite E1. mstep.
  unfold if_read at 1. cbn [read_loop]. rewrite E2. mstep. by eexists _, _.
Qed.

(** C24: The reader of names is the name format: at a position it returns a name and the end of it exactly when labels of 1 to 63 bytes are spelled there, along any number of pointers that lead to a root or past the end of the data, and the name is those labels with dots between them; otherwise, with loops of pointers too, it refuses. It reads only its input, and ends. *)
Theorem dns_name_exact data pos nm e : Forall is_u8 data -> 0 <= pos ->
  (decode_name data pos = Ok (nm, e) <-> exists ls, spells data None pos ls e /\ nm = join_with 46 ls)
  /\ safe (decode_name data pos) /\ (decode_name data pos = Ok (nm, e) -> pos < e <= zlen data).
Proof.
  intros Hu Hp. split; [by apply decode_name_exact|]. split; [by apply decode_name_safe|].
  intros (ls & Hs & _)%decode_name_exact; [|done..]. by apply spells_bounds in Hs.
Qed.
Lemma dns_name_exact_witness :
  let data := str "xx" ++ [3] ++ str "www" ++ [192; 9] ++ [9] ++ [3] ++ str "com" ++ [0] in
  Forall is_u8 data /\ exists ls, spells data None 2 ls 8 /\ str "www.com" = join_with 46 ls.
Proof.
  cbv zeta. split; [by apply (bool_decide_unpack _)|].
  apply (proj1 (dns_name_exact (str "xx" ++ [3] ++ str "www" ++ [192; 9] ++ [9] ++ [3] ++ str "com" ++ [0]) 2 (str "www.com") 8
    ltac:(by apply (bool_decide_unpack _)) ltac:(lia))). reflexivity.
Defined.

(** C25: A packet survives the wire: a packet of valid names, whose fields are in the range of their types, is written as bytes, and reading them, into a packet with any contents, gives it back and leaves what follows it in the buffer. *)
Theorem dns_packet_roundtrip {B : Type} `{ByteSink B} little p post : packet_ok p -> Forall is_u8 post ->
  exists out, w_run ByteBuffer.kDefaultCapacity (serialize (B := B) p) = Ok out /\
  forall b p0, view b (sink_contents out ++ post) -> exists b', deserialize little p0 b = Ok (true, p, b') /\ view b' post.
Proof.
  intros Hp Hu. destruct (serialize_encodes (B := B) p) as (out & E & _ & C). exists out. split; [done|].
  intros b p0 Hb. rewrite C in Hb. by apply packet_read.
Qed.
(** The witnesses write to the buffer of a little-endian host. *)
#[local] Instance buffer_sink : ByteSink ByteBuffer.t := ByteBuffer_sink true.
Definition sample_packet : DnsPacket :=
  mkPacket 4660 true QUERY true false true true NO_ERROR [mkQuestion (str "www.example.com") A IN]
    [mkRecord (str "www.example.com") A IN 300 [93; 184; 216; 34]; mkRecord (str "www.example.com") TXT IN 60 (3 :: str "abc")]
    [mkRecord (str "example.com") NS IN 3600 (labels_bytes (name_labels (str "ns.example.com")))] [].
Lemma dns_packet_roundtrip_witness :
  packet_ok sample_packet /\ exists out : ByteBuffer.t, w_run ByteBuffer.kDefaultCapacity (serialize sample_packet) = Ok out /\
  forall b p0, view b (sink_contents out ++ [1; 2]) -> exists b', deserialize true p0 b = Ok (true, sample_packet, b') /\ view b' [1; 2].
Proof.
  assert (packet_ok sample_packet) as Hp by by apply (bool_decide_unpack _).
  split; [exact Hp|]. apply (dns_packet_roundtrip true sample_packet [1; 2] Hp). by apply (bool_decide_unpack _).
Defined.

(** C26: Whatever bytes arrive, the server and the client go on: reading a packet from any bytes ends within them and leaves a packet whose fields are in the range of their types; the server answers with a packet or not at all, and is unchanged unless its handler changes it; and a client that waits over any datagrams returns an empty packet, a response with the number of its query, which it keeps, or waits still. *)
Theorem dns_total {B : Type} `{ByteSink B} little b c s timeout id rounds cl : view b c -> Forall is_u8 c -> datagrams rounds ->
  (forall p0, packet_typed p0 -> read_some c (deserialize little p0 b))
  /\ (exists o s', DnsServer.handle_dns_query (B := B) little b s = Ok (o, s') /\ (o = None -> s' = s)
        /\ (DnsServer.query_handler_ s = None -> s' = s) /\ (forall reply, o = Some reply -> exists p, sink_contents reply = packet_bytes p))
  /\ (exists r, DnsClient.wait_loop little timeout id rounds cl = Ok r /\ waited id cl r).
Proof.
  intros Hb Hu Hr. split; [intros p0 Hp; by apply deserialize_any|]. split; [by apply (handle_any little b c)|by apply wait_any].
Qed.
Lemma dns_total_witness : exists b, view b [1; 2; 3] /\ read_some [1; 2; 3] (deserialize true Dns.empty_packet b).
Proof.
  destruct (of_span_view [1; 2; 3]) as (b & _ & Hb). exists b. split; [exact Hb|].
  apply (dns_total (B := ByteBuffer.t) true b [1; 2; 3] (empty_server None) 0 1 [] DnsClient.init Hb
    ltac:(by apply (bool_decide_unpack _)) ltac:(constructor)). exact empty_typed.
Defined.

(** C28: The text of a record's data stands for it: an IPv4 address, an IPv6 address (with its longest run of zero words left out), the strings of a TXT record when there is at least one, none has a space or more than 255 bytes, and the last is not empty (an empty last string is lost), and the preference and the host of an MX record, whose host is a name without blanks that is not empty, are formatted as a text that is not empty, and setting this text gives a record of that type the same data. *)
Theorem dns_text_roundtrip {B : Type} `{ByteSink B} r r' : text_data (type r) (rdata r) -> type r' = type r ->
  exists t, get_rdata_as_string r = Ok t /\ t <> [] /\ set_rdata_from_string (B := B) t r' = Ok (with_rdata r' (rdata r)).
Proof. apply text_back. Qed.
Lemma dns_text_roundtrip_witness :
  let r := mkRecord (str "a") AAAA IN 60 [32; 1; 13; 184; 0; 0; 0; 0; 0; 0; 0; 0; 0; 0; 0; 1] in
  get_rdata_as_string r = Ok (str "2001:db8::1") /\
  exists t, get_rdata_as_string r = Ok t /\ t <> [] /\
    set_rdata_from_string (B := ByteBuffer.t) t (mkRecord [] AAAA IN 0 []) = Ok (with_rdata (mkRecord [] AAAA IN 0 []) (rdata r)).
Proof.
  cbv zeta. split; [reflexivity|].
  apply (dns_text_roundtrip (B := ByteBuffer.t)
    (mkRecord (str "a") AAAA IN 60 [32; 1; 13; 184; 0; 0; 0; 0; 0; 0; 0; 0; 0; 0; 0; 1]) (mkRecord [] AAAA IN 0 [])); [|reflexivity].
  apply data_aaaa; [by apply (bool_decide_unpack _)|reflexivity].
Defined.

(** C29: A response whose answer names the question by a pointer, as servers write it, is refused for every address that does not start with 0 to 3 or 192: pointers are taken from the start of the record, where they mean the start of the message. *)
Theorem dns_compressed_refused little id nm ttl a b c d buf p0 : is_u16 id -> name_ok nm -> is_u32 ttl ->
  is_u8 a -> is_u8 b -> is_u8 c -> is_u8 d -> 4 <= a < 192 \/ 192 < a ->
  view buf (compressed_response id nm ttl [a; b; c; d]) ->
  exists p buf', deserialize little p0 buf = Ok (false, p, buf') /\ questions_ p = [mkQuestion nm A IN] /\ answers_ p = [].
Proof.
  intros Hi Hn Ht Ha Hb Hc Hd Hr Hv. unfold compressed_response in Hv.
  eapply answer_refused; [exact Hi| |done| | |exact Hv].
  - by apply (bool_decide_unpack _).
  - apply Forall_app. split; [by apply (bool_decide_unpack _)|].
    do 4 (apply Forall_app; split; [apply be16_is_u8 || apply be32_is_u8|]). by repeat (constructor; [done|]).
  - by apply compressed_name_refused.
Qed.
Lemma dns_compressed_refused_witness :
  exists buf p buf', view buf (compressed_response 7 (str "example.com") 300 [93; 184; 216; 34]) /\
  deserialize true Dns.empty_packet buf = Ok (false, p, buf') /\ questions_ p = [mkQuestion (str "example.com") A IN].
Proof.
  destruct (of_span_view (compressed_response 7 (str "example.com") 300 [93; 184; 216; 34])) as (buf & _ & Hv). exists buf.
  destruct (dns_compressed_refused true 7 (str "example.com") 300 93 184 216 34 buf Dns.empty_packet) as (p & buf' & E & Hq & _);
    try (by apply (bool_decide_unpack _)); try done; try (unfold is_u32; lia); try lia.
  exists p, buf'. split; [exact Hv|]. split; [exact E|exact Hq].
Defined.

(** A server as it is constructed, and a round whose datagram is empty. *)
Definition new_server : DnsServer.t := match DnsServer.init (B := ByteBuffer.t) with Ok s => s | _ => empty_server None end.
Definition empty_round : DnsClient.round := (0, fun _ => DnsClient.mkReceived true ByteBuffer.default).
Lemma dns_query_answered_witness :
  DnsServer.find_records new_server (str "LocalHost") A = [mkRecord (str "localhost") A IN 3600 [127; 0; 0; 1]] /\
  exists query reply : ByteBuffer.t, let answer := answer_to new_server 1 (str "LocalHost") A in
  (forall b, view b (sink_contents query) -> DnsServer.handle_dns_query true b new_server = Ok (Some reply, new_server)) /\
  (forall b, view b (sink_contents reply) ->
     DnsClient.query_async true true (fun _ => true) (str "LocalHost") A 5000 ([empty_round] ++ (40, fun _ => DnsClient.mkReceived true b) :: []) DnsClient.init
     = Ok (Some answer, Some query, DnsClient.mk 2 answer)).
Proof.
  assert (DnsServer.find_records new_server (str "LocalHost") A = [mkRecord (str "localhost") A IN 3600 [127; 0; 0; 1]]) as Hf
    by (vm_compute; reflexivity).
  split; [exact Hf|].
  apply (dns_query_answered true new_server DnsClient.init (str "LocalHost") A 5000 [empty_round] 40 []).
  - vm_compute. reflexivity.
  - by apply (bool_decide_unpack _).
  - split; [discriminate|reflexivity].
  - split; [discriminate|reflexivity].
  - rewrite Hf. by apply (bool_decide_unpack _).
  - rewrite Hf. reflexivity.
  - constructor; [|constructor]. split; [right; reflexivity|]. exists ByteBuffer.default, [].
    split; [reflexivity|]. split; [apply view_default|]. split; [constructor|]. by left.
  - right. reflexivity.
Defined.
